(* ===== verification/_CoqProject ===== *)
-Q . S2P
Prelude.v
Double.v
Crc16.v
ChunkHdr.v
Chunker.v
Reassembly.v
ChunkStream.v
ClockSync.v
Outq.v
FrameRing.v
AnnexB.v
RtpH265.v
Packetizer.v
TimingSei.v
CtrlMsg.v
IdrCtrl.v
SidecarSrv.v
RxMain.v
RxFrames.v
RetxEvent.v
ChipAdc.v
Link.v
TxSend.v
IdrRelay.v
Monad.v
RingWait.v
TxMain.v
ShmRing.v
TxFrames.v
BitrateCtl.v
BitrateRules.v
BitratePi.v
EndToEnd.v
Video.v
KmodNet.v
KmodPath.v
KmodLink.v
KmodQueue.v
KmodSdio.v
KmodCdev.v
KmodBoot.v
KmodDemo.v
KmodProbe.v
LcText.v
Strtod.v
HttpGet.v
LcTuning.v
LcPair.v
LcConfig.v
LcRun.v
LcBoard.v
Lifecycle.v
LcTick.v
LcDebounce.v
LcPower.v
LcHeat.v
LcSidecars.v
LcPeers.v
LcHttp.v
LcJson.v
LcReplies.v
LcRequests.v
LcDemo.v
CtlArgs.v
CtlCmds.v
CtlMeter.v
CtlProofs.v
Os.v
AirMain.v
RxLog.v
GroundMain.v
AudioTx.v
AudioRx.v
AudioPath.v
Ledger.v
AudioMain.v
AirEnds.v
GroundEnds.v
VideoMain.v
Still.v
