(* ===== verification/Prelude.v ===== *)
(** * ar8030-transport: a verification development

    The program carries H.265 video over the data channel of an AR8030 radio
    module, from an encoder on the aircraft ("air") to a player on the ground,
    and keeps that radio alive.  Its parts, and where they are modelled:

    - The air unit, [tx/].  The encoder leaves frames, or slices of frames, in
      a shared-memory ring ([FrameRing]: [third_party/waybeam_frame_ring];
      [RingWait]: its blocking read; [ShmRing]: its name, from creation to the end).
      The send loop ([TxMain]: [tx/main.c]) takes them off, numbers them, cuts
      them into chunks ([Chunker]: [common/chunker.c]; [ChunkHdr]:
      [common/ar8030_chunk.h]; [Crc16]: [common/crc16.c]) and writes those to
      the radio's socket ([TxSend]), with small chunks of other threads riding
      along from a queue ([Outq]: [tx/outq.c]).  Other threads answer the
      ground's keyframe and clock requests ([IdrCtrl], [CtrlMsg]:
      [tx/idr_ctrl.c]), subscribe to the encoder's timing datagrams
      ([SidecarSrv]: [tx/sidecar_sub.c]) and steer the encoder's bitrate
      ([BitrateCtl], [BitrateRules], [BitratePi]: [tx/bitrate_ctl.c]), which
      takes an HTTP client ([HttpGet]: [common/http_get.c]).  The rest of [tx/main.c], from the command line to the exit code, is in [AirMain].
      [Still] is the program that stands in for the encoder with one stored
      picture ([still/main.c]).
    - The ground, [rx/].  Chunks come out of the byte stream ([ChunkStream]:
      [common/chunk_stream.c]), become frames again ([Reassembly]:
      [common/reassembly.c]), and go on, slice by slice when they come that
      way, to RTP packets ([RxMain]: [rx/main.c]; [RtpH265]: [rx/rtp_h265.c])
      with a timing message inside ([TimingSei]: [common/timing_sei.c];
      [ClockSync]: [rx/clock_sync.c]).  [IdrRelay] is the thread that passes the
      player's keyframe requests up and asks for the time ([rx/idr_relay.c]);
      [SidecarSrv] serves the timing datagrams ([rx/sidecar_srv.c]).
      [GroundMain] is the program around them, both threads included, with its
      log file ([RxLog]: [rx/rx_log.c]).
    - Audio, on a socket of its own: one program on the air ([AudioTx]:
      [audio_tx/main.c]) and one on the ground ([AudioRx]: [audio_rx/main.c]).
      What all four programs ask of the operating system is in [Os].
    - What both ends share: opening and reopening the link ([Link]:
      [common/ar8030_link.c]), small requests to the chip ([ChipAdc],
      [RetxEvent]: the headers of [common/]).
    - The link daemon, [lifecycled/]: its options ([LcConfig]: [main.c],
      [lifecycle.h]), reset line, bind button and client ([LcBoard]), pairing
      ([LcPair]: [lifecycle_pair.c]), settings kept in files ([LcText],
      [LcTuning]: [lifecycle_tuning.c]), the supervisor thread ([Lifecycle],
      [LcTick]: [lifecycle.c]) and the HTTP server in front of it ([LcHttp]:
      [lifecycle_http.c]).  The programs it runs - hooks
      ([lifecycle_hooks.c]), the pairing tool, the link control tool, the
      temperature command - are in [LcRun].
    - The link control tool, [linkctl/main.c]: its arguments ([CtlArgs]) and
      its commands, those that set something ([CtlCmds]) and those that measure
      or watch ([CtlMeter], with the session around them).
    - The radio module's kernel driver, [kmod/]: the SDIO transport under
      [/dev/artosyn_sdio] with the firmware push ([KmodSdio]:
      [artosyn_sdio.c]) and the network device on one of the module's sockets
      ([KmodNet]: [artosyn_net.c]), with their coming and going ([KmodProbe]).

    Each file opens with what it holds; a definition has the name of the
    function, type or constant it models, or says which lines of one.

    ** How the code is modelled

    A C integer is a [Z] with its wrap-around written out ([u8] ... [s64]); a
    byte string is a [list Z]; a [double] is IEEE 754 binary64 ([Double]); a
    C [long] has 64 bits.  A
    function that changes state takes and returns it; long stateful functions
    are written in the state monad of [Monad].  Code that is not in the
    repository - the baseband SDK, the kernel, the file system, cJSON, the
    clock, the encoder's HTTP server, the other process at the ring - is a
    class ([TxEnv], [TxRing], [LinkSdk], [ProgramOs], [Threads], [RxOs],
    [LcSdk], [CJson], [NetIo], [SdioIo], [ProcOs], [TcpOs], [CtlMeter] ...) over an unknown world [W]: an operation is a function [W -> A * W], so that
    it may answer differently every time.  What theorems need of such an
    environment is named in a class of laws ([TxWire], [Packetizer]) or a
    hypothesis, and instantiated by a concrete one where the theorems are
    applied.  Calls that only print are left out.

    Loops of the source that count are [Fixpoint]s on that count; loops that
    wait for the environment take fuel, and their result is an [option] (or has
    a value for "out of fuel").  Bounds that are enough are proved: two steps
    per byte for [stream_read_loop] ([ChunkStream.stream_read_sound],
    [stream_delivers_in_order]), the buffer's length for [write_loop]
    ([TxSend]), the polls until a stop for the reconnect loops
    ([Link.reconnect_terminates]), and for the four programs as a whole
    ([Ledger.read_fuel]).  A control loop's endless [while] is a
    function of the number of turns, and its theorems hold for every number.

    Threads.  The two ends of the frame ring are interleaved at their loads and
    stores ([FrameRing.ring_step], [RingWait.wait_step]), taken as sequentially
    consistent except where [RingWait] says so.  [Outq] and [ClockSync] are behind a mutex:
    every operation is a step.  The send loop takes what other threads queued at
    each [stage_outq].  In [GroundMain] any of the other threads' turns fall
    between two turns of the main loop, never inside one.  In [lifecycled], the event callback, the HTTP threads'
    mailboxes and the signal handler may act between any two stages of a tick
    ([LcTick.lc_step]); a stage is as large as one function of the source, so
    races inside one are not covered.  In the kernel driver the interrupt
    handler runs wherever the code waits or claims the host ([KmodSdio]), and the
    network stack's calls and the transmit worker are interleaved step by step
    ([KmodQueue]); a reply that comes in during a write counts as taken right
    after it, which is the same, as nothing in between reads what it changes.

    ** What is shown

    - The whole path.  [Video]: the frames in the ring become, one by one and in
      order, pictures at the player, whatever the cuts of writes and reads and
      the chunks riding along.  [TxFrames]: the send loop's counters and frame
      numbers balance in every environment.  [EndToEnd]: one frame's slices.
    - The audio path: every datagram heard on the air leaves on the ground, once
      and in order ([AudioPath]).
    - Start and end: in a system that counts everything handed out and answers
      each call in any way, before the stop flag is raised and after
      ([Ledger]), the audio programs ([AudioMain]) and the
      video programs ([AirEnds], [GroundEnds], [VideoMain]) end when asked to,
      with their threads joined and everything given back.
    - The pieces of it.  Chunks: what a frame is cut into, refusals
      ([Chunker]); what reaches the wire on a socket that may fail ([TxSend]);
      what comes out of a byte stream, framing and resynchronisation
      ([ChunkStream]); which error bursts the CRC catches ([Crc16]); whole and
      streamed frames through reassembly, soundness, loss accounting
      ([Reassembly]); RTP against a receiver for RFC 7798 ([RtpH265]); the
      timing message is found again and is a legal NAL unit ([TimingSei]); the
      receive loop ([RxMain], [RxFrames]).
    - Data structures against their specifications: the frame ring is a FIFO for
      every interleaving, with its geometry in bounds ([FrameRing]), its reader
      is never left asleep ([RingWait]), a new ring under its name is noticed
      with other processes at work on it all the time ([ShmRing]) and a stored picture comes out whole ([Still]); the queue
      is a drop-oldest FIFO ([Outq]); the sidecar table is fair ([SidecarSrv]).
    - Time and control: the clock estimate's error bound ([ClockSync]); messages
      survive their text ([CtrlMsg]); keyframe requests are filtered
      ([IdrCtrl]) and repeated until the video shows them ([IdrRelay]); the
      bitrate controllers stay within their limits and learn no floor above
      the encoder's ([BitrateCtl], [BitrateRules], [BitratePi]) and their HTTP client reports what the encoder
      answered ([HttpGet]); events are edges ([RetxEvent]).
    - The link: no handle is leaked, and reconnecting ends ([Link]).
    - The daemon: power never above its cap ([LcPower]), the link's debounce
      ([LcDebounce]), heat and standby ([LcHeat]), settings files ([LcSidecars])
      and remembered units ([LcPeers]); [LcDemo] runs these on a concrete world.
    - What it runs: an event starts the right hooks in the right order, and what
      a tool prints arrives whole while its exit code does not ([LcRun]).
    - Its HTTP server: a request arrives as the client made it, and a POST is one
      request to the supervisor's mailboxes or nothing ([LcRequests]); every
      reply is one whole JSON text of the grammar in [LcJson] behind a right
      Content-Length ([LcReplies]); [LcDemo] runs these.
    - The link control tool: options are found wherever they stand, but not with
      their value attached ([CtlArgs]); a channel change is made in order and only
      with a peer, the exit code is honest, one request of [blast]'s apart, and
      the session is closed ([CtlProofs]); the chip's
      configuration is read whole ([CtlMeter]).
    - The kernel driver: packets cross from one host to the other whatever way
      the chip cuts the stream ([KmodPath], [KmodLink]), the transmit queue never
      stays behind or stopped ([KmodQueue]); the daemon reads one stream and the
      queue's count is right ([KmodCdev]); writes reach the FIFO whole and in
      order, and what the boot ROM loads ([KmodBoot]); whatever fails, a
      probe and a removal give back all they took ([KmodProbe]); [KmodDemo] runs
      these on concrete hosts.

    ** Not modelled

    Printing and [-v]'s latency figures; the HTTP server's page and its
    listening socket; the sysfs text of the kernel
    driver; the replay tool and the tests.  Real time: a clock is whatever the environment
    answers. *)

(** ** This file

    Machine integers with their wrap-around, byte strings, C-style slices. *)

From Stdlib Require Export ZArith Lia.
From stdpp Require Export base list numbers.

Declare Scope c_scope.
Delimit Scope c_scope with c.

#[local] Open Scope Z_scope.

(** ** Machine integers

    A [w]-bit unsigned integer is a [Z] in [0, 2^w); every C operation that
    can leave the range is wrapped explicitly. *)

Definition u8 (z : Z) : Z := z mod 2 ^ 8.
Definition u16 (z : Z) : Z := z mod 2 ^ 16.
Definition u32 (z : Z) : Z := z mod 2 ^ 32.
Definition u64 (z : Z) : Z := z mod 2 ^ 64.

(** Two's complement reinterpretation of an unsigned pattern. *)
Definition s32 (z : Z) : Z := (z + 2 ^ 31) mod 2 ^ 32 - 2 ^ 31.
Definition s64 (z : Z) : Z := (z + 2 ^ 63) mod 2 ^ 64 - 2 ^ 63.

(** C truth value of a boolean. *)
Definition bool_int (b : bool) : Z := if b then 1 else 0.

Section wrap_lemmas.
Lemma u8_id z : 0 <= z < 256 -> u8 z = z.
Proof. intros; unfold u8; now rewrite Z.mod_small by lia. Qed.
Lemma u16_id z : 0 <= z < 65536 -> u16 z = z.
Proof. intros; unfold u16; now rewrite Z.mod_small by lia. Qed.
Lemma u32_id z : 0 <= z < 4294967296 -> u32 z = z.
Proof. intros; unfold u32; now rewrite Z.mod_small by lia. Qed.
Lemma u64_id z : 0 <= z < 18446744073709551616 -> u64 z = z.
Proof. intros; unfold u64; now rewrite Z.mod_small by lia. Qed.
Lemma s64_id z : -9223372036854775808 <= z < 9223372036854775808 -> s64 z = z.
Proof. intros; unfold s64; rewrite Z.mod_small by lia; lia. Qed.
Lemma s32_id z : -2147483648 <= z < 2147483648 -> s32 z = z.
Proof. intros; unfold s32; rewrite Z.mod_small by lia; lia. Qed.
Lemma u8_range z : 0 <= u8 z < 256.
Proof. unfold u8; apply (Z.mod_pos_bound z (2 ^ 8)); lia. Qed.
Lemma u16_range z : 0 <= u16 z < 65536.
Proof. unfold u16; apply (Z.mod_pos_bound z (2 ^ 16)); lia. Qed.
Lemma u32_range z : 0 <= u32 z < 4294967296.
Proof. unfold u32; apply (Z.mod_pos_bound z (2 ^ 32)); lia. Qed.
Lemma u64_range z : 0 <= u64 z < 18446744073709551616.
Proof. unfold u64; apply (Z.mod_pos_bound z (2 ^ 64)); lia. Qed.
End wrap_lemmas.

Create HintDb cint.
#[export] Hint Resolve u8_range u16_range u32_range u64_range : cint.

(** Remove the wrap-around of every operation whose result is known to fit. *)
Ltac unwrap := repeat match goal with
  | |- context [u8 ?z] => rewrite (u8_id z) by lia
  | |- context [u16 ?z] => rewrite (u16_id z) by lia
  | |- context [u32 ?z] => rewrite (u32_id z) by lia
  | |- context [u64 ?z] => rewrite (u64_id z) by lia
  | |- context [s64 ?z] => rewrite (s64_id z) by lia
  | |- context [s32 ?z] => rewrite (s32_id z) by lia
  end.
Ltac unwrap_in H := repeat match type of H with
  | context [u8 ?z] => rewrite (u8_id z) in H by lia
  | context [u16 ?z] => rewrite (u16_id z) in H by lia
  | context [u32 ?z] => rewrite (u32_id z) in H by lia
  | context [u64 ?z] => rewrite (u64_id z) in H by lia
  | context [s64 ?z] => rewrite (s64_id z) in H by lia
  | context [s32 ?z] => rewrite (s32_id z) in H by lia
  end.

(** Turn boolean tests of the model into propositions about [Z] and case
    analysis on the tests in the goal. *)
Ltac bool_to_prop := repeat match goal with
  | H : (_ <? _) = true |- _ => apply Z.ltb_lt in H
  | H : (_ <? _) = false |- _ => apply Z.ltb_ge in H
  | H : (_ <=? _) = true |- _ => apply Z.leb_le in H
  | H : (_ <=? _) = false |- _ => apply Z.leb_gt in H
  | H : (_ =? _) = true |- _ => apply Z.eqb_eq in H
  | H : (_ =? _) = false |- _ => apply Z.eqb_neq in H
  | H : (_ && _)%bool = true |- _ => apply andb_true_iff in H as [? ?]
  | H : (_ || _)%bool = false |- _ => apply orb_false_iff in H as [? ?]
  | H : negb _ = true |- _ => apply negb_true_iff in H
  | H : negb _ = false |- _ => apply negb_false_iff in H
  end.

(** Case analysis on the tests of the goal, one equation each. *)
Ltac if_cases := repeat match goal with
  | |- context [if ?b then _ else _] => destruct b eqn:?
  end; bool_to_prop.

(** [lia] with the defining equations of division and remainder. *)
Ltac dlia := Z.to_euclidean_division_equations; lia.

(** Replace closed powers by their values, for [lia]. *)
Ltac eval_pow := repeat match goal with
  | |- context [?b ^ ?e] => let v := eval vm_compute in (b ^ e) in
      lazymatch v with Zpos _ => change (b ^ e) with v end
  end.

Lemma let_pair {A B} (x : A * B) (P : A -> B -> Prop) :
  (let '(a, b) := x in P a b) -> P x.1 x.2.
Proof. by destruct x. Qed.

(** ** Bits *)

Lemma lor_low n q p : 0 <= n -> 0 <= p < 2 ^ n -> Z.lor (q * 2 ^ n) p = q * 2 ^ n + p.
Proof.
  intros Hn Hp; assert (Hl : Z.land (q * 2 ^ n) p = 0).
  { rewrite <- Z.shiftl_mul_pow2 by lia; apply Z.bits_inj'; intros i Hi; rewrite Z.land_spec, Z.bits_0, Z.shiftl_spec by lia.
    destruct (Z.lt_ge_cases i n); [by rewrite (Z.testbit_neg_r q) by lia|].
    apply andb_false_iff; right; destruct (Z.eq_dec p 0) as [->|]; [apply Z.bits_0|]; apply Z.bits_above_log2; [lia|].
    apply Z.log2_lt_pow2; [lia|]; apply Z.lt_le_trans with (2 ^ n); [lia|]; apply Z.pow_le_mono_r; lia. }
  by rewrite Z.add_nocarry_lxor, Z.lxor_lor.
Qed.

Lemma land_ff z : Z.land z 0xff = z mod 256.
Proof. exact (Z.land_ones z 8 ltac:(lia)). Qed.

(** ** Record update

    [s <| f := v |>] is [s] with the field [f] set to [v]; the setter is built
    from the record's eta-expansion, which a record provides as [Eta]. *)
Class Eta (R : Type) := eta : R -> R.
Class Setter {R T : Type} (f : R -> T) := set_field : T -> R -> R.
Arguments set_field {R T} f {_} v s.
Ltac build_setter f :=
  match type of f with ?R -> ?T =>
    let inst := constr:(ltac:(typeclasses eauto) : Eta R) in
    let e := eval hnf in inst in
    let t := eval pattern f in e in
    match t with ?F _ => let g := eval cbv beta in (fun (v : T) (s : R) => F (fun _ => v) s) in exact g end
  end.
#[export] Hint Extern 0 (Setter ?f) => build_setter f : typeclass_instances.
Notation "s <| f := v |>" := (set_field f v s) (at level 1, left associativity, f at level 9, v at level 99, format "s  <| f  :=  v |>").

(** ** Byte strings and C slices

    A byte string is a list of [Z] in [0, 256).  Lengths and offsets are the
    program's own [uint32_t] values, hence [Z]. *)

Definition byte_ok (b : Z) : Prop := 0 <= b < 256.
Definition bytes_ok (l : list Z) : Prop := Forall byte_ok l.

Definition zlen {A} (l : list A) : Z := Z.of_nat (length l).
Definition ztake {A} (n : Z) (l : list A) : list A := take (Z.to_nat n) l.
Definition zdrop {A} (n : Z) (l : list A) : list A := drop (Z.to_nat n) l.
(** [buf + off] for [len] bytes. *)
Definition zslice {A} (off len : Z) (l : list A) : list A := ztake len (zdrop off l).
(** [buf[i]]; the source never reads outside a buffer, the model reads 0. *)
Definition byte_at (l : list Z) (i : Z) : Z := nth (Z.to_nat i) l 0.

Fixpoint index_of (c : Z) (l : list Z) : option nat :=
  match l with
  | [] => None
  | b :: l => if b =? c then Some O else S <$> index_of c l
  end.

Lemma index_of_Some c l k :
  index_of c l = Some k -> l !! k = Some c /\ (forall j, (j < k)%nat -> l !! j <> Some c).
Proof.
  revert k; induction l as [|b l IH]; intros k; simpl; [done|].
  destruct (Z.eqb_spec b c) as [-> |Hne].
  - intros [= <-]; split; [done|lia].
  - destruct (index_of c l) as [k'|]; [|done]; intros [= <-].
    destruct (IH k' eq_refl) as [H1 H2]; split; [done|].
    intros [|j] Hj; simpl; [congruence|apply H2; lia].
Qed.

Lemma index_of_None c l : index_of c l = None -> forall j, l !! j <> Some c.
Proof.
  induction l as [|b l IH]; simpl; [done|].
  destruct (Z.eqb_spec b c); [done|]; destruct (index_of c l); [done|].
  intros _ [|j]; simpl; [congruence|by apply IH].
Qed.

(** [memchr(buf + from, c, n) - buf] *)
Definition memchr (buf : list Z) (from c n : Z) : option Z :=
  (fun k => from + Z.of_nat k) <$> index_of c (zslice from n buf).

Section slices.
Context {A : Type}.
Implicit Types l k : list A.

Lemma zlen_nonneg l : 0 <= zlen l.
Proof. unfold zlen; lia. Qed.
Lemma zlen_nil : zlen (@nil A) = 0.
Proof. done. Qed.
Lemma zlen_cons x l : zlen (x :: l) = 1 + zlen l.
Proof. unfold zlen; simpl; lia. Qed.
Lemma zlen_app l k : zlen (l ++ k) = zlen l + zlen k.
Proof. unfold zlen; rewrite length_app; lia. Qed.
Lemma zlen_take n l : 0 <= n <= zlen l -> zlen (ztake n l) = n.
Proof. unfold zlen, ztake; rewrite length_take; lia. Qed.
Lemma zlen_drop n l : 0 <= n <= zlen l -> zlen (zdrop n l) = zlen l - n.
Proof. unfold zlen, zdrop; rewrite length_drop; lia. Qed.
Lemma zlen_slice off n l :
  0 <= off -> 0 <= n -> off + n <= zlen l -> zlen (zslice off n l) = n.
Proof. intros; unfold zslice; rewrite zlen_take; [done|]; rewrite zlen_drop; lia. Qed.
Lemma ztake_drop n l : ztake n l ++ zdrop n l = l.
Proof. apply take_drop. Qed.
Lemma ztake_all n l : zlen l <= n -> ztake n l = l.
Proof. unfold zlen, ztake; intros; apply take_ge; lia. Qed.
Lemma zdrop_all n l : zlen l <= n -> zdrop n l = [].
Proof. unfold zlen, zdrop; intros; apply drop_ge; lia. Qed.
Lemma zdrop_0 l : zdrop 0 l = l.
Proof. done. Qed.
Lemma ztake_0 l : ztake 0 l = [].
Proof. done. Qed.
Lemma ztake_app n l k : n = zlen l -> ztake n (l ++ k) = l.
Proof. unfold zlen, ztake; intros ->; rewrite Nat2Z.id; apply take_app_length. Qed.
Lemma zdrop_app n l k : n = zlen l -> zdrop n (l ++ k) = k.
Proof. unfold zlen, zdrop; intros ->; rewrite Nat2Z.id; apply drop_app_length. Qed.
Lemma zdrop_zdrop n m l : 0 <= n -> 0 <= m -> zdrop n (zdrop m l) = zdrop (m + n) l.
Proof. intros; unfold zdrop; rewrite drop_drop; f_equal; lia. Qed.
Lemma ztake_app_le n l k : 0 <= n <= zlen l -> ztake n (l ++ k) = ztake n l.
Proof. unfold zlen, ztake; intros; apply take_app_le; lia. Qed.
Lemma zdrop_app_le n l k : 0 <= n <= zlen l -> zdrop n (l ++ k) = zdrop n l ++ k.
Proof. unfold zlen, zdrop; intros; apply drop_app_le; lia. Qed.
Lemma zslice_app_le off n l k :
  0 <= off -> 0 <= n -> off + n <= zlen l -> zslice off n (l ++ k) = zslice off n l.
Proof.
  intros; unfold zslice; rewrite zdrop_app_le by lia.
  apply ztake_app_le; rewrite zlen_drop; lia.
Qed.
Lemma zslice_mid off n l k m :
  off = zlen l -> n = zlen k -> zslice off n (l ++ k ++ m) = k.
Proof. intros -> ->; unfold zslice; rewrite zdrop_app by done; by apply ztake_app. Qed.
Lemma zslice_cat off n off' m l :
  0 <= off -> 0 <= n -> 0 <= m -> off' = off + n ->
  zslice off n l ++ zslice off' m l = zslice off (n + m) l.
Proof.
  intros; subst off'; unfold zslice, ztake, zdrop.
  rewrite <- (take_drop (Z.to_nat n) (take (Z.to_nat (n + m)) _)).
  rewrite take_take, skipn_firstn_comm, drop_drop; f_equal; [f_equal; lia|].
  f_equal; [lia|f_equal; lia].
Qed.
Lemma zlen_eq_0 l : zlen l = 0 -> l = [].
Proof. unfold zlen; destruct l; simpl; [done|lia]. Qed.
End slices.

#[export] Hint Resolve zlen_nonneg : cint.

Section bytes.
Lemma bytes_ok_app l k : bytes_ok (l ++ k) <-> bytes_ok l /\ bytes_ok k.
Proof. apply Forall_app. Qed.
Lemma bytes_ok_take n l : bytes_ok l -> bytes_ok (ztake n l).
Proof. apply Forall_take. Qed.
Lemma bytes_ok_drop n l : bytes_ok l -> bytes_ok (zdrop n l).
Proof. apply Forall_drop. Qed.
Lemma bytes_ok_slice off n l : bytes_ok l -> bytes_ok (zslice off n l).
Proof. intros; by apply bytes_ok_take, bytes_ok_drop. Qed.
Lemma byte_at_ok l i : bytes_ok l -> byte_ok (byte_at l i).
Proof.
  unfold byte_at; intros H; revert i; cut (forall n, byte_ok (nth n l 0)); [auto|].
  induction H as [|b l Hb _ IH]; intros [|n]; simpl; auto; unfold byte_ok; lia.
Qed.
End bytes.
#[export] Hint Resolve bytes_ok_take bytes_ok_drop bytes_ok_slice byte_at_ok : cint.

(** ** Fixed-width little and big endian fields *)

Fixpoint le_enc (n : nat) (z : Z) : list Z :=
  match n with
  | O => []
  | S n => z mod 256 :: le_enc n (z / 256)
  end.

Fixpoint le_dec (l : list Z) : Z :=
  match l with
  | [] => 0
  | b :: l => b + 256 * le_dec l
  end.

Definition be_enc (n : nat) (z : Z) : list Z := rev (le_enc n z).
Definition be_dec (l : list Z) : Z := le_dec (rev l).

Section endian.
Lemma length_le_enc n z : length (le_enc n z) = n.
Proof. revert z; induction n; simpl; auto. Qed.
Lemma zlen_le_enc n z : zlen (le_enc n z) = Z.of_nat n.
Proof. unfold zlen; by rewrite length_le_enc. Qed.
Lemma length_be_enc n z : length (be_enc n z) = n.
Proof. unfold be_enc; rewrite length_rev; apply length_le_enc. Qed.
Lemma le_enc_ok n z : bytes_ok (le_enc n z).
Proof.
  revert z; induction n as [|n IH]; simpl; intros; constructor; [|apply IH].
  unfold byte_ok; apply Z.mod_pos_bound; lia.
Qed.
Lemma le_dec_bound l : bytes_ok l -> 0 <= le_dec l < 256 ^ zlen l.
Proof.
  induction 1 as [|b l Hb Hl IH]; [done|].
  rewrite zlen_cons, Z.pow_add_r by (auto using zlen_nonneg with lia || apply zlen_nonneg).
  unfold byte_ok in Hb; simpl; lia.
Qed.
Lemma le_dec_enc_mod n z : le_dec (le_enc n z) = z mod 256 ^ Z.of_nat n.
Proof.
  revert z; induction n as [|n IH]; intros z; [by rewrite Z.mod_1_r|].
  simpl le_enc; simpl le_dec; rewrite IH, Nat2Z.inj_succ, Z.pow_succ_r by lia.
  rewrite Z.rem_mul_r; lia.
Qed.
Lemma le_dec_enc n z : 0 <= z < 256 ^ Z.of_nat n -> le_dec (le_enc n z) = z.
Proof. intros; rewrite le_dec_enc_mod; by apply Z.mod_small. Qed.
Lemma le_enc_dec l : bytes_ok l -> le_enc (length l) (le_dec l) = l.
Proof.
  induction 1 as [|b l Hb Hl IH]; [done|].
  simpl; unfold byte_ok in Hb.
  replace ((b + 256 * le_dec l) mod 256) with b
    by (rewrite Z.mul_comm, Z_mod_plus_full, Z.mod_small; lia).
  replace ((b + 256 * le_dec l) / 256) with (le_dec l)
    by (rewrite Z.mul_comm, Z_div_plus_full, Z.div_small; lia).
  by rewrite IH.
Qed.
Lemma le_enc_slice off n l :
  bytes_ok l -> 0 <= off -> 0 <= n -> off + n <= zlen l ->
  le_enc (Z.to_nat n) (le_dec (zslice off n l)) = zslice off n l.
Proof.
  intros Hl Ho Hn H; pose proof (zlen_slice off n l Ho Hn H) as Hz.
  replace (Z.to_nat n) with (length (zslice off n l)) by (unfold zlen in Hz; lia).
  apply le_enc_dec, bytes_ok_slice, Hl.
Qed.
Lemma be_dec_enc n z : 0 <= z < 256 ^ Z.of_nat n -> be_dec (be_enc n z) = z.
Proof. intros; unfold be_dec, be_enc; rewrite rev_involutive; by apply le_dec_enc. Qed.
Lemma be_enc_ok n z : bytes_ok (be_enc n z).
Proof. unfold be_enc, bytes_ok; apply Forall_rev, le_enc_ok. Qed.
End endian.
#[export] Hint Resolve le_enc_ok be_enc_ok : cint.
