(* ===== verification/Double.v ===== *)
(** The C [double] of [tx/bitrate_ctl.c] and [tx/main.c]: IEEE 754 binary64,
    round to nearest even, as the Standard Library specifies it, with the
    conversions the source uses and their bounds. *)

From Stdlib Require Import Floats.SpecFloat.
From S2P Require Import Prelude.
#[local] Open Scope Z_scope.

Definition double : Type := spec_float.

Definition dadd : double -> double -> double := SFadd 53 1024.
Definition dsub : double -> double -> double := SFsub 53 1024.
Definition dmul : double -> double -> double := SFmul 53 1024.
Definition ddiv : double -> double -> double := SFdiv 53 1024.
Definition dlt : double -> double -> bool := SFltb.
Definition dle : double -> double -> bool := SFleb.
Definition deq : double -> double -> bool := SFeqb.
Definition dabs : double -> double := SFabs.
Definition dneg : double -> double := SFopp.

(** [(double)z] *)
Definition dofZ (z : Z) : double := binary_normalize 53 1024 z 0 false.
(** The literal nearest to [a / b]. *)
Definition dlit (a b : Z) : double := ddiv (dofZ a) (dofZ b).

(** The integer part of a finite magnitude. *)
Definition dtrunc (m : positive) (e : Z) : Z := if 0 <=? e then Z.shiftl (Zpos m) e else Z.shiftr (Zpos m) (- e).

(** [(uint32_t)x]: truncation.  Values that do not fit are undefined in C;
    here they saturate, as the conversion instruction of the ARM targets
    does. *)
Definition f2u32 (x : double) : Z :=
  match x with
  | S754_finite false m e => Z.min (dtrunc m e) 4294967295
  | S754_infinity false => 4294967295
  | _ => 0
  end.

Declare Scope double_scope.
Delimit Scope double_scope with D.
Infix "+" := dadd : double_scope.
Infix "-" := dsub : double_scope.
Infix "*" := dmul : double_scope.
Infix "/" := ddiv : double_scope.
Infix "<?" := dlt : double_scope.
Infix "<=?" := dle : double_scope.
Notation "x >? y" := (dlt y x) : double_scope.
Notation "x >=? y" := (dle y x) : double_scope.

(** ** Facts *)

Lemma dlt_irrefl x : dlt x x = false.
Proof.
  unfold dlt, SFltb; destruct x as [s|s| |s m e]; cbn; try done; [by destruct s|].
  rewrite Z.compare_refl; change (Pos.compare_cont Eq m m) with (Pos.compare m m); rewrite Pos.compare_refl; by destruct s.
Qed.

(** [if (x < lo) x = lo; if (x > hi) x = hi;] leaves [x] where neither test
    fires again. *)
Definition dclamp (lo hi x : double) : double :=
  let x := if (x <? lo)%D then lo else x in if (x >? hi)%D then hi else x.

Lemma dclamp_within lo hi x :
  dlt hi lo = false -> dlt (dclamp lo hi x) lo = false /\ dlt hi (dclamp lo hi x) = false.
Proof.
  intros Hlh; unfold dclamp; destruct (dlt x lo) eqn:E1; [rewrite Hlh, dlt_irrefl; auto|].
  destruct (dlt hi x) eqn:E2; rewrite ?dlt_irrefl; auto.
Qed.

Lemma dtrunc_nonneg m e : 0 <= dtrunc m e.
Proof. unfold dtrunc; destruct (0 <=? e); [apply Z.shiftl_nonneg|apply Z.shiftr_nonneg]; lia. Qed.

Lemma f2u32_range x : 0 <= f2u32 x < 4294967296.
Proof.
  destruct x as [s|s| |s m e]; cbn [f2u32]; try lia; destruct s; try lia; pose proof (dtrunc_nonneg m e); lia.
Qed.
#[export] Hint Resolve f2u32_range : cint.

(** *** Mantissas of 53 bits *)

Definition small (x : double) : Prop := match x with S754_finite _ m _ => Zpos m < 2 ^ 53 | _ => True end.

Lemma digits2_bounds p : 2 ^ (Zpos (digits2_pos p) - 1) <= Zpos p < 2 ^ Zpos (digits2_pos p).
Proof.
  induction p as [p IH|p IH|]; cbn [digits2_pos]; [| |by cbn]; rewrite Pos2Z.inj_succ;
    assert (exists d, 0 <= d /\ Zpos (digits2_pos p) = d + 1) as (d & Hd & Ed) by (exists (Zpos (digits2_pos p) - 1); lia);
    rewrite Ed in *; replace (Z.succ (d + 1) - 1) with (d + 1) by lia; replace (Z.succ (d + 1)) with (d + 1 + 1) by lia;
    replace (d + 1 - 1) with d in IH by lia; rewrite !Z.pow_add_r in * by lia; change (2 ^ 1) with 2 in *; lia.
Qed.

Lemma shr_1_half r : 0 <= shr_m r -> shr_m (shr_1 r) = shr_m r / 2 /\ 0 <= shr_m (shr_1 r).
Proof.
  destruct r as [[|[p|p|]|p] a b]; cbn [shr_m shr_1]; intros H; try lia; try done;
    split; try lia; dlia.
Qed.

Lemma iter_pos_div n : forall r, 0 <= shr_m r ->
  shr_m (SpecFloat.iter_pos shr_1 n r) = shr_m r / 2 ^ Zpos n /\ 0 <= shr_m (SpecFloat.iter_pos shr_1 n r).
Proof.
  induction n as [n IH|n IH|]; intros r Hr; cbn [SpecFloat.iter_pos].
  - destruct (shr_1_half r Hr) as [E0 H0]; destruct (IH _ H0) as [E1 H1]; destruct (IH _ H1) as [E2 H2]; split; [|done].
    rewrite E2, E1, E0, !Z.div_div by lia; f_equal.
    replace (Zpos n~1) with (1 + Zpos n + Zpos n) by lia; rewrite !Z.pow_add_r by lia; ring.
  - destruct (IH _ Hr) as [E1 H1]; destruct (IH _ H1) as [E2 H2]; split; [|done].
    rewrite E2, E1, Z.div_div by lia; f_equal.
    replace (Zpos n~0) with (Zpos n + Zpos n) by lia; rewrite !Z.pow_add_r by lia; ring.
  - by apply shr_1_half.
Qed.

Lemma shr_fexp_small m e l :
  0 <= m -> let r := (shr_fexp 53 1024 m e l).1 in 0 <= shr_m r < 2 ^ 53.
Proof.
  intros Hm; unfold shr_fexp, shr; cbv zeta; set (r0 := shr_record_of_loc m l).
  assert (Hr0 : shr_m r0 = m) by (unfold r0; destruct l as [|[]]; done).
  set (n := fexp 53 1024 (Zdigits2 m + e) - e).
  assert (Hn : Zdigits2 m - 53 <= n) by (unfold n, fexp; lia).
  assert (Hd : m < 2 ^ Zdigits2 m).
  { destruct m as [|p|p]; cbn [Zdigits2]; [by cbn|apply digits2_bounds|lia]. }
  destruct n as [|p|p] eqn:En; cbn [fst].
  - rewrite Hr0; split; [done|]; eapply Z.lt_le_trans; [exact Hd|apply Z.pow_le_mono_r; lia].
  - destruct (iter_pos_div p r0 ltac:(lia)) as [E H]; rewrite E, Hr0 in *; split; [done|].
    apply Z.div_lt_upper_bound; [lia|]; rewrite <- Z.pow_add_r by lia.
    eapply Z.lt_le_trans; [exact Hd|apply Z.pow_le_mono_r; lia].
  - rewrite Hr0; split; [done|]; eapply Z.lt_le_trans; [exact Hd|apply Z.pow_le_mono_r; lia].
Qed.

Lemma round_nonneg m l : 0 <= m -> 0 <= round_nearest_even m l.
Proof. destruct l as [|[]]; cbn; try lia; destruct (Z.even m); lia. Qed.

Lemma small_round_aux s m e l : 0 <= m -> small (binary_round_aux 53 1024 s m e l).
Proof.
  intros Hm; unfold binary_round_aux; pose proof (shr_fexp_small m e l Hm) as H1; cbv zeta in H1.
  destruct (shr_fexp 53 1024 m e l) as [r1 e1]; cbn [fst] in H1.
  pose proof (shr_fexp_small _ e1 loc_Exact (round_nonneg _ (loc_of_shr_record r1) (proj1 H1))) as H2; cbv zeta in H2.
  destruct (shr_fexp _ _ _ e1 loc_Exact) as [r2 e2]; cbn [fst] in H2.
  destruct (shr_m r2) as [|p|p]; [done| |done]; destruct (_ <=? _); [exact (proj2 H2)|done].
Qed.

Lemma small_normalize m e s : small (binary_normalize 53 1024 m e s).
Proof.
  destruct m as [|p|p]; cbn [binary_normalize]; [done| |]; unfold binary_round; destruct (shl_align _ _ _) as [mz ez];
    by apply small_round_aux.
Qed.

Lemma small_dofZ z : small (dofZ z).
Proof. apply small_normalize. Qed.

Lemma small_dmul x y : small (dmul x y).
Proof.
  destruct x as [sx|sx| |sx mx ex], y as [sy|sy| |sy my ey]; try done; by apply small_round_aux.
Qed.

Lemma small_ddiv x y : small (ddiv x y).
Proof.
  destruct x as [sx|sx| |sx mx ex], y as [sy|sy| |sy my ey]; try done; unfold ddiv; cbn [SFdiv].
  unfold SFdiv_core_binary; set (n := match _ with Z0 => _ | _ => _ end).
  assert (Hn : 0 <= n) by (unfold n; destruct (_ - _); try lia; apply Z.shiftl_nonneg; lia).
  pose proof (Z.div_pos n (Zpos my) Hn ltac:(lia)) as Hq; unfold Z.div in Hq.
  destruct (Z.div_eucl n (Zpos my)) as [q r]; by apply small_round_aux.
Qed.

(** *** Integers are exact *)

Lemma digits_iter_xO k p : Zpos (digits2_pos (Pos.iter xO p k)) = Zpos (digits2_pos p) + Zpos k.
Proof.
  revert p; induction k as [|k IH] using Pos.peano_ind; intros p; [cbn; lia|].
  rewrite Pos.iter_succ; cbn [digits2_pos]; rewrite Pos2Z.inj_succ, IH; lia.
Qed.

Lemma iter_xO k p : Zpos (Pos.iter xO p k) = Zpos p * 2 ^ Zpos k.
Proof.
  induction k as [|k IH] using Pos.peano_ind; [cbn; lia|].
  rewrite Pos.iter_succ, Pos2Z.inj_xO, IH, Pos2Z.inj_succ, Z.pow_succ_r; lia.
Qed.

Lemma dofZ_pos p : Zpos p < 4294967296 ->
  exists m e, dofZ (Zpos p) = S754_finite false m e /\ 2 ^ 52 <= Zpos m < 2 ^ 53 /\ -53 < e < 0 /\ Zpos m = Zpos p * 2 ^ (- e).
Proof.
  intros Hp; pose proof (digits2_bounds p) as Hd; set (d := Zpos (digits2_pos p)) in *.
  assert (Hd32 : d <= 32).
  { destruct (Z.le_gt_cases d 32) as [?|Hgt]; [done|].
    pose proof (Z.pow_le_mono_r 2 32 (d - 1) ltac:(lia) ltac:(lia)); change (2 ^ 32) with 4294967296 in *; lia. }
  assert (Hd1 : 1 <= d) by (unfold d; lia).
  unfold dofZ; cbn [binary_normalize]; unfold binary_round, shl_align; fold d.
  assert (Hf : fexp 53 1024 (d + 0) = d - 53) by (unfold fexp, emin; lia); rewrite Hf.
  destruct (d - 53 - 0) as [|k|k] eqn:Ek; [lia|lia|].
  set (mz := Pos.iter xO p k).
  assert (Hmz : Zpos (digits2_pos mz) = 53) by (unfold mz; rewrite digits_iter_xO; fold d; lia).
  assert (Hs : shr_fexp 53 1024 (Zpos mz) (d - 53) loc_Exact = (Build_shr_record (Zpos mz) false false, d - 53)).
  { unfold shr_fexp; cbn [Zdigits2]; rewrite Hmz; unfold fexp, emin.
    replace (Z.max _ _ - _) with 0 by lia; done. }
  unfold binary_round_aux; rewrite Hs; cbn [shr_m loc_of_shr_record round_nearest_even]; rewrite Hs; cbn [shr_m].
  rewrite (proj2 (Z.leb_le (d - 53) _)) by lia; exists mz, (d - 53); split; [done|].
  pose proof (digits2_bounds mz) as Hb; rewrite Hmz in Hb; split; [exact Hb|]; split; [lia|].
  unfold mz; rewrite iter_xO; do 2 f_equal; lia.
Qed.

Lemma dtrunc_exact p m e : Zpos m = Zpos p * 2 ^ (- e) -> e < 0 -> dtrunc m e = Zpos p.
Proof.
  intros E He; unfold dtrunc; rewrite (proj2 (Z.leb_gt 0 e)) by lia; rewrite Z.shiftr_div_pow2, E by lia.
  apply Z.div_mul; apply Z.pow_nonzero; lia.
Qed.

(** A [uint32_t] survives the conversion to [double] and back. *)
Lemma f2u32_dofZ n : 0 <= n < 4294967296 -> f2u32 (dofZ n) = n.
Proof.
  intros [H0 Hn]; destruct n as [|p|p]; [done| |lia].
  destruct (dofZ_pos p Hn) as (m & e & -> & _ & He & Em); cbn [f2u32]; rewrite (dtrunc_exact p) by (done || lia); lia.
Qed.

(** What is not above a [uint32_t] truncates to no more than it. *)
Lemma f2u32_le n x : 0 <= n < 4294967296 -> small x -> dlt (dofZ n) x = false -> f2u32 x <= n.
Proof.
  intros [H0 Hn] Hs Hlt; destruct x as [s|s| |s m e]; cbn [f2u32]; try lia.
  - destruct s; [lia|]; exfalso; revert Hlt; unfold dlt, SFltb; destruct n as [|p|p]; [done| |lia].
    by destruct (dofZ_pos p Hn) as (m & e & -> & _).
  - destruct s; [lia|]; destruct n as [|p|p]; [done| |lia]; cbn [small] in Hs.
    destruct (dofZ_pos p Hn) as (mp & ep & Ed & Hm & He & Em); rewrite Ed in Hlt; unfold dlt, SFltb in Hlt; cbn [SFcompare] in Hlt.
    assert (Hle : dtrunc m e <= dtrunc mp ep); [|rewrite (dtrunc_exact p mp ep) in Hle by (done || lia); lia].
    unfold dtrunc; rewrite (proj2 (Z.leb_gt 0 ep)) by lia.
    destruct (Z.compare_spec ep e) as [Ee|Hlt'|Hgt]; [|done|].
    + subst ep; rewrite (proj2 (Z.leb_gt 0 e)) by lia; change (Pos.compare_cont Eq mp m) with (Pos.compare mp m) in Hlt.
      destruct (Pos.compare_spec mp m) as [Emm|?|?]; [by subst m|done|].
      rewrite !Z.shiftr_div_pow2 by lia; apply Z.div_le_mono; [apply Z.pow_pos_nonneg; lia|lia].
    + rewrite (proj2 (Z.leb_gt 0 e)) by lia; rewrite !Z.shiftr_div_pow2 by lia.
      apply Z.div_le_lower_bound; [apply Z.pow_pos_nonneg; lia|].
      pose proof (Z.mul_div_le (Zpos m) (2 ^ (- e)) ltac:(apply Z.pow_pos_nonneg; lia)) as Hq.
      set (q := Zpos m / 2 ^ (- e)) in *; assert (0 <= q) by (apply Z.div_pos; [lia|apply Z.pow_pos_nonneg; lia]).
      replace (2 ^ (- e)) with (2 ^ (- ep) * 2 ^ (ep - e)) in Hq by (rewrite <- Z.pow_add_r by lia; f_equal; lia).
      assert (H2 : 2 <= 2 ^ (ep - e)) by (change 2 with (2 ^ 1) at 1; apply Z.pow_le_mono_r; lia).
      change (2 ^ 53) with (2 * 2 ^ 52) in Hs; nia.
Qed.

(** *** Rounding fills the mantissa *)

(** A mantissa of 53 bits, but at the smallest exponent. *)
Definition norm (x : double) : Prop := match x with S754_finite _ m e => -1074 < e -> 2 ^ 52 <= Zpos m | _ => True end.

(** A [double] proper that is not NaN. *)
Definition is_number (x : double) : bool := match x with S754_nan => false | _ => valid_binary 53 1024 x end.

Lemma digits2_Z m : 0 < m -> 2 ^ (Zdigits2 m - 1) <= m < 2 ^ Zdigits2 m.
Proof. destruct m as [|p|p]; try lia; intros _; apply digits2_bounds. Qed.

Lemma digits2_le k m : 0 <= k -> 2 ^ k <= m -> k < Zdigits2 m.
Proof.
  intros Hk Hm; assert (0 < 2 ^ k) by (apply Z.pow_pos_nonneg; lia); pose proof (digits2_Z m ltac:(lia)) as [_ Hd].
  apply (Z.pow_lt_mono_r_iff 2); [lia| |lia]; destruct m; cbn; lia.
Qed.

Lemma is_number_norm x : is_number x = true -> norm x.
Proof.
  destruct x as [s|s| |s m e]; try done; cbn [is_number valid_binary norm]; unfold bounded, canonical_mantissa; intros [E _]%andb_true_iff He.
  apply Z.eqb_eq in E; unfold fexp, emin in E; assert (Hd : Zpos (digits2_pos m) = 53) by lia; pose proof (digits2_bounds m); rewrite Hd in *; lia.
Qed.

Lemma shr_fexp_norm m e l :
  0 < m -> e <= fexp 53 1024 (Zdigits2 m + e) ->
  let '(r, e') := shr_fexp 53 1024 m e l in (-1074 < e' -> 2 ^ 52 <= shr_m r) /\ -1074 <= e'.
Proof.
  intros Hm He; unfold shr_fexp, shr; cbv zeta; set (r0 := shr_record_of_loc m l).
  assert (Hr0 : shr_m r0 = m) by (unfold r0; destruct l as [|[]]; done).
  pose proof (digits2_Z m Hm) as [Hlo _]; remember (fexp 53 1024 (Zdigits2 m + e)) as f eqn:Ef; unfold fexp, emin in Ef.
  destruct (f - e) as [|p|p] eqn:En; [|destruct (iter_pos_div p r0 ltac:(lia)) as [E _]; rewrite E, Hr0|lia];
    (split; [|lia]); intros Hgt.
  - rewrite Hr0; eapply Z.le_trans; [|exact Hlo]; apply Z.pow_le_mono_r; lia.
  - apply Z.div_le_lower_bound; [lia|]; rewrite <- Z.pow_add_r by lia; eapply Z.le_trans; [|exact Hlo]; apply Z.pow_le_mono_r; lia.
Qed.

Lemma round_up m l : 0 <= m -> m <= round_nearest_even m l.
Proof. destruct l as [|[]]; cbn; try lia; destruct (Z.even m); lia. Qed.

Lemma norm_round_aux s m e l : 0 < m -> e <= fexp 53 1024 (Zdigits2 m + e) -> norm (binary_round_aux 53 1024 s m e l).
Proof.
  intros Hm He; unfold binary_round_aux; pose proof (shr_fexp_norm m e l Hm He) as H1; pose proof (shr_fexp_small m e l ltac:(lia)) as Hs1.
  cbv zeta in Hs1; destruct (shr_fexp 53 1024 m e l) as [r1 e1]; cbn [fst] in Hs1; destruct H1 as [H1 He1].
  pose proof (round_up (shr_m r1) (loc_of_shr_record r1) (proj1 Hs1)) as Hup; set (m1 := round_nearest_even _ _) in *.
  destruct (Z.eq_dec m1 0) as [->|Hne].
  { destruct (shr_fexp 53 1024 0 e1 loc_Exact) as [r2 e2] eqn:E2; pose proof (shr_fexp_small 0 e1 loc_Exact ltac:(lia)) as Hs2.
    rewrite E2 in Hs2; cbn [fst] in Hs2; destruct (shr_m r2) as [|p|p] eqn:Ep; [done| |lia]; exfalso.
    revert E2; unfold shr_fexp, shr, shr_record_of_loc; destruct (_ - e1); intros [= <- <-]; try done.
    destruct (iter_pos_div p0 (Build_shr_record 0 false false) ltac:(done)) as [E _]; rewrite E in Ep; by rewrite Z.div_0_l in Ep by lia. }
  assert (He2 : e1 <= fexp 53 1024 (Zdigits2 m1 + e1)).
  { unfold fexp, emin; destruct (Z.eq_dec e1 (-1074)) as [->|]; [lia|]; pose proof (digits2_le 52 m1 ltac:(lia) ltac:(lia)); lia. }
  pose proof (shr_fexp_norm m1 e1 loc_Exact ltac:(lia) He2) as H2; destruct (shr_fexp _ _ m1 e1 loc_Exact) as [r2 e2]; destruct H2 as [H2 _].
  destruct (shr_m r2) as [|p|p]; [done| |done]; destruct (_ <=? _); [exact H2|done].
Qed.

(** A product with an integer. *)
Lemma norm_dmul n y : 0 < n < 4294967296 -> norm (dmul (dofZ n) y).
Proof.
  intros [H0 Hn]; destruct n as [|p|p]; [lia| |lia]; destruct (dofZ_pos p Hn) as (m & e & -> & Hm & _).
  destruct y as [s|s| |s my ey]; try done; unfold dmul; cbn [SFmul]; apply norm_round_aux; [lia|].
  pose proof (digits2_le 52 (Zpos (m * my)) ltac:(lia) ltac:(lia)) as Hd; cbn [Zdigits2] in *; unfold fexp, emin; lia.
Qed.

(** *** Lower bounds *)

Lemma dtrunc_le m e m' e' : 0 <= e' - e -> Zpos m <= Zpos m' * 2 ^ (e' - e) -> dtrunc m e <= dtrunc m' e'.
Proof.
  intros He Hm; unfold dtrunc; destruct (Z.leb_spec 0 e); destruct (Z.leb_spec 0 e'); try lia.
  - rewrite !Z.shiftl_mul_pow2 by lia; replace e' with (e' - e + e) at 1 by lia; rewrite Z.pow_add_r by lia.
    pose proof (Z.pow_pos_nonneg 2 e ltac:(lia) ltac:(lia)); nia.
  - rewrite Z.shiftl_mul_pow2, Z.shiftr_div_pow2 by lia; apply Z.div_le_upper_bound; [apply Z.pow_pos_nonneg; lia|].
    replace (e' - e) with (e' + - e) in Hm by lia; rewrite Z.pow_add_r in Hm by lia; lia.
  - rewrite !Z.shiftr_div_pow2 by lia; replace (- e) with (- e' + (e' - e)) by lia.
    rewrite Z.pow_add_r by lia; apply Z.div_le_lower_bound; [apply Z.pow_pos_nonneg; lia|].
    set (a := 2 ^ (- e')); set (b := 2 ^ (e' - e)) in *; assert (0 < a) by (apply Z.pow_pos_nonneg; lia); assert (0 < b) by (apply Z.pow_pos_nonneg; lia).
    rewrite (Z.mul_comm a b), <- Z.div_div by lia; etransitivity; [apply Z.mul_div_le; lia|].
    apply Z.lt_succ_r, Z.div_lt_upper_bound; nia.
Qed.

(** A positive mantissa of 53 bits above the smallest exponent. *)
Definition full (m : positive) (e : Z) : Prop := 2 ^ 52 <= Zpos m < 2 ^ 53 /\ -1074 < e.

(** What is not below such a number truncates to no less than it. *)
Lemma f2u32_ge x m e : norm x -> x <> S754_nan -> full m e ->
  dlt x (S754_finite false m e) = false -> f2u32 (S754_finite false m e) <= f2u32 x.
Proof.
  intros Hn Hx [Hm He] Hlt; destruct x as [s|s| |s mx ex]; try done; try (by destruct s); cbn [f2u32]; [destruct s; [done|lia]|].
  destruct s; [done|]; unfold dlt, SFltb in Hlt; cbn [SFcompare] in Hlt; cbn [norm] in Hn.
  assert (dtrunc m e <= dtrunc mx ex); [|lia].
  destruct (Z.compare_spec ex e) as [Ee|Hlt'|Hgt]; [|done|]; apply dtrunc_le; try lia.
  - subst ex; change (Pos.compare_cont Eq mx m) with (Pos.compare mx m) in Hlt; rewrite Z.sub_diag; cbn [Z.pow].
    destruct (Pos.compare_spec mx m); [subst; lia|done|lia].
  - specialize (Hn ltac:(lia)); assert (2 ^ 1 <= 2 ^ (ex - e)) by (apply Z.pow_le_mono_r; lia).
    change (2 ^ 53) with (2 * 2 ^ 52) in Hm; nia.
Qed.

(** *** Halving *)

Definition pow2_div (d : Z) : Prop := d = 1 \/ d = 2 \/ d = 4.

Lemma div_pow2_exact m e j : full m e -> -53 < e < 0 -> 0 <= j <= 2 ->
  ddiv (S754_finite false m e) (S754_finite false 4503599627370496 (-52 + j)) = S754_finite false m (e - j).
Proof.
  intros [Hm _] He Hj; unfold ddiv; cbn [SFdiv]; unfold SFdiv_core_binary.
  assert (Hd : Zpos (digits2_pos m) = 53).
  { pose proof (digits2_bounds m) as Hb; pose proof (digits2_le 52 (Zpos m) ltac:(lia) ltac:(lia)) as Hl; cbn [Zdigits2] in Hl.
    destruct (Z.le_gt_cases (Zpos (digits2_pos m)) 53); [lia|].
    pose proof (Z.pow_le_mono_r 2 53 (Zpos (digits2_pos m) - 1) ltac:(lia) ltac:(lia)); lia. }
  change (Zdigits2 (Zpos m)) with (Zpos (digits2_pos m)); rewrite Hd; change (Zdigits2 4503599627370496) with 53.
  assert (He' : Z.min (fexp 53 1024 (53 + e - (53 + (-52 + j)))) (e - (-52 + j)) = e - j - 1) by (unfold fexp, emin; lia).
  rewrite He'; replace (e - (-52 + j) - (e - j - 1)) with 53 by lia; cbv iota zeta; rewrite Z.shiftl_mul_pow2 by lia.
  assert (Hq : Z.div_eucl (Zpos m * 2 ^ 53) 4503599627370496 = (2 * Zpos m, 0)).
  { replace (Zpos m * 2 ^ 53) with (2 * Zpos m * 4503599627370496) by lia.
    pose proof (Z.div_mul (2 * Zpos m) 4503599627370496 ltac:(lia)) as Eq; pose proof (Z.mod_mul (2 * Zpos m) 4503599627370496 ltac:(lia)) as Er.
    unfold Z.div, Z.modulo in Eq, Er; destruct (Z.div_eucl _ _); congruence. }
  rewrite Hq; change (new_location 4503599627370496 0) with loc_Exact; change (2 * Zpos m) with (Zpos m~0).
  unfold binary_round_aux, shr_fexp; cbn [Zdigits2 digits2_pos]; rewrite Pos2Z.inj_succ, Hd.
  replace (fexp 53 1024 (Z.succ 53 + (e - j - 1)) - (e - j - 1)) with 1 by (unfold fexp, emin; lia).
  cbn [shr shr_record_of_loc SpecFloat.iter_pos shr_1 orb fst loc_of_shr_record shr_m round_nearest_even Zdigits2]; rewrite Hd.
  replace (e - j - 1 + 1) with (e - j) by lia.
  replace (fexp 53 1024 (53 + (e - j)) - (e - j)) with 0 by (unfold fexp, emin; lia).
  cbn [shr shr_record_of_loc shr_m]; by rewrite (proj2 (Z.leb_le (e - j) _)) by lia.
Qed.

(** An integer over a frame-rate divisor is exact, and truncates to the
    integer quotient. *)
Lemma dofZ_div n d : 0 < n < 4294967296 -> pow2_div d ->
  exists m e, (dofZ n / dofZ d)%D = S754_finite false m e /\ full m e /\ f2u32 (S754_finite false m e) = n / d.
Proof.
  intros [H0 Hn] Hd; destruct n as [|p|p]; [lia| |lia]; destruct (dofZ_pos p Hn) as (m & e & -> & Hm & He & Em).
  assert (exists j, 0 <= j <= 2 /\ dofZ d = S754_finite false 4503599627370496 (-52 + j) /\ d = 2 ^ j) as (j & Hj & -> & ->).
  { destruct Hd as [->|[-> | ->]]; [exists 0|exists 1|exists 2]; (split; [lia|split; [vm_compute|]; reflexivity]). }
  exists m, (e - j); rewrite div_pow2_exact by (unfold full; lia); split; [done|]; split; [unfold full; lia|]; cbn [f2u32].
  unfold dtrunc; rewrite (proj2 (Z.leb_gt 0 (e - j))) by lia; rewrite Z.shiftr_div_pow2 by lia.
  replace (- (e - j)) with (- e + j) by lia; rewrite Em, Z.pow_add_r, <- Z.div_div by lia; rewrite Z.div_mul by lia.
  assert (Zpos p / 2 ^ j <= Zpos p) by (apply Z.div_le_upper_bound; [lia|]; pose proof (Z.pow_pos_nonneg 2 j ltac:(lia) ltac:(lia)); nia); lia.
Qed.
