(* ===== verification/Crc16.v ===== *)
(** [common/crc16.c]: the CRC16-CCITT over a chunk's payload, and what it
    detects: every difference confined to sixteen consecutive bits. *)

From S2P Require Import Prelude.
#[local] Open Scope Z_scope.

(** ** The code *)

(** One turn of the inner loop. *)
Definition crc_bit (crc : Z) : Z :=
  if negb (Z.land crc 0x8000 =? 0)
  then u16 (Z.lxor (Z.shiftl crc 1) 0x1021)
  else u16 (Z.shiftl crc 1).

(** One turn of the outer loop: fold in a byte, then eight bit steps. *)
Definition crc_byte (crc b : Z) : Z :=
  Nat.iter 8 crc_bit (u16 (Z.lxor crc (Z.shiftl b 8))).

Definition ar8030_crc16 (data : list Z) : Z := fold_left crc_byte data 0xFFFF.

(** ** Reference: the bit-serial register *)

(** The byte's bits, most significant first, as they go over the wire. *)
Fixpoint msb_bits (n : nat) (b : Z) : list bool :=
  match n with
  | O => []
  | S n => Z.testbit b (Z.of_nat n) :: msb_bits n b
  end.

Definition wire_bits (data : list Z) : list bool := data ≫= msb_bits 8.

(** Feed one message bit into the top of the register. *)
Definition crc_in_bit (crc : Z) (bit : bool) : Z :=
  crc_bit (Z.lxor crc (if bit then 0x8000 else 0)).

Definition crc_serial (bits : list bool) (crc : Z) : Z := fold_left crc_in_bit bits crc.

(** The value of a bit string, most significant bit first. *)
Definition bits_val (bits : list bool) : Z :=
  fold_left (fun v (b : bool) => 2 * v + (if b then 1 else 0)) bits 0.

(** ** Linearity of the register over GF(2) *)

Section linear.
Definition word16 (x : Z) : Prop := 0 <= x < 65536.

Lemma crc_bit_word x : word16 (crc_bit x).
Proof. unfold crc_bit, word16; destruct (negb _); apply u16_range. Qed.

Lemma word16_bits x i : word16 x -> 16 <= i -> Z.testbit x i = false.
Proof.
  intros Hx Hi; rewrite <- (Z.mod_small x (2 ^ 16)) by (unfold word16 in Hx; lia).
  apply Z.mod_pow2_bits_high; lia.
Qed.

Lemma word16_of_bits x : 0 <= x -> (forall i, 16 <= i -> Z.testbit x i = false) -> word16 x.
Proof.
  intros Hx H; split; [done|].
  replace x with (x mod 2 ^ 16); [apply (Z.mod_pos_bound x (2 ^ 16)); lia|].
  apply Z.bits_inj'; intros i Hi.
  destruct (Z.lt_ge_cases i 16); [by rewrite Z.mod_pow2_bits_low by lia|].
  by rewrite Z.mod_pow2_bits_high, H by lia.
Qed.

Lemma word16_lxor x y : word16 x -> word16 y -> word16 (Z.lxor x y).
Proof.
  intros Hx Hy; apply word16_of_bits.
  - apply Z.lxor_nonneg; unfold word16 in *; lia.
  - intros i Hi; rewrite Z.lxor_spec, !word16_bits by done; done.
Qed.

Lemma land_8000 x : negb (Z.land x 0x8000 =? 0) = Z.testbit x 15.
Proof.
  change 0x8000 with (2 ^ 15).
  destruct (Z.testbit x 15) eqn:E.
  - apply negb_true_iff, Z.eqb_neq; intros H.
    apply (f_equal (fun z => Z.testbit z 15)) in H.
    rewrite Z.land_spec, E, Z.bits_0 in H; discriminate H.
  - apply negb_false_iff, Z.eqb_eq, Z.bits_inj'; intros i Hi.
    rewrite Z.land_spec, Z.bits_0, Z.pow2_bits_eqb by lia.
    destruct (Z.eqb_spec 15 i) as [<-|]; [by rewrite E|apply andb_false_r].
Qed.

Lemma u16_testbit x i : 0 <= i -> Z.testbit (u16 x) i = (i <? 16) && Z.testbit x i.
Proof.
  intros Hi; unfold u16; destruct (Z.ltb_spec i 16); simpl.
  - by rewrite Z.mod_pow2_bits_low by lia.
  - by rewrite Z.mod_pow2_bits_high by lia.
Qed.

(** Each bit of the step's result, as a XOR of bits of its argument. *)
Lemma crc_bit_testbit x i :
  0 <= i ->
  Z.testbit (crc_bit x) i =
  (i <? 16) && xorb (Z.testbit x (i - 1)) (Z.testbit x 15 && Z.testbit 0x1021 i).
Proof.
  intros Hi; unfold crc_bit; rewrite land_8000.
  destruct (Z.testbit x 15); rewrite u16_testbit, ?Z.lxor_spec, Z.shiftl_spec by lia;
    simpl; by rewrite ?xorb_false_r.
Qed.

Lemma crc_bit_lxor x y : crc_bit (Z.lxor x y) = Z.lxor (crc_bit x) (crc_bit y).
Proof.
  apply Z.bits_inj'; intros i Hi.
  rewrite Z.lxor_spec, !crc_bit_testbit, !Z.lxor_spec by lia.
  destruct (i <? 16), (Z.testbit x (i - 1)), (Z.testbit y (i - 1)),
    (Z.testbit x 15), (Z.testbit y 15), (Z.testbit 0x1021 i); done.
Qed.

Lemma crc_bit_shift x : 0 <= x < 32768 -> crc_bit x = 2 * x.
Proof.
  intros Hx; unfold crc_bit; rewrite land_8000.
  assert (Z.testbit x 15 = false) as ->
    by (apply Z.testbit_false; [lia|]; by rewrite Z.div_small by lia).
  rewrite Z.shiftl_mul_pow2 by lia; unwrap; lia.
Qed.

(** The generator has its constant term, so nothing is shifted out unseen. *)
Lemma crc_bit_kernel x : word16 x -> crc_bit x = 0 -> x = 0.
Proof.
  intros Hx H0.
  assert (H15 : Z.testbit x 15 = false).
  { assert (H : Z.testbit (crc_bit x) 0 = false) by (rewrite H0; apply Z.bits_0).
    rewrite crc_bit_testbit in H by lia.
    rewrite Z.testbit_neg_r in H by lia.
    by destruct (Z.testbit x 15). }
  assert (x < 32768).
  { unfold word16 in Hx; apply Z.testbit_false in H15; [|lia].
    change (2 ^ 15) with 32768 in H15; revert H15; dlia. }
  rewrite crc_bit_shift in H0 by (unfold word16 in Hx; lia); lia.
Qed.

Lemma crc_bit_inj x y : word16 x -> word16 y -> crc_bit x = crc_bit y -> x = y.
Proof.
  intros Hx Hy H; apply Z.lxor_eq, crc_bit_kernel; [by apply word16_lxor|].
  by rewrite crc_bit_lxor, H, Z.lxor_nilpotent.
Qed.
End linear.

#[export] Hint Resolve crc_bit_word word16_lxor : cint.

(** ** The code is the bit-serial register *)

Section serial.
Lemma iter_crc_bit_lxor n x y :
  Nat.iter n crc_bit (Z.lxor x y) = Z.lxor (Nat.iter n crc_bit x) (Nat.iter n crc_bit y).
Proof. induction n as [|n IH]; simpl; [done|]; by rewrite IH, crc_bit_lxor. Qed.

Lemma iter_crc_bit_word n x : word16 x -> word16 (Nat.iter n crc_bit x).
Proof. destruct n; simpl; auto with cint. Qed.

Lemma iter_crc_bit_inj n x y :
  word16 x -> word16 y -> Nat.iter n crc_bit x = Nat.iter n crc_bit y -> x = y.
Proof.
  intros Hx Hy; induction n as [|n IH]; simpl; [done|].
  intros H; apply IH; revert H; apply crc_bit_inj; by apply iter_crc_bit_word.
Qed.

Lemma iter_crc_bit_shift n x :
  0 <= x -> x * 2 ^ Z.of_nat n < 65536 -> Nat.iter n crc_bit x = x * 2 ^ Z.of_nat n.
Proof.
  intros Hx; induction n as [|n IH]; intros Hlt; simpl Nat.iter; [lia|].
  rewrite Nat2Z.inj_succ, Z.pow_succ_r in * by lia.
  rewrite IH by lia; rewrite crc_bit_shift; lia.
Qed.

Lemma bits_val_snoc bits b :
  bits_val (bits ++ [b]) = 2 * bits_val bits + (if b : bool then 1 else 0).
Proof. unfold bits_val; by rewrite fold_left_app. Qed.

Lemma bits_val_bound bits : 0 <= bits_val bits < 2 ^ zlen bits.
Proof.
  induction bits as [|b bits IH] using rev_ind; [done|].
  rewrite bits_val_snoc, zlen_app, Z.pow_add_r by (apply zlen_nonneg || done).
  change (2 ^ zlen [b]) with 2; destruct b; lia.
Qed.

Lemma bits_val_inj b1 b2 : length b1 = length b2 -> bits_val b1 = bits_val b2 -> b1 = b2.
Proof.
  revert b2; induction b1 as [|x b1 IH] using rev_ind; intros b2 Hl Hv.
  - by destruct b2.
  - destruct b2 as [|y b2 _] using rev_ind; [rewrite length_app in Hl; simpl in Hl; lia|].
    rewrite !length_app in Hl; rewrite !bits_val_snoc in Hv.
    assert (x = y) as -> by (destruct x, y; (done || lia)).
    f_equal; apply IH; [simpl in Hl; lia|destruct y; lia].
Qed.

(** Up to sixteen bits can be XORed into the register at once. *)
Lemma crc_serial_val bits crc :
  (length bits <= 16)%nat ->
  crc_serial bits crc =
  Nat.iter (length bits) crc_bit (Z.lxor crc (bits_val bits * 2 ^ (16 - zlen bits))).
Proof.
  induction bits as [|b bits IH] using rev_ind; intros Hl.
  - by simpl; rewrite Z.lxor_0_r.
  - rewrite length_app in *; simpl in Hl.
    unfold crc_serial in *; rewrite fold_left_app, IH by lia; simpl.
    rewrite Nat.add_1_r; simpl; unfold crc_in_bit; f_equal.
    rewrite !iter_crc_bit_lxor, Z.lxor_assoc; f_equal.
    rewrite bits_val_snoc, zlen_app; change (zlen [b]) with 1.
    set (n := length bits) in *; replace (zlen bits) with (Z.of_nat n) by done.
    pose proof (bits_val_bound bits) as Hb; change (zlen bits) with (Z.of_nat n) in Hb.
    replace ((2 * bits_val bits + (if b then 1 else 0)) * 2 ^ (16 - (Z.of_nat n + 1)))
      with (Z.lxor (bits_val bits * 2 ^ (16 - Z.of_nat n))
              (if b then 2 ^ (15 - Z.of_nat n) else 0)).
    + rewrite iter_crc_bit_lxor; f_equal.
      assert (Hp : 2 ^ (15 - Z.of_nat n) * 2 ^ Z.of_nat n = 32768)
        by (rewrite <- Z.pow_add_r by lia; by replace (15 - Z.of_nat n + Z.of_nat n) with 15 by lia).
      destruct b; rewrite iter_crc_bit_shift; rewrite ?Hp; lia.
    + replace (16 - Z.of_nat n) with (Z.succ (15 - Z.of_nat n)) by lia.
      replace (16 - (Z.of_nat n + 1)) with (15 - Z.of_nat n) by lia.
      rewrite Z.pow_succ_r by lia; destruct b; [|rewrite Z.lxor_0_r; lia].
      rewrite <- Z.add_nocarry_lxor; [lia|].
      apply Z.bits_inj'; intros i Hi; rewrite Z.land_spec, Z.bits_0, Z.pow2_bits_eqb by lia.
      destruct (Z.eqb_spec (15 - Z.of_nat n) i) as [<-|]; [|apply andb_false_r].
      rewrite andb_true_r, Z.mul_assoc, Z.mul_pow2_bits, Z.sub_diag by lia.
      rewrite Z.mul_comm; apply Z.testbit_even_0.
Qed.
End serial.

(** ** Correctness *)

Section crc16.
Lemma length_msb_bits n b : length (msb_bits n b) = n.
Proof. induction n; simpl; auto. Qed.

Lemma bits_val_cons_acc bits v :
  fold_left (fun v (b : bool) => 2 * v + (if b then 1 else 0)) bits v
  = v * 2 ^ zlen bits + bits_val bits.
Proof.
  unfold bits_val; revert v; induction bits as [|b bits IH]; intros v.
  - simpl; change (zlen []) with 0; lia.
  - cbn [fold_left]; rewrite (IH (2 * v + _)), (IH (2 * 0 + _)), zlen_cons.
    rewrite Z.pow_add_r by (apply zlen_nonneg || done).
    change (2 ^ 1) with 2; lia.
Qed.

Lemma bits_val_msb_bits n b : bits_val (msb_bits n b) = b mod 2 ^ Z.of_nat n.
Proof.
  induction n as [|n IH]; [by rewrite Z.mod_1_r|].
  simpl msb_bits; unfold bits_val; cbn [fold_left].
  rewrite bits_val_cons_acc, IH; unfold zlen; rewrite length_msb_bits.
  rewrite Nat2Z.inj_succ, Z.pow_succ_r, (Z.mul_comm 2 (2 ^ _)), Z.rem_mul_r by lia.
  pose proof (Z.testbit_spec' b (Z.of_nat n) ltac:(lia)) as Hb; unfold Z.b2z in Hb.
  rewrite <- Hb; destruct (Z.testbit b (Z.of_nat n)); lia.
Qed.

Lemma crc_byte_serial crc b :
  word16 crc -> byte_ok b -> crc_byte crc b = crc_serial (msb_bits 8 b) crc.
Proof.
  intros Hc Hb; rewrite crc_serial_val by (rewrite length_msb_bits; lia).
  rewrite length_msb_bits, bits_val_msb_bits; unfold crc_byte, byte_ok in *.
  unfold zlen; rewrite length_msb_bits, Z.shiftl_mul_pow2, Z.mod_small by lia.
  change (16 - Z.of_nat 8) with 8; rewrite u16_id; [done|].
  apply word16_lxor; [done|]; unfold word16; lia.
Qed.

Lemma crc_serial_word bits crc : word16 crc -> word16 (crc_serial bits crc).
Proof.
  unfold crc_serial; revert crc; induction bits as [|b bits IH]; simpl; auto.
  intros crc Hc; apply IH; unfold crc_in_bit; auto with cint.
Qed.

Lemma crc_serial_app b1 b2 crc : crc_serial (b1 ++ b2) crc = crc_serial b2 (crc_serial b1 crc).
Proof. apply fold_left_app. Qed.

Lemma crc_serial_inj bits x y :
  word16 x -> word16 y -> crc_serial bits x = crc_serial bits y -> x = y.
Proof.
  revert x y; induction bits as [|b bits IH]; intros x y Hx Hy H; [done|].
  assert (word16 (if b then 0x8000 else 0)) by (destruct b; unfold word16; lia).
  apply IH in H; [|unfold crc_in_bit; auto with cint..].
  apply crc_bit_inj in H; [|auto with cint..].
  apply (f_equal (fun z => Z.lxor z (if b then 0x8000 else 0))) in H.
  by rewrite !Z.lxor_assoc, !Z.lxor_nilpotent, !Z.lxor_0_r in H.
Qed.

Lemma fold_crc_byte_serial data crc :
  word16 crc -> bytes_ok data ->
  fold_left crc_byte data crc = crc_serial (wire_bits data) crc.
Proof.
  intros Hc Hd; revert crc Hc; induction Hd as [|b data Hb _ IH]; intros crc Hc; [done|].
  cbn [fold_left]; unfold wire_bits; cbn [mbind list_bind].
  rewrite crc_byte_serial, crc_serial_app by done.
  apply IH, crc_serial_word, Hc.
Qed.

(** The byte loop computes the bit-serial CRC of the message bits. *)
Lemma crc16_serial data :
  bytes_ok data -> ar8030_crc16 data = crc_serial (wire_bits data) 0xFFFF.
Proof. apply fold_crc_byte_serial; unfold word16; lia. Qed.

Lemma crc16_range data : 0 <= ar8030_crc16 data < 65536.
Proof.
  unfold ar8030_crc16; induction data as [|b data _] using rev_ind; [done|].
  rewrite fold_left_app; apply crc_bit_word.
Qed.

(** C25. A corruption confined to a burst of at most sixteen consecutive
    bits never goes undetected: two payloads whose message bits agree
    outside one window of up to sixteen bits, and differ inside it, have
    different checksums. *)
Theorem crc16_detects_bursts data data' p b b' s :
  bytes_ok data -> bytes_ok data' ->
  wire_bits data = p ++ b ++ s -> wire_bits data' = p ++ b' ++ s ->
  length b = length b' -> (length b <= 16)%nat -> b <> b' ->
  ar8030_crc16 data <> ar8030_crc16 data'.
Proof.
  intros Hd Hd' Hw Hw' Hl H16 Hne Heq; apply Hne.
  rewrite !crc16_serial, Hw, Hw', !crc_serial_app in Heq by done.
  set (c := crc_serial p 0xFFFF) in *.
  assert (Hc : word16 c) by (apply crc_serial_word; unfold word16; lia).
  apply crc_serial_inj in Heq; [|by apply crc_serial_word..].
  rewrite !crc_serial_val, <- Hl in Heq by lia.
  assert (Hz : zlen b' = zlen b) by (unfold zlen; by rewrite Hl); rewrite Hz in Heq.
  assert (Hpow : 2 ^ zlen b * 2 ^ (16 - zlen b) = 65536)
    by (rewrite <- Z.pow_add_r by (unfold zlen; lia); by replace (zlen b + _) with 16 by lia).
  pose proof (bits_val_bound b); pose proof (bits_val_bound b'); rewrite Hz in *.
  apply iter_crc_bit_inj in Heq; [|apply word16_lxor; [done|]; unfold word16; nia..].
  apply (f_equal (Z.lxor c)) in Heq.
  rewrite <- !Z.lxor_assoc, !Z.lxor_nilpotent, !Z.lxor_0_l in Heq.
  apply bits_val_inj; [done|]; nia.
Qed.
End crc16.

Lemma crc16_detects_bursts_witness :
  ar8030_crc16 [0x12; 0x34; 0x56; 0x78] <> ar8030_crc16 [0x12; 0x37; 0xA9; 0x78].
Proof.
  apply (crc16_detects_bursts [0x12; 0x34; 0x56; 0x78] [0x12; 0x37; 0xA9; 0x78]
    (take 14 (wire_bits [0x12; 0x34; 0x56; 0x78]))
    [false; false; false; true; false; true; false; true; true; false]
    [true; true; true; false; true; false; true; false; false; true]
    (drop 24 (wire_bits [0x12; 0x34; 0x56; 0x78])));
    try reflexivity; try (repeat constructor; vm_compute; congruence);
    try (vm_compute; lia); discriminate.
Defined.
