(* ===== verification/ChunkHdr.v ===== *)
(** [common/ar8030_chunk.h]: the 22-byte packed chunk header and its bytes on
    the wire. *)

From S2P Require Import Prelude.
#[local] Open Scope Z_scope.

Definition AR8030_CHUNK_MAGIC : Z := 0x4D524641.
Definition AR8030_CHUNK_DEFAULT_PAYLOAD : Z := 65535.
Definition AR8030_CHUNK_MAX_PAYLOAD : Z := 65535.
Definition AR8030_CHUNK_HDR_SIZE : Z := 22.

Definition AR8030_CHUNK_FLAG_IDR : Z := 0x01.
Definition AR8030_CHUNK_FLAG_GDR : Z := 0x02.
Definition AR8030_CHUNK_FLAG_ENHANCE : Z := 0x04.
Definition AR8030_CHUNK_FLAG_FRAME_END : Z := 0x80.
Definition AR8030_CHUNK_FLAG_SLICE_END : Z := 0x40.

Definition AR8030_CHUNK_CODEC_H265 : Z := 0x01.
Definition AR8030_CHUNK_CODEC_OPUS : Z := 0x02.
Definition AR8030_CHUNK_CODEC_CTRL : Z := 0x03.
Definition AR8030_CHUNK_CODEC_SIDECAR : Z := 0x04.
Definition AR8030_CTRL_MAX_PAYLOAD : Z := 64.
Definition AR8030_SIDECAR_MAX_PAYLOAD : Z := 512.

(** [struct ar8030_chunk_hdr] *)
Record chunk_hdr := mk_hdr {
  magic : Z;
  frame_seq : Z;
  chunk_idx : Z;
  chunk_count : Z;
  payload_len : Z;
  flags : Z;
  codec : Z;
  frame_pts : Z;
  checksum : Z;
  reserved : Z
}.

(** The packed little-endian memory image ([memcpy] of the struct). *)
Definition hdr_bytes (h : chunk_hdr) : list Z :=
  le_enc 4 (magic h) ++ le_enc 2 (frame_seq h) ++ le_enc 2 (chunk_idx h)
  ++ le_enc 2 (chunk_count h) ++ le_enc 2 (payload_len h) ++ le_enc 1 (flags h)
  ++ le_enc 1 (codec h) ++ le_enc 4 (frame_pts h) ++ le_enc 2 (checksum h)
  ++ le_enc 2 (reserved h).

(** [memcpy(hdr, buf, AR8030_CHUNK_HDR_SIZE)] *)
Definition hdr_of_bytes (l : list Z) : chunk_hdr := {|
  magic := le_dec (zslice 0 4 l);
  frame_seq := le_dec (zslice 4 2 l);
  chunk_idx := le_dec (zslice 6 2 l);
  chunk_count := le_dec (zslice 8 2 l);
  payload_len := le_dec (zslice 10 2 l);
  flags := le_dec (zslice 12 1 l);
  codec := le_dec (zslice 13 1 l);
  frame_pts := le_dec (zslice 14 4 l);
  checksum := le_dec (zslice 18 2 l);
  reserved := le_dec (zslice 20 2 l)
|}.

(** Every field is within its C type. *)
Record hdr_ok (h : chunk_hdr) : Prop := {
  ok_magic : 0 <= magic h < 4294967296;
  ok_frame_seq : 0 <= frame_seq h < 65536;
  ok_chunk_idx : 0 <= chunk_idx h < 65536;
  ok_chunk_count : 0 <= chunk_count h < 65536;
  ok_payload_len : 0 <= payload_len h < 65536;
  ok_flags : 0 <= flags h < 256;
  ok_codec : 0 <= codec h < 256;
  ok_frame_pts : 0 <= frame_pts h < 4294967296;
  ok_checksum : 0 <= checksum h < 65536;
  ok_reserved : 0 <= reserved h < 65536
}.

Section roundtrip.
Lemma length_hdr_bytes h : length (hdr_bytes h) = 22%nat.
Proof. done. Qed.
Lemma zlen_hdr_bytes h : zlen (hdr_bytes h) = AR8030_CHUNK_HDR_SIZE.
Proof. done. Qed.
Lemma hdr_bytes_ok h : bytes_ok (hdr_bytes h).
Proof. unfold hdr_bytes; rewrite !bytes_ok_app; auto 20 with cint. Qed.

(** The fields survive the wire, whatever follows the header. *)
Lemma hdr_of_hdr_bytes h rest : hdr_ok h -> hdr_of_bytes (hdr_bytes h ++ rest) = h.
Proof.
  intros [? ? ? ? ? ? ? ? ? ?]; destruct h; simpl in *; unfold hdr_of_bytes.
  f_equal; (match goal with |- le_dec (zslice ?o ?n _) = ?z =>
      change (le_dec (le_enc (Z.to_nat n) z) = z) end; apply le_dec_enc; eval_pow; lia).
Qed.

(** Any 22 bytes are a header, and its bytes are those. *)
Lemma hdr_bytes_of_bytes l :
  bytes_ok l -> AR8030_CHUNK_HDR_SIZE <= zlen l ->
  hdr_bytes (hdr_of_bytes l) = ztake AR8030_CHUNK_HDR_SIZE l.
Proof.
  unfold AR8030_CHUNK_HDR_SIZE; intros Hok Hlen; unfold hdr_bytes, hdr_of_bytes.
  cbn [magic frame_seq chunk_idx chunk_count payload_len flags codec frame_pts checksum reserved].
  change 4%nat with (Z.to_nat 4); change 2%nat with (Z.to_nat 2); change 1%nat with (Z.to_nat 1).
  rewrite !le_enc_slice by (done || lia).
  do 9 (rewrite zslice_cat by lia); done.
Qed.

Lemma le_dec_slice_bound off n l :
  bytes_ok l -> 0 <= n -> 0 <= le_dec (zslice off n l) < 256 ^ n.
Proof.
  intros Hl Hn; pose proof (le_dec_bound (zslice off n l) ltac:(auto with cint)) as [H0 H1].
  split; [done|]; eapply Z.lt_le_trans; [exact H1|].
  apply Z.pow_le_mono_r; [lia|]; unfold zlen, zslice, ztake; rewrite length_take; lia.
Qed.

Lemma hdr_of_bytes_ok l : bytes_ok l -> hdr_ok (hdr_of_bytes l).
Proof.
  intros H; unfold hdr_of_bytes; constructor; simpl;
    (eapply le_dec_slice_bound in H; [|]; [exact H|lia]).
Qed.
End roundtrip.
