(* ===== verification/Chunker.v ===== *)
(** [common/chunker.c]: splitting a frame, or one slice of a streamed frame,
    into header-prefixed chunks handed to a send callback. *)

From S2P Require Import Prelude Crc16 ChunkHdr.
#[local] Open Scope Z_scope.

(** A chunk: its header and the payload bytes behind it. *)
Abbreviation chunk := (chunk_hdr * list Z)%type.

Definition chunk_bytes (c : chunk) : list Z := hdr_bytes c.1 ++ c.2.

(** Video among the chunks of a stream that also carries control messages and
    sidecar datagrams. *)
Definition is_video (c : chunk) : Prop := codec c.1 = AR8030_CHUNK_CODEC_H265.

(** The arguments of [chunk_run]; [cp_data] stands for [data, data_len]. *)
Record chunk_params := mk_cp {
  cp_frame_seq : Z;
  cp_flags : Z;
  cp_codec : Z;
  cp_frame_pts : Z;
  cp_data : list Z;
  cp_payload : Z;
  cp_first_idx : Z;
  cp_total_count : Z;
  cp_frame_end : bool;
  cp_part : bool
}.

(** [chunk_count] for a data length and a payload cap. *)
Definition chunk_count_for (data_len chunk_payload : Z) : Z :=
  let c := u32 (data_len + chunk_payload - 1) / chunk_payload in
  if c =? 0 then 1 else c.

(** The body of [chunk_run]'s loop up to the send: chunk [i] of [count]. *)
Definition chunk_at (p : chunk_params) (count i : Z) : chunk :=
  let off := u32 (i * cp_payload p) in
  let len0 := u32 (zlen (cp_data p) - off) in
  let len := if cp_payload p <? len0 then cp_payload p else len0 in
  let last := u32 (i + 1) =? count in
  let final := cp_frame_end p && last in
  let slice_end := cp_part p && negb (cp_frame_end p) && last in
  let payload := zslice off len (cp_data p) in
  ({| magic := AR8030_CHUNK_MAGIC;
      frame_seq := cp_frame_seq p;
      chunk_idx := u16 (cp_first_idx p + i);
      chunk_count := u16 (if final then cp_first_idx p + count else cp_total_count p);
      payload_len := u16 len;
      flags := u8 (if final then Z.lor (cp_flags p) AR8030_CHUNK_FLAG_FRAME_END
                   else if slice_end then Z.lor (cp_flags p) AR8030_CHUNK_FLAG_SLICE_END
                   else cp_flags p);
      codec := cp_codec p;
      frame_pts := cp_frame_pts p;
      checksum := ar8030_crc16 payload;
      reserved := 0 |}, payload).

Section chunker.
(** The send callback: new callback state and C result. *)
Context {W : Type} (send : W -> list Z -> Z * W).

(** [for (i = 0; i < chunk_count; i++)], [n] iterations left. *)
Fixpoint chunk_loop (p : chunk_params) (count : Z) (n : nat) (i sent : Z) (w : W) : Z * W :=
  match n with
  | O => (sent, w)
  | S n =>
      let '(ret, w) := send w (chunk_bytes (chunk_at p count i)) in
      if negb (ret =? 0) then (sent, w)
      else chunk_loop p count n (i + 1) (sent + 1) w
  end.

(** Result, [*out_chunk_count] where it is written, callback state. *)
Definition chunk_run (p : chunk_params) (scratch_cap : Z) (w : W) : Z * option Z * W :=
  if (cp_payload p =? 0) || (AR8030_CHUNK_MAX_PAYLOAD <? cp_payload p) then (-1, None, w)
  else if scratch_cap <? u32 (AR8030_CHUNK_HDR_SIZE + cp_payload p) then (-1, None, w)
  else
    let count := chunk_count_for (zlen (cp_data p)) (cp_payload p) in
    if 0xFFFF <? u32 (cp_first_idx p + count) then (-1, None, w)
    else
      let '(sent, w) := chunk_loop p count (Z.to_nat count) 0 0 w in
      (sent, Some count, w).

Definition ar8030_chunk_frame (frame_seq flags codec frame_pts : Z) (data : list Z)
    (chunk_payload scratch_cap : Z) (w : W) : Z * option Z * W :=
  if (chunk_payload =? 0) || (AR8030_CHUNK_MAX_PAYLOAD <? chunk_payload) then (-1, None, w)
  else
    let count := chunk_count_for (zlen data) chunk_payload in
    if 0xFFFF <? count then (-1, None, w)
    else chunk_run (mk_cp frame_seq flags codec frame_pts data chunk_payload 0 count false false)
           scratch_cap w.

Definition ar8030_chunk_part (frame_seq flags codec frame_pts : Z) (data : list Z)
    (chunk_payload first_idx : Z) (last : bool) (scratch_cap : Z) (w : W) : Z * option Z * W :=
  chunk_run (mk_cp frame_seq flags codec frame_pts data chunk_payload first_idx 0 last true)
    scratch_cap w.

(** Reference: hand over a list of buffers until one is refused. *)
Fixpoint send_all (bufs : list (list Z)) (w : W) : Z * W :=
  match bufs with
  | [] => (0, w)
  | b :: bufs =>
      let '(ret, w) := send w b in
      if negb (ret =? 0) then (0, w)
      else let '(n, w) := send_all bufs w in (1 + n, w)
  end.

(** The chunks of one call, all of them. *)
Definition chunks_of (p : chunk_params) (count : Z) : list chunk :=
  (fun i => chunk_at p count (Z.of_nat i)) <$> seq 0 (Z.to_nat count).

Lemma chunk_loop_send_all p count n i sent w :
  chunk_loop p count n (Z.of_nat i) sent w =
  let '(k, w') := send_all (chunk_bytes <$> ((fun i => chunk_at p count (Z.of_nat i)) <$> seq i n)) w in
  (sent + k, w').
Proof.
  revert i sent w; induction n as [|n IH]; intros i sent w; simpl; [f_equal; lia|].
  destruct (send w _) as [ret w1]; destruct (negb _); [f_equal; lia|].
  replace (Z.of_nat i + 1) with (Z.of_nat (S i)) by lia; rewrite IH.
  destruct (send_all _ w1) as [k w2]; f_equal; lia.
Qed.
End chunker.

(** ** What the chunks of one call carry *)

(** A chunk the receiver's stream reader accepts. *)
Record chunk_ok (c : chunk) : Prop := {
  chunk_ok_hdr : hdr_ok c.1;
  chunk_ok_magic : magic c.1 = AR8030_CHUNK_MAGIC;
  chunk_ok_len : payload_len c.1 = zlen c.2;
  chunk_ok_crc : checksum c.1 = ar8030_crc16 c.2;
  chunk_ok_bytes : bytes_ok c.2
}.

Section geometry.
Context (p : chunk_params) (count : Z).
#[local] Abbreviation L := (zlen (cp_data p)).
#[local] Abbreviation c := (cp_payload p).
Hypothesis Hc : 0 < c <= AR8030_CHUNK_MAX_PAYLOAD.
Hypothesis HL : L + c - 1 < 2 ^ 32.
Hypothesis Hcount : count = chunk_count_for L c.

Lemma chunk_count_bounds :
  1 <= count /\ L <= count * c /\ (L = 0 \/ (count - 1) * c < L) /\ count <= L + 1.
Proof using Hc HL Hcount.
  pose proof (zlen_nonneg (cp_data p)) as H0.
  unfold AR8030_CHUNK_MAX_PAYLOAD in Hc.
  unfold chunk_count_for in Hcount; rewrite u32_id in Hcount by lia.
  assert (Hd : c * ((L + c - 1) / c) <= L + c - 1 < c * ((L + c - 1) / c) + c).
  { split; [apply Z.mul_div_le; lia|].
    pose proof (Z.mul_succ_div_gt (L + c - 1) c); lia. }
  destruct (_ =? 0) eqn:E in Hcount; bool_to_prop; nia.
Qed.

Lemma chunk_at_payload i :
  0 <= i < count -> (chunk_at p count i).2 = zslice (i * c) (Z.min c (L - i * c)) (cp_data p).
Proof using Hc HL Hcount.
  intros Hi; pose proof chunk_count_bounds as (? & ? & ? & ?).
  pose proof (zlen_nonneg (cp_data p)); unfold chunk_at.
  unfold AR8030_CHUNK_MAX_PAYLOAD in Hc; assert (0 <= i * c <= L) by nia.
  cbn [snd]; unwrap; f_equal; if_cases; lia.
Qed.

Lemma chunk_at_payload_len i : 0 <= i < count -> zlen (chunk_at p count i).2 = Z.min c (L - i * c).
Proof using Hc HL Hcount.
  intros Hi; pose proof chunk_count_bounds as (? & ? & ? & ?).
  pose proof (zlen_nonneg (cp_data p)).
  rewrite chunk_at_payload, zlen_slice by (done || nia); done.
Qed.

(** The payloads of the first [k] chunks are the data's first bytes. *)
Lemma chunks_prefix k :
  Z.of_nat k <= count ->
  concat ((fun i => (chunk_at p count (Z.of_nat i)).2) <$> seq 0 k)
  = ztake (Z.of_nat k * c) (cp_data p).
Proof using Hc HL Hcount.
  pose proof chunk_count_bounds as (? & ? & ? & ?).
  pose proof (zlen_nonneg (cp_data p)).
  induction k as [|k IH]; intros Hk; [done|].
  rewrite seq_S, fmap_app, concat_app, IH by lia; cbn [fmap list_fmap concat app Nat.add].
  rewrite app_nil_r, chunk_at_payload by lia.
  replace (ztake (Z.of_nat k * c) (cp_data p)) with (zslice 0 (Z.of_nat k * c) (cp_data p)) by done.
  rewrite zslice_cat by nia.
  destruct (Z.le_gt_cases c (L - Z.of_nat k * c)).
  - unfold zslice; rewrite zdrop_0; f_equal; lia.
  - unfold zslice; rewrite zdrop_0, !ztake_all by nia; done.
Qed.

Lemma chunks_concat : concat (snd <$> chunks_of p count) = cp_data p.
Proof using Hc HL Hcount.
  pose proof chunk_count_bounds as (? & ? & ? & ?).
  unfold chunks_of; rewrite <- list_fmap_compose.
  change (snd ∘ _) with (fun i => (chunk_at p count (Z.of_nat i)).2).
  rewrite chunks_prefix by lia; apply ztake_all; nia.
Qed.

Lemma zlen_chunks_of : zlen (chunks_of p count) = count.
Proof using Hc HL Hcount.
  pose proof chunk_count_bounds as (? & ? & ? & ?).
  unfold zlen, chunks_of; rewrite length_fmap, length_seq; lia.
Qed.
End geometry.

(** The caller's header fields are within their C types. *)
Record params_ok (p : chunk_params) : Prop := {
  po_seq : 0 <= cp_frame_seq p < 65536;
  po_flags : 0 <= cp_flags p < 256;
  po_codec : 0 <= cp_codec p < 256;
  po_pts : 0 <= cp_frame_pts p < 4294967296;
  po_data : bytes_ok (cp_data p);
  po_payload : 0 < cp_payload p <= AR8030_CHUNK_MAX_PAYLOAD;
  po_len : zlen (cp_data p) + cp_payload p - 1 < 2 ^ 32
}.

Lemma chunk_at_ok p count i :
  params_ok p -> count = chunk_count_for (zlen (cp_data p)) (cp_payload p) ->
  0 <= i < count -> chunk_ok (chunk_at p count i).
Proof.
  intros [] Hcount Hi; pose proof (chunk_at_payload_len p count po_payload0 po_len0 Hcount i Hi) as Hlen.
  pose proof (crc16_range (chunk_at p count i).2) as Hcrc.
  assert (Hpl : payload_len (chunk_at p count i).1 = zlen (chunk_at p count i).2).
  { unfold AR8030_CHUNK_MAX_PAYLOAD in *; pose proof (zlen_nonneg (cp_data p)).
    pose proof (chunk_count_bounds p count po_payload0 po_len0 Hcount) as (? & ? & ? & ?).
    rewrite Hlen; unfold chunk_at; cbn [fst payload_len]; unwrap.
    assert (0 <= i * cp_payload p <= zlen (cp_data p)) by nia.
    rewrite (u32_id (i * _)), (u32_id (_ - _)) by lia; if_cases; unwrap; lia. }
  constructor; try done; [constructor|unfold chunk_at; cbn [snd]; auto with cint];
    try (rewrite Hpl, Hlen; unfold AR8030_CHUNK_MAX_PAYLOAD in *;
         pose proof (zlen_nonneg (chunk_at p count i).2); lia);
    unfold chunk_at; cbn [fst magic frame_seq chunk_idx chunk_count flags codec frame_pts checksum
      reserved] in *; unfold AR8030_CHUNK_MAGIC; auto using u16_range, u8_range, crc16_range; lia.
Qed.

Lemma chunks_of_ok p count :
  params_ok p -> count = chunk_count_for (zlen (cp_data p)) (cp_payload p) ->
  Forall chunk_ok (chunks_of p count).
Proof.
  intros Hp Hcount; apply list.Forall_forall; intros c Hc.
  apply list_elem_of_fmap in Hc as (i & -> & Hi); apply elem_of_seq in Hi.
  apply chunk_at_ok; try done; lia.
Qed.

(** ** What the callback keeps, a call keeps *)

Section callback.
Context {W : Type} (send : W -> list Z -> Z * W) (I : W -> Prop).
Hypothesis Hsend : forall w b, I w -> I (send w b).2.

Lemma chunk_loop_keeps p count n : forall i sent w, I w -> I (chunk_loop send p count n i sent w).2.
Proof using All.
  induction n as [|n IH]; intros i sent w Hw; [done|]; cbn [chunk_loop].
  pose proof (Hsend w (chunk_bytes (chunk_at p count i)) Hw); destruct (send w _) as [ret w1]; destruct (negb _); auto.
Qed.

Lemma chunk_run_keeps p cap w : I w -> I (chunk_run send p cap w).2.
Proof using All.
  intros Hw; unfold chunk_run; repeat (match goal with |- context [if ?b then _ else _] => destruct b end; [done|]).
  pose proof (chunk_loop_keeps p (chunk_count_for (zlen (cp_data p)) (cp_payload p))
                (Z.to_nat (chunk_count_for (zlen (cp_data p)) (cp_payload p))) 0 0 w Hw) as H.
  by destruct (chunk_loop _ _ _ _ _ _ _) as [sent w'].
Qed.

Lemma chunk_frame_keeps seq fl co pts data payload cap w : I w -> I (ar8030_chunk_frame send seq fl co pts data payload cap w).2.
Proof using All.
  intros Hw; unfold ar8030_chunk_frame.
  repeat (match goal with |- context [if ?b then _ else _] => destruct b end; [done|]); by apply chunk_run_keeps.
Qed.

Lemma chunk_part_keeps seq fl co pts data payload first fin cap w :
  I w -> I (ar8030_chunk_part send seq fl co pts data payload first fin cap w).2.
Proof using All. intros Hw; by apply chunk_run_keeps. Qed.
End callback.

(** ** Correctness *)

Section correct.
Context {W : Type} (send : W -> list Z -> Z * W).

Lemma chunk_run_spec p scratch_cap w count :
  0 < cp_payload p <= AR8030_CHUNK_MAX_PAYLOAD -> zlen (cp_data p) + cp_payload p - 1 < 2 ^ 32 ->
  AR8030_CHUNK_HDR_SIZE + cp_payload p <= scratch_cap ->
  count = chunk_count_for (zlen (cp_data p)) (cp_payload p) ->
  0 <= cp_first_idx p -> cp_first_idx p + count <= 65535 ->
  chunk_run send p scratch_cap w =
  let '(n, w') := send_all send (chunk_bytes <$> chunks_of p count) w in (n, Some count, w').
Proof.
  intros Hc HL Hs Hcount Hf Hmax; pose proof (chunk_count_bounds p count Hc HL Hcount).
  unfold AR8030_CHUNK_HDR_SIZE, AR8030_CHUNK_MAX_PAYLOAD in *; unfold chunk_run.
  unfold AR8030_CHUNK_HDR_SIZE, AR8030_CHUNK_MAX_PAYLOAD; rewrite <- Hcount.
  rewrite (proj2 (Z.eqb_neq _ _)), (proj2 (Z.ltb_ge _ _)) by lia; cbn [orb].
  rewrite (u32_id (22 + _)), (u32_id (_ + count)), !(proj2 (Z.ltb_ge _ _)) by lia.
  change 0 with (Z.of_nat 0) at 1; rewrite chunk_loop_send_all.
  unfold chunks_of; destruct (send_all _ _ w); f_equal; f_equal; lia.
Qed.

Lemma send_all_bounds bufs w : 0 <= (send_all send bufs w).1 <= zlen bufs.
Proof.
  revert w; induction bufs as [|b bufs IH]; intros w; [done|].
  cbn [send_all]; rewrite zlen_cons; destruct (send w b) as [ret w1].
  destruct (negb _); [cbn; pose proof (zlen_nonneg bufs); lia|].
  specialize (IH w1); destruct (send_all send bufs w1); cbn in *; lia.
Qed.

Lemma chunk_frame_spec seq fl co pts data payload scratch_cap w count :
  let p := mk_cp seq fl co pts data payload 0 count false false in
  0 < payload <= AR8030_CHUNK_MAX_PAYLOAD -> zlen data + payload - 1 < 2 ^ 32 ->
  AR8030_CHUNK_HDR_SIZE + payload <= scratch_cap ->
  count = chunk_count_for (zlen data) payload -> count <= 65535 ->
  ar8030_chunk_frame send seq fl co pts data payload scratch_cap w
  = let '(n, w') := send_all send (chunk_bytes <$> chunks_of p count) w in (n, Some count, w').
Proof.
  intros p Hc HL Hs Hcount Hmax; unfold ar8030_chunk_frame, AR8030_CHUNK_MAX_PAYLOAD in *; rewrite <- Hcount.
  rewrite (proj2 (Z.eqb_neq _ _)), !(proj2 (Z.ltb_ge _ _)) by lia; cbn [orb].
  apply chunk_run_spec; cbn; unfold AR8030_CHUNK_MAX_PAYLOAD; (done || lia).
Qed.

(** A message that fits one chunk goes out as one. *)
Lemma chunk_frame_one sq fl co pts d payload scratch w :
  0 <= sq < 65536 -> 0 <= fl < 256 -> 0 <= co < 256 -> 0 <= pts < 2 ^ 32 -> bytes_ok d -> 0 < zlen d <= payload ->
  payload <= AR8030_CHUNK_MAX_PAYLOAD -> AR8030_CHUNK_HDR_SIZE + payload <= scratch ->
  exists c, chunk_ok c /\ c.2 = d /\ codec c.1 = co /\
    ar8030_chunk_frame send sq fl co pts d payload scratch w
    = let '(ret, w') := send w (chunk_bytes c) in (if ret =? 0 then 1 else 0, Some 1, w').
Proof.
  intros Hsq Hfl Hco Hpts Hb Hlen Hmax Hs; set (p := mk_cp sq fl co pts d payload 0 1 false false).
  pose proof Hmax as Hmax'; unfold AR8030_CHUNK_MAX_PAYLOAD in Hmax'.
  assert (Hc1 : 1 = chunk_count_for (zlen d) payload).
  { unfold chunk_count_for; rewrite u32_id by lia.
    replace ((zlen d + payload - 1) / payload) with 1; [done|]; apply Z.div_unique with (zlen d - 1); lia. }
  assert (Hp : params_ok p) by (constructor; cbn; (done || lia)).
  exists (chunk_at p 1 0); split_and!; [by apply chunk_at_ok| |done|].
  - rewrite (chunk_at_payload p 1) by (unfold AR8030_CHUNK_MAX_PAYLOAD; cbn; (lia || done)); cbn [cp_data cp_payload p].
    unfold zslice; rewrite Z.mul_0_l, zdrop_0, Z.sub_0_r; apply ztake_all; lia.
  - rewrite (chunk_frame_spec _ _ _ _ _ _ _ _ 1) by (done || lia); fold p; change (chunks_of p 1) with [chunk_at p 1 0].
    cbn [fmap list_fmap send_all]; destruct (send w _) as [ret w']; by destruct (ret =? 0).
Qed.

(** A frame that fits the wire format goes out as the reference chunk
    list, in order, until the callback refuses one: the result is the
    number of chunks accepted and [*out_chunk_count] the number needed.
    Those chunks' payloads concatenate to exactly the frame, none is larger
    than the cap, and each carries a header the receiver accepts. *)
Theorem chunk_frame_correct seq fl co pts data payload scratch_cap w count :
  let p := mk_cp seq fl co pts data payload 0 count false false in
  params_ok p -> AR8030_CHUNK_HDR_SIZE + payload <= scratch_cap ->
  count = chunk_count_for (zlen data) payload -> count <= 65535 ->
  ar8030_chunk_frame send seq fl co pts data payload scratch_cap w
    = (let '(n, w') := send_all send (chunk_bytes <$> chunks_of p count) w in (n, Some count, w'))
  /\ concat (snd <$> chunks_of p count) = data
  /\ zlen (chunks_of p count) = count
  /\ Forall (fun c => chunk_ok c /\ zlen c.2 <= payload /\ chunk_count c.1 = count
                      /\ frame_seq c.1 = seq /\ flags c.1 = fl) (chunks_of p count).
Proof.
  intros p Hp Hs Hcount Hmax; pose proof Hp as [? ? ? ? ? Hc HL]; cbn in *.
  split; [|split; [|split]].
  - by apply chunk_frame_spec.
  - by apply (chunks_concat p).
  - by apply (zlen_chunks_of p).
  - apply list.Forall_forall; intros c Hin.
    apply list_elem_of_fmap in Hin as (i & -> & Hi); apply elem_of_seq in Hi.
    pose proof (chunk_count_bounds p count Hc HL Hcount).
    split; [|split; [|split; [|split]]].
    + apply chunk_at_ok; try done; lia.
    + rewrite chunk_at_payload_len by (done || lia); cbn; lia.
    + unfold chunk_at; cbn; unwrap; done.
    + done.
    + unfold chunk_at; cbn; by unwrap.
Qed.

(** A frame that cannot be represented (no payload cap, a cap beyond
    the 16-bit length field, a scratch buffer too small, or more chunks
    than the 16-bit index can number) is refused before anything is sent. *)
Theorem chunk_frame_refuses seq fl co pts data payload scratch_cap w :
  0 <= payload < 2 ^ 32 -> 0 <= scratch_cap -> zlen data + payload - 1 < 2 ^ 32 ->
  payload = 0 \/ AR8030_CHUNK_MAX_PAYLOAD < payload
    \/ scratch_cap < AR8030_CHUNK_HDR_SIZE + payload
    \/ 65535 < chunk_count_for (zlen data) payload ->
  ar8030_chunk_frame send seq fl co pts data payload scratch_cap w = (-1, None, w).
Proof.
  unfold ar8030_chunk_frame, AR8030_CHUNK_MAX_PAYLOAD, AR8030_CHUNK_HDR_SIZE.
  intros Hp Hs HL H; destruct ((payload =? 0) || _) eqn:E; [done|]; bool_to_prop.
  destruct (_ <? chunk_count_for _ _) eqn:E2; [done|]; bool_to_prop.
  unfold chunk_run, AR8030_CHUNK_MAX_PAYLOAD, AR8030_CHUNK_HDR_SIZE; cbn [cp_payload cp_data].
  rewrite (proj2 (Z.eqb_neq _ _)), (proj2 (Z.ltb_ge _ _)) by lia; cbn [orb].
  rewrite (u32_id (22 + _)), (proj2 (Z.ltb_lt _ _)) by lia; done.
Qed.
End correct.

(** A callback that keeps every buffer, for the concrete runs. *)
Definition collect (w : list (list Z)) (b : list Z) : Z * list (list Z) := (0, w ++ [b]).

Lemma chunk_frame_correct_witness :
  ar8030_chunk_frame collect 7 1 1 90 [10; 11; 12; 13; 14] 2 24 []
    = (3, Some 3, chunk_bytes <$> chunks_of (mk_cp 7 1 1 90 [10; 11; 12; 13; 14] 2 0 3 false false) 3).
Proof.
  assert (Hp : params_ok (mk_cp 7 1 1 90 [10; 11; 12; 13; 14] 2 0 3 false false)).
  { constructor; cbn; try (unfold AR8030_CHUNK_MAX_PAYLOAD; lia); [|vm_compute; done].
    repeat constructor; unfold byte_ok; lia. }
  destruct (chunk_frame_correct collect 7 1 1 90 [10; 11; 12; 13; 14] 2 24 [] 3 Hp) as [-> _];
    [vm_compute; congruence|reflexivity|lia|vm_compute; reflexivity].
Defined.

Lemma chunk_frame_refuses_witness :
  ar8030_chunk_frame collect 7 1 1 90 (replicate 3 0) 70000 100000 [] = (-1, None, []).
Proof.
  apply chunk_frame_refuses; [lia|lia|vm_compute; done|].
  right; left; unfold AR8030_CHUNK_MAX_PAYLOAD; lia.
Defined.
