(* ===== verification/Reassembly.v ===== *)
(** [common/reassembly.c]: chunks back into whole frames. *)

From S2P Require Import Prelude Crc16 ChunkHdr Chunker.
#[local] Open Scope Z_scope.

(** ** The code *)

(** [ar8030_reassembly_t]; [r_buf] is [buf[0..write_off)], so [write_off] is
    its length. *)
Record reasm := mk_reasm {
  r_buf : list Z;
  r_cap : Z;
  r_frame_seq : Z;
  r_chunk_count : Z;
  r_next_chunk_idx : Z;
  r_frame_pts : Z;
  r_flags : Z;
  r_active : bool;
  r_done : bool;
  r_completed_frames : Z;
  r_dropped_frames : Z;
  r_last_bad_seq : Z;
  r_have_last_bad_seq : bool
}.

Definition r_write_off (r : reasm) : Z := zlen (r_buf r).

Definition ar8030_reassembly_init (cap : Z) : reasm :=
  mk_reasm [] cap 0 0 0 0 0 false false 0 0 0 false.

Definition ar8030_reassembly_reset (r : reasm) : reasm :=
  mk_reasm [] (r_cap r) (r_frame_seq r) (r_chunk_count r) 0 (r_frame_pts r) (r_flags r)
    false false (r_completed_frames r) (r_dropped_frames r) (r_last_bad_seq r)
    (r_have_last_bad_seq r).

Definition note_dropped (r : reasm) (seq : Z) : reasm :=
  if r_have_last_bad_seq r && (r_last_bad_seq r =? seq) then r
  else mk_reasm (r_buf r) (r_cap r) (r_frame_seq r) (r_chunk_count r) (r_next_chunk_idx r)
         (r_frame_pts r) (r_flags r) (r_active r) (r_done r) (r_completed_frames r)
         (u64 (r_dropped_frames r + 1)) seq true.

(** Is the bit set? *)
Definition has_flag (fl bit : Z) : bool := negb (Z.land fl bit =? 0).

(** The chunk-level flags are not part of the frame's own. *)
Definition frame_flags (fl : Z) : Z :=
  Z.land fl (u8 (Z.lnot (Z.lor AR8030_CHUNK_FLAG_FRAME_END AR8030_CHUNK_FLAG_SLICE_END))).

(** Chunk 0 of a frame not being assembled yet. *)
Definition start_frame (r : reasm) (h : chunk_hdr) : reasm :=
  mk_reasm [] (r_cap r) (frame_seq h)
    (if has_flag (flags h) AR8030_CHUNK_FLAG_FRAME_END then 0 else chunk_count h) 0
    (frame_pts h) (frame_flags (flags h)) true false (r_completed_frames r)
    (r_dropped_frames r) (r_last_bad_seq r) (r_have_last_bad_seq r).

(** The chunk that ends a streamed frame, for the reassembler's state. *)
Definition ends_frame (r : reasm) (h : chunk_hdr) : bool :=
  (r_chunk_count r =? 0) && has_flag (flags h) AR8030_CHUNK_FLAG_FRAME_END
  && (chunk_count h =? chunk_idx h + 1).

(** [ar8030_reassembly_feed] from the [frame_end] computation on. *)
Definition feed_chunk (r : reasm) (h : chunk_hdr) (payload : list Z) : Z * reasm :=
  let frame_end := ends_frame r h in
  let want_count := if frame_end then chunk_count h else r_chunk_count r in
  if negb (chunk_idx h =? r_next_chunk_idx r) || negb (chunk_count h =? want_count) then
    (0, ar8030_reassembly_reset (note_dropped r (frame_seq h)))
  else if r_cap r <? u32 (r_write_off r + zlen payload) then
    (0, ar8030_reassembly_reset (note_dropped r (frame_seq h)))
  else
    let next := u16 (r_next_chunk_idx r + 1) in
    let complete := frame_end || (next =? r_chunk_count r) in
    (bool_int complete,
     mk_reasm (r_buf r ++ payload) (r_cap r) (r_frame_seq r) (r_chunk_count r) next
       (r_frame_pts r) (r_flags r) (r_active r) (complete || r_done r)
       (if complete then u64 (r_completed_frames r + 1) else r_completed_frames r)
       (r_dropped_frames r) (r_last_bad_seq r) (r_have_last_bad_seq r)).

Definition ar8030_reassembly_feed (r : reasm) (h : chunk_hdr) (payload : list Z) : Z * reasm :=
  let is_new_frame := negb (r_active r) || negb (frame_seq h =? r_frame_seq r) in
  if is_new_frame then
    let r := if r_active r && negb (r_done r) && (r_chunk_count r =? 0)
             then note_dropped r (r_frame_seq r) else r in
    if negb (chunk_idx h =? 0) then
      (0, ar8030_reassembly_reset (note_dropped r (frame_seq h)))
    else feed_chunk (start_frame r h) h payload
  else feed_chunk r h payload.

(** A run of chunks, with every result. *)
Fixpoint feed_all (r : reasm) (cs : list chunk) : list Z * reasm :=
  match cs with
  | [] => ([], r)
  | c :: cs =>
      let '(ret, r) := ar8030_reassembly_feed r c.1 c.2 in
      let '(rets, r) := feed_all r cs in (ret :: rets, r)
  end.

(** ** Assembling one frame *)

(** [k] chunks of a frame are in, their payloads in [bytes]. *)
Record in_frame (r : reasm) (seq cnt pts fl k : Z) (bytes : list Z) : Prop := {
  if_active : r_active r = true;
  if_done : r_done r = false;
  if_seq : r_frame_seq r = seq;
  if_cnt : r_chunk_count r = cnt;
  if_next : r_next_chunk_idx r = k;
  if_pts : r_frame_pts r = pts;
  if_flags : r_flags r = fl;
  if_buf : r_buf r = bytes
}.

Section assemble.
Implicit Types (r : reasm) (h : chunk_hdr).

Lemma feed_all_app r cs cs' :
  feed_all r (cs ++ cs') =
  let '(a, r1) := feed_all r cs in let '(b, r2) := feed_all r1 cs' in (a ++ b, r2).
Proof.
  revert r; induction cs as [|c cs IH]; intros r; simpl; [by destruct (feed_all r cs')|].
  destruct (ar8030_reassembly_feed r c.1 c.2) as [ret r1]; rewrite IH.
  destruct (feed_all r1 cs) as [a r2]; by destruct (feed_all r2 cs').
Qed.

Lemma note_dropped_cap r seq : r_cap (note_dropped r seq) = r_cap r.
Proof. unfold note_dropped; by if_cases. Qed.

(** A chunk that extends the frame by one. *)
Lemma feed_chunk_extend r h payload seq cnt pts fl k bytes :
  in_frame r seq cnt pts fl k bytes -> chunk_idx h = k -> 0 <= k < 65535 ->
  chunk_count h = (if (cnt =? 0) && has_flag (flags h) AR8030_CHUNK_FLAG_FRAME_END
                   then k + 1 else cnt) ->
  zlen bytes + zlen payload <= r_cap r < 2 ^ 32 ->
  let fin := ((cnt =? 0) && has_flag (flags h) AR8030_CHUNK_FLAG_FRAME_END) || (k + 1 =? cnt) in
  exists r', feed_chunk r h payload = (bool_int fin, r') /\ r_cap r' = r_cap r
    /\ r_buf r' = bytes ++ payload /\ r_frame_seq r' = seq
    /\ r_frame_pts r' = pts /\ r_flags r' = fl
    /\ r_active r' = true /\ r_next_chunk_idx r' = k + 1
    /\ (fin = false -> in_frame r' seq cnt pts fl (k + 1) (bytes ++ payload)).
Proof.
  intros [Ha Hd <- <- <- <- <- <-] Hi Hk Hcnt Hcap fin.
  pose proof (zlen_nonneg (r_buf r)); pose proof (zlen_nonneg payload).
  unfold feed_chunk, ends_frame; rewrite Hi, Z.eqb_refl, Hcnt.
  unfold r_write_off; cbn [negb orb].
  destruct ((_ =? 0) && has_flag (flags h) AR8030_CHUNK_FLAG_FRAME_END) eqn:E;
    cbn [andb]; rewrite ?Z.eqb_refl; cbn [negb orb];
    rewrite u32_id, (proj2 (Z.ltb_ge _ _)), u16_id by lia; cbn [negb orb] in *.
  - eexists; split_and!; done.
  - eexists; split_and!; try done; subst fin; intros E'; constructor; try done.
    cbn [r_done]; by rewrite E', Hd.
Qed.

(** A chunk of another frame than the one in progress, or with none in
    progress: index 0 starts the new frame. *)
Lemma feed_start r h payload :
  r_active r = false \/ frame_seq h <> r_frame_seq r -> chunk_idx h = 0 ->
  exists r0, ar8030_reassembly_feed r h payload = feed_chunk r0 h payload
    /\ r_cap r0 = r_cap r
    /\ in_frame r0 (frame_seq h)
         (if has_flag (flags h) AR8030_CHUNK_FLAG_FRAME_END then 0 else chunk_count h)
         (frame_pts h) (frame_flags (flags h)) 0 [].
Proof.
  intros Hnew Hi; unfold ar8030_reassembly_feed.
  assert (negb (r_active r) || negb (frame_seq h =? r_frame_seq r) = true) as ->.
  { destruct Hnew as [-> |Hne]; [done|]; apply Z.eqb_neq in Hne; rewrite Hne; apply orb_true_r. }
  rewrite Hi; cbn [Z.eqb negb]; eexists; split; [reflexivity|].
  split; [cbn; destruct (_ && _); [apply note_dropped_cap|done]|done].
Qed.

Lemma feed_same r h payload :
  r_active r = true -> frame_seq h = r_frame_seq r ->
  ar8030_reassembly_feed r h payload = feed_chunk r h payload.
Proof. intros Ha Hs; unfold ar8030_reassembly_feed; by rewrite Ha, Hs, Z.eqb_refl. Qed.
End assemble.

(** The chunks of one frame, in order: [n] of them, sent whole ([cnt = n] on
    each) or streamed ([cnt = 0], the last one carrying FRAME_END and [n]). *)
Record frame_chunks (cs : list chunk) (seq cnt pts fl : Z) : Prop := {
  fc_nonempty : cs <> [];
  fc_len : zlen cs <= 65535;
  fc_cnt : cnt = 0 \/ cnt = zlen cs;
  fc_chunk : forall i c, cs !! i = Some c ->
    frame_seq c.1 = seq /\ chunk_idx c.1 = Z.of_nat i /\ frame_pts c.1 = pts
    /\ frame_flags (flags c.1) = fl
    /\ has_flag (flags c.1) AR8030_CHUNK_FLAG_FRAME_END
       = (cnt =? 0) && (Z.of_nat i + 1 =? zlen cs)
    /\ chunk_count c.1 = (if Z.of_nat i + 1 =? zlen cs then zlen cs else cnt)
}.

Section frames.
Lemma payload_total (pre : list chunk) (c : chunk) (suf : list chunk) :
  zlen (concat (snd <$> pre)) + zlen c.2 <= zlen (concat (snd <$> (pre ++ c :: suf))).
Proof.
  rewrite fmap_app, fmap_cons, concat_app, zlen_app; cbn [concat]; rewrite zlen_app.
  pose proof (zlen_nonneg (concat (snd <$> suf))); lia.
Qed.

Lemma feed_rest cs seq cnt pts fl suf : forall pre r,
  frame_chunks cs seq cnt pts fl -> cs = pre ++ suf -> suf <> [] ->
  in_frame r seq cnt pts fl (zlen pre) (concat (snd <$> pre)) ->
  zlen (concat (snd <$> cs)) <= r_cap r < 2 ^ 32 ->
  exists r', feed_all r suf = (replicate (length suf - 1) 0 ++ [1], r')
    /\ r_buf r' = concat (snd <$> cs) /\ r_frame_seq r' = seq
    /\ r_frame_pts r' = pts /\ r_flags r' = fl.
Proof.
  induction suf as [|c suf IH]; intros pre r Hcs Heq Hne Hin Hcap; [done|].
  destruct (fc_chunk _ _ _ _ _ Hcs (length pre) c) as (Hseq & Hidx & Hpts & Hfl & Hend & Hcc);
    [subst cs; rewrite lookup_app_r by lia; by rewrite Nat.sub_diag|].
  pose proof (fc_len _ _ _ _ _ Hcs) as Hlen; pose proof (fc_cnt _ _ _ _ _ Hcs) as Hcnt.
  assert (Hz : zlen cs = zlen pre + 1 + zlen suf) by (subst; rewrite zlen_app, zlen_cons; lia).
  pose proof (payload_total pre c suf) as Htot; rewrite <- Heq in Htot.
  change (Z.of_nat (length pre)) with (zlen pre) in *.
  pose proof (zlen_nonneg pre); pose proof (zlen_nonneg suf).
  destruct (feed_chunk_extend r c.1 c.2 _ _ _ _ _ _ Hin Hidx) as
    (r1 & Hf & Hcap1 & Hbuf1 & Hs1 & Hp1 & Hf1 & _ & _ & Hnext); [lia| |lia|].
  { rewrite Hcc, Hend; destruct (Z.eqb_spec (zlen pre + 1) (zlen cs)) as [E|E];
      destruct (Z.eqb_spec cnt 0); cbn; lia. }
  assert (Hsnoc : concat (snd <$> pre) ++ c.2 = concat (snd <$> (pre ++ [c])))
    by (rewrite fmap_app, concat_app; simpl; by rewrite app_nil_r).
  cbn [feed_all]; rewrite feed_same by (destruct Hin; congruence); rewrite Hf.
  rewrite Hend in Hnext |- *; destruct suf as [|c' suf].
  - assert ((zlen pre + 1 =? zlen cs) = true) as E1
      by (rewrite Hz; change (zlen (@nil chunk)) with 0; apply Z.eqb_eq; lia).
    exists r1; split_and!; try done.
    + rewrite E1, andb_true_r, andb_diag; cbn.
      destruct Hcnt as [-> | ->]; [done|]; by rewrite E1, orb_true_r.
    + by rewrite Hbuf1, Hsnoc, Heq.
  - rewrite zlen_cons in Hz; pose proof (zlen_nonneg suf).
    assert ((zlen pre + 1 =? zlen cs) = false) as E1 by lia.
    assert ((zlen pre + 1 =? cnt) = false) as E2 by lia.
    rewrite E1, E2, !andb_false_r in *; cbn [orb] in *.
    destruct (IH (pre ++ [c]) r1) as (r' & Hfa & Hrest); try done.
    + by rewrite <- app_assoc.
    + rewrite zlen_app, <- Hsnoc; by apply Hnext.
    + by rewrite Hcap1.
    + exists r'; rewrite Hfa; split; [|done]; cbn; by rewrite Nat.sub_0_r.
Qed.

(** Feeding exactly the chunks of one frame, from any state in which that
    frame is not the one in progress, completes it on its last chunk. *)
Lemma reassembly_completes r cs seq cnt pts fl :
  frame_chunks cs seq cnt pts fl ->
  r_active r = false \/ seq <> r_frame_seq r ->
  zlen (concat (snd <$> cs)) <= r_cap r < 2 ^ 32 ->
  exists r', feed_all r cs = (replicate (length cs - 1) 0 ++ [1], r')
    /\ r_buf r' = concat (snd <$> cs) /\ r_frame_seq r' = seq
    /\ r_frame_pts r' = pts /\ r_flags r' = fl.
Proof.
  intros Hcs Hnew Hcap; pose proof (fc_nonempty _ _ _ _ _ Hcs).
  destruct cs as [|c cs]; [done|].
  destruct (fc_chunk _ _ _ _ _ Hcs 0 c) as (Hseq & Hidx & Hpts & Hfl & Hend & Hcc); [done|].
  destruct (feed_start r c.1 c.2) as (r0 & Hf & Hcap0 & Hin); [by rewrite Hseq|done|].
  assert (Hcnt : (if has_flag (flags c.1) AR8030_CHUNK_FLAG_FRAME_END then 0 else chunk_count c.1) = cnt).
  { rewrite Hend, Hcc; pose proof (fc_cnt _ _ _ _ _ Hcs).
    destruct (Z.eqb_spec cnt 0), (Z.of_nat 0 + 1 =? zlen (c :: cs)) eqn:E; cbn; lia. }
  rewrite Hcnt, Hseq, Hpts, Hfl in Hin.
  destruct (feed_rest _ _ _ _ _ (c :: cs) [] r0 Hcs) as (r' & Hfa & Hrest); try done.
  { by rewrite Hcap0. }
  exists r'; split; [|done]; rewrite <- Hfa; cbn [feed_all].
  rewrite Hf, feed_same by (destruct Hin; congruence); done.
Qed.

Lemma small_flags fl :
  0 <= fl < 64 ->
  frame_flags fl = fl /\ has_flag fl 0x80 = false
  /\ frame_flags (u8 (Z.lor fl 0x80)) = fl /\ has_flag (u8 (Z.lor fl 0x80)) 0x80 = true
  /\ frame_flags (u8 (Z.lor fl 0x40)) = fl /\ has_flag (u8 (Z.lor fl 0x40)) 0x80 = false.
Proof.
  intros Hfl.
  assert (H : forall n : nat, (n < 64)%nat -> (fun fl =>
    frame_flags fl = fl /\ has_flag fl 0x80 = false
    /\ frame_flags (u8 (Z.lor fl 0x80)) = fl /\ has_flag (u8 (Z.lor fl 0x80)) 0x80 = true
    /\ frame_flags (u8 (Z.lor fl 0x40)) = fl /\ has_flag (u8 (Z.lor fl 0x40)) 0x80 = false) (Z.of_nat n)).
  { intros n Hn; do 64 (destruct n as [|n]; [vm_compute; split_and!; done|]); lia. }
  specialize (H (Z.to_nat fl)); rewrite Z2Nat.id in H by lia; apply H; lia.
Qed.
End frames.

(** ** Frames cut by the chunker *)

(** The slices of a frame sent while it is being encoded, one
    [ar8030_chunk_part] call each: chunk numbering carries on from call to
    call and the last call ends the frame (the send loop of tx/main.c). *)
Section stream.
Context (sq fl co pts payload : Z).

Definition part_params (data : list Z) (first : Z) (last : bool) : chunk_params :=
  mk_cp sq fl co pts data payload first 0 last true.

Fixpoint stream_chunks (first : Z) (parts : list (list Z)) : list chunk :=
  match parts with
  | [] => []
  | d :: parts =>
      let count := chunk_count_for (zlen d) payload in
      chunks_of (part_params d first (match parts with [] => true | _ => false end)) count
      ++ stream_chunks (first + count) parts
  end.

(** The calls that send them. *)
Fixpoint send_parts {W} (send : W -> list Z -> Z * W) (first : Z) (parts : list (list Z))
    (scratch_cap : Z) (w : W) : W :=
  match parts with
  | [] => w
  | d :: parts =>
      let '(_, n, w) := ar8030_chunk_part send sq fl co pts d payload first
                          (match parts with [] => true | _ => false end) scratch_cap w in
      send_parts send (first + default 0 n) parts scratch_cap w
  end.

Hypothesis Hpay : 0 < payload <= AR8030_CHUNK_MAX_PAYLOAD.
Hypothesis Hfl : 0 <= fl < 64.

Lemma part_chunk d first last i :
  zlen d + payload - 1 < 2 ^ 32 -> 0 <= first ->
  let n := chunk_count_for (zlen d) payload in
  first + n <= 65535 -> 0 <= i < n ->
  let c := chunk_at (part_params d first last) n i in
  frame_seq c.1 = sq /\ chunk_idx c.1 = first + i /\ frame_pts c.1 = pts
  /\ frame_flags (flags c.1) = fl
  /\ has_flag (flags c.1) AR8030_CHUNK_FLAG_FRAME_END = last && (i + 1 =? n)
  /\ chunk_count c.1 = (if last && (i + 1 =? n) then first + n else 0).
Proof using Hpay Hfl.
  intros HL Hfirst n Hmax Hi c.
  pose proof (small_flags fl Hfl) as (? & ? & ? & ? & ? & ?).
  subst c; unfold chunk_at; cbn [fst frame_seq chunk_idx frame_pts flags chunk_count part_params
    cp_frame_seq cp_first_idx cp_frame_pts cp_frame_end cp_part cp_flags cp_total_count].
  rewrite (u32_id (i + 1)) by lia; unfold AR8030_CHUNK_FLAG_FRAME_END, AR8030_CHUNK_FLAG_SLICE_END.
  assert (Hu : u8 fl = fl) by (apply u8_id; lia).
  destruct last; destruct (Z.eqb_spec (i + 1) n); cbn [andb negb]; rewrite ?Hu;
    unwrap; split_and!; done.
Qed.

Lemma zlen_part d first last :
  zlen d + payload - 1 < 2 ^ 32 ->
  zlen (chunks_of (part_params d first last) (chunk_count_for (zlen d) payload))
    = chunk_count_for (zlen d) payload
  /\ 1 <= chunk_count_for (zlen d) payload.
Proof using Hpay.
  intros Hd; split; [by apply (zlen_chunks_of (part_params d first last))|].
  by apply (chunk_count_bounds (part_params d first last)).
Qed.

Lemma stream_chunks_lookup parts : forall first i c,
  0 <= first -> Forall (fun d => zlen d + payload - 1 < 2 ^ 32) parts ->
  first + zlen (stream_chunks first parts) <= 65535 ->
  stream_chunks first parts !! i = Some c ->
  let total := first + zlen (stream_chunks first parts) in
  let last := first + Z.of_nat i + 1 =? total in
  frame_seq c.1 = sq /\ chunk_idx c.1 = first + Z.of_nat i /\ frame_pts c.1 = pts
  /\ frame_flags (flags c.1) = fl
  /\ has_flag (flags c.1) AR8030_CHUNK_FLAG_FRAME_END = last
  /\ chunk_count c.1 = (if last then total else 0).
Proof using Hpay Hfl.
  induction parts as [|d parts IH]; intros first i c Hfirst Hlen Hmax Hi; [done|].
  apply Forall_cons_1 in Hlen as [Hd Hlen]; cbn [stream_chunks] in *.
  set (n := chunk_count_for (zlen d) payload) in *.
  set (lst := match parts with [] => true | _ => false end) in *.
  destruct (zlen_part d first lst Hd) as [Hz Hn]; fold n in Hz, Hn.
  set (rest := stream_chunks (first + n) parts) in *.
  rewrite zlen_app, Hz in *; pose proof (zlen_nonneg rest).
  apply lookup_app_Some in Hi as [Hi | [Hge Hi]].
  - unfold chunks_of in Hi; rewrite list_lookup_fmap in Hi.
    destruct (seq 0 (Z.to_nat n) !! i) as [j|] eqn:Hj; [|done].
    apply lookup_seq in Hj as [-> Hj]; cbn in Hi; injection Hi as <-.
    pose proof (part_chunk d first lst (Z.of_nat i) Hd Hfirst ltac:(fold n; lia) ltac:(fold n; lia)) as Hc.
    fold n in Hc; cbn zeta.
    assert (lst && (Z.of_nat i + 1 =? n) = (first + Z.of_nat i + 1 =? first + (n + zlen rest))) as <-.
    { subst lst; destruct parts as [|d' parts].
      - subst rest; cbn; change (zlen (@nil chunk)) with 0.
        destruct (Z.eqb_spec (Z.of_nat i + 1) n); cbn; lia.
      - assert (0 < zlen rest); [|symmetry; apply Z.eqb_neq; lia].
        apply Forall_cons_1 in Hlen as [Hd' _]; subst rest; cbn [stream_chunks]; rewrite zlen_app.
        destruct (zlen_part d' (first + n) (match parts with [] => true | _ => false end) Hd') as [-> ?].
        match goal with |- context [zlen (stream_chunks ?a ?b)] =>
          pose proof (zlen_nonneg (stream_chunks a b)) end; lia. }
    destruct Hc as (? & ? & ? & ? & ? & Hcnt); split_and!; try done.
    rewrite Hcnt; destruct (lst && _) eqn:E; [|done].
    subst lst; destruct parts; [|done]; subst rest; cbn; change (zlen (@nil chunk)) with 0; lia.
  - unfold zlen in Hz; destruct (IH (first + n) (i - length (chunks_of (part_params d first lst) n))%nat c)
      as (? & ? & ? & ? & Hl & Hcnt); try done; [lia|fold rest; lia|].
    fold rest in Hl, Hcnt; cbn zeta.
    replace (first + n + Z.of_nat _ + 1) with (first + Z.of_nat i + 1) in Hl, Hcnt by lia.
    replace (first + n + zlen rest) with (first + (n + zlen rest)) in Hl, Hcnt by lia.
    split_and!; try done; lia.
Qed.
End stream.

(** ** Soundness: what a completed frame is *)

(** Chunks 0, 1, 2, ... of one frame. *)
Definition run_of (cs : list chunk) (sq : Z) : Prop :=
  forall i c, cs !! i = Some c -> frame_seq c.1 = sq /\ chunk_idx c.1 = Z.of_nat i.

(** The frame in progress is the run of chunks fed last. *)
Definition assembling (hist : list chunk) (r : reasm) : Prop :=
  exists pre cs, hist = pre ++ cs /\ run_of cs (r_frame_seq r)
    /\ r_buf r = concat (snd <$> cs) /\ r_next_chunk_idx r = zlen cs.

Record reasm_inv (hist : list chunk) (r : reasm) : Prop := {
  ri_run : r_active r = true -> assembling hist r;
  ri_fits : zlen (r_buf r) <= r_cap r
}.

(** [c] is the last chunk of a complete run ending the history. *)
Definition completes (hist : list chunk) (c : chunk) (bytes : list Z) : Prop :=
  exists pre cs, hist ++ [c] = pre ++ cs /\ run_of cs (frame_seq c.1)
    /\ chunk_count c.1 = zlen cs /\ bytes = concat (snd <$> cs).

Section sound.
Lemma run_of_snoc cs c sq :
  run_of cs sq -> frame_seq c.1 = sq -> chunk_idx c.1 = zlen cs -> run_of (cs ++ [c]) sq.
Proof.
  intros Hr Hs Hi i c' Hl; apply lookup_app_Some in Hl as [Hl | [Hge Hl]]; [by apply Hr|].
  apply list_lookup_singleton_Some in Hl as [Hz <-]; split; [done|].
  rewrite Hi; unfold zlen; lia.
Qed.

Lemma reset_inv hist r : 0 <= r_cap r -> reasm_inv hist (ar8030_reassembly_reset r).
Proof. intros; constructor; [done|]; cbn; change (zlen (@nil Z)) with 0; lia. Qed.

Lemma feed_chunk_inv hist r c :
  assembling hist r -> r_active r = true -> zlen (r_buf r) <= r_cap r ->
  frame_seq c.1 = r_frame_seq r -> 0 <= chunk_idx c.1 < 65535 -> zlen c.2 <= 65535 ->
  r_cap r + 65535 < 2 ^ 32 ->
  let '(ret, r') := feed_chunk r c.1 c.2 in
  reasm_inv (hist ++ [c]) r' /\ r_cap r' = r_cap r /\ (ret = 1 -> completes hist c (r_buf r')).
Proof.
  intros (pre & cs & -> & Hrun & Hbuf & Hnext) Ha Hfit Hs Hi Hp Hcap.
  pose proof (zlen_nonneg (r_buf r)); pose proof (zlen_nonneg c.2).
  unfold feed_chunk, r_write_off; destruct (negb _ || negb _) eqn:E.
  { split_and!; [apply reset_inv| |done]; cbn; rewrite note_dropped_cap; lia. }
  apply orb_false_iff in E as [E1 E2]; bool_to_prop.
  rewrite (u32_id (_ + _)), (u16_id (_ + 1)) by lia.
  destruct (r_cap r <? _) eqn:E3; bool_to_prop.
  { split_and!; [apply reset_inv| |done]; cbn; rewrite note_dropped_cap; lia. }
  assert (Hrun' : run_of (cs ++ [c]) (r_frame_seq r)) by (apply run_of_snoc; [done|done|by rewrite E1]).
  assert (Hbuf' : r_buf r ++ c.2 = concat (snd <$> (cs ++ [c])))
    by (rewrite fmap_app, concat_app, <- Hbuf; cbn; by rewrite app_nil_r).
  assert (Hz : zlen (cs ++ [c]) = zlen cs + 1) by (by rewrite zlen_app).
  split_and!; [constructor|done|]; cbn.
  - intros _; exists pre, (cs ++ [c]); split_and!; try done; [by rewrite app_assoc|cbn; lia].
  - rewrite zlen_app; lia.
  - intros Hret; exists pre, (cs ++ [c]); split_and!; [by rewrite app_assoc|by rewrite Hs| |done].
    rewrite E2, Hz; destruct (ends_frame r c.1) eqn:Ef.
    + unfold ends_frame in Ef; bool_to_prop; lia.
    + cbn in Hret; destruct (_ =? r_chunk_count r) eqn:En; [bool_to_prop; lia|done].
Qed.

Lemma feed_inv hist r c :
  reasm_inv hist r -> 0 <= r_cap r -> 0 <= chunk_idx c.1 < 65535 -> zlen c.2 <= 65535 ->
  r_cap r + 65535 < 2 ^ 32 ->
  let '(ret, r') := ar8030_reassembly_feed r c.1 c.2 in
  reasm_inv (hist ++ [c]) r' /\ r_cap r' = r_cap r /\ (ret = 1 -> completes hist c (r_buf r')).
Proof.
  intros [Hrun Hfit] H0 Hi Hp Hcap; unfold ar8030_reassembly_feed.
  destruct (negb (r_active r) || negb (frame_seq c.1 =? r_frame_seq r)) eqn:E.
  - set (r0 := if _ && _ then note_dropped r _ else r).
    assert (Hr0 : r_cap r0 = r_cap r) by (subst r0; destruct (_ && _); auto using note_dropped_cap).
    destruct (chunk_idx c.1 =? 0) eqn:Ei; bool_to_prop; cbn [negb].
    + pose proof (feed_chunk_inv hist (start_frame r0 c.1) c) as H; cbn in H; rewrite Hr0 in H.
      apply H; try done; try lia.
      exists hist, []; cbn; split_and!; try done; by rewrite app_nil_r.
    + split_and!; [apply reset_inv| |done]; cbn; rewrite note_dropped_cap; lia.
  - apply orb_false_iff in E as [Ea Es]; bool_to_prop.
    apply feed_chunk_inv; auto.
Qed.

Lemma feed_all_inv hist cs r :
  reasm_inv hist r -> 0 <= r_cap r -> r_cap r + 65535 < 2 ^ 32 ->
  Forall (fun c : chunk => 0 <= chunk_idx c.1 < 65535 /\ zlen c.2 <= 65535) cs ->
  reasm_inv (hist ++ cs) (feed_all r cs).2 /\ r_cap (feed_all r cs).2 = r_cap r.
Proof.
  revert hist r; induction cs as [|c cs IH]; intros hist r Hinv H0 Hcap Hcs; [by rewrite app_nil_r|].
  apply Forall_cons_1 in Hcs as [[Hi Hp] Hcs]; cbn [feed_all].
  pose proof (feed_inv hist r c Hinv H0 Hi Hp Hcap) as H.
  destruct (ar8030_reassembly_feed r c.1 c.2) as [ret r1]; destruct H as (Hinv1 & Hcap1 & _).
  specialize (IH (hist ++ [c]) r1 Hinv1); rewrite Hcap1, <- app_assoc in IH.
  destruct (feed_all r1 cs); by apply IH.
Qed.
End sound.

(** ** Correctness *)

Section correct.
Lemma whole_frame_chunks p count :
  params_ok p -> 0 <= cp_flags p < 64 -> cp_first_idx p = 0 ->
  cp_total_count p = count -> cp_frame_end p = false -> cp_part p = false ->
  count = chunk_count_for (zlen (cp_data p)) (cp_payload p) -> count <= 65535 ->
  frame_chunks (chunks_of p count) (cp_frame_seq p) count (cp_frame_pts p) (cp_flags p).
Proof.
  intros [? ? ? ? ? Hc HL] Hfl Hfirst Htot Hend Hpart Hcount Hmax.
  pose proof (chunk_count_bounds p count Hc HL Hcount) as (Hn & _).
  pose proof (zlen_chunks_of p count Hc HL Hcount) as Hz.
  pose proof (small_flags _ Hfl) as (Hff & Hfe & _).
  constructor; [intros H; rewrite H in Hz; change (zlen (@nil chunk)) with 0 in Hz; lia|lia|by right|].
  intros i c Hi; unfold chunks_of in Hi; rewrite list_lookup_fmap in Hi.
  destruct (seq 0 _ !! i) as [j|] eqn:Hj; [|done]; cbn in Hi; injection Hi as <-.
  apply lookup_seq in Hj as [-> Hj]; rewrite Hz; unfold chunk_at, AR8030_CHUNK_FLAG_FRAME_END.
  cbn [fst frame_seq chunk_idx frame_pts flags chunk_count Nat.add].
  rewrite Hfirst, Htot, Hend, Hpart; cbn [andb].
  rewrite (u8_id (cp_flags p)), !u16_id, Hff, Hfe by lia.
  rewrite (proj2 (Z.eqb_neq count 0)) by lia; split_and!; try done; by if_cases.
Qed.

Lemma stream_frame_chunks sq fl co pts payload parts :
  0 < payload <= AR8030_CHUNK_MAX_PAYLOAD -> 0 <= fl < 64 -> parts <> [] ->
  Forall (fun d => zlen d + payload - 1 < 2 ^ 32) parts ->
  zlen (stream_chunks sq fl co pts payload 0 parts) <= 65535 ->
  frame_chunks (stream_chunks sq fl co pts payload 0 parts) sq 0 pts fl
  /\ concat (snd <$> stream_chunks sq fl co pts payload 0 parts) = concat parts.
Proof.
  intros Hp Hfl Hne Hlen Hmax; split.
  - constructor; [|done|by left|].
    + destruct parts as [|d parts]; [done|]; intros H; apply (f_equal zlen) in H.
      apply Forall_cons_1 in Hlen as [Hd _]; cbn [stream_chunks] in H; rewrite zlen_app in H.
      pose proof (zlen_part sq fl co pts payload Hp d 0 (match parts with [] => true | _ => false end) Hd) as [Hz ?].
      rewrite Hz in H; match type of H with context [zlen (stream_chunks ?a ?b ?c ?d ?e ?f ?g)] =>
        pose proof (zlen_nonneg (stream_chunks a b c d e f g)) end.
      change (zlen (@nil chunk)) with 0 in H; lia.
    + intros i c Hi; eapply stream_chunks_lookup in Hi; try done.
  - clear Hmax Hne; generalize 0; induction Hlen as [|d parts Hd _ IH]; intros first; [done|].
    cbn [stream_chunks]; rewrite fmap_app, concat_app, IH; cbn [concat]; f_equal.
    by apply (chunks_concat (part_params sq fl co pts payload d first _)).
Qed.

(** Round trip of a frame sent whole: feeding the reassembler the
    chunks the chunker cut, from any state in which that frame is not the
    one in progress, returns 0 on every chunk but the last and 1 on the
    last, with exactly the frame's bytes, number, timestamp and flags. *)
Theorem whole_frame_roundtrip p count r :
  params_ok p -> 0 <= cp_flags p < 64 -> cp_first_idx p = 0 ->
  cp_total_count p = count -> cp_frame_end p = false -> cp_part p = false ->
  count = chunk_count_for (zlen (cp_data p)) (cp_payload p) -> count <= 65535 ->
  r_active r = false \/ cp_frame_seq p <> r_frame_seq r ->
  zlen (cp_data p) <= r_cap r < 2 ^ 32 ->
  exists r', feed_all r (chunks_of p count) = (replicate (Z.to_nat count - 1) 0 ++ [1], r')
    /\ r_buf r' = cp_data p /\ r_frame_seq r' = cp_frame_seq p
    /\ r_frame_pts r' = cp_frame_pts p /\ r_flags r' = cp_flags p.
Proof.
  intros Hp Hfl Hf Ht He Hpt Hcount Hmax Hnew Hcap.
  pose proof (whole_frame_chunks p count Hp Hfl Hf Ht He Hpt Hcount Hmax) as Hfc.
  pose proof (chunks_concat p count (po_payload _ Hp) (po_len _ Hp) Hcount) as Hcat.
  pose proof (zlen_chunks_of p count (po_payload _ Hp) (po_len _ Hp) Hcount) as Hz.
  destruct (reassembly_completes r _ _ _ _ _ Hfc Hnew) as (r' & Hfa & Hb & Hrest); [by rewrite Hcat|].
  exists r'; rewrite Hfa, Hb, Hcat; split; [|done].
  by replace (Z.to_nat count) with (length (chunks_of p count)) by (unfold zlen in Hz; lia).
Qed.

(** Round trip of a frame streamed slice by slice: however its bytes
    are cut into slices (empty ones included), the chunks of the successive
    [ar8030_chunk_part] calls complete the frame on the very last chunk,
    not before, with the slices' concatenation. *)
Theorem streamed_frame_roundtrip sq fl co pts payload parts r :
  0 < payload <= AR8030_CHUNK_MAX_PAYLOAD -> 0 <= fl < 64 -> parts <> [] ->
  Forall (fun d => zlen d + payload - 1 < 2 ^ 32) parts ->
  let cs := stream_chunks sq fl co pts payload 0 parts in
  zlen cs <= 65535 ->
  r_active r = false \/ sq <> r_frame_seq r ->
  zlen (concat parts) <= r_cap r < 2 ^ 32 ->
  exists r', feed_all r cs = (replicate (length cs - 1) 0 ++ [1], r')
    /\ r_buf r' = concat parts /\ r_frame_seq r' = sq /\ r_frame_pts r' = pts /\ r_flags r' = fl.
Proof.
  intros Hp Hfl Hne Hlen cs Hmax Hnew Hcap.
  destruct (stream_frame_chunks sq fl co pts payload parts Hp Hfl Hne Hlen Hmax) as [Hfc Hcat].
  destruct (reassembly_completes r _ _ _ _ _ Hfc Hnew) as (r' & ? & Hb & ?); [by rewrite Hcat|].
  exists r'; by rewrite <- Hcat.
Qed.

(** C24. Soundness: whatever chunks arrive in whatever order, a frame is only
    reported complete when the chunks fed last are chunks 0 to n-1 of one
    single frame with nothing in between, n being the count the last of
    them carries; the frame is their concatenation and fits the buffer. *)
Theorem reassembly_sound cap hist c :
  0 <= cap -> cap + 65535 < 2 ^ 32 ->
  Forall (fun c : chunk => 0 <= chunk_idx c.1 < 65535 /\ zlen c.2 <= 65535) (hist ++ [c]) ->
  let r := (feed_all (ar8030_reassembly_init cap) hist).2 in
  let res := ar8030_reassembly_feed r c.1 c.2 in
  zlen (r_buf res.2) <= cap /\ (res.1 = 1 -> completes hist c (r_buf res.2)).
Proof.
  intros H0 Hcap Hall r res; apply Forall_app in Hall as [Hh [[Hi Hp] _]%Forall_cons_1].
  assert (Hinit : reasm_inv [] (ar8030_reassembly_init cap))
    by (constructor; [done|]; cbn; change (zlen (@nil Z)) with 0; lia).
  destruct (feed_all_inv [] hist _ Hinit H0 Hcap Hh) as [Hinv Hc]; cbn in Hc.
  pose proof (feed_inv hist r c Hinv) as H; subst res; destruct (ar8030_reassembly_feed r c.1 c.2) as [ret r'].
  destruct H as ([_ Hfit] & Hc' & Hcomp); [subst r; rewrite ?Hc; lia..|].
  cbn [fst snd]; split; [subst r; lia|done].
Qed.

Lemma feed_headless r c sq :
  r_active r = false -> frame_seq c.1 = sq -> chunk_idx c.1 <> 0 ->
  ar8030_reassembly_feed r c.1 c.2 = (0, ar8030_reassembly_reset (note_dropped r sq)).
Proof.
  intros Ha Hs Hi; unfold ar8030_reassembly_feed; rewrite Ha, Hs; cbn [negb orb andb].
  by rewrite (proj2 (Z.eqb_neq _ _) Hi).
Qed.

(** A frame whose chunk 0 never arrived is counted as one dropped frame
    however many of its later chunks follow, and not at all when it is the
    frame counted last. *)
Theorem headless_frame_counted_once r cs sq :
  r_active r = false -> cs <> [] ->
  Forall (fun c : chunk => frame_seq c.1 = sq /\ chunk_idx c.1 <> 0) cs ->
  exists r', feed_all r cs = (replicate (length cs) 0, r')
    /\ r_active r' = false /\ r_completed_frames r' = r_completed_frames r
    /\ r_dropped_frames r' =
       (if r_have_last_bad_seq r && (r_last_bad_seq r =? sq) then r_dropped_frames r
        else u64 (r_dropped_frames r + 1)).
Proof.
  intros Ha Hne Hcs; destruct Hcs as [|c cs [Hs Hi] Hcs]; [done|]; clear Hne.
  cbn [feed_all]; rewrite (feed_headless r c sq Ha Hs Hi).
  set (r1 := ar8030_reassembly_reset (note_dropped r sq)).
  assert (H1 : r_active r1 = false /\ r_have_last_bad_seq r1 = true /\ r_last_bad_seq r1 = sq
    /\ r_completed_frames r1 = r_completed_frames r
    /\ r_dropped_frames r1 = if r_have_last_bad_seq r && (r_last_bad_seq r =? sq) then r_dropped_frames r
        else u64 (r_dropped_frames r + 1)).
  { subst r1; unfold note_dropped; destruct (_ && _) eqn:E; bool_to_prop; by split_and!. }
  destruct H1 as (Ha1 & Hh1 & Hl1 & <- & <-); clearbody r1; clear Hs Hi.
  cbn [length replicate].
  cut (exists r', feed_all r1 cs = (replicate (length cs) 0, r') /\ r_active r' = false
    /\ r_completed_frames r' = r_completed_frames r1 /\ r_dropped_frames r' = r_dropped_frames r1).
  { intros (r' & -> & ?); by exists r'. }
  revert r1 Ha1 Hh1 Hl1; induction Hcs as [|c2 cs [Hs Hi] _ IH]; intros r1 Ha1 Hh1 Hl1; [by exists r1|].
  cbn [feed_all]; rewrite (feed_headless r1 c2 sq Ha1 Hs Hi).
  unfold note_dropped; rewrite Hh1, Hl1, Z.eqb_refl; cbn [andb].
  destruct (IH (ar8030_reassembly_reset r1)) as (r' & -> & ?); try done; by exists r'.
Qed.
End correct.

(** A five-byte frame in two-byte chunks, as [ar8030_chunk_frame] numbers it. *)
Definition demo_params : chunk_params := mk_cp 7 1 1 90 [10; 11; 12; 13; 14] 2 0 3 false false.

Lemma demo_params_ok : params_ok demo_params.
Proof.
  constructor; cbn; try (unfold AR8030_CHUNK_MAX_PAYLOAD; lia); [|vm_compute; done].
  repeat constructor; unfold byte_ok; lia.
Qed.

Lemma whole_frame_roundtrip_witness :
  exists r', feed_all (ar8030_reassembly_init 64) (chunks_of demo_params 3) = ([0; 0; 1], r')
    /\ r_buf r' = [10; 11; 12; 13; 14] /\ r_frame_seq r' = 7 /\ r_frame_pts r' = 90 /\ r_flags r' = 1.
Proof.
  apply (whole_frame_roundtrip demo_params 3 (ar8030_reassembly_init 64) demo_params_ok);
    try reflexivity; cbn; [lia|lia|by left|vm_compute; split; [discriminate|reflexivity]].
Defined.

Lemma streamed_frame_roundtrip_witness :
  exists r', feed_all (ar8030_reassembly_init 64)
      (stream_chunks 7 1 1 90 2 0 [[10; 11; 12]; []; [13]]) = ([0; 0; 0; 1], r')
    /\ r_buf r' = [10; 11; 12; 13] /\ r_frame_seq r' = 7 /\ r_frame_pts r' = 90 /\ r_flags r' = 1.
Proof.
  apply (streamed_frame_roundtrip 7 1 1 90 2 [[10; 11; 12]; []; [13]]);
    [unfold AR8030_CHUNK_MAX_PAYLOAD; lia|lia|discriminate|repeat constructor
    |vm_compute; discriminate|by left|vm_compute; split; [discriminate|reflexivity]].
Defined.

Lemma reassembly_sound_witness :
  let r := (feed_all (ar8030_reassembly_init 64) (take 2 (chunks_of demo_params 3))).2 in
  let c := chunk_at demo_params 3 2 in
  completes (take 2 (chunks_of demo_params 3)) c (r_buf (ar8030_reassembly_feed r c.1 c.2).2).
Proof.
  apply (reassembly_sound 64 (take 2 (chunks_of demo_params 3)) (chunk_at demo_params 3 2));
    [lia|lia|repeat constructor; vm_compute; congruence|vm_compute; reflexivity].
Defined.

Lemma headless_frame_counted_once_witness :
  exists r', feed_all (ar8030_reassembly_init 64) (drop 1 (chunks_of demo_params 3)) = ([0; 0], r')
    /\ r_active r' = false /\ r_completed_frames r' = 0 /\ r_dropped_frames r' = 1.
Proof.
  apply (headless_frame_counted_once (ar8030_reassembly_init 64) (drop 1 (chunks_of demo_params 3)) 7);
    [reflexivity|discriminate|].
  repeat constructor; vm_compute; congruence.
Defined.
