(* ===== verification/ChunkStream.v ===== *)
(** [common/chunk_stream.c]: discrete chunks out of a raw byte stream, with
    resynchronisation on the magic. *)

From S2P Require Import Prelude Crc16 ChunkHdr Chunker.
#[local] Open Scope Z_scope.

(** ** The code *)

(** The magic's four bytes as they sit in memory. *)
Definition magic_bytes : list Z := le_enc 4 AR8030_CHUNK_MAGIC.

(** The [while] loop of [scan_for_magic]; [Some i] is its early return. *)
Fixpoint scan_loop (fuel : nat) (buf : list Z) (i : Z) : option Z :=
  match fuel with
  | O => None
  | S fuel =>
      if 4 <=? u32 (zlen buf - i) then
        match memchr buf i (byte_at magic_bytes 0) (u32 (zlen buf - i) - 3) with
        | None => None
        | Some i =>
            if bool_decide (zslice i 4 buf = magic_bytes) then Some i
            else scan_loop fuel buf (u32 (i + 1))
        end
      else None
  end.

(** [scan_for_magic]; [i] grows every turn, so the length bounds the turns. *)
Definition scan_for_magic (buf : list Z) : Z :=
  match scan_loop (S (length buf)) buf 0 with
  | Some i => i
  | None => if 3 <=? zlen buf then zlen buf - 3 else 0
  end.

(** [ar8030_chunk_stream_t]; [s_buf] is [buf[0..len)]. *)
Record stream := mk_stream {
  s_buf : list Z;
  s_cap : Z;
  s_chunks_read : Z;
  s_bytes_consumed : Z;
  s_resync_dropped_bytes : Z;
  s_checksum_fails : Z
}.

Definition ar8030_chunk_stream_init (cap : Z) : stream := mk_stream [] cap 0 0 0 0.

(** What [ar8030_chunk_stream_read] returns: 1 with a chunk, 0 or -1. *)
Inductive read_result :=
  | Read_chunk (h : chunk_hdr) (payload : list Z)
  | Read_none
  | Read_error.

(** The resynchronisation in front of every parse. *)
Definition resync (s : stream) : stream :=
  if 4 <=? zlen (s_buf s) then
    let junk := scan_for_magic (s_buf s) in
    if junk =? 0 then s
    else mk_stream (zdrop junk (s_buf s)) (s_cap s) (s_chunks_read s) (s_bytes_consumed s)
           (u64 (s_resync_dropped_bytes s + junk)) (s_checksum_fails s)
  else s.

(** What one parse attempt finds at the front of the buffer. *)
Inductive parse_step :=
  | Parse_return (res : read_result) (s : stream)
  | Parse_retry (s : stream)
  | Parse_more.

Definition parse_front (s : stream) (payload_buf_cap : Z) : parse_step :=
  if AR8030_CHUNK_HDR_SIZE <=? zlen (s_buf s) then
    let h := hdr_of_bytes (s_buf s) in
    let need := u32 (AR8030_CHUNK_HDR_SIZE + payload_len h) in
    if need <=? zlen (s_buf s) then
      if payload_buf_cap <? payload_len h then Parse_return Read_error s
      else
        let payload := zslice AR8030_CHUNK_HDR_SIZE (payload_len h) (s_buf s) in
        if negb (ar8030_crc16 payload =? checksum h) then
          Parse_retry (mk_stream (zdrop 4 (s_buf s)) (s_cap s) (s_chunks_read s)
            (s_bytes_consumed s) (u64 (s_resync_dropped_bytes s + 4)) (u64 (s_checksum_fails s + 1)))
        else
          Parse_return (Read_chunk h payload)
            (mk_stream (zdrop need (s_buf s)) (s_cap s) (u64 (s_chunks_read s + 1))
               (u64 (s_bytes_consumed s + need)) (s_resync_dropped_bytes s) (s_checksum_fails s))
    else Parse_more
  else Parse_more.

Section reader.
(** The injected [read_fn] and [*stop_flag], over the reader's own state.
    [read_fn r cap] is the bytes appended to the buffer, none for a result
    [<= 0]. *)
Context {R : Type} (read_fn : R -> Z -> list Z * R) (stopped : R -> bool).

(** [fill]: what it returns, and the new state. *)
Definition fill (s : stream) (r : R) : bool * stream * R :=
  if s_cap s <=? zlen (s_buf s) then (false, s, r)
  else
    let '(b, r) := read_fn r (u32 (s_cap s - zlen (s_buf s))) in
    match b with
    | [] => (false, s, r)
    | _ => (true, mk_stream (s_buf s ++ b) (s_cap s) (s_chunks_read s) (s_bytes_consumed s)
                    (s_resync_dropped_bytes s) (s_checksum_fails s), r)
    end.

(** The [for (;;)] of [ar8030_chunk_stream_read], at most [fuel] turns. *)
Fixpoint stream_read_loop (fuel : nat) (s : stream) (r : R) (payload_buf_cap : Z)
    : option (read_result * stream * R) :=
  match fuel with
  | O => None
  | S fuel =>
      if stopped r then Some (Read_none, s, r)
      else
        let s := resync s in
        match parse_front s payload_buf_cap with
        | Parse_return res s => Some (res, s, r)
        | Parse_retry s => stream_read_loop fuel s r payload_buf_cap
        | Parse_more =>
            match fill s r with
            | (true, s, r) => stream_read_loop fuel s r payload_buf_cap
            | (false, s, r) => Some (Read_none, s, r)
            end
        end
  end.
End reader.

(** ** The scan finds the first magic *)

(** Reference: the first offset the four magic bytes stand at. *)
Fixpoint first_magic (l : list Z) : option nat :=
  match l with
  | [] => None
  | _ :: l' => if bool_decide (take 4 l = magic_bytes) then Some O else S <$> first_magic l'
  end.

(** Reference: bytes in front that cannot belong to a header. *)
Definition junk_prefix (l : list Z) : Z :=
  match first_magic l with
  | Some i => Z.of_nat i
  | None => Z.max 0 (zlen l - 3)
  end.

Section scan.

Definition magic_at (l : list Z) (i : nat) : Prop := take 4 (drop i l) = magic_bytes.

Lemma magic_at_head l i : magic_at l i -> l !! i = Some (byte_at magic_bytes 0).
Proof.
  unfold magic_at; intros H; rewrite <- (Nat.add_0_r i), <- lookup_drop.
  destruct (drop i l) as [|b k]; [discriminate H|]; simpl in *; by injection H as ->.
Qed.

Lemma magic_at_len l i : magic_at l i -> (i + 4 <= length l)%nat.
Proof.
  unfold magic_at; intros H; apply (f_equal length) in H.
  rewrite length_take, length_drop in H; change (length magic_bytes) with 4%nat in H; lia.
Qed.

Lemma first_magic_Some l i :
  first_magic l = Some i <-> magic_at l i /\ (forall j, (j < i)%nat -> ~ magic_at l j).
Proof.
  revert i; induction l as [|b l IH]; intros i.
  - split; [done|]; intros [H _]; apply magic_at_len in H; simpl in H; lia.
  - cbn [first_magic]; case_bool_decide as Hb.
    + split; [intros [= <-]; split; [done|lia]|].
      intros [_ H]; destruct i as [|i]; [done|]; exfalso; apply (H O); [lia|done].
    + destruct i as [|i].
      * split; [by destruct (first_magic l)|by intros [H _]].
      * transitivity (first_magic l = Some i); [destruct (first_magic l); cbn; split; congruence|].
        rewrite IH; unfold magic_at; simpl drop; split; intros [H1 H2]; (split; [done|]).
        -- intros [|j] Hj; simpl; [done|apply H2; lia].
        -- intros j Hj; apply (H2 (S j)); lia.
Qed.

Lemma first_magic_None l : first_magic l = None <-> forall j, ~ magic_at l j.
Proof.
  split.
  - intros H j; induction j as [j IH] using lt_wf_ind; intros Hj.
    assert (first_magic l = Some j) by (apply first_magic_Some; auto); congruence.
  - intros H; destruct (first_magic l) as [i|] eqn:E; [|done].
    apply first_magic_Some in E as [E _]; by apply H in E.
Qed.

Lemma zslice_4 i (l : list Z) : zslice (Z.of_nat i) 4 l = take 4 (drop i l).
Proof. unfold zslice, ztake, zdrop; by rewrite Nat2Z.id. Qed.

(** The loop skips only offsets where no magic stands. *)
Lemma scan_loop_spec l fuel i :
  zlen l < 2 ^ 32 -> (i <= length l)%nat -> (length l < fuel + i)%nat ->
  (forall j, (j < i)%nat -> ~ magic_at l j) ->
  scan_loop fuel l (Z.of_nat i) = Z.of_nat <$> first_magic l.
Proof.
  intros Hl; revert i; induction fuel as [|fuel IH]; intros i Hi Hf Hskip; [lia|].
  cbn [scan_loop]; unfold zlen in *; rewrite u32_id by lia.
  destruct (4 <=? _) eqn:E; bool_to_prop; cycle 1.
  { replace (first_magic l) with (@None nat); [done|]; symmetry; apply first_magic_None.
    intros j Hj; pose proof (magic_at_len _ _ Hj); by apply (Hskip j); [lia|]. }
  unfold memchr, zslice at 1; unfold ztake, zdrop at 1; rewrite Nat2Z.id.
  destruct (index_of _ _) as [k|] eqn:Ek; cbn [fmap option_fmap option_map]; cycle 1.
  { replace (first_magic l) with (@None nat); [done|]; symmetry; apply first_magic_None.
    intros j Hj; destruct (Nat.lt_ge_cases j i); [by apply (Hskip j)|].
    pose proof (magic_at_len _ _ Hj); apply magic_at_head in Hj.
    apply (index_of_None _ _ Ek (j - i)%nat).
    rewrite lookup_take, lookup_drop; case_decide; [|lia]; by replace (i + (j - i))%nat with j by lia. }
  apply index_of_Some in Ek as [Hk Hbefore].
  apply lookup_take_Some in Hk as [Hk Hkn]; rewrite lookup_drop in Hk.
  assert (Hskip' : forall j, (j < i + k)%nat -> ~ magic_at l j).
  { intros j Hj Hm; destruct (Nat.lt_ge_cases j i); [by apply (Hskip j)|].
    apply magic_at_head in Hm; apply (Hbefore (j - i)%nat); [lia|].
    rewrite lookup_take, lookup_drop; case_decide; [|lia]; by replace (i + (j - i))%nat with j by lia. }
  replace (Z.of_nat i + Z.of_nat k) with (Z.of_nat (i + k)) by lia; rewrite zslice_4.
  case_bool_decide as Hm.
  - by rewrite (proj2 (first_magic_Some l (i + k))).
  - rewrite u32_id by lia; replace (Z.of_nat (i + k) + 1) with (Z.of_nat (S (i + k))) by lia.
    apply IH; [lia|lia|]; intros j Hj; destruct (decide (j = i + k)%nat) as [-> |]; [done|].
    apply Hskip'; lia.
Qed.

(** The single-pass scan is the obvious one: it returns the first offset
    of a complete magic, and with none everything but the last three bytes,
    for every buffer a 32-bit length can describe. *)
Theorem scan_for_magic_first l :
  zlen l < 2 ^ 32 -> scan_for_magic l = junk_prefix l.
Proof.
  intros Hl; unfold scan_for_magic, junk_prefix.
  change 0 with (Z.of_nat 0) at 1; rewrite scan_loop_spec; try lia.
  destruct (first_magic l); [done|]; cbn; if_cases; pose proof (zlen_nonneg l); lia.
Qed.
End scan.

Lemma scan_for_magic_first_witness :
  scan_for_magic ([1; 0x41; 0x46; 0x41] ++ magic_bytes ++ [9]) = 4.
Proof. rewrite scan_for_magic_first; [reflexivity|vm_compute; reflexivity]. Defined.

(** ** Reading from a byte stream *)

(** What the socket underneath promises: [pending r] are the bytes it has yet
    to deliver; a read hands over the first few of them, in order. *)
Record wire_reader {R} (read_fn : R -> Z -> list Z * R) (pending : R -> list Z) : Prop := {
  wr_split : forall r cap, pending r = (read_fn r cap).1 ++ pending (read_fn r cap).2;
  wr_cap : forall r cap, 0 < cap -> zlen (read_fn r cap).1 <= cap
}.

(** A reader that does not time out while bytes are pending. *)
Definition wire_eager {R} (read_fn : R -> Z -> list Z * R) (pending : R -> list Z) : Prop :=
  forall r cap, 0 < cap -> pending r <> [] -> (read_fn r cap).1 <> [].

(** The bytes a result carries. *)
Definition result_bytes (res : read_result) : list Z :=
  match res with Read_chunk h p => hdr_bytes h ++ p | _ => [] end.

Definition result_ok (res : read_result) : Prop :=
  match res with Read_chunk h p => chunk_ok (h, p) | _ => True end.

(** The buffer and its counters are within their C types. *)
Record stream_ok (s : stream) : Prop := {
  so_buf : zlen (s_buf s) <= s_cap s;
  so_cap : s_cap s < 2 ^ 32;
  so_bytes : bytes_ok (s_buf s);
  so_dropped : 0 <= s_resync_dropped_bytes s < 2 ^ 64
}.

Section resync.
Lemma junk_prefix_bounds l : 0 <= junk_prefix l <= zlen l.
Proof.
  unfold junk_prefix; pose proof (zlen_nonneg l); destruct (first_magic l) as [i|] eqn:E; [|lia].
  apply first_magic_Some in E as [E _]; apply magic_at_len in E; unfold zlen; lia.
Qed.

(** What [resync] does to the buffer. *)
Lemma resync_spec s :
  stream_ok s ->
  let j := if 4 <=? zlen (s_buf s) then junk_prefix (s_buf s) else 0 in
  s_buf (resync s) = zdrop j (s_buf s) /\ stream_ok (resync s) /\
  s_cap (resync s) = s_cap s /\
  s_resync_dropped_bytes (resync s) = u64 (s_resync_dropped_bytes s + j) /\
  s_chunks_read (resync s) = s_chunks_read s /\ s_checksum_fails (resync s) = s_checksum_fails s.
Proof.
  intros [Hb Hc Hk Hd] j; subst j; unfold resync; pose proof (junk_prefix_bounds (s_buf s)).
  destruct (4 <=? _) eqn:E; bool_to_prop; cycle 1.
  { rewrite zdrop_0, Z.add_0_r, u64_id by lia; by split_and!. }
  rewrite scan_for_magic_first by lia; destruct (Z.eqb_spec (junk_prefix (s_buf s)) 0) as [-> |Hj].
  { rewrite zdrop_0, Z.add_0_r, u64_id by lia; by split_and!. }
  cbn [s_buf s_cap s_resync_dropped_bytes s_chunks_read s_checksum_fails].
  split_and!; try done; constructor; cbn [s_buf s_cap s_resync_dropped_bytes]; auto with cint.
  rewrite zlen_drop; lia.
Qed.

(** A buffer that still holds a header starts with the magic. *)
Lemma resync_front s :
  stream_ok s -> 4 <= zlen (s_buf (resync s)) -> magic_at (s_buf (resync s)) 0.
Proof.
  intros Hs; destruct (resync_spec s Hs) as [-> _]; destruct (4 <=? _) eqn:E; bool_to_prop;
    [|rewrite zdrop_0; lia].
  unfold junk_prefix; pose proof (junk_prefix_bounds (s_buf s)) as Hj; unfold junk_prefix in Hj.
  destruct (first_magic (s_buf s)) as [i|] eqn:Ei.
  - apply first_magic_Some in Ei as [Ei _]; intros _; unfold magic_at, zdrop in *.
    by rewrite Nat2Z.id, drop_0.
  - rewrite zlen_drop by lia; lia.
Qed.

Lemma magic_at_hdr l : bytes_ok l -> magic_at l 0 -> magic (hdr_of_bytes l) = AR8030_CHUNK_MAGIC.
Proof. intros _; unfold hdr_of_bytes; cbn [magic]; change (zslice 0 4 l) with (take 4 (drop 0 l)); by intros ->. Qed.
End resync.

Section reading.
Context {R : Type} (read_fn : R -> Z -> list Z * R) (stopped : R -> bool) (pending : R -> list Z).
Hypothesis Hread : wire_reader read_fn pending.

(** Everything between the last returned chunk and the end of the wire. *)
Definition view (s : stream) (r : R) : list Z := s_buf s ++ pending r.

Lemma parse_front_spec s pcap :
  stream_ok s -> 0 <= pcap ->
  match parse_front s pcap with
  | Parse_return res s' =>
      (magic_at (s_buf s) 0 -> result_ok res) /\ s_buf s = result_bytes res ++ s_buf s' /\
      stream_ok s' /\ s_resync_dropped_bytes s' = s_resync_dropped_bytes s
  | Parse_retry s' =>
      s_buf s' = zdrop 4 (s_buf s) /\ 4 <= zlen (s_buf s) /\ stream_ok s' /\
      s_resync_dropped_bytes s' = u64 (s_resync_dropped_bytes s + 4)
  | Parse_more => True
  end.
Proof.
  intros [Hb Hc Hk Hd] Hp; unfold parse_front, AR8030_CHUNK_HDR_SIZE.
  pose proof (hdr_of_bytes_ok _ Hk) as Hh; pose proof (ok_payload_len _ Hh).
  if_cases; try done; cbn [s_buf s_resync_dropped_bytes]; unwrap_in Heqb0;
    try (split_and!; [lia..|constructor|]; cbn; auto with cint; rewrite ?zlen_drop; lia).
  - split_and!; try done; try lia; constructor; cbn [s_buf s_cap s_resync_dropped_bytes]; auto with cint; rewrite ?zlen_drop; lia.
  - unwrap; split_and!; try done.
    + intros Hm; constructor; cbn [fst snd]; auto with cint.
      * by apply magic_at_hdr.
      * rewrite zlen_slice; lia.
    + cbn [result_bytes]; rewrite hdr_bytes_of_bytes by (done || (unfold AR8030_CHUNK_HDR_SIZE; lia)).
      unfold AR8030_CHUNK_HDR_SIZE.
      change (ztake 22 (s_buf s)) with (zslice 0 22 (s_buf s)); rewrite zslice_cat by lia.
      by rewrite <- (ztake_drop (22 + payload_len (hdr_of_bytes (s_buf s))) (s_buf s)) at 1.
    + constructor; cbn [s_buf s_cap s_resync_dropped_bytes]; auto with cint; rewrite ?zlen_drop; lia.
Qed.
Lemma fill_spec s r :
  stream_ok s -> bytes_ok (pending r) ->
  let '(ok, s', r') := fill read_fn s r in
  view s' r' = view s r /\ stream_ok s' /\ bytes_ok (pending r') /\
  s_resync_dropped_bytes s' = s_resync_dropped_bytes s /\ s_cap s' = s_cap s /\
  if ok then
    s_chunks_read s' = s_chunks_read s /\
    (length (s_buf s') + 2 * length (pending r') < length (s_buf s) + 2 * length (pending r))%nat
  else s' = s.
Proof using Hread.
  intros [Hb Hc Hk Hd] Hp; unfold fill, view; pose proof (zlen_nonneg (s_buf s)).
  if_cases; [by split_and!|].
  pose proof (wr_split _ _ Hread r (u32 (s_cap s - zlen (s_buf s)))) as Hs.
  pose proof (wr_cap _ _ Hread r (u32 (s_cap s - zlen (s_buf s)))) as Hl.
  unwrap_in Hl; unwrap_in Hs; unwrap; destruct (read_fn r _) as [b r'] eqn:E; cbn [fst snd] in *.
  rewrite Hs in Hp; apply bytes_ok_app in Hp as [Hpb Hp].
  destruct b as [|x b]; cbn [s_buf s_cap s_resync_dropped_bytes s_chunks_read].
  - rewrite Hs; split_and!; done.
  - rewrite Hs, <- app_assoc; split_and!; try done.
    + constructor; cbn [s_buf s_cap s_resync_dropped_bytes]; try done.
      * rewrite zlen_app; lia.
      * by apply bytes_ok_app.
    + rewrite !length_app; simpl; lia.
Qed.

Lemma u64_add_acc a b c : u64 (u64 (a + b) + c) = u64 (a + (b + c)).
Proof. unfold u64; rewrite Zplus_mod_idemp_l; f_equal; lia. Qed.

(** Every byte of the wire is returned in a chunk, dropped and counted, or
    still in view. *)
Lemma stream_read_loop_sound fuel s r pcap res s' r' :
  stream_ok s -> bytes_ok (pending r) -> 0 <= pcap ->
  stream_read_loop read_fn stopped fuel s r pcap = Some (res, s', r') ->
  exists dropped,
    view s r = dropped ++ result_bytes res ++ view s' r' /\
    s_resync_dropped_bytes s' = u64 (s_resync_dropped_bytes s + zlen dropped) /\
    result_ok res /\ stream_ok s' /\ bytes_ok (pending r').
Proof using Hread.
  intros Hs Hp Hcap; revert s r Hs Hp; induction fuel as [|fuel IH]; intros s r Hs Hp; [done|].
  cbn [stream_read_loop]; destruct (stopped r).
  { intros [= <- <- <-]; exists []; cbn; rewrite Z.add_0_r, u64_id; [done|].
    pose proof (so_dropped _ Hs); lia. }
  destruct (resync_spec s Hs) as (Hb & Hs1 & Hc1 & Hd1 & _).
  set (j := if 4 <=? zlen (s_buf s) then _ else _) in *.
  assert (Hj : 0 <= j <= zlen (s_buf s)).
  { subst j; pose proof (junk_prefix_bounds (s_buf s)); if_cases; lia. }
  assert (Hv : view s r = ztake j (s_buf s) ++ view (resync s) r).
  { unfold view; by rewrite Hb, app_assoc, ztake_drop. }
  pose proof (resync_front s Hs) as Hfront.
  pose proof (parse_front_spec (resync s) pcap Hs1 Hcap) as Hpf; set (s1 := resync s) in *.
  destruct (parse_front s1 pcap) as [res1 s2|s2|] eqn:E.
  - destruct Hpf as (Hok & Hb2 & Hs2 & Hd2); intros [= <- <- <-].
    exists (ztake j (s_buf s)); rewrite Hv, zlen_take, Hd2 by done; unfold view.
    rewrite Hb2 at 1; split_and!; try done; [by rewrite <- !app_assoc|].
    destruct res1 as [h pl| |]; [|done..].
    apply Hok, Hfront; rewrite Hb2; cbn [result_bytes]; rewrite !zlen_app; pose proof (zlen_nonneg pl).
    pose proof (zlen_nonneg (s_buf s2)); rewrite zlen_hdr_bytes; unfold AR8030_CHUNK_HDR_SIZE; lia.
  - destruct Hpf as (Hb2 & Hl2 & Hs2 & Hd2); intros H.
    apply IH in H as (dr & Hvd & Hdd & Hrest); [|done..].
    exists (ztake j (s_buf s) ++ ztake 4 (s_buf s1) ++ dr); split_and!; try apply Hrest.
    + rewrite Hv, <- !app_assoc; f_equal; rewrite <- Hvd; unfold view.
      by rewrite Hb2, app_assoc, ztake_drop.
    + rewrite Hdd, Hd2, Hd1, !u64_add_acc, !zlen_app, !zlen_take by lia; do 2 f_equal; lia.
  - pose proof (fill_spec s1 r Hs1 Hp) as Hf.
    destruct (fill read_fn s1 r) as [[[] s2] r2]; destruct Hf as (Hv2 & Hs2 & Hp2 & Hd2 & _ & Hf).
    + intros H; apply IH in H as (dr & Hvd & Hdd & Hrest); [|done..].
      exists (ztake j (s_buf s) ++ dr); split_and!; try apply Hrest.
      * by rewrite Hv, <- app_assoc, <- Hvd, Hv2.
      * rewrite Hdd, Hd2, Hd1, !u64_add_acc, !zlen_app, !zlen_take by lia; do 2 f_equal; lia.
    + intros [= <- <- <-]; exists (ztake j (s_buf s)); cbn; subst s2.
      rewrite Hv2, Hd1, zlen_take by lia; by split_and!.
Qed.

Lemma stream_read_loop_total fuel s r pcap :
  stream_ok s -> bytes_ok (pending r) -> 0 <= pcap ->
  (length (s_buf s) + 2 * length (pending r) < fuel)%nat ->
  exists x, stream_read_loop read_fn stopped fuel s r pcap = Some x.
Proof using Hread.
  intros Hs Hp Hcap; revert s r Hs Hp; induction fuel as [|fuel IH]; intros s r Hs Hp Hf; [lia|].
  cbn [stream_read_loop]; destruct (stopped r); [by eexists|].
  destruct (resync_spec s Hs) as (Hb & Hs1 & _).
  pose proof (parse_front_spec (resync s) pcap Hs1 Hcap) as Hpf; set (s1 := resync s) in *.
  assert (Hl1 : (length (s_buf s1) <= length (s_buf s))%nat).
  { rewrite Hb; unfold zdrop; rewrite length_drop; lia. }
  destruct (parse_front s1 pcap) as [res1 s2|s2|]; [by eexists|..].
  - destruct Hpf as (Hb2 & Hl2 & Hs2 & _); apply IH; try done.
    rewrite Hb2; unfold zdrop, zlen in *; rewrite length_drop; lia.
  - pose proof (fill_spec s1 r Hs1 Hp) as Hfs.
    destruct (fill read_fn s1 r) as [[[] s2] r2]; [|by eexists].
    destruct Hfs as (_ & Hs2 & Hp2 & _ & _ & _ & Hm); apply IH; try done; lia.
Qed.

(** C10. Whatever bytes the wire delivers (lost, corrupted or foreign ones
    included), a read comes back after finitely many turns; a chunk it
    returns stands contiguously in the stream behind the magic with a
    matching CRC, and the bytes in front of it are exactly those the
    resynchronisation counter counts: none is duplicated or lost silently. *)
Theorem stream_read_sound s r pcap fuel :
  stream_ok s -> bytes_ok (pending r) -> 0 <= pcap ->
  (length (s_buf s) + 2 * length (pending r) < fuel)%nat ->
  exists res s' r' dropped,
    stream_read_loop read_fn stopped fuel s r pcap = Some (res, s', r') /\
    view s r = dropped ++ result_bytes res ++ view s' r' /\
    s_resync_dropped_bytes s' = u64 (s_resync_dropped_bytes s + zlen dropped) /\
    result_ok res.
Proof using Hread.
  intros Hs Hp Hc Hf; destruct (stream_read_loop_total fuel s r pcap) as [[[res s'] r'] E]; [done..|].
  destruct (stream_read_loop_sound _ _ _ _ _ _ _ Hs Hp Hc E) as (dr & ? & ? & ? & _).
  by exists res, s', r', dr.
Qed.
End reading.

(** ** Delivery *)

Section delivery.
Lemma prefix_split {A} (h x b p : list A) :
  b ++ p = h ++ x -> zlen h <= zlen b -> exists b', b = h ++ b' /\ b' ++ p = x.
Proof.
  intros H Hl; apply app_eq_inv in H as [(k & -> & ->)|(k & -> & ->)]; [by exists k|].
  rewrite zlen_app in Hl; assert (zlen k = 0) as Hk by (pose proof (zlen_nonneg k); lia).
  apply zlen_eq_0 in Hk as ->; exists []; by rewrite !app_nil_r.
Qed.

Lemma magic_at_app l k i : magic_at l i -> magic_at (l ++ k) i.
Proof.
  intros H; pose proof (magic_at_len _ _ H) as Hl; unfold magic_at in *.
  rewrite drop_app_le, take_app_le by (rewrite ?length_drop; lia); done.
Qed.

Lemma magic_at_unapp l k i : (i + 4 <= length l)%nat -> magic_at (l ++ k) i -> magic_at l i.
Proof.
  intros Hl; unfold magic_at; by rewrite drop_app_le, take_app_le by (rewrite ?length_drop; lia).
Qed.

Lemma first_magic_app l k i : first_magic l = Some i -> first_magic (l ++ k) = Some i.
Proof.
  rewrite !first_magic_Some; intros [H Hn]; split; [by apply magic_at_app|].
  intros j Hj Hm; apply (Hn j Hj), (magic_at_unapp l k); [|done].
  apply magic_at_len in H; lia.
Qed.

Lemma first_magic_drop l j n :
  first_magic l = Some n -> (j <= n)%nat -> first_magic (drop j l) = Some (n - j)%nat.
Proof.
  rewrite !first_magic_Some; unfold magic_at; intros [H Hn] Hj; rewrite drop_drop.
  split; [by replace (j + (n - j))%nat with n by lia|].
  intros i Hi; rewrite drop_drop; apply Hn; lia.
Qed.

(** Resynchronising on what has arrived never eats into a chunk. *)
Lemma junk_prefix_le b p n : first_magic (b ++ p) = Some n -> junk_prefix b <= Z.of_nat n.
Proof.
  intros H; unfold junk_prefix; destruct (first_magic b) as [i|] eqn:E.
  - apply (first_magic_app _ p) in E; rewrite E in H; by injection H as ->.
  - destruct (Z.le_gt_cases (zlen b - 3) (Z.of_nat n)); [lia|]; exfalso; unfold zlen in *.
    apply first_magic_Some in H as [H _]; apply magic_at_unapp in H; [|lia].
    by apply (proj1 (first_magic_None b) E n).
Qed.

Lemma zlen_chunk_bytes c : chunk_ok c -> zlen (chunk_bytes c) = 22 + payload_len c.1.
Proof. intros H; unfold chunk_bytes; rewrite zlen_app, (chunk_ok_len _ H); done. Qed.

Lemma parse_front_chunk s p c rest pcap :
  chunk_ok c -> 65535 <= pcap -> s_buf s ++ p = chunk_bytes c ++ rest ->
  if 22 + payload_len c.1 <=? zlen (s_buf s) then
    exists s', parse_front s pcap = Parse_return (Read_chunk c.1 c.2) s' /\
      s_buf s' ++ p = rest /\ s_cap s' = s_cap s
  else parse_front s pcap = Parse_more.
Proof.
  intros Hc Hp Hv; pose proof (ok_payload_len _ (chunk_ok_hdr _ Hc)) as Hpl; unfold parse_front.
  unfold AR8030_CHUNK_HDR_SIZE; destruct (22 <=? zlen (s_buf s)) eqn:E; bool_to_prop; cycle 1.
  { rewrite (proj2 (Z.leb_gt _ _)) by lia; done. }
  unfold chunk_bytes in Hv; rewrite <- app_assoc in Hv.
  destruct (prefix_split _ _ _ _ Hv) as (b & Hb & Hbp); [by rewrite zlen_hdr_bytes|].
  assert (Hh : hdr_of_bytes (s_buf s) = c.1).
  { rewrite Hb; apply hdr_of_hdr_bytes, Hc. }
  rewrite Hh, u32_id by lia; destruct (_ <=? zlen (s_buf s)) eqn:E2; bool_to_prop; [|done].
  rewrite (proj2 (Z.ltb_ge _ _)) by lia.
  pose proof (chunk_ok_len _ Hc) as Hlen.
  destruct (prefix_split _ _ _ _ Hbp) as (b' & -> & Hr).
  { rewrite Hb, zlen_app, zlen_hdr_bytes in E2; unfold AR8030_CHUNK_HDR_SIZE in E2; lia. }
  assert (Hsl : zslice 22 (payload_len c.1) (s_buf s) = c.2) by (rewrite Hb; by rewrite zslice_mid).
  rewrite Hsl, (chunk_ok_crc _ Hc), Z.eqb_refl.
  eexists; split; [done|]; cbn [s_buf s_cap]; split; [|done].
  rewrite Hb, app_assoc, zdrop_app; [done|].
  by rewrite zlen_app, zlen_hdr_bytes, Hlen.
Qed.

Context {R : Type} (read_fn : R -> Z -> list Z * R) (stopped : R -> bool) (pending : R -> list Z).
Hypothesis Hread : wire_reader read_fn pending.
Hypothesis Heager : wire_eager read_fn pending.
Hypothesis Hstop : forall r, stopped r = false.

Lemma fill_eager s r :
  stream_ok s -> zlen (s_buf s) < s_cap s -> pending r <> [] -> (fill read_fn s r).1.1 = true.
Proof using Heager.
  intros [? ? ? ?] Hl Hp; unfold fill; rewrite (proj2 (Z.leb_gt _ _)) by lia.
  pose proof (zlen_nonneg (s_buf s)); unwrap.
  pose proof (Heager r (s_cap s - zlen (s_buf s)) ltac:(lia) Hp) as He.
  by destruct (read_fn r _) as [[|x b] r'].
Qed.

(** One call: the junk in front goes, the next chunk comes back. *)
Lemma read_next_chunk fuel s r pcap junk c rest :
  stream_ok s -> bytes_ok (pending r) -> 65535 <= pcap -> 22 + 65535 <= s_cap s -> chunk_ok c ->
  view pending s r = junk ++ chunk_bytes c ++ rest ->
  first_magic (view pending s r) = Some (length junk) ->
  (length (s_buf s) + 2 * length (pending r) < fuel)%nat ->
  exists s' r', stream_read_loop read_fn stopped fuel s r pcap = Some (Read_chunk c.1 c.2, s', r') /\
    view pending s' r' = rest /\ s_cap s' = s_cap s.
Proof using All.
  intros Hs Hp Hpc Hcap Hc; revert s r junk Hs Hp Hcap.
  pose proof (ok_payload_len _ (chunk_ok_hdr _ Hc)); pose proof (zlen_chunk_bytes _ Hc) as Hzc.
  induction fuel as [|fuel IH]; intros s r junk Hs Hp Hcap Hv Hm Hf; [lia|].
  cbn [stream_read_loop]; rewrite Hstop.
  destruct (resync_spec s Hs) as (Hb & Hs1 & Hc1 & _).
  pose proof (resync_front s Hs) as Hfront; set (s1 := resync s) in *.
  set (j := if 4 <=? zlen (s_buf s) then _ else _) in *.
  assert (Hj : 0 <= j <= zlen (s_buf s) /\ j <= zlen junk).
  { subst j; pose proof (junk_prefix_bounds (s_buf s)); unfold view in Hm.
    apply junk_prefix_le in Hm; unfold zlen in *; if_cases; lia. }
  assert (Hv1 : view pending s1 r = zdrop j junk ++ chunk_bytes c ++ rest).
  { unfold view in *; rewrite Hb, <- !zdrop_app_le by lia; by rewrite Hv. }
  assert (Hm1 : first_magic (view pending s1 r) = Some (length (zdrop j junk))).
  { unfold view in *; unfold zdrop in *; rewrite Hb, <- drop_app_le, length_drop by (unfold zlen in *; lia).
    apply first_magic_drop; [done|]; unfold zlen in *; lia. }
  assert (Hl1 : (length (s_buf s1) <= length (s_buf s))%nat).
  { rewrite Hb; unfold zdrop; rewrite length_drop; lia. }
  assert (Hmore : zlen (s_buf s1) < 22 \/ zdrop j junk = [] /\ zlen (s_buf s1) < 22 + payload_len c.1 ->
    parse_front s1 pcap = Parse_more -> exists s' r',
      match parse_front s1 pcap with
      | Parse_return res s => Some (res, s, r)
      | Parse_retry s => stream_read_loop read_fn stopped fuel s r pcap
      | Parse_more => match fill read_fn s1 r with
          | (true, s, r) => stream_read_loop read_fn stopped fuel s r pcap
          | (false, s, r) => Some (Read_none, s, r) end
      end = Some (Read_chunk c.1 c.2, s', r') /\ view pending s' r' = rest /\ s_cap s' = s_cap s).
  { intros Hshort ->; pose proof (fill_spec read_fn pending Hread s1 r Hs1 Hp) as Hfs.
    pose proof (fill_eager s1 r Hs1) as Hfe.
    assert (Hpe : pending r <> []).
    { intros He; unfold view in Hv1; rewrite He, app_nil_r in Hv1.
      apply (f_equal zlen) in Hv1; rewrite !zlen_app in Hv1.
      pose proof (zlen_nonneg rest); pose proof (zlen_nonneg (zdrop j junk)); lia. }
    destruct (fill read_fn s1 r) as [[[] s2] r2]; [|discriminate (Hfe ltac:(lia) Hpe)].
    destruct Hfs as (Hv2 & Hs2 & Hp2 & _ & Hc2 & _ & Hlen2).
    rewrite <- Hc1, <- Hc2; apply (IH s2 r2 (zdrop j junk)); rewrite ?Hv2; try done; try lia. }
  destruct (Z.lt_ge_cases (zlen (s_buf s1)) 22) as [Hsm|Hbig].
  { apply Hmore; [by left|]; unfold parse_front, AR8030_CHUNK_HDR_SIZE.
    by rewrite (proj2 (Z.leb_gt _ _)) by lia. }
  assert (Hz : zdrop j junk = []).
  { assert (H0 : first_magic (view pending s1 r) = Some O).
    { apply first_magic_Some; split; [apply magic_at_app, Hfront; lia|lia]. }
    rewrite H0 in Hm1; injection Hm1; by destruct (zdrop j junk). }
  rewrite Hz in Hv1; pose proof (parse_front_chunk s1 (pending r) c rest pcap Hc Hpc Hv1) as Hpf.
  destruct (22 + payload_len c.1 <=? zlen (s_buf s1)) eqn:E; bool_to_prop.
  - destruct Hpf as (s' & -> & Hr & Hcs); exists s', r; rewrite Hcs; by split_and!.
  - apply Hmore; [by right|done].
Qed.

(** [n] calls in a row. *)
Fixpoint read_n (n fuel : nat) (s : stream) (r : R) (pcap : Z) : option (list read_result * stream * R) :=
  match n with
  | O => Some ([], s, r)
  | S n =>
      '(res, s, r) ← stream_read_loop read_fn stopped fuel s r pcap;
      '(l, s, r) ← read_n n fuel s r pcap;
      Some (res :: l, s, r)
  end.

Lemma read_n_chunks (jcs : list (list Z * chunk)) fuel s r pcap rest :
  stream_ok s -> bytes_ok (pending r) -> 65535 <= pcap -> 22 + 65535 <= s_cap s ->
  Forall (fun jc => chunk_ok jc.2 /\ first_magic (jc.1 ++ chunk_bytes jc.2) = Some (length jc.1)) jcs ->
  view pending s r = concat ((fun jc => jc.1 ++ chunk_bytes jc.2) <$> jcs) ++ rest ->
  (2 * length (view pending s r) < fuel)%nat ->
  exists s' r',
    read_n (length jcs) fuel s r pcap
    = Some ((fun jc => Read_chunk jc.2.1 jc.2.2) <$> jcs, s', r') /\
    view pending s' r' = rest /\
    s_resync_dropped_bytes s' = u64 (s_resync_dropped_bytes s + zlen (concat (fst <$> jcs))).
Proof using All.
  intros Hs Hp Hpc Hcap Hjcs; revert s r Hs Hp Hcap.
  induction Hjcs as [|[junk c] jcs [Hc Hm] Hjcs IH]; intros s r Hs Hp Hcap Hv Hf.
  { exists s, r; split_and!; [done..|]; cbn; rewrite Z.add_0_r, u64_id; [done|].
    pose proof (so_dropped _ Hs); lia. }
  cbn [fmap list_fmap concat fst snd] in *; rewrite <- !app_assoc in Hv.
  destruct (read_next_chunk fuel s r pcap junk c _ Hs Hp Hpc Hcap Hc Hv)
    as (s1 & r1 & E & Hv1 & Hc1).
  { rewrite Hv, app_assoc; by apply first_magic_app. }
  { unfold view in Hf; rewrite length_app in Hf; lia. }
  assert (H0 : 0 <= pcap) by lia.
  destruct (stream_read_loop_sound read_fn stopped pending Hread _ _ _ _ _ _ _ Hs Hp H0 E)
    as (d & Hd & Hdc & _ & Hs1 & Hp1).
  assert (Hdl : zlen d = zlen junk).
  { rewrite Hv, <- Hv1 in Hd; apply (f_equal zlen) in Hd; cbn [result_bytes] in Hd.
    rewrite !zlen_app in Hd; unfold chunk_bytes in Hd; rewrite !zlen_app in Hd; lia. }
  destruct (IH s1 r1 Hs1 Hp1) as (s2 & r2 & E2 & Hv2 & Hd2); [lia|done|..].
  { rewrite Hv1; rewrite Hv, !length_app in Hf; rewrite !length_app; lia. }
  exists s2, r2; cbn [length read_n]; rewrite E; cbn [mbind option_bind]; rewrite E2.
  split_and!; [done..|]; rewrite Hd2, Hdc, u64_add_acc, Hdl, zlen_app; done.
Qed.

(** C9. Framing is lossless and self-synchronising: whatever way the wire
    cuts the bytes into reads, chunks written back to back come out one per
    call, in order, and junk in front of a chunk (here between any two of
    them) costs exactly its own bytes, as long as it holds no magic. *)
Theorem stream_delivers_in_order (jcs : list (list Z * chunk)) fuel s r pcap rest :
  stream_ok s -> bytes_ok (pending r) -> 65535 <= pcap -> 22 + 65535 <= s_cap s ->
  Forall (fun jc => chunk_ok jc.2 /\ first_magic (jc.1 ++ chunk_bytes jc.2) = Some (length jc.1)) jcs ->
  view pending s r = concat ((fun jc => jc.1 ++ chunk_bytes jc.2) <$> jcs) ++ rest ->
  (2 * length (view pending s r) < fuel)%nat ->
  exists s' r',
    read_n (length jcs) fuel s r pcap
    = Some ((fun jc => Read_chunk jc.2.1 jc.2.2) <$> jcs, s', r') /\
    view pending s' r' = rest /\
    s_resync_dropped_bytes s' = u64 (s_resync_dropped_bytes s + zlen (concat (fst <$> jcs))).
Proof using All. apply read_n_chunks. Qed.
End delivery.

(** A socket that delivers at most [m] bytes per read. *)
Definition paced_read (m : Z) (r : list Z) (cap : Z) : list Z * list Z :=
  (ztake (Z.min m cap) r, zdrop (Z.min m cap) r).

Section paced.
Lemma paced_read_wire m : wire_reader (paced_read m) id.
Proof.
  constructor; intros r cap; unfold paced_read; cbn [fst snd id]; [by rewrite ztake_drop|].
  unfold zlen, ztake; rewrite length_take; lia.
Qed.

Lemma paced_read_eager m : 0 < m -> wire_eager (paced_read m) id.
Proof.
  intros Hm [|b r] cap Hc Hr; [done|]; unfold paced_read, ztake; cbn [fst].
  by destruct (Z.to_nat (Z.min m cap)) eqn:E; [lia|].
Qed.

(** One byte short of a chunk, then the rest of it with junk behind. *)
Definition demo_chunk : chunk :=
  ({| magic := AR8030_CHUNK_MAGIC; frame_seq := 7; chunk_idx := 0; chunk_count := 1;
      payload_len := 3; flags := 0; codec := 1; frame_pts := 9;
      checksum := ar8030_crc16 [1; 2; 3]; reserved := 0 |}, [1; 2; 3]).
Definition demo_stream : stream := ar8030_chunk_stream_init 70000.
Definition demo_wire : list Z := [9; 0x41; 8] ++ chunk_bytes demo_chunk ++ chunk_bytes demo_chunk ++ [0x41].

Lemma demo_stream_ok : stream_ok demo_stream.
Proof. constructor; [done|done|constructor|done]. Qed.
Lemma demo_wire_ok : bytes_ok demo_wire.
Proof. apply (bool_decide_unpack _); vm_compute; done. Qed.
Lemma demo_chunk_ok : chunk_ok demo_chunk.
Proof.
  constructor; [constructor; vm_compute; done|done|done|done|].
  apply (bool_decide_unpack _); vm_compute; done.
Qed.
End paced.

Lemma stream_read_sound_witness :
  exists res s' r' dropped,
    stream_read_loop (paced_read 5) (fun _ => false) 200 demo_stream demo_wire 100
      = Some (res, s', r') /\
    view id demo_stream demo_wire = dropped ++ result_bytes res ++ view id s' r' /\
    s_resync_dropped_bytes s' = u64 (s_resync_dropped_bytes demo_stream + zlen dropped) /\
    result_ok res.
Proof.
  apply (stream_read_sound (paced_read 5) (fun _ => false) id (paced_read_wire 5));
    [apply demo_stream_ok|apply demo_wire_ok|lia|vm_compute; lia].
Defined.

Lemma stream_delivers_in_order_witness :
  exists s' r',
    read_n (paced_read 5) (fun _ => false) 2 200 demo_stream demo_wire 65535
      = Some ([Read_chunk demo_chunk.1 demo_chunk.2; Read_chunk demo_chunk.1 demo_chunk.2], s', r') /\
    view id s' r' = [0x41] /\
    s_resync_dropped_bytes s' = 3.
Proof.
  apply (stream_delivers_in_order (paced_read 5) (fun _ => false) id (paced_read_wire 5)
    (paced_read_eager 5 ltac:(lia)) ltac:(done) [([9; 0x41; 8], demo_chunk); ([], demo_chunk)]);
    [apply demo_stream_ok|apply demo_wire_ok|lia|cbn; lia| |reflexivity|vm_compute; lia].
  repeat constructor; cbn [snd]; try apply demo_chunk_ok; vm_compute; reflexivity.
Defined.
