(* ===== verification/ClockSync.v ===== *)
(** [rx/clock_sync.c]: the ground's estimate of the air unit's clock, from
    four-timestamp exchanges carried by SYNC / SYNCR control chunks. *)

From S2P Require Import Prelude.
#[local] Open Scope Z_scope.

Definition CLOCK_SYNC_WINDOW : Z := 16.
Definition CLOCK_SYNC_PERIOD_MS : Z := 500.
Definition CLOCK_SYNC_FAST_PERIOD_MS : Z := 100.
Definition CLOCK_SYNC_MAX_RTT_US : Z := 250000.

(** One entry of [samples]. *)
Record cs_sample := mk_sample { offset_us : Z; rtt_us : Z }.

(** [clock_sync_t]; its mutex makes each function below atomic. *)
Record clock_sync := mk_cs {
  cs_samples : list cs_sample;
  cs_n : Z;
  cs_next : Z;
  cs_seq : Z;
  cs_last_sent_us : Z;
  cs_replies : Z;
  cs_stale : Z;
  cs_stale_until_us : Z
}.

Definition clock_sync_init : clock_sync :=
  mk_cs (replicate (Z.to_nat CLOCK_SYNC_WINDOW) (mk_sample 0 0)) 0 0 0 0 0 0 0.

(** [Some (seq, t1)] when a SYNC is due. *)
Definition clock_sync_due (cs : clock_sync) (now_us : Z) : option (Z * Z) * clock_sync :=
  let period_us := 1000 * (if cs_n cs <? CLOCK_SYNC_WINDOW
                           then CLOCK_SYNC_FAST_PERIOD_MS else CLOCK_SYNC_PERIOD_MS) in
  if (cs_last_sent_us cs =? 0) || (period_us <=? u64 (now_us - cs_last_sent_us cs)) then
    (Some (cs_seq cs, now_us),
     mk_cs (cs_samples cs) (cs_n cs) (cs_next cs) (u32 (cs_seq cs + 1)) now_us
       (cs_replies cs) (cs_stale cs) (cs_stale_until_us cs))
  else (None, cs).

(** The round trip and the offset of one exchange. *)
Definition exchange_rtt (t1 t2 t3 t4 : Z) : Z := u64 (u64 (t4 - t1) - u64 (t3 - t2)).
Definition exchange_offset (t1 t2 t3 t4 : Z) : Z :=
  Z.quot (s64 (s64 (s64 t2 - s64 t1) + s64 (s64 t3 - s64 t4))) 2.

(** The loop over the window: an offset no round trip of it can explain. *)
Definition clock_jumped (window : list cs_sample) (offset rtt : Z) : bool :=
  existsb (fun s =>
    let d0 := s64 (offset - offset_us s) in
    let d := if d0 <? 0 then s64 (- d0) else d0 in
    u64 (u64 (rtt + rtt_us s) + 5000) <? u64 d) window.

Definition clock_sync_on_reply (cs : clock_sync) (t1 t2 t3 t4 : Z) : clock_sync :=
  if (t4 <? t1) || (t3 <? t2) || (u64 (t4 - t1) <? u64 (t3 - t2)) then cs
  else
    let rtt := exchange_rtt t1 t2 t3 t4 in
    let offset := exchange_offset t1 t2 t3 t4 in
    if (CLOCK_SYNC_MAX_RTT_US <? rtt) || (t1 <? cs_stale_until_us cs) then
      let until := if (CLOCK_SYNC_MAX_RTT_US <? rtt) && (cs_stale_until_us cs <? t4)
                   then t4 else cs_stale_until_us cs in
      mk_cs (cs_samples cs) (cs_n cs) (cs_next cs) (cs_seq cs) (cs_last_sent_us cs)
        (cs_replies cs) (u64 (cs_stale cs + 1)) until
    else
      let jumped := clock_jumped (ztake (cs_n cs) (cs_samples cs)) offset rtt in
      let n := if jumped then 0 else cs_n cs in
      let next := if jumped then 0 else cs_next cs in
      mk_cs (<[Z.to_nat next := mk_sample offset rtt]> (cs_samples cs))
        (if n <? CLOCK_SYNC_WINDOW then n + 1 else n)
        ((next + 1) mod CLOCK_SYNC_WINDOW) (cs_seq cs) (cs_last_sent_us cs)
        (u64 (cs_replies cs + 1)) (cs_stale cs) (cs_stale_until_us cs).

Definition sample_at (cs : clock_sync) (i : nat) : cs_sample :=
  nth i (cs_samples cs) (mk_sample 0 0).

(** The scan for the lowest round trip, from entry 1. *)
Definition best_sample (cs : clock_sync) : nat :=
  fold_left (fun best i => if rtt_us (sample_at cs i) <? rtt_us (sample_at cs best) then i else best)
    (seq 1 (Z.to_nat (cs_n cs) - 1)) O.

(** [Some (offset, uncertainty)] for the C result 1. *)
Definition clock_sync_get (cs : clock_sync) : option (Z * Z) :=
  if cs_n cs =? 0 then None
  else
    let best := sample_at cs (best_sample cs) in
    let half := rtt_us best / 2 in
    Some (offset_us best, if 2 ^ 32 - 1 <? half then 2 ^ 32 - 1 else half).

(** ** Exchanges with a real clock

    A probe leaves the ground at [t1], reaches the air unit [up] later, is
    answered after [proc] and is back [down] after that; the air clock reads
    [theta] more than the ground clock. *)

Record exchange := mk_ex { ex_t1 : Z; ex_up : Z; ex_proc : Z; ex_down : Z }.

Definition ex_ok (theta : Z) (e : exchange) : Prop :=
  0 <= ex_t1 e /\ 0 <= ex_up e /\ 0 <= ex_proc e /\ 0 <= ex_down e /\
  ex_t1 e + ex_up e + ex_proc e + ex_down e < 2 ^ 60 /\
  0 <= ex_t1 e + theta /\ Z.abs theta < 2 ^ 60.

Definition ex_rtt (e : exchange) : Z := ex_up e + ex_down e.

Definition feed_exchange (theta : Z) (cs : clock_sync) (e : exchange) : clock_sync :=
  clock_sync_on_reply cs (ex_t1 e) (ex_t1 e + ex_up e + theta)
    (ex_t1 e + ex_up e + ex_proc e + theta)
    (ex_t1 e + ex_up e + ex_proc e + ex_down e).

(** The reply takes part in the estimate: it is not one of a backlog. *)
Definition ex_fresh (cs : clock_sync) (e : exchange) : Prop :=
  ex_rtt e <= CLOCK_SYNC_MAX_RTT_US /\ cs_stale_until_us cs <= ex_t1 e.

(** A sample that tells [theta] to half its round trip. *)
Definition sample_of (theta : Z) (s : cs_sample) : Prop :=
  0 <= rtt_us s <= CLOCK_SYNC_MAX_RTT_US /\ Z.abs (2 * (offset_us s - theta)) <= rtt_us s + 1 /\
  Z.abs theta < 2 ^ 60.

Record window_of (theta : Z) (cs : clock_sync) : Prop := {
  wo_len : zlen (cs_samples cs) = CLOCK_SYNC_WINDOW;
  wo_n : 0 <= cs_n cs <= CLOCK_SYNC_WINDOW;
  wo_next : 0 <= cs_next cs < CLOCK_SYNC_WINDOW;
  wo_fill : cs_n cs < CLOCK_SYNC_WINDOW -> cs_next cs = cs_n cs;
  wo_samples : Forall (sample_of theta) (ztake (cs_n cs) (cs_samples cs))
}.

Section estimate.

Lemma exchange_measures theta e :
  ex_ok theta e ->
  let t1 := ex_t1 e in let t2 := t1 + ex_up e + theta in
  let t3 := t1 + ex_up e + ex_proc e + theta in let t4 := t1 + ex_up e + ex_proc e + ex_down e in
  exchange_rtt t1 t2 t3 t4 = ex_rtt e /\
  Z.abs (2 * (exchange_offset t1 t2 t3 t4 - theta)) <= ex_rtt e + 1.
Proof.
  unfold ex_ok, exchange_rtt, exchange_offset, ex_rtt; eval_pow; intros; cbn zeta.
  unwrap; split; [lia|].
  replace (_ + _ - _ + _) with (2 * theta + (ex_up e - ex_down e)) by lia; dlia.
Qed.

(** The branches of [clock_sync_on_reply], on a real exchange. *)
Lemma feed_exchange_stale theta cs e :
  ex_ok theta e -> ~ ex_fresh cs e -> cs_samples (feed_exchange theta cs e) = cs_samples cs /\
  cs_n (feed_exchange theta cs e) = cs_n cs /\ cs_next (feed_exchange theta cs e) = cs_next cs.
Proof.
  intros He Hf; destruct (exchange_measures theta e He) as [Hr _]; cbn zeta in Hr.
  unfold feed_exchange, clock_sync_on_reply; rewrite Hr; unfold ex_fresh in Hf.
  destruct (_ || _ || _); [done|]; destruct (_ || _) eqn:E; [done|]; bool_to_prop; lia.
Qed.

Lemma feed_exchange_fresh theta cs e :
  ex_ok theta e -> ex_fresh cs e ->
  exists s, rtt_us s = ex_rtt e /\ sample_of theta s /\
    let jumped := clock_jumped (ztake (cs_n cs) (cs_samples cs)) (offset_us s) (rtt_us s) in
    let n := if jumped then 0 else cs_n cs in
    let next := if jumped then 0 else cs_next cs in
    cs_samples (feed_exchange theta cs e) = <[Z.to_nat next := s]> (cs_samples cs) /\
    cs_n (feed_exchange theta cs e) = (if n <? CLOCK_SYNC_WINDOW then n + 1 else n) /\
    cs_next (feed_exchange theta cs e) = (next + 1) mod CLOCK_SYNC_WINDOW.
Proof.
  intros He [Hf Hs]; destruct (exchange_measures theta e He) as [Hr Ho]; cbn zeta in Hr, Ho.
  set (t1 := ex_t1 e) in *; set (t2 := t1 + ex_up e + theta) in *.
  set (t3 := t1 + ex_up e + ex_proc e + theta) in *.
  set (t4 := t1 + ex_up e + ex_proc e + ex_down e) in *.
  exists (mk_sample (exchange_offset t1 t2 t3 t4) (ex_rtt e)); cbn [rtt_us offset_us].
  split; [done|]; split.
  { unfold sample_of; cbn [rtt_us offset_us]; unfold ex_ok, ex_rtt in *; lia. }
  unfold feed_exchange, clock_sync_on_reply; fold t1 t2 t3 t4; rewrite Hr.
  unfold ex_ok in He; revert He; eval_pow; intros He.
  destruct (_ || _ || _) eqn:E.
  { exfalso; apply orb_true_iff in E as [E|E]; [apply orb_true_iff in E as [E|E]|]; bool_to_prop;
      unwrap_in E; subst t1 t2 t3 t4; lia. }
  rewrite (proj2 (Z.ltb_ge CLOCK_SYNC_MAX_RTT_US (ex_rtt e))) by lia.
  by rewrite (proj2 (Z.ltb_ge t1 (cs_stale_until_us cs))) by lia.
Qed.

(** Writing the next entry keeps the window's samples and adds one. *)
Lemma window_insert theta cs s n next :
  zlen (cs_samples cs) = CLOCK_SYNC_WINDOW -> 0 <= n <= CLOCK_SYNC_WINDOW ->
  0 <= next < CLOCK_SYNC_WINDOW -> (n < CLOCK_SYNC_WINDOW -> next = n) ->
  Forall (sample_of theta) (ztake n (cs_samples cs)) -> sample_of theta s ->
  Forall (sample_of theta) (ztake (if n <? CLOCK_SYNC_WINDOW then n + 1 else n)
                              (<[Z.to_nat next := s]> (cs_samples cs))).
Proof.
  unfold CLOCK_SYNC_WINDOW, zlen; intros Hl Hn Hx Hf Hold Hs; unfold ztake in *.
  apply list.Forall_forall; intros x Hin; apply list_elem_of_lookup in Hin as [i Hi].
  apply lookup_take_Some in Hi as [Hi Hb]; destruct (decide (i = Z.to_nat next)) as [-> |Hne].
  - rewrite list_lookup_insert_eq in Hi by lia; by injection Hi as <-.
  - rewrite list_lookup_insert_ne in Hi by done.
    rewrite list.Forall_forall in Hold; apply Hold; apply list_elem_of_lookup; exists i.
    apply lookup_take_Some; split; [done|]; destruct (n <? 16) eqn:E; bool_to_prop; lia.
Qed.

Lemma window_of_init theta : window_of theta clock_sync_init.
Proof. constructor; try done. Qed.

Lemma next_bounds next : 0 <= next < CLOCK_SYNC_WINDOW -> 0 <= (next + 1) mod CLOCK_SYNC_WINDOW < CLOCK_SYNC_WINDOW.
Proof. intros; apply Z.mod_pos_bound; done. Qed.

Lemma feed_exchange_window theta cs e :
  window_of theta cs -> ex_ok theta e -> window_of theta (feed_exchange theta cs e).
Proof.
  intros [Hl Hn Hx Hf Hw] He.
  assert (ex_fresh cs e \/ ~ ex_fresh cs e) as [Hfr|Hst] by (unfold ex_fresh; lia); cycle 1.
  { destruct (feed_exchange_stale theta cs e He Hst) as (E1 & E2 & E3).
    constructor; rewrite ?E1, ?E2, ?E3; done. }
  destruct (feed_exchange_fresh theta cs e He Hfr) as (s & _ & Hs & E1 & E2 & E3).
  constructor; rewrite ?E1, ?E2, ?E3; unfold zlen in *; rewrite ?length_insert; try done.
  - unfold CLOCK_SYNC_WINDOW in *; if_cases; lia.
  - apply next_bounds; destruct (clock_jumped _ _ _); done.
  - unfold CLOCK_SYNC_WINDOW in *; destruct (clock_jumped _ _ _); intros; [done|].
    destruct (cs_n cs <? 16) eqn:E; bool_to_prop; [|lia]; rewrite Z.mod_small by lia; lia.
  - destruct (clock_jumped _ _ _); apply window_insert; try done; constructor.
Qed.

(** The scan finds a sample of the window with the lowest round trip. *)
Lemma best_sample_spec cs :
  0 < cs_n cs ->
  (best_sample cs < Z.to_nat (cs_n cs))%nat /\
  forall j, (j < Z.to_nat (cs_n cs))%nat -> rtt_us (sample_at cs (best_sample cs)) <= rtt_us (sample_at cs j).
Proof.
  unfold best_sample; intros Hn; set (f := fun best i => _); set (m := (Z.to_nat (cs_n cs) - 1)%nat).
  replace (Z.to_nat (cs_n cs)) with (S m) by lia; generalize m; clear m; intros m.
  induction m as [|m [IH1 IH2]]; [split; [simpl; lia|intros [|j] Hj; simpl; lia]|].
  rewrite seq_S, fold_left_app; cbn [fold_left]; set (b := fold_left f (seq 1 m) O) in *.
  unfold f at 1 2; replace (1 + m)%nat with (S m) by lia.
  destruct (_ <? _) eqn:E; bool_to_prop; split; try lia; intros j Hj;
    (destruct (decide (j = S m)) as [-> |]; [lia|]); specialize (IH2 j ltac:(lia)); lia.
Qed.

Lemma window_get theta cs :
  window_of theta cs ->
  match clock_sync_get cs with
  | None => cs_n cs = 0
  | Some (off, unc) => Z.abs (off - theta) <= unc + 1 /\ unc <= CLOCK_SYNC_MAX_RTT_US / 2 /\
      forall s, s ∈ ztake (cs_n cs) (cs_samples cs) -> unc <= rtt_us s / 2
  end.
Proof.
  intros [Hl Hn Hx Hf Hw]; unfold clock_sync_get; destruct (Z.eqb_spec (cs_n cs) 0) as [H0|H0]; [done|].
  destruct (best_sample_spec cs) as [Hb Hmin]; [lia|]; unfold ztake in *.
  assert (Hat : forall j, (j < Z.to_nat (cs_n cs))%nat ->
    take (Z.to_nat (cs_n cs)) (cs_samples cs) !! j = Some (sample_at cs j)).
  { intros j Hj; rewrite lookup_take_lt by done; unfold sample_at, zlen, CLOCK_SYNC_WINDOW in *.
    rewrite nth_lookup; destruct (cs_samples cs !! j) eqn:E; [done|].
    apply lookup_ge_None in E; lia. }
  rewrite list.Forall_forall in Hw.
  destruct (Hw (sample_at cs (best_sample cs))) as (Hr & Ho & _).
  { apply list_elem_of_lookup; eexists; by apply Hat. }
  unfold CLOCK_SYNC_MAX_RTT_US in *; eval_pow.
  rewrite (proj2 (Z.ltb_ge _ _)) by dlia; split_and!; [dlia|dlia|].
  intros s Hs; apply list_elem_of_lookup in Hs as [j Hj].
  pose proof (lookup_lt_Some _ _ _ Hj) as Hlt; rewrite length_take in Hlt.
  rewrite Hat in Hj by lia; injection Hj as <-; specialize (Hmin j ltac:(lia)).
  apply Z.div_le_mono; lia.
Qed.

(** One exchange, one microsecond down and none up, with a clock one ahead. *)
Definition odd_es : list exchange := [mk_ex 1000 0 0 1].

(** C33. How far off the estimate is: after any sequence of exchanges with
    an air clock [theta] ahead, late backlog replies included, what
    [clock_sync_get] returns is at most one microsecond further from [theta]
    than the uncertainty it reports, the uncertainty never exceeds half the
    accepted round trip, and the estimate is the window's best.  That
    microsecond is lost to the two integer halvings, and no bound without it
    holds: there are exchanges after which the estimate is off by exactly one
    more than its uncertainty. *)
Theorem clock_sync_bounds theta es :
  Forall (ex_ok theta) es ->
  let cs := fold_left (feed_exchange theta) es clock_sync_init in
  match clock_sync_get cs with
  | None => cs_n cs = 0
  | Some (off, unc) => Z.abs (off - theta) <= unc + 1 /\ unc <= CLOCK_SYNC_MAX_RTT_US / 2 /\
      forall s, s ∈ ztake (cs_n cs) (cs_samples cs) -> unc <= rtt_us s / 2
  end /\
  (exists theta' es' off unc, Forall (ex_ok theta') es' /\
     clock_sync_get (fold_left (feed_exchange theta') es' clock_sync_init) = Some (off, unc) /\ Z.abs (off - theta') = unc + 1).
Proof.
  intros Hes cs; split; [|exists 1, odd_es, 0, 0; split; [apply Forall_singleton; by vm_compute|split; vm_compute; reflexivity]].
  apply window_get; subst cs; revert Hes; generalize (window_of_init theta).
  generalize clock_sync_init; induction es as [|e es IH]; intros cs Hw; [done|].
  intros [He Hes]%Forall_cons_1; cbn [fold_left]; apply IH; [by apply feed_exchange_window|done].
Qed.

Lemma feed_exchange_pos theta cs e :
  window_of theta cs -> ex_ok theta e -> 0 < cs_n cs -> 0 < cs_n (feed_exchange theta cs e).
Proof.
  intros Hw He Hn.
  assert (ex_fresh cs e \/ ~ ex_fresh cs e) as [Hfr|Hst] by (unfold ex_fresh; lia); cycle 1.
  { destruct (feed_exchange_stale theta cs e He Hst) as (_ & -> & _); done. }
  destruct (feed_exchange_fresh theta cs e He Hfr) as (s & _ & _ & _ & -> & _).
  unfold CLOCK_SYNC_WINDOW; if_cases; lia.
Qed.

(** Samples of two clocks further apart than any accepted round trip. *)
Lemma clock_jumped_far theta theta' window s :
  3 * CLOCK_SYNC_MAX_RTT_US + 5001 < Z.abs (theta' - theta) ->
  window <> [] -> Forall (sample_of theta) window -> sample_of theta' s ->
  clock_jumped window (offset_us s) (rtt_us s) = true.
Proof.
  unfold CLOCK_SYNC_MAX_RTT_US, sample_of; intros Hfar Hne Hw (Hs1 & Hs2 & Hs3).
  destruct window as [|x window]; [done|]; apply Forall_cons_1 in Hw as [(Hx1 & Hx2 & Hx3) _].
  unfold clock_jumped; cbn [existsb]; apply orb_true_iff; left; unfold CLOCK_SYNC_MAX_RTT_US in *.
  revert Hs3 Hx3; eval_pow; intros Hs3 Hx3; rewrite (s64_id (_ - _)) by lia.
  destruct (_ <? 0) eqn:E; bool_to_prop; unwrap; apply Z.ltb_lt; lia.
Qed.

(** An air unit that reboots is followed at once: when its clock jumps by
    more than any two accepted round trips can explain, the first fresh reply
    after the jump throws the whole old window away, and every later estimate
    is about the new clock. *)
Theorem clock_sync_follows_reboot theta theta' cs e es :
  window_of theta cs -> 0 < cs_n cs ->
  3 * CLOCK_SYNC_MAX_RTT_US + 5001 < Z.abs (theta' - theta) ->
  Forall (ex_ok theta') (e :: es) -> ex_fresh cs e ->
  exists off unc,
    clock_sync_get (fold_left (feed_exchange theta') (e :: es) cs) = Some (off, unc) /\
    Z.abs (off - theta') <= unc + 1.
Proof.
  intros [Hl Hn Hx Hf Hw] Hpos Hfar [He Hes]%Forall_cons_1 Hfr; cbn [fold_left].
  assert (H1 : window_of theta' (feed_exchange theta' cs e) /\ 0 < cs_n (feed_exchange theta' cs e)).
  { destruct (feed_exchange_fresh theta' cs e He Hfr) as (s & _ & Hs & E1 & E2 & E3).
    assert (Hne : ztake (cs_n cs) (cs_samples cs) <> []).
    { intros H0; apply (f_equal zlen) in H0; rewrite zlen_take in H0 by lia.
      change (zlen (@nil cs_sample)) with 0 in H0; lia. }
    rewrite (clock_jumped_far theta theta' _ s Hfar Hne Hw Hs) in E1, E2, E3.
    split; [|rewrite E2; done]; constructor; rewrite ?E1, ?E2, ?E3; try done.
    - unfold zlen in *; by rewrite length_insert.
    - apply (window_insert theta' cs s 0 0); try done; constructor. }
  revert H1; generalize (feed_exchange theta' cs e); clear - Hes; revert Hes.
  induction es as [|e es IH]; intros Hes cs [Hw Hp].
  - pose proof (window_get _ _ Hw) as Hg; cbn [fold_left].
    destruct (clock_sync_get cs) as [[off unc]|]; [|lia].
    exists off, unc; split; [done|apply Hg].
  - apply Forall_cons_1 in Hes as [He Hes]; cbn [fold_left]; apply IH; [done|].
    split; [by apply feed_exchange_window|by eapply feed_exchange_pos].
Qed.

(** A clock 5 s ahead, then one that restarted from zero. *)
Definition demo_es : list exchange :=
  [mk_ex 1000000 300000 50 9000; mk_ex 2000000 12000 40 9000; mk_ex 2100000 8000 40 9001].
Definition demo_cs : clock_sync := fold_left (feed_exchange 5000000) demo_es clock_sync_init.

Lemma demo_es_ok : Forall (ex_ok 5000000) demo_es.
Proof. repeat constructor; done. Qed.
Lemma demo_cs_window : window_of 5000000 demo_cs.
Proof.
  unfold demo_cs; generalize (window_of_init 5000000); generalize clock_sync_init demo_es_ok.
  generalize demo_es; intros es; induction es as [|e es IH]; intros cs Hes Hw; [done|].
  apply Forall_cons_1 in Hes as [He Hes]; by apply IH; [|apply feed_exchange_window].
Qed.
End estimate.

Lemma clock_sync_bounds_witness :
  clock_sync_get demo_cs = Some (4999499, 8500) /\ Z.abs (4999499 - 5000000) <= 8500 + 1.
Proof.
  assert (E : clock_sync_get demo_cs = Some (4999499, 8500)) by (vm_compute; reflexivity).
  pose proof (clock_sync_bounds 5000000 demo_es demo_es_ok) as H; cbn zeta in H; destruct H as [H _].
  fold demo_cs in H; rewrite E in H; split; [exact E|apply H].
Defined.

Lemma clock_sync_follows_reboot_witness :
  exists off unc,
    clock_sync_get (fold_left (feed_exchange (-2000000)) [mk_ex 3000000 9000 30 8000] demo_cs)
      = Some (off, unc) /\ Z.abs (off - -2000000) <= unc + 1.
Proof.
  apply (clock_sync_follows_reboot 5000000 (-2000000) demo_cs (mk_ex 3000000 9000 30 8000) []).
  - apply demo_cs_window.
  - vm_compute; reflexivity.
  - vm_compute; reflexivity.
  - repeat constructor; vm_compute; done.
  - split; vm_compute; done.
Defined.
