(* ===== verification/Outq.v ===== *)
(** [tx/outq.{h,c}]: the queue of small chunks (clock-sync replies, sidecar
    datagrams) other threads hand to the air unit's send loop. *)

From S2P Require Import Prelude.
#[local] Open Scope Z_scope.

Definition TX_OUTQ_DEPTH : Z := 16.

(** [tx_outq_item_t]; [oi_data] is [data[0..len)]. *)
Record outq_item := mk_item {
  oi_codec : Z;
  oi_is_syncr : bool;
  oi_sync_seq : Z;
  oi_t1_us : Z;
  oi_t2_us : Z;
  oi_data : list Z
}.

Definition item_zero : outq_item := mk_item 0 false 0 0 0 [].

(** [tx_outq_t]; its mutex makes push and pop atomic. *)
Record outq := mk_outq {
  oq_items : list outq_item;
  oq_head : Z;
  oq_count : Z;
  oq_dropped : Z
}.

Definition tx_outq_init : outq := mk_outq (replicate (Z.to_nat TX_OUTQ_DEPTH) item_zero) 0 0 0.

Definition tx_outq_push (q : outq) (item : outq_item) : outq :=
  let q := if oq_count q =? TX_OUTQ_DEPTH
           then mk_outq (oq_items q) (u32 (oq_head q + 1) mod TX_OUTQ_DEPTH) (oq_count q - 1)
                  (u64 (oq_dropped q + 1))
           else q in
  mk_outq (<[Z.to_nat (u32 (oq_head q + oq_count q) mod TX_OUTQ_DEPTH) := item]> (oq_items q))
    (oq_head q) (oq_count q + 1) (oq_dropped q).

(** [None] for the C result 0. *)
Definition tx_outq_pop (q : outq) : option outq_item * outq :=
  if negb (oq_count q =? 0) then
    (Some (nth (Z.to_nat (oq_head q)) (oq_items q) item_zero),
     mk_outq (oq_items q) (u32 (oq_head q + 1) mod TX_OUTQ_DEPTH) (oq_count q - 1) (oq_dropped q))
  else (None, q).

(** ** What it promises: a FIFO that gives up its oldest entries *)

Inductive outq_op := Push (x : outq_item) | Pop.

(** The abstract queue: its entries, oldest first, and how many were given up. *)
Definition fifo := (list outq_item * Z)%type.

Definition fifo_step (f : fifo) (o : outq_op) : option outq_item * fifo :=
  match o with
  | Push x =>
      if zlen f.1 =? TX_OUTQ_DEPTH then (None, (tail f.1 ++ [x], f.2 + 1))
      else (None, (f.1 ++ [x], f.2))
  | Pop => (head f.1, (tail f.1, f.2))
  end.

Definition outq_step (q : outq) (o : outq_op) : option outq_item * outq :=
  match o with
  | Push x => (None, tx_outq_push q x)
  | Pop => tx_outq_pop q
  end.

(** The outputs of a run of operations, in whatever order the threads got the
    mutex. *)
Fixpoint run_ops {S} (step : S -> outq_op -> option outq_item * S) (s : S) (os : list outq_op)
    : list (option outq_item) * S :=
  match os with
  | [] => ([], s)
  | o :: os => let '(out, s) := step s o in let '(outs, s) := run_ops step s os in (out :: outs, s)
  end.

Section refinement.

(** Entry [i] of the ring, counted from the head. *)
Definition ring_at (items : list outq_item) (hd : Z) (i : nat) : outq_item :=
  nth (Z.to_nat ((hd + Z.of_nat i) mod TX_OUTQ_DEPTH)) items item_zero.

Definition ring_list (items : list outq_item) (hd : Z) (n : nat) : list outq_item :=
  ring_at items hd <$> seq 0 n.

Record outq_rel (q : outq) (f : fifo) : Prop := {
  or_len : zlen (oq_items q) = TX_OUTQ_DEPTH;
  or_head : 0 <= oq_head q < TX_OUTQ_DEPTH;
  or_count : 0 <= oq_count q <= TX_OUTQ_DEPTH;
  or_list : f.1 = ring_list (oq_items q) (oq_head q) (Z.to_nat (oq_count q));
  or_dropped : oq_dropped q = u64 f.2
}.

Lemma ring_list_tail items hd n :
  ring_list items hd (S n) = ring_at items hd 0 :: ring_list items ((hd + 1) mod TX_OUTQ_DEPTH) n.
Proof.
  unfold ring_list; cbn [seq fmap list_fmap]; f_equal; rewrite <- fmap_S_seq, <- list_fmap_compose.
  apply list_fmap_ext; intros i x _; unfold ring_at, compose; f_equal; f_equal.
  rewrite Zplus_mod_idemp_l; f_equal; lia.
Qed.

(** Writing behind the last entry appends. *)
Lemma ring_list_snoc items hd n x :
  zlen items = TX_OUTQ_DEPTH -> 0 <= hd -> Z.of_nat n < TX_OUTQ_DEPTH ->
  ring_list (<[Z.to_nat ((hd + Z.of_nat n) mod TX_OUTQ_DEPTH) := x]> items) hd (S n)
  = ring_list items hd n ++ [x].
Proof.
  unfold zlen, TX_OUTQ_DEPTH; intros Hl Hh Hn; unfold ring_list; rewrite seq_S, fmap_app; f_equal.
  - apply list_fmap_ext; intros i y [Hy Hi]%lookup_seq; unfold ring_at, TX_OUTQ_DEPTH; simpl in Hy; subst y.
    rewrite !nth_lookup, list_lookup_insert_ne; [done|dlia].
  - cbn [fmap list_fmap Nat.add]; f_equal; unfold ring_at, TX_OUTQ_DEPTH.
    rewrite nth_lookup, list_lookup_insert_eq; [done|dlia].
Qed.

Lemma outq_rel_init : outq_rel tx_outq_init ([], 0).
Proof. constructor; done. Qed.

Lemma mod_depth z : 0 <= z mod TX_OUTQ_DEPTH < TX_OUTQ_DEPTH.
Proof. apply Z.mod_pos_bound; done. Qed.

Lemma push_room q f x :
  outq_rel q f -> oq_count q < TX_OUTQ_DEPTH ->
  outq_rel (mk_outq (<[Z.to_nat (u32 (oq_head q + oq_count q) mod TX_OUTQ_DEPTH) := x]> (oq_items q))
              (oq_head q) (oq_count q + 1) (oq_dropped q)) (f.1 ++ [x], f.2).
Proof.
  intros [Hl Hh Hc Hf Hd] Hr; unfold TX_OUTQ_DEPTH in Hh, Hc, Hr; unwrap.
  constructor; cbn [oq_items oq_head oq_count oq_dropped fst snd]; unfold zlen in *;
    rewrite ?length_insert; unfold TX_OUTQ_DEPTH in *; try done; [lia|].
  rewrite Hf; replace (Z.to_nat (oq_count q + 1)) with (S (Z.to_nat (oq_count q))) by lia.
  replace (oq_head q + oq_count q) with (oq_head q + Z.of_nat (Z.to_nat (oq_count q))) by lia.
  symmetry; apply ring_list_snoc; unfold zlen, TX_OUTQ_DEPTH; lia.
Qed.

Lemma drop_head q f :
  outq_rel q f -> 0 < oq_count q ->
  head f.1 = Some (ring_at (oq_items q) (oq_head q) 0) /\
  forall d d', d' = u64 d ->
  outq_rel (mk_outq (oq_items q) (u32 (oq_head q + 1) mod TX_OUTQ_DEPTH) (oq_count q - 1) d')
    (tail f.1, d).
Proof.
  intros [Hl Hh Hc Hf Hd] Hr; unfold TX_OUTQ_DEPTH in Hh, Hc.
  replace (Z.to_nat (oq_count q)) with (S (Z.to_nat (oq_count q - 1))) in Hf by lia.
  rewrite ring_list_tail in Hf; split; [by rewrite Hf|]; intros d d' ->; unwrap.
  constructor; cbn [oq_items oq_head oq_count oq_dropped fst snd]; try done.
  - apply mod_depth.
  - unfold TX_OUTQ_DEPTH; lia.
  - by rewrite Hf.
Qed.

Lemma outq_step_sim q f o :
  outq_rel q f ->
  (outq_step q o).1 = (fifo_step f o).1 /\ outq_rel (outq_step q o).2 (fifo_step f o).2.
Proof.
  intros Hrel; pose proof Hrel as [Hl Hh Hc Hf Hd].
  assert (Hlen : zlen f.1 = oq_count q).
  { rewrite Hf; unfold zlen, ring_list; rewrite length_fmap, length_seq; lia. }
  destruct o as [x|]; cbn [outq_step fifo_step].
  - unfold tx_outq_push; rewrite Hlen; destruct (oq_count q =? TX_OUTQ_DEPTH) eqn:E; bool_to_prop.
    + split; [done|]; destruct (drop_head q f Hrel) as [_ Hdr]; [rewrite E; done|].
      specialize (Hdr (f.2 + 1) (u64 (oq_dropped q + 1))).
      apply (push_room _ (_, _)); [|cbn [oq_count]; lia]; apply Hdr.
      rewrite Hd; unfold u64; by rewrite Zplus_mod_idemp_l.
    + split; [done|]; apply push_room; [done|lia].
  - unfold tx_outq_pop; destruct (oq_count q =? 0) eqn:E; bool_to_prop; cbn [negb fst snd].
    + destruct f as [[|y l] n]; cbn [head tail fst snd] in *; [done|].
      rewrite zlen_cons in Hlen; pose proof (zlen_nonneg l); lia.
    + destruct (drop_head q f Hrel) as [Hhd Hdr]; [lia|]; rewrite Hhd; split; [|by apply Hdr].
      unfold ring_at; rewrite Z.add_0_r, Z.mod_small by (unfold TX_OUTQ_DEPTH in *; lia); done.
Qed.

(** The ring is a first-in first-out queue of sixteen entries: in every
    interleaving of pushes and pops it hands out what the abstract queue hands
    out, gives up exactly the oldest entry when a push finds it full, and
    counts those. *)
Theorem outq_refines_fifo os :
  (run_ops outq_step tx_outq_init os).1 = (run_ops fifo_step ([], 0) os).1 /\
  oq_dropped (run_ops outq_step tx_outq_init os).2 = u64 (run_ops fifo_step ([], 0) os).2.2 /\
  oq_count (run_ops outq_step tx_outq_init os).2 = zlen (run_ops fifo_step ([], 0) os).2.1.
Proof.
  generalize outq_rel_init; generalize tx_outq_init ([] : list outq_item, 0).
  induction os as [|o os IH]; intros q f Hrel; cbn [run_ops].
  - destruct Hrel as [? ? Hc Hf ?]; split_and!; [done..|]; cbn [snd fst]; rewrite Hf.
    unfold zlen, ring_list; rewrite length_fmap, length_seq; lia.
  - destruct (outq_step_sim q f o Hrel) as [Ho Hr].
    destruct (outq_step q o) as [out q'], (fifo_step f o) as [out' f']; cbn [fst snd] in *; subst out'.
    destruct (IH _ _ Hr) as (H1 & H2 & H3).
    destruct (run_ops outq_step q' os), (run_ops fifo_step f' os); cbn [fst snd] in *; by subst.
Qed.
End refinement.
