(* ===== verification/FrameRing.v ===== *)
(** [third_party/waybeam_frame_ring/venc_frame_ring.{h,c}]: the shared-memory
    ring encoded frames arrive through.  One producer process, one consumer
    process, no locks. *)

From stdpp Require Import relations.
From S2P Require Import Prelude.
#[local] Open Scope Z_scope.

Definition VENC_FRAME_RING_MAGIC : Z := 0x5646524D.
Definition VENC_FRAME_RING_VERSION : Z := 2.
Definition VENC_FRAME_RING_HEALTH_MAGIC : Z := 0x56484C54.
Definition VENC_FRAME_META_SIZE : Z := 8.
Definition VENC_FRAME_RING_HDR_SIZE : Z := 192.

(** ** Geometry *)

Definition calc_slot_stride (slot_data_size : Z) : Z :=
  let raw := u32 (4 + slot_data_size) in
  Z.land (u32 (raw + 7)) (u32 (Z.lnot 7)).

Definition calc_total_size (slot_count slot_data_size : Z) : Z :=
  let stride := calc_slot_stride slot_data_size in
  u64 (VENC_FRAME_RING_HDR_SIZE + u64 (slot_count * stride)).

Definition is_power_of_2 (v : Z) : bool := (0 <? v) && (Z.land v (u32 (v - 1)) =? 0).

(** ** The mapping and the handles *)

(** The cache lines of [venc_frame_ring_hdr_t]. *)
Record ring_line0 := mk_line0 {
  rl_magic : Z;
  rl_version : Z;
  rl_slot_count : Z;
  rl_slot_data_size : Z;
  rl_total_size : Z;
  rl_epoch : Z;
  rl_init_complete : Z
}.

Record ring_line1 := mk_line1 {
  rl_write_idx : Z;
  rl_futex_seq : Z;
  rl_health_magic : Z;
  rl_full_drops : Z;
  rl_low_water_slots : Z;
  rl_other_drops : Z
}.

Record ring_line2 := mk_line2 {
  rl_read_idx : Z;
  rl_consumer_waiting : Z
}.

(** [venc_frame_ring_slot_t] *)
Record ring_slot := mk_slot {
  sl_length : Z;
  sl_data : list Z
}.

Definition slot_zero : ring_slot := mk_slot 0 [].

(** The shared mapping. *)
Record ring_mem := mk_mem {
  rm_config : ring_line0;
  rm_prod : ring_line1;
  rm_cons : ring_line2;
  rm_slots : list ring_slot
}.

(** [venc_frame_ring_stats_t] *)
Record ring_stats := mk_stats {
  st_writes : Z;
  st_reads : Z;
  st_full_drops : Z;
  st_oversize_drops : Z;
  st_bad_slot_drops : Z;
  st_other_drops : Z
}.

(** [venc_frame_ring_t], one per process. *)
Record ring := mk_ring {
  rg_slot_stride : Z;
  rg_slot_data_size : Z;
  rg_map_size : Z;
  rg_is_owner : bool;
  rg_stats : ring_stats;
  rg_write_offset : Z;
  rg_write_active : bool
}.

Definition stats_zero : ring_stats := mk_stats 0 0 0 0 0 0.

(** ** Create and attach

    The operating system hands over a zeroed mapping of the size asked for;
    the name, the file descriptor and the epoch are its business. *)

Definition venc_frame_ring_create (slot_count slot_data_size epoch : Z) : option (ring_mem * ring) :=
  if negb (is_power_of_2 slot_count) || (slot_data_size <? VENC_FRAME_META_SIZE)
     || (2 ^ 32 - 1 - 8 <? slot_data_size) then None
  else
    let total := calc_total_size slot_count slot_data_size in
    if 2 ^ 32 - 1 <? total then None
    else Some (
      mk_mem (mk_line0 VENC_FRAME_RING_MAGIC VENC_FRAME_RING_VERSION slot_count slot_data_size
                (u32 total) epoch 1)
        (mk_line1 0 0 VENC_FRAME_RING_HEALTH_MAGIC 0 0 0) (mk_line2 0 0)
        (replicate (Z.to_nat slot_count) (mk_slot 0 (replicate (Z.to_nat slot_data_size) 0))),
      mk_ring (calc_slot_stride slot_data_size) slot_data_size (u32 total) true stats_zero 0 false).

(** [venc_frame_ring_attach]'s [expected_total], and its tests of [tmp], the
    header as first read. *)
Definition attach_total (tmp : ring_line0) : Z := calc_total_size (rl_slot_count tmp) (rl_slot_data_size tmp).
Definition attach_header_ok (tmp : ring_line0) : bool :=
  if negb (rl_magic tmp =? VENC_FRAME_RING_MAGIC) || negb (rl_version tmp =? VENC_FRAME_RING_VERSION)
     || negb (is_power_of_2 (rl_slot_count tmp)) || (rl_slot_data_size tmp <? VENC_FRAME_META_SIZE)
     || negb (rl_init_complete tmp =? 1) then false
  else negb ((2 ^ 32 - 1 <? attach_total tmp) || negb (u32 (attach_total tmp) =? rl_total_size tmp)).

(** Its tests of [m], the header behind the mapping, and the handle. *)
Definition attach_mapped (tmp m : ring_line0) : option ring :=
  if negb (rl_magic m =? VENC_FRAME_RING_MAGIC) || negb (rl_version m =? VENC_FRAME_RING_VERSION)
     || negb (rl_slot_count m =? rl_slot_count tmp) || negb (rl_slot_data_size m =? rl_slot_data_size tmp)
     || negb (rl_total_size m =? u32 (attach_total tmp)) || negb (rl_init_complete m =? 1) then None
  else Some (mk_ring (calc_slot_stride (rl_slot_data_size m)) (rl_slot_data_size m) (u32 (attach_total tmp))
               false stats_zero 0 false).

(** Its tests in their order; [st_size] is the file's size. *)
Definition venc_frame_ring_attach (tmp : ring_line0) (st_size : Z) (m : ring_line0) : option ring :=
  if negb (attach_header_ok tmp) then None
  else if negb (st_size =? attach_total tmp) then None
  else attach_mapped tmp m.

(** ** Stores and counters *)

Definition with_write_idx (m : ring_mem) (w : Z) : ring_mem :=
  let l := rm_prod m in
  mk_mem (rm_config m) (mk_line1 w (rl_futex_seq l) (rl_health_magic l) (rl_full_drops l)
    (rl_low_water_slots l) (rl_other_drops l)) (rm_cons m) (rm_slots m).
Definition with_futex_seq (m : ring_mem) (s : Z) : ring_mem :=
  let l := rm_prod m in
  mk_mem (rm_config m) (mk_line1 (rl_write_idx l) s (rl_health_magic l) (rl_full_drops l)
    (rl_low_water_slots l) (rl_other_drops l)) (rm_cons m) (rm_slots m).
Definition with_full_drops (m : ring_mem) (n : Z) : ring_mem :=
  let l := rm_prod m in
  mk_mem (rm_config m) (mk_line1 (rl_write_idx l) (rl_futex_seq l) (rl_health_magic l) n
    (rl_low_water_slots l) (rl_other_drops l)) (rm_cons m) (rm_slots m).
Definition with_low_water (m : ring_mem) (n : Z) : ring_mem :=
  let l := rm_prod m in
  mk_mem (rm_config m) (mk_line1 (rl_write_idx l) (rl_futex_seq l) (rl_health_magic l)
    (rl_full_drops l) n (rl_other_drops l)) (rm_cons m) (rm_slots m).
Definition with_other_drops (m : ring_mem) (n : Z) : ring_mem :=
  let l := rm_prod m in
  mk_mem (rm_config m) (mk_line1 (rl_write_idx l) (rl_futex_seq l) (rl_health_magic l)
    (rl_full_drops l) (rl_low_water_slots l) n) (rm_cons m) (rm_slots m).
Definition with_read_idx (m : ring_mem) (rd : Z) : ring_mem :=
  mk_mem (rm_config m) (rm_prod m) (mk_line2 rd (rl_consumer_waiting (rm_cons m))) (rm_slots m).
Definition with_waiting (m : ring_mem) (v : Z) : ring_mem :=
  mk_mem (rm_config m) (rm_prod m) (mk_line2 (rl_read_idx (rm_cons m)) v) (rm_slots m).
Definition with_slot (m : ring_mem) (idx : Z) (s : ring_slot) : ring_mem :=
  mk_mem (rm_config m) (rm_prod m) (rm_cons m) (<[Z.to_nat idx := s]> (rm_slots m)).

Definition with_stats (r : ring) (s : ring_stats) : ring :=
  mk_ring (rg_slot_stride r) (rg_slot_data_size r) (rg_map_size r) (rg_is_owner r) s
    (rg_write_offset r) (rg_write_active r).
Definition with_writing (r : ring) (off : Z) (active : bool) : ring :=
  mk_ring (rg_slot_stride r) (rg_slot_data_size r) (rg_map_size r) (rg_is_owner r) (rg_stats r) off active.

Definition count_write (s : ring_stats) : ring_stats :=
  mk_stats (u64 (st_writes s + 1)) (st_reads s) (st_full_drops s) (st_oversize_drops s) (st_bad_slot_drops s) (st_other_drops s).
Definition count_read (s : ring_stats) : ring_stats :=
  mk_stats (st_writes s) (u64 (st_reads s + 1)) (st_full_drops s) (st_oversize_drops s) (st_bad_slot_drops s) (st_other_drops s).
Definition count_full (s : ring_stats) : ring_stats :=
  mk_stats (st_writes s) (st_reads s) (u64 (st_full_drops s + 1)) (st_oversize_drops s) (st_bad_slot_drops s) (st_other_drops s).
Definition count_oversize (s : ring_stats) : ring_stats :=
  mk_stats (st_writes s) (st_reads s) (st_full_drops s) (u64 (st_oversize_drops s + 1)) (st_bad_slot_drops s) (st_other_drops s).
Definition count_bad (s : ring_stats) : ring_stats :=
  mk_stats (st_writes s) (st_reads s) (st_full_drops s) (st_oversize_drops s) (u64 (st_bad_slot_drops s + 1)) (st_other_drops s).
Definition count_other (s : ring_stats) : ring_stats :=
  mk_stats (st_writes s) (st_reads s) (st_full_drops s) (st_oversize_drops s) (st_bad_slot_drops s) (u64 (st_other_drops s + 1)).

Definition venc_frame_ring_note_other_drop (m : ring_mem) (r : ring) : ring_mem * ring :=
  if negb (rg_is_owner r) then (m, r)
  else let s := count_other (rg_stats r) in (with_other_drops m (st_other_drops s), with_stats r s).

Definition venc_frame_ring_set_low_water (m : ring_mem) (r : ring) (slots : Z) : ring_mem :=
  if negb (rg_is_owner r) then m else with_low_water m slots.

(** ** The staged write API *)

(** [idx & (slot_count - 1)] *)
Definition slot_idx (m : ring_mem) (i : Z) : Z :=
  u32 (Z.land i (u32 (rl_slot_count (rm_config m) - 1))).
Definition venc_frame_ring_slot_at (m : ring_mem) (idx : Z) : ring_slot :=
  nth (Z.to_nat idx) (rm_slots m) slot_zero.

(** Stores of one byte, and [memcpy] into the slot being written. *)
Definition put_byte (m : ring_mem) (off b : Z) : ring_mem :=
  let idx := slot_idx m (rl_write_idx (rm_prod m)) in
  let s := venc_frame_ring_slot_at m idx in
  with_slot m idx (mk_slot (sl_length s) (<[Z.to_nat off := b]> (sl_data s))).

Fixpoint put_bytes (m : ring_mem) (off : Z) (bs : list Z) : ring_mem :=
  match bs with
  | [] => m
  | b :: bs => put_bytes (put_byte m off b) (off + 1) bs
  end.

(** What [begin_write] decides once it has loaded [read_idx]: the failure, or
    the go-ahead to copy the metadata. *)
Definition begin_check (m : ring_mem) (r : ring) (rd : Z) : option (ring_mem * ring) :=
  if rl_slot_count (rm_config m) <=? u64 (rl_write_idx (rm_prod m) - rd) then
    let s := count_full (rg_stats r) in
    Some (if rg_is_owner r then with_full_drops m (st_full_drops s) else m, with_stats r s)
  else if rg_slot_data_size r <? VENC_FRAME_META_SIZE then
    Some (venc_frame_ring_note_other_drop m (with_stats r (count_oversize (rg_stats r))))
  else None.

Definition venc_frame_ring_begin_write (m : ring_mem) (r : ring) (meta : list Z) : Z * ring_mem * ring :=
  if rg_write_active r then (-1, m, r)
  else match begin_check m r (rl_read_idx (rm_cons m)) with
       | Some (m, r) => (-1, m, r)
       | None => (0, put_bytes m 0 meta, with_writing r VENC_FRAME_META_SIZE true)
       end.

(** [append] past the null checks: too long, or the go-ahead. *)
Definition append_check (m : ring_mem) (r : ring) (len : Z) : option (ring_mem * ring) :=
  if rg_slot_data_size r <? rg_write_offset r + len then
    Some (venc_frame_ring_note_other_drop m (with_stats r (count_oversize (rg_stats r))))
  else None.

Definition venc_frame_ring_append (m : ring_mem) (r : ring) (data : list Z) : Z * ring_mem * ring :=
  if negb (rg_write_active r) || (zlen data =? 0) then (-1, m, r)
  else match append_check m r (zlen data) with
       | Some (m, r) => (-1, m, r)
       | None => (0, put_bytes m (rg_write_offset r) data,
                  with_writing r (u32 (rg_write_offset r + zlen data)) true)
       end.

(** The two stores of [commit_write]: the length, then the index that
    publishes the slot (with the futex word behind it). *)
Definition commit_length (m : ring_mem) (r : ring) : ring_mem :=
  let idx := slot_idx m (rl_write_idx (rm_prod m)) in
  with_slot m idx (mk_slot (rg_write_offset r) (sl_data (venc_frame_ring_slot_at m idx))).

Definition commit_publish (m : ring_mem) (r : ring) : ring_mem * ring :=
  (with_futex_seq (with_write_idx m (u64 (rl_write_idx (rm_prod m) + 1)))
     (u32 (rl_futex_seq (rm_prod m) + 1)),
   with_writing (with_stats r (count_write (rg_stats r))) 0 false).

Definition venc_frame_ring_commit_write (m : ring_mem) (r : ring) : ring_mem * ring :=
  if negb (rg_write_active r) then (m, r) else commit_publish (commit_length m r) r.

Definition venc_frame_ring_abort_write (r : ring) : ring := with_writing r 0 false.

Definition venc_frame_ring_write (m : ring_mem) (r : ring) (meta data : list Z) : Z * ring_mem * ring :=
  let '(ret, m, r) := venc_frame_ring_begin_write m r meta in
  if negb (ret =? 0) then (-1, m, r)
  else
    let '(ret, m, r) := if 0 <? zlen data then venc_frame_ring_append m r data else (0, m, r) in
    if negb (ret =? 0) then (-1, m, venc_frame_ring_abort_write r)
    else let '(m, r) := venc_frame_ring_commit_write m r in (0, m, r).

(** ** The read API *)

(** What [read] does with the slot's length: give the slot up, or copy. *)
Definition read_check (r : ring) (len buf_size : Z) : option ring :=
  if rg_slot_data_size r <? len then Some (with_stats r (count_bad (rg_stats r)))
  else if buf_size <? len then Some (with_stats r (count_oversize (rg_stats r)))
  else None.

(** [Some bytes] for the C result 0. *)
Definition venc_frame_ring_read (m : ring_mem) (r : ring) (buf_size : Z)
    : option (list Z) * ring_mem * ring :=
  let rd := rl_read_idx (rm_cons m) in
  if rl_write_idx (rm_prod m) <=? rd then (None, m, r)
  else
    let s := venc_frame_ring_slot_at m (slot_idx m rd) in
    match read_check r (sl_length s) buf_size with
    | Some r => (None, with_read_idx m (u64 (rd + 1)), r)
    | None => (Some (ztake (sl_length s) (sl_data s)), with_read_idx m (u64 (rd + 1)),
               with_stats r (count_read (rg_stats r)))
    end.

(** [venc_frame_ring_fill_t]'s ring part. *)
Record ring_fill := mk_fill { fi_slot_count : Z; fi_used_slots : Z; fi_fill_pct : Z }.

Definition venc_frame_ring_get_fill (m : ring_mem) : ring_fill :=
  let w := rl_write_idx (rm_prod m) in
  let rd := rl_read_idx (rm_cons m) in
  let used0 := if rd <=? w then u32 (w - rd) else 0 in
  let slot_count := rl_slot_count (rm_config m) in
  let used := if slot_count <? used0 then slot_count else used0 in
  mk_fill slot_count used (if slot_count =? 0 then 0 else u8 (used * 100 / slot_count)).

(** ** The low-water tracker *)

Definition VENC_RING_LOW_WATER_WINDOW_US : Z := 200000.

(** [VencRingLowWater] *)
Record low_water := mk_lw {
  lw_low_slots : Z;
  lw_slot_count : Z;
  lw_window_us : Z;
  lw_slots : Z;
  lw_seen : bool
}.

Definition venc_ring_low_water_reset (now_us : Z) : low_water := mk_lw 0 0 now_us 0 false.

Definition venc_ring_low_water_observe (t : low_water) (used_slots slot_count : Z) : low_water :=
  let take := negb (lw_seen t) || (used_slots <? lw_low_slots t) in
  mk_lw (if take then used_slots else lw_low_slots t) slot_count (lw_window_us t) (lw_slots t)
    (if take then true else lw_seen t).

(** [true] when a window closed. *)
Definition venc_ring_low_water_tick (t : low_water) (now_us : Z) : bool * low_water :=
  if u64 (now_us - lw_window_us t) <? VENC_RING_LOW_WATER_WINDOW_US then (false, t)
  else
    let low := if lw_seen t then lw_low_slots t else 0 in
    let low := if lw_slot_count t <? low then lw_slot_count t else low in
    (true, mk_lw 0 (lw_slot_count t) now_us (u16 low) false).

(** ** Two processes, interleaved

    The atomic steps of a producer and a consumer on one mapping: every load
    and store of an index, of a slot's length and of each byte of a frame is a
    step of its own, and the two processes' steps mix freely. *)

(** Where the producer is inside a call. *)
Inductive prod_pc :=
  | P_idle
  | P_begin (meta : list Z) (rd : Z)
  | P_copy (off : Z) (bs : list Z) (r : ring)
  | P_publish.

(** Where the consumer is inside [venc_frame_ring_read]. *)
Inductive cons_pc :=
  | C_idle
  | C_have (w : Z)
  | C_len (len : Z)
  | C_copy (len : Z) (acc : list Z).

(** [y_open], [y_sent], [y_got] record what was appended since the last begin,
    every frame published and every result of a read that consumed a slot. *)
Record sys := mk_sys {
  y_mem : ring_mem;
  y_p : ring;
  y_ppc : prod_pc;
  y_c : ring;
  y_cpc : cons_pc;
  y_open : list Z;
  y_sent : list (list Z);
  y_got : list (option (list Z))
}.

Definition y_rd (y : sys) : Z := rl_read_idx (rm_cons (y_mem y)).
Definition y_w (y : sys) : Z := rl_write_idx (rm_prod (y_mem y)).

(** The slot index [i] stands for. *)
Definition slot_of (m : ring_mem) (i : Z) : ring_slot := venc_frame_ring_slot_at m (slot_idx m i).

Inductive ring_step (buf_size : Z) : sys -> sys -> Prop :=
  | p_load m p c cpc op sent got (meta : list Z) :
      rg_write_active p = false -> zlen meta = VENC_FRAME_META_SIZE ->
      ring_step buf_size (mk_sys m p P_idle c cpc op sent got)
        (mk_sys m p (P_begin meta (rl_read_idx (rm_cons m))) c cpc op sent got)
  | p_refuse m p c cpc op sent got meta rd m' p' :
      begin_check m p rd = Some (m', p') ->
      ring_step buf_size (mk_sys m p (P_begin meta rd) c cpc op sent got)
        (mk_sys m' p' P_idle c cpc op sent got)
  | p_accept m p c cpc op sent got meta rd :
      begin_check m p rd = None ->
      ring_step buf_size (mk_sys m p (P_begin meta rd) c cpc op sent got)
        (mk_sys m p (P_copy 0 meta (with_writing p VENC_FRAME_META_SIZE true)) c cpc meta sent got)
  | p_append m p c cpc op sent got (data : list Z) :
      rg_write_active p = true -> data <> [] -> append_check m p (zlen data) = None ->
      ring_step buf_size (mk_sys m p P_idle c cpc op sent got)
        (mk_sys m p (P_copy (rg_write_offset p) data
                       (with_writing p (u32 (rg_write_offset p + zlen data)) true))
           c cpc (op ++ data) sent got)
  | p_too_long m p c cpc op sent got (data : list Z) m' p' :
      rg_write_active p = true -> data <> [] -> append_check m p (zlen data) = Some (m', p') ->
      ring_step buf_size (mk_sys m p P_idle c cpc op sent got) (mk_sys m' p' P_idle c cpc op sent got)
  | p_byte m p c cpc op sent got off b bs r :
      ring_step buf_size (mk_sys m p (P_copy off (b :: bs) r) c cpc op sent got)
        (mk_sys (put_byte m off b) p (P_copy (off + 1) bs r) c cpc op sent got)
  | p_copied m p c cpc op sent got off r :
      ring_step buf_size (mk_sys m p (P_copy off [] r) c cpc op sent got)
        (mk_sys m r P_idle c cpc op sent got)
  | p_abort m p c cpc op sent got :
      ring_step buf_size (mk_sys m p P_idle c cpc op sent got)
        (mk_sys m (venc_frame_ring_abort_write p) P_idle c cpc [] sent got)
  | p_length m p c cpc op sent got :
      rg_write_active p = true ->
      ring_step buf_size (mk_sys m p P_idle c cpc op sent got)
        (mk_sys (commit_length m p) p P_publish c cpc op sent got)
  | p_publish m p c cpc op sent got :
      ring_step buf_size (mk_sys m p P_publish c cpc op sent got)
        (mk_sys (commit_publish m p).1 (commit_publish m p).2 P_idle c cpc [] (sent ++ [op]) got)
  | p_low_water m p c cpc op sent got slots :
      ring_step buf_size (mk_sys m p P_idle c cpc op sent got)
        (mk_sys (venc_frame_ring_set_low_water m p slots) p P_idle c cpc op sent got)
  | c_load m p ppc c op sent got :
      ring_step buf_size (mk_sys m p ppc c C_idle op sent got)
        (mk_sys m p ppc c (C_have (rl_write_idx (rm_prod m))) op sent got)
  | c_empty m p ppc c op sent got w :
      w <= rl_read_idx (rm_cons m) ->
      ring_step buf_size (mk_sys m p ppc c (C_have w) op sent got) (mk_sys m p ppc c C_idle op sent got)
  | c_length m p ppc c op sent got w :
      rl_read_idx (rm_cons m) < w ->
      ring_step buf_size (mk_sys m p ppc c (C_have w) op sent got)
        (mk_sys m p ppc c (C_len (sl_length (slot_of m (rl_read_idx (rm_cons m))))) op sent got)
  | c_give_up m p ppc c op sent got len c' :
      read_check c len buf_size = Some c' ->
      ring_step buf_size (mk_sys m p ppc c (C_len len) op sent got)
        (mk_sys (with_read_idx m (u64 (rl_read_idx (rm_cons m) + 1))) p ppc c' C_idle op sent (got ++ [None]))
  | c_start m p ppc c op sent got len :
      read_check c len buf_size = None ->
      ring_step buf_size (mk_sys m p ppc c (C_len len) op sent got)
        (mk_sys m p ppc c (C_copy len []) op sent got)
  | c_byte m p ppc c op sent got len (acc : list Z) :
      zlen acc < len ->
      ring_step buf_size (mk_sys m p ppc c (C_copy len acc) op sent got)
        (mk_sys m p ppc c (C_copy len (acc ++ [byte_at (sl_data (slot_of m (rl_read_idx (rm_cons m)))) (zlen acc)]))
           op sent got)
  | c_done m p ppc c op sent got len (acc : list Z) :
      zlen acc = len ->
      ring_step buf_size (mk_sys m p ppc c (C_copy len acc) op sent got)
        (mk_sys (with_read_idx m (u64 (rl_read_idx (rm_cons m) + 1))) p ppc
           (with_stats c (count_read (rg_stats c))) C_idle op sent (got ++ [Some acc])).

(** ** The invariant *)

Section spsc.
Context (n sz buf_size : Z).
Hypothesis Hn : is_power_of_2 n = true.
Hypothesis Hn32 : n < 2 ^ 32.
Hypothesis Hsz : VENC_FRAME_META_SIZE <= sz < 2 ^ 32.

(** The mapping has the geometry it was created with. *)
Record mem_ok (m : ring_mem) : Prop := {
  mo_count : rl_slot_count (rm_config m) = n;
  mo_slots : zlen (rm_slots m) = n;
  mo_data : Forall (fun s => zlen (sl_data s) = sz) (rm_slots m)
}.

(** Slot [i] holds frame [f]. *)
Definition holds (m : ring_mem) (i : Z) (f : list Z) : Prop :=
  sl_length (slot_of m i) = zlen f /\ ztake (zlen f) (sl_data (slot_of m i)) = f /\ zlen f <= sz.

(** The first [k] bytes of the slot under construction are [bs]. *)
Definition building (m : ring_mem) (bs : list Z) : Prop :=
  zlen bs <= sz /\ ztake (zlen bs) (sl_data (slot_of m (rl_write_idx (rm_prod m)))) = bs.

Definition prod_ok (y : sys) : Prop :=
  match y_ppc y with
  | P_idle => rg_write_active (y_p y) = true ->
      y_w y < y_rd y + n /\ rg_write_offset (y_p y) = zlen (y_open y) /\ building (y_mem y) (y_open y)
  | P_begin meta rd => 0 <= rd <= y_rd y /\ rg_write_active (y_p y) = false /\ zlen meta = VENC_FRAME_META_SIZE
  | P_copy off bs r =>
      y_w y < y_rd y + n /\ rg_write_offset r = zlen (y_open y) /\ rg_slot_data_size r = sz /\
      rg_write_active r = true /\ zlen (y_open y) <= sz /\
      exists done, zlen done = off /\ y_open y = done ++ bs /\ building (y_mem y) done
  | P_publish => y_w y < y_rd y + n /\ rg_write_active (y_p y) = true /\ holds (y_mem y) (y_w y) (y_open y)
  end.

Definition cons_ok (y : sys) : Prop :=
  match y_cpc y with
  | C_idle => True
  | C_have w => w <= y_w y
  | C_len len => y_rd y < y_w y /\ len = sl_length (slot_of (y_mem y) (y_rd y))
  | C_copy len acc => y_rd y < y_w y /\ len = sl_length (slot_of (y_mem y) (y_rd y)) /\
      len <= buf_size /\ zlen acc <= len /\ acc = ztake (zlen acc) (sl_data (slot_of (y_mem y) (y_rd y)))
  end.

(** The result of a read that consumed frame [f]. *)
Definition outcome (out : option (list Z)) (f : list Z) : Prop :=
  out = Some f \/ out = None /\ buf_size < zlen f.

Record ring_inv (y : sys) : Prop := {
  ri_mem : mem_ok (y_mem y);
  ri_p : rg_slot_data_size (y_p y) = sz;
  ri_c : rg_slot_data_size (y_c y) = sz;
  ri_w : y_w y = zlen (y_sent y);
  ri_rd : y_rd y = zlen (y_got y);
  ri_room : zlen (y_got y) <= zlen (y_sent y) <= zlen (y_got y) + n;
  ri_queue : forall i f, y_rd y <= i -> y_sent y !! Z.to_nat i = Some f -> holds (y_mem y) i f;
  ri_got : forall i out, y_got y !! i = Some out -> exists f, y_sent y !! i = Some f /\ outcome out f;
  ri_prod : prod_ok y;
  ri_cons : cons_ok y
}.

Lemma n_pos : 0 < n.
Proof using Hn. unfold is_power_of_2 in Hn; bool_to_prop; lia. Qed.

Lemma n_pow : exists k, 0 <= k < 32 /\ n = 2 ^ k.
Proof using Hn Hn32.
  pose proof n_pos as Hp; unfold is_power_of_2 in Hn; bool_to_prop; rewrite u32_id in * by lia.
  set (k := Z.log2 n); pose proof (Z.log2_spec n Hp) as [Hlo Hhi]; fold k in Hlo, Hhi.
  assert (0 <= k) as Hk by apply Z.log2_nonneg.
  assert (2 ^ k < 2 ^ 32) as H32 by lia; apply Z.pow_lt_mono_r_iff in H32; [|lia..].
  exists k; split; [lia|]; destruct (Z.eq_dec n (2 ^ k)) as [|Hne]; [done|exfalso].
  rewrite Z.pow_succ_r in Hhi by done.
  assert (Ht : forall z, 2 ^ k <= z < 2 * 2 ^ k -> Z.testbit z k = true).
  { intros z Hz; rewrite Z.testbit_true, <- (Z.div_unique_pos z (2 ^ k) 1 (z - 2 ^ k)) by lia; done. }
  assert (Hb : Z.testbit (Z.land n (n - 1)) k = true).
  { rewrite Z.land_spec, (Ht n), (Ht (n - 1)) by lia; done. }
  by replace (Z.land n (n - 1)) with 0 in Hb by lia; rewrite Z.testbit_0_l in Hb.
Qed.

(** Masking with a power of two is the remainder. *)
Lemma slot_idx_mod m i : mem_ok m -> 0 <= i -> slot_idx m i = i mod n.
Proof using Hn Hn32.
  intros [Hc _ _] Hi; pose proof n_pos; destruct n_pow as (k & Hk & Hnk); unfold slot_idx.
  rewrite Hc, (u32_id (n - 1)) by lia; rewrite Hnk at 1.
  replace (2 ^ k - 1) with (Z.ones k) by (rewrite Z.ones_equiv; lia).
  rewrite Z.land_ones, <- Hnk by lia; apply u32_id; pose proof (Z.mod_pos_bound i n); lia.
Qed.

(** Different indices less than a lap apart are different slots. *)
Lemma mod_lap i j : 0 <= i < j -> j < i + n -> i mod n <> j mod n.
Proof using Hn.
  intros Hij Hlap E; pose proof n_pos.
  pose proof (Z.div_mod i n ltac:(lia)); pose proof (Z.div_mod j n ltac:(lia)).
  assert (j - i = n * (j / n - i / n)) as Hd by lia; destruct (Z.le_gt_cases (j / n - i / n) 0); nia.
Qed.

Lemma slot_of_in m i : mem_ok m -> 0 <= i -> slot_of m i ∈ rm_slots m.
Proof using Hn Hn32.
  intros Hm Hi; unfold slot_of, venc_frame_ring_slot_at; rewrite slot_idx_mod by done.
  apply list_elem_of_In, nth_In; pose proof n_pos; pose proof (Z.mod_pos_bound i n).
  destruct Hm as [_ Hl _]; unfold zlen in Hl; lia.
Qed.

Lemma zlen_slot_data m i : mem_ok m -> 0 <= i -> zlen (sl_data (slot_of m i)) = sz.
Proof using Hn Hn32.
  intros Hm Hi; pose proof (mo_data _ Hm) as Hd; rewrite list.Forall_forall in Hd; by apply Hd, slot_of_in.
Qed.

(** Writing slot [j] is seen through [j] and through no other index of the lap. *)
Lemma slot_of_with_slot m i j s :
  mem_ok m -> 0 <= i -> 0 <= j ->
  slot_of (with_slot m (slot_idx m j) s) i = if i mod n =? j mod n then s else slot_of m i.
Proof using Hn Hn32.
  intros Hm Hi Hj; pose proof n_pos; pose proof (mo_slots _ Hm) as Hl; unfold zlen in Hl.
  pose proof (Z.mod_pos_bound i n); pose proof (Z.mod_pos_bound j n).
  unfold slot_of, venc_frame_ring_slot_at; change (slot_idx (with_slot _ _ _) i) with (slot_idx m i).
  rewrite !slot_idx_mod by done; cbn [with_slot rm_slots]; rewrite !nth_lookup.
  destruct (Z.eqb_spec (i mod n) (j mod n)) as [-> |Hne].
  - by rewrite list_lookup_insert_eq by lia.
  - by rewrite list_lookup_insert_ne by lia.
Qed.

Lemma mem_ok_with_slot m j s :
  mem_ok m -> zlen (sl_data s) = sz -> mem_ok (with_slot m j s).
Proof using.
  intros [Hc Hl Hd] Hs; constructor; cbn [with_slot rm_config rm_slots]; [done|..].
  - unfold zlen in *; by rewrite length_insert.
  - by apply Forall_insert.
Qed.

(** The stores of the producer leave the frames in flight alone. *)
Lemma holds_other m i j s f :
  mem_ok m -> 0 <= i < j -> j < i + n -> holds m i f -> holds (with_slot m (slot_idx m j) s) i f.
Proof using Hn Hn32.
  intros Hm Hij Hlap; unfold holds; rewrite slot_of_with_slot by (done || lia).
  rewrite (proj2 (Z.eqb_neq _ _)); [done|by apply mod_lap].
Qed.

Definition slot_w (m : ring_mem) : ring_slot := slot_of m (rl_write_idx (rm_prod m)).

Lemma put_byte_slot m off b :
  mem_ok m -> 0 <= rl_write_idx (rm_prod m) ->
  mem_ok (put_byte m off b) /\
  slot_w (put_byte m off b) = mk_slot (sl_length (slot_w m)) (<[Z.to_nat off := b]> (sl_data (slot_w m))).
Proof using Hn Hn32.
  intros Hm Hw; split.
  - apply mem_ok_with_slot; [done|]; cbn [sl_data]; unfold zlen; rewrite length_insert.
    by apply zlen_slot_data.
  - unfold slot_w at 1, put_byte; cbn [with_slot rm_prod].
    by rewrite slot_of_with_slot, Z.eqb_refl by done.
Qed.

Lemma building_put m bs b :
  mem_ok m -> 0 <= rl_write_idx (rm_prod m) -> zlen bs + 1 <= sz ->
  building m bs -> building (put_byte m (zlen bs) b) (bs ++ [b]).
Proof using Hn Hn32.
  intros Hm Hw Hlt [Hl Hb]; destruct (put_byte_slot m (zlen bs) b Hm Hw) as [Hm' Hs].
  unfold building; fold (slot_w m) in Hb; fold (slot_w (put_byte m (zlen bs) b)); rewrite Hs.
  rewrite zlen_app; change (zlen [b]) with 1; split; [lia|]; cbn [sl_data].
  pose proof (zlen_slot_data m _ Hm Hw) as Hd; fold (slot_w m) in Hd.
  unfold ztake, zlen in *; rewrite Nat2Z.id in *.
  replace (Z.to_nat (Z.of_nat (length bs) + 1)) with (S (length bs)) by lia.
  rewrite (take_S_r _ _ b) by (apply list_lookup_insert_eq; lia).
  by rewrite take_insert_ge by lia; rewrite Hb.
Qed.

Lemma holds_put m i off b f :
  mem_ok m -> 0 <= i < rl_write_idx (rm_prod m) -> rl_write_idx (rm_prod m) < i + n ->
  holds m i f -> holds (put_byte m off b) i f.
Proof using Hn Hn32. intros; by apply holds_other. Qed.

(** The length store completes the frame under construction. *)
Lemma commit_length_holds m r bs :
  mem_ok m -> 0 <= rl_write_idx (rm_prod m) -> building m bs -> rg_write_offset r = zlen bs ->
  mem_ok (commit_length m r) /\ holds (commit_length m r) (rl_write_idx (rm_prod m)) bs.
Proof using Hn Hn32.
  intros Hm Hw [Hl Hb] Ho; split.
  - apply mem_ok_with_slot; [done|]; by apply zlen_slot_data.
  - unfold holds, commit_length; by rewrite slot_of_with_slot, Z.eqb_refl by done.
Qed.

(** *** Preservation *)

(** A step of the producer that publishes nothing. *)
Lemma inv_prod m m' p ppc p' ppc' c cpc op op' sent got :
  ring_inv (mk_sys m p ppc c cpc op sent got) -> mem_ok m' -> rg_slot_data_size p' = sz ->
  rm_cons m' = rm_cons m -> rl_write_idx (rm_prod m') = rl_write_idx (rm_prod m) ->
  (forall i, rl_read_idx (rm_cons m) <= i < rl_write_idx (rm_prod m) -> slot_of m' i = slot_of m i) ->
  prod_ok (mk_sys m' p' ppc' c cpc op' sent got) ->
  ring_inv (mk_sys m' p' ppc' c cpc op' sent got).
Proof using.
  intros [Hm Hp Hc Hw Hrd Hroom Hq Hg Hpr Hco] Hm' Hp' Er Ew Hs Hpr'.
  constructor; try done; unfold y_w, y_rd in *; cbn [y_mem y_sent y_got y_cpc y_c] in *.
  - by rewrite Ew.
  - by rewrite Er.
  - intros i f Hi Hf; rewrite Er in Hi; unfold holds; rewrite Hs; [by apply Hq|].
    apply lookup_lt_Some in Hf; unfold zlen in Hw; pose proof (zlen_nonneg got); lia.
  - unfold cons_ok, y_w, y_rd in *; cbn [y_mem y_cpc] in *; rewrite Er, Ew.
    destruct cpc; [done|done|..]; rewrite Hs by lia; done.
Qed.

(** A step of the consumer that gives no slot back. *)
Lemma inv_cons m p ppc c cpc cpc' op sent got :
  ring_inv (mk_sys m p ppc c cpc op sent got) -> cons_ok (mk_sys m p ppc c cpc' op sent got) ->
  ring_inv (mk_sys m p ppc c cpc' op sent got).
Proof using. intros [Hm Hp Hc Hw Hrd Hroom Hq Hg Hpr Hco] Hco'; constructor; done. Qed.

(** Giving a slot back, with the result of the read that took it. *)
Lemma inv_consume m p ppc c c' cpc op sent got out f :
  ring_inv (mk_sys m p ppc c cpc op sent got) -> zlen sent < 2 ^ 64 -> rg_slot_data_size c' = sz ->
  sent !! length got = Some f -> outcome out f ->
  ring_inv (mk_sys (with_read_idx m (u64 (rl_read_idx (rm_cons m) + 1))) p ppc c' C_idle op sent (got ++ [out])).
Proof using.
  intros [Hm Hp Hc Hw Hrd Hroom Hq Hg Hpr Hco] Hlt Hc' Hf Ho.
  unfold y_w, y_rd in *; cbn [y_mem y_sent y_got y_p] in *.
  pose proof (lookup_lt_Some _ _ _ Hf) as Hfl; unfold zlen in Hrd, Hlt, Hroom.
  assert (Hu : u64 (rl_read_idx (rm_cons m) + 1) = zlen (got ++ [out])).
  { rewrite zlen_app; unfold zlen; simpl length; rewrite u64_id; lia. }
  constructor; unfold y_w, y_rd; cbn [y_mem y_sent y_got y_c y_p with_read_idx rm_cons rl_read_idx rm_prod]; try done.
  - by destruct Hm; constructor.
  - rewrite zlen_app; unfold zlen; simpl length; lia.
  - intros i g Hi Hg'; apply Hq; [|done]; rewrite Hu, zlen_app in Hi; unfold zlen in *; simpl length in Hi; lia.
  - intros i o Hi; apply lookup_app_Some in Hi as [Hi|[Hi1 Hi2]]; [by apply Hg|].
    apply list_lookup_singleton_Some in Hi2 as [Hi2 <-]; exists f; split; [|done].
    by replace i with (length got) by lia.
  - unfold prod_ok, y_w, y_rd in *; cbn [y_mem y_ppc y_p y_open with_read_idx rm_cons rl_read_idx rm_prod] in *.
    assert (Hnew : zlen (got ++ [out]) = rl_read_idx (rm_cons m) + 1).
    { rewrite zlen_app; unfold zlen; simpl length; lia. }
    rewrite Hu, Hnew; destruct ppc as [|meta r0|o bs r|].
    + intros Ha; destruct (Hpr Ha) as (? & ? & ?); split_and!; done || lia.
    + destruct Hpr as (? & ? & ?); split_and!; done || lia.
    + destruct Hpr as (? & ? & ? & ? & ? & ?); split_and!; done || lia.
    + destruct Hpr as (? & ? & ?); split_and!; done || lia.
Qed.

(** The stores of the producer go to the slot behind the published ones. *)
Lemma slot_of_put m off b i :
  mem_ok m -> 0 <= i < rl_write_idx (rm_prod m) -> rl_write_idx (rm_prod m) < i + n ->
  slot_of (put_byte m off b) i = slot_of m i.
Proof using Hn Hn32.
  intros; unfold put_byte; rewrite slot_of_with_slot by (done || lia).
  by rewrite (proj2 (Z.eqb_neq _ _)) by (by apply mod_lap).
Qed.

Lemma slot_of_commit m r i :
  mem_ok m -> 0 <= i < rl_write_idx (rm_prod m) -> rl_write_idx (rm_prod m) < i + n ->
  slot_of (commit_length m r) i = slot_of m i.
Proof using Hn Hn32.
  intros; unfold commit_length; rewrite slot_of_with_slot by (done || lia).
  by rewrite (proj2 (Z.eqb_neq _ _)) by (by apply mod_lap).
Qed.

(** The room check, taken against a stale read index, is on the safe side. *)
Lemma begin_check_spec m p rd :
  mem_ok m -> rg_slot_data_size p = sz -> 0 <= rd <= rl_write_idx (rm_prod m) ->
  rl_write_idx (rm_prod m) < 2 ^ 64 ->
  match begin_check m p rd with
  | None => rl_write_idx (rm_prod m) < rd + n
  | Some (m', p') => mem_ok m' /\ rg_slot_data_size p' = sz /\ rg_write_active p' = rg_write_active p /\
      rm_cons m' = rm_cons m /\ rl_write_idx (rm_prod m') = rl_write_idx (rm_prod m) /\
      forall i, slot_of m' i = slot_of m i
  end.
Proof using Hsz.
  intros Hm Hp Hrd Hw; unfold begin_check; rewrite (mo_count _ Hm), u64_id by lia.
  destruct (n <=? _) eqn:E; bool_to_prop.
  - destruct Hm; destruct (rg_is_owner p); split_and!; try done; by constructor.
  - rewrite Hp, (proj2 (Z.ltb_ge _ _)) by lia; lia.
Qed.

Lemma append_check_spec m p len :
  mem_ok m -> rg_slot_data_size p = sz ->
  match append_check m p len with
  | None => rg_write_offset p + len <= sz
  | Some (m', p') => mem_ok m' /\ rg_slot_data_size p' = sz /\ rg_write_active p' = rg_write_active p /\
      rg_write_offset p' = rg_write_offset p /\
      rm_cons m' = rm_cons m /\ rl_write_idx (rm_prod m') = rl_write_idx (rm_prod m) /\
      forall i, slot_of m' i = slot_of m i
  end.
Proof using.
  intros Hm Hp; unfold append_check; rewrite Hp; destruct (sz <? _) eqn:E; bool_to_prop; [|lia].
  unfold venc_frame_ring_note_other_drop; cbn [rg_is_owner with_stats].
  destruct Hm; destruct (rg_is_owner p); split_and!; try done; by constructor.
Qed.

Lemma inv_same_mem m p ppc p' ppc' c cpc op op' sent got :
  ring_inv (mk_sys m p ppc c cpc op sent got) -> rg_slot_data_size p' = sz ->
  prod_ok (mk_sys m p' ppc' c cpc op' sent got) -> ring_inv (mk_sys m p' ppc' c cpc op' sent got).
Proof using. intros Hi Hp Hpr; apply (inv_prod m m p ppc p' ppc' c cpc op op'); try done; apply Hi. Qed.

Lemma inv_publish m p c cpc op sent got :
  ring_inv (mk_sys m p P_publish c cpc op sent got) -> zlen sent + 1 < 2 ^ 64 ->
  ring_inv (mk_sys (commit_publish m p).1 (commit_publish m p).2 P_idle c cpc [] (sent ++ [op]) got).
Proof using.
  intros [Hm Hp Hc Hw Hrd Hroom Hq Hg Hpr Hco] Hlt; unfold y_w, y_rd in *; cbn [y_mem y_sent y_got y_p] in *.
  destruct Hpr as (Hlap & Ha & Hh); unfold y_w, y_rd in *; cbn [y_mem y_open] in *.
  pose proof (zlen_nonneg got).
  assert (Hu : u64 (rl_write_idx (rm_prod m) + 1) = zlen (sent ++ [op])).
  { rewrite zlen_app; change (zlen [op]) with 1; rewrite u64_id; lia. }
  assert (Hs : zlen (sent ++ [op]) = rl_write_idx (rm_prod m) + 1).
  { rewrite zlen_app; change (zlen [op]) with 1; lia. }
  constructor; unfold y_w, y_rd, commit_publish; cbn [fst snd y_mem y_sent y_got y_c y_p with_futex_seq with_write_idx rm_cons rl_read_idx rm_prod rl_write_idx]; try done.
  - by destruct Hm; constructor.
  - rewrite Hs; lia.
  - intros i f Hi [Hf|[Hi2 Hf]]%lookup_app_Some; [by apply Hq|].
    apply list_lookup_singleton_Some in Hf as [Hi3 <-]; unfold zlen in *.
    by replace i with (rl_write_idx (rm_prod m)) by lia.
  - intros i out Hi; destruct (Hg i out Hi) as (f & Hf & Ho); exists f; split; [|done].
    by apply lookup_app_l_Some.
  - unfold cons_ok, y_w, y_rd, commit_publish in *.
    cbn [fst snd y_mem y_cpc with_futex_seq with_write_idx rm_cons rl_read_idx rm_prod rl_write_idx] in *.
    rewrite Hu, Hs; destruct cpc as [|w|len|len acc]; [done|lia|..]; destruct Hco as [Hc1 Hc2]; split; try lia; done.
Qed.

(** Copying one more byte of the frame at the read index. *)
Lemma copy_more m acc len :
  mem_ok m -> 0 <= rl_read_idx (rm_cons m) -> zlen acc < len -> len <= sz ->
  acc = ztake (zlen acc) (sl_data (slot_of m (rl_read_idx (rm_cons m)))) ->
  let acc' := acc ++ [byte_at (sl_data (slot_of m (rl_read_idx (rm_cons m)))) (zlen acc)] in
  zlen acc' = zlen acc + 1 /\ acc' = ztake (zlen acc') (sl_data (slot_of m (rl_read_idx (rm_cons m)))).
Proof using Hn Hn32.
  intros Hm Hrd Hlt Hle Ha acc'; assert (Hz : zlen acc' = zlen acc + 1).
  { subst acc'; rewrite zlen_app; done. }
  split; [done|]; rewrite Hz; pose proof (zlen_slot_data m _ Hm Hrd) as Hd; subst acc'.
  unfold ztake, zlen, byte_at in *; rewrite Nat2Z.id in *.
  replace (Z.to_nat (Z.of_nat (length acc) + 1)) with (S (length acc)) by lia.
  set (d := sl_data _) in *; destruct (d !! length acc) as [b|] eqn:E.
  - by rewrite (take_S_r _ _ _ E), nth_lookup, E, <- Ha.
  - apply lookup_ge_None in E; lia.
Qed.

Lemma ring_inv_prod_step y y' :
  ring_inv y -> zlen (y_sent y') < 2 ^ 64 -> ring_step buf_size y y' -> y_got y' = y_got y ->
  y_cpc y' = y_cpc y -> ring_inv y'.
Proof using Hn Hn32 Hsz.
  intros Hinv Hlt Hstep Hgot Hcpc; pose proof Hinv as [Hm Hp Hc Hw Hrd Hroom Hq Hg Hpr Hco].
  unfold y_w, y_rd in *; destruct Hstep; unfold VENC_FRAME_META_SIZE in *;
    cbn [y_mem y_p y_ppc y_c y_cpc y_open y_sent y_got] in *.
  - apply (inv_same_mem m p P_idle p _ c cpc op op); [done..|]; unfold prod_ok, y_rd; cbn.
    pose proof (zlen_nonneg got); split_and!; try done; lia.
  - destruct Hpr as (Hr & Ha & _); unfold y_rd in Hr; cbn [y_mem y_p] in *.
    pose proof (begin_check_spec m p rd Hm Hp ltac:(lia) ltac:(lia)) as Hb; rewrite H in Hb.
    destruct Hb as (Hm' & Hp' & Ha' & Er & Ew & Hs).
    apply (inv_prod m m' p (P_begin meta rd) p' _ c cpc op op); try done.
    unfold prod_ok; cbn; rewrite Ha', Ha; done.
  - destruct Hpr as (Hr & Ha & Hmeta); unfold y_rd in Hr; cbn [y_mem y_p] in *.
    pose proof (begin_check_spec m p rd Hm Hp ltac:(lia) ltac:(lia)) as Hb; rewrite H in Hb.
    apply (inv_same_mem m p (P_begin meta rd) p _ c cpc op meta); [done..|].
    unfold prod_ok, y_w, y_rd; cbn [y_ppc y_mem y_open rg_write_offset rg_write_active rg_slot_data_size with_writing].
    unfold VENC_FRAME_META_SIZE in *; split_and!; try done; try lia.
    exists []; split_and!; try done; split; [change (zlen (@nil Z)) with 0; lia|done].
  - pose proof (append_check_spec m p (zlen data) Hm Hp) as Ha; rewrite H1 in Ha.
    destruct (Hpr H) as (Hlap & Ho & Hb); unfold y_w, y_rd in *; cbn [y_mem y_open y_p] in *.
    apply (inv_same_mem m p P_idle p _ c cpc op (op ++ data)); [done..|].
    pose proof (zlen_nonneg data); pose proof (zlen_nonneg op).
    unfold prod_ok, y_w, y_rd; cbn [y_ppc y_mem y_open rg_write_offset rg_write_active rg_slot_data_size with_writing].
    rewrite zlen_app, u32_id by lia; split_and!; try done; try lia; exists op; by split_and!.
  - pose proof (append_check_spec m p (zlen data) Hm Hp) as Ha; rewrite H1 in Ha.
    destruct Ha as (Hm' & Hp' & Ha' & Ho' & Er & Ew & Hs).
    apply (inv_prod m m' p P_idle p' _ c cpc op op); try done.
    unfold prod_ok, y_w, y_rd in *; cbn [y_ppc y_mem y_open y_p] in *; rewrite Ha', Ho', Er, Ew.
    intros Ha; destruct (Hpr Ha) as (? & ? & Hb); split_and!; try done.
    unfold building in *; by rewrite Ew, Hs.
  - destruct Hpr as (Hlap & Ho & Hrs & Hact & Hol & done_ & Hd & Hop & Hb).
    unfold y_w, y_rd in *; cbn [y_mem y_open] in *; pose proof (zlen_nonneg got).
    assert (Hz : zlen done_ + 1 <= sz).
    { rewrite Hop, zlen_app, zlen_cons in Hol; pose proof (zlen_nonneg bs); lia. }
    destruct (put_byte_slot m off b Hm ltac:(lia)) as [Hm' _].
    apply (inv_prod m _ p (P_copy off (b :: bs) r) p _ c cpc op op); try done.
    + intros i Hi; apply slot_of_put; try done; lia.
    + unfold prod_ok, y_w, y_rd; cbn [y_ppc y_mem y_open]; split_and!; try done.
      exists (done_ ++ [b]); rewrite zlen_app, <- Hd, <- app_assoc; split_and!; try done.
      apply building_put; try done; lia.
  - destruct Hpr as (Hlap & Ho & Hrs & Hact & Hol & done_ & Hd & Hop & Hb).
    apply (inv_same_mem m p (P_copy off [] r) r _ c cpc op op); try done.
    unfold prod_ok; cbn [y_ppc y_p y_open y_mem] in *; intros _; rewrite app_nil_r in Hop; by subst done_.
  - apply (inv_same_mem m p P_idle _ _ c cpc op []); done.
  - destruct (Hpr H) as (Hlap & Ho & Hb); unfold y_w, y_rd in *; cbn [y_mem y_open y_p] in *.
    pose proof (zlen_nonneg got).
    destruct (commit_length_holds m p op Hm ltac:(lia) Hb Ho) as [Hm' Hh].
    apply (inv_prod m _ p P_idle p _ c cpc op op); try done.
    intros i Hi; apply slot_of_commit; try done; lia.
  - apply inv_publish; [done|]; rewrite zlen_app in Hlt; done.
  - apply (inv_prod m _ p P_idle p _ c cpc op op); try done; unfold venc_frame_ring_set_low_water;
      destruct (negb _); try done; by destruct Hm; constructor.
  - done.
  - congruence.
  - congruence.
  - congruence.
  - congruence.
  - injection Hcpc as Hcpc; apply (f_equal length) in Hcpc; rewrite length_app in Hcpc; simpl in Hcpc; lia.
  - exfalso; apply (f_equal length) in Hgot; rewrite length_app in Hgot; simpl in Hgot; lia.
Qed.

Lemma ring_inv_cons_step y y' :
  ring_inv y -> zlen (y_sent y') < 2 ^ 64 -> ring_step buf_size y y' -> y_cpc y' <> y_cpc y -> ring_inv y'.
Proof using Hn Hn32.
  intros Hinv Hlt Hstep Hcpc; pose proof Hinv as [Hm Hp Hc Hw Hrd Hroom Hq Hg Hpr Hco].
  unfold y_w, y_rd in *; destruct Hstep; cbn [y_mem y_p y_ppc y_c y_cpc y_open y_sent y_got] in *;
    try congruence; unfold cons_ok, y_w, y_rd in Hco; cbn [y_cpc y_mem] in Hco; pose proof (zlen_nonneg got).
  - eapply inv_cons; [done|]; unfold cons_ok, y_w; cbn; lia.
  - by eapply inv_cons.
  - eapply inv_cons; [done|]; unfold cons_ok, y_w, y_rd; cbn [y_cpc y_mem]; split; [lia|done].
  - destruct Hco as [Hlt' ->]; destruct (lookup_lt_is_Some_2 sent (length got)) as [f Hf].
    { unfold zlen in *; lia. }
    assert (holds m (rl_read_idx (rm_cons m)) f) as (Hl & Hd & Hs).
    { apply Hq; [lia|]; rewrite Hrd; unfold zlen; by rewrite Nat2Z.id. }
    unfold read_check in H; rewrite Hc, Hl, (proj2 (Z.ltb_ge sz _)) in H by lia.
    destruct (buf_size <? zlen f) eqn:E; bool_to_prop; [|done]; injection H as <-.
    eapply inv_consume; try done; by right.
  - destruct Hco as [Hlt' ->]; eapply inv_cons; [done|]; unfold cons_ok, y_w, y_rd; cbn [y_cpc y_mem].
    unfold read_check in H; destruct (_ <? _); [done|]; destruct (buf_size <? _) eqn:E; [done|bool_to_prop].
    destruct (lookup_lt_is_Some_2 sent (length got)) as [f Hf]; [unfold zlen in *; lia|].
    assert (holds m (rl_read_idx (rm_cons m)) f) as (Hl & _ & _).
    { apply Hq; [lia|]; rewrite Hrd; unfold zlen; by rewrite Nat2Z.id. }
    split_and!; try done; rewrite Hl; apply zlen_nonneg.
  - destruct Hco as (Hlt' & Hl & Hb & Ha1 & Ha2); destruct (lookup_lt_is_Some_2 sent (length got)) as [f Hf].
    { unfold zlen in *; lia. }
    assert (holds m (rl_read_idx (rm_cons m)) f) as (Hl' & _ & Hs).
    { apply Hq; [lia|]; rewrite Hrd; unfold zlen; by rewrite Nat2Z.id. }
    destruct (copy_more m acc len Hm ltac:(lia) ltac:(lia) ltac:(lia) Ha2) as [Hz Hacc].
    eapply inv_cons; [done|]; unfold cons_ok, y_w, y_rd; cbn [y_cpc y_mem]; split_and!; try done; lia.
  - destruct Hco as (Hlt' & Hl & Hb & Ha1 & Ha2); destruct (lookup_lt_is_Some_2 sent (length got)) as [f Hf].
    { unfold zlen in *; lia. }
    assert (holds m (rl_read_idx (rm_cons m)) f) as (Hl' & Hd & Hs).
    { apply Hq; [lia|]; rewrite Hrd; unfold zlen; by rewrite Nat2Z.id. }
    eapply inv_consume; try done; left; f_equal; rewrite Ha2, H, Hl, Hl'; done.
Qed.

Lemma ring_step_kinds y y' :
  ring_step buf_size y y' ->
  y_cpc y' <> y_cpc y \/ y_got y' = y_got y /\ y_cpc y' = y_cpc y.
Proof using.
  destruct 1; cbn [y_cpc y_got]; try (by right); left; try done.
  intros [= E]; apply (f_equal length) in E; rewrite length_app in E; simpl in E; lia.
Qed.

Lemma ring_step_sent y y' : ring_step buf_size y y' -> zlen (y_sent y) <= zlen (y_sent y').
Proof using. destruct 1; cbn [y_sent]; try lia; rewrite zlen_app; pose proof (zlen_nonneg [op]); lia. Qed.

Lemma ring_inv_reachable y y' :
  rtc (ring_step buf_size) y y' -> ring_inv y -> zlen (y_sent y') < 2 ^ 64 -> ring_inv y'.
Proof using Hn Hn32 Hsz.
  intros H; induction H as [|y y1 y' Hs H IH]; intros Hi Hlt; [done|].
  assert (Hlt1 : zlen (y_sent y1) < 2 ^ 64).
  { eapply Z.le_lt_trans; [|exact Hlt]; clear -H; induction H as [|y1 y2 y3 Hs H IH]; [lia|].
    apply ring_step_sent in Hs; lia. }
  apply IH; [|done]; destruct (ring_step_kinds _ _ Hs) as [Hk|[Hk1 Hk2]].
  - by eapply ring_inv_cons_step.
  - by eapply ring_inv_prod_step.
Qed.
End spsc.

(** ** The calls are runs of those steps *)

Section calls.
Context (buf_size : Z).
#[local] Abbreviation step := (ring_step buf_size).

Lemma put_bytes_steps bs : forall m p off r c cpc op sent got,
  rtc step (mk_sys m p (P_copy off bs r) c cpc op sent got) (mk_sys (put_bytes m off bs) r P_idle c cpc op sent got).
Proof.
  induction bs as [|b bs IH]; intros; cbn [put_bytes]; [apply rtc_once; constructor|].
  eapply rtc_l; [constructor|apply IH].
Qed.

(** [begin_write] up to the open slot. *)
Lemma begin_steps m p c cpc op sent got (meta : list Z) m1 p1 :
  zlen meta = VENC_FRAME_META_SIZE -> venc_frame_ring_begin_write m p meta = (0, m1, p1) ->
  rtc step (mk_sys m p P_idle c cpc op sent got) (mk_sys m1 p1 P_idle c cpc meta sent got).
Proof.
  intros Hmeta; unfold venc_frame_ring_begin_write; destruct (rg_write_active p) eqn:Ha; [done|].
  destruct (begin_check m p _) as [[? ?]|] eqn:E; [done|]; intros [= <- <-].
  eapply rtc_l; [by apply p_load|]; eapply rtc_l; [by apply p_accept|]; apply put_bytes_steps.
Qed.

Lemma append_steps m p c cpc op sent got (data : list Z) m1 p1 :
  venc_frame_ring_append m p data = (0, m1, p1) ->
  rtc step (mk_sys m p P_idle c cpc op sent got) (mk_sys m1 p1 P_idle c cpc (op ++ data) sent got).
Proof.
  unfold venc_frame_ring_append; destruct (rg_write_active p) eqn:Ha; [|done]; cbn [negb orb].
  destruct (Z.eqb_spec (zlen data) 0) as [|Hne]; [done|].
  destruct (append_check m p _) as [[? ?]|] eqn:E; [done|]; intros [= <- <-].
  eapply rtc_l; [apply p_append; try done; by intros -> |apply put_bytes_steps].
Qed.

Lemma commit_steps m p c cpc op sent got :
  rg_write_active p = true ->
  let r := venc_frame_ring_commit_write m p in
  rtc step (mk_sys m p P_idle c cpc op sent got) (mk_sys r.1 r.2 P_idle c cpc [] (sent ++ [op]) got).
Proof.
  intros Ha; unfold venc_frame_ring_commit_write; rewrite Ha; cbn [negb].
  eapply rtc_l; [by apply p_length|]; apply rtc_once, p_publish.
Qed.

Lemma begin_write_active m p meta m1 p1 :
  venc_frame_ring_begin_write m p meta = (0, m1, p1) -> rg_write_active p1 = true.
Proof.
  unfold venc_frame_ring_begin_write; destruct (rg_write_active p); [done|].
  destruct (begin_check m p _) as [[? ?]|]; [done|]; by intros [= <- <-].
Qed.

Lemma append_active m p data m1 p1 :
  venc_frame_ring_append m p data = (0, m1, p1) -> rg_write_active p1 = true.
Proof.
  unfold venc_frame_ring_append; destruct (_ || _); [done|].
  destruct (append_check m p _) as [[? ?]|]; [done|]; by intros [= <- <-].
Qed.

(** A successful [venc_frame_ring_write] publishes its one frame. *)
Lemma write_steps m p c cpc op sent got (meta data : list Z) m1 p1 :
  zlen meta = VENC_FRAME_META_SIZE -> venc_frame_ring_write m p meta data = (0, m1, p1) ->
  rtc step (mk_sys m p P_idle c cpc op sent got) (mk_sys m1 p1 P_idle c cpc [] (sent ++ [meta ++ data]) got).
Proof.
  intros Hmeta; unfold venc_frame_ring_write.
  destruct (venc_frame_ring_begin_write m p meta) as [[ret m2] p2] eqn:Eb.
  destruct (Z.eqb_spec ret 0) as [-> |]; [|done]; cbn [negb].
  pose proof (begin_steps m p c cpc op sent got meta _ _ Hmeta Eb) as Hb.
  pose proof (begin_write_active _ _ _ _ _ Eb) as Ha.
  destruct (0 <? zlen data) eqn:El.
  - destruct (venc_frame_ring_append m2 p2 data) as [[ret m3] p3] eqn:Ea.
    destruct (Z.eqb_spec ret 0) as [-> |]; [|done]; cbn [negb].
    pose proof (append_steps m2 p2 c cpc meta sent got data _ _ Ea) as Ha2.
    apply append_active in Ea; pose proof (commit_steps m3 p3 c cpc (meta ++ data) sent got Ea) as Hc.
    destruct (venc_frame_ring_commit_write m3 p3) as [m4 p4]; intros [= <- <-].
    do 2 (etrans; [eassumption|]); exact Hc.
  - cbn [Z.eqb negb]; pose proof (commit_steps m2 p2 c cpc meta sent got Ha) as Hc.
    destruct (venc_frame_ring_commit_write m2 p2) as [m4 p4]; intros [= <- <-].
    bool_to_prop; pose proof (zlen_nonneg data); rewrite (zlen_eq_0 data), app_nil_r by lia.
    etrans; [eassumption|exact Hc].
Qed.

(** Copying out the rest of a slot. *)
Lemma copy_steps m p ppc c op sent got len k acc :
  (Z.to_nat len - length acc <= k)%nat ->
  acc = ztake (zlen acc) (sl_data (slot_of m (rl_read_idx (rm_cons m)))) -> 0 <= len ->
  zlen acc <= len -> len <= zlen (sl_data (slot_of m (rl_read_idx (rm_cons m)))) ->
  rtc step (mk_sys m p ppc c (C_copy len acc) op sent got)
    (mk_sys m p ppc c (C_copy len (ztake len (sl_data (slot_of m (rl_read_idx (rm_cons m)))))) op sent got).
Proof.
  revert acc; induction k as [|k IH]; intros acc Hk Ha H0 Hle Hd; set (d := sl_data _) in *.
  - replace (ztake len d) with acc; [done|]; rewrite Ha; f_equal; unfold zlen in *; lia.
  - destruct (Z.eq_dec (zlen acc) len) as [E|Hne].
    { replace (ztake len d) with acc; [done|]; rewrite Ha; by rewrite E. }
    eapply rtc_l; [apply c_byte; lia|]; fold d; apply IH; fold d; try done.
    + rewrite length_app; cbn [length]; unfold zlen in *; lia.
    + rewrite zlen_app; change (zlen [_]) with 1; unfold ztake, zlen, byte_at in *; rewrite Nat2Z.id in *.
      replace (Z.to_nat (Z.of_nat (length acc) + 1)) with (S (length acc)) by lia.
      destruct (d !! length acc) as [b|] eqn:E; [|apply lookup_ge_None in E; lia].
      by rewrite (take_S_r _ _ _ E), nth_lookup, E, <- Ha.
    + rewrite zlen_app; change (zlen [_]) with 1; lia.
Qed.

(** A successful [venc_frame_ring_read] consumes one slot. *)
Lemma read_steps m p ppc c op sent got f m1 c1 :
  0 <= sl_length (slot_of m (rl_read_idx (rm_cons m)))
    <= zlen (sl_data (slot_of m (rl_read_idx (rm_cons m)))) ->
  venc_frame_ring_read m c buf_size = (Some f, m1, c1) ->
  rtc step (mk_sys m p ppc c C_idle op sent got) (mk_sys m1 p ppc c1 C_idle op sent (got ++ [Some f])).
Proof.
  intros Hl; unfold venc_frame_ring_read; fold (slot_of m (rl_read_idx (rm_cons m))).
  destruct (_ <=? _) eqn:Ew; [done|]; bool_to_prop; set (s := slot_of _ _) in *.
  destruct (read_check c (sl_length s) buf_size) as [?|] eqn:Er; [done|]; intros [= <- <- <-].
  eapply rtc_l; [apply c_load|]; eapply rtc_l; [apply c_length; lia|]; fold s.
  eapply rtc_l; [by apply c_start|]; etrans.
  - apply (copy_steps _ _ _ _ _ _ _ _ (Z.to_nat (sl_length s))); try done; try apply Hl; unfold zlen; simpl; lia.
  - fold s; apply rtc_once, c_done; apply zlen_take; lia.
Qed.
End calls.

(** A freshly created ring, the producer's handle and an attached consumer. *)
Definition ring_start (m : ring_mem) (p c : ring) : sys := mk_sys m p P_idle c C_idle [] [] [].

Section claims.

Lemma create_geometry n sz epoch m p :
  venc_frame_ring_create n sz epoch = Some (m, p) ->
  is_power_of_2 n = true /\ VENC_FRAME_META_SIZE <= sz <= 2 ^ 32 - 9 /\
  calc_total_size n sz < 2 ^ 32 /\ rg_slot_data_size p = sz /\ rg_write_active p = false /\
  mem_ok n sz m /\ rl_slot_data_size (rm_config m) = sz /\ rl_write_idx (rm_prod m) = 0 /\ rl_read_idx (rm_cons m) = 0.
Proof.
  unfold venc_frame_ring_create; destruct (_ || _ || _) eqn:E; [done|].
  bool_to_prop; destruct (_ <? calc_total_size n sz) eqn:E2; [done|]; bool_to_prop; intros [= <- <-].
  assert (0 < n) by (unfold is_power_of_2 in *; bool_to_prop; lia).
  unfold VENC_FRAME_META_SIZE in *; split_and!; try done; try lia.
  constructor; cbn [rm_config rl_slot_count rm_slots]; [done|..].
  - unfold zlen; rewrite length_replicate; lia.
  - apply Forall_replicate; cbn [sl_data]; unfold zlen; rewrite length_replicate; lia.
Qed.

(** Frames written one after the other, and read back. *)
Fixpoint write_frames (m : ring_mem) (p : ring) (fs : list (list Z * list Z)) : list Z * ring_mem * ring :=
  match fs with
  | [] => ([], m, p)
  | (meta, data) :: fs =>
      let '(ret, m, p) := venc_frame_ring_write m p meta data in
      let '(rets, m, p) := write_frames m p fs in (ret :: rets, m, p)
  end.

Fixpoint read_frames (n : nat) (m : ring_mem) (c : ring) (buf_size : Z) : list (option (list Z)) * ring_mem * ring :=
  match n with
  | O => ([], m, c)
  | S n =>
      let '(out, m, c) := venc_frame_ring_read m c buf_size in
      let '(outs, m, c) := read_frames n m c buf_size in (out :: outs, m, c)
  end.

(** A frame as the producer's caller gives it, with room for it on both sides. *)
Definition frame_fits (sz buf_size : Z) (f : list Z * list Z) : Prop :=
  zlen f.1 = VENC_FRAME_META_SIZE /\ zlen (f.1 ++ f.2) <= sz /\ zlen (f.1 ++ f.2) <= buf_size.

Lemma put_bytes_indices bs : forall m off,
  rm_config (put_bytes m off bs) = rm_config m /\ rm_prod (put_bytes m off bs) = rm_prod m /\
  rm_cons (put_bytes m off bs) = rm_cons m.
Proof. induction bs as [|b bs IH]; intros; [done|]; destruct (IH (put_byte m off b) (off + 1)); done. Qed.

Section sequential.
Context (n sz buf_size : Z).
Hypothesis Hn : is_power_of_2 n = true.
Hypothesis Hn32 : n < 2 ^ 32.
Hypothesis Hsz : VENC_FRAME_META_SIZE <= sz < 2 ^ 32.

Lemma write_succeeds m p c sent got f :
  ring_inv n sz buf_size (mk_sys m p P_idle c C_idle [] sent got) -> rg_write_active p = false ->
  frame_fits sz buf_size f -> zlen sent < zlen got + n -> zlen sent + 1 < 2 ^ 64 ->
  exists m1 p1, venc_frame_ring_write m p f.1 f.2 = (0, m1, p1) /\ rg_write_active p1 = false /\
    ring_inv n sz buf_size (mk_sys m1 p1 P_idle c C_idle [] (sent ++ [f.1 ++ f.2]) got).
Proof using Hn Hn32 Hsz.
  intros Hi Ha (Hmeta & Hfit & _) Hroom Hlt; destruct f as [meta data]; cbn [fst snd] in *.
  assert (Hw : exists m1 p1, venc_frame_ring_write m p meta data = (0, m1, p1) /\ rg_write_active p1 = false).
  { pose proof Hi as [Hm Hp Hc Hw Hrd Hro _ _ _ _]; unfold y_w, y_rd in *; cbn [y_mem y_p y_sent y_got] in *.
    pose proof (zlen_nonneg got); rewrite zlen_app in Hfit; pose proof (zlen_nonneg data).
    unfold venc_frame_ring_write, venc_frame_ring_begin_write; rewrite Ha.
    unfold begin_check; rewrite (mo_count _ _ _ Hm), u64_id by lia.
    rewrite (proj2 (Z.leb_gt _ _)) by lia; rewrite Hp, (proj2 (Z.ltb_ge _ _)) by lia; cbn [Z.eqb negb].
    destruct (0 <? zlen data) eqn:E; bool_to_prop; cycle 1.
    { unfold venc_frame_ring_commit_write; cbn; by eexists _, _. }
    unfold venc_frame_ring_append; cbn [rg_write_active with_writing negb orb].
    rewrite (proj2 (Z.eqb_neq _ _)) by lia; unfold append_check.
    cbn [rg_slot_data_size rg_write_offset with_writing]; rewrite Hp, (proj2 (Z.ltb_ge _ _)) by lia.
    unfold venc_frame_ring_commit_write; cbn; by eexists _, _. }
  destruct Hw as (m1 & p1 & Hw & Ha1); exists m1, p1; split_and!; [done..|].
  apply (ring_inv_reachable n sz buf_size Hn Hn32 Hsz _ _ (write_steps buf_size m p c C_idle [] sent got meta data m1 p1 Hmeta Hw) Hi).
  cbn [y_sent]; rewrite zlen_app; exact Hlt.
Qed.

Lemma writes_succeed m p c sent got fs :
  ring_inv n sz buf_size (mk_sys m p P_idle c C_idle [] sent got) -> rg_write_active p = false ->
  Forall (frame_fits sz buf_size) fs -> zlen sent + zlen fs <= zlen got + n -> zlen sent + zlen fs < 2 ^ 64 ->
  exists m1 p1, write_frames m p fs = (replicate (length fs) 0, m1, p1) /\ rg_write_active p1 = false /\
    ring_inv n sz buf_size (mk_sys m1 p1 P_idle c C_idle [] (sent ++ ((fun f => f.1 ++ f.2) <$> fs)) got).
Proof using Hn Hn32 Hsz.
  intros Hi Ha Hfs; revert m p sent Hi Ha; induction Hfs as [|[meta data] fs Hf Hfs IH]; intros m p sent Hi Ha Hroom Hlt.
  - exists m, p; cbn; by rewrite app_nil_r.
  - rewrite zlen_cons in Hroom, Hlt; pose proof (zlen_nonneg fs).
    destruct (write_succeeds m p c sent got (meta, data) Hi Ha Hf ltac:(lia) ltac:(lia)) as (m1 & p1 & Hw & Ha1 & Hi1).
    cbn [fst snd] in *; destruct (IH m1 p1 _ Hi1 Ha1) as (m2 & p2 & Hws & Ha2 & Hi2);
      [rewrite zlen_app; change (zlen [_]) with 1; lia..|].
    exists m2, p2; cbn [write_frames length replicate fmap list_fmap fst snd]; rewrite Hw, Hws.
    rewrite <- app_assoc in Hi2; by split_and!.
Qed.

Lemma read_succeeds m p c sent got f :
  ring_inv n sz buf_size (mk_sys m p P_idle c C_idle [] sent got) -> zlen sent < 2 ^ 64 ->
  sent !! length got = Some f -> zlen f <= buf_size ->
  exists m1 c1, venc_frame_ring_read m c buf_size = (Some f, m1, c1) /\
    ring_inv n sz buf_size (mk_sys m1 p P_idle c1 C_idle [] sent (got ++ [Some f])).
Proof using Hn Hn32 Hsz.
  intros Hi Hlt Hf Hb; pose proof Hi as [Hm Hp Hc Hw Hrd Hro Hq _ _ _]; unfold y_w, y_rd in *;
    cbn [y_mem y_p y_c y_sent y_got] in *; pose proof (zlen_nonneg got).
  pose proof (lookup_lt_Some _ _ _ Hf) as Hlen.
  destruct (Hq (rl_read_idx (rm_cons m)) f) as (Hl & Hd & Hs); [lia| |].
  { rewrite Hrd; unfold zlen; by rewrite Nat2Z.id. }
  assert (Hr : exists m1 c1, venc_frame_ring_read m c buf_size = (Some f, m1, c1)).
  { unfold venc_frame_ring_read; fold (slot_of m (rl_read_idx (rm_cons m))).
    rewrite (proj2 (Z.leb_gt _ _)) by (unfold zlen in *; lia); unfold read_check; rewrite Hl, Hc, Hd.
    rewrite (proj2 (Z.ltb_ge sz _)), (proj2 (Z.ltb_ge buf_size _)) by lia; by eexists _, _. }
  destruct Hr as (m1 & c1 & Hr); exists m1, c1; split; [done|].
  apply (ring_inv_reachable n sz buf_size Hn Hn32 Hsz _ _
    (read_steps buf_size m p P_idle c [] sent got f m1 c1 ltac:(rewrite Hl, (zlen_slot_data n sz Hn Hn32 m _ Hm); pose proof (zlen_nonneg f); lia) Hr) Hi).
  exact Hlt.
Qed.

Lemma reads_succeed m p c sent got :
  ring_inv n sz buf_size (mk_sys m p P_idle c C_idle [] sent got) -> zlen sent < 2 ^ 64 ->
  Forall (fun f => zlen f <= buf_size) sent ->
  exists m1 c1, read_frames (length sent - length got) m c buf_size
      = (Some <$> drop (length got) sent, m1, c1) /\
    rl_read_idx (rm_cons m1) = rl_write_idx (rm_prod m1).
Proof using Hn Hn32 Hsz.
  remember (length sent - length got)%nat as k eqn:Hk; revert m c got Hk.
  induction k as [|k IH]; intros m c got Hk Hi Hlt Hb.
  - exists m, c; split; [by rewrite drop_ge by lia|]; destruct Hi as [_ _ _ Hw Hrd Hro _ _ _ _].
    unfold y_w, y_rd in *; cbn [y_mem y_sent y_got] in *; unfold zlen in *; lia.
  - destruct (lookup_lt_is_Some_2 sent (length got)) as [f Hf]; [lia|].
    rewrite list.Forall_forall in Hb.
    destruct (read_succeeds m p c sent got f Hi Hlt Hf) as (m1 & c1 & Hr & Hi1).
    { apply Hb, list_elem_of_lookup; by exists (length got). }
    destruct (IH m1 c1 (got ++ [Some f])) as (m2 & c2 & Hrs & He); try done.
    { rewrite length_app; simpl; lia. }
    { by rewrite list.Forall_forall. }
    exists m2, c2; cbn [read_frames]; rewrite Hr, Hrs; split; [|done]; rewrite (drop_S _ _ _ Hf).
    rewrite length_app; cbn [length fmap list_fmap]; by replace (length got + 1)%nat with (S (length got)) by lia.
Qed.
End sequential.

Lemma ring_inv_start n sz epoch buf_size m p c :
  venc_frame_ring_create n sz epoch = Some (m, p) -> rg_slot_data_size c = sz ->
  ring_inv n sz buf_size (ring_start m p c).
Proof.
  intros Hcr Hc; destruct (create_geometry _ _ _ _ _ Hcr) as (Hpow & Hsz & _ & Hp & Ha & Hm & _ & Hw & Hrd).
  assert (0 < n) by (unfold is_power_of_2 in Hpow; bool_to_prop; lia).
  constructor; try done; try (unfold prod_ok; cbn; congruence).
  change (0 <= 0 <= 0 + n); lia.
Qed.

(** The stride is the slot rounded up to eight bytes, as long as the rounding
    itself fits 32 bits. *)
Lemma calc_slot_stride_spec sz :
  0 <= sz <= 2 ^ 32 - 12 -> calc_slot_stride sz = 8 * ((sz + 11) / 8).
Proof.
  eval_pow; intros Hs; unfold calc_slot_stride; unwrap.
  change (u32 (Z.lnot 7)) with (Z.ldiff (Z.ones 32) (Z.ones 3)).
  replace (4 + sz + 7) with (sz + 11) by lia; rewrite Z.ldiff_land, Z.land_assoc, <- Z.ldiff_land.
  rewrite (Z.land_ones (sz + 11)), Z.mod_small by (eval_pow; lia).
  rewrite Z.ldiff_ones_r, Z.shiftl_mul_pow2, Z.shiftr_div_pow2 by lia; change (2 ^ 3) with 8; lia.
Qed.

(** The guards of [create] leave three sizes whose stride wraps to nothing. *)
Lemma stride_wraps :
  calc_slot_stride (2 ^ 32 - 9) = 0 /\ calc_total_size 4 (2 ^ 32 - 9) = VENC_FRAME_RING_HDR_SIZE /\
  (2 ^ 32 - 1 - 8 <? 2 ^ 32 - 9) = false.
Proof. by vm_compute. Qed.

(** Where slot [i] starts in the mapping. *)
Definition slot_offset (r : ring) (i : Z) : Z := VENC_FRAME_RING_HDR_SIZE + i * rg_slot_stride r.

(** What [create] lays out, [attach] accepts and sees the same way; and
    in that layout every slot (length word and data) lies inside the mapping,
    in front of the next one, so that the slots are disjoint. *)
Theorem ring_geometry n sz epoch m p :
  venc_frame_ring_create n sz epoch = Some (m, p) -> n < 2 ^ 32 -> sz <= 2 ^ 32 - 12 ->
  exists c,
    venc_frame_ring_attach (rm_config m) (rg_map_size p) (rm_config m) = Some c /\
    rg_slot_data_size c = sz /\ rg_map_size c = rg_map_size p /\ rg_is_owner c = false /\
    (forall i, slot_offset c i = slot_offset p i) /\
    (forall i, 0 <= i < n -> VENC_FRAME_RING_HDR_SIZE <= slot_offset c i /\
       slot_offset c i + 4 + sz <= slot_offset c (i + 1) /\ slot_offset c i + 4 + sz <= rg_map_size c).
Proof.
  intros Hcr Hn Hsz; destruct (create_geometry _ _ _ _ _ Hcr) as (Hpow & Hmin & Htot & _).
  unfold venc_frame_ring_create in Hcr; unfold VENC_FRAME_META_SIZE in *; rewrite Hpow in Hcr.
  rewrite (proj2 (Z.ltb_ge sz 8)), (proj2 (Z.ltb_ge _ sz)), (proj2 (Z.ltb_ge _ (calc_total_size n sz))) in Hcr by lia.
  injection Hcr as <- <-; assert (0 < n) by (unfold is_power_of_2 in Hpow; bool_to_prop; lia).
  revert Hmin Hsz Hn Htot; eval_pow; intros Hmin Hsz Hn Htot.
  pose proof (calc_slot_stride_spec sz ltac:(lia)) as Hst.
  assert (Hst1 : sz + 4 <= calc_slot_stride sz < 4294967296) by (rewrite Hst; dlia).
  assert (Ht : calc_total_size n sz = VENC_FRAME_RING_HDR_SIZE + n * calc_slot_stride sz).
  { unfold calc_total_size, VENC_FRAME_RING_HDR_SIZE; rewrite (u64_id (n * _)) by nia; rewrite u64_id; nia. }
  assert (0 <= calc_total_size n sz) by (rewrite Ht; unfold VENC_FRAME_RING_HDR_SIZE; nia).
  unfold venc_frame_ring_attach, attach_header_ok, attach_mapped, attach_total; cbn [rm_config rl_magic rl_version rl_slot_count rl_slot_data_size
    rl_total_size rl_init_complete rg_map_size].
  rewrite Hpow, !Z.eqb_refl, (proj2 (Z.ltb_ge sz _)), (proj2 (Z.ltb_ge _ (calc_total_size n sz)))
    by (unfold VENC_FRAME_META_SIZE; lia).
  rewrite (u32_id (calc_total_size n sz)), !Z.eqb_refl by lia; eexists; split; [done|].
  cbn [rg_slot_data_size rg_map_size rg_is_owner]; split_and!; try done; unfold slot_offset; cbn [rg_slot_stride].
  intros i Hi; rewrite Ht; unfold VENC_FRAME_RING_HDR_SIZE; nia.
Qed.

(** C26. Nothing is lost, torn, reordered or delivered twice: for every
    interleaving of the two processes' loads, stores and byte copies, the
    results of the reads that consumed a slot are, in order, the frames
    published (metadata and all appended bytes), except that a frame longer
    than the reader's buffer is given up whole; and the producer never gets
    more than [slot_count] frames ahead.  (Slots are separate objects of the
    model, hence the bound on the size: [ring_geometry] for it, [stride_wraps]
    beyond.) *)
Theorem ring_is_fifo n sz epoch buf_size m p c y :
  venc_frame_ring_create n sz epoch = Some (m, p) -> n < 2 ^ 32 -> sz <= 2 ^ 32 - 12 -> rg_slot_data_size c = sz ->
  rtc (ring_step buf_size) (ring_start m p c) y -> zlen (y_sent y) < 2 ^ 64 ->
  Forall2 (outcome buf_size) (y_got y) (take (length (y_got y)) (y_sent y)) /\
  zlen (y_sent y) <= zlen (y_got y) + n.
Proof.
  intros Hcr Hn _ Hc Hrtc Hlt; pose proof (ring_inv_start _ _ _ buf_size _ _ _ Hcr Hc) as Hi.
  destruct (create_geometry _ _ _ _ _ Hcr) as (Hpow & Hsz & _).
  apply (ring_inv_reachable n sz buf_size Hpow Hn ltac:(unfold VENC_FRAME_META_SIZE in *; lia) _ _ Hrtc) in Hi; [|done].
  destruct Hi as [_ _ _ _ _ Hroom _ Hg _ _]; split; [|lia].
  apply Forall2_same_length_lookup; split.
  { rewrite length_take; unfold zlen in Hroom; lia. }
  intros i out f Ho Hf; apply lookup_take_Some in Hf as [Hf _].
  destruct (Hg i out Ho) as (f' & Hf' & Hout); congruence.
Qed.

(** Used one call at a time the ring is a lossless queue of
    [slot_count] frames: up to that many writes succeed, one more is refused
    and counted in the shared header, and reads give the frames back whole and
    in order until the ring is empty. *)
Theorem ring_write_read n sz epoch buf_size m p c fs extra :
  venc_frame_ring_create n sz epoch = Some (m, p) -> n < 2 ^ 32 -> sz <= 2 ^ 32 - 12 -> rg_slot_data_size c = sz ->
  Forall (frame_fits sz buf_size) fs -> zlen fs <= n ->
  exists m1 p1 m2 c2,
    write_frames m p fs = (replicate (length fs) 0, m1, p1) /\
    (zlen fs = n -> exists m3 p3, venc_frame_ring_write m1 p1 extra.1 extra.2 = (-1, m3, p3) /\
       st_full_drops (rg_stats p3) = u64 (st_full_drops (rg_stats p1) + 1) /\
       (rg_is_owner p1 = true -> rl_full_drops (rm_prod m3) = st_full_drops (rg_stats p3))) /\
    read_frames (length fs) m1 c buf_size = ((fun f => Some (f.1 ++ f.2)) <$> fs, m2, c2) /\
    (venc_frame_ring_read m2 c2 buf_size).1.1 = None.
Proof.
  intros Hcr Hn _ Hc Hfs Hle; pose proof (ring_inv_start _ _ _ buf_size _ _ _ Hcr Hc) as Hi.
  destruct (create_geometry _ _ _ _ _ Hcr) as (Hpow & Hsz & _ & _ & Ha & _).
  assert (Hsz' : VENC_FRAME_META_SIZE <= sz < 2 ^ 32) by lia; pose proof (zlen_nonneg fs).
  destruct (writes_succeed n sz buf_size Hpow Hn Hsz' m p c [] [] fs Hi Ha Hfs) as (m1 & p1 & Hw & Ha1 & Hi1);
    [change (zlen (@nil (list Z))) with 0; change (zlen (@nil (option (list Z)))) with 0; lia..|].
  rewrite app_nil_l in Hi1; set (sent := (fun f => f.1 ++ f.2) <$> fs) in *.
  assert (Hlen : length sent = length fs) by apply length_fmap.
  destruct (reads_succeed n sz buf_size Hpow Hn Hsz' m1 p1 c sent [] Hi1) as (m2 & c2 & Hr & He).
  { unfold zlen in *; lia. }
  { subst sent; apply Forall_fmap; eapply list.Forall_impl; [exact Hfs|]; intros f Hf; apply Hf. }
  exists m1, p1, m2, c2; split_and!; [done| | |].
  - intros Hfull; pose proof Hi1 as [Hm _ _ Hwi Hri _ _ _ _ _]; unfold y_w, y_rd in *; cbn [y_mem y_sent y_got] in *.
    unfold venc_frame_ring_write, venc_frame_ring_begin_write; rewrite Ha1; unfold begin_check.
    change (zlen (@nil (option (list Z)))) with 0 in Hri; unfold zlen in *; rewrite (mo_count _ _ _ Hm), u64_id by lia.
    rewrite (proj2 (Z.leb_le _ _)) by lia; cbn [Z.eqb negb]; eexists _, _; split_and!; [done..|].
    by intros ->.
  - rewrite Hlen, Nat.sub_0_r in Hr; rewrite Hr; subst sent; cbn [length].
    by rewrite drop_0, <- list_fmap_compose.
  - unfold venc_frame_ring_read; by rewrite He, Z.leb_refl.
Qed.

(** A two-slot ring of 16-byte slots, and what [attach] makes of it. *)
Definition demo_config : ring_line0 :=
  mk_line0 VENC_FRAME_RING_MAGIC VENC_FRAME_RING_VERSION 2 16 240 77 1.
Definition demo_mem : ring_mem :=
  mk_mem demo_config (mk_line1 0 0 VENC_FRAME_RING_HEALTH_MAGIC 0 0 0) (mk_line2 0 0)
    (replicate 2 (mk_slot 0 (replicate 16 0))).
Definition demo_prod : ring := mk_ring 24 16 240 true stats_zero 0 false.
Definition demo_cons : ring := mk_ring 24 16 240 false stats_zero 0 false.
Definition demo_frames : list (list Z * list Z) :=
  [([1; 2; 3; 4; 5; 6; 7; 8], [9; 10]); ([11; 12; 13; 14; 15; 16; 17; 18], [])].

Lemma demo_create : venc_frame_ring_create 2 16 77 = Some (demo_mem, demo_prod).
Proof. vm_compute; reflexivity. Qed.
Lemma demo_fits : Forall (frame_fits 16 64) demo_frames.
Proof. repeat constructor; done. Qed.
End claims.

Lemma ring_write_read_witness :
  exists m1 p1 m2 c2,
    write_frames demo_mem demo_prod demo_frames = ([0; 0], m1, p1) /\
    (zlen demo_frames = 2 -> exists m3 p3,
       venc_frame_ring_write m1 p1 [0; 0; 0; 0; 0; 0; 0; 0] [] = (-1, m3, p3) /\
       st_full_drops (rg_stats p3) = u64 (st_full_drops (rg_stats p1) + 1) /\
       (rg_is_owner p1 = true -> rl_full_drops (rm_prod m3) = st_full_drops (rg_stats p3))) /\
    read_frames 2 m1 demo_cons 64
      = ([Some [1; 2; 3; 4; 5; 6; 7; 8; 9; 10]; Some [11; 12; 13; 14; 15; 16; 17; 18]], m2, c2) /\
    (venc_frame_ring_read m2 c2 64).1.1 = None.
Proof.
  destruct (ring_write_read 2 16 77 64 demo_mem demo_prod demo_cons demo_frames ([0; 0; 0; 0; 0; 0; 0; 0], [])
    demo_create ltac:(lia) ltac:(lia) ltac:(done) demo_fits ltac:(done)) as (m1 & p1 & m2 & c2 & H1 & H2 & H3 & H4).
  exists m1, p1, m2, c2; repeat split; [exact H1|exact H2|exact H3|exact H4].
Defined.

Lemma ring_is_fifo_witness :
  exists y, rtc (ring_step 64) (ring_start demo_mem demo_prod demo_cons) y /\
    y_sent y = [[1; 2; 3; 4; 5; 6; 7; 8; 9; 10]] /\ y_got y = [] /\
    Forall2 (outcome 64) (y_got y) (take (length (y_got y)) (y_sent y)) /\ zlen (y_sent y) <= zlen (y_got y) + 2.
Proof.
  set (w := venc_frame_ring_write demo_mem demo_prod [1; 2; 3; 4; 5; 6; 7; 8] [9; 10]).
  pose proof (write_steps 64 demo_mem demo_prod demo_cons C_idle [] [] [] [1; 2; 3; 4; 5; 6; 7; 8] [9; 10]
    w.1.2 w.2 ltac:(done) ltac:(done)) as H.
  eexists; split; [exact H|]; split; [reflexivity|]; split; [reflexivity|].
  apply (ring_is_fifo 2 16 77 64 demo_mem demo_prod demo_cons _ demo_create ltac:(lia) ltac:(lia) ltac:(done) H).
  done.
Defined.

Lemma ring_geometry_witness :
  exists c, venc_frame_ring_attach demo_config 240 demo_config = Some c /\
    rg_slot_data_size c = 16 /\ slot_offset c 1 + 4 + 16 <= 240.
Proof.
  destruct (ring_geometry 2 16 77 demo_mem demo_prod demo_create ltac:(lia) ltac:(lia))
    as (c & H1 & H2 & H3 & _ & _ & H4).
  exists c; split; [exact H1|]; split; [exact H2|].
  destruct (H4 1 ltac:(lia)) as (_ & _ & H5); rewrite H3 in H5; exact H5.
Defined.
