(* ===== verification/AnnexB.v ===== *)
(** Annex B byte streams: where a start code stands, what a NAL unit may
    contain, and what that says about the scans of the sources.  Shared by
    [RtpH265] and [TimingSei]; no code of the repository is modelled here. *)

From S2P Require Import Prelude.
#[local] Open Scope Z_scope.

(** The start code at offset [i] of [buf], by its length. *)
Definition sc_at (buf : list Z) (i : Z) : option Z :=
  if (i + 2 <? zlen buf) && (byte_at buf i =? 0) && (byte_at buf (i + 1) =? 0) then
    if byte_at buf (i + 2) =? 1 then Some 3
    else if (i + 3 <? zlen buf) && (byte_at buf (i + 2) =? 0) && (byte_at buf (i + 3) =? 1) then Some 4
    else None
  else None.

(** A NAL unit as H.265 allows it: no start code inside, no zero at its end. *)
Record nal_ok (nal : list Z) : Prop := {
  nal_nonempty : nal <> [];
  nal_last : byte_at nal (zlen nal - 1) <> 0;
  nal_clean : forall i, 0 <= i -> i + 2 < zlen nal ->
    ~ (byte_at nal i = 0 /\ byte_at nal (i + 1) = 0 /\ byte_at nal (i + 2) = 1)
}.

Definition short_sc : list Z := [0; 0; 1].
Definition long_sc : list Z := [0; 0; 0; 1].

(** NAL units behind their start codes, [true] for the four-byte form. *)
Definition annexb (nals : list (bool * list Z)) : list Z :=
  concat ((fun n : bool * list Z => (if n.1 then long_sc else short_sc) ++ n.2) <$> nals).

(** What may follow a NAL unit: nothing, or the next start code. *)
Definition starts_nal (l : list Z) : Prop := l = [] \/ exists k, l = short_sc ++ k \/ l = long_sc ++ k.

Section bytes_at.

Lemma byte_at_app_l l k i : 0 <= i < zlen l -> byte_at (l ++ k) i = byte_at l i.
Proof. unfold byte_at, zlen; intros; apply app_nth1; lia. Qed.

Lemma byte_at_app_r l k i : zlen l <= i -> byte_at (l ++ k) i = byte_at k (i - zlen l).
Proof. unfold byte_at, zlen; intros; rewrite app_nth2 by lia; f_equal; lia. Qed.

Lemma sc_at_app_r pre l i : 0 <= i -> sc_at (pre ++ l) (zlen pre + i) = sc_at l i.
Proof.
  intros Hi; pose proof (zlen_nonneg pre); unfold sc_at; rewrite zlen_app, !byte_at_app_r by lia.
  replace (zlen pre + i - zlen pre) with i by lia.
  replace (zlen pre + i + 1 - zlen pre) with (i + 1) by lia.
  replace (zlen pre + i + 2 - zlen pre) with (i + 2) by lia.
  replace (zlen pre + i + 3 - zlen pre) with (i + 3) by lia.
  replace (zlen pre + i + 2 <? zlen pre + zlen l) with (i + 2 <? zlen l) by lia.
  by replace (zlen pre + i + 3 <? zlen pre + zlen l) with (i + 3 <? zlen l) by lia.
Qed.

Lemma sc_at_short l : sc_at (short_sc ++ l) 0 = Some 3.
Proof. unfold sc_at; rewrite zlen_app; change (zlen short_sc) with 3; pose proof (zlen_nonneg l).
  by replace (0 + 2 <? 3 + zlen l) with true by lia. Qed.

Lemma sc_at_long l : sc_at (long_sc ++ l) 0 = Some 4.
Proof. unfold sc_at; rewrite zlen_app; change (zlen long_sc) with 4; pose proof (zlen_nonneg l).
  replace (0 + 2 <? 4 + zlen l) with true by lia; by replace (0 + 3 <? 4 + zlen l) with true by lia. Qed.

(** No start code begins inside a NAL unit, whatever follows it. *)
Lemma sc_at_nal nal l i : nal_ok nal -> 0 <= i < zlen nal -> sc_at (nal ++ l) i = None.
Proof.
  intros [_ Hlast Hclean] Hi; unfold sc_at; rewrite (byte_at_app_l nal l i Hi).
  destruct (i + 2 <? _); cbn [andb]; [|done].
  destruct (Z.eqb_spec (byte_at nal i) 0) as [H0|]; cbn [andb]; [|done].
  destruct (Z.eq_dec i (zlen nal - 1)) as [->|Hne]; [done|]; rewrite (byte_at_app_l nal l (i + 1)) by lia.
  destruct (Z.eqb_spec (byte_at nal (i + 1)) 0) as [H1|]; [|done].
  destruct (Z.eq_dec (i + 1) (zlen nal - 1)) as [E|Hne1]; [congruence|].
  rewrite (byte_at_app_l nal l (i + 2)) by lia.
  destruct (Z.eqb_spec (byte_at nal (i + 2)) 1) as [H2|]; [exfalso; apply (Hclean i); auto; lia|].
  destruct (i + 3 <? _); cbn [andb]; [|done].
  destruct (Z.eqb_spec (byte_at nal (i + 2)) 0) as [H2|]; cbn [andb]; [|done].
  destruct (Z.eq_dec (i + 2) (zlen nal - 1)) as [E|Hne2]; [congruence|].
  rewrite (byte_at_app_l nal l (i + 3)) by lia.
  destruct (Z.eqb_spec (byte_at nal (i + 3)) 1) as [H3|]; [exfalso|done].
  apply (Hclean (i + 1)); [lia|lia|]; replace (i + 1 + 1) with (i + 2) by lia.
  by replace (i + 1 + 2) with (i + 3) by lia.
Qed.

(** Inside [pre ++ nal ++ l] the same, at the NAL's own offsets. *)
Lemma sc_at_inside pre nal l i :
  nal_ok nal -> zlen pre <= i < zlen pre + zlen nal -> sc_at (pre ++ nal ++ l) i = None.
Proof.
  intros Hn Hi; replace i with (zlen pre + (i - zlen pre)) by lia.
  rewrite sc_at_app_r by lia; apply sc_at_nal; [done|lia].
Qed.

Lemma sc_at_next pre l :
  starts_nal l -> l <> [] -> exists n, sc_at (pre ++ l) (zlen pre) = Some n /\ 3 <= n <= zlen l.
Proof.
  intros Hs Hne; pose proof (sc_at_app_r pre l 0 ltac:(lia)) as E; rewrite Z.add_0_r in E; rewrite E.
  destruct Hs as [->|(k & [-> | ->])]; [done|..]; pose proof (zlen_nonneg k); rewrite zlen_app.
  - exists 3; rewrite sc_at_short; change (zlen short_sc) with 3; split; [done|lia].
  - exists 4; rewrite sc_at_long; change (zlen long_sc) with 4; split; [done|lia].
Qed.

Lemma annexb_starts nals : starts_nal (annexb nals).
Proof.
  destruct nals as [|[[] nal] nals]; [by left|right..]; unfold annexb; cbn; eexists; eauto.
Qed.

Lemma nal_ok_pos nal : nal_ok nal -> 0 < zlen nal.
Proof. intros [Hn _ _]; destruct nal; [done|rewrite zlen_cons; pose proof (zlen_nonneg nal); lia]. Qed.

(** [nal_ok] as a test. *)
Lemma nal_okb nal :
  match nal with [] => false | _ => true end && negb (byte_at nal (zlen nal - 1) =? 0)
  && forallb (fun k => let i := Z.of_nat k in
       negb ((byte_at nal i =? 0) && (byte_at nal (i + 1) =? 0) && (byte_at nal (i + 2) =? 1)))
     (seq 0 (length nal)) = true -> nal_ok nal.
Proof.
  rewrite !andb_true_iff, negb_true_iff, Z.eqb_neq, forallb_forall; intros ((H1 & H2) & H3).
  constructor; [by destruct nal|done|]; intros i H0 Hi (E1 & E2 & E3).
  specialize (H3 (Z.to_nat i)); cbn zeta in H3; rewrite Z2Nat.id, E1, E2, E3 in H3 by lia.
  discriminate H3; apply in_seq; unfold zlen in Hi; lia.
Qed.

End bytes_at.
