(* ===== verification/RtpH265.v ===== *)
(** [rx/rtp_h265.c]: from Annex B access units to RTP packets (RFC 7798):
    the NAL scan, single-NAL packets and Fragmentation Units. *)

From S2P Require Import Prelude AnnexB.
#[local] Open Scope Z_scope.

Definition RTP_VERSION2 : Z := 0x80.
Definition RTP_PT_H265 : Z := 96.
Definition RTP_HDR_LEN : Z := 12.
Definition H265_NAL_FU : Z := 49.
Definition RTP_SEND_BUF_MAX : Z := RTP_HDR_LEN + 3 + 8192.

(** [rtp_h265_ctx_t]; the socket is the state of the [send] parameter below. *)
Record rtp_ctx := mk_rtp {
  rtp_ssrc : Z;
  rtp_seq : Z;
  rtp_max_payload : Z
}.

(** [r1], [r2], [r3] are the three results of [rand()]. *)
Definition rtp_h265_init (r1 r2 r3 max_payload : Z) : rtp_ctx :=
  mk_rtp (Z.lxor (u32 (Z.shiftl (u32 r1) 16)) (u32 r2)) (u16 r3)
    (if 8192 <? max_payload then 8192 else max_payload).

Definition put_rtp_header (seq ts ssrc : Z) (marker : bool) : list Z :=
  [RTP_VERSION2; u8 (Z.lor (if marker then 0x80 else 0) (Z.land RTP_PT_H265 0x7F))]
  ++ be_enc 2 seq ++ be_enc 4 ts ++ be_enc 4 ssrc.

(** ** The NAL scan *)

(** First loop of [next_nal]: the first byte behind the next start code. *)
Fixpoint next_start (fuel : nat) (data : list Z) (i : Z) : option Z :=
  match fuel with
  | O => None
  | S fuel =>
      if u32 (i + 2) <? zlen data then
        if (byte_at data i =? 0) && (byte_at data (i + 1) =? 0) then
          if byte_at data (i + 2) =? 1 then Some (i + 3)
          else if (u32 (i + 3) <? zlen data) && (byte_at data (i + 2) =? 0) && (byte_at data (i + 3) =? 1)
          then Some (i + 4)
          else next_start fuel data (u32 (i + 1))
        else next_start fuel data (u32 (i + 1))
      else None
  end.

(** Second loop: where the next start code begins, or the end of the data. *)
Fixpoint next_end (fuel : nat) (data : list Z) (j : Z) : Z :=
  match fuel with
  | O => zlen data
  | S fuel =>
      if u32 (j + 2) <? zlen data then
        if (byte_at data j =? 0) && (byte_at data (j + 1) =? 0)
           && ((byte_at data (j + 2) =? 1)
               || ((u32 (j + 3) <? zlen data) && (byte_at data (j + 2) =? 0) && (byte_at data (j + 3) =? 1)))
        then j
        else next_end fuel data (u32 (j + 1))
      else zlen data
  end.

(** [Some (nal, from)] for the C result 1. *)
Definition next_nal (data : list Z) (from : Z) : option (list Z * Z) :=
  match next_start (S (length data)) data from with
  | None => None
  | Some start =>
      let fin := next_end (S (length data)) data start in
      if fin <=? start then None
      else Some (zslice start (u32 (fin - start)) data, fin)
  end.

Fixpoint has_vcl_loop (fuel : nat) (data : list Z) (cursor : Z) : bool :=
  match fuel with
  | O => false
  | S fuel =>
      match next_nal data cursor with
      | None => false
      | Some (nal, cursor) =>
          if Z.land (Z.shiftr (byte_at nal 0) 1) 0x3F <=? 31 then true
          else has_vcl_loop fuel data cursor
      end
  end.

Definition rtp_h265_has_vcl (annexb : list Z) : bool := has_vcl_loop (S (length annexb)) annexb 0.

(** The offset table: at most [k] further NALs. *)
Fixpoint collect_nals (k : nat) (data : list Z) (cursor : Z) : list (list Z) :=
  match k with
  | O => []
  | S k =>
      match next_nal data cursor with
      | None => []
      | Some (nal, cursor) => nal :: collect_nals k data cursor
      end
  end.

(** ** Sending *)

Section send.
(** [send(2)] on the connected socket: its result and the socket behind it. *)
Context {W : Type} (send : W -> list Z -> Z * W).

Definition send_packet (ctx : rtp_ctx) (payload_a payload_b : list Z) (ts : Z) (marker : bool) (w : W)
    : Z * rtp_ctx * W :=
  if RTP_SEND_BUF_MAX <? u32 (u32 (RTP_HDR_LEN + zlen payload_a) + zlen payload_b) then (-1, ctx, w)
  else
    let '(wr, w) := send w (put_rtp_header (rtp_seq ctx) ts (rtp_ssrc ctx) marker ++ payload_a ++ payload_b) in
    (if wr <? 0 then -1 else 0,
     mk_rtp (rtp_ssrc ctx) (u16 (rtp_seq ctx + 1)) (rtp_max_payload ctx), w).

(** The three bytes in front of a fragment. *)
Definition fu_prefix (nal_hdr0 nal_hdr1 : Z) (start fin : bool) : list Z :=
  let nal_type := u8 (Z.land (Z.shiftr nal_hdr0 1) 0x3F) in
  [u8 (Z.lor (Z.land nal_hdr0 0x81) (Z.shiftl (Z.land H265_NAL_FU 0x3F) 1)); nal_hdr1;
   u8 (Z.lor (Z.lor (Z.shiftl (bool_int start) 7) (Z.shiftl (bool_int fin) 6)) (Z.land nal_type 0x3F))].

(** The [while] over the fragments of one NAL. *)
Fixpoint fu_loop (fuel : nat) (ctx : rtp_ctx) (h0 h1 : Z) (body : list Z) (max_frag off : Z)
    (is_last_nal : bool) (ts packets : Z) (w : W) : Z * rtp_ctx * W :=
  match fuel with
  | O => (packets, ctx, w)
  | S fuel =>
      if off <? zlen body then
        let frag_len0 := u32 (zlen body - off) in
        let frag_len := if max_frag <? frag_len0 then max_frag else frag_len0 in
        let start := off =? 0 in
        let fin := zlen body <=? u32 (off + frag_len) in
        let '(ret, ctx, w) := send_packet ctx (fu_prefix h0 h1 start fin) (zslice off frag_len body) ts
                                (is_last_nal && fin) w in
        fu_loop fuel ctx h0 h1 body max_frag (u32 (off + frag_len)) is_last_nal ts
          (if ret =? 0 then packets + 1 else packets) w
      else (packets, ctx, w)
  end.

(** The [for] over the NALs; [last] tells whether the list's last one ends the
    access unit. *)
Fixpoint nal_loop (ctx : rtp_ctx) (nals : list (list Z)) (max_frag : Z) (au_end : bool) (ts packets : Z) (w : W)
    : Z * rtp_ctx * W :=
  match nals with
  | [] => (packets, ctx, w)
  | p :: nals =>
      let is_last_nal := au_end && (match nals with [] => true | _ => false end) in
      if zlen p <? 2 then nal_loop ctx nals max_frag au_end ts packets w
      else if zlen p <=? rtp_max_payload ctx then
        let '(ret, ctx, w) := send_packet ctx p [] ts is_last_nal w in
        nal_loop ctx nals max_frag au_end ts (if ret =? 0 then packets + 1 else packets) w
      else
        let body := zdrop 2 p in
        let '(packets, ctx, w) := fu_loop (S (length body)) ctx (byte_at p 0) (byte_at p 1) body max_frag 0
                                    is_last_nal ts packets w in
        nal_loop ctx nals max_frag au_end ts packets w
  end.

Definition rtp_h265_send_nals (ctx : rtp_ctx) (annexb : list Z) (rtp_ts_90k : Z) (au_end : bool) (w : W)
    : Z * rtp_ctx * W :=
  let nals := collect_nals 256 annexb 0 in
  match nals with
  | [] => (-1, ctx, w)
  | _ =>
      let max_frag := if 3 <? rtp_max_payload ctx then u16 (rtp_max_payload ctx - 3) else 1 in
      nal_loop ctx nals max_frag au_end rtp_ts_90k 0 w
  end.

Definition rtp_h265_send_frame (ctx : rtp_ctx) (annexb : list Z) (rtp_ts_90k : Z) (w : W) : Z * rtp_ctx * W :=
  rtp_h265_send_nals ctx annexb rtp_ts_90k true w.
End send.

(** ** The scan finds the NAL units *)

Section scan.
Context (data : list Z).
Hypothesis Hlen : zlen data < 2 ^ 31.

Lemma next_start_spec fuel i k n :
  0 <= i <= k -> (forall j, i <= j < k -> sc_at data j = None) -> sc_at data k = Some n ->
  (Z.to_nat (k - i) < fuel)%nat -> next_start fuel data i = Some (k + n).
Proof using Hlen.
  revert i; induction fuel as [|fuel IH]; intros i Hi Hnone Hk Hf; [lia|].
  cbn [next_start]; assert (k + 2 < zlen data) as Hkl.
  { unfold sc_at in Hk; destruct (k + 2 <? zlen data) eqn:E; [lia|done]. }
  unwrap; rewrite (proj2 (Z.ltb_lt (i + 2) _)) by lia.
  destruct (Z.eq_dec i k) as [->|Hne].
  - unfold sc_at in Hk; rewrite (proj2 (Z.ltb_lt (k + 2) _)) in Hk by lia; cbn [andb] in Hk.
    destruct (byte_at data k =? 0); cbn [andb] in *; [|done].
    destruct (byte_at data (k + 1) =? 0); [|done].
    destruct (byte_at data (k + 2) =? 1); [by injection Hk as <-|].
    destruct (_ && _ && _); [by injection Hk as <-|done].
  - assert (Hrec : next_start fuel data (i + 1) = Some (k + n)).
    { apply IH; [lia|intros j Hj; apply Hnone; lia|done|lia]. }
    pose proof (Hnone i ltac:(lia)) as Hi0; unfold sc_at in Hi0.
    rewrite (proj2 (Z.ltb_lt (i + 2) _)) in Hi0 by lia; cbn [andb] in Hi0.
    destruct (byte_at data i =? 0); cbn [andb] in *; [|done].
    destruct (byte_at data (i + 1) =? 0); [|done].
    destruct (byte_at data (i + 2) =? 1); [done|]; destruct (_ && _ && _); done.
Qed.

Lemma next_start_none fuel i :
  0 <= i <= zlen data -> (forall j, i <= j -> sc_at data j = None) -> next_start fuel data i = None.
Proof using Hlen.
  revert i; induction fuel as [|fuel IH]; intros i Hi Hnone; [done|]; cbn [next_start].
  rewrite u32_id by lia; destruct (i + 2 <? zlen data) eqn:E; [|done]; bool_to_prop.
  assert (Hrec : next_start fuel data (i + 1) = None) by (apply IH; [lia|intros; apply Hnone; lia]).
  unwrap; pose proof (Hnone i ltac:(lia)) as Hi0; unfold sc_at in Hi0.
  rewrite (proj2 (Z.ltb_lt (i + 2) _)) in Hi0 by lia; cbn [andb] in Hi0.
  destruct (byte_at data i =? 0); cbn [andb] in *; [|done].
  destruct (byte_at data (i + 1) =? 0); [|done].
  destruct (byte_at data (i + 2) =? 1); [done|]; destruct (_ && _ && _); done.
Qed.

Lemma next_end_step i :
  0 <= i -> i + 2 < zlen data ->
  (byte_at data i =? 0) && (byte_at data (i + 1) =? 0)
  && ((byte_at data (i + 2) =? 1)
      || ((u32 (i + 3) <? zlen data) && (byte_at data (i + 2) =? 0) && (byte_at data (i + 3) =? 1)))
  = match sc_at data i with Some _ => true | None => false end.
Proof using Hlen.
  intros H0 Hi; unwrap; unfold sc_at; rewrite (proj2 (Z.ltb_lt (i + 2) _)) by lia; cbn [andb].
  destruct (byte_at data i =? 0), (byte_at data (i + 1) =? 0), (byte_at data (i + 2) =? 1); try done; cbn [andb orb].
  by destruct ((i + 3 <? zlen data) && _ && _).
Qed.

Lemma next_end_spec fuel i k :
  0 <= i <= k -> (forall j, i <= j < k -> sc_at data j = None) ->
  k = zlen data \/ (k + 2 < zlen data /\ sc_at data k <> None) ->
  (Z.to_nat (k - i) < fuel)%nat -> next_end fuel data i = k.
Proof using Hlen.
  revert i; induction fuel as [|fuel IH]; intros i Hi Hnone Hk Hf; [lia|]; cbn [next_end].
  rewrite u32_id by lia; destruct (i + 2 <? zlen data) eqn:E; bool_to_prop; [|lia].
  rewrite next_end_step by lia; destruct (Z.eq_dec i k) as [->|Hne].
  - destruct Hk as [?|[_ Hk]]; [lia|]; by destruct (sc_at data k).
  - rewrite Hnone by lia; rewrite u32_id by lia; apply IH; [lia|intros; apply Hnone; lia|done|lia].
Qed.
End scan.

Lemma sc_at_lt data i n : sc_at data i = Some n -> i + 2 < zlen data.
Proof. unfold sc_at; destruct (i + 2 <? zlen data) eqn:E; [bool_to_prop; lia|done]. Qed.

(** One step of the scan over a stream of NAL units. *)
Lemma next_nal_annexb pre b nal nals :
  zlen (pre ++ annexb ((b, nal) :: nals)) < 2 ^ 31 -> nal_ok nal ->
  next_nal (pre ++ annexb ((b, nal) :: nals)) (zlen pre)
  = Some (nal, zlen (pre ++ (if b : bool then long_sc else short_sc) ++ nal)).
Proof.
  intros Hlen Hn; set (sc := if b then long_sc else short_sc); pose proof (nal_ok_pos _ Hn).
  assert (E : pre ++ annexb ((b, nal) :: nals) = (pre ++ sc) ++ nal ++ annexb nals).
  { unfold annexb; cbn [fmap list_fmap concat fst snd]; fold sc; by rewrite <- !app_assoc. }
  assert (Hsc : exists n, sc_at (pre ++ annexb ((b, nal) :: nals)) (zlen pre) = Some n /\ n = zlen sc).
  { pose proof (sc_at_app_r pre (annexb ((b, nal) :: nals)) 0 ltac:(lia)) as Ea; rewrite Z.add_0_r in Ea; rewrite Ea.
    unfold annexb; cbn [fmap list_fmap concat fst snd]; rewrite <- app_assoc; subst sc; destruct b;
      [exists 4|exists 3]; split; try done; [apply sc_at_long|apply sc_at_short]. }
  destruct Hsc as (n & Hsc & ->); pose proof (zlen_nonneg pre); pose proof (zlen_nonneg (annexb nals)).
  set (data := pre ++ annexb ((b, nal) :: nals)) in *.
  assert (Hz : zlen data = zlen pre + zlen sc + zlen nal + zlen (annexb nals)) by (rewrite E, !zlen_app; lia).
  assert (3 <= zlen sc) by (subst sc; destruct b; done).
  unfold next_nal; rewrite (next_start_spec data Hlen _ (zlen pre) (zlen pre) (zlen sc)); try done; try lia.
  assert (Hend : next_end (S (length data)) data (zlen pre + zlen sc) = zlen pre + zlen sc + zlen nal).
  { apply next_end_spec; try done; try lia.
    - intros j Hj; rewrite E; apply sc_at_inside; [done|]; rewrite zlen_app; lia.
    - destruct nals as [|nl nals]; [left; rewrite Hz; unfold annexb; cbn; change (zlen (@nil Z)) with 0; lia|right].
      destruct (sc_at_next (pre ++ sc ++ nal) (annexb (nl :: nals)) (annexb_starts _)) as (n & Hs & Hnb).
      { destruct nl as [[] ?]; done. }
      replace (zlen (pre ++ sc ++ nal)) with (zlen pre + zlen sc + zlen nal) in Hs by (rewrite !zlen_app; lia).
      replace ((pre ++ sc ++ nal) ++ annexb (nl :: nals)) with data in Hs by (rewrite E, <- !app_assoc; done).
      split; [by apply sc_at_lt in Hs|by rewrite Hs].
    - unfold zlen in *; lia. }
  rewrite Hend, (proj2 (Z.leb_gt _ _)) by lia; f_equal; f_equal; [|rewrite !zlen_app; lia].
  rewrite u32_id by lia; rewrite E; apply zslice_mid; [rewrite zlen_app; lia|lia].
Qed.

Lemma next_nal_nil pre : zlen pre < 2 ^ 31 -> next_nal (pre ++ annexb []) (zlen pre) = None.
Proof.
  intros Hlen; unfold annexb; cbn; rewrite app_nil_r; pose proof (zlen_nonneg pre).
  unfold next_nal; rewrite next_start_none; [done|done|lia|]; intros j Hj.
  destruct (sc_at pre j) eqn:E; [apply sc_at_lt in E; lia|done].
Qed.

(** The offset table holds the stream's NAL units, at most 256 of them. *)
Lemma collect_nals_annexb k nals pre :
  zlen (pre ++ annexb nals) < 2 ^ 31 -> Forall (fun n => nal_ok n.2) nals ->
  collect_nals k (pre ++ annexb nals) (zlen pre) = take k (snd <$> nals).
Proof.
  intros Hlen Hns; revert pre k Hlen; induction Hns as [|[b nal] nals Hn Hns IH]; intros pre k Hlen.
  - destruct k; cbn [collect_nals]; [done|]; rewrite next_nal_nil; [done|]; rewrite zlen_app in Hlen.
    pose proof (zlen_nonneg (annexb [])); lia.
  - destruct k as [|k]; cbn [collect_nals]; [done|]; rewrite next_nal_annexb by done.
    cbn [fmap list_fmap take fst snd]; f_equal; set (sc := if b then long_sc else short_sc) in *.
    assert (E : pre ++ annexb ((b, nal) :: nals) = (pre ++ sc ++ nal) ++ annexb nals).
    { unfold annexb; cbn [fmap list_fmap concat fst snd]; fold sc; by rewrite <- !app_assoc. }
    rewrite E in *; by apply IH.
Qed.

(** ** Reference packetisation

    The payloads and marker bits of an access unit, as RFC 7798 lays them
    out, and what a receiver makes of a run of payloads. *)

Fixpoint fu_frags (fuel : nat) (h0 h1 : Z) (max_frag : Z) (is_last start : bool) (body : list Z)
    : list (list Z * bool) :=
  match fuel, body with
  | S fuel, _ :: _ =>
      let rest := zdrop max_frag body in
      let fin := match rest with [] => true | _ => false end in
      (fu_prefix h0 h1 start fin ++ ztake max_frag body, is_last && fin)
      :: fu_frags fuel h0 h1 max_frag is_last false rest
  | _, _ => []
  end.

Definition nal_packets (max_payload max_frag : Z) (is_last : bool) (nal : list Z) : list (list Z * bool) :=
  if zlen nal <=? max_payload then [(nal, is_last)]
  else fu_frags (S (length (zdrop 2 nal))) (byte_at nal 0) (byte_at nal 1) max_frag is_last true (zdrop 2 nal).

Fixpoint au_packets (max_payload max_frag : Z) (au_end : bool) (nals : list (list Z)) : list (list Z * bool) :=
  match nals with
  | [] => []
  | nal :: nals =>
      nal_packets max_payload max_frag (au_end && match nals with [] => true | _ => false end) nal
      ++ au_packets max_payload max_frag au_end nals
  end.

(** The datagrams: RTP headers with consecutive sequence numbers. *)
Definition datagrams (seq0 ts ssrc : Z) (ps : list (list Z * bool)) : list (list Z) :=
  imap (fun k p => put_rtp_header (u16 (seq0 + Z.of_nat k)) ts ssrc p.2 ++ p.1) ps.

(** A receiver: the NAL units complete so far, and the one in fragments. *)
Definition depay_state := (list (list Z) * option (list Z))%type.

Definition depay (s : depay_state) (payload : list Z) : depay_state :=
  let ty := Z.land (Z.shiftr (byte_at payload 0) 1) 0x3F in
  if ty =? H265_NAL_FU then
    let fu := byte_at payload 2 in
    let hdr := [Z.lor (Z.land (byte_at payload 0) 0x81) (Z.shiftl (Z.land fu 0x3F) 1); byte_at payload 1] in
    let partial := if Z.testbit fu 7 then Some hdr else s.2 in
    match partial with
    | None => (s.1, None)
    | Some p =>
        let p := p ++ zdrop 3 payload in
        if Z.testbit fu 6 then (s.1 ++ [p], None) else (s.1, Some p)
    end
  else (s.1 ++ [payload], None).

Definition rtp_marker (pkt : list Z) : bool := Z.testbit (byte_at pkt 1) 7.
Definition rtp_payload (pkt : list Z) : list Z := zdrop RTP_HDR_LEN pkt.

(** A socket that takes every datagram. *)
Definition wire_send (w : list (list Z)) (b : list Z) : Z * list (list Z) := (zlen b, w ++ [b]).

(** A NAL unit of the video stream: a two-byte header of a type that is not
    one of the RTP payload structures'. *)
Definition video_nal (nal : list Z) : Prop :=
  bytes_ok nal /\ 2 <= zlen nal /\ Z.land (Z.shiftr (byte_at nal 0) 1) 0x3F < 48.

Section packets.

Lemma zlen_rtp_header seq ts ssrc marker : zlen (put_rtp_header seq ts ssrc marker) = RTP_HDR_LEN.
Proof. done. Qed.

Lemma rtp_payload_of seq ts ssrc marker p : rtp_payload (put_rtp_header seq ts ssrc marker ++ p) = p.
Proof. by apply zdrop_app. Qed.

Lemma rtp_marker_of seq ts ssrc marker p : rtp_marker (put_rtp_header seq ts ssrc marker ++ p) = marker.
Proof. by destruct marker. Qed.

Lemma send_packet_wire ctx a b ts marker w :
  RTP_HDR_LEN + zlen a + zlen b <= RTP_SEND_BUF_MAX ->
  send_packet wire_send ctx a b ts marker w
  = (0, mk_rtp (rtp_ssrc ctx) (u16 (rtp_seq ctx + 1)) (rtp_max_payload ctx),
     w ++ [put_rtp_header (rtp_seq ctx) ts (rtp_ssrc ctx) marker ++ a ++ b]).
Proof.
  unfold RTP_SEND_BUF_MAX, RTP_HDR_LEN; intros Hl; pose proof (zlen_nonneg a); pose proof (zlen_nonneg b).
  unfold send_packet, RTP_SEND_BUF_MAX, RTP_HDR_LEN; rewrite (u32_id (12 + _)), u32_id by lia.
  rewrite (proj2 (Z.ltb_ge _ _)) by lia; unfold wire_send.
  set (p := put_rtp_header _ _ _ _ ++ _); pose proof (zlen_nonneg p).
  by rewrite (proj2 (Z.ltb_ge _ _)) by lia.
Qed.

Lemma u16_seq s k : u16 (u16 (s + 1) + k) = u16 (s + (1 + k)).
Proof. unfold u16; rewrite Zplus_mod_idemp_l; f_equal; lia. Qed.

Lemma datagrams_cons s ts ssrc p ps :
  0 <= s < 65536 ->
  datagrams s ts ssrc (p :: ps) = (put_rtp_header s ts ssrc p.2 ++ p.1) :: datagrams (u16 (s + 1)) ts ssrc ps.
Proof.
  intros Hs; unfold datagrams; cbn [imap]; f_equal; [by rewrite Z.add_0_r, u16_id|].
  apply imap_ext; intros k x _; unfold compose; rewrite u16_seq.
  by replace (s + (1 + Z.of_nat k)) with (s + Z.of_nat (S k)) by lia.
Qed.

Lemma datagrams_app s ts ssrc ps qs :
  0 <= s < 65536 ->
  datagrams s ts ssrc (ps ++ qs) = datagrams s ts ssrc ps ++ datagrams (u16 (s + zlen ps)) ts ssrc qs.
Proof.
  intros Hs; unfold datagrams; rewrite imap_app; f_equal; apply imap_ext; intros k x _; unfold compose.
  replace (u16 (u16 (s + zlen ps) + Z.of_nat k)) with (u16 (s + Z.of_nat (length ps + k))); [done|].
  unfold u16, zlen; rewrite Zplus_mod_idemp_l; f_equal; lia.
Qed.

(** The loop over fragments sends the reference's fragments. *)
Lemma fu_loop_wire fuel ctx h0 h1 body mf off is_last ts packets w :
  0 <= rtp_seq ctx < 65536 -> 0 < mf <= 8192 -> 0 <= off -> zlen body < 2 ^ 31 ->
  (length body < fuel + Z.to_nat off)%nat ->
  let ps := fu_frags fuel h0 h1 mf is_last (off =? 0) (zdrop off body) in
  fu_loop wire_send fuel ctx h0 h1 body mf off is_last ts packets w
  = (packets + zlen ps, mk_rtp (rtp_ssrc ctx) (u16 (rtp_seq ctx + zlen ps)) (rtp_max_payload ctx),
     w ++ datagrams (rtp_seq ctx) ts (rtp_ssrc ctx) ps).
Proof.
  revert ctx off packets w; induction fuel as [|fuel IH]; intros ctx off packets w Hs Hmf Hoff Hb Hf ps.
  - subst ps; cbn; rewrite app_nil_r, Z.add_0_r, Z.add_0_r, u16_id by done; by destruct ctx.
  - cbn [fu_loop]; destruct (off <? zlen body) eqn:E; bool_to_prop; cycle 1.
    { subst ps; rewrite zdrop_all by done; cbn; rewrite app_nil_r, Z.add_0_r, Z.add_0_r, u16_id by done.
      by destruct ctx. }
    rewrite (u32_id (zlen body - off)) by lia.
    set (fl := if mf <? _ then _ else _); assert (Hfl : fl = Z.min mf (zlen body - off)) by (subst fl; if_cases; lia).
    rewrite u32_id by lia; rewrite send_packet_wire.
    2:{ unfold RTP_SEND_BUF_MAX, RTP_HDR_LEN; change (zlen (fu_prefix _ _ _ _)) with 3; rewrite zlen_slice; lia. }
    assert (Hrest : zdrop mf (zdrop off body) = zdrop (off + fl) body).
    { rewrite zdrop_zdrop by lia; destruct (Z.le_gt_cases mf (zlen body - off)).
      - by replace fl with mf by lia.
      - rewrite !zdrop_all by lia; done. }
    assert (Htake : zslice off fl body = ztake mf (zdrop off body)).
    { unfold zslice; destruct (Z.le_gt_cases mf (zlen body - off)); [by replace fl with mf by lia|].
      rewrite !ztake_all by (rewrite zlen_drop; lia); done. }
    assert (Hfin : (zlen body <=? off + fl) = match zdrop (off + fl) body with [] => true | _ => false end).
    { destruct (zdrop (off + fl) body) as [|x l] eqn:Ed; apply (f_equal zlen) in Ed;
        rewrite zlen_drop in Ed by lia.
      - change (zlen (@nil Z)) with 0 in Ed; lia.
      - rewrite zlen_cons in Ed; pose proof (zlen_nonneg l); lia. }
    cbn [Z.eqb]; rewrite IH; cbn [rtp_seq rtp_ssrc rtp_max_payload]; try done; try lia;
      [|apply u16_range].
    subst ps; destruct (zdrop off body) as [|x l] eqn:Ed.
    { apply (f_equal zlen) in Ed; rewrite zlen_drop in Ed by lia; change (zlen (@nil Z)) with 0 in Ed; lia. }
    cbn [fu_frags]; rewrite Hrest, <- Hfin, Htake, (proj2 (Z.eqb_neq (off + fl) 0)) by lia.
    rewrite datagrams_cons, zlen_cons, u16_seq by done; cbn [fst snd].
    rewrite <- app_assoc; f_equal; f_equal; lia.
Qed.

Lemma nal_loop_wire nals : forall ctx mp mf au_end ts packets w,
  0 <= rtp_seq ctx < 65536 -> rtp_max_payload ctx = mp -> mp <= 8192 -> 0 < mf <= 8192 ->
  Forall (fun n => 2 <= zlen n < 2 ^ 31) nals ->
  let ps := au_packets mp mf au_end nals in
  nal_loop wire_send ctx nals mf au_end ts packets w
  = (packets + zlen ps, mk_rtp (rtp_ssrc ctx) (u16 (rtp_seq ctx + zlen ps)) mp,
     w ++ datagrams (rtp_seq ctx) ts (rtp_ssrc ctx) ps).
Proof.
  induction nals as [|p nals IH]; intros ctx mp mf au_end ts packets w Hs Hmp H8 Hmf Hns ps.
  - subst ps; cbn; rewrite app_nil_r, Z.add_0_r, Z.add_0_r, u16_id by done; subst mp; by destruct ctx.
  - apply Forall_cons_1 in Hns as [Hp Hns]; subst ps; cbn [nal_loop au_packets].
    rewrite (proj2 (Z.ltb_ge _ _)) by lia; unfold nal_packets; rewrite Hmp.
    set (last := au_end && _); destruct (zlen p <=? mp) eqn:E; bool_to_prop.
    + rewrite send_packet_wire by (unfold RTP_SEND_BUF_MAX, RTP_HDR_LEN; change (zlen (@nil Z)) with 0; lia).
      cbn [Z.eqb]; rewrite (IH _ mp); cbn [rtp_seq rtp_ssrc rtp_max_payload]; try done; [|apply u16_range].
      rewrite app_nil_r; cbn [app]; rewrite datagrams_cons, zlen_cons, u16_seq by done.
      cbn [fst snd]; rewrite <- app_assoc; f_equal; f_equal; lia.
    + rewrite fu_loop_wire; try done; try lia.
      2:{ unfold zdrop, zlen in *; rewrite length_drop; lia. }
      set (ps := fu_frags _ _ _ _ _ _ _); rewrite (IH _ mp); cbn [rtp_seq rtp_ssrc rtp_max_payload]; try done;
        [|apply u16_range].
      rewrite datagrams_app, zlen_app, <- app_assoc by done.
      assert (Hu : u16 (u16 (rtp_seq ctx + zlen ps) + zlen (au_packets mp mf au_end nals))
                   = u16 (rtp_seq ctx + (zlen ps + zlen (au_packets mp mf au_end nals)))).
      { unfold u16; rewrite Zplus_mod_idemp_l; f_equal; lia. }
      rewrite Hu; f_equal; f_equal; lia.
Qed.

(** The three prefix bytes carry the NAL header and the position. *)
Lemma fu_prefix_byte0 h0 :
  0 <= h0 < 256 -> Z.land (Z.shiftr h0 1) 0x3F < 48 ->
  let b := u8 (Z.lor (Z.land h0 0x81) (Z.shiftl (Z.land H265_NAL_FU 0x3F) 1)) in
  Z.land (Z.shiftr b 1) 0x3F = H265_NAL_FU /\
  forall start fin, let fu := byte_at (fu_prefix h0 0 start fin) 2 in
    Z.lor (Z.land b 0x81) (Z.shiftl (Z.land fu 0x3F) 1) = h0 /\ Z.testbit fu 7 = start /\ Z.testbit fu 6 = fin.
Proof.
  intros Hh _ b; assert (H : forall n : nat, (n < 256)%nat ->
    (let h0 := Z.of_nat n in let b := u8 (Z.lor (Z.land h0 0x81) (Z.shiftl (Z.land H265_NAL_FU 0x3F) 1)) in
     (Z.land (Z.shiftr b 1) 0x3F =? H265_NAL_FU) &&
     forallb (fun sf : bool * bool => let fu := byte_at (fu_prefix h0 0 sf.1 sf.2) 2 in
       (Z.lor (Z.land b 0x81) (Z.shiftl (Z.land fu 0x3F) 1) =? h0) && Bool.eqb (Z.testbit fu 7) sf.1
       && Bool.eqb (Z.testbit fu 6) sf.2) [(true, true); (true, false); (false, true); (false, false)]) = true).
  { intros n Hn; assert (Hall : forallb (fun n => let h0 := Z.of_nat n in
      let b := u8 (Z.lor (Z.land h0 0x81) (Z.shiftl (Z.land H265_NAL_FU 0x3F) 1)) in
      (Z.land (Z.shiftr b 1) 0x3F =? H265_NAL_FU) &&
      forallb (fun sf : bool * bool => let fu := byte_at (fu_prefix h0 0 sf.1 sf.2) 2 in
       (Z.lor (Z.land b 0x81) (Z.shiftl (Z.land fu 0x3F) 1) =? h0) && Bool.eqb (Z.testbit fu 7) sf.1
       && Bool.eqb (Z.testbit fu 6) sf.2) [(true, true); (true, false); (false, true); (false, false)])
      (seq 0 256) = true) by (vm_compute; reflexivity).
    rewrite forallb_forall in Hall; apply Hall, in_seq; lia. }
  specialize (H (Z.to_nat h0) ltac:(lia)); cbn zeta in H; rewrite Z2Nat.id in H by lia.
  apply andb_true_iff in H as [H1 H2]; apply Z.eqb_eq in H1; split; [done|]; intros start fin fu.
  rewrite forallb_forall in H2; specialize (H2 (start, fin)); cbn [fst snd] in H2; fold b fu in H2.
  assert (Hin : In (start, fin) [(true, true); (true, false); (false, true); (false, false)])
    by (destruct start, fin; simpl; auto).
  specialize (H2 Hin); rewrite !andb_true_iff, !eqb_true_iff, Z.eqb_eq in H2; tauto.
Qed.

Lemma depay_fu h0 h1 start fin frag s :
  0 <= h0 < 256 -> Z.land (Z.shiftr h0 1) 0x3F < 48 ->
  depay s (fu_prefix h0 h1 start fin ++ frag)
  = match (if start then Some [h0; h1] else s.2) with
    | None => (s.1, None)
    | Some p => if fin then (s.1 ++ [p ++ frag], None) else (s.1, Some (p ++ frag))
    end.
Proof.
  intros Hh Ht; destruct (fu_prefix_byte0 h0 Hh Ht) as [H1 H2]; destruct (H2 start fin) as (H3 & H4 & H5).
  unfold depay; set (pl := fu_prefix h0 h1 start fin ++ frag).
  change (byte_at pl 0) with (u8 (Z.lor (Z.land h0 0x81) (Z.shiftl (Z.land H265_NAL_FU 0x3F) 1))).
  change (byte_at pl 1) with h1; change (zdrop 3 pl) with frag.
  change (byte_at pl 2) with (byte_at (fu_prefix h0 0 start fin) 2).
  by rewrite H1, Z.eqb_refl, H3, H4, H5.
Qed.

(** Fragments put back together. *)
Lemma fu_frags_depay fuel h0 h1 mf is_last start body done_ acc :
  0 <= h0 < 256 -> Z.land (Z.shiftr h0 1) 0x3F < 48 -> 0 < mf -> body <> [] -> (length body < fuel)%nat ->
  (start = false -> is_Some acc) ->
  fold_left depay (fst <$> fu_frags fuel h0 h1 mf is_last start body) (done_, acc)
  = (done_ ++ [(if start then [h0; h1] else default [] acc) ++ body], None).
Proof.
  intros Hh Ht Hmf; revert start body acc; induction fuel as [|fuel IH]; intros start body acc Hb Hf Ha; [lia|].
  destruct body as [|x body]; [done|]; cbn [fu_frags]; set (b := x :: body) in *.
  cbn [fmap list_fmap fst fold_left]; rewrite depay_fu by done; cbn [fst snd].
  assert (Hp : (if start then Some [h0; h1] else acc) = Some (if start then [h0; h1] else default [] acc)).
  { destruct start; [done|]; destruct (Ha eq_refl) as [p ->]; done. }
  rewrite Hp; pose proof (ztake_drop mf b) as Hsplit.
  destruct (zdrop mf b) as [|y rest] eqn:Er.
  - rewrite app_nil_r in Hsplit; rewrite Hsplit; by destruct fuel.
  - rewrite IH; [|done| |by eexists].
    + cbn [default from_option]; unfold id; by rewrite <- (app_assoc _ _ (y :: rest)), Hsplit.
    + apply (f_equal length) in Er; unfold zdrop in Er; rewrite length_drop in Er; subst b; simpl in *; lia.
Qed.

Lemma fu_frags_shape fuel h0 h1 mf is_last start body :
  0 < mf -> body <> [] -> (length body < fuel)%nat ->
  let ps := fu_frags fuel h0 h1 mf is_last start body in
  Forall (fun p => 0 < zlen p.1 <= mf + 3) ps /\
  exists k, snd <$> ps = replicate k false ++ [is_last].
Proof.
  intros Hmf; revert start body; induction fuel as [|fuel IH]; intros start body Hb Hf ps; [lia|].
  destruct body as [|x body]; [done|]; subst ps; cbn [fu_frags]; set (b := x :: body) in *.
  assert (Hz : zlen (fu_prefix h0 h1 start (match zdrop mf b with [] => true | _ => false end) ++ ztake mf b) <= mf + 3).
  { rewrite zlen_app; change (zlen (fu_prefix _ _ _ _)) with 3; unfold ztake, zlen; rewrite length_take; lia. }
  destruct (zdrop mf b) as [|y rest] eqn:Er.
  - replace (fu_frags fuel h0 h1 mf is_last false []) with (@nil (list Z * bool)) by (by destruct fuel).
    split; [|exists O; cbn; by rewrite andb_true_r]; constructor; [|constructor]; split; [|exact Hz].
    cbn [fst]; rewrite zlen_app; pose proof (zlen_nonneg (ztake mf b)); change (zlen (fu_prefix _ _ _ _)) with 3; lia.
  - destruct (IH false (y :: rest)) as [H1 (k & H2)]; [done| |].
    { apply (f_equal length) in Er; unfold zdrop in Er; rewrite length_drop in Er; subst b; simpl in *; lia. }
    split.
    + constructor; [|exact H1]; split; [|exact Hz]; cbn [fst]; rewrite zlen_app.
      pose proof (zlen_nonneg (ztake mf b)); change (zlen (fu_prefix _ _ _ _)) with 3; lia.
    + exists (S k); cbn [fmap list_fmap replicate app snd]; rewrite H2, andb_false_r; done.
Qed.

Section au.
Context (mp : Z).
Hypothesis Hmp : 4 <= mp <= 8192.

Lemma nal_packets_ok is_last nal done_ :
  video_nal nal ->
  let ps := nal_packets mp (mp - 3) is_last nal in
  Forall (fun p => 0 < zlen p.1 <= mp) ps /\ (exists k, snd <$> ps = replicate k false ++ [is_last]) /\
  fold_left depay (fst <$> ps) (done_, None) = (done_ ++ [nal], None).
Proof using Hmp.
  intros (Hok & Hlen & Hty) ps; subst ps; unfold nal_packets; destruct (zlen nal <=? mp) eqn:E; bool_to_prop.
  - split_and!.
    + constructor; [cbn [fst]; lia|constructor].
    + by exists O.
    + cbn [fmap list_fmap fst fold_left]; unfold depay, H265_NAL_FU; by rewrite (proj2 (Z.eqb_neq _ _)) by lia.
  - assert (Hne : zdrop 2 nal <> []).
    { intros H; apply (f_equal zlen) in H; rewrite zlen_drop in H by lia; change (zlen (@nil Z)) with 0 in H; lia. }
    destruct (fu_frags_shape (S (length (zdrop 2 nal))) (byte_at nal 0) (byte_at nal 1) (mp - 3) is_last true (zdrop 2 nal)
      ltac:(lia) Hne ltac:(lia)) as [H1 H2].
    split_and!; [|done|].
    + eapply list.Forall_impl; [exact H1|]; cbn; lia.
    + pose proof (byte_at_ok nal 0 Hok) as Hb; unfold byte_ok in Hb.
      rewrite fu_frags_depay; try done; try lia.
      by destruct nal as [|a [|b nal]]; [done|unfold zlen in Hlen; simpl in Hlen; lia|].
Qed.

Lemma au_packets_ok au_end nals done_ :
  Forall video_nal nals ->
  let ps := au_packets mp (mp - 3) au_end nals in
  Forall (fun p => 0 < zlen p.1 <= mp) ps /\
  (nals <> [] -> exists k, snd <$> ps = replicate k false ++ [au_end]) /\
  fold_left depay (fst <$> ps) (done_, None) = (done_ ++ nals, None).
Proof using Hmp.
  intros Hns; revert done_; induction Hns as [|nal nals Hn Hns IH]; intros done_ ps.
  - subst ps; cbn; rewrite app_nil_r; by split_and!.
  - subst ps; cbn [au_packets]; set (last := au_end && _).
    destruct (nal_packets_ok last nal done_ Hn) as (H1 & (k & H2) & H3).
    destruct (IH (done_ ++ [nal])) as (H4 & H5 & H6); split_and!.
    + by apply Forall_app.
    + intros _; rewrite fmap_app, H2; subst last; destruct nals as [|n2 nals].
      * exists k; cbn; by rewrite andb_true_r, app_nil_r.
      * destruct (H5 ltac:(done)) as (k2 & ->); rewrite andb_false_r.
        exists (k + (1 + k2))%nat; rewrite !replicate_add, <- !app_assoc; done.
    + by rewrite fmap_app, fold_left_app, H3, H6, <- app_assoc.
Qed.
End au.

Lemma datagrams_lookup s ts ssrc ps k d :
  datagrams s ts ssrc ps !! k = Some d ->
  exists p, ps !! k = Some p /\ d = put_rtp_header (u16 (s + Z.of_nat k)) ts ssrc p.2 ++ p.1.
Proof.
  unfold datagrams; rewrite list_lookup_imap; destruct (ps !! k) as [p|]; cbn; [|done].
  intros [= <-]; by exists p.
Qed.

Lemma annexb_member nals n : n ∈ snd <$> nals -> zlen n <= zlen (annexb nals).
Proof.
  induction nals as [|[b x] nals IH]; [by intros ?%not_elem_of_nil|]; unfold annexb in *.
  cbn [fmap list_fmap concat snd fst]; rewrite !zlen_app; set (l := concat _) in *.
  set (sc := if b then long_sc else short_sc); pose proof (zlen_nonneg sc); pose proof (zlen_nonneg x).
  pose proof (zlen_nonneg l); intros [->|Hin]%elem_of_cons; [|specialize (IH Hin)]; lia.
Qed.

Lemma datagrams_views s ts ssrc ps :
  rtp_payload <$> datagrams s ts ssrc ps = fst <$> ps /\
  rtp_marker <$> datagrams s ts ssrc ps = snd <$> ps /\ zlen (datagrams s ts ssrc ps) = zlen ps.
Proof.
  unfold datagrams; split_and!; [..|by unfold zlen; rewrite length_imap];
    apply list_eq; intros k; rewrite !list_lookup_fmap, list_lookup_imap;
    destruct (ps !! k) as [p|]; cbn [fmap option_fmap option_map]; try done;
    by rewrite ?rtp_payload_of, ?rtp_marker_of.
Qed.

(** What one call puts on the wire. *)
Lemma send_nals_wire nals ctx ts au_end w :
  0 <= rtp_seq ctx < 65536 -> 4 <= rtp_max_payload ctx <= 8192 ->
  nals <> [] -> (length nals <= 256)%nat -> zlen (annexb nals) < 2 ^ 31 ->
  Forall (fun n => nal_ok n.2 /\ video_nal n.2) nals ->
  let ps := au_packets (rtp_max_payload ctx) (rtp_max_payload ctx - 3) au_end (snd <$> nals) in
  rtp_h265_send_nals wire_send ctx (annexb nals) ts au_end w
  = (zlen ps, mk_rtp (rtp_ssrc ctx) (u16 (rtp_seq ctx + zlen ps)) (rtp_max_payload ctx),
     w ++ datagrams (rtp_seq ctx) ts (rtp_ssrc ctx) ps).
Proof.
  intros Hs Hmp Hne Hcnt Hlen Hns ps.
  assert (Hnals : collect_nals 256 (annexb nals) 0 = snd <$> nals).
  { rewrite <- (app_nil_l (annexb nals)), <- (zlen_nil (A := Z)), collect_nals_annexb; try done.
    - apply take_ge; by rewrite length_fmap.
    - eapply list.Forall_impl; [exact Hns|]; intros n Hn; apply Hn. }
  assert (Hb : Forall (fun n => 2 <= zlen n < 2 ^ 31) (snd <$> nals)).
  { apply list.Forall_forall; intros n Hin; rewrite list.Forall_forall in Hns.
    pose proof (annexb_member _ _ Hin); apply list_elem_of_fmap in Hin as (x & -> & Hin).
    destruct (Hns x Hin) as (_ & _ & ? & _); lia. }
  unfold rtp_h265_send_nals; rewrite Hnals.
  rewrite (proj2 (Z.ltb_lt 3 _)), u16_id by lia; destruct (snd <$> nals) as [|n ns] eqn:En; [by destruct nals|].
  subst ps; rewrite <- En in *; replace (zlen (au_packets _ _ _ _)) with (0 + zlen (au_packets (rtp_max_payload ctx)
    (rtp_max_payload ctx - 3) au_end (snd <$> nals))) at 1 by lia; apply nal_loop_wire; try done; try lia.
Qed.

Lemma video_nals nals :
  Forall (fun n : bool * list Z => nal_ok n.2 /\ video_nal n.2) nals -> Forall video_nal (snd <$> nals).
Proof. intros H; apply Forall_fmap; eapply list.Forall_impl; [exact H|]; intros n Hn; apply Hn. Qed.

(** C34. Every access unit, or slice of one, survives RTP: a receiver that
    follows RFC 7798 gets back exactly the NAL units of the Annex B data, in
    order, whether they travelled whole or in fragments; no payload exceeds
    the configured size, the sequence numbers are consecutive, the marker bit
    stands on the last datagram only and only where the access unit ends
    there, and the result is the number of datagrams. *)
Theorem rtp_roundtrip nals ctx ts au_end :
  0 <= rtp_seq ctx < 65536 -> 4 <= rtp_max_payload ctx <= 8192 ->
  nals <> [] -> (length nals <= 256)%nat -> zlen (annexb nals) < 2 ^ 31 ->
  Forall (fun n => nal_ok n.2 /\ video_nal n.2) nals ->
  let out := rtp_h265_send_nals wire_send ctx (annexb nals) ts au_end [] in
  fold_left depay (rtp_payload <$> out.2) ([], None) = (snd <$> nals, None) /\
  (exists k, rtp_marker <$> out.2 = replicate k false ++ [au_end]) /\
  (forall k d, out.2 !! k = Some d ->
     0 < zlen (rtp_payload d) <= rtp_max_payload ctx /\
     zslice 2 2 d = be_enc 2 (u16 (rtp_seq ctx + Z.of_nat k))) /\
  out.1.1 = zlen out.2 /\ rtp_seq out.1.2 = u16 (rtp_seq ctx + zlen out.2).
Proof.
  intros Hs Hmp Hne Hcnt Hlen Hns out; subst out.
  pose proof (video_nals _ Hns) as Hv; rewrite send_nals_wire by done; set (ps := au_packets _ _ _ _).
  destruct (au_packets_ok (rtp_max_payload ctx) Hmp au_end (snd <$> nals) [] Hv) as (H1 & H2 & H3); fold ps in H1, H2, H3.
  cbn [fst snd app].
  destruct (datagrams_views (rtp_seq ctx) ts (rtp_ssrc ctx) ps) as (Hpay & Hmark & Hcl).
  rewrite Hpay, Hmark, Hcl; split_and!; try done.
  - apply H2; by destruct nals.
  - intros k d Hd; apply datagrams_lookup in Hd as (p & Hp & ->).
    rewrite rtp_payload_of; split; [|done]; rewrite list.Forall_forall in H1; apply H1.
    apply list_elem_of_lookup; by exists k.
Qed.
End packets.

(** An empty NAL unit ends the scan, whatever stands behind it. *)
Example empty_nal_stops : collect_nals 256 [0; 0; 1; 0; 0; 1; 64; 1; 7] 0 = [].
Proof. vm_compute; reflexivity. Qed.

(** Two parameter-set sized units and a slice that needs three fragments. *)
Definition demo_nals : list (bool * list Z) :=
  [(true, [64; 1; 12]); (false, [66; 1; 1]); (true, [38; 1; 1; 2; 3; 4; 5; 6; 7])].
Definition demo_rtp : rtp_ctx := mk_rtp 77 65535 6.

Lemma demo_nals_ok : Forall (fun n => nal_ok n.2 /\ video_nal n.2) demo_nals.
Proof.
  repeat constructor; cbn [snd]; try (apply nal_okb; vm_compute; done); try (vm_compute; done);
    apply (bool_decide_unpack _); vm_compute; done.
Qed.

Lemma rtp_roundtrip_witness :
  let out := rtp_h265_send_nals wire_send demo_rtp (annexb demo_nals) 90000 true [] in
  fold_left depay (rtp_payload <$> out.2) ([], None)
    = ([[64; 1; 12]; [66; 1; 1]; [38; 1; 1; 2; 3; 4; 5; 6; 7]], None) /\ out.1.1 = 5.
Proof.
  destruct (rtp_roundtrip demo_nals demo_rtp 90000 true) as (H1 & _ & _ & H2 & _);
    [vm_compute; done|vm_compute; done|done|cbn; lia|vm_compute; done|apply demo_nals_ok|].
  split; [exact H1|exact H2].
Defined.
