(* ===== verification/Packetizer.v ===== *)
(** What [rx/main.c] relies on of its packetizer, as an interface: the
    operation, and what a player that follows RFC 7798 has after it.
    [RtpH265] implements the operation; here it is shown to keep the law. *)

From S2P Require Import Prelude AnnexB RtpH265.
#[local] Open Scope Z_scope.

(** A packetizer: [rtp_h265_send_nals] on a state that includes the socket. *)
Class Packetizer (P : Type) := {
  pk_send : P -> list Z -> Z -> bool -> Z * P
}.

(** The access units a player has been handed, the NAL units of the one that
    is still open, and the fragments of an unfinished NAL unit. *)
Record player := mk_player { pl_pictures : list (list (list Z)); pl_open : depay_state }.

Definition player_init : player := mk_player [] ([], None).

(** One datagram: depacketised; the marker bit ends the access unit. *)
Definition player_step (p : player) (pkt : list Z) : player :=
  let s := depay (pl_open p) (rtp_payload pkt) in
  if rtp_marker pkt then mk_player (pl_pictures p ++ [s.1]) ([], None) else mk_player (pl_pictures p) s.

(** NAL units handed to the player, ending the access unit or not. *)
Definition player_add (p : player) (nals : list (list Z)) (au_end : bool) : player :=
  let s := (pl_open p).1 ++ nals in
  if au_end then mk_player (pl_pictures p ++ [s]) ([], None) else mk_player (pl_pictures p) (s, None).

(** What the packetizer takes: 1 to 256 legal NAL units. *)
Record sendable (nals : list (bool * list Z)) : Prop := {
  sb_nonempty : nals <> [];
  sb_count : (length nals <= 256)%nat;
  sb_len : zlen (annexb nals) < 2 ^ 31;
  sb_nals : Forall (fun n => nal_ok n.2 /\ video_nal n.2) nals
}.

(** The law: a call hands the player exactly the NAL units of its data. *)
Class PacketizerSpec (P : Type) `{Packetizer P} := {
  pk_ready : P -> Prop;
  pk_player : P -> player;
  pk_send_nals : forall p nals ts au_end, pk_ready p -> sendable nals ->
    let out := pk_send p (annexb nals) ts au_end in
    0 < out.1 /\ pk_ready out.2 /\ pk_player out.2 = player_add (pk_player p) (snd <$> nals) au_end
}.

(** The RTP packetizer on a socket. *)
#[export] Instance rtp_packetizer {W} (send : W -> list Z -> Z * W) : Packetizer (rtp_ctx * W) := {
  pk_send := fun p annexb ts au_end =>
    let '(n, ctx, w) := rtp_h265_send_nals send p.1 annexb ts au_end p.2 in (n, (ctx, w))
}.

Section rtp.

Lemma player_run ds p e k :
  rtp_marker <$> ds = replicate k false ++ [e] ->
  let s := fold_left depay (rtp_payload <$> ds) (pl_open p) in
  fold_left player_step ds p =
  if e then mk_player (pl_pictures p ++ [s.1]) ([], None) else mk_player (pl_pictures p) s.
Proof.
  revert p k; induction ds as [|d ds IH]; intros p k; cbn [fmap list_fmap fold_left]; [by destruct k|].
  destruct k as [|k]; cbn [replicate app]; intros [= Hm Hds]; unfold player_step at 2; rewrite Hm.
  - by destruct ds.
  - by rewrite (IH _ k) by done.
Qed.

(** A socket that takes every datagram. *)
#[export] Instance rtp_wire_packetizer : Packetizer (rtp_ctx * list (list Z)) := rtp_packetizer wire_send.

#[export] Program Instance rtp_wire_spec : PacketizerSpec (rtp_ctx * list (list Z)) := {
  pk_ready := fun p => 0 <= rtp_seq p.1 < 65536 /\ 4 <= rtp_max_payload p.1 <= 8192 /\
    (fold_left player_step p.2 player_init).(pl_open).2 = None;
  pk_player := fun p => fold_left player_step p.2 player_init
}.
Next Obligation.
  intros [ctx w] nals ts e (Hs & Hmp & Hfrag) [Hne Hc Hl Hns]; cbn [fst snd pk_send rtp_wire_packetizer rtp_packetizer] in *.
  rewrite send_nals_wire by done; set (ps := au_packets _ _ _ _); cbn [fst snd rtp_seq rtp_max_payload].
  destruct (au_packets_ok (rtp_max_payload ctx) Hmp e (snd <$> nals)
    (pl_open (fold_left player_step w player_init)).1 (video_nals _ Hns)) as (_ & Hm & Hd).
  destruct (Hm ltac:(by destruct nals)) as [k Hk]; fold ps in Hk, Hd.
  destruct (datagrams_views (rtp_seq ctx) ts (rtp_ssrc ctx) ps) as (Hpay & Hmark & Hcl).
  assert (Hrun : fold_left player_step (w ++ datagrams (rtp_seq ctx) ts (rtp_ssrc ctx) ps) player_init
    = player_add (fold_left player_step w player_init) (snd <$> nals) e).
  { rewrite fold_left_app, (player_run _ _ e k) by (by rewrite Hmark).
    rewrite Hpay; destruct (fold_left player_step w player_init) as [pics [op fr]]; cbn [pl_open pl_pictures fst snd] in *.
    rewrite Hfrag, Hd; by destruct e. }
  rewrite Hrun; split_and!; try done.
  - apply (f_equal length) in Hk; rewrite length_fmap, length_app, length_replicate in Hk; unfold zlen; simpl in Hk; lia.
  - pose proof (u16_range (rtp_seq ctx + zlen ps)); lia.
  - pose proof (u16_range (rtp_seq ctx + zlen ps)); lia.
  - lia.
  - lia.
  - by destruct e.
Qed.
End rtp.
