(* ===== verification/TimingSei.v ===== *)
(** [common/timing_sei.c]: the per-frame timing message inside the H.265
    stream: build it, insert it ahead of the first slice, find it again. *)

From S2P Require Import Prelude AnnexB.
#[local] Open Scope Z_scope.

Definition TIMING_SEI_VERSION : Z := 1.
Definition TIMING_SEI_UUID : list Z :=
  [0x8a; 0x3f; 0x52; 0xc1; 0x6e; 0x0b; 0x4d; 0x97; 0xb2; 0x14; 0x5a; 0xe3; 0x09; 0x7c; 0xd1; 0x46].
Definition TIMING_SEI_FLAG_SYNC_VALID : Z := 0x01.
Definition TIMING_SEI_FLAG_ENCODE : Z := 0x02.
Definition SEI_PREFIX_NAL_TYPE : Z := 39.
Definition SEI_SUFFIX_NAL_TYPE : Z := 40.
Definition SEI_USER_DATA_UNREGISTERED : Z := 5.
Definition TIMING_SEI_PAYLOAD_SIZE : Z := 16 + 32.
Definition TIMING_SEI_NAL_MAX : Z := 4 + 2 + 2 + TIMING_SEI_PAYLOAD_SIZE * 3 / 2 + 2.

(** [struct timing_sei_v1] *)
Record timing_sei := mk_sei {
  ts_version : Z;
  ts_flags : Z;
  ts_frame_seq : Z;
  ts_capture_ground_us : Z;
  ts_rx_done_ground_us : Z;
  ts_sync_uncertainty_us : Z;
  ts_encode_us : Z;
  ts_frames_lost : Z
}.

(** The packed little-endian struct. *)
Definition sei_bytes (t : timing_sei) : list Z :=
  le_enc 1 (ts_version t) ++ le_enc 1 (ts_flags t) ++ le_enc 2 (ts_frame_seq t)
  ++ le_enc 8 (ts_capture_ground_us t) ++ le_enc 8 (ts_rx_done_ground_us t)
  ++ le_enc 4 (ts_sync_uncertainty_us t) ++ le_enc 4 (ts_encode_us t) ++ le_enc 4 (ts_frames_lost t).

Definition sei_of_bytes (l : list Z) : timing_sei := {|
  ts_version := le_dec (zslice 0 1 l);
  ts_flags := le_dec (zslice 1 1 l);
  ts_frame_seq := le_dec (zslice 2 2 l);
  ts_capture_ground_us := le_dec (zslice 4 8 l);
  ts_rx_done_ground_us := le_dec (zslice 12 8 l);
  ts_sync_uncertainty_us := le_dec (zslice 20 4 l);
  ts_encode_us := le_dec (zslice 24 4 l);
  ts_frames_lost := le_dec (zslice 28 4 l)
|}.

(** ** Building *)

(** Emulation prevention behind [zeros] zero bytes. *)
Fixpoint escape (zeros : Z) (rbsp : list Z) : list Z :=
  match rbsp with
  | [] => []
  | b :: rbsp =>
      if (2 <=? zeros) && (b <=? 3) then 3 :: b :: escape (if b =? 0 then 1 else 0) rbsp
      else b :: escape (if b =? 0 then zeros + 1 else 0) rbsp
  end.

Definition sei_rbsp (t : timing_sei) : list Z :=
  [SEI_USER_DATA_UNREGISTERED; u8 TIMING_SEI_PAYLOAD_SIZE] ++ TIMING_SEI_UUID ++ sei_bytes t ++ [0x80].

Definition build_nal (t : timing_sei) (nal_type : Z) : list Z :=
  [0; 0; 0; 1; u8 (Z.shiftl nal_type 1); 1] ++ escape 0 (sei_rbsp t).

Definition timing_sei_build (t : timing_sei) : list Z := build_nal t SEI_PREFIX_NAL_TYPE.
Definition timing_sei_build_suffix (t : timing_sei) : list Z := build_nal t SEI_SUFFIX_NAL_TYPE.

(** ** Inserting *)

(** [find_start_code]: the offset and [*sc_len]. *)
Fixpoint find_loop (fuel : nat) (buf : list Z) (i : Z) : Z * Z :=
  match fuel with
  | O => (zlen buf, 0)
  | S fuel =>
      if u32 (i + 2) <? zlen buf then
        if (byte_at buf i =? 0) && (byte_at buf (i + 1) =? 0) then
          if byte_at buf (i + 2) =? 1 then (i, 3)
          else if (u32 (i + 3) <? zlen buf) && (byte_at buf (i + 2) =? 0) && (byte_at buf (i + 3) =? 1)
          then (i, 4)
          else find_loop fuel buf (u32 (i + 1))
        else find_loop fuel buf (u32 (i + 1))
      else (zlen buf, 0)
  end.

Definition find_start_code (buf : list Z) (from : Z) : Z * Z := find_loop (S (length buf)) buf from.

Definition nal_type_at (buf : list Z) (i : Z) : Z := Z.land (Z.shiftr (byte_at buf i) 1) 0x3f.

Fixpoint insert_loop (fuel : nat) (buf sei : list Z) (pos sc_len : Z) : option (list Z) :=
  match fuel with
  | O => None
  | S fuel =>
      if pos <? zlen buf then
        let hdr := u32 (pos + sc_len) in
        if (hdr <? zlen buf) && (nal_type_at buf hdr <=? 31) then
          Some (ztake pos buf ++ sei ++ zdrop pos buf)
        else let '(pos, sc_len) := find_start_code buf hdr in insert_loop fuel buf sei pos sc_len
      else None
  end.

(** [Some] the new access unit for the C result 0. *)
Definition timing_sei_insert (buf : list Z) (cap : Z) (sei : list Z) : option (list Z) :=
  if cap <? u32 (zlen buf + zlen sei) then None
  else let '(pos, sc_len) := find_start_code buf 0 in insert_loop (S (length buf)) buf sei pos sc_len.

(** ** Parsing *)

(** Strip emulation prevention, at most [k] bytes. *)
Fixpoint unescape (k : nat) (zeros : Z) (l : list Z) : list Z :=
  match l, k with
  | b :: l, S k' =>
      if (2 <=? zeros) && (b =? 3) then unescape k 0 l
      else b :: unescape k' (if b =? 0 then zeros + 1 else 0) l
  | _, _ => []
  end.

(** Whether the bytes behind a SEI's NAL header are our message. *)
Definition match_message (l : list Z) : option timing_sei :=
  let rbsp := unescape (Z.to_nat (2 + TIMING_SEI_PAYLOAD_SIZE)) 0 l in
  if (zlen rbsp =? 2 + TIMING_SEI_PAYLOAD_SIZE) && (byte_at rbsp 0 =? SEI_USER_DATA_UNREGISTERED)
     && (TIMING_SEI_PAYLOAD_SIZE <=? byte_at rbsp 1)
     && bool_decide (zslice 2 16 rbsp = TIMING_SEI_UUID) && (byte_at rbsp 18 =? TIMING_SEI_VERSION)
  then Some (sei_of_bytes (zslice 18 32 rbsp)) else None.

Fixpoint parse_loop (fuel : nat) (au : list Z) (pos sc_len : Z) (seen_slice : bool) : option timing_sei :=
  match fuel with
  | O => None
  | S fuel =>
      if pos <? zlen au then
        let nal := u32 (pos + sc_len) in
        let '(next, next_sc) := find_start_code au nal in
        if zlen au <=? nal then None
        else
          let type := nal_type_at au nal in
          let seen_slice := if type <=? 31 then true else seen_slice in
          let found :=
            if (u32 (nal + 2) <? next)
               && (if seen_slice then type =? SEI_SUFFIX_NAL_TYPE else type =? SEI_PREFIX_NAL_TYPE)
            then match_message (zslice (nal + 2) (next - (nal + 2)) au) else None in
          match found with
          | Some t => Some t
          | None => parse_loop fuel au next next_sc seen_slice
          end
      else None
  end.

Definition timing_sei_parse (au : list Z) : option timing_sei :=
  let '(pos, sc_len) := find_start_code au 0 in parse_loop (S (length au)) au pos sc_len false.

(** ** The escaping *)

Section escape.

Lemma unescape_escape l k zeros tail :
  (k <= length l)%nat -> unescape k zeros (escape zeros l ++ tail) = take k l.
Proof.
  revert k zeros; induction l as [|b l IH]; intros k zeros Hk; [by destruct k, tail; simpl in *; (done || lia)|].
  destruct k as [|k]; [by cbn [escape]; destruct (_ && _)|]; cbn [take].
  simpl in Hk; cbn [escape]; destruct ((2 <=? zeros) && (b <=? 3)) eqn:E.
  - apply andb_true_iff in E as [E _]; cbn [app unescape]; rewrite E; cbn [andb Z.eqb].
    by rewrite IH by lia.
  - cbn [app unescape]; destruct (2 <=? zeros) eqn:E2; cbn [andb] in *.
    + bool_to_prop; rewrite (proj2 (Z.eqb_neq b 3)) by lia; by rewrite IH by lia.
    + by rewrite IH by lia.
Qed.

(** No [0 0 1] comes out, behind [zeros] zeros. *)
Fixpoint no_sc (zeros : Z) (l : list Z) : bool :=
  match l with
  | [] => true
  | b :: l => negb ((2 <=? zeros) && (b =? 1)) && no_sc (if b =? 0 then zeros + 1 else 0) l
  end.

Lemma escape_no_sc l zeros : 0 <= zeros -> no_sc zeros (escape zeros l) = true.
Proof.
  revert zeros; induction l as [|b l IH]; intros zeros Hz; [done|]; cbn [escape].
  destruct ((2 <=? zeros) && (b <=? 3)) eqn:E.
  - cbn [no_sc Z.eqb]; rewrite andb_false_r; cbn [negb andb]; change (2 <=? 0) with false; cbn [negb andb].
    apply (IH (if b =? 0 then 1 else 0)); by destruct (b =? 0).
  - cbn [no_sc]; rewrite IH by (destruct (b =? 0); lia); rewrite andb_true_r.
    apply andb_false_iff in E as [E|E]; [by rewrite E|bool_to_prop].
    rewrite (proj2 (Z.eqb_neq b 1)) by lia; by rewrite andb_false_r.
Qed.

Lemma no_sc_clean l zeros :
  no_sc zeros l = true -> 0 <= zeros ->
  (2 <= zeros -> byte_at l 0 = 1 -> l = []) /\
  (1 <= zeros -> byte_at l 0 = 0 -> byte_at l 1 = 1 -> zlen l < 2) /\
  forall i, 0 <= i -> i + 2 < zlen l ->
    ~ (byte_at l i = 0 /\ byte_at l (i + 1) = 0 /\ byte_at l (i + 2) = 1).
Proof.
  revert zeros; induction l as [|b l IH]; intros zeros Hn Hz.
  { split_and!; [done|done|]; intros i H0 Hi; change (zlen (@nil Z)) with 0 in Hi; lia. }
  cbn [no_sc] in Hn; apply andb_true_iff in Hn as [Hb Hn]; apply negb_true_iff in Hb.
  destruct (IH _ Hn) as (H1 & H2 & H3); [destruct (b =? 0); lia|]; split_and!.
  - intros H2z; change (byte_at (b :: l) 0) with b; intros ->.
    by rewrite (proj2 (Z.leb_le _ _)) in Hb by lia.
  - intros H1z; change (byte_at (b :: l) 0) with b; change (byte_at (b :: l) 1) with (byte_at l 0); intros -> Hl.
    rewrite H1; [done|simpl; lia|done].
  - intros i H0 Hi; destruct (Z.eq_dec i 0) as [->|Hne].
    + change (byte_at (b :: l) 0) with b; change (byte_at (b :: l) (0 + 1)) with (byte_at l 0).
      change (byte_at (b :: l) (0 + 2)) with (byte_at l 1); intros (-> & Hl0 & Hl1).
      rewrite zlen_cons in Hi; specialize (H2 ltac:(simpl; lia) Hl0 Hl1); lia.
    + assert (Hs : forall j, 0 < j -> byte_at (b :: l) j = byte_at l (j - 1)).
      { intros j Hj; unfold byte_at; replace (Z.to_nat j) with (S (Z.to_nat (j - 1))) by lia; done. }
      rewrite !Hs by lia; rewrite zlen_cons in Hi; replace (i + 1 - 1) with (i - 1 + 1) by lia.
      replace (i + 2 - 1) with (i - 1 + 2) by lia; apply H3; lia.
Qed.

Lemma zlen_escape l zeros : 0 <= zeros -> 2 * zlen (escape zeros l) <= 3 * zlen l + zeros.
Proof.
  revert zeros; induction l as [|b l IH]; intros zeros Hz; [change (0 <= 0 + zeros); lia|]; cbn [escape].
  destruct ((2 <=? zeros) && (b <=? 3)) eqn:E; rewrite !zlen_cons.
  - apply andb_true_iff in E as [E _]; bool_to_prop.
    specialize (IH (if b =? 0 then 1 else 0)); destruct (b =? 0); lia.
  - specialize (IH (if b =? 0 then zeros + 1 else 0)); destruct (b =? 0); lia.
Qed.

(** The last byte stays last. *)
Lemma escape_snoc l zeros b : exists k, escape zeros (l ++ [b]) = k ++ [b].
Proof.
  revert zeros; induction l as [|x l IH]; intros zeros; cbn [app escape].
  - destruct (_ && _); [by exists [3]|by exists []].
  - destruct (_ && _); destruct (IH (if x =? 0 then 1 else 0)) as [k1 E1];
      destruct (IH (if x =? 0 then zeros + 1 else 0)) as [k2 E2];
      [rewrite E1; by exists (3 :: x :: k1)|rewrite E2; by exists (x :: k2)].
Qed.
End escape.

(** ** The scans on a stream of NAL units *)

Section scan.
Context (data : list Z).
Hypothesis Hlen : zlen data < 2 ^ 31.

Lemma find_loop_spec fuel i k n :
  0 <= i <= k -> (forall j, i <= j < k -> sc_at data j = None) ->
  (sc_at data k = Some n \/ k = zlen data /\ n = 0) ->
  (Z.to_nat (k - i) < fuel)%nat -> find_loop fuel data i = (k, n).
Proof using Hlen.
  revert i; induction fuel as [|fuel IH]; intros i Hi Hnone Hk Hf; [lia|].
  cbn [find_loop]; assert (k + 2 < zlen data \/ k = zlen data /\ n = 0) as Hkl.
  { destruct Hk as [Hk|Hk]; [left|by right]; unfold sc_at in Hk.
    destruct (k + 2 <? zlen data) eqn:E; [lia|done]. }
  rewrite u32_id by lia; destruct (i + 2 <? zlen data) eqn:E; bool_to_prop; cycle 1.
  { destruct Hkl as [?|[-> ->]]; [lia|done]. }
  destruct (Z.eq_dec i k) as [->|Hne].
  - destruct Hk as [Hk|[-> _]]; [|lia]; unfold sc_at in Hk.
    rewrite (proj2 (Z.ltb_lt (k + 2) _)) in Hk by lia; cbn [andb] in Hk; unwrap.
    destruct (byte_at data k =? 0); cbn [andb] in *; [|done].
    destruct (byte_at data (k + 1) =? 0); [|done].
    destruct (byte_at data (k + 2) =? 1); [by injection Hk as <-|].
    destruct (_ && _ && _); [by injection Hk as <-|done].
  - assert (Hrec : find_loop fuel data (i + 1) = (k, n)).
    { apply IH; [lia|intros j Hj; apply Hnone; lia|done|lia]. }
    pose proof (Hnone i ltac:(lia)) as Hi0; unfold sc_at in Hi0; unwrap.
    rewrite (proj2 (Z.ltb_lt (i + 2) _)) in Hi0 by lia; cbn [andb] in Hi0.
    destruct (byte_at data i =? 0); cbn [andb] in *; [|done].
    destruct (byte_at data (i + 1) =? 0); [|done].
    destruct (byte_at data (i + 2) =? 1); [done|]; destruct (_ && _ && _); done.
Qed.
End scan.

(** The length of the start code a list of NAL units begins with. *)
Definition sc_len_of (nals : list (bool * list Z)) : Z :=
  match nals with [] => 0 | (b, _) :: _ => if b : bool then 4 else 3 end.

Definition sc_of (b : bool) : list Z := if b then long_sc else short_sc.

Section streams.

Lemma annexb_cons b nal nals : annexb ((b, nal) :: nals) = sc_of b ++ nal ++ annexb nals.
Proof. unfold annexb; cbn [fmap list_fmap concat fst snd]; by rewrite <- app_assoc. Qed.

Lemma annexb_app l k : annexb (l ++ k) = annexb l ++ annexb k.
Proof. unfold annexb; by rewrite fmap_app, concat_app. Qed.

Lemma zlen_sc b : zlen (sc_of b) = if b then 4 else 3.
Proof. by destruct b. Qed.

Lemma sc_at_annexb pre nals :
  nals <> [] -> sc_at (pre ++ annexb nals) (zlen pre) = Some (sc_len_of nals).
Proof.
  destruct nals as [|[b nal] nals]; [done|]; intros _; rewrite annexb_cons.
  pose proof (sc_at_app_r pre (sc_of b ++ nal ++ annexb nals) 0 ltac:(lia)) as E; rewrite Z.add_0_r in E.
  rewrite E; destruct b; [apply sc_at_long|apply sc_at_short].
Qed.

Lemma find_first nals :
  zlen (annexb nals) < 2 ^ 31 -> find_start_code (annexb nals) 0 = (0, sc_len_of nals).
Proof.
  intros Hl; unfold find_start_code; apply find_loop_spec; try done; try lia.
  destruct nals as [|n nals]; [by right|left].
  pose proof (sc_at_annexb [] (n :: nals) ltac:(done)) as E; by rewrite app_nil_l in E.
Qed.

(** From the first byte of a NAL unit, the scan goes to the next start code. *)
Lemma find_next pre nal nals :
  zlen (pre ++ nal ++ annexb nals) < 2 ^ 31 -> nal_ok nal ->
  find_start_code (pre ++ nal ++ annexb nals) (zlen pre) = (zlen pre + zlen nal, sc_len_of nals).
Proof.
  intros Hl Hn; pose proof (zlen_nonneg pre); pose proof (zlen_nonneg nal); unfold find_start_code.
  pose proof (zlen_nonneg (annexb nals)); rewrite !zlen_app in Hl.
  apply find_loop_spec; rewrite ?zlen_app; try lia.
  - intros j Hj; apply sc_at_inside; [done|lia].
  - destruct nals as [|n nals]; [right; split; [change (zlen (annexb [])) with 0; lia|done]|left].
    replace (zlen pre + zlen nal) with (zlen (pre ++ nal)) by (rewrite zlen_app; lia).
    rewrite app_assoc; by apply sc_at_annexb.
  - rewrite !length_app; unfold zlen; lia.
Qed.

Definition nal_type (nal : list Z) : Z := Z.land (Z.shiftr (byte_at nal 0) 1) 0x3f.

Lemma nal_type_at_app pre nal l : nal_ok nal -> nal_type_at (pre ++ nal ++ l) (zlen pre) = nal_type nal.
Proof.
  intros Hn; apply nal_ok_pos in Hn; unfold nal_type_at, nal_type.
  rewrite byte_at_app_r, Z.sub_diag, byte_at_app_l by lia; done.
Qed.

(** The insertion point is the first slice's start code. *)
Lemma insert_loop_spec pres b v rest sei : forall fuel done_,
  zlen (done_ ++ annexb (pres ++ (b, v) :: rest)) < 2 ^ 31 ->
  Forall (fun n => nal_ok n.2 /\ 31 < nal_type n.2) pres -> nal_ok v -> nal_type v <= 31 ->
  (length pres < fuel)%nat ->
  insert_loop fuel (done_ ++ annexb (pres ++ (b, v) :: rest)) sei (zlen done_) (sc_len_of (pres ++ (b, v) :: rest))
  = Some ((done_ ++ annexb pres) ++ sei ++ annexb ((b, v) :: rest)).
Proof.
  induction pres as [|[c n] pres IH]; intros fuel done_ Hl Hp Hv Hvt Hf; (destruct fuel as [|fuel]; [simpl in Hf; lia|]).
  - cbn [insert_loop app] in *; pose proof (nal_ok_pos _ Hv); pose proof (zlen_nonneg done_).
    rewrite (annexb_cons b v rest) in *; rewrite !zlen_app, zlen_sc in Hl; pose proof (zlen_nonneg (annexb rest)).
    cbn [sc_len_of app]; rewrite u32_id by (destruct b; lia).
    replace (zlen done_ + (if b then 4 else 3)) with (zlen (done_ ++ sc_of b)) by (rewrite zlen_app, zlen_sc; lia).
    rewrite (app_assoc done_ (sc_of b)), nal_type_at_app by done.
    rewrite !zlen_app, zlen_sc, !(proj2 (Z.ltb_lt _ _)), (proj2 (Z.leb_le _ _)) by (destruct b; lia); cbn [andb].
    rewrite <- app_assoc, ztake_app, zdrop_app by done; f_equal; unfold annexb; cbn; by rewrite app_nil_r.
  - apply Forall_cons_1 in Hp as [[Hn Ht] Hp]; cbn [fst snd app] in *; cbn [insert_loop].
    rewrite annexb_cons in *; pose proof (nal_ok_pos _ Hn); pose proof (zlen_nonneg done_).
    pose proof Hl as Hl0; rewrite !zlen_app, zlen_sc in Hl.
    pose proof (zlen_nonneg (annexb (pres ++ (b, v) :: rest))); cbn [sc_len_of].
    rewrite u32_id by (destruct c; lia).
    replace (zlen done_ + (if c then 4 else 3)) with (zlen (done_ ++ sc_of c)) by (rewrite zlen_app, zlen_sc; lia).
    rewrite (app_assoc done_ (sc_of c)), nal_type_at_app by done.
    rewrite (proj2 (Z.leb_gt _ _)), andb_false_r by done.
    rewrite (proj2 (Z.ltb_lt (zlen done_) _)) by (rewrite !zlen_app, zlen_sc; destruct c; lia).
    rewrite app_assoc in Hl0; rewrite find_next by done.
    replace (zlen (done_ ++ sc_of c) + zlen n) with (zlen ((done_ ++ sc_of c) ++ n)) by (rewrite zlen_app; lia).
    rewrite app_assoc; rewrite IH; try done.
    + by rewrite !annexb_cons, <- !app_assoc.
    + rewrite <- app_assoc; exact Hl0.
    + simpl in Hf; lia.
Qed.

(** A NAL unit the parser passes over. *)
Definition not_ours (seen : bool) (nal : list Z) : Prop :=
  2 < zlen nal ->
  nal_type nal = (if seen then SEI_SUFFIX_NAL_TYPE else SEI_PREFIX_NAL_TYPE) ->
  match_message (zdrop 2 nal) = None.

(** Whether a slice has been seen behind a list of NAL units. *)
Definition slice_seen (seen : bool) (nal : list Z) : bool := if nal_type nal <=? 31 then true else seen.

Fixpoint passed_over (seen : bool) (nals : list (bool * list Z)) : Prop :=
  match nals with
  | [] => True
  | (_, n) :: nals => nal_ok n /\ not_ours (slice_seen seen n) n /\ passed_over (slice_seen seen n) nals
  end.

Definition seen_after (seen : bool) (nals : list (bool * list Z)) : bool :=
  fold_left (fun s n => slice_seen s n.2) nals seen.

Lemma zslice_message (pre nal l : list Z) :
  2 <= zlen nal -> zslice (zlen pre + 2) (zlen pre + zlen nal - (zlen pre + 2)) (pre ++ nal ++ l) = zdrop 2 nal.
Proof.
  intros H; rewrite <- (ztake_drop 2 nal) at 2; rewrite <- app_assoc, app_assoc; pose proof (zlen_nonneg pre).
  apply zslice_mid; [rewrite zlen_app, zlen_take; lia|rewrite zlen_drop; lia].
Qed.

(** The parser walks over other NAL units to the first message. *)
Lemma parse_loop_spec pres b s rest t : forall fuel done_ seen,
  zlen (done_ ++ annexb (pres ++ (b, s) :: rest)) < 2 ^ 31 ->
  passed_over seen pres -> nal_ok s -> 2 < zlen s ->
  nal_type s = (if seen_after seen pres then SEI_SUFFIX_NAL_TYPE else SEI_PREFIX_NAL_TYPE) ->
  match_message (zdrop 2 s) = Some t -> (length pres < fuel)%nat ->
  parse_loop fuel (done_ ++ annexb (pres ++ (b, s) :: rest)) (zlen done_) (sc_len_of (pres ++ (b, s) :: rest)) seen
  = Some t.
Proof.
  induction pres as [|[c n] pres IH]; intros fuel done_ seen Hl Hp Hs Hs2 Ht Hm Hf;
    (destruct fuel as [|fuel]; [simpl in Hf; lia|]); cbn [parse_loop app] in *.
  - rewrite (annexb_cons b s rest) in *; pose proof (zlen_nonneg done_); pose proof (zlen_nonneg (annexb rest)).
    pose proof Hl as Hl0; rewrite !zlen_app, zlen_sc in Hl.
    cbn [sc_len_of app]; rewrite u32_id by (destruct b; lia).
    replace (zlen done_ + (if b then 4 else 3)) with (zlen (done_ ++ sc_of b)) by (rewrite zlen_app, zlen_sc; lia).
    rewrite (app_assoc done_ (sc_of b)) in *; rewrite nal_type_at_app, find_next by done.
    rewrite (proj2 (Z.ltb_lt (zlen done_) _)), (proj2 (Z.leb_gt _ _))
      by (rewrite !zlen_app, zlen_sc; destruct b; lia).
    rewrite u32_id by (rewrite zlen_app, zlen_sc; destruct b; lia).
    rewrite (proj2 (Z.ltb_lt (_ + 2) _)) by lia; cbn [seen_after fold_left] in Ht; rewrite Ht, zslice_message by lia.
    destruct seen; cbn; by rewrite Hm.
  - cbn [passed_over] in Hp; destruct Hp as (Hn & Hno & Hp); cbn [app] in *; pose proof (nal_ok_pos _ Hn).
    rewrite (annexb_cons c n) in *; set (tl := pres ++ (b, s) :: rest) in *.
    pose proof (zlen_nonneg done_); pose proof (zlen_nonneg (annexb tl)).
    pose proof Hl as Hl0; rewrite !zlen_app, zlen_sc in Hl; cbn [sc_len_of]; rewrite u32_id by (destruct c; lia).
    replace (zlen done_ + (if c then 4 else 3)) with (zlen (done_ ++ sc_of c)) by (rewrite zlen_app, zlen_sc; lia).
    rewrite (app_assoc done_ (sc_of c)) in *; rewrite nal_type_at_app, find_next by done.
    rewrite (proj2 (Z.ltb_lt (zlen done_) _)), (proj2 (Z.leb_gt _ _))
      by (rewrite !zlen_app, zlen_sc; destruct c; lia).
    rewrite u32_id by (rewrite zlen_app, zlen_sc; destruct c; lia).
    fold (slice_seen seen n); set (seen' := slice_seen seen n) in *.
    replace (zlen (done_ ++ sc_of c) + zlen n) with (zlen ((done_ ++ sc_of c) ++ n)) by (rewrite zlen_app; lia).
    assert (Hrec : parse_loop fuel (((done_ ++ sc_of c) ++ n) ++ annexb tl) (zlen ((done_ ++ sc_of c) ++ n))
                     (sc_len_of tl) seen' = Some t).
    { apply IH; try done; [by rewrite <- app_assoc|simpl in Hf; lia]. }
    rewrite <- (app_assoc _ n) in Hrec; destruct (_ && _) eqn:E; [|exact Hrec].
    apply andb_true_iff in E as [E1 E2]; bool_to_prop.
    assert (H2n : 2 < zlen n) by (rewrite !zlen_app in E1; lia).
    replace (zlen ((done_ ++ sc_of c) ++ n)) with (zlen (done_ ++ sc_of c) + zlen n) at 1 by (rewrite (zlen_app _ n); lia).
    rewrite zslice_message by lia; rewrite Hno; [exact Hrec|done|].
    destruct seen'; bool_to_prop; exact E2.
Qed.
End streams.

(** ** The message *)

(** The fields are within their C types and the version is ours. *)
Record sei_ok (t : timing_sei) : Prop := {
  sk_version : ts_version t = TIMING_SEI_VERSION;
  sk_flags : 0 <= ts_flags t < 2 ^ 8;
  sk_seq : 0 <= ts_frame_seq t < 2 ^ 16;
  sk_capture : 0 <= ts_capture_ground_us t < 2 ^ 64;
  sk_rx : 0 <= ts_rx_done_ground_us t < 2 ^ 64;
  sk_unc : 0 <= ts_sync_uncertainty_us t < 2 ^ 32;
  sk_enc : 0 <= ts_encode_us t < 2 ^ 32;
  sk_lost : 0 <= ts_frames_lost t < 2 ^ 32
}.

(** The NAL unit behind the built start code. *)
Definition sei_nal (t : timing_sei) (ty : Z) : list Z := [u8 (Z.shiftl ty 1); 1] ++ escape 0 (sei_rbsp t).

Section message.

Lemma build_nal_eq t ty : build_nal t ty = long_sc ++ sei_nal t ty.
Proof. unfold build_nal, sei_nal, long_sc; cbn [app]; reflexivity. Qed.

Lemma sei_of_sei_bytes t rest : sei_ok t -> sei_of_bytes (sei_bytes t ++ rest) = t.
Proof.
  intros [Hv ? ? ? ? ? ? ?]; assert (0 <= ts_version t < 2 ^ 8) by (rewrite Hv; done).
  assert (Hf : forall off n z, zslice off n (sei_bytes t ++ rest) = le_enc (Z.to_nat n) z ->
    0 <= n -> 0 <= z < 256 ^ n -> le_dec (zslice off n (sei_bytes t ++ rest)) = z).
  { intros off n z -> Hn Hz; apply le_dec_enc; by rewrite Z2Nat.id. }
  unfold sei_of_bytes.
  rewrite (Hf 0 1 (ts_version t)), (Hf 1 1 (ts_flags t)), (Hf 2 2 (ts_frame_seq t)),
    (Hf 4 8 (ts_capture_ground_us t)), (Hf 12 8 (ts_rx_done_ground_us t)),
    (Hf 20 4 (ts_sync_uncertainty_us t)), (Hf 24 4 (ts_encode_us t)), (Hf 28 4 (ts_frames_lost t))
    by (reflexivity || assumption || lia).
  by destruct t.
Qed.

Lemma length_sei_bytes t : length (sei_bytes t) = 32%nat.
Proof. unfold sei_bytes; by rewrite !length_app, !length_le_enc. Qed.

(** The message without its trailing bits. *)
Definition sei_body (t : timing_sei) : list Z :=
  ([SEI_USER_DATA_UNREGISTERED; u8 TIMING_SEI_PAYLOAD_SIZE] ++ TIMING_SEI_UUID) ++ sei_bytes t.

Lemma sei_rbsp_eq t : sei_rbsp t = sei_body t ++ [0x80].
Proof. unfold sei_rbsp, sei_body; by rewrite <- !app_assoc. Qed.

Lemma length_sei_body t : length (sei_body t) = 50%nat.
Proof. unfold sei_body; by rewrite length_app, length_sei_bytes. Qed.

Lemma byte_at_last l b : byte_at (l ++ [b]) (zlen (l ++ [b]) - 1) = b.
Proof.
  rewrite zlen_app; change (zlen [b]) with 1; rewrite byte_at_app_r by lia.
  by replace (zlen l + 1 - 1 - zlen l) with 0 by lia.
Qed.

Lemma sei_nal_ok t ty : ty = SEI_PREFIX_NAL_TYPE \/ ty = SEI_SUFFIX_NAL_TYPE -> nal_ok (sei_nal t ty).
Proof.
  intros Hty; unfold sei_nal; destruct (escape_snoc (sei_body t) 0 0x80) as [k Ek]; rewrite <- sei_rbsp_eq in Ek.
  constructor; [done|rewrite Ek, app_assoc, byte_at_last; done|].
  apply (no_sc_clean _ 0); [|done]; cbn [app no_sc].
  replace (u8 (Z.shiftl ty 1) =? 0) with false by (by destruct Hty as [-> | ->]).
  replace (u8 (Z.shiftl ty 1) =? 1) with false by (by destruct Hty as [-> | ->]).
  change (2 <=? 0) with false; cbn [Z.eqb negb andb]; by apply escape_no_sc.
Qed.

Lemma sei_nal_type t ty : ty = SEI_PREFIX_NAL_TYPE \/ ty = SEI_SUFFIX_NAL_TYPE -> nal_type (sei_nal t ty) = ty.
Proof. unfold nal_type, sei_nal; cbn [app]; by intros [-> | ->]. Qed.

Lemma sei_nal_len t ty : 2 + 51 <= zlen (sei_nal t ty) /\ 4 + zlen (sei_nal t ty) <= TIMING_SEI_NAL_MAX.
Proof.
  unfold sei_nal; rewrite zlen_app; change (zlen [_; _]) with 2.
  assert (Hr : zlen (sei_rbsp t) = 51).
  { rewrite sei_rbsp_eq, zlen_app; unfold zlen; by rewrite length_sei_body. }
  pose proof (zlen_escape (sei_rbsp t) 0 ltac:(lia)) as He; rewrite Hr in He.
  change TIMING_SEI_NAL_MAX with 82; split; [|lia].
  assert (H : forall l z, zlen l <= zlen (escape z l)); [|specialize (H (sei_rbsp t) 0); lia].
  clear; induction l as [|b l IH]; intros z; [done|]; cbn [escape]; destruct (_ && _); rewrite !zlen_cons;
    match goal with |- context [escape ?z' l] => specialize (IH z') end; lia.
Qed.

Lemma sei_nal_message t ty : sei_ok t -> match_message (zdrop 2 (sei_nal t ty)) = Some t.
Proof.
  intros Ht; unfold sei_nal; rewrite zdrop_app by done; unfold match_message.
  change (Z.to_nat (2 + TIMING_SEI_PAYLOAD_SIZE)) with 50%nat; rewrite <- (app_nil_r (escape 0 _)).
  rewrite unescape_escape by (rewrite sei_rbsp_eq, length_app, length_sei_body; simpl; lia).
  replace (take 50 (sei_rbsp t)) with (sei_body t); cycle 1.
  { rewrite sei_rbsp_eq, <- (length_sei_body t) at 1; symmetry; rewrite length_sei_body.
    rewrite <- (length_sei_body t) at 1; apply take_app_length. }
  replace (zlen (sei_body t)) with 50 by (unfold zlen; by rewrite length_sei_body).
  assert (H18 : byte_at (sei_body t) 18 = TIMING_SEI_VERSION).
  { rewrite <- (sk_version _ Ht); unfold sei_body; rewrite byte_at_app_r by done.
    change (byte_at (le_enc 1 (ts_version t)) 0 = ts_version t); rewrite (sk_version _ Ht); done. }
  assert (Hu : zslice 2 16 (sei_body t) = TIMING_SEI_UUID).
  { unfold sei_body; rewrite <- app_assoc; by apply zslice_mid. }
  rewrite H18, Hu, bool_decide_true by done.
  change (byte_at (sei_body t) 0) with 5; change (byte_at (sei_body t) 1) with 48.
  change ((50 =? 2 + TIMING_SEI_PAYLOAD_SIZE) && _ && _ && _ && _) with true; cbv iota; f_equal.
  assert (Hz : zslice 18 32 (sei_body t) = sei_bytes t).
  { unfold sei_body; rewrite <- (app_nil_r (sei_bytes t)) at 1; apply zslice_mid; [done|].
    unfold zlen; by rewrite length_sei_bytes. }
  rewrite Hz, <- (app_nil_r (sei_bytes t)); by apply sei_of_sei_bytes.
Qed.

(** A built message is a legal NAL unit (no start code emulation, never
    longer than the buffer the caller provides), behind a four-byte start
    code. *)
Theorem timing_sei_build_legal t ty :
  ty = SEI_PREFIX_NAL_TYPE \/ ty = SEI_SUFFIX_NAL_TYPE ->
  exists nal, build_nal t ty = long_sc ++ nal /\ nal_ok nal /\ nal_type nal = ty /\
    zlen (build_nal t ty) <= TIMING_SEI_NAL_MAX.
Proof.
  intros Hty; exists (sei_nal t ty); rewrite build_nal_eq; split_and!; [done|by apply sei_nal_ok|by apply sei_nal_type|].
  rewrite zlen_app; apply (sei_nal_len t ty).
Qed.

Lemma passed_over_app seen l k :
  passed_over seen l -> passed_over (seen_after seen l) k -> passed_over seen (l ++ k).
Proof.
  revert seen; induction l as [|[b n] l IH]; intros seen; [done|]; cbn [passed_over app].
  intros (Hn & Hno & Hl) Hk; split_and!; [done|done|by apply IH].
Qed.

(** C35. Round trip through an access unit: the message goes in front of
    the first slice (parameter sets stay ahead), nothing of the access unit is
    changed, and the parser reads the message back, for every legal stream
    whose other SEI units are not ours; a suffix message behind slices is
    found the same way. *)
Theorem timing_sei_roundtrip t t' pres b v mids rest cap :
  sei_ok t -> sei_ok t' ->
  Forall (fun n => nal_ok n.2 /\ 31 < nal_type n.2) pres -> passed_over false pres ->
  nal_ok v -> nal_type v <= 31 -> passed_over true ((b, v) :: mids) ->
  let au := annexb (pres ++ (b, v) :: mids ++ rest) in
  zlen au + TIMING_SEI_NAL_MAX <= cap -> cap < 2 ^ 31 ->
  timing_sei_insert au cap (timing_sei_build t)
    = Some (annexb (pres ++ (true, sei_nal t SEI_PREFIX_NAL_TYPE) :: (b, v) :: mids ++ rest)) /\
  timing_sei_parse (annexb (pres ++ (true, sei_nal t SEI_PREFIX_NAL_TYPE) :: (b, v) :: mids ++ rest)) = Some t /\
  timing_sei_parse (annexb (pres ++ (b, v) :: mids) ++ timing_sei_build_suffix t' ++ annexb rest) = Some t'.
Proof.
  intros Ht Ht' Hpres Hpo Hv Hvt Hpt au Hcap H31; pose proof (zlen_nonneg au).
  destruct (sei_nal_len t SEI_PREFIX_NAL_TYPE) as [Hlo Hhi]; destruct (sei_nal_len t' SEI_SUFFIX_NAL_TYPE) as [Hlo' Hhi'].
  assert (Hlen : forall l, (length l <= Z.to_nat (zlen (annexb l)))%nat).
  { induction l as [|[c n] l IH]; [simpl; lia|]; rewrite annexb_cons, !zlen_app, zlen_sc; simpl.
    pose proof (zlen_nonneg n); pose proof (zlen_nonneg (annexb l)); destruct c; lia. }
  assert (Hseen : seen_after false pres = false).
  { clear -Hpres; unfold seen_after; generalize false; induction Hpres as [|n l [_ Hn] _ IH]; intros s; [done|].
    cbn [fold_left]; unfold slice_seen at 2; rewrite (proj2 (Z.leb_gt _ _)) by done; apply IH. }
  assert (Hparse : forall l c s r u, zlen (annexb (l ++ (c, s) :: r)) < 2 ^ 31 -> passed_over false l ->
    nal_ok s -> 2 < zlen s -> nal_type s = (if seen_after false l then SEI_SUFFIX_NAL_TYPE else SEI_PREFIX_NAL_TYPE) ->
    match_message (zdrop 2 s) = Some u -> timing_sei_parse (annexb (l ++ (c, s) :: r)) = Some u).
  { intros l c s r u Hl Hp Hs Hs2 Hty Hm; unfold timing_sei_parse; rewrite find_first by done.
    pose proof (parse_loop_spec l c s r u (S (length (annexb (l ++ (c, s) :: r)))) [] false) as HH.
    rewrite app_nil_l in HH; apply HH; try done; specialize (Hlen (l ++ (c, s) :: r)).
    rewrite length_app in Hlen; unfold zlen in Hlen; simpl in Hlen; lia. }
  split_and!.
  - unfold timing_sei_insert, timing_sei_build; rewrite build_nal_eq, zlen_app; change (zlen long_sc) with 4.
    rewrite u32_id, (proj2 (Z.ltb_ge _ _)) by lia; unfold au; rewrite find_first by (fold au; lia).
    pose proof (insert_loop_spec pres b v (mids ++ rest) (long_sc ++ sei_nal t SEI_PREFIX_NAL_TYPE) (S (length au)) []) as HH.
    rewrite app_nil_l in HH; change (zlen (@nil Z)) with 0 in HH; unfold au in *; rewrite HH; try done; [|lia|].
    + by rewrite annexb_app, (annexb_cons true), app_nil_l, <- !app_assoc.
    + specialize (Hlen (pres ++ (b, v) :: mids ++ rest)); rewrite length_app in Hlen; unfold zlen in Hlen; simpl in Hlen; lia.
  - apply Hparse; try done; [|apply sei_nal_ok; by left|lia| |by apply sei_nal_message].
    + rewrite annexb_app, annexb_cons, !zlen_app, zlen_sc; unfold au in *; rewrite annexb_app, zlen_app in *; lia.
    + rewrite Hseen; apply sei_nal_type; by left.
  - unfold timing_sei_build_suffix; rewrite build_nal_eq, <- !app_assoc, <- (annexb_cons true), <- annexb_app.
    apply Hparse; [| |apply sei_nal_ok; by right|lia| |by apply sei_nal_message].
    + assert (Hau : zlen au = zlen (annexb (pres ++ (b, v) :: mids)) + zlen (annexb rest)).
      { unfold au; by rewrite (app_comm_cons mids), app_assoc, annexb_app, zlen_app. }
      rewrite (annexb_app (_ ++ _)), annexb_cons, zlen_app, !(zlen_app _ (_ ++ _)), zlen_app, zlen_sc; lia.
    + apply passed_over_app; [done|]; rewrite Hseen; cbn [passed_over] in *.
      assert (Hs : forall s, slice_seen s v = true) by (intros s; unfold slice_seen; by rewrite (proj2 (Z.leb_le _ _))).
      by rewrite Hs in Hpt |- *.
    + rewrite sei_nal_type by (by right).
      replace (seen_after false (pres ++ (b, v) :: mids)) with true; [done|].
      unfold seen_after; rewrite fold_left_app; cbn [fold_left snd]; unfold slice_seen at 2.
      rewrite (proj2 (Z.leb_le _ _)) by done; clear; induction mids as [|m mids IH]; [done|]; cbn [fold_left].
      unfold slice_seen at 2; by destruct (_ <=? _).
Qed.
End message.

Definition demo_sei : timing_sei := mk_sei 1 3 7 0x100 0x20000 250 8000 0.
Definition demo_vps : list Z := [64; 1; 12].
Definition demo_slice : list Z := [38; 1; 1; 2; 0; 0; 3; 7].

Lemma demo_sei_ok : sei_ok demo_sei.
Proof. constructor; vm_compute; try split; congruence. Qed.
Lemma demo_pre_ok : Forall (fun n : bool * list Z => nal_ok n.2 /\ 31 < nal_type n.2) [(true, demo_vps)].
Proof. constructor; [split; [apply nal_okb; vm_compute; reflexivity|reflexivity]|constructor]. Qed.

Lemma timing_sei_build_legal_witness :
  exists nal, build_nal demo_sei 39 = long_sc ++ nal /\ nal_ok nal /\ nal_type nal = 39 /\
    zlen (build_nal demo_sei 39) <= TIMING_SEI_NAL_MAX.
Proof. apply (timing_sei_build_legal demo_sei 39); left; reflexivity. Defined.

Lemma timing_sei_roundtrip_witness :
  timing_sei_insert (annexb [(true, demo_vps); (false, demo_slice)]) 200 (timing_sei_build demo_sei)
    = Some (annexb ([(true, demo_vps)] ++ (true, sei_nal demo_sei SEI_PREFIX_NAL_TYPE) :: (false, demo_slice) :: [] ++ [])) /\
  timing_sei_parse (annexb ([(true, demo_vps)] ++ (true, sei_nal demo_sei SEI_PREFIX_NAL_TYPE) :: (false, demo_slice) :: [] ++ []))
    = Some demo_sei.
Proof.
  destruct (timing_sei_roundtrip demo_sei demo_sei [(true, demo_vps)] false demo_slice [] [] 200
    demo_sei_ok demo_sei_ok demo_pre_ok) as (H1 & H2 & _).
  - split; [apply nal_okb; vm_compute; reflexivity|]; split; [intros _ H; discriminate H|exact I].
  - apply nal_okb; vm_compute; reflexivity.
  - vm_compute; discriminate.
  - split; [apply nal_okb; vm_compute; reflexivity|]; split; [intros _ H; discriminate H|exact I].
  - vm_compute; discriminate.
  - reflexivity.
  - split; [exact H1|exact H2].
Defined.
