(* ===== verification/CtrlMsg.v ===== *)
(** The text control messages of both directions ([SYNC], [SYNCR], [IDR]):
    what [snprintf] writes, and what [strncmp] and [sscanf] make of it.
    [rx/idr_relay.c], [rx/main.c], [tx/idr_ctrl.c], [tx/main.c]. *)

From S2P Require Import Prelude ChunkHdr.
#[local] Open Scope Z_scope.

(** ** The library functions the messages use *)

(** [%x]: lower-case digits, no leading zeros. *)
Definition hex_digit (d : Z) : Z := if d <? 10 then 0x30 + d else 0x61 + (d - 10).

Fixpoint hex_digits (fuel : nat) (z : Z) (acc : list Z) : list Z :=
  match fuel with
  | O => acc
  | S fuel =>
      let acc := hex_digit (z mod 16) :: acc in
      if z / 16 =? 0 then acc else hex_digits fuel (z / 16) acc
  end.

(** Sixteen digits hold any 64-bit value. *)
Definition fmt_hex (z : Z) : list Z := hex_digits 16 z [].

Definition hex_value (c : Z) : option Z :=
  if (0x30 <=? c) && (c <=? 0x39) then Some (c - 0x30)
  else if (0x61 <=? c) && (c <=? 0x66) then Some (c - 0x61 + 10)
  else if (0x41 <=? c) && (c <=? 0x46) then Some (c - 0x41 + 10)
  else None.

Definition is_space (c : Z) : bool := (c =? 32) || ((9 <=? c) && (c <=? 13)).

Fixpoint skip_spaces (s : list Z) : list Z :=
  match s with
  | c :: s' => if is_space c then skip_spaces s' else s
  | [] => []
  end.

(** The longest run of hex digits: its value, how many, and the rest. *)
Fixpoint scan_digits (acc n : Z) (s : list Z) : Z * Z * list Z :=
  match s with
  | c :: s' => match hex_value c with
               | Some d => scan_digits (acc * 16 + d) (n + 1) s'
               | None => (acc, n, s)
               end
  | [] => (acc, n, s)
  end.

(** A [%x]-family conversion to [w] bits: white space, a sign, [0x], digits.
    (A value too wide for the type is undefined in C and wraps here.) *)
Definition scan_hex (w : Z) (s : list Z) : option (Z * list Z) :=
  let s := skip_spaces s in
  let '(neg, s) := match s with
                   | c :: s' => if c =? 0x2d then (true, s') else if c =? 0x2b then (false, s') else (false, s)
                   | [] => (false, s)
                   end in
  let s := match s with
           | a :: b :: c :: s' =>
               if (a =? 0x30) && ((b =? 0x78) || (b =? 0x58))
                  && match hex_value c with Some _ => true | None => false end then c :: s' else s
           | _ => s
           end in
  let '(v, n, s) := scan_digits 0 0 s in
  if n =? 0 then None else Some ((if neg then - v else v) mod 2 ^ w, s).

(** The characters in front of the terminating zero. *)
Fixpoint c_string (s : list Z) : list Z :=
  match s with
  | [] => []
  | c :: s => if c =? 0 then [] else c :: c_string s
  end.

(** [strncmp(s, p, strlen(p)) == 0] *)
Definition has_prefix (p s : list Z) : bool := bool_decide (take (length p) s = p).

(** ** The messages *)

Definition str_SYNC : list Z := [0x53; 0x59; 0x4e; 0x43; 0x20].
Definition str_SYNCR : list Z := [0x53; 0x59; 0x4e; 0x43; 0x52; 0x20].
Definition str_IDR : list Z := [0x49; 0x44; 0x52; 0x20].

(** ["SYNC %x %llx"] *)
Definition fmt_sync (seq t1 : Z) : list Z := str_SYNC ++ fmt_hex seq ++ [32] ++ fmt_hex t1.
(** ["SYNCR %x %llx %llx %llx"] *)
Definition fmt_syncr (seq t1 t2 t3 : Z) : list Z :=
  str_SYNCR ++ fmt_hex seq ++ [32] ++ fmt_hex t1 ++ [32] ++ fmt_hex t2 ++ [32] ++ fmt_hex t3.

(** The [sscanf]s succeed when every conversion does. *)
Definition scan_sync (s : list Z) : option (Z * Z) :=
  '(seq, s) ← scan_hex 32 s; '(t1, _) ← scan_hex 64 s; Some (seq, t1).

Definition scan_syncr (s : list Z) : option (Z * Z * Z * Z) :=
  '(seq, s) ← scan_hex 32 s; '(t1, s) ← scan_hex 64 s; '(t2, s) ← scan_hex 64 s; '(t3, _) ← scan_hex 64 s;
  Some (seq, t1, t2, t3).

(** What the air unit's control reader ([idr_ctrl_thread_main]) recognises. *)
Inductive air_cmd :=
  | Cmd_sync (seq t1 : Z)
  | Cmd_idr (token : list Z)
  | Cmd_unknown
  | Cmd_ignored.

Definition parse_air_cmd (codec : Z) (payload : list Z) : air_cmd :=
  if negb (codec =? AR8030_CHUNK_CODEC_CTRL) || (zlen payload =? 0) || (AR8030_CTRL_MAX_PAYLOAD <=? zlen payload)
  then Cmd_ignored
  else
    let cmd := c_string payload in
    match (if has_prefix str_SYNC cmd then scan_sync (zdrop 5 cmd) else None) with
    | Some (seq, t1) => Cmd_sync seq t1
    | None =>
        if has_prefix str_IDR cmd && match zdrop 4 cmd with [] => false | _ => true end
        then Cmd_idr (zdrop 4 cmd) else Cmd_unknown
    end.

(** The ground's [handle_air_ctrl] up to [clock_sync_on_reply]. *)
Definition parse_ground_ctrl (payload : list Z) : option (Z * Z * Z * Z) :=
  if (zlen payload =? 0) || (AR8030_CTRL_MAX_PAYLOAD <=? zlen payload) then None
  else
    let cmd := c_string payload in
    if has_prefix str_SYNCR cmd then scan_syncr (zdrop 6 cmd) else None.

(** ** Round trips *)

Section hex.

Lemma hex_digit_table d : 0 <= d < 16 ->
  hex_value (hex_digit d) = Some d /\ 0x30 <= hex_digit d <= 0x66 /\ hex_digit d <> 0x58 /\ is_space (hex_digit d) = false.
Proof.
  intros Hd; assert (H : Forall (fun n => let d := Z.of_nat n in
    hex_value (hex_digit d) = Some d /\ 0x30 <= hex_digit d <= 0x66 /\ hex_digit d <> 0x58 /\ is_space (hex_digit d) = false) (seq 0 16)).
  { repeat constructor; vm_compute; congruence. }
  rewrite list.Forall_forall in H; specialize (H (Z.to_nat d)); cbn zeta in H.
  rewrite Z2Nat.id in H by lia; apply H, elem_of_seq; lia.
Qed.

Lemma hex_value_digit d : 0 <= d < 16 -> hex_value (hex_digit d) = Some d.
Proof. apply hex_digit_table. Qed.

(** The characters [fmt_hex] writes. *)
Definition is_hex (c : Z) : Prop := exists d, 0 <= d < 16 /\ c = hex_digit d.

Lemma is_hex_char c : is_hex c -> 0x30 <= c <= 0x66 /\ c <> 0x58 /\ is_space c = false.
Proof.
  by intros (d & Hd & ->); apply hex_digit_table.
Qed.

Lemma hex_digits_spec fuel z acc :
  0 <= z < 16 ^ Z.of_nat fuel -> (0 < fuel)%nat ->
  exists ds, hex_digits fuel z acc = ds ++ acc /\ ds <> [] /\ (length ds <= fuel)%nat /\ Forall is_hex ds /\
    forall v n rest, scan_digits v n (ds ++ rest) = scan_digits (v * 16 ^ zlen ds + z) (n + zlen ds) rest.
Proof.
  revert z acc; induction fuel as [|fuel IH]; intros z acc Hz Hf; [lia|]; cbn [hex_digits].
  assert (Hm : 0 <= z mod 16 < 16) by (apply Z.mod_pos_bound; lia).
  assert (Hh : is_hex (hex_digit (z mod 16))) by (by exists (z mod 16)).
  destruct (Z.eqb_spec (z / 16) 0) as [E|E].
  - exists [hex_digit (z mod 16)]; split_and!; [done|done|simpl; lia|by repeat constructor|].
    intros v n rest; cbn [app scan_digits]; rewrite hex_value_digit by done; change (zlen [_]) with 1.
    f_equal; dlia.
  - rewrite Nat2Z.inj_succ, Z.pow_succ_r in Hz by lia.
    destruct fuel as [|fuel']; [change (Z.of_nat 0) with 0 in Hz; dlia|].
    destruct (IH (z / 16) (hex_digit (z mod 16) :: acc)) as (ds & Hds & Hne & Hl & Hall & Hscan); [split; [apply Z.div_pos; lia|apply Z.div_lt_upper_bound; lia]|lia|].
    exists (ds ++ [hex_digit (z mod 16)]); split_and!.
    + by rewrite Hds, <- app_assoc.
    + by destruct ds.
    + rewrite length_app; simpl; lia.
    + apply Forall_app; split; [done|by repeat constructor].
    + intros v n rest; rewrite <- app_assoc, Hscan; cbn [app scan_digits]; rewrite hex_value_digit by done.
      rewrite zlen_app, Z.pow_add_r by (auto with cint || lia); change (zlen [_]) with 1; change (16 ^ 1) with 16.
      pose proof (Z.div_mod z 16 ltac:(lia)).
      by f_equal; [lia|]; lia.
Qed.

Lemma fmt_hex_spec z :
  0 <= z < 2 ^ 64 ->
  fmt_hex z <> [] /\ (length (fmt_hex z) <= 16)%nat /\ Forall is_hex (fmt_hex z) /\
  forall v n rest, scan_digits v n (fmt_hex z ++ rest)
    = scan_digits (v * 16 ^ zlen (fmt_hex z) + z) (n + zlen (fmt_hex z)) rest.
Proof.
  intros Hz; unfold fmt_hex; destruct (hex_digits_spec 16 z []) as (ds & -> & H); [exact Hz|lia|].
  by rewrite app_nil_r.
Qed.

(** Fuel beyond the digits changes nothing. *)
Lemma hex_digits_more k f z acc :
  0 <= z < 16 ^ Z.of_nat f -> (0 < f)%nat -> hex_digits (f + k) z acc = hex_digits f z acc.
Proof.
  revert z acc; induction f as [|f IH]; intros z acc Hz Hf; [lia|]; cbn [hex_digits Nat.add].
  destruct (Z.eqb_spec (z / 16) 0); [done|]; rewrite Nat2Z.inj_succ, Z.pow_succ_r in Hz by lia.
  destruct f as [|f]; [change (Z.of_nat 0) with 0 in Hz; dlia|].
  apply IH; [split; [apply Z.div_pos; lia|apply Z.div_lt_upper_bound; lia]|lia].
Qed.

(** A 32-bit value takes at most eight digits. *)
Lemma fmt_hex_32 z : 0 <= z < 2 ^ 32 -> (length (fmt_hex z) <= 8)%nat.
Proof.
  intros Hz; unfold fmt_hex; change 16%nat with (8 + 8)%nat; rewrite hex_digits_more by (exact Hz || lia).
  destruct (hex_digits_spec 8 z []) as (ds & E & _ & Hl & _); [exact Hz|lia|]; by rewrite E, app_nil_r.
Qed.

(** Neither the rest of the line nor leading white space disturbs a value. *)
Lemma scan_fmt_hex w z rest :
  (w = 32 \/ w = 64) -> 0 <= z < 2 ^ w -> match rest with [] => True | c :: _ => hex_value c = None /\ c <> 0x78 /\ c <> 0x58 end ->
  scan_hex w (fmt_hex z ++ rest) = Some (z, rest).
Proof.
  intros Hw Hz Hrest; assert (Hz64 : 0 <= z < 2 ^ 64) by (destruct Hw as [-> | ->]; lia).
  destruct (fmt_hex_spec z Hz64) as (Hne & _ & Hall & Hscan); unfold scan_hex.
  destruct (fmt_hex z) as [|a ds] eqn:E; [done|]; cbn [app]; apply Forall_cons_1 in Hall as [Ha Hds].
  destruct (is_hex_char a Ha) as (Hr & _ & Hs); cbn [skip_spaces]; rewrite Hs.
  rewrite (proj2 (Z.eqb_neq a 0x2d)), (proj2 (Z.eqb_neq a 0x2b)) by lia.
  assert (Hpre : match ds ++ rest with b :: c :: s' =>
      if (a =? 0x30) && ((b =? 0x78) || (b =? 0x58))
         && match hex_value c with Some _ => true | None => false end then c :: s' else a :: ds ++ rest
      | _ => a :: ds ++ rest end = a :: ds ++ rest).
  { destruct (ds ++ rest) as [|b [|c s']] eqn:Ed; try done.
    assert (b <> 0x78 /\ b <> 0x58) as [H1 H2].
    { destruct ds as [|b' ds]; cbn [app] in Ed.
      - destruct rest as [|c' rest]; [done|]; injection Ed as -> _; apply Hrest.
      - injection Ed as -> _; apply Forall_cons_1 in Hds as [Hb _]; apply is_hex_char in Hb; lia. }
    by rewrite (proj2 (Z.eqb_neq b _)), (proj2 (Z.eqb_neq b _)), andb_false_r by done. }
  assert (Hm : z mod 2 ^ w = z) by (by apply Z.mod_small).
  specialize (Hscan 0 0 rest); cbn [app] in Hscan.
  assert (Hend : scan_digits (0 * 16 ^ zlen (a :: ds) + z) (0 + zlen (a :: ds)) rest = (z, zlen (a :: ds), rest)).
  { rewrite Z.mul_0_l, !Z.add_0_l; destruct rest as [|c rest]; [done|]; cbn [scan_digits].
    by destruct Hrest as [-> _]. }
  rewrite Hend in Hscan.
  transitivity (let '(v, n, s) := scan_digits 0 0 (a :: ds ++ rest) in
                if n =? 0 then None else Some (v mod 2 ^ w, s)).
  { destruct (ds ++ rest) as [|b [|c s']]; [done|done|]; by rewrite Hpre. }
  rewrite Hscan, (proj2 (Z.eqb_neq _ 0)), Hm; [done|]; rewrite zlen_cons; pose proof (zlen_nonneg ds); lia.
Qed.

Lemma scan_hex_space w s : scan_hex w (32 :: s) = scan_hex w s.
Proof. done. Qed.

Lemma c_string_id s : Forall (fun c => c <> 0) s -> c_string s = s.
Proof. induction 1 as [|c s Hc _ IH]; [done|]; cbn [c_string]; by rewrite (proj2 (Z.eqb_neq _ _)), IH by done. Qed.

Lemma fmt_hex_nonzero z : 0 <= z < 2 ^ 64 -> Forall (fun c => c <> 0) (fmt_hex z).
Proof.
  intros Hz; destruct (fmt_hex_spec z Hz) as (_ & _ & Hall & _); eapply list.Forall_impl; [exact Hall|].
  intros c Hc; apply is_hex_char in Hc; lia.
Qed.

Lemma hex_stops r : match 32 :: r with [] => True | c :: _ => hex_value c = None /\ c <> 0x78 /\ c <> 0x58 end.
Proof. done. Qed.

Lemma fmt_hex_len z : 0 <= z < 2 ^ 64 -> 0 < zlen (fmt_hex z) <= 16.
Proof. intros Hz; destruct (fmt_hex_spec z Hz) as (Hne & Hl & _); unfold zlen; destruct (fmt_hex z); [done|simpl in *; lia]. Qed.

Lemma fmt_hex_len_60 z : 0 <= z < 2 ^ 60 -> zlen (fmt_hex z) <= 15.
Proof.
  intros Hz; unfold fmt_hex; change 16%nat with (15 + 1)%nat; rewrite hex_digits_more by (exact Hz || lia).
  destruct (hex_digits_spec 15 z []) as (ds & E & _ & Hl & _); [exact Hz|lia|]; rewrite E, app_nil_r; unfold zlen; lia.
Qed.

Lemma fmt_sync_len seq t1 : zlen (fmt_sync seq t1) = 6 + zlen (fmt_hex seq) + zlen (fmt_hex t1).
Proof. unfold fmt_sync; rewrite !zlen_app; change (zlen str_SYNC) with 5; change (zlen [32]) with 1; lia. Qed.

Lemma fmt_syncr_len seq t1 t2 t3 :
  zlen (fmt_syncr seq t1 t2 t3) = 9 + zlen (fmt_hex seq) + zlen (fmt_hex t1) + zlen (fmt_hex t2) + zlen (fmt_hex t3).
Proof. unfold fmt_syncr; rewrite !zlen_app; change (zlen str_SYNCR) with 6; change (zlen [32]) with 1; lia. Qed.

Lemma fmt_sync_fits seq t1 : 0 <= seq < 2 ^ 32 -> 0 <= t1 < 2 ^ 64 -> 0 < zlen (fmt_sync seq t1) <= 30.
Proof.
  intros Hs H1; rewrite fmt_sync_len; pose proof (fmt_hex_32 seq Hs) as Hseq; assert (zlen (fmt_hex seq) <= 8) by (unfold zlen; lia).
  pose proof (fmt_hex_len t1 H1); pose proof (zlen_nonneg (fmt_hex seq)); lia.
Qed.

Lemma parse_fmt_sync seq t1 :
  0 <= seq < 2 ^ 32 -> 0 <= t1 < 2 ^ 64 -> parse_air_cmd AR8030_CHUNK_CODEC_CTRL (fmt_sync seq t1) = Cmd_sync seq t1.
Proof.
  intros Hs H1; pose proof (fmt_sync_fits seq t1 Hs H1); unfold parse_air_cmd, AR8030_CTRL_MAX_PAYLOAD.
  rewrite (proj2 (Z.eqb_neq (zlen _) 0)), (proj2 (Z.leb_gt _ _)) by lia.
  change (negb (AR8030_CHUNK_CODEC_CTRL =? AR8030_CHUNK_CODEC_CTRL)) with false; cbn [orb].
  rewrite c_string_id by (unfold fmt_sync; repeat (apply Forall_app; split); try (apply fmt_hex_nonzero; lia); by repeat constructor).
  change (has_prefix str_SYNC (fmt_sync seq t1)) with true; cbv iota.
  change (zdrop 5 (fmt_sync seq t1)) with (fmt_hex seq ++ 32 :: fmt_hex t1); unfold scan_sync.
  rewrite scan_fmt_hex by (auto using hex_stops || lia); cbn [mbind option_bind]; rewrite scan_hex_space.
  by rewrite <- (app_nil_r (fmt_hex t1)), scan_fmt_hex by (auto || lia).
Qed.

Lemma parse_fmt_syncr seq t1 t2 t3 :
  0 <= seq < 2 ^ 32 -> 0 <= t1 < 2 ^ 64 -> 0 <= t2 < 2 ^ 64 -> 0 <= t3 < 2 ^ 64 ->
  zlen (fmt_syncr seq t1 t2 t3) < AR8030_CTRL_MAX_PAYLOAD ->
  parse_ground_ctrl (fmt_syncr seq t1 t2 t3) = Some (seq, t1, t2, t3).
Proof.
  intros Hs H1 H2 H3 Hfit; unfold parse_ground_ctrl; pose proof (fmt_syncr_len seq t1 t2 t3) as Hl.
  pose proof (zlen_nonneg (fmt_hex seq)); pose proof (zlen_nonneg (fmt_hex t1)); pose proof (zlen_nonneg (fmt_hex t2)).
  pose proof (zlen_nonneg (fmt_hex t3)); rewrite (proj2 (Z.eqb_neq (zlen _) 0)), (proj2 (Z.leb_gt _ _)) by lia; cbn [orb].
  rewrite c_string_id by (unfold fmt_syncr; repeat (apply Forall_app; split); try (apply fmt_hex_nonzero; lia); by repeat constructor).
  change (has_prefix str_SYNCR (fmt_syncr seq t1 t2 t3)) with true; cbv iota.
  change (zdrop 6 (fmt_syncr seq t1 t2 t3)) with
    (fmt_hex seq ++ 32 :: fmt_hex t1 ++ 32 :: fmt_hex t2 ++ 32 :: fmt_hex t3); unfold scan_syncr.
  do 3 (rewrite scan_fmt_hex by (auto using hex_stops || lia); cbn [mbind option_bind]; rewrite scan_hex_space).
  by rewrite <- (app_nil_r (fmt_hex t3)), scan_fmt_hex by (auto || lia).
Qed.

(** The clock-sync exchange survives its text form: a probe the ground
    formats is read by the air unit with the same sequence number and
    timestamp, a reply the air unit formats is read by the ground with the
    same four values, and both fit the control chunk, for every 32-bit
    sequence number and 64-bit time. *)
Theorem sync_messages_roundtrip seq t1 t2 t3 :
  0 <= seq < 2 ^ 32 -> 0 <= t1 < 2 ^ 64 -> 0 <= t2 < 2 ^ 64 -> 0 <= t3 < 2 ^ 64 ->
  parse_air_cmd AR8030_CHUNK_CODEC_CTRL (fmt_sync seq t1) = Cmd_sync seq t1 /\
  (zlen (fmt_syncr seq t1 t2 t3) < AR8030_CTRL_MAX_PAYLOAD ->
   parse_ground_ctrl (fmt_syncr seq t1 t2 t3) = Some (seq, t1, t2, t3)) /\
  zlen (fmt_sync seq t1) < AR8030_CTRL_MAX_PAYLOAD /\
  (t1 < 2 ^ 60 -> t2 < 2 ^ 60 -> t3 < 2 ^ 60 -> zlen (fmt_syncr seq t1 t2 t3) < AR8030_CTRL_MAX_PAYLOAD).
Proof.
  intros Hs H1 H2 H3; pose proof (fmt_sync_fits seq t1 Hs H1); unfold AR8030_CTRL_MAX_PAYLOAD; split_and!;
    [by apply parse_fmt_sync|by apply parse_fmt_syncr|lia|].
  intros L1 L2 L3; rewrite fmt_syncr_len; pose proof (fmt_hex_32 seq Hs) as Hseq; assert (zlen (fmt_hex seq) <= 8) by (unfold zlen; lia).
  pose proof (fmt_hex_len_60 t1 ltac:(lia)); pose proof (fmt_hex_len_60 t2 ltac:(lia)); pose proof (fmt_hex_len_60 t3 ltac:(lia)); lia.
Qed.
End hex.

Lemma sync_messages_roundtrip_witness :
  parse_air_cmd AR8030_CHUNK_CODEC_CTRL (fmt_sync 0xabc 0x123456789) = Cmd_sync 0xabc 0x123456789 /\
  parse_ground_ctrl (fmt_syncr 1 0x123456789 0 0xfffff) = Some (1, 0x123456789, 0, 0xfffff).
Proof.
  destruct (sync_messages_roundtrip 0xabc 0x123456789 0 0xfffff) as (H1 & _); [lia..|].
  destruct (sync_messages_roundtrip 1 0x123456789 0 0xfffff) as (_ & H2 & _ & H3); [lia..|].
  split; [exact H1|apply H2, H3; lia].
Defined.
