(* ===== verification/IdrCtrl.v ===== *)
(** [tx/idr_ctrl.c]: which of the ground's keyframe requests become an HTTP
    request to the encoder. *)

From S2P Require Import Prelude CtrlMsg.
#[local] Open Scope Z_scope.

Definition IDR_CTRL_TOKENS : Z := 16.

(** [struct seen_token]; times are milliseconds, 0 marks a free entry. *)
Record seen_token := mk_seen { sn_token : list Z; sn_at_ms : Z }.

(** The part of [idr_ctrl_cfg_t] that decides. *)
Record idr_cfg := mk_idr_cfg { coalesce_ms : Z; dedup_ms : Z }.

(** The reader thread's [seen] and [last_honored_ms]. *)
Record idr_state := mk_idr { id_seen : list seen_token; id_last_honored_ms : Z }.

Definition idr_init : idr_state := mk_idr (replicate (Z.to_nat IDR_CTRL_TOKENS) (mk_seen [] 0)) 0.

(** The scan for the entry with the smallest time, the first of equals. *)
Definition seen_at (l : list seen_token) (i : nat) : seen_token := nth i l (mk_seen [] 0).
Definition oldest_seen (l : list seen_token) : nat :=
  fold_left (fun oldest i => if sn_at_ms (seen_at l i) <? sn_at_ms (seen_at l oldest) then i else oldest)
    (seq 1 (Z.to_nat IDR_CTRL_TOKENS - 1)) O.

(** [handle_idr]: whether the encoder is asked, and the new state.
    [congested] is [bitrate_ctl_congested()]. *)
Definition handle_idr (cfg : idr_cfg) (now : Z) (congested : bool) (token : list Z) (st : idr_state)
    : bool * idr_state :=
  if existsb (fun s => negb (sn_at_ms s =? 0) && (now - sn_at_ms s <? dedup_ms cfg)
                       && bool_decide (sn_token s = token)) (id_seen st)
  then (false, st)
  else
    let seen := <[oldest_seen (id_seen st) := mk_seen token now]> (id_seen st) in
    if congested then (false, mk_idr seen (id_last_honored_ms st))
    else if negb (id_last_honored_ms st =? 0) && (now - id_last_honored_ms st <? coalesce_ms cfg)
    then (false, mk_idr seen (id_last_honored_ms st))
    else (true, mk_idr seen now).

(** ** A run of requests *)

Record idr_event := mk_ev { ev_now : Z; ev_congested : bool; ev_token : list Z }.

(** The events the encoder was asked for. *)
Fixpoint idr_run (cfg : idr_cfg) (st : idr_state) (es : list idr_event) : list idr_event :=
  match es with
  | [] => []
  | e :: es =>
      let '(asked, st) := handle_idr cfg (ev_now e) (ev_congested e) (ev_token e) st in
      if asked then e :: idr_run cfg st es else idr_run cfg st es
  end.

(** Times since the last request honoured, for each one honoured. *)
Fixpoint spaced (gap last : Z) (es : list idr_event) : Prop :=
  match es with
  | [] => True
  | e :: es => (last <> 0 -> gap <= ev_now e - last) /\ spaced gap (ev_now e) es
  end.

Section idr.
Context (cfg : idr_cfg).

Lemma handle_idr_honoured now c tok st st' :
  handle_idr cfg now c tok st = (true, st') ->
  c = false /\ (id_last_honored_ms st <> 0 -> coalesce_ms cfg <= now - id_last_honored_ms st) /\
  id_last_honored_ms st' = now.
Proof.
  unfold handle_idr; destruct (existsb _ _); [done|]; destruct c; [done|].
  destruct (_ && _) eqn:E; [done|]; intros [= <-]; cbn; split_and!; [done| |done].
  intros Hn; apply andb_false_iff in E as [E|E]; bool_to_prop; [|lia].
  by destruct Hn.
Qed.

Lemma handle_idr_refused now c tok st st' :
  handle_idr cfg now c tok st = (false, st') -> id_last_honored_ms st' = id_last_honored_ms st.
Proof.
  unfold handle_idr; destruct (existsb _ _); [by intros [= <-]|]; destruct c; [by intros [= <-]|].
  destruct (_ && _); [by intros [= <-]|done].
Qed.

Lemma idr_run_spaced st es :
  spaced (coalesce_ms cfg) (id_last_honored_ms st) (idr_run cfg st es) /\
  Forall (fun e => ev_congested e = false) (idr_run cfg st es).
Proof.
  revert st; induction es as [|e es IH]; intros st; [by split|]; cbn [idr_run].
  destruct (handle_idr cfg _ _ _ st) as [[] st'] eqn:E; destruct (IH st') as [H1 H2].
  - apply handle_idr_honoured in E as (Hc & Hg & Hl); rewrite Hl in H1; split; [by split|by constructor].
  - apply handle_idr_refused in E; rewrite <- E; by split.
Qed.

(** While free entries are left, recording fills them in order. *)
Lemma oldest_free rec k :
  Forall (fun s => 0 < sn_at_ms s) rec -> (length rec + k = 16)%nat -> (0 < k)%nat ->
  oldest_seen (rec ++ replicate k (mk_seen [] 0)) = length rec.
Proof.
  intros Hpos Hl Hk; unfold oldest_seen; set (l := rec ++ _); change (Z.to_nat IDR_CTRL_TOKENS - 1)%nat with 15%nat.
  assert (Hat : forall i, if (i <? length rec)%nat then 0 < sn_at_ms (seen_at l i) else sn_at_ms (seen_at l i) = 0).
  { intros i; unfold seen_at, l; destruct (Nat.ltb_spec i (length rec)).
    - rewrite app_nth1 by done; rewrite list.Forall_forall in Hpos; apply Hpos, list_elem_of_In, nth_In; done.
    - rewrite app_nth2 by done; rewrite nth_lookup.
      destruct (replicate k _ !! _) as [s|] eqn:E; [apply lookup_replicate in E as [-> _]|]; done. }
  set (f := fun oldest i => _).
  assert (H : forall m, fold_left f (seq 1 m) O = if (m <? length rec)%nat then fold_left f (seq 1 m) O else length rec).
  { intros m; destruct (Nat.ltb_spec m (length rec)); [done|]; induction m as [|m IH].
    - simpl; lia.
    - rewrite seq_S, fold_left_app; cbn [fold_left Nat.add]; destruct (Nat.eq_dec (length rec) (S m)) as [E|E].
      + unfold f at 1; pose proof (Hat (S m)) as H1; rewrite E, Nat.ltb_irrefl in H1.
        assert (Hb : forall j, (j <= m)%nat -> (fold_left f (seq 1 j) O <= j)%nat).
        { induction j as [|j IHj]; intros Hj; [simpl; lia|]; rewrite seq_S, fold_left_app; cbn [fold_left Nat.add].
          specialize (IHj ltac:(lia)); unfold f at 1; destruct (_ <? _); lia. }
        specialize (Hb m ltac:(lia)); pose proof (Hat (fold_left f (seq 1 m) O)) as H2.
        rewrite (proj2 (Nat.ltb_lt _ _)) in H2 by lia; rewrite H1, (proj2 (Z.ltb_lt _ _)) by done; done.
      + rewrite IH by lia; unfold f; pose proof (Hat (length rec)) as H1; rewrite Nat.ltb_irrefl in H1.
        pose proof (Hat (S m)) as H2; rewrite (proj2 (Nat.ltb_ge _ _)) in H2 by lia.
        by rewrite H1, H2. }
  rewrite H, (proj2 (Nat.ltb_ge _ _)) by lia; done.
Qed.

(** The tokens recorded so far all count as duplicates. *)
Lemma idr_run_dedup es : forall rec last t0,
  Forall (fun s => t0 <= sn_at_ms s) rec -> 0 < t0 ->
  Forall (fun e => t0 <= ev_now e < t0 + dedup_ms cfg) es -> (length rec + length es <= 16)%nat ->
  NoDup (ev_token <$> idr_run cfg (mk_idr (rec ++ replicate (16 - length rec) (mk_seen [] 0)) last) es) /\
  forall s, s ∈ rec -> sn_token s ∉ ev_token <$> idr_run cfg (mk_idr (rec ++ replicate (16 - length rec) (mk_seen [] 0)) last) es.
Proof.
  induction es as [|e es IH]; intros rec last t0 Hrec H0 Hes Hl.
  { cbn; split; [constructor|]; intros; apply not_elem_of_nil. }
  apply Forall_cons_1 in Hes as [He Hes]; simpl in Hl; cbn [idr_run]; unfold handle_idr; cbn [id_seen id_last_honored_ms].
  destruct (existsb _ _) eqn:Ex.
  { by apply (IH rec last t0); [..|lia]. }
  assert (Hnew : ev_token e ∉ sn_token <$> rec).
  { intros Hin; apply list_elem_of_fmap in Hin as (s & Hs & Hin).
    assert (Ht : existsb (fun s => negb (sn_at_ms s =? 0) && (ev_now e - sn_at_ms s <? dedup_ms cfg)
      && bool_decide (sn_token s = ev_token e)) (rec ++ replicate (16 - length rec) (mk_seen [] 0)) = true); [|congruence].
    apply existsb_exists; exists s; split; [apply in_or_app; left; by apply list_elem_of_In|].
    rewrite list.Forall_forall in Hrec; specialize (Hrec s Hin).
    rewrite (proj2 (Z.eqb_neq _ _)), (proj2 (Z.ltb_lt _ _)), bool_decide_true by (done || lia); done. }
  rewrite (oldest_free rec (16 - length rec)); [|eapply list.Forall_impl; [exact Hrec|]; cbn; lia|lia|lia].
  assert (Hins : <[length rec := mk_seen (ev_token e) (ev_now e)]> (rec ++ replicate (16 - length rec) (mk_seen [] 0))
    = (rec ++ [mk_seen (ev_token e) (ev_now e)]) ++ replicate (16 - length (rec ++ [mk_seen (ev_token e) (ev_now e)])) (mk_seen [] 0)).
  { rewrite insert_app_r_alt, Nat.sub_diag by lia; rewrite length_app; cbn [length].
    replace (16 - length rec)%nat with (S (16 - (length rec + 1))) by lia; cbn [replicate]; by rewrite <- app_assoc. }
  rewrite Hins.
  assert (Hrec' : Forall (fun s => t0 <= sn_at_ms s) (rec ++ [mk_seen (ev_token e) (ev_now e)])).
  { apply Forall_app; split; [done|]; constructor; [cbn; lia|constructor]. }
  assert (Hl' : (length (rec ++ [mk_seen (ev_token e) (ev_now e)]) + length es <= 16)%nat).
  { rewrite length_app; simpl; lia. }
  assert (Hrest : forall last', let r := idr_run cfg (mk_idr ((rec ++ [mk_seen (ev_token e) (ev_now e)])
      ++ replicate (16 - length (rec ++ [mk_seen (ev_token e) (ev_now e)])) (mk_seen [] 0)) last') es in
    NoDup (ev_token <$> r) /\ (forall s, s ∈ rec -> sn_token s ∉ ev_token <$> r) /\ ev_token e ∉ ev_token <$> r).
  { intros last' r; destruct (IH _ last' t0 Hrec' H0 Hes Hl') as [H1 H2]; split_and!; [done| |].
    - intros s Hs; apply H2, elem_of_app; by left.
    - apply (H2 (mk_seen (ev_token e) (ev_now e))), elem_of_app; right; by apply list_elem_of_singleton. }
  destruct (ev_congested e).
  { destruct (Hrest last) as (H1 & H2 & _); by split. }
  destruct (_ && _).
  { destruct (Hrest last) as (H1 & H2 & _); by split. }
  destruct (Hrest (ev_now e)) as (H1 & H2 & H3); cbn [fmap list_fmap]; split; [by constructor|].
  intros s Hs; apply not_elem_of_cons; split; [|by apply H2].
  intros E; apply Hnew; rewrite <- E; apply list_elem_of_fmap; by exists s.
Qed.

(** C40. Keyframe requests are filtered as promised: whatever arrives, the
    encoder is never asked while the link is congested nor twice within
    [coalesce_ms]; a request that finds nothing against it is honoured; and in
    a burst of up to sixteen messages inside [dedup_ms] every token is honoured
    at most once, however often it is retransmitted. *)
Theorem idr_requests_filtered es :
  Forall (fun e => 0 < ev_now e) es ->
  let asked := idr_run cfg idr_init es in
  spaced (coalesce_ms cfg) 0 asked /\
  Forall (fun e => ev_congested e = false) asked /\
  (forall e es', es = e :: es' -> ev_congested e = false -> head asked = Some e) /\
  (forall t0, 0 < t0 -> (length es <= 16)%nat ->
     Forall (fun e => t0 <= ev_now e < t0 + dedup_ms cfg) es -> NoDup (ev_token <$> asked)).
Proof.
  intros Hpos asked; destruct (idr_run_spaced idr_init es) as [H1 H2]; split_and!; try done.
  - intros e es' -> Hc; subst asked; cbn [idr_run]; unfold handle_idr; rewrite Hc.
    change (existsb _ (id_seen idr_init)) with false; cbv iota; done.
  - intros t0 H0 Hl Hes; by apply (idr_run_dedup es [] 0 t0).
Qed.
End idr.

Lemma idr_requests_filtered_witness :
  let es := [mk_ev 1000 false [1]; mk_ev 1050 false [1]; mk_ev 1100 false [2]; mk_ev 1400 false [3]] in
  idr_run (mk_idr_cfg 250 1000) idr_init es = [mk_ev 1000 false [1]; mk_ev 1400 false [3]] /\
  NoDup (ev_token <$> idr_run (mk_idr_cfg 250 1000) idr_init es).
Proof.
  cbn zeta; split; [vm_compute; reflexivity|].
  apply (idr_requests_filtered (mk_idr_cfg 250 1000)
    [mk_ev 1000 false [1]; mk_ev 1050 false [1]; mk_ev 1100 false [2]; mk_ev 1400 false [3]]
    ltac:(repeat constructor)) with (t0 := 1000); [lia|simpl; lia|repeat constructor; simpl; lia].
Defined.
