(* ===== verification/SidecarSrv.v ===== *)
(** [rx/sidecar_srv.c], [common/sidecar_wire.h], [tx/sidecar_sub.c]: the
    encoder's timing datagrams, tunnelled to the ground and served to local
    subscribers there. *)

From stdpp Require Import sets.
From S2P Require Import Prelude ChunkHdr ClockSync Outq.
#[local] Open Scope Z_scope.

Definition SIDECAR_MAGIC : Z := 0x52545053.
Definition SIDECAR_VERSION : Z := 1.
Definition SIDECAR_MSG_SUBSCRIBE : Z := 1.
Definition SIDECAR_MSG_FRAME : Z := 2.
Definition SIDECAR_MSG_SYNC_REQ : Z := 3.
Definition SIDECAR_MSG_SYNC_RESP : Z := 4.
Definition SIDECAR_SUB_TTL_US : Z := 5 * 1000000.
Definition SIDECAR_MAX_SUBS : Z := 4.
Definition SIDECAR_HDR_SIZE : Z := 8.
Definition SIDECAR_FRAME_SIZE : Z := 52.
Definition SIDECAR_SYNC_REQ_SIZE : Z := 16.

(** An IPv4 address and port. *)
Definition sock_addr := (Z * Z)%type.

(** One entry of [subs]. *)
Record sub := mk_sub { sub_addr : sock_addr; sub_expires_us : Z }.

(** [sidecar_srv_t]; [sc_open] is [fd >= 0]. *)
Record sidecar_srv := mk_srv {
  sc_open : bool;
  sc_subs : list sub;
  sc_encode_avg_us : Z;
  sc_published : Z
}.

(** [bound] is what [socket] and [bind] came to. *)
Definition sidecar_srv_open (port : Z) (bound : bool) : sidecar_srv :=
  mk_srv (if port <=? 0 then false else bound)
    (replicate (Z.to_nat SIDECAR_MAX_SUBS) (mk_sub (0, 0) 0)) 0 0.

Definition sidecar_srv_close (s : sidecar_srv) : sidecar_srv :=
  mk_srv false (sc_subs s) (sc_encode_avg_us s) (sc_published s).

(** The first entry a test accepts, as the loops of [subscribe] find it. *)
Fixpoint first_sub (f : sub -> bool) (l : list sub) : option nat :=
  match l with
  | [] => None
  | x :: l => if f x then Some O else S <$> first_sub f l
  end.

Definition subscribe (s : sidecar_srv) (from : sock_addr) (now : Z) : sidecar_srv :=
  let live := fun x => (now <? sub_expires_us x) && bool_decide (sub_addr x = from) in
  let free := fun x => sub_expires_us x <=? now in
  let slot := match first_sub live (sc_subs s) with
              | Some i => Some i
              | None => first_sub free (sc_subs s)
              end in
  match slot with
  | Some i => mk_srv (sc_open s) (<[i := mk_sub from (u64 (now + SIDECAR_SUB_TTL_US))]> (sc_subs s))
                (sc_encode_avg_us s) (sc_published s)
  | None => s
  end.

(** Whether the first eight bytes are one of ours. *)
Definition sidecar_hdr_ok (buf : list Z) : bool :=
  (be_dec (zslice 0 4 buf) =? SIDECAR_MAGIC) && (byte_at buf 4 =? SIDECAR_VERSION).

Definition sidecar_msg_type (buf : list Z) : Z := byte_at buf 5.

(** The SYNC_RESP: t1 echoed as received, t2 and t3 on the air clock. *)
Definition sync_resp (t1 : list Z) (t2 t3 : Z) : list Z :=
  be_enc 4 SIDECAR_MAGIC ++ [SIDECAR_VERSION; SIDECAR_MSG_SYNC_RESP; 0; 0] ++ t1 ++ be_enc 8 t2 ++ be_enc 8 t3.

(** One datagram of the listener thread, received at [t2]; [t3] is the clock
    when the answer is built.  The answer, if any. *)
Definition sidecar_srv_datagram (s : sidecar_srv) (cs : clock_sync) (buf : list Z) (from : sock_addr) (t2 t3 : Z)
    : option (list Z) * sidecar_srv :=
  if zlen buf <? SIDECAR_HDR_SIZE then (None, s)
  else if negb (sidecar_hdr_ok buf) then (None, s)
  else
    let s := subscribe s from t2 in
    if (sidecar_msg_type buf =? SIDECAR_MSG_SYNC_REQ) && (SIDECAR_SYNC_REQ_SIZE <=? zlen buf) then
      match clock_sync_get cs with
      | None => (None, s)
      | Some (offset, _) =>
          (Some (sync_resp (zslice 8 8 buf) (u64 (s64 (s64 t2 + offset))) (u64 (s64 (s64 t3 + offset)))), s)
      end
    else (None, s).

(** The addresses a datagram published at [now] goes to, and the new state. *)
Definition sidecar_srv_publish (s : sidecar_srv) (dgram : list Z) (now : Z) : list sock_addr * sidecar_srv :=
  let avg :=
    if SIDECAR_FRAME_SIZE <=? zlen dgram then
      let capture := be_dec (zslice 36 8 dgram) in
      let ready := be_dec (zslice 24 8 dgram) in
      if negb (capture =? 0) && (capture <? ready) && (u64 (ready - capture) <? 200000) then
        let enc := u32 (u64 (ready - capture)) in
        let avg := sc_encode_avg_us s in
        if negb (avg =? 0) then u32 (u32 (avg * 7) + enc) / 8 else enc
      else sc_encode_avg_us s
    else sc_encode_avg_us s in
  let s := mk_srv (sc_open s) (sc_subs s) avg (u64 (sc_published s + 1)) in
  if negb (sc_open s) then ([], s)
  else (sub_addr <$> filter (fun x => now <? sub_expires_us x) (sc_subs s), s).

(** ** The air side *)

Definition SIDECAR_SUB_REFRESH_MS : Z := 2000.

(** Whether a subscribe datagram is due, and [last_sub_ms]. *)
Definition sidecar_refresh (now last_sub_ms : Z) : bool * Z :=
  if SIDECAR_SUB_REFRESH_MS <=? now - last_sub_ms then (true, now) else (false, last_sub_ms).

Definition subscribe_msg : list Z :=
  be_enc 4 SIDECAR_MAGIC ++ [SIDECAR_VERSION; SIDECAR_MSG_SUBSCRIBE; 0; 0].

(** One datagram from the encoder: queued for the ground, or passed over. *)
Definition sidecar_sub_datagram (q : outq) (forwarded : Z) (buf : list Z) : outq * Z :=
  let data := ztake AR8030_SIDECAR_MAX_PAYLOAD buf in
  if (zlen data <? SIDECAR_HDR_SIZE) || negb (sidecar_hdr_ok data)
     || negb (sidecar_msg_type data =? SIDECAR_MSG_FRAME) then (q, forwarded)
  else (tx_outq_push q (mk_item AR8030_CHUNK_CODEC_SIDECAR false 0 0 0 data), u64 (forwarded + 1)).

(** ** The subscription table *)

Section table.

(** Whether [a] is subscribed at [now]. *)
Definition subscribed (l : list sub) (now : Z) (a : sock_addr) : Prop :=
  exists x, x ∈ l /\ sub_addr x = a /\ now < sub_expires_us x.

(** The live entries' addresses. *)
Definition live_addrs (l : list sub) (now : Z) : list sock_addr :=
  sub_addr <$> filter (fun x => now <? sub_expires_us x) l.

Lemma first_sub_Some f l i : first_sub f l = Some i -> exists x, l !! i = Some x /\ f x = true.
Proof.
  revert i; induction l as [|x l IH]; intros i; cbn [first_sub]; [done|]; destruct (f x) eqn:E.
  - intros [= <-]; by exists x.
  - destruct (first_sub f l) as [j|]; [|done]; intros [= <-]; by apply IH.
Qed.

Lemma first_sub_None f l x : first_sub f l = None -> x ∈ l -> f x = false.
Proof.
  induction l as [|y l IH]; cbn [first_sub]; [by intros _ ?%not_elem_of_nil|]; destruct (f y) eqn:E; [done|].
  destruct (first_sub f l); [done|]; intros _ [->|H]%elem_of_cons; auto.
Qed.

Lemma live_addrs_spec l now a : a ∈ live_addrs l now <-> subscribed l now a.
Proof.
  unfold live_addrs, subscribed; rewrite list_elem_of_fmap; split.
  - intros (x & -> & [Hx Hin]%list_elem_of_filter); exists x; split_and!; [done|done|].
    apply Is_true_true in Hx; bool_to_prop; lia.
  - intros (x & Hin & <- & Hx); exists x; split; [done|]; apply list_elem_of_filter; split; [|done].
    apply Is_true_true; lia.
Qed.

(** Entries of an inserted list. *)
Lemma insert_split (l : list sub) i x y : l !! i = Some y -> exists l1 l2, l = l1 ++ y :: l2 /\ <[i := x]> l = l1 ++ x :: l2.
Proof.
  intros H; exists (take i l), (drop (S i) l); pose proof (lookup_lt_Some _ _ _ H); split.
  - by rewrite <- drop_S, take_drop.
  - by rewrite insert_take_drop.
Qed.

Lemma live_addrs_mid l1 x l2 now :
  live_addrs (l1 ++ x :: l2) now
  = live_addrs l1 now ++ (if now <? sub_expires_us x then [sub_addr x] else []) ++ live_addrs l2 now.
Proof.
  unfold live_addrs; rewrite list.filter_app, fmap_app; f_equal; rewrite list.filter_cons.
  destruct (now <? sub_expires_us x); by case_decide.
Qed.

(** The subscription table is fair: a subscribe never costs another live
    subscriber its place, renews the sender's own or takes a free entry if
    there is one, and leaves every address in the table at most once; so each
    published datagram goes exactly once to every live subscriber. *)
Theorem subscribe_fair s from now dgram :
  0 <= now < 2 ^ 63 -> NoDup (live_addrs (sc_subs s) now) ->
  let s' := subscribe s from now in
  NoDup (live_addrs (sc_subs s') now) /\
  (forall a, subscribed (sc_subs s) now a -> subscribed (sc_subs s') now a) /\
  (forall a, subscribed (sc_subs s') now a -> a = from \/ subscribed (sc_subs s) now a) /\
  ((exists x, x ∈ sc_subs s /\ sub_expires_us x <= now) \/ subscribed (sc_subs s) now from ->
   subscribed (sc_subs s') (now + SIDECAR_SUB_TTL_US - 1) from) /\
  (sc_open s' = true -> forall a, subscribed (sc_subs s') now a ->
     exists l1 l2, (sidecar_srv_publish s' dgram now).1 = l1 ++ a :: l2 /\ a ∉ l1 ++ l2).
Proof.
  intros Hnow Hnd s'.
  assert (Hu : u64 (now + SIDECAR_SUB_TTL_US) = now + SIDECAR_SUB_TTL_US) by (unfold SIDECAR_SUB_TTL_US; apply u64_id; lia).
  assert (Hnd' : NoDup (live_addrs (sc_subs s') now) /\
    (forall a, subscribed (sc_subs s) now a -> subscribed (sc_subs s') now a) /\
    (forall a, subscribed (sc_subs s') now a -> a = from \/ subscribed (sc_subs s) now a) /\
    ((exists x, x ∈ sc_subs s /\ sub_expires_us x <= now) \/ subscribed (sc_subs s) now from ->
     subscribed (sc_subs s') (now + SIDECAR_SUB_TTL_US - 1) from)).
  { subst s'; unfold subscribe; rewrite Hu; set (live := fun x => _ && _); set (free := fun x => _ <=? _).
    set (y := mk_sub from (now + SIDECAR_SUB_TTL_US)).
    assert (Hy : (now <? sub_expires_us y) = true) by (cbn; unfold SIDECAR_SUB_TTL_US; lia).
    setoid_rewrite <- live_addrs_spec; destruct (first_sub live (sc_subs s)) as [i|] eqn:E.
    - apply first_sub_Some in E as (x & Hx & Hl); subst live; cbv beta in Hl; apply andb_true_iff in Hl as [Hl1 Hl2].
      apply bool_decide_eq_true in Hl2; destruct (insert_split _ i y x Hx) as (l1 & l2 & Hs & ->); cbn [sc_subs].
      rewrite Hs in *; rewrite !live_addrs_mid in *; rewrite Hl1 in *; rewrite Hy; rewrite Hl2 in *; cbn [sub_addr y].
      split_and!; [done|done|by right|]; intros _; apply elem_of_app; right.
      rewrite (proj2 (Z.ltb_lt _ _)) by (cbn; lia); by left.
    - assert (Hnf : from ∉ live_addrs (sc_subs s) now).
      { intros (x & Hin & Ha & Hx)%live_addrs_spec; pose proof (first_sub_None _ _ x E Hin) as H; subst live; cbv beta in H.
        by rewrite (proj2 (Z.ltb_lt _ _)), bool_decide_true in H by done. }
      destruct (first_sub free (sc_subs s)) as [i|] eqn:Ef.
      + apply first_sub_Some in Ef as (x & Hx & Hf); subst free; cbv beta in Hf; bool_to_prop.
        destruct (insert_split _ i y x Hx) as (l1 & l2 & Hs & ->); cbn [sc_subs].
        rewrite Hs in *; rewrite !live_addrs_mid in *.
        rewrite (proj2 (Z.ltb_lt _ _) Hy), (proj2 (Z.ltb_ge _ _) Hf) in *; cbn [app] in *; cbn [sub_addr y].
        split_and!.
        * apply list.NoDup_app in Hnd as (H1 & H2 & H3); rewrite elem_of_app in Hnf; apply list.NoDup_app; split_and!; [done| |].
          -- intros a Ha [->|Hin]%elem_of_cons; [by apply Hnf; left|by apply (H2 a)].
          -- constructor; [by intros ?; apply Hnf; right|done].
        * intros a; rewrite !elem_of_app, elem_of_cons; tauto.
        * intros a; rewrite !elem_of_app, elem_of_cons; tauto.
        * intros _; apply elem_of_app; right; rewrite (proj2 (Z.ltb_lt _ _)) by (cbn; lia); by left.
      + split_and!; [done|done|by right|]; intros [(x & Hin & Hx)|Hin]; [|done].
        pose proof (first_sub_None _ _ x Ef Hin) as H; subst free; cbv beta in H; bool_to_prop; lia. }
  destruct Hnd' as (H1 & H2 & H3 & H4); split_and!; try done.
  intros Ho a Ha; apply live_addrs_spec in Ha; unfold sidecar_srv_publish; cbn [sc_open]; rewrite Ho; cbn [negb fst sc_subs].
  fold (live_addrs (sc_subs s') now); apply list_elem_of_split in Ha as (l1 & l2 & Hl); exists l1, l2; split; [done|].
  rewrite Hl in H1; apply list.NoDup_app in H1 as (Hn1 & Hn2 & Hn3); apply list.NoDup_cons in Hn3 as [Hn3 _].
  rewrite elem_of_app; intros [Hin|Hin]; [apply (Hn2 a Hin); by left|done].
Qed.
End table.

Lemma subscribe_fair_witness :
  let s := subscribe (subscribe (sidecar_srv_open 5602 true) (1, 5000) 10) (2, 6000) 20 in
  subscribed (sc_subs s) 20 (1, 5000) /\ NoDup (live_addrs (sc_subs s) 20).
Proof.
  cbn zeta.
  destruct (subscribe_fair (subscribe (sidecar_srv_open 5602 true) (1, 5000) 10) (2, 6000) 20 []) as (H1 & H2 & _);
    [lia|vm_compute; repeat constructor; set_solver|].
  split; [apply H2|exact H1].
  exists (mk_sub (1, 5000) 5000010); split; [left|split; [reflexivity|reflexivity]].
Defined.
