(* ===== verification/RxMain.v ===== *)
(** [rx/main.c]: the ground loop, from chunks to RTP.  The packetizer is the
    interface [Packetizer]; the clock readings are arguments. *)

From S2P Require Import Prelude ChunkHdr Chunker Reassembly AnnexB ClockSync CtrlMsg SidecarSrv TimingSei RtpH265 Packetizer.
#[local] Open Scope Z_scope.

(** [unwrap_air_pts]: [uint64_t] arithmetic. *)
Definition unwrap_air_pts (pts air_now_us : Z) : Z :=
  let cand := Z.lor (Z.land air_now_us (2 ^ 64 - 2 ^ 32)) pts in
  if (u64 (air_now_us + 0x80000000) <? cand) && (0x100000000 <=? cand) then u64 (cand - 0x100000000)
  else if u64 (cand + 0x80000000) <? air_now_us then u64 (cand + 0x100000000)
  else cand.

Definition handle_air_ctrl (sync : clock_sync) (payload : list Z) (t4 : Z) : clock_sync :=
  match parse_ground_ctrl payload with
  | Some (_, t1, t2, t3) => clock_sync_on_reply sync t1 t2 t3 t4
  | None => sync
  end.

(** The locals of [main] the loop carries.  The [-v] latency sums are only
    printed and are left out. *)
Record rx_state (P : Type) := mk_rx {
  rx_sync : clock_sync;
  rx_sidecar : sidecar_srv;
  rx_reasm : reasm;
  rx_rtp : P;
  rx_fwd_off : Z;
  rx_fwd_vcl : bool;
  rx_frames_lost : Z;
  rx_last_frame_seq : Z;
  rx_have_last_frame_seq : bool;
  rx_rtp_packets_sent : Z;
  rx_rtp_bytes_sent : Z
}.
Arguments mk_rx {P}.
Arguments rx_sync {P}.
Arguments rx_sidecar {P}.
Arguments rx_reasm {P}.
Arguments rx_rtp {P}.
Arguments rx_fwd_off {P}.
Arguments rx_fwd_vcl {P}.
Arguments rx_frames_lost {P}.
Arguments rx_last_frame_seq {P}.
Arguments rx_have_last_frame_seq {P}.
Arguments rx_rtp_packets_sent {P}.
Arguments rx_rtp_bytes_sent {P}.

(** [struct rx_stats_snapshot], the stream's part as arguments. *)
Record rx_stats := mk_rx_stats {
  st_chunks : Z; st_bytes : Z; st_resync_dropped : Z; st_checksum_fails : Z;
  st_complete : Z; st_dropped : Z; st_rtp_packets : Z; st_rtp_bytes : Z
}.

Section loop.
Context {P : Type} `{Packetizer P}.
Implicit Types st : rx_state P.

Definition rx_init (sidecar : sidecar_srv) (reassembly_max : Z) (rtp : P) : rx_state P :=
  mk_rx clock_sync_init sidecar (ar8030_reassembly_init reassembly_max) rtp 0 false 0 0 false 0 0.

Definition rx_stats_snapshot_take (chunks_read bytes_consumed resync_dropped checksum_fails : Z) st : rx_stats :=
  mk_rx_stats chunks_read bytes_consumed resync_dropped checksum_fails (r_completed_frames (rx_reasm st))
    (r_dropped_frames (rx_reasm st)) (rx_rtp_packets_sent st) (rx_rtp_bytes_sent st).

(** The repeated [n = rtp_h265_send_nals(...); if (n > 0) ...]: the data goes
    out and is counted. *)
Definition rx_send (data : list Z) (rtp_ts : Z) (au_end : bool) st : rx_state P :=
  let '(n, rtp) := pk_send (rx_rtp st) data rtp_ts au_end in
  mk_rx (rx_sync st) (rx_sidecar st) (rx_reasm st) rtp (rx_fwd_off st) (rx_fwd_vcl st) (rx_frames_lost st)
    (rx_last_frame_seq st) (rx_have_last_frame_seq st)
    (if 0 <? n then u64 (rx_rtp_packets_sent st + n) else rx_rtp_packets_sent st)
    (if 0 <? n then u64 (rx_rtp_bytes_sent st + zlen data) else rx_rtp_bytes_sent st).

Definition rx_set_fwd (off : Z) (vcl : bool) st : rx_state P :=
  mk_rx (rx_sync st) (rx_sidecar st) (rx_reasm st) (rx_rtp st) off vcl (rx_frames_lost st)
    (rx_last_frame_seq st) (rx_have_last_frame_seq st) (rx_rtp_packets_sent st) (rx_rtp_bytes_sent st).

Definition rx_set_reasm (r : reasm) st : rx_state P :=
  mk_rx (rx_sync st) (rx_sidecar st) r (rx_rtp st) (rx_fwd_off st) (rx_fwd_vcl st) (rx_frames_lost st)
    (rx_last_frame_seq st) (rx_have_last_frame_seq st) (rx_rtp_packets_sent st) (rx_rtp_bytes_sent st).

(** Was the chunk taken? *)
Definition rx_taken (r : reasm) (h : chunk_hdr) : bool :=
  r_active r && (r_frame_seq r =? frame_seq h) && (r_next_chunk_idx r =? u16 (chunk_idx h + 1)).

Definition rtp_ts_of (r : reasm) : Z := u32 (u64 (r_frame_pts r * 90) / 1000).

(** A slice of a streamed frame is complete: what has not gone yet goes. *)
Definition rx_forward_slice (h : chunk_hdr) (taken : bool) st : rx_state P :=
  let r := rx_reasm st in
  if taken && (r_chunk_count r =? 0) && has_flag (flags h) AR8030_CHUNK_FLAG_SLICE_END
     && (rx_fwd_off st <? r_write_off r)
  then
    let part_len := u32 (r_write_off r - rx_fwd_off st) in
    let part := zslice (rx_fwd_off st) part_len (r_buf r) in
    rx_set_fwd (r_write_off r) (rx_fwd_vcl st || rtp_h265_has_vcl part) (rx_send part (rtp_ts_of r) false st)
  else st.

(** The gap rule. *)
Definition rx_count_lost st : rx_state P :=
  let seq := r_frame_seq (rx_reasm st) in
  let gap := u16 (seq - rx_last_frame_seq st) in
  let lost := if rx_have_last_frame_seq st && (1 <? gap) && (gap <? 1000)
              then u32 (rx_frames_lost st + (gap - 1)) else rx_frames_lost st in
  mk_rx (rx_sync st) (rx_sidecar st) (rx_reasm st) (rx_rtp st) (rx_fwd_off st) (rx_fwd_vcl st) lost seq true
    (rx_rtp_packets_sent st) (rx_rtp_bytes_sent st).

(** The frame's capture time on the ground clock. *)
Definition rx_capture_ground (frame_pts rx_done_us offset : Z) : Z :=
  let capture_air := unwrap_air_pts frame_pts (u64 (s64 (s64 rx_done_us + offset))) in
  u64 (s64 (s64 capture_air - offset)).

(** The message [main] fills in, when there is an estimate and [-T] is off. *)
Definition rx_timing (timing_sei_on : bool) (rx_done_us : Z) st : option timing_sei :=
  match clock_sync_get (rx_sync st) with
  | Some (offset, uncertainty) =>
      if timing_sei_on then
        let encode_us := sc_encode_avg_us (rx_sidecar st) in
        Some (mk_sei TIMING_SEI_VERSION
                (Z.lor TIMING_SEI_FLAG_SYNC_VALID (if negb (encode_us =? 0) then TIMING_SEI_FLAG_ENCODE else 0))
                (r_frame_seq (rx_reasm st))
                (rx_capture_ground (r_frame_pts (rx_reasm st)) rx_done_us offset)
                rx_done_us uncertainty encode_us (rx_frames_lost st))
      else None
  | None => None
  end.

(** A complete frame goes out, or what is left of one forwarded by slices. *)
Definition rx_send_frame (sei : option (list Z)) st : rx_state P :=
  let r := rx_reasm st in
  let ts := rtp_ts_of r in
  if rx_fwd_off st =? 0 then
    let buf := match sei with
               | Some s => default (r_buf r) (timing_sei_insert (r_buf r) (r_cap r) s)
               | None => r_buf r
               end in
    rx_send buf ts true st
  else
    let rest := u32 (r_write_off r - rx_fwd_off st) in
    let st := match sei with Some s => rx_send s ts (rest =? 0) st | None => st end in
    if negb (rest =? 0) then rx_send (zslice (rx_fwd_off st) rest (r_buf r)) ts true st else st.

Definition rx_finish_frame (timing_sei_on : bool) (rx_done_us : Z) st : rx_state P :=
  let st := rx_count_lost st in
  let sei := (fun t => if rx_fwd_vcl st then timing_sei_build_suffix t else timing_sei_build t)
               <$> rx_timing timing_sei_on rx_done_us st in
  let st := rx_set_fwd 0 false (rx_send_frame sei st) in
  rx_set_reasm (ar8030_reassembly_reset (rx_reasm st)) st.

(** A video chunk. *)
Definition rx_video (timing_sei_on : bool) (rx_done_us : Z) (c : chunk) st : rx_state P :=
  let '(complete, r) := ar8030_reassembly_feed (rx_reasm st) c.1 c.2 in
  let taken := rx_taken r c.1 in
  let st := rx_set_reasm r st in
  let st := if taken && (chunk_idx c.1 =? 0) then rx_set_fwd 0 false st else st in
  if complete =? 0 then rx_forward_slice c.1 taken st
  else rx_finish_frame timing_sei_on rx_done_us st.

(** One chunk off the stream, at [now_us]; the sidecar subscribers a tunnelled
    datagram goes to, and the new state. *)
Definition rx_chunk (timing_sei_on : bool) (now_us : Z) (c : chunk) st : list sock_addr * rx_state P :=
  if codec c.1 =? AR8030_CHUNK_CODEC_CTRL then
    ([], mk_rx (handle_air_ctrl (rx_sync st) c.2 now_us) (rx_sidecar st) (rx_reasm st) (rx_rtp st) (rx_fwd_off st)
           (rx_fwd_vcl st) (rx_frames_lost st) (rx_last_frame_seq st) (rx_have_last_frame_seq st)
           (rx_rtp_packets_sent st) (rx_rtp_bytes_sent st))
  else if codec c.1 =? AR8030_CHUNK_CODEC_SIDECAR then
    let '(dests, sc) := sidecar_srv_publish (rx_sidecar st) c.2 now_us in
    (dests, mk_rx (rx_sync st) sc (rx_reasm st) (rx_rtp st) (rx_fwd_off st) (rx_fwd_vcl st) (rx_frames_lost st)
              (rx_last_frame_seq st) (rx_have_last_frame_seq st) (rx_rtp_packets_sent st) (rx_rtp_bytes_sent st))
  else if negb (codec c.1 =? AR8030_CHUNK_CODEC_H265) then ([], st)
  else ([], rx_video timing_sei_on now_us c st).

(** A run of chunks with the time each came. *)
Definition rx_run (timing_sei_on : bool) (cs : list (Z * chunk)) st : rx_state P :=
  fold_left (fun st tc => (rx_chunk timing_sei_on tc.1 tc.2 st).2) cs st.
End loop.

(** ** Time stamps *)

Lemma land_hi a : 0 <= a < 2 ^ 64 -> Z.land a (2 ^ 64 - 2 ^ 32) = a / 2 ^ 32 * 2 ^ 32.
Proof.
  intros Ha; rewrite <- Z.shiftr_div_pow2, <- Z.shiftl_mul_pow2 by lia.
  change (2 ^ 64 - 2 ^ 32) with (Z.shiftl (Z.ones 32) 32).
  apply Z.bits_inj'; intros n Hn; rewrite Z.land_spec, !Z.shiftl_spec by lia.
  destruct (Z.lt_ge_cases n 32); [rewrite !(Z.testbit_neg_r _ (n - 32)) by lia; by rewrite andb_false_r|].
  rewrite Z.shiftr_spec by lia; replace (n - 32 + 32) with n by lia.
  destruct (Z.lt_ge_cases n 64).
  - rewrite Z.ones_spec_low by lia; by rewrite andb_true_r.
  - rewrite Z.ones_spec_high, andb_false_r by lia; symmetry; apply Z.bits_above_log2; [lia|].
    destruct (Z.eq_dec a 0) as [->|]; [cbn; lia|]; apply Z.log2_lt_pow2; [lia|].
    apply Z.lt_le_trans with (2 ^ 64); [lia|]; apply Z.pow_le_mono_r; lia.
Qed.

(** The capture time is rebuilt exactly from its low 32 bits, for every
    frame less than half a wrap (35 minutes) old or ahead of the air clock's
    reading. *)
Theorem unwrap_air_pts_exact t air_now :
  0 <= t -> 0 <= air_now < 2 ^ 64 - 2 ^ 32 -> Z.abs (air_now - t) < 2 ^ 31 ->
  unwrap_air_pts (u32 t) air_now = t.
Proof.
  intros Ht Hn Hd; unfold unwrap_air_pts; rewrite land_hi by lia.
  pose proof (u32_range t); rewrite (lor_low 32) by lia.
  unfold u32; change 0x80000000 with (2 ^ 31); change 0x100000000 with (2 ^ 32); eval_pow.
  pose proof (Z.div_mod t 4294967296); pose proof (Z.div_mod air_now 4294967296).
  pose proof (Z.mod_pos_bound t 4294967296); pose proof (Z.mod_pos_bound air_now 4294967296).
  set (q := air_now / 4294967296) in *; set (m := t mod 4294967296) in *.
  assert (0 <= q) by (apply Z.div_pos; lia).
  unwrap; if_cases; unwrap; lia.
Qed.

(** ** One streamed frame, end to end *)

Lemma has_vcl_loop_annexb nals : forall fuel pre,
  zlen (pre ++ annexb nals) < 2 ^ 31 -> Forall (fun n => nal_ok n.2) nals -> (length nals < fuel)%nat ->
  has_vcl_loop fuel (pre ++ annexb nals) (zlen pre) = existsb (fun n => nal_type n.2 <=? 31) nals.
Proof.
  intros fuel pre Hl Hns; revert fuel pre Hl; induction Hns as [|[b nal] nals Hn Hns IH]; intros fuel pre Hl Hf;
    (destruct fuel as [|fuel]; [simpl in Hf; lia|]); cbn [has_vcl_loop].
  - rewrite next_nal_nil; [done|]; rewrite zlen_app in Hl; pose proof (zlen_nonneg (annexb [])); lia.
  - rewrite next_nal_annexb by done; cbn [existsb snd]; fold (nal_type nal).
    destruct (nal_type nal <=? 31); [done|]; cbn [orb]; set (sc := if b then long_sc else short_sc) in *.
    assert (E : pre ++ annexb ((b, nal) :: nals) = (pre ++ sc ++ nal) ++ annexb nals).
    { unfold annexb; cbn [fmap list_fmap concat fst snd]; fold sc; by rewrite <- !app_assoc. }
    rewrite E in *; apply IH; [done|simpl in Hf; lia].
Qed.

Lemma length_annexb nals : (length nals <= length (annexb nals))%nat.
Proof.
  induction nals as [|[b n] nals IH]; [simpl; lia|]; rewrite annexb_cons, !length_app; destruct b; simpl; lia.
Qed.

Lemma has_vcl_annexb nals :
  zlen (annexb nals) < 2 ^ 31 -> Forall (fun n => nal_ok n.2) nals ->
  rtp_h265_has_vcl (annexb nals) = existsb (fun n => nal_type n.2 <=? 31) nals.
Proof.
  intros Hl Hns; unfold rtp_h265_has_vcl; apply (has_vcl_loop_annexb nals _ []); [done|done|].
  pose proof (length_annexb nals); lia.
Qed.

(** The first slice of a stream that has one. *)
Lemma first_slice (nals : list (bool * list Z)) :
  Forall (fun n => nal_ok n.2) nals -> existsb (fun n => nal_type n.2 <=? 31) nals = true ->
  exists pres b v rest, nals = pres ++ (b, v) :: rest /\ nal_type v <= 31 /\ nal_ok v /\
    Forall (fun n => nal_ok n.2 /\ 31 < nal_type n.2) pres.
Proof.
  induction 1 as [|[b n] nals Hn Hns IH]; [done|]; cbn [existsb snd].
  destruct (nal_type n <=? 31) eqn:E; bool_to_prop.
  - intros _; by exists [], b, n, nals.
  - intros (pres & c & v & rest & -> & Hv & Hok & Hp)%IH; exists ((b, n) :: pres), c, v, rest.
    split_and!; try done; by constructor.
Qed.

Lemma escape_bytes_ok l zeros : bytes_ok l -> bytes_ok (escape zeros l).
Proof.
  intros H; revert zeros; induction H as [|b l Hb _ IH]; intros zeros; cbn [escape]; [constructor|].
  destruct (_ && _); repeat (constructor; [done|]); apply IH.
Qed.

Lemma sei_sendable t ty :
  ty = SEI_PREFIX_NAL_TYPE \/ ty = SEI_SUFFIX_NAL_TYPE -> sendable [(true, sei_nal t ty)].
Proof.
  intros Hty; pose proof (sei_nal_len t ty) as [H1 H2]; change TIMING_SEI_NAL_MAX with 82 in H2; constructor; [done|simpl; lia| |].
  - rewrite annexb_cons, !zlen_app, zlen_sc; change (zlen (annexb [])) with 0; lia.
  - constructor; [|constructor]; split; [by apply sei_nal_ok|]; split_and!; [|cbn [snd]; lia|].
    + unfold sei_nal; apply bytes_ok_app; split.
      * destruct Hty as [-> | ->]; repeat constructor; vm_compute; done.
      * apply escape_bytes_ok; unfold sei_rbsp; repeat (apply bytes_ok_app; split); try apply le_enc_ok;
          try (apply bool_decide_unpack; vm_compute; done); try (repeat constructor; vm_compute; done).
    + change (nal_type (sei_nal t ty) < 48); rewrite sei_nal_type by done; by destruct Hty as [-> | ->].
Qed.

Lemma suffix_annexb t : timing_sei_build_suffix t = annexb [(true, sei_nal t SEI_SUFFIX_NAL_TYPE)].
Proof.
  unfold timing_sei_build_suffix; rewrite build_nal_eq; generalize (sei_nal t SEI_SUFFIX_NAL_TYPE); intros l.
  rewrite annexb_cons; unfold annexb; cbn [fmap list_fmap concat sc_of]; by rewrite app_nil_r.
Qed.

(** The message goes in ahead of the first slice, or not at all. *)
Lemma insert_first_slice t nals cap :
  Forall (fun n => nal_ok n.2) nals -> existsb (fun n => nal_type n.2 <=? 31) nals = true ->
  zlen (annexb nals) + TIMING_SEI_NAL_MAX < 2 ^ 31 ->
  timing_sei_insert (annexb nals) cap (timing_sei_build t) = None \/
  exists pres post, nals = pres ++ post /\ existsb (fun n => nal_type n.2 <=? 31) pres = false /\
    timing_sei_insert (annexb nals) cap (timing_sei_build t)
    = Some (annexb (pres ++ (true, sei_nal t SEI_PREFIX_NAL_TYPE) :: post)).
Proof.
  intros Hok Hsl Hl; change TIMING_SEI_NAL_MAX with 82 in Hl; unfold timing_sei_insert; destruct (cap <? _); [by left|right].
  destruct (first_slice nals Hok Hsl) as (pres & b & v & rest & -> & Hv & Hvok & Hp).
  exists pres, ((b, v) :: rest); split_and!; [done| |].
  - clear -Hp; induction Hp as [|[c n] l [_ Hn] _ IH]; [done|]; cbn [existsb snd] in *.
    rewrite (proj2 (Z.leb_gt _ _)) by done; exact IH.
  - set (au := annexb (pres ++ (b, v) :: rest)) in *; unfold au; rewrite find_first by (fold au; lia).
    pose proof (insert_loop_spec pres b v rest (timing_sei_build t) (S (length au)) []) as HH.
    rewrite app_nil_l in HH; change (zlen (@nil Z)) with 0 in HH; unfold au in *; rewrite HH; try done; [|lia|].
    + by rewrite annexb_app, (annexb_cons true), app_nil_l.
    + pose proof (length_annexb (pres ++ (b, v) :: rest)) as Hle; rewrite length_app in Hle; simpl in Hle; lia.
Qed.

(** A streamed frame's chunk either continues its part or ends it. *)
Lemma part_chunk_flags sq fl co pts payload d first last n i :
  0 <= fl < 64 -> 0 <= i < n -> n < 2 ^ 32 - 1 ->
  has_flag (flags (chunk_at (part_params sq fl co pts payload d first last) n i).1) AR8030_CHUNK_FLAG_SLICE_END
  = negb last && (i + 1 =? n).
Proof.
  intros Hfl Hi Hn; unfold chunk_at; cbn [fst flags part_params cp_frame_end cp_part cp_flags].
  rewrite (u32_id (i + 1)) by lia.
  assert (H : forall k : nat, (k < 64)%nat -> (fun fl => has_flag (u8 fl) AR8030_CHUNK_FLAG_SLICE_END = false /\
    has_flag (u8 (Z.lor fl AR8030_CHUNK_FLAG_FRAME_END)) AR8030_CHUNK_FLAG_SLICE_END = false /\
    has_flag (u8 (Z.lor fl AR8030_CHUNK_FLAG_SLICE_END)) AR8030_CHUNK_FLAG_SLICE_END = true) (Z.of_nat k)).
  { intros k Hk; do 64 (destruct k as [|k]; [vm_compute; split_and!; done|]); lia. }
  specialize (H (Z.to_nat fl)); rewrite Z2Nat.id in H by lia; destruct H as (H1 & H2 & H3); [lia|].
  destruct last, (i + 1 =? n); cbn [andb negb]; assumption.
Qed.

Section streamed.
Context {P : Type} `{HP : Packetizer P} `{HS : !PacketizerSpec P}.
Context (sei_on : bool) (sq fl pts payload : Z).
Hypothesis Hpay : 0 < payload <= AR8030_CHUNK_MAX_PAYLOAD.
Hypothesis Hfl : 0 <= fl < 64.
Hypothesis Hsq : 0 <= sq < 65536.
Implicit Types st : rx_state P.

(** The clock estimate, once there, stays. *)
Definition sync_grows (cs cs' : clock_sync) : Prop :=
  0 <= cs_n cs -> 0 <= cs_n cs' /\ (clock_sync_get cs' = None -> clock_sync_get cs = None).

Lemma on_reply_grows cs t1 t2 t3 t4 : sync_grows cs (clock_sync_on_reply cs t1 t2 t3 t4).
Proof.
  intros Hn; unfold clock_sync_on_reply; destruct (_ || _ || _); [done|]; destruct (_ || _); [done|].
  unfold clock_sync_get; cbn [cs_n]; unfold CLOCK_SYNC_WINDOW.
  set (n := if clock_jumped _ _ _ then 0 else cs_n cs); assert (0 <= n) by (subst n; destruct (clock_jumped _ _ _); lia).
  destruct (n <? 16) eqn:E; bool_to_prop; (split; [lia|]); by rewrite (proj2 (Z.eqb_neq _ 0)) by lia.
Qed.

(** What neither a frame's chunks but the last nor any other chunk changes. *)
Record rx_same st st' : Prop := {
  rs_sync : sync_grows (rx_sync st) (rx_sync st');
  rs_lost : rx_frames_lost st' = rx_frames_lost st;
  rs_last : rx_last_frame_seq st' = rx_last_frame_seq st;
  rs_have : rx_have_last_frame_seq st' = rx_have_last_frame_seq st;
  rs_cap : r_cap (rx_reasm st') = r_cap (rx_reasm st)
}.

Lemma rx_same_refl st : rx_same st st.
Proof. by constructor. Qed.

Lemma rx_same_trans st1 st2 st3 : rx_same st1 st2 -> rx_same st2 st3 -> rx_same st1 st3.
Proof.
  intros [S1 ? ? ? ?] [S2 ? ? ? ?]; constructor; [|congruence..]; intros Hn; destruct (S1 Hn) as [Hn2 H12].
  destruct (S2 Hn2) as [Hn3 H23]; split; auto.
Qed.

(** A chunk that is not video leaves the frame being reassembled alone. *)
Definition rx_other st st' : Prop :=
  rx_same st st' /\ rx_reasm st' = rx_reasm st /\ rx_rtp st' = rx_rtp st /\ rx_fwd_off st' = rx_fwd_off st /\
  rx_fwd_vcl st' = rx_fwd_vcl st.

Lemma rx_other_trans st1 st2 st3 : rx_other st1 st2 -> rx_other st2 st3 -> rx_other st1 st3.
Proof. intros (S1 & ? & ? & ? & ?) (S2 & ? & ? & ? & ?); split; [by eapply rx_same_trans|split_and!; congruence]. Qed.

Lemma rx_chunk_other now c st : ~ is_video c -> rx_other st (rx_chunk sei_on now c st).2.
Proof.
  unfold is_video, rx_chunk; intros Hc; destruct (codec c.1 =? AR8030_CHUNK_CODEC_CTRL); [|destruct (codec c.1 =? _)].
  - split; [|done]; constructor; try done; cbn [snd rx_sync]; unfold handle_air_ctrl.
    destruct (parse_ground_ctrl c.2) as [[[[sq' t1] t2] t3]|]; [apply on_reply_grows|done].
  - destruct (sidecar_srv_publish _ _ _) as [dests sc]; split; [by constructor|done].
  - rewrite (proj2 (Z.eqb_neq _ _)) by done; cbn [negb snd]; split; [apply rx_same_refl|done].
Qed.

Lemma rx_run_other tcs : forall st,
  filter is_video (snd <$> tcs) = [] -> rx_other st (rx_run sei_on tcs st).
Proof.
  induction tcs as [|[now c] tcs IH]; intros st; [split; [apply rx_same_refl|done]|]; cbn [fmap list_fmap snd].
  rewrite list.filter_cons; destruct (decide (is_video c)) as [|Hc]; [done|]; intros Hf; cbn [rx_run fold_left fst snd].
  eapply rx_other_trans; [by apply (rx_chunk_other now c)|by apply IH].
Qed.

(** Splitting a run behind the chunks of a prefix. *)
Lemma filter_split (tcs : list (Z * chunk)) a b :
  filter is_video (snd <$> tcs) = a ++ b ->
  exists t1 t2, tcs = t1 ++ t2 /\ filter is_video (snd <$> t1) = a /\ filter is_video (snd <$> t2) = b.
Proof.
  revert a; induction tcs as [|[now c] tcs IH]; intros a; cbn [fmap list_fmap snd].
  - intros H; symmetry in H; apply app_nil in H as [-> ->]; by exists [], [].
  - rewrite list.filter_cons; destruct (decide (is_video c)) as [Hc|Hc].
    + destruct a as [|x a]; cbn [app]; intros H.
      * exists [], ((now, c) :: tcs); cbn [fmap list_fmap snd]; by rewrite list.filter_cons, decide_True.
      * injection H as <- H; destruct (IH a H) as (t1 & t2 & -> & H1 & H2); exists ((now, c) :: t1), t2.
        cbn [fmap list_fmap snd app]; by rewrite list.filter_cons, decide_True, H1.
    + intros H; destruct (IH a H) as (t1 & t2 & -> & H1 & H2); exists ((now, c) :: t1), t2.
      cbn [fmap list_fmap snd app]; by rewrite list.filter_cons, decide_False.
Qed.


(** [k] chunks of the frame are in, with [bytes]; [off] bytes have gone on,
    with a slice among them or not. *)
Definition streaming st (k : Z) (bytes : list Z) (off : Z) (vcl : bool) : Prop :=
  (k = 0 /\ bytes = [] /\ off = 0 /\ vcl = false
   /\ (r_active (rx_reasm st) = false \/ sq <> r_frame_seq (rx_reasm st))) \/
  (0 < k /\ in_frame (rx_reasm st) sq 0 pts fl k bytes /\ rx_fwd_off st = off /\ rx_fwd_vcl st = vcl).

(** A chunk as [stream_chunks] makes them. *)
Record streamed_chunk (c : chunk) (k : Z) (fin : bool) : Prop := {
  sc_codec : codec c.1 = AR8030_CHUNK_CODEC_H265;
  sc_seq : frame_seq c.1 = sq;
  sc_idx : chunk_idx c.1 = k;
  sc_pts : frame_pts c.1 = pts;
  sc_flags : frame_flags (flags c.1) = fl;
  sc_end : has_flag (flags c.1) AR8030_CHUNK_FLAG_FRAME_END = fin;
  sc_count : chunk_count c.1 = (if fin then k + 1 else 0)
}.

(** The state [main] is in behind [ar8030_reassembly_feed] and the reset of
    the forwarding offsets. *)
Definition fed st st' (k : Z) (bytes : list Z) (off : Z) (vcl : bool) (ended : bool) : Prop :=
  rx_same st st' /\ rx_rtp st' = rx_rtp st /\ rx_fwd_off st' = off /\ rx_fwd_vcl st' = vcl /\
  r_buf (rx_reasm st') = bytes /\ r_frame_seq (rx_reasm st') = sq /\
  (ended = false -> in_frame (rx_reasm st') sq 0 pts fl k bytes).

Lemma rx_chunk_streamed st now c k bytes off vcl fin :
  streaming st k bytes off vcl -> streamed_chunk c k fin -> 0 <= k < 65535 ->
  zlen bytes + zlen c.2 <= r_cap (rx_reasm st) < 2 ^ 32 ->
  exists st', fed st st' (k + 1) (bytes ++ c.2) off vcl fin /\
    (rx_chunk sei_on now c st).2 =
    if fin then rx_finish_frame sei_on now st' else rx_forward_slice c.1 true st'.
Proof using Hsq.
  intros Hst [Hco Hs Hi Hp Hf He Hc] Hk Hcap; unfold rx_chunk; rewrite Hco; cbn [snd]; unfold rx_video.
  change (AR8030_CHUNK_CODEC_H265 =? AR8030_CHUNK_CODEC_CTRL) with false.
  change (AR8030_CHUNK_CODEC_H265 =? AR8030_CHUNK_CODEC_SIDECAR) with false; cbv iota; cbn [negb snd].
  assert (Hin : exists r0, ar8030_reassembly_feed (rx_reasm st) c.1 c.2 = feed_chunk r0 c.1 c.2 /\
    r_cap r0 = r_cap (rx_reasm st) /\ in_frame r0 sq 0 pts fl k bytes).
  { destruct Hst as [(-> & -> & _ & _ & Hnew)|(Hk0 & Hin & _)].
    - destruct (feed_start (rx_reasm st) c.1 c.2) as (r0 & E & Hcap0 & Hin); [by rewrite Hs|done|].
      exists r0; split_and!; [done|done|]; rewrite He, Hs, Hp, Hf in Hin; destruct fin; [done|by rewrite Hc in Hin].
    - exists (rx_reasm st); split_and!; [|done|done]; apply feed_same; destruct Hin; congruence. }
  destruct Hin as (r0 & -> & Hcap0 & Hin).
  destruct (feed_chunk_extend r0 c.1 c.2 _ _ _ _ _ _ Hin Hi) as (r' & -> & Hcap' & Hb & Hsq' & Hp' & Hf' & Ha & Hnx & Hn).
  { lia. } { rewrite Hc, He; by destruct fin. } { rewrite Hcap0; lia. }
  rewrite He in Hn |- *; change (0 =? 0) with true in *; rewrite (proj2 (Z.eqb_neq (k + 1) 0)) in Hn |- * by lia.
  rewrite orb_false_r in Hn |- *; cbn [andb] in *.
  assert (Ht : rx_taken r' c.1 = true).
  { unfold rx_taken; rewrite Ha, Hsq', Hs, Hnx, Hi, (u16_id (k + 1)), !Z.eqb_refl by lia; done. }
  rewrite Ht, Hi; cbn [andb]; exists (if k =? 0 then rx_set_fwd 0 false (rx_set_reasm r' st) else rx_set_reasm r' st); split.
  - destruct Hst as [(-> & -> & -> & -> & _)|(Hk0 & _ & Hoff & Hvcl)].
    + cbn [Z.eqb]; unfold fed, rx_set_fwd, rx_set_reasm; cbn [rx_rtp rx_fwd_off rx_fwd_vcl rx_reasm].
      split_and!; try done; constructor; try done; cbn [rx_reasm]; congruence.
    + rewrite (proj2 (Z.eqb_neq k 0)) by lia; unfold fed, rx_set_reasm; cbn [rx_rtp rx_fwd_off rx_fwd_vcl rx_reasm].
      split_and!; try done; constructor; try done; cbn [rx_reasm]; congruence.
  - by destruct fin.
Qed.

#[local] Abbreviation co := AR8030_CHUNK_CODEC_H265.
#[local] Abbreviation cut d first last := (part_params sq fl co pts payload d first last).
#[local] Abbreviation count d := (chunk_count_for (zlen d) payload).

Lemma part_streamed d first last i :
  zlen d + payload - 1 < 2 ^ 32 -> 0 <= first -> first + count d <= 65535 -> 0 <= i < count d ->
  streamed_chunk (chunk_at (cut d first last) (count d) i) (first + i) (last && (i + 1 =? count d)).
Proof using Hpay Hfl.
  intros Hd Hf Hm Hi.
  destruct (part_chunk sq fl co pts payload Hpay Hfl d first last i Hd Hf Hm Hi) as (H1 & H2 & H3 & H4 & H5 & H6).
  constructor; try done; rewrite H6; destruct last; cbn [andb]; [|done].
  destruct (Z.eqb_spec (i + 1) (count d)); [lia|done].
Qed.

Lemma streaming_other st st' k bytes off vcl : streaming st k bytes off vcl -> rx_other st st' -> streaming st' k bytes off vcl.
Proof.
  intros Hst (_ & Hr & _ & Ho & Hv); destruct Hst as [(-> & -> & -> & -> & Hn)|(Hk & Hin & Hoff & Hvcl)]; [left|right];
    rewrite ?Hr, ?Ho, ?Hv; by split_and!.
Qed.

Lemma streamed_is_video c k fin : streamed_chunk c k fin -> is_video c.
Proof. by intros []. Qed.

(** Up to the last chunk of a part, bytes are only collected. *)
Lemma rx_run_inside d first last off vcl : forall tcs j m st bytes,
  zlen d + payload - 1 < 2 ^ 32 -> 0 <= first -> first + count d <= 65535 ->
  let vs := (fun i => chunk_at (cut d first last) (count d) (Z.of_nat i)) <$> seq j m in
  filter is_video (snd <$> tcs) = vs ->
  Z.of_nat (j + m) < count d -> streaming st (first + Z.of_nat j) bytes off vcl ->
  zlen bytes + zlen (concat (snd <$> vs)) <= r_cap (rx_reasm st) < 2 ^ 32 ->
  let st' := rx_run sei_on tcs st in
  streaming st' (first + Z.of_nat (j + m)) (bytes ++ concat (snd <$> vs)) off vcl /\
  rx_same st st' /\ rx_rtp st' = rx_rtp st.
Proof using Hpay Hfl Hsq.
  induction tcs as [|[now c] tcs IH]; intros j m st bytes Hd Hf Hm vs Hcs Hn Hst Hcap st'.
  - destruct m as [|m]; [|done]; subst st' vs; cbn; rewrite app_nil_r, Nat.add_0_r; split_and!; [done|apply rx_same_refl|done].
  - cbn [fmap list_fmap snd] in Hcs; rewrite list.filter_cons in Hcs.
    destruct (decide (is_video c)) as [Hc|Hc].
    + destruct m as [|m]; [done|]; subst vs; cbn [fmap list_fmap seq] in Hcs, Hcap |- *; injection Hcs as Hc0 Hcs.
      cbn [fmap list_fmap concat] in *; rewrite <- Hc0 in *; rewrite zlen_app in Hcap.
      set (vs := (fun i => _) <$> seq (S j) m) in *; pose proof (zlen_nonneg (concat vs.*2)).
      pose proof (part_streamed d first last (Z.of_nat j) Hd Hf Hm ltac:(lia)) as Hch; rewrite <- Hc0 in Hch.
      rewrite (proj2 (Z.eqb_neq (Z.of_nat j + 1) _)), andb_false_r in Hch by lia.
      destruct (rx_chunk_streamed st now c _ _ _ _ _ Hst Hch ltac:(lia) ltac:(lia)) as (st1 & (Hs1 & Hr1 & Ho1 & Hv1 & _ & _ & Hin) & E).
      assert (Hfs : rx_forward_slice c.1 true st1 = st1).
      { unfold rx_forward_slice; rewrite Hc0, part_chunk_flags by (try done; lia).
        by rewrite (proj2 (Z.eqb_neq (Z.of_nat j + 1) _)), !andb_false_r by lia. }
      rewrite Hfs in E; destruct (IH (S j) m st1 (bytes ++ c.2)) as (H1 & H2 & H3); try done.
      { rewrite <- Nat.add_succ_comm in Hn; lia. }
      { right; split_and!; [lia| |done|done]; replace (first + Z.of_nat (S j)) with (first + Z.of_nat j + 1) by lia; by apply Hin. }
      { rewrite (rs_cap _ _ Hs1), zlen_app; fold vs; lia. }
      subst st'; unfold rx_run in *; cbn [fold_left fst snd]; rewrite E.
      split_and!; [|by eapply rx_same_trans|by rewrite H3].
      replace (j + S m)%nat with (S j + m)%nat by lia; by rewrite app_assoc.
    + pose proof (rx_chunk_other now c st Hc) as Hot; destruct (IH j m (rx_chunk sei_on now c st).2 bytes) as (H1 & H2 & H3); try done.
      { by eapply streaming_other. } { destruct Hot as (Hs & _); by rewrite (rs_cap _ _ Hs). }
      subst st' vs; unfold rx_run in *; cbn [fold_left fst snd]; destruct Hot as (Hs & _ & Hp & _); split_and!; [done| |congruence].
      by eapply rx_same_trans.
Qed.

(** A whole part: its last chunk ends the slice or the frame. *)
Lemma rx_run_part d first last off vcl tcs st bytes :
  zlen d + payload - 1 < 2 ^ 32 -> 0 <= first -> first + count d <= 65535 ->
  filter is_video (snd <$> tcs) = chunks_of (cut d first last) (count d) -> streaming st first bytes off vcl ->
  zlen bytes + zlen d <= r_cap (rx_reasm st) < 2 ^ 32 ->
  exists st1 now c tl, fed st st1 (first + count d) (bytes ++ d) off vcl last /\ filter is_video (snd <$> tl) = [] /\
    rx_run sei_on tcs st = rx_run sei_on tl (if last then rx_finish_frame sei_on now st1 else rx_forward_slice c true st1) /\
    has_flag (flags c) AR8030_CHUNK_FLAG_SLICE_END = negb last.
Proof using Hpay Hfl Hsq.
  intros Hd Hf Hm Hcs Hst Hcap; pose proof (zlen_part sq fl co pts payload Hpay d first last Hd) as [Hz Hn].
  pose proof (chunks_concat (cut d first last) (count d) Hpay Hd eq_refl) as Hcat; cbn [cut cp_data] in Hcat.
  unfold chunks_of in *; set (n := count d) in *.
  replace (Z.to_nat n) with (Z.to_nat (n - 1) + 1)%nat in * by lia.
  rewrite seq_app, fmap_app in *; cbn [seq fmap list_fmap Nat.add] in *.
  apply filter_split in Hcs as (tcs0 & tl0 & -> & Hc0 & Hc1).
  rewrite fmap_app, concat_app in Hcat; cbn [fmap list_fmap concat] in Hcat; rewrite app_nil_r in Hcat.
  set (vs := _ <$> seq 0 (Z.to_nat (n - 1))) in *; set (lastc := chunk_at (cut d first last) n (Z.of_nat (Z.to_nat (n - 1)))) in *.
  assert (Hsplit : zlen (concat (snd <$> vs)) + zlen lastc.2 = zlen d) by (by rewrite <- Hcat, zlen_app).
  destruct (rx_run_inside d first last off vcl tcs0 0 (Z.to_nat (n - 1)) st bytes) as (H1 & H2 & H3); try done.
  { fold n; simpl Nat.add; lia. } { by rewrite Z.add_0_r. } { pose proof (zlen_nonneg lastc.2).
    change (zlen bytes + zlen (concat (snd <$> vs)) <= r_cap (rx_reasm st) < 2 ^ 32); lia. }
  replace (first + Z.of_nat (0 + Z.to_nat (n - 1))) with (first + (n - 1)) in H1 by lia.
  change (streaming (rx_run sei_on tcs0 st) (first + (n - 1)) (bytes ++ concat (snd <$> vs)) off vcl) in H1.
  pose proof (part_streamed d first last (n - 1) Hd Hf Hm ltac:(fold n; lia)) as Hch; fold n in Hch.
  assert (Hlc : lastc = chunk_at (cut d first last) n (n - 1)) by (unfold lastc; by rewrite Z2Nat.id by lia).
  rewrite <- Hlc in Hch; replace (n - 1 + 1 =? n) with true in Hch by lia; rewrite andb_true_r in Hch.
  apply (filter_split tl0 [lastc] []) in Hc1 as (pre & tl & -> & Hp1 & Hp2).
  assert (Hpre : exists a now b, pre = a ++ (now, lastc) :: b /\ filter is_video (snd <$> a) = [] /\ filter is_video (snd <$> b) = []).
  { clear -Hp1; induction pre as [|[now c] pre IH]; [done|]; cbn [fmap list_fmap snd] in Hp1; rewrite list.filter_cons in Hp1.
    destruct (decide (is_video c)) as [Hc|Hc].
    - injection Hp1 as -> Hp1; by exists [], now, pre.
    - destruct (IH Hp1) as (a & t & b & -> & Ha & Hb); exists ((now, c) :: a), t, b; split_and!; [done| |done].
      cbn [fmap list_fmap snd]; by rewrite list.filter_cons, decide_False. }
  destruct Hpre as (a & now & b & -> & Ha & Hb); pose proof (rx_run_other a (rx_run sei_on tcs0 st) Ha) as Hot.
  pose proof (streaming_other _ _ _ _ _ _ H1 Hot) as H1'; destruct Hot as (Hos & _ & Hor & _).
  destruct (rx_chunk_streamed _ now lastc _ _ _ _ _ H1' Hch ltac:(lia)) as (st1 & (G1 & G2 & G3) & E).
  { rewrite (rs_cap _ _ Hos), (rs_cap _ _ H2), zlen_app; lia. }
  replace (first + (n - 1) + 1) with (first + n) in G3 by lia; rewrite <- app_assoc, Hcat in G3.
  exists st1, now, lastc.1, (b ++ tl); split_and!.
  - split; [eapply rx_same_trans; [exact H2|by eapply rx_same_trans]|split; [congruence|exact G3]].
  - by rewrite fmap_app, list.filter_app, Hb, Hp2.
  - unfold rx_run in *; rewrite !fold_left_app; cbn [fold_left fst snd]; rewrite E; by destruct last.
  - rewrite Hlc, part_chunk_flags by (try done; lia); by replace (n - 1 + 1 =? n) with true by lia; rewrite andb_true_r.
Qed.

(** *** Through the packetizer *)

Lemma zslice_tail (l k : list Z) : zslice (zlen l) (zlen k) (l ++ k) = k.
Proof. rewrite <- (app_nil_r k) at 2; by apply zslice_mid. Qed.

Definition rx_player st : player := pk_player (rx_rtp st).

Lemma player_add_add p a b e : player_add (player_add p a false) b e = player_add p (a ++ b) e.
Proof. unfold player_add; cbn [pl_open pl_pictures fst]; by rewrite app_assoc. Qed.

Lemma player_add_nil p b e : player_add p ([] ++ b) e = player_add p b e.
Proof. done. Qed.

Lemma rx_send_ok nals ts e st :
  pk_ready (rx_rtp st) -> sendable nals ->
  let st' := rx_send (annexb nals) ts e st in
  pk_ready (rx_rtp st') /\ rx_player st' = player_add (rx_player st) (snd <$> nals) e /\
  rx_same st st' /\ rx_reasm st' = rx_reasm st /\ rx_fwd_off st' = rx_fwd_off st /\ rx_sync st' = rx_sync st.
Proof.
  intros Hr Hn st'; destruct (pk_send_nals (rx_rtp st) nals ts e Hr Hn) as (_ & H2 & H3).
  subst st'; unfold rx_send, rx_player; destruct (pk_send _ _ _ _) as [n p]; cbn [rx_rtp rx_reasm rx_fwd_off fst snd] in *.
  by split_and!.
Qed.

(** A part: what the packetizer takes, with room for the timing message, and
    a slice in it. *)
Record part_ok (nals : list (bool * list Z)) : Prop := {
  pa_sendable : sendable nals;
  pa_room : (length nals <= 255)%nat;
  pa_slice : existsb (fun n => nal_type n.2 <=? 31) nals = true
}.

Lemma part_nal_ok nals : part_ok nals -> Forall (fun n => nal_ok n.2) nals.
Proof. intros [[_ _ _ Hn] _ _]; eapply list.Forall_impl; [exact Hn|]; intros x Hx; apply Hx. Qed.

Lemma part_pos nals : part_ok nals -> 0 < zlen (annexb nals).
Proof.
  intros [[Hne _ _ _] _ _]; pose proof (length_annexb nals); destruct nals; [done|]; unfold zlen; simpl in *; lia.
Qed.

(** A slice that is not the last goes on as soon as it is there. *)
Lemma rx_forward_ok st st1 c k bytes nals vcl :
  fed st st1 k (bytes ++ annexb nals) (zlen bytes) vcl false -> 0 < k ->
  has_flag (flags c) AR8030_CHUNK_FLAG_SLICE_END = true -> pk_ready (rx_rtp st) -> part_ok nals ->
  zlen (bytes ++ annexb nals) < 2 ^ 31 ->
  let st' := rx_forward_slice c true st1 in
  streaming st' k (bytes ++ annexb nals) (zlen (bytes ++ annexb nals)) true /\
  rx_player st' = player_add (rx_player st) (snd <$> nals) false /\ pk_ready (rx_rtp st') /\ rx_same st st'.
Proof.
  intros (Hsame & Hrtp & Hoff & Hvcl & Hbuf & _ & Hin) Hk Hc Hr Hp Hl; specialize (Hin eq_refl).
  pose proof (part_pos _ Hp) as Hpos; pose proof Hl as Hl'; rewrite zlen_app in Hl'; pose proof (zlen_nonneg bytes).
  unfold rx_forward_slice, r_write_off; rewrite (if_cnt _ _ _ _ _ _ _ Hin), Hc, Hoff, Hbuf, zlen_app.
  rewrite (proj2 (Z.ltb_lt _ _)) by lia; cbn [andb Z.eqb].
  replace (zlen bytes + zlen (annexb nals) - zlen bytes) with (zlen (annexb nals)) by lia; rewrite u32_id by lia.
  rewrite zslice_tail.
  rewrite <- Hrtp in Hr; destruct (rx_send_ok nals (rtp_ts_of (rx_reasm st1)) false st1 Hr (pa_sendable _ Hp)) as (G1 & G2 & G3 & G4 & G5 & G6).
  split_and!; [|exact (eq_trans G2 (f_equal (fun p => player_add (pk_player p) _ _) Hrtp))|done|].
  - right; split_and!; [done|unfold rx_set_fwd; cbn [rx_reasm]; by rewrite G4|done|].
    unfold rx_set_fwd; cbn [rx_fwd_vcl]; rewrite has_vcl_annexb; [|lia|by apply part_nal_ok].
    by rewrite (pa_slice _ Hp), orb_true_r.
  - eapply rx_same_trans; [exact Hsame|]; eapply rx_same_trans; [exact G3|]; done.
Qed.

(** *** The end of the frame *)

(** Frames lost, by the gap rule, once this one is counted. *)
Definition lost_after st : Z :=
  let gap := u16 (sq - rx_last_frame_seq st) in
  if rx_have_last_frame_seq st && (1 <? gap) && (gap <? 1000) then u32 (rx_frames_lost st + (gap - 1))
  else rx_frames_lost st.

(** The timing message a frame goes out with, if any: a suffix SEI behind a
    slice, a prefix SEI ahead of all of them; [sync] is the clock estimate
    after it. *)
Definition timing_msg st (sync : clock_sync) (slices_before : bool) (msg : list (list Z)) : Prop :=
  (msg = [] \/ exists t, msg = [sei_nal t (if slices_before then SEI_SUFFIX_NAL_TYPE else SEI_PREFIX_NAL_TYPE)] /\
     ts_frame_seq t = sq /\ ts_frames_lost t = lost_after st) /\
  (sei_on = false \/ clock_sync_get sync = None -> msg = []).

Record finished st st' : Prop := {
  fi_ready : pk_ready (rx_rtp st');
  fi_idle : r_active (rx_reasm st') = false;
  fi_cap : r_cap (rx_reasm st') = r_cap (rx_reasm st);
  fi_last : rx_last_frame_seq st' = sq /\ rx_have_last_frame_seq st' = true;
  fi_lost : rx_frames_lost st' = lost_after st
}.

Lemma rx_timing_spec now st st1 :
  rx_same st st1 -> r_frame_seq (rx_reasm st1) = sq ->
  match rx_timing sei_on now (rx_count_lost st1) with
  | Some t => ts_frame_seq t = sq /\ ts_frames_lost t = lost_after st /\
      ~ (sei_on = false \/ clock_sync_get (rx_sync st1) = None)
  | None => True
  end.
Proof.
  intros Hs Hq; unfold rx_timing, rx_count_lost; cbn [rx_sync rx_reasm rx_frames_lost].
  destruct (clock_sync_get (rx_sync st1)) as [[o u]|] eqn:E; [|done]; destruct sei_on; [|done].
  cbn [ts_frame_seq ts_frames_lost]; rewrite Hq, (rs_last _ _ Hs), (rs_have _ _ Hs), (rs_lost _ _ Hs).
  split_and!; try done; by intros [|].
Qed.

(** The NAL units [rx_send_frame] puts out: those of the last part with the
    message among them. *)
Lemma rx_send_frame_ok st st1 bytes nals vcl (msg : option timing_sei) :
  rx_rtp st1 = rx_rtp st -> rx_fwd_off st1 = zlen bytes -> r_buf (rx_reasm st1) = bytes ++ annexb nals ->
  pk_ready (rx_rtp st) -> part_ok nals ->
  vcl = negb (zlen bytes =? 0) -> zlen (bytes ++ annexb nals) + TIMING_SEI_NAL_MAX < 2 ^ 31 ->
  let mk := fun t => if vcl then timing_sei_build_suffix t else timing_sei_build t in
  let st' := rx_send_frame (mk <$> msg) st1 in
  exists pre out post, snd <$> nals = pre ++ post /\
    (out = [] \/ exists t, msg = Some t /\
       out = [sei_nal t (if vcl then SEI_SUFFIX_NAL_TYPE else SEI_PREFIX_NAL_TYPE)]) /\
    existsb (fun n => nal_type n <=? 31) pre = false /\
    rx_player st' = player_add (rx_player st) (pre ++ out ++ post) true /\ pk_ready (rx_rtp st') /\
    rx_same st1 st' /\ rx_reasm st' = rx_reasm st1 /\ rx_sync st' = rx_sync st1.
Proof.
  intros Hrtp Hoff Hbuf Hr Hp -> Hl; cbn zeta; change TIMING_SEI_NAL_MAX with 82 in Hl.
  pose proof (part_pos _ Hp) as Hpos; pose proof (zlen_nonneg bytes); pose proof Hl as Hl'; rewrite zlen_app in Hl'.
  assert (Hpl : rx_player st = rx_player st1) by (unfold rx_player; by rewrite Hrtp).
  rewrite <- Hrtp in Hr; rewrite Hpl; unfold rx_send_frame; rewrite Hoff.
  destruct (Z.eqb_spec (zlen bytes) 0) as [E|E]; cbn [negb].
  - apply zlen_eq_0 in E; subst bytes; cbn [app] in *; rewrite Hbuf.
    pose proof (rx_send_ok nals (rtp_ts_of (rx_reasm st1)) true st1 Hr (pa_sendable _ Hp)) as plain.
    assert (Hplain : exists pre out post, snd <$> nals = pre ++ post /\ (out = [] \/ exists t, msg = Some t /\
       out = [sei_nal t SEI_PREFIX_NAL_TYPE]) /\ existsb (fun n => nal_type n <=? 31) pre = false /\
       player_add (rx_player st1) (snd <$> nals) true = player_add (rx_player st1) (pre ++ out ++ post) true).
    { exists [], [], (snd <$> nals); split_and!; try done; by left. }
    destruct msg as [t|]; cbn [fmap option_fmap option_map].
    2: { destruct plain as (G1 & G2 & G3 & G4 & _ & G6), Hplain as (pre & out & post & ?); exists pre, out, post.
         rewrite G2; tauto. }
    destruct (insert_first_slice t nals (r_cap (rx_reasm st1)) (part_nal_ok _ Hp) (pa_slice _ Hp)) as
      [Hi|(pres & post & -> & Hno & Hi)]; [change TIMING_SEI_NAL_MAX with 82; lia|rewrite Hi; cbn [default from_option]..].
    { destruct plain as (G1 & G2 & G3 & G4 & _ & G6), Hplain as (pre & out & post & ?); exists pre, out, post.
      unfold id; rewrite G2; tauto. }
    assert (Hs : sendable (pres ++ (true, sei_nal t SEI_PREFIX_NAL_TYPE) :: post)).
    { destruct (sei_sendable t SEI_PREFIX_NAL_TYPE ltac:(by left)) as [_ _ _ Ht]; apply Forall_cons_1 in Ht as [Ht _].
      destruct Hp as [[_ _ _ Hn] Hroom _]; apply Forall_app in Hn as [? ?]; rewrite length_app in Hroom.
      pose proof (sei_nal_len t SEI_PREFIX_NAL_TYPE) as [_ Hm]; change TIMING_SEI_NAL_MAX with 82 in Hm.
      constructor; [by destruct pres|rewrite length_app; simpl; lia| |apply Forall_app; split; [done|by constructor]].
      rewrite annexb_app in *; rewrite annexb_cons, !zlen_app, zlen_sc in *; lia. }
    destruct (rx_send_ok _ (rtp_ts_of (rx_reasm st1)) true st1 Hr Hs) as (G1 & G2 & G3 & G4 & _ & G6).
    exists (snd <$> pres), [sei_nal t SEI_PREFIX_NAL_TYPE], (snd <$> post); unfold id; rewrite G2, !fmap_app.
    split_and!; try done; [right; by exists t|].
    clear -Hno; induction pres as [|n pres IH]; [done|]; cbn [existsb fmap list_fmap] in *.
    apply orb_false_iff in Hno as [-> Hno]; by apply IH.
  - rewrite Hbuf; unfold r_write_off; rewrite Hbuf, zlen_app.
    replace (zlen bytes + zlen (annexb nals) - zlen bytes) with (zlen (annexb nals)) by lia; rewrite u32_id by lia.
    rewrite (proj2 (Z.eqb_neq (zlen (annexb nals)) 0)) by lia; cbn [negb].
    destruct msg as [t|]; cbn [fmap option_fmap option_map].
    + rewrite suffix_annexb; destruct (rx_send_ok _ (rtp_ts_of (rx_reasm st1)) false st1 Hr (sei_sendable t _ ltac:(by right)))
        as (G1 & G2 & G3 & G4 & G5 & G6); set (st2 := rx_send _ _ false st1) in *.
      destruct (rx_send_ok nals (rtp_ts_of (rx_reasm st1)) true st2 G1 (pa_sendable _ Hp)) as (K1 & K2 & K3 & K4 & K5 & K6).
      exists [], [sei_nal t SEI_SUFFIX_NAL_TYPE], (snd <$> nals); rewrite G5, Hoff, zslice_tail, K2, G2, player_add_add.
      split_and!; try done; [right; by exists t|by eapply rx_same_trans|congruence|congruence].
    + destruct (rx_send_ok nals (rtp_ts_of (rx_reasm st1)) true st1 Hr (pa_sendable _ Hp)) as (K1 & K2 & K3 & K4 & K5 & K6).
      exists [], [], (snd <$> nals); rewrite Hoff, zslice_tail, K2; split_and!; try done; by left.
Qed.

Lemma rx_send_sync data ts e st : rx_sync (rx_send data ts e st) = rx_sync st.
Proof. unfold rx_send; by destruct (pk_send _ _ _ _). Qed.

Lemma rx_finish_sync now st : rx_sync (rx_finish_frame sei_on now st) = rx_sync st.
Proof.
  unfold rx_finish_frame, rx_send_frame; cbn [rx_set_fwd rx_set_reasm rx_sync].
  repeat (match goal with |- context [if ?b then _ else _] => destruct b end); repeat case_match; rewrite ?rx_send_sync; done.
Qed.

Lemma rx_finish_ok st st1 now k bytes nals vcl :
  fed st st1 k (bytes ++ annexb nals) (zlen bytes) vcl true -> pk_ready (rx_rtp st) -> part_ok nals ->
  vcl = negb (zlen bytes =? 0) -> zlen (bytes ++ annexb nals) + TIMING_SEI_NAL_MAX < 2 ^ 31 ->
  let st' := rx_finish_frame sei_on now st1 in
  exists pre msg post, snd <$> nals = pre ++ post /\ timing_msg st (rx_sync st') vcl msg /\
    existsb (fun n => nal_type n <=? 31) pre = false /\
    rx_player st' = player_add (rx_player st) (pre ++ msg ++ post) true /\ finished st st'.
Proof.
  intros (Hsame & Hrtp & Hoff & Hv & Hbuf & Hq & _) Hr Hp Hvcl Hl.
  pose proof (rx_timing_spec now st st1 Hsame Hq) as Htm; unfold rx_finish_frame.
  change (rx_fwd_vcl (rx_count_lost st1)) with (rx_fwd_vcl st1); rewrite Hv.
  destruct (rx_send_frame_ok st (rx_count_lost st1) bytes nals vcl (rx_timing sei_on now (rx_count_lost st1)) Hrtp Hoff Hbuf Hr Hp
    Hvcl Hl) as (pre & msg & post & Hn & Hm & Hno & Hpl & Hr' & Hs' & Hre & Hsy).
  set (st2 := rx_send_frame _ _) in *; exists pre, msg, post; refine (conj Hn (conj _ (conj Hno (conj Hpl _)))).
  - destruct Hm as [->|(t & Et & ->)]; [by split; [left|]|]; rewrite Et in Htm; destruct Htm as (? & ? & Hno').
    split; [right; by exists t|]; cbn [rx_set_fwd rx_set_reasm rx_sync]; rewrite Hsy; by intros ?%Hno'.
  - destruct Hs' as [E1 E2 E3 E4 E5]; unfold rx_set_fwd, rx_set_reasm, ar8030_reassembly_reset.
    constructor; cbn [rx_rtp rx_reasm r_active r_cap rx_last_frame_seq rx_have_last_frame_seq rx_frames_lost];
      rewrite ?E2, ?E3, ?E4, ?E5; try done; cbn [rx_count_lost rx_last_frame_seq rx_have_last_frame_seq rx_frames_lost rx_reasm];
      rewrite ?Hq; [by apply rs_cap|].
    unfold lost_after; by rewrite (rs_last _ _ Hsame), (rs_have _ _ Hsame), (rs_lost _ _ Hsame).
Qed.

Lemma lost_after_same st st1 : rx_same st st1 -> lost_after st1 = lost_after st.
Proof. intros Hs; unfold lost_after; by rewrite (rs_last _ _ Hs), (rs_have _ _ Hs), (rs_lost _ _ Hs). Qed.

Lemma timing_msg_same st st1 sync b msg : rx_same st st1 -> timing_msg st1 sync b msg -> timing_msg st sync b msg.
Proof. intros Hs; unfold timing_msg; by rewrite (lost_after_same _ _ Hs). Qed.

Lemma finished_same st st1 st' : rx_same st st1 -> finished st1 st' -> finished st st'.
Proof.
  intros Hs [? ? ? ? ?]; constructor; try done; [by rewrite <- (rs_cap _ _ Hs)|by rewrite <- (lost_after_same _ _ Hs)].
Qed.

(** What comes behind the frame's last chunk leaves it at that. *)
Lemma finished_other st st' st2 : finished st st' -> rx_other st' st2 -> finished st st2.
Proof.
  intros [? ? ? [? ?] ?] ([? ? ? ? ?] & Hre & Hrtp & _); constructor; rewrite ?Hrtp, ?Hre; try done; [split; congruence|congruence].
Qed.

Lemma timing_msg_other st st' st2 b msg :
  0 <= cs_n (rx_sync st') -> timing_msg st (rx_sync st') b msg -> rx_other st' st2 -> timing_msg st (rx_sync st2) b msg.
Proof.
  intros Hn [Hm Hno] (Hs & _); split; [done|]; destruct (rs_sync _ _ Hs Hn) as [_ Hg]; intros [?|?]; apply Hno; auto.
Qed.

(** One slice that is not the frame's last. *)
Lemma rx_run_slice nals tcs st first bytes vcl :
  streaming st first bytes (zlen bytes) vcl -> part_ok nals -> pk_ready (rx_rtp st) -> 0 <= first ->
  let d := annexb nals in
  first + count d <= 65535 -> filter is_video (snd <$> tcs) = chunks_of (cut d first false) (count d) ->
  zlen bytes + zlen d <= r_cap (rx_reasm st) < 2 ^ 31 ->
  let st' := rx_run sei_on tcs st in
  streaming st' (first + count d) (bytes ++ d) (zlen (bytes ++ d)) true /\
  rx_player st' = player_add (rx_player st) (snd <$> nals) false /\ pk_ready (rx_rtp st') /\ rx_same st st'.
Proof using Hpay Hfl Hsq.
  intros Hst Hp Hr Hf d Hm Hcs Hcap st'; unfold AR8030_CHUNK_MAX_PAYLOAD in Hpay; pose proof (zlen_nonneg bytes).
  assert (Hd : zlen d + payload - 1 < 2 ^ 32) by lia.
  destruct (zlen_part sq fl co pts payload Hpay d first false Hd) as [Hz Hn].
  destruct (rx_run_part d first false _ vcl tcs st bytes Hd Hf Hm Hcs Hst ltac:(lia)) as (st1 & now & c & tl & Hfed & Htl & Hrun & Hflag).
  subst st'; rewrite Hrun; pose proof (rx_run_other tl (rx_forward_slice c true st1) Htl) as Hot.
  destruct (rx_forward_ok st st1 c _ bytes nals vcl Hfed ltac:(lia) Hflag Hr Hp) as (F1 & F2 & F3 & F4).
  { rewrite zlen_app; fold d; lia. }
  split_and!; [by eapply streaming_other|..]; destruct Hot as (Hs & _ & Hrtp & _); unfold rx_player in *; rewrite ?Hrtp; try done.
  by eapply rx_same_trans.
Qed.

Lemma rx_run_parts parts : forall first bytes vcl tcs st,
  parts <> [] -> Forall part_ok parts -> streaming st first bytes (zlen bytes) vcl -> vcl = negb (zlen bytes =? 0) ->
  let cs := stream_chunks sq fl co pts payload first (annexb <$> parts) in
  0 <= first -> first + zlen cs <= 65535 -> filter is_video (snd <$> tcs) = cs -> 0 <= cs_n (rx_sync st) ->
  zlen bytes + zlen (concat (annexb <$> parts)) <= r_cap (rx_reasm st) ->
  r_cap (rx_reasm st) + TIMING_SEI_NAL_MAX < 2 ^ 31 -> pk_ready (rx_rtp st) ->
  exists pre msg post, snd <$> concat parts = pre ++ post /\
    timing_msg st (rx_sync (rx_run sei_on tcs st)) (vcl || existsb (fun n => nal_type n <=? 31) pre) msg /\
    rx_player (rx_run sei_on tcs st) = player_add (rx_player st) (pre ++ msg ++ post) true /\
    finished st (rx_run sei_on tcs st).
Proof using Hpay Hfl Hsq.
  induction parts as [|nals parts IH]; intros first bytes vcl tcs st Hne Hok Hst Hvcl cs Hf Hm Hcs Hcn Hcap H31 Hr; [done|].
  subst cs; apply Forall_cons_1 in Hok as [Hp Hok]; cbn [fmap list_fmap stream_chunks concat] in *.
  change TIMING_SEI_NAL_MAX with 82 in H31; unfold AR8030_CHUNK_MAX_PAYLOAD in Hpay.
  set (last := match annexb <$> parts with [] => true | _ => false end) in *; set (d := annexb nals) in *.
  set (rest := stream_chunks _ _ _ _ _ _ _) in *; pose proof (zlen_nonneg bytes); pose proof (zlen_nonneg (concat (annexb <$> parts))).
  pose proof (part_pos _ Hp) as Hpos; fold d in Hpos; rewrite !zlen_app in *.
  assert (Hd : zlen d + payload - 1 < 2 ^ 32) by lia; destruct (zlen_part sq fl co pts payload Hpay d first last Hd) as [Hz Hn].
  rewrite Hz in Hm; pose proof (zlen_nonneg rest); apply filter_split in Hcs as (tcs1 & tcs2 & -> & Hc1 & Hc2).
  assert (Hrun' : rx_run sei_on (tcs1 ++ tcs2) st = rx_run sei_on tcs2 (rx_run sei_on tcs1 st))
    by (unfold rx_run; apply fold_left_app); rewrite Hrun'.
  destruct parts as [|nals2 parts].
  - subst last rest; cbn [fmap list_fmap stream_chunks] in *; cbn [concat]; rewrite app_nil_r.
    destruct (rx_run_part d first true _ vcl tcs1 st bytes Hd Hf ltac:(lia) Hc1 Hst ltac:(lia))
      as (st1 & now & c & tl & Hfed & Htl & Hrun & _).
    rewrite Hrun; replace (rx_run sei_on tcs2 _) with (rx_run sei_on (tl ++ tcs2) (rx_finish_frame sei_on now st1))
      by (unfold rx_run; by rewrite fold_left_app).
    destruct (rx_finish_ok st st1 now _ bytes nals vcl Hfed Hr Hp Hvcl) as (pre & msg & post & E1 & E2 & E3 & E4 & E5).
    { rewrite zlen_app; fold d; change TIMING_SEI_NAL_MAX with 82; lia. }
    assert (Hot : rx_other (rx_finish_frame sei_on now st1) (rx_run sei_on (tl ++ tcs2) (rx_finish_frame sei_on now st1)))
      by (apply rx_run_other; by rewrite fmap_app, list.filter_app, Htl, Hc2).
    set (st2 := rx_finish_frame sei_on now st1) in *; exists pre, msg, post; rewrite E3, orb_false_r.
    refine (conj E1 (conj _ (conj _ (finished_other _ _ _ E5 Hot)))).
    + apply (timing_msg_other _ st2); try done; destruct Hfed as (Hs & _); destruct (rs_sync _ _ Hs Hcn) as [Hn1 _].
      by unfold st2; rewrite (rx_finish_sync now st1).
    + destruct Hot as (_ & _ & Hrtp & _); unfold rx_player in *; by rewrite Hrtp.
  - subst last; cbn [fmap list_fmap] in Hc1; cbv iota in Hc1.
    destruct (rx_run_slice nals tcs1 st first bytes vcl Hst Hp Hr Hf ltac:(fold d; lia) Hc1 ltac:(fold d; lia)) as (F1 & F2 & F3 & F4).
    set (st2 := rx_run sei_on tcs1 st) in *; fold d in F1.
    destruct (IH (first + count d) (bytes ++ d) true tcs2 st2) as (pre & msg & post & E1 & E2 & E3 & E4); try done;
      rewrite ?(rs_cap _ _ F4), ?zlen_app; try lia.
    + fold rest; lia.
    + destruct (rs_sync _ _ F4 Hcn); lia.
    + change TIMING_SEI_NAL_MAX with 82; lia.
    + exists ((snd <$> nals) ++ pre), msg, post; rewrite fmap_app, E1.
      rewrite <- !app_assoc, E3, F2, player_add_add; split_and!; [done| |done|by eapply finished_same].
      apply (timing_msg_same _ _ _ _ _ F4); replace (vcl || _) with true; [exact E2|].
      rewrite existsb_app, orb_assoc; symmetry; apply orb_true_iff; left; apply orb_true_iff; right.
      rewrite <- (pa_slice _ Hp); clear; induction nals as [|n nals IH]; [done|]; cbn [existsb fmap list_fmap]; by rewrite IH.
Qed.

(** Slices go on as they come: when the last chunk of a slice is in, the
    player has exactly its NAL units more, in the access unit still open, and
    the loop is set for the next slice of the same frame. *)
Theorem slice_passed_on nals tcs st first bytes vcl :
  streaming st first bytes (zlen bytes) vcl -> part_ok nals -> pk_ready (rx_rtp st) -> 0 <= first ->
  let d := annexb nals in
  first + count d <= 65535 ->
  filter is_video (snd <$> tcs)
    = chunks_of (part_params sq fl AR8030_CHUNK_CODEC_H265 pts payload d first false) (count d) ->
  zlen bytes + zlen d <= r_cap (rx_reasm st) < 2 ^ 31 ->
  let st' := rx_run sei_on tcs st in
  rx_player st' = player_add (rx_player st) (snd <$> nals) false /\
  streaming st' (first + count d) (bytes ++ d) (zlen (bytes ++ d)) true /\ pk_ready (rx_rtp st').
Proof using Hpay Hfl Hsq.
  intros Hst Hp Hr Hf d Hm Hcs Hcap st'.
  destruct (rx_run_slice nals tcs st first bytes vcl Hst Hp Hr Hf Hm Hcs Hcap) as (H1 & H2 & H3 & _); by split_and!.
Qed.

(** A frame the air streams slice by slice, from the chunker's
    [ar8030_chunk_part] calls to the player: whatever the chunk size, and
    whatever control and sidecar chunks come in between, the player is handed
    exactly one more picture, its NAL units the frame's in order, with at most the one timing message among them - never without a
    clock estimate or under [-T], a suffix SEI if a slice precedes it, else a
    prefix SEI.  The lost-frame count follows the gap rule, and the loop is
    ready for the next frame. *)
Theorem streamed_frame_played parts tcs st :
  parts <> [] -> Forall part_ok parts ->
  r_active (rx_reasm st) = false \/ sq <> r_frame_seq (rx_reasm st) -> pk_ready (rx_rtp st) ->
  let cs := stream_chunks sq fl AR8030_CHUNK_CODEC_H265 pts payload 0 (annexb <$> parts) in
  zlen cs <= 65535 -> filter is_video (snd <$> tcs) = cs -> 0 <= cs_n (rx_sync st) ->
  zlen (concat (annexb <$> parts)) <= r_cap (rx_reasm st) -> r_cap (rx_reasm st) + TIMING_SEI_NAL_MAX < 2 ^ 31 ->
  exists pre msg post, snd <$> concat parts = pre ++ post /\
    timing_msg st (rx_sync (rx_run sei_on tcs st)) (existsb (fun n => nal_type n <=? 31) pre) msg /\
    rx_player (rx_run sei_on tcs st) = player_add (rx_player st) (pre ++ msg ++ post) true /\
    finished st (rx_run sei_on tcs st).
Proof using Hpay Hfl Hsq.
  intros Hne Hok Hnew Hr cs Hlen Hcs Hcn Hcap H31.
  apply (rx_run_parts parts 0 [] false tcs st); try done; left; by split_and!.
Qed.
End streamed.

(** ** Examples *)

Definition demo_part1 : list (bool * list Z) := [(true, [64; 1; 12]); (true, [38; 1; 1; 2; 3])].
Definition demo_part2 : list (bool * list Z) := [(false, [38; 1; 4; 5; 6; 7; 8; 9; 10; 11])].

Lemma demo_part_ok nals :
  Forall (fun n => nal_ok n.2 /\ video_nal n.2) nals -> (nals <> []) /\ (length nals <= 255)%nat ->
  zlen (annexb nals) < 2 ^ 31 -> existsb (fun n => nal_type n.2 <=? 31) nals = true -> part_ok nals.
Proof. intros Hn [H1 H2] H3 H4; constructor; try done; constructor; try done; lia. Qed.

Lemma demo_parts_ok : Forall part_ok [demo_part1; demo_part2].
Proof.
  repeat constructor; try (vm_compute; done); try (simpl; lia); cbn [snd];
    try (apply nal_okb; vm_compute; done); try (apply (bool_decide_unpack _); vm_compute; done).
Qed.

(** The loop as [main] starts it, on a packetizer with four-byte fragments'
    payload limit of 8. *)
Definition demo_rx : rx_state (rtp_ctx * list (list Z)) :=
  rx_init (sidecar_srv_open 0 false) 4096 (mk_rtp 77 65535 8, []).

(** Two slices, with a clock-sync reply riding in the middle of the first. *)
Definition demo_stream : list (Z * chunk) :=
  let vs := pair 1000 <$> stream_chunks 9 0 AR8030_CHUNK_CODEC_H265 123 4 0 (annexb <$> [demo_part1; demo_part2]) in
  take 2 vs ++ [(1000, chunk_at (mk_cp 3 0 AR8030_CHUNK_CODEC_CTRL 0 (fmt_syncr 0 100 5000 5010) 64 0 1 false false) 1 0)] ++ drop 2 vs.

Lemma unwrap_air_pts_exact_witness : unwrap_air_pts (u32 (2 ^ 32 - 100)) (2 ^ 32 + 50) = 2 ^ 32 - 100.
Proof. apply (unwrap_air_pts_exact (2 ^ 32 - 100) (2 ^ 32 + 50)); [lia|lia|lia]. Defined.

Lemma slice_passed_on_witness :
  pl_open (rx_player (rx_run true (take 5 demo_stream) demo_rx)) = ([[64; 1; 12]; [38; 1; 1; 2; 3]], None).
Proof.
  destruct (slice_passed_on (HS := rtp_wire_spec) true 9 0 123 4 ltac:(vm_compute; done) ltac:(lia) ltac:(lia) demo_part1
    (take 5 demo_stream) demo_rx 0 [] false) as (-> & _).
  - left; split_and!; try reflexivity; by left.
  - exact (Forall_inv demo_parts_ok).
  - split_and!; vm_compute; congruence.
  - lia.
  - vm_compute; congruence.
  - vm_compute; reflexivity.
  - split; vm_compute; congruence.
  - vm_compute; reflexivity.
Defined.

(** The reply gives the ground its clock estimate: with [-T] off the message
    is there, here the loop runs with [-T]. *)
Lemma streamed_frame_played_witness :
  pl_pictures (rx_player (rx_run false demo_stream demo_rx))
  = [[[64; 1; 12]; [38; 1; 1; 2; 3]; [38; 1; 4; 5; 6; 7; 8; 9; 10; 11]]].
Proof.
  destruct (streamed_frame_played (HS := rtp_wire_spec) false 9 0 123 4 ltac:(vm_compute; done) ltac:(lia) ltac:(lia)
    [demo_part1; demo_part2] demo_stream demo_rx) as (pre & msg & post & E & [_ Hno] & -> & _).
  - done.
  - exact demo_parts_ok.
  - by left.
  - split_and!; vm_compute; congruence.
  - vm_compute; congruence.
  - vm_compute; reflexivity.
  - vm_compute; congruence.
  - vm_compute; congruence.
  - vm_compute; reflexivity.
  - rewrite Hno by (left; reflexivity); rewrite app_nil_l, <- E; vm_compute; reflexivity.
Defined.
