(* ===== verification/RxFrames.v ===== *)
(** [rx/main.c] on a run of frames: one sent whole is played like one sent
    slice by slice ([RxMain]), and the loop is ready for the next. *)

From S2P Require Import Prelude ChunkHdr Chunker Reassembly AnnexB ClockSync CtrlMsg SidecarSrv TimingSei RtpH265 Packetizer RxMain.
#[local] Open Scope Z_scope.

Section whole.
Context {P : Type} `{HP : Packetizer P} `{HS : !PacketizerSpec P}.
Context (sei_on : bool) (sq fl pts n : Z) (cs : list chunk).
Hypothesis Hsq : 0 <= sq < 65536.
Hypothesis Hfl : 0 <= fl < 64.
Hypothesis Hcs : frame_chunks cs sq n pts fl.
Hypothesis Hn : n = zlen cs.
Hypothesis Hvideo : Forall (fun c => codec c.1 = AR8030_CHUNK_CODEC_H265) cs.
Implicit Types st : rx_state P.

(** [k] chunks of the frame are in. *)
Definition collecting st (k : Z) (bytes : list Z) : Prop :=
  (k = 0 /\ bytes = [] /\ (r_active (rx_reasm st) = false \/ sq <> r_frame_seq (rx_reasm st))) \/
  (0 < k /\ in_frame (rx_reasm st) sq n pts fl k bytes /\ rx_fwd_off st = 0 /\ rx_fwd_vcl st = false).

Lemma rx_chunk_whole st now (pre : list chunk) c suf :
  cs = pre ++ c :: suf -> collecting st (zlen pre) (concat (snd <$> pre)) ->
  zlen (concat (snd <$> cs)) <= r_cap (rx_reasm st) < 2 ^ 32 ->
  exists st', fed sq fl pts st st' (zlen pre + 1) (concat (snd <$> pre) ++ c.2) 0 false true /\
    (suf <> [] -> collecting st' (zlen pre + 1) (concat (snd <$> pre) ++ c.2)) /\
    (rx_chunk sei_on now c st).2 = match suf with [] => rx_finish_frame sei_on now st' | _ => st' end.
Proof using Hsq Hcs Hn Hvideo.
  intros Heq Hst Hcap; pose proof (fc_len _ _ _ _ _ Hcs) as Hlen; pose proof (zlen_nonneg pre); pose proof (zlen_nonneg suf).
  destruct (fc_chunk _ _ _ _ _ Hcs (length pre) c) as (Hs & Hi & Hp & Hf & He & Hc);
    [subst cs; rewrite lookup_app_r by lia; by rewrite Nat.sub_diag|].
  assert (Hco : codec c.1 = AR8030_CHUNK_CODEC_H265) by (rewrite Heq in Hvideo; apply Forall_app in Hvideo as [_ Hv]; by apply Forall_cons_1 in Hv as [? _]).
  change (Z.of_nat (length pre)) with (zlen pre) in *; assert (Hz : zlen cs = zlen pre + 1 + zlen suf) by (rewrite Heq, zlen_app, zlen_cons; lia).
  pose proof (payload_total pre c suf) as Htot; rewrite <- Heq in Htot.
  assert (Hnz : n <> 0) by lia; rewrite (proj2 (Z.eqb_neq n 0)) in He by done; cbn [andb] in He.
  assert (Hcc : chunk_count c.1 = n) by (rewrite Hc, Hn; by destruct (_ =? _)).
  set (k := zlen pre) in *; set (bytes := concat (snd <$> pre)) in *; unfold rx_chunk; rewrite Hco; cbn [snd]; unfold rx_video.
  change (AR8030_CHUNK_CODEC_H265 =? AR8030_CHUNK_CODEC_CTRL) with false.
  change (AR8030_CHUNK_CODEC_H265 =? AR8030_CHUNK_CODEC_SIDECAR) with false; cbv iota; cbn [negb snd].
  assert (Hin : exists r0, ar8030_reassembly_feed (rx_reasm st) c.1 c.2 = feed_chunk r0 c.1 c.2 /\
    r_cap r0 = r_cap (rx_reasm st) /\ in_frame r0 sq n pts fl k bytes).
  { destruct Hst as [(-> & -> & Hnew)|(Hk0 & Hin & _)].
    - destruct (feed_start (rx_reasm st) c.1 c.2) as (r0 & E & Hcap0 & Hin); [by rewrite Hs|done|].
      exists r0; split_and!; [done|done|]; by rewrite He, Hs, Hp, Hf, Hcc in Hin.
    - exists (rx_reasm st); split_and!; [|done|done]; apply feed_same; destruct Hin; congruence. }
  destruct Hin as (r0 & -> & Hcap0 & Hin).
  destruct (feed_chunk_extend r0 c.1 c.2 _ _ _ _ _ _ Hin Hi) as (r' & -> & Hcap' & Hb & Hsq' & Hp' & Hf' & Ha & Hnx & Hni); [lia| |lia|].
  { by rewrite (proj2 (Z.eqb_neq n 0)). }
  rewrite (proj2 (Z.eqb_neq n 0)) in Hni |- * by done; cbn [andb orb] in *.
  assert (Ht : rx_taken r' c.1 = true).
  { unfold rx_taken; rewrite Ha, Hsq', Hs, Hnx, Hi, (u16_id (k + 1)), !Z.eqb_refl by lia; done. }
  rewrite Ht, Hi; cbn [andb]; set (st1 := if k =? 0 then rx_set_fwd 0 false (rx_set_reasm r' st) else rx_set_reasm r' st).
  assert (Hst1 : rx_same st st1 /\ rx_rtp st1 = rx_rtp st /\ rx_fwd_off st1 = 0 /\ rx_fwd_vcl st1 = false /\ rx_reasm st1 = r').
  { subst st1; destruct Hst as [(-> & _)|(Hk0 & _ & Hoff & Hvcl)].
    - cbn [Z.eqb]; split_and!; try done; constructor; try done; cbn [rx_reasm rx_set_reasm rx_set_fwd]; congruence.
    - rewrite (proj2 (Z.eqb_neq k 0)) by lia; split_and!; try done; constructor; try done; cbn [rx_reasm rx_set_reasm]; congruence. }
  destruct Hst1 as (S1 & S2 & S3 & S4 & S5); exists st1; split; [|split].
  - unfold fed; rewrite S5; by split_and!.
  - intros Hsuf; right; rewrite S5; split_and!; try done; [lia|]; apply Hni; apply Z.eqb_neq.
    assert (0 < zlen suf) by (destruct suf as [|c2 suf]; [done|rewrite zlen_cons; pose proof (zlen_nonneg suf); lia]); lia.
  - destruct suf as [|c2 suf].
    + change (zlen (@nil chunk)) with 0 in Hz; rewrite (proj2 (Z.eqb_eq (k + 1) n)) by lia; done.
    + rewrite zlen_cons in Hz; pose proof (zlen_nonneg suf).
      rewrite (proj2 (Z.eqb_neq (k + 1) n)) in Hni |- * by lia; change (bool_int false =? 0) with true; cbv iota.
      unfold rx_forward_slice; rewrite S5, (if_cnt _ _ _ _ _ _ _ (Hni eq_refl)), (proj2 (Z.eqb_neq n 0)) by done; done.
Qed.

Lemma collecting_other st st' k bytes : collecting st k bytes -> rx_other st st' -> collecting st' k bytes.
Proof.
  intros Hst (_ & Hr & _ & Ho & Hv); destruct Hst as [(-> & -> & Hnew)|(Hk & Hin & Hoff & Hvcl)]; [left|right];
    rewrite ?Hr, ?Ho, ?Hv; by split_and!.
Qed.

Lemma rx_run_collect : forall tcs pre suf st,
  cs = pre ++ suf -> suf <> [] -> filter is_video (snd <$> tcs) = suf ->
  collecting st (zlen pre) (concat (snd <$> pre)) -> zlen (concat (snd <$> cs)) <= r_cap (rx_reasm st) < 2 ^ 32 ->
  exists st1 now tl, fed sq fl pts st st1 n (concat (snd <$> cs)) 0 false true /\ filter is_video (snd <$> tl) = [] /\
    rx_run sei_on tcs st = rx_run sei_on tl (rx_finish_frame sei_on now st1).
Proof using Hsq Hcs Hn Hvideo.
  induction tcs as [|[now c] tcs IH]; intros pre suf st Heq Hne Hf Hst Hcap; [by destruct suf|].
  cbn [fmap list_fmap snd] in Hf; rewrite list.filter_cons in Hf; destruct (decide (is_video c)) as [Hc|Hc].
  - subst suf; destruct (rx_chunk_whole st now pre c _ Heq Hst Hcap) as (st1 & Hfed & Hcol & E).
    assert (Hcat : concat (snd <$> pre) ++ c.2 = concat (snd <$> (pre ++ [c]))) by (rewrite fmap_app, concat_app; simpl; by rewrite app_nil_r).
    assert (Hz : zlen pre + 1 = zlen (pre ++ [c])) by (by rewrite zlen_app).
    rewrite Hcat, Hz in *; destruct (filter is_video (snd <$> tcs)) as [|c2 suf] eqn:Es.
    + exists st1, now, tcs; rewrite Hn, Heq; split_and!; [exact Hfed|done|]; unfold rx_run; cbn [fold_left fst snd]; by rewrite E.
    + destruct (IH (pre ++ [c]) (c2 :: suf) st1) as (st2 & now2 & tl & Hfed2 & Htl & Hrun); try done.
      * by rewrite <- app_assoc.
      * by apply Hcol.
      * destruct Hfed as (Hs & _); by rewrite (rs_cap _ _ Hs).
      * exists st2, now2, tl; split_and!; [|done|unfold rx_run in *; cbn [fold_left fst snd]; by rewrite E].
        destruct Hfed as (S1 & R1 & _), Hfed2 as (S2 & R2 & G); split; [by eapply rx_same_trans|split; [congruence|exact G]].
  - pose proof (rx_chunk_other sei_on now c st Hc) as Hot.
    destruct (IH pre suf (rx_chunk sei_on now c st).2 Heq Hne Hf) as (st2 & now2 & tl & Hfed2 & Htl & Hrun).
    + by eapply collecting_other.
    + destruct Hot as (Hs & _); by rewrite (rs_cap _ _ Hs).
    + exists st2, now2, tl; split_and!; [|done|unfold rx_run in *; by cbn [fold_left fst snd]].
      destruct Hot as (S1 & _ & R1 & _), Hfed2 as (S2 & R2 & G); split; [by eapply rx_same_trans|split; [congruence|exact G]].
Qed.

(** A frame sent whole is handed to the player as one picture. *)
Lemma rx_run_whole nals tcs st :
  cs <> [] -> filter is_video (snd <$> tcs) = cs -> concat (snd <$> cs) = annexb nals -> part_ok nals ->
  r_active (rx_reasm st) = false \/ sq <> r_frame_seq (rx_reasm st) -> pk_ready (rx_rtp st) -> 0 <= cs_n (rx_sync st) ->
  zlen (annexb nals) <= r_cap (rx_reasm st) -> r_cap (rx_reasm st) + TIMING_SEI_NAL_MAX < 2 ^ 31 ->
  exists pre msg post, snd <$> nals = pre ++ post /\
    timing_msg sei_on sq st (rx_sync (rx_run sei_on tcs st)) (existsb (fun n => nal_type n <=? 31) pre) msg /\
    rx_player (rx_run sei_on tcs st) = player_add (rx_player st) (pre ++ msg ++ post) true /\
    finished sq st (rx_run sei_on tcs st).
Proof using Hsq Hfl Hcs Hn Hvideo.
  intros Hne Hf Hd Hp Hnew Hr Hcn Hcap H31; change TIMING_SEI_NAL_MAX with 82 in H31.
  destruct (rx_run_collect tcs [] cs st) as (st1 & now & tl & Hfed & Htl & ->); try done; [by left|rewrite Hd; lia|].
  rewrite Hd in Hfed; change (annexb nals) with ([] ++ annexb nals) in Hfed; change 0 with (zlen (@nil Z)) in Hfed.
  destruct (rx_finish_ok sei_on sq fl pts 1 ltac:(done) Hfl Hsq st st1 now _ [] nals false Hfed Hr Hp) as (pre & msg & post & E1 & E2 & E3 & E4 & E5); [done| |].
  { change TIMING_SEI_NAL_MAX with 82; cbn [app]; lia. }
  set (st2 := rx_finish_frame sei_on now st1) in *; pose proof (rx_run_other sei_on tl st2 Htl) as Hot.
  exists pre, msg, post; rewrite E3; refine (conj E1 (conj _ (conj _ (finished_other _ _ _ _ E5 Hot)))).
  - apply (timing_msg_other _ _ _ st2); try done; destruct Hfed as (Hs & _); destruct (rs_sync _ _ Hs Hcn) as [Hn1 _].
    by unfold st2; rewrite (rx_finish_sync sei_on now st1).
  - destruct Hot as (_ & _ & Hrtp & _); unfold rx_player in *; by rewrite Hrtp.
Qed.
End whole.

(** The clock estimate's window only grows or starts again, whatever comes. *)
Lemma rx_run_sync {P} `{Packetizer P} sei_on tcs : forall (st : rx_state P),
  0 <= cs_n (rx_sync st) -> 0 <= cs_n (rx_sync (rx_run sei_on tcs st)).
Proof.
  induction tcs as [|[now c] tcs IH]; intros st Hn; [done|]; apply IH; cbn [fst snd].
  destruct (decide (is_video c)) as [Hc|Hc]; [|by apply (rs_sync _ _ (proj1 (rx_chunk_other sei_on now c st Hc)))].
  unfold is_video in Hc; unfold rx_chunk; rewrite Hc; cbn; unfold rx_video.
  destruct (ar8030_reassembly_feed _ _ _) as [ret r]; set (taken := rx_taken r c.1).
  destruct (ret =? 0); [unfold rx_forward_slice; destruct (_ && _ && _ && _); cbn [rx_set_fwd rx_sync]; rewrite ?rx_send_sync|
                        rewrite rx_finish_sync]; by destruct (_ && _).
Qed.
