(* ===== verification/RetxEvent.v ===== *)
(** [common/ar8030_retx_event.h]: the chip's retransmission record and the
    edge it stands for. *)

From S2P Require Import Prelude.
#[local] Open Scope Z_scope.

Definition AR8030_RETX_EVENT_LEN : Z := 0x88.

(** [ar8030_retx_state_t] *)
Record retx_state := mk_retx {
  rt_bits : Z;
  rt_pos : Z;
  rt_busy_on : Z;
  rt_conti_on : Z;
  rt_win : Z;
  rt_busy : Z;
  rt_idle : Z;
  rt_conti_busy : Z;
  rt_conti_idle : Z
}.

(** [None] for the C result -1; [arg] is [None] for a null pointer. *)
Definition ar8030_retx_event_decode (arg : option (list Z)) : option retx_state :=
  match arg with
  | None => None
  | Some p =>
      let st := mk_retx (le_dec (zslice 0 4 p)) (byte_at p 4) (byte_at p 5) (byte_at p 6) (byte_at p 8) (byte_at p 9)
                  (byte_at p 10) (byte_at p 11) (byte_at p 12) in
      if (1 <? rt_busy_on st) || (1 <? rt_conti_on st) || (rt_win st =? 0) || (rt_win st <=? rt_pos st) then None
      else Some st
  end.

Definition ar8030_retx_event_rising (prev cur : retx_state) : bool :=
  if (rt_busy_on cur =? rt_busy_on prev) && (rt_conti_on cur =? rt_conti_on prev) then
    negb (rt_busy_on cur =? 0) || negb (rt_conti_on cur =? 0)
  else (negb (rt_busy_on cur =? 0) && (rt_busy_on prev =? 0))
       || (negb (rt_conti_on cur =? 0) && (rt_conti_on prev =? 0)).

(** ** The chip's side: a window of super-frames *)

(** The two flags the chip keeps. *)
Definition chip_flags := (bool * bool)%type.

(** A flag change never mixes a rising and a falling edge. *)
Definition one_edge (f g : chip_flags) : Prop :=
  f <> g /\ ~ ((f.1 = false /\ g.1 = true /\ f.2 = true /\ g.2 = false) \/
               (f.1 = true /\ g.1 = false /\ f.2 = false /\ g.2 = true)).

(** Pressure rose. *)
Definition rose (f g : chip_flags) : Prop := (f.1 = false /\ g.1 = true) \/ (f.2 = false /\ g.2 = true).

(** A record the firmware sends with flags [f]. *)
Record record_of (f : chip_flags) (p : list Z) : Prop := {
  ro_bytes : bytes_ok p;
  ro_len : zlen p = AR8030_RETX_EVENT_LEN;
  ro_busy : byte_at p 5 = bool_int f.1;
  ro_conti : byte_at p 6 = bool_int f.2;
  ro_win : byte_at p 4 < byte_at p 8
}.

Section retx.

Lemma decode_record f p : record_of f p ->
  exists st, ar8030_retx_event_decode (Some p) = Some st /\ rt_busy_on st = bool_int f.1 /\ rt_conti_on st = bool_int f.2
    /\ rt_win st = byte_at p 8 /\ rt_bits st = le_dec (zslice 0 4 p).
Proof.
  intros [Hb _ H5 H6 Hw]; pose proof (byte_at_ok p 4 Hb) as H4; unfold byte_ok in H4; unfold ar8030_retx_event_decode.
  cbn [rt_busy_on rt_conti_on rt_win rt_pos]; rewrite H5, H6.
  replace ((1 <? bool_int f.1) || (1 <? bool_int f.2) || (byte_at p 8 =? 0) || (byte_at p 8 <=? byte_at p 4)) with false.
  { eexists; split_and!; [reflexivity|reflexivity..]. }
  symmetry; repeat (apply orb_false_iff; split); destruct f as [[] []]; cbn; lia.
Qed.

(** Every record the firmware sends is taken, and an event counts as
    rising pressure exactly when a flag rose since the previous one, for every
    change the chip makes (it never mixes edges): a recovery is not taken for
    a fade.  When the previous record is stale (the flags have not changed),
    any flag set counts. *)
Theorem retx_event_edges f g p q :
  record_of f p -> record_of g q ->
  exists prev cur, ar8030_retx_event_decode (Some p) = Some prev /\ ar8030_retx_event_decode (Some q) = Some cur /\
    (one_edge f g -> (ar8030_retx_event_rising prev cur = true <-> rose f g) /\
                     (ar8030_retx_event_rising prev cur = false <-> rose g f)) /\
    (f = g -> ar8030_retx_event_rising prev cur = g.1 || g.2).
Proof.
  intros Hp Hq; apply decode_record in Hp as (prev & E1 & B1 & C1 & _); apply decode_record in Hq as (cur & E2 & B2 & C2 & _).
  exists prev, cur; split_and!; [done|done| |]; unfold ar8030_retx_event_rising, one_edge, rose; rewrite B1, B2, C1, C2.
  - destruct f as [[] []], g as [[] []]; cbn; intros [Hne Hmix]; intuition congruence.
  - intros <-; destruct f as [[] []]; done.
Qed.
End retx.

(** A record as the Ascent air sends it: two retransmitted super-frames. *)
Definition demo_record (busy conti : Z) : list Z :=
  [3; 0; 0; 0; 2; busy; conti; 0; 10; 6; 4; 2; 0] ++ replicate 123 0.

Lemma demo_record_ok b c : record_of (b, c) (demo_record (bool_int b) (bool_int c)).
Proof. destruct b, c; constructor; try (vm_compute; reflexivity); apply (bool_decide_unpack _); vm_compute; done. Qed.

Lemma retx_event_edges_witness :
  exists prev cur, ar8030_retx_event_decode (Some (demo_record 0 0)) = Some prev /\
    ar8030_retx_event_decode (Some (demo_record 0 1)) = Some cur /\ ar8030_retx_event_rising prev cur = true.
Proof.
  destruct (retx_event_edges (false, false) (false, true) (demo_record 0 0) (demo_record 0 1)
    (demo_record_ok false false) (demo_record_ok false true)) as (prev & cur & E1 & E2 & H & _).
  exists prev, cur; split; [exact E1|split; [exact E2|]]; apply H; [|right; split; reflexivity].
  split; [congruence|]; cbn; intuition congruence.
Defined.
