(* ===== verification/ChipAdc.v ===== *)
(** [common/ar8030_rftemp.h], [common/ar8030_batt.h],
    [common/ar8030_link_policy.h]: the small requests to the chip, and what is
    made of its ADC readings.  [bb_ioctl] is the SDK's: a parameter. *)

From S2P Require Import Prelude.
#[local] Open Scope Z_scope.

(** [ar8030_mcs_item_t] *)
Record mcs_item := mk_mcs {
  mi_mcs : Z; mi_ldpc_up_num : Z; mi_snr_up : Z; mi_snr_dw : Z; mi_rsv2 : Z; mi_ldpc_dw_num : Z;
  mi_up_keep_time : Z; mi_dw_keep_time : Z
}.

(** The requests these headers make, with the arguments they fill in. *)
Inductive bb_request :=
  | BB_SET_MCS_ITEM (item : mcs_item)
  | BB_SET_MCS_RANGE (slot mcs_min mcs_max : Z)
  | BB_SET_PRJ_DISPATCH (data : list Z)
  | BB_GET_PRJ_DISPATCH (data : list Z).

(** [bb_ioctl]: result, output data, world behind it. *)
Class ChipIoctl (W : Type) := { bb_ioctl : bb_request -> W -> Z * list Z * W }.

(** ** Link policy *)

Definition AR8030_PRJ_RFO_KIKP : Z := 0x8c.
Definition AR8030_PRJ_FEM_CTRL : Z := 0x0e.
Definition AR8030_FEM_CTRL_MIN_DBM : Z := 24.

Definition ar8030_gnd_mcs_tables : list (list mcs_item) := [
  [mk_mcs 1 2 0x24 0x1d 0 4 1000 15; mk_mcs 2 2 0x5c 0x41 0 4 1500 15; mk_mcs 5 2 0xa8 0x77 0 4 1500 15;
   mk_mcs 7 2 0x12f 0xf1 0 4 800 15; mk_mcs 8 2 0x256 0x1db 0 3 800 15; mk_mcs 10 2 0x4a8 0x3b3 0 4 1000 12;
   mk_mcs 12 2 0x736 0x5ba 0 2 1000 1];
  [mk_mcs 1 3 0x24 0x1d 0 5 1000 0; mk_mcs 2 4 0x41 0x34 0 6 1500 100; mk_mcs 5 3 0x72 0x5a 0 5 1500 100;
   mk_mcs 7 3 300 0xd6 0 5 700 25; mk_mcs 8 3 0x214 0x1a6 0 5 800 15; mk_mcs 10 3 0x426 0x34b 0 5 1000 0;
   mk_mcs 12 3 0x736 0x5bb 0 5 1000 0]].

Definition ar8030_air_mcs_table : list mcs_item :=
  [mk_mcs 1 2 0x42 0x2f 2 4 1000 500; mk_mcs 2 2 0x83 0x5d 2 3 500 10; mk_mcs 5 2 0xee 0xa9 2 4 500 30].

Definition ar8030_gnd_mcs_table (strategy : Z) : list mcs_item :=
  nth (if strategy =? 2 then 1 else 0) ar8030_gnd_mcs_tables [].

Section requests.
Context {W : Type} `{ChipIoctl W}.

Definition ar8030_set_mcs_item (e : mcs_item) (w : W) : Z * W :=
  let '(ret, _, w) := bb_ioctl (BB_SET_MCS_ITEM e) w in (ret, w).

Definition ar8030_set_mcs_range (slot mcs_min mcs_max : Z) (w : W) : Z * W :=
  let '(ret, _, w) := bb_ioctl (BB_SET_MCS_RANGE (u8 slot) (u8 mcs_min) (u8 mcs_max)) w in (ret, w).

(** The 256-byte request: the command, then [data] from byte 4. *)
Definition prj_buf (cmd : Z) (data : list Z) : list Z :=
  let data := ztake (256 - 4) data in
  [cmd; 0; 0; 0] ++ data ++ replicate (Z.to_nat (252 - zlen data)) 0.

Definition ar8030_prj_set (cmd : Z) (data : list Z) (w : W) : Z * W :=
  let '(ret, _, w) := bb_ioctl (BB_SET_PRJ_DISPATCH (prj_buf cmd data)) w in (ret, w).

Definition ar8030_set_rfo_kikp (on : bool) (w : W) : Z * W := ar8030_prj_set AR8030_PRJ_RFO_KIKP [bool_int on] w.

Definition ar8030_set_fem_ctrl (on : bool) (w : W) : Z * W :=
  ar8030_prj_set AR8030_PRJ_FEM_CTRL [0x83; 0x50; if on then 0x02 else 0x00] w.

(** ** ADC *)

Definition AR8030_RFTEMP_CMD_ARM : Z := 0x8a.
Definition AR8030_RFTEMP_CMD_READ : Z := 0x89.
Definition AR8030_RFTEMP_ARM_PERIOD : Z := 500.

Definition rftemp_arm_buf (channel : Z) : list Z :=
  [AR8030_RFTEMP_CMD_ARM; 0; 0; 0; u8 channel; 0; 0; 0] ++ le_enc 4 AR8030_RFTEMP_ARM_PERIOD ++ replicate 244 0.

Definition ar8030_rftemp_arm (channel : Z) (w : W) : Z * W :=
  let '(ret, _, w) := bb_ioctl (BB_SET_PRJ_DISPATCH (rftemp_arm_buf channel)) w in (ret, w).

(** The result and, on success, the millivolts. *)
Definition ar8030_rftemp_read_mv (channel : Z) (w : W) : Z * option Z * W :=
  let '(ret, out, w) := bb_ioctl (BB_GET_PRJ_DISPATCH ([AR8030_RFTEMP_CMD_READ; 0; 0; 0; u8 channel] ++ replicate 251 0)) w in
  (ret, if ret =? 0 then Some (s32 (le_dec (zslice 4 4 out))) else None, w).
End requests.

(** [temp_c], [mv] *)
Definition ar8030_rftemp_table : list (Z * Z) :=
  [(0, 500); (15, 740); (25, 900); (40, 1076); (50, 1193); (65, 1370); (75, 1440); (85, 1510); (95, 1570); (105, 1660);
   (115, 1700); (125, 1740)].

Definition AR8030_RFTEMP_NONE : Z := -10000.

(** The interpolation loop, from the entry behind [(t0, v0)]. *)
Fixpoint rftemp_loop (t0 v0 : Z) (table : list (Z * Z)) (mv : Z) : Z :=
  match table with
  | [] => 1300
  | (t1, v1) :: table =>
      if mv <? v1 then t0 * 10 + Z.quot ((t1 * 10 - t0 * 10) * (mv - v0)) (v1 - v0)
      else rftemp_loop t1 v1 table mv
  end.

Definition ar8030_rftemp_mv_to_c10 (mv : Z) : Z :=
  match ar8030_rftemp_table with
  | (t0, v0) :: table => if mv <? v0 then AR8030_RFTEMP_NONE else rftemp_loop t0 v0 table mv
  | [] => 1300
  end.

Definition ar8030_batt_mv (adc_mv scale offset_mv : Z) : Z :=
  if 0 <? adc_mv then adc_mv * scale + offset_mv else -1.

(** ** The curve *)

(** Entries rise in both columns and stay under the final clamp. *)
Fixpoint rising_table (t0 v0 : Z) (table : list (Z * Z)) : Prop :=
  match table with
  | [] => t0 * 10 <= 1300
  | (t1, v1) :: table => t0 < t1 /\ v0 < v1 /\ rising_table t1 v1 table
  end.

Section curve.

Lemma segment_bounds t0 t1 v0 v1 mv :
  t0 < t1 -> v0 < v1 -> v0 <= mv < v1 ->
  t0 * 10 <= t0 * 10 + Z.quot ((t1 * 10 - t0 * 10) * (mv - v0)) (v1 - v0) < t1 * 10.
Proof.
  intros; assert (0 <= (t1 * 10 - t0 * 10) * (mv - v0)) by nia; rewrite Z.quot_div_nonneg by lia; split.
  - assert (0 <= (t1 * 10 - t0 * 10) * (mv - v0) / (v1 - v0)) by (apply Z.div_pos; lia); lia.
  - assert ((t1 * 10 - t0 * 10) * (mv - v0) / (v1 - v0) < t1 * 10 - t0 * 10) by (apply Z.div_lt_upper_bound; nia); lia.
Qed.

Lemma rftemp_loop_bounds table : forall t0 v0 mv,
  rising_table t0 v0 table -> v0 <= mv -> t0 * 10 <= rftemp_loop t0 v0 table mv <= 1300.
Proof.
  assert (Hmax : forall table t0 v0, rising_table t0 v0 table -> t0 * 10 <= 1300).
  { clear; intros table; induction table as [|[t1 v1] table IH]; intros t0 v0; cbn [rising_table]; [lia|].
    intros (Ht & _ & Hr); specialize (IH _ _ Hr); lia. }
  induction table as [|[t1 v1] table IH]; intros t0 v0 mv; cbn [rising_table rftemp_loop]; [lia|].
  intros (Ht & Hv & Hr) Hm; destruct (mv <? v1) eqn:E; bool_to_prop.
  - pose proof (segment_bounds t0 t1 v0 v1 mv Ht Hv ltac:(lia)); specialize (Hmax _ _ _ Hr); lia.
  - specialize (IH t1 v1 mv Hr ltac:(lia)); lia.
Qed.

Lemma rftemp_loop_mono table : forall t0 v0 m n,
  rising_table t0 v0 table -> v0 <= m <= n -> rftemp_loop t0 v0 table m <= rftemp_loop t0 v0 table n.
Proof.
  induction table as [|[t1 v1] table IH]; intros t0 v0 m n; cbn [rising_table rftemp_loop]; [lia|].
  intros (Ht & Hv & Hr) Hm; destruct (m <? v1) eqn:E, (n <? v1) eqn:F; bool_to_prop; try lia.
  - assert (0 <= (t1 * 10 - t0 * 10) * (m - v0) <= (t1 * 10 - t0 * 10) * (n - v0)) by nia.
    rewrite !Z.quot_div_nonneg by lia; apply Z.add_le_mono_l, Z.div_le_mono; lia.
  - pose proof (segment_bounds t0 t1 v0 v1 m Ht Hv ltac:(lia)); pose proof (rftemp_loop_bounds table t1 v1 n Hr F); lia.
  - apply IH; [done|lia].
Qed.

Lemma rftemp_loop_point pre t v table : forall t0 v0,
  rising_table t0 v0 (pre ++ (t, v) :: table) -> table <> [] -> rftemp_loop t0 v0 (pre ++ (t, v) :: table) v = t * 10.
Proof.
  induction pre as [|[t1 v1] pre IH]; intros t0 v0; cbn [rising_table rftemp_loop app].
  - intros (_ & _ & Hr) Hne; rewrite Z.ltb_irrefl; destruct table as [|[t2 v2] table]; [done|].
    cbn [rising_table rftemp_loop] in *; destruct Hr as (_ & Hv & _); rewrite (proj2 (Z.ltb_lt _ _)), Z.sub_diag by lia.
    rewrite Z.mul_0_r, Z.quot_0_l; lia.
  - intros (_ & Hv & Hr) Hne; assert (v1 < v).
    { clear -Hr; revert t1 v1 Hr; induction pre as [|[t2 v2] pre IH]; intros t1 v1; cbn [rising_table app]; [tauto|].
      intros (_ & ? & Hr); specialize (IH _ _ Hr); lia. }
    rewrite (proj2 (Z.ltb_ge _ _)) by lia; by apply IH.
Qed.

(** The temperature curve: no reading below the table's first entry,
    otherwise 0 to 130 degrees, never falling as the voltage rises, and exact
    at every entry of the table but the last (where the clamp begins). *)
Theorem rftemp_curve m n :
  m <= n ->
  (ar8030_rftemp_mv_to_c10 m = AR8030_RFTEMP_NONE <-> m < 500) /\
  (500 <= m -> 0 <= ar8030_rftemp_mv_to_c10 m <= ar8030_rftemp_mv_to_c10 n /\ ar8030_rftemp_mv_to_c10 n <= 1300) /\
  (forall t v pre post, ar8030_rftemp_table = pre ++ (t, v) :: post -> post <> [] -> ar8030_rftemp_mv_to_c10 v = t * 10).
Proof.
  intros Hmn; set (table := tail ar8030_rftemp_table).
  assert (Hr : rising_table 0 500 table) by (cbn; lia).
  assert (Hc : forall k, 500 <= k -> ar8030_rftemp_mv_to_c10 k = rftemp_loop 0 500 table k).
  { intros k Hk; unfold ar8030_rftemp_mv_to_c10, ar8030_rftemp_table; by rewrite (proj2 (Z.ltb_ge _ _)). }
  split_and!.
  - split; [|intros; unfold ar8030_rftemp_mv_to_c10, ar8030_rftemp_table; by rewrite (proj2 (Z.ltb_lt _ _))].
    intros E; destruct (Z.lt_ge_cases m 500) as [|Hm]; [done|]; rewrite Hc in E by done.
    pose proof (rftemp_loop_bounds table 0 500 m Hr Hm); unfold AR8030_RFTEMP_NONE in E; lia.
  - intros Hm; rewrite !Hc by lia; pose proof (rftemp_loop_bounds table 0 500 m Hr Hm).
    pose proof (rftemp_loop_bounds table 0 500 n Hr ltac:(lia)); pose proof (rftemp_loop_mono table 0 500 m n Hr ltac:(lia)); lia.
  - intros t v [|[t0 v0] pre] post E Hne.
    + injection E as <- <- <-; reflexivity.
    + assert (Hv : 500 <= v).
      { assert (Hin : (t, v) ∈ ar8030_rftemp_table) by (rewrite E; apply elem_of_app; right; left).
        unfold ar8030_rftemp_table in Hin; repeat (apply elem_of_cons in Hin as [[= -> ->]|Hin]; [lia|]).
        by apply not_elem_of_nil in Hin. }
      rewrite Hc by done; injection E as <- <- E; change table with (tail ar8030_rftemp_table); cbn [tail ar8030_rftemp_table].
      rewrite E; apply rftemp_loop_point; [rewrite <- E; exact Hr|done].
Qed.
End curve.

Lemma rftemp_curve_witness : 0 <= ar8030_rftemp_mv_to_c10 950 <= ar8030_rftemp_mv_to_c10 1000 /\ ar8030_rftemp_mv_to_c10 900 = 250.
Proof.
  destruct (rftemp_curve 950 1000) as (_ & H1 & H2); [lia|]; split; [apply H1; lia|].
  exact (H2 25 900 [(0, 500); (15, 740)] _ eq_refl ltac:(discriminate)).
Defined.
