(* ===== verification/Link.v ===== *)
(** [common/ar8030_link.c], and how [tx/main.c] and [rx/main.c] (re)open the
    link and its data socket.  The baseband SDK is a parameter. *)

From S2P Require Import Prelude.
#[local] Open Scope Z_scope.

(** The SDK calls of [ar8030_link.c], the process' stop flag and [usleep].
    Handles are numbers; a null pointer is [None].  A list of devices that is
    not empty is the caller's to free. *)
Class LinkSdk (W : Type) := {
  bb_host_connect : W -> Z * option Z * W;
  bb_host_disconnect : Z -> W -> W;
  bb_dev_getlist : Z -> W -> list Z * W;
  bb_dev_open : Z -> W -> option Z * W;
  bb_dev_freelist : list Z -> W -> W;
  bb_dev_close : Z -> W -> W;
  bb_socket_open : Z -> Z -> Z -> W -> Z * W;
  bb_socket_close : Z -> W -> W;
  bb_get_status : Z -> W -> Z * list bool * W;
  bb_force_cls_socket : Z -> Z -> Z -> W -> Z * W;
  bb_force_cls_socket_all : Z -> W -> Z * W;
  stop_flag : W -> bool * W;
  usleep_ms : Z -> W -> W
}.

(** [ar8030_link_t] *)
Record link := mk_link { lk_host : option Z; lk_dev : option Z; lk_sockfd : Z }.

Definition RETRY_MS : Z := 2000.
Definition SOCKET_REOPEN_MAX_ATTEMPTS : Z := 5.
Definition SOCKET_REOPEN_RETRY_MS : Z := 500.

Section link.
Context {W : Type} `{LinkSdk W}.

Definition ar8030_link_connect (w : W) : Z * link * W :=
  let '(ret, host, w) := bb_host_connect w in
  if negb (ret =? 0) then (-1, mk_link None None (-1), w)
  else
    match host with
    | None => (-1, mk_link None None (-1), w)
    | Some h =>
        let '(devs, w) := bb_dev_getlist h w in
        match devs with
        | [] => (-1, mk_link None None (-1), bb_host_disconnect h w)
        | d :: _ =>
            let '(dev, w) := bb_dev_open d w in
            let w := bb_dev_freelist devs w in
            match dev with
            | None => (-1, mk_link None None (-1), bb_host_disconnect h w)
            | Some dev => (0, mk_link (Some h) (Some dev) (-1), w)
            end
        end
    end.

(** [fuel] attempts; [None] when they are used up without an end. *)
Fixpoint ar8030_link_connect_retry (fuel : nat) (retry_ms : Z) (w : W) : option (Z * link * W) :=
  match fuel with
  | O => None
  | S fuel =>
      let '(ret, l, w) := ar8030_link_connect w in
      if ret =? 0 then Some (0, l, w)
      else
        let '(stop, w) := stop_flag w in
        if stop then Some (-1, l, w)
        else
          let w := usleep_ms retry_ms w in
          let '(stop, w) := stop_flag w in
          if stop then Some (-1, l, w) else ar8030_link_connect_retry fuel retry_ms w
  end.

Definition ar8030_link_open_socket (l : link) (slot port : Z) (w : W) : Z * link * W :=
  match lk_dev l with
  | None => (-1, l, w)
  | Some dev =>
      let '(fd, w) := bb_socket_open dev slot port w in
      if fd <? 0 then (-1, l, w) else (0, mk_link (lk_host l) (lk_dev l) fd, w)
  end.

Definition ar8030_link_force_close_socket (l : link) (slot port : Z) (w : W) : Z * W :=
  match lk_dev l with
  | None => (-1, w)
  | Some dev => bb_force_cls_socket dev (u8 slot) (u8 port) w
  end.

Definition ar8030_link_force_close_all_sockets (l : link) (w : W) : Z * W :=
  match lk_dev l with
  | None => (-1, w)
  | Some dev => bb_force_cls_socket_all dev w
  end.

Definition ar8030_link_close (l : link) (w : W) : link * W :=
  let w := if 0 <=? lk_sockfd l then bb_socket_close (lk_sockfd l) w else w in
  let sockfd := if 0 <=? lk_sockfd l then -1 else lk_sockfd l in
  let w := match lk_dev l with Some dev => bb_dev_close dev w | None => w end in
  let w := match lk_host l with Some h => bb_host_disconnect h w | None => w end in
  (mk_link None None sockfd, w).

Definition ar8030_link_is_alive (l : link) (w : W) : bool * W :=
  match lk_dev l with
  | None => (false, w)
  | Some dev => let '(ret, _, w) := bb_get_status dev w in (ret =? 0, w)
  end.

Definition ar8030_link_reconnect_retry (fuel : nat) (l : link) (retry_ms : Z) (w : W) : option (Z * link * W) :=
  let '(_, w) := ar8030_link_close l w in ar8030_link_connect_retry fuel retry_ms w.

(** ** The data socket *)

(** The tries of one round, [n] left: last result, tries made so far. *)
Fixpoint open_tries (n : nat) (slot port : Z) (l : link) (ret tries : Z) (w : W) : Z * Z * link * W :=
  match n with
  | O => (ret, tries, l, w)
  | S n =>
      let '(stop, w) := stop_flag w in
      if stop then (ret, tries, l, w)
      else
        let '(ret, l, w) := ar8030_link_open_socket l slot port w in
        if ret =? 0 then (0, tries + 1, l, w)
        else open_tries n slot port l ret (tries + 1) (usleep_ms SOCKET_REOPEN_RETRY_MS w)
  end.

(** tx/main.c [open_data_socket]; result and [*attempts]. *)
Definition open_data_socket (l : link) (slot port : Z) (w : W) : Z * Z * link * W :=
  let '(_, w) := ar8030_link_force_close_socket l slot port w in
  let tries := Z.to_nat SOCKET_REOPEN_MAX_ATTEMPTS in
  let '(ret, n, l, w) := open_tries tries slot port l (-1) 0 w in
  if ret =? 0 then (ret, n, l, w)
  else
    let '(_, w) := ar8030_link_force_close_all_sockets l w in
    open_tries tries slot port l ret n w.

(** The same in rx/main.c, at startup and after a reconnect: one round, on
    the AP's slot. *)
Definition rx_open_socket (slot_ap : Z) (l : link) (port : Z) (w : W) : Z * Z * link * W :=
  let '(_, w) := ar8030_link_force_close_socket l slot_ap port w in
  open_tries (Z.to_nat SOCKET_REOPEN_MAX_ATTEMPTS) slot_ap port l (-1) 0 w.

(** The first connected slot of a status. *)
Fixpoint connected_slot (s : Z) (states : list bool) : option Z :=
  match states with
  | [] => None
  | c :: states => if c then Some s else connected_slot (s + 1) states
  end.

(** tx/main.c [resolve_connected_slot]; [-1] when stopped. *)
Fixpoint resolve_connected_slot (fuel : nat) (dev : Z) (w : W) : option (Z * W) :=
  match fuel with
  | O => None
  | S fuel =>
      let '(stop, w) := stop_flag w in
      if stop then Some (-1, w)
      else
        let '(ret, states, w) := bb_get_status dev w in
        match (if ret =? 0 then connected_slot 0 states else None) with
        | Some s => Some (s, w)
        | None => resolve_connected_slot fuel dev (usleep_ms RETRY_MS w)
        end
  end.

(** How a turn of a program's main loop ends; [Fuel_out] when a wait was not
    over within the fuel. *)
Inductive turn := Go_on | Leave | Fuel_out.

(** How a (re)connect ends. *)
Inductive reopened :=
  | Reopened (l : link) (slot : Z)
  | Stopped (l : link)
  | Reopen_failed (l : link).

(** tx/main.c: what follows a (re)connect that worked. *)
Definition tx_open_link (fuel : nat) (l : link) (slot : Z) (slot_was_auto : bool) (port : Z) (w : W) : option (reopened * W) :=
  match (if slot_was_auto then match lk_dev l with Some dev => resolve_connected_slot fuel dev w | None => None end
         else Some (slot, w)) with
  | None => None
  | Some (slot, w) =>
      if slot_was_auto && (slot <? 0) then Some (Stopped l, w)
      else
        let '(ret, _, l, w) := open_data_socket l slot port w in
        if negb (ret =? 0) then Some (Reopen_failed l, w) else Some (Reopened l slot, w)
  end.

(** tx/main.c's reconnect path. *)
Definition tx_reconnect (fuel : nat) (l : link) (slot : Z) (slot_was_auto : bool) (port : Z) (w : W) : option (reopened * W) :=
  match ar8030_link_reconnect_retry fuel l RETRY_MS w with
  | None => None
  | Some (ret, l, w) => if negb (ret =? 0) then Some (Stopped l, w) else tx_open_link fuel l slot slot_was_auto port w
  end.

(** rx/main.c's. *)
Definition rx_reconnect (slot_ap : Z) (fuel : nat) (l : link) (port : Z) (w : W) : option (reopened * W) :=
  match ar8030_link_reconnect_retry fuel l RETRY_MS w with
  | None => None
  | Some (ret, l, w) =>
      if negb (ret =? 0) then Some (Stopped l, w)
      else
        let '(ret, _, l, w) := rx_open_socket slot_ap l port w in
        if negb (ret =? 0) then Some (Reopen_failed l, w) else Some (Reopened l slot_ap, w)
  end.
End link.

(** ** Who owns which handle

    An SDK that answers as [script] says, call by call, and keeps the handles
    given out and not closed yet; closing or using one that is not open is
    recorded.  The last kinds are what else a program holds: UDP sockets,
    allocated memory, threads that were started and the attached frame ring. *)

Inductive handle := HHost (n : Z) | HList (n : Z) | HDev (n : Z) | HSock (n : Z) | HUdp (n : Z) | HMem (n : Z) | HThread (n : Z) | HRing.

#[export] Instance handle_eq_dec : EqDecision handle.
Proof. solve_decision. Defined.

Record ledger := mk_ledger { lg_step : nat; lg_next : Z; lg_open : list handle; lg_bad : bool }.

Definition lg_opened (h : handle) (w : ledger) : ledger :=
  mk_ledger (S (lg_step w)) (lg_next w + 1) (lg_open w ++ [h]) (lg_bad w).
Definition lg_closed (h : handle) (w : ledger) : ledger :=
  mk_ledger (S (lg_step w)) (lg_next w) (filter (fun x => x <> h) (lg_open w)) (lg_bad w || negb (bool_decide (h ∈ lg_open w))).
Definition lg_tick (w : ledger) : ledger := mk_ledger (S (lg_step w)) (lg_next w) (lg_open w) (lg_bad w).

(** Using [h], which is wrong when it is not open. *)
Definition lg_uses (h : handle) (w : ledger) : ledger :=
  mk_ledger (lg_step w) (lg_next w) (lg_open w) (lg_bad w || negb (bool_decide (h ∈ lg_open w))).

(** What the calls answer, each at its number, independently of each other: the
    result, a second one where there is one, the slots of a status, and whether
    the stop flag is up. *)
Record answers := mk_answers {
  an_ret :> nat -> Z;
  an_more : nat -> Z;
  an_slots : nat -> list bool;
  an_stop : nat -> bool
}.

Definition ledger_sdk (script : answers) : LinkSdk ledger := {|
  bb_host_connect := fun w => let a := script (lg_step w) in
    if a =? 0 then (0, Some (lg_next w), lg_opened (HHost (lg_next w)) w) else (a, None, lg_tick w);
  bb_host_disconnect := fun h w => lg_closed (HHost h) w;
  bb_dev_getlist := fun _ w =>
    if script (lg_step w) <=? 0 then ([], lg_tick w) else ([lg_next w], lg_opened (HList (lg_next w)) w);
  bb_dev_open := fun d w => let w := lg_uses (HList d) w in
    if script (lg_step w) =? 0 then (Some (lg_next w), lg_opened (HDev (lg_next w)) w) else (None, lg_tick w);
  bb_dev_freelist := fun ds w => match ds with d :: _ => lg_closed (HList d) w | [] => lg_tick w end;
  bb_dev_close := fun h w => lg_closed (HDev h) w;
  bb_socket_open := fun _ _ _ w => let a := script (lg_step w) in
    if a <? 0 then (a, lg_tick w) else (lg_next w, lg_opened (HSock (lg_next w)) w);
  bb_socket_close := fun h w => lg_closed (HSock h) w;
  bb_get_status := fun _ w => (script (lg_step w), an_slots script (lg_step w), lg_tick w);
  bb_force_cls_socket := fun _ _ _ w => (script (lg_step w), lg_tick w);
  bb_force_cls_socket_all := fun _ w => (script (lg_step w), lg_tick w);
  stop_flag := fun w => (an_stop script (lg_step w), lg_tick w);
  usleep_ms := fun _ w => lg_tick w
|}.

Definition link_handles (l : link) : list handle :=
  (match lk_host l with Some h => [HHost h] | None => [] end)
  ++ (match lk_dev l with Some d => [HDev d] | None => [] end)
  ++ (if 0 <=? lk_sockfd l then [HSock (lk_sockfd l)] else []).

Definition handle_no (h : handle) : Z :=
  match h with HHost n | HList n | HDev n | HSock n | HUdp n | HMem n | HThread n => n | HRing => -1 end.

(** The open handles are exactly [held], in some order, their numbers given out
    before, and none was closed that was not open. *)
Record holding (held : list handle) (w : ledger) : Prop := {
  ho_open : lg_open w ≡ₚ held;
  ho_bad : lg_bad w = false;
  ho_next : 0 <= lg_next w;
  ho_below : Forall (fun h => handle_no h < lg_next w) held
}.

#[export] Instance holding_proper : Proper ((≡ₚ) ==> (=) ==> iff) holding.
Proof.
  intros h1 h2 Hh w _ <-; split; intros [H1 H2 H3 H4]; constructor; try done; try (by rewrite H1, Hh); try (by rewrite H1, <- Hh).
  all: rewrite list.Forall_forall in *; intros h Hin; apply H4; by rewrite Hh || rewrite <- Hh.
Qed.

Lemma holding_tick held w : holding held w -> holding held (lg_tick w).
Proof. by intros []. Qed.
Lemma holding_opened h held w : handle_no h <= lg_next w -> holding held w -> holding (h :: held) (lg_opened h w).
Proof.
  intros Hh [H1 H2 H3 H4]; constructor; cbn; [by rewrite H1, Permutation_app_comm|done|lia|constructor; [lia|]].
  eapply list.Forall_impl; [exact H4|cbn; lia].
Qed.
(** A new handle is none of those held. *)
Lemma holding_fresh h held w : handle_no h = lg_next w -> holding held w -> h ∉ held.
Proof. intros Hh [_ _ _ H4] Hin; rewrite list.Forall_forall in H4; apply H4 in Hin; lia. Qed.
Lemma holding_closed h held w : h ∉ held -> holding (h :: held) w -> holding held (lg_closed h w).
Proof.
  intros Hh [H1 H2 H3 [_ H4]%Forall_cons_1]; constructor; cbn; [|rewrite H2, bool_decide_true by (rewrite H1; by left); done|done|done].
  rewrite H1, list.filter_cons, decide_False by (by intros ?); clear -Hh; induction held as [|x held IH]; [done|].
  rewrite not_elem_of_cons in Hh; destruct Hh as [Hx Hh]; rewrite list.filter_cons, decide_True by congruence; by rewrite IH.
Qed.
Lemma holding_uses h held w : h ∈ held -> holding held w -> holding held (lg_uses h w).
Proof. intros Hh [H1 H2 H3 H4]; constructor; cbn; try done; by rewrite H2, bool_decide_true by (by rewrite H1). Qed.
Lemma holding_none w : holding [] w -> lg_open w = [] /\ lg_bad w = false.
Proof. intros [H1 H2 _ _]; split; [by apply Permutation_nil_r|done]. Qed.

(** What else is held while the link comes and goes. *)
Definition not_of_link (h : handle) : Prop := match h with HHost _ | HList _ | HDev _ | HSock _ => False | _ => True end.

Definition link_closed (l : link) : Prop := lk_host l = None /\ lk_dev l = None /\ lk_sockfd l < 0.

Section ledger.
Context (script : answers) (base : list handle).
Hypothesis Hbase : Forall not_of_link base.
#[local] Existing Instance ledger_sdk.
#[local] Abbreviation SDK := (ledger_sdk script).

Definition owns (l : link) (w : ledger) : Prop := holding (link_handles l ++ base) w.

Lemma owns_tick l w : owns l w -> owns l (lg_tick w).
Proof. apply holding_tick. Qed.

Lemma owns_closed l w : link_closed l -> owns l w <-> holding base w.
Proof. intros (H1 & H2 & H3); unfold owns, link_handles; by rewrite H1, H2, (proj2 (Z.leb_gt _ _)). Qed.

Lemma not_in_base h : ~ not_of_link h -> h ∉ base.
Proof using Hbase. intros Hn Hin; rewrite list.Forall_forall in Hbase; by apply Hn, Hbase. Qed.

Lemma connect_owns w ret l w' :
  holding base w -> ar8030_link_connect (H := SDK) w = (ret, l, w') ->
  owns l w' /\ lk_sockfd l < 0 /\ (ret = 0 -> exists d, lk_dev l = Some d) /\ (ret <> 0 -> link_closed l).
Proof using Hbase.
  intros Ho; unfold ar8030_link_connect; cbn.
  assert (Hdone : forall w2, holding base w2 ->
    owns (mk_link None None (-1)) w2 /\ -1 < 0 /\ (-1 = 0 -> exists d, @None Z = Some d) /\
    (-1 <> 0 -> link_closed (mk_link None None (-1)))) by (by intros; split_and!).
  destruct (script (lg_step w) =? 0) eqn:E.
  2: { rewrite E; cbn [negb]; intros [= <- <- <-]; by apply Hdone, holding_tick. }
  rewrite Z.eqb_refl; cbn [negb].
  assert (Hback : forall w2, holding (HHost (lg_next w) :: base) w2 -> holding base (lg_closed (HHost (lg_next w)) w2))
    by (intros w2; apply holding_closed, not_in_base; auto).
  destruct (script _ <=? 0); [intros [= <- <- <-]; by apply Hdone, Hback, holding_tick, holding_opened|].
  cbv zeta; set (w1 := lg_opened (HHost (lg_next w)) w); set (d := lg_next w1); set (w2 := lg_opened (HList d) w1).
  assert (H1 : holding (HHost (lg_next w) :: base) w1) by (by apply holding_opened).
  assert (H2 : holding (HList d :: HHost (lg_next w) :: base) (lg_uses (HList d) w2))
    by (apply holding_uses; [by left|]; by apply holding_opened).
  assert (Hd : HList d ∉ HHost (lg_next w) :: base) by (rewrite not_elem_of_cons; split; [done|]; apply not_in_base; auto).
  change (lg_next w2) with (lg_next (lg_uses (HList d) w2)); set (w3 := lg_uses (HList d) w2) in *; clearbody w3.
  destruct (script (lg_step w2) =? 0); cbv beta iota zeta; intros [= <- <- <-].
  - split_and!; [|done|by eexists|done]; unfold owns, link_handles; cbn [lk_host lk_dev lk_sockfd app].
    rewrite Permutation_swap; apply holding_closed; [rewrite not_elem_of_cons; by split|].
    rewrite Permutation_swap; by apply holding_opened.
  - by apply Hdone, Hback, holding_closed, holding_tick.
Qed.

Lemma close_owns l w :
  owns l w -> let '(l', w') := ar8030_link_close (H := SDK) l w in holding base w' /\ link_closed l'.
Proof using Hbase.
  destruct l as [host dev fd]; unfold owns, link_handles, ar8030_link_close, link_closed; cbn [lk_host lk_dev lk_sockfd]; intros Ho.
  split; [|split_and!; [done..|cbn [lk_sockfd]; destruct (0 <=? fd) eqn:E; bool_to_prop; lia]].
  set (hs := match host with Some h => [HHost h] | None => [] end ++ base).
  assert (H1 : forall w1, holding ((match dev with Some d => [HDev d] | None => [] end) ++ hs) w1 ->
    holding hs (match dev with Some d => lg_closed (HDev d) w1 | None => w1 end)).
  { intros w1; destruct dev as [d|]; [|done]; apply holding_closed; subst hs; destruct host; cbn [app];
      [rewrite not_elem_of_cons; split; [done|]|]; apply not_in_base; auto. }
  assert (H2 : forall w1, holding hs w1 -> holding base (match host with Some h => lg_closed (HHost h) w1 | None => w1 end)).
  { intros w1; subst hs; destruct host as [h|]; [|done]; apply holding_closed, not_in_base; auto. }
  apply H2, H1; assert (Hp : (match host with Some h => [HHost h] | None => [] end ++ match dev with Some d => [HDev d] | None => [] end ++
    (if 0 <=? fd then [HSock fd] else [])) ++ base ≡ₚ
    (if 0 <=? fd then [HSock fd] else []) ++ match dev with Some d => [HDev d] | None => [] end ++ hs).
  { subst hs; rewrite <- !app_assoc; generalize (match host with Some h => [HHost h] | None => [] end) as a; intros a.
    generalize (match dev with Some d => [HDev d] | None => [] end) as b; generalize (if 0 <=? fd then [HSock fd] else []) as c; intros c b.
    rewrite !app_assoc; apply Permutation_app_tail; rewrite (Permutation_app_comm (a ++ b) c), <- !app_assoc.
    by apply Permutation_app_head, Permutation_app_comm. }
  rewrite Hp in Ho; destruct (0 <=? fd); [|done]; apply holding_closed; [|done].
  subst hs; rewrite !not_elem_of_app; split_and!; [destruct dev|destruct host|apply not_in_base; auto];
    rewrite ?list_elem_of_singleton; try done; apply not_elem_of_nil.
Qed.

Lemma connect_retry_owns fuel retry_ms : forall w ret l w',
  holding base w -> ar8030_link_connect_retry (H := SDK) fuel retry_ms w = Some (ret, l, w') ->
  owns l w' /\ lk_sockfd l < 0 /\ (ret = 0 -> exists d, lk_dev l = Some d) /\ (ret <> 0 -> link_closed l).
Proof using Hbase.
  induction fuel as [|fuel IH]; intros w ret l w' Ho; [done|]; cbn [ar8030_link_connect_retry].
  destruct (ar8030_link_connect w) as [[r1 l1] w1] eqn:E; destruct (connect_owns _ _ _ _ Ho E) as (G1 & G2 & G3 & G4).
  destruct (Z.eqb_spec r1 0) as [->|Hr]; [by intros [= <- <- <-]|]; cbn [stop_flag usleep_ms ledger_sdk].
  destruct (an_stop script _); [intros [= <- <- <-]; split_and!; try done; [by apply owns_tick|intros _; by apply G4]|].
  destruct (an_stop script _); [intros [= <- <- <-]; split_and!; try done; [by repeat apply owns_tick|intros _; by apply G4]|].
  apply IH; repeat apply holding_tick; by apply (owns_closed l1), G1; apply G4.
Qed.

Lemma open_tries_owns n slot port : forall l ret0 tries w,
  owns l w -> lk_sockfd l < 0 -> (exists d, lk_dev l = Some d) -> ret0 <> 0 ->
  let '(ret, tries', l', w') := open_tries (H := SDK) n slot port l ret0 tries w in
  owns l' w' /\ (ret = 0 <-> 0 <= lk_sockfd l') /\ lk_host l' = lk_host l /\ lk_dev l' = lk_dev l /\
  tries <= tries' <= tries + Z.of_nat n.
Proof.
  induction n as [|n IH]; intros l ret0 tries w Hown Hfd Hdev Hr; cbn [open_tries].
  { split_and!; try done; lia. }
  cbn [stop_flag ledger_sdk]; destruct (an_stop script _).
  { split_and!; try done; try lia; by apply owns_tick. }
  destruct Hdev as [d Hd]; unfold ar8030_link_open_socket; rewrite Hd; cbn [bb_socket_open ledger_sdk].
  destruct (script (lg_step (lg_tick w)) <? 0) eqn:E; cbv beta iota zeta.
  - rewrite E; change (-1 =? 0) with false; cbv iota.
    specialize (IH l (-1) (tries + 1) (lg_tick (lg_tick (lg_tick w))) ltac:(by repeat apply owns_tick) Hfd ltac:(by eexists) ltac:(lia)).
    cbn [usleep_ms ledger_sdk]; destruct (open_tries n _ _ _ _ _ _) as [[[r t] l'] w']; destruct IH as (? & ? & ? & ? & ?).
    split_and!; try done; (lia || congruence).
  - pose proof (ho_next _ _ Hown) as Hn.
    cbn [lg_tick lg_next]; rewrite (proj2 (Z.ltb_ge _ _)) by done; change (0 =? 0) with true; cbn [lk_host lk_dev lk_sockfd]; cbv iota.
    split_and!; try done; try lia; try (by intros _).
    unfold owns, link_handles in *; cbn [lk_host lk_dev lk_sockfd]; rewrite (proj2 (Z.leb_le 0 (lg_next w))) by done.
    rewrite (proj2 (Z.leb_gt 0 (lk_sockfd l))), app_nil_r in Hown by done; rewrite Hd in *.
    apply holding_tick in Hown; apply (holding_opened (HSock (lg_next w)) _ (lg_tick w) (Z.le_refl (lg_next w))) in Hown; revert Hown; generalize (HSock (lg_next w)); intros x.
    cbn [lg_tick lg_next]; apply holding_proper; [|done]; rewrite app_assoc, <- (app_assoc _ [x]); symmetry; apply Permutation_middle.
Qed.

Lemma reconnect_owns fuel l w ret l' w' :
  owns l w -> ar8030_link_reconnect_retry (H := SDK) fuel l RETRY_MS w = Some (ret, l', w') ->
  owns l' w' /\ lk_sockfd l' < 0 /\ (ret = 0 -> exists d, lk_dev l' = Some d) /\ (ret <> 0 -> link_closed l').
Proof using Hbase.
  intros Ho; pose proof (close_owns l w Ho) as Hc; unfold ar8030_link_reconnect_retry.
  destruct (ar8030_link_close l w) as [l1 w1]; destruct Hc as (H1 & _); by apply connect_retry_owns.
Qed.

Lemma resolve_owns fuel dev : forall l w s w',
  owns l w -> resolve_connected_slot (H := SDK) fuel dev w = Some (s, w') -> owns l w'.
Proof.
  induction fuel as [|fuel IH]; intros l w s w' Ho; cbn [resolve_connected_slot]; [done|]; cbn [stop_flag bb_get_status ledger_sdk].
  destruct (an_stop script _); [intros [= <- <-]; by apply owns_tick|]; destruct (if _ =? 0 then _ else None).
  - intros [= <- <-]; by repeat apply owns_tick.
  - cbn [usleep_ms ledger_sdk]; apply IH; by repeat apply owns_tick.
Qed.

(** What a (re)connect leaves. *)
Definition reopened_ok (o : reopened) (w : ledger) : Prop :=
  match o with
  | Reopened l slot => owns l w /\ (exists d, lk_dev l = Some d) /\ 0 <= lk_sockfd l
  | Reopen_failed l => owns l w /\ lk_sockfd l < 0
  | Stopped l => owns l w /\ lk_sockfd l < 0
  end.

Lemma open_data_socket_owns slot port l w :
  owns l w -> lk_sockfd l < 0 -> (exists d, lk_dev l = Some d) ->
  let '(ret, n, l', w') := open_data_socket (H := SDK) l slot port w in
  owns l' w' /\ (ret = 0 <-> 0 <= lk_sockfd l') /\ lk_dev l' = lk_dev l /\ 0 <= n <= 2 * SOCKET_REOPEN_MAX_ATTEMPTS.
Proof.
  intros Ho Hfd Hdev; unfold open_data_socket, ar8030_link_force_close_socket, ar8030_link_force_close_all_sockets.
  destruct Hdev as [d Hd]; rewrite Hd; cbn [bb_force_cls_socket ledger_sdk]; change (Z.to_nat SOCKET_REOPEN_MAX_ATTEMPTS) with 5%nat.
  pose proof (open_tries_owns 5 slot port l (-1) 0 (lg_tick w) ltac:(by apply owns_tick) Hfd ltac:(by eexists) ltac:(lia)) as H1.
  destruct (open_tries 5 _ _ _ _ _ _) as [[[r t] l1] w1]; destruct H1 as (G1 & G2 & G3 & G4 & G5).
  unfold SOCKET_REOPEN_MAX_ATTEMPTS; destruct (Z.eqb_spec r 0) as [->|Hr]; [split_and!; try done; (lia || congruence)|].
  rewrite G4, Hd; cbn [bb_force_cls_socket_all ledger_sdk].
  pose proof (open_tries_owns 5 slot port l1 r t (lg_tick w1) ltac:(by apply owns_tick) ltac:(lia) ltac:(rewrite G4; by eexists) Hr) as H2.
  destruct (open_tries 5 _ _ _ _ _ _) as [[[r2 t2] l2] w2]; destruct H2 as (K1 & K2 & K3 & K4 & K5).
  split_and!; try done; (lia || congruence).
Qed.

Lemma tx_open_link_ok fuel l slot auto port w o w' :
  owns l w -> lk_sockfd l < 0 -> (exists d, lk_dev l = Some d) ->
  tx_open_link (H := SDK) fuel l slot auto port w = Some (o, w') -> reopened_ok o w'.
Proof.
  intros Ho Hfd [d Hd]; unfold tx_open_link; rewrite Hd.
  destruct (if auto then _ else _) as [[s w1]|] eqn:E; [|done].
  assert (Ho1 : owns l w1) by (destruct auto; [by eapply resolve_owns|by injection E as _ <-]).
  destruct (auto && (s <? 0)); [by intros [= <- <-]|].
  pose proof (open_data_socket_owns s port l w1 Ho1 Hfd ltac:(by eexists)) as Hop.
  destruct (open_data_socket l s port w1) as [[[r n] l2] w2]; destruct Hop as (K1 & K2 & K3 & _).
  destruct (Z.eqb_spec r 0) as [->|Hr]; cbn [negb]; intros [= <- <-]; cbn [reopened_ok].
  - split_and!; [done|exists d; congruence|by apply K2].
  - split; [done|lia].
Qed.

(** No handle is leaked or closed twice, whatever the SDK answers: after
    a reconnect - however often connecting, the slot search and opening the
    socket failed, or stopped - the handles open are exactly those the link
    holds, the socket among them if and only if the reconnect succeeded, and
    [ar8030_link_close] then leaves only what the program held besides. *)
Theorem reconnect_leaks_nothing fuel l slot slot_ap auto port w o w' :
  owns l w ->
  tx_reconnect (H := SDK) fuel l slot auto port w = Some (o, w')
  \/ rx_reconnect (H := SDK) slot_ap fuel l port w = Some (o, w') ->
  reopened_ok o w' /\
  let l' := match o with Reopened l _ | Stopped l | Reopen_failed l => l end in
  let '(_, w2) := ar8030_link_close (H := SDK) l' w' in holding base w2.
Proof.
  intros Ho Hrun; assert (Hok : reopened_ok o w').
  - destruct Hrun as [Hrun|Hrun]; [unfold tx_reconnect in Hrun|unfold rx_reconnect in Hrun];
      destruct (ar8030_link_reconnect_retry fuel l RETRY_MS w) as [[[r l1] w1]|] eqn:E; try done;
      destruct (reconnect_owns _ _ _ _ _ _ Ho E) as (G1 & G2 & G3 & G4);
      (destruct (Z.eqb_spec r 0) as [->|Hr]; cbn [negb] in Hrun; [|by injection Hrun as <- <-]).
    + eapply tx_open_link_ok; [done|done|by apply G3|done].
    + destruct (G3 eq_refl) as [d Hd]; unfold rx_open_socket, ar8030_link_force_close_socket in Hrun; rewrite Hd in Hrun.
      cbn [bb_force_cls_socket ledger_sdk] in Hrun.
      pose proof (open_tries_owns (Z.to_nat SOCKET_REOPEN_MAX_ATTEMPTS) slot_ap port l1 (-1) 0 (lg_tick w1)
        ltac:(by apply owns_tick) G2 ltac:(by eexists) ltac:(lia)) as Hop.
      destruct (open_tries _ _ _ _ _ _ _) as [[[r t] l2] w2]; destruct Hop as (K1 & K2 & _ & K4 & _).
      destruct (Z.eqb_spec r 0) as [->|Hr]; cbn [negb] in Hrun; injection Hrun as <- <-; cbn [reopened_ok].
      * split_and!; [done|exists d; congruence|by apply K2].
      * split; [done|lia].
  - split; [done|]; intros l'; assert (Hl : owns l' w') by (subst l'; destruct o; apply Hok).
    pose proof (close_owns l' w' Hl) as Hc; destruct (ar8030_link_close l' w') as [l3 w3]; by destruct Hc.
Qed.

Lemma connect_step w : (lg_step w < lg_step (ar8030_link_connect (H := SDK) w).2)%nat.
Proof.
  unfold ar8030_link_connect; cbn; destruct (script (lg_step w) =? 0) eqn:E; [rewrite Z.eqb_refl|rewrite E; cbn; lia]; cbn [negb].
  repeat match goal with
         | |- context [if ?b then _ else _] => destruct b; cbv beta iota zeta
         end; cbn; lia.
Qed.

Section stopped.
Context (N : nat).
(** The stop flag is up for good from call [N] on. *)
Hypothesis Hstop : forall k, (N <= k)%nat -> an_stop script k = true.

Lemma connect_retry_ends fuel retry_ms : forall w,
  (N < lg_step w + fuel)%nat -> (0 < fuel)%nat ->
  exists r, ar8030_link_connect_retry (H := SDK) fuel retry_ms w = Some r.
Proof using Hstop.
  induction fuel as [|fuel IH]; intros w Hw Hf; [lia|]; cbn [ar8030_link_connect_retry].
  pose proof (connect_step w) as Hs; destruct (ar8030_link_connect w) as [[r l] w1]; cbn [snd] in Hs.
  destruct (r =? 0); [by eexists|]; cbn [stop_flag usleep_ms ledger_sdk]; destruct (an_stop script _) eqn:E; [by eexists|].
  destruct (an_stop script (lg_step (lg_tick (lg_tick w1)))) eqn:E2; [by eexists|].
  assert (lg_step w1 < N)%nat by (apply not_le; intros Hle; specialize (Hstop _ Hle); congruence).
  apply IH; cbn; lia.
Qed.

Lemma resolve_ends fuel dev : forall w,
  (N < lg_step w + fuel)%nat -> (0 < fuel)%nat -> exists r, resolve_connected_slot (H := SDK) fuel dev w = Some r.
Proof using Hstop.
  induction fuel as [|fuel IH]; intros w Hw Hf; [lia|]; cbn [resolve_connected_slot stop_flag bb_get_status ledger_sdk].
  destruct (an_stop script _) eqn:E; [by eexists|]; destruct (if _ =? 0 then _ else None); [by eexists|].
  assert (lg_step w < N)%nat by (apply not_le; intros Hle; specialize (Hstop _ Hle); congruence).
  apply IH; cbn; lia.
Qed.

(** Every reconnect ends: the loops that wait for the daemon and for a
    peer wait only until the stop flag is raised, and the tries at the socket
    are bounded (ten on the air, five on the ground). *)
Theorem reconnect_terminates l slot slot_ap auto port w :
  owns l w ->
  (exists o w', tx_reconnect (H := SDK) (S N) l slot auto port w = Some (o, w')) /\
  (exists o w', rx_reconnect (H := SDK) slot_ap (S N) l port w = Some (o, w')).
Proof using Hbase Hstop.
  intros Ho; assert (Hc : exists r l1 w1, ar8030_link_reconnect_retry (H := SDK) (S N) l RETRY_MS w = Some (r, l1, w1)).
  { unfold ar8030_link_reconnect_retry; destruct (ar8030_link_close l w) as [l1 w1].
    destruct (connect_retry_ends (S N) RETRY_MS w1) as [[[r l2] w2] E]; [lia|lia|]; by exists r, l2, w2. }
  destruct Hc as (r & l1 & w1 & E); destruct (reconnect_owns _ _ _ _ _ _ Ho E) as (_ & _ & Hd & _).
  unfold tx_reconnect, rx_reconnect; rewrite E; destruct (Z.eqb_spec r 0) as [->|Hr]; cbn [negb].
  - destruct (Hd eq_refl) as [d Hd']; split.
    + unfold tx_open_link; rewrite Hd'; destruct auto.
      * destruct (resolve_ends (S N) d w1 ltac:(lia) ltac:(lia)) as [[s w2] ->]; destruct (true && _); [by eexists _, _|].
        destruct (open_data_socket l1 s port w2) as [[[r n] l2] w3]; destruct (negb _); by eexists _, _.
      * cbn [andb]; destruct (open_data_socket l1 slot port w1) as [[[r n] l2] w3]; destruct (negb _); by eexists _, _.
    + destruct (rx_open_socket slot_ap l1 port w1) as [[[r n] l2] w3]; destruct (negb _); by eexists _, _.
  - split; by eexists _, _.
Qed.
End stopped.
End ledger.

(** ** Examples *)

(** The daemon is down for one attempt, then everything works; the peer is
    connected on slot 2. *)
Definition demo_script : answers := mk_answers (fun k => nth k [1; 0; 0; 0; 0; 1] 0) (fun _ => 0)
  (fun _ => [false; false; true]) (fun k => 18 <? Z.of_nat k).
Definition demo_ledger : ledger := mk_ledger 0 1 [] false.
Definition demo_closed : link := mk_link None None (-1).

Lemma demo_owns : owns [] demo_closed demo_ledger.
Proof. by constructor. Qed.

Lemma reconnect_leaks_nothing_witness :
  exists l slot w', tx_reconnect (H := ledger_sdk demo_script) 5 demo_closed (-1) true 2 demo_ledger = Some (Reopened l slot, w')
    /\ slot = 2 /\ lk_sockfd l = 4 /\ lg_open w' = [HHost 1; HDev 3; HSock 4] /\
    lg_open (ar8030_link_close (H := ledger_sdk demo_script) l w').2 = [].
Proof.
  pose proof (reconnect_leaks_nothing demo_script [] ltac:(done) 5 demo_closed (-1) 0 true 2 demo_ledger) as Hth.
  eexists _, _, _; split; [vm_compute; reflexivity|]; split; [reflexivity|]; split; [reflexivity|]; split; [reflexivity|].
  destruct (Hth _ _ demo_owns (or_introl eq_refl)) as (_ & H1); exact (proj1 (holding_none _ H1)).
Defined.

Lemma reconnect_terminates_witness :
  exists o w', tx_reconnect (H := ledger_sdk demo_script) 20 demo_closed (-1) true 2 demo_ledger = Some (o, w').
Proof.
  refine (proj1 (reconnect_terminates demo_script [] ltac:(done) 19 _ demo_closed (-1) 0 true 2 demo_ledger demo_owns)).
  intros k Hk; apply Z.ltb_lt; lia.
Defined.
