(* ===== verification/TxSend.v ===== *)
(** [tx/main.c]'s send path: [write_all], [stage_outq], [flush_outq],
    [chunk_send_to_socket] - video chunks, with the queued control and
    sidecar chunks riding in front of them. *)

From S2P Require Import Prelude Crc16 ChunkHdr Chunker Outq CtrlMsg.
#[local] Open Scope Z_scope.

(** The send loop's surroundings: [bb_socket_write] on the data socket, the
    clock, the stop flag, and what the other threads have pushed on [outq]
    since it was last emptied (the queue's mutex orders each push before or
    after a staging pass). *)
Class TxEnv (W : Type) := {
  bb_socket_write : list Z -> W -> Z * W;
  now_monotonic_us : W -> Z * W;
  g_stop : W -> bool * W;
  pushed : W -> list outq_item * W
}.

(** [struct tx_stats] *)
Record tx_stats := mk_stats {
  frames_in : Z; frames_complete : Z; frames_incomplete : Z; chunks_sent : Z; chunks_failed : Z; bytes_sent : Z;
  write_us_sum : Z; write_us_max : Z; write_frames : Z; age_at_send_us_sum : Z
}.
Definition tx_stats_zero : tx_stats := mk_stats 0 0 0 0 0 0 0 0 0 0.

(** The part of [struct tx_send_ctx] that changes; [sx_combo] is
    [combo[0..combo_len)]. *)
Record send_ctx := mk_sctx {
  sx_last_write_ret : Z;
  sx_stats : tx_stats;
  sx_outq : outq;
  sx_aux_seq : Z;
  sx_combo : list Z
}.

Definition sctx_init : send_ctx := mk_sctx 0 tx_stats_zero tx_outq_init 0 [].

Definition set_last_ret (r : Z) (sc : send_ctx) : send_ctx :=
  mk_sctx r (sx_stats sc) (sx_outq sc) (sx_aux_seq sc) (sx_combo sc).
Definition set_stats (s : tx_stats) (sc : send_ctx) : send_ctx :=
  mk_sctx (sx_last_write_ret sc) s (sx_outq sc) (sx_aux_seq sc) (sx_combo sc).
Definition set_outq (q : outq) (sc : send_ctx) : send_ctx :=
  mk_sctx (sx_last_write_ret sc) (sx_stats sc) q (sx_aux_seq sc) (sx_combo sc).
Definition set_combo (c : list Z) (sc : send_ctx) : send_ctx :=
  mk_sctx (sx_last_write_ret sc) (sx_stats sc) (sx_outq sc) (sx_aux_seq sc) c.
Definition next_aux_seq (sc : send_ctx) : send_ctx :=
  mk_sctx (sx_last_write_ret sc) (sx_stats sc) (sx_outq sc) (u16 (sx_aux_seq sc + 1)) (sx_combo sc).

(** The sizes [main] derives from [-c]. *)
Definition aux_payload_max (chunk_payload : Z) : Z :=
  if chunk_payload <? AR8030_SIDECAR_MAX_PAYLOAD then chunk_payload else AR8030_SIDECAR_MAX_PAYLOAD.
Definition combo_cap (chunk_payload : Z) : Z :=
  TX_OUTQ_DEPTH * (AR8030_CHUNK_HDR_SIZE + AR8030_SIDECAR_MAX_PAYLOAD) + AR8030_CHUNK_HDR_SIZE + chunk_payload.
Definition aux_scratch_size : Z := AR8030_CHUNK_HDR_SIZE + AR8030_SIDECAR_MAX_PAYLOAD.

Section send.
Context {W : Type} `{TxEnv W} (chunk_payload : Z).

(** The [while (sent < len)]. *)
Fixpoint write_loop (fuel : nat) (buf : list Z) (sent : Z) (sc : send_ctx) (w : W) : Z * send_ctx * W :=
  match fuel with
  | O => (-1, sc, w)
  | S fuel =>
      if sent <? zlen buf then
        let '(stop, w) := g_stop w in
        if stop then (-1, sc, w)
        else
          let '(wr, w) := bb_socket_write (zdrop sent buf) w in
          if wr <=? 0 then (-1, set_last_ret wr sc, w)
          else write_loop fuel buf (u32 (sent + wr)) sc w
      else (0, sc, w)
  end.

Definition write_all (buf : list Z) (sc : send_ctx) (w : W) : Z * send_ctx * W :=
  write_loop (S (length buf)) buf 0 sc w.

(** [append_to_combo], the chunker's send callback. *)
Definition append_to_combo (combo buf : list Z) : Z * list Z :=
  if combo_cap chunk_payload <? u32 (zlen combo + zlen buf) then (-1, combo) else (0, combo ++ buf).

(** What an item is sent as; [now] stamps a SYNCR.  [None]: skipped. *)
Definition item_payload (item : outq_item) (now : Z) : option (list Z) :=
  let data :=
    if oi_is_syncr item then
      let s := fmt_syncr (oi_sync_seq item) (oi_t1_us item) (oi_t2_us item) now in
      if AR8030_CTRL_MAX_PAYLOAD <=? zlen s then None else Some s
    else Some (oi_data item) in
  match data with
  | Some d => if (zlen d =? 0) || (aux_payload_max chunk_payload <? zlen d) then None else Some d
  | None => None
  end.

(** The [while (tx_outq_pop(...))] of [stage_outq]. *)
Fixpoint stage_loop (fuel : nat) (sc : send_ctx) (w : W) : send_ctx * W :=
  match fuel with
  | O => (sc, w)
  | S fuel =>
      match tx_outq_pop (sx_outq sc) with
      | (None, _) => (sc, w)
      | (Some item, q) =>
          let sc := set_outq q sc in
          let '(now, w) := if oi_is_syncr item then now_monotonic_us w else (0, w) in
          match item_payload item now with
          | None => stage_loop fuel sc w
          | Some data =>
              let '(_, _, combo) := ar8030_chunk_frame append_to_combo (sx_aux_seq sc) 0 (oi_codec item) 0 data
                                      (aux_payload_max chunk_payload) aux_scratch_size (sx_combo sc) in
              stage_loop fuel (set_combo combo (next_aux_seq sc)) w
          end
      end
  end.

Definition stage_outq (sc : send_ctx) (w : W) : send_ctx * W :=
  let '(items, w) := pushed w in
  let sc := set_outq (fold_left tx_outq_push items (sx_outq sc)) sc in
  stage_loop (S (Z.to_nat TX_OUTQ_DEPTH)) sc w.

Definition flush_outq (sc : send_ctx) (w : W) : send_ctx * W :=
  let '(sc, w) := stage_outq (set_combo [] sc) w in
  let '(sc, w) := match sx_combo sc with
                  | [] => (sc, w)
                  | c => let '(_, sc, w) := write_all c sc w in (sc, w)
                  end in
  (set_combo [] sc, w).

Definition count_chunk (ok : bool) (len : Z) (s : tx_stats) : tx_stats :=
  if ok then mk_stats (frames_in s) (frames_complete s) (frames_incomplete s) (u64 (chunks_sent s + 1)) (chunks_failed s)
               (u64 (bytes_sent s + len)) (write_us_sum s) (write_us_max s) (write_frames s) (age_at_send_us_sum s)
  else mk_stats (frames_in s) (frames_complete s) (frames_incomplete s) (chunks_sent s) (u64 (chunks_failed s + 1))
         (bytes_sent s) (write_us_sum s) (write_us_max s) (write_frames s) (age_at_send_us_sum s).

(** The chunker's send callback for video. *)
Definition chunk_send_to_socket (buf : list Z) (sc : send_ctx) (w : W) : Z * send_ctx * W :=
  let '(sc, w) := stage_outq (set_combo [] sc) w in
  let combo := sx_combo sc in
  let '(ret, sc, w) :=
    if negb (zlen combo =? 0) && (u32 (zlen combo + zlen buf) <=? combo_cap chunk_payload)
    then write_all (combo ++ buf) sc w
    else
      let '(ret, sc, w) := if negb (zlen combo =? 0) then write_all combo sc w else (0, sc, w) in
      if ret =? 0 then write_all buf sc w else (ret, sc, w) in
  let sc := set_combo [] sc in
  if negb (ret =? 0) then (-1, set_stats (count_chunk false 0 (sx_stats sc)) sc, w)
  else (0, set_stats (count_chunk true (zlen buf) (sx_stats sc)) sc, w).

(** The same, as the callback [ar8030_chunk_frame] takes. *)
Definition socket_cb (s : send_ctx * W) (buf : list Z) : Z * (send_ctx * W) :=
  let '(ret, sc, w) := chunk_send_to_socket buf s.1 s.2 in (ret, (sc, w)).
End send.

(** ** What reaches the wire *)

(** A well-formed queue entry: a control or sidecar message. *)
Record item_ok (i : outq_item) : Prop := {
  io_codec : oi_codec i = AR8030_CHUNK_CODEC_CTRL \/ oi_codec i = AR8030_CHUNK_CODEC_SIDECAR;
  io_seq : 0 <= oi_sync_seq i < 2 ^ 32;
  io_t1 : 0 <= oi_t1_us i < 2 ^ 64;
  io_t2 : 0 <= oi_t2_us i < 2 ^ 64;
  io_data : bytes_ok (oi_data i)
}.

(** The socket as a byte stream: a write is taken up to the length it
    reports, and nothing else touches the stream; the clock is a 64-bit
    value and the other threads push well-formed entries. *)
Class TxWire (W : Type) `{TxEnv W} := {
  wire : W -> list Z;
  wire_write : forall b w, let '(wr, w') := bb_socket_write b w in
    wr <= zlen b /\ wire w' = wire w ++ ztake wr b;
  wire_clock : forall w, let '(t, w') := now_monotonic_us w in wire w' = wire w /\ 0 <= t < 2 ^ 64;
  wire_stop : forall w, let '(_, w') := g_stop w in wire w' = wire w;
  wire_pushed : forall w, let '(items, w') := pushed w in wire w' = wire w /\ Forall item_ok items
}.

(** The rides of the queue: whole one-chunk frames that are not video. *)
Record aux_ok (c : chunk) : Prop := {
  ax_chunk : chunk_ok c;
  ax_codec : codec c.1 = AR8030_CHUNK_CODEC_CTRL \/ codec c.1 = AR8030_CHUNK_CODEC_SIDECAR;
  ax_len : zlen c.2 <= AR8030_SIDECAR_MAX_PAYLOAD
}.

Definition wire_bytes (cs : list chunk) : list Z := concat (chunk_bytes <$> cs).

Lemma wire_bytes_app a b : wire_bytes (a ++ b) = wire_bytes a ++ wire_bytes b.
Proof. unfold wire_bytes; by rewrite fmap_app, concat_app. Qed.

Lemma wire_bytes_cons c b : wire_bytes (c :: b) = chunk_bytes c ++ wire_bytes b.
Proof. done. Qed.


Lemma chunk_bytes_len c : zlen (chunk_bytes c) = AR8030_CHUNK_HDR_SIZE + zlen c.2.
Proof. unfold chunk_bytes; by rewrite zlen_app, zlen_hdr_bytes. Qed.

Lemma fmt_hex_bytes z : 0 <= z < 2 ^ 64 -> bytes_ok (fmt_hex z).
Proof.
  intros Hz; destruct (fmt_hex_spec z Hz) as (_ & _ & Hall & _); eapply list.Forall_impl; [exact Hall|].
  intros c Hc; apply is_hex_char in Hc; unfold byte_ok; lia.
Qed.

(** The queue holds well-formed entries [l], oldest first. *)
Definition holds (q : outq) (l : list outq_item) : Prop := (exists d, outq_rel q (l, d)) /\ Forall item_ok l.

Lemma holds_init : holds tx_outq_init [].
Proof. split; [exists 0; apply outq_rel_init|constructor]. Qed.

Lemma holds_len q l : holds q l -> zlen l <= TX_OUTQ_DEPTH /\ oq_count q = zlen l.
Proof.
  intros [[d [_ _ Hc Hf _]] _]; cbn [fst] in Hf; subst l; unfold zlen, ring_list; rewrite length_fmap, length_seq; lia.
Qed.

Lemma holds_push q l i : holds q l -> item_ok i -> exists l', holds (tx_outq_push q i) l'.
Proof.
  intros [[d Hr] Hl] Hi; destruct (outq_step_sim q (l, d) (Push i) Hr) as [_ H]; cbn [outq_step snd fifo_step fst] in H.
  destruct (zlen l =? TX_OUTQ_DEPTH); cbn [snd] in H.
  - exists (tail l ++ [i]); split; [eexists; exact H|apply Forall_app; split; [by apply Forall_tail|by constructor]].
  - exists (l ++ [i]); split; [eexists; exact H|apply Forall_app; split; [done|by constructor]].
Qed.

Lemma holds_pushes items q l : holds q l -> Forall item_ok items -> exists l', holds (fold_left tx_outq_push items q) l'.
Proof.
  intros Hq Hi; revert q l Hq; induction Hi as [|i items Hi _ IH]; intros q l Hq; [by exists l|]; cbn [fold_left].
  destruct (holds_push q l i Hq Hi) as [l' Hq']; by eapply IH.
Qed.

Lemma holds_pop q l : holds q l ->
  match l with
  | [] => exists q', tx_outq_pop q = (None, q')
  | i :: l => exists q', tx_outq_pop q = (Some i, q') /\ item_ok i /\ holds q' l
  end.
Proof.
  intros [[d Hr] Hl]; destruct (outq_step_sim q (l, d) Pop Hr) as [H1 H2]; cbn [outq_step fifo_step fst snd] in *.
  destruct (tx_outq_pop q) as [o q']; cbn [fst snd] in *; subst o; destruct l as [|i l]; cbn [head tail] in *; exists q'; [done|].
  apply Forall_cons_1 in Hl as [Hi Hl]; split_and!; [done|done|split; [by exists d|done]].
Qed.

(** Video chunks in order, with others riding among them. *)
Record mixed (cs vs : list chunk) : Prop := {
  mx_video : filter is_video cs = vs;
  mx_others : Forall (fun c => is_video c \/ aux_ok c) cs
}.

Lemma aux_not_video c : aux_ok c -> ~ is_video c.
Proof. intros Hc; unfold is_video; by destruct (ax_codec _ Hc) as [-> | ->]. Qed.

Lemma filter_aux cs : Forall aux_ok cs -> filter is_video cs = [].
Proof.
  induction 1 as [|c cs Hc _ IH]; [done|]; rewrite list.filter_cons, decide_False by (by apply aux_not_video); exact IH.
Qed.

Lemma mixed_aux cs v : Forall aux_ok cs -> is_video v -> mixed (cs ++ [v]) [v].
Proof.
  intros Hcs Hv; constructor.
  - rewrite list.filter_app, filter_aux, list.filter_cons, decide_True by done; done.
  - apply Forall_app; split; [eapply list.Forall_impl; [exact Hcs|]; by right|constructor; [by left|constructor]].
Qed.

Lemma mixed_app a b va vb : mixed a va -> mixed b vb -> mixed (a ++ b) (va ++ vb).
Proof. intros [<- H1] [<- H2]; constructor; [apply list.filter_app|by apply Forall_app]. Qed.

(** The chunks that queue entries ride as, in order; entries that fit no
    chunk are passed over. *)
Inductive rides (chunk_payload : Z) : list outq_item -> list chunk -> Prop :=
  | Rides_nil : rides chunk_payload [] []
  | Rides_skip i l cs now : item_payload chunk_payload i now = None -> rides chunk_payload l cs ->
      rides chunk_payload (i :: l) cs
  | Rides_chunk i l c cs now : item_payload chunk_payload i now = Some c.2 -> codec c.1 = oi_codec i -> aux_ok c ->
      rides chunk_payload l cs -> rides chunk_payload (i :: l) (c :: cs).

Lemma rides_ok p l cs : rides p l cs -> Forall aux_ok cs /\ (length cs <= length l)%nat.
Proof. induction 1 as [|i l cs now _ _ [IH1 IH2]|i l c cs now _ _ Hc _ [IH1 IH2]]; simpl; (split; [by try constructor|lia]). Qed.

Lemma aux_wire_len cs : Forall aux_ok cs -> zlen (wire_bytes cs) <= zlen cs * (AR8030_CHUNK_HDR_SIZE + AR8030_SIDECAR_MAX_PAYLOAD).
Proof.
  induction 1 as [|c cs Hc _ IH]; [done|]; rewrite wire_bytes_cons, zlen_app, zlen_cons, chunk_bytes_len.
  pose proof (ax_len _ Hc); lia.
Qed.

Section wire.
Context {W : Type} `{HE : TxEnv W} `{HW : !TxWire W} (chunk_payload : Z).
Hypothesis Hpay : 0 < chunk_payload <= AR8030_CHUNK_MAX_PAYLOAD.

Lemma write_loop_wire fuel buf : forall sent sc w,
  0 <= sent <= zlen buf -> zlen buf < 2 ^ 31 -> (Z.to_nat (zlen buf - sent) < fuel)%nat ->
  let '(ret, sc', w') := write_loop fuel buf sent sc w in
  exists n, 0 <= n <= zlen buf - sent /\ wire w' = wire w ++ ztake n (zdrop sent buf) /\
    (ret = 0 /\ n = zlen buf - sent \/ ret = -1 /\ n < zlen buf - sent) /\
    exists r, sc' = sc \/ sc' = set_last_ret r sc.
Proof.
  induction fuel as [|fuel IH]; intros sent sc w Hs Hl Hf; [lia|]; cbn [write_loop].
  destruct (Z.ltb_spec sent (zlen buf)) as [Hlt|].
  2: { exists 0; rewrite ztake_0, app_nil_r; split_and!; try done; try lia; exists 0; by left. }
  pose proof (wire_stop w) as Hst; destruct (g_stop w) as [stop w1]; destruct stop.
  { exists 0; rewrite ztake_0, app_nil_r; split_and!; try done; try lia; exists 0; by left. }
  pose proof (wire_write (zdrop sent buf) w1) as Hw; destruct (bb_socket_write _ w1) as [wr w2].
  destruct Hw as [Hwr Hw]; rewrite zlen_drop in Hwr by lia; destruct (Z.leb_spec wr 0).
  { exists 0; rewrite ztake_0, app_nil_r; split_and!; try lia; [|exists wr; by right].
    rewrite Hw, Hst; unfold ztake; replace (Z.to_nat wr) with O by lia; by rewrite app_nil_r. }
  rewrite u32_id by lia; specialize (IH (sent + wr) sc w2 ltac:(lia) Hl ltac:(lia)).
  destruct (write_loop fuel buf (sent + wr) sc w2) as [[ret sc'] w']; destruct IH as (n & Hn & Hw' & Hr & Hsc).
  exists (wr + n); split_and!; [lia|lia| |destruct Hr as [[? ?]|[? ?]]; [left|right]; lia|exact Hsc].
  rewrite Hw', Hw, Hst, <- app_assoc; f_equal; rewrite <- (zdrop_zdrop wr sent) by lia.
  change (ztake wr (zdrop sent buf)) with (zslice 0 wr (zdrop sent buf)).
  change (ztake n (zdrop wr (zdrop sent buf))) with (zslice wr n (zdrop sent buf)).
  by rewrite zslice_cat by lia.
Qed.

Lemma write_all_wire buf sc w :
  zlen buf < 2 ^ 31 ->
  let '(ret, sc', w') := write_all buf sc w in
  exists n, 0 <= n <= zlen buf /\ wire w' = wire w ++ ztake n buf /\
    (ret = 0 /\ n = zlen buf \/ ret = -1 /\ n < zlen buf) /\ exists r, sc' = sc \/ sc' = set_last_ret r sc.
Proof.
  intros Hl; pose proof (zlen_nonneg buf); pose proof (write_loop_wire (S (length buf)) buf 0 sc w ltac:(lia) Hl) as Hth.
  unfold write_all; destruct (write_loop _ buf 0 sc w) as [[ret sc'] w'].
  destruct Hth as (n & ? & ? & ? & ?); [unfold zlen; lia|]; exists n; rewrite Z.sub_0_r in *; done.
Qed.

#[local] Abbreviation amax := (aux_payload_max chunk_payload).

Lemma amax_bounds : 0 < amax <= AR8030_SIDECAR_MAX_PAYLOAD.
Proof using Hpay. unfold aux_payload_max, AR8030_SIDECAR_MAX_PAYLOAD; if_cases; lia. Qed.

Lemma payload_bounds i now d : item_ok i -> 0 <= now < 2 ^ 64 -> item_payload chunk_payload i now = Some d ->
  0 < zlen d <= amax /\ bytes_ok d.
Proof.
  intros [_ Hs H1 H2 Hd] Hnow; unfold item_payload.
  assert (Hb : forall l, bytes_ok l -> (if (zlen l =? 0) || (amax <? zlen l) then None else Some l) = Some d ->
    0 < zlen d <= amax /\ bytes_ok d).
  { intros l Hl; destruct (_ || _) eqn:E; [done|]; intros [= <-]; bool_to_prop; pose proof (zlen_nonneg l); split; [lia|done]. }
  destruct (oi_is_syncr i); [|by apply Hb]; destruct (_ <=? _); [done|]; apply Hb; unfold fmt_syncr.
  repeat (apply bytes_ok_app; split); try (apply fmt_hex_bytes; lia); repeat constructor; vm_compute; done.
Qed.

(** One entry that has a payload: a whole one-chunk frame behind the others. *)
Lemma stage_one i now d sq combo :
  item_ok i -> 0 <= now < 2 ^ 64 -> item_payload chunk_payload i now = Some d -> 0 <= sq < 65536 ->
  zlen combo + (AR8030_CHUNK_HDR_SIZE + AR8030_SIDECAR_MAX_PAYLOAD)
    <= TX_OUTQ_DEPTH * (AR8030_CHUNK_HDR_SIZE + AR8030_SIDECAR_MAX_PAYLOAD) ->
  exists c, aux_ok c /\ c.2 = d /\ codec c.1 = oi_codec i /\
    (ar8030_chunk_frame (append_to_combo chunk_payload) sq 0 (oi_codec i) 0 d amax aux_scratch_size combo).2
    = combo ++ chunk_bytes c.
Proof using Hpay.
  intros Hi Hnow Hd Hsq Hroom; destruct (payload_bounds i now d Hi Hnow Hd) as [Hlen Hb]; pose proof amax_bounds as Ha.
  unfold AR8030_CHUNK_HDR_SIZE, AR8030_SIDECAR_MAX_PAYLOAD, TX_OUTQ_DEPTH, AR8030_CHUNK_MAX_PAYLOAD in *.
  assert (Hco : 0 <= oi_codec i < 256) by (destruct (io_codec _ Hi) as [-> | ->]; vm_compute; split; congruence).
  destruct (chunk_frame_one (append_to_combo chunk_payload) sq 0 (oi_codec i) 0 d amax aux_scratch_size combo)
    as (c & Hc & Hd2 & Hcc & ->); try done; unfold aux_scratch_size, AR8030_CHUNK_MAX_PAYLOAD, AR8030_CHUNK_HDR_SIZE,
      AR8030_SIDECAR_MAX_PAYLOAD in *; try lia.
  exists c; split_and!; try done.
  - constructor; [done|rewrite Hcc; apply Hi|rewrite Hd2; unfold AR8030_SIDECAR_MAX_PAYLOAD; lia].
  - unfold append_to_combo, combo_cap; rewrite chunk_bytes_len, Hd2; unfold TX_OUTQ_DEPTH, AR8030_CHUNK_HDR_SIZE, AR8030_SIDECAR_MAX_PAYLOAD.
    pose proof (zlen_nonneg combo); rewrite u32_id, (proj2 (Z.ltb_ge _ _)) by lia; done.
Qed.

Lemma stage_loop_wire fuel : forall l sc w,
  holds (sx_outq sc) l -> (length l < fuel)%nat -> 0 <= sx_aux_seq sc < 65536 ->
  zlen (sx_combo sc) + zlen l * (AR8030_CHUNK_HDR_SIZE + AR8030_SIDECAR_MAX_PAYLOAD)
    <= TX_OUTQ_DEPTH * (AR8030_CHUNK_HDR_SIZE + AR8030_SIDECAR_MAX_PAYLOAD) ->
  let '(sc', w') := stage_loop chunk_payload fuel sc w in
  exists cs, rides chunk_payload l cs /\ sx_combo sc' = sx_combo sc ++ wire_bytes cs /\ wire w' = wire w /\
    holds (sx_outq sc') [] /\ 0 <= sx_aux_seq sc' < 65536 /\
    sx_stats sc' = sx_stats sc /\ sx_last_write_ret sc' = sx_last_write_ret sc.
Proof using Hpay.
  induction fuel as [|fuel IH]; intros l sc w Hh Hf Hs Hroom; [lia|]; cbn [stage_loop].
  pose proof (holds_pop _ _ Hh) as Hpop; destruct l as [|i l].
  { destruct Hpop as [q' ->]; exists []; rewrite app_nil_r; split_and!; try done; try lia; try apply Hh; apply Rides_nil. }
  destruct Hpop as (q' & -> & Hi & Hh'); rewrite zlen_cons in Hroom; simpl in Hf; pose proof (zlen_nonneg l).
  assert (Hnow : exists now w1, (if oi_is_syncr i then now_monotonic_us w else (0, w)) = (now, w1) /\ wire w1 = wire w /\ 0 <= now < 2 ^ 64).
  { pose proof (wire_clock w) as Hc; destruct (oi_is_syncr i); [|exists 0, w; done].
    destruct (now_monotonic_us w) as [now w1]; by exists now, w1. }
  destruct Hnow as (now & w1 & -> & Hw1 & Hnow); destruct (item_payload chunk_payload i now) as [d|] eqn:Ed.
  - destruct (stage_one i now d (sx_aux_seq sc) (sx_combo sc) Hi Hnow Ed Hs) as (c & Hc & Hd & Hco & E).
    { unfold AR8030_CHUNK_HDR_SIZE, AR8030_SIDECAR_MAX_PAYLOAD in *; lia. }
    cbn [set_outq sx_aux_seq sx_combo] in *.
    destruct (ar8030_chunk_frame _ _ _ _ _ _ _ _ _) as [[n m] combo]; cbn [snd] in E; subst combo.
    set (sc1 := set_combo _ _); specialize (IH l sc1 w1 Hh' ltac:(lia) (u16_range _)); cbn [sx_combo sc1 set_combo] in IH.
    destruct (stage_loop chunk_payload fuel sc1 w1) as [sc' w']; destruct IH as (cs & H1 & H2 & H3 & H4 & H5 & H6 & H7).
    { rewrite zlen_app, chunk_bytes_len; pose proof (ax_len _ Hc).
      unfold AR8030_CHUNK_HDR_SIZE, AR8030_SIDECAR_MAX_PAYLOAD in *; lia. }
    exists (c :: cs); rewrite wire_bytes_cons, app_assoc; split_and!; try done; try lia; [|congruence].
    eapply Rides_chunk; [by rewrite Hd|done|done|done].
  - specialize (IH l (set_outq q' sc) w1 Hh' ltac:(lia) Hs); cbn [set_outq sx_combo] in *.
    destruct (stage_loop chunk_payload fuel _ w1) as [sc' w']; destruct IH as (cs & H1 & H2 & H3 & H4 & H5 & H6 & H7).
    { unfold AR8030_CHUNK_HDR_SIZE, AR8030_SIDECAR_MAX_PAYLOAD in *; lia. }
    exists cs; split_and!; try done; try lia; [by eapply Rides_skip|congruence].
Qed.

Lemma stage_outq_wire l sc w :
  holds (sx_outq sc) l -> sx_combo sc = [] -> 0 <= sx_aux_seq sc < 65536 ->
  let '(sc', w') := stage_outq chunk_payload sc w in
  exists l' cs, rides chunk_payload l' cs /\ (length l' <= 16)%nat /\ sx_combo sc' = wire_bytes cs /\ wire w' = wire w /\
    holds (sx_outq sc') [] /\ 0 <= sx_aux_seq sc' < 65536 /\
    sx_stats sc' = sx_stats sc /\ sx_last_write_ret sc' = sx_last_write_ret sc.
Proof using Hpay.
  intros Hh Hc Hs; unfold stage_outq; pose proof (wire_pushed w) as Hp; destruct (pushed w) as [items w1].
  destruct Hp as [Hw1 Hi]; destruct (holds_pushes items _ l Hh Hi) as [l' Hh']; destruct (holds_len _ _ Hh') as [Hlen _].
  unfold TX_OUTQ_DEPTH in Hlen; unfold zlen in Hlen.
  pose proof (stage_loop_wire (S (Z.to_nat TX_OUTQ_DEPTH)) l' (set_outq (fold_left tx_outq_push items (sx_outq sc)) sc) w1 Hh') as Hst.
  destruct (stage_loop _ _ _ w1) as [sc' w']; cbn [set_outq sx_combo sx_aux_seq sx_stats sx_last_write_ret] in Hst; rewrite Hc in Hst.
  destruct Hst as (cs & H1 & H2 & H3 & H4 & H5 & H6 & H7); [change (Z.to_nat TX_OUTQ_DEPTH) with 16%nat; lia|done| |].
  { change (zlen (@nil Z)) with 0; unfold AR8030_CHUNK_HDR_SIZE, AR8030_SIDECAR_MAX_PAYLOAD, TX_OUTQ_DEPTH, zlen; lia. }
  exists l', cs; split_and!; try done; try lia; congruence.
Qed.

(** The send loop's state between two calls. *)
Definition sctx_ok (sc : send_ctx) : Prop := (exists l, holds (sx_outq sc) l) /\ 0 <= sx_aux_seq sc < 65536.

Lemma sctx_ok_init : sctx_ok sctx_init.
Proof. split; [exists []; apply holds_init|done]. Qed.

Lemma sctx_ok_ret r sc : sctx_ok sc -> sctx_ok (set_last_ret r sc).
Proof. done. Qed.

Lemma chunk_send_wire buf sc w :
  sctx_ok sc -> zlen buf <= AR8030_CHUNK_HDR_SIZE + chunk_payload ->
  let '(ret, sc', w') := chunk_send_to_socket chunk_payload buf sc w in
  exists l cs n, rides chunk_payload l cs /\ sctx_ok sc' /\
    let out := wire_bytes cs ++ buf in
    wire w' = wire w ++ ztake n out /\ 0 <= n <= zlen out /\
    (ret = 0 /\ n = zlen out /\ sx_stats sc' = count_chunk true (zlen buf) (sx_stats sc)
     \/ ret = -1 /\ n < zlen out /\ sx_stats sc' = count_chunk false 0 (sx_stats sc)).
Proof using Hpay.
  intros [[l0 Hh] Hs] Hlen; unfold chunk_send_to_socket; pose proof (stage_outq_wire l0 (set_combo [] sc) w Hh eq_refl Hs) as Hst.
  destruct (stage_outq chunk_payload (set_combo [] sc) w) as [sc1 w1].
  destruct Hst as (l & cs & Hr & Hl & Hc & Hw & Hh1 & Hs1 & Hst1 & _); cbn [set_combo sx_stats] in Hst1.
  destruct (rides_ok _ _ _ Hr) as [Hax Hle]; pose proof (aux_wire_len cs Hax) as Hcap; pose proof (zlen_nonneg buf).
  pose proof (zlen_nonneg (wire_bytes cs)); assert (Hzl : zlen cs <= 16) by (unfold zlen; lia).
  unfold AR8030_CHUNK_HDR_SIZE, AR8030_SIDECAR_MAX_PAYLOAD, AR8030_CHUNK_MAX_PAYLOAD in *.
  assert (Hok1 : forall r, sctx_ok (set_combo [] sc1) /\ sctx_ok (set_combo [] (set_last_ret r sc1)))
    by (intros r; exact (conj (conj (ex_intro _ [] Hh1) Hs1) (conj (ex_intro _ [] Hh1) Hs1))).
  assert (Hbranch : (if negb (zlen (sx_combo sc1) =? 0) && (u32 (zlen (sx_combo sc1) + zlen buf) <=? combo_cap chunk_payload)
    then write_all (sx_combo sc1 ++ buf) sc1 w1
    else let '(ret, sc, w0) := if negb (zlen (sx_combo sc1) =? 0) then write_all (sx_combo sc1) sc1 w1 else (0, sc1, w1) in
         if ret =? 0 then write_all buf sc w0 else (ret, sc, w0)) = write_all (wire_bytes cs ++ buf) sc1 w1).
  { rewrite Hc; destruct (Z.eqb_spec (zlen (wire_bytes cs)) 0) as [E|E]; cbn [negb andb].
    - apply zlen_eq_0 in E; by rewrite E.
    - unfold combo_cap, TX_OUTQ_DEPTH, AR8030_CHUNK_HDR_SIZE, AR8030_SIDECAR_MAX_PAYLOAD; rewrite u32_id by lia.
      by rewrite (proj2 (Z.leb_le _ _)) by lia. }
  rewrite Hbranch; pose proof (write_all_wire (wire_bytes cs ++ buf) sc1 w1 ltac:(rewrite zlen_app; lia)) as Hwa.
  destruct (write_all (wire_bytes cs ++ buf) sc1 w1) as [[ret sc2] w2]; destruct Hwa as (n & Hn & Hw2 & Hret & r & Hsc).
  assert (Hsc2 : sctx_ok (set_combo [] sc2) /\ sx_stats sc2 = sx_stats sc) by (destruct Hsc as [-> | ->]; split; try done; apply (Hok1 r)).
  destruct Hsc2 as [Hok2 Hst2]; destruct Hret as [[-> Hn2]|[-> Hn2]].
  - change (negb (0 =? 0)) with false; cbv iota; exists l, cs, n; cbn zeta; rewrite Hw2, Hw; split_and!; try done; try lia.
    left; split_and!; try done; cbn [set_combo set_stats sx_stats]; by rewrite Hst2.
  - change (negb (-1 =? 0)) with true; cbv iota; exists l, cs, n; cbn zeta; rewrite Hw2, Hw; split_and!; try done; try lia.
    right; split_and!; try done; cbn [set_combo set_stats sx_stats]; by rewrite Hst2.
Qed.

(** A run of video chunks through the callback. *)
Lemma send_all_wire vs : forall sc w,
  sctx_ok sc -> Forall (fun v => is_video v /\ zlen v.2 <= chunk_payload) vs ->
  let '(k, (sc', w')) := send_all (socket_cb chunk_payload) (chunk_bytes <$> vs) (sc, w) in
  0 <= k <= zlen vs /\ sctx_ok sc' /\
  exists cs tail, mixed cs (ztake k vs) /\ wire w' = wire w ++ wire_bytes cs ++ tail /\
    (k = zlen vs -> tail = [] /\ sx_stats sc' = fold_left (fun s v => count_chunk true (zlen (chunk_bytes v)) s) vs (sx_stats sc)) /\
    (k < zlen vs -> exists aux v n, Forall aux_ok aux /\ vs !! Z.to_nat k = Some v /\
       0 <= n < zlen (wire_bytes aux ++ chunk_bytes v) /\ tail = ztake n (wire_bytes aux ++ chunk_bytes v)).
Proof using Hpay.
  induction vs as [|v vs IH]; intros sc w Hsc Hvs; cbn [fmap list_fmap send_all].
  { change (zlen (@nil chunk)) with 0; split_and!; try done; exists [], []; rewrite !app_nil_r; split_and!; try done; lia. }
  apply Forall_cons_1 in Hvs as [[Hv Hl] Hvs]; unfold socket_cb at 1; cbn [fst snd].
  pose proof (chunk_send_wire (chunk_bytes v) sc w Hsc ltac:(rewrite chunk_bytes_len; lia)) as Hone.
  destruct (chunk_send_to_socket chunk_payload (chunk_bytes v) sc w) as [[ret sc1] w1].
  destruct Hone as (l & aux & n & Hr & Hsc1 & Hw1 & Hn & Hret); destruct (rides_ok _ _ _ Hr) as [Hax _].
  rewrite zlen_cons; pose proof (zlen_nonneg vs); destruct Hret as [(-> & -> & Hst)|(-> & Hlt & Hst)].
  - change (negb (0 =? 0)) with false; cbv iota; specialize (IH sc1 w1 Hsc1 Hvs).
    destruct (send_all _ _ (sc1, w1)) as [k [sc2 w2]]; destruct IH as (Hk & Hsc2 & cs & tail & Hm & Hw2 & Hall & Hpart).
    assert (Htake : ztake (1 + k) (v :: vs) = [v] ++ ztake k vs)
      by (unfold ztake; by replace (Z.to_nat (1 + k)) with (S (Z.to_nat k)) by lia).
    split_and!; try done; try lia; exists ((aux ++ [v]) ++ cs), tail; rewrite Htake; split_and!.
    + apply mixed_app; [by apply mixed_aux|done].
    + rewrite Hw2, Hw1, ztake_all by lia; rewrite !wire_bytes_app, (wire_bytes_cons v), app_nil_r, <- !app_assoc; done.
    + intros Hk2; destruct Hall as [-> ->]; [lia|]; by rewrite Hst.
    + intros Hk2; destruct Hpart as (a & v' & m & ? & ? & ? & ?); [lia|]; exists a, v', m.
      by replace (Z.to_nat (1 + k)) with (S (Z.to_nat k)) by lia.
  - change (negb (-1 =? 0)) with true; cbv iota; split_and!; try done; try lia.
    exists [], (ztake n (wire_bytes aux ++ chunk_bytes v)); split_and!; [by constructor|by rewrite Hw1|lia|].
    intros _; exists aux, v, n; split_and!; try done; lia.
Qed.

Lemma video_chunks_ok p count :
  params_ok p -> count = chunk_count_for (zlen (cp_data p)) (cp_payload p) -> cp_codec p = AR8030_CHUNK_CODEC_H265 ->
  cp_payload p = chunk_payload -> Forall (fun v => is_video v /\ zlen v.2 <= chunk_payload) (chunks_of p count).
Proof.
  intros Hp Hcount Hco Hpl; pose proof Hp as [? ? ? ? ? Hc HL]; apply list.Forall_forall; intros c Hin.
  apply list_elem_of_fmap in Hin as (i & -> & Hi); apply elem_of_seq in Hi; split; [exact Hco|].
  pose proof (chunk_count_bounds p count Hc HL Hcount); rewrite chunk_at_payload_len by (done || lia); lia.
Qed.

(** On a link that takes something of every write, and is not being stopped,
    nothing fails. *)
Section reliable.
Hypothesis Htakes : forall b w, b <> [] -> 0 < (bb_socket_write b w).1.
Hypothesis Hgoes : forall w, (g_stop w).1 = false.

Lemma write_loop_ok fuel buf : forall sent sc w,
  0 <= sent <= zlen buf -> zlen buf < 2 ^ 31 -> (Z.to_nat (zlen buf - sent) < fuel)%nat ->
  (write_loop fuel buf sent sc w).1.1 = 0.
Proof using All.
  induction fuel as [|fuel IH]; intros sent sc w Hs Hl Hf; [lia|]; cbn [write_loop].
  destruct (Z.ltb_spec sent (zlen buf)) as [Hlt|]; [|done].
  pose proof (Hgoes w) as Hg; destruct (g_stop w) as [stop w1]; cbn [fst] in Hg; subst stop.
  pose proof (wire_write (zdrop sent buf) w1) as Hw; pose proof (Htakes (zdrop sent buf) w1) as Ht.
  destruct (bb_socket_write _ w1) as [wr w2]; cbn [fst] in Ht; destruct Hw as [Hw _]; rewrite zlen_drop in Hw by lia.
  assert (0 < wr).
  { apply Ht; intros E; apply (f_equal zlen) in E; rewrite zlen_drop in E by lia; change (zlen (@nil Z)) with 0 in E; lia. }
  rewrite (proj2 (Z.leb_gt _ _)), u32_id by lia; apply IH; lia.
Qed.

Lemma chunk_send_ok buf sc w :
  sctx_ok sc -> zlen buf <= AR8030_CHUNK_HDR_SIZE + chunk_payload ->
  (chunk_send_to_socket chunk_payload buf sc w).1.1 = 0.
Proof using All.
  intros Hsc Hlen; pose proof Hsc as [[l0 Hh] Hs]; unfold chunk_send_to_socket.
  pose proof (stage_outq_wire l0 (set_combo [] sc) w Hh eq_refl Hs) as Hst.
  destruct (stage_outq chunk_payload (set_combo [] sc) w) as [sc1 w1].
  destruct Hst as (l & cs & Hr & Hl & Hc & _); destruct (rides_ok _ _ _ Hr) as [Hax Hle]; pose proof (aux_wire_len cs Hax).
  assert (Hzl : zlen cs <= 16) by (unfold zlen; lia); rewrite Hc; pose proof (zlen_nonneg (wire_bytes cs)).
  unfold AR8030_CHUNK_HDR_SIZE, AR8030_SIDECAR_MAX_PAYLOAD, AR8030_CHUNK_MAX_PAYLOAD in *; pose proof (zlen_nonneg buf).
  assert (Hwa : forall b, zlen b < 2 ^ 31 -> (write_all b sc1 w1).1.1 = 0).
  { intros b Hb; pose proof (zlen_nonneg b); apply write_loop_ok; [lia|done|unfold zlen; lia]. }
  destruct (Z.eqb_spec (zlen (wire_bytes cs)) 0) as [E|E]; cbn [negb andb].
  - change (0 =? 0) with true; cbv iota; pose proof (Hwa buf ltac:(lia)) as Hz0; destruct (write_all buf sc1 w1) as [[r sc2] w2].
    cbn [fst] in Hz0; by subst r.
  - unfold combo_cap, TX_OUTQ_DEPTH, AR8030_CHUNK_HDR_SIZE, AR8030_SIDECAR_MAX_PAYLOAD; rewrite u32_id, (proj2 (Z.leb_le _ _)) by lia.
    pose proof (Hwa (wire_bytes cs ++ buf) ltac:(rewrite zlen_app; lia)) as Hz0.
    destruct (write_all (wire_bytes cs ++ buf) sc1 w1) as [[r sc2] w2]; cbn [fst] in Hz0; by subst r.
Qed.

Lemma send_all_ok vs : forall sc w,
  sctx_ok sc -> Forall (fun v => is_video v /\ zlen v.2 <= chunk_payload) vs ->
  let '(k, (sc', w')) := send_all (socket_cb chunk_payload) (chunk_bytes <$> vs) (sc, w) in
  k = zlen vs /\ sctx_ok sc' /\ exists cs, mixed cs vs /\ wire w' = wire w ++ wire_bytes cs.
Proof using All.
  intros sc w Hsc Hvs; assert (Hk : (send_all (socket_cb chunk_payload) (chunk_bytes <$> vs) (sc, w)).1 = zlen vs).
  { revert sc w Hsc; induction Hvs as [|v vs [_ Hl] Hvs IH]; intros sc w Hsc; [done|]; cbn [fmap list_fmap send_all].
    unfold socket_cb at 1; cbn [fst snd].
    pose proof (chunk_send_ok (chunk_bytes v) sc w Hsc ltac:(rewrite chunk_bytes_len; lia)) as Hz0.
    pose proof (chunk_send_wire (chunk_bytes v) sc w Hsc ltac:(rewrite chunk_bytes_len; lia)) as Hone.
    destruct (chunk_send_to_socket chunk_payload (chunk_bytes v) sc w) as [[ret sc1] w1]; cbn [fst] in Hz0; subst ret.
    destruct Hone as (_ & _ & _ & _ & Hsc1 & _); change (negb (0 =? 0)) with false; cbv iota; specialize (IH sc1 w1 Hsc1).
    destruct (send_all _ _ (sc1, w1)); cbn [fst] in *; rewrite zlen_cons; lia. }
  pose proof (send_all_wire vs sc w Hsc Hvs) as Hall; destruct (send_all _ _ (sc, w)) as [k [sc' w']]; cbn [fst] in Hk.
  destruct Hall as (_ & Hsc' & cs & tail & Hm & Hw & Hfull & _); split_and!; [done|done|exists cs].
  destruct (Hfull Hk) as [-> _]; rewrite ztake_all in Hm by lia; rewrite app_nil_r in Hw; done.
Qed.
End reliable.

(** C36. What a frame puts on the wire, on any socket that takes as much as it
    reports and may fail or be stopped at any write: the frame's chunks in
    order, whole, with whole control and sidecar chunks riding among them -
    all of them if the result says so, else the first ones followed by a
    proper beginning of what the failed write was given.  Nothing of the
    queue is written twice and the sizes never exceed the combined buffer. *)
Theorem frame_on_wire seq fl pts data scratch sc w count :
  let p := mk_cp seq fl AR8030_CHUNK_CODEC_H265 pts data chunk_payload 0 count false false in
  params_ok p -> AR8030_CHUNK_HDR_SIZE + chunk_payload <= scratch ->
  count = chunk_count_for (zlen data) chunk_payload -> count <= 65535 -> sctx_ok sc ->
  let vs := chunks_of p count in
  let '(sent, n, (sc', w')) := ar8030_chunk_frame (socket_cb chunk_payload) seq fl AR8030_CHUNK_CODEC_H265 pts data
                                 chunk_payload scratch (sc, w) in
  n = Some count /\ 0 <= sent <= count /\ sctx_ok sc' /\
  exists cs tail, mixed cs (ztake sent vs) /\ wire w' = wire w ++ wire_bytes cs ++ tail /\
    (sent = count -> tail = []) /\
    (sent < count -> exists aux v m, Forall aux_ok aux /\ vs !! Z.to_nat sent = Some v /\
       0 <= m < zlen (wire_bytes aux ++ chunk_bytes v) /\ tail = ztake m (wire_bytes aux ++ chunk_bytes v)).
Proof using Hpay.
  intros p Hp Hs Hcount Hmax Hsc vs; pose proof Hp as [? ? ? ? ? Hc HL]; cbn [p cp_data cp_payload] in *.
  rewrite (chunk_frame_spec _ _ _ _ _ _ _ _ _ count) by done; fold p vs.
  pose proof (send_all_wire vs sc w Hsc (video_chunks_ok p count Hp Hcount eq_refl eq_refl)) as Hall.
  destruct (send_all _ _ (sc, w)) as [k [sc' w']]; destruct Hall as (Hk & Hsc' & cs & tail & Hm & Hw & Hfull & Hpart).
  unfold vs in *; rewrite (zlen_chunks_of p count) in * by done; split_and!; try done; try lia.
  exists cs, tail; split_and!; try done; intros Hsent; by apply Hfull.
Qed.
End wire.

(** ** A concrete socket *)

(** Takes at most as many bytes per call as the list says (all of them when
    it runs out); one clock-sync reply is pushed before the first write. *)
Record demo_net := mk_net { dn_wire : list Z; dn_limits : list Z; dn_push : bool; dn_clock : Z }.

Definition demo_reply : outq_item := mk_item AR8030_CHUNK_CODEC_CTRL true 7 1000 2000 [].

#[export] Instance demo_env : TxEnv demo_net := {
  bb_socket_write := fun b w =>
    let wr := match dn_limits w with [] => zlen b | l :: _ => Z.min l (zlen b) end in
    (wr, mk_net (dn_wire w ++ ztake wr b) (tail (dn_limits w)) (dn_push w) (dn_clock w));
  now_monotonic_us := fun w => (u64 (dn_clock w), mk_net (dn_wire w) (dn_limits w) (dn_push w) (dn_clock w + 10));
  g_stop := fun w => (false, w);
  pushed := fun w => (if dn_push w then [demo_reply] else [], mk_net (dn_wire w) (dn_limits w) false (dn_clock w))
}.

#[export] Program Instance demo_wire : TxWire demo_net := { wire := dn_wire }.
Next Obligation. intros b w; cbn; split; [destruct (dn_limits w); lia|done]. Qed.
Next Obligation. intros w; cbn; split; [done|apply u64_range]. Qed.
Next Obligation. done. Qed.
Next Obligation.
  intros w; cbn; split; [done|]; destruct (dn_push w); [|constructor]; constructor; [|constructor].
  constructor; cbn; try lia; try by left.
Qed.

Definition demo_data : list Z := replicate 50 7.

Lemma demo_frame_params : params_ok (mk_cp 5 1 AR8030_CHUNK_CODEC_H265 90 demo_data 40 0 2 false false).
Proof.
  constructor; cbn; try (unfold AR8030_CHUNK_MAX_PAYLOAD, AR8030_CHUNK_CODEC_H265; lia); [|vm_compute; reflexivity].
  repeat constructor; unfold byte_ok; lia.
Qed.

(** Three bytes, then the rest, then a socket that fails: one chunk is out. *)
Lemma frame_on_wire_witness :
  let vs := chunks_of (mk_cp 5 1 AR8030_CHUNK_CODEC_H265 90 demo_data 40 0 2 false false) 2 in
  exists cs tail, mixed cs (ztake 1 vs) /\
    dn_wire (ar8030_chunk_frame (socket_cb 40) 5 1 AR8030_CHUNK_CODEC_H265 90 demo_data 40 62
               (sctx_init, mk_net [] [3; 1000; 4; 0] true 3000)).2.2 = [] ++ wire_bytes cs ++ tail.
Proof.
  pose proof (frame_on_wire 40 ltac:(unfold AR8030_CHUNK_MAX_PAYLOAD; lia) 5 1 90 demo_data 62 sctx_init
    (mk_net [] [3; 1000; 4; 0] true 3000) 2 demo_frame_params ltac:(vm_compute; congruence) eq_refl ltac:(lia) sctx_ok_init) as Hth.
  cbv zeta in Hth |- *; set (vs := chunks_of _ _) in *.
  assert (E : (ar8030_chunk_frame (socket_cb 40) 5 1 AR8030_CHUNK_CODEC_H265 90 demo_data 40 62
               (sctx_init, mk_net [] [3; 1000; 4; 0] true 3000)).1 = (1, Some 2)) by (vm_compute; reflexivity).
  destruct (ar8030_chunk_frame _ _ _ _ _ _ _ _ _) as [[sent n] [sc' w']]; cbn [fst snd] in E |- *; injection E as -> ->.
  destruct Hth as (_ & _ & _ & cs & tail & Hm & Hw & _); exists cs, tail; split; [exact Hm|exact Hw].
Defined.
