(* ===== verification/IdrRelay.v ===== *)
(** The reverse channel, ground to air: the thread of [rx/idr_relay.c], which
    passes the player's keyframe requests up the radio and asks for the air
    unit's time, and the thread of [tx/idr_ctrl.c] at the other end. *)

From S2P Require Import Prelude Crc16 ChunkHdr Chunker ClockSync Outq CtrlMsg IdrCtrl RxMain TxSend.
#[local] Open Scope Z_scope.

Definition IDR_RELAY_TOKEN_MAX : Z := 16.

(** The UDP socket of the keyframe requests, the data socket, the clock.
    [relay_recv] is [poll] for 20 ms and [recvfrom] of at most 63 bytes, [None]
    if there is nothing; [relay_ack] answers the sender. *)
Class RelayEnv (W : Type) := {
  relay_sockfd : W -> Z * W;
  relay_write : Z -> list Z -> W -> Z * W;
  relay_now_us : W -> Z * W;
  relay_recv : bool -> W -> option (list Z) * W;
  relay_ack : list Z -> W -> W;
  relay_stop : W -> bool * W
}.

(** The thread's [ctrl_seq], and the estimate it shares with the main loop. *)
Record relay := mk_relay { ry_seq : Z; ry_sync : clock_sync }.

(** [udp]: the socket is there; [sync]: so is the estimate. *)
Record relay_cfg := mk_relay_cfg { rc_udp : bool; rc_sync : bool }.

(** [while (n > 0 && isspace(buf[n - 1]))] *)
Definition trim_end (s : list Z) : list Z := rev (skip_spaces (rev s)).

(** The token of a datagram, as [%s] prints it; [None]: refused. *)
Definition relay_token (d : list Z) : option (list Z) :=
  let tok := trim_end d in
  if (zlen tok =? 0) || (IDR_RELAY_TOKEN_MAX <? zlen tok) then None else Some (c_string tok).

Definition ack_text (tok : list Z) : list Z := [0x41; 0x43; 0x4b; 0x3a] ++ tok ++ [10].

Section thread.
Context {W : Type} `{RelayEnv W} (cfg : relay_cfg).

Fixpoint ctrl_loop (fuel : nat) (fd : Z) (buf : list Z) (sent : Z) (w : W) : Z * W :=
  match fuel with
  | O => (-1, w)
  | S fuel =>
      if sent <? zlen buf then
        let '(wr, w) := relay_write fd (zdrop sent buf) w in
        if wr <=? 0 then (-1, w) else ctrl_loop fuel fd buf (u32 (sent + wr)) w
      else (0, w)
  end.

Definition ctrl_send (w : W) (buf : list Z) : Z * W :=
  let '(fd, w) := relay_sockfd w in
  if fd <? 0 then (-1, w) else ctrl_loop (S (length buf)) fd buf 0 w.

Definition relay_send (payload : list Z) (s : relay) (w : W) : relay * W :=
  let '(_, _, w) := ar8030_chunk_frame ctrl_send (ry_seq s) 0 AR8030_CHUNK_CODEC_CTRL 0 payload AR8030_CTRL_MAX_PAYLOAD
                      (AR8030_CHUNK_HDR_SIZE + AR8030_CTRL_MAX_PAYLOAD) w in
  (mk_relay (u16 (ry_seq s + 1)) (ry_sync s), w).

Definition relay_probe (s : relay) (w : W) : relay * W :=
  if rc_sync cfg then
    let '(now, w) := relay_now_us w in
    match clock_sync_due (ry_sync s) now with
    | (Some (seq, t1), cs) => relay_send (fmt_sync seq t1) (mk_relay (ry_seq s) cs) w
    | (None, cs) => (mk_relay (ry_seq s) cs, w)
    end
  else (s, w).

Definition relay_request (s : relay) (w : W) : relay * W :=
  match relay_recv (rc_udp cfg) w with
  | (None, w) => (s, w)
  | (Some d, w) =>
      match relay_token d with
      | None => (s, w)
      | Some tok => relay_send (str_IDR ++ tok) s (relay_ack (ack_text tok) w)
      end
  end.

Definition relay_turn (s : relay) (w : W) : relay * W :=
  let '(s, w) := relay_probe s w in relay_request s w.

(** [idr_relay_thread_main]'s loop for [n] turns; after each the main loop may
    have handed the estimate some control chunks, with their arrival times. *)
Fixpoint relay_run (n : nat) (arrived : nat -> list (list Z * Z)) (s : relay) (w : W) : relay * W :=
  match n with
  | O => (s, w)
  | S n =>
      let '(stop, w) := relay_stop w in
      if stop then (s, w)
      else
        let '(s, w) := relay_turn s w in
        relay_run n arrived (mk_relay (ry_seq s) (fold_left (fun cs r => handle_air_ctrl cs r.1 r.2) (arrived n) (ry_sync s))) w
  end.
End thread.

(** ** The air unit's end *)

(** The locals of [idr_ctrl_thread_main], and the queue to the send loop. *)
Record air_ctrl := mk_air_ctrl { ac_idr : idr_state; ac_outq : option outq }.

(** The reply it queues; the send loop stamps it with the time it goes out. *)
Definition syncr_reply (seq t1 read_us : Z) : outq_item := mk_item AR8030_CHUNK_CODEC_CTRL true seq t1 read_us [].

(** What becomes of a chunk read at [read_us]: whether the encoder is asked for
    a keyframe, and the state after it. *)
Definition air_ctrl_chunk (cfg : idr_cfg) (read_us now_ms : Z) (congested : bool) (c : chunk) (s : air_ctrl) : bool * air_ctrl :=
  match parse_air_cmd (codec c.1) c.2 with
  | Cmd_sync seq t1 => (false, mk_air_ctrl (ac_idr s) ((fun q => tx_outq_push q (syncr_reply seq t1 read_us)) <$> ac_outq s))
  | Cmd_idr tok => let '(asked, st) := handle_idr cfg now_ms congested tok (ac_idr s) in (asked, mk_air_ctrl st (ac_outq s))
  | _ => (false, s)
  end.

(** ** The reverse channel as a byte stream

    What has gone out on it, the datagrams that came in and the answers to
    their senders, oldest first. *)
Class RelayWire (W : Type) `{RelayEnv W} := {
  up_wire : W -> list Z;
  heard : W -> list (list Z);
  acked : W -> list (list Z);
  up_fd : forall w, let '(_, w') := relay_sockfd w in up_wire w' = up_wire w /\ heard w' = heard w /\ acked w' = acked w;
  up_write : forall fd b w, let '(wr, w') := relay_write fd b w in
    wr <= zlen b /\ up_wire w' = up_wire w ++ ztake wr b /\ heard w' = heard w /\ acked w' = acked w;
  up_now : forall w, let '(t, w') := relay_now_us w in
    0 <= t < 2 ^ 64 /\ up_wire w' = up_wire w /\ heard w' = heard w /\ acked w' = acked w;
  up_recv : forall on w, let '(r, w') := relay_recv on w in
    up_wire w' = up_wire w /\ acked w' = acked w /\
    match r with Some d => bytes_ok d /\ heard w' = heard w ++ [d] | None => heard w' = heard w end;
  up_ack : forall b w, let w' := relay_ack b w in
    up_wire w' = up_wire w /\ heard w' = heard w /\ acked w' = acked w ++ [b];
  up_stop : forall w, let '(_, w') := relay_stop w in up_wire w' = up_wire w /\ heard w' = heard w /\ acked w' = acked w
}.

(** What a chunk says at the air unit's end. *)
Definition says (c : chunk) : air_cmd := parse_air_cmd (codec c.1) c.2.
Definition asks_idr (m : air_cmd) : option (list Z) := match m with Cmd_idr tok => Some tok | _ => None end.
Definition asks_time (m : air_cmd) : option (Z * Z) := match m with Cmd_sync seq t1 => Some (seq, t1) | _ => None end.

(** A token the air unit takes for one. *)
Definition named (tok : list Z) : Prop := tok <> [].
#[export] Instance named_dec tok : Decision (named tok).
Proof. unfold named; apply _. Defined.

(** Probes numbered from [q] on, the next one [q']. *)
Fixpoint numbered (q : Z) (l : list (Z * Z)) (q' : Z) : Prop :=
  match l with
  | [] => q' = q
  | (seq, t1) :: l => seq = q /\ 0 <= t1 < 2 ^ 64 /\ numbered (u32 (q + 1)) l q'
  end.

Lemma numbered_app q a q1 b q2 : numbered q a q1 -> numbered q1 b q2 -> numbered q (a ++ b) q2.
Proof.
  revert q; induction a as [|[s t] a IH]; intros q; cbn; [by intros ->|].
  intros (-> & Ht & Ha) Hb; exact (conj eq_refl (conj Ht (IH _ Ha Hb))).
Qed.

Lemma numbered_range q l q' : 0 <= q < 2 ^ 32 -> numbered q l q' -> forall seq t1, (seq, t1) ∈ l -> 0 <= seq < 2 ^ 32 /\ 0 <= t1 < 2 ^ 64.
Proof.
  revert q; induction l as [|[s t] l IH]; intros q Hq; [intros _ seq t1 Hin; by apply not_elem_of_nil in Hin|].
  intros (-> & Ht & Hl) seq t1 Hin; apply elem_of_cons in Hin as [[= -> ->]|Hin]; [done|].
  apply (IH (u32 (q + 1)) (u32_range _) Hl _ _ Hin).
Qed.

Lemma c_string_nonzero s : Forall (fun c => c <> 0) (c_string s).
Proof. induction s as [|c s IH]; [constructor|]; cbn; destruct (Z.eqb_spec c 0); by constructor. Qed.

Lemma c_string_incl (P : Z -> Prop) s : Forall P s -> Forall P (c_string s) /\ zlen (c_string s) <= zlen s.
Proof.
  induction 1 as [|c s Hc _ [IH1 IH2]]; [by split|]; cbn; rewrite zlen_cons; pose proof (zlen_nonneg s).
  destruct (c =? 0); [split; [constructor|change (zlen (@nil Z)) with 0; lia]|]; rewrite zlen_cons; split; [by constructor|lia].
Qed.

Lemma trim_end_incl (P : Z -> Prop) s : Forall P s -> Forall P (trim_end s).
Proof.
  intros Hs; unfold trim_end; apply Forall_rev; assert (Hr : Forall P (rev s)) by (by apply Forall_rev).
  induction Hr as [|c r Hc Hr IH]; [constructor|]; cbn; destruct (is_space c); [exact IH|by constructor].
Qed.

Lemma relay_token_ok d tok :
  bytes_ok d -> relay_token d = Some tok -> Forall (fun c => c <> 0) tok /\ bytes_ok tok /\ zlen tok <= IDR_RELAY_TOKEN_MAX.
Proof.
  intros Hd; unfold relay_token; destruct (_ || _) eqn:E; [done|]; intros [= <-]; bool_to_prop.
  destruct (c_string_incl byte_ok (trim_end d)) as [H1 H2]; [by apply trim_end_incl|].
  split_and!; [apply c_string_nonzero|done|lia].
Qed.

Lemma parse_idr tok :
  Forall (fun c => c <> 0) tok -> zlen tok <= IDR_RELAY_TOKEN_MAX ->
  parse_air_cmd AR8030_CHUNK_CODEC_CTRL (str_IDR ++ tok) = match tok with [] => Cmd_unknown | _ => Cmd_idr tok end.
Proof.
  unfold IDR_RELAY_TOKEN_MAX; intros Hz Hl; unfold parse_air_cmd, AR8030_CTRL_MAX_PAYLOAD; pose proof (zlen_nonneg tok).
  assert (Hlen : zlen (str_IDR ++ tok) = 4 + zlen tok) by (by rewrite zlen_app).
  rewrite (proj2 (Z.eqb_neq (zlen _) 0)), (proj2 (Z.leb_gt _ _)) by lia.
  change (negb (AR8030_CHUNK_CODEC_CTRL =? AR8030_CHUNK_CODEC_CTRL)) with false; cbn [orb].
  rewrite c_string_id by (apply Forall_app; split; [by repeat constructor|done]).
  assert (Hs : has_prefix str_SYNC (str_IDR ++ tok) = false) by (apply bool_decide_eq_false_2; done); rewrite Hs.
  assert (Hi : has_prefix str_IDR (str_IDR ++ tok) = true) by (by apply bool_decide_eq_true_2); rewrite Hi.
  change (zdrop 4 (str_IDR ++ tok)) with tok; by destruct tok.
Qed.

Lemma reply_keeps_number cs payload t4 : cs_seq (handle_air_ctrl cs payload t4) = cs_seq cs.
Proof.
  unfold handle_air_ctrl; destruct (parse_ground_ctrl payload) as [[[[? ?] ?] ?]|]; [|done]; unfold clock_sync_on_reply.
  repeat (match goal with |- context [if ?b then _ else _] => destruct b end; try done).
Qed.

Lemma replies_keep_number l : forall cs, cs_seq (fold_left (fun cs r => handle_air_ctrl cs r.1 r.2) l cs) = cs_seq cs.
Proof. induction l as [|r l IH]; intros cs; [done|]; cbn [fold_left]; by rewrite IH, reply_keeps_number. Qed.

Section delivered.
Context {W : Type} `{HE : RelayEnv W} `{HW : !RelayWire W} (cfg : relay_cfg).
(** The data socket is open and takes something of every write. *)
Hypothesis Hopen : forall w, 0 <= (relay_sockfd w).1.
Hypothesis Htakes : forall fd b w, b <> [] -> 0 < (relay_write fd b w).1.

Definition same_ears (w w' : W) : Prop := heard w' = heard w /\ acked w' = acked w.

Lemma ctrl_loop_wire fuel fd buf : forall sent w,
  0 <= sent <= zlen buf -> zlen buf < 2 ^ 31 -> (Z.to_nat (zlen buf - sent) < fuel)%nat ->
  let '(ret, w') := ctrl_loop fuel fd buf sent w in
  ret = 0 /\ up_wire w' = up_wire w ++ zdrop sent buf /\ same_ears w w'.
Proof using HW Htakes.
  induction fuel as [|fuel IH]; intros sent w Hs Hl Hf; [lia|]; cbn [ctrl_loop].
  destruct (Z.ltb_spec sent (zlen buf)) as [Hlt|]; [|by rewrite zdrop_all, app_nil_r by lia].
  assert (Hne : zdrop sent buf <> []).
  { intros E; apply (f_equal zlen) in E; rewrite zlen_drop in E by lia; change (zlen (@nil Z)) with 0 in E; lia. }
  pose proof (Htakes fd _ w Hne) as Ht; pose proof (up_write fd (zdrop sent buf) w) as Hw.
  destruct (relay_write fd _ w) as [wr w1]; cbn [fst] in Ht; destruct Hw as (Hwr & Hw & Hh & Ha).
  rewrite zlen_drop in Hwr by lia; rewrite (proj2 (Z.leb_gt _ _)), u32_id by lia.
  specialize (IH (sent + wr) w1 ltac:(lia) Hl ltac:(lia)); destruct (ctrl_loop _ _ _ _ w1) as [ret w2].
  destruct IH as (-> & Hw2 & Hh2 & Ha2); split_and!; [done| |unfold same_ears; split; congruence].
  rewrite Hw2, Hw, <- app_assoc; f_equal; rewrite <- (zdrop_zdrop wr sent) by lia; apply ztake_drop.
Qed.

(** What a stretch of the thread's run did. *)
Record relayed (q q' : Z) (w w' : W) (cs : list chunk) (new : list (list Z)) : Prop := {
  rl_wire : up_wire w' = up_wire w ++ wire_bytes cs;
  rl_chunks : Forall chunk_ok cs;
  rl_heard : heard w' = heard w ++ new;
  rl_acked : acked w' = acked w ++ (ack_text <$> omap relay_token new);
  rl_idr : omap asks_idr (says <$> cs) = filter named (omap relay_token new);
  rl_time : numbered q (omap asks_time (says <$> cs)) q'
}.

Lemma relayed_none q w w' : up_wire w' = up_wire w -> same_ears w w' -> relayed q q w w' [] [].
Proof. intros H1 [H2 H3]; constructor; rewrite ?H1, ?H2, ?H3, ?app_nil_r; done. Qed.

Lemma relayed_app q q1 q2 w w1 w2 a b na nb :
  relayed q q1 w w1 a na -> relayed q1 q2 w1 w2 b nb -> relayed q q2 w w2 (a ++ b) (na ++ nb).
Proof.
  intros [A1 A2 A3 A4 A5 A6] [B1 B2 B3 B4 B5 B6]; constructor.
  - by rewrite B1, A1, wire_bytes_app, app_assoc.
  - by apply Forall_app.
  - by rewrite B3, A3, app_assoc.
  - by rewrite B4, A4, omap_app, fmap_app, app_assoc.
  - by rewrite fmap_app, !omap_app, list.filter_app, A5, B5.
  - rewrite fmap_app, omap_app; by eapply numbered_app.
Qed.

Lemma relay_send_wire payload s w :
  0 <= ry_seq s < 65536 -> bytes_ok payload -> 0 < zlen payload < AR8030_CTRL_MAX_PAYLOAD ->
  let '(s', w') := relay_send payload s w in
  0 <= ry_seq s' < 65536 /\ ry_sync s' = ry_sync s /\ same_ears w w' /\
  exists c, chunk_ok c /\ says c = parse_air_cmd AR8030_CHUNK_CODEC_CTRL payload /\ up_wire w' = up_wire w ++ chunk_bytes c.
Proof using HW Hopen Htakes.
  unfold AR8030_CTRL_MAX_PAYLOAD; intros Hs Hb Hl; unfold relay_send.
  destruct (chunk_frame_one (W := W) ctrl_send (ry_seq s) 0 AR8030_CHUNK_CODEC_CTRL 0 payload AR8030_CTRL_MAX_PAYLOAD
    (AR8030_CHUNK_HDR_SIZE + AR8030_CTRL_MAX_PAYLOAD) w) as (c & Hc & Hd & Hco & ->); try done;
    unfold AR8030_CHUNK_HDR_SIZE, AR8030_CTRL_MAX_PAYLOAD, AR8030_CHUNK_MAX_PAYLOAD; try lia.
  assert (Hlen : zlen (chunk_bytes c) < 2 ^ 31) by (rewrite chunk_bytes_len, Hd; unfold AR8030_CHUNK_HDR_SIZE; lia).
  unfold ctrl_send; pose proof (up_fd w) as Hf; pose proof (Hopen w) as Ho; destruct (relay_sockfd w) as [fd w1].
  destruct Hf as (F1 & F2 & F3); cbn [fst] in Ho; rewrite (proj2 (Z.ltb_ge fd 0)) by done.
  pose proof (zlen_nonneg (chunk_bytes c)) as Hp.
  pose proof (ctrl_loop_wire (S (length (chunk_bytes c))) fd (chunk_bytes c) 0 w1 ltac:(lia) Hlen ltac:(unfold zlen; lia)) as Hw.
  destruct (ctrl_loop _ _ _ _ w1) as [ret w2]; destruct Hw as (-> & Hw & H2 & H3); rewrite zdrop_0 in Hw; cbn [fst snd ry_seq ry_sync].
  split_and!; [apply u16_range..|done|unfold same_ears; split; congruence|exists c]; split_and!; [done|unfold says; by rewrite Hco, Hd|congruence].
Qed.

Lemma relay_probe_wire s w :
  0 <= ry_seq s < 65536 -> 0 <= cs_seq (ry_sync s) < 2 ^ 32 ->
  let '(s', w') := relay_probe cfg s w in
  0 <= ry_seq s' < 65536 /\ 0 <= cs_seq (ry_sync s') < 2 ^ 32 /\
  exists cs, relayed (cs_seq (ry_sync s)) (cs_seq (ry_sync s')) w w' cs [].
Proof using HW Hopen Htakes.
  intros Hs Hq; unfold relay_probe; destruct (rc_sync cfg); [|split; [done|split; [done|exists []; by apply relayed_none]]].
  pose proof (up_now w) as Hn; destruct (relay_now_us w) as [now w1]; destruct Hn as (Hnow & N1 & N2 & N3).
  unfold clock_sync_due; destruct (_ || _); [|split; [done|split; [done|exists []; by apply relayed_none]]].
  set (cs1 := mk_cs _ _ _ _ _ _ _ _); pose proof (fmt_sync_fits (cs_seq (ry_sync s)) now Hq Hnow) as Hfit.
  pose proof (relay_send_wire (fmt_sync (cs_seq (ry_sync s)) now) (mk_relay (ry_seq s) cs1) w1 Hs) as Hw.
  destruct (relay_send _ _ w1) as [s2 w2]; destruct Hw as (S1 & S2 & [S3 S4] & c & Hc & Hsay & Hw2).
  { unfold fmt_sync; repeat (apply bytes_ok_app; split); try (apply fmt_hex_bytes; lia); repeat constructor; vm_compute; done. }
  { unfold AR8030_CTRL_MAX_PAYLOAD; lia. }
  rewrite S2; rewrite (parse_fmt_sync _ _ Hq Hnow) in Hsay; split; [done|split; [apply u32_range|exists [c]]].
  constructor; cbn [fmap list_fmap]; rewrite ?Hsay.
  - rewrite Hw2, N1; f_equal; unfold wire_bytes; cbn; by rewrite app_nil_r.
  - by constructor.
  - rewrite app_nil_r; congruence.
  - cbn; rewrite app_nil_r; congruence.
  - done.
  - exact (conj eq_refl (conj Hnow eq_refl)).
Qed.

Lemma relay_request_wire s w :
  0 <= ry_seq s < 65536 ->
  let '(s', w') := relay_request cfg s w in
  0 <= ry_seq s' < 65536 /\ ry_sync s' = ry_sync s /\
  exists cs new, relayed (cs_seq (ry_sync s)) (cs_seq (ry_sync s)) w w' cs new.
Proof using HW Hopen Htakes.
  intros Hs; unfold relay_request; pose proof (up_recv (rc_udp cfg) w) as Hr; destruct (relay_recv _ w) as [[d|] w1].
  2: { destruct Hr as (R1 & R2 & R3); split; [done|split; [done|exists [], []; by apply relayed_none]]. }
  destruct Hr as (R1 & R2 & Hb & R3); destruct (relay_token d) as [tok|] eqn:E.
  2: { split; [done|split; [done|]]; exists [], [d]; constructor; cbn; rewrite ?E, ?app_nil_r; done. }
  destruct (relay_token_ok d tok Hb E) as (Hz & Hb2 & Hlen); unfold IDR_RELAY_TOKEN_MAX in Hlen.
  pose proof (up_ack (ack_text tok) w1) as (K1 & K2 & K3).
  pose proof (relay_send_wire (str_IDR ++ tok) s (relay_ack (ack_text tok) w1) Hs) as Hw; pose proof (zlen_nonneg tok).
  assert (Hl : zlen (str_IDR ++ tok) = 4 + zlen tok) by (by rewrite zlen_app).
  destruct (relay_send _ s _) as [s2 w2]; destruct Hw as (S1 & S2 & [S3 S4] & c & Hc & Hsay & Hw2).
  { apply bytes_ok_app; split; [repeat constructor; vm_compute; done|done]. }
  { unfold AR8030_CTRL_MAX_PAYLOAD; lia. }
  rewrite (parse_idr tok Hz Hlen) in Hsay; split; [done|split; [done|]]; exists [c], [d]; constructor; cbn [fmap list_fmap]; rewrite ?Hsay.
  - rewrite Hw2, K1, R1; f_equal; unfold wire_bytes; cbn; by rewrite app_nil_r.
  - by constructor.
  - congruence.
  - rewrite S4, K3, R2; cbn; by rewrite E.
  - cbn; rewrite E; by destruct tok.
  - by destruct tok.
Qed.

Lemma relay_run_wire n arrived : forall s w,
  0 <= ry_seq s < 65536 -> 0 <= cs_seq (ry_sync s) < 2 ^ 32 ->
  let '(s', w') := relay_run cfg n arrived s w in
  exists cs new, relayed (cs_seq (ry_sync s)) (cs_seq (ry_sync s')) w w' cs new.
Proof using HW Hopen Htakes.
  induction n as [|n IH]; intros s w Hs Hq; cbn [relay_run]; [exists [], []; by apply relayed_none|].
  pose proof (up_stop w) as Hst; destruct (relay_stop w) as [stop w1]; destruct Hst as (T1 & T2 & T3).
  assert (H1 : relayed (cs_seq (ry_sync s)) (cs_seq (ry_sync s)) w w1 [] []) by (by apply relayed_none).
  destruct stop; [by exists [], []|]; unfold relay_turn.
  pose proof (relay_probe_wire s w1 Hs Hq) as Hp; destruct (relay_probe cfg s w1) as [s2 w2]; destruct Hp as (P1 & P2 & a & Ha).
  pose proof (relay_request_wire s2 w2 P1) as Hr; destruct (relay_request cfg s2 w2) as [s3 w3]; destruct Hr as (R1 & R2 & b & nb & Hb).
  set (s4 := mk_relay _ _); specialize (IH s4 w3 R1).
  assert (E4 : cs_seq (ry_sync s4) = cs_seq (ry_sync s2)) by (unfold s4; cbn [ry_sync]; by rewrite replies_keep_number, R2).
  rewrite E4 in IH; specialize (IH P2); destruct (relay_run cfg n arrived s4 w3) as [s5 w5]; destruct IH as (c & nc & Hc).
  exists ([] ++ a ++ b ++ c), ([] ++ [] ++ nb ++ nc); repeat (eapply relayed_app; [eassumption|]); done.
Qed.

(** C23. Nothing is lost on the way up, however the socket cuts the writes: what
    the ground's thread puts on the reverse channel is a row of whole chunks,
    and at the air unit's end these say exactly the keyframe requests the
    players sent, token by token in order, each answered to its sender, and
    time probes numbered without a gap.  The reply to a probe, stamped by the
    air unit's two threads, is taken by the ground as the exchange with those
    four times. *)
Theorem requests_reach_the_air n arrived s w :
  0 <= ry_seq s < 65536 -> 0 <= cs_seq (ry_sync s) < 2 ^ 32 ->
  let '(s', w') := relay_run cfg n arrived s w in
  exists cs new, up_wire w' = up_wire w ++ wire_bytes cs /\ Forall chunk_ok cs /\
    heard w' = heard w ++ new /\ acked w' = acked w ++ (ack_text <$> omap relay_token new) /\
    omap asks_idr (says <$> cs) = filter named (omap relay_token new) /\
    numbered (cs_seq (ry_sync s)) (omap asks_time (says <$> cs)) (cs_seq (ry_sync s')) /\
    forall c seq t1, c ∈ cs -> says c = Cmd_sync seq t1 ->
      forall payload t2 t3 d, 0 <= t2 < 2 ^ 64 -> 0 <= t3 < 2 ^ 64 -> item_payload payload (syncr_reply seq t1 t2) t3 = Some d ->
      forall est t4, handle_air_ctrl est d t4 = clock_sync_on_reply est t1 t2 t3 t4.
Proof using HW Hopen Htakes.
  intros Hs Hq; pose proof (relay_run_wire n arrived s w Hs Hq) as Hrun; destruct (relay_run cfg n arrived s w) as [s' w'].
  destruct Hrun as (cs & new & [R1 R2 R3 R4 R5 R6]); exists cs, new; do 6 (split; [done|]).
  intros c seq t1 Hin Hsay payload t2 t3 d H2 H3 Hd est t4.
  destruct (numbered_range _ _ _ Hq R6 seq t1) as [Hseq Ht1].
  { apply list_elem_of_omap; exists (Cmd_sync seq t1); split; [rewrite <- Hsay; by apply list_elem_of_fmap_2|done]. }
  unfold item_payload in Hd; cbn [oi_is_syncr syncr_reply oi_sync_seq oi_t1_us oi_t2_us] in Hd.
  destruct (Z.leb_spec AR8030_CTRL_MAX_PAYLOAD (zlen (fmt_syncr seq t1 t2 t3))) as [|Hfit]; [done|].
  destruct (_ || _); [done|]; injection Hd as <-; unfold handle_air_ctrl; by rewrite (parse_fmt_syncr seq t1 t2 t3).
Qed.
End delivered.

(** ** A concrete reverse channel: three bytes a write, a player that asks *)

Record demo_up := mk_up { du_wire : list Z; du_heard : list (list Z); du_acked : list (list Z); du_in : list (list Z); du_clock : Z }.

#[export] Instance up_env : RelayEnv demo_up := {
  relay_sockfd := fun w => (3, w);
  relay_write := fun _ b w =>
    let wr := Z.min 3 (zlen b) in (wr, mk_up (du_wire w ++ ztake wr b) (du_heard w) (du_acked w) (du_in w) (du_clock w));
  relay_now_us := fun w => (u64 (du_clock w), mk_up (du_wire w) (du_heard w) (du_acked w) (du_in w) (du_clock w + 60000));
  relay_recv := fun _ w =>
    match du_in w with
    | d :: l => if forallb (fun b => bool_decide (0 <= b < 256)) d
                then (Some d, mk_up (du_wire w) (du_heard w ++ [d]) (du_acked w) l (du_clock w)) else (None, w)
    | [] => (None, w)
    end;
  relay_ack := fun b w => mk_up (du_wire w) (du_heard w) (du_acked w ++ [b]) (du_in w) (du_clock w);
  relay_stop := fun w => (false, w)
}.

#[export] Program Instance up_relay : RelayWire demo_up := { up_wire := du_wire; heard := du_heard; acked := du_acked }.
Next Obligation. done. Qed.
Next Obligation. intros fd b w; cbn; split_and!; [lia|done..]. Qed.
Next Obligation. intros w; cbn; split; [apply u64_range|done]. Qed.
Next Obligation.
  intros on w; cbn; destruct (du_in w) as [|d l]; [done|]; destruct (forallb _ d) eqn:E; [|done]; cbn; split_and!; try done.
  apply Is_true_eq_left, forallb_True in E; eapply list.Forall_impl; [exact E|]; intros b Hb; by apply bool_decide_unpack in Hb.
Qed.
Next Obligation. done. Qed.
Next Obligation. done. Qed.

Lemma up_takes fd b (w : demo_up) : b <> [] -> 0 < (relay_write fd b w).1.
Proof. destruct b as [|x b]; [done|]; intros _; cbn; rewrite zlen_cons; pose proof (zlen_nonneg b); lia. Qed.

Lemma up_open (w : demo_up) : 0 <= (relay_sockfd w).1.
Proof. done. Qed.

Lemma requests_reach_the_air_witness :
  let w' := (relay_run (mk_relay_cfg true true) 4 (fun _ => []) (mk_relay 7 clock_sync_init)
               (mk_up [] [] [] [[97; 98; 99; 10]; [10]; replicate 20 65] 1000)).2 in
  exists cs new, du_wire w' = wire_bytes cs /\ du_heard w' = new /\
    omap asks_idr (says <$> cs) = filter named (omap relay_token new) /\ du_acked w' = ack_text <$> omap relay_token new /\
    new = [[97; 98; 99; 10]; [10]; replicate 20 65] /\ omap relay_token new = [[97; 98; 99]].
Proof.
  pose proof (requests_reach_the_air (mk_relay_cfg true true) up_open up_takes
    4 (fun _ => []) (mk_relay 7 clock_sync_init) (mk_up [] [] [] [[97; 98; 99; 10]; [10]; replicate 20 65] 1000)
    ltac:(cbn; lia) ltac:(cbn; lia)) as Hth.
  assert (E : du_heard (relay_run (mk_relay_cfg true true) 4 (fun _ => []) (mk_relay 7 clock_sync_init)
               (mk_up [] [] [] [[97; 98; 99; 10]; [10]; replicate 20 65] 1000)).2 = [[97; 98; 99; 10]; [10]; replicate 20 65])
    by (vm_compute; reflexivity).
  destruct (relay_run _ _ _ _ _) as [s' w']; destruct Hth as (cs & new & H1 & _ & H3 & H4 & H5 & _).
  cbn [snd up_wire heard acked up_relay du_wire du_heard du_acked app] in *; rewrite E in H3; exists cs, new; rewrite E.
  split_and!; try done; rewrite <- H3; vm_compute; reflexivity.
Defined.
