(* ===== verification/Monad.v ===== *)
(** A state monad for the parts of the program that thread a large state
    through many calls ([lifecycled], [tx/main.c]): stdpp's [mret] and [mbind]
    over [S -> A * S], with the two ways of reasoning the components use --
    [keeps R], every run relates the states before and after by [R], and
    [run_inv P], every run preserves [P]. *)

From S2P Require Import Prelude.

Definition M (S A : Type) : Type := S -> A * S.

#[export] Instance M_ret {S} : MRet (M S) := fun A (a : A) s => (a, s).
#[export] Instance M_bind {S} : MBind (M S) := fun A B (f : A -> M S B) (m : M S A) s => let '(a, s) := m s in f a s.

Section operations.
Context {S : Type}.

Definition get : M S S := fun s => (s, s).
Definition gets {A} (f : S -> A) : M S A := fun s => (f s, s).
Definition modify (f : S -> S) : M S unit := fun s => (tt, f s).
Definition when (c : bool) (m : M S unit) : M S unit := if c then m else mret tt.

(** The loop over a list, and a sequence of steps. *)
Fixpoint mfor {A} (f : A -> M S unit) (l : list A) : M S unit :=
  match l with
  | [] => mret tt
  | a :: l => f a ;; mfor f l
  end.
End operations.

(** ** Every run stays within a relation *)

Section keeps.
Context {S : Type}.

Definition keeps (R : S -> S -> Prop) {A} (m : M S A) : Prop := forall s, R s (m s).2.
Definition run_inv (P : S -> Prop) {A} (m : M S A) : Prop := forall s, P s -> P (m s).2.

Section relation.
Context (R : S -> S -> Prop) `{!PreOrder R}.
Context {A B : Type}.

Lemma keeps_ret (a : A) : keeps R (mret a).
Proof. by intros s. Qed.
Lemma keeps_bind (m : M S A) (f : A -> M S B) : keeps R m -> (forall a, keeps R (f a)) -> keeps R (m ≫= f).
Proof. intros Hm Hf s; specialize (Hm s); cbv [mbind M_bind]; destruct (m s) as [a s1]; etrans; [exact Hm|apply Hf]. Qed.
Lemma keeps_gets (f : S -> A) : keeps R (gets f).
Proof. by intros s. Qed.
Lemma keeps_modify (f : S -> S) : (forall s, R s (f s)) -> keeps R (modify f).
Proof. by intros H s. Qed.
Lemma keeps_when c (m : M S unit) : keeps R m -> keeps R (when c m).
Proof. destruct c; [done|by intros _ s]. Qed.
End relation.

Lemma keeps_get (R : S -> S -> Prop) `{!PreOrder R} : keeps R get.
Proof. by intros s. Qed.

Lemma keeps_mfor (R : S -> S -> Prop) `{!PreOrder R} {A} (f : A -> M S unit) l :
  (forall a, keeps R (f a)) -> keeps R (mfor f l).
Proof. intros Hf; induction l as [|a l IH]; [by intros s|]; by apply keeps_bind; [| |intros []]. Qed.

Lemma keeps_impl (R Q : S -> S -> Prop) {A} (m : M S A) : (forall s t, R s t -> Q s t) -> keeps R m -> keeps Q m.
Proof. intros H Hm s; apply H, Hm. Qed.

(** From states with [P] every run ends in one with [Q]. *)
Definition leads (P Q : S -> Prop) {A} (m : M S A) : Prop := forall s, P s -> Q (m s).2.

Lemma leads_bind (P Q R : S -> Prop) {A B} (m : M S A) (f : A -> M S B) :
  leads P Q m -> (forall a, leads Q R (f a)) -> leads P R (m ≫= f).
Proof. intros Hm Hf s Hs; specialize (Hm s Hs); cbv [mbind M_bind]; destruct (m s) as [a s1]; by apply Hf. Qed.

Section invariant.
Context (P : S -> Prop) {A B : Type}.

Lemma inv_ret (a : A) : run_inv P (mret a).
Proof. by intros s. Qed.
Lemma inv_bind (m : M S A) (f : A -> M S B) : run_inv P m -> (forall a, run_inv P (f a)) -> run_inv P (m ≫= f).
Proof. intros Hm Hf s Hs; specialize (Hm s Hs); cbv [mbind M_bind]; destruct (m s) as [a s1]; by apply Hf. Qed.
Lemma inv_gets (f : S -> A) : run_inv P (gets f).
Proof. by intros s. Qed.
Lemma inv_modify (f : S -> S) : (forall s, P s -> P (f s)) -> run_inv P (modify f).
Proof. by intros H s Hs; apply H. Qed.
Lemma inv_when c (m : M S unit) : run_inv P m -> run_inv P (when c m).
Proof. destruct c; [done|intros; by intros s]. Qed.
End invariant.

Lemma inv_mfor (P : S -> Prop) {A} (f : A -> M S unit) l : (forall a, run_inv P (f a)) -> run_inv P (mfor f l).
Proof. intros Hf; induction l as [|a l IH]; [by intros s|]; by apply inv_bind; [|intros []]. Qed.

(** The value of a bind that starts with a known step. *)
Lemma bind_eq {A B} (m : M S A) (f : A -> M S B) s a s' : m s = (a, s') -> (m ≫= f) s = f a s'.
Proof. intros E; cbv [mbind M_bind]; by rewrite E. Qed.
Lemma bind_run {A B} (m : M S A) (f : A -> M S B) s : (m ≫= f) s = f (m s).1 (m s).2.
Proof. cbv [mbind M_bind]; by destruct (m s). Qed.
End keeps.

(** ** What holds after a run

    [wp m Q s]: the run of [m] from [s] ends with a value and a state that [Q]
    holds of. *)

Section post.
Context {S A B : Type}.

Definition wp {A} (m : M S A) (Q : A -> S -> Prop) (s : S) : Prop := Q (m s).1 (m s).2.

Lemma wp_ret (a : A) (Q : A -> S -> Prop) s : Q a s -> wp (mret a) Q s.
Proof. done. Qed.
Lemma wp_bind (m : M S A) (f : A -> M S B) Q s : wp m (fun a => wp (f a) Q) s -> wp (m ≫= f) Q s.
Proof. unfold wp; by rewrite bind_run. Qed.
Lemma wp_mono (m : M S A) (P Q : A -> S -> Prop) s : wp m P s -> (forall a t, P a t -> Q a t) -> wp m Q s.
Proof. unfold wp; auto. Qed.
Lemma wp_when c (m : M S unit) Q s : (c = true -> wp m Q s) -> (c = false -> Q tt s) -> wp (when c m) Q s.
Proof. destruct c; intros H1 H2; [by apply H1|by apply H2]. Qed.
Lemma wp_run (m : M S A) (Q : A -> S -> Prop) s a t : m s = (a, t) -> wp m Q s -> Q a t.
Proof. unfold wp; by intros ->. Qed.
End post.

Lemma wp_mfor_app {S A} (f : A -> M S unit) l1 l2 Q s : wp (mfor f l1) (fun _ => wp (mfor f l2) Q) s -> wp (mfor f (l1 ++ l2)) Q s.
Proof.
  revert s; induction l1 as [|a l1 IH]; intros s; [done|]; cbn [mfor app]; unfold wp; rewrite !bind_run; apply IH.
Qed.

(** ** A component's operation inside a larger state *)

Section lift.
Context {S W : Type} (proj : S -> W) (upd : W -> S -> S).

Definition lift {A} (m : M W A) : M S A := fun s => let '(a, w) := m (proj s) in (a, upd w s).

Lemma keeps_lift (R : S -> S -> Prop) {A} (m : M W A) : (forall s w, R s (upd w s)) -> keeps R (lift m).
Proof. intros H s; unfold lift; destruct (m (proj s)); apply H. Qed.
End lift.

(** Unfold the operation at the head of the goal. *)
Ltac term_head t := lazymatch t with ?f _ => term_head f | _ => t end.
Ltac unfold_op := match goal with |- keeps _ ?m => let h := term_head m in unfold h end.

(** Walk through an operation: sequencing, tests and matches. *)
Ltac keeps_walk leaf := repeat match goal with
  | |- keeps _ (mret _) => apply keeps_ret, _
  | |- keeps ?R (mbind ?f ?m) => apply (keeps_bind R m f); [|intros ?]
  | |- keeps _ (when _ _) => apply keeps_when; [apply _|]
  | |- keeps _ (if ?b then _ else _) => destruct b
  | |- keeps _ (let '(_, _) := ?x in _) => destruct x
  | |- keeps _ (match ?x with _ => _ end) => destruct x
  | |- keeps _ (mfor _ _) => apply (keeps_mfor _); intros ?
  | |- keeps _ (let _ := _ in _) => cbv zeta
  | |- keeps _ _ => leaf
  end.

Ltac inv_walk leaf := repeat match goal with
  | |- run_inv _ (mret _) => apply inv_ret
  | |- run_inv ?P (mbind ?f ?m) => apply (inv_bind P m f); [|intros ?]
  | |- run_inv _ (when _ _) => apply inv_when
  | |- run_inv _ (if ?b then _ else _) => destruct b
  | |- run_inv _ (let '(_, _) := ?x in _) => destruct x
  | |- run_inv _ (match ?x with _ => _ end) => destruct x
  | |- run_inv _ (let _ := _ in _) => cbv zeta
  | |- run_inv _ _ => leaf
  end.
Ltac unfold_inv_op := match goal with |- run_inv _ ?m => let h := term_head m in unfold h end.
