(* ===== verification/RingWait.v ===== *)
(** The blocking read of [third_party/waybeam_frame_ring/venc_frame_ring.h]:
    [venc_frame_ring_read_wait] against the end of
    [venc_frame_ring_commit_write], access by access, with the futex the two
    processes meet at.  [FrameRing] has the ring itself and interleaves the
    copying; here a read is one step, since the sleep depends on nothing of it
    but the indices. *)

From stdpp Require Import relations.
From S2P Require Import Prelude FrameRing.
#[local] Open Scope Z_scope.

(** ** The two stores and the wake-up at the end of a commit *)

Definition publish_index (m : ring_mem) : ring_mem := with_write_idx m (u64 (rl_write_idx (rm_prod m) + 1)).
Definition publish_seq (m : ring_mem) : ring_mem := with_futex_seq m (u32 (rl_futex_seq (rm_prod m) + 1)).

Lemma commit_publish_split m r : (commit_publish m r).1 = publish_seq (publish_index m).
Proof. done. Qed.

(** Where the producer is: outside, between [begin_write] (which loaded [rd])
    and the index, behind the index, behind the sequence number, and in
    [FUTEX_WAKE].  [seen] is [consumer_waiting] where it was loaded ahead of
    its turn. *)
Inductive notify_pc :=
  | N_idle
  | N_writing (rd : Z) (seen : option Z)
  | N_published (seen : option Z)
  | N_bumped (seen : option Z)
  | N_waking.

(** Where the consumer is inside [venc_frame_ring_read_wait].  [skipped]: the
    second read gave an entry up instead of finding the ring empty. *)
Inductive wait_pc :=
  | W_idle
  | W_first
  | W_seq
  | W_mark (seq : Z)
  | W_again (seq : Z)
  | W_unmark_found (data : list Z)
  | W_futex (seq : Z) (skipped : bool)
  | W_asleep (seq : Z) (skipped : bool)
  | W_unmark
  | W_last.

(** [ws_ret] is what the last call returned, [None] for -1; [ws_count] counts
    the entries published. *)
Record wsys := mk_wsys {
  ws_mem : ring_mem;
  ws_p : ring;
  ws_ppc : notify_pc;
  ws_c : ring;
  ws_cpc : wait_pc;
  ws_ret : option (list Z);
  ws_count : Z
}.

Definition ws_w (y : wsys) : Z := rl_write_idx (rm_prod (ws_mem y)).
Definition ws_rd (y : wsys) : Z := rl_read_idx (rm_cons (ws_mem y)).
Definition ws_seq (y : wsys) : Z := rl_futex_seq (rm_prod (ws_mem y)).
Definition ws_waiting (y : wsys) : Z := rl_consumer_waiting (rm_cons (ws_mem y)).

Definition to_cons (y : wsys) (m : ring_mem) (c : ring) (cpc : wait_pc) (ret : option (list Z)) : wsys :=
  mk_wsys m (ws_p y) (ws_ppc y) c cpc ret (ws_count y).
Definition to_prod (y : wsys) (m : ring_mem) (p : ring) (ppc : notify_pc) (cpc : wait_pc) (count : Z) : wsys :=
  mk_wsys m p ppc (ws_c y) cpc (ws_ret y) count.

(** The consumer's next access.  [FUTEX_WAIT] compares the word and goes to
    sleep in one; asleep it does nothing of its own. *)
Definition cons_next (buf_size timeout_ms : Z) (y : wsys) : wsys :=
  let m := ws_mem y in
  let go := to_cons y m (ws_c y) in
  let '(out, m1, c1) := venc_frame_ring_read m (ws_c y) buf_size in
  match ws_cpc y with
  | W_idle | W_asleep _ _ => y
  | W_first => match out with
               | Some d => to_cons y m1 c1 W_idle (Some d)
               | None => to_cons y m1 c1 W_seq (ws_ret y)
               end
  | W_seq => go (W_mark (ws_seq y)) (ws_ret y)
  | W_mark seq => to_cons y (with_waiting m 1) (ws_c y) (W_again seq) (ws_ret y)
  | W_again seq => match out with
                   | Some d => to_cons y m1 c1 (W_unmark_found d) (ws_ret y)
                   | None => to_cons y m1 c1 (W_futex seq (negb (ws_w y <=? ws_rd y))) (ws_ret y)
                   end
  | W_unmark_found d => to_cons y (with_waiting m 0) (ws_c y) W_idle (Some d)
  | W_futex seq skipped => if ws_seq y =? seq then go (W_asleep seq skipped) (ws_ret y) else go W_unmark (ws_ret y)
  | W_unmark => to_cons y (with_waiting m 0) (ws_c y) W_last (ws_ret y)
  | W_last => match out with
              | Some d => to_cons y m1 c1 W_idle (Some d)
              | None => if 0 <? timeout_ms then to_cons y m1 c1 W_idle None else to_cons y m1 c1 W_first (ws_ret y)
              end
  end.

(** The producer's next access at the end of a commit; [FUTEX_WAKE] takes a
    sleeper out of its wait. *)
Definition prod_next (y : wsys) : wsys :=
  let m := ws_mem y in
  match ws_ppc y with
  | N_idle => y
  | N_writing _ seen => to_prod y (publish_index m) (commit_publish m (ws_p y)).2 (N_published seen) (ws_cpc y) (ws_count y + 1)
  | N_published seen => to_prod y (publish_seq m) (ws_p y) (N_bumped seen) (ws_cpc y) (ws_count y)
  | N_bumped seen =>
      to_prod y m (ws_p y) (if default (ws_waiting y) seen =? 0 then N_idle else N_waking) (ws_cpc y) (ws_count y)
  | N_waking =>
      to_prod y m (ws_p y) N_idle (match ws_cpc y with W_asleep _ _ => W_unmark | pc => pc end) (ws_count y)
  end.

(** What the producer stores besides: slots and counters. *)
Definition quiet_store (m m' : ring_mem) : Prop :=
  rm_config m' = rm_config m /\ rm_cons m' = rm_cons m /\
  rl_write_idx (rm_prod m') = rl_write_idx (rm_prod m) /\ rl_futex_seq (rm_prod m') = rl_futex_seq (rm_prod m).

(** Every interleaving.  A sleep also ends by its timeout or a signal
    ([w_interrupted]).  [relaxed] lets the producer's load of
    [consumer_waiting], an [__ATOMIC_RELAXED] one, be made before the stores in
    front of it, which no [__ATOMIC_RELEASE] forbids. *)
Inductive wait_step (relaxed : bool) (buf_size timeout_ms : Z) : wsys -> wsys -> Prop :=
  | w_call y : ws_cpc y = W_idle ->
      wait_step relaxed buf_size timeout_ms y (to_cons y (ws_mem y) (ws_c y) W_first (ws_ret y))
  | w_consumer y : wait_step relaxed buf_size timeout_ms y (cons_next buf_size timeout_ms y)
  | w_interrupted y seq skipped : ws_cpc y = W_asleep seq skipped ->
      wait_step relaxed buf_size timeout_ms y (to_cons y (ws_mem y) (ws_c y) W_unmark (ws_ret y))
  | w_begin y : ws_ppc y = N_idle -> begin_check (ws_mem y) (ws_p y) (ws_rd y) = None ->
      wait_step relaxed buf_size timeout_ms y (to_prod y (ws_mem y) (ws_p y) (N_writing (ws_rd y) None) (ws_cpc y) (ws_count y))
  | w_quiet y m' p' : quiet_store (ws_mem y) m' ->
      wait_step relaxed buf_size timeout_ms y (to_prod y m' p' (ws_ppc y) (ws_cpc y) (ws_count y))
  | w_abort y rd seen : ws_ppc y = N_writing rd seen ->
      wait_step relaxed buf_size timeout_ms y
        (to_prod y (ws_mem y) (venc_frame_ring_abort_write (ws_p y)) N_idle (ws_cpc y) (ws_count y))
  | w_hoist y rd : relaxed = true -> ws_ppc y = N_writing rd None ->
      wait_step relaxed buf_size timeout_ms y
        (to_prod y (ws_mem y) (ws_p y) (N_writing rd (Some (ws_waiting y))) (ws_cpc y) (ws_count y))
  | w_commit y : wait_step relaxed buf_size timeout_ms y (prod_next y).

Definition wait_start (m : ring_mem) (p c : ring) : wsys := mk_wsys m p N_idle c W_idle None 0.

(** Inside the end of a commit, and that end run to the end. *)
Definition in_commit (pc : notify_pc) : bool := match pc with N_published _ | N_bumped _ | N_waking => true | _ => false end.
Definition commit_rest (y : wsys) : wsys := prod_next (prod_next (prod_next y)).

(** The accesses a call has left, with a timeout. *)
Definition wait_rank (pc : wait_pc) : nat :=
  match pc with
  | W_idle => 0 | W_first => 8 | W_seq => 7 | W_mark _ => 6 | W_again _ => 5 | W_unmark_found _ => 1
  | W_futex _ _ => 4 | W_asleep _ _ => 3 | W_unmark => 2 | W_last => 1
  end.

(** ** A read and the indices *)

Lemma read_cases m c buf_size out m1 c1 : venc_frame_ring_read m c buf_size = (out, m1, c1) ->
  (out = None /\ m1 = m /\ rl_write_idx (rm_prod m) <= rl_read_idx (rm_cons m)) \/
  (m1 = with_read_idx m (u64 (rl_read_idx (rm_cons m) + 1)) /\ rl_read_idx (rm_cons m) < rl_write_idx (rm_prod m)).
Proof.
  unfold venc_frame_ring_read; destruct (_ <=? _) eqn:E; bool_to_prop; [intros [= <- <- <-]; by left|].
  destruct (read_check _ _ _); intros [= <- <- <-]; right; split; done || lia.
Qed.

(** ** The invariant *)

Section wakeups.
Context (n buf_size timeout_ms : Z).
Hypothesis Hn : 0 < n <= 2 ^ 31.

(** The increments of the futex word so far. *)
Definition bumps (y : wsys) : Z := ws_count y - match ws_ppc y with N_published _ => 1 | _ => 0 end.

Definition unseen (pc : notify_pc) : Prop :=
  match pc with N_writing _ s | N_published s | N_bumped s => s = None | _ => True end.

Definition notify_ok (y : wsys) : Prop :=
  match ws_ppc y with N_writing rd _ => rd <= ws_rd y /\ ws_w y < rd + n | _ => True end.

(** [k] increments had been made when the word was loaded, and no more than
    one entry was read since. *)
Definition loaded (y : wsys) (seq : Z) (slack k : Z) : Prop := seq = u32 k /\ 0 <= k <= bumps y /\ ws_rd y <= k + slack.

Definition wait_ok (y : wsys) : Prop :=
  match ws_cpc y with
  | W_mark seq => exists k, loaded y seq 1 k
  | W_again seq => ws_waiting y = 1 /\ exists k, loaded y seq 1 k
  | W_futex seq skipped => ws_waiting y = 1 /\ exists k, loaded y seq 2 k /\
      (skipped = true \/ ws_w y <= ws_rd y \/ (exists s, ws_ppc y = N_published s) \/ k < bumps y)
  | W_asleep seq skipped => ws_waiting y = 1 /\ (skipped = true \/ ws_w y <= ws_rd y \/ in_commit (ws_ppc y) = true)
  | _ => True
  end.

Record wait_inv (y : wsys) : Prop := {
  wi_count : rl_slot_count (rm_config (ws_mem y)) = n;
  wi_w : ws_w y = ws_count y;
  wi_rd : 0 <= ws_rd y <= ws_w y /\ ws_w y <= ws_rd y + n;
  wi_seq : ws_seq y = u32 (bumps y) /\ 0 <= bumps y;
  wi_seen : unseen (ws_ppc y);
  wi_prod : notify_ok y;
  wi_cons : wait_ok y
}.

Lemma wait_step_count relaxed y y' : wait_step relaxed buf_size timeout_ms y y' -> ws_count y <= ws_count y'.
Proof.
  destruct 1; try (cbn; lia).
  - unfold cons_next; destruct (venc_frame_ring_read _ _ _) as [[out m1] c1].
    destruct (ws_cpc y), out; cbn; try lia; case_match; cbn; lia.
  - unfold prod_next; destruct (ws_ppc y); cbn; lia.
Qed.

Lemma loaded_mono y y' seq slack k :
  loaded y seq slack k -> bumps y <= bumps y' -> ws_rd y' = ws_rd y -> loaded y' seq slack k.
Proof. intros (-> & Hk & Hs) Hb Hr; split_and!; [done|lia..]. Qed.

(** Stores that leave the words of the protocol as they are. *)
Lemma wait_inv_prod y y' :
  wait_inv y -> ws_cpc y' = ws_cpc y -> rm_config (ws_mem y') = rm_config (ws_mem y) ->
  rm_cons (ws_mem y') = rm_cons (ws_mem y) -> ws_w y' = ws_count y' -> ws_count y <= ws_count y' ->
  ws_w y' <= ws_rd y + n -> ws_seq y' = u32 (bumps y') -> bumps y <= bumps y' -> unseen (ws_ppc y') -> notify_ok y' ->
  (in_commit (ws_ppc y) = true -> in_commit (ws_ppc y') = true \/ forall seq skipped, ws_cpc y <> W_asleep seq skipped) ->
  (ws_count y < ws_count y' -> exists s, ws_ppc y' = N_published s) ->
  (forall s, ws_ppc y = N_published s -> ws_ppc y' = ws_ppc y \/ bumps y < bumps y') ->
  wait_inv y'.
Proof.
  intros [Hc Hw Hrd [Hs Hb0] Hun Hp Hok] Epc Ecf Ecs Hw' Hcnt Hroom Hs' Hb Hun' Hp' Hcm Hpub Hbump.
  assert (Er : ws_rd y' = ws_rd y) by (unfold ws_rd; by rewrite Ecs).
  assert (Ew : ws_waiting y' = ws_waiting y) by (unfold ws_waiting; by rewrite Ecs).
  constructor; [by rewrite Ecf|done|lia| |done..|]; [split; [done|lia]|].
  unfold wait_ok in *; rewrite Epc, Ew, Er; destruct (ws_cpc y) as [| | |seq|seq|d|seq skipped|seq skipped| |]; try done.
  - destruct Hok as [k Hk]; exists k; by apply (loaded_mono y).
  - destruct Hok as (Hwt & k & Hk); split; [done|]; exists k; by apply (loaded_mono y).
  - destruct Hok as (Hwt & k & Hk & Hor); split; [done|]; exists k; split; [by apply (loaded_mono y)|].
    destruct Hor as [Ho|[Ho|[[s Ho]|Ho]]]; [by left| | |].
    + destruct (decide (ws_count y < ws_count y')) as [Hlt|]; [right; right; left; by apply Hpub|right; left; lia].
    + right; right; destruct (Hbump s Ho) as [->|Hlt]; [left; by exists s|right; destruct Hk; lia].
    + right; right; right; lia.
  - destruct Hok as (Hwt & Hor); split; [done|]; destruct Hor as [Ho|[Ho|Ho]]; [by left| |].
    + destruct (decide (ws_count y < ws_count y')) as [Hlt|]; [destruct (Hpub Hlt) as [s ->]; by right; right|right; left; lia].
    + right; right; destruct (Hcm Ho) as [|Hna]; [done|by destruct (Hna seq skipped)].
Qed.

Lemma begin_room y rd : wait_inv y -> ws_count y < 2 ^ 64 -> ws_rd y = rd ->
  begin_check (ws_mem y) (ws_p y) rd = None -> ws_w y < rd + n.
Proof.
  intros Hi Hlt <-; destruct Hi as [Hc Hw Hrd _ _ _ _]; unfold begin_check; rewrite Hc; fold (ws_w y).
  rewrite u64_id by lia; destruct (n <=? _) eqn:E; [done|]; bool_to_prop; lia.
Qed.

(** Between the words: the producer's steps that keep the sequence number and the index. *)
Lemma wait_inv_outside y m' p' ppc' :
  wait_inv y -> quiet_store (ws_mem y) m' -> unseen ppc' ->
  notify_ok (to_prod y m' p' ppc' (ws_cpc y) (ws_count y)) -> ppc' = ws_ppc y \/ in_commit (ws_ppc y) = false /\ in_commit ppc' = false ->
  wait_inv (to_prod y m' p' ppc' (ws_cpc y) (ws_count y)).
Proof.
  intros Hi (Ecf & Ecs & Ew & Es) Hun Hp Hpc; pose proof Hi as [Hc Hw Hrd [Hs Hb0] _ _ _].
  assert (Hb : bumps (to_prod y m' p' ppc' (ws_cpc y) (ws_count y)) = bumps y).
  { unfold bumps; cbn [ws_count ws_ppc to_prod]; destruct Hpc as [->|[H1 H2]]; [done|]; by destruct (ws_ppc y), ppc'. }
  apply (wait_inv_prod y); rewrite ?Hb; unfold ws_w, ws_seq in *; cbn [ws_cpc ws_mem ws_count ws_ppc to_prod]; try done; try lia; try congruence.
  - destruct Hpc as [->|[-> _]]; [by left|done].
  - intros s Es'; destruct Hpc as [->|[H1 _]]; [by left|by rewrite Es' in H1].
Qed.

Lemma prod_next_inv y : wait_inv y -> ws_count (prod_next y) < 2 ^ 64 -> wait_inv (prod_next y).
Proof.
  intros Hi Hlt; pose proof Hi as [Hc Hw Hrd [Hs Hb0] Hun Hp Hok].
  unfold prod_next in *; destruct (ws_ppc y) as [|rd seen|seen|seen|] eqn:Epc; [done|..]; cbn [unseen ws_count to_prod] in Hun, Hlt.
  - unfold notify_ok in Hp; rewrite Epc in Hp; unfold bumps in *; rewrite Epc in *.
    apply (wait_inv_prod y); unfold ws_w, ws_seq, bumps in *; cbn; rewrite ?Epc; try done; try lia.
    + rewrite Hw, u64_id; lia.
    + rewrite Hw, u64_id; lia.
    + rewrite Hs; f_equal; lia.
    + intros _; by exists seen.
  - unfold bumps in *; rewrite Epc in *; apply (wait_inv_prod y); unfold ws_w, ws_seq, bumps in *; cbn; rewrite ?Epc; try done; try lia.
    rewrite Hs; unfold u32; rewrite Zplus_mod_idemp_l; f_equal; lia.
  - subst seen; cbn [default]; unfold bumps in *; rewrite Epc in *.
    assert (Hcase : forall ppc', (ppc' = N_idle /\ ws_waiting y = 0 \/ ppc' = N_waking) -> wait_inv (to_prod y (ws_mem y) (ws_p y) ppc' (ws_cpc y) (ws_count y))).
    { intros ppc' Hpc; apply (wait_inv_prod y); unfold ws_w, ws_seq, bumps in *; cbn; rewrite ?Epc; try done; try lia;
        try (by destruct Hpc as [[-> _]| ->]).
      intros _; destruct Hpc as [[-> H0]| ->]; [right|by left]; intros seq skipped Ecp.
        unfold wait_ok in Hok; rewrite Ecp in Hok; destruct Hok as [H1 _]; congruence. }
    destruct (ws_waiting y =? 0) eqn:E; bool_to_prop; apply Hcase; [by left|by right].
  - constructor; cbn; unfold bumps in *; rewrite ?Epc in *; cbn; try done.
    unfold wait_ok in *; cbn; destruct (ws_cpc y) as [| | |seq|seq|d|seq skipped|seq skipped| |]; try done;
      unfold loaded, bumps in *; rewrite Epc in Hok; cbn; try done.
    destruct Hok as (H1 & k & Hk & Hor); split; [done|]; exists k; split; [done|].
    destruct Hor as [|[|[[s ?]|]]]; [by left|by right; left|done|by right; right; right].
Qed.

(** The consumer's steps keep every word but its own two. *)
Lemma wait_inv_cons y m c cpc ret :
  wait_inv y -> rm_config m = rm_config (ws_mem y) -> rm_prod m = rm_prod (ws_mem y) ->
  ws_rd y <= rl_read_idx (rm_cons m) <= ws_w y -> wait_ok (to_cons y m c cpc ret) -> wait_inv (to_cons y m c cpc ret).
Proof.
  intros [Hc Hw Hrd [Hs Hb0] Hun Hp _] Ecf Epr Hr Hok.
  constructor; unfold ws_w, ws_rd, ws_seq, bumps in *; cbn [ws_mem ws_ppc ws_count to_cons]; rewrite ?Ecf, ?Epr; try done; [lia|].
  unfold notify_ok, ws_w, ws_rd in *; cbn [ws_mem ws_ppc to_cons]; rewrite Epr; destruct (ws_ppc y); [done| |done..]; lia.
Qed.

Lemma cons_next_inv y : wait_inv y -> ws_count y < 2 ^ 64 -> wait_inv (cons_next buf_size timeout_ms y).
Proof.
  intros Hi Hlt; pose proof Hi as [Hc Hw Hrd [Hs Hb0] Hun Hp Hok]; unfold cons_next.
  destruct (venc_frame_ring_read (ws_mem y) (ws_c y) buf_size) as [[out m1] c1] eqn:Er.
  assert (Hm : rm_config m1 = rm_config (ws_mem y) /\ rm_prod m1 = rm_prod (ws_mem y) /\
    rl_consumer_waiting (rm_cons m1) = ws_waiting y /\ ws_rd y <= rl_read_idx (rm_cons m1) <= ws_w y /\
    (ws_w y <= ws_rd y /\ rl_read_idx (rm_cons m1) = ws_rd y \/ ws_rd y < ws_w y /\ rl_read_idx (rm_cons m1) = ws_rd y + 1)).
  { apply read_cases in Er as [(_ & -> & Hle)|(-> & Hr)]; fold (ws_rd y) (ws_w y) in *; [split_and!; try done; lia|].
    cbn; fold (ws_rd y); rewrite u64_id by lia; split_and!; try done; lia. }
  destruct Hm as (Ecf & Epr & Ewt & Hr & Hcase); clear Er.
  assert (Hle : ws_w y <= bumps y + 1) by (rewrite Hw; unfold bumps; destruct (ws_ppc y); lia).
  unfold wait_ok in Hok; destruct (ws_cpc y) as [| | |seq|seq|d|seq skipped|seq skipped| |] eqn:Ecp; try done;
    try (lazymatch goal with |- wait_inv (match out with _ => _ end) => destruct out as [d'|] end);
    try (apply wait_inv_cons; [done|done..|first [done|cbn; fold (ws_rd y); lia]|done]).
  - apply wait_inv_cons; [done|done..|first [done|cbn; fold (ws_rd y); lia]|].
    cbn; exists (bumps y); split_and!; unfold bumps, ws_rd in *; cbn; try done; lia.
  - apply wait_inv_cons; [done|done..|]; cbn; split; [etrans; [exact Ewt|apply Hok]|]; destruct Hok as (_ & k & -> & Hk & Hs1); exists k.
    unfold loaded, bumps, ws_rd, ws_w in *; cbn [ws_mem ws_ppc ws_count to_cons]; split_and!; try done; try lia.
    destruct Hcase as [[Hle1 ->]|[Hlt1 _]]; rewrite ?Epr; [by right; left|left].
    by rewrite (proj2 (Z.leb_gt _ _)) by lia.
  - destruct (ws_seq y =? seq) eqn:E; bool_to_prop; (apply wait_inv_cons; [done|done..|first [done|cbn; fold (ws_rd y); lia]|]); [|done].
    destruct Hok as (Hwt & k & (Hk & Hkb & Hks) & Hor); cbn; split; [done|]; destruct Hor as [|[|[[s Hn1]|Hlt1]]]; [by left|by right; left| |].
    { right; right; by rewrite Hn1. }
    exfalso; subst seq; assert (bumps y <= ws_count y) by (unfold bumps; destruct (ws_ppc y); lia).
    assert (Hu : u32 (bumps y) = u32 k) by congruence; unfold u32 in Hu; revert Hu Hn; eval_pow; intros; dlia.
  - case_match; (apply wait_inv_cons; [done|done..|first [done|cbn; fold (ws_rd y); lia]|done]).
Qed.

Lemma wait_step_inv y y' : wait_step false buf_size timeout_ms y y' -> wait_inv y -> ws_count y' < 2 ^ 64 -> wait_inv y'.
Proof.
  intros Hstep Hi Hlt; pose proof (wait_step_count _ _ _ Hstep) as Hcnt; pose proof Hi as [_ _ Hrd _ Hun Hp _].
  assert (Hq : quiet_store (ws_mem y) (ws_mem y)) by done.
  destruct Hstep as [y Hc|y|y seq skipped Hc|y Hn1 Hb|y m' p' Hm|y rd seen Hn1|y rd Hr Hn1|y]; try done.
  - apply wait_inv_cons; try done; fold (ws_rd y); lia.
  - by apply cons_next_inv; [|lia].
  - apply wait_inv_cons; try done; fold (ws_rd y); lia.
  - apply wait_inv_outside; try done; [|by rewrite Hn1; right].
    split; [reflexivity|]; exact (begin_room y _ Hi ltac:(lia) eq_refl Hb).
  - apply wait_inv_outside; try done; [|by left]; destruct Hm as (_ & Ecs & Ew & _); unfold notify_ok, ws_w, ws_rd in *.
    cbn [ws_ppc ws_mem to_prod]; by rewrite Ecs, Ew.
  - apply wait_inv_outside; try done; by rewrite Hn1; right.
  - by apply prod_next_inv.
Qed.

Lemma wait_inv_reachable y y' :
  rtc (wait_step false buf_size timeout_ms) y y' -> wait_inv y -> ws_count y' < 2 ^ 64 -> wait_inv y'.
Proof.
  induction 1 as [y|y y1 y2 Hs Hr IH]; intros Hi Hlt; [done|]; apply IH; [|done].
  apply (wait_step_inv y); [done..|].
  enough (ws_count y1 <= ws_count y2) by lia; clear -Hr.
  induction Hr as [|a b d Hs' _ IH']; [lia|]; apply wait_step_count in Hs'; lia.
Qed.
End wakeups.

(** The rest of a commit with a sleeper in front of it. *)
Lemma commit_rest_wakes y seq skipped :
  ws_cpc y = W_asleep seq skipped -> ws_waiting y = 1 -> unseen (ws_ppc y) -> in_commit (ws_ppc y) = true ->
  ws_cpc (commit_rest y) = W_unmark.
Proof.
  destruct y as [m p ppc c cpc ret cnt]; unfold ws_waiting; cbn [ws_cpc ws_mem ws_ppc]; intros -> Hw Hun Hin.
  unfold commit_rest; destruct ppc as [| |seen|seen|]; try done; cbn in Hun; subst;
    unfold prod_next, to_prod, ws_waiting; cbn; by rewrite ?Hw.
Qed.

(** Every access of a call brings it nearer to its end. *)
Lemma wait_call_ends buf_size timeout_ms y :
  0 < timeout_ms -> ws_cpc y <> W_idle -> (forall seq skipped, ws_cpc y <> W_asleep seq skipped) ->
  (wait_rank (ws_cpc (cons_next buf_size timeout_ms y)) < wait_rank (ws_cpc y))%nat.
Proof.
  intros Ht Hi Ha; unfold cons_next; destruct (venc_frame_ring_read _ _ _) as [[out m1] c1].
  rewrite (proj2 (Z.ltb_lt _ _)) by done.
  destruct (ws_cpc y) as [| | |seq|seq|d|seq skipped|seq skipped| |]; try done; try by destruct (Ha seq skipped).
  all: repeat case_match; cbn; lia.
Qed.

Lemma pow2_le_half n : is_power_of_2 n = true -> n < 2 ^ 32 -> 0 < n <= 2 ^ 31.
Proof.
  intros Hp Hlt; pose proof (n_pos n Hp); split; [done|]; destruct (n_pow n Hp Hlt) as (k & Hk & ->).
  apply Z.pow_le_mono_r; lia.
Qed.

Lemma create_seq n sz epoch m p : venc_frame_ring_create n sz epoch = Some (m, p) -> rl_futex_seq (rm_prod m) = 0.
Proof. unfold venc_frame_ring_create; destruct (_ || _ || _); [done|]; destruct (_ <? _); [done|]; by intros [= <- <-]. Qed.

(** ** No lost wake-up *)

(** C27. In every interleaving of a reader in [venc_frame_ring_read_wait] with
    a producer, a reader that sleeps has nothing to read, unless the producer is
    still inside the [commit_write] whose end wakes it, or the read in front of
    the sleep gave an entry up: the 32-bit futex word cannot come round unnoticed
    and the order of the accesses leaves no gap, taken as sequentially consistent
    ([wakeup_lost_when_relaxed] for the load that is not). *)
Theorem no_lost_wakeup n sz epoch buf_size timeout_ms m p c y seq skipped :
  venc_frame_ring_create n sz epoch = Some (m, p) -> n < 2 ^ 32 ->
  rtc (wait_step false buf_size timeout_ms) (wait_start m p c) y -> ws_count y < 2 ^ 64 ->
  ws_cpc y = W_asleep seq skipped ->
  skipped = true \/ ws_w y <= ws_rd y \/ in_commit (ws_ppc y) = true /\ ws_cpc (commit_rest y) = W_unmark.
Proof.
  intros Hcr Hn Hrtc Hlt Hpc; destruct (create_geometry _ _ _ _ _ Hcr) as (Hpow & _ & _ & _ & _ & [Hcnt _ _] & _ & Hw & Hrd).
  pose proof (create_seq _ _ _ _ _ Hcr) as Hseq; pose proof (pow2_le_half n Hpow Hn) as Hn31.
  assert (Hi : wait_inv n (wait_start m p c)).
  { constructor; unfold ws_w, ws_rd, ws_seq, bumps; cbn; rewrite ?Hw, ?Hrd, ?Hseq; done || lia. }
  apply (wait_inv_reachable n buf_size timeout_ms Hn31 _ _ Hrtc) in Hi; [|done].
  destruct Hi as [_ _ _ _ Hun _ Hok]; unfold wait_ok in Hok; rewrite Hpc in Hok; destruct Hok as (Hwt & [|[|Hin]]); [by left|by right; left|].
  right; right; split; [done|]; by apply (commit_rest_wakes y seq skipped).
Qed.

(** ** Runs *)

(** One step chosen: the consumer's next access or its call; a begin, an early
    load, the next access of a commit, or a slot's length stored. *)
Inductive move := Call | Access | Begin | Hoist | Commit | Put_length (idx len : Z).

Definition legal (relaxed : bool) (y : wsys) (mv : move) : bool :=
  match mv with
  | Call => match ws_cpc y with W_idle => true | _ => false end
  | Begin => match ws_ppc y, begin_check (ws_mem y) (ws_p y) (ws_rd y) with N_idle, None => true | _, _ => false end
  | Hoist => relaxed && match ws_ppc y with N_writing _ None => true | _ => false end
  | _ => true
  end.

Definition play (buf_size timeout_ms : Z) (y : wsys) (mv : move) : wsys :=
  match mv with
  | Call => to_cons y (ws_mem y) (ws_c y) W_first (ws_ret y)
  | Access => cons_next buf_size timeout_ms y
  | Begin => to_prod y (ws_mem y) (ws_p y) (N_writing (ws_rd y) None) (ws_cpc y) (ws_count y)
  | Hoist => match ws_ppc y with
             | N_writing rd _ => to_prod y (ws_mem y) (ws_p y) (N_writing rd (Some (ws_waiting y))) (ws_cpc y) (ws_count y)
             | _ => y
             end
  | Commit => prod_next y
  | Put_length idx len =>
      to_prod y (with_slot (ws_mem y) idx (mk_slot len (sl_data (venc_frame_ring_slot_at (ws_mem y) idx)))) (ws_p y)
        (ws_ppc y) (ws_cpc y) (ws_count y)
  end.

Fixpoint all_legal (relaxed : bool) (buf_size timeout_ms : Z) (y : wsys) (mvs : list move) : bool :=
  match mvs with
  | [] => true
  | mv :: mvs => legal relaxed y mv && all_legal relaxed buf_size timeout_ms (play buf_size timeout_ms y mv) mvs
  end.
Definition plays (buf_size timeout_ms : Z) (y : wsys) (mvs : list move) : wsys := fold_left (play buf_size timeout_ms) mvs y.

Lemma play_step relaxed buf_size timeout_ms y mv :
  legal relaxed y mv = true -> wait_step relaxed buf_size timeout_ms y (play buf_size timeout_ms y mv).
Proof.
  destruct mv as [| | | | |idx len]; cbn [legal play]; intros Hl.
  - destruct (ws_cpc y) eqn:E; try done; by apply w_call.
  - apply w_consumer.
  - destruct (ws_ppc y) eqn:E; try done; destruct (begin_check _ _ _) eqn:E2; [done|]; by apply w_begin.
  - apply andb_true_iff in Hl as [-> Hl]; destruct (ws_ppc y) as [|rd [|]| | |] eqn:E; try done; by apply w_hoist.
  - apply w_commit.
  - by apply w_quiet.
Qed.

Lemma plays_reach relaxed buf_size timeout_ms mvs y :
  all_legal relaxed buf_size timeout_ms y mvs = true ->
  rtc (wait_step relaxed buf_size timeout_ms) y (plays buf_size timeout_ms y mvs).
Proof.
  revert y; induction mvs as [|mv mvs IH]; intros y Hl; [done|]; apply andb_true_iff in Hl as [Hl1 Hl2].
  eapply rtc_l; [by apply play_step|]; by apply IH.
Qed.

#[local] Abbreviation demo_wait := (wait_start demo_mem demo_prod demo_cons).

(** A reader asleep on the empty ring, and a commit begun. *)
#[local] Abbreviation sleep_moves := [Call; Access; Access; Access; Access; Access; Begin; Commit].

Lemma no_lost_wakeup_witness :
  exists y, rtc (wait_step false 64 200) demo_wait y /\ ws_cpc y = W_asleep 0 false /\ ws_ppc y = N_published None /\
    (false = true \/ ws_w y <= ws_rd y \/ in_commit (ws_ppc y) = true /\ ws_cpc (commit_rest y) = W_unmark).
Proof.
  assert (E : (ws_cpc (plays 64 200 demo_wait sleep_moves) = W_asleep 0 false /\
               ws_ppc (plays 64 200 demo_wait sleep_moves) = N_published None /\
               ws_count (plays 64 200 demo_wait sleep_moves) = 1) /\ all_legal false 64 200 demo_wait sleep_moves = true)
    by (vm_compute; repeat split).
  destruct E as [E Hl]; pose proof (plays_reach false 64 200 sleep_moves demo_wait Hl) as Hr.
  destruct (plays 64 200 demo_wait sleep_moves) as [m p ppc c cpc ret cnt]; cbn [ws_cpc ws_ppc ws_count] in E.
  destruct E as (-> & -> & ->); eexists; split; [exact Hr|]; split; [reflexivity|]; split; [reflexivity|].
  apply (no_lost_wakeup 2 16 77 64 200 demo_mem demo_prod demo_cons _ 0 false demo_create ltac:(lia) Hr); cbn; [lia|reflexivity].
Defined.

(** With the relaxed load made first, the wake-up is lost: the reader sleeps
    until its timeout with an entry waiting and nobody to wake it. *)
Lemma wakeup_lost_when_relaxed :
  exists y, rtc (wait_step true 64 200) demo_wait y /\
    ws_cpc y = W_asleep 0 false /\ ws_ppc y = N_idle /\ ws_rd y < ws_w y.
Proof.
  exists (plays 64 200 demo_wait [Begin; Hoist; Call; Access; Access; Access; Access; Access; Commit; Commit; Commit]).
  split; [apply plays_reach; vm_compute; reflexivity|]; vm_compute; done.
Qed.

(** Two entries too long for the buffer in a row put the reader to sleep
    with the next one waiting. *)
Lemma sleeps_behind_long_entries :
  exists y, rtc (wait_step false 9 200) demo_wait y /\
    ws_cpc y = W_asleep 3 true /\ ws_ppc y = N_idle /\ ws_rd y < ws_w y.
Proof.
  exists (plays 9 200 demo_wait [Put_length 0 10; Begin; Commit; Commit; Commit; Put_length 1 10; Begin; Commit; Commit; Commit;
    Call; Access; Put_length 0 8; Begin; Commit; Commit; Commit; Access; Access; Access; Access]).
  split; [apply plays_reach; vm_compute; reflexivity|]; vm_compute; done.
Qed.
