(* ===== verification/TxMain.v ===== *)
(** [tx/main.c], the send loop: frames and slices off the shared-memory ring,
    through the chunker to the data socket, with the frame numbering, the
    delay estimate for the bitrate controller, the back-off, the health check
    and the reattach to a restarted encoder.  Printing aside, every statement
    of the loop is here. *)

From S2P Require Import Prelude Double ChunkHdr Chunker FrameRing Link Outq TxSend Monad.
#[local] Open Scope Z_scope.

Definition BACKOFF_AFTER_CONSECUTIVE_STALLS : Z := 5.
Definition BACKOFF_MS : Z := 50.
Definition DAEMON_HEALTH_CHECK_INTERVAL_S : double := dofZ 3.
Definition SOCKET_DEAD_AFTER_FRAMES : Z := 50.
Definition READ_WAIT_MS : Z := 200.

(** ** An entry of the ring *)

Definition VENC_FRAME_FLAG_IDR : Z := 0x01.
Definition VENC_FRAME_FLAG_GDR : Z := 0x02.
Definition VENC_FRAME_FLAG_ENHANCE : Z := 0x04.
Definition VENC_FRAME_FLAG_PARTIAL : Z := 0x10.

(** [VencFrameMeta]; what the loop does not read is left out. *)
Record frame_meta := mk_meta { fm_pts : Z; fm_flags : Z }.

Definition meta_of_bytes (b : list Z) : frame_meta := mk_meta (le_dec (ztake 4 b)) (byte_at b 5).

Definition meta_flag (m : frame_meta) (bit : Z) : bool := negb (Z.land (fm_flags m) bit =? 0).

Definition frame_flags_from_meta (m : frame_meta) : Z :=
  let flags := if meta_flag m VENC_FRAME_FLAG_IDR then AR8030_CHUNK_FLAG_IDR else 0 in
  let flags := if meta_flag m VENC_FRAME_FLAG_GDR then Z.lor flags AR8030_CHUNK_FLAG_GDR else flags in
  if meta_flag m VENC_FRAME_FLAG_ENHANCE then Z.lor flags AR8030_CHUNK_FLAG_ENHANCE else flags.

(** ** The loop's state *)

(** [struct { ... } sf], the frame being sent slice by slice. *)
Record slice_frame := mk_sf {
  sf_open : bool; sf_failed : bool; sf_pts : Z; sf_flags : Z; sf_next_idx : Z; sf_sent : Z; sf_entries : Z; sf_write_us : Z
}.
#[export] Instance eta_slice_frame : Eta slice_frame := fun s =>
  mk_sf (sf_open s) (sf_failed s) (sf_pts s) (sf_flags s) (sf_next_idx s) (sf_sent s) (sf_entries s) (sf_write_us s).
Definition sf_zero : slice_frame := mk_sf false false 0 0 0 0 0 0.

(** The [static] variables of the delay estimate. *)
Record delay_est := mk_delay { de_ewma_us : double; de_period_us : double; de_prev_pts : Z; de_period_off : Z }.
#[export] Instance eta_delay_est : Eta delay_est := fun s =>
  mk_delay (de_ewma_us s) (de_period_us s) (de_prev_pts s) (de_period_off s).
Definition delay_init : delay_est := mk_delay (dofZ 0) (dofZ 10000) 0 0.

(** The fields of [bc_cfg] the loop writes for the controller's thread; [bs_ring]
    says whether [bc_cfg.ring] is set. *)
Record bc_shared := mk_bs {
  bs_slot : Z; bs_ring : bool; bs_ring_generation : Z; bs_ring_flushed_ms : Z; bs_entries_per_frame : Z; bs_delay_us : Z;
  bs_last_tx_done_ms : Z
}.
#[export] Instance eta_bc_shared : Eta bc_shared := fun s =>
  mk_bs (bs_slot s) (bs_ring s) (bs_ring_generation s) (bs_ring_flushed_ms s) (bs_entries_per_frame s) (bs_delay_us s)
    (bs_last_tx_done_ms s).

Record tx_loop := mk_loop {
  tx_send : send_ctx; tx_frame_seq : Z; tx_sf : slice_frame; tx_entries_per_frame : Z; tx_delay : delay_est;
  tx_bc : bc_shared; tx_stalls : Z; tx_dead : Z; tx_last_health_s : double; tx_ring_id : Z * Z; tx_buf_size : Z; tx_link : link;
  tx_slot : Z
}.
#[export] Instance eta_tx_loop : Eta tx_loop := fun s =>
  mk_loop (tx_send s) (tx_frame_seq s) (tx_sf s) (tx_entries_per_frame s) (tx_delay s) (tx_bc s) (tx_stalls s) (tx_dead s)
    (tx_last_health_s s) (tx_ring_id s) (tx_buf_size s) (tx_link s) (tx_slot s).

#[export] Instance eta_tx_stats : Eta tx_stats := fun s =>
  mk_stats (frames_in s) (frames_complete s) (frames_incomplete s) (chunks_sent s) (chunks_failed s) (bytes_sent s)
    (write_us_sum s) (write_us_max s) (write_frames s) (age_at_send_us_sum s).

Record txst (W : Type) := mk_txst { T : tx_loop; Tw : W }.
Arguments mk_txst {W} T Tw.
Arguments T {W} _.
Arguments Tw {W} _.

(** What of the command line the loop uses. *)
Record tx_cfg := mk_tx_cfg {
  ring_name : list Z; tc_chunk_payload : Z; slot_was_auto : bool; tc_port : Z; pi_write_cost_ms : double
}.

(** [open_shm]: [shm_open] and [fstat] on a name, device and inode.  The
    mapped ring is read as it stands, the producer writing to it all the time;
    [ring_read_wait] is [venc_frame_ring_read_wait] ([FrameRing]'s read behind
    a futex wait), its result the bytes of an entry; [ring_attach] is
    [venc_frame_ring_attach] by name, its result the ring's slot size;
    [grow_buf] is [realloc]. *)
Class TxRing (W : Type) := {
  open_shm : list Z -> W -> option (Z * Z) * W;
  ring_mapped : W -> ring_mem * W;
  ring_store_read_idx : Z -> W -> W;
  ring_read_wait : Z -> Z -> W -> option (list Z) * W;
  ring_attach : list Z -> W -> option Z * W;
  ring_destroy : W -> W;
  grow_buf : Z -> W -> bool * W;
  now_monotonic_s : W -> double * W;
  set_g_stop : W -> W
}.

Section loop.
Context {W : Type} `{TxEnv W} `{LinkSdk W} `{TxRing W} (cfg : tx_cfg).

#[local] Abbreviation Mt := (M (txst W)).

Definition getT {A} (f : tx_loop -> A) : Mt A := fun s => (f (T s), s).
Definition updT (f : tx_loop -> tx_loop) : Mt unit := fun s => (tt, mk_txst (f (T s)) (Tw s)).
Definition env {A} (m : W -> A * W) : Mt A := lift Tw (fun w s => mk_txst (T s) w) m.
Definition env_ (f : W -> W) : Mt unit := env (fun w => (tt, f w)).
Definition now_us : Mt Z := env now_monotonic_us.

Definition upd_stats (f : tx_stats -> tx_stats) (x : tx_loop) : tx_loop := x <| tx_send := set_stats (f (sx_stats (tx_send x))) (tx_send x) |>.
Definition upd_bc (f : bc_shared -> bc_shared) (x : tx_loop) : tx_loop := x <| tx_bc := f (tx_bc x) |>.
Definition upd_sf (f : slice_frame -> slice_frame) (x : tx_loop) : tx_loop := x <| tx_sf := f (tx_sf x) |>.
Definition next_frame_seq (x : tx_loop) : tx_loop := x <| tx_frame_seq := u16 (tx_frame_seq x + 1) |>.

(** A function of the send path, on the state both threads through it. *)
Definition sending {A} (f : send_ctx * W -> A * (send_ctx * W)) : Mt A := fun s =>
  let '(a, (sc, w)) := f (tx_send (T s), Tw s) in (a, mk_txst ((T s) <| tx_send := sc |>) w).

(** ** One entry *)

(** An open frame without its end, when another frame's entry comes. *)
Definition drop_open_frame (meta : frame_meta) : Mt unit :=
  sf ← getT tx_sf;
  when (sf_open sf && negb (fm_pts meta =? sf_pts sf))
    (updT (fun x => upd_sf (fun sf => sf <| sf_open := false |>)
                      (next_frame_seq (upd_stats (fun s => s <| frames_incomplete := u64 (frames_incomplete s + 1) |>) x)))).

(** A frame's first write is about to start. *)
Definition begin_frame (meta : frame_meta) (write_start_us : Z) : Mt unit :=
  updT (fun x => upd_stats (fun s => s <| frames_in := u64 (frames_in s + 1) |>
                                      <| age_at_send_us_sum := u64 (age_at_send_us_sum s + u32 (u32 write_start_us - fm_pts meta)) |>) x) ;;
  updT (fun x => x <| tx_send := set_last_ret 0 (tx_send x) |>).

(** What ends a frame: chunks written and wanted, time spent writing. *)
Record sent_frame := mk_sent { sent_chunks : Z; expected_chunks : Z; sent_write_us : Z }.

(** One slice of a frame; [None]: more of it to come. *)
Definition send_slice (meta : frame_meta) (data : list Z) (write_start_us : Z) : Mt (option sent_frame) :=
  let partial := meta_flag meta VENC_FRAME_FLAG_PARTIAL in
  sf ← getT tx_sf;
  when (negb (sf_open sf))
    (updT (fun x => x <| tx_sf := mk_sf true false (fm_pts meta) (frame_flags_from_meta meta) 0 0 0 0 |>) ;;
     begin_frame meta write_start_us) ;;
  x ← getT id;
  let sf := tx_sf x in
  '(s, n) ← (if sf_failed sf then mret (0, None)
             else sending (ar8030_chunk_part (socket_cb (tc_chunk_payload cfg)) (tx_frame_seq x) (sf_flags sf)
                             AR8030_CHUNK_CODEC_H265 (fm_pts meta) data (tc_chunk_payload cfg) (sf_next_idx sf) (negb partial)
                             (AR8030_CHUNK_HDR_SIZE + tc_chunk_payload cfg)));
  let n := default 0 n in
  now ← now_us;
  updT (upd_sf (fun sf => mk_sf (sf_open sf) (sf_failed sf || (s <? 0) || negb (u32 s =? n)) (sf_pts sf) (sf_flags sf)
                            (u32 (sf_next_idx sf + n)) (if 0 <? s then u32 (sf_sent sf + s) else sf_sent sf)
                            (u32 (sf_entries sf + 1)) (u64 (sf_write_us sf + (now - write_start_us))))) ;;
  if partial then mret None
  else
    updT (upd_sf (fun sf => sf <| sf_open := false |>)) ;;
    sf ← getT tx_sf;
    updT (fun x => x <| tx_entries_per_frame := sf_entries sf |>) ;;
    mret (Some (mk_sent (s32 (sf_sent sf)) (sf_next_idx sf) (sf_write_us sf))).

Definition send_whole (meta : frame_meta) (data : list Z) (write_start_us : Z) : Mt sent_frame :=
  begin_frame meta write_start_us ;;
  seq ← getT tx_frame_seq;
  '(sent, n) ← sending (ar8030_chunk_frame (socket_cb (tc_chunk_payload cfg)) seq (frame_flags_from_meta meta) AR8030_CHUNK_CODEC_H265
                           (fm_pts meta) data (tc_chunk_payload cfg) (AR8030_CHUNK_HDR_SIZE + tc_chunk_payload cfg));
  now ← now_us;
  updT (fun x => x <| tx_entries_per_frame := 1 |>) ;;
  mret (mk_sent sent (default 0 n) (u64 (now - write_start_us))).

(** ** The delay estimate *)

(** The frame interval: smoothed, but a change that holds three frames is
    followed at once. *)
Definition frame_period (pts : Z) (d : delay_est) : delay_est :=
  let dpts := u32 (pts - de_prev_pts d) in
  let d1 :=
    if negb (de_prev_pts d =? 0) && (5000 <=? dpts) && (dpts <=? 50000) then
      if (dabs (dofZ dpts - de_period_us d) >? de_period_us d / dofZ 4)%D then
        if 3 <=? de_period_off d + 1 then d <| de_period_us := dofZ dpts |> <| de_period_off := 0 |>
        else d <| de_period_off := de_period_off d + 1 |>
      else d <| de_period_off := 0 |> <| de_period_us := (de_period_us d + (dofZ dpts - de_period_us d) / dofZ 16)%D |>
    else d in
  d1 <| de_prev_pts := pts |>.

(** The time of a frame's writes, a sliced frame's counted as one. *)
Definition link_write_us (entries : Z) (write_us : Z) : double :=
  let w_us := dofZ write_us in
  if 1 <? entries then
    let fixed_us := (dofZ (entries - 1) * pi_write_cost_ms cfg * dofZ 1000)%D in
    let floor_us := (w_us / dofZ entries)%D in
    if (w_us - fixed_us >? floor_us)%D then (w_us - fixed_us)%D else floor_us
  else w_us.

Definition delay_step (pts entries write_us used_slots : Z) (d : delay_est) : delay_est :=
  let d := frame_period pts d in
  let behind := used_slots / entries in
  let d_us := (dofZ behind * de_period_us d + link_write_us entries write_us)%D in
  d <| de_ewma_us := if deq (de_ewma_us d) (dofZ 0) then d_us else (de_ewma_us d + (d_us - de_ewma_us d) / dofZ 8)%D |>.

Definition update_delay (meta : frame_meta) (write_us write_end_us : Z) : Mt unit :=
  m ← env ring_mapped;
  updT (fun x => x <| tx_delay := delay_step (fm_pts meta) (tx_entries_per_frame x) write_us (fi_used_slots (venc_frame_ring_get_fill m))
                                    (tx_delay x) |>) ;;
  updT (fun x => upd_bc (fun b => b <| bs_delay_us := f2u32 (de_ewma_us (tx_delay x)) |> <| bs_last_tx_done_ms := write_end_us / 1000 |>) x).

(** ** A frame that has ended *)

Definition count_frame (f : sent_frame) (s : tx_stats) : tx_stats :=
  let s := s <| write_frames := u64 (write_frames s + 1) |> in
  let s := if write_us_max s <? sent_write_us f then s <| write_us_max := sent_write_us f |> else s in
  if (0 <=? sent_chunks f) && (u32 (sent_chunks f) =? expected_chunks f)
  then s <| frames_complete := u64 (frames_complete s + 1) |>
  else s <| frames_incomplete := u64 (frames_incomplete s + 1) |>.

(** A dead socket fails its first write with an error, frame after frame. *)
Definition note_dead (f : sent_frame) : Mt unit :=
  updT (fun x => if (sent_chunks f =? 0) && (sx_last_write_ret (tx_send x) <? 0) then x <| tx_dead := tx_dead x + 1 |>
                 else if 0 <? sent_chunks f then x <| tx_dead := 0 |> else x).

(** A saturated link takes not even a frame's first chunk. *)
Definition note_stall (f : sent_frame) : Mt unit :=
  if sent_chunks f =? 0 then
    updT (fun x => x <| tx_stalls := tx_stalls x + 1 |>) ;;
    n ← getT tx_stalls;
    when (BACKOFF_AFTER_CONSECUTIVE_STALLS <=? n)
      (env_ (usleep_ms BACKOFF_MS) ;; updT (fun x => x <| tx_stalls := 0 |>))
  else updT (fun x => x <| tx_stalls := 0 |>).

Definition finish_frame (meta : frame_meta) (f : sent_frame) : Mt unit :=
  updT (fun x => upd_bc (fun b => b <| bs_entries_per_frame := tx_entries_per_frame x |>) x) ;;
  write_end_us ← now_us;
  updT (upd_stats (fun s => s <| write_us_sum := u64 (write_us_sum s + sent_write_us f) |>)) ;;
  update_delay meta (sent_write_us f) write_end_us ;;
  updT (fun x => next_frame_seq (upd_stats (count_frame f) x)) ;;
  note_dead f ;;
  note_stall f.

(** The body of the loop for an entry of the ring, from the length check on. *)
Definition tx_entry (entry : list Z) : Mt unit :=
  if zlen entry <? VENC_FRAME_META_SIZE then mret tt
  else
    let meta := meta_of_bytes entry in
    let data := zdrop VENC_FRAME_META_SIZE entry in
    _ ← now_us;
    drop_open_frame meta ;;
    write_start_us ← now_us;
    sf ← getT tx_sf;
    if meta_flag meta VENC_FRAME_FLAG_PARTIAL || sf_open sf then
      f ← send_slice meta data write_start_us;
      match f with
      | Some f => finish_frame meta f
      | None => mret tt
      end
    else
      f ← send_whole meta data write_start_us;
      finish_frame meta f.

(** ** The rest of a turn *)

(** What queued up without a socket is dropped; the time it was, in ms. *)
Definition ring_flush : M W Z :=
  m ← ring_mapped;
  let rd := rl_read_idx (rm_cons m) in
  let wr := rl_write_idx (rm_prod m) in
  when (rd <? wr) (modify (ring_store_read_idx wr)) ;;
  now ← now_monotonic_us;
  mret (now / 1000).

Definition flush_ring : Mt unit :=
  ms ← env ring_flush;
  updT (upd_bc (fun b => b <| bs_ring_flushed_ms := ms |>)).

Definition stat_named_shm : W -> option (Z * Z) * W :=
  open_shm (ztake 255 (if byte_at (ring_name cfg) 0 =? 0x2f then ring_name cfg else 0x2f :: ring_name cfg)).

(** The identity to compare with, 0 and 0 if the name could not be looked up,
    and whether the name still leads there. *)
Definition ring_baseline (ident : option (Z * Z)) : Z * Z := default (0, 0) ident.
Definition ring_unchanged (cur : option (Z * Z)) (mine : Z * Z) : bool :=
  match cur with
  | None => false
  | Some (cur_dev, cur_ino) => negb (negb (cur_dev =? mine.1) || negb (cur_ino =? mine.2))
  end.

(** The ring's slot size; [Some None] when stopped first. *)
Fixpoint attach_loop (fuel : nat) : M W (option (option Z)) :=
  match fuel with
  | O => mret None
  | S fuel =>
      stop ← g_stop;
      if (stop : bool) then mret (Some None)
      else
        size ← ring_attach (ring_name cfg);
        match size with
        | Some size => mret (Some (Some size))
        | None => modify (usleep_ms RETRY_MS) ;; attach_loop fuel
        end
  end.

(** The encoder has made a new ring: [bc_cfg.ring] is cleared before the old
    one goes, and set again last. *)
Definition reattach (fuel : nat) : Mt turn :=
  updT (upd_bc (fun b => b <| bs_ring := false |>)) ;;
  env_ ring_destroy ;;
  size ← env (attach_loop fuel);
  match size with
  | None => mret Fuel_out
  | Some None => mret Leave
  | Some (Some size) =>
      ident ← env stat_named_shm;
      updT (fun x => x <| tx_ring_id := ring_baseline ident |>) ;;
      old ← getT tx_buf_size;
      (if size =? old then mret tt
       else
         grown ← env (grow_buf size);
         if (grown : bool) then updT (fun x => x <| tx_buf_size := size |>) else env_ set_g_stop) ;;
      updT (upd_bc (fun b => b <| bs_ring := true |> <| bs_ring_generation := u32 (bs_ring_generation b + 1) |>)) ;;
      mret Go_on
  end.

(** No entry within the wait: the queue goes on its own, and the name is
    looked up again. *)
Definition no_entry (fuel : nat) : Mt turn :=
  sending (fun s => (tt, flush_outq (tc_chunk_payload cfg) s.1 s.2)) ;;
  cur ← env stat_named_shm;
  mine ← getT tx_ring_id;
  if ring_unchanged cur mine then mret Go_on else reattach fuel.

Definition reconnect (fuel : nat) : Mt turn :=
  updT (fun x => x <| tx_dead := 0 |>) ;;
  x ← getT id;
  r ← env (fun w => match tx_reconnect fuel (tx_link x) (tx_slot x) (slot_was_auto cfg) (tc_port cfg) w with
                    | Some (r, w) => (Some r, w)
                    | None => (None, w)
                    end);
  match r with
  | None => mret Fuel_out
  | Some (Stopped l) => updT (fun x => x <| tx_link := l |>) ;; mret Leave
  | Some (Reopen_failed l) => updT (fun x => x <| tx_link := l |>) ;; env_ set_g_stop ;; mret Leave
  | Some (Reopened l slot) =>
      updT (fun x => upd_bc (fun b => b <| bs_slot := slot |>) (x <| tx_link := l |> <| tx_slot := slot |>)) ;;
      flush_ring ;;
      mret Go_on
  end.

Definition health_check (fuel : nat) : Mt turn :=
  now ← env now_monotonic_s;
  last ← getT tx_last_health_s;
  if (now - last >=? DAEMON_HEALTH_CHECK_INTERVAL_S)%D then
    updT (fun x => x <| tx_last_health_s := now |>) ;;
    dead ← getT tx_dead;
    l ← getT tx_link;
    alive ← (if SOCKET_DEAD_AFTER_FRAMES <=? dead then mret false else env (ar8030_link_is_alive l));
    if (alive : bool) then mret Go_on else reconnect fuel
  else mret Go_on.

Definition tx_turn (fuel : nat) : Mt turn :=
  stop ← env g_stop;
  if (stop : bool) then mret Leave
  else
    t ← health_check fuel;
    match t with
    | Go_on =>
        size ← getT tx_buf_size;
        entry ← env (ring_read_wait READ_WAIT_MS size);
        match entry with
        | Some entry => tx_entry entry ;; mret Go_on
        | None => no_entry fuel
        end
    | t => mret t
    end.

(** [n] turns, or fewer if one leaves the loop. *)
Fixpoint tx_turns (fuel n : nat) : Mt turn :=
  match n with
  | O => mret Go_on
  | S n =>
      t ← tx_turn fuel;
      match t with
      | Go_on => tx_turns fuel n
      | t => mret t
      end
  end.
End loop.

(** The state in front of the loop. *)
Definition tx_loop_init (l : link) (slot buf_size : Z) (ring_id : Z * Z) (now_s : double) (flushed_ms : Z) : tx_loop :=
  mk_loop sctx_init 0 sf_zero 1 delay_init (mk_bs slot true 0 flushed_ms 0 0 0) 0 0 now_s ring_id buf_size l slot.
