(* ===== verification/ShmRing.v ===== *)
(** The frame ring as a named shared-memory object: [venc_frame_ring_create],
    [venc_frame_ring_attach] and [venc_frame_ring_destroy] of
    [third_party/waybeam_frame_ring/venc_frame_ring.c] with the system calls
    they make, and how [tx/main.c] notices that the name leads to another ring. *)

From stdpp Require Import relations gmap.
From S2P Require Import Prelude Monad FrameRing Outq Link TxSend TxMain.
#[local] Open Scope Z_scope.

(** ** Shared memory

    An object has an inode number while a name, a mapping or a descriptor keeps
    it; then the number may be used again.  [ob_gen] tells objects apart that had
    the same number one after the other. *)
Record shm_obj := mk_obj { ob_gen : Z; ob_size : Z; ob_mem : ring_mem }.

(** [sw_mine] and [sw_fds]: the mappings and descriptors of this process,
    [sw_others] those of the others. *)
Record shm_world := mk_shm {
  sw_names : gmap (list Z) Z;
  sw_objs : gmap Z shm_obj;
  sw_next : Z;
  sw_mine : list Z;
  sw_fds : list Z;
  sw_others : list Z
}.

(** A number nothing keeps. *)
Definition fresh_ino (i : Z) (w : shm_world) : Prop :=
  map_Forall (fun _ j => j <> i) (sw_names w) /\ (i ∉ sw_mine w) /\ (i ∉ sw_fds w) /\ (i ∉ sw_others w).
#[export] Instance fresh_ino_dec i w : Decision (fresh_ino i w) := _.

Definition line0_zero : ring_line0 := mk_line0 0 0 0 0 0 0 0.
Definition zero_mem : ring_mem := mk_mem line0_zero (mk_line1 0 0 0 0 0 0) (mk_line2 0 0) [].

Definition with_names (f : gmap (list Z) Z -> gmap (list Z) Z) (w : shm_world) : shm_world :=
  mk_shm (f (sw_names w)) (sw_objs w) (sw_next w) (sw_mine w) (sw_fds w) (sw_others w).
Definition with_objs (f : gmap Z shm_obj -> gmap Z shm_obj) (w : shm_world) : shm_world :=
  mk_shm (sw_names w) (f (sw_objs w)) (sw_next w) (sw_mine w) (sw_fds w) (sw_others w).
Definition with_mine (f : list Z -> list Z) (w : shm_world) : shm_world :=
  mk_shm (sw_names w) (sw_objs w) (sw_next w) (f (sw_mine w)) (sw_fds w) (sw_others w).
Definition with_fds (f : list Z -> list Z) (w : shm_world) : shm_world :=
  mk_shm (sw_names w) (sw_objs w) (sw_next w) (sw_mine w) (f (sw_fds w)) (sw_others w).
Definition with_others (f : list Z -> list Z) (w : shm_world) : shm_world :=
  mk_shm (sw_names w) (sw_objs w) (sw_next w) (sw_mine w) (sw_fds w) (f (sw_others w)).

Fixpoint remove_one (i : Z) (l : list Z) : list Z :=
  match l with
  | [] => []
  | j :: l => if j =? i then l else j :: remove_one i l
  end.

(** The calls.  Their failures are answers of the system: a number for a new
    object, or [None]; [true] for a call that works. *)
Definition shm_unlink (name : list Z) : M shm_world unit := modify (with_names (delete name)).

Definition new_object (name : list Z) (i : Z) (w : shm_world) : shm_world :=
  mk_shm (<[name := i]> (sw_names w)) (<[i := mk_obj (sw_next w) 0 zero_mem]> (sw_objs w)) (sw_next w + 1)
    (sw_mine w) (sw_fds w) (sw_others w).

(** [shm_open] with [O_CREAT | O_EXCL]. *)
Definition shm_open_excl (name : list Z) (ino : option Z) : M shm_world (option Z) := fun w =>
  match ino, sw_names w !! name with
  | Some i, None =>
      if decide (fresh_ino i w) then (Some i, with_fds (cons i) (new_object name i w)) else (None, w)
  | _, _ => (None, w)
  end.

(** [shm_open] of what is there. *)
Definition shm_open (name : list Z) (ok : bool) : M shm_world (option Z) := fun w =>
  match sw_names w !! name with
  | Some i => if ok then (Some i, with_fds (cons i) w) else (None, w)
  | None => (None, w)
  end.

Definition on_object (i : Z) (f : shm_obj -> shm_obj) : M shm_world unit := modify (with_objs (alter f i)).
Definition store (i : Z) (f : ring_mem -> ring_mem) : M shm_world unit := on_object i (fun o => mk_obj (ob_gen o) (ob_size o) (f (ob_mem o))).

Definition ftruncate (i size : Z) (ok : bool) : M shm_world bool :=
  when ok (on_object i (fun o => mk_obj (ob_gen o) size (ob_mem o))) ;; mret ok.
Definition mmap (i : Z) (ok : bool) : M shm_world bool := when ok (modify (with_mine (cons i))) ;; mret ok.
Definition munmap (i : Z) : M shm_world unit := modify (with_mine (remove_one i)).
Definition close_shm (i : Z) : M shm_world unit := modify (with_fds (remove_one i)).

(** [snprintf] of the name, a slash in front of it, into 256 bytes. *)
Definition shm_path (shm_name : list Z) : list Z := ztake 255 (if byte_at shm_name 0 =? 0x2f then shm_name else 0x2f :: shm_name).

(** ** Create *)

(** The stores into the new mapping, in their order; the slots are laid out
    behind the header from the [memset] on. *)
Definition set_line0 (f : ring_line0 -> ring_line0) (m : ring_mem) : ring_mem :=
  mk_mem (f (rm_config m)) (rm_prod m) (rm_cons m) (rm_slots m).
Definition create_stores (slot_count slot_data_size epoch : Z) : list (ring_mem -> ring_mem) :=
  [ (fun _ => mk_mem line0_zero (mk_line1 0 0 0 0 0 0) (mk_line2 0 0)
                (replicate (Z.to_nat slot_count) (mk_slot 0 (replicate (Z.to_nat slot_data_size) 0))));
    set_line0 (fun l => mk_line0 VENC_FRAME_RING_MAGIC (rl_version l) (rl_slot_count l) (rl_slot_data_size l) (rl_total_size l) (rl_epoch l) (rl_init_complete l));
    set_line0 (fun l => mk_line0 (rl_magic l) VENC_FRAME_RING_VERSION (rl_slot_count l) (rl_slot_data_size l) (rl_total_size l) (rl_epoch l) (rl_init_complete l));
    set_line0 (fun l => mk_line0 (rl_magic l) (rl_version l) slot_count (rl_slot_data_size l) (rl_total_size l) (rl_epoch l) (rl_init_complete l));
    set_line0 (fun l => mk_line0 (rl_magic l) (rl_version l) (rl_slot_count l) slot_data_size (rl_total_size l) (rl_epoch l) (rl_init_complete l));
    set_line0 (fun l => mk_line0 (rl_magic l) (rl_version l) (rl_slot_count l) (rl_slot_data_size l)
                          (u32 (calc_total_size slot_count slot_data_size)) (rl_epoch l) (rl_init_complete l));
    set_line0 (fun l => mk_line0 (rl_magic l) (rl_version l) (rl_slot_count l) (rl_slot_data_size l) (rl_total_size l) epoch (rl_init_complete l));
    (fun m => with_full_drops m 0);
    (fun m => with_low_water m 0);
    (fun m => with_other_drops m 0);
    (fun m => let l := rm_prod m in
              mk_mem (rm_config m) (mk_line1 (rl_write_idx l) (rl_futex_seq l) VENC_FRAME_RING_HEALTH_MAGIC (rl_full_drops l)
                (rl_low_water_slots l) (rl_other_drops l)) (rm_cons m) (rm_slots m));
    set_line0 (fun l => mk_line0 (rl_magic l) (rl_version l) (rl_slot_count l) (rl_slot_data_size l) (rl_total_size l) (rl_epoch l) 1) ].

(** What the system answers, and the clock; [aa_others] is what the other
    processes do between two of an attach's calls, the same objects at hand. *)
Record create_answers := mk_ca { ca_ino : option Z; ca_truncate : bool; ca_map : bool; ca_calloc : bool; ca_epoch : Z }.
Record attach_answers := mk_aa {
  aa_open : bool; aa_read : bool; aa_fstat : bool; aa_map : bool; aa_calloc : bool; aa_others : nat -> shm_world -> shm_world
}.

(** [venc_frame_ring_t] with [hdr]'s object and [name]. *)
Record handle := mk_handle { hd_ring : ring; hd_ino : Z; hd_name : list Z }.

Definition shm_ring_create (shm_name : list Z) (slot_count slot_data_size : Z) (a : create_answers) : M shm_world (option handle) :=
  match venc_frame_ring_create slot_count slot_data_size (ca_epoch a) with
  | None => mret None
  | Some (_, r) =>
      if bool_decide (shm_name = []) then mret None
      else
        let total := calc_total_size slot_count slot_data_size in
        let name := shm_path shm_name in
        shm_unlink name ;;
        fd ← shm_open_excl name (ca_ino a);
        match fd with
        | None => mret None
        | Some i =>
            ok ← ftruncate i total (ca_truncate a);
            if negb ok then close_shm i ;; shm_unlink name ;; mret None
            else
              ok ← mmap i (ca_map a);
              close_shm i ;;
              if negb ok then shm_unlink name ;; mret None
              else
                mfor (store i) (create_stores slot_count slot_data_size (ca_epoch a)) ;;
                if negb (ca_calloc a) then munmap i ;; shm_unlink name ;; mret None
                else mret (Some (mk_handle r i name))
        end
  end.

(** ** Attach and destroy *)

Definition object_at (i : Z) : M shm_world shm_obj := gets (fun w => default (mk_obj 0 0 zero_mem) (sw_objs w !! i)).

Definition shm_ring_attach (shm_name : list Z) (a : attach_answers) : M shm_world (option handle) :=
  if bool_decide (shm_name = []) then mret None
  else
    let name := shm_path shm_name in
    fd ← shm_open name (aa_open a);
    match fd with
    | None => mret None
    | Some i =>
        modify (aa_others a 0) ;;
        o ← object_at i;
        let tmp := rm_config (ob_mem o) in
        if negb (aa_read a) || (ob_size o <? VENC_FRAME_RING_HDR_SIZE) then close_shm i ;; mret None
        else if negb (attach_header_ok tmp) then close_shm i ;; mret None
        else
          modify (aa_others a 1) ;;
          o ← object_at i;
          if negb (aa_fstat a) || negb (ob_size o =? attach_total tmp) then close_shm i ;; mret None
          else
            modify (aa_others a 2) ;;
            ok ← mmap i (aa_map a);
            close_shm i ;;
            if negb ok then mret None
            else
              modify (aa_others a 3) ;;
              o ← object_at i;
              match attach_mapped tmp (rm_config (ob_mem o)) with
              | None => munmap i ;; mret None
              | Some r => if negb (aa_calloc a) then munmap i ;; mret None else mret (Some (mk_handle r i name))
              end
    end.

Definition clear_init (m : ring_mem) : ring_mem :=
  set_line0 (fun l => mk_line0 (rl_magic l) (rl_version l) (rl_slot_count l) (rl_slot_data_size l) (rl_total_size l) (rl_epoch l) 0) m.

Definition shm_ring_destroy (h : handle) : M shm_world unit :=
  when (rg_is_owner (hd_ring h)) (store (hd_ino h) clear_init) ;;
  munmap (hd_ino h) ;;
  when (rg_is_owner (hd_ring h) && negb (byte_at (hd_name h) 0 =? 0)) (shm_unlink (hd_name h)).

(** ** A ring under construction is nobody's *)

Lemma attach_needs_init tmp size m : rl_init_complete tmp <> 1 -> venc_frame_ring_attach tmp size m = None.
Proof.
  intros H; unfold venc_frame_ring_attach, attach_header_ok; rewrite (proj2 (Z.eqb_neq (rl_init_complete tmp) 1) H).
  by rewrite !orb_true_r.
Qed.

Definition run_stores (fs : list (ring_mem -> ring_mem)) (m : ring_mem) : ring_mem := fold_left (fun m f => f m) fs m.

Lemma create_stores_done n sz epoch m m0 p :
  venc_frame_ring_create n sz epoch = Some (m, p) -> run_stores (create_stores n sz epoch) m0 = m.
Proof. unfold venc_frame_ring_create; destruct (_ || _ || _); [done|]; destruct (_ <? _); [done|]; by intros [= <- <-]. Qed.

Lemma half_made_refused n sz epoch k size :
  (k < length (create_stores n sz epoch))%nat ->
  let tmp := rm_config (run_stores (take k (create_stores n sz epoch)) zero_mem) in venc_frame_ring_attach tmp size tmp = None.
Proof. intros Hk; apply attach_needs_init; do 12 (destruct k as [|k]; [done|]); cbn in Hk; lia. Qed.

Lemma mfor_store i fs w :
  mfor (store i) fs w = (tt, with_objs (alter (fun o => mk_obj (ob_gen o) (ob_size o) (run_stores fs (ob_mem o))) i) w).
Proof.
  revert w; induction fs as [|f fs IH]; intros w; cbn [mfor].
  - destruct w as [nm ob nx mi fd ot]; unfold mret, M_ret, with_objs; cbn; do 2 f_equal.
    symmetry; apply alter_id; by intros [].
  - rewrite bind_run, IH; unfold store, on_object, modify, with_objs; cbn; do 2 f_equal.
    apply map_eq; intros j; destruct (decide (i = j)) as [<-|Hne]; [|by rewrite !lookup_alter_ne].
    rewrite !lookup_alter_eq; by destruct (sw_objs w !! i).
Qed.


(** ** The other processes

    What they do in between: names go, new objects come under free names and
    free numbers, objects are opened, written to and closed. *)
Inductive other_act : shm_world -> shm_world -> Prop :=
  | o_unlink name w : other_act w (with_names (delete name) w)
  | o_create name i w :
      sw_names w !! name = None -> fresh_ino i w -> other_act w (with_others (cons i) (new_object name i w))
  | o_open name i w : sw_names w !! name = Some i -> other_act w (with_others (cons i) w)
  | o_map i w : i ∈ sw_others w -> other_act w (with_others (cons i) w)
  | o_write i size f w : i ∈ sw_others w ->
      other_act w (with_objs (alter (fun o => mk_obj (ob_gen o) size (f (ob_mem o))) i) w)
  | o_close i w : other_act w (with_others (remove_one i) w).

(** The same object, whatever its contents. *)
Definition same_object (i : Z) (w w' : shm_world) : Prop := ob_gen <$> sw_objs w !! i = ob_gen <$> sw_objs w' !! i.

(** What this process holds. *)
Definition same_held (w w' : shm_world) : Prop := sw_mine w' = sw_mine w /\ sw_fds w' = sw_fds w.

Lemma others_held w w' : rtc other_act w w' -> same_held w w'.
Proof.
  unfold same_held; induction 1 as [w|w w1 w2 Hact _ [IH1 IH2]]; [done|]; rewrite IH1, IH2; by destruct Hact.
Qed.

Lemma other_act_keeps i w w' : other_act w w' -> i ∈ sw_mine w -> same_object i w w'.
Proof.
  unfold same_object; intros Hact Hi; destruct Hact as [name w|name j w Hnone (_ & Hm & _)|name j w Hs|j w Ho|j size f w Ho|j w]; try done.
  - cbn; rewrite lookup_insert_ne; [done|by intros ->].
  - cbn; destruct (decide (j = i)) as [->|Hne]; [|by rewrite lookup_alter_ne].
    rewrite lookup_alter_eq; by destruct (sw_objs w !! i).
Qed.

Lemma others_keep_object i w w' : rtc other_act w w' -> i ∈ sw_mine w -> same_object i w w'.
Proof.
  induction 1 as [w|w w1 w2 Hact _ IH]; intros Hi; [done|].
  pose proof (other_act_keeps i w w1 Hact Hi) as H1; destruct (others_held w w1 ltac:(by apply rtc_once)) as [Hm _].
  unfold same_object in *; rewrite H1; apply IH; by rewrite Hm.
Qed.

(** Between an attach's calls only the others run. *)
Definition only_others (a : attach_answers) : Prop := forall k w, rtc other_act w (aa_others a k w).

(** ** A ring's life, on its own *)

(** What a new ring leaves in the world. *)
Definition ring_made (name : list Z) (i : Z) (o : shm_obj) (w : shm_world) : shm_world :=
  mk_shm (<[name := i]> (sw_names w)) (<[i := o]> (sw_objs w)) (sw_next w + 1) (i :: sw_mine w) (sw_fds w) (sw_others w).

Lemma create_run shm_name n sz a w r w' :
  shm_ring_create shm_name n sz a w = (r, w') ->
  match r with
  | None => (w' = w \/ sw_names w' = delete (shm_path shm_name) (sw_names w)) /\ sw_mine w' = sw_mine w
  | Some h => exists m, venc_frame_ring_create n sz (ca_epoch a) = Some (m, hd_ring h) /\ hd_name h = shm_path shm_name /\
      fresh_ino (hd_ino h) (with_names (delete (shm_path shm_name)) w) /\
      w' = ring_made (shm_path shm_name) (hd_ino h) (mk_obj (sw_next w) (calc_total_size n sz) m)
             (with_names (delete (shm_path shm_name)) w)
  end /\ sw_fds w' = sw_fds w /\ sw_others w' = sw_others w.
Proof.
  unfold shm_ring_create; destruct (venc_frame_ring_create n sz (ca_epoch a)) as [[m p]|] eqn:Ec; cycle 1.
  { intros [= <- <-]; by split; [split; [left|]|]. }
  case_bool_decide as Hname; [intros [= <- <-]; by split; [split; [left|]|]|].
  set (nm := shm_path shm_name) in *; set (w0 := with_names (delete nm) w).
  rewrite (bind_eq (shm_unlink nm) _ w tt w0 eq_refl).
  assert (El : sw_names w0 !! nm = None) by apply lookup_delete_eq.
  destruct (shm_open_excl nm (ca_ino a) w0) as [fd w1] eqn:Eo; rewrite (bind_eq _ _ _ _ _ Eo).
  unfold shm_open_excl in Eo; rewrite El in Eo; destruct (ca_ino a) as [i|]; cycle 1.
  { injection Eo as <- <-; intros [= <- <-]; by split; [split; [right|]|]. }
  destruct (decide (fresh_ino i w0)) as [Hf|_]; injection Eo as <- <-; [|intros [= <- <-]; by split; [split; [right|]|]].
  assert (Hdel : delete nm (<[nm := i]> (sw_names w0)) = delete nm (sw_names w)).
  { rewrite delete_insert_eq; apply delete_delete_eq. }
  destruct (ca_truncate a); erewrite bind_eq by reflexivity; cbn [negb]; cycle 1.
  { erewrite !bind_eq by reflexivity; intros [= <- <-]; cbn; rewrite Z.eqb_refl; split; [split; [right|]|]; done. }
  destruct (ca_map a); do 2 (erewrite bind_eq by reflexivity); cbn [negb]; cycle 1.
  { erewrite bind_eq by reflexivity; intros [= <- <-]; cbn; rewrite Z.eqb_refl; split; [split; [right|]|]; done. }
  erewrite bind_eq by apply mfor_store; destruct (ca_calloc a); cbn [negb]; cycle 1.
  { erewrite !bind_eq by reflexivity; intros [= <- <-]; cbn; rewrite !Z.eqb_refl; split; [split; [right|]|]; done. }
  intros [= <- <-]; split; [|cbn; by rewrite Z.eqb_refl].
  exists m; split_and!; [done..|]; unfold ring_made, with_objs, with_fds, with_mine, new_object; cbn [sw_names sw_objs sw_next sw_mine sw_fds sw_others remove_one]; rewrite Z.eqb_refl; f_equal.
  rewrite !alter_insert_eq; cbn [ob_gen ob_size ob_mem]; do 2 f_equal; exact (create_stores_done n sz (ca_epoch a) m zero_mem p Ec).
Qed.

(** By its name, as the object it was mapped from. *)
Definition names_ring (w : shm_world) (h : handle) : Prop := sw_names w !! hd_name h = Some (hd_ino h).

Lemma attach_run shm_name a w r w' :
  only_others a -> shm_ring_attach shm_name a w = (r, w') ->
  match r with
  | None => same_held w w'
  | Some h => sw_mine w' = hd_ino h :: sw_mine w /\ sw_fds w' = sw_fds w /\ hd_name h = shm_path shm_name /\
      rg_is_owner (hd_ring h) = false /\
      exists tmp, attach_header_ok tmp = true /\
        attach_mapped tmp (rm_config (ob_mem (default (mk_obj 0 0 zero_mem) (sw_objs w' !! hd_ino h)))) = Some (hd_ring h)
  end.
Proof.
  intros Hoth; assert (Hh : forall k w0, same_held w0 (aa_others a k w0)) by (intros k w0; apply others_held, Hoth).
  unfold shm_ring_attach; case_bool_decide as Hname; [by intros [= <- <-]|]; set (nm := shm_path shm_name).
  destruct (shm_open nm (aa_open a) w) as [fd w0] eqn:Eo; rewrite (bind_eq _ _ _ _ _ Eo); unfold shm_open in Eo.
  destruct (sw_names w !! nm) as [i|] eqn:En; [|injection Eo as <- <-; by intros [= <- <-]].
  destruct (aa_open a); injection Eo as <- <-; [|by intros [= <- <-]].
  erewrite (bind_eq (modify _)) by reflexivity; erewrite (bind_eq (object_at i)) by reflexivity.
  destruct (Hh 0%nat (with_fds (cons i) w)) as [M0 F0]; set (w1 := aa_others a 0 _) in *; clearbody w1; cbn in M0, F0.
  assert (Hclose : forall w2, sw_mine w2 = sw_mine w -> sw_fds w2 = i :: sw_fds w -> same_held w (with_fds (remove_one i) w2)).
  { intros w2 Em Ef; unfold same_held; cbn; rewrite Em, Ef; cbn; by rewrite Z.eqb_refl. }
  set (tmp := rm_config _); destruct (_ || _); [erewrite bind_eq by reflexivity; intros [= <- <-]; by apply Hclose|].
  destruct (attach_header_ok tmp) eqn:Eh; cbn [negb]; [|erewrite bind_eq by reflexivity; intros [= <- <-]; by apply Hclose].
  clearbody tmp; erewrite (bind_eq (modify _)) by reflexivity; erewrite (bind_eq (object_at i)) by reflexivity.
  destruct (Hh 1%nat w1) as [M1 F1]; set (w2 := aa_others a 1 w1) in *; clearbody w2; rewrite M0 in M1; rewrite F0 in F1.
  destruct (_ || _); [erewrite bind_eq by reflexivity; intros [= <- <-]; by apply Hclose|].
  erewrite (bind_eq (modify _)) by reflexivity.
  destruct (Hh 2%nat w2) as [M2 F2]; set (w3 := aa_others a 2 w2) in *; clearbody w3; rewrite M1 in M2; rewrite F1 in F2.
  destruct (aa_map a); do 2 (erewrite bind_eq by reflexivity); cbn [negb]; [|intros [= <- <-]; by apply Hclose].
  erewrite (bind_eq (modify _)) by reflexivity; erewrite (bind_eq (object_at i)) by reflexivity.
  match goal with |- context [aa_others a 3 ?x] => destruct (Hh 3%nat x) as [M3 F3]; set (w4 := aa_others a 3 x) in * end; clearbody w4.
  cbn in M3, F3; rewrite M2 in M3; rewrite F2 in F3; cbn in F3; rewrite Z.eqb_refl in F3.
  assert (Hunmap : same_held w (with_mine (remove_one i) w4)) by (unfold same_held; cbn; rewrite M3, F3; cbn; by rewrite Z.eqb_refl).
  destruct (attach_mapped tmp _) as [r0|] eqn:Ea; [|erewrite bind_eq by reflexivity; by intros [= <- <-]].
  destruct (aa_calloc a); cbn [negb]; [|erewrite bind_eq by reflexivity; by intros [= <- <-]].
  intros [= <- <-]; cbn [hd_ino hd_ring hd_name]; split_and!; try done; [|by exists tmp].
  unfold attach_mapped in Ea; case_match; [done|]; by injection Ea as <-.
Qed.

Lemma destroy_run h w :
  (shm_ring_destroy h w).2 =
    let w1 := if rg_is_owner (hd_ring h) then (store (hd_ino h) clear_init w).2 else w in
    let w2 := with_mine (remove_one (hd_ino h)) w1 in
    if rg_is_owner (hd_ring h) && negb (byte_at (hd_name h) 0 =? 0) then with_names (delete (hd_name h)) w2 else w2.
Proof. unfold shm_ring_destroy; rewrite !bind_run; by destruct (rg_is_owner (hd_ring h)), (byte_at (hd_name h) 0 =? 0). Qed.

Lemma path_slash shm_name : byte_at (shm_path shm_name) 0 = 0x2f.
Proof.
  unfold shm_path; destruct (byte_at shm_name 0 =? 0x2f) eqn:E; [|done]; bool_to_prop; destruct shm_name; [done|exact E].
Qed.

(** All calls work, nobody else runs in between. *)
Definition attach_works : attach_answers := mk_aa true true true true true (fun _ w => w).

Lemma attach_parts tmp size m c : venc_frame_ring_attach tmp size m = Some c ->
  attach_header_ok tmp = true /\ size = attach_total tmp /\ attach_mapped tmp m = Some c.
Proof.
  unfold venc_frame_ring_attach; destruct (attach_header_ok tmp); [|done]; destruct (Z.eqb_spec size (attach_total tmp)); [|done]; done.
Qed.

(** C29. The ring is a named object: whatever the system answers, a creation
    that fails leaves no descriptor, no mapping and no new name; one that works leaves one
    mapping, and attaching by the name then maps that object with the slots in the
    same places; the owner's destroy gives the mapping and the name back, and no
    attach finds the ring any more.  An attach, whatever it is answered and
    whatever other processes do between its calls, leaves one mapping when it
    works, else nothing. *)
Theorem ring_life shm_name n sz a w r w1 :
  shm_ring_create shm_name n sz a w = (r, w1) -> n < 2 ^ 32 -> sz <= 2 ^ 32 - 12 ->
  (match r with
  | None => sw_mine w1 = sw_mine w /\ sw_fds w1 = sw_fds w /\
      (sw_names w1 = sw_names w \/ sw_names w1 = delete (shm_path shm_name) (sw_names w))
  | Some h =>
      sw_mine w1 = hd_ino h :: sw_mine w /\ sw_fds w1 = sw_fds w /\
      (exists h2, shm_ring_attach shm_name attach_works w1 = (Some h2, with_mine (cons (hd_ino h)) w1) /\ hd_ino h2 = hd_ino h /\
         rg_slot_data_size (hd_ring h2) = sz /\ forall i, slot_offset (hd_ring h2) i = slot_offset (hd_ring h) i) /\
      let w2 := (shm_ring_destroy h w1).2 in
      sw_mine w2 = sw_mine w /\ sw_fds w2 = sw_fds w /\ sw_names w2 = delete (shm_path shm_name) (sw_names w) /\
      forall aa, (shm_ring_attach shm_name aa w2).1 = None
  end) /\
  forall aa w2, only_others aa ->
    let '(r2, w3) := shm_ring_attach shm_name aa w2 in
    sw_mine w3 = from_option (fun h => [hd_ino h]) [] r2 ++ sw_mine w2 /\ sw_fds w3 = sw_fds w2.
Proof.
  intros Hc Hn Hsz; split; cycle 1.
  { intros aa w2 Hoth; destruct (shm_ring_attach shm_name aa w2) as [r2 w3] eqn:Ea; pose proof (attach_run _ _ _ _ _ Hoth Ea) as Hr.
    by destruct r2 as [h2|]; [destruct Hr as (? & ? & _)|]. }
  pose proof (create_run _ _ _ _ _ _ _ Hc) as (Hr & Hf & _); destruct r as [h|];
    [|destruct Hr as [[-> | Hr] Hm]; split_and!; by (left + right + idtac)].
  destruct Hr as (m & Ec & Hnm & _ & ->); destruct (ring_geometry _ _ _ _ _ Ec Hn Hsz) as (c & Hatt & Hcs & Hms & _ & Hoff & Hslots).
  assert (Hne : shm_name <> []) by (intros ->; unfold shm_ring_create in Hc; by rewrite Ec in Hc).
  assert (Hsize : rg_map_size (hd_ring h) = calc_total_size n sz /\ rg_is_owner (hd_ring h) = true).
  { pose proof (create_geometry _ _ _ _ _ Ec) as (_ & _ & Hlt & _); unfold venc_frame_ring_create in Ec.
    destruct (_ || _ || _); [done|]; destruct (_ <? _) in Ec; [done|]; injection Ec as _ Ep; rewrite <- Ep; cbn.
    split; [|done]; apply u32_id; pose proof (u64_range (VENC_FRAME_RING_HDR_SIZE + u64 (n * calc_slot_stride sz))) as Hu.
    unfold calc_total_size in *; lia. }
  destruct Hsize as (Hsize & Hown).
  assert (Hhdr : VENC_FRAME_RING_HDR_SIZE <= calc_total_size n sz).
  { pose proof (create_geometry _ _ _ _ _ Ec) as (Hp & Hmin & _); pose proof (n_pos n Hp); destruct (Hslots 0) as (H0 & H1 & H2); [lia|].
    unfold VENC_FRAME_META_SIZE in Hmin; lia. }
  split; [done|]; split; [done|]; split.
  - exists (mk_handle c (hd_ino h) (shm_path shm_name)); split; [|done].
    unfold shm_ring_attach; rewrite bool_decide_eq_false_2 by done; unfold attach_works, aa_open, aa_read, aa_fstat, aa_map, aa_calloc, aa_others.
    destruct (attach_parts _ _ _ _ Hatt) as (Hok & Htot & Hmap).
    erewrite (bind_eq (shm_open _ _)); cycle 1.
    { unfold shm_open; cbn [sw_names ring_made]; by rewrite lookup_insert_eq. }
    cbv beta iota; do 2 (erewrite bind_eq by reflexivity); cbn [sw_objs with_fds ring_made]; rewrite lookup_insert_eq; cbn [default id ob_size ob_mem].
    rewrite (proj2 (Z.ltb_ge _ _)) by done; cbn [orb negb]; rewrite Hok; cbn [negb].
    do 2 (erewrite bind_eq by reflexivity); cbn [sw_objs with_fds ring_made]; rewrite lookup_insert_eq; cbn [default id ob_size ob_mem].
    rewrite <- Hsize, Htot, Z.eqb_refl; cbn [negb orb].
    do 3 (erewrite bind_eq by reflexivity); cbn [negb]; do 2 (erewrite bind_eq by reflexivity); cbn [sw_objs with_fds with_mine ring_made]; rewrite lookup_insert_eq; cbn [default id ob_size ob_mem].
    rewrite Hmap; unfold mret, M_ret, with_fds, with_mine; cbn; by rewrite Z.eqb_refl.
  - cbv zeta; rewrite destroy_run, Hown, Hnm, path_slash; cbn; rewrite Z.eqb_refl, delete_insert_eq, delete_delete_eq; split_and!; [done..|].
    intros aa; unfold shm_ring_attach; rewrite bool_decide_eq_false_2 by done; erewrite bind_eq; cycle 1.
    { unfold shm_open; cbn [sw_names with_names]; by rewrite lookup_delete_eq. }
    done.
Qed.

(** ** Noticing a restart *)

(** How the calls of a look at the name are answered. *)
Record stat_answers := mk_sa { sa_open : bool; sa_fstat : bool }.
Definition looked (a : stat_answers) : bool := sa_open a && sa_fstat a.

#[export] Instance names_ring_dec w h : Decision (names_ring w h) := decide_rel (=) (sw_names w !! hd_name h) (Some (hd_ino h)).

Section restart.
Context (shm_dev : Z) (rest : TxRing shm_world) (cfg : tx_cfg) {E : TxEnv shm_world} {L : LinkSdk shm_world}.

(** [shm_open], [fstat] and [close] of the name; every object is on the one
    file system. *)
Definition open_and_stat (a : stat_answers) (name : list Z) : M shm_world (option (Z * Z)) :=
  fd ← shm_open name (sa_open a);
  match fd with
  | None => mret None
  | Some i => close_shm i ;; if negb (sa_fstat a) then mret None else mret (Some (shm_dev, i))
  end.

(** [TxMain]'s interface with the name looked up here. *)
Definition tx_over_shm (a : stat_answers) : TxRing shm_world := {|
  open_shm := open_and_stat a;
  ring_mapped := @ring_mapped _ rest;
  ring_store_read_idx := @ring_store_read_idx _ rest;
  ring_read_wait := @ring_read_wait _ rest;
  ring_attach := @ring_attach _ rest;
  ring_destroy := @ring_destroy _ rest;
  grow_buf := @grow_buf _ rest;
  TxMain.now_monotonic_s := @TxMain.now_monotonic_s _ rest;
  set_g_stop := @set_g_stop _ rest
|}.

Definition tx_stat (a : stat_answers) : shm_world -> option (Z * Z) * shm_world := @stat_named_shm shm_world (tx_over_shm a) cfg.

Lemma tx_stat_run a w :
  tx_stat a w = (if looked a then (fun i => (shm_dev, i)) <$> sw_names w !! shm_path (ring_name cfg) else None, w).
Proof.
  unfold tx_stat, stat_named_shm; cbn [open_shm tx_over_shm]; fold (shm_path (ring_name cfg)); unfold open_and_stat, looked.
  rewrite bind_run; unfold shm_open; destruct (sw_names w !! _) as [i|]; [|by destruct (sa_open a && sa_fstat a)].
  destruct (sa_open a); [|done]; cbn [fst snd fmap option_fmap option_map andb].
  rewrite bind_run; unfold close_shm, modify, with_fds; cbn; rewrite Z.eqb_refl; by destruct w, (sa_fstat a).
Qed.

(** The identity kept and the name's later one agree exactly when both looks
    worked and the name leads to the ring. *)
Lemma unchanged_iff a1 a2 h w1 w2 : shm_dev <> 0 -> hd_name h = shm_path (ring_name cfg) -> names_ring w1 h ->
  ring_unchanged (tx_stat a2 w2).1 (ring_baseline (tx_stat a1 w1).1) = looked a1 && looked a2 && bool_decide (names_ring w2 h).
Proof.
  unfold names_ring; intros Hdev Hnm Hn; rewrite !tx_stat_run; cbn [fst]; rewrite Hnm in Hn; rewrite Hn.
  assert (Ht : forall P : Prop, forall D : Decision P, P -> true = @bool_decide P D) by (intros P D HP; by rewrite bool_decide_eq_true_2).
  assert (Hf : forall P : Prop, forall D : Decision P, ~ P -> false = @bool_decide P D) by (intros P D HP; by rewrite bool_decide_eq_false_2).
  destruct (looked a1), (looked a2), (sw_names w2 !! shm_path (ring_name cfg)) as [j|] eqn:Ej; try done;
    cbn [fmap option_fmap option_map andb ring_baseline default ring_unchanged fst snd id]; rewrite ?Z.eqb_refl; cbn [negb orb];
    rewrite ?negb_involutive.
  - destruct (Z.eqb_spec j (hd_ino h)) as [->|Hne]; [apply Ht|apply Hf]; congruence.
  - apply Hf; congruence.
  - by rewrite (proj2 (Z.eqb_neq shm_dev 0) Hdev).
Qed.

(** C28. The transmitter notices every restart of the encoder, and nothing
    else: with the identity of the ring taken while the name still led to the
    ring attached ([w1]; others may run before and after), the turn without an
    entry goes on exactly if the look that took the identity and this one
    worked and the name leads to the object that is mapped -- the very object,
    since its number cannot be given out again while it is mapped.  In every
    other case, a failing look among them, it attaches again.
    ([restart_missed] for a restart between the attach and the identity.) *)
Theorem restart_noticed a w h w0 w1 a1 a2 fuel s s1 :
  shm_dev <> 0 -> only_others a -> shm_ring_attach (ring_name cfg) a w = (Some h, w0) -> rtc other_act w0 w1 -> names_ring w1 h ->
  tx_ring_id (T s) = ring_baseline (tx_stat a1 w1).1 ->
  s1 = (sending (fun s => (tt, flush_outq (tc_chunk_payload cfg) s.1 s.2)) s).2 -> rtc other_act w1 (Tw s1) ->
  no_entry (H1 := tx_over_shm a2) cfg fuel s =
    (if looked a1 && looked a2 && bool_decide (names_ring (Tw s1) h) then (Go_on, s1)
     else reattach (H1 := tx_over_shm a2) cfg fuel s1) /\
  same_object (hd_ino h) w1 (Tw s1).
Proof.
  intros Hdev Hoth Ha Hr0 Hn Hid -> Hr; destruct (attach_run _ _ _ _ _ Hoth Ha) as (Hm & _ & Hnm & _); split.
  - rewrite <- (unchanged_iff a1 a2 h w1 _ Hdev Hnm Hn), <- Hid; unfold no_entry; rewrite bind_run; unfold sending.
    destruct (flush_outq _ _ _) as [sc w2]; cbn [fst snd T Tw]; rewrite bind_run; unfold env, lift; cbn [T Tw].
    change (stat_named_shm cfg w2) with (tx_stat a2 w2); rewrite tx_stat_run; cbn [fst snd]; rewrite bind_run; cbn [getT fst snd T].
    by destruct (ring_unchanged _ _).
  - apply (others_keep_object _ _ _ Hr); destruct (others_held _ _ Hr0) as [-> _]; rewrite Hm; apply list_elem_of_here.
Qed.
End restart.

(** ** Runs *)

(** Only the name is looked up. *)
Definition demo_rest : TxRing shm_world := {|
  open_shm := fun _ w => (None, w);
  ring_mapped := fun w => (demo_mem, w);
  ring_store_read_idx := fun _ w => w;
  ring_read_wait := fun _ _ w => (None, w);
  ring_attach := fun _ w => (None, w);
  ring_destroy := fun w => w;
  grow_buf := fun _ w => (false, w);
  TxMain.now_monotonic_s := fun w => (SpecFloat.S754_zero false, w);
  set_g_stop := fun w => w
|}.

Definition demo_name : list Z := [118].
Definition demo_tx : tx_cfg := mk_tx_cfg demo_name 40 false 0 (SpecFloat.S754_zero false).
Definition shm_empty : shm_world := mk_shm ∅ ∅ 0 [] [] [].
Definition demo_answers : create_answers := mk_ca (Some 7) true true true 77.

(** The encoder's ring, object 7, mapped by the encoder. *)
Definition demo_shm : shm_world :=
  mk_shm {[ [47; 118] := 7 ]} {[ 7 := mk_obj 0 240 demo_mem ]} 1 [] [] [7].
Definition demo_mapped : shm_world := with_mine (cons 7) demo_shm.
Definition demo_handle : handle := mk_handle demo_cons 7 [47; 118].

Lemma demo_attach : shm_ring_attach demo_name attach_works demo_shm = (Some demo_handle, demo_mapped).
Proof. vm_compute; reflexivity. Qed.

(** The encoder starts again: object 9 under the name. *)
Definition demo_gone : shm_world := with_names (delete [47; 118]) demo_mapped.
Definition demo_restarted : shm_world := with_others (cons 9) (new_object [47; 118] 9 demo_gone).

Lemma demo_restart : rtc other_act demo_mapped demo_restarted.
Proof.
  eapply rtc_l; [apply (o_unlink [47; 118])|]; apply rtc_once, o_create; [by vm_compute|].
  apply (bool_decide_unpack (fresh_ino 9 demo_gone)); vm_compute; exact I.
Qed.

(** The data socket takes everything, nothing is queued. *)
#[export] Instance shm_env : TxEnv shm_world := {|
  bb_socket_write := fun b w => (zlen b, w);
  now_monotonic_us := fun w => (0, w);
  TxSend.g_stop := fun w => (false, w);
  pushed := fun w => ([], w)
|}.
#[export] Instance shm_sdk : LinkSdk shm_world := {|
  bb_host_connect := fun w => (0, Some 1, w);
  bb_host_disconnect := fun _ w => w;
  bb_dev_getlist := fun _ w => ([1], w);
  bb_dev_open := fun _ w => (Some 1, w);
  bb_dev_freelist := fun _ w => w;
  bb_dev_close := fun _ w => w;
  bb_socket_open := fun _ _ _ w => (3, w);
  bb_socket_close := fun _ w => w;
  bb_get_status := fun _ w => (0, [true], w);
  bb_force_cls_socket := fun _ _ _ w => (0, w);
  bb_force_cls_socket_all := fun _ w => (0, w);
  stop_flag := fun w => (false, w);
  usleep_ms := fun _ w => w
|}.

Definition look_works : stat_answers := mk_sa true true.
Definition demo_turn (w : shm_world) : txst shm_world :=
  mk_txst (tx_loop_init (mk_link (Some 1) (Some 1) 3) 0 65536 (5, 7) (SpecFloat.S754_zero false) 0) w.

(** As long as the name is the ring's the loop goes on; behind the restart, or
    when [fstat] fails, it attaches again. *)
Lemma restart_noticed_witness :
  no_entry (H1 := tx_over_shm 5 demo_rest look_works) demo_tx 1 (demo_turn demo_mapped) = (Go_on, demo_turn demo_mapped) /\
  no_entry (H1 := tx_over_shm 5 demo_rest look_works) demo_tx 1 (demo_turn demo_restarted) =
    reattach (H1 := tx_over_shm 5 demo_rest look_works) demo_tx 1 (demo_turn demo_restarted) /\
  no_entry (H1 := tx_over_shm 5 demo_rest (mk_sa true false)) demo_tx 1 (demo_turn demo_mapped) =
    reattach (H1 := tx_over_shm 5 demo_rest (mk_sa true false)) demo_tx 1 (demo_turn demo_mapped) /\
  same_object 7 demo_mapped demo_restarted.
Proof.
  assert (Hth : forall a2 w2, rtc other_act demo_mapped w2 ->
    no_entry (H1 := tx_over_shm 5 demo_rest a2) demo_tx 1 (demo_turn w2) =
      (if looked look_works && looked a2 && bool_decide (names_ring w2 demo_handle) then (Go_on, demo_turn w2)
       else reattach (H1 := tx_over_shm 5 demo_rest a2) demo_tx 1 (demo_turn w2)) /\ same_object 7 demo_mapped w2).
  { intros a2 w2 Hr; apply (restart_noticed 5 demo_rest demo_tx attach_works demo_shm demo_handle demo_mapped demo_mapped look_works a2 1
      (demo_turn w2) (demo_turn w2)); try done; first [exact demo_attach|intros k w; apply rtc_refl]. }
  split; [exact (proj1 (Hth look_works _ (rtc_refl _ _)))|]; split; [exact (proj1 (Hth look_works _ demo_restart))|].
  split; [exact (proj1 (Hth (mk_sa true false) _ (rtc_refl _ _)))|exact (proj2 (Hth look_works _ demo_restart))].
Defined.

(** A restart between the attach and the look at the name goes unnoticed: the
    identity kept is the new ring's, every later check that finds it says
    "unchanged", and the ring that is mapped has no name any more. *)
Lemma restart_missed :
  exists h w1 w2,
    shm_ring_attach (ring_name demo_tx) attach_works demo_shm = (Some h, w1) /\ rtc other_act w1 w2 /\ ~ names_ring w2 h /\
    forall w3, sw_names w3 = sw_names w2 -> ~ names_ring w3 h /\
      ring_unchanged (tx_stat 5 demo_rest demo_tx look_works w3).1 (ring_baseline (tx_stat 5 demo_rest demo_tx look_works w2).1) = true.
Proof.
  exists demo_handle, demo_mapped, demo_restarted.
  split; [exact demo_attach|]; split; [exact demo_restart|]; split; [by vm_compute|].
  intros w3 Hn; unfold names_ring; rewrite !tx_stat_run, Hn; by vm_compute.
Qed.

(** The encoder takes its ring back while it is being attached: the header was
    fine when it was read and is not behind the mapping; the mapping is undone. *)
Definition taken_back : attach_answers := mk_aa true true true true true
  (fun k w => if (k =? 3)%nat && bool_decide (7 ∈ sw_others w)
              then with_objs (alter (fun o => mk_obj (ob_gen o) 240 (clear_init (ob_mem o))) 7) w else w).

Lemma taken_back_others : only_others taken_back.
Proof.
  intros k w; cbn [aa_others taken_back]; destruct (k =? 3)%nat; [|apply rtc_refl]; cbn [andb].
  case_bool_decide; [by apply rtc_once, o_write|apply rtc_refl].
Qed.

Example taken_back_undone :
  let '(r, w) := shm_ring_attach demo_name taken_back demo_shm in r = None /\ (sw_mine w, sw_fds w) = ([], []).
Proof. vm_compute; done. Qed.

Lemma ring_life_witness :
  exists h w1, shm_ring_create demo_name 2 16 demo_answers shm_empty = (Some h, w1) /\
    (sw_mine w1 = [hd_ino h] /\ sw_fds w1 = [] /\
    (exists h2, shm_ring_attach demo_name attach_works w1 = (Some h2, with_mine (cons (hd_ino h)) w1) /\ hd_ino h2 = hd_ino h /\
       rg_slot_data_size (hd_ring h2) = 16 /\ forall i, slot_offset (hd_ring h2) i = slot_offset (hd_ring h) i) /\
    let w2 := (shm_ring_destroy h w1).2 in
    sw_mine w2 = [] /\ sw_fds w2 = [] /\ sw_names w2 = delete (shm_path demo_name) (sw_names shm_empty) /\
    forall aa, (shm_ring_attach demo_name aa w2).1 = None) /\
    let '(r2, w3) := shm_ring_attach demo_name taken_back demo_shm in
    sw_mine w3 = from_option (fun h => [hd_ino h]) [] r2 ++ [] /\ sw_fds w3 = [].
Proof.
  destruct (shm_ring_create demo_name 2 16 demo_answers shm_empty) as [r w1] eqn:E.
  assert (Hs : bool_decide (is_Some (shm_ring_create demo_name 2 16 demo_answers shm_empty).1) = true) by (vm_compute; reflexivity).
  rewrite E in Hs; apply bool_decide_eq_true in Hs as [h Hs]; cbn [fst] in Hs; subst r.
  exists h, w1; split; [reflexivity|].
  destruct (ring_life demo_name 2 16 demo_answers shm_empty (Some h) w1 E ltac:(lia) ltac:(lia)) as [H1 H2].
  split; [exact H1|exact (H2 taken_back demo_shm taken_back_others)].
Defined.
