(* ===== verification/TxFrames.v ===== *)
(** The send loop of [tx/main.c]: its books balance whatever the socket, the
    encoder and the operating system do, and on a link that takes its writes
    every frame of the ring goes out as the chunks the ground expects. *)

From Stdlib Require Import SpecFloat.
From S2P Require Import Prelude Double ChunkHdr Chunker Reassembly FrameRing Link Outq TxSend Monad TxMain.
#[local] Open Scope Z_scope.

(** ** The send path keeps the frame counters *)

Definition frame_counts (s : tx_stats) : Z * Z * Z := (frames_in s, frames_complete s, frames_incomplete s).

Section counters.
Context {W : Type} `{TxEnv W} (chunk_payload : Z).

Lemma write_loop_stats fuel buf : forall sent sc (w : W), sx_stats (write_loop fuel buf sent sc w).1.2 = sx_stats sc.
Proof.
  induction fuel as [|fuel IH]; intros sent sc w; [done|]; cbn [write_loop].
  destruct (_ <? _); [|done]; destruct (g_stop w) as [[] w1]; [done|]; destruct (bb_socket_write _ _) as [wr w2].
  by destruct (wr <=? 0).
Qed.

Lemma stage_loop_stats fuel : forall sc (w : W), sx_stats (stage_loop chunk_payload fuel sc w).1 = sx_stats sc.
Proof.
  induction fuel as [|fuel IH]; intros sc w; [done|]; cbn [stage_loop].
  destruct (tx_outq_pop _) as [[item|] q]; [|done]; destruct (oi_is_syncr item); [destruct (now_monotonic_us w)|];
    (destruct (item_payload _ _ _); [destruct (ar8030_chunk_frame _ _ _ _ _ _ _ _ _) as [[? ?] ?]|]; by rewrite IH).
Qed.

Lemma stage_outq_stats sc (w : W) : sx_stats (stage_outq chunk_payload sc w).1 = sx_stats sc.
Proof. unfold stage_outq; destruct (pushed w); by rewrite stage_loop_stats. Qed.

Lemma flush_outq_stats sc (w : W) : sx_stats (flush_outq chunk_payload sc w).1 = sx_stats sc.
Proof.
  unfold flush_outq; pose proof (stage_outq_stats (set_combo [] sc) w) as Hs; destruct (stage_outq _ _ _) as [sc1 w1].
  destruct (sx_combo sc1) as [|b c]; [done|]; pose proof (write_loop_stats (S (length (b :: c))) (b :: c) 0 sc1 w1) as Hw.
  unfold write_all; destruct (write_loop _ _ _ _ _) as [[? sc2] w2]; cbn [fst snd] in *; cbn; by rewrite Hw, Hs.
Qed.

Lemma socket_cb_counts s b : frame_counts (sx_stats (socket_cb (W:=W) chunk_payload s b).2.1) = frame_counts (sx_stats s.1).
Proof.
  unfold socket_cb, chunk_send_to_socket; destruct s as [sc w]; cbn [fst snd].
  pose proof (stage_outq_stats (set_combo [] sc) w) as Hs; destruct (stage_outq _ _ _) as [sc1 w1]; cbn [fst] in Hs.
  change (sx_stats (set_combo [] sc)) with (sx_stats sc) in Hs.
  match goal with |- context [if ?c && ?d then ?x else ?y] => set (wr := if c && d then x else y) end.
  assert (Hw : sx_stats wr.1.2 = sx_stats sc).
  { subst wr; destruct (_ && _); [by rewrite <- Hs; apply write_loop_stats|].
    destruct (negb _).
    - pose proof (write_loop_stats (S (length (sx_combo sc1))) (sx_combo sc1) 0 sc1 w1) as H1; unfold write_all.
      destruct (write_loop _ (sx_combo sc1) 0 sc1 w1) as [[r sc2] w2]; cbn [fst snd] in H1.
      destruct (r =? 0); [rewrite write_loop_stats|cbn [fst snd]]; by rewrite H1.
    - change (0 =? 0) with true; cbv iota; unfold write_all; by rewrite write_loop_stats. }
  destruct wr as [[ret sc2] w2]; cbn [fst snd] in Hw; destruct (negb (ret =? 0)); cbn; by rewrite Hw.
Qed.
End counters.

(** ** Walking through the loop's operations *)

Section walk.
Context {W : Type}.
Implicit Types s : txst W.

Lemma wp_getT {A} (f : tx_loop -> A) Q s : Q (f (T s)) s -> wp (getT f) Q s.
Proof. done. Qed.
Lemma wp_updT f (Q : unit -> txst W -> Prop) s : Q tt (mk_txst (f (T s)) (Tw s)) -> wp (updT f) Q s.
Proof. done. Qed.
Lemma wp_env {A} (m : W -> A * W) Q s : (forall a w, Q a (mk_txst (T s) w)) -> wp (env m) Q s.
Proof. intros HQ; unfold wp, env, lift; destruct (m (Tw s)); apply HQ. Qed.
End walk.

Ltac tx_walk := repeat match goal with
  | |- wp (mret _) _ _ => apply wp_ret
  | |- wp (mbind _ _) _ _ => apply wp_bind
  | |- wp (when _ _) _ _ => apply wp_when; intros ?
  | |- wp (getT _) _ _ => apply wp_getT; cbv beta; cbn [T Tw]
  | |- wp (updT _) _ _ => apply wp_updT; cbn [T Tw]
  | |- wp (env _) _ _ => apply wp_env; intros; cbn [T Tw]
  | |- wp (env_ _) _ _ => unfold env_
  | |- wp now_us _ _ => unfold now_us
  end.

(** ** The books *)

(** [b] frames are counted in but neither complete nor incomplete yet; the
    loop has been round [k] times. *)
Record books (k b : Z) (x : tx_loop) : Prop := {
  bk_in : frames_in (sx_stats (tx_send x))
          = u64 (frames_complete (sx_stats (tx_send x)) + frames_incomplete (sx_stats (tx_send x)) + b);
  bk_seq : tx_frame_seq x = u16 (frames_complete (sx_stats (tx_send x)) + frames_incomplete (sx_stats (tx_send x)));
  bk_entries : 0 <= sf_entries (tx_sf x) <= k;
  bk_div : 1 <= tx_entries_per_frame x <= Z.max 1 k;
  bk_stalls : 0 <= tx_stalls x < BACKOFF_AFTER_CONSECUTIVE_STALLS
}.

Lemma u64_add_l a b : u64 (u64 a + b) = u64 (a + b).
Proof. unfold u64; by rewrite Zplus_mod_idemp_l. Qed.
Lemma u64_shift a b c : u64 (u64 (a + 1) + b + c) = u64 (a + b + (c + 1)).
Proof. unfold u64; rewrite <- (Z.add_assoc _ b c), Zplus_mod_idemp_l; apply (f_equal (fun z => z mod _)); lia. Qed.
Lemma u64_shift_r a b c : u64 (a + u64 (b + 1) + c) = u64 (a + b + (c + 1)).
Proof. rewrite (Z.add_comm a), u64_shift; apply (f_equal u64); lia. Qed.
Lemma u16_shift a b : u16 (u64 (a + 1) + b) = u16 (u16 (a + b) + 1).
Proof.
  unfold u16, u64; rewrite Zplus_mod, Z.mod_mod_divide, <- Zplus_mod, Zplus_mod_idemp_l by (by exists (2 ^ 48)).
  apply (f_equal (fun z => z mod _)); lia.
Qed.
Lemma u16_shift_r a b : u16 (a + u64 (b + 1)) = u16 (u16 (a + b) + 1).
Proof. rewrite (Z.add_comm a), u16_shift; by rewrite (Z.add_comm b). Qed.

Definition page (x : tx_loop) : Z * Z * Z * Z * Z * Z * Z :=
  (frame_counts (sx_stats (tx_send x)), tx_frame_seq x, sf_entries (tx_sf x), tx_entries_per_frame x, tx_stalls x).

Lemma books_page k b x y : page x = page y -> books k b x -> books k b y.
Proof.
  unfold page, frame_counts; intros [= E1 E2 E3 E4 E5 E6 E7] [? ? ? ? ?]; constructor; congruence.
Qed.

Lemma books_more k k' b x : k <= k' -> books k b x -> books k' b x.
Proof. intros Hk [? ? ? ? ?]; constructor; (done || lia). Qed.

Lemma wp_sending {W A} (f : send_ctx * W -> A * (send_ctx * W)) Q (s : txst W) :
  (forall t, frame_counts (sx_stats (f t).2.1) = frame_counts (sx_stats t.1)) ->
  (forall a sc w, frame_counts (sx_stats sc) = frame_counts (sx_stats (tx_send (T s))) ->
    Q a (mk_txst ((T s) <| tx_send := sc |>) w)) ->
  wp (sending f) Q s.
Proof.
  intros Hf HQ; unfold wp, sending; specialize (Hf (tx_send (T s), Tw s)); destruct (f _) as [a [sc w]]; by apply HQ.
Qed.

Section accounting.
Context {W : Type} `{TxEnv W} `{LinkSdk W} `{TxRing W} (cfg : tx_cfg).
Implicit Types s : txst W.

Definition balanced (k : Z) (s : txst W) : Prop := books k (bool_int (sf_open (tx_sf (T s)))) (T s).

Lemma drop_open_books meta k s :
  balanced k s -> wp (drop_open_frame meta) (fun _ t => balanced k t /\ (sf_open (tx_sf (T t)) = true -> sf_open (tx_sf (T s)) = true)) s.
Proof.
  intros Hb; unfold drop_open_frame; tx_walk; [|by split].
  split; [|done]; unfold balanced in *; destruct (sf_open (tx_sf (T s))); [|done]; destruct Hb as [B1 B2 B3 B4 B5].
  constructor; cbn in *; try done; [rewrite u64_shift_r; exact B1|by rewrite B2, u16_shift_r].
Qed.

Lemma begin_frame_books meta t0 k s :
  books k 0 (T s) -> wp (begin_frame meta t0) (fun _ t => books k 1 (T t) /\ tx_sf (T t) = tx_sf (T s)) s.
Proof.
  intros [B1 B2 B3 B4 B5]; unfold begin_frame; tx_walk; split; [|done]; constructor; cbn in *; try done.
  rewrite B1, Z.add_0_r; unfold u64; by rewrite Zplus_mod_idemp_l.
Qed.

Lemma part_counts p sq fl co pts data first fin cap (t : send_ctx * W) :
  frame_counts (sx_stats (ar8030_chunk_part (socket_cb p) sq fl co pts data p first fin cap t).2.1) = frame_counts (sx_stats t.1).
Proof.
  apply (chunk_part_keeps (socket_cb p) (fun u => frame_counts (sx_stats u.1) = frame_counts (sx_stats t.1))); [|done].
  intros u b Hu; by rewrite socket_cb_counts.
Qed.

Lemma frame_counts_kept p sq fl co pts data cap (t : send_ctx * W) :
  frame_counts (sx_stats (ar8030_chunk_frame (socket_cb p) sq fl co pts data p cap t).2.1) = frame_counts (sx_stats t.1).
Proof.
  apply (chunk_frame_keeps (socket_cb p) (fun u => frame_counts (sx_stats u.1) = frame_counts (sx_stats t.1))); [|done].
  intros u b Hu; by rewrite socket_cb_counts.
Qed.

(** A run of the chunker leaves all but the send path's state alone. *)
Definition sent_only s (t : txst W) : Prop :=
  frame_counts (sx_stats (tx_send (T t))) = frame_counts (sx_stats (tx_send (T s))) /\ T t = (T s) <| tx_send := tx_send (T t) |>.

Lemma sent_only_page s t : sent_only s t -> page (T s) = page (T t) /\ tx_sf (T t) = tx_sf (T s).
Proof. intros [E ->]; split; [|done]; unfold page; by rewrite <- E. Qed.

Lemma sent_only_refl s : sent_only s s.
Proof. by destruct s as [[] w]. Qed.

Lemma wp_sending_only {A} (f : send_ctx * W -> A * (send_ctx * W)) s :
  (forall t, frame_counts (sx_stats (f t).2.1) = frame_counts (sx_stats t.1)) -> wp (sending f) (fun _ => sent_only s) s.
Proof. intros Hf; by apply wp_sending. Qed.

Lemma send_slice_books meta data t0 k s :
  balanced k s -> 0 <= k < 2 ^ 32 - 1 ->
  wp (send_slice cfg meta data t0)
    (fun r t => books (k + 1) 1 (T t) /\ sf_open (tx_sf (T t)) = match r with Some _ => false | None => true end) s.
Proof.
  intros Hb Hk; unfold send_slice; apply wp_bind, wp_getT, wp_bind.
  apply (wp_mono _ (fun _ t => books k 1 (T t) /\ sf_open (tx_sf (T t)) = true)).
  { unfold balanced in Hb; apply wp_when; intros Ho; bool_to_prop; rewrite Ho in Hb; [|by split].
    apply wp_bind, wp_updT; eapply wp_mono; [apply begin_frame_books|intros [] t [Ht E]; by rewrite E].
    destruct Hb as [B1 B2 B3 B4 B5]; constructor; cbn; (done || lia). }
  intros [] s1 [Hb1 Ho1]; apply wp_bind, wp_getT, wp_bind; cbv beta zeta.
  apply (wp_mono _ (fun _ => sent_only s1)).
  { destruct (sf_failed _); [apply sent_only_refl|]; apply wp_sending_only; intros; apply part_counts. }
  intros [r n] s2 Hs2; destruct (sent_only_page _ _ Hs2) as [Hp Esf]; apply (books_page _ _ _ _ Hp) in Hb1.
  tx_walk; pose proof (bk_entries _ _ _ Hb1) as Hent; destruct (meta_flag meta _); tx_walk; unfold upd_sf; cbn;
    destruct Hb1 as [B1 B2 B3 B4 B5]; (split; [constructor; cbn; rewrite ?(u32_id (_ + 1)) by lia; (done || lia)|]);
    [by rewrite Esf|done].
Qed.

Lemma send_whole_books meta data t0 k s :
  books k 0 (T s) -> 0 <= k ->
  wp (send_whole cfg meta data t0) (fun _ t => books (k + 1) 1 (T t) /\ tx_sf (T t) = tx_sf (T s)) s.
Proof.
  intros Hb Hk; unfold send_whole; apply wp_bind; eapply wp_mono; [by apply begin_frame_books|].
  intros [] s1 [Hb1 E1]; cbv beta; apply wp_bind, wp_getT, wp_bind.
  apply (wp_mono _ (fun _ => sent_only s1)); [apply wp_sending_only; intros; apply frame_counts_kept|].
  intros [r n] s2 Hs2; destruct (sent_only_page _ _ Hs2) as [Hp Esf]; apply (books_page _ _ _ _ Hp) in Hb1.
  tx_walk; destruct Hb1 as [B1 B2 B3 B4 B5]; split; [constructor; cbn; (done || lia)|]; cbn; congruence.
Qed.

Lemma count_frame_books f k x :
  books k 1 x -> books k 0 (next_frame_seq (upd_stats (count_frame f) x)).
Proof.
  intros [B1 B2 B3 B4 B5]; unfold next_frame_seq, upd_stats, count_frame.
  constructor; cbn; try done; destruct (_ <? _), (_ && _); cbn;
    rewrite ?u64_shift, ?u64_shift_r, ?u16_shift, ?u16_shift_r; rewrite ?B2; try (rewrite B1; f_equal; lia); done.
Qed.

Lemma finish_frame_books meta f k s :
  books k 1 (T s) -> sf_open (tx_sf (T s)) = false -> wp (finish_frame cfg meta f) (fun _ => balanced k) s.
Proof.
  intros Hb Ho; unfold finish_frame, update_delay; tx_walk.
  match goal with |- wp _ _ ?t => assert (Ht : books k 0 (T t) /\ sf_open (tx_sf (T t)) = false) end.
  { cbn [T]; split; [|done]; apply count_frame_books; eapply books_page; [|exact Hb]; done. }
  match goal with |- wp _ _ ?t => generalize dependent t; intros s1 [Hb1 Ho1] end; unfold note_dead; tx_walk.
  match goal with |- wp _ _ ?t => assert (Ht : books k 0 (T t) /\ sf_open (tx_sf (T t)) = false) end.
  { cbn [T]; destruct (_ && _); [|destruct (0 <? _)]; split; try done; eapply books_page; try exact Hb1; done. }
  match goal with |- wp _ _ ?t => generalize dependent t; intros s2 [Hb2 Ho2] end; unfold note_stall.
  assert (Hst : forall n w, 0 <= n < BACKOFF_AFTER_CONSECUTIVE_STALLS -> balanced k (mk_txst ((T s2) <| tx_stalls := n |>) w)).
  { intros n wr Hn; unfold balanced; cbn; rewrite Ho2; destruct Hb2 as [B1 B2 B3 B4 B5]; by constructor. }
  pose proof (bk_stalls _ _ _ Hb2); destruct (sent_chunks f =? 0); tx_walk; cbn in *; bool_to_prop; try (apply Hst; unfold BACKOFF_AFTER_CONSECUTIVE_STALLS; lia).
  apply (Hst (tx_stalls (T s2) + 1)); lia.
Qed.

Lemma tx_entry_books entry k s :
  balanced k s -> 0 <= k < 2 ^ 32 - 1 -> wp (tx_entry cfg entry) (fun _ => balanced (k + 1)) s.
Proof.
  intros Hb Hk; unfold tx_entry; destruct (_ <? _); [apply wp_ret, (books_more k); [lia|exact Hb]|].
  tx_walk; eapply wp_mono; [by apply drop_open_books|]; intros [] s1 [Hb1 _]; cbv beta; tx_walk.
  destruct (meta_flag _ _ || _) eqn:E; apply wp_bind.
  - eapply wp_mono; [by apply send_slice_books|]; intros [f|] s2 [Hb2 Ho]; [by apply finish_frame_books|].
    apply wp_ret; unfold balanced; by rewrite Ho.
  - apply orb_false_iff in E as [_ Ho]; unfold balanced in Hb1; cbn [T tx_sf] in *; rewrite Ho in Hb1.
    eapply wp_mono; [apply send_whole_books; [exact Hb1|lia]|]; intros f s2 [Hb2 E2]; apply finish_frame_books; [done|by rewrite E2].
Qed.

Lemma balanced_same k s t : page (T s) = page (T t) -> sf_open (tx_sf (T t)) = sf_open (tx_sf (T s)) -> balanced k s -> balanced k t.
Proof. intros Hp Ho Hb; unfold balanced; rewrite Ho; by eapply books_page. Qed.

#[local] Ltac same := match goal with Hb : balanced _ ?s |- balanced _ _ => apply (balanced_same _ s); [done|done|exact Hb] end.

Lemma flush_ring_books k s : balanced k s -> wp flush_ring (fun _ => balanced k) s.
Proof. intros Hb; unfold flush_ring; tx_walk; same. Qed.

Lemma reattach_books fuel k s : balanced k s -> wp (reattach cfg fuel) (fun _ => balanced k) s.
Proof.
  intros Hb; unfold reattach; tx_walk.
  match goal with |- context [match ?r with Some _ => _ | None => _ end] => destruct r as [[size|]|] end; tx_walk; try done; try same; cbn.
  match goal with |- wp _ _ ?t => apply (wp_mono _ (fun _ u => balanced k u)) end; [|intros [] s2 Hb2; tx_walk; same].
  match goal with |- context [if ?b then _ else _] => destruct b end; tx_walk; [same|].
  match goal with |- context [if ?b then _ else _] => destruct b end; tx_walk; same.
Qed.

Lemma no_entry_books fuel k s : balanced k s -> wp (no_entry cfg fuel) (fun _ => balanced k) s.
Proof.
  intros Hb; unfold no_entry; apply wp_bind; eapply wp_mono.
  { apply wp_sending_only; intros [sc w]; cbn [fst snd]; unfold frame_counts; by rewrite flush_outq_stats. }
  intros [] s1 Hs1; destruct (sent_only_page _ _ Hs1) as [Hp E].
  assert (Hb1 : balanced k s1) by (apply (balanced_same k s); [done|by rewrite E|done]).
  tx_walk; match goal with |- context [if ?b then _ else _] => destruct b end; tx_walk; [same|apply reattach_books; same].
Qed.

Lemma reconnect_books fuel k s : balanced k s -> wp (reconnect cfg fuel) (fun _ => balanced k) s.
Proof.
  intros Hb; unfold reconnect; tx_walk.
  match goal with |- context [match ?o with Some _ => _ | None => _ end] => destruct o as [[l sl|l|l]|] end; tx_walk; try same.
  eapply wp_mono; [apply (flush_ring_books k); same|]; intros [] t Ht; by apply wp_ret.
Qed.

Lemma health_check_books fuel k s : balanced k s -> wp (health_check cfg fuel) (fun _ => balanced k) s.
Proof.
  intros Hb; unfold health_check; tx_walk; match goal with |- context [if ?b then _ else _] => destruct b end; tx_walk; [|same].
  match goal with |- wp (if ?b then _ else _) _ _ => destruct b end; tx_walk.
  - apply reconnect_books; same.
  - match goal with |- context [if ?b then _ else _] => destruct b end; tx_walk; [same|apply reconnect_books; same].
Qed.

Lemma tx_turn_books fuel k s : balanced k s -> 0 <= k < 2 ^ 32 - 1 -> wp (tx_turn cfg fuel) (fun _ => balanced (k + 1)) s.
Proof.
  intros Hb Hk; assert (Hmore : forall t, balanced k t -> balanced (k + 1) t) by (intros t; apply books_more; lia).
  unfold tx_turn; tx_walk; match goal with |- context [if ?b then _ else _] => destruct b end; tx_walk; [apply Hmore; same|].
  eapply wp_mono; [apply (health_check_books fuel k); same|]; intros [| |] s1 Hb1; cbv beta iota; tx_walk; try by apply Hmore.
  match goal with |- context [match ?o with Some _ => _ | None => _ end] => destruct o as [entry|] end; tx_walk.
  - eapply wp_mono; [apply (tx_entry_books entry k); [same|done]|]; intros [] t Ht; by apply wp_ret.
  - eapply wp_mono; [apply (no_entry_books fuel k); same|]; intros r t Ht; by apply Hmore.
Qed.
End accounting.

Section invariant.
Context {W : Type} `{TxEnv W} `{LinkSdk W} `{TxRing W} (cfg : tx_cfg).

(** C2. The send loop's books balance, whatever the socket, the ring, the
    daemon and the clocks do, and however long it runs: every frame counted
    in has been counted complete or incomplete exactly once, the one still open
    aside; the frame number is the number of frames ended; the divisor of the
    backlog is never zero; and the back-off starts before the fifth stall is
    on the books. *)
Theorem frames_accounted fuel n l slot buf_size ring_id now_s flushed_ms w :
  Z.of_nat n < 2 ^ 32 ->
  let t := (tx_turns cfg fuel n (mk_txst (tx_loop_init l slot buf_size ring_id now_s flushed_ms) w)).2 in
  let s := sx_stats (tx_send (T t)) in
  frames_in s = u64 (frames_complete s + frames_incomplete s + bool_int (sf_open (tx_sf (T t)))) /\
  tx_frame_seq (T t) = u16 (frames_complete s + frames_incomplete s) /\
  1 <= tx_entries_per_frame (T t) /\ 0 <= tx_stalls (T t) < BACKOFF_AFTER_CONSECUTIVE_STALLS.
Proof.
  intros Hn t s.
  assert (Hall : forall m s0 k, balanced k s0 -> 0 <= k -> k + Z.of_nat m < 2 ^ 32 -> exists k', balanced k' (tx_turns cfg fuel m s0).2).
  { clear; induction m as [|m IH]; intros s0 k Hb Hk Hm; [by exists k|]; cbn [tx_turns]; rewrite bind_run.
    pose proof (tx_turn_books cfg fuel k s0 Hb ltac:(lia)) as Ht; unfold wp in Ht; destruct (tx_turn cfg fuel s0) as [r s1].
    cbn [fst snd] in *; destruct r; [apply (IH s1 (k + 1)); [done|lia|lia]|by exists (k + 1)..]. }
  destruct (Hall n (mk_txst (tx_loop_init l slot buf_size ring_id now_s flushed_ms) w) 0) as [k' [B1 B2 B3 B4 B5]]; [by constructor|lia|lia|].
  exact (conj B1 (conj B2 (conj (proj1 B4) B5))).
Qed.
End invariant.

(** ** A frame on a link that takes its writes *)

(** A frame as the encoder puts it into the ring: one entry, or one per slice
    with all but the last marked partial. *)
Record vframe := mk_vframe { vf_pts : Z; vf_flags : Z; vf_other : Z * Z * Z; vf_slices : list (list Z) }.

Definition entry_bytes (f : vframe) (flags : Z) (d : list Z) : list Z :=
  let '(co, pos, len) := vf_other f in le_enc 4 (vf_pts f) ++ [co; flags; pos; len] ++ d.

Fixpoint slice_entries (f : vframe) (slices : list (list Z)) : list (list Z) :=
  match slices with
  | [] => []
  | d :: rest =>
      entry_bytes f (match rest with [] => vf_flags f | _ => vf_flags f + VENC_FRAME_FLAG_PARTIAL end) d :: slice_entries f rest
  end.
Definition frame_entries (f : vframe) : list (list Z) := slice_entries f (vf_slices f).

Definition wire_flags (f : vframe) : Z := frame_flags_from_meta (mk_meta (vf_pts f) (vf_flags f)).

(** Its chunks under frame number [sq]. *)
Definition air_chunks (payload sq : Z) (f : vframe) : list chunk :=
  match vf_slices f with
  | [d] => let count := chunk_count_for (zlen d) payload in
           chunks_of (mk_cp sq (wire_flags f) AR8030_CHUNK_CODEC_H265 (vf_pts f) d payload 0 count false false) count
  | ds => stream_chunks sq (wire_flags f) AR8030_CHUNK_CODEC_H265 (vf_pts f) payload 0 ds
  end.

Definition chunks_needed (payload : Z) (slices : list (list Z)) : Z :=
  foldr (fun d n => chunk_count_for (zlen d) payload + n) 0 slices.

(** The chunks of successive frames. *)
Fixpoint air_stream (payload sq : Z) (fs : list vframe) : list chunk :=
  match fs with
  | [] => []
  | f :: fs => air_chunks payload sq f ++ air_stream payload (u16 (sq + 1)) fs
  end.

Record vframe_ok (payload : Z) (f : vframe) : Prop := {
  vo_pts : 0 <= vf_pts f < 2 ^ 32;
  vo_flags : 0 <= vf_flags f < 16;
  vo_slices : vf_slices f <> [];
  vo_data : Forall (fun d => bytes_ok d /\ zlen d + payload - 1 < 2 ^ 32) (vf_slices f);
  vo_count : chunks_needed payload (vf_slices f) <= 65535
}.

Lemma entry_meta f flags d :
  0 <= vf_pts f < 2 ^ 32 ->
  (zlen (entry_bytes f flags d) <? VENC_FRAME_META_SIZE) = false /\
  meta_of_bytes (entry_bytes f flags d) = mk_meta (vf_pts f) flags /\ zdrop VENC_FRAME_META_SIZE (entry_bytes f flags d) = d.
Proof.
  intros Hp; unfold entry_bytes; destruct (vf_other f) as [[co pos] len]; pose proof (zlen_nonneg d).
  split_and!; [apply Z.ltb_ge; rewrite !zlen_app; change (zlen (le_enc 4 (vf_pts f))) with 4;
                 change (zlen [co; flags; pos; len]) with 4; change VENC_FRAME_META_SIZE with 8; lia| |done].
  unfold meta_of_bytes; f_equal.
  change (ztake 4 (le_enc 4 (vf_pts f) ++ [co; flags; pos; len] ++ d)) with (le_enc 4 (vf_pts f)).
  rewrite le_dec_enc_mod; by apply Z.mod_small.
Qed.

Lemma zlen_stream_chunks sq fl co pts payload slices : forall first,
  0 < payload <= AR8030_CHUNK_MAX_PAYLOAD -> Forall (fun d => bytes_ok d /\ zlen d + payload - 1 < 2 ^ 32) slices ->
  zlen (stream_chunks sq fl co pts payload first slices) = chunks_needed payload slices.
Proof.
  intros first Hp Hd; revert first; induction Hd as [|d slices [_ Hd] _ IH]; intros first; [done|].
  cbn [stream_chunks]; rewrite zlen_app, IH; cbn [chunks_needed foldr]; fold (chunks_needed payload slices); f_equal.
  apply (zlen_part sq fl co pts payload Hp d first _ Hd).
Qed.

(** The encoder's flags as they go on the wire, marked partial or not. *)
Lemma flags_spec fl : 0 <= fl < 16 -> forall pts pts',
  0 <= frame_flags_from_meta (mk_meta pts fl) < 64 /\
  frame_flags_from_meta (mk_meta pts (fl + VENC_FRAME_FLAG_PARTIAL)) = frame_flags_from_meta (mk_meta pts' fl) /\
  meta_flag (mk_meta pts fl) VENC_FRAME_FLAG_PARTIAL = false /\
  meta_flag (mk_meta pts (fl + VENC_FRAME_FLAG_PARTIAL)) VENC_FRAME_FLAG_PARTIAL = true.
Proof.
  intros Hf pts pts'; assert (Hk : exists k, (k < 16)%nat /\ fl = Z.of_nat k) by (exists (Z.to_nat fl); lia).
  destruct Hk as (k & Hk & ->); do 16 (destruct k as [|k]; [vm_compute; split_and!; done|]); lia.
Qed.

Lemma part_params_ok sq fl pts payload d first last :
  0 <= sq < 65536 -> 0 <= fl < 64 -> 0 <= pts < 2 ^ 32 -> 0 < payload <= AR8030_CHUNK_MAX_PAYLOAD ->
  bytes_ok d -> zlen d + payload - 1 < 2 ^ 32 ->
  params_ok (part_params sq fl AR8030_CHUNK_CODEC_H265 pts payload d first last).
Proof. intros; constructor; cbn; try done; unfold AR8030_CHUNK_CODEC_H265; lia. Qed.

Section delivered.
Context {W : Type} `{HE : TxEnv W} `{HW : !TxWire W} `{HL : LinkSdk W} `{HR : TxRing W} (cfg : tx_cfg).
#[local] Abbreviation payload := (tc_chunk_payload cfg).
#[local] Abbreviation count d := (chunk_count_for (zlen d) payload).
Hypothesis Hpay : 0 < payload <= AR8030_CHUNK_MAX_PAYLOAD.
Hypothesis Htakes : forall b w, b <> [] -> 0 < (bb_socket_write b w).1.
Hypothesis Hgoes : forall w, (g_stop w).1 = false.
Hypothesis Hmapped : forall w : W, wire (ring_mapped w).2 = wire w.
Implicit Types s t : txst W.

Lemma part_sent sq fl pts d first last sc w :
  params_ok (part_params sq fl AR8030_CHUNK_CODEC_H265 pts payload d first last) -> 0 <= first -> first + count d <= 65535 -> sctx_ok sc ->
  let '(k, n, (sc', w')) := ar8030_chunk_part (socket_cb payload) sq fl AR8030_CHUNK_CODEC_H265 pts d payload first last
                              (AR8030_CHUNK_HDR_SIZE + payload) (sc, w) in
  k = count d /\ n = Some (count d) /\ sctx_ok sc' /\ frame_counts (sx_stats sc') = frame_counts (sx_stats sc) /\
  exists cs, mixed cs (chunks_of (part_params sq fl AR8030_CHUNK_CODEC_H265 pts payload d first last) (count d)) /\
    wire w' = wire w ++ wire_bytes cs.
Proof using Hpay Htakes Hgoes HW.
  intros Hp Hf Hm Hsc; pose proof (part_counts payload sq fl AR8030_CHUNK_CODEC_H265 pts d first last (AR8030_CHUNK_HDR_SIZE + payload) (sc, w)) as Hst.
  unfold ar8030_chunk_part in *; fold (part_params sq fl AR8030_CHUNK_CODEC_H265 pts payload d first last) in *.
  set (p := part_params _ _ _ _ _ _ _ _) in *.
  rewrite (chunk_run_spec _ p _ (sc, w) (count d)) in * by (try done; cbn [p part_params cp_first_idx cp_payload]; (lia || apply Hp)).
  pose proof (send_all_ok payload Hpay Htakes Hgoes (chunks_of p (count d)) sc w Hsc
                (video_chunks_ok payload p (count d) Hp eq_refl eq_refl eq_refl)) as Hall.
  destruct (send_all _ _ (sc, w)) as [k [sc' w']]; destruct Hall as (-> & Hsc' & Hw); split_and!; try done.
  rewrite (zlen_chunks_of p) by (done || apply Hp); done.
Qed.

Lemma whole_sent sq fl pts d sc w :
  let p := mk_cp sq fl AR8030_CHUNK_CODEC_H265 pts d payload 0 (count d) false false in
  params_ok p -> count d <= 65535 -> sctx_ok sc ->
  let '(k, n, (sc', w')) := ar8030_chunk_frame (socket_cb payload) sq fl AR8030_CHUNK_CODEC_H265 pts d payload
                              (AR8030_CHUNK_HDR_SIZE + payload) (sc, w) in
  k = count d /\ n = Some (count d) /\ sctx_ok sc' /\ frame_counts (sx_stats sc') = frame_counts (sx_stats sc) /\
  exists cs, mixed cs (chunks_of p (count d)) /\ wire w' = wire w ++ wire_bytes cs.
Proof using Hpay Htakes Hgoes HW.
  intros p Hp Hm Hsc; pose proof (frame_counts_kept payload sq fl AR8030_CHUNK_CODEC_H265 pts d (AR8030_CHUNK_HDR_SIZE + payload) (sc, w)) as Hst.
  rewrite (chunk_frame_spec _ _ _ _ _ _ _ _ _ (count d)) in * by (done || lia || apply Hp); fold p in Hst |- *.
  pose proof (send_all_ok payload Hpay Htakes Hgoes (chunks_of p (count d)) sc w Hsc
                (video_chunks_ok payload p (count d) Hp eq_refl eq_refl eq_refl)) as Hall.
  destruct (send_all _ _ (sc, w)) as [k [sc' w']]; destruct Hall as (-> & Hsc' & Hw); split_and!; try done.
  rewrite (zlen_chunks_of p) by (done || apply Hp); done.
Qed.

(** *** The loop's steps *)

Lemma wp_now Q s : (forall a w, 0 <= a < 2 ^ 64 -> wire w = wire (Tw s) -> Q a (mk_txst (T s) w)) -> wp now_us Q s.
Proof using HW.
  intros HQ; unfold wp, now_us, env, lift; pose proof (wire_clock (Tw s)); destruct (now_monotonic_us (Tw s)) as [a w].
  by destruct H; apply HQ.
Qed.

Lemma wp_mapped Q s : (forall a w, wire w = wire (Tw s) -> Q a (mk_txst (T s) w)) -> wp (env ring_mapped) Q s.
Proof using Hmapped.
  intros HQ; unfold wp, env, lift; pose proof (Hmapped (Tw s)); destruct (ring_mapped (Tw s)) as [a w]; by apply HQ.
Qed.

Lemma wp_sent {A} (f : send_ctx * W -> A * (send_ctx * W)) (Q : A -> txst W -> Prop) s :
  (let '(a, (sc, w)) := f (tx_send (T s), Tw s) in Q a (mk_txst ((T s) <| tx_send := sc |>) w)) -> wp (sending f) Q s.
Proof. unfold wp, sending; by destruct (f _) as [a [sc w]]. Qed.

(** Nothing of a frame is out, or its first [k] chunks are. *)
Definition out_state (f : vframe) (k : Z) (x : tx_loop) : Prop :=
  (k = 0 /\ sf_open (tx_sf x) = false) \/
  (0 < k /\ exists e u, tx_sf x = mk_sf true false (vf_pts f) (wire_flags f) k k e u).

(** What a frame's steps leave alone. *)
Record tx_same s t : Prop := {
  ts_ok : sctx_ok (tx_send (T t));
  ts_seq : tx_frame_seq (T t) = tx_frame_seq (T s);
  ts_complete : frames_complete (sx_stats (tx_send (T t))) = frames_complete (sx_stats (tx_send (T s)));
  ts_incomplete : frames_incomplete (sx_stats (tx_send (T t))) = frames_incomplete (sx_stats (tx_send (T s)))
}.

Lemma tx_same_trans s t u : tx_same s t -> tx_same t u -> tx_same s u.
Proof. intros [? ? ? ?] [? ? ? ?]; constructor; [done|congruence..]. Qed.

Definition out_wire (cs : list chunk) s t : Prop := exists xs, mixed xs cs /\ wire (Tw t) = wire (Tw s) ++ wire_bytes xs.

Lemma begin_frame_same meta start s :
  sctx_ok (tx_send (T s)) -> wp (begin_frame meta start) (fun _ t => tx_same s t /\ tx_sf (T t) = tx_sf (T s) /\ Tw t = Tw s) s.
Proof. intros Hsc; unfold begin_frame; tx_walk; split; [|done]; by constructor. Qed.

Lemma send_slice_wire f d fl start k s :
  0 <= vf_pts f < 2 ^ 32 -> fl = vf_flags f \/ fl = vf_flags f + VENC_FRAME_FLAG_PARTIAL -> 0 <= vf_flags f < 16 ->
  bytes_ok d /\ zlen d + payload - 1 < 2 ^ 32 -> sctx_ok (tx_send (T s)) -> 0 <= tx_frame_seq (T s) < 65536 -> out_state f k (T s) ->
  0 <= k -> k + count d <= 65535 ->
  let last := negb (meta_flag (mk_meta (vf_pts f) fl) VENC_FRAME_FLAG_PARTIAL) in
  wp (send_slice cfg (mk_meta (vf_pts f) fl) d start)
    (fun r t => tx_same s t /\
       out_wire (chunks_of (part_params (tx_frame_seq (T s)) (wire_flags f) AR8030_CHUNK_CODEC_H265 (vf_pts f) payload d k last)
                   (count d)) s t /\
       if last then sf_open (tx_sf (T t)) = false /\ exists u, r = Some (mk_sent (k + count d) (k + count d) u)
       else r = None /\ out_state f (k + count d) (T t)) s.
Proof using All.
  intros Hpts Hfl Hf [Hb Hd] Hsc Hseq Hout Hk Hm last.
  destruct (flags_spec (vf_flags f) Hf (vf_pts f) (vf_pts f)) as (Hw & Hwp & _).
  assert (Hwf : frame_flags_from_meta (mk_meta (vf_pts f) fl) = wire_flags f) by (destruct Hfl as [-> | ->]; done).
  pose proof (zlen_part (tx_frame_seq (T s)) (wire_flags f) AR8030_CHUNK_CODEC_H265 (vf_pts f) payload Hpay d k last Hd) as [_ Hn].
  unfold send_slice; apply wp_bind, wp_getT, wp_bind.
  apply (wp_mono _ (fun _ t => tx_same s t /\ Tw t = Tw s /\
    exists e u, tx_sf (T t) = mk_sf true false (vf_pts f) (wire_flags f) k k e u)).
  { destruct Hout as [[-> Ho]|[Hk0 (e & u & Ho)]]; rewrite Ho; apply wp_when; intros E; try done.
    - apply wp_bind, wp_updT; eapply wp_mono; [by apply begin_frame_same|]; intros [] t (H1 & H2 & H3); cbn in *.
      split_and!; [by destruct H1|done|exists 0, 0; by rewrite H2, Hwf].
    - split_and!; [by constructor|done|by exists e, u]. }
  intros [] s1 (Hs1 & Hw1 & e & u & Ho1); apply wp_bind, wp_getT, wp_bind; cbv beta zeta; unfold id; rewrite Ho1; cbn [sf_failed sf_flags sf_next_idx].
  change (fm_pts (mk_meta (vf_pts f) fl)) with (vf_pts f); fold last; apply wp_sent.
  pose proof (part_sent (tx_frame_seq (T s1)) (wire_flags f) (vf_pts f) d k last (tx_send (T s1)) (Tw s1)) as Hp.
  destruct (ar8030_chunk_part _ _ _ _ _ _ _ _ _ _ _) as [[r n] [sc w]]; destruct Hp as (-> & -> & Hsc2 & Hst & cs & Hmx & Hw2);
    [apply part_params_ok; try done; by rewrite (ts_seq _ _ Hs1)|done|lia|apply Hs1|].
  rewrite (ts_seq _ _ Hs1) in Hmx; rewrite Hw1 in Hw2.
  apply wp_bind, wp_now; intros now w3 _ Hw3; cbn [Tw] in Hw3; apply wp_bind, wp_updT.
  assert (Hfin : forall sf epf w4, wire w4 = wire w ->
    let t := mk_txst ((T s1) <| tx_send := sc |> <| tx_sf := sf |> <| tx_entries_per_frame := epf |>) w4 in
    tx_same s t /\ out_wire (chunks_of (part_params (tx_frame_seq (T s)) (wire_flags f) AR8030_CHUNK_CODEC_H265 (vf_pts f) payload d k last) (count d)) s t).
  { intros sf epf w4 Hw4 t; split.
    - destruct Hs1 as [S1 S2 S3 S4]; unfold frame_counts in Hst; constructor; cbn; [done|done|congruence..].
    - exists cs; split; [done|]; cbn; congruence. }
  unfold upd_sf; cbn; rewrite Ho1; cbn.
  rewrite (proj2 (Z.ltb_ge (count d) 0)), (proj2 (Z.ltb_lt 0 (count d))), (u32_id (count d)), Z.eqb_refl, !(u32_id (k + count d)) by lia; cbn.
  unfold last in *; destruct (meta_flag _ _); cbn [negb] in *.
  - apply wp_ret; destruct (Hfin (mk_sf true false (vf_pts f) (wire_flags f) (k + count d) (k + count d) (u32 (e + 1)) (u64 (u + (now - start))))
      (tx_entries_per_frame (T s1)) w3 Hw3) as [F1 F2].
    split_and!; [by destruct F1|exact F2|done|right; split; [lia|by eexists _, _]].
  - apply wp_bind, wp_updT, wp_bind, wp_getT; cbn; apply wp_bind, wp_updT, wp_ret.
    destruct (Hfin (mk_sf false false (vf_pts f) (wire_flags f) (k + count d) (k + count d) (u32 (e + 1)) (u64 (u + (now - start))))
      (u32 (e + 1)) w3 Hw3) as [F1 F2]; cbn.
    split_and!; [by destruct F1|exact F2|done|rewrite s32_id by lia; by eexists].
Qed.

Lemma send_whole_wire f d start s :
  vf_slices f = [d] -> vframe_ok payload f -> sctx_ok (tx_send (T s)) -> 0 <= tx_frame_seq (T s) < 65536 ->
  wp (send_whole cfg (mk_meta (vf_pts f) (vf_flags f)) d start)
    (fun r t => tx_same s t /\ out_wire (air_chunks payload (tx_frame_seq (T s)) f) s t /\ tx_sf (T t) = tx_sf (T s) /\
       exists n u, 0 < n <= 65535 /\ r = mk_sent n n u) s.
Proof using All.
  intros Hd [Hpts Hf _ Hdata Hm] Hsc Hseq; unfold air_chunks in *; rewrite Hd in Hdata, Hm |- *.
  apply Forall_cons_1 in Hdata as [[Hb Hl] _]; destruct (flags_spec (vf_flags f) Hf (vf_pts f) (vf_pts f)) as (Hw & _).
  set (p := mk_cp (tx_frame_seq (T s)) (wire_flags f) AR8030_CHUNK_CODEC_H265 (vf_pts f) d payload 0 (count d) false false).
  assert (Hp : params_ok p) by (constructor; cbn; try done; unfold wire_flags, AR8030_CHUNK_CODEC_H265; lia).
  cbn [chunks_needed foldr] in Hm; rewrite Z.add_0_r in Hm.
  pose proof (chunk_count_bounds p (count d) Hpay Hl eq_refl) as Hn.
  unfold send_whole; apply wp_bind; eapply wp_mono; [by apply begin_frame_same|].
  intros [] s1 (Hs1 & Esf & Hw1); cbv beta; apply wp_bind, wp_getT, wp_bind, wp_sent.
  change (frame_flags_from_meta (mk_meta (vf_pts f) (vf_flags f))) with (wire_flags f); cbn [fm_pts]; rewrite (ts_seq _ _ Hs1).
  pose proof (whole_sent (tx_frame_seq (T s)) (wire_flags f) (vf_pts f) d (tx_send (T s1)) (Tw s1) Hp Hm (ts_ok _ _ Hs1)) as Hall.
  destruct (ar8030_chunk_frame _ _ _ _ _ _ _ _ _) as [[r n] [sc w]]; destruct Hall as (-> & -> & Hsc2 & Hst & cs & Hmx & Hw2).
  apply wp_bind, wp_now; intros now w3 _ Hw3; cbn [Tw] in Hw3; apply wp_bind, wp_updT, wp_ret; cbn.
  split_and!; [|exists cs; split; [done|cbn; congruence]|done|exists (count d), (u64 (now - start)); split; [lia|done]].
  destruct Hs1 as [S1 S2 S3 S4]; unfold frame_counts in Hst; constructor; cbn; [done|congruence..].
Qed.

(** A frame that went out whole is counted complete, and the next one gets the
    next number. *)
Definition frame_done s t : Prop :=
  sctx_ok (tx_send (T t)) /\ tx_frame_seq (T t) = u16 (tx_frame_seq (T s) + 1) /\ sf_open (tx_sf (T t)) = false /\
  frames_complete (sx_stats (tx_send (T t))) = u64 (frames_complete (sx_stats (tx_send (T s))) + 1) /\
  frames_incomplete (sx_stats (tx_send (T t))) = frames_incomplete (sx_stats (tx_send (T s))).

Lemma finish_frame_wire meta n u s :
  0 < n <= 65535 -> sctx_ok (tx_send (T s)) -> sf_open (tx_sf (T s)) = false ->
  wp (finish_frame cfg meta (mk_sent n n u)) (fun _ t => frame_done s t /\ wire (Tw t) = wire (Tw s)) s.
Proof using HW Hmapped.
  intros Hn Hsc Ho; unfold finish_frame, update_delay; apply wp_bind, wp_updT, wp_bind, wp_now; intros now w1 _ Hw1.
  apply wp_bind, wp_updT, wp_bind, wp_bind, wp_mapped; intros m w2 Hw2; cbn [Tw] in Hw1, Hw2.
  apply wp_bind, wp_updT, wp_updT, wp_bind, wp_updT, wp_bind; unfold note_dead; apply wp_updT; cbn [sent_chunks].
  rewrite (proj2 (Z.eqb_neq n 0)), (proj2 (Z.ltb_lt 0 n)) by lia; cbn [andb]; unfold note_stall; cbn [sent_chunks].
  rewrite (proj2 (Z.eqb_neq n 0)) by lia; apply wp_updT; cbn [Tw T].
  assert (Hc : forall st, frames_complete (count_frame (mk_sent n n u) st) = u64 (frames_complete st + 1) /\
                          frames_incomplete (count_frame (mk_sent n n u) st) = frames_incomplete st).
  { intros st; unfold count_frame; cbn [sent_chunks expected_chunks sent_write_us].
    rewrite (proj2 (Z.leb_le 0 n)), (u32_id n), Z.eqb_refl by lia; cbn [andb]; by destruct (_ <? _). }
  split; [|congruence]; unfold frame_done, upd_stats, upd_bc, next_frame_seq; cbn; rewrite !(proj1 (Hc _)), !(proj2 (Hc _)).
  by split_and!.
Qed.

(** Everything a frame's entries put on the wire, and the loop ready for the
    next one. *)
Definition frame_out (cs : list chunk) s t : Prop := frame_done s t /\ out_wire cs s t.

Lemma drop_open_none f fl k s : out_state f k (T s) -> drop_open_frame (mk_meta (vf_pts f) fl) s = (tt, s).
Proof.
  intros Ho; unfold drop_open_frame; rewrite bind_run; cbn; destruct Ho as [[_ ->]|[_ (e & u & ->)]]; [done|].
  cbn; by rewrite Z.eqb_refl.
Qed.

Lemma tx_entry_start f fl d k s (Q : unit -> txst W -> Prop) :
  0 <= vf_pts f < 2 ^ 32 -> out_state f k (T s) ->
  (forall start w, wire w = wire (Tw s) ->
    wp (if meta_flag (mk_meta (vf_pts f) fl) VENC_FRAME_FLAG_PARTIAL || sf_open (tx_sf (T s))
        then f0 ← send_slice cfg (mk_meta (vf_pts f) fl) d start;
             match f0 with Some f0 => finish_frame cfg (mk_meta (vf_pts f) fl) f0 | None => mret tt end
        else f0 ← send_whole cfg (mk_meta (vf_pts f) fl) d start; finish_frame cfg (mk_meta (vf_pts f) fl) f0) Q (mk_txst (T s) w)) ->
  wp (tx_entry cfg (entry_bytes f fl d)) Q s.
Proof using HW.
  intros Hpts Ho HQ; destruct (entry_meta f fl d Hpts) as (E1 & E2 & E3); unfold tx_entry; rewrite E1, E2, E3; cbv zeta.
  apply wp_bind, wp_now; intros now w1 _ Hw1; apply wp_bind; unfold wp at 1.
  rewrite (drop_open_none f fl k) by done; cbn [fst snd]; apply wp_bind, wp_now; intros start w2 _ Hw2; apply wp_bind, wp_getT.
  cbn [T Tw] in *; apply HQ; congruence.
Qed.

Lemma mixed_nil : mixed [] [].
Proof. by constructor. Qed.

Lemma slice_entries_wire f : forall slices k s,
  0 <= vf_pts f < 2 ^ 32 -> 0 <= vf_flags f < 16 -> slices <> [] ->
  Forall (fun d => bytes_ok d /\ zlen d + payload - 1 < 2 ^ 32) slices -> (k = 0 -> tail slices <> []) ->
  sctx_ok (tx_send (T s)) -> 0 <= tx_frame_seq (T s) < 65536 -> out_state f k (T s) -> 0 <= k ->
  let cs := stream_chunks (tx_frame_seq (T s)) (wire_flags f) AR8030_CHUNK_CODEC_H265 (vf_pts f) payload k slices in
  k + zlen cs <= 65535 -> wp (mfor (tx_entry cfg) (slice_entries f slices)) (fun _ t => frame_out cs s t) s.
Proof using All.
  induction slices as [|d rest IH]; intros k s Hpts Hf Hne Hd Htl Hsc Hseq Ho Hk cs Hm; [done|]; subst cs.
  apply Forall_cons_1 in Hd as [Hd Hrest]; cbn [stream_chunks slice_entries mfor] in *.
  destruct (flags_spec (vf_flags f) Hf (vf_pts f) (vf_pts f)) as (Hw & _ & Hfl1 & Hfl2).
  set (fl := match rest with [] => _ | _ => _ end); set (last := match rest with [] => true | _ => false end) in *.
  assert (Hlast : negb (meta_flag (mk_meta (vf_pts f) fl) VENC_FRAME_FLAG_PARTIAL) = last)
    by (subst fl last; destruct rest; [by rewrite Hfl1|by rewrite Hfl2]).
  destruct (zlen_part (tx_frame_seq (T s)) (wire_flags f) AR8030_CHUNK_CODEC_H265 (vf_pts f) payload Hpay d k last (proj2 Hd)) as [Hz Hn].
  rewrite zlen_app, Hz in Hm; set (cs2 := stream_chunks _ _ _ _ _ (k + count d) rest) in *; pose proof (zlen_nonneg cs2).
  apply wp_bind, (tx_entry_start f fl d k); [done|done|]; intros start w0 Hw0.
  assert (Hbr : meta_flag (mk_meta (vf_pts f) fl) VENC_FRAME_FLAG_PARTIAL || sf_open (tx_sf (T s)) = true).
  { destruct Ho as [[Hk0 _]|[_ (e & u & ->)]]; [|by rewrite orb_true_r].
    specialize (Htl Hk0); cbn [tail] in Htl; subst fl; destruct rest; [done|by rewrite Hfl2]. }
  rewrite Hbr; apply wp_bind; eapply wp_mono.
  { apply (send_slice_wire f d fl start k (mk_txst (T s) w0)); try done; [subst fl; destruct rest; [by left|by right]|lia]. }
  cbn [T]; rewrite Hlast; intros r s1 (Hs1 & (xs & Hmx & Hw1) & Hr); cbn [Tw] in Hw1; rewrite Hw0 in Hw1.
  assert (Hseq1 : tx_frame_seq (T s1) = tx_frame_seq (T s)) by (by destruct Hs1).
  subst last fl; destruct rest as [|d2 rest]; cbn [slice_entries mfor].
  - destruct Hr as (Ho1 & u & ->); eapply wp_mono; [apply finish_frame_wire; [lia|by apply Hs1|done]|].
    intros [] t [(F1 & F2 & F3 & F4 & F5) Hw2]; apply wp_ret; destruct Hs1 as [S1 S2 S3 S4]; cbn [T] in *; split.
    + split_and!; congruence.
    + exists xs; subst cs2; cbn [stream_chunks]; rewrite app_nil_r; split; [done|congruence].
  - destruct Hr as (-> & Ho1); apply wp_ret; subst cs2; rewrite <- Hseq1 in *.
    eapply wp_mono; [apply (IH (k + count d) s1); try done; [intros; lia|by apply Hs1|lia|lia]|].
    intros [] t [(F1 & F2 & F3 & F4 & F5) (ys & Hmy & Hw2)]; destruct Hs1 as [S1 S2 S3 S4]; cbn [T] in *; split.
    + split_and!; congruence.
    + exists (xs ++ ys); split; [by apply mixed_app|rewrite Hw2, Hw1, wire_bytes_app, <- app_assoc; done].
Qed.

Lemma frame_entries_wire f s :
  vframe_ok payload f -> sctx_ok (tx_send (T s)) -> 0 <= tx_frame_seq (T s) < 65536 -> sf_open (tx_sf (T s)) = false ->
  wp (mfor (tx_entry cfg) (frame_entries f)) (fun _ t => frame_out (air_chunks payload (tx_frame_seq (T s)) f) s t) s.
Proof using All.
  intros Hok Hsc Hseq Ho; pose proof Hok as [Hpts Hf Hne Hdata Hm]; unfold frame_entries.
  destruct (flags_spec (vf_flags f) Hf (vf_pts f) (vf_pts f)) as (_ & _ & Hfl1 & _).
  destruct (vf_slices f) as [|d [|d2 rest]] eqn:E; [done| |].
  - cbn [slice_entries mfor]; apply wp_bind, (tx_entry_start f _ d 0); [done|by left|]; intros start w Hw.
    rewrite Hfl1, Ho; cbn [orb]; apply wp_bind; eapply wp_mono; [by apply (send_whole_wire f d)|].
    intros r s1 (Hs1 & (xs & Hmx & Hw1) & Hsf & n & u & Hn & ->); cbn [T Tw] in *.
    eapply wp_mono; [apply finish_frame_wire; [done|by apply Hs1|congruence]|].
    intros [] t [(F1 & F2 & F3 & F4 & F5) Hw2]; apply wp_ret; destruct Hs1 as [S1 S2 S3 S4]; cbn [T] in *; split.
    + split_and!; congruence.
    + exists xs; split; [done|congruence].
  - unfold air_chunks; rewrite E; apply (slice_entries_wire f (d :: d2 :: rest) 0); try done; [by left|].
    by rewrite zlen_stream_chunks, Z.add_0_l.
Qed.

(** Frame after frame. *)
Lemma frames_wire fs : forall s,
  Forall (vframe_ok payload) fs -> sctx_ok (tx_send (T s)) -> 0 <= tx_frame_seq (T s) < 65536 -> sf_open (tx_sf (T s)) = false ->
  0 <= frames_complete (sx_stats (tx_send (T s))) < 2 ^ 64 ->
  wp (mfor (tx_entry cfg) (concat (frame_entries <$> fs)))
    (fun _ t => sctx_ok (tx_send (T t)) /\ 0 <= tx_frame_seq (T t) < 65536 /\ sf_open (tx_sf (T t)) = false /\
       frames_complete (sx_stats (tx_send (T t))) = u64 (frames_complete (sx_stats (tx_send (T s))) + zlen fs) /\
       frames_incomplete (sx_stats (tx_send (T t))) = frames_incomplete (sx_stats (tx_send (T s))) /\
       out_wire (air_stream payload (tx_frame_seq (T s)) fs) s t) s.
Proof using All.
  induction fs as [|f fs IH]; intros s Hok Hsc Hseq Ho Hc.
  - unfold wp; cbn; split_and!; try done; try lia; [by rewrite Z.add_0_r, u64_id|].
    exists []; split; [apply mixed_nil|by rewrite app_nil_r].
  - apply Forall_cons_1 in Hok as [Hf Hok]; cbn [fmap list_fmap concat air_stream]; apply wp_mfor_app.
    eapply wp_mono; [by apply frame_entries_wire|]; intros [] s1 [(F1 & F2 & F3 & F4 & F5) (xs & Hmx & Hw1)].
    eapply wp_mono; [apply (IH s1); try done; rewrite ?F2, ?F4; [apply u16_range|apply u64_range]|].
    rewrite F2, F4, F5; intros [] t (G1 & Gs & G2 & G3 & G4 & ys & Hmy & Hw2); split_and!; try done; try lia.
    + rewrite G3, zlen_cons, u64_add_l; apply (f_equal u64); lia.
    + exists (xs ++ ys); split; [by apply mixed_app|by rewrite Hw2, Hw1, wire_bytes_app, <- app_assoc].
Qed.
End delivered.

(** A reconnect's flush leaves a frame being sent open, whatever of it was in
    the ring. *)
Lemma flush_keeps_open_frame {W} `{TxEnv W} `{TxRing W} (s : txst W) : tx_sf (T (flush_ring s).2) = tx_sf (T s).
Proof. change (wp flush_ring (fun _ t => tx_sf (T t) = tx_sf (T s)) s); unfold flush_ring; tx_walk; done. Qed.

(** ** A concrete air side: the socket of [TxSend]'s example, a ring with a few
    entries in it, and a daemon that is well *)

Record demo_air := mk_air { da_net : demo_net; da_entries : list (list Z) }.

Definition on_net {A} (f : demo_net -> A * demo_net) (w : demo_air) : A * demo_air :=
  let '(a, n) := f (da_net w) in (a, mk_air n (da_entries w)).

Definition air_env (E : TxEnv demo_net) : TxEnv demo_air := {|
  bb_socket_write := fun b => on_net (bb_socket_write b);
  now_monotonic_us := on_net now_monotonic_us;
  g_stop := on_net g_stop;
  pushed := on_net pushed
|}.

Program Definition air_wire (E : TxEnv demo_net) (HW : @TxWire demo_net E) : @TxWire demo_air (air_env E) :=
  {| wire := fun w => wire (da_net w) |}.
Next Obligation. intros E HW b [n es]; cbn; unfold on_net; cbn; pose proof (wire_write b n) as Hn; by destruct (bb_socket_write b n). Qed.
Next Obligation. intros E HW [n es]; cbn; unfold on_net; cbn; pose proof (wire_clock n) as Hn; by destruct (now_monotonic_us n). Qed.
Next Obligation. intros E HW [n es]; cbn; unfold on_net; cbn; pose proof (wire_stop n) as Hn; by destruct (g_stop n). Qed.
Next Obligation. intros E HW [n es]; cbn; unfold on_net; cbn; pose proof (wire_pushed n) as Hn; by destruct (pushed n). Qed.

#[export] Instance air_sdk : LinkSdk demo_air := {
  bb_host_connect := fun w => (0, Some 1, w);
  bb_host_disconnect := fun _ w => w;
  bb_dev_getlist := fun _ w => ([1], w);
  bb_dev_open := fun _ w => (Some 1, w);
  bb_dev_freelist := fun _ w => w;
  bb_dev_close := fun _ w => w;
  bb_socket_open := fun _ _ _ w => (3, w);
  bb_socket_close := fun _ w => w;
  bb_get_status := fun _ w => (0, [true], w);
  bb_force_cls_socket := fun _ _ _ w => (0, w);
  bb_force_cls_socket_all := fun _ w => (0, w);
  stop_flag := fun w => (false, w);
  usleep_ms := fun _ w => w
}.

#[export] Instance air_ring : TxRing demo_air := {
  open_shm := fun _ w => (Some (5, 6), w);
  ring_mapped := fun w => (demo_mem, w);
  ring_store_read_idx := fun _ w => w;
  ring_read_wait := fun _ _ w =>
    match da_entries w with [] => (None, w) | e :: es => (Some e, mk_air (da_net w) es) end;
  ring_attach := fun _ w => (Some 65536, w);
  ring_destroy := fun w => w;
  grow_buf := fun _ w => (true, w);
  now_monotonic_s := fun w => (S754_zero false, w);
  set_g_stop := fun w => w
}.

Definition demo_cfg : tx_cfg := mk_tx_cfg [47; 118] 40 false 0 (S754_zero false).

(** A slice of a frame that the encoder gives up on, and two more frames. *)
Definition demo_entries : list (list Z) :=
  [entry_bytes (mk_vframe 10 0 (1, 0, 0) []) VENC_FRAME_FLAG_PARTIAL (replicate 50 1);
   entry_bytes (mk_vframe 20 0 (1, 0, 0) []) 0 (replicate 90 2);
   entry_bytes (mk_vframe 30 0 (1, 0, 0) []) VENC_FRAME_FLAG_PARTIAL (replicate 30 3)].

Lemma frames_accounted_witness :
  let t := (tx_turns (H := air_env demo_env) demo_cfg 1 4
              (mk_txst (tx_loop_init (mk_link (Some 1) (Some 1) 3) 0 65536 (5, 6) (S754_zero false) 0)
                 (mk_air (mk_net [] [] true 1000) demo_entries))).2 in
  let s := sx_stats (tx_send (T t)) in
  (frames_in s, frames_complete s, frames_incomplete s) = (3, 1, 1) /\
  frames_in s = u64 (frames_complete s + frames_incomplete s + bool_int (sf_open (tx_sf (T t)))).
Proof.
  intros t s; split; [vm_compute; reflexivity|].
  refine (proj1 (frames_accounted (H := air_env demo_env) demo_cfg 1 4 (mk_link (Some 1) (Some 1) 3) 0 65536 (5, 6) (S754_zero false) 0
    (mk_air (mk_net [] [] true 1000) demo_entries) _)); vm_compute; reflexivity.
Defined.
