(* ===== verification/BitrateCtl.v ===== *)
(** [tx/bitrate_ctl.c], shared part: the requests to the encoder, the signals
    read from the radio and the ring, the learned bitrate floor, cuts, and
    the congestion mark the keyframe filter reads. *)

From stdpp Require Import strings pretty.
From S2P Require Import Prelude FrameRing RetxEvent Double.
#[local] Open Scope Z_scope.

(** ** Requests to the encoder *)

(** What the source's [snprintf] formats ask waybeam for. *)
Inductive live_set :=
| Set_bitrate (kbps : Z)
| Set_bitrate_roi (kbps : Z)
| Set_roi (on : bool)
| Set_fps_div (div : Z)
| Set_fps_div_bitrate (div kbps : Z).

Definition live_path (r : live_set) : string :=
  "/api/v1/live/set?" +:+
  match r with
  | Set_bitrate kbps => "video0.bitrate=" +:+ pretty kbps
  | Set_bitrate_roi kbps => "video0.bitrate=" +:+ pretty kbps +:+ "&fpv.roiEnabled=true"
  | Set_roi on => "fpv.roiEnabled=" +:+ (if on then "true" else "false")
  | Set_fps_div div => "video0.fpsDivisor=" +:+ pretty div
  | Set_fps_div_bitrate div kbps => "video0.fpsDivisor=" +:+ pretty div +:+ "&video0.bitrate=" +:+ pretty kbps
  end.

Definition asked_kbps (r : live_set) : option Z :=
  match r with
  | Set_bitrate k | Set_bitrate_roi k | Set_fps_div_bitrate _ k => Some k
  | Set_roi _ | Set_fps_div _ => None
  end.

(** [status >= 200 && status < 300] *)
Definition ok2xx (status : Z) : bool := (200 <=? status) && (status <? 300).

(** What the other threads write and the controller loads atomically. *)
Inductive bc_var :=
| BC_DEV | BC_SLOT | BC_RING | BC_RING_FLUSHED_MS | BC_RING_GENERATION | BC_ENTRIES_PER_FRAME | BC_LOW_WATER_SLOTS
| BC_DELAY_US | BC_LAST_TX_DONE_MS | BC_WAKE | BC_RETX_TOO_MANY.

Inductive bc_event := BB_EVENT_MCS_CHANGE | BB_EVENT_LINK_STATE | BB_EVENT_RETX_TOO_MANY.

(** The world outside: those variables ([BC_RING] and [BC_DEV] are 0 for
    [NULL]), the HTTP client, [BB_GET_MCS] (result, throughput) and
    [BB_GET_USER_QUALITY] (result, [ldpc_err], [ldpc_num]), and
    [BB_SET_EVENT_SUBSCRIBE]. *)
Class BcEnv (W : Type) := {
  bc_load : bc_var -> W -> Z * W;
  http_get_status : string -> W -> Z * W;
  bb_get_mcs : Z -> W -> Z * Z * W;
  bb_get_user_quality : W -> Z * Z * Z * W;
  bb_subscribe : bc_event -> W -> Z * W
}.

Definition http_set `{BcEnv W} (r : live_set) (w : W) : Z * W := http_get_status (live_path r) w.

(** Which of the two controllers runs. *)
Inductive bc_mode := BITRATE_CTL_MODE_RULES | BITRATE_CTL_MODE_PI.

(** ** [bitrate_ctl_cfg_t], the part that is set once *)
Record bc_cfg := mk_cfg {
  margin : double; min_kbps : Z; max_kbps : Z; hysteresis : double; min_interval_ms : Z; poll_interval_ms : Z;
  ring_backlog_high_slots : Z; ring_backoff : double; roi_max_kbps : Z; roi_recovery_ms : Z;
  fps_div_max : Z; fps_recovery_ms : Z; ramp_step : double; ramp_settle_ms : Z; unstable_window_ms : Z;
  unstable_ramp_step : double; probe_ceiling_frac : double; probe_hold_ms : Z; ldpc_ratio_high : double;
  ldpc_backoff : double; retx_event_backoff : double; ldpc_severe_ratio : double; retx_severe_events : Z;
  severe_backoff : double; pi_delay_set_ms : double; pi_write_cost_ms : double; pi_kp_up : double; pi_kp_down : double;
  pi_ki_up : double; pi_ki_down : double; pi_k_min : double; pi_k_max : double; pi_slew_up : double; pi_severe_k : double;
  pi_retx_severe_events : Z; pi_mild_trim : double; pi_recover_per_s : double
}.

(** What [tx/main.c] fills it with, from its options. *)
Definition tx_bc_cfg (a_margin : double) (a_min_kbps a_max_kbps a_focus_kbps a_fps_div_max a_ring_backlog_slots : Z)
  (a_ring_backoff : double) : bc_cfg := {|
  margin := a_margin; min_kbps := a_min_kbps; max_kbps := a_max_kbps; hysteresis := dlit 5 100; min_interval_ms := 500;
  poll_interval_ms := 500; ring_backlog_high_slots := a_ring_backlog_slots; ring_backoff := a_ring_backoff;
  ramp_step := dlit 25 100; ramp_settle_ms := 1000; unstable_window_ms := 3000; unstable_ramp_step := dlit 10 100;
  probe_ceiling_frac := dlit 95 100; probe_hold_ms := 15000; roi_max_kbps := a_focus_kbps; roi_recovery_ms := 5000;
  fps_div_max := a_fps_div_max; fps_recovery_ms := 1000; ldpc_ratio_high := dofZ 0; ldpc_backoff := dlit 85 100;
  ldpc_severe_ratio := dofZ 0; retx_severe_events := 3; severe_backoff := dlit 4 10; retx_event_backoff := dlit 85 100;
  pi_delay_set_ms := dofZ 15; pi_write_cost_ms := dlit 3 2; pi_kp_up := dlit 6 1000; pi_kp_down := dlit 2 100;
  pi_ki_up := dlit 1 100; pi_ki_down := dlit 5 100; pi_k_min := dlit 2 10; pi_k_max := dlit 11 10; pi_slew_up := dofZ 2;
  pi_retx_severe_events := 6; pi_severe_k := dlit 5 10; pi_mild_trim := dlit 85 100; pi_recover_per_s := dofZ 0
|}.

(** ** Constants *)
Definition RING_BACKLOG_MIN_INTERVAL_MS : Z := 250.
Definition ROI_BACKLOG_ABORT_MS : Z := 2000.
Definition RING_CUT_HOLDOFF_MS : Z := 1500.
Definition LDPC_BACKOFF_MIN_INTERVAL_MS : Z := 250.
Definition RETX_EVENT_BACKOFF_MIN_INTERVAL_MS : Z := 250.
Definition FAST_CUT_HOLDOFF_MS : Z := 500.
Definition MCS_CUT_MIN_INTERVAL_MS : Z := 250.
Definition CONGESTED_HOLD_MS : Z := 1500.
Definition RECOVERY_JUMP_RATIO : double := dofZ 2.
Definition RECOVERY_JUMP_FRAC : double := dlit 6 10.
Definition LINK_SWING_FACTOR : double := dlit 3 2.
Definition RETX_SEVERE_WINDOW_MS : Z := 1000.
Definition RETX_EVENT_HISTORY : Z := 16.
Definition RING_FLUSH_SETTLE_MS : Z := 2 * VENC_RING_LOW_WATER_WINDOW_US / 1000.

(** ** Retransmission events *)

(** The callback's counters: [g_retx_too_many], [g_retx_undecoded],
    [g_retx_prev]. *)
Record retx_globals := mk_rg { g_retx_too_many : Z; g_retx_undecoded : bool; g_retx_prev : retx_state }.

Definition on_retx_too_many_event (arg : option (list Z)) (g : retx_globals) : retx_globals :=
  match ar8030_retx_event_decode arg with
  | None => mk_rg (g_retx_too_many g + 1) (g_retx_undecoded g || bool_decide (is_Some arg)) (g_retx_prev g)
  | Some st => mk_rg (if ar8030_retx_event_rising (g_retx_prev g) st then g_retx_too_many g + 1 else g_retx_too_many g)
                 (g_retx_undecoded g) st
  end.

(** [retx_event_ms], [retx_event_pos], [retx_counted]: when the last sixteen
    events were seen. *)
Record retx_track := mk_rt { rt_ms : list Z; rt_pos : Z; rt_counted : Z }.
Definition retx_track_init : retx_track := mk_rt (replicate 16 0) 0 0.

(** [while (retx_counted != c)]; the counter only grows. *)
Fixpoint count_retx (n : nat) (now : Z) (t : retx_track) : retx_track :=
  match n with
  | O => t
  | S n => count_retx n now (mk_rt (<[Z.to_nat (rt_pos t mod RETX_EVENT_HISTORY) := now]> (rt_ms t)) (u32 (rt_pos t + 1)) (rt_counted t + 1))
  end.
Definition see_retx (c now : Z) (t : retx_track) : retx_track := count_retx (Z.to_nat (c - rt_counted t)) now t.

Definition recent_retx (now : Z) (t : retx_track) : Z :=
  zlen (filter (fun ms => ms <> 0 /\ u64 (now - ms) < RETX_SEVERE_WINDOW_MS) (rt_ms t)).

(** ** Signals *)
Section common.
Context {W : Type} `{BcEnv W}.

Definition read_tx_throughput_kbps (slot : Z) (w : W) : option Z * W :=
  let '(dev, w) := bc_load BC_DEV w in
  if dev =? 0 then (None, w) else
  let '(ret, throughput, w) := bb_get_mcs slot w in
  (if negb (ret =? 0) then None else Some throughput, w).

Definition read_ldpc_ratio (w : W) : option double * W :=
  let '(dev, w) := bc_load BC_DEV w in
  if dev =? 0 then (None, w) else
  let '(ret, err, num, w) := bb_get_user_quality w in
  (if negb (ret =? 0) then None else if num =? 0 then None else Some (dofZ err / dofZ num)%D, w).

(** The events come once per process: a handle swapped by a reconnect is not
    subscribed again, the poll then does without them. *)
Definition subscribe_events (cfg : bc_cfg) (w : W) : W :=
  let '(dev, w) := bc_load BC_DEV w in
  if dev =? 0 then w else
  let '(_, w) := bb_subscribe BB_EVENT_MCS_CHANGE w in
  let '(_, w) := bb_subscribe BB_EVENT_LINK_STATE w in
  if (retx_event_backoff cfg >? dofZ 0)%D then (bb_subscribe BB_EVENT_RETX_TOO_MANY w).2 else w.

Definition clamp_u32 (v lo hi : Z) : Z := if v <? lo then lo else if v >? hi then hi else v.

Definition learn_floor (floor_kbps status rejected_kbps : Z) : Z :=
  if (status =? 409) && (u32 (rejected_kbps + 1) >? floor_kbps) then u32 (rejected_kbps + 1) else floor_kbps.

(** [apply_cut]: status, the rate in [*kbps], the floor. *)
Fixpoint apply_cut_loop (attempts : nat) (status kbps current_kbps floor_kbps div : Z) (w : W) : Z * Z * Z * W :=
  match attempts with
  | O => (status, kbps, floor_kbps, w)
  | S attempts =>
      let '(status, w) := http_set (Set_bitrate kbps) w in
      if negb (status =? 409) then (status, kbps, floor_kbps, w) else
      let floor_kbps := learn_floor floor_kbps status (u32 (kbps * div)) in
      if (current_kbps <=? kbps) || (u32 (current_kbps - kbps) <=? 32) then (status, kbps, floor_kbps, w) else
      apply_cut_loop attempts status (u32 (kbps + u32 (current_kbps - kbps) / 2)) current_kbps floor_kbps div w
  end.
Definition apply_cut (kbps current_kbps floor_kbps div : Z) (w : W) : Z * Z * Z * W :=
  apply_cut_loop 5 0 kbps current_kbps floor_kbps div w.

Definition ring_low_water (now : Z) (w : W) : Z * W :=
  let '(flushed, w) := bc_load BC_RING_FLUSHED_MS w in
  if negb (flushed =? 0) && (now <? u64 (flushed + RING_FLUSH_SETTLE_MS)) then (0, w) else
  let '(per, w) := bc_load BC_ENTRIES_PER_FRAME w in
  let '(slots, w) := bc_load BC_LOW_WATER_SLOTS w in
  (if 1 <? per then u16 (slots / per) else slots, w).
End common.

(** [bitrate_ctl_congested] at time [now], [until] being [g_congested_until_ms]. *)
Definition bitrate_ctl_congested (now until : Z) : bool := now <? until.

(** ** What has been asked *)

(** An account of the requests made and the statuses they came back with;
    nothing else asks. *)
Class BcLog (W : Type) `{BcEnv W} := {
  bc_log : W -> list (string * Z);
  bc_load_log : forall v w, bc_log (bc_load v w).2 = bc_log w;
  bb_get_mcs_log : forall slot w, bc_log (bb_get_mcs slot w).2 = bc_log w;
  bb_get_user_quality_log : forall w, bc_log (bb_get_user_quality w).2 = bc_log w;
  bb_subscribe_log : forall e w, bc_log (bb_subscribe e w).2 = bc_log w;
  http_get_status_log : forall p w, bc_log (http_get_status p w).2 = bc_log w ++ [(p, (http_get_status p w).1)]
}.

Definition entry (x : live_set * Z) : string * Z := (live_path x.1, x.2).

(** The rate the encoder accepted last. *)
Definition accept (a : option Z) (x : live_set * Z) : option Z :=
  if ok2xx x.2 then match asked_kbps x.1 with Some k => Some k | None => a end else a.
Definition accepted (a : option Z) (rs : list (live_set * Z)) : option Z := fold_left accept rs a.

(** Every rate asked for is between the bounds. *)
Definition asked_within (lo hi : Z) (rs : list (live_set * Z)) : Prop :=
  Forall (fun x => forall k, asked_kbps x.1 = Some k -> lo <= k <= hi) rs.

Lemma accepted_app a rs rs' : accepted a (rs ++ rs') = accepted (accepted a rs) rs'.
Proof. apply fold_left_app. Qed.
Lemma asked_within_app lo hi rs rs' : asked_within lo hi (rs ++ rs') <-> asked_within lo hi rs /\ asked_within lo hi rs'.
Proof. apply Forall_app. Qed.

Lemma clamp_u32_within v lo hi : lo <= hi -> lo <= clamp_u32 v lo hi <= hi.
Proof. intros; unfold clamp_u32; if_cases; lia. Qed.

Lemma learn_floor_within f status k F :
  0 <= k < 4294967295 -> (status = 409 -> k < F) -> f <= learn_floor f status k <= Z.max f F.
Proof.
  intros Hk HF; unfold learn_floor; rewrite u32_id by lia; destruct (Z.eqb_spec status 409); cbn [andb]; [|lia].
  specialize (HF ltac:(done)); if_cases; lia.
Qed.

Section logged.
Context {W : Type} `{HE : BcEnv W} `{HL : !BcLog W}.

(** Since [w], the requests [rs] were made. *)
Definition asked (w : W) (rs : list (live_set * Z)) (w' : W) : Prop := bc_log w' = bc_log w ++ (entry <$> rs).

Lemma asked_refl w : asked w [] w.
Proof. unfold asked; cbn; by rewrite app_nil_r. Qed.
Lemma asked_trans w1 rs w2 rs' w3 : asked w1 rs w2 -> asked w2 rs' w3 -> asked w1 (rs ++ rs') w3.
Proof. unfold asked; intros E1 E2; by rewrite E2, E1, fmap_app, app_assoc. Qed.
Lemma load_asked v w : asked w [] (bc_load v w).2.
Proof. unfold asked; cbn; by rewrite bc_load_log, app_nil_r. Qed.
Lemma http_asked r w : asked w [(r, (http_set r w).1)] (http_set r w).2.
Proof. unfold asked, http_set; apply http_get_status_log. Qed.

Lemma read_tx_throughput_asked slot w : asked w [] (read_tx_throughput_kbps slot w).2.
Proof.
  unfold read_tx_throughput_kbps, asked; pose proof (bc_load_log BC_DEV w) as E; destruct (bc_load BC_DEV w) as [dev w1].
  cbn [snd fmap list_fmap] in *; rewrite app_nil_r, <- E; destruct (dev =? 0); [done|].
  pose proof (bb_get_mcs_log slot w1) as E1; by destruct (bb_get_mcs slot w1) as [[ret t] w2].
Qed.

Lemma read_ldpc_asked w : asked w [] (read_ldpc_ratio w).2.
Proof.
  unfold read_ldpc_ratio, asked; pose proof (bc_load_log BC_DEV w) as E; destruct (bc_load BC_DEV w) as [dev w1].
  cbn [snd fmap list_fmap] in *; rewrite app_nil_r, <- E; destruct (dev =? 0); [done|].
  pose proof (bb_get_user_quality_log w1) as E1; by destruct (bb_get_user_quality w1) as [[[ret e] n] w2].
Qed.

Lemma ring_low_water_asked now w : asked w [] (ring_low_water now w).2.
Proof.
  unfold ring_low_water, asked; cbn [fmap list_fmap]; rewrite app_nil_r.
  pose proof (bc_load_log BC_RING_FLUSHED_MS w) as E; destruct (bc_load BC_RING_FLUSHED_MS w) as [f w1]; cbn [snd] in E.
  destruct (_ && _); [done|]; pose proof (bc_load_log BC_ENTRIES_PER_FRAME w1) as E1.
  destruct (bc_load BC_ENTRIES_PER_FRAME w1) as [p w2]; cbn [snd] in E1; pose proof (bc_load_log BC_LOW_WATER_SLOTS w2) as E2.
  destruct (bc_load BC_LOW_WATER_SLOTS w2) as [s w3]; cbn [snd] in *; congruence.
Qed.

(** [b] was refused after a number of refused rates. *)
Definition refused_on_the_way (w : W) (b : Z) : Prop :=
  exists pre w1, asked w ((fun b => (Set_bitrate b, 409)) <$> pre) w1 /\ (http_set (Set_bitrate b) w1).1 = 409.

(** A cut asks for rising rates, all at least the one given and below the
    current one, as long as they are refused; the last one is the result. *)
Lemma apply_cut_loop_spec n : forall status k c fl div w,
  0 <= k < c -> c < 4294967296 -> (n = O -> status = 409) ->
  let '(status', k', fl', w') := apply_cut_loop n status k c fl div w in
  exists ks last, asked w (((fun b => (Set_bitrate b, 409)) <$> ks) ++ last) w' /\
    Forall (fun b => k <= b < c /\ refused_on_the_way w b) ks /\ k <= k' < c /\ fl' = fold_left (fun f b => learn_floor f 409 (u32 (b * div))) ks fl /\
    (length ks <= n)%nat /\ (last = [] /\ status' = 409 \/ last = [(Set_bitrate k', status')] /\ status' <> 409).
Proof.
  induction n as [|n IH]; intros status k c fl div w Hk Hc Hs; cbn [apply_cut_loop].
  { exists [], []; rewrite (Hs eq_refl); split_and!; try done; [apply asked_refl|lia|by left]. }
  pose proof (http_asked (Set_bitrate k) w) as Ha; destruct (http_set (Set_bitrate k) w) as [s w1] eqn:Ehttp; cbn [fst snd] in Ha.
  destruct (Z.eqb_spec s 409) as [->|Hne]; cbn [negb].
  2: { exists [], [(Set_bitrate k, s)]; split_and!; try done; cbn [length]; try lia; by right. }
  set (fl1 := learn_floor fl 409 (u32 (k * div))).
  destruct (_ || _)%bool eqn:Estop.
  { exists [k], []; split_and!; try done; [|lia|cbn; lia|by left]; repeat constructor; try lia; exists [], w; split; [apply asked_refl|by rewrite Ehttp]. }
  bool_to_prop; rewrite (u32_id (c - k)) in * by lia; rewrite u32_id by dlia.
  specialize (IH 409 (k + (c - k) / 2) c fl1 div w1 ltac:(dlia) Hc ltac:(done)).
  destruct (apply_cut_loop n _ _ _ _ _ w1) as [[[s' k'] fl'] w'].
  destruct IH as (ks & last & Hlog & Hks & Hk' & Hfl & Hn & Hl); exists (k :: ks), last; split_and!; try done.
  - exact (asked_trans w _ w1 _ w' Ha Hlog).
  - constructor; [split; [lia|exists [], w; split; [apply asked_refl|by rewrite Ehttp]]|]; eapply list.Forall_impl; [exact Hks|].
    cbn; intros b [Hb (pre & w2 & Hp & Hr)]; split; [dlia|]; exists (k :: pre), w2; split; [exact (asked_trans w _ w1 _ w2 Ha Hp)|done].
  - dlia.
  - lia.
  - cbn; lia.
Qed.
End logged.

(** The same for one cut at the full frame rate. *)
Section cut.
Context {W : Type} `{HE : BcEnv W} `{HL : !BcLog W}.

Lemma ok_not_409 : ok2xx 409 = false.
Proof. reflexivity. Qed.

Lemma accepted_refused a ks : accepted a ((fun b => (Set_bitrate b, 409)) <$> ks) = a.
Proof. revert a; induction ks as [|b ks IH]; intros a; [done|]; apply IH. Qed.

(** The encoder refuses (409) only rates below [F]. *)
Definition refuses_below (F : Z) : Prop := forall r k (w : W), asked_kbps r = Some k -> (http_set r w).1 = 409 -> k < F.

Lemma apply_cut_spec F div k c fl w :
  (forall b, 0 <= b -> refused_on_the_way w b -> b * div < F) -> 1 <= div -> 0 <= k < c -> c * div < 4294967295 ->
  let '(status, k', fl', w') := apply_cut k c fl div w in
  exists rs, asked w rs w' /\ Forall (fun x => exists b, x.1 = Set_bitrate b) rs /\ asked_within k (c - 1) rs /\ k <= k' < c /\
    fl <= fl' <= Z.max fl F /\
    (forall a, accepted a rs = if ok2xx status then Some k' else a).
Proof.
  intros HF Hdiv Hk Hc; pose proof (apply_cut_loop_spec 5 0 k c fl div w Hk ltac:(nia) ltac:(done)) as Hl; unfold apply_cut.
  destruct (apply_cut_loop 5 0 k c fl div w) as [[[s k'] fl'] w']; destruct Hl as (ks & last & Ha & Hks & Hk' & Hfl & _ & Hlast).
  exists (((fun b => (Set_bitrate b, 409)) <$> ks) ++ last); split; [done|]; split; [|split; [|split; [done|split]]].
  - apply Forall_app; split; [apply Forall_fmap, list.Forall_forall; by eexists|].
    destruct Hlast as [[-> _]|[-> _]]; [constructor|apply Forall_singleton; by eexists].
  - apply asked_within_app; split.
    + apply Forall_fmap; eapply list.Forall_impl; [exact Hks|]; intros b Hb k0 [= <-]; cbn in Hb; lia.
    + destruct Hlast as [[-> _]|[-> _]]; [constructor|]; constructor; [|constructor]; intros k0 [= <-]; lia.
  - subst fl'; clear Ha Hlast; revert fl; induction ks as [|b ks IH]; intros fl; cbn [fold_left]; [lia|].
    apply Forall_cons_1 in Hks as [[Hb Hr] Hks]; rewrite u32_id by nia.
    pose proof (learn_floor_within fl 409 (b * div) F ltac:(nia) (fun _ => HF b ltac:(lia) Hr)).
    specialize (IH Hks (learn_floor fl 409 (b * div))); lia.
  - intros a; rewrite accepted_app, accepted_refused; destruct Hlast as [[-> ->]|[-> _]]; [done|].
    unfold accepted, accept; cbn [fold_left fst snd asked_kbps]; by destruct (ok2xx s).
Qed.

Section floor.
Context (F div : Z) (Hdiv : 1 <= div).
(** The encoder's floor at this frame rate is [F / div]. *)
Hypothesis Hrefuses : forall b w, 0 <= b -> (http_set (Set_bitrate b) w).1 = if b * div <? F then 409 else 200.

Lemma apply_cut_loop_S n status k c fl d w :
  apply_cut_loop (S n) status k c fl d w =
  let '(status, w) := http_set (Set_bitrate k) w in
  if negb (status =? 409) then (status, k, fl, w) else
  let fl := learn_floor fl status (u32 (k * d)) in
  if (c <=? k) || (u32 (c - k) <=? 32) then (status, k, fl, w) else
  apply_cut_loop n status (u32 (k + u32 (c - k) / 2)) c fl d w.
Proof. reflexivity. Qed.

Lemma cut_loop_floor n : forall status k c fl w,
  0 <= k < c -> c * div < 4294967295 -> F <= c * div ->
  let '(s, k', fl', _) := apply_cut_loop (S n) status k c fl div w in
  fl <= fl' <= Z.max fl F /\
  ((s = 200 /\ F <= k' * div /\ k' < c /\ (k' = k \/ 2 * (k' * div) < F + c * div)) \/
   (s = 409 /\ c * div - F < div * Z.max 32 ((c - k - 1) / 2 ^ Z.of_nat n + 1))).
Proof using Hdiv Hrefuses.
  induction n as [|n IH]; intros status k c fl w Hk Hc HF; rewrite apply_cut_loop_S;
    pose proof (Hrefuses k w ltac:(lia)) as Hs; destruct (http_set (Set_bitrate k) w) as [s w1]; cbn [fst] in Hs; subst s;
    assert (Hkd : k * div < 4294967295) by nia; destruct (Z.ltb_spec (k * div) F) as [Hlt|Hge];
    change (negb (200 =? 409)) with true; change (negb (409 =? 409)) with false; cbv iota;
    try (split; [lia|left; split_and!; try lia; by left]);
    rewrite (u32_id (k * div)) by nia; pose proof (learn_floor_within fl 409 (k * div) F ltac:(nia) (fun _ => Hlt)) as Hlf;
    set (fl1 := learn_floor fl 409 (k * div)) in *;
    (destruct (_ || _)%bool eqn:Estop;
     [split; [lia|right; split; [done|]]; apply orb_true_iff in Estop as [E|E]; bool_to_prop; [lia|];
      rewrite u32_id in E by nia; nia|]).
  - cbn [apply_cut_loop]; split; [lia|right; split; [done|]]; change (2 ^ Z.of_nat 0) with 1; rewrite Z.div_1_r; nia.
  - bool_to_prop; assert (Hc32 : c < 4294967295) by nia; rewrite (u32_id (c - k)) in * by lia; rewrite (u32_id (k + _)) by dlia.
    specialize (IH 409 (k + (c - k) / 2) c fl1 w1 ltac:(dlia) Hc HF).
    destruct (apply_cut_loop (S n) _ _ _ _ _ w1) as [[[s k'] fl'] w'].
    destruct IH as [Hfl [(-> & HFk & Hk' & Hor)|[-> Hgap]]]; (split; [lia|]).
    + left; split_and!; try done; right; destruct Hor as [->|?]; [|done].
      assert (2 * ((c - k) / 2) <= c - k) by dlia; nia.
    + right; split; [done|]; replace ((c - k - 1) / 2 ^ Z.of_nat (S n)) with ((c - (k + (c - k) / 2) - 1) / 2 ^ Z.of_nat n); [done|].
      rewrite Nat2Z.inj_succ, Z.pow_succ_r, <- Z.div_div by lia; f_equal; dlia.
Qed.

(** A refused cut finds the encoder's floor: with the encoder refusing
    exactly the rates below its floor [F / div], a cut asked for at [k] from
    the current rate [c] either ends accepted, below [c], not under the floor
    and no more than half-way up from it - or, the floor being within a
    sixteenth of the way (or 32 kbps) of [c], is given up with the rate
    left as it was.  What is learned never exceeds the real floor. *)
Theorem cut_finds_floor k c fl w :
  0 <= k < c -> c * div < 4294967295 -> F <= c * div ->
  let '(status, k', fl', _) := apply_cut k c fl div w in
  fl <= fl' <= Z.max fl F /\
  ((status = 200 /\ F <= k' * div /\ k' < c /\ (k' = k \/ 2 * (k' * div) < F + c * div)) \/
   (status = 409 /\ c * div - F < div * Z.max 32 ((c - k - 1) / 16 + 1))).
Proof using Hdiv Hrefuses. intros Hk Hc HF; exact (cut_loop_floor 4 0 k c fl w Hk Hc HF). Qed.
End floor.
End cut.

(** ** A concrete encoder *)

(** It takes every request but bitrates below its floor; the radio reports
    the throughputs of the list one after the other. *)
Record demo_bc := mk_demo_bc { db_mcs : list Z; db_vars : bc_var -> Z; db_log : list (string * Z) }.

Definition demo_status (floor : Z) (p : string) : Z :=
  if existsb (fun b => String.eqb p (live_path (Set_bitrate b))) (seqZ 0 floor) then 409 else 200.

Definition demo_bc_env (floor : Z) : BcEnv demo_bc := {|
  bc_load := fun v w => (db_vars w v, w);
  http_get_status := fun p w => let s := demo_status floor p in (s, mk_demo_bc (db_mcs w) (db_vars w) (db_log w ++ [(p, s)]));
  bb_get_mcs := fun _ w => (0, hd 0 (db_mcs w), mk_demo_bc (tl (db_mcs w)) (db_vars w) (db_log w));
  bb_get_user_quality := fun w => (0, 0, 100, w);
  bb_subscribe := fun _ w => (0, w)
|}.
Program Definition demo_bc_log (floor : Z) : @BcLog demo_bc (demo_bc_env floor) := {| bc_log := db_log |}.
Solve Obligations with done.

Lemma live_path_bitrate_inj a b : live_path (Set_bitrate a) = live_path (Set_bitrate b) -> a = b.
Proof. unfold live_path; intros E; apply (inj (String.app _)), (inj (String.app _)) in E; by apply pretty_Z_inj in E. Qed.

Lemma demo_status_floor floor b : 0 <= b -> demo_status floor (live_path (Set_bitrate b)) = if b <? floor then 409 else 200.
Proof.
  intros Hb; unfold demo_status; destruct (existsb _ _) eqn:E.
  - apply existsb_exists in E as (x & Hx & Hp); apply String.eqb_eq, live_path_bitrate_inj in Hp as ->.
    apply list_elem_of_In, elem_of_seqZ in Hx; by rewrite (proj2 (Z.ltb_lt _ _)) by lia.
  - destruct (Z.ltb_spec b floor); [|done]; exfalso; assert (Ht : true = false); [|done]; rewrite <- E; symmetry.
    apply existsb_exists; exists b; split; [apply list_elem_of_In, elem_of_seqZ; lia|by apply String.eqb_eq].
Qed.

(** Asked for 300 with 1000 applied, an encoder with a floor of 700 refuses
    300 and 650 and takes 825. *)
Lemma cut_finds_floor_witness :
  let w := mk_demo_bc [20000] (fun _ => 1) [] in
  (@apply_cut _ (demo_bc_env 700) 300 1000 512 1 w).1 = (200, 825, 651) /\ 700 <= 825 * 1 /\ 2 * (825 * 1) < 700 + 1000 * 1.
Proof.
  intros w; pose proof (@cut_finds_floor _ (demo_bc_env 700) 700 1 ltac:(lia)) as Hth.
  specialize (Hth ltac:(intros b w' Hb; unfold http_set; cbn [http_get_status demo_bc_env fst]; rewrite demo_status_floor by done;
    by rewrite Z.mul_1_r)).
  specialize (Hth 300 1000 512 w ltac:(lia) ltac:(lia) ltac:(lia)).
  assert (E : (@apply_cut _ (demo_bc_env 700) 300 1000 512 1 w).1 = (200, 825, 651)) by (vm_compute; reflexivity).
  destruct (apply_cut 300 1000 512 1 w) as [[[s k'] fl'] w']; cbn [fst] in E |- *; injection E as -> -> ->.
  destruct Hth as (_ & [(_ & H1 & _ & [H2|H2])|[H2 _]]); [lia| |lia]; by split_and!.
Defined.
