(* ===== verification/BitrateRules.v ===== *)
(** [tx/bitrate_ctl.c]'s rule-based controller, [run_rules]: one definition
    per signal path of its tick, in the source's order. *)

From Stdlib Require Import Sorting.Sorted.
From S2P Require Import Prelude Double BitrateCtl.
#[local] Open Scope Z_scope.

(** [run_rules]'s locals, and [g_congested_until_ms]. *)
Record rules_state := mk_rules {
  last_applied_kbps : Z; have_applied : bool; last_apply_ms : Z; last_seen_wake : Z; last_seen_retx_too_many : Z;
  roi_enabled : bool; roi_banned : bool; roi_enabled_ms : Z; last_backlog_ms : Z; last_urgent_cut_ms : Z;
  probe_ceiling_kbps : Z; probe_ceiling_until_ms : Z; last_roi_disable_attempt_ms : Z; last_ldpc_apply_ms : Z;
  last_retx_event_apply_ms : Z; last_cut_ms : Z; last_mcs_cut_ms : Z; prev_link_kbps : Z; last_link_rise_ms : Z;
  last_link_swing_ms : Z; floor_kbps : Z; retx_events : retx_track; last_increase_ms : Z; last_mcs_poll_ms : Z;
  congested_until_ms : Z
}.
#[export] Instance eta_rules : Eta rules_state := fun s =>
  mk_rules (last_applied_kbps s) (have_applied s) (last_apply_ms s) (last_seen_wake s) (last_seen_retx_too_many s)
    (roi_enabled s) (roi_banned s) (roi_enabled_ms s) (last_backlog_ms s) (last_urgent_cut_ms s) (probe_ceiling_kbps s)
    (probe_ceiling_until_ms s) (last_roi_disable_attempt_ms s) (last_ldpc_apply_ms s) (last_retx_event_apply_ms s)
    (last_cut_ms s) (last_mcs_cut_ms s) (prev_link_kbps s) (last_link_rise_ms s) (last_link_swing_ms s) (floor_kbps s)
    (retx_events s) (last_increase_ms s) (last_mcs_poll_ms s) (congested_until_ms s).

Definition rules_init (cfg : bc_cfg) : rules_state :=
  mk_rules 0 false 0 0 0 false false 0 0 0 0 0 0 0 0 0 0 0 0 0 (min_kbps cfg) retx_track_init 0 0 0.

Definition mark_congested (now : Z) (st : rules_state) : rules_state := st <| congested_until_ms := u64 (now + CONGESTED_HOLD_MS) |>.

(** The C comparison of an elapsed [uint64_t] time with an [int] period. *)
Definition elapsed (now since : Z) (period : Z) : bool := u64 period <=? u64 (now - since).

Section rules.
Context {W : Type} `{BcEnv W} (cfg : bc_cfg) (now : Z).
Implicit Types (st : rules_state) (w : W).

(** *** Ring backlog *)

Definition roi_abort st w : rules_state * W :=
  if roi_enabled st && elapsed now (roi_enabled_ms st) ROI_BACKLOG_ABORT_MS then
    let '(status, w) := http_set (Set_roi false) w in
    if ok2xx status then (st <| roi_enabled := false |> <| roi_banned := true |>, w) else (st, w)
  else (st, w).

Definition urgent_applied (target : Z) st : rules_state :=
  let st :=
    if (probe_ceiling_frac cfg >? dofZ 0)%D then
      st <| probe_ceiling_kbps := f2u32 (dofZ (last_applied_kbps st) * probe_ceiling_frac cfg)%D |>
         <| probe_ceiling_until_ms := u64 (now + u64 (probe_hold_ms cfg)) |>
    else st in
  st <| last_applied_kbps := target |> <| last_apply_ms := now |> <| last_urgent_cut_ms := now |> <| last_cut_ms := now |>.

Definition ring_backlogged st w : rules_state * W :=
  let st := mark_congested now (st <| last_backlog_ms := now |>) in
  let backlog_target := clamp_u32 (f2u32 (dofZ (last_applied_kbps st) * ring_backoff cfg)%D) (floor_kbps st) (max_kbps cfg) in
  let cut_bitrate := (backlog_target <? last_applied_kbps st) &&
    ((last_urgent_cut_ms st =? 0) || elapsed now (last_urgent_cut_ms st) RING_CUT_HOLDOFF_MS) in
  let '(st, w) := roi_abort st w in
  let want_roi := negb (roi_banned st) && (last_applied_kbps st <? roi_max_kbps cfg) in
  let roi_on := want_roi && negb (roi_enabled st) in
  if cut_bitrate || roi_on then
    let req := if cut_bitrate then (if roi_on then Set_bitrate_roi backlog_target else Set_bitrate backlog_target)
               else Set_roi true in
    let '(status, w) := http_set req w in
    if ok2xx status then
      let st := if cut_bitrate then urgent_applied backlog_target st else st in
      (if roi_on then st <| roi_enabled := true |> <| roi_enabled_ms := now |> else st, w)
    else
      (if cut_bitrate then st <| floor_kbps := learn_floor (floor_kbps st) status backlog_target |> else st, w)
  else (st, w).

Definition roi_recover st w : rules_state * W :=
  if roi_enabled st && (roi_max_kbps cfg <=? last_applied_kbps st) && elapsed now (last_backlog_ms st) (roi_recovery_ms cfg) &&
     elapsed now (last_roi_disable_attempt_ms st) RING_BACKLOG_MIN_INTERVAL_MS then
    let st := st <| last_roi_disable_attempt_ms := now |> in
    let '(status, w) := http_set (Set_roi false) w in
    (if ok2xx status then st <| roi_enabled := false |> else st, w)
  else (st, w).

Definition ring_path st w : rules_state * W :=
  let '(ring, w) := bc_load BC_RING w in
  if negb (ring =? 0) && have_applied st && elapsed now (last_apply_ms st) RING_BACKLOG_MIN_INTERVAL_MS then
    let '(backlog_slots, w) := ring_low_water now w in
    if ring_backlog_high_slots cfg <=? backlog_slots then ring_backlogged st w else roi_recover st w
  else (st, w).

(** *** Fast cuts: LDPC errors and retransmissions *)

Definition fast_cut (factor : double) st w : rules_state * W :=
  let target := clamp_u32 (f2u32 (dofZ (last_applied_kbps st) * factor)%D) (floor_kbps st) (max_kbps cfg) in
  if target <? last_applied_kbps st then
    let '(status, kbps, floor, w) := apply_cut target (last_applied_kbps st) (floor_kbps st) 1 w in
    let st := st <| floor_kbps := floor |> in
    if ok2xx status then
      (mark_congested now (st <| last_applied_kbps := kbps |> <| last_apply_ms := now |> <| last_cut_ms := now |>), w)
    else (st, w)
  else (st, w).

Definition ldpc_path st w : rules_state * W :=
  if (ldpc_ratio_high cfg >? dofZ 0)%D && have_applied st && elapsed now (last_ldpc_apply_ms st) LDPC_BACKOFF_MIN_INTERVAL_MS &&
     elapsed now (last_cut_ms st) FAST_CUT_HOLDOFF_MS then
    let st := st <| last_ldpc_apply_ms := now |> in
    let '(ratio, w) := read_ldpc_ratio w in
    match ratio with
    | Some ldpc_ratio =>
        if (ldpc_ratio >=? ldpc_ratio_high cfg)%D then
          let factor := if (ldpc_severe_ratio cfg >? dofZ 0)%D && (ldpc_ratio >=? ldpc_severe_ratio cfg)%D
                        then severe_backoff cfg else ldpc_backoff cfg in
          fast_cut factor st w
        else (st, w)
    | None => (st, w)
    end
  else (st, w).

Definition retx_path st w : rules_state * W :=
  let '(c, w) := bc_load BC_RETX_TOO_MANY w in
  let st := st <| retx_events := see_retx c now (retx_events st) |> in
  if (retx_event_backoff cfg >? dofZ 0)%D && have_applied st &&
     elapsed now (last_retx_event_apply_ms st) RETX_EVENT_BACKOFF_MIN_INTERVAL_MS &&
     elapsed now (last_cut_ms st) FAST_CUT_HOLDOFF_MS then
    let '(retx_too_many_now, w) := bc_load BC_RETX_TOO_MANY w in
    if negb (retx_too_many_now =? last_seen_retx_too_many st) then
      let st := st <| last_seen_retx_too_many := retx_too_many_now |> <| last_retx_event_apply_ms := now |> in
      let recent := recent_retx now (retx_events st) in
      let factor := if (0 <? retx_severe_events cfg) && (retx_severe_events cfg <=? recent)
                    then severe_backoff cfg else retx_event_backoff cfg in
      fast_cut factor st w
    else (st, w)
  else (st, w).

(** *** The rate the radio can carry *)

(** Link swing detection. *)
Definition note_swing (link_kbps : Z) st : rules_state :=
  let prev := prev_link_kbps st in
  let st :=
    if negb (prev =? 0) && (dofZ link_kbps >=? dofZ prev * LINK_SWING_FACTOR)%D then st <| last_link_rise_ms := now |>
    else if negb (prev =? 0) && (dofZ link_kbps * LINK_SWING_FACTOR <=? dofZ prev)%D && negb (last_link_rise_ms st =? 0) &&
            negb (elapsed now (last_link_rise_ms st) (unstable_window_ms cfg)) then st <| last_link_swing_ms := now |>
    else st in
  st <| prev_link_kbps := link_kbps |>.

(** The change is within the hysteresis. *)
Definition too_close (target_kbps : Z) st : bool :=
  let last := last_applied_kbps st in
  let diff := if last <? target_kbps then target_kbps - last else last - target_kbps in
  let delta := (dofZ diff / dofZ last)%D in
  (delta <? hysteresis cfg)%D.

Definition unstable st : bool :=
  negb (last_link_swing_ms st =? 0) && negb (elapsed now (last_link_swing_ms st) (unstable_window_ms cfg)).

(** The stepped increase. *)
Definition ramp_target (target_kbps : Z) st : Z :=
  let last := last_applied_kbps st in
  let step := if unstable st && (unstable_ramp_step cfg >? dofZ 0)%D then unstable_ramp_step cfg else ramp_step cfg in
  let target_kbps :=
    if (step >? dofZ 0)%D then
      let step_cap := f2u32 (dofZ last * (dofZ 1 + step))%D in
      let step_cap :=
        if negb (unstable st) && (dofZ target_kbps >=? dofZ last * RECOVERY_JUMP_RATIO)%D then
          let jump := f2u32 (dofZ target_kbps * RECOVERY_JUMP_FRAC)%D in
          if step_cap <? jump then jump else step_cap
        else step_cap in
      let step_cap := if step_cap <=? last then u32 (last + 1) else step_cap in
      if step_cap <? target_kbps then step_cap else target_kbps
    else target_kbps in
  if negb (probe_ceiling_kbps st =? 0) && (now <? probe_ceiling_until_ms st) && (probe_ceiling_kbps st <? target_kbps)
  then probe_ceiling_kbps st else target_kbps.

(** [None]: this tick sends nothing. *)
Definition mcs_target (link_kbps : Z) st : option (bool * Z) :=
  let target_kbps := clamp_u32 (f2u32 (dofZ link_kbps * margin cfg)%D) (floor_kbps st) (max_kbps cfg) in
  if have_applied st && too_close target_kbps st then None else
  let cutting := have_applied st && (target_kbps <? last_applied_kbps st) in
  if cutting && negb (elapsed now (last_mcs_cut_ms st) MCS_CUT_MIN_INTERVAL_MS) then None else
  if have_applied st && negb cutting then
    if negb (elapsed now (last_increase_ms st) (min_interval_ms cfg)) then None else
    if negb (elapsed now (last_backlog_ms st) (ramp_settle_ms cfg)) || negb (elapsed now (last_cut_ms st) (ramp_settle_ms cfg))
    then None else
    let target_kbps := ramp_target target_kbps st in
    if target_kbps <=? last_applied_kbps st then None else Some (false, target_kbps)
  else Some (cutting, target_kbps).

Definition mcs_apply (cutting : bool) (target_kbps : Z) st w : rules_state * W :=
  let '(status, target_kbps, st, w) :=
    if cutting && have_applied st then
      let '(status, kbps, floor, w) := apply_cut target_kbps (last_applied_kbps st) (floor_kbps st) 1 w in
      (status, kbps, st <| floor_kbps := floor |>, w)
    else
      let '(status, w) := http_set (Set_bitrate target_kbps) w in (status, target_kbps, st, w) in
  if negb (ok2xx status) then (st, w) else
  let st := if cutting then mark_congested now (st <| last_cut_ms := now |> <| last_mcs_cut_ms := now |>)
            else st <| last_increase_ms := now |> in
  (st <| last_applied_kbps := target_kbps |> <| have_applied := true |> <| last_apply_ms := now |>, w).

Definition mcs_path st w : rules_state * W :=
  let '(wake, w) := bc_load BC_WAKE w in
  let woken := negb (wake =? last_seen_wake st) in
  let '(wake, w) := bc_load BC_WAKE w in
  let st := st <| last_seen_wake := wake |> in
  if have_applied st && negb woken && negb (elapsed now (last_mcs_poll_ms st) (poll_interval_ms cfg)) then (st, w) else
  let st := st <| last_mcs_poll_ms := now |> in
  let '(slot, w) := bc_load BC_SLOT w in
  let '(throughput, w) := read_tx_throughput_kbps slot w in
  match throughput with
  | None => (st, w)
  | Some link_kbps =>
      let st := note_swing link_kbps st in
      match mcs_target link_kbps st with
      | None => (st, w)
      | Some (cutting, target_kbps) => mcs_apply cutting target_kbps st w
      end
  end.

(** One pass of the loop at time [now]. *)
Definition rules_tick st w : rules_state * W :=
  let '(st, w) := ring_path st w in
  let '(st, w) := ldpc_path st w in
  let '(st, w) := retx_path st w in
  mcs_path st w.
End rules.

(** The loop; [nows] are the clock readings of its ticks. *)
Fixpoint rules_run {W : Type} `{BcEnv W} (cfg : bc_cfg) (nows : list Z) (st : rules_state) (w : W) : rules_state * W :=
  match nows with
  | [] => (st, w)
  | now :: nows => let '(st, w) := rules_tick cfg now st w in rules_run cfg nows st w
  end.

(** Steps only lower a target. *)
Lemma ramp_target_le cfg now t0 st : ramp_target cfg now t0 st <= t0.
Proof.
  unfold ramp_target; cbv zeta; set (t1 := if (_ >? dofZ 0)%D then _ else t0); assert (Ht1 : t1 <= t0); [|if_cases; lia].
  unfold t1; destruct (_ >? _)%D; [|lia].
  match goal with |- (if ?sc <? _ then _ else _) <= _ => generalize sc end; intros sc; destruct (Z.ltb_spec sc t0); lia.
Qed.

(** ** What the controller keeps *)
Section bounded.
Context {W : Type} `{HE : BcEnv W} `{HL : !BcLog W} (cfg : bc_cfg) (F : Z).
Hypothesis Hcfg : 0 <= min_kbps cfg <= max_kbps cfg /\ F <= max_kbps cfg /\ max_kbps cfg < 4294967295.
(** The encoder refuses only rates below [F]. *)
Hypothesis HF : refuses_below F.

(** After the requests [rs]. *)
Record rules_ok (applied : Z) (have : bool) (floor : Z) (rs : list (live_set * Z)) : Prop := {
  ro_accepted : accepted None rs = if have then Some applied else None;
  ro_floor : min_kbps cfg <= floor <= Z.max (min_kbps cfg) F;
  ro_asked : asked_within (min_kbps cfg) (max_kbps cfg) rs;
  ro_applied : have = true -> min_kbps cfg <= applied <= max_kbps cfg
}.
Definition holds (st : rules_state) (rs : list (live_set * Z)) : Prop :=
  rules_ok (last_applied_kbps st) (have_applied st) (floor_kbps st) rs.

(** A part of the tick that keeps it. *)
Definition keeps (f : rules_state -> W -> rules_state * W) : Prop := forall st w rs,
  holds st rs -> exists ext, asked w ext (f st w).2 /\ holds (f st w).1 (rs ++ ext).

Lemma keeps_nothing st w rs : holds st rs -> exists ext, asked w ext w /\ holds st (rs ++ ext).
Proof using HL. intros Hh; exists []; split; [apply asked_refl|by rewrite app_nil_r]. Qed.

Lemma keeps_after (f : rules_state -> W -> rules_state * W) (x : rules_state * W) w rs :
  keeps f -> (exists ext, asked w ext x.2 /\ holds x.1 (rs ++ ext)) ->
  exists ext, asked w ext (f x.1 x.2).2 /\ holds (f x.1 x.2).1 (rs ++ ext).
Proof.
  intros Hf (e1 & Ha1 & Hh1); destruct (Hf _ x.2 _ Hh1) as (e2 & Ha2 & Hh2); exists (e1 ++ e2); split;
    [by eapply asked_trans|by rewrite app_assoc].
Qed.

(** One request that sets no rate, or one whose rate is (not) taken. *)
Lemma holds_http r st w rs :
  holds st rs -> (forall k, asked_kbps r = Some k -> min_kbps cfg <= k <= max_kbps cfg) ->
  let s := (http_set r w).1 in
  asked w [(r, s)] (http_set r w).2 /\
  match asked_kbps r with
  | Some k => if ok2xx s then forall st', floor_kbps st' = floor_kbps st -> have_applied st' = true -> last_applied_kbps st' = k ->
                holds st' (rs ++ [(r, s)])
              else holds st (rs ++ [(r, s)]) /\ (min_kbps cfg <= learn_floor (floor_kbps st) s k <= Z.max (min_kbps cfg) F)
  | None => holds st (rs ++ [(r, s)])
  end.
Proof using Hcfg HF HL.
  intros [Ha Hf Hw Hl] Hk; cbv zeta; split; [apply http_asked|]; set (s := (http_set r w).1).
  assert (Hw' : asked_within (min_kbps cfg) (max_kbps cfg) (rs ++ [(r, s)])).
  { apply asked_within_app; split; [done|constructor; [exact Hk|constructor]]. }
  destruct (asked_kbps r) as [k|] eqn:Er.
  - destruct (ok2xx s) eqn:Es.
    + intros st' Ef Eh El; constructor; rewrite ?Ef, ?Eh, ?El; try done; [|intros _; by apply Hk].
      rewrite accepted_app, Ha; unfold accepted, accept; cbn [fold_left fst snd]; by rewrite Es, Er.
    + split; [constructor; try done; rewrite accepted_app, Ha; unfold accepted, accept; cbn [fold_left fst snd]; by rewrite Es|].
      pose proof (learn_floor_within (floor_kbps st) s k F ltac:(specialize (Hk k eq_refl); lia)
        (fun E => HF r k w Er E)); lia.
  - constructor; try done; rewrite accepted_app, Ha; unfold accepted, accept; cbn [fold_left fst snd]; rewrite Er; by destruct (ok2xx s).
Qed.

Lemma holds_floor st rs st' : holds st rs -> last_applied_kbps st' = last_applied_kbps st -> have_applied st' = have_applied st ->
  min_kbps cfg <= floor_kbps st' <= Z.max (min_kbps cfg) F -> holds st' rs.
Proof. intros [Ha Hf Hw Hl] E1 E2 H3; constructor; rewrite ?E1, ?E2; done. Qed.

Lemma roi_abort_keeps now : keeps (roi_abort now).
Proof using Hcfg HF HL.
  intros st w rs Hh; unfold roi_abort; destruct (_ && _); [|by apply keeps_nothing].
  destruct (holds_http (Set_roi false) st w rs Hh ltac:(done)) as [Ha Hn]; destruct (http_set (Set_roi false) w) as [s w1].
  cbn [fst snd asked_kbps] in *; exists [(Set_roi false, s)]; destruct (ok2xx s); split; try done; exact Hn.
Qed.

Lemma ring_backlogged_keeps now st w rs : have_applied st = true -> holds st rs ->
  exists ext, asked w ext (ring_backlogged cfg now st w).2 /\ holds (ring_backlogged cfg now st w).1 (rs ++ ext).
Proof using Hcfg HF HL.
  intros Hhave Hh; unfold ring_backlogged.
  set (st1 := mark_congested now (st <| last_backlog_ms := now |>)); assert (Hh1 : holds st1 rs) by exact Hh.
  assert (Hhave1 : have_applied st1 = true) by exact Hhave.
  set (target := clamp_u32 _ _ _); set (cut := _ && _).
  assert (Ht : min_kbps cfg <= target <= max_kbps cfg).
  { destruct Hh1 as [_ Hf _ _]; pose proof (clamp_u32_within (f2u32 (dofZ (last_applied_kbps st1) * ring_backoff cfg)%D)
      (floor_kbps st1) (max_kbps cfg) ltac:(lia)) as Hc; fold target in Hc; lia. }
  clearbody target cut; assert (Hroi : have_applied (roi_abort now st1 w).1 = true).
  { unfold roi_abort; destruct (_ && _); [|done]; destruct (http_set _ w) as [s1 w1]; by destruct (ok2xx s1). }
  destruct (roi_abort_keeps now st1 w rs Hh1) as (e1 & Ha1 & Hh2).
  destruct (roi_abort now st1 w) as [st2 w2]; cbn [fst snd] in *; set (roi_on := _ && negb (roi_enabled st2)); clearbody roi_on.
  destruct (cut || roi_on) eqn:Eany; [|by exists e1].
  set (req := if cut then _ else _).
  assert (Hreq : forall k, asked_kbps req = Some k -> cut = true /\ k = target).
  { unfold req; destruct cut, roi_on; cbn; intros k [= <-]; done. }
  destruct (holds_http req st2 w2 (rs ++ e1) Hh2) as [Ha2 Hn]; [intros k Hk; by destruct (Hreq k Hk) as [_ ->]|].
  destruct (http_set req w2) as [s w3]; cbn [fst snd] in *; exists (e1 ++ [(req, s)]).
  destruct (asked_kbps req) as [k|] eqn:Ek.
  - destruct (Hreq k eq_refl) as [-> ->]; destruct (ok2xx s); cbn [fst snd]; (split; [by eapply asked_trans|]); rewrite app_assoc.
    + apply Hn; destruct roi_on; unfold urgent_applied; destruct (_ >? _)%D; done.
    + destruct Hn as [Hn Hfl]; by apply (holds_floor st2).
  - assert (cut = false) as -> by (destruct cut; [|done]; unfold req in Ek; by destruct roi_on).
    destruct (ok2xx s); cbn [fst snd]; (split; [by eapply asked_trans|]); rewrite app_assoc; [destruct roi_on|]; exact Hn.
Qed.

Lemma roi_recover_keeps now : keeps (roi_recover cfg now).
Proof using Hcfg HF HL.
  intros st w rs Hh; unfold roi_recover; destruct (_ && _); [|by apply keeps_nothing].
  destruct (holds_http (Set_roi false) st w rs Hh ltac:(done)) as [Ha Hn]; destruct (http_set (Set_roi false) w) as [s w1].
  cbn [fst snd asked_kbps] in *; exists [(Set_roi false, s)]; destruct (ok2xx s); split; try done; exact Hn.
Qed.

(** A step that only reads changes nothing here. *)
Lemma keeps_read (w w1 : W) (x : rules_state * W) rs :
  asked w [] w1 -> (exists ext, asked w1 ext x.2 /\ holds x.1 (rs ++ ext)) -> exists ext, asked w ext x.2 /\ holds x.1 (rs ++ ext).
Proof using HL. intros Ha (ext & Ha1 & Hh); exists ext; split; [exact (asked_trans w [] w1 ext _ Ha Ha1)|done]. Qed.

Lemma ring_path_keeps now : keeps (ring_path cfg now).
Proof using Hcfg HF HL.
  intros st w rs Hh; unfold ring_path; pose proof (load_asked BC_RING w) as Hl; destruct (bc_load BC_RING w) as [ring w1].
  cbn [snd] in Hl; apply (keeps_read w w1); [done|].
  destruct (_ && have_applied st && _) eqn:E; [|by apply keeps_nothing].
  pose proof (ring_low_water_asked now w1) as Hl2; destruct (ring_low_water now w1) as [slots w2]; cbn [snd] in Hl2.
  apply (keeps_read w1 w2); [done|]; apply andb_true_iff in E as [[_ E]%andb_true_iff _].
  destruct (_ <=? _); [by apply ring_backlogged_keeps|by apply roi_recover_keeps].
Qed.

Lemma apply_cut_keeps target st w rs :
  have_applied st = true -> min_kbps cfg <= target < last_applied_kbps st -> holds st rs ->
  let '(s, k, fl, w') := apply_cut target (last_applied_kbps st) (floor_kbps st) 1 w in
  exists ext, asked w ext w' /\ forall st',
    have_applied st' = true -> floor_kbps st' = fl -> last_applied_kbps st' = (if ok2xx s then k else last_applied_kbps st) ->
    holds st' (rs ++ ext).
Proof using Hcfg HF HL.
  intros Hhave Ht [Ha Hf Hw Hl]; pose proof (Hl Hhave) as Hla; rewrite Hhave in Ha.
  pose proof (apply_cut_spec F 1 target (last_applied_kbps st) (floor_kbps st) w
    ltac:(intros b _ (pre & w0 & _ & Hb); specialize (HF (Set_bitrate b) b w0 eq_refl Hb); lia) ltac:(lia) ltac:(lia) ltac:(lia)) as Hc.
  destruct (apply_cut target _ _ 1 w) as [[[s k] fl] w']; destruct Hc as (ext & Hasked & _ & Hin & Hk & Hfl & Hacc).
  exists ext; split; [done|]; intros st' E1 E2 E3; constructor; rewrite ?E1, ?E2, ?E3.
  - rewrite accepted_app, Ha, Hacc; by destruct (ok2xx s).
  - lia.
  - apply asked_within_app; split; [done|]; eapply list.Forall_impl; [exact Hin|]; cbn; intros x Hx q Hq; specialize (Hx q Hq); lia.
  - intros _; destruct (ok2xx s); lia.
Qed.

Lemma fast_cut_keeps now factor st w rs : have_applied st = true -> holds st rs ->
  exists ext, asked w ext (fast_cut cfg now factor st w).2 /\ holds (fast_cut cfg now factor st w).1 (rs ++ ext).
Proof using Hcfg HF HL.
  intros Hhave Hh; unfold fast_cut; set (target := clamp_u32 _ _ _).
  assert (Ht : min_kbps cfg <= target).
  { destruct Hh as [_ Hf _ _]; pose proof (clamp_u32_within (f2u32 (dofZ (last_applied_kbps st) * factor)%D)
      (floor_kbps st) (max_kbps cfg) ltac:(lia)) as Hc; fold target in Hc; lia. }
  clearbody target; destruct (Z.ltb_spec target (last_applied_kbps st)) as [Hlt|_]; [|by apply keeps_nothing].
  pose proof (apply_cut_keeps target st w rs Hhave ltac:(lia) Hh) as Hc; destruct (apply_cut target _ _ 1 w) as [[[s k] fl] w'].
  destruct Hc as (ext & Ha & Hn); exists ext; destruct (ok2xx s); (split; [done|]); by apply Hn.
Qed.

Lemma ldpc_path_keeps now : keeps (ldpc_path cfg now).
Proof using Hcfg HF HL.
  intros st w rs Hh; unfold ldpc_path; destruct (_ && have_applied st && _ && _) eqn:E; [|by apply keeps_nothing].
  apply andb_true_iff in E as [[[_ E]%andb_true_iff _]%andb_true_iff _].
  pose proof (read_ldpc_asked w) as Hl; destruct (read_ldpc_ratio w) as [[ratio|] w1]; cbn [snd] in Hl;
    (apply (keeps_read w w1); [done|]); [|by apply keeps_nothing].
  destruct (_ >=? _)%D; [|by apply keeps_nothing]; by apply fast_cut_keeps.
Qed.

Lemma retx_path_keeps now : keeps (retx_path cfg now).
Proof using Hcfg HF HL.
  intros st w rs Hh; unfold retx_path; pose proof (load_asked BC_RETX_TOO_MANY w) as Hl.
  destruct (bc_load BC_RETX_TOO_MANY w) as [c w1]; cbn [snd] in Hl; apply (keeps_read w w1); [done|].
  set (st1 := st <| retx_events := _ |>); assert (Hh1 : holds st1 rs) by exact Hh.
  destruct (_ && have_applied st1 && _ && _) eqn:E; [|by apply keeps_nothing].
  apply andb_true_iff in E as [[[_ E]%andb_true_iff _]%andb_true_iff _]; pose proof (load_asked BC_RETX_TOO_MANY w1) as Hl2.
  destruct (bc_load BC_RETX_TOO_MANY w1) as [c2 w2]; cbn [snd] in Hl2; apply (keeps_read w1 w2); [done|].
  destruct (negb _); [|by apply keeps_nothing]; by apply fast_cut_keeps.
Qed.

(** What the radio's path may ask for. *)
Lemma mcs_target_ok now link st rs cutting target : holds st rs -> mcs_target cfg now link st = Some (cutting, target) ->
  min_kbps cfg <= target <= max_kbps cfg /\ (cutting = true -> have_applied st = true /\ target < last_applied_kbps st).
Proof using Hcfg.
  intros [_ Hf _ Hl]; unfold mcs_target; set (t0 := clamp_u32 _ _ _).
  assert (Ht0 : min_kbps cfg <= t0 <= max_kbps cfg).
  { pose proof (clamp_u32_within (f2u32 (dofZ link * margin cfg)%D) (floor_kbps st) (max_kbps cfg) ltac:(lia)) as Hc.
    fold t0 in Hc; lia. }
  clearbody t0; destruct (have_applied st) eqn:Ehave; cbn [andb].
  - specialize (Hl eq_refl); destruct (too_close cfg t0 st); [done|]; destruct (Z.ltb_spec t0 (last_applied_kbps st)) as [Hlt|Hge]; cbn [andb negb].
    { destruct (negb _); [done|]; intros [= <- <-]; by split. }
    destruct (negb _); [done|]; destruct (_ || _); [done|].
    destruct (Z.leb_spec (ramp_target cfg now t0 st) (last_applied_kbps st)) as [|Hgt]; [done|].
    intros [= <- <-]; split; [|done]; pose proof (ramp_target_le cfg now t0 st); lia.
  - intros [= <- <-]; by split.
Qed.

Lemma mcs_path_keeps now : keeps (mcs_path cfg now).
Proof using Hcfg HF HL.
  intros st w rs Hh; unfold mcs_path; pose proof (load_asked BC_WAKE w) as Hl; destruct (bc_load BC_WAKE w) as [k1 w1].
  cbn [snd] in Hl; apply (keeps_read w w1); [done|]; pose proof (load_asked BC_WAKE w1) as Hl1.
  destruct (bc_load BC_WAKE w1) as [k2 w2]; cbn [snd] in Hl1; apply (keeps_read w1 w2); [done|].
  destruct (_ && _ && _); [by apply keeps_nothing|]; pose proof (load_asked BC_SLOT w2) as Hl2.
  destruct (bc_load BC_SLOT w2) as [slot w3]; cbn [snd] in Hl2; apply (keeps_read w2 w3); [done|].
  pose proof (read_tx_throughput_asked slot w3) as Hl3; destruct (read_tx_throughput_kbps slot w3) as [[link|] w4]; cbn [snd] in Hl3;
    (apply (keeps_read w3 w4); [done|]); [|by apply keeps_nothing].
  set (st1 := note_swing _ _ _ _); assert (Hh1 : holds st1 rs).
  { unfold st1, note_swing; cbv zeta; destruct (_ && _); [exact Hh|]; destruct (_ && _ && _); exact Hh. }
  clearbody st1; destruct (mcs_target cfg now link st1) as [[cutting target]|] eqn:Et; [|by apply keeps_nothing].
  destruct (mcs_target_ok now link st1 rs cutting target Hh1 Et) as [Hin Hcut]; unfold mcs_apply.
  destruct cutting; cbn [andb].
  - destruct (Hcut eq_refl) as [Hhave Hlt]; rewrite Hhave.
    pose proof (apply_cut_keeps target st1 w4 rs Hhave ltac:(lia) Hh1) as Hc; destruct (apply_cut target _ _ 1 w4) as [[[s k] fl] w'].
    destruct Hc as (ext & Ha & Hn); exists ext; destruct (ok2xx s); cbn [negb fst snd]; (split; [done|]); by apply Hn.
  - destruct (holds_http (Set_bitrate target) st1 w4 rs Hh1) as [Ha Hn]; [intros k [= <-]; lia|].
    destruct (http_set (Set_bitrate target) w4) as [s w5]; cbn [fst snd asked_kbps] in *; exists [(Set_bitrate target, s)].
    destruct (ok2xx s); cbn [negb fst snd]; (split; [done|]); [by apply Hn|by destruct Hn].
Qed.

Lemma rules_tick_keeps now : keeps (rules_tick cfg now).
Proof using Hcfg HF HL.
  intros st w rs Hh; unfold rules_tick.
  pose proof (ring_path_keeps now st w rs Hh) as H1; destruct (ring_path cfg now st w) as [st1 w1].
  pose proof (keeps_after _ (st1, w1) w rs (ldpc_path_keeps now) H1) as H2; cbn [fst snd] in H2.
  destruct (ldpc_path cfg now st1 w1) as [st2 w2].
  pose proof (keeps_after _ (st2, w2) w rs (retx_path_keeps now) H2) as H3; cbn [fst snd] in H3.
  destruct (retx_path cfg now st2 w2) as [st3 w3].
  exact (keeps_after _ (st3, w3) w rs (mcs_path_keeps now) H3).
Qed.

Lemma rules_run_keeps nows : keeps (rules_run cfg nows).
Proof using Hcfg HF HL.
  induction nows as [|now nows IH]; intros st w rs Hh; cbn [rules_run]; [by apply keeps_nothing|].
  pose proof (rules_tick_keeps now st w rs Hh) as H1; destruct (rules_tick cfg now st w) as [st1 w1].
  exact (keeps_after _ (st1, w1) w rs IH H1).
Qed.

(** C38. Whatever the radio, the ring and the encoder report, and however
    long it runs, the rule-based controller asks only for rates between its
    bounds, remembers exactly the rate the encoder accepted last, and never
    learns a floor above the encoder's real one. *)
Theorem rules_track_the_encoder nows w :
  let '(st, w') := rules_run cfg nows (rules_init cfg) w in
  exists rs, bc_log w' = bc_log w ++ (entry <$> rs) /\ asked_within (min_kbps cfg) (max_kbps cfg) rs /\
    accepted None rs = (if have_applied st then Some (last_applied_kbps st) else None) /\
    min_kbps cfg <= floor_kbps st <= Z.max (min_kbps cfg) F.
Proof using Hcfg HF HL.
  assert (Hi : holds (rules_init cfg) []) by (constructor; cbn; try done; [lia|constructor]).
  destruct (rules_run_keeps nows _ w [] Hi) as (rs & Ha & Hh); destruct (rules_run cfg nows _ w) as [st w']; cbn [fst snd] in *.
  destruct Hh as [H1 [H2 H2'] H3 _]; exists rs; by split_and!.
Qed.
End bounded.

(** ** Pacing *)

(** One line per tick: its time, and the applied rate (if any) before and
    after it. *)
Definition applied st : option Z := if have_applied st then Some (last_applied_kbps st) else None.

Fixpoint rules_trace {W : Type} `{BcEnv W} (cfg : bc_cfg) (nows : list Z) (st : rules_state) (w : W) : list (Z * option Z * option Z) :=
  match nows with
  | [] => []
  | now :: nows => let '(st', w') := rules_tick cfg now st w in (now, applied st, applied st') :: rules_trace cfg nows st' w'
  end.

Definition raised (l : Z * option Z * option Z) : Prop := exists a b, l.1.2 = Some a /\ l.2 = Some b /\ a < b.
Definition lowered (l : Z * option Z * option Z) : Prop := exists a b, l.1.2 = Some a /\ l.2 = Some b /\ b < a.

Section paced.
Context {W : Type} `{HE : BcEnv W} `{HL : !BcLog W} (cfg : bc_cfg).
Hypothesis Hcfg : 0 <= min_kbps cfg <= max_kbps cfg /\ max_kbps cfg < 4294967296.
Hypothesis Hsettle : 0 < ramp_settle_ms cfg < 2147483648.
Hypothesis Hinterval : 0 < min_interval_ms cfg < 2147483648.

Definition sane st : Prop := 0 <= last_applied_kbps st < 4294967296 /\ 0 <= floor_kbps st < 4294967296.

(** What a part of the tick at time [now] may do to the applied rate. *)
Record moved (now : Z) (st st' : rules_state) : Prop := {
  mv_sane : sane st';
  mv_have : have_applied st = true -> have_applied st' = true;
  mv_cut : last_cut_ms st' = last_cut_ms st \/ last_cut_ms st' = now;
  mv_inc : last_increase_ms st' = last_increase_ms st \/ last_increase_ms st' = now;
  mv_congested : congested_until_ms st' = congested_until_ms st \/ congested_until_ms st' = u64 (now + CONGESTED_HOLD_MS);
  mv_down : have_applied st = true -> last_applied_kbps st' < last_applied_kbps st ->
    last_cut_ms st' = now /\ congested_until_ms st' = u64 (now + CONGESTED_HOLD_MS);
  mv_up : have_applied st = true -> last_applied_kbps st < last_applied_kbps st' ->
    last_increase_ms st' = now /\ elapsed now (last_increase_ms st) (min_interval_ms cfg) = true /\
    elapsed now (last_cut_ms st) (ramp_settle_ms cfg) = true
}.

Lemma elapsed_now now p : 0 < p < 2147483648 -> elapsed now now p = false.
Proof. intros Hp; unfold elapsed; rewrite Z.sub_diag, !u64_id by lia; apply Z.leb_gt; lia. Qed.

Lemma moved_trans now a b c : moved now a b -> moved now b c -> moved now a c.
Proof using Hsettle Hinterval.
  intros [S1 H1 C1 I1 G1 D1 U1] [S2 H2 C2 I2 G2 D2 U2]; constructor; try done.
  - auto.
  - destruct C2 as [->| ->]; auto.
  - destruct I2 as [->| ->]; auto.
  - destruct G2 as [->| ->]; auto.
  - intros Hh Hlt; specialize (H1 Hh); destruct (Z.lt_ge_cases (last_applied_kbps c) (last_applied_kbps b)) as [Hcb|Hcb]; [by apply D2|].
    destruct (D1 Hh ltac:(lia)) as [E1 E2]; split; [destruct C2 as [->| ->]|destruct G2 as [->| ->]]; done.
  - intros Hh Hlt; specialize (H1 Hh); destruct (Z.lt_ge_cases (last_applied_kbps a) (last_applied_kbps b)) as [Hab|Hab].
    + destruct (U1 Hh Hab) as (E1 & E2 & E3); split_and!; try done; destruct I2 as [->| ->]; done.
    + destruct (U2 H1 ltac:(lia)) as (E1 & E2 & E3); split; [done|]; split.
      * destruct I1 as [<-|E]; [done|]; rewrite E, elapsed_now in E2; done.
      * destruct C1 as [<-|E]; [done|]; rewrite E, elapsed_now in E3; done.
Qed.

(** The rate is left as it is. *)
Lemma moved_same now st st' :
  sane st -> 0 <= floor_kbps st' < 4294967296 -> last_applied_kbps st' = last_applied_kbps st -> have_applied st' = have_applied st ->
  last_cut_ms st' = last_cut_ms st -> last_increase_ms st' = last_increase_ms st ->
  (congested_until_ms st' = congested_until_ms st \/ congested_until_ms st' = u64 (now + CONGESTED_HOLD_MS)) -> moved now st st'.
Proof.
  intros [? ?] Hf E1 E2 E3 E4 E5; constructor;
    [split; lia|by rewrite E2|by left|by left|exact E5|intros; lia|intros; lia].
Qed.

Lemma moved_refl now st : sane st -> moved now st st.
Proof. intros Hs; apply moved_same; try done; [apply Hs|by left]. Qed.

(** A cut. *)
Lemma moved_cut now st st' :
  sane st -> 0 <= floor_kbps st' < 4294967296 -> 0 <= last_applied_kbps st' < last_applied_kbps st -> have_applied st' = have_applied st ->
  last_cut_ms st' = now -> last_increase_ms st' = last_increase_ms st ->
  congested_until_ms st' = u64 (now + CONGESTED_HOLD_MS) -> moved now st st'.
Proof.
  intros [? ?] Hf E1 E2 E3 E4 E5; constructor;
    [split; lia|by rewrite E2|by right|by left|by right|done|intros; lia].
Qed.

Lemma learn_floor_sane f s k : 0 <= f < 4294967296 -> 0 <= learn_floor f s k < 4294967296.
Proof. intros Hf; unfold learn_floor; pose proof (u32_range (k + 1)); destruct (_ && _); lia. Qed.

Lemma clamp_sane st x : sane st -> 0 <= clamp_u32 (f2u32 x) (floor_kbps st) (max_kbps cfg) < 4294967296.
Proof using Hcfg. intros [_ Hf]; pose proof (f2u32_range x); unfold clamp_u32; if_cases; lia. Qed.

Lemma apply_cut_sane k c fl w : 0 <= k < c -> c < 4294967296 -> 0 <= fl < 4294967296 ->
  let '(_, k', fl', _) := apply_cut k c fl 1 w in k <= k' < c /\ 0 <= fl' < 4294967296.
Proof using HL.
  intros Hk Hc Hf; pose proof (apply_cut_loop_spec 5 0 k c fl 1 w Hk Hc ltac:(done)) as Hl; unfold apply_cut.
  destruct (apply_cut_loop 5 0 k c fl 1 w) as [[[s k'] fl'] w']; destruct Hl as (ks & _ & _ & _ & Hk' & -> & _ & _); split; [done|].
  clear Hk'; revert fl Hf; induction ks as [|b ks IH]; intros fl Hf; [done|]; apply IH, learn_floor_sane, Hf.
Qed.

Lemma roi_abort_moved now st w : sane st -> moved now st (roi_abort now st w).1.
Proof.
  intros Hs; unfold roi_abort; destruct (_ && _); [|by apply moved_refl]; destruct (http_set _ w) as [s w1].
  destruct (ok2xx s); (apply moved_same; [done|apply Hs|done..|by left]).
Qed.

Lemma ring_backlogged_moved now st w : sane st -> moved now st (ring_backlogged cfg now st w).1.
Proof using Hcfg Hsettle Hinterval.
  intros Hs; unfold ring_backlogged; set (st1 := mark_congested now (st <| last_backlog_ms := now |>)).
  assert (H1 : moved now st st1) by (apply moved_same; try done; [apply Hs|by right]).
  assert (Hs1 : sane st1) by exact Hs; pose proof (clamp_sane st1 (dofZ (last_applied_kbps st1) * ring_backoff cfg)%D Hs1) as Ht.
  set (target := clamp_u32 _ _ _) in *; pose proof (roi_abort_moved now st1 w Hs1) as H2.
  assert (Hroi : last_applied_kbps (roi_abort now st1 w).1 = last_applied_kbps st1 /\
    congested_until_ms (roi_abort now st1 w).1 = u64 (now + CONGESTED_HOLD_MS)).
  { unfold roi_abort; destruct (_ && _); [|done]; destruct (http_set _ w) as [s1 w1]; by destruct (ok2xx s1). }
  destruct (roi_abort now st1 w) as [st2 w2]; cbn [fst] in *; destruct Hroi as [Hla Hcg].
  assert (Hs2 : sane st2) by (destruct H2; done); apply (moved_trans now st st1); [done|]; apply (moved_trans now st1 st2); [done|].
  set (cut := (target <? _) && _); assert (Hcut : cut = true -> target < last_applied_kbps st2).
  { intros [E _]%andb_true_iff; bool_to_prop; lia. }
  clearbody cut target; set (roi_on := _ && negb _); clearbody roi_on.
  destruct (cut || roi_on); [|by apply moved_refl]; destruct (http_set _ w2) as [s w3]; destruct (ok2xx s); cbn [fst].
  - destruct cut.
    + specialize (Hcut eq_refl); destruct roi_on; unfold urgent_applied; destruct (_ >? _)%D;
        (apply moved_cut; [exact Hs2|exact (proj2 Hs2)|split; [exact (proj1 Ht)|exact Hcut]|reflexivity..|exact Hcg]).
    + destruct roi_on; [|by apply moved_refl]; apply moved_same; try done; [apply Hs2|by left].
  - destruct cut; [|by apply moved_refl]; apply moved_same; try done; [|by left]; apply learn_floor_sane, Hs2.
Qed.

Lemma roi_recover_moved now st w : sane st -> moved now st (roi_recover cfg now st w).1.
Proof.
  intros Hs; unfold roi_recover; destruct (_ && _); [|by apply moved_refl]; destruct (http_set _ w) as [s w1].
  destruct (ok2xx s); (apply moved_same; [done|apply Hs|done..|by left]).
Qed.

Lemma ring_path_moved now st w : sane st -> moved now st (ring_path cfg now st w).1.
Proof using Hcfg Hsettle Hinterval.
  intros Hs; unfold ring_path; destruct (bc_load BC_RING w) as [ring w1]; destruct (_ && _); [|by apply moved_refl].
  destruct (ring_low_water now w1) as [slots w2]; destruct (_ <=? _); [by apply ring_backlogged_moved|by apply roi_recover_moved].
Qed.

Lemma fast_cut_moved now factor st w : sane st -> moved now st (fast_cut cfg now factor st w).1.
Proof using Hcfg HL.
  intros Hs; unfold fast_cut; pose proof (clamp_sane st (dofZ (last_applied_kbps st) * factor)%D Hs) as Ht; set (target := clamp_u32 _ _ _) in *.
  clearbody target; destruct (Z.ltb_spec target (last_applied_kbps st)) as [Hlt|_]; [|by apply moved_refl].
  pose proof (apply_cut_sane target _ _ w ltac:(split; [lia|exact Hlt]) (proj2 (proj1 Hs)) (proj2 Hs)) as Hc.
  destruct (apply_cut target _ _ 1 w) as [[[s k] fl] w']; destruct Hc as [Hk Hf]; destruct (ok2xx s).
  - apply moved_cut; [done|exact Hf|cbn; lia|done..].
  - apply moved_same; [done|exact Hf|done..|by left].
Qed.

(** What was read or noted beforehand does not matter. *)
Lemma moved_after now st st1 st' :
  moved now st1 st' -> last_applied_kbps st1 = last_applied_kbps st -> have_applied st1 = have_applied st ->
  last_cut_ms st1 = last_cut_ms st -> last_increase_ms st1 = last_increase_ms st -> congested_until_ms st1 = congested_until_ms st ->
  moved now st st'.
Proof. intros [? ? ? ? ? ? ?] E1 E2 E3 E4 E5; constructor; rewrite <- ?E1, <- ?E2, <- ?E3, <- ?E4, <- ?E5; done. Qed.

Lemma ldpc_path_moved now st w : sane st -> moved now st (ldpc_path cfg now st w).1.
Proof using Hcfg HL.
  intros Hs; unfold ldpc_path; destruct (_ && _); [|by apply moved_refl].
  set (st1 := st <| last_ldpc_apply_ms := now |>); assert (Hs1 : sane st1) by exact Hs.
  apply (moved_after now st st1); try done; destruct (read_ldpc_ratio w) as [[ratio|] w1]; [|by apply moved_refl].
  destruct (_ >=? _)%D; [by apply fast_cut_moved|by apply moved_refl].
Qed.

Lemma retx_path_moved now st w : sane st -> moved now st (retx_path cfg now st w).1.
Proof using Hcfg HL.
  intros Hs; unfold retx_path; destruct (bc_load BC_RETX_TOO_MANY w) as [c w1].
  set (st1 := st <| retx_events := _ |>); assert (Hs1 : sane st1) by exact Hs; apply (moved_after now st st1); try done.
  destruct (_ && _); [|by apply moved_refl]; destruct (bc_load BC_RETX_TOO_MANY w1) as [c2 w2].
  destruct (negb _); [|by apply moved_refl].
  set (st2 := st1 <| last_seen_retx_too_many := c2 |> <| last_retx_event_apply_ms := now |>); assert (Hs2 : sane st2) by exact Hs.
  apply (moved_after now st1 st2); try done; by apply fast_cut_moved.
Qed.

(** When the radio's path asks for a raise, the periods have passed. *)
Lemma mcs_target_paced now link st cutting target :
  sane st -> mcs_target cfg now link st = Some (cutting, target) ->
  0 <= target < 4294967296 /\
  (cutting = true -> have_applied st = true /\ target < last_applied_kbps st) /\
  (cutting = false -> have_applied st = true -> last_applied_kbps st < target /\
     elapsed now (last_increase_ms st) (min_interval_ms cfg) = true /\ elapsed now (last_cut_ms st) (ramp_settle_ms cfg) = true).
Proof using Hcfg.
  intros Hs; pose proof (clamp_sane st (dofZ link * margin cfg)%D Hs) as Ht; unfold mcs_target; set (t0 := clamp_u32 _ _ _) in *.
  clearbody t0; destruct (have_applied st) eqn:Ehave; cbn [andb]; [|by intros [= <- <-]].
  destruct (too_close cfg t0 st); [done|]; destruct (Z.ltb_spec t0 (last_applied_kbps st)) as [Hlt|Hge]; cbn [andb negb].
  { destruct (negb _); [done|]; intros [= <- <-]; split; [done|by split]. }
  destruct (elapsed now (last_increase_ms st) _); [|done]; cbn [negb]; destruct (elapsed now (last_backlog_ms st) _); [|done].
  destruct (elapsed now (last_cut_ms st) _); [|done]; cbn [negb orb]; pose proof (ramp_target_le cfg now t0 st).
  destruct (Z.leb_spec (ramp_target cfg now t0 st) (last_applied_kbps st)) as [|Hgt]; [done|].
  intros [= <- <-]; destruct Hs as [Ha _]; split_and!; try done; lia.
Qed.

Lemma mcs_apply_moved now cutting target st w :
  sane st -> 0 <= target < 4294967296 -> (cutting = true -> have_applied st = true /\ target < last_applied_kbps st) ->
  (cutting = false -> have_applied st = true -> last_applied_kbps st < target /\
     elapsed now (last_increase_ms st) (min_interval_ms cfg) = true /\ elapsed now (last_cut_ms st) (ramp_settle_ms cfg) = true) ->
  moved now st (mcs_apply now cutting target st w).1.
Proof using HL.
  intros Hs Ht Hcut Hup; unfold mcs_apply; destruct cutting; cbn [andb].
  - destruct (Hcut eq_refl) as [Hhave Hlt]; rewrite Hhave.
    pose proof (apply_cut_sane target _ _ w ltac:(split; [lia|exact Hlt]) (proj2 (proj1 Hs)) (proj2 Hs)) as Hc.
    destruct (apply_cut target _ _ 1 w) as [[[s k] fl] w']; destruct Hc as [Hk Hf]; destruct (ok2xx s); cbn [negb].
    + apply moved_cut; [done|exact Hf|cbn; lia|by cbn|done..].
    + apply moved_same; [done|exact Hf|done..|by left].
  - destruct (http_set _ w) as [s w1]; destruct (ok2xx s); cbn [negb]; [|by apply moved_refl].
    constructor; [split; [exact Ht|exact (proj2 Hs)]|done|by left|by right|by left| |].
    + intros Hh Hlt; destruct (Hup eq_refl Hh) as [Hgt _]; cbn in Hlt; lia.
    + intros Hh _; by destruct (Hup eq_refl Hh) as (_ & ? & ?).
Qed.

Lemma mcs_path_moved now st w : sane st -> moved now st (mcs_path cfg now st w).1.
Proof using Hcfg HL.
  intros Hs; unfold mcs_path; destruct (bc_load BC_WAKE w) as [k1 w1]; destruct (bc_load BC_WAKE w1) as [k2 w2].
  set (st1 := st <| last_seen_wake := k2 |>); apply (moved_after now st st1); try done.
  destruct (_ && _ && _); [by apply moved_refl|]; destruct (bc_load BC_SLOT w2) as [slot w3].
  set (st2 := st1 <| last_mcs_poll_ms := now |>); apply (moved_after now st1 st2); try done.
  destruct (read_tx_throughput_kbps slot w3) as [[link|] w4]; [|by apply moved_refl].
  set (st3 := note_swing cfg now link st2).
  assert (E : last_applied_kbps st3 = last_applied_kbps st2 /\ floor_kbps st3 = floor_kbps st2 /\ have_applied st3 = have_applied st2 /\
    last_cut_ms st3 = last_cut_ms st2 /\ last_increase_ms st3 = last_increase_ms st2 /\ congested_until_ms st3 = congested_until_ms st2).
  { unfold st3, note_swing; cbv zeta; destruct (_ && _); [done|]; by destruct (_ && _ && _). }
  clearbody st3; destruct E as (E1 & E2 & E3 & E4 & E5 & E6); apply (moved_after now st2 st3); try done.
  assert (Hs3 : sane st3) by (split; rewrite ?E1, ?E2; apply Hs).
  destruct (mcs_target cfg now link st3) as [[cutting target]|] eqn:Et; [|by apply moved_refl].
  destruct (mcs_target_paced now link st3 cutting target Hs3 Et) as (H1 & H2 & H3); by apply mcs_apply_moved.
Qed.

Lemma rules_tick_moved now st w : sane st -> moved now st (rules_tick cfg now st w).1.
Proof using Hcfg HL Hsettle Hinterval.
  intros Hs; unfold rules_tick; pose proof (ring_path_moved now st w Hs) as H1; destruct (ring_path cfg now st w) as [st1 w1].
  pose proof (ldpc_path_moved now st1 w1 (mv_sane _ _ _ H1)) as H2; destruct (ldpc_path cfg now st1 w1) as [st2 w2].
  pose proof (retx_path_moved now st2 w2 (mv_sane _ _ _ H2)) as H3; destruct (retx_path cfg now st2 w2) as [st3 w3].
  pose proof (mcs_path_moved now st3 w3 (mv_sane _ _ _ H3)) as H4; eauto using moved_trans.
Qed.

(** From a state on, raises keep their distance from the cut and the raise
    it remembers. *)
Lemma elapsed_since now since p : 0 < p < 2147483648 -> 0 <= since <= now -> now < 2 ^ 63 -> elapsed now since p = true -> p <= now - since.
Proof. intros Hp Hs Hn; unfold elapsed; rewrite !u64_id by lia; intros E; bool_to_prop; lia. Qed.

Lemma raised_paced nows : forall st w, sane st -> StronglySorted Z.le nows ->
  Forall (fun now => 0 <= last_cut_ms st <= now /\ 0 <= last_increase_ms st <= now /\ now < 2 ^ 63) nows ->
  Forall (fun l => raised l -> ramp_settle_ms cfg <= l.1.1 - last_cut_ms st /\ min_interval_ms cfg <= l.1.1 - last_increase_ms st)
    (rules_trace cfg nows st w).
Proof using Hcfg HL Hsettle Hinterval.
  induction nows as [|now nows IH]; intros st w Hs Hsort Hall; cbn [rules_trace]; [constructor|].
  apply Forall_cons_1 in Hall as [(Hc & Hi & Hn) Hall].
  inversion_clear Hsort as [|? ? Hss Hle]; pose proof (rules_tick_moved now st w Hs) as Hm.
  destruct (rules_tick cfg now st w) as [st1 w1]; cbn [fst] in Hm; constructor.
  - intros (a & b & Ea & Eb & Hab); cbn [fst snd] in *; unfold applied in *.
    destruct (have_applied st) eqn:Hh; [|done]; injection Ea as <-; rewrite (mv_have _ _ _ Hm Hh) in Eb; injection Eb as <-.
    destruct (mv_up _ _ _ Hm Hh Hab) as (_ & E1 & E2); split; apply elapsed_since; try done; lia.
  - assert (Hall1 : Forall (fun t => 0 <= last_cut_ms st1 <= t /\ 0 <= last_increase_ms st1 <= t /\ t < 2 ^ 63) nows).
    { rewrite list.Forall_forall in *; intros t Ht; destruct (Hall t Ht) as (? & ? & ?).
      specialize (Hle t Ht); destruct (mv_cut _ _ _ Hm) as [->| ->], (mv_inc _ _ _ Hm) as [->| ->]; lia. }
    pose proof (IH st1 w1 (mv_sane _ _ _ Hm) Hss Hall1) as Hrec.
    eapply list.Forall_impl; [exact Hrec|]; intros l Hl Hr; specialize (Hl Hr).
    destruct (mv_cut _ _ _ Hm) as [E| E], (mv_inc _ _ _ Hm) as [E2| E2]; rewrite E, E2 in Hl; lia.
Qed.

Lemma congested_kept nows : forall st w c, sane st ->
  Forall (fun now => 0 <= now < 2 ^ 63 /\ c <= now + CONGESTED_HOLD_MS) nows -> c <= congested_until_ms st ->
  c <= congested_until_ms (rules_run cfg nows st w).1.
Proof using Hcfg HL Hsettle Hinterval.
  induction nows as [|now nows IH]; intros st w c Hs Hall Hc; cbn [rules_run]; [done|].
  apply Forall_cons_1 in Hall as [[Hn Hcn] Hall]; pose proof (rules_tick_moved now st w Hs) as Hm.
  destruct (rules_tick cfg now st w) as [st1 w1]; cbn [fst] in Hm; apply IH; [exact (mv_sane _ _ _ Hm)|done|].
  unfold CONGESTED_HOLD_MS in *; destruct (mv_congested _ _ _ Hm) as [->| ->]; [done|]; unfold CONGESTED_HOLD_MS; rewrite u64_id; lia.
Qed.

(** [R] holds between a tick and every later one. *)
Definition later_raise (x y : Z * option Z * option Z) : Prop :=
  raised y -> (lowered x -> ramp_settle_ms cfg <= y.1.1 - x.1.1) /\ (raised x -> min_interval_ms cfg <= y.1.1 - x.1.1).

Lemma rules_paced_from nows : forall st w, sane st -> StronglySorted Z.le nows ->
  Forall (fun now => 0 <= last_cut_ms st <= now /\ 0 <= last_increase_ms st <= now /\ now < 2 ^ 63) nows ->
  ForallOrdPairs later_raise (rules_trace cfg nows st w) /\
  Forall (fun l => lowered l -> l.1.1 + CONGESTED_HOLD_MS <= congested_until_ms (rules_run cfg nows st w).1) (rules_trace cfg nows st w).
Proof using Hcfg HL Hsettle Hinterval.
  induction nows as [|now nows IH]; intros st w Hs Hsort Hall; cbn [rules_trace rules_run]; [split; constructor|].
  apply Forall_cons_1 in Hall as [(Hc & Hi & Hn) Hall]; inversion_clear Hsort as [|? ? Hss Hle].
  pose proof (rules_tick_moved now st w Hs) as Hm; destruct (rules_tick cfg now st w) as [st1 w1]; cbn [fst] in Hm.
  rewrite list.Forall_forall in Hle; rewrite list.Forall_forall in Hall; pose proof (mv_sane _ _ _ Hm) as Hs1.
  assert (Hall1 : Forall (fun t => 0 <= last_cut_ms st1 <= t /\ 0 <= last_increase_ms st1 <= t /\ t < 2 ^ 63) nows).
  { apply list.Forall_forall; intros t Ht; destruct (Hall t Ht) as (? & ? & ?); specialize (Hle t Ht).
    destruct (mv_cut _ _ _ Hm) as [->| ->], (mv_inc _ _ _ Hm) as [->| ->]; lia. }
  destruct (IH st1 w1 Hs1 Hss Hall1) as [IH1 IH2]; split; constructor; try done.
  - eapply list.Forall_impl; [exact (raised_paced nows st1 w1 Hs1 Hss Hall1)|]; intros l Hl Hr; destruct (Hl Hr) as [H1 H2].
    split; intros (a & b & Ea & Eb & Hab); cbn [fst snd] in *; unfold applied in *; destruct (have_applied st) eqn:Hh; try done;
      injection Ea as <-; rewrite (mv_have _ _ _ Hm Hh) in Eb; injection Eb as <-.
    + by destruct (mv_down _ _ _ Hm Hh Hab) as [<- _].
    + by destruct (mv_up _ _ _ Hm Hh Hab) as [<- _].
  - intros (a & b & Ea & Eb & Hab); cbn [fst snd] in *; unfold applied in *; destruct (have_applied st) eqn:Hh; [|done].
    injection Ea as <-; rewrite (mv_have _ _ _ Hm Hh) in Eb; injection Eb as <-; destruct (mv_down _ _ _ Hm Hh Hab) as [_ E].
    apply congested_kept; [done| |rewrite E, u64_id; unfold CONGESTED_HOLD_MS; lia].
    apply list.Forall_forall; intros t Ht; specialize (Hle t Ht); destruct (Hall t Ht) as (? & ? & ?); lia.
Qed.

(** The rule-based controller keeps its distances, whatever its inputs:
    between a cut of the applied rate - by the ring, by radio errors or by
    the radio's own capacity - and a later raise lies the settling time, and
    between two raises the interval for raises; and 1.5 s after each cut the
    link still counts as congested. *)
Theorem rules_paced nows w :
  StronglySorted Z.le nows -> Forall (fun now => 0 <= now < 2 ^ 63) nows ->
  let trace := rules_trace cfg nows (rules_init cfg) w in
  ForallOrdPairs later_raise trace /\
  Forall (fun l => lowered l -> forall now, now < l.1.1 + CONGESTED_HOLD_MS ->
            bitrate_ctl_congested now (congested_until_ms (rules_run cfg nows (rules_init cfg) w).1) = true) trace.
Proof using Hcfg HL Hsettle Hinterval.
  intros Hsort Hall trace; destruct (rules_paced_from nows (rules_init cfg) w) as [H1 H2]; try done.
  - split; cbn; lia.
  - eapply list.Forall_impl; [exact Hall|]; cbn; lia.
  - split; [done|]; eapply list.Forall_impl; [exact H2|]; intros l Hl Hlow now Hn; specialize (Hl Hlow).
    unfold bitrate_ctl_congested; apply Z.ltb_lt; lia.
Qed.
End paced.

(** ** A concrete run: the link at 20 Mbit/s, a fade, and back *)

Definition demo_cfg : bc_cfg := tx_bc_cfg (dlit 545 1000) 512 35000 0 1 6 (dlit 92 100).
Definition demo_vars (v : bc_var) : Z := match v with BC_DEV | BC_RING => 1 | _ => 0 end.
Definition demo_radio : demo_bc := mk_demo_bc [20000; 20000; 6000; 1500; 6000; 20000; 20000; 20000; 20000] demo_vars [].
Definition demo_nows : list Z := [1000; 1500; 2000; 2500; 3000; 3500; 4000; 4500; 5000].

Lemma rules_track_the_encoder_witness :
  let '(st, w') := @rules_run _ (demo_bc_env 0) demo_cfg demo_nows (rules_init demo_cfg) demo_radio in
  last_applied_kbps st = 10900 /\ exists rs, db_log w' = [] ++ (entry <$> rs) /\ accepted None rs = Some 10900 /\
    asked_within 512 35000 rs.
Proof.
  pose proof (@rules_track_the_encoder _ (demo_bc_env 0) (demo_bc_log 0) demo_cfg 0 ltac:(cbn; lia) ltac:(done) demo_nows demo_radio) as Hth.
  assert (E : (let st := (@rules_run _ (demo_bc_env 0) demo_cfg demo_nows (rules_init demo_cfg) demo_radio).1 in
    (last_applied_kbps st, have_applied st)) = (10900, true)) by (vm_compute; reflexivity).
  destruct (rules_run _ _ _ _) as [st w']; cbn [fst] in E; injection E as E1 E2; split; [exact E1|].
  destruct Hth as (rs & Hl & Hw & Ha & _); exists rs; rewrite E2, E1 in Ha; split_and!; [exact Hl|exact Ha|exact Hw].
Defined.

(** The fade cuts at 2.0 s and 2.5 s; the way back up starts at 3.5 s. *)
Lemma rules_paced_witness :
  @rules_trace _ (demo_bc_env 0) demo_cfg demo_nows (rules_init demo_cfg) demo_radio
  = [(1000, None, Some 10900); (1500, Some 10900, Some 10900); (2000, Some 10900, Some 3270); (2500, Some 3270, Some 817);
     (3000, Some 817, Some 817); (3500, Some 817, Some 6540); (4000, Some 6540, Some 8175); (4500, Some 8175, Some 10218);
     (5000, Some 10218, Some 10900)] /\
  ForallOrdPairs (later_raise demo_cfg) (@rules_trace _ (demo_bc_env 0) demo_cfg demo_nows (rules_init demo_cfg) demo_radio).
Proof.
  split; [vm_compute; reflexivity|].
  apply (@rules_paced _ (demo_bc_env 0) (demo_bc_log 0) demo_cfg ltac:(cbn; lia) ltac:(cbn; lia) ltac:(cbn; lia) demo_nows demo_radio).
  - repeat constructor; lia.
  - repeat constructor; lia.
Defined.
