(* ===== verification/BitratePi.v ===== *)
(** [tx/bitrate_ctl.c]'s PI controller, [run_pi]: capacity feedforward times
    a PI term on the air-side delay, frame-rate stages below the encoder's
    floor, focus mode. *)

From Stdlib Require Import Floats.SpecFloat.
From S2P Require Import Prelude Double BitrateCtl BitrateRules.
#[local] Open Scope Z_scope.

Definition PI_TICK_MS : Z := 100.
Definition PI_DISTURB_HOLD_MS : Z := 500.
Definition PI_CONGESTED_FACTOR : double := dofZ 2.
Definition PI_STALE_MS : Z := 150.
Definition PI_MIN_UP_STEP : double := dlit 5 100.
Definition PI_MIN_DOWN_STEP : double := dlit 3 100.
Definition PI_FOCUS_RETRY_MS : Z := 1000.
Definition PI_FPS_RESTORE : double := dlit 125 100.

(** [run_pi]'s locals, and [g_congested_until_ms].  [pi_div] and [pi_on] (the
    source's [div] and [focus]) are -1 while the encoder's state is unknown. *)
Record pi_state := mk_pi {
  pi_cap_kbps : Z; pi_mcs_poll_ms : Z; pi_seen_wake : Z; pi_ki : double; pi_k : double; pi_applied_kbps : Z; pi_apply_ms : Z;
  pi_floor_kbps : Z; pi_ldpc_ms : Z; pi_disturb_ms : Z; pi_severe_ms : Z; pi_backlog_ms : Z; pi_retx : retx_track; pi_retx_seen : Z;
  pi_tick_ms : Z; pi_ring_gen : Z; pi_on : Z; pi_above_since_ms : Z; pi_focus_try_ms : Z; pi_div_max : Z; pi_div : Z;
  pi_up_since_ms : Z; pi_div_try_ms : Z; pi_congested_ms : Z
}.
#[export] Instance eta_pi : Eta pi_state := fun s =>
  mk_pi (pi_cap_kbps s) (pi_mcs_poll_ms s) (pi_seen_wake s) (pi_ki s) (pi_k s) (pi_applied_kbps s) (pi_apply_ms s) (pi_floor_kbps s)
    (pi_ldpc_ms s) (pi_disturb_ms s) (pi_severe_ms s) (pi_backlog_ms s) (pi_retx s) (pi_retx_seen s) (pi_tick_ms s) (pi_ring_gen s)
    (pi_on s) (pi_above_since_ms s) (pi_focus_try_ms s) (pi_div_max s) (pi_div s) (pi_up_since_ms s) (pi_div_try_ms s)
    (pi_congested_ms s).

Definition cfg_div_max (cfg : bc_cfg) : Z := if 1 <? fps_div_max cfg then fps_div_max cfg else 1.

Definition pi_init (cfg : bc_cfg) (now gen : Z) : pi_state :=
  mk_pi 0 0 0 (dofZ 1) (dofZ 1) 0 0 (min_kbps cfg) 0 0 0 0 retx_track_init 0 now gen (-1) 0 0 (cfg_div_max cfg)
    (if 1 <? cfg_div_max cfg then -1 else 1) 0 0 0.

Definition cur_div (st : pi_state) : Z := if 0 <? pi_div st then pi_div st else 1.
Definition no_such_field (status : Z) : bool := (status =? 404) || (status =? 501).

Section pi.
Context {W : Type} `{BcEnv W} (cfg : bc_cfg) (now : Z).
Implicit Types (st : pi_state) (w : W).

(** *** Focus mode *)

(** Whether the centre-priority ROI is wanted, and the bookkeeping. *)
Definition focus_want st : bool * pi_state :=
  if pi_applied_kbps st <? roi_max_kbps cfg then (true, st <| pi_above_since_ms := 0 |>)
  else
    let st := if pi_above_since_ms st =? 0 then st <| pi_above_since_ms := now |> else st in
    ((pi_on st =? 1) && (u64 (now - pi_above_since_ms st) <? u64 (roi_recovery_ms cfg)), st).

Definition pi_focus st w : pi_state * W :=
  if (roi_max_kbps cfg =? 0) || (pi_applied_kbps st =? 0) then (st, w) else
  let '(want, st) := focus_want st in
  if (bool_int want =? pi_on st) || (u64 (now - pi_focus_try_ms st) <? PI_FOCUS_RETRY_MS) then (st, w) else
  let st := st <| pi_focus_try_ms := now |> in
  let '(status, w) := http_set (Set_roi want) w in
  (if ok2xx status then st <| pi_on := bool_int want |> else st, w).

(** *** The encoder's divisor *)

Definition send_fps_div (div kbps : Z) w : Z * W :=
  if negb (kbps =? 0) then http_set (Set_fps_div_bitrate div kbps) w else http_set (Set_fps_div div) w.

(** waybeam restarted: forget what was applied. *)
Definition pi_restarted st w : pi_state * W :=
  let '(gen, w) := bc_load BC_RING_GENERATION w in
  (if negb (gen =? pi_ring_gen st) then
     st <| pi_ring_gen := gen |> <| pi_applied_kbps := 0 |> <| pi_on := -1 |> <| pi_div_max := cfg_div_max cfg |> <| pi_div := 1 |>
        <| pi_up_since_ms := 0 |>
   else st, w).

Definition pi_reset_div st w : pi_state * W :=
  if (pi_div st <? 0) && (PI_FOCUS_RETRY_MS <=? u64 (now - pi_div_try_ms st)) then
    let st := st <| pi_div_try_ms := now |> in
    let '(status, w) := send_fps_div 1 (pi_floor_kbps st) w in
    (if no_such_field status then st <| pi_div_max := 1 |> <| pi_div := 1 |>
     else if ok2xx status then st <| pi_div := 1 |> else st, w)
  else (st, w).

(** *** Signals *)

(** [d_ms] *)
Definition pi_delay w : double * W :=
  let '(delay_us, w) := bc_load BC_DELAY_US w in
  let '(done_ms, w) := bc_load BC_LAST_TX_DONE_MS w in
  let d_ms := (dofZ delay_us / dofZ 1000)%D in
  (if negb (done_ms =? 0) && (u64 (done_ms + PI_STALE_MS) <? now) && (dofZ (u64 (now - done_ms)) >? d_ms)%D
   then dofZ (u64 (now - done_ms)) else d_ms, w).

Definition pi_capacity st w : pi_state * W :=
  let '(wake, w) := bc_load BC_WAKE w in
  let woken := negb (wake =? pi_seen_wake st) in
  let '(wake, w) := bc_load BC_WAKE w in
  let st := st <| pi_seen_wake := wake |> in
  if (pi_cap_kbps st =? 0) || woken || (u64 (poll_interval_ms cfg) <=? u64 (now - pi_mcs_poll_ms st)) then
    let st := st <| pi_mcs_poll_ms := now |> in
    let '(slot, w) := bc_load BC_SLOT w in
    let '(c, w) := read_tx_throughput_kbps slot w in
    match c with
    | Some c => (if negb (c =? 0) then st <| pi_cap_kbps := c |> else st, w)
    | None => (st, w)
    end
  else (st, w).

Definition pi_ldpc st w : double * pi_state * W :=
  if (ldpc_ratio_high cfg >? dofZ 0)%D && (LDPC_BACKOFF_MIN_INTERVAL_MS <=? u64 (now - pi_ldpc_ms st)) then
    let '(ratio, w) := read_ldpc_ratio w in (default (dofZ 0) ratio, st <| pi_ldpc_ms := now |>, w)
  else (dofZ 0, st, w).

(** Radio disturbances; the [bool] is whether [why] is set. *)
Definition pi_disturb st w : bool * pi_state * W :=
  let '(c, w) := bc_load BC_RETX_TOO_MANY w in
  let st := st <| pi_retx := see_retx c now (pi_retx st) |> in
  let recent := recent_retx now (pi_retx st) in
  let new_retx := negb (pi_retx_seen st =? rt_counted (pi_retx st)) in
  let st := st <| pi_retx_seen := rt_counted (pi_retx st) |> in
  let '(ldpc, st, w) := pi_ldpc st w in
  if ((ldpc_severe_ratio cfg >? dofZ 0)%D && (ldpc >=? ldpc_severe_ratio cfg)%D) ||
     ((0 <? pi_retx_severe_events cfg) && (pi_retx_severe_events cfg <=? recent)) then
    let '(why, st) := if (pi_ki st >? pi_severe_k cfg)%D then (true, st <| pi_ki := pi_severe_k cfg |>) else (false, st) in
    (why, st <| pi_severe_ms := now |> <| pi_disturb_ms := now |>, w)
  else if (((ldpc_ratio_high cfg >? dofZ 0)%D && (ldpc >=? ldpc_ratio_high cfg)%D) || new_retx) &&
          (PI_DISTURB_HOLD_MS <=? u64 (now - pi_disturb_ms st)) then
    (true, st <| pi_ki := (pi_ki st * pi_mild_trim cfg)%D |> <| pi_disturb_ms := now |>, w)
  else (false, st, w).

(** The ring's backlog: the hard backstop. *)
Definition pi_backlog (why : bool) st w : bool * pi_state * W :=
  let '(ring, w) := bc_load BC_RING w in
  if negb (ring =? 0) then
    let '(slots, w) := ring_low_water now w in
    if (ring_backlog_high_slots cfg <=? slots) && (RING_CUT_HOLDOFF_MS <=? u64 (now - pi_backlog_ms st)) then
      (true, st <| pi_ki := ((if (pi_k st <? pi_ki st)%D then pi_k st else pi_ki st) * ring_backoff cfg)%D |> <| pi_backlog_ms := now |>, w)
    else (why, st, w)
  else (why, st, w).

(** *** The controller *)

Definition pi_base st : double := (dofZ (pi_cap_kbps st) * margin cfg)%D.

(** The integrator and [k]. *)
Definition pi_integrate (d_ms dt : double) st : pi_state :=
  let e := (pi_delay_set_ms cfg - d_ms)%D in
  let kp := if (e <? dofZ 0)%D then pi_kp_down cfg else pi_kp_up cfg in
  let ki := if (e <? dofZ 0)%D then pi_ki_down cfg else pi_ki_up cfg in
  let applied := pi_applied_kbps st in
  let at_floor := negb (applied =? 0) && (applied <=? pi_floor_kbps st / cur_div st) && (pi_div_max st <=? cur_div st) in
  let held_up := negb (applied =? 0) && (dofZ applied <? pi_base st * pi_k st * dlit 9 10)%D in
  let k_i := pi_ki st in
  let k_i := if ((e >? dofZ 0)%D && negb held_up && (applied <? max_kbps cfg)) || ((e <? dofZ 0)%D && negb at_floor)
             then (k_i + ki * e * dt)%D else k_i in
  let k_i := if (pi_recover_per_s cfg >? dofZ 0)%D && (e >? dofZ 0)%D && negb held_up && (k_i <? dofZ 1)%D &&
                ((pi_disturb_ms st =? 0) || (1000 <=? u64 (now - pi_disturb_ms st)))
             then (k_i + pi_recover_per_s cfg * dt)%D else k_i in
  let k_min := (pi_k_min cfg / dofZ (pi_div_max st))%D in
  let k_i := dclamp k_min (pi_k_max cfg) k_i in
  let k := dclamp k_min (pi_k_max cfg) (k_i + kp * e)%D in
  st <| pi_ki := k_i |> <| pi_k := k |>.

Definition pi_congest (d_ms : double) st : pi_state :=
  if (d_ms >? pi_delay_set_ms cfg * PI_CONGESTED_FACTOR)%D ||
     (negb (pi_severe_ms st =? 0) && (u64 (now - pi_severe_ms st) <? 1500))
  then st <| pi_congested_ms := u64 (now + CONGESTED_HOLD_MS) |> else st.

(** The frame-rate stage wanted. *)
Definition pi_stage (target : double) st : Z * pi_state :=
  let d := cur_div st in
  if (0 <? pi_div st) && (1 <? pi_div_max st) then
    if (target <? dofZ (pi_floor_kbps st) / dofZ d)%D && (d * 2 <=? pi_div_max st) then (d * 2, st <| pi_up_since_ms := 0 |>)
    else if (1 <? d) && (target >=? dofZ (pi_floor_kbps st) / dofZ (d / 2) * PI_FPS_RESTORE)%D then
      let st := if pi_up_since_ms st =? 0 then st <| pi_up_since_ms := now |> else st in
      (if u64 (fps_recovery_ms cfg) <=? u64 (now - pi_up_since_ms st) then d / 2 else d, st)
    else (d, st <| pi_up_since_ms := 0 |>)
  else (d, st).

(** The rate to ask for at divisor [want_div]. *)
Definition pi_target (target dt : double) (want_div : Z) st : Z :=
  let applied := pi_applied_kbps st in
  let target :=
    if negb (applied =? 0) && (target >? dofZ applied)%D then
      let cap_up := (dofZ applied * (dofZ 1 + pi_slew_up cfg * dt))%D in
      if (target >? cap_up)%D then cap_up else target
    else target in
  let target := if (target <? dofZ (pi_floor_kbps st) / dofZ want_div)%D then (dofZ (pi_floor_kbps st) / dofZ want_div)%D else target in
  let target := if (target >? dofZ (max_kbps cfg))%D then dofZ (max_kbps cfg) else target in
  f2u32 target.

(** A change of the frame-rate stage. *)
Definition pi_switch (want_div t : Z) st w : pi_state * W :=
  let '(status, w) := send_fps_div want_div t w in
  (if no_such_field status then st <| pi_div_max := 1 |>
   else if negb (ok2xx status) then st <| pi_floor_kbps := learn_floor (pi_floor_kbps st) status (u32 (t * want_div)) |>
   else st <| pi_div := want_div |> <| pi_up_since_ms := 0 |> <| pi_applied_kbps := t |> <| pi_apply_ms := now |>, w).

(** Not worth a request. *)
Definition pi_skip (why : bool) (t : Z) st : bool :=
  let applied := pi_applied_kbps st in
  let rel := ((dofZ t - dofZ applied) / dofZ applied)%D in
  let due := 1000 <=? u64 (now - pi_apply_ms st) in
  (if (rel >? dofZ 0)%D then (rel <? PI_MIN_UP_STEP)%D && negb due else (dneg rel <? PI_MIN_DOWN_STEP)%D && negb why) ||
  (t =? applied).

Definition pi_send (why : bool) (t : Z) st w : pi_state * W :=
  let applied := pi_applied_kbps st in
  if negb (applied =? 0) && pi_skip why t st then (st, w) else
  let '(status, t, floor, w) :=
    if negb (applied =? 0) && (t <? applied) then apply_cut t applied (pi_floor_kbps st) (cur_div st) w
    else let '(status, w) := http_set (Set_bitrate t) w in (status, t, pi_floor_kbps st, w) in
  let st := st <| pi_floor_kbps := floor |> in
  (if ok2xx status then st <| pi_applied_kbps := t |> <| pi_apply_ms := now |> else st, w).

(** The part of the tick behind [if (!cap_kbps) continue]. *)
Definition pi_control (d_ms dt : double) st w : pi_state * W :=
  let '(why, st, w) := pi_disturb st w in
  let '(why, st, w) := pi_backlog why st w in
  let '(st, w) := pi_focus st w in
  let st := pi_congest d_ms (pi_integrate d_ms dt st) in
  let target := (pi_base st * pi_k st)%D in
  let '(want_div, st) := pi_stage target st in
  let t := pi_target target dt want_div st in
  if negb (want_div =? cur_div st) then pi_switch want_div t st w else pi_send why t st w.

Definition pi_tick st w : pi_state * W :=
  let dt := (dofZ (u64 (now - pi_tick_ms st)) / dofZ 1000)%D in
  let st := st <| pi_tick_ms := now |> in
  let '(st, w) := pi_restarted st w in
  let '(st, w) := pi_reset_div st w in
  let '(d_ms, w) := pi_delay w in
  let '(st, w) := pi_capacity st w in
  if pi_cap_kbps st =? 0 then (st, w) else pi_control d_ms dt st w.
End pi.

Fixpoint pi_run {W : Type} `{BcEnv W} (cfg : bc_cfg) (nows : list Z) (st : pi_state) (w : W) : pi_state * W :=
  match nows with
  | [] => (st, w)
  | now :: nows => let '(st, w) := pi_tick cfg now st w in pi_run cfg nows st w
  end.

(** ** What the controller keeps *)

Definition asked_div (r : live_set) : option Z :=
  match r with Set_fps_div d | Set_fps_div_bitrate d _ => Some d | _ => None end.

(** The divisor a request is for, [d] being the one in force. *)
Definition sent_with (d : Z) (r : live_set) : Z := default d (asked_div r).

(** The divisor the encoder accepted last; it starts at the full rate. *)
Definition accept_div (a : Z) (x : live_set * Z) : Z := if ok2xx x.2 then sent_with a x.1 else a.
Definition in_force (rs : list (live_set * Z)) : Z := fold_left accept_div rs 1.

(** No rate asked for is below the floor [f] over the divisor it is for. *)
Definition above (f d : Z) (rs : list (live_set * Z)) : Prop :=
  Forall (fun x => forall k, asked_kbps x.1 = Some k -> f / sent_with d x.1 <= k) rs.

(** The divisors the encoder knows, up to [-D]. *)
Definition stage_ok (cfg : bc_cfg) (d : Z) : Prop := (d = 1 \/ d = 2 \/ d = 4) /\ d <= cfg_div_max cfg.
Definition stages_ok (cfg : bc_cfg) (rs : list (live_set * Z)) : Prop :=
  Forall (fun x => forall d, asked_div x.1 = Some d -> stage_ok cfg d) rs.

(** Since [w0] the encoder, whose floor at divisor [d] is [f / d], kept the
    divisor it accepted last: what it refuses is below that floor. *)
Definition keeps_divisor {W : Type} `{HE : BcEnv W} `{!BcLog W} (cfg : bc_cfg) (f : Z) (w0 : W) : Prop :=
  forall rs r k (w : W), asked w0 rs w -> stages_ok cfg rs -> asked_kbps r = Some k -> (http_set r w).1 = 409 ->
    k * sent_with (in_force rs) r < f.

Lemma in_force_app rs rs' : in_force (rs ++ rs') = fold_left accept_div rs' (in_force rs).
Proof. apply fold_left_app. Qed.

Lemma in_force_rates rs rs' : Forall (fun x => exists b, x.1 = Set_bitrate b) rs' -> in_force (rs ++ rs') = in_force rs.
Proof.
  rewrite in_force_app; generalize (in_force rs) as a; induction 1 as [|x rs' [b E] _ IH]; [done|]; cbn [fold_left].
  replace (accept_div a x) with a; [done|]; unfold accept_div; rewrite E; cbn; by destruct (ok2xx x.2).
Qed.

Lemma in_force_ok cfg rs : 1 <= cfg_div_max cfg -> stages_ok cfg rs -> stage_ok cfg (in_force rs).
Proof.
  intros H1; unfold in_force; assert (Ha : stage_ok cfg 1) by (unfold stage_ok; lia); revert Ha; generalize 1 as a.
  induction rs as [|x rs IH]; intros a Ha Hs; cbn [fold_left]; [done|]; apply Forall_cons_1 in Hs as [Hx Hs]; apply IH; [|done].
  unfold accept_div, sent_with; destruct (ok2xx x.2); [|done]; destruct (asked_div x.1); cbn; [by apply Hx|done].
Qed.

(** *** The rate asked for *)
Section target.
Context (cfg : bc_cfg).
Hypothesis Hmax : 0 <= max_kbps cfg < 4294967296.

Lemma pi_target_range target dt d st : small target -> 0 <= pi_target cfg target dt d st <= max_kbps cfg.
Proof using Hmax.
  intros Hs; unfold pi_target; cbv zeta; split; [apply f2u32_range|].
  set (t1 := if _ && _ then _ else target); assert (Hs1 : small t1).
  { unfold t1; destruct (_ && _); [|done]; destruct (_ >? _)%D; [apply small_dmul|done]. }
  clearbody t1; set (t2 := if (t1 <? _)%D then _ else t1); assert (Hs2 : small t2) by (unfold t2; destruct (_ <? _)%D; [apply small_ddiv|done]).
  clearbody t2; destruct (t2 >? dofZ (max_kbps cfg))%D eqn:E; [rewrite f2u32_dofZ; lia|apply f2u32_le; [lia|done|done]].
Qed.

(** It is not below the floor of the divisor it is sent with. *)
Lemma pi_target_floor target dt d st :
  is_number target = true -> pow2_div d -> 0 < pi_floor_kbps st <= max_kbps cfg -> 0 <= pi_applied_kbps st <= max_kbps cfg ->
  pi_floor_kbps st / d <= pi_target cfg target dt d st.
Proof using Hmax.
  intros Hn Hd Hf Ha; unfold pi_target; cbv zeta; set (t1 := if _ && _ then _ else target).
  assert (Hn1 : norm t1 /\ t1 <> S754_nan).
  { assert (Ht : norm target /\ target <> S754_nan) by (split; [by apply is_number_norm|by intros ->]).
    unfold t1; destruct (Z.eqb_spec (pi_applied_kbps st) 0) as [|Hne]; cbn [negb andb]; [done|]; destruct (target >? _)%D; [|done].
    destruct (target >? _)%D eqn:E; [|done]; split; [apply norm_dmul; lia|by intros Enan; rewrite Enan in E]. }
  clearbody t1; destruct (dofZ_div (pi_floor_kbps st) d ltac:(lia) Hd) as (m & e & Efl & Hm & Eq); rewrite Efl.
  assert (Hq : pi_floor_kbps st / d <= max_kbps cfg).
  { etransitivity; [|apply Hf]; apply Z.div_le_upper_bound; destruct Hd as [->|[-> | ->]]; lia. }
  destruct (t1 <? _)%D eqn:E1; (destruct (_ >? dofZ (max_kbps cfg))%D; [rewrite f2u32_dofZ; lia|]); rewrite <- Eq; [done|].
  destruct Hn1 as [Hn1 Hn2]; by apply f2u32_ge.
Qed.
End target.

Section bounded.
Context {W : Type} `{HE : BcEnv W} `{HL : !BcLog W} (cfg : bc_cfg) (F : Z) (w0 : W).
Hypothesis Hcfg : 1 <= min_kbps cfg <= max_kbps cfg /\ F <= max_kbps cfg /\ max_kbps cfg * 4 < 4294967295.
Hypothesis Hdiv : fps_div_max cfg = 1 \/ fps_div_max cfg = 2 \/ fps_div_max cfg = 4.
(** What a refusal can teach is below [F]. *)
Hypothesis HF : forall rs r k d (w : W), asked w0 rs w -> stages_ok cfg rs -> (forall d, asked_div r = Some d -> stage_ok cfg d) ->
  asked_kbps r = Some k -> 0 <= k -> (http_set r w).1 = 409 -> 1 <= d <= sent_with (in_force rs) r -> k * d < F.

(** The divisor is unknown only with frame-rate stages. *)
Definition div_ok (d : Z) : Prop := (d = -1 /\ fps_div_max cfg <> 1) \/ stage_ok cfg d.

(** The divisor counted with is the full rate's or the one in force. *)
Definition believed (d : Z) (rs : list (live_set * Z)) : Prop := d = 1 \/ d = in_force rs.

Record pi_ok (st : pi_state) (rs : list (live_set * Z)) : Prop := {
  po_applied : fps_div_max cfg = 1 -> pi_applied_kbps st = 0 \/ accepted None rs = Some (pi_applied_kbps st);
  po_range : 0 <= pi_applied_kbps st <= max_kbps cfg;
  po_floor : min_kbps cfg <= pi_floor_kbps st <= Z.max (min_kbps cfg) F;
  po_asked : asked_within 0 (max_kbps cfg) rs;
  po_div : div_ok (pi_div st);
  po_div_max : stage_ok cfg (pi_div_max st);
  po_divs : stages_ok cfg rs;
  po_believed : believed (cur_div st) rs
}.

Lemma div_max_range : 1 <= cfg_div_max cfg <= 4 /\ stage_ok cfg (cfg_div_max cfg) /\ stage_ok cfg 1.
Proof using Hdiv. unfold stage_ok, cfg_div_max; destruct Hdiv as [->|[->| ->]]; cbn; lia. Qed.

(** A part of the tick from [st] keeps it and learns no floor. *)
Definition kept (st : pi_state) (w : W) rs (st' : pi_state) (w' : W) : Prop := asked w0 rs w ->
  exists ext, asked w ext w' /\ pi_ok st' (rs ++ ext) /\ pi_floor_kbps st' = pi_floor_kbps st /\ forall d, above (pi_floor_kbps st) d ext.

(** The tick as a whole. *)
Definition moved (st : pi_state) (w : W) rs (st' : pi_state) (w' : W) : Prop := asked w0 rs w ->
  exists ext, asked w ext w' /\ pi_ok st' (rs ++ ext) /\
    (is_number (pi_base cfg st' * pi_k st')%D = true -> above (pi_floor_kbps st) (cur_div st') ext).

(** Only these fields matter. *)
Definition same (st st' : pi_state) : Prop :=
  (pi_applied_kbps st', pi_floor_kbps st', pi_div st', pi_div_max st') = (pi_applied_kbps st, pi_floor_kbps st, pi_div st, pi_div_max st).

Lemma pi_ok_ext st st' rs : pi_ok st rs -> same st st' -> pi_ok st' rs.
Proof. intros [? ? ? ? ? ? ? Hb] [= E1 E2 E3 E4]; unfold cur_div in Hb; constructor; unfold cur_div; rewrite ?E1, ?E2, ?E3, ?E4; done. Qed.

Lemma kept_same st st' w rs : pi_ok st rs -> same st st' -> kept st w rs st' w.
Proof using HL.
  intros Hh Hs _; exists []; split; [apply asked_refl|]; rewrite app_nil_r; split; [by eapply pi_ok_ext|].
  split; [by injection Hs|intros d; constructor].
Qed.

Lemma kept_trans st1 w1 rs st2 w2 st3 w3 :
  kept st1 w1 rs st2 w2 -> (forall rs', pi_ok st2 rs' -> kept st2 w2 rs' st3 w3) -> kept st1 w1 rs st3 w3.
Proof.
  intros H1 H2 Hl; destruct (H1 Hl) as (e1 & Ha1 & Hh1 & Ef1 & Hb1); destruct (H2 _ Hh1 (asked_trans _ _ _ _ _ Hl Ha1)) as (e2 & Ha2 & Hh2 & Ef2 & Hb2).
  exists (e1 ++ e2); split; [by eapply asked_trans|]; rewrite app_assoc; split; [done|split; [congruence|]].
  intros d; apply Forall_app; split; [apply Hb1|rewrite <- Ef1; apply Hb2].
Qed.

Lemma kept_moved st1 w1 rs st2 w2 st3 w3 :
  kept st1 w1 rs st2 w2 -> (forall rs', pi_ok st2 rs' -> moved st2 w2 rs' st3 w3) -> moved st1 w1 rs st3 w3.
Proof.
  intros H1 H2 Hl; destruct (H1 Hl) as (e1 & Ha1 & Hh1 & Ef1 & Hb1); destruct (H2 _ Hh1 (asked_trans _ _ _ _ _ Hl Ha1)) as (e2 & Ha2 & Hh2 & Hb2).
  exists (e1 ++ e2); split; [by eapply asked_trans|]; rewrite app_assoc; split; [done|].
  intros Hn; apply Forall_app; split; [apply Hb1|rewrite <- Ef1; by apply Hb2].
Qed.

Lemma moved_kept st w rs st' w' : kept st w rs st' w' -> moved st w rs st' w'.
Proof. intros Hk Hl; destruct (Hk Hl) as (e & Ha & Hh & _ & Hb); exists e; split; [done|split; [done|]]; intros _; apply Hb. Qed.

Lemma kept_read w1 w2 st rs st' w3 : asked w1 [] w2 -> kept st w2 rs st' w3 -> kept st w1 rs st' w3.
Proof.
  intros Ha Hk Hl; pose proof (asked_trans _ _ _ _ _ Hl Ha) as Hl2; rewrite app_nil_r in Hl2; destruct (Hk Hl2) as (e & Ha2 & Hr).
  exists e; split; [exact (asked_trans w1 [] w2 e w3 Ha Ha2)|done].
Qed.

(** One request. *)
Lemma pi_ok_http r st w rs :
  asked w0 rs w -> pi_ok st rs -> (forall k, asked_kbps r = Some k -> 0 <= k <= max_kbps cfg) ->
  (forall d, asked_div r = Some d -> stage_ok cfg d) ->
  let s := (http_set r w).1 in
  asked w [(r, s)] (http_set r w).2 /\
  (forall k d, asked_kbps r = Some k -> s = 409 -> 1 <= d <= sent_with (in_force rs) r -> k * d < F) /\
  (ok2xx s = false \/ asked_kbps r = None /\ asked_div r = None -> pi_ok st (rs ++ [(r, s)])) /\
  (forall st', ok2xx s = true -> 0 <= pi_applied_kbps st' <= max_kbps cfg ->
     (fps_div_max cfg = 1 -> pi_applied_kbps st' = 0 \/ asked_kbps r = Some (pi_applied_kbps st')) ->
     pi_floor_kbps st' = pi_floor_kbps st -> div_ok (pi_div st') -> stage_ok cfg (pi_div_max st') ->
     cur_div st' = 1 \/ cur_div st' = sent_with (in_force rs) r ->
     pi_ok st' (rs ++ [(r, s)])).
Proof using HF HL.
  intros Hl [Ha Hr Hf Hw Hd Hm Hds Hb] Hk Hdr; cbv zeta; set (s := (http_set r w).1); split; [apply http_asked|].
  assert (Hw' : asked_within 0 (max_kbps cfg) (rs ++ [(r, s)])) by (apply asked_within_app; split; [done|by apply Forall_singleton]).
  assert (Hds' : stages_ok cfg (rs ++ [(r, s)])) by (apply Forall_app; split; [done|by apply Forall_singleton]).
  assert (Hacc : accepted None (rs ++ [(r, s)]) = if ok2xx s then match asked_kbps r with Some k => Some k | None => accepted None rs end
                 else accepted None rs) by (rewrite accepted_app; reflexivity).
  assert (Hdv : in_force (rs ++ [(r, s)]) = if ok2xx s then sent_with (in_force rs) r else in_force rs) by (rewrite in_force_app; reflexivity).
  split_and!.
  - intros k d Er Es Hd1; apply (HF rs r k d w); try done; by apply Hk.
  - intros Hor; constructor; try done.
    + intros HD; destruct (Ha HD) as [Hz|Hz]; [by left|right]; rewrite Hacc; destruct Hor as [-> | [-> _]]; [done|]; by destruct (ok2xx s).
    + unfold believed in *; rewrite Hdv; destruct Hor as [-> | [_ E]]; [done|]; unfold sent_with; rewrite E; by destruct (ok2xx s).
  - intros st' Es Hr' Hst Efl Hd' Hm' Hb'; constructor; rewrite ?Efl; try done.
    + intros HD; destruct (Hst HD) as [?|E]; [by left|right]; by rewrite Hacc, Es, E.
    + unfold believed; by rewrite Hdv, Es.
Qed.

(** A request that sets neither the rate nor the divisor. *)
Lemma kept_roi on st st' w rs : pi_ok st rs -> same st st' -> kept st w rs st' (http_set (Set_roi on) w).2.
Proof using HF HL.
  intros Hh Hs Hl; destruct (pi_ok_http (Set_roi on) st w rs Hl Hh ltac:(done) ltac:(done)) as (Ha & _ & Hn & _).
  eexists; split; [exact Ha|]; split; [apply (pi_ok_ext st); [apply Hn; by right|done]|]; split; [by injection Hs|].
  intros d; apply Forall_singleton; done.
Qed.

Lemma pi_focus_kept now st w rs : pi_ok st rs -> kept st w rs (pi_focus cfg now st w).1 (pi_focus cfg now st w).2.
Proof using HF HL.
  intros Hh; unfold pi_focus; destruct (_ || _); [by apply kept_same|].
  assert (Ef : same st (focus_want cfg now st).2) by (unfold focus_want; destruct (_ <? _); [done|]; by destruct (_ =? 0)).
  destruct (focus_want cfg now st) as [want st1]; cbn [snd] in Ef; destruct (_ || _); [by apply kept_same|].
  assert (Hk : forall st', same st st' -> kept st w rs st' (http_set (Set_roi want) w).2) by (intros st'; by apply kept_roi).
  destruct (http_set (Set_roi want) w) as [s w1]; cbn [snd] in Hk; destruct (ok2xx s); by apply Hk.
Qed.

(** A request for a divisor. *)
Definition stage_req (d t : Z) : live_set := if negb (t =? 0) then Set_fps_div_bitrate d t else Set_fps_div d.

Lemma send_fps_div_req d t (w : W) : send_fps_div d t w = http_set (stage_req d t) w.
Proof. unfold send_fps_div, stage_req; by destruct (t =? 0). Qed.

Lemma stage_req_asks d t k : asked_kbps (stage_req d t) = Some k -> k = t.
Proof. unfold stage_req; destruct (t =? 0); cbn; intros [= <-]; done. Qed.
Lemma stage_req_div d t : asked_div (stage_req d t) = Some d.
Proof. unfold stage_req; by destruct (t =? 0). Qed.
Lemma stage_req_above f d t s d' : f / d <= t -> above f d' [(stage_req d t, s)].
Proof. intros Ht; apply Forall_singleton; intros k ->%stage_req_asks; unfold sent_with; cbn [fst]; by rewrite stage_req_div. Qed.

Lemma pi_reset_div_kept now st w rs : pi_ok st rs -> kept st w rs (pi_reset_div now st w).1 (pi_reset_div now st w).2.
Proof using Hcfg Hdiv HF HL.
  intros Hh; unfold pi_reset_div; destruct (_ && _) eqn:E; [|by apply kept_same]; rewrite send_fps_div_req; intros Hl.
  destruct div_max_range as (_ & _ & H1); set (st1 := st <| pi_div_try_ms := now |>).
  assert (Hh1 : pi_ok st1 rs) by (by apply (pi_ok_ext st)); pose proof (po_floor _ _ Hh1) as Hfl.
  destruct (pi_ok_http (stage_req 1 (pi_floor_kbps st1)) st1 w rs Hl Hh1) as (Ha & _ & Hn & Hy).
  { intros k ->%stage_req_asks; lia. } { intros d; rewrite stage_req_div; by intros [= <-]. }
  destruct (http_set _ w) as [s w1]; cbn [fst snd] in *; eexists; split; [exact Ha|]; unfold no_such_field.
  assert (HD : fps_div_max cfg <> 1).
  { apply andb_true_iff in E as [E _]; apply Z.ltb_lt in E; destruct (po_div _ _ Hh) as [[_ ?]|[? _]]; [done|lia]. }
  assert (Hst : forall m, stage_ok cfg m -> ok2xx s = false -> pi_ok (st1 <| pi_div_max := m |> <| pi_div := 1 |>) (rs ++ [(stage_req 1 (pi_floor_kbps st1), s)])).
  { intros m Hm Es; destruct (Hn (or_introl Es)) as [? ? ? ? ? ? ? ?]; constructor; try done; [by right|by left]. }
  split; [|split].
  - destruct ((s =? 404) || (s =? 501)) eqn:E404.
    + apply Hst; [done|]; apply orb_true_iff in E404 as [E404|E404]; apply Z.eqb_eq in E404 as ->; reflexivity.
    + destruct (ok2xx s) eqn:Es; [|apply Hn; by left].
      apply Hy; [done|exact (po_range _ _ Hh1)|done|done|by right|exact (po_div_max _ _ Hh1)|by left].
  - by destruct (_ || _); [|destruct (ok2xx s)].
  - intros d; apply stage_req_above; by rewrite Z.div_1_r.
Qed.

Lemma pi_restarted_kept st w rs : pi_ok st rs -> kept st w rs (pi_restarted cfg st w).1 (pi_restarted cfg st w).2.
Proof using Hcfg Hdiv HL.
  intros Hh; unfold pi_restarted; pose proof (load_asked BC_RING_GENERATION w) as Hl; destruct (bc_load _ w) as [gen w1].
  cbn [fst snd] in *; apply (kept_read w w1); [done|]; destruct (negb _); [|by apply kept_same].
  intros _; exists []; split; [apply asked_refl|]; rewrite app_nil_r; split; [|split; [done|intros d; constructor]].
  destruct Hh; destruct div_max_range as (_ & Hm & H1); constructor; cbn; try done; [by left|lia|by right|by left].
Qed.

Lemma pi_capacity_kept now st w rs : pi_ok st rs -> kept st w rs (pi_capacity cfg now st w).1 (pi_capacity cfg now st w).2.
Proof using HL.
  intros Hh; unfold pi_capacity; pose proof (load_asked BC_WAKE w) as Hl; destruct (bc_load BC_WAKE w) as [k1 w1]; cbn [snd] in Hl.
  apply (kept_read w w1); [done|]; pose proof (load_asked BC_WAKE w1) as Hl1; destruct (bc_load BC_WAKE w1) as [k2 w2]; cbn [snd] in Hl1.
  apply (kept_read w1 w2); [done|]; destruct (_ || _); [|by apply kept_same].
  pose proof (load_asked BC_SLOT w2) as Hl2; destruct (bc_load BC_SLOT w2) as [slot w3]; cbn [snd] in Hl2; apply (kept_read w2 w3); [done|].
  pose proof (read_tx_throughput_asked slot w3) as Hl3; destruct (read_tx_throughput_kbps slot w3) as [[c|] w4]; cbn [snd] in Hl3;
    (apply (kept_read w3 w4); [done|]); [destruct (negb _)|]; by apply kept_same.
Qed.

Lemma pi_delay_asked now w : asked w [] (pi_delay now w).2.
Proof.
  unfold pi_delay; pose proof (load_asked BC_DELAY_US w) as Hl; destruct (bc_load BC_DELAY_US w) as [k1 w1]; cbn [snd] in Hl.
  pose proof (load_asked BC_LAST_TX_DONE_MS w1) as Hl1; destruct (bc_load BC_LAST_TX_DONE_MS w1) as [k2 w2]; cbn [snd] in *.
  exact (asked_trans w [] w1 [] w2 Hl Hl1).
Qed.

Lemma pi_disturb_kept now st w rs : pi_ok st rs -> kept st w rs (pi_disturb cfg now st w).1.2 (pi_disturb cfg now st w).2.
Proof using HL.
  intros Hh; unfold pi_disturb; pose proof (load_asked BC_RETX_TOO_MANY w) as Hl; destruct (bc_load _ w) as [c w1]; cbn [snd] in Hl.
  apply (kept_read w w1); [done|]; set (st1 := st <| pi_retx := _ |>); set (st2 := st1 <| pi_retx_seen := _ |>).
  assert (Hld : asked w1 [] (pi_ldpc cfg now st2 w1).2 /\ same st (pi_ldpc cfg now st2 w1).1.2).
  { unfold pi_ldpc; destruct (_ && _); [|split; [apply asked_refl|done]].
    pose proof (read_ldpc_asked w1) as Hr; destruct (read_ldpc_ratio w1) as [r w2]; split; [exact Hr|done]. }
  destruct (pi_ldpc cfg now st2 w1) as [[ldpc st3] w2]; destruct Hld as [Hl2 Hs]; cbn [fst snd] in *; apply (kept_read w1 w2); [done|].
  destruct (_ || _); [destruct (_ >? _)%D|destruct (_ && _)]; by apply kept_same.
Qed.

Lemma pi_backlog_kept now why st w rs : pi_ok st rs -> kept st w rs (pi_backlog cfg now why st w).1.2 (pi_backlog cfg now why st w).2.
Proof using HL.
  intros Hh; unfold pi_backlog; pose proof (load_asked BC_RING w) as Hl; destruct (bc_load _ w) as [ring w1]; cbn [snd] in Hl.
  apply (kept_read w w1); [done|]; destruct (negb _); [|by apply kept_same].
  pose proof (ring_low_water_asked now w1) as Hl1; destruct (ring_low_water now w1) as [slots w2]; cbn [snd] in Hl1.
  apply (kept_read w1 w2); [done|]; destruct (_ && _); by apply kept_same.
Qed.

Lemma cur_div_ok st rs : pi_ok st rs -> stage_ok cfg (cur_div st).
Proof using Hdiv.
  intros Hh; unfold cur_div; destruct (po_div _ _ Hh) as [[-> _]|Hs]; [apply div_max_range|].
  destruct (Z.ltb_spec 0 (pi_div st)); [done|]; destruct Hs as [? _]; lia.
Qed.

Lemma pi_stage_ok now target st rs : pi_ok st rs ->
  stage_ok cfg (pi_stage cfg now target st).1 /\ same st (pi_stage cfg now target st).2.
Proof using Hdiv.
  intros Hh; pose proof (cur_div_ok st rs Hh) as Hc; pose proof (po_div_max _ _ Hh) as Hm; unfold pi_stage.
  destruct ((0 <? pi_div st) && _); [|done]; destruct (_ && (cur_div st * 2 <=? _)) eqn:E1.
  - apply andb_true_iff in E1 as [_ E1]; apply Z.leb_le in E1; split; [cbn [fst]; unfold stage_ok in *; lia|done].
  - destruct ((1 <? cur_div st) && _) eqn:E2; [|split; [exact Hc|done]]; apply andb_true_iff in E2 as [E2 _]; apply Z.ltb_lt in E2.
    assert (Hhalf : stage_ok cfg (cur_div st / 2)).
    { destruct Hc as [[Hd|[Hd|Hd]] Hle]; rewrite Hd in *; [lia|change (2 / 2) with 1|change (4 / 2) with 2]; split; lia. }
    destruct (pi_up_since_ms st =? 0); destruct (u64 (fps_recovery_ms cfg) <=? _); (split; [first [exact Hhalf|exact Hc]|done]).
Qed.

Lemma learn_kept st rs s k d : pi_ok st rs -> 0 <= k <= max_kbps cfg -> stage_ok cfg d -> (s = 409 -> k * d < F) ->
  min_kbps cfg <= learn_floor (pi_floor_kbps st) s (u32 (k * d)) <= Z.max (min_kbps cfg) F.
Proof using Hcfg.
  intros Hh Hk [Hd _] Hs; pose proof (po_floor _ _ Hh); rewrite u32_id by nia.
  pose proof (learn_floor_within (pi_floor_kbps st) s (k * d) F ltac:(nia) Hs); lia.
Qed.

Lemma pi_switch_moved now d t st w rs : pi_ok st rs -> stage_ok cfg d -> 0 <= t <= max_kbps cfg ->
  (is_number (pi_base cfg st * pi_k st)%D = true -> pi_floor_kbps st / d <= t) ->
  moved st w rs (pi_switch now d t st w).1 (pi_switch now d t st w).2.
Proof using Hcfg Hdiv HF HL.
  intros Hh Hd Ht Hfl Hl; unfold pi_switch; rewrite send_fps_div_req.
  destruct (pi_ok_http (stage_req d t) st w rs Hl Hh) as (Ha & Hr & Hn & Hy).
  { intros k ->%stage_req_asks; lia. } { intros d'; rewrite stage_req_div; by intros [= <-]. }
  unfold sent_with in Hr, Hy; rewrite stage_req_div in Hr, Hy; change (default (in_force rs) (Some d)) with d in Hr, Hy.
  destruct (http_set _ w) as [s w1]; cbn [fst snd] in *; eexists; split; [exact Ha|]; unfold no_such_field.
  destruct div_max_range as (Hdm & _ & H1); split.
  2: { destruct (_ || _); [|destruct (negb _)]; intros Hnum; apply stage_req_above, Hfl, Hnum. }
  destruct ((s =? 404) || (s =? 501)) eqn:E404.
  - assert (Es : ok2xx s = false) by (apply orb_true_iff in E404 as [E404|E404]; apply Z.eqb_eq in E404 as ->; reflexivity).
    destruct (Hn (or_introl Es)) as [? ? ? ? ? ? ? ?]; by constructor.
  - destruct (ok2xx s) eqn:Es; cbn [negb].
    + apply Hy; [done|done| |done|by right|exact (po_div_max _ _ Hh)|].
      * intros HD; unfold stage_req; destruct (Z.eqb_spec t 0) as [->|]; [by left|by right].
      * right; unfold cur_div; cbn; destruct Hd as [Hd _]; by rewrite (proj2 (Z.ltb_lt 0 d)) by lia.
    + destruct (Hn (or_introl eq_refl)) as [? ? ? ? ? ? ? ?]; constructor; try done; cbn; destruct (Z.eq_dec t 0) as [->|Hnz].
      * unfold learn_floor; change (u32 (u32 (0 * d) + 1)) with 1; destruct (_ && _) eqn:E1; [|lia].
        apply andb_true_iff in E1 as [_ E1]; rewrite Z.gtb_ltb in E1; apply Z.ltb_lt in E1; lia.
      * apply (learn_kept st rs); try done; intros E9; apply (Hr t d); [|done|destruct Hd; lia].
        unfold stage_req; by rewrite (proj2 (Z.eqb_neq t 0)).
Qed.

(** What a refused cut teaches. *)
Lemma cut_refused st w rs b : asked w0 rs w -> pi_ok st rs -> 0 <= b -> refused_on_the_way w b -> b * cur_div st < F.
Proof using Hdiv HF.
  intros Hl Hh Hb (pre & w1 & Hp & Hr); pose proof (cur_div_ok _ _ Hh) as [Hc _]; destruct div_max_range as (Hdm & _).
  assert (Hpre : Forall (fun x => exists b, x.1 = Set_bitrate b) ((fun b => (Set_bitrate b, 409)) <$> pre)).
  { apply Forall_fmap, list.Forall_forall; by eexists. }
  apply (HF (rs ++ ((fun b => (Set_bitrate b, 409)) <$> pre)) (Set_bitrate b) b (cur_div st) w1); try done; [by eapply asked_trans| |].
  - apply Forall_app; split; [exact (po_divs _ _ Hh)|]; eapply list.Forall_impl; [exact Hpre|]; by intros x [b' ->].
  - unfold sent_with; cbn; rewrite in_force_rates by done; pose proof (in_force_ok cfg rs ltac:(lia) (po_divs _ _ Hh)) as [Hf _].
    destruct (po_believed _ _ Hh) as [->| ->]; lia.
Qed.

Lemma pi_send_moved now why t st w rs : pi_ok st rs -> 0 <= t <= max_kbps cfg ->
  (is_number (pi_base cfg st * pi_k st)%D = true -> pi_floor_kbps st / cur_div st <= t) ->
  moved st w rs (pi_send now why t st w).1 (pi_send now why t st w).2.
Proof using Hcfg Hdiv HF HL.
  intros Hh Ht Hab; unfold pi_send; destruct (negb _ && pi_skip _ _ _ _); [apply moved_kept; by apply kept_same|].
  intros Hl; pose proof (cur_div_ok st rs Hh) as [Hd Hdm]; pose proof (po_range _ _ Hh) as Hr; pose proof (po_floor _ _ Hh) as Hf.
  destruct (negb _ && (t <? _)) eqn:Ecut.
  - apply andb_true_iff in Ecut as [_ Ecut]; apply Z.ltb_lt in Ecut.
    pose proof (apply_cut_spec F (cur_div st) t (pi_applied_kbps st) (pi_floor_kbps st) w
      (fun b Hb => cut_refused st w rs b Hl Hh Hb) ltac:(lia) ltac:(lia) ltac:(nia)) as Hc.
    destruct (apply_cut t _ _ _ w) as [[[s k] fl] w1]; destruct Hc as (ext & Ha & Hsb & Hin & Hk & Hfl & Hacc); exists ext; split; [done|].
    pose proof (in_force_rates rs ext Hsb) as Hif; split.
    2: { destruct (ok2xx s); intros Hnum; specialize (Hab Hnum); apply list.Forall_forall; intros x Hx;
           unfold asked_within in Hin; rewrite list.Forall_forall in Hsb, Hin; destruct (Hsb x Hx) as [b Eb]; specialize (Hin x Hx); cbn in Hin; rewrite Eb in *;
           intros q [= <-]; specialize (Hin b eq_refl); unfold sent_with; etransitivity; [exact Hab|apply Hin|exact Hab|apply Hin]. }
    destruct Hh as [Hap Hra Hfo Hw Hdv Hdx Hds Hb].
    assert (Hw' : asked_within 0 (max_kbps cfg) (rs ++ ext)).
    { apply asked_within_app; split; [done|]; eapply list.Forall_impl; [exact Hin|]; cbn; intros x Hx q Hq; specialize (Hx q Hq); lia. }
    assert (Hds' : stages_ok cfg (rs ++ ext)).
    { apply Forall_app; split; [done|]; eapply list.Forall_impl; [exact Hsb|]; by intros x [b ->]. }
    destruct (ok2xx s) eqn:Es; constructor; cbn; try done; try lia;
      [intros HD; rewrite accepted_app, Hacc; by right|by unfold believed; rewrite Hif|intros HD; rewrite accepted_app, Hacc; by apply Hap
      |by unfold believed; rewrite Hif].
  - destruct (pi_ok_http (Set_bitrate t) st w rs Hl Hh) as (Ha & _ & Hn & Hy); [by intros k [= <-]|done|].
    destruct (http_set _ w) as [s w1]; cbn [fst snd] in *; eexists; split; [exact Ha|]; split.
    + destruct (ok2xx s) eqn:Es.
      * apply Hy; [done|done|by right|done|exact (po_div _ _ Hh)|exact (po_div_max _ _ Hh)|exact (po_believed _ _ Hh)].
      * apply (pi_ok_ext st); [apply Hn; by left|done].
    + destruct (ok2xx s); intros Hnum; apply Forall_singleton; intros k [= <-]; exact (Hab Hnum).
Qed.

Lemma pi_control_moved now d_ms dt st w rs : pi_ok st rs -> moved st w rs (pi_control cfg now d_ms dt st w).1 (pi_control cfg now d_ms dt st w).2.
Proof using Hcfg Hdiv HF HL.
  intros Hh; unfold pi_control; pose proof (pi_disturb_kept now st w rs Hh) as H1.
  destruct (pi_disturb cfg now st w) as [[why1 st1] w1]; cbn [fst snd] in H1; eapply kept_moved; [exact H1|].
  clear rs Hh H1; intros rs Hh; pose proof (pi_backlog_kept now why1 st1 w1 rs Hh) as H2.
  destruct (pi_backlog cfg now why1 st1 w1) as [[why2 st2] w2]; cbn [fst snd] in H2; eapply kept_moved; [exact H2|].
  clear rs Hh H2; intros rs Hh; pose proof (pi_focus_kept now st2 w2 rs Hh) as H3.
  destruct (pi_focus cfg now st2 w2) as [st3 w3]; cbn [fst snd] in H3; eapply kept_moved; [exact H3|].
  clear rs Hh H3; intros rs Hh; set (st4 := pi_congest cfg now d_ms (pi_integrate cfg now d_ms dt st3)).
  apply (kept_moved st3 w3 rs st4 w3); [apply kept_same; [done|]; unfold st4, pi_congest; by destruct (_ || _)|].
  clearbody st4; clear rs Hh; intros rs Hh; set (target := (pi_base cfg st4 * pi_k st4)%D).
  destruct (pi_stage_ok now target st4 rs Hh) as (Hd & Hs5).
  assert (Et : (pi_base cfg (pi_stage cfg now target st4).2 * pi_k (pi_stage cfg now target st4).2)%D = target).
  { unfold pi_stage; repeat (destruct (_ && _)); try done; by destruct (_ =? 0). }
  destruct (pi_stage cfg now target st4) as [d st5]; cbn [fst snd] in *.
  apply (kept_moved st4 w3 rs st5 w3); [by apply kept_same|]; clear rs Hh; intros rs Hh.
  pose proof (pi_target_range cfg ltac:(lia) target dt d st5 (small_dmul _ _)) as Ht.
  assert (Hfl : is_number (pi_base cfg st5 * pi_k st5)%D = true -> pi_floor_kbps st5 / d <= pi_target cfg target dt d st5).
  { rewrite Et; intros Hn; pose proof (po_floor _ _ Hh); apply (pi_target_floor cfg); [lia|done|apply Hd|lia|exact (po_range _ _ Hh)]. }
  destruct (Z.eqb_spec d (cur_div st5)) as [Ed|]; cbn [negb]; [apply pi_send_moved; by rewrite <- ?Ed|by apply pi_switch_moved].
Qed.

Lemma pi_tick_moved now st w rs : pi_ok st rs -> moved st w rs (pi_tick cfg now st w).1 (pi_tick cfg now st w).2.
Proof using Hcfg Hdiv HF HL.
  intros Hh; unfold pi_tick; set (st0 := st <| pi_tick_ms := now |>); apply (kept_moved st w rs st0 w); [by apply kept_same|].
  clearbody st0; clear rs Hh; intros rs Hh; pose proof (pi_restarted_kept st0 w rs Hh) as H1; destruct (pi_restarted cfg st0 w) as [st1 w1].
  eapply kept_moved; [exact H1|]; clear rs Hh H1; intros rs Hh; pose proof (pi_reset_div_kept now st1 w1 rs Hh) as H2.
  destruct (pi_reset_div now st1 w1) as [st2 w2]; eapply kept_moved; [exact H2|]; clear rs Hh H2; intros rs Hh.
  pose proof (pi_delay_asked now w2) as Hl; destruct (pi_delay now w2) as [d_ms w3]; cbn [fst snd] in Hl.
  pose proof (kept_read w2 w3 st2 rs _ _ Hl (pi_capacity_kept now st2 w3 rs Hh)) as H3.
  destruct (pi_capacity cfg now st2 w3) as [st3 w4]; cbn [fst snd] in H3.
  destruct (_ =? 0); [by apply moved_kept|]; eapply kept_moved; [exact H3|]; intros rs' Hh'; by apply pi_control_moved.
Qed.

Lemma pi_run_kept nows : forall st w rs, pi_ok st rs -> asked w0 rs w ->
  exists ext, asked w ext (pi_run cfg nows st w).2 /\ pi_ok (pi_run cfg nows st w).1 (rs ++ ext).
Proof using Hcfg Hdiv HF HL.
  induction nows as [|now nows IH]; intros st w rs Hh Hl; cbn [pi_run]; [exists []; rewrite app_nil_r; split; [apply asked_refl|done]|].
  destruct (pi_tick_moved now st w rs Hh Hl) as (e1 & Ha1 & Hh1 & _); destruct (pi_tick cfg now st w) as [st1 w1]; cbn [fst snd] in *.
  destruct (IH st1 w1 (rs ++ e1) Hh1 (asked_trans _ _ _ _ _ Hl Ha1)) as (e2 & Ha2 & Hh2); exists (e1 ++ e2).
  split; [by eapply asked_trans|by rewrite app_assoc].
Qed.

Lemma pi_init_ok now gen : pi_ok (pi_init cfg now gen) [].
Proof using Hcfg Hdiv.
  destruct div_max_range as (Hr & Hm & H1); constructor; cbn; [by left|lia|lia|constructor| |exact Hm|constructor|].
  - unfold div_ok; destruct (Z.ltb_spec 1 (cfg_div_max cfg)) as [Hlt|_]; [left|by right]; split; [done|]; unfold cfg_div_max in Hlt;
      intros E; rewrite E in Hlt; done.
  - left; unfold cur_div; cbn; by destruct (1 <? cfg_div_max cfg).
Qed.

Lemma pi_run_ok nows now gen : let '(st, w') := pi_run cfg nows (pi_init cfg now gen) w0 in
  exists rs, asked w0 rs w' /\ pi_ok st rs /\
    forall now', let '(st', w'') := pi_tick cfg now' st w' in
      exists ext, asked w' ext w'' /\ (is_number (pi_base cfg st' * pi_k st')%D = true -> above (pi_floor_kbps st) (cur_div st') ext).
Proof using Hcfg Hdiv HF HL.
  destruct (pi_run_kept nows _ w0 [] (pi_init_ok now gen) (asked_refl _)) as (rs & Ha & Hh); cbn [app] in Hh.
  destruct (pi_run cfg nows _ w0) as [st w']; cbn [fst snd] in *; exists rs; split; [done|split; [done|]]; intros now'.
  destruct (pi_tick_moved now' st w' rs Hh Ha) as (ext & He & _ & Hb); destruct (pi_tick cfg now' st w') as [st' w'']; by exists ext.
Qed.
End bounded.

Section stays.
Context {W : Type} `{HE : BcEnv W} `{HL : !BcLog W} (cfg : bc_cfg) (F : Z).
Hypothesis Hcfg : 1 <= min_kbps cfg <= max_kbps cfg /\ F * cfg_div_max cfg <= max_kbps cfg /\ max_kbps cfg * 4 < 4294967295.
Hypothesis Hdiv : fps_div_max cfg = 1 \/ fps_div_max cfg = 2 \/ fps_div_max cfg = 4.
(** The encoder refuses a rate only below its floor, [F] at the full frame
    rate and lower at the others. *)
Hypothesis HF : refuses_below F.

(** C39. Whatever delay, capacity, errors and refusals come in, and however
    long it runs, the PI controller never asks for more than its maximum and
    only for frame-rate divisors the encoder knows and [-D] allows; in every
    tick no rate it asks for is below the floor it knows, divided by the
    divisor the request carries or else by the one it counts with, as long
    as the product of feedforward and [k] is a number; the divisor it counts
    with is the full rate's or the one the encoder accepted last.  Its
    learned floor starts at the minimum and stays within the encoder's times
    the largest divisor, and within the encoder's own floor if the encoder
    kept the divisor it accepted.  Without frame-rate stages the rate it
    believes applied is the one the encoder accepted last. *)
Theorem pi_stays_within nows now gen w :
  let '(st, w') := pi_run cfg nows (pi_init cfg now gen) w in
  (exists rs, bc_log w' = bc_log w ++ (entry <$> rs) /\ asked_within 0 (max_kbps cfg) rs /\ stages_ok cfg rs /\
    (cur_div st = 1 \/ cur_div st = in_force rs) /\
    (fps_div_max cfg = 1 -> pi_applied_kbps st = 0 \/ accepted None rs = Some (pi_applied_kbps st))) /\
  0 <= pi_applied_kbps st <= max_kbps cfg /\
  min_kbps cfg <= pi_floor_kbps st <= Z.max (min_kbps cfg) (F * cfg_div_max cfg) /\
  (keeps_divisor cfg F w -> pi_floor_kbps st <= Z.max (min_kbps cfg) F) /\
  forall now', let '(st', w'') := pi_tick cfg now' st w' in
    exists ext, bc_log w'' = bc_log w' ++ (entry <$> ext) /\
      (is_number (pi_base cfg st' * pi_k st')%D = true -> above (pi_floor_kbps st) (cur_div st') ext).
Proof using Hcfg Hdiv HF HL.
  destruct (div_max_range cfg Hdiv) as (Hdm & _).
  assert (H1 : forall rs r k d w', asked w rs w' -> stages_ok cfg rs -> (forall d, asked_div r = Some d -> stage_ok cfg d) ->
    asked_kbps r = Some k -> 0 <= k -> (http_set r w').1 = 409 -> 1 <= d <= sent_with (in_force rs) r -> k * d < F * cfg_div_max cfg).
  { intros rs r k d w' _ Hs Hr Ek Hk E Hd; specialize (HF r k w' Ek E).
    assert (d <= cfg_div_max cfg); [|nia]; etransitivity; [apply Hd|]; unfold sent_with; destruct (asked_div r) as [d'|]; cbn [default].
    - by apply (Hr d').
    - apply (in_force_ok cfg rs); [lia|done]. }
  pose proof (pi_run_ok cfg (F * cfg_div_max cfg) w ltac:(lia) Hdiv H1 nows now gen) as Hrun.
  assert (H2 : keeps_divisor cfg F w -> pi_floor_kbps (pi_run cfg nows (pi_init cfg now gen) w).1 <= Z.max (min_kbps cfg) F).
  { intros Hk; pose proof (pi_run_ok cfg F w ltac:(nia) Hdiv) as Hrun2.
    specialize (Hrun2 ltac:(intros rs r k d w' Ha Hs Hr Ek H0 E Hd; specialize (Hk rs r k w' Ha Hs Ek E); nia) nows now gen).
    destruct (pi_run _ _ _ _) as [st w']; destruct Hrun2 as (rs & _ & Hh & _); exact (proj2 (po_floor _ _ _ _ Hh)). }
  destruct (pi_run _ _ _ _) as [st w']; cbn [fst] in H2; destruct Hrun as (rs & Ha & [? ? ? ? ? ? ? ?] & Hn); split; [exists rs; by split_and!|].
  split; [done|split; [done|split; [done|]]]; exact Hn.
Qed.
End stays.

(** [bitrate_ctl_run]. *)
Definition bitrate_ctl_run {W : Type} `{BcEnv W} (cfg : bc_cfg) (mode : bc_mode) (now0 : Z) (nows : list Z) (w : W) : W :=
  let w := subscribe_events cfg w in
  match mode with
  | BITRATE_CTL_MODE_PI => let '(gen, w) := bc_load BC_RING_GENERATION w in (pi_run cfg nows (pi_init cfg now0 gen) w).2
  | BITRATE_CTL_MODE_RULES => (rules_run cfg nows (rules_init cfg) w).2
  end.

(** ** Concrete runs *)

(** The encoder's HTTP server is up from the [n]th request on. *)
Definition late_env (n : nat) : BcEnv demo_bc := {|
  bc_load := fun v w => (db_vars w v, w);
  http_get_status := fun p w =>
    let s := if (length (db_log w) <? n)%nat then -1 else 200 in (s, mk_demo_bc (db_mcs w) (db_vars w) (db_log w ++ [(p, s)]));
  bb_get_mcs := fun _ w => (0, hd 20000 (db_mcs w), mk_demo_bc (tl (db_mcs w)) (db_vars w) (db_log w));
  bb_get_user_quality := fun w => (0, 0, 100, w);
  bb_subscribe := fun _ w => (0, w)
|}.
Program Definition late_log (n : nat) : @BcLog demo_bc (late_env n) := {| bc_log := db_log |}.
Solve Obligations with done.

Definition pi_demo_cfg (max_div : Z) : bc_cfg := tx_bc_cfg (dlit 545 1000) 1000 35000 0 max_div 6 (dlit 92 100).
Definition pi_demo_vars (delay_us : Z) (v : bc_var) : Z :=
  match v with BC_DEV | BC_RING => 1 | BC_DELAY_US => delay_us | _ => 0 end.
Definition ticks (n : nat) : list Z := (fun i => 100000 + 100 * Z.of_nat i) <$> List.seq 1 n.

(** A fade to 300 kbit/s takes the encoder to every second frame; the next
    poll's 180 kbit/s are under the floor of every fourth, so that is what is
    asked for: 1000 / 4. *)
Definition fade : demo_bc := mk_demo_bc [20000; 20000; 1500; 300] (pi_demo_vars 5000) [].
#[local] Abbreviation fade_run := (@pi_run _ (late_env 0) (pi_demo_cfg 4) (ticks 15) (pi_init (pi_demo_cfg 4) 100000 0) fade).

Lemma pi_stays_within_witness :
  let '(st, w') := fade_run in
  pi_applied_kbps st = 899 /\ pi_floor_kbps st = 1000 /\ cur_div st = 2 /\
  (exists rs, db_log w' = [] ++ (entry <$> rs) /\ asked_within 0 35000 rs /\ stages_ok (pi_demo_cfg 4) rs /\ in_force rs = 2) /\
  let '(st', w'') := @pi_tick _ (late_env 0) (pi_demo_cfg 4) 101600 st w' in
  (pi_applied_kbps st', cur_div st') = (250, 4) /\
  exists ext, db_log w'' = db_log w' ++ (entry <$> ext) /\ above 1000 4 ext.
Proof.
  pose proof (@pi_stays_within _ (late_env 0) (late_log 0) (pi_demo_cfg 4) 0 ltac:(cbn; lia) ltac:(cbn; lia)
    ltac:(intros r k w0 _ E; discriminate E) (ticks 15) 100000 0 fade) as Hth.
  assert (E : (let '(st, w') := fade_run in let '(st', _) := @pi_tick _ (late_env 0) (pi_demo_cfg 4) 101600 st w' in
    (pi_applied_kbps st, pi_floor_kbps st, cur_div st, (pi_applied_kbps st', cur_div st', is_number (pi_base (pi_demo_cfg 4) st' * pi_k st')%D))) =
    (899, 1000, 2, (250, 4, true))) by (vm_compute; reflexivity).
  destruct (pi_run _ _ _ _) as [st w']; destruct Hth as ((rs & H1 & H2 & H3 & H4 & _) & _ & _ & _ & Hn); specialize (Hn 101600).
  destruct (pi_tick _ 101600 st w') as [st' w'']; injection E as E1 E2 E3 E4 E5 E6; rewrite E1, E2, E3, E4, E5 in *.
  destruct Hn as (ext & Hl & Ha); split_and!; try done; [|by exists ext; split; [exact Hl|apply Ha]].
  exists rs; split_and!; [exact H1|exact H2|exact H3|destruct H4 as [?|<-]; [lia|done]].
Defined.

(** The divisor's reset at start carries the floor as bitrate.  When it only
    gets through after a first rate was accepted, the controller goes on
    believing in that rate: here the encoder's last order is 1000 kbit/s, the
    controller's state says 10900, and three seconds on nothing was sent. *)
Example late_reset_unnoticed :
  let w := mk_demo_bc [] (pi_demo_vars 15000) [] in
  let r := @pi_run _ (late_env 2) (pi_demo_cfg 2) (ticks 40) (pi_init (pi_demo_cfg 2) 100000 0) w in
  pi_applied_kbps r.1 = 10900 /\
  list.last (db_log r.2) = Some (entry (Set_fps_div_bitrate 1 1000, 200)) /\ length (db_log r.2) = 4%nat.
Proof. vm_compute. done. Qed.
