(* ===== verification/EndToEnd.v ===== *)
(** Air to player: the chunker and send path of [tx/main.c], the byte stream,
    and the stream reader, reassembly, forwarding and packetizer of
    [rx/main.c], put together. *)

From S2P Require Import Prelude Crc16 ChunkHdr Chunker Reassembly ChunkStream AnnexB ClockSync Outq SidecarSrv.
From S2P Require Import RtpH265 TimingSei Packetizer RxMain TxSend TxFrames.
#[local] Open Scope Z_scope.

(** ** The ground loop on a byte stream *)

Section ground.
Context {R P : Type} (read_fn : R -> Z -> list Z * R) (stopped : R -> bool) `{HP : Packetizer P} (sei_on : bool).

(** One iteration of rx/main.c's loop, the health check aside: a read, and
    what becomes of its chunk at time [now]. *)
Definition rx_iteration (fuel : nat) (now : Z) (x : stream * R * rx_state P) : option (stream * R * rx_state P) :=
  let '(s, r, st) := x in
  match stream_read_loop read_fn stopped fuel s r AR8030_CHUNK_MAX_PAYLOAD with
  | Some (Read_chunk h payload, s, r) => Some (s, r, (rx_chunk sei_on now (h, payload) st).2)
  | Some (_, s, r) => Some (s, r, st)
  | None => None
  end.

Fixpoint rx_iterations (fuel : nat) (nows : list Z) (x : stream * R * rx_state P) : option (stream * R * rx_state P) :=
  match nows with
  | [] => Some x
  | now :: nows => x ← rx_iteration fuel now x; rx_iterations fuel nows x
  end.

Lemma rx_iterations_chunks fuel : forall (cs : list chunk) nows s r st s' r',
  length nows = length cs ->
  read_n read_fn stopped (length cs) fuel s r AR8030_CHUNK_MAX_PAYLOAD = Some ((fun c : chunk => Read_chunk c.1 c.2) <$> cs, s', r') ->
  rx_iterations fuel nows (s, r, st) = Some (s', r', rx_run sei_on (zip nows cs) st).
Proof.
  induction cs as [|c cs IH]; intros nows s r st s' r' Hl; destruct nows as [|now nows]; try done.
  - by intros [= <- <-].
  - cbn [length read_n rx_iterations rx_iteration zip].
    destruct (stream_read_loop read_fn stopped fuel s r AR8030_CHUNK_MAX_PAYLOAD) as [[[res s1] r1]|] eqn:E; [|done].
    cbn [mbind option_bind]; destruct (read_n read_fn stopped (length cs) fuel s1 r1 _) as [[[rs s2] r2]|] eqn:E2; [|done].
    cbn [mbind option_bind]; intros [= -> -> <- <-]; cbn [mbind option_bind].
    rewrite (IH nows s1 r1 _ s2 r2); [|simpl in Hl; lia|done]; destruct c; unfold rx_run; by cbn [zip_with fold_left fst snd].
Qed.
End ground.

(** ** The air side, slice by slice *)

Section air.
Context {W : Type} `{HE : TxEnv W} `{HW : !TxWire W} (chunk_payload : Z).
Hypothesis Hpay : 0 < chunk_payload <= AR8030_CHUNK_MAX_PAYLOAD.
Hypothesis Htakes : forall b w, b <> [] -> 0 < (bb_socket_write b w).1.
Hypothesis Hgoes : forall w, (g_stop w).1 = false.
Context (sq fl pts : Z).
Hypothesis Hsq : 0 <= sq < 65536.
Hypothesis Hfl : 0 <= fl < 64.
Hypothesis Hpts : 0 <= pts < 4294967296.

(** The calls that send a frame's parts put its chunks on the wire. *)
Lemma send_parts_wire parts scratch : forall first sc w,
  sctx_ok sc -> Forall (fun d => bytes_ok d /\ zlen d + chunk_payload - 1 < 2 ^ 32) parts ->
  AR8030_CHUNK_HDR_SIZE + chunk_payload <= scratch -> 0 <= first ->
  let vs := stream_chunks sq fl AR8030_CHUNK_CODEC_H265 pts chunk_payload first parts in
  first + zlen vs <= 65535 ->
  let '(sc', w') := send_parts sq fl AR8030_CHUNK_CODEC_H265 pts chunk_payload (socket_cb chunk_payload) first parts scratch (sc, w) in
  sctx_ok sc' /\ exists cs, mixed cs vs /\ wire w' = wire w ++ wire_bytes cs.
Proof using All.
  induction parts as [|d parts IH]; intros first sc w Hsc Hparts Hs Hf vs Hm.
  { split; [done|exists []; rewrite app_nil_r; split; [by constructor|done]]. }
  apply Forall_cons_1 in Hparts as [[Hb Hd] Hparts]; subst vs; cbn [stream_chunks send_parts] in *.
  set (last := match parts with [] => true | _ => false end) in *; rewrite zlen_app in Hm.
  destruct (zlen_part sq fl AR8030_CHUNK_CODEC_H265 pts chunk_payload Hpay d first last Hd) as [Hz Hn]; rewrite Hz in Hm.
  set (n := chunk_count_for (zlen d) chunk_payload) in *; set (rest := stream_chunks _ _ _ _ _ (first + n) parts) in *.
  pose proof (zlen_nonneg rest); set (p := part_params sq fl AR8030_CHUNK_CODEC_H265 pts chunk_payload d first last) in *.
  unfold ar8030_chunk_part; fold (part_params sq fl AR8030_CHUNK_CODEC_H265 pts chunk_payload d first last); fold p.
  rewrite (chunk_run_spec _ p scratch (sc, w) n) by (try done; cbn [p part_params cp_first_idx]; lia).
  pose proof (send_all_ok chunk_payload Hpay Htakes Hgoes (chunks_of p n) sc w Hsc
    (video_chunks_ok chunk_payload p n (part_params_ok sq fl pts chunk_payload d first last Hsq Hfl Hpts Hpay Hb Hd) eq_refl eq_refl eq_refl)) as Hone.
  destruct (send_all _ _ (sc, w)) as [k [sc1 w1]]; destruct Hone as (_ & Hsc1 & cs1 & Hm1 & Hw1); cbn [default from_option]; unfold id.
  specialize (IH (first + n) sc1 w1 Hsc1 Hparts Hs ltac:(lia) ltac:(fold rest; lia)); fold rest in IH.
  destruct (send_parts _ _ _ _ _ _ _ _ _ (sc1, w1)) as [sc2 w2]; destruct IH as (Hsc2 & cs2 & Hm2 & Hw2).
  split; [done|exists (cs1 ++ cs2)]; split; [by apply mixed_app|]; rewrite Hw2, Hw1, wire_bytes_app, <- app_assoc; done.
Qed.
End air.

(** ** Put together *)

Lemma first_magic_chunk c : chunk_ok c -> first_magic (chunk_bytes c) = Some O.
Proof.
  intros [_ Hm _ _ _]; apply first_magic_Some; split; [|lia]; unfold magic_at, chunk_bytes, hdr_bytes; rewrite Hm, drop_0.
  rewrite <- !app_assoc; reflexivity.
Qed.

Lemma wire_bytes_ok cs : Forall chunk_ok cs -> bytes_ok (wire_bytes cs).
Proof.
  induction 1 as [|c cs Hc _ IH]; [constructor|]; rewrite wire_bytes_cons; apply bytes_ok_app; split; [|exact IH].
  unfold chunk_bytes, hdr_bytes; repeat (apply bytes_ok_app; split); auto using le_enc_ok; apply Hc.
Qed.

Lemma stream_chunks_ok sq fl pts payload parts : forall first,
  0 <= sq < 65536 -> 0 <= fl < 64 -> 0 <= pts < 4294967296 -> 0 < payload <= AR8030_CHUNK_MAX_PAYLOAD ->
  Forall (fun d => bytes_ok d /\ zlen d + payload - 1 < 2 ^ 32) parts ->
  Forall chunk_ok (stream_chunks sq fl AR8030_CHUNK_CODEC_H265 pts payload first parts).
Proof.
  induction parts as [|d parts IH]; intros first Hsq Hfl Hpts Hpay Hparts; [constructor|].
  apply Forall_cons_1 in Hparts as [[Hb Hd] Hparts]; cbn [stream_chunks]; apply Forall_app; split; [|by apply IH].
  apply chunks_of_ok; [by apply part_params_ok|done].
Qed.

Lemma mixed_ok cs vs : mixed cs vs -> Forall chunk_ok vs -> Forall chunk_ok cs.
Proof.
  intros [<- Ho] Hv; apply list.Forall_forall; intros c Hc; rewrite list.Forall_forall in Ho, Hv.
  destruct (Ho c Hc) as [Hvid|[Hok _ _]]; [|done]; apply Hv, list_elem_of_filter; done.
Qed.

Lemma annexb_bytes_ok nals : Forall (fun n : bool * list Z => bytes_ok n.2) nals -> bytes_ok (annexb nals).
Proof.
  induction 1 as [|[b n] nals Hn _ IH]; [constructor|]; rewrite annexb_cons; repeat (apply bytes_ok_app; split); try done.
  destruct b; repeat constructor; unfold byte_ok; lia.
Qed.

Section wire.
Context {R P : Type} `{HP : Packetizer P}.
Context (read_fn : R -> Z -> list Z * R) (stopped : R -> bool) (pending : R -> list Z).
Hypothesis Hread : wire_reader read_fn pending.
Hypothesis Heager : wire_eager read_fn pending.
Hypothesis Hstop : forall r, stopped r = false.

(** Well-formed chunks on the wire are taken one per turn of the loop. *)
Lemma wire_chunks_read sei_on cs nows s r fuel (st : rx_state P) :
  Forall chunk_ok cs -> length nows = length cs -> stream_ok s -> 22 + 65535 <= s_cap s -> view pending s r = wire_bytes cs ->
  (2 * length (wire_bytes cs) < fuel)%nat ->
  exists s' r', rx_iterations read_fn stopped sei_on fuel nows (s, r, st) = Some (s', r', rx_run sei_on (zip nows cs) st) /\
    view pending s' r' = [].
Proof using All.
  intros Hcs Hnows Hso Hcaps Hv Hfuel.
  destruct (read_n_chunks read_fn stopped pending Hread Heager Hstop (pair [] <$> cs) fuel s r AR8030_CHUNK_MAX_PAYLOAD [])
    as (s' & r' & Hrd & Hv' & _); try done.
  { pose proof (wire_bytes_ok cs Hcs) as Hb; rewrite <- Hv in Hb; unfold view in Hb; by apply bytes_ok_app in Hb as [_ ?]. }
  { apply Forall_fmap; eapply list.Forall_impl; [exact Hcs|]; intros c Hc; split; [done|]; by apply first_magic_chunk. }
  { rewrite Hv, app_nil_r; unfold wire_bytes; f_equal; by rewrite <- list_fmap_compose. }
  { by rewrite Hv. }
  rewrite length_fmap, <- list_fmap_compose in Hrd.
  exists s', r'; split; [by apply rx_iterations_chunks|done].
Qed.
End wire.

Section link.
Context {W R P : Type} `{HE : TxEnv W} `{HW : !TxWire W} `{HP : Packetizer P} `{HS : !PacketizerSpec P}.
Context (chunk_payload sq fl pts : Z) (sei_on : bool).
Hypothesis Hpay : 0 < chunk_payload <= AR8030_CHUNK_MAX_PAYLOAD.
Hypothesis Hsq : 0 <= sq < 65536.
Hypothesis Hfl : 0 <= fl < 64.
Hypothesis Hpts : 0 <= pts < 4294967296.
(** The air side's link takes something of every write. *)
Hypothesis Htakes : forall b w, b <> [] -> 0 < (bb_socket_write b w).1.
Hypothesis Hgoes : forall w, (g_stop w).1 = false.
(** The ground side reads what is there. *)
Context (read_fn : R -> Z -> list Z * R) (stopped : R -> bool) (pending : R -> list Z).
Hypothesis Hread : wire_reader read_fn pending.
Hypothesis Heager : wire_eager read_fn pending.
Hypothesis Hstop : forall r, stopped r = false.

(** A frame crosses the link, end to end: the slices handed to
    [ar8030_chunk_part] on the air, whatever the chunk size, however the
    socket cuts the writes, whatever control and sidecar chunks ride along
    and however the reads are cut, end up as exactly one more picture at the
    player - the frame's NAL units in order, at most the one timing message
    among them - with no byte left over and the ground loop ready for the
    next frame. *)
Theorem slices_reach_the_player parts scratch sc w st :
  parts <> [] -> Forall part_ok parts -> sctx_ok sc -> AR8030_CHUNK_HDR_SIZE + chunk_payload <= scratch ->
  zlen (concat (annexb <$> parts)) <= r_cap (rx_reasm st) -> r_cap (rx_reasm st) + TIMING_SEI_NAL_MAX < 2 ^ 31 ->
  zlen (stream_chunks sq fl AR8030_CHUNK_CODEC_H265 pts chunk_payload 0 (annexb <$> parts)) <= 65535 ->
  r_active (rx_reasm st) = false \/ sq <> r_frame_seq (rx_reasm st) -> pk_ready (rx_rtp st) -> 0 <= cs_n (rx_sync st) ->
  let '(sc', w') := send_parts sq fl AR8030_CHUNK_CODEC_H265 pts chunk_payload (socket_cb chunk_payload) 0 (annexb <$> parts)
                      scratch (sc, w) in
  sctx_ok sc' /\
  exists sent n, wire w' = wire w ++ sent /\
    forall nows s r fuel, length nows = n -> stream_ok s -> 22 + 65535 <= s_cap s -> view pending s r = sent ->
      (2 * length sent < fuel)%nat ->
      exists s' r' st', rx_iterations read_fn stopped sei_on fuel nows (s, r, st) = Some (s', r', st') /\
        view pending s' r' = [] /\ finished sq st st' /\
        exists pre msg post, snd <$> concat parts = pre ++ post /\
          timing_msg sei_on sq st (rx_sync st') (existsb (fun n => nal_type n <=? 31) pre) msg /\
          rx_player st' = player_add (rx_player st) (pre ++ msg ++ post) true.
Proof using All.
  intros Hne Hok Hsc Hs Hcap H31 Hlen Hnew Hr Hcn; pose proof Hpay as Hpay'; unfold AR8030_CHUNK_MAX_PAYLOAD in Hpay'.
  assert (Hparts : Forall (fun d => bytes_ok d /\ zlen d + chunk_payload - 1 < 2 ^ 32) (annexb <$> parts)).
  { clear -Hok Hcap H31 Hpay'; change TIMING_SEI_NAL_MAX with 82 in H31; induction Hok as [|p parts Hp Hok IH]; [constructor|].
    cbn [fmap list_fmap concat] in *; rewrite zlen_app in Hcap; pose proof (zlen_nonneg (annexb p)).
    pose proof (zlen_nonneg (concat (annexb <$> parts))); constructor; [|apply IH; lia]; split; [|lia].
    apply annexb_bytes_ok; eapply list.Forall_impl; [exact (sb_nals _ (pa_sendable _ Hp))|]; intros x Hx; apply Hx. }
  set (vs := stream_chunks _ _ _ _ _ _ _) in *.
  pose proof (send_parts_wire chunk_payload Hpay Htakes Hgoes sq fl pts Hsq Hfl Hpts (annexb <$> parts) scratch 0 sc w Hsc Hparts
    Hs ltac:(lia) ltac:(fold vs; lia)) as Hsend; fold vs in Hsend.
  destruct (send_parts _ _ _ _ _ _ _ _ _ (sc, w)) as [sc' w']; destruct Hsend as (Hsc' & cs & Hm & Hw); split; [done|].
  assert (Hcs : Forall chunk_ok cs) by (eapply mixed_ok; [exact Hm|by apply stream_chunks_ok]).
  exists (wire_bytes cs), (length cs); split; [done|]; intros nows s r fuel Hnows Hso Hcaps Hv Hfuel.
  destruct (wire_chunks_read read_fn stopped pending Hread Heager Hstop sei_on cs nows s r fuel st Hcs Hnows Hso Hcaps Hv Hfuel)
    as (s' & r' & Hit & Hv').
  exists s', r', (rx_run sei_on (zip nows cs) st); split; [done|split; [done|]].
  destruct (rx_run_parts sei_on sq fl pts chunk_payload Hpay Hfl Hsq parts 0 [] false (zip nows cs) st) as
    (pre & msg & post & E1 & E2 & E3 & E4); try done.
  { left; by split_and!. } { rewrite snd_zip by lia; by destruct Hm. }
  split; [exact E4|]; by exists pre, msg, post.
Qed.
End link.

(** ** A concrete link: seven bytes a write, five a read, the one clock-sync
    reply riding with the first chunk *)

Definition paced_env : TxEnv demo_net := {|
  bb_socket_write := fun b w =>
    let wr := Z.min 7 (zlen b) in (wr, mk_net (dn_wire w ++ ztake wr b) [] (dn_push w) (dn_clock w));
  now_monotonic_us := fun w => (u64 (dn_clock w), mk_net (dn_wire w) [] (dn_push w) (dn_clock w + 10));
  g_stop := fun w => (false, w);
  pushed := fun w => (if dn_push w then [demo_reply] else [], mk_net (dn_wire w) [] false (dn_clock w))
|}.

Program Definition paced_wire : @TxWire demo_net paced_env := {| wire := dn_wire |}.
Next Obligation. intros b w; cbn; split; [lia|done]. Qed.
Next Obligation. intros w; cbn; split; [done|apply u64_range]. Qed.
Next Obligation. done. Qed.
Next Obligation.
  intros w; cbn; split; [done|]; destruct (dn_push w); [|constructor]; constructor; [|constructor].
  constructor; cbn; try lia; try by left.
Qed.

Lemma takes_some b w : b <> [] -> 0 < (@bb_socket_write _ paced_env b w).1.
Proof. destruct b as [|x b]; [done|]; intros _; cbn; rewrite zlen_cons; pose proof (zlen_nonneg b); lia. Qed.

Lemma demo_ready : @pk_ready _ _ rtp_wire_spec (rx_rtp demo_rx).
Proof. split_and!; vm_compute; congruence. Qed.

Lemma slices_reach_the_player_witness :
  let w := mk_net [] [] true 3000 in
  let '(sc', w') := send_parts 9 0 AR8030_CHUNK_CODEC_H265 123 4 (@socket_cb _ paced_env 4) 0
                      (annexb <$> [demo_part1; demo_part2]) 26 (sctx_init, w) in
  exists n, forall nows, length nows = n ->
    exists s' r' st',
      rx_iterations (paced_read 5) (fun _ => false) false (S (2 * length (dn_wire w')))
        nows (ar8030_chunk_stream_init 70000, dn_wire w', demo_rx) = Some (s', r', st') /\
      pl_pictures (rx_player st') = [[[64; 1; 12]; [38; 1; 1; 2; 3]; [38; 1; 4; 5; 6; 7; 8; 9; 10; 11]]].
Proof.
  intros w.
  pose proof (slices_reach_the_player (HE := paced_env) (HW := paced_wire) (HS := rtp_wire_spec) 4 9 0 123 false
    ltac:(vm_compute; done) ltac:(lia) ltac:(lia) ltac:(lia) takes_some ltac:(done)
    (paced_read 5) (fun _ => false) id (paced_read_wire 5) (paced_read_eager 5 ltac:(lia)) ltac:(done)
    [demo_part1; demo_part2] 26 sctx_init w demo_rx ltac:(done) demo_parts_ok ltac:(apply sctx_ok_init) ltac:(vm_compute; congruence)
    ltac:(vm_compute; congruence) ltac:(vm_compute; done) ltac:(vm_compute; congruence) ltac:(left; vm_compute; done)
    demo_ready ltac:(vm_compute; congruence)) as Hth.
  destruct (send_parts _ _ _ _ _ _ _ _ _ _) as [sc' w']; destruct Hth as (_ & sent & n & Hw & Hth); exists n; intros nows Hn.
  cbn [wire paced_wire dn_wire w] in Hw; rewrite app_nil_l in Hw; subst sent.
  destruct (Hth nows (ar8030_chunk_stream_init 70000) (dn_wire w') (S (2 * length (dn_wire w')))) as
    (s' & r' & st' & Hrun & _ & _ & pre & msg & post & E & [_ Hno] & Hpl).
  - exact Hn.
  - exact ChunkStream.demo_stream_ok.
  - vm_compute; congruence.
  - reflexivity.
  - lia.
  - exists s', r', st'; split; [exact Hrun|]; rewrite Hpl, Hno by (left; reflexivity).
    rewrite app_nil_l, <- E; vm_compute; reflexivity.
Defined.
