(* ===== verification/Video.v ===== *)
(** A video, frame after frame, from the entries the encoder leaves in the
    ring to the pictures the player gets: the send loop of [tx/main.c], the
    link's byte stream and the receive loop of [rx/main.c], put together. *)

From Stdlib Require Import SpecFloat.
From S2P Require Import Prelude Double Crc16 ChunkHdr Chunker Reassembly ChunkStream AnnexB ClockSync Outq FrameRing Link SidecarSrv.
From S2P Require Import RtpH265 TimingSei Packetizer RxMain RxFrames TxSend Monad TxMain TxFrames EndToEnd.
#[local] Open Scope Z_scope.

(** ** What is sent and what is to be seen *)

(** A frame as its NAL units, in the parts the encoder hands over. *)
Record picture_src := mk_src { ps_pts : Z; ps_flags : Z; ps_other : Z * Z * Z; ps_parts : list (list (bool * list Z)) }.

Definition to_vframe (x : picture_src) : vframe := mk_vframe (ps_pts x) (ps_flags x) (ps_other x) (annexb <$> ps_parts x).

Record src_ok (payload cap : Z) (x : picture_src) : Prop := {
  so_pts : 0 <= ps_pts x < 2 ^ 32;
  so_flags : 0 <= ps_flags x < 16;
  so_parts : ps_parts x <> [];
  so_nals : Forall part_ok (ps_parts x);
  so_fits : zlen (concat (annexb <$> ps_parts x)) <= cap;
  so_count : chunks_needed payload (annexb <$> ps_parts x) <= 65535
}.

(** The pictures of the frames [xs], the first of them number [sq]: each the
    frame's NAL units in order, with at most one message among them, which
    gives the frame's number and the frames lost. *)
Inductive seen (sei_on : bool) (lost : Z) : Z -> list picture_src -> list (list (list Z)) -> Prop :=
  | Seen_nil sq : seen sei_on lost sq [] []
  | Seen_frame sq x xs pre msg post pics :
      snd <$> concat (ps_parts x) = pre ++ post ->
      msg = [] \/ (sei_on = true /\ exists t ty, msg = [sei_nal t ty] /\ ts_frame_seq t = sq /\ ts_frames_lost t = lost) ->
      seen sei_on lost (u16 (sq + 1)) xs pics ->
      seen sei_on lost sq (x :: xs) ((pre ++ msg ++ post) :: pics).

Lemma seen_quiet lost sq xs pics : seen false lost sq xs pics -> pics = (fun x => snd <$> concat (ps_parts x)) <$> xs.
Proof.
  intros Hs; remember false as b eqn:Hb; induction Hs as [|sq x xs pre msg post pics E Hmsg _ IH]; [done|].
  cbn [fmap list_fmap]; rewrite E, IH by done; destruct Hmsg as [->|[-> _]]; done.
Qed.

Definition show (p : player) (pics : list (list (list Z))) : player := fold_left (fun p pic => player_add p pic true) pics p.

Lemma src_bytes payload cap x :
  0 < payload <= AR8030_CHUNK_MAX_PAYLOAD -> cap + TIMING_SEI_NAL_MAX < 2 ^ 31 -> src_ok payload cap x ->
  Forall (fun d => bytes_ok d /\ zlen d + payload - 1 < 2 ^ 32) (annexb <$> ps_parts x).
Proof.
  intros Hpay H31 [_ _ _ Hok Hfit _]; change TIMING_SEI_NAL_MAX with 82 in H31; unfold AR8030_CHUNK_MAX_PAYLOAD in Hpay.
  induction Hok as [|p parts Hp Hok IH]; [constructor|].
  cbn [fmap list_fmap concat] in *; rewrite zlen_app in Hfit; pose proof (zlen_nonneg (annexb p)).
  pose proof (zlen_nonneg (concat (annexb <$> parts))); constructor; [|apply IH; lia]; split; [|lia].
  apply annexb_bytes_ok; eapply list.Forall_impl; [exact (sb_nals _ (pa_sendable _ Hp))|]; intros n Hn; apply Hn.
Qed.

Lemma src_vframe_ok payload cap x :
  0 < payload <= AR8030_CHUNK_MAX_PAYLOAD -> cap + TIMING_SEI_NAL_MAX < 2 ^ 31 -> src_ok payload cap x -> vframe_ok payload (to_vframe x).
Proof.
  intros Hpay H31 Hx; pose proof (src_bytes _ _ _ Hpay H31 Hx) as Hd; destruct Hx as [? ? Hne ? ? ?].
  constructor; cbn; try done; intros E; by apply fmap_nil_inv in E.
Qed.

(** ** The ground side *)

Section ground.
Context {P : Type} `{HP : Packetizer P} `{HS : !PacketizerSpec P}.
Context (sei_on : bool) (payload cap : Z).
Hypothesis Hpay : 0 < payload <= AR8030_CHUNK_MAX_PAYLOAD.
Hypothesis H31 : cap + TIMING_SEI_NAL_MAX < 2 ^ 31.
Implicit Types st : rx_state P.

(** Ready for frame [sq], with none missing before it. *)
Record awaiting (sq : Z) st : Prop := {
  aw_idle : r_active (rx_reasm st) = false;
  aw_ready : pk_ready (rx_rtp st);
  aw_cap : r_cap (rx_reasm st) = cap;
  aw_sync : 0 <= cs_n (rx_sync st);
  aw_next : rx_have_last_frame_seq st = true -> u16 (rx_last_frame_seq st + 1) = sq
}.

Lemma lost_after_awaiting sq st : 0 <= sq < 65536 -> awaiting sq st -> lost_after sq st = rx_frames_lost st.
Proof using Type.
  intros Hsq [_ _ _ _ Hn]; unfold lost_after; destruct (rx_have_last_frame_seq st); [|done]; cbn [andb].
  replace (u16 (sq - rx_last_frame_seq st)) with 1; [done|]; rewrite <- Hn by done; unfold u16; rewrite Zminus_mod_idemp_l.
  by replace (_ + 1 - _) with 1 by lia.
Qed.

Lemma run_frame sq x tcs st :
  0 <= sq < 65536 -> src_ok payload cap x -> awaiting sq st ->
  filter is_video (snd <$> tcs) = air_chunks payload sq (to_vframe x) ->
  exists pre msg post, snd <$> concat (ps_parts x) = pre ++ post /\
    timing_msg sei_on sq st (rx_sync (rx_run sei_on tcs st)) (existsb (fun n => nal_type n <=? 31) pre) msg /\
    rx_player (rx_run sei_on tcs st) = player_add (rx_player st) (pre ++ msg ++ post) true /\
    finished sq st (rx_run sei_on tcs st).
Proof using Hpay H31 HS.
  intros Hsq Hx [A1 A2 A3 A4 _] Hf; pose proof (src_bytes _ _ _ Hpay H31 Hx) as Hd; destruct Hx as [Hpts Hfl Hne Hok Hfit Hm].
  assert (Hw : 0 <= wire_flags (to_vframe x) < 64) by apply (flags_spec (ps_flags x) Hfl (ps_pts x) (ps_pts x)).
  unfold air_chunks in Hf; cbn [vf_slices vf_pts to_vframe] in Hf.
  destruct (ps_parts x) as [|nals [|nals2 rest]] eqn:E; [done| |].
  - apply Forall_cons_1 in Hok as [Hp _]; apply Forall_cons_1 in Hd as [[Hb Hl] _]; cbn [fmap list_fmap concat] in *; rewrite app_nil_r in *.
    set (n := chunk_count_for _ _) in *; set (p := mk_cp _ _ _ _ _ _ _ _ _ _) in Hf.
    assert (Hpo : params_ok p) by (constructor; cbn; unfold AR8030_CHUNK_CODEC_H265; (done || lia)).
    cbn [chunks_needed foldr] in Hm; fold n in Hm; rewrite Z.add_0_r in Hm.
    pose proof (whole_frame_chunks p n Hpo Hw eq_refl eq_refl eq_refl eq_refl eq_refl Hm) as Hcs.
    pose proof (video_chunks_ok payload p n Hpo eq_refl eq_refl eq_refl) as Hv.
    apply (rx_run_whole sei_on sq (wire_flags (to_vframe x)) (ps_pts x) n (chunks_of p n)); try done; try lia.
    + by rewrite (zlen_chunks_of p).
    + eapply list.Forall_impl; [exact Hv|]; by intros c [? _].
    + apply Hcs.
    + by rewrite (chunks_concat p).
    + by left.
  - apply (rx_run_parts sei_on sq (wire_flags (to_vframe x)) (ps_pts x) payload Hpay Hw Hsq (nals :: nals2 :: rest) 0 [] false);
      try done; try lia; [left; split_and!; try done; by left| |].
    + by rewrite zlen_stream_chunks, Z.add_0_l.
    + by rewrite A3.
Qed.

Lemma run_frames xs : forall sq tcs st,
  0 <= sq < 65536 -> Forall (src_ok payload cap) xs -> awaiting sq st ->
  filter is_video (snd <$> tcs) = air_stream payload sq (to_vframe <$> xs) ->
  let st' := rx_run sei_on tcs st in
  exists pics, seen sei_on (rx_frames_lost st) sq xs pics /\ rx_player st' = show (rx_player st) pics /\
    rx_frames_lost st' = rx_frames_lost st /\ r_active (rx_reasm st') = false /\ pk_ready (rx_rtp st').
Proof using Hpay H31 HS.
  induction xs as [|x xs IH]; intros sq tcs st Hsq Hok Haw Hf st'.
  - destruct (rx_run_other sei_on tcs st Hf) as (Hs & Hr & Hp & _); fold st' in Hs, Hr, Hp; destruct Haw.
    exists []; unfold rx_player; rewrite Hp, Hr, (rs_lost _ _ Hs); split_and!; try done; constructor.
  - apply Forall_cons_1 in Hok as [Hx Hok]; cbn [fmap list_fmap air_stream] in Hf.
    apply filter_split in Hf as (t1 & t2 & -> & Hf1 & Hf2); pose proof (rx_run_sync sei_on t1 st (aw_sync _ _ Haw)) as Hsy.
    destruct (run_frame sq x t1 st Hsq Hx Haw Hf1) as (pre & msg & post & E1 & [Hmsg Hno] & Hpl & [F1 F2 F3 [F4 F5] F6]).
    assert (Hst' : st' = rx_run sei_on t2 (rx_run sei_on t1 st)) by (unfold st', rx_run; apply fold_left_app).
    rewrite Hst'; set (st1 := rx_run sei_on t1 st) in *; rewrite (lost_after_awaiting sq st Hsq Haw) in F6, Hmsg.
    destruct (IH (u16 (sq + 1)) t2 st1) as (pics & G1 & G2 & G3 & G4 & G5); try done; [apply u16_range| |].
    { destruct Haw; constructor; [done|done|congruence|done|intros _; by rewrite F4]. }
    exists ((pre ++ msg ++ post) :: pics); rewrite G2, Hpl, G3, F6; split_and!; try done.
    rewrite F6 in G1; constructor; [done| |done]; destruct Hmsg as [->|(t & -> & Ht1 & Ht2)]; [by left|].
    destruct sei_on; [right; split; [done|by eexists _, _]|]; specialize (Hno (or_introl eq_refl)); done.
Qed.
End ground.

Lemma air_chunks_ok payload sq f :
  0 < payload <= AR8030_CHUNK_MAX_PAYLOAD -> 0 <= sq < 65536 -> vframe_ok payload f -> Forall chunk_ok (air_chunks payload sq f).
Proof.
  intros Hpay Hsq [Hpts Hfl Hne Hd _].
  assert (Hw : 0 <= wire_flags f < 64) by apply (flags_spec (vf_flags f) Hfl (vf_pts f) (vf_pts f)).
  unfold air_chunks; destruct (vf_slices f) as [|d [|d2 rest]]; [done| |by apply stream_chunks_ok].
  apply Forall_cons_1 in Hd as [[Hb Hl] _]; apply chunks_of_ok; [|done].
  constructor; cbn; unfold AR8030_CHUNK_CODEC_H265; (done || lia).
Qed.

Lemma air_stream_ok payload fs : forall sq,
  0 < payload <= AR8030_CHUNK_MAX_PAYLOAD -> 0 <= sq < 65536 -> Forall (vframe_ok payload) fs -> Forall chunk_ok (air_stream payload sq fs).
Proof.
  induction fs as [|f fs IH]; intros sq Hpay Hsq Hok; [constructor|]; apply Forall_cons_1 in Hok as [Hf Hok].
  cbn [air_stream]; apply Forall_app; split; [by apply air_chunks_ok|apply IH; try done; apply u16_range].
Qed.

(** ** Both ends *)

(** Between frames, with the counters in range. *)
Record between_frames {W} (s : txst W) : Prop := {
  bf_send : sctx_ok (tx_send (T s));
  bf_seq : 0 <= tx_frame_seq (T s) < 65536;
  bf_closed : sf_open (tx_sf (T s)) = false;
  bf_complete : 0 <= frames_complete (sx_stats (tx_send (T s))) < 2 ^ 64
}.

Section video.
Context {W R P : Type} `{HE : TxEnv W} `{HW : !TxWire W} `{HL : LinkSdk W} `{HR : TxRing W} `{HP : Packetizer P} `{HS : !PacketizerSpec P}.
Context (cfg : tx_cfg) (sei_on : bool) (cap : Z).
#[local] Abbreviation payload := (tc_chunk_payload cfg).
Hypothesis Hpay : 0 < payload <= AR8030_CHUNK_MAX_PAYLOAD.
Hypothesis H31 : cap + TIMING_SEI_NAL_MAX < 2 ^ 31.
(** The air side's link takes something of every write; a look at the ring's
    mapping writes nothing. *)
Hypothesis Htakes : forall b w, b <> [] -> 0 < (bb_socket_write b w).1.
Hypothesis Hgoes : forall w, (g_stop w).1 = false.
Hypothesis Hmapped : forall w : W, wire (ring_mapped w).2 = wire w.
(** The ground side reads what is there. *)
Context (read_fn : R -> Z -> list Z * R) (stopped : R -> bool) (pending : R -> list Z).
Hypothesis Hread : wire_reader read_fn pending.
Hypothesis Heager : wire_eager read_fn pending.
Hypothesis Hstop : forall r, stopped r = false.

(** C1. A video crosses the link: the ring entries of any number of frames,
    each left whole or slice by slice by the encoder, go through the send
    loop, the byte stream and the receive loop - whatever the chunk size, the
    cuts of the writes and of the reads, and the control and sidecar chunks
    riding along - and the player ends up with exactly one picture more per
    frame, in order, each the frame's NAL units in order with at most one
    message among them, which has the frame's number.  The air counts every
    frame complete, the ground none lost, and no byte is left over. *)
Theorem video_reaches_the_player xs s st :
  Forall (src_ok payload cap) xs -> between_frames s -> awaiting cap (tx_frame_seq (T s)) st ->
  let t := (mfor (tx_entry cfg) (concat (frame_entries <$> (to_vframe <$> xs))) s).2 in
  between_frames t /\
  frames_complete (sx_stats (tx_send (T t))) = u64 (frames_complete (sx_stats (tx_send (T s))) + zlen xs) /\
  frames_incomplete (sx_stats (tx_send (T t))) = frames_incomplete (sx_stats (tx_send (T s))) /\
  exists sent n, wire (Tw t) = wire (Tw s) ++ sent /\
    forall nows b r fuel, length nows = n -> stream_ok b -> 22 + 65535 <= s_cap b -> view pending b r = sent ->
      (2 * length sent < fuel)%nat ->
      exists b' r' st' pics, rx_iterations read_fn stopped sei_on fuel nows (b, r, st) = Some (b', r', st') /\
        view pending b' r' = [] /\
        seen sei_on (rx_frames_lost st) (tx_frame_seq (T s)) xs pics /\
        rx_player st' = show (rx_player st) pics /\ rx_frames_lost st' = rx_frames_lost st.
Proof using Hpay H31 Htakes Hgoes Hmapped Hread Heager Hstop HS.
  intros Hok [Hs1 Hs2 Hs3 Hs4] Haw t.
  assert (Hv : Forall (vframe_ok payload) (to_vframe <$> xs)).
  { apply Forall_fmap; eapply list.Forall_impl; [exact Hok|]; intros x Hx; by eapply src_vframe_ok. }
  pose proof (frames_wire cfg Hpay Htakes Hgoes Hmapped _ s Hv Hs1 Hs2 Hs3 Hs4) as Hair; unfold wp in Hair; fold t in Hair.
  destruct Hair as (A1 & A2 & A3 & A4 & A5 & cs & Hm & Hw).
  assert (Hlen : zlen (to_vframe <$> xs) = zlen xs) by (unfold zlen; by rewrite length_fmap); rewrite Hlen in A4.
  split_and!; [constructor; try done; rewrite A4; apply u64_range|done|done|].
  assert (Hcs : Forall chunk_ok cs) by (eapply mixed_ok; [exact Hm|by apply air_stream_ok]).
  exists (wire_bytes cs), (length cs); split; [done|]; intros nows b r fuel Hnows Hso Hcaps Hview Hfuel.
  destruct (wire_chunks_read read_fn stopped pending Hread Heager Hstop sei_on cs nows b r fuel st Hcs Hnows Hso Hcaps Hview Hfuel)
    as (b' & r' & Hit & Hend).
  destruct (run_frames sei_on payload cap Hpay H31 xs (tx_frame_seq (T s)) (zip nows cs) st Hs2 Hok Haw) as (pics & G1 & G2 & G3 & _).
  { rewrite snd_zip by lia; by destruct Hm. }
  by exists b', r', (rx_run sei_on (zip nows cs) st), pics.
Qed.
End video.

(** ** A concrete link: two frames, the first in two slices, seven bytes a
    write, five a read *)

Definition demo_video : list picture_src :=
  [mk_src 123 0 (1, 0, 0) [demo_part1; demo_part2]; mk_src 3123 0 (1, 0, 0) [demo_part1]].

Definition demo_video_cfg : tx_cfg := mk_tx_cfg [47; 118] 4 false 0 (S754_zero false).
Definition demo_sender : txst demo_air :=
  mk_txst (tx_loop_init (mk_link (Some 1) (Some 1) 3) 0 65536 (5, 6) (S754_zero false) 0) (mk_air (mk_net [] [] true 3000) []).

Lemma air_takes b w : b <> [] -> 0 < (@bb_socket_write _ (air_env paced_env) b w).1.
Proof. destruct w as [n es]; intros Hb; exact (takes_some b n Hb). Qed.

Lemma demo_video_ok : Forall (src_ok 4 4096) demo_video.
Proof.
  repeat (constructor; [constructor; try (cbn; lia); [done| |vm_compute; congruence|vm_compute; congruence]|]); [..|constructor].
  - exact demo_parts_ok.
  - constructor; [exact (Forall_inv demo_parts_ok)|constructor].
Qed.

Lemma demo_sender_between : between_frames demo_sender.
Proof. constructor; [apply sctx_ok_init|vm_compute; split; congruence|done|vm_compute; split; congruence]. Qed.

Lemma demo_rx_awaiting : awaiting 4096 (tx_frame_seq (T demo_sender)) demo_rx.
Proof. constructor; [done|exact demo_ready|done|vm_compute; congruence|done]. Qed.

Lemma air_wire_net (w : demo_air) : @wire _ _ (air_wire paced_env paced_wire) w = dn_wire (da_net w).
Proof. done. Qed.

Lemma video_reaches_the_player_witness :
  let t := (mfor (tx_entry (H := air_env paced_env) demo_video_cfg) (concat (frame_entries <$> (to_vframe <$> demo_video))) demo_sender).2 in
  exists n, forall nows, length nows = n ->
    exists b' r' st',
      rx_iterations (paced_read 5) (fun _ => false) false (S (2 * length (dn_wire (da_net (Tw t)))))
        nows (ar8030_chunk_stream_init 70000, dn_wire (da_net (Tw t)), demo_rx) = Some (b', r', st') /\
      pl_pictures (rx_player st')
        = pl_pictures (rx_player demo_rx) ++
          [[[64; 1; 12]; [38; 1; 1; 2; 3]; [38; 1; 4; 5; 6; 7; 8; 9; 10; 11]]; [[64; 1; 12]; [38; 1; 1; 2; 3]]].
Proof.
  intros t.
  pose proof (video_reaches_the_player (HE := air_env paced_env) (HW := air_wire paced_env paced_wire) (HS := rtp_wire_spec)
    demo_video_cfg false 4096 ltac:(vm_compute; done) ltac:(vm_compute; done) air_takes ltac:(by intros []) ltac:(done)
    (paced_read 5) (fun _ => false) id (paced_read_wire 5) (paced_read_eager 5 ltac:(lia)) ltac:(done)
    demo_video demo_sender demo_rx demo_video_ok demo_sender_between demo_rx_awaiting) as Hth.
  cbv zeta in Hth; fold t in Hth; clearbody t; destruct Hth as (_ & _ & _ & sent & n & Hw & Hth).
  exists n; intros nows Hn; rewrite !air_wire_net in Hw; cbn [Tw demo_sender da_net dn_wire app] in Hw; rewrite Hw.
  destruct (Hth nows (ar8030_chunk_stream_init 70000) sent (S (2 * length sent))) as (b' & r' & st' & pics & Hrun & _ & Hseen & Hpl & _).
  - exact Hn.
  - exact ChunkStream.demo_stream_ok.
  - vm_compute; congruence.
  - reflexivity.
  - lia.
  - exists b', r', st'; split; [exact Hrun|]; rewrite Hpl.
    rewrite (seen_quiet _ _ _ _ Hseen); vm_compute; reflexivity.
Defined.
