(* ===== verification/KmodNet.v ===== *)
(** [kmod/artosyn_net.c]: the network device on the radio module's socket.
    Packets go out as datagrams inside RPC frames; transfers from the chip are
    split into the frames of this socket, which are taken here, and the rest,
    which is left to the daemon.  [unsigned long] counters are 64 bits. *)

From S2P Require Import Prelude Monad.
#[local] Open Scope Z_scope.

Definition RPC_HEAD : Z := 0xaa.
Definition RPC_TAIL : Z := 0xbb.
Definition RPC_HDR_LEN : Z := 18.
Definition RPC_OVERHEAD : Z := RPC_HDR_LEN + 1.
Definition RPC_XOR_LEN : Z := 17.
Definition DGRAM_HEAD : Z := 0xab.
Definition DGRAM_TAIL : Z := 0xbc.
Definition DGRAM_HDR_LEN : Z := 6.
Definition DGRAM_OVERHEAD : Z := DGRAM_HDR_LEN + 1.
Definition DGRAM_XOR_LEN : Z := 5.
Definition SO_POS_LEN : Z := 8.
Definition BB_REQ_SOCKET : Z := 4.
Definition SO_OPEN : Z := 0.
Definition SO_WRITE : Z := 1.
Definition SO_READ : Z := 2.
Definition SO_CLOSE : Z := 3.
Definition BB_SOCK_FLAG_RX : Z := Z.shiftl 1 0.
Definition BB_SOCK_FLAG_TX : Z := Z.shiftl 1 1.
Definition BB_SOCK_FLAG_DATAGRAM : Z := Z.shiftl 1 3.
Definition SO_STA_SEND_OK : Z := - 0x106.
Definition SO_STA_PENDING : Z := - 0x107.
Definition SO_STA_WANTED : Z := - 0x108.
Definition SO_STA_ALREADY_OPEN : Z := 0x101.
Definition NET_TXQ_STOP : Z := 64.
Definition NET_TXQ_WAKE : Z := 16.
Definition NET_TX_STAGE_SIZE : Z := 16 * 1024.
Definition NET_RXBUF_SIZE : Z := 64 * 1024.
Definition NET_MAX_DGRAM : Z := 8 * 1024.

(** Linux's error numbers. *)
Definition EIO : Z := 5.
Definition ENOMEM : Z := 12.
Definition EINVAL : Z := 22.
Definition INT_MIN : Z := - 2 ^ 31.

(** The kernel's headers and the vendor's [sdio.h]. *)
Class NetHeaders := { ETH_HLEN : Z; SDIO_DEVICE_BLOCK_SIZE : Z }.

(** The module's parameters. *)
Record net_params := mk_np { net_slot : Z; net_port : Z; net_tx_buf : Z; net_rx_buf : Z }.

(** ** State *)

Record net_counters := mk_nc {
  rpc_rx_frames : Z; rpc_tx_frames : Z; tx_writes : Z; rx_unparsed : Z; rx_truncated : Z; rx_dgram_errors : Z;
  ack_ok : Z; ack_send_ok : Z; ack_pending : Z; ack_wanted : Z; ack_other : Z
}.
#[export] Instance eta_net_counters : Eta net_counters := fun c =>
  mk_nc (rpc_rx_frames c) (rpc_tx_frames c) (tx_writes c) (rx_unparsed c) (rx_truncated c) (rx_dgram_errors c)
    (ack_ok c) (ack_send_ok c) (ack_pending c) (ack_wanted c) (ack_other c).

(** The fields of [ndev->stats] the driver counts in. *)
Record ndev_stats := mk_ns {
  st_rx_packets : Z; st_rx_bytes : Z; st_rx_dropped : Z; st_rx_errors : Z; st_rx_length_errors : Z;
  st_tx_packets : Z; st_tx_bytes : Z; st_tx_dropped : Z; st_tx_errors : Z
}.
#[export] Instance eta_ndev_stats : Eta ndev_stats := fun c =>
  mk_ns (st_rx_packets c) (st_rx_bytes c) (st_rx_dropped c) (st_rx_errors c) (st_rx_length_errors c)
    (st_tx_packets c) (st_tx_bytes c) (st_tx_dropped c) (st_tx_errors c).

(** [struct artosyn_net], the queue and carrier flags of its net_device, and
    whether [tx_work] is queued.  [kn_rxbuf] is [rxbuf[0..rxlen)],
    [kn_open_done] the completion's count. *)
Record knet := mk_knet {
  kn_slot : Z; kn_port : Z; kn_wr_index : Z; kn_msgid : Z; kn_sock_open : bool; kn_open_sta : Z; kn_open_done : Z;
  kn_txq : list (list Z); kn_work : bool; kn_stopped : bool; kn_carrier : bool; kn_rxbuf : list Z;
  kn_cnt : net_counters; kn_stats : ndev_stats
}.
#[export] Instance eta_knet : Eta knet := fun s =>
  mk_knet (kn_slot s) (kn_port s) (kn_wr_index s) (kn_msgid s) (kn_sock_open s) (kn_open_sta s) (kn_open_done s)
    (kn_txq s) (kn_work s) (kn_stopped s) (kn_carrier s) (kn_rxbuf s) (kn_cnt s) (kn_stats s).

(** What of the kernel and of [artosyn_sdio.c] the device uses: writing into
    the chip's FIFO, allocating, handing a packet up, whether the interface is
    up, whether the card is gone, and the SDIO device's error count. *)
Class NetIo (W : Type) := {
  artosyn_write_all : list Z -> W -> Z * W;
  alloc : Z -> W -> bool * W;
  netif_rx : list Z -> W -> W;
  netif_running : W -> bool * W;
  adev_removed : W -> bool * W;
  adev_rx_error : W -> W
}.

Record netst (W : Type) := mk_netst { N : knet; Nw : W }.
Arguments mk_netst {W} N Nw.
Arguments N {W} _.
Arguments Nw {W} _.

(** ** The wire format *)

Definition art_xor (p : list Z) (n : Z) : Z := fold_left Z.lxor (ztake n p) 0xff.

(** The RPC header [rpc_put_hdr] writes, with [sta] 0; the chip's replies have
    a status there. *)
Definition rpc_hdr (datalen reqid msgid sta : Z) : list Z :=
  let h := [RPC_HEAD] ++ le_enc 4 datalen ++ be_enc 4 reqid ++ be_enc 4 msgid ++ be_enc 4 sta in
  h ++ [art_xor h RPC_XOR_LEN].

(** A frame: [rpc_put_hdr]'s header and tail around the data. *)
Definition rpc_frame (reqid msgid sta : Z) (data : list Z) : list Z :=
  rpc_hdr (zlen data) reqid msgid sta ++ data ++ [RPC_TAIL].

Definition so_reqid (s : knet) (op : Z) : Z :=
  Z.lor (Z.lor (Z.lor (Z.shiftl BB_REQ_SOCKET 24) (Z.shiftl op 16)) (Z.shiftl (kn_slot s) 8)) (kn_port s).

Definition dgram (pkt : list Z) : list Z :=
  let h := [DGRAM_HEAD] ++ le_enc 4 (zlen pkt) in
  h ++ [art_xor h DGRAM_XOR_LEN] ++ pkt ++ [DGRAM_TAIL].

(** The kernel's [ALIGN], for a power of two. *)
Definition ALIGN (x a : Z) : Z := Z.land (x + (a - 1)) (Z.lnot (a - 1)).

Section driver.
Context {W : Type} `{NetHeaders} `{NetIo W}.

#[local] Abbreviation Mn := (M (netst W)).

Definition getN {A} (f : knet -> A) : Mn A := fun s => (f (N s), s).
Definition updN (f : knet -> knet) : Mn unit := fun s => (tt, mk_netst (f (N s)) (Nw s)).
Definition envN {A} (m : W -> A * W) : Mn A := fun s => let '(a, w) := m (Nw s) in (a, mk_netst (N s) w).
Definition envN_ (f : W -> W) : Mn unit := envN (fun w => (tt, f w)).
Definition count (f : net_counters -> net_counters) : Mn unit := updN (fun s => s <| kn_cnt := f (kn_cnt s) |>).
Definition stat (f : ndev_stats -> ndev_stats) : Mn unit := updN (fun s => s <| kn_stats := f (kn_stats s) |>).

Definition net_next_msgid : Mn Z :=
  id ← getN kn_msgid;
  updN (fun s => s <| kn_msgid := u32 (kn_msgid s + 1) |>) ;;
  mret id.

Definition net_pad (buf : list Z) (cap : Z) : list Z :=
  let padded := if SDIO_DEVICE_BLOCK_SIZE <? zlen buf then ALIGN (zlen buf) SDIO_DEVICE_BLOCK_SIZE else zlen buf in
  if cap <? padded then buf else buf ++ replicate (Z.to_nat (padded - zlen buf)) 0.

Definition net_send_ctl (op : Z) (data : list Z) : Mn Z :=
  ok ← envN (alloc (RPC_OVERHEAD + zlen data));
  if (ok : bool) then
    reqid ← getN (fun s => so_reqid s op);
    id ← net_next_msgid;
    envN (artosyn_write_all (rpc_frame reqid id 0 data))
  else mret (- ENOMEM).

(** ** Sending *)

Definition net_frame_len (payload : Z) : Z := u32 (RPC_OVERHEAD + SO_POS_LEN + DGRAM_OVERHEAD + payload).

Definition net_build_frame (pkt : list Z) : Mn (list Z) :=
  pos ← getN kn_wr_index;
  updN (fun s => s <| kn_wr_index := u64 (kn_wr_index s + (DGRAM_OVERHEAD + zlen pkt)) |>) ;;
  reqid ← getN (fun s => so_reqid s SO_WRITE);
  id ← net_next_msgid;
  mret (rpc_frame reqid id 0 (le_enc 8 pos ++ dgram pkt)).

(** One packet off the queue: the body of [net_tx_work]'s loop. *)
Definition net_tx_one (pkt : list Z) : Mn unit :=
  s ← getN id;
  when (kn_stopped s && (zlen (kn_txq s) <? NET_TXQ_WAKE)) (updN (fun s => s <| kn_stopped := false |>)) ;;
  if NET_TX_STAGE_SIZE <? net_frame_len (zlen pkt) then stat (fun t => t <| st_tx_dropped := u64 (st_tx_dropped t + 1) |>)
  else
    frame ← net_build_frame pkt;
    ret ← envN (artosyn_write_all (net_pad frame NET_TX_STAGE_SIZE));
    if negb (ret =? 0) then stat (fun t => t <| st_tx_errors := u64 (st_tx_errors t + 1) |>)
    else
      count (fun c => c <| tx_writes := u64 (tx_writes c + 1) |> <| rpc_tx_frames := u64 (rpc_tx_frames c + 1) |>) ;;
      stat (fun t => t <| st_tx_packets := u64 (st_tx_packets t + 1) |> <| st_tx_bytes := u64 (st_tx_bytes t + zlen pkt) |>).

Definition skb_dequeue : Mn (option (list Z)) :=
  q ← getN kn_txq;
  match q with
  | [] => mret None
  | pkt :: q => updN (fun s => s <| kn_txq := q |>) ;; mret (Some pkt)
  end.

Fixpoint net_tx_loop (fuel : nat) : Mn unit :=
  match fuel with
  | O => mret tt
  | S fuel =>
      pkt ← skb_dequeue;
      match pkt with
      | Some pkt => net_tx_one pkt ;; net_tx_loop fuel
      | None => mret tt
      end
  end.

(** The worker with no packet coming in meanwhile; for packets that do, see
    [KmodQueue]. *)
Definition net_tx_work : Mn unit :=
  updN (fun s => s <| kn_work := false |>) ;;
  q ← getN kn_txq;
  net_tx_loop (S (length q)) ;;
  stopped ← getN kn_stopped;
  when stopped (updN (fun s => s <| kn_stopped := false |>)).

Definition artosyn_net_xmit (pkt : list Z) : Mn unit :=
  on ← getN kn_sock_open;
  if negb on then stat (fun t => t <| st_tx_dropped := u64 (st_tx_dropped t + 1) |>)
  else
    updN (fun s => s <| kn_txq := kn_txq s ++ [pkt] |>) ;;
    q ← getN kn_txq;
    when (NET_TXQ_STOP <=? zlen q) (updN (fun s => s <| kn_stopped := true |>)) ;;
    updN (fun s => s <| kn_work := true |>).

(** ** Receiving *)

Definition net_deliver (pkt : list Z) : Mn unit :=
  if zlen pkt <? ETH_HLEN then
    stat (fun t => t <| st_rx_length_errors := u64 (st_rx_length_errors t + 1) |> <| st_rx_errors := u64 (st_rx_errors t + 1) |>)
  else
    ok ← envN (alloc (zlen pkt));
    if negb ok then stat (fun t => t <| st_rx_dropped := u64 (st_rx_dropped t + 1) |>)
    else
      stat (fun t => t <| st_rx_packets := u64 (st_rx_packets t + 1) |> <| st_rx_bytes := u64 (st_rx_bytes t + zlen pkt) |>) ;;
      envN_ (netif_rx pkt).

Definition dgram_error : Mn unit := count (fun c => c <| rx_dgram_errors := u64 (rx_dgram_errors c + 1) |>).

(** The loop over the reassembly buffer; [q] is the buffer from [pos] on, and
    the result what is left of it.  Every turn goes forward, so a turn per byte
    is enough. *)
Fixpoint stream_loop (fuel : nat) (q : list Z) : Mn (list Z) :=
  match fuel with
  | O => mret q
  | S fuel =>
      if DGRAM_OVERHEAD <=? zlen q then
        if negb (byte_at q 0 =? DGRAM_HEAD) then
          dgram_error ;;
          stream_loop fuel (match memchr q 0 DGRAM_HEAD (zlen q) with Some next => zdrop next q | None => [] end)
        else
          let len := le_dec (zslice 1 4 q) in
          if negb (art_xor q DGRAM_XOR_LEN =? byte_at q 5) || (NET_MAX_DGRAM <? len) then
            dgram_error ;; stream_loop fuel (zdrop 1 q)
          else if zlen q <? DGRAM_OVERHEAD + len then mret q
          else if negb (byte_at q (DGRAM_HDR_LEN + len) =? DGRAM_TAIL) then dgram_error ;; stream_loop fuel (zdrop 1 q)
          else net_deliver (zslice DGRAM_HDR_LEN len q) ;; stream_loop fuel (zdrop (DGRAM_OVERHEAD + len) q)
      else mret q
  end.

Definition net_rx_stream (data : list Z) : Mn unit :=
  old ← getN kn_rxbuf;
  let full := NET_RXBUF_SIZE <? u32 (zlen old + zlen data) in
  when full (dgram_error ;; updN (fun s => s <| kn_rxbuf := [] |>)) ;;
  if full && (NET_RXBUF_SIZE <? zlen data) then mret tt
  else
    buf ← getN (fun s => kn_rxbuf s ++ data);
    rest ← stream_loop (S (length buf)) buf;
    updN (fun s => s <| kn_rxbuf := rest |>).

Definition net_rx_write_ack (sta : Z) (data : list Z) : Mn unit :=
  if 0 <=? sta then count (fun c => c <| ack_ok := u64 (ack_ok c + 1) |>)
  else if zlen data <? 16 then count (fun c => c <| ack_other := u64 (ack_other c + 1) |>)
  else
    let pos := le_dec (zslice 0 8 data) in
    let arg := le_dec (zslice 8 8 data) in
    if sta =? SO_STA_SEND_OK then count (fun c => c <| ack_send_ok := u64 (ack_send_ok c + 1) |>)
    else if sta =? SO_STA_PENDING then
      count (fun c => c <| ack_pending := u64 (ack_pending c + 1) |>) ;; updN (fun s => s <| kn_wr_index := pos |>)
    else if sta =? SO_STA_WANTED then
      count (fun c => c <| ack_wanted := u64 (ack_wanted c + 1) |>) ;; updN (fun s => s <| kn_wr_index := arg |>)
    else count (fun c => c <| ack_other := u64 (ack_other c + 1) |>).

Definition net_rx_frame (op sta : Z) (data : list Z) : Mn unit :=
  count (fun c => c <| rpc_rx_frames := u64 (rpc_rx_frames c + 1) |>) ;;
  if op =? SO_READ then
    up ← envN netif_running;
    when up (net_rx_stream data)
  else if op =? SO_WRITE then net_rx_write_ack sta data
  else if op =? SO_OPEN then updN (fun s => s <| kn_open_sta := sta |> <| kn_open_done := kn_open_done s + 1 |>)
  else mret tt.

(** What the scan of a transfer came to: how much of it is still to be kept, and
    the bytes for the daemon so far; or the allocation for them failed. *)
Inductive rx_scan := Scanned (keep_from : Z) (rest : option (list Z)) | No_memory.

Definition frame_at (p : list Z) (off : Z) : Z * Z * Z * Z :=
  let reqid := be_dec (zslice (off + 5) 4 p) in
  (reqid, Z.land (Z.shiftr reqid 16) 0xff, s32 (be_dec (zslice (off + 13) 4 p)), le_dec (zslice (off + 1) 4 p)).

Definition is_mine (s : knet) (reqid : Z) : bool :=
  (Z.shiftr reqid 24 =? BB_REQ_SOCKET) && (Z.land (Z.shiftr reqid 8) 0xff =? kn_slot s) && (Z.land reqid 0xff =? kn_port s).

Fixpoint rx_loop (fuel : nat) (p : list Z) (off keep_from : Z) (rest : option (list Z)) : Mn rx_scan :=
  match fuel with
  | O => mret (Scanned keep_from rest)
  | S fuel =>
      if u32 (off + RPC_OVERHEAD) <=? zlen p then
        if negb (byte_at p off =? RPC_HEAD) then
          if byte_at p off =? 0 then rx_loop fuel p (off + 1) keep_from rest
          else
            when (off =? 0) (count (fun c => c <| rx_unparsed := u64 (rx_unparsed c + 1) |>)) ;;
            mret (Scanned keep_from rest)
        else
          let '(reqid, op, sta, dlen) := frame_at p off in
          if zlen p - off - RPC_OVERHEAD <? dlen then
            count (fun c => c <| rx_truncated := u64 (rx_truncated c + 1) |>) ;; mret (Scanned keep_from rest)
          else
            let flen := RPC_OVERHEAD + dlen in
            if negb (byte_at p (off + flen - 1) =? RPC_TAIL) || negb (art_xor (zdrop off p) RPC_XOR_LEN =? byte_at p (off + RPC_XOR_LEN))
            then count (fun c => c <| rx_unparsed := u64 (rx_unparsed c + 1) |>) ;; mret (Scanned keep_from rest)
            else
              mine ← getN (fun s => is_mine s reqid);
              if (mine : bool) then
                ok ← match rest with Some _ => mret true | None => envN (alloc (zlen p)) end;
                if negb ok then envN_ adev_rx_error ;; mret No_memory
                else
                  net_rx_frame op sta (zslice (off + RPC_HDR_LEN) dlen p) ;;
                  rx_loop fuel p (off + flen) (off + flen) (Some (default [] rest ++ zslice keep_from (off - keep_from) p))
              else rx_loop fuel p (off + flen) keep_from rest
      else mret (Scanned keep_from rest)
  end.

(** [None]: nothing is left for the daemon. *)
Definition artosyn_net_rx (p : list Z) : Mn (option (list Z)) :=
  on ← getN kn_sock_open;
  if negb on then mret (Some p)
  else
    r ← rx_loop (S (length p)) p 0 0 None;
    match r with
    | Scanned keep_from (Some rest) =>
        let rest := rest ++ zdrop keep_from p in
        mret (match memchr rest 0 RPC_HEAD (zlen rest) with Some _ => Some rest | None => None end)
    | Scanned _ None | No_memory => mret (Some p)
    end.

(** ** The interface going up and down *)

Definition open_opt (pa : net_params) : list Z :=
  le_enc 4 (Z.lor (Z.lor BB_SOCK_FLAG_TX BB_SOCK_FLAG_RX) BB_SOCK_FLAG_DATAGRAM) ++ le_enc 4 (net_tx_buf pa) ++ le_enc 4 (net_rx_buf pa).

(** [meanwhile]: the transfers that come in until the reply or the timeout; what
    they leave for the daemon is not this function's. *)
Definition artosyn_net_open (pa : net_params) (meanwhile : list (list Z)) : Mn Z :=
  updN (fun s => s <| kn_rxbuf := [] |> <| kn_wr_index := 0 |> <| kn_open_sta := INT_MIN |> <| kn_open_done := 0 |>
                   <| kn_sock_open := true |>) ;;
  ret ← net_send_ctl SO_OPEN (open_opt pa);
  if negb (ret =? 0) then updN (fun s => s <| kn_sock_open := false |>) ;; mret ret
  else
    mfor (fun p => _ ← artosyn_net_rx p; mret tt) meanwhile ;;
    s ← getN id;
    let left := 0 <? kn_open_done s in
    when left (updN (fun s => s <| kn_open_done := kn_open_done s - 1 |>)) ;;
    if left && negb (kn_open_sta s =? SO_STA_ALREADY_OPEN) && negb (kn_open_sta s =? 0) then
      updN (fun s => s <| kn_sock_open := false |>) ;; mret (- EIO)
    else updN (fun s => s <| kn_carrier := true |> <| kn_stopped := false |>) ;; mret 0.

Definition artosyn_net_stop : Mn Z :=
  updN (fun s => s <| kn_stopped := true |> <| kn_carrier := false |> <| kn_sock_open := false |> <| kn_work := false |> <| kn_txq := [] |>) ;;
  gone ← envN adev_removed;
  if (gone : bool) then mret 0
  else _ ← net_send_ctl SO_CLOSE []; mret 0.
End driver.

Definition nc_zero : net_counters := mk_nc 0 0 0 0 0 0 0 0 0 0 0.
Definition ns_zero : ndev_stats := mk_ns 0 0 0 0 0 0 0 0 0.

(** What [artosyn_net_probe] sets up. *)
Definition net_probe_state (pa : net_params) : knet :=
  mk_knet (u8 (net_slot pa)) (u8 (net_port pa)) 0 0 false 0 0 [] false false false [] nc_zero ns_zero.
