(* ===== verification/KmodPath.v ===== *)
(** The network device of [kmod/artosyn_net.c] at work: packets cross the
    socket's byte stream however it is cut, a transfer is shared out between
    the device and the daemon, and the queue never stays stopped. *)

From S2P Require Import Prelude Monad KmodNet.
#[local] Open Scope Z_scope.

(** ** Frames and datagrams *)

Lemma art_xor_app h k n : n = zlen h -> art_xor (h ++ k) n = art_xor h n.
Proof. intros Hn; unfold art_xor; rewrite ztake_app by done; by rewrite ztake_all by lia. Qed.

Lemma zlen_dgram pkt : zlen (dgram pkt) = DGRAM_OVERHEAD + zlen pkt.
Proof.
  unfold dgram; rewrite !zlen_app, zlen_le_enc; change (zlen [DGRAM_HEAD]) with 1; change (zlen [DGRAM_TAIL]) with 1.
  change DGRAM_OVERHEAD with 7; match goal with |- context [zlen [?x]] => change (zlen [x]) with 1 end; lia.
Qed.

Section datagrams.
Context {W : Type} `{HH : NetHeaders} `{HN : NetIo W}.

Definition pkt_ok (pkt : list Z) : Prop := bytes_ok pkt /\ zlen pkt <= NET_MAX_DGRAM.

(** The header of a datagram, at the front of what is there. *)
Lemma dgram_header pkt q :
  pkt_ok pkt -> take 6 q = take 6 (dgram pkt) ->
  byte_at q 0 = DGRAM_HEAD /\ le_dec (zslice 1 4 q) = zlen pkt /\ art_xor q DGRAM_XOR_LEN = byte_at q 5.
Proof.
  intros [_ Hl] E; unfold NET_MAX_DGRAM in Hl; pose proof (zlen_nonneg pkt) as Hp.
  assert (Hd : dgram pkt = (DGRAM_HEAD :: le_enc 4 (zlen pkt)) ++ [art_xor (DGRAM_HEAD :: le_enc 4 (zlen pkt)) 5] ++ pkt ++ [DGRAM_TAIL]) by done.
  rewrite Hd in E; set (h := DGRAM_HEAD :: le_enc 4 (zlen pkt)) in *; set (x := art_xor h 5) in *.
  assert (Hq : exists k, q = h ++ x :: k).
  { exists (drop 6 q); rewrite <- (take_drop 6 q) at 1; rewrite E; reflexivity. }
  destruct Hq as [k ->]; split_and!; [done| |].
  - change (zslice 1 4 (h ++ x :: k)) with (le_enc 4 (zlen pkt)); rewrite le_dec_enc_mod; apply Z.mod_small; lia.
  - unfold DGRAM_XOR_LEN; rewrite art_xor_app; done.
Qed.

Lemma dgram_take6 pkt q k : dgram pkt = q ++ k -> 6 <= zlen q -> take 6 q = take 6 (dgram pkt).
Proof. intros -> Hq; unfold zlen in Hq; by rewrite take_app_le by lia. Qed.

Lemma dgram_tail pkt rest : byte_at (dgram pkt ++ rest) (DGRAM_HDR_LEN + zlen pkt) = DGRAM_TAIL.
Proof.
  pose proof (zlen_nonneg pkt) as Hp; unfold byte_at; change DGRAM_HDR_LEN with 6.
  replace (Z.to_nat (6 + zlen pkt)) with (6 + length pkt)%nat by (unfold zlen; lia).
  change (dgram pkt) with (take 6 (dgram pkt) ++ pkt ++ [DGRAM_TAIL]); rewrite <- !app_assoc.
  rewrite app_nth2 by (simpl; lia); change (length (take 6 (dgram pkt))) with 6%nat.
  rewrite app_nth2 by lia; by replace (6 + length pkt - 6 - length pkt)%nat with O by lia.
Qed.

Lemma dgram_data pkt rest : zslice DGRAM_HDR_LEN (zlen pkt) (dgram pkt ++ rest) = pkt.
Proof.
  change (dgram pkt) with (take 6 (dgram pkt) ++ pkt ++ [DGRAM_TAIL]); rewrite <- !app_assoc; unfold zslice.
  rewrite zdrop_app by done; by apply ztake_app.
Qed.

Lemma stream_loop_dgram fuel pkt rest (s : netst W) :
  pkt_ok pkt -> stream_loop (S fuel) (dgram pkt ++ rest) s = (net_deliver pkt ;; stream_loop fuel rest) s.
Proof.
  intros Hok; pose proof (zlen_nonneg pkt); pose proof (zlen_nonneg rest); cbn [stream_loop].
  assert (Hz : zlen (dgram pkt ++ rest) = DGRAM_OVERHEAD + zlen pkt + zlen rest) by (by rewrite zlen_app, zlen_dgram).
  rewrite (proj2 (Z.leb_le _ _)) by lia.
  destruct (dgram_header pkt (dgram pkt ++ rest) Hok) as (H1 & H2 & H3).
  { symmetry; apply (dgram_take6 pkt (dgram pkt) []); [by rewrite app_nil_r|rewrite zlen_dgram; change DGRAM_OVERHEAD with 7; lia]. }
  rewrite H1, H2, H3, !Z.eqb_refl; cbn [negb orb]; destruct Hok as [_ Hl]; rewrite (proj2 (Z.ltb_ge _ _)) by lia.
  rewrite (proj2 (Z.ltb_ge _ _)) by lia; rewrite dgram_tail, Z.eqb_refl, dgram_data; cbn [negb].
  rewrite zdrop_app; [done|by rewrite zlen_dgram].
Qed.

Lemma stream_loop_part fuel pkt q k (s : netst W) :
  pkt_ok pkt -> dgram pkt = q ++ k -> k <> [] -> stream_loop fuel q s = (q, s).
Proof.
  intros Hok E Hk; destruct fuel as [|fuel]; [done|]; cbn [stream_loop].
  destruct (Z.leb_spec DGRAM_OVERHEAD (zlen q)) as [Hq|]; [|done]; change DGRAM_OVERHEAD with 7 in *.
  destruct (dgram_header pkt q Hok) as (H1 & H2 & H3); [apply (dgram_take6 pkt q k); [done|lia]|].
  rewrite H1, H2, H3, !Z.eqb_refl; cbn [negb orb]; destruct Hok as [_ Hl]; rewrite (proj2 (Z.ltb_ge _ _)) by lia.
  apply (f_equal zlen) in E; rewrite zlen_dgram, zlen_app in E; change DGRAM_OVERHEAD with 7 in E.
  assert (0 < zlen k) by (destruct k; [done|rewrite zlen_cons; pose proof (zlen_nonneg k); lia]).
  by rewrite (proj2 (Z.ltb_lt _ _)) by lia.
Qed.

(** ** However the stream is cut *)

(** [buf]: nothing, or the beginning of the next packet's datagram. *)
Definition pending (buf : list Z) (todo : list (list Z)) : Prop :=
  match todo with [] => buf = [] | pkt :: _ => exists k, k <> [] /\ dgram pkt = buf ++ k end.

Lemma split_stream pkts : forall x y,
  x ++ y = concat (dgram <$> pkts) ->
  exists done todo buf, pkts = done ++ todo /\ x = concat (dgram <$> done) ++ buf /\ pending buf todo /\
    buf ++ y = concat (dgram <$> todo).
Proof.
  induction pkts as [|pkt pkts IH]; intros x y E; cbn [fmap list_fmap concat] in E.
  - apply app_nil in E as [-> ->]; by exists [], [], [].
  - destruct (decide (length (dgram pkt) <= length x)%nat) as [Hle|Hlt].
    + assert (Hx : x = dgram pkt ++ drop (length (dgram pkt)) x).
      { rewrite <- (take_drop (length (dgram pkt)) x) at 1; f_equal; apply (f_equal (take (length (dgram pkt)))) in E.
        by rewrite take_app_le, take_app_length in E. }
      rewrite Hx, <- app_assoc in E; apply app_inv_head in E; destruct (IH _ _ E) as (d & todo & buf & -> & Hd & Hp & He).
      exists (pkt :: d), todo, buf; cbn [fmap list_fmap concat app]; split_and!; try done; by rewrite Hx, Hd, app_assoc.
    + exists [], (pkt :: pkts), x; cbn [fmap list_fmap concat app]; split_and!; try done.
      exists (drop (length x) (dgram pkt)); split.
      * intros E2; apply (f_equal length) in E2; rewrite length_drop in E2; change (length (@nil Z)) with O in E2; lia.
      * rewrite <- (take_drop (length x) (dgram pkt)) at 1; f_equal; apply (f_equal (take (length x))) in E.
        by rewrite take_app_length, take_app_le in E by lia.
Qed.

Lemma pending_small buf todo : Forall pkt_ok todo -> pending buf todo -> zlen buf < DGRAM_OVERHEAD + NET_MAX_DGRAM.
Proof.
  destruct todo as [|pkt todo]; intros Hok; [by intros ->|]; intros (k & Hk & E); apply Forall_cons_1 in Hok as [[_ Hl] _].
  apply (f_equal zlen) in E; rewrite zlen_dgram, zlen_app in E.
  assert (0 < zlen k) by (destruct k; [done|rewrite zlen_cons; pose proof (zlen_nonneg k); lia]); lia.
Qed.

Lemma stream_loop_all pkts : forall fuel todo buf (s : netst W),
  Forall pkt_ok (pkts ++ todo) -> pending buf todo -> (length (concat (dgram <$> pkts) ++ buf) < fuel)%nat ->
  stream_loop fuel (concat (dgram <$> pkts) ++ buf) s = (buf, (mfor net_deliver pkts s).2).
Proof.
  induction pkts as [|pkt pkts IH]; intros fuel todo buf s Hok Hp Hf; cbn [fmap list_fmap concat app mfor] in *.
  - destruct todo as [|pkt todo]; [rewrite Hp; by destruct fuel|]; destruct Hp as (k & Hk & E).
    apply Forall_cons_1 in Hok as [Hok _]; by rewrite (stream_loop_part fuel pkt buf k).
  - destruct fuel as [|fuel]; [lia|]; apply Forall_cons_1 in Hok as [Hok1 Hok]; rewrite <- app_assoc.
    rewrite stream_loop_dgram, !bind_run by done; apply IH with (todo := todo); try done.
    rewrite <- app_assoc, length_app in Hf; pose proof (zlen_dgram pkt) as Hz; pose proof (zlen_nonneg pkt).
    change DGRAM_OVERHEAD with 7 in Hz; unfold zlen in *; lia.
Qed.

Definition set_rx (b : list Z) (s : netst W) : netst W := mk_netst ((N s) <| kn_rxbuf := b |>) (Nw s).

Lemma set_rx_same s : set_rx (kn_rxbuf (N s)) s = s.
Proof. by destruct s as [[] w]. Qed.

Lemma deliver_set b pkt s : net_deliver pkt (set_rx b s) = (tt, set_rx b (net_deliver pkt s).2).
Proof.
  unfold net_deliver; destruct (_ <? _); [done|]; rewrite !bind_run; unfold envN; cbn [Nw set_rx].
  destruct (alloc _ _) as [[] w]; done.
Qed.

Lemma mfor_deliver_set b pkts : forall s, mfor net_deliver pkts (set_rx b s) = (tt, set_rx b (mfor net_deliver pkts s).2).
Proof. induction pkts as [|pkt pkts IH]; intros s; [done|]; cbn [mfor]; rewrite !bind_run, deliver_set; cbn [snd]; by rewrite IH. Qed.

Lemma mfor_deliver_rxbuf pkts s : kn_rxbuf (N (mfor net_deliver pkts s).2) = kn_rxbuf (N s).
Proof. pose proof (mfor_deliver_set (kn_rxbuf (N s)) pkts s) as E; rewrite set_rx_same in E; by rewrite E. Qed.

Lemma mfor_app {A} (f : A -> M (netst W) unit) l1 l2 s : mfor f (l1 ++ l2) s = mfor f l2 (mfor f l1 s).2.
Proof. revert s; induction l1 as [|a l1 IH]; intros s; [done|]; cbn [mfor app]; by rewrite !bind_run, IH. Qed.

Lemma rx_stream_piece data done todo buf s :
  Forall pkt_ok (done ++ todo) -> kn_rxbuf (N s) ++ data = concat (dgram <$> done) ++ buf -> pending buf todo ->
  zlen (kn_rxbuf (N s)) + zlen data <= NET_RXBUF_SIZE ->
  net_rx_stream data s = (tt, set_rx buf (mfor net_deliver done s).2).
Proof.
  intros Hok E Hp Hl; unfold NET_RXBUF_SIZE in Hl; pose proof (zlen_nonneg (kn_rxbuf (N s))); pose proof (zlen_nonneg data).
  unfold net_rx_stream; rewrite bind_run; cbn [getN fst snd].
  rewrite u32_id by lia; rewrite (proj2 (Z.ltb_ge NET_RXBUF_SIZE _)) by (unfold NET_RXBUF_SIZE; lia); cbn [andb].
  rewrite !bind_run; cbn [when getN fst snd]; change ((mret (M := M (netst W)) () s).2) with s; rewrite E, (stream_loop_all done _ todo buf) by (done || lia); done.
Qed.

(** Small enough that a datagram still being put together never has to give
    way. *)
Definition piece_ok (data : list Z) : Prop := zlen data <= NET_RXBUF_SIZE - (DGRAM_OVERHEAD + NET_MAX_DGRAM).

(** ** Any bytes at all *)

Lemma resync_shorter q : byte_at q 0 <> DGRAM_HEAD -> (length q <> 0)%nat ->
  let q' := match memchr q 0 DGRAM_HEAD (zlen q) with Some next => zdrop next q | None => [] end in
  (length q' < length q)%nat /\ (bytes_ok q -> bytes_ok q').
Proof.
  intros Hh Hq; unfold memchr; replace (zslice 0 (zlen q) q) with q by (unfold zslice; by rewrite zdrop_0, ztake_all).
  destruct (index_of DGRAM_HEAD q) as [k|] eqn:Hk; cbn [fmap option_fmap option_map]; [|split; [simpl; lia|constructor]].
  apply index_of_Some in Hk as [Hk _]; split; [|auto with cint].
  unfold zdrop; rewrite length_drop; assert (k <> 0)%nat; [|lia].
  intros ->; apply Hh; unfold byte_at; destruct q; [done|]; by injection Hk.
Qed.

(** The reassembly loop leaves less than a datagram, whatever the bytes. *)
Definition short (q : list Z) : Prop := bytes_ok q /\ zlen q < DGRAM_OVERHEAD + NET_MAX_DGRAM.

Lemma stream_loop_short fuel : forall q (s : netst W),
  bytes_ok q -> (length q < fuel)%nat -> short (stream_loop fuel q s).1.
Proof.
  induction fuel as [|fuel IH]; intros q s Hok Hf; [lia|]; cbn [stream_loop].
  assert (Hret : zlen q < DGRAM_OVERHEAD + NET_MAX_DGRAM -> short ((mret (M := M (netst W)) q s).1)) by done; unfold NET_MAX_DGRAM in *.
  assert (Hdrop : forall n, 0 < n -> (length q <> 0)%nat -> bytes_ok (zdrop n q) /\ (length (zdrop n q) < fuel)%nat)
    by (intros n Hn Hq; split; [auto with cint|unfold zdrop; rewrite length_drop; lia]).
  destruct (Z.leb_spec DGRAM_OVERHEAD (zlen q)) as [Hq|Hq]; [|apply Hret; lia].
  assert (Hne : (length q <> 0)%nat) by (change DGRAM_OVERHEAD with 7 in *; unfold zlen in Hq; lia).
  destruct (negb (byte_at q 0 =? DGRAM_HEAD)) eqn:Hh.
  - apply negb_true_iff, Z.eqb_neq in Hh; rewrite bind_run; destruct (resync_shorter q Hh Hne) as [H1 H2]; apply IH; [by apply H2|lia].
  - destruct (negb _ || _) eqn:Hx; [rewrite bind_run; apply IH; by apply Hdrop|].
    apply orb_false_iff in Hx as [_ Hx%Z.ltb_ge].
    destruct (Z.ltb_spec (zlen q) (DGRAM_OVERHEAD + le_dec (zslice 1 4 q))); [apply Hret; lia|].
    pose proof (le_dec_bound (zslice 1 4 q) ltac:(auto with cint)); change DGRAM_OVERHEAD with 7 in *.
    destruct (negb (byte_at q (DGRAM_HDR_LEN + _) =? _)); rewrite bind_run; apply IH; apply Hdrop; try done; lia.
Qed.

Lemma deliver_rxbuf pkt : keeps (fun s t => kn_rxbuf (N t) = kn_rxbuf (N s)) (net_deliver pkt).
Proof. intros s; pose proof (mfor_deliver_rxbuf [pkt] s) as E; cbn [mfor] in E; by rewrite bind_run in E. Qed.

Definition rx_short (s : netst W) : Prop := short (kn_rxbuf (N s)).

Lemma rx_stream_short data : bytes_ok data -> zlen data < 2 ^ 31 -> run_inv rx_short (net_rx_stream data).
Proof.
  intros Hd Hl s [Hok Hs]; unfold net_rx_stream; rewrite bind_run; cbn [getN fst snd]; pose proof (zlen_nonneg data).
  pose proof (zlen_nonneg (kn_rxbuf (N s))); unfold NET_MAX_DGRAM in *; change DGRAM_OVERHEAD with 7 in *; rewrite u32_id by lia.
  rewrite bind_run; set (full := _ <? _); set (s1 := (when _ _ s).2).
  assert (Hs1 : bytes_ok (kn_rxbuf (N s1))) by (unfold s1; destruct full; [constructor|done]).
  assert (Hshort : full && (NET_RXBUF_SIZE <? zlen data) = true -> rx_short s1).
  { unfold s1; by destruct full. }
  destruct (full && _); [by apply Hshort|]; rewrite !bind_run; cbn [getN fst snd updN N].
  apply stream_loop_short; [by apply bytes_ok_app|lia].
Qed.

Lemma rx_same {A} (m : M (netst W) A) : keeps (fun s t => kn_rxbuf (N t) = kn_rxbuf (N s)) m -> run_inv rx_short m.
Proof. intros Hm s Hs; unfold rx_short; by rewrite Hm. Qed.

Lemma env_rxbuf {A} (m : W -> A * W) : keeps (fun s t => kn_rxbuf (N t) = kn_rxbuf (N s)) (envN m).
Proof. intros s; unfold envN; by destruct (m (Nw s)). Qed.

Lemma rx_frame_short op sta data : bytes_ok data -> zlen data < 2 ^ 31 -> run_inv rx_short (net_rx_frame op sta data).
Proof.
  intros Hd Hl; unfold net_rx_frame, net_rx_write_ack.
  inv_walk ltac:(first [by apply rx_stream_short|apply rx_same, env_rxbuf|by intros ? ?]).
Qed.

Lemma rx_loop_short fuel p : forall off keep rest,
  bytes_ok p -> zlen p < 2 ^ 31 -> run_inv rx_short (rx_loop fuel p off keep rest).
Proof.
  induction fuel as [|fuel IH]; intros off keep rest Hok Hl; cbn [rx_loop]; [apply inv_ret|].
  inv_walk ltac:(first [by apply IH|apply rx_same, env_rxbuf|by intros ? ?|
    apply rx_frame_short; [by auto with cint|unfold zslice, ztake, zdrop, zlen in *; rewrite length_take, length_drop; lia]]).
Qed.
End datagrams.

(** ** Sharing out a transfer *)

Definition id_ok (s : knet) : Prop := 0 <= kn_slot s < 256 /\ 0 <= kn_port s < 256.

Lemma so_reqid_spec s op :
  id_ok s -> 0 <= op < 256 ->
  is_mine s (so_reqid s op) = true /\ Z.land (Z.shiftr (so_reqid s op) 16) 0xff = op /\ 0 <= so_reqid s op < 2 ^ 32.
Proof.
  intros [Hs Hp] Ho.
  assert (E : so_reqid s op = (((4 * 2 ^ 8 + op) * 2 ^ 8) + kn_slot s) * 2 ^ 8 + kn_port s).
  { unfold so_reqid, BB_REQ_SOCKET; rewrite !Z.shiftl_mul_pow2 by lia.
    replace (4 * 2 ^ 24) with ((4 * 2 ^ 8) * 2 ^ 16) by lia; replace (op * 2 ^ 16) with (op * 2 ^ 16) by lia.
    rewrite <- !Z.shiftl_mul_pow2 by lia; rewrite <- Z.shiftl_lor, !Z.shiftl_mul_pow2 by lia; rewrite (lor_low 8 4 op) by lia.
    replace ((4 * 2 ^ 8 + op) * 2 ^ 16) with (((4 * 2 ^ 8 + op) * 2 ^ 8) * 2 ^ 8) by lia.
    rewrite <- !Z.shiftl_mul_pow2 by lia; rewrite <- Z.shiftl_lor, !Z.shiftl_mul_pow2 by lia; rewrite (lor_low 8) by lia.
    by rewrite (lor_low 8) by lia. }
  unfold is_mine, BB_REQ_SOCKET; rewrite !land_ff, !Z.shiftr_div_pow2 by lia; rewrite E; eval_pow.
  assert (E1 : ((((4 * 256 + op) * 256) + kn_slot s) * 256 + kn_port s) / 16777216 = 4) by (Z.div_mod_to_equations; lia).
  assert (E2 : ((((4 * 256 + op) * 256) + kn_slot s) * 256 + kn_port s) / 256 mod 256 = kn_slot s) by (Z.div_mod_to_equations; lia).
  assert (E3 : ((((4 * 256 + op) * 256) + kn_slot s) * 256 + kn_port s) mod 256 = kn_port s) by (Z.div_mod_to_equations; lia).
  assert (E4 : ((((4 * 256 + op) * 256) + kn_slot s) * 256 + kn_port s) / 65536 mod 256 = op) by (Z.div_mod_to_equations; lia).
  rewrite E1, E2, E3, E4, !Z.eqb_refl; split_and!; try done; lia.
Qed.

Lemma byte_at_drop p off i : 0 <= off -> 0 <= i -> byte_at p (off + i) = byte_at (zdrop off p) i.
Proof.
  intros Ho Hi; unfold byte_at, zdrop; replace (Z.to_nat (off + i)) with (Z.to_nat off + Z.to_nat i)%nat by lia.
  by rewrite <- nth_skipn.
Qed.

Lemma byte_at_mid h x k n : n = zlen h -> byte_at (h ++ x :: k) n = x.
Proof. intros ->; unfold byte_at, zlen; rewrite Nat2Z.id, app_nth2 by lia; by rewrite Nat.sub_diag. Qed.

Lemma zslice_drop off i n (p : list Z) : 0 <= off -> 0 <= i -> zslice (off + i) n p = zslice i n (zdrop off p).
Proof. intros Ho Hi; unfold zslice; by rewrite zdrop_zdrop. Qed.

Lemma be_dec_enc_mod n z : be_dec (be_enc n z) = z mod 256 ^ Z.of_nat n.
Proof. unfold be_dec, be_enc; by rewrite rev_involutive, le_dec_enc_mod. Qed.

Lemma s32_mod z : - 2 ^ 31 <= z < 2 ^ 31 -> s32 (z mod 2 ^ 32) = z.
Proof. intros Hz; unfold s32; rewrite Zplus_mod_idemp_l, Z.mod_small by lia; lia. Qed.

Lemma zlen_rpc_frame r id sta data : zlen (rpc_frame r id sta data) = RPC_OVERHEAD + zlen data.
Proof.
  unfold rpc_frame, rpc_hdr; rewrite !zlen_app; unfold zlen; rewrite !length_be_enc, length_le_enc; change RPC_OVERHEAD with 19.
  cbn [length]; lia.
Qed.

Record frame_seen (p : list Z) (off r sta : Z) (data post : list Z) : Prop := {
  fs_head : byte_at p off = RPC_HEAD;
  fs_fields : frame_at p off = (r, Z.land (Z.shiftr r 16) 0xff, sta, zlen data);
  fs_tail : byte_at p (off + (RPC_OVERHEAD + zlen data) - 1) = RPC_TAIL;
  fs_xor : art_xor (zdrop off p) RPC_XOR_LEN = byte_at p (off + RPC_XOR_LEN);
  fs_data : zslice (off + RPC_HDR_LEN) (zlen data) p = data;
  fs_rest : zdrop (off + (RPC_OVERHEAD + zlen data)) p = post
}.

Lemma frame_parsed pre r id sta data post :
  0 <= r < 2 ^ 32 -> - 2 ^ 31 <= sta < 2 ^ 31 -> zlen data < 2 ^ 32 ->
  frame_seen (pre ++ rpc_frame r id sta data ++ post) (zlen pre) r sta data post.
Proof.
  intros Hr Hsta Hd; set (p := pre ++ _); set (off := zlen pre); pose proof (zlen_nonneg pre); pose proof (zlen_nonneg data).
  assert (Hq : zdrop off p = rpc_frame r id sta data ++ post) by (by apply zdrop_app).
  set (h := [RPC_HEAD] ++ le_enc 4 (zlen data) ++ be_enc 4 r ++ be_enc 4 id ++ be_enc 4 sta).
  assert (Hf : rpc_frame r id sta data ++ post = h ++ [art_xor h RPC_XOR_LEN] ++ data ++ [RPC_TAIL] ++ post).
  { unfold rpc_frame, rpc_hdr; fold h; by rewrite <- !app_assoc. }
  rewrite Hf in Hq; assert (Hh : forall i n k, zslice i n (h ++ k) = zslice i n (h ++ k)) by done.
  constructor.
  - replace off with (off + 0) by lia; rewrite byte_at_drop, Hq by lia; done.
  - unfold frame_at; rewrite !zslice_drop, Hq by lia.
    change (zslice 5 4 (h ++ ?k)) with (be_enc 4 r); change (zslice 13 4 (h ++ ?k)) with (be_enc 4 sta).
    change (zslice 1 4 (h ++ ?k)) with (le_enc 4 (zlen data)).
    rewrite !be_dec_enc_mod, le_dec_enc_mod; change (256 ^ Z.of_nat 4) with (2 ^ 32); rewrite s32_mod, !Z.mod_small by lia; done.
  - replace (off + (RPC_OVERHEAD + zlen data) - 1) with (off + (18 + zlen data)) by (change RPC_OVERHEAD with 19; lia).
    rewrite byte_at_drop, Hq by lia; unfold byte_at; rewrite app_assoc; set (h2 := h ++ _).
    replace (Z.to_nat (18 + zlen data)) with (18 + length data)%nat by (unfold zlen; lia).
    rewrite app_nth2 by (simpl; lia); change (length h2) with 18%nat.
    rewrite app_nth2 by lia; by replace (18 + length data - 18 - length data)%nat with O by lia.
  - rewrite byte_at_drop, Hq by (change RPC_XOR_LEN with 17; lia); rewrite art_xor_app by done.
    cbn [app]; by rewrite (byte_at_mid h (art_xor h RPC_XOR_LEN)).
  - rewrite zslice_drop, Hq by (change RPC_HDR_LEN with 18; lia); rewrite app_assoc; unfold zslice; rewrite zdrop_app by done.
    by apply ztake_app.
  - rewrite <- zdrop_zdrop, Hq by (change RPC_OVERHEAD with 19; lia); rewrite <- Hf; apply zdrop_app; by rewrite zlen_rpc_frame.
Qed.

(** What a transfer holds: padding, frames of this socket, other frames. *)
Inductive rx_item :=
  | Pad
  | Mine (op id sta : Z) (data : list Z)
  | Theirs (r id sta : Z) (data : list Z).

Definition item_bytes (s : knet) (i : rx_item) : list Z :=
  match i with
  | Pad => [0]
  | Mine op id sta data => rpc_frame (so_reqid s op) id sta data
  | Theirs r id sta data => rpc_frame r id sta data
  end.

Definition rx_item_ok (s : knet) (i : rx_item) : Prop :=
  match i with
  | Pad => True
  | Mine op _ sta data => 0 <= op < 256 /\ - 2 ^ 31 <= sta < 2 ^ 31
  | Theirs r _ sta data => 0 <= r < 2 ^ 32 /\ is_mine s r = false /\ - 2 ^ 31 <= sta < 2 ^ 31
  end.

Definition mine (i : rx_item) : bool := match i with Mine _ _ _ _ => true | _ => false end.
Definition transfer (s : knet) (its : list rx_item) : list Z := concat (item_bytes s <$> its).
Definition kept (s : knet) (its : list rx_item) : list Z :=
  concat ((fun i => if mine i then [] else item_bytes s i) <$> its).

(** Leftovers of an older transfer, which stop the scan. *)
Definition stale_ok (stale : list Z) : Prop :=
  zlen stale < RPC_OVERHEAD \/ (byte_at stale 0 <> RPC_HEAD /\ byte_at stale 0 <> 0).

Lemma short_transfer s its stale :
  zlen (transfer s its ++ stale) < RPC_OVERHEAD -> existsb mine its = false /\ kept s its = transfer s its.
Proof.
  change RPC_OVERHEAD with 19; unfold transfer, kept; induction its as [|i its IH]; [done|]; cbn [fmap list_fmap concat existsb].
  rewrite <- app_assoc, zlen_app; pose proof (zlen_nonneg (concat (item_bytes s <$> its) ++ stale)).
  destruct i as [|op id sta data|r id sta data]; cbn [item_bytes mine orb].
  - change (zlen [0]) with 1; intros Hl; destruct IH as [-> ->]; [lia|done].
  - rewrite zlen_rpc_frame; change RPC_OVERHEAD with 19; pose proof (zlen_nonneg data); lia.
  - rewrite zlen_rpc_frame; change RPC_OVERHEAD with 19; pose proof (zlen_nonneg data); lia.
Qed.

Section share.
Context {W : Type} `{HH : NetHeaders} `{HN : NetIo W}.
(** Memory is there. *)
Hypothesis Halloc : forall n (w : W), alloc n w = (true, w).
Implicit Types t : netst W.

Definition same_socket t t' : Prop :=
  kn_slot (N t') = kn_slot (N t) /\ kn_port (N t') = kn_port (N t) /\ kn_sock_open (N t') = kn_sock_open (N t).
#[export] Instance same_socket_pre : PreOrder same_socket.
Proof. split; [done|]; intros a b c (? & ? & ?) (? & ? & ?); split_and!; congruence. Qed.

Ltac same_walk := repeat match goal with
  | |- keeps _ (mret _) => apply keeps_ret; exact _
  | |- keeps _ (_ ≫= _) => apply keeps_bind; [exact _| |intros ?]
  | |- keeps _ (when _ _) => apply keeps_when; [exact _|]
  | |- keeps _ (getN _) => by intros ?
  | |- keeps _ (updN _) => by intros ?
  | |- keeps _ (count _) => by intros ?
  | |- keeps _ (stat _) => by intros ?
  | |- keeps _ dgram_error => by intros ?
  | |- keeps _ (envN_ _) => by intros ?
  | |- keeps _ (if ?b then _ else _) => destruct b
  end.

Lemma keeps_env {A} (m : W -> A * W) : keeps same_socket (envN m).
Proof. intros s; unfold envN; by destruct (m (Nw s)). Qed.

Lemma deliver_socket pkt : keeps same_socket (net_deliver pkt).
Proof. unfold net_deliver; same_walk; apply keeps_env. Qed.

Lemma stream_loop_socket fuel : forall q, keeps same_socket (stream_loop fuel q).
Proof. induction fuel as [|fuel IH]; intros q; cbn [stream_loop]; same_walk; try apply deliver_socket; apply IH. Qed.

Lemma rx_frame_socket op sta data : keeps same_socket (net_rx_frame op sta data).
Proof.
  unfold net_rx_frame, net_rx_stream, net_rx_write_ack; same_walk; try apply keeps_env; try apply stream_loop_socket.
Qed.

Definition handle (i : rx_item) : M (netst W) unit :=
  match i with Mine op _ sta data => net_rx_frame op sta data | _ => mret tt end.

Lemma handle_socket t its : same_socket t (mfor handle its t).2.
Proof. apply keeps_mfor; [exact _|]; intros [| |]; cbn [handle]; [by intros ?|apply rx_frame_socket|by intros ?]. Qed.

Lemma id_kept t t' s : same_socket t t' -> id_ok s -> kn_slot (N t) = kn_slot s /\ kn_port (N t) = kn_port s ->
  kn_slot (N t') = kn_slot s /\ kn_port (N t') = kn_port s.
Proof. intros (E1 & E2 & _) _ [E3 E4]; split; congruence. Qed.

(** One frame of the scan. *)
Lemma rx_loop_frame fuel p off keep rest r sta data post t :
  frame_seen p off r sta data post -> 0 <= off -> off + (RPC_OVERHEAD + zlen data) <= zlen p < 2 ^ 32 ->
  rx_loop (S fuel) p off keep rest t =
  if is_mine (N t) r then
    rx_loop fuel p (off + (RPC_OVERHEAD + zlen data)) (off + (RPC_OVERHEAD + zlen data))
      (Some (default [] rest ++ zslice keep (off - keep) p)) (net_rx_frame (Z.land (Z.shiftr r 16) 0xff) sta data t).2
  else rx_loop fuel p (off + (RPC_OVERHEAD + zlen data)) keep rest t.
Proof using Halloc.
  intros [F1 F2 F3 F4 F5 F6] Ho Hp; change RPC_OVERHEAD with 19 in *; pose proof (zlen_nonneg data); cbn [rx_loop].
  change RPC_OVERHEAD with 19; rewrite u32_id, (proj2 (Z.leb_le _ _)), F1, Z.eqb_refl by lia; cbn [negb]; rewrite F2.
  rewrite (proj2 (Z.ltb_ge _ _)), F3, F4, !Z.eqb_refl by lia; cbn [negb orb].
  rewrite bind_run; cbn [getN fst snd]; destruct (is_mine (N t) r); [|done].
  assert (Ha : (match rest with Some _ => mret true | None => envN (alloc (zlen p)) end : M (netst W) bool) t = (true, t)).
  { destruct rest; [done|]; unfold envN; rewrite Halloc; by destruct t. }
  rewrite bind_run, Ha; cbn [fst snd negb]; by rewrite bind_run, F5.
Qed.

Definition scanned (s : knet) (p : list Z) (off keep : Z) (rest : option (list Z)) (its : list rx_item) (stale : list Z)
    (t : netst W) (x : rx_scan * netst W) : Prop :=
  exists keep' rest', x = (Scanned keep' rest', (mfor handle its t).2) /\
    match rest' with
    | None => rest = None /\ existsb mine its = false
    | Some b => (rest <> None \/ existsb mine its = true) /\ b ++ zdrop keep' p = default [] rest ++ zslice keep (off - keep) p ++ kept s its ++ stale
    end.

Lemma zslice_split keep off (p k : list Z) : 0 <= keep <= off -> zdrop off p = k -> zdrop keep p = zslice keep (off - keep) p ++ k.
Proof.
  intros Hk <-; rewrite <- (ztake_drop (off - keep) (zdrop keep p)) at 1; unfold zslice; f_equal.
  rewrite zdrop_zdrop by lia; f_equal; lia.
Qed.

Lemma handle_none its t : existsb mine its = false -> (mfor handle its t).2 = t.
Proof.
  revert t; induction its as [|[|op id sta data|r id sta data] its IH]; intros t; cbn [existsb mine orb]; try done;
    intros Hm; cbn [mfor]; rewrite bind_run; by apply IH.
Qed.

(** The scan may end where no frame of ours is left. *)
Lemma scanned_end s p off keep rest its stale t :
  existsb mine its = false -> kept s its = transfer s its -> zdrop off p = transfer s its ++ stale -> 0 <= keep <= off ->
  scanned s p off keep rest its stale t (Scanned keep rest, t).
Proof.
  intros Hm Hkp Hd Hko; exists keep, rest; rewrite handle_none by done; split; [done|].
  destruct rest as [b|]; [|done]; split; [by left|]; cbn [default from_option id]; f_equal.
  rewrite Hkp; by apply zslice_split.
Qed.

(** One more item at [off]. *)
Lemma scanned_cons s p off off' i keep keep' rest rest' its stale t t' x :
  scanned s p off' keep' rest' its stale t' x -> t' = (handle i t).2 ->
  default [] rest' ++ zslice keep' (off' - keep') p =
    default [] rest ++ zslice keep (off - keep) p ++ (if mine i then [] else item_bytes s i) ->
  (if mine i then rest' <> None else rest' = rest) ->
  scanned s p off keep rest (i :: its) stale t x.
Proof.
  intros (k & r & -> & Hr) -> Hb Hn; exists k, r; split; [cbn [mfor]; by rewrite bind_run|]; cbn [existsb].
  assert (Hkc : kept s (i :: its) = (if mine i then [] else item_bytes s i) ++ kept s its) by done.
  rewrite Hkc; clear Hkc; destruct r as [b|], (mine i); cbn [orb].
  - destruct Hr as [_ ->]; split; [by right|]; rewrite app_assoc, Hb; by rewrite <- !app_assoc.
  - subst rest'; destruct Hr as [Hr ->]; split; [done|]; rewrite app_assoc, Hb; by rewrite <- !app_assoc.
  - by destruct Hr as [-> _].
  - by subst rest'.
Qed.

Lemma zslice_grow keep (pre b k : list Z) : 0 <= keep <= zlen pre ->
  zslice keep (zlen pre + zlen b - keep) (pre ++ b ++ k) = zslice keep (zlen pre - keep) (pre ++ b ++ k) ++ b.
Proof.
  intros Hk; pose proof (zlen_nonneg b); unfold zslice; rewrite zdrop_app_le by lia.
  assert (Hl : zlen (zdrop keep pre) = zlen pre - keep) by (unfold zlen, zdrop in *; rewrite length_skipn; lia).
  rewrite (ztake_app (zlen pre - keep)), app_assoc by lia; apply ztake_app; rewrite zlen_app; lia.
Qed.

Lemma transfer_cons s i its stale pre :
  pre ++ transfer s (i :: its) ++ stale = pre ++ item_bytes s i ++ transfer s its ++ stale.
Proof. unfold transfer; cbn [fmap list_fmap concat]; by rewrite <- app_assoc. Qed.

Lemma item_nonempty s i : 0 < zlen (item_bytes s i).
Proof. destruct i; cbn [item_bytes]; rewrite ?zlen_rpc_frame; change RPC_OVERHEAD with 19; [done|pose proof (zlen_nonneg data); lia..]. Qed.

(** What follows the last item stops the scan. *)
Lemma rx_loop_stale fuel s pre keep rest stale t :
  stale_ok stale -> pre <> [] -> zlen (pre ++ stale) < 2 ^ 32 - 19 -> 0 <= keep <= zlen pre ->
  scanned s (pre ++ stale) (zlen pre) keep rest [] stale t (rx_loop fuel (pre ++ stale) (zlen pre) keep rest t).
Proof.
  intros Hst Hne Hp Hk; set (p := pre ++ stale) in *.
  assert (Hd : zdrop (zlen pre) p = stale) by (by apply zdrop_app).
  assert (Hend : scanned s p (zlen pre) keep rest [] stale t (Scanned keep rest, t)) by (apply scanned_end; [done..|lia]).
  pose proof (zlen_nonneg pre); pose proof (zlen_nonneg stale).
  assert (Hz : zlen p = zlen pre + zlen stale) by (unfold p; by rewrite zlen_app).
  destruct fuel as [|fuel]; [exact Hend|]; cbn [rx_loop]; change RPC_OVERHEAD with 19.
  rewrite u32_id by lia; destruct (Z.leb_spec (zlen pre + 19) (zlen p)) as [Hl|]; [|exact Hend].
  destruct Hst as [Hsh|[H1 H2]]; [change RPC_OVERHEAD with 19 in Hsh; lia|].
  assert (Hb : byte_at p (zlen pre) = byte_at stale 0)
    by (replace (zlen pre) with (zlen pre + 0) by lia; rewrite byte_at_drop, Hd by lia; done).
  rewrite Hb, (proj2 (Z.eqb_neq _ RPC_HEAD)), (proj2 (Z.eqb_neq _ 0)) by done; cbn [negb].
  assert (zlen pre <> 0) by (destruct pre; [done|rewrite zlen_cons; pose proof (zlen_nonneg pre); lia]).
  by rewrite (proj2 (Z.eqb_neq (zlen pre) 0)) by done.
Qed.

(** The scan takes the items one by one. *)
Lemma rx_loop_items s its stale : forall fuel pre keep rest t,
  id_ok s -> kn_slot (N t) = kn_slot s -> kn_port (N t) = kn_port s -> Forall (rx_item_ok s) its -> stale_ok stale ->
  its <> [] \/ pre <> [] -> zlen (pre ++ transfer s its ++ stale) < 2 ^ 32 - 19 -> 0 <= keep <= zlen pre ->
  (length (transfer s its ++ stale) < fuel)%nat ->
  scanned s (pre ++ transfer s its ++ stale) (zlen pre) keep rest its stale t
    (rx_loop fuel (pre ++ transfer s its ++ stale) (zlen pre) keep rest t).
Proof using Halloc.
  induction its as [|i its IH]; intros fuel pre keep rest t Hid Hts Htp Hok Hst Hne Hp Hk Hf.
  { destruct Hne as [|Hne]; [done|]; by apply rx_loop_stale. }
  destruct fuel as [|fuel]; [lia|]; pose proof (zlen_nonneg pre) as Hpre.
  destruct (Z.ltb_spec (zlen (transfer s (i :: its) ++ stale)) RPC_OVERHEAD) as [Hsh|Hlg].
  { pose proof Hsh as [Hm Hkp]%short_transfer; cbn [rx_loop]; change RPC_OVERHEAD with 19 in *.
    pose proof (zlen_nonneg (transfer s (i :: its) ++ stale)); rewrite zlen_app in Hp |- *.
    rewrite u32_id, (proj2 (Z.leb_gt _ _)) by lia; apply scanned_end; [done..| |done]; by apply zdrop_app. }
  apply Forall_cons_1 in Hok as [Hi Hok]; rewrite transfer_cons in *; set (b := item_bytes s i) in *.
  pose proof (item_nonempty s i : 0 < zlen b) as Hb; pose proof (zlen_nonneg (transfer s its ++ stale)) as Hrest.
  assert (Hz : zlen (pre ++ b) = zlen pre + zlen b) by apply zlen_app.
  assert (Hzp : zlen (pre ++ b ++ transfer s its ++ stale) = zlen pre + zlen b + zlen (transfer s its ++ stale))
    by (rewrite (zlen_app pre), (zlen_app b); lia).
  assert (Hlb : zlen (transfer s (i :: its) ++ stale) = zlen b + zlen (transfer s its ++ stale))
    by (pose proof (transfer_cons s i its stale []) as E; cbn [app] in E; rewrite E; apply zlen_app).
  assert (IH' : forall keep' rest' t', same_socket t t' -> 0 <= keep' <= zlen pre + zlen b ->
    scanned s (pre ++ b ++ transfer s its ++ stale) (zlen pre + zlen b) keep' rest' its stale t'
      (rx_loop fuel (pre ++ b ++ transfer s its ++ stale) (zlen pre + zlen b) keep' rest' t')).
  { intros keep' rest' t' (E1 & E2 & _) Hk'; rewrite <- Hz, (app_assoc pre); apply IH; rewrite <- ?(app_assoc pre); try done; try congruence.
    - right; intros E; rewrite E in Hz; change (zlen (@nil Z)) with 0 in Hz; lia.
    - unfold zlen in *; lia. }
  clear IH; pose proof (zslice_grow keep pre b (transfer s its ++ stale) Hk) as Hgrow.
  destruct i as [|op id sta data|r id sta data].
  - change (zlen b) with 1 in *; cbn [rx_loop]; rewrite u32_id by (change RPC_OVERHEAD with 19 in *; lia).
    rewrite (proj2 (Z.leb_le _ _)) by lia; change (b ++ ?k) with (0 :: k); rewrite byte_at_mid by done; cbn [negb Z.eqb].
    change (RPC_HEAD) with 0xaa; cbn [Z.eqb negb].
    eapply scanned_cons; [apply IH'; [done|lia]|done| |done]; cbn [mine]; exact (f_equal (app (default [] rest)) Hgrow).
  - destruct Hi as [Ho Hsta]; destruct (so_reqid_spec s op Hid Ho) as (Hm & Hop & Hr).
    unfold b in *; cbn [item_bytes] in *; rewrite zlen_rpc_frame in *.
    assert (Hfs := frame_parsed pre (so_reqid s op) id sta data (transfer s its ++ stale) Hr Hsta ltac:(change RPC_OVERHEAD with 19 in *; lia)).
    rewrite (rx_loop_frame _ _ _ _ _ _ _ _ _ _ Hfs) by lia.
    assert (Hm' : is_mine (N t) (so_reqid s op) = true) by (unfold is_mine in *; by rewrite Hts, Htp).
    rewrite Hm', Hop; eapply scanned_cons; [apply IH'; [apply rx_frame_socket|lia]|done| |done]; cbn [mine item_bytes].
    rewrite Z.sub_diag, app_nil_r; change (zslice ?a 0 ?l) with (@nil Z); by rewrite app_nil_r.
  - destruct Hi as (Hr & Hm & Hsta); unfold b in *; cbn [item_bytes] in *; rewrite zlen_rpc_frame in *.
    assert (Hfs := frame_parsed pre r id sta data (transfer s its ++ stale) Hr Hsta ltac:(change RPC_OVERHEAD with 19 in *; lia)).
    rewrite (rx_loop_frame _ _ _ _ _ _ _ _ _ _ Hfs) by lia.
    assert (Hm' : is_mine (N t) r = false) by (unfold is_mine in *; by rewrite Hts, Htp).
    rewrite Hm'; eapply scanned_cons; [apply IH'; [done|lia]|done| |done]; cbn [mine item_bytes]; by rewrite <- Hgrow.
Qed.

(** The frames of this socket are taken in order, and what else the transfer
    holds is left to the daemon as it came, unless no frame can begin in it. *)
Definition leftover (s : knet) (its : list rx_item) (stale : list Z) : option (list Z) :=
  if existsb mine its then
    match memchr (kept s its ++ stale) 0 RPC_HEAD (zlen (kept s its ++ stale)) with
    | Some _ => Some (kept s its ++ stale)
    | None => None
    end
  else Some (transfer s its ++ stale).

Lemma net_rx_shares its stale t :
  id_ok (N t) -> kn_sock_open (N t) = true -> Forall (rx_item_ok (N t)) its -> stale_ok stale -> its <> [] ->
  zlen (transfer (N t) its ++ stale) < 2 ^ 32 - 19 ->
  artosyn_net_rx (transfer (N t) its ++ stale) t = (leftover (N t) its stale, (mfor handle its t).2).
Proof using Halloc.
  intros Hid Hon Hok Hst Hne Hl; unfold artosyn_net_rx; rewrite bind_run; cbn [getN fst snd]; rewrite Hon; cbn [negb].
  destruct (rx_loop_items (N t) its stale (S (length (transfer (N t) its ++ stale))) [] 0 None t Hid eq_refl eq_refl Hok Hst)
    as (k & r & E & Hr); [by left|done|done|lia|].
  cbn [app] in E, Hr; change (zlen []) with 0 in *; rewrite bind_run, E; cbn [fst snd]; unfold leftover; destruct r as [b|].
  - destruct Hr as [[Hbad| ->] Hb]; [done|]; rewrite Hb; change (zslice 0 (0 - 0) _) with (@nil Z); cbn [default app from_option].
    by destruct (memchr _ _ _ _).
  - by destruct Hr as [_ ->].
Qed.
End share.
