(* ===== verification/KmodLink.v ===== *)
(** Two hosts' network devices, [kmod/artosyn_net.c], across the radio: what one
    sends the other hands to its stack; and the flow control of the queue. *)

From S2P Require Import Prelude Monad KmodNet KmodPath.
#[local] Open Scope Z_scope.

(** ** Receiving *)

Section receiving.
Context {W : Type} `{HH : NetHeaders} `{HN : NetIo W}.
(** What the stack was given. *)
Variable handed : W -> list (list Z).
Hypothesis Halloc : forall n (w : W), alloc n w = (true, w).
Hypothesis Hup : forall w : W, netif_running w = (true, w).
Hypothesis Hrx : forall p (w : W), handed (netif_rx p w) = handed w ++ [p].
Implicit Types t : netst W.

Definition frame_ok (pkt : list Z) : Prop := pkt_ok pkt /\ ETH_HLEN <= zlen pkt.

Lemma deliver_handed pkts : forall t,
  Forall frame_ok pkts -> handed (Nw (mfor net_deliver pkts t).2) = handed (Nw t) ++ pkts.
Proof using Halloc Hrx.
  induction pkts as [|pkt pkts IH]; intros t Hok; [by rewrite app_nil_r|]; apply Forall_cons_1 in Hok as [[_ Hl] Hok].
  cbn [mfor]; rewrite bind_run, IH by done; unfold net_deliver; rewrite (proj2 (Z.ltb_ge _ _)) by done.
  rewrite bind_run; unfold envN at 1; rewrite Halloc; cbn [negb fst snd N Nw]; rewrite bind_run; cbn [snd stat updN envN_ envN Nw].
  unfold envN; rewrite Halloc; cbn [snd Nw]; by rewrite Hrx, <- app_assoc.
Qed.

(** The data of the socket's reads, in order: the stream the chip hands over. *)
Definition read_data (i : rx_item) : list Z :=
  match i with Mine op _ _ data => if op =? SO_READ then data else [] | _ => [] end.
Definition reads (its : list rx_item) : list Z := concat (read_data <$> its).

(** Of the packets sent, those that came in whole are handed up, in order; the
    next one is in the reassembly buffer as far as it came, and [later] is the
    stream still to come. *)
Definition crossing (before : list (list Z)) (pkts : list (list Z)) (later : list Z) t : Prop :=
  exists d todo, pkts = d ++ todo /\ handed (Nw t) = before ++ d /\ pending (kn_rxbuf (N t)) todo /\
    kn_rxbuf (N t) ++ later = concat (dgram <$> todo).

Lemma crossing_same before pkts later t t' :
  kn_rxbuf (N t') = kn_rxbuf (N t) -> Nw t' = Nw t -> crossing before pkts later t -> crossing before pkts later t'.
Proof. intros E1 E2; unfold crossing; by rewrite E1, E2. Qed.

Definition same_rx t t' : Prop := kn_rxbuf (N t') = kn_rxbuf (N t) /\ Nw t' = Nw t.
#[local] Instance same_rx_pre : PreOrder same_rx.
Proof. split; [done|]; intros a b c [] []; split; congruence. Qed.

Lemma other_frame_rx op sta data : op <> SO_READ -> keeps same_rx (net_rx_frame op sta data).
Proof.
  intros Hop; unfold net_rx_frame, net_rx_write_ack; rewrite (proj2 (Z.eqb_neq _ _) Hop); keeps_walk ltac:(by intros ?).
Qed.

Lemma stream_crossing before pkts data later t :
  Forall frame_ok pkts -> piece_ok data -> crossing before pkts (data ++ later) t ->
  crossing before pkts later (net_rx_stream data t).2.
Proof using Halloc Hrx.
  intros Hok Hd (d & todo & -> & Hh & Hp & E); apply Forall_app in Hok as [_ Hok]; rewrite app_assoc in E.
  assert (Hpk : forall l, Forall frame_ok l -> Forall pkt_ok l) by (intros l Hl; eapply list.Forall_impl; [exact Hl|by intros ? []]).
  destruct (split_stream todo _ _ E) as (d2 & todo2 & buf & -> & Ex & Hp2 & E2); unfold piece_ok in Hd.
  pose proof (pending_small _ _ (Hpk _ Hok) Hp); rewrite (rx_stream_piece data d2 todo2 buf) by (auto || lia); cbn [snd].
  apply Forall_app in Hok as [Hok2 _]; exists (d ++ d2), todo2; cbn [set_rx N Nw]; split_and!; [by rewrite app_assoc| |done|done].
  by rewrite deliver_handed, Hh, app_assoc.
Qed.

Lemma handle_crossing before pkts i later t :
  Forall frame_ok pkts -> piece_ok (read_data i) -> crossing before pkts (read_data i ++ later) t ->
  crossing before pkts later (handle i t).2.
Proof using Halloc Hrx Hup.
  intros Hok Hd Hc; destruct i as [|op id sta data|r id sta data]; cbn [handle read_data app] in *; [done| |done].
  destruct (Z.eqb_spec op SO_READ) as [->|Hop].
  - unfold net_rx_frame; rewrite bind_run, Z.eqb_refl; cbn [fst]; rewrite bind_run; unfold envN; rewrite Hup; cbn [fst snd when].
    by apply stream_crossing.
  - destruct (other_frame_rx op sta data Hop t) as [E1 E2]; by apply (crossing_same _ _ _ t).
Qed.

Lemma handle_all_crossing before pkts its : forall later t,
  Forall frame_ok pkts -> Forall (fun i => piece_ok (read_data i)) its -> crossing before pkts (reads its ++ later) t ->
  crossing before pkts later (mfor handle its t).2.
Proof using Halloc Hrx Hup.
  induction its as [|i its IH]; intros later t Hok Hits Hc; [done|]; apply Forall_cons_1 in Hits as [Hi Hits].
  cbn [mfor]; rewrite bind_run; apply IH; try done; apply handle_crossing; try done.
  by rewrite app_assoc.
Qed.

(** A transfer of the chip: its frames, and what is left behind them. *)
Definition bytes_of (s : knet) (tr : list rx_item * list Z) : list Z := transfer s tr.1 ++ tr.2.
Definition transfer_ok (s : knet) (tr : list rx_item * list Z) : Prop :=
  Forall (rx_item_ok s) tr.1 /\ Forall (fun i => piece_ok (read_data i)) tr.1 /\ stale_ok tr.2 /\ tr.1 <> [] /\
  zlen (bytes_of s tr) < 2 ^ 32 - 19.

Definition receive (trs : list (list Z)) : M (netst W) unit := mfor (fun p => _ ← artosyn_net_rx p; mret tt) trs.

Lemma item_same s s' i : kn_slot s' = kn_slot s -> kn_port s' = kn_port s ->
  item_bytes s' i = item_bytes s i /\ (rx_item_ok s i -> rx_item_ok s' i).
Proof.
  intros E1 E2; destruct i as [|op id sta data|r id sta data]; cbn [item_bytes rx_item_ok]; [done| |].
  - unfold so_reqid; by rewrite E1, E2.
  - unfold is_mine; by rewrite E1, E2.
Qed.

Lemma transfer_same s s' tr : kn_slot s' = kn_slot s -> kn_port s' = kn_port s ->
  bytes_of s' tr = bytes_of s tr /\ (transfer_ok s tr -> transfer_ok s' tr).
Proof.
  intros E1 E2; assert (Hb : bytes_of s' tr = bytes_of s tr).
  { unfold bytes_of, transfer; f_equal; f_equal; apply list_fmap_ext; intros ? i _; by apply item_same. }
  split; [done|]; unfold transfer_ok; rewrite Hb; intros (H1 & H2 & H3 & H4 & H5); split; [|done].
  eapply list.Forall_impl; [exact H1|]; intros i; by apply item_same.
Qed.

Lemma receive_crossing before pkts s trs : forall later t,
  id_ok s -> kn_slot (N t) = kn_slot s -> kn_port (N t) = kn_port s -> kn_sock_open (N t) = true -> Forall frame_ok pkts ->
  Forall (transfer_ok s) trs -> crossing before pkts (concat ((fun tr => reads tr.1) <$> trs) ++ later) t ->
  crossing before pkts later (receive (bytes_of s <$> trs) t).2.
Proof using Halloc Hrx Hup.
  induction trs as [|tr trs IH]; intros later t Hid E1 E2 Hon Hok Htr Hc; [done|]; apply Forall_cons_1 in Htr as [Ht Htr].
  cbn [fmap list_fmap concat] in Hc; rewrite <- app_assoc in Hc; unfold receive; cbn [fmap list_fmap mfor]; rewrite bind_run.
  assert (Hs : forall x : M (netst W) (option (list Z)), (((_ ← x; mret tt) : M (netst W) unit) t).2 = (x t).2) by (intros x; by rewrite bind_run).
  rewrite Hs; destruct (transfer_same s (N t) tr E1 E2) as [Hb Hok']; destruct (Hok' Ht) as (H1 & H2 & H3 & H4 & H5).
  rewrite <- Hb; unfold bytes_of at 2; rewrite net_rx_shares; try done; [|unfold id_ok in *; congruence].
  cbn [snd]; destruct (handle_socket t tr.1) as (F1 & F2 & F3).
  apply IH; try done; try congruence; by apply handle_all_crossing.
Qed.
End receiving.

(** ** Sending *)

(** What the chip reads from a write: the position in the stream, and the bytes
    for it. *)
Definition write_pos (w : list Z) : Z := le_dec (zslice RPC_HDR_LEN SO_POS_LEN w).
Definition write_payload (w : list Z) : list Z := zslice (RPC_HDR_LEN + SO_POS_LEN) (le_dec (zslice 1 4 w) - SO_POS_LEN) w.

(** Every write goes on where the one before it ended. *)
Fixpoint contiguous (pos : Z) (ws : list (list Z)) : Prop :=
  match ws with
  | [] => True
  | w :: ws => write_pos w = pos /\ contiguous (u64 (pos + zlen (write_payload w))) ws
  end.

Section sending.
Context {W : Type} `{HH : NetHeaders} `{HN : NetIo W}.
(** What was written into the chip's FIFO. *)
Variable sent : W -> list (list Z).
Hypothesis Hwrite : forall b (w : W), (artosyn_write_all b w).1 = 0 /\ sent (artosyn_write_all b w).2 = sent w ++ [b].
Implicit Types t : netst W.

Definition write_frame (s : knet) (pos id : Z) (pkt : list Z) : list Z :=
  net_pad (rpc_frame (so_reqid s SO_WRITE) id 0 (le_enc 8 pos ++ dgram pkt)) NET_TX_STAGE_SIZE.

Fixpoint writes (s : knet) (pos id : Z) (pkts : list (list Z)) : list (list Z) :=
  match pkts with
  | [] => []
  | pkt :: pkts => write_frame s pos id pkt :: writes s (u64 (pos + (DGRAM_OVERHEAD + zlen pkt))) (u32 (id + 1)) pkts
  end.

Lemma writes_same s s' pkts : forall pos id,
  kn_slot s' = kn_slot s -> kn_port s' = kn_port s -> writes s' pos id pkts = writes s pos id pkts.
Proof.
  induction pkts as [|pkt pkts IH]; intros pos id E1 E2; [done|]; cbn [writes]; rewrite IH by done.
  by unfold write_frame, so_reqid; rewrite E1, E2.
Qed.

(** One packet of the worker's loop. *)
Lemma tx_one pkt t :
  zlen pkt <= NET_MAX_DGRAM ->
  let t' := (net_tx_one pkt t).2 in
  sent (Nw t') = sent (Nw t) ++ [write_frame (N t) (kn_wr_index (N t)) (kn_msgid (N t)) pkt] /\
  same_socket t t' /\ kn_txq (N t') = kn_txq (N t) /\
  kn_wr_index (N t') = u64 (kn_wr_index (N t) + (DGRAM_OVERHEAD + zlen pkt)) /\ kn_msgid (N t') = u32 (kn_msgid (N t) + 1).
Proof using Hwrite.
  intros Hl; unfold NET_MAX_DGRAM in Hl; pose proof (zlen_nonneg pkt); unfold net_tx_one; rewrite bind_run; cbn [getN fst snd id].
  assert (Hfl : net_frame_len (zlen pkt) = 34 + zlen pkt) by (unfold net_frame_len; rewrite u32_id; change RPC_OVERHEAD with 19;
    change SO_POS_LEN with 8; change DGRAM_OVERHEAD with 7; lia).
  rewrite Hfl, bind_run, (proj2 (Z.ltb_ge _ _)) by (unfold NET_TX_STAGE_SIZE; lia).
  set (s1 := (when _ _ t).2); assert (E : exists b, s1 = mk_netst ((N t) <| kn_stopped := b |>) (Nw t)).
  { unfold s1; destruct (_ && _); cbn [when updN snd]; [by exists false|exists (kn_stopped (N t)); by destruct t as [[] w]]. }
  destruct E as [b ->]; rewrite bind_run; unfold net_build_frame, net_next_msgid; rewrite !bind_run.
  cbn [getN updN mret M_ret fst snd N Nw]; unfold envN; cbn [fst snd N Nw].
  set (x := artosyn_write_all _ _); destruct (Hwrite (write_frame (N t) (kn_wr_index (N t)) (kn_msgid (N t)) pkt) (Nw t)) as [E1 E2].
  change (artosyn_write_all (write_frame _ _ _ _) _) with x in E1, E2; destruct x as [r w]; cbn [fst snd] in *; subst r.
  cbn [Z.eqb negb]; done.
Qed.

Lemma tx_loop pkts : forall fuel t,
  Forall pkt_ok pkts -> kn_txq (N t) = pkts -> (length pkts < fuel)%nat ->
  let t' := (net_tx_loop fuel t).2 in
  sent (Nw t') = sent (Nw t) ++ writes (N t) (kn_wr_index (N t)) (kn_msgid (N t)) pkts /\ same_socket t t' /\ kn_txq (N t') = [].
Proof using Hwrite.
  induction pkts as [|pkt pkts IH]; intros fuel t Hok Hq Hf; (destruct fuel as [|fuel]; [simpl in Hf; lia|]); cbn [net_tx_loop];
    unfold skb_dequeue; rewrite bind_run, bind_run; cbn [getN fst snd]; rewrite Hq; [cbn; by rewrite app_nil_r|].
  rewrite bind_run; cbn [updN fst snd mret M_ret]; rewrite bind_run; set (t1 := mk_netst _ _).
  apply Forall_cons_1 in Hok as [[_ Hl] Hok]; destruct (tx_one pkt t1 Hl) as (E1 & Es & E2 & E3 & E4).
  cbn [length] in Hf; destruct (IH fuel (net_tx_one pkt t1).2 Hok) as (F1 & F2 & F3); [by rewrite E2|lia|].
  split; [|split; [by etransitivity; [|exact F2]|exact F3]].
  rewrite F1, E1, E3, E4, <- app_assoc; cbn [app writes t1 N Nw]; do 2 f_equal.
  destruct Es as (G1 & G2 & _); by apply writes_same.
Qed.

Lemma xmit_all pkts : forall t,
  kn_sock_open (N t) = true ->
  exists b c, (mfor artosyn_net_xmit pkts t).2 = mk_netst ((N t) <| kn_txq := kn_txq (N t) ++ pkts |> <| kn_stopped := b |> <| kn_work := c |>) (Nw t).
Proof.
  induction pkts as [|pkt pkts IH]; intros t Hon; [exists (kn_stopped (N t)), (kn_work (N t)); rewrite app_nil_r; by destruct t as [[] w]|].
  cbn [mfor]; rewrite bind_run; set (t1 := (artosyn_net_xmit pkt t).2).
  assert (E : exists b, t1 = mk_netst ((N t) <| kn_txq := kn_txq (N t) ++ [pkt] |> <| kn_stopped := b |> <| kn_work := true |>) (Nw t)).
  { unfold t1, artosyn_net_xmit; rewrite bind_run; cbn [getN fst snd]; rewrite Hon; cbn [negb]; rewrite !bind_run.
    cbn [getN updN fst snd N Nw]; destruct (NET_TXQ_STOP <=? _); [by exists true|by exists (kn_stopped (N t))]. }
  destruct E as [b E]; destruct (IH t1) as (b2 & c2 & ->); [by rewrite E|]; exists b2, c2; rewrite E; cbn [N Nw].
  by rewrite <- (app_assoc (kn_txq (N t)) [pkt]).
Qed.

(** Packets given to an idle device, and its worker: they are all written, in
    order, and the queue is open again. *)
Lemma work_sends pkts t :
  kn_sock_open (N t) = true -> kn_txq (N t) = [] -> Forall pkt_ok pkts ->
  let t' := ((mfor artosyn_net_xmit pkts ;; net_tx_work) t).2 in
  sent (Nw t') = sent (Nw t) ++ writes (N t) (kn_wr_index (N t)) (kn_msgid (N t)) pkts /\
  kn_txq (N t') = [] /\ kn_stopped (N t') = false.
Proof using Hwrite.
  intros Hon Hq Hok; rewrite bind_run; destruct (xmit_all pkts t Hon) as (b & c & ->); unfold net_tx_work.
  rewrite bind_run; cbn [updN snd N Nw]; rewrite bind_run; cbn [getN fst snd]; rewrite bind_run; set (t1 := mk_netst _ _).
  assert (Hq1 : kn_txq (N t1) = pkts) by (change (kn_txq (N t) ++ pkts = pkts); by rewrite Hq).
  destruct (tx_loop pkts (S (length (kn_txq (N t1)))) t1 Hok Hq1) as (E1 & _ & E3); [rewrite Hq1; lia|].
  change (kn_txq (_ <| kn_work := false |>)) with (kn_txq (N t1)); set (t2 := (net_tx_loop _ t1).2) in *.
  rewrite bind_run; cbn [getN fst snd]; change (writes (N t1) (kn_wr_index (N t1)) (kn_msgid (N t1)) pkts) with
    (writes (N t1) (kn_wr_index (N t)) (kn_msgid (N t)) pkts) in E1; rewrite (writes_same (N t)) in E1 by done.
  destruct (kn_stopped (N t2)) eqn:Hs; cbn [when updN snd N Nw kn_txq kn_stopped]; by split_and!.
Qed.

Lemma net_pad_app b cap : exists k, net_pad b cap = b ++ replicate k 0.
Proof. unfold net_pad; destruct (_ <? _); [exists O; by rewrite app_nil_r|by eexists]. Qed.

Lemma write_parts s pos id pkt :
  zlen pkt <= NET_MAX_DGRAM -> 0 <= pos < 2 ^ 64 ->
  write_pos (write_frame s pos id pkt) = pos /\ write_payload (write_frame s pos id pkt) = dgram pkt.
Proof.
  intros Hl Hpos; unfold NET_MAX_DGRAM in Hl; pose proof (zlen_nonneg pkt); unfold write_frame, write_pos, write_payload.
  destruct (net_pad_app (rpc_frame (so_reqid s SO_WRITE) id 0 (le_enc 8 pos ++ dgram pkt)) NET_TX_STAGE_SIZE) as [k ->].
  set (d := le_enc 8 pos ++ dgram pkt); assert (Hd : zlen d = 15 + zlen pkt).
  { unfold d; rewrite zlen_app, zlen_le_enc, zlen_dgram; change DGRAM_OVERHEAD with 7; lia. }
  set (h := rpc_hdr (zlen d) (so_reqid s SO_WRITE) id 0); assert (Hh : zlen h = 18).
  { unfold h, rpc_hdr; rewrite !zlen_app; unfold zlen; by rewrite !length_be_enc, length_le_enc. }
  assert (Hw : rpc_frame (so_reqid s SO_WRITE) id 0 d ++ replicate k 0 = h ++ le_enc 8 pos ++ dgram pkt ++ [RPC_TAIL] ++ replicate k 0).
  { unfold rpc_frame, d; fold d h; by rewrite <- !app_assoc. }
  rewrite Hw; change RPC_HDR_LEN with 18; change SO_POS_LEN with 8; split.
  - rewrite (zslice_mid _ _ h) by (rewrite ?zlen_le_enc; lia); apply le_dec_enc; lia.
  - assert (Hn : le_dec (zslice 1 4 (h ++ le_enc 8 pos ++ dgram pkt ++ [RPC_TAIL] ++ replicate k 0)) = zlen d).
    { change (zslice 1 4 (h ++ _)) with (le_enc 4 (zlen d)); apply le_dec_enc; rewrite Hd; lia. }
    rewrite Hn, Hd, (app_assoc h), (zslice_mid _ _ (h ++ le_enc 8 pos)); [done|rewrite zlen_app, zlen_le_enc; lia|].
    rewrite zlen_dgram; change DGRAM_OVERHEAD with 7; lia.
Qed.

Lemma writes_stream s pkts : forall pos id,
  Forall pkt_ok pkts -> 0 <= pos < 2 ^ 64 ->
  concat (write_payload <$> writes s pos id pkts) = concat (dgram <$> pkts) /\ contiguous pos (writes s pos id pkts).
Proof.
  induction pkts as [|pkt pkts IH]; intros pos id Hok Hpos; [done|]; apply Forall_cons_1 in Hok as [[_ Hl] Hok].
  cbn [writes fmap list_fmap concat contiguous]; destruct (write_parts s pos id pkt Hl Hpos) as [-> ->]; rewrite zlen_dgram.
  destruct (IH (u64 (pos + (DGRAM_OVERHEAD + zlen pkt))) (u32 (id + 1)) Hok) as [-> Hc]; [unfold u64; apply Z.mod_pos_bound; lia|done].
Qed.
End sending.

(** ** Across the radio *)

Section link.
Context {W : Type} `{HH : NetHeaders} `{HN : NetIo W}.
Variables sent handed : W -> list (list Z).
Hypothesis Halloc : forall n (w : W), alloc n w = (true, w).
Hypothesis Hup : forall w : W, netif_running w = (true, w).
Hypothesis Hrx : forall p (w : W), handed (netif_rx p w) = handed w ++ [p].
Hypothesis Hwrite : forall b (w : W), (artosyn_write_all b w).1 = 0 /\ sent (artosyn_write_all b w).2 = sent w ++ [b].

(** C3. Packets given to one host's device ([a]) are written in order, every
    write at the stream position the one before it ended at, and leave the queue
    empty and open.  When the other host's chip hands over that stream of bytes
    in whatever reads it likes, in transfers mixed with padding, replies, frames
    of other sockets and leftovers, the other device ([b]) hands up exactly those
    packets in order, and its reassembly buffer is empty again. *)
Theorem packets_cross pkts trs (a b : netst W) :
  kn_sock_open (N a) = true -> kn_txq (N a) = [] -> 0 <= kn_wr_index (N a) < 2 ^ 64 ->
  kn_sock_open (N b) = true -> id_ok (N b) -> kn_rxbuf (N b) = [] ->
  Forall frame_ok pkts -> Forall (transfer_ok (N b)) trs ->
  let a' := ((mfor artosyn_net_xmit pkts ;; net_tx_work) a).2 in
  let b' := (receive (bytes_of (N b) <$> trs) b).2 in
  exists ws, sent (Nw a') = sent (Nw a) ++ ws /\ contiguous (kn_wr_index (N a)) ws /\
    kn_txq (N a') = [] /\ kn_stopped (N a') = false /\
    (concat ((fun tr => reads tr.1) <$> trs) = concat (write_payload <$> ws) ->
      handed (Nw b') = handed (Nw b) ++ pkts /\ kn_rxbuf (N b') = []).
Proof using Halloc Hup Hrx Hwrite.
  intros Ha Hq Hpos Hb Hid Hbuf Hok Htr a' b'.
  assert (Hpk : Forall pkt_ok pkts) by (eapply list.Forall_impl; [exact Hok|by intros ? []]).
  destruct (work_sends sent Hwrite pkts a Ha Hq Hpk) as (E1 & E2 & E3).
  destruct (writes_stream (N a) pkts (kn_wr_index (N a)) (kn_msgid (N a)) Hpk Hpos) as [Es Ec].
  exists (writes (N a) (kn_wr_index (N a)) (kn_msgid (N a)) pkts); split_and!; try done; intros Er.
  destruct (receive_crossing handed Halloc Hup Hrx (handed (Nw b)) pkts (N b) trs [] b) as (d & todo & -> & E4 & E5 & E6); try done.
  - exists [], pkts; rewrite Hbuf, app_nil_r, Er, Es, app_nil_r; split_and!; try done; destruct pkts as [|pkt pkts]; [done|].
    exists (dgram pkt); split; [|done]; intros E; apply (f_equal zlen) in E; rewrite zlen_dgram in E.
    change DGRAM_OVERHEAD with 7 in E; pose proof (zlen_nonneg pkt); change (zlen (@nil Z)) with 0 in E; lia.
  - rewrite app_nil_r in E6; destruct todo as [|pkt todo]; [by rewrite app_nil_r|]; exfalso.
    destruct E5 as (k & Hk & Ed); fold b' in Ed, E6; cbn [fmap list_fmap concat] in E6; rewrite E6 in Ed.
    apply (f_equal zlen) in Ed; rewrite !zlen_app in Ed; pose proof (zlen_nonneg (concat (dgram <$> todo))).
    assert (0 < zlen k) by (destruct k; [done|rewrite zlen_cons; pose proof (zlen_nonneg k); lia]); lia.
Qed.

(** Whatever bytes the chip hands over, reassembly never keeps more than an
    unfinished datagram, so that the buffer is far from its end. *)
Theorem reassembly_bounded p (t : netst W) :
  bytes_ok p -> zlen p < 2 ^ 31 -> short (kn_rxbuf (N t)) -> short (kn_rxbuf (N (artosyn_net_rx p t).2)).
Proof.
  intros Hok Hl; change (short (kn_rxbuf (N t))) with (rx_short t); revert t; change (run_inv rx_short (artosyn_net_rx p)).
  unfold artosyn_net_rx; inv_walk ltac:(first [by apply rx_loop_short|by intros ? ?]).
Qed.
End link.
