(* ===== verification/KmodQueue.v ===== *)
(** The transmit queue of [kmod/artosyn_net.c] with the stack and the worker at
    once: [artosyn_net_xmit] and [net_tx_work] cut into the steps between which
    the other can run. *)

From S2P Require Import Prelude Monad KmodNet KmodPath KmodLink.
#[local] Open Scope Z_scope.

(** Where the stack is in [artosyn_net_xmit] (the stack calls it under a lock,
    so there is one at a time), and the worker in [net_tx_work]. *)
Inductive xmit_at := X_out | X_queued | X_checked.
Inductive worker_at := W_out | W_loop | W_got (pkt : list Z) | W_empty.

Record txst (W : Type) := mk_txst { tx_net : netst W; tx_xmit : xmit_at; tx_worker : worker_at }.
Arguments mk_txst {W} tx_net tx_xmit tx_worker.
Arguments tx_net {W} _.
Arguments tx_xmit {W} _.
Arguments tx_worker {W} _.

Section steps.
Context {W : Type} `{HH : NetHeaders} `{HN : NetIo W}.
Implicit Types t : netst W.

Definition on_net (f : knet -> knet) t : netst W := mk_netst (f (N t)) (Nw t).

(** The stack hands in a packet. *)
Definition enqueue (pkt : list Z) t : netst W := on_net (fun s => s <| kn_txq := kn_txq s ++ [pkt] |>) t.
Definition stop_if_full t : netst W :=
  on_net (fun s => if NET_TXQ_STOP <=? zlen (kn_txq s) then s <| kn_stopped := true |> else s) t.
Definition schedule t : netst W := on_net (fun s => s <| kn_work := true |>) t.

Inductive new_packet : txst W -> txst W -> Prop :=
  | np_queued t wk pkt : kn_sock_open (N t) = true -> new_packet (mk_txst t X_out wk) (mk_txst (enqueue pkt t) X_queued wk).

(** Everything else: [artosyn_net_xmit] going on, and the worker. *)
Inductive inner : txst W -> txst W -> Prop :=
  | in_stop t wk : inner (mk_txst t X_queued wk) (mk_txst (stop_if_full t) X_checked wk)
  | in_schedule t wk : inner (mk_txst t X_checked wk) (mk_txst (schedule t) X_out wk)
  | in_start t x : kn_work (N t) = true ->
      inner (mk_txst t x W_out) (mk_txst (on_net (fun s => s <| kn_work := false |>) t) x W_loop)
  | in_dequeue t x pkt q : kn_txq (N t) = pkt :: q ->
      inner (mk_txst t x W_loop) (mk_txst (on_net (fun s => s <| kn_txq := q |>) t) x (W_got pkt))
  | in_send t x pkt : inner (mk_txst t x (W_got pkt)) (mk_txst (net_tx_one pkt t).2 x W_loop)
  | in_empty t x : kn_txq (N t) = [] -> inner (mk_txst t x W_loop) (mk_txst t x W_empty)
  | in_wake t x : inner (mk_txst t x W_empty) (mk_txst (on_net (fun s => s <| kn_stopped := false |>) t) x W_out).

Inductive reached (t0 : netst W) : txst W -> Prop :=
  | re_start : reached t0 (mk_txst t0 X_out W_out)
  | re_packet s s' : reached t0 s -> new_packet s s' -> reached t0 s'
  | re_inner s s' : reached t0 s -> inner s s' -> reached t0 s'.

Inductive inner_steps : nat -> txst W -> txst W -> Prop :=
  | is_none s : inner_steps O s s
  | is_more n s s1 s' : inner s s1 -> inner_steps n s1 s' -> inner_steps (S n) s s'.

(** ** The functions are runs of the steps *)

Lemma xmit_steps pkt t wk :
  kn_sock_open (N t) = true ->
  exists s1 s2, new_packet (mk_txst t X_out wk) s1 /\ inner s1 s2 /\ inner s2 (mk_txst (artosyn_net_xmit pkt t).2 X_out wk).
Proof.
  intros Hon; exists (mk_txst (enqueue pkt t) X_queued wk), (mk_txst (stop_if_full (enqueue pkt t)) X_checked wk).
  split; [by constructor|split; [constructor|]].
  assert (E : (artosyn_net_xmit pkt t).2 = schedule (stop_if_full (enqueue pkt t))); [|rewrite E; constructor].
  unfold artosyn_net_xmit; rewrite bind_run; cbn [getN fst snd]; rewrite Hon; cbn [negb]; rewrite !bind_run.
  cbn [getN updN fst snd N Nw]; unfold schedule, stop_if_full, enqueue, on_net; cbn [N Nw]; by destruct (NET_TXQ_STOP <=? _).
Qed.

Lemma inner_steps_app n m s s1 s' : inner_steps n s s1 -> inner_steps m s1 s' -> inner_steps (n + m) s s'.
Proof. induction 1; [done|]; intros; econstructor; eauto. Qed.

Definition sends t t' : Prop :=
  kn_txq (N t') = kn_txq (N t) /\ kn_work (N t') = kn_work (N t) /\ (kn_stopped (N t') = true -> kn_stopped (N t) = true).
#[local] Instance sends_pre : PreOrder sends.
Proof. split; [done|]; intros a b c (? & ? & ?) (? & ? & ?); split_and!; [congruence..|auto]. Qed.

Lemma env_sends {A} (m : W -> A * W) : keeps sends (envN m).
Proof. intros t; unfold envN; by destruct (m (Nw t)). Qed.

Lemma tx_one_sends pkt : keeps sends (net_tx_one pkt).
Proof.
  unfold net_tx_one, net_build_frame, net_next_msgid; keeps_walk ltac:(first [apply env_sends|by intros ?]).
Qed.

Lemma loop_steps x : forall fuel t,
  (length (kn_txq (N t)) < fuel)%nat ->
  exists n, inner_steps n (mk_txst t x W_loop) (mk_txst (net_tx_loop fuel t).2 x W_empty).
Proof.
  induction fuel as [|fuel IH]; intros t Hf; [lia|]; cbn [net_tx_loop]; unfold skb_dequeue; rewrite !bind_run; cbn [getN fst snd].
  destruct (kn_txq (N t)) as [|pkt q] eqn:Hq; cbn [length] in Hf.
  - exists 1%nat; econstructor; [by constructor|constructor].
  - rewrite !bind_run; cbn [updN fst snd mret M_ret]; rewrite bind_run.
    destruct (tx_one_sends pkt (on_net (fun s => s <| kn_txq := q |>) t)) as (E & _ & _).
    destruct (IH (net_tx_one pkt (on_net (fun s => s <| kn_txq := q |>) t)).2) as [n Hn].
    { rewrite E; change (kn_txq (N (on_net _ t))) with q; lia. }
    exists (S (S n)); econstructor; [by constructor|econstructor; [constructor|exact Hn]].
Qed.

Lemma work_steps t x :
  kn_work (N t) = true -> exists n, inner_steps n (mk_txst t x W_out) (mk_txst (net_tx_work t).2 x W_out).
Proof.
  intros Hw; unfold net_tx_work; rewrite bind_run; cbn [updN snd N Nw]; rewrite bind_run; cbn [getN fst snd].
  set (t1 := mk_netst _ _); rewrite bind_run; destruct (loop_steps x (S (length (kn_txq (N t1)))) t1) as [n Hn]; [lia|].
  set (t2 := (net_tx_loop _ t1).2) in *; rewrite bind_run; cbn [getN fst snd].
  assert (E : (when (kn_stopped (N t2)) (updN (fun s => s <| kn_stopped := false |>)) t2).2 = on_net (fun s => s <| kn_stopped := false |>) t2).
  { destruct (kn_stopped (N t2)) eqn:Hs; [done|]; destruct t2 as [[] w]; cbn in *; by rewrite Hs. }
  rewrite E; exists (S (n + 1)); econstructor; [by constructor|]; eapply inner_steps_app; [exact Hn|].
  econstructor; [constructor|constructor].
Qed.

(** ** Nothing stays behind *)

Definition xmit_pending (x : xmit_at) : bool := match x with X_out => false | _ => true end.

(** Waiting packets have a worker that will come for them, and a stopped queue
    one that will open it. *)
Definition attended (s : txst W) : Prop :=
  let t := tx_net s in
  (kn_txq (N t) <> [] -> kn_work (N t) = true \/ xmit_pending (tx_xmit s) = true \/ match tx_worker s with W_loop | W_got _ => True | _ => False end) /\
  (kn_stopped (N t) = true -> kn_work (N t) = true \/ tx_xmit s = X_checked \/ tx_worker s <> W_out).

Lemma attended_start t : kn_txq (N t) = [] -> kn_stopped (N t) = false -> attended (mk_txst t X_out W_out).
Proof. intros E1 E2; split; cbn [tx_net]; rewrite ?E1, ?E2; done. Qed.

Lemma attended_packet s s' : new_packet s s' -> attended s -> attended s'.
Proof. intros [t wk pkt _] [H1 H2]; split; cbn in *; [by auto|]; intros Hs; destruct (H2 Hs) as [?|[?|?]]; auto; done. Qed.

Lemma attended_inner s s' : inner s s' -> attended s -> attended s'.
Proof.
  intros Hst; destruct Hst as [t wk|t wk|t x Hw|t x pkt q Hq|t x pkt|t x Hq|t x]; intros [H1 H2]; split;
    cbn [tx_net tx_xmit tx_worker xmit_pending on_net schedule stop_if_full N kn_txq kn_work kn_stopped] in *; auto; try done.
Qed.

Lemma reached_attended t0 s : kn_txq (N t0) = [] -> kn_stopped (N t0) = false -> reached t0 s -> attended s.
Proof.
  intros E1 E2; induction 1 as [|s s' _ IH Hs|s s' _ IH Hs]; [by apply attended_start|by eapply attended_packet|by eapply attended_inner].
Qed.

(** What is left to do before the next packet. *)
Definition steps_left (s : txst W) : nat :=
  (4 * length (kn_txq (N (tx_net s))) + (if kn_work (N (tx_net s)) then 4 else 0) +
   match tx_xmit s with X_out => 0 | X_queued => 7 | X_checked => 6 end +
   match tx_worker s with W_out => 0 | W_loop => 3 | W_got _ => 5 | W_empty => 1 end)%nat.

Lemma inner_less s s' : inner s s' -> (steps_left s' < steps_left s)%nat.
Proof.
  intros Hst; destruct Hst as [t wk|t wk|t x Hw|t x pkt q Hq|t x pkt|t x Hq|t x];
    unfold steps_left; cbn [tx_net tx_xmit tx_worker on_net schedule stop_if_full N].
  - assert (E : forall b s, kn_txq (if b : bool then s <| kn_stopped := true |> else s) = kn_txq s /\
      kn_work (if b then s <| kn_stopped := true |> else s) = kn_work s) by (by intros []).
    destruct (E (NET_TXQ_STOP <=? zlen (kn_txq (N t))) (N t)) as [-> ->]; lia.
  - change (kn_txq ((N t) <| kn_work := true |>)) with (kn_txq (N t)).
    change (kn_work ((N t) <| kn_work := true |>)) with true; destruct (kn_work (N t)); lia.
  - change (kn_txq ((N t) <| kn_work := false |>)) with (kn_txq (N t)).
    change (kn_work ((N t) <| kn_work := false |>)) with false; rewrite Hw; lia.
  - change (kn_txq ((N t) <| kn_txq := q |>)) with q; change (kn_work ((N t) <| kn_txq := q |>)) with (kn_work (N t)).
    rewrite Hq; cbn [length]; lia.
  - destruct (tx_one_sends pkt t) as (-> & -> & _); lia.
  - lia.
  - change (kn_txq ((N t) <| kn_stopped := false |>)) with (kn_txq (N t)).
    change (kn_work ((N t) <| kn_stopped := false |>)) with (kn_work (N t)); lia.
Qed.

Definition at_rest (s : txst W) : Prop :=
  kn_txq (N (tx_net s)) = [] /\ kn_stopped (N (tx_net s)) = false /\ kn_work (N (tx_net s)) = false /\
  tx_xmit s = X_out /\ tx_worker s = W_out.

Lemma stuck_at_rest s : attended s -> (forall s', ~ inner s s') -> at_rest s.
Proof.
  destruct s as [t x wk]; intros [H1 H2] Hn; cbn [tx_net tx_xmit tx_worker] in *.
  assert (x = X_out) as -> by (destruct x; [done|exfalso; eapply Hn; constructor..]).
  assert (wk = W_out) as ->.
  { destruct wk as [| |pkt|]; [done|exfalso..]; try (eapply Hn; by constructor).
    destruct (kn_txq (N t)) as [|pkt q] eqn:Hq; [exact (Hn _ (in_empty t X_out Hq))|exact (Hn _ (in_dequeue t X_out pkt q Hq))]. }
  assert (Hw : kn_work (N t) = false) by (destruct (kn_work (N t)) eqn:Hw; [exact (False_ind _ (Hn _ (in_start t X_out Hw)))|done]).
  rewrite Hw in *; cbn [xmit_pending] in *; split_and!; try done; cbn [tx_net].
  - destruct (kn_txq (N t)); [done|]; destruct H1 as [|[|]]; done.
  - destruct (kn_stopped (N t)); [|done]; destruct H2 as [|[|]]; done.
Qed.

(** C6. However the stack's calls and the worker interleave, no packet is
    stranded and the queue does not stay stopped: without new packets the steps
    come to an end, after a number known beforehand, and then the queue is empty
    and open and the worker done. *)
Theorem queue_drains t0 s n s' :
  kn_txq (N t0) = [] -> kn_stopped (N t0) = false -> reached t0 s -> inner_steps n s s' ->
  (n <= steps_left s)%nat /\ ((forall s2, ~ inner s' s2) -> at_rest s').
Proof.
  intros E1 E2 Hr Hn; pose proof (reached_attended t0 s E1 E2 Hr) as Ha; clear Hr.
  induction Hn as [s|n s s1 s' Hs _ IH]; [split; [lia|by apply stuck_at_rest]|].
  destruct (IH (attended_inner s s1 Hs Ha)) as [H1 H2]; pose proof (inner_less s s1 Hs); split; [lia|done].
Qed.
End steps.
