(* ===== verification/KmodSdio.v ===== *)
(** [kmod/artosyn_sdio.c]: the SDIO driver under [/dev/artosyn_sdio] and the
    network device: the chip's mailbox events, the transmit window, draining
    transfers and queueing them for the daemon, and pushing the firmware into the
    boot ROM.

    The interrupt handler can run wherever the code waits or claims the host;
    there the environment says how often.  [unsigned long] counters are 64
    bits. *)

From S2P Require Import Prelude Monad KmodNet.
#[local] Open Scope Z_scope.

(** The vendor's [sdio.h]. *)
Class SdioHeaders := {
  SDIO_TRANS_MAX_SZIE : Z; SDIO_MAILBOX_CHANNEL_COUNT : nat;
  SDIO_BOOT_ONESHOT_MAX_SIZE : Z; SDIO_BOOT_PKG_HEADER_SIZE : Z; ARTOSDIO_MAGIC_HEADER_1 : Z; ARTOSDIO_MAGIC_HEADER_2 : Z
}.

Definition REG_IRQ_STATUS : Z := 0x13.
Definition REG_MAILBOX_MSG (ch : Z) : Z := 0x54 + ch * 4.
Definition REG_RX_READY_BLOCKS : Z := 0x5c.
Definition REG_TX_READY_BLOCKS : Z := 0x60.
Definition REG_MAILBOX_ENABLE : Z := 0x68.
Definition MB_EVT_RX_READY : Z := Z.shiftl 1 2.
Definition MB_EVT_TX_READY : Z := Z.shiftl 1 3.
Definition CDEV_RXQ_MAX_BYTES : Z := 2 * 1024 * 1024.
Definition SPL_HEADER_LOAD_ADDR : Z := 0x002f0000 + 0x40.
Definition SPL_IMAGE_SIZE_ALIGN : Z := 512.

Definition EAGAIN : Z := 11.
Definition EFAULT : Z := 14.
Definition EBUSY : Z := 16.
Definition ENODEV : Z := 19.
Definition ENOTTY : Z := 25.
Definition ERESTARTSYS : Z := 512.

(** [struct artosyn_dev], with its function's [cur_blksize]. *)
Record sdev := mk_sdev {
  sd_removed : bool; sd_rom_mode : bool;
  sd_read_offset : Z; sd_read_valid : Z; sd_reading : bool;
  sd_write_offset : Z; sd_write_valid : Z;
  sd_message : list Z; sd_msg_valid : list bool;
  sd_net_mode : bool; sd_rxq : list (list Z); sd_rxq_bytes : Z; sd_open_count : Z;
  sd_irq_events : Z; sd_rx_transfers : Z; sd_rx_transfer_bytes : Z; sd_rx_errors : Z; sd_rx_drops : Z;
  sd_blksize : Z
}.
#[export] Instance eta_sdev : Eta sdev := fun s =>
  mk_sdev (sd_removed s) (sd_rom_mode s) (sd_read_offset s) (sd_read_valid s) (sd_reading s) (sd_write_offset s) (sd_write_valid s)
    (sd_message s) (sd_msg_valid s) (sd_net_mode s) (sd_rxq s) (sd_rxq_bytes s) (sd_open_count s) (sd_irq_events s)
    (sd_rx_transfers s) (sd_rx_transfer_bytes s) (sd_rx_errors s) (sd_rx_drops s) (sd_blksize s).

(** The kernel's SDIO functions (a register's value with the error, the FIFO
    written and read), allocation, [artosyn_net_rx] with the network device
    behind it, and what happens meanwhile: turns of the interrupt handler's loop,
    the card's removal, a signal. *)
Class SdioIo (W : Type) := {
  sdio_readb : Z -> W -> (Z * Z) * W;
  sdio_writeb : Z -> Z -> W -> Z * W;
  sdio_f0_readb : Z -> W -> (Z * Z) * W;
  sdio_f0_writeb : Z -> Z -> W -> Z * W;
  sdio_memcpy_toio : list Z -> W -> Z * W;
  sdio_memcpy_fromio : Z -> W -> (Z * list Z) * W;
  kalloc : Z -> W -> bool * W;
  net_rx : list Z -> W -> option (list Z) * W;
  irq_turns : W -> nat * W;
  unplugged : W -> bool * W;
  signal_pending : W -> bool * W
}.

Record sdst (W : Type) := mk_sdst { D : sdev; Dw : W }.
Arguments mk_sdst {W} D Dw.
Arguments D {W} _.
Arguments Dw {W} _.

Section driver.
Context {W : Type} `{NetHeaders} `{SdioHeaders} `{SdioIo W}.

#[local] Abbreviation Md := (M (sdst W)).

Definition getD {A} (f : sdev -> A) : Md A := fun s => (f (D s), s).
Definition updD (f : sdev -> sdev) : Md unit := fun s => (tt, mk_sdst (f (D s)) (Dw s)).
Definition envD {A} (m : W -> A * W) : Md A := fun s => let '(a, w) := m (Dw s) in (a, mk_sdst (D s) w).
Definition reg (r : Z) : Md Z := v ← envD (sdio_readb r); mret v.1.

(** ** Draining the chip *)

Definition artosyn_cdev_rx_queue (skb : list Z) : Md unit :=
  s ← getD id;
  if sd_open_count s =? 0 then updD (fun s => s <| sd_rx_drops := u64 (sd_rx_drops s + 1) |>)
  else if CDEV_RXQ_MAX_BYTES <? u32 (sd_rxq_bytes s + zlen skb) then updD (fun s => s <| sd_rx_drops := u64 (sd_rx_drops s + 1) |>)
  else updD (fun s => s <| sd_rxq_bytes := u32 (sd_rxq_bytes s + zlen skb) |> <| sd_rxq := sd_rxq s ++ [skb] |>).

(** The reads of one transfer: whether they all worked, how many bytes they
    brought, and the bytes. *)
Fixpoint transfer_loop (fuel : nat) (size done : Z) (data : list Z) : Md (Z * Z * list Z) :=
  match fuel with
  | O => mret (0, done, data)
  | S fuel =>
      if done <? size then
        let chunk := Z.min (size - done) SDIO_TRANS_MAX_SZIE in
        r ← envD (sdio_memcpy_fromio chunk);
        if negb (r.1 =? 0) then mret (r.1, done, data)
        else transfer_loop fuel size (done + chunk) (data ++ r.2)
      else mret (0, done, data)
  end.

(** The demultiplexing at its end. *)
Definition rx_demux (data : list Z) : Md unit :=
  rest ← envD (net_rx data);
  match rest with
  | Some skb => artosyn_cdev_rx_queue skb
  | None => mret tt
  end.

Definition artosyn_rx_transfer (size : Z) : Md unit :=
  skb ← envD (kalloc size);
  r ← transfer_loop (Z.to_nat size) size 0 [];
  let '(ret, done, data) := r in
  updD (fun s => s <| sd_read_offset := done |>) ;;
  if negb skb || negb (ret =? 0) then updD (fun s => s <| sd_rx_errors := u64 (sd_rx_errors s + 1) |>)
  else
    updD (fun s => s <| sd_rx_transfers := u64 (sd_rx_transfers s + 1) |> <| sd_rx_transfer_bytes := u64 (sd_rx_transfer_bytes s + size) |>) ;;
    rx_demux data.

Definition bit (v i : Z) : bool := negb (Z.land v (Z.shiftl 1 i) =? 0).

Definition read_mailbox (mb_ena : Z) (ch : nat) : Md unit :=
  if bit mb_ena (Z.of_nat ch) then
    v ← reg (REG_MAILBOX_MSG (Z.of_nat ch));
    updD (fun s => s <| sd_message := <[ch := v]> (sd_message s) |> <| sd_msg_valid := <[ch := true]> (sd_msg_valid s) |>)
  else mret tt.

Definition artosyn_check_events : Md bool :=
  iir ← envD (sdio_readb REG_IRQ_STATUS);
  if negb (iir.2 =? 0) || (iir.1 =? 0) then mret false
  else if negb (bit iir.1 4) then mret true
  else
    mb_ena ← reg REG_MAILBOX_ENABLE;
    updD (fun s => s <| sd_irq_events := u64 (sd_irq_events s + 1) |>) ;;
    mfor (read_mailbox mb_ena) (seq 0 SDIO_MAILBOX_CHANNEL_COUNT) ;;
    let rx_ready := negb (Z.land mb_ena MB_EVT_RX_READY =? 0) in
    rx_size ← if rx_ready then (v ← reg REG_RX_READY_BLOCKS; mret (Z.shiftl v 9)) else mret 0;
    when (negb (Z.land mb_ena MB_EVT_TX_READY =? 0))
      (v ← reg REG_TX_READY_BLOCKS; updD (fun s => s <| sd_write_offset := 0 |> <| sd_write_valid := Z.shiftl v 9 |>)) ;;
    when rx_ready
      (updD (fun s => s <| sd_read_offset := 0 |> <| sd_read_valid := rx_size |>) ;;
       s ← getD id;
       when (sd_net_mode s && negb (sd_removed s) && negb (rx_size =? 0)) (artosyn_rx_transfer rx_size)) ;;
    mret true.

(** The handler's loop, for as many turns as it has taken so far. *)
Fixpoint artosyn_irqhandler (turns : nat) : Md unit :=
  match turns with
  | O => mret tt
  | S turns =>
      more ← artosyn_check_events;
      if (more : bool) then artosyn_irqhandler turns else mret tt
  end.

(** ** Waiting *)

Definition artosyn_read_condition (s : sdev) : bool := sd_removed s || (sd_read_offset s <? sd_read_valid s).
Definition artosyn_write_condition (s : sdev) : bool := sd_removed s || (sd_write_offset s <? sd_write_valid s).

(** The host was busy with the handler, perhaps. *)
Definition sdio_claim_host : Md unit :=
  n ← envD irq_turns;
  artosyn_irqhandler n.

(** Other threads get their chance too: [artosyn_remove] may set [removed]. *)
Definition meanwhile : Md unit :=
  sdio_claim_host ;;
  gone ← envD unplugged;
  when gone (updD (fun s => s <| sd_removed := true |>)).

(** [wait_event_interruptible_timeout(..) > 0] *)
Definition wait_event (cond : sdev -> bool) : Md bool :=
  meanwhile ;;
  s ← getD id;
  mret (cond s).

(** The courtesy poll before the wait, and the wait. *)
Definition poll_and_wait (cond : sdev -> bool) : Md bool :=
  s ← getD id;
  when (negb (cond s)) (sdio_claim_host ;; _ ← artosyn_check_events; mret tt) ;;
  wait_event cond.

(** ** Writing *)

(** What [artosyn_write_chunk] settles on for [count] bytes in [room]. *)
Definition chunk_of (blksize count room : Z) : Z :=
  let count := if room <? count then room else count in
  let count := if SDIO_TRANS_MAX_SZIE <? count then SDIO_TRANS_MAX_SZIE else count in
  if blksize <? count then count - count mod blksize else count.

Definition artosyn_write_chunk (buf : list Z) : Md Z :=
  s ← getD id;
  if sd_removed s then mret (- EIO)
  else
    ok ← if sd_rom_mode s then updD (fun s => s <| sd_write_offset := 0 |> <| sd_write_valid := zlen buf |>) ;; mret true
         else poll_and_wait artosyn_write_condition;
    if negb ok then mret (- EIO)
    else
      s ← getD id;
      if sd_removed s then mret (- EIO)
      else
        sdio_claim_host ;;
        s ← getD id;
        let count := chunk_of (sd_blksize s) (zlen buf) (u32 (sd_write_valid s - sd_write_offset s)) in
        if count =? 0 then mret (- EAGAIN)
        else
          ret ← envD (sdio_memcpy_toio (ztake count buf));
          when (ret =? 0) (updD (fun s => s <| sd_write_offset := sd_write_valid s |>)) ;;
          mret (if ret =? 0 then count else ret).

Definition artosyn_do_write (buf : list Z) : Md Z :=
  sig ← envD signal_pending;
  if (sig : bool) then mret (- ERESTARTSYS) else artosyn_write_chunk buf.

(** [None]: out of fuel. *)
Fixpoint artosyn_write_all (fuel : nat) (p : list Z) : Md (option Z) :=
  match fuel with
  | O => mret None
  | S fuel =>
      if zlen p =? 0 then mret (Some 0)
      else
        ret ← artosyn_write_chunk p;
        if ret =? - EAGAIN then artosyn_write_all fuel p
        else if ret <? 0 then mret (Some ret)
        else artosyn_write_all fuel (zdrop ret p)
  end.

(** ** Reading *)

Definition artosyn_do_read (count : Z) : Md (Z * list Z) :=
  s ← getD id;
  if sd_removed s then mret (- EIO, [])
  else if sd_reading s then mret (- EBUSY, [])
  else
    updD (fun s => s <| sd_reading := true |>) ;;
    ok ← if sd_rom_mode s then updD (fun s => s <| sd_read_offset := 0 |> <| sd_read_valid := count |>) ;; mret true
         else poll_and_wait artosyn_read_condition;
    s ← getD id;
    if negb ok || sd_removed s then updD (fun s => s <| sd_reading := false |>) ;; mret (- EIO, [])
    else
      sdio_claim_host ;;
      s ← getD id;
      let count := Z.min (Z.min count (u32 (sd_read_valid s - sd_read_offset s))) SDIO_TRANS_MAX_SZIE in
      if count =? 0 then updD (fun s => s <| sd_reading := false |>) ;; mret (- EAGAIN, [])
      else
        r ← envD (sdio_memcpy_fromio count);
        when (r.1 =? 0) (updD (fun s => s <| sd_read_offset := u32 (sd_read_offset s + count) |>)) ;;
        updD (fun s => s <| sd_reading := false |>) ;;
        mret (if r.1 =? 0 then (count, r.2) else (r.1, [])).

Definition artosyn_rx_avail (s : sdev) : bool :=
  if sd_net_mode s then sd_removed s || negb (bool_decide (sd_rxq s = [])) else artosyn_read_condition s.

(** [copied]: whether [copy_to_user] works. *)
Definition artosyn_cdev_read (count : Z) (copied : bool) : Md (Z * list Z) :=
  ok ← poll_and_wait artosyn_rx_avail;
  s ← getD id;
  if negb ok || sd_removed s then mret (- EIO, [])
  else
    match sd_rxq s with
    | [] => mret (- EAGAIN, [])
    | skb :: q =>
        let n := Z.min count (zlen skb) in
        if negb copied then mret (- EFAULT, [])
        else
          updD (fun s => s <| sd_rxq_bytes := u32 (sd_rxq_bytes s - n) |>
                           <| sd_rxq := (if n <? zlen skb then zdrop n skb :: q else q) |>) ;;
          mret (n, ztake n skb)
    end.

(** ** The device file *)

(** [live]: whether the device is still there ([g_dev]). *)
Definition artosyn_open (live : bool) : Md Z :=
  if negb live then mret (- ENODEV)
  else updD (fun s => s <| sd_open_count := sd_open_count s + 1 |>) ;; mret 0.

Definition artosyn_release (live : bool) : Md Z :=
  if negb live then mret 0
  else
    updD (fun s => s <| sd_open_count := sd_open_count s - 1 |>) ;;
    n ← getD sd_open_count;
    when (n =? 0) (updD (fun s => s <| sd_rxq := [] |> <| sd_rxq_bytes := 0 |>)) ;;
    mret 0.

Definition artosyn_fops_read (count : Z) (copied : bool) : Md (Z * list Z) :=
  s ← getD id;
  if sd_net_mode s then artosyn_cdev_read count copied
  else
    let count := Z.min count SDIO_TRANS_MAX_SZIE in
    ok ← envD (kalloc count);
    if negb ok then mret (- ENOMEM, [])
    else
      r ← artosyn_do_read count;
      mret (if (0 <? r.1) && negb copied then (- EFAULT, []) else r).

Definition artosyn_fops_write (buf : list Z) (copied : bool) : Md Z :=
  let buf := ztake SDIO_TRANS_MAX_SZIE buf in
  ok ← envD (kalloc (zlen buf));
  if negb ok then mret (- ENOMEM)
  else if negb copied then mret (- EFAULT)
  else artosyn_do_write buf.

(** The mask of [poll]. *)
Inductive poll_mask := POLLERR | Ready (readable writable : bool).

Definition artosyn_poll : Md poll_mask :=
  s ← getD id;
  if sd_removed s then mret POLLERR
  else
    sdio_claim_host ;;
    s ← getD id;
    when (negb (artosyn_rx_avail s) && negb (artosyn_write_condition s)) (_ ← artosyn_check_events; mret tt) ;;
    s ← getD id;
    mret (Ready (artosyn_rx_avail s) (artosyn_write_condition s)).

(** [READ_MESSAGE]: the channels asked for, and those answered with their
    messages; a message is told once. *)
Definition tell_channel (msg : list bool * list Z) (ch : nat) : Md (list bool * list Z) :=
  s ← getD id;
  if nth ch msg.1 false && nth ch (sd_msg_valid s) false then
    updD (fun s => s <| sd_msg_valid := <[ch := false]> (sd_msg_valid s) |>) ;;
    mret (msg.1, <[ch := nth ch (sd_message s) 0]> msg.2)
  else mret (<[ch := false]> msg.1, msg.2).

Fixpoint tell_channels (msg : list bool * list Z) (chs : list nat) : Md (list bool * list Z) :=
  match chs with
  | [] => mret msg
  | ch :: chs => msg ← tell_channel msg ch; tell_channels msg chs
  end.

Inductive byte_cmd := READ_BYTE | WRITE_BYTE | READ_F0_BYTE | WRITE_F0_BYTE.

Inductive ioctl_cmd :=
  | READ_MESSAGE (valid : list bool) (message : list Z)
  | Byte_cmd (cmd : byte_cmd) (addr val : Z)
  | Other_cmd.

(** What comes back to the caller, besides the error. *)
Inductive ioctl_reply := Messages (valid : list bool) (message : list Z) | Byte_reply (val : Z) | No_reply.

(** The error, and the byte read. *)
Definition byte_access (cmd : byte_cmd) (addr val : Z) : Md (Z * Z) :=
  sdio_claim_host ;;
  match cmd with
  | READ_BYTE => r ← envD (sdio_readb addr); mret (r.2, r.1)
  | WRITE_BYTE => e ← envD (sdio_writeb val addr); mret (e, val)
  | READ_F0_BYTE => r ← envD (sdio_f0_readb addr); mret (r.2, r.1)
  | WRITE_F0_BYTE => e ← envD (sdio_f0_writeb val addr); mret (e, val)
  end.

(** [copied_in], [copied_out]: whether [copy_from_user], [copy_to_user] work. *)
Definition artosyn_ioctl (cmd : ioctl_cmd) (copied_in copied_out : bool) : Md (Z * ioctl_reply) :=
  match cmd with
  | READ_MESSAGE valid message =>
      if negb copied_in then mret (- EFAULT, No_reply)
      else
        msg ← tell_channels (valid, message) (seq 0 SDIO_MAILBOX_CHANNEL_COUNT);
        mret (if copied_out then (0, Messages msg.1 msg.2) else (- EFAULT, No_reply))
  | Byte_cmd cmd addr val =>
      if negb copied_in then mret (- EFAULT, No_reply)
      else
        r ← byte_access cmd addr val;
        let read := match cmd with READ_BYTE | READ_F0_BYTE => true | _ => false end in
        mret (if negb (r.1 =? 0) then (r.1, No_reply)
              else if read then (if copied_out then (0, Byte_reply r.2) else (- EFAULT, No_reply))
              else (0, No_reply))
  | Other_cmd => mret (- ENOTTY, No_reply)
  end.

(** ** The firmware *)

Definition ROUNDUP (x y : Z) : Z := Z.land (x + (y - 1)) (Z.lnot (y - 1)).

(** How much of the [left] bytes the next packet takes. *)
Definition fw_chunk (left : Z) : Z :=
  let chunk := Z.min left (SDIO_BOOT_ONESHOT_MAX_SIZE - SDIO_BOOT_PKG_HEADER_SIZE) in
  let pkt := chunk + SDIO_BOOT_PKG_HEADER_SIZE in
  if (SDIO_DEVICE_BLOCK_SIZE <? pkt) && negb (pkt mod SDIO_DEVICE_BLOCK_SIZE =? 0) then chunk - pkt mod SDIO_DEVICE_BLOCK_SIZE else chunk.

Definition fw_header (chunk addr : Z) : list Z :=
  ztake SDIO_BOOT_PKG_HEADER_SIZE
    ([ARTOSDIO_MAGIC_HEADER_1; ARTOSDIO_MAGIC_HEADER_2] ++ le_enc 2 (u16 chunk) ++ le_enc 8 addr ++
     replicate (Z.to_nat (SDIO_BOOT_PKG_HEADER_SIZE - 12)) 0).

(** [None]: out of fuel. *)
Fixpoint fw_send_loop (fuel : nat) (data : list Z) (dest_addr sent_total : Z) : Md (option Z) :=
  match fuel with
  | O => mret None
  | S fuel =>
      if sent_total <? zlen data then
        let chunk := fw_chunk (zlen data - sent_total) in
        let pkt := fw_header chunk (u32 (dest_addr + sent_total)) ++ zslice sent_total chunk data in
        sent ← artosyn_do_write pkt;
        if negb (sent =? chunk + SDIO_BOOT_PKG_HEADER_SIZE) then mret (Some (- EIO))
        else fw_send_loop fuel data dest_addr (sent_total + chunk)
      else mret (Some 0)
  end.

Definition artosyn_fw_send_chunk (data : list Z) (dest_addr : Z) : Md Z :=
  if zlen data =? 0 then
    sent ← artosyn_do_write (ztake SDIO_BOOT_PKG_HEADER_SIZE
      ([ARTOSDIO_MAGIC_HEADER_1; ARTOSDIO_MAGIC_HEADER_2] ++ replicate (Z.to_nat (SDIO_BOOT_PKG_HEADER_SIZE - 2)) 0));
    mret (if sent =? SDIO_BOOT_PKG_HEADER_SIZE then 0 else - EIO)
  else
    ok ← envD (kalloc SDIO_BOOT_ONESHOT_MAX_SIZE);
    if negb ok then mret (- ENOMEM)
    else r ← fw_send_loop (S (length data)) data dest_addr 0; mret (default (- EIO) r).

(** [struct spl_header], the fields that are used. *)
Record spl_header := mk_spl {
  header_len : Z; spl_load_addr : Z; spl_len : Z; troot_load_addr : Z; troot_len : Z; signature_load_addr : Z; signature_len : Z
}.

(** The image's bytes [off .. off + len); past its end the source reads whatever
    is in memory there, the model zeros. *)
Definition image_at (fw : list Z) (off len : Z) : list Z :=
  let b := zslice off len fw in b ++ replicate (Z.to_nat (len - zlen b)) 0.

Definition spl_of (fw : list Z) : spl_header :=
  let f off n := le_dec (image_at fw off n) in
  mk_spl (f 6 2) (f 24 4) (f 28 4) (f 32 4) (f 36 4) (f 40 4) (f 44 4).

(** The image's first part and its signature, if it has them: a failure is only
    printed.  The offset behind them. *)
Definition send_troot (fw : list Z) (hdr : spl_header) (offset : Z) : Md Z :=
  if troot_len hdr =? 0 then mret offset
  else
    _ ← artosyn_fw_send_chunk (image_at fw offset (troot_len hdr)) (troot_load_addr hdr);
    let offset := u32 (offset + ROUNDUP (troot_len hdr) SPL_IMAGE_SIZE_ALIGN) in
    _ ← artosyn_fw_send_chunk (image_at fw offset (signature_len hdr)) (signature_load_addr hdr);
    mret (u32 (offset + ROUNDUP (signature_len hdr) SPL_IMAGE_SIZE_ALIGN)).

Definition send_cfg (hdr : spl_header) (cfg : option (list Z)) : Md Z :=
  match cfg with
  | Some c => artosyn_fw_send_chunk c (signature_load_addr hdr)
  | None => mret 0
  end.

(** [fw], [cfg]: what [request_firmware] answers, an error or the file;
    [cfg_name]: whether it is given. *)
Definition artosyn_download_firmware (fw_name cfg_name : bool) (fw cfg : Z + list Z) : Md Z :=
  if negb fw_name then mret (- EINVAL)
  else
    match fw with
    | inl e => mret e
    | inr fw =>
        let cfg := if cfg_name then match cfg with inr c => Some c | inl _ => None end else None in
        let hdr := spl_of fw in
        let offset := u32 (ROUNDUP (header_len hdr) SPL_IMAGE_SIZE_ALIGN) in
        ret ← artosyn_fw_send_chunk (image_at fw 0 (header_len hdr)) SPL_HEADER_LOAD_ADDR;
        if negb (ret =? 0) then mret ret
        else
          offset ← send_troot fw hdr offset;
          ret ← artosyn_fw_send_chunk (image_at fw offset (spl_len hdr)) (spl_load_addr hdr);
          if negb (ret =? 0) then mret ret
          else
            ret ← send_cfg hdr cfg;
            if negb (ret =? 0) then mret ret else artosyn_fw_send_chunk [] 0
    end.
End driver.
