(* ===== verification/KmodCdev.v ===== *)
(** [kmod/artosyn_sdio.c] at work: what the daemon reads from the queue of
    transfers, and what reaches the chip's FIFO. *)

From S2P Require Import Prelude Monad KmodNet KmodSdio.
#[local] Open Scope Z_scope.

(** What the register accesses, allocations and waits leave as it is. *)
Class SdioQuiet {W A : Type} `{SdioIo W} (obs : W -> A) : Prop := {
  quiet_readb r w : obs (sdio_readb r w).2 = obs w;
  quiet_writeb v r w : obs (sdio_writeb v r w).2 = obs w;
  quiet_f0_readb r w : obs (sdio_f0_readb r w).2 = obs w;
  quiet_f0_writeb v r w : obs (sdio_f0_writeb v r w).2 = obs w;
  quiet_fromio n w : obs (sdio_memcpy_fromio n w).2 = obs w;
  quiet_kalloc n w : obs (kalloc n w).2 = obs w;
  quiet_irq w : obs (irq_turns w).2 = obs w;
  quiet_unplugged w : obs (unplugged w).2 = obs w;
  quiet_signal w : obs (signal_pending w).2 = obs w
}.
Create HintDb sdio_quiet.
#[export] Hint Resolve quiet_readb quiet_writeb quiet_f0_readb quiet_f0_writeb quiet_fromio quiet_kalloc quiet_irq quiet_unplugged
  quiet_signal : sdio_quiet.

(** ** The queue of transfers

    [given]: what [artosyn_net_rx] left for the daemon so far. *)

Lemma u64_counts x y z a b c : u64 y = u64 (x + a) -> u64 z = u64 (y + b) -> c = a + b -> u64 z = u64 (x + c).
Proof. unfold u64; intros H1 H2 ->; rewrite H2, <- Zplus_mod_idemp_l, H1, Zplus_mod_idemp_l; f_equal; lia. Qed.

(** Only [artosyn_net_rx] adds to it. *)
Class GivenLog {W : Type} `{SdioIo W} (given : W -> list (list Z)) : Prop := {
  given_quiet :: SdioQuiet given;
  given_toio b w : given (sdio_memcpy_toio b w).2 = given w;
  given_rx p w : given (net_rx p w).2 = given w ++ option_list (net_rx p w).1
}.
#[export] Hint Resolve given_quiet given_toio : sdio_quiet.

Section queue.
Context {W : Type} `{HH : NetHeaders} `{HS : SdioHeaders} `{HI : SdioIo W} (given : W -> list (list Z)) `{HG : !GivenLog given}.
Implicit Types t : sdst W.

(** The queue grew by transfers left for the daemon, in order; the others were
    counted as dropped. *)
Definition grows t t' : Prop :=
  exists new kept, given (Dw t') = given (Dw t) ++ new /\ sublist kept new /\ sd_rxq (D t') = sd_rxq (D t) ++ kept /\
    u64 (sd_rx_drops (D t')) = u64 (sd_rx_drops (D t) + Z.of_nat (length new - length kept)).

#[local] Instance grows_pre : PreOrder grows.
Proof.
  split.
  - intros t; exists [], []; rewrite !app_nil_r; split_and!; [done|constructor|done|by rewrite Z.add_0_r].
  - intros a b c (n1 & k1 & E1 & S1 & Q1 & D1) (n2 & k2 & E2 & S2 & Q2 & D2); exists (n1 ++ n2), (k1 ++ k2).
    rewrite E2, E1, Q2, Q1, <- !app_assoc; split_and!; [done|by apply sublist_app|done|].
    eapply u64_counts; [exact D1|exact D2|]; apply sublist_length in S1, S2; rewrite !length_app; lia.
Qed.

Lemma grows_env {A} (m : W -> A * W) : (forall w, given (m w).2 = given w) -> keeps grows (envD m).
Proof using.
  intros Hm t; specialize (Hm (Dw t)); unfold envD; destruct (m (Dw t)) as [a w]; cbn [snd] in *; exists [], [].
  cbn [D Dw]; rewrite Hm, !app_nil_r; split_and!; [done|constructor|done|by rewrite Z.add_0_r].
Qed.

Lemma grows_upd (f : sdev -> sdev) :
  (forall s, sd_rxq (f s) = sd_rxq s /\ sd_rx_drops (f s) = sd_rx_drops s) -> keeps grows (updD f).
Proof using.
  intros Hf t; destruct (Hf (D t)) as [E1 E2]; exists [], []; cbn [updD snd D Dw]; rewrite E1, E2, !app_nil_r.
  split_and!; [done|constructor|done|by rewrite Z.add_0_r].
Qed.

Ltac grows_leaf := first
  [ apply grows_env; solve [auto with sdio_quiet] | apply grows_upd; intros ?; done | by intros ? ].

Lemma transfer_loop_grows fuel size : forall done data, keeps grows (transfer_loop fuel size done data).
Proof using HG.
  induction fuel as [|fuel IH]; intros done data; cbn [transfer_loop]; keeps_walk ltac:(first [apply IH|grows_leaf]).
Qed.

Lemma queue_grows data : keeps grows (rx_demux data).
Proof using HG.
  intros t; pose proof (given_rx data (Dw t)) as Hgiven; unfold rx_demux; rewrite bind_run; unfold envD at 1 2; destruct (net_rx data (Dw t)) as [[skb|] w].
  - cbn [fst snd option_list] in *; unfold artosyn_cdev_rx_queue; rewrite bind_run; cbn [getD fst snd id D].
    assert (Hdrop : grows t (mk_sdst ((D t) <| sd_rx_drops := u64 (sd_rx_drops (D t) + 1) |>) w)).
    { exists [skb], []; cbn [Dw D]; rewrite app_nil_r; split_and!; [done|apply sublist_nil_l|done|].
      change (sd_rx_drops _) with (u64 (sd_rx_drops (D t) + 1)) at 1; unfold u64; by rewrite Z.mod_mod by lia. }
    destruct (sd_open_count (D t) =? 0); [exact Hdrop|]; destruct (CDEV_RXQ_MAX_BYTES <? _); [exact Hdrop|].
    exists [skb], [skb]; split_and!; [done|done|done|]; by rewrite Z.add_0_r.
  - cbn [fst snd option_list] in *; rewrite app_nil_r in Hgiven; exists [], []; rewrite !app_nil_r.
    split_and!; [done|apply sublist_nil_l|done|by rewrite Z.add_0_r].
Qed.

Lemma rx_transfer_grows size : keeps grows (artosyn_rx_transfer size).
Proof using HG.
  unfold artosyn_rx_transfer; keeps_walk ltac:(first [apply transfer_loop_grows|apply queue_grows|grows_leaf]).
Qed.

Lemma check_events_grows : keeps grows artosyn_check_events.
Proof using HG.
  unfold artosyn_check_events, read_mailbox, reg; keeps_walk ltac:(first [apply rx_transfer_grows|grows_leaf]).
Qed.

Lemma irqhandler_grows n : keeps grows (artosyn_irqhandler n).
Proof using HG.
  induction n as [|n IH]; cbn [artosyn_irqhandler]; keeps_walk ltac:(first [apply IH|apply check_events_grows|grows_leaf]).
Qed.

Lemma claim_grows : keeps grows sdio_claim_host.
Proof using HG. unfold sdio_claim_host; keeps_walk ltac:(first [apply irqhandler_grows|grows_leaf]). Qed.

Lemma poll_and_wait_grows cond : keeps grows (poll_and_wait cond).
Proof using HG.
  unfold poll_and_wait, wait_event, meanwhile; keeps_walk ltac:(first [apply claim_grows|apply check_events_grows|grows_leaf]).
Qed.

(** One [read] of the daemon: what it got, with what was queued since, is what
    was there before. *)
Lemma cdev_read_stream count copied t :
  0 <= count ->
  let r := artosyn_cdev_read count copied t in
  exists new kept drops, given (Dw r.2) = given (Dw t) ++ new /\ sublist kept new /\
    u64 (sd_rx_drops (D r.2)) = u64 (sd_rx_drops (D t) + drops) /\ drops = Z.of_nat (length new - length kept) /\
    concat (sd_rxq (D t)) ++ concat kept = r.1.2 ++ concat (sd_rxq (D r.2)).
Proof using HG.
  intros Hc r; unfold r, artosyn_cdev_read; clear r; rewrite bind_run.
  destruct (poll_and_wait_grows artosyn_rx_avail t) as (new & kept & E1 & Hs & E2 & E3).
  set (ok := (poll_and_wait _ t).1); set (t1 := (poll_and_wait _ t).2) in *; rewrite bind_run; cbn [getD fst snd id].
  exists new, kept, (Z.of_nat (length new - length kept)).
  assert (Hret : forall e, let r := (mret (e, []) : M (sdst W) (Z * list Z)) t1 in given (Dw r.2) = given (Dw t) ++ new /\ sublist kept new /\
    u64 (sd_rx_drops (D r.2)) = u64 (sd_rx_drops (D t) + Z.of_nat (length new - length kept)) /\
    Z.of_nat (length new - length kept) = Z.of_nat (length new - length kept) /\
    concat (sd_rxq (D t)) ++ concat kept = r.1.2 ++ concat (sd_rxq (D r.2))).
  { intros e; cbn [mret M_ret fst snd app]; split_and!; try done; by rewrite E2, concat_app. }
  destruct (_ || _); [apply Hret|]; destruct (sd_rxq (D t1)) as [|skb q] eqn:Hq; [rewrite <- Hq in *; apply Hret|].
  rewrite <- Hq in *; destruct (negb copied); [apply Hret|]; rewrite bind_run; cbn [updD fst snd mret M_ret Dw D].
  split_and!; try done; rewrite <- concat_app, <- E2, Hq; cbn [concat].
  change (sd_rxq (_ <| sd_rxq := ?q |>)) with q; pose proof (zlen_nonneg skb).
  destruct (Z.ltb_spec (Z.min count (zlen skb)) (zlen skb)); cbn [concat].
  - by rewrite app_assoc, ztake_drop.
  - rewrite ztake_all by lia; done.
Qed.

(** The daemon at its reads, with transfers coming in between and meanwhile. *)
Fixpoint daemon_reads (l : list (Z * bool)) : M (sdst W) (list Z) :=
  match l with
  | [] => mret []
  | (count, copied) :: l =>
      sdio_claim_host ;;
      r ← artosyn_cdev_read count copied;
      rest ← daemon_reads l;
      mret (r.2 ++ rest)
  end.

(** C7. The daemon reads one stream: in whatever sizes it reads, with transfers
    coming in all the while and reads failing, what it gets and what is still
    queued are what was queued before and, in order, the transfers left for it
    since, except whole ones that found the queue full (or nobody listening),
    each of which is counted. *)
Theorem daemon_stream l t :
  Forall (fun x => 0 <= x.1) l ->
  let r := daemon_reads l t in
  exists new kept, given (Dw r.2) = given (Dw t) ++ new /\ sublist kept new /\
    u64 (sd_rx_drops (D r.2)) = u64 (sd_rx_drops (D t) + Z.of_nat (length new - length kept)) /\
    concat (sd_rxq (D t)) ++ concat kept = r.1 ++ concat (sd_rxq (D r.2)).
Proof using HG.
  revert t; induction l as [|[count copied] l IH]; intros t Hl; cbn [daemon_reads].
  - exists [], []; cbn [mret M_ret fst snd]; rewrite !app_nil_r; split_and!; [done|constructor|by rewrite Z.add_0_r|done].
  - apply Forall_cons_1 in Hl as [Hc Hl]; rewrite bind_run; destruct (claim_grows t) as (n1 & k1 & E1 & S1 & Q1 & D1).
    set (t1 := (sdio_claim_host t).2) in *; rewrite bind_run.
    destruct (cdev_read_stream count copied t1 Hc) as (n2 & k2 & d2 & E2 & S2 & D2 & -> & C2).
    set (r2 := artosyn_cdev_read count copied t1) in *; rewrite bind_run.
    destruct (IH r2.2 Hl) as (n3 & k3 & E3 & S3 & D3 & C3); set (r3 := daemon_reads l r2.2) in *; cbn [mret M_ret fst snd].
    exists (n1 ++ n2 ++ n3), (k1 ++ k2 ++ k3); split_and!.
    + by rewrite E3, E2, E1, <- !app_assoc.
    + by repeat apply sublist_app.
    + eapply u64_counts; [exact D1|eapply u64_counts; [exact D2|exact D3|reflexivity]|].
      apply sublist_length in S1, S2, S3; rewrite !length_app; lia.
    + rewrite <- app_assoc, <- C3, (app_assoc r2.1.2), <- C2, Q1, !concat_app; by rewrite <- !app_assoc.
Qed.
End queue.

(** ** The queue's size *)

(** The operations of the driver: the handler, and the device file's. *)
Inductive cdev_op :=
  | Op_irq | Op_open (live : bool) | Op_release (live : bool) | Op_read (count : Z) (copied : bool)
  | Op_write (buf : list Z) (copied : bool) | Op_poll | Op_ioctl (cmd : ioctl_cmd) (copied_in copied_out : bool).

Section accounting.
Context {W : Type} `{HH : NetHeaders} `{HS : SdioHeaders} `{HI : SdioIo W}.
(** A socket buffer is smaller than 2 GiB. *)
Hypothesis Hskb : forall p (w : W), match (net_rx p w).1 with Some skb => zlen skb < 2 ^ 31 | None => True end.
Implicit Types t : sdst W.

Definition run_op (op : cdev_op) : M (sdst W) unit :=
  match op with
  | Op_irq => sdio_claim_host
  | Op_open live => _ ← artosyn_open live; mret tt
  | Op_release live => _ ← artosyn_release live; mret tt
  | Op_read count copied => _ ← artosyn_fops_read count copied; mret tt
  | Op_write buf copied => _ ← artosyn_fops_write buf copied; mret tt
  | Op_poll => _ ← artosyn_poll; mret tt
  | Op_ioctl cmd copied_in copied_out => _ ← artosyn_ioctl cmd copied_in copied_out; mret tt
  end.

Definition op_ok (op : cdev_op) : Prop := match op with Op_read count _ => 0 <= count | _ => True end.

Definition accounted t : Prop :=
  sd_rxq_bytes (D t) = zlen (concat (sd_rxq (D t))) /\ sd_rxq_bytes (D t) <= CDEV_RXQ_MAX_BYTES.

Definition same_queue t t' : Prop := sd_rxq (D t') = sd_rxq (D t) /\ sd_rxq_bytes (D t') = sd_rxq_bytes (D t).
#[local] Instance same_queue_pre : PreOrder same_queue.
Proof. split; [done|]; intros a b c [] []; split; congruence. Qed.

Lemma same_accounted {A} (m : M (sdst W) A) : keeps same_queue m -> run_inv accounted m.
Proof using. intros Hm t Ht; destruct (Hm t) as [E1 E2]; unfold accounted; by rewrite E1, E2. Qed.

Lemma env_queue {A} (m : W -> A * W) : keeps same_queue (envD m).
Proof using. intros t; unfold envD; by destruct (m (Dw t)). Qed.

Ltac queue_leaf := first [apply env_queue | by intros ?].
Ltac acct_leaf := first [apply same_accounted, env_queue | by intros ? ?].

Lemma transfer_loop_queue fuel size : forall done data, keeps same_queue (transfer_loop fuel size done data).
Proof using.
  induction fuel as [|fuel IH]; intros done data; cbn [transfer_loop]; keeps_walk ltac:(first [apply IH|queue_leaf]).
Qed.

Lemma demux_accounted data : run_inv accounted (rx_demux data).
Proof using Hskb.
  intros t Ht; specialize (Hskb data (Dw t)); unfold rx_demux; rewrite bind_run; unfold envD at 1 2.
  destruct (net_rx data (Dw t)) as [[skb|] w]; cbn [fst snd] in *; [|done].
  unfold artosyn_cdev_rx_queue; rewrite bind_run; cbn [getD fst snd id D].
  destruct (_ =? 0); [exact Ht|]; destruct Ht as [Hb Hm]; unfold CDEV_RXQ_MAX_BYTES in *; pose proof (zlen_nonneg skb).
  pose proof (zlen_nonneg (concat (sd_rxq (D t)))); assert (Hu : u32 (sd_rxq_bytes (D t) + zlen skb) = sd_rxq_bytes (D t) + zlen skb)
    by (apply u32_id; lia); rewrite Hu.
  destruct (Z.ltb_spec (2 * 1024 * 1024) (sd_rxq_bytes (D t) + zlen skb)) as [|Hroom]; [split; [exact Hb|exact Hm]|].
  split; [change (u32 (sd_rxq_bytes (D t) + zlen skb) = zlen (concat (sd_rxq (D t) ++ [skb])))
         |change (u32 (sd_rxq_bytes (D t) + zlen skb) <= CDEV_RXQ_MAX_BYTES)]; rewrite Hu; [|exact Hroom].
  rewrite concat_app, zlen_app; cbn [concat]; rewrite app_nil_r; lia.
Qed.

Lemma rx_transfer_accounted size : run_inv accounted (artosyn_rx_transfer size).
Proof using Hskb.
  unfold artosyn_rx_transfer;
    inv_walk ltac:(first [apply demux_accounted|apply same_accounted, transfer_loop_queue|acct_leaf]).
Qed.

Lemma read_mailbox_queue m ch : keeps same_queue (read_mailbox m ch).
Proof using. unfold read_mailbox, reg; keeps_walk queue_leaf. Qed.

Lemma check_events_accounted : run_inv accounted artosyn_check_events.
Proof using Hskb.
  unfold artosyn_check_events, reg; inv_walk ltac:(first
    [apply rx_transfer_accounted|apply inv_mfor; intros ?; apply same_accounted, read_mailbox_queue|acct_leaf]).
Qed.

Lemma claim_accounted : run_inv accounted sdio_claim_host.
Proof using Hskb.
  unfold sdio_claim_host; inv_walk ltac:(try acct_leaf).
  revert a; induction a as [|n IH]; cbn [artosyn_irqhandler]; inv_walk ltac:(first [apply IH|apply check_events_accounted|acct_leaf]).
Qed.

Ltac acct_walk := inv_walk ltac:(first [apply claim_accounted|apply check_events_accounted|acct_leaf]).

Lemma poll_and_wait_accounted cond : run_inv accounted (poll_and_wait cond).
Proof using Hskb. unfold poll_and_wait, wait_event, meanwhile; acct_walk. Qed.

Lemma cdev_read_accounted count copied : 0 <= count -> run_inv accounted (artosyn_cdev_read count copied).
Proof using Hskb.
  intros Hc; unfold artosyn_cdev_read; apply inv_bind; [apply poll_and_wait_accounted|]; intros ok t Ht; rewrite bind_run.
  cbn [getD fst snd id]; destruct (_ || _); [exact Ht|]; destruct (sd_rxq (D t)) as [|skb q] eqn:Hq; [exact Ht|].
  destruct (negb copied); [exact Ht|]; destruct Ht as [Hb Hm]; rewrite Hq in Hb; cbn [concat] in Hb; rewrite zlen_app in Hb.
  unfold CDEV_RXQ_MAX_BYTES in Hm; pose proof (zlen_nonneg skb); pose proof (zlen_nonneg (concat q)).
  set (n := Z.min count (zlen skb)); assert (Hn : 0 <= n <= zlen skb) by (unfold n; lia).
  assert (Hu : u32 (sd_rxq_bytes (D t) - n) = sd_rxq_bytes (D t) - n) by (apply u32_id; lia).
  split; [change (u32 (sd_rxq_bytes (D t) - n) = zlen (concat (if n <? zlen skb then zdrop n skb :: q else q)))
         |change (u32 (sd_rxq_bytes (D t) - n) <= CDEV_RXQ_MAX_BYTES); unfold CDEV_RXQ_MAX_BYTES]; rewrite Hu; [|lia].
  destruct (Z.ltb_spec n (zlen skb)); cbn [concat]; rewrite ?zlen_app, ?zlen_drop; lia.
Qed.

Lemma do_read_accounted count : run_inv accounted (artosyn_do_read count).
Proof using Hskb. unfold artosyn_do_read; inv_walk ltac:(first [apply claim_accounted|apply poll_and_wait_accounted|acct_leaf]). Qed.

Lemma do_write_accounted buf : run_inv accounted (artosyn_do_write buf).
Proof using Hskb.
  unfold artosyn_do_write, artosyn_write_chunk; inv_walk ltac:(first [apply claim_accounted|apply poll_and_wait_accounted|acct_leaf]).
Qed.

Lemma release_accounted live : run_inv accounted (artosyn_release live).
Proof using.
  unfold artosyn_release; inv_walk ltac:(first [by intros ? ?|intros t _; split; [done|vm_compute; discriminate]]).
Qed.

Lemma tell_channels_queue chs : forall msg, keeps same_queue (tell_channels msg chs).
Proof using.
  induction chs as [|ch chs IH]; intros msg; cbn [tell_channels]; unfold tell_channel; keeps_walk ltac:(first [apply IH|queue_leaf]).
Qed.

(** The queue's byte count is always the bytes queued, and never above its
    limit, whatever operations are done on the device file and whatever the chip
    and the radio bring. *)
Theorem queue_accounted ops t :
  Forall op_ok ops -> accounted t -> accounted (mfor run_op ops t).2.
Proof using Hskb.
  revert t; induction ops as [|op ops IH]; intros t Hok Ht; [done|]; apply Forall_cons_1 in Hok as [Ho Hok].
  cbn [mfor]; rewrite bind_run; apply IH; [done|]; revert t Ht; change (run_inv accounted (run_op op)).
  destruct op as [|live|live|count copied|buf copied| |cmd cin cout]; cbn [run_op];
    unfold artosyn_open, artosyn_fops_read, artosyn_fops_write, artosyn_poll, artosyn_ioctl, byte_access;
    inv_walk ltac:(first [by apply cdev_read_accounted|apply do_read_accounted|apply do_write_accounted|apply release_accounted|
      apply claim_accounted|apply check_events_accounted|apply same_accounted, tell_channels_queue|acct_leaf]).
Qed.
End accounting.
