(* ===== verification/KmodBoot.v ===== *)
(** What [kmod/artosyn_sdio.c] puts into the chip's FIFO: whole buffers in
    pieces that fit the transmit window, and the firmware in the boot ROM's
    packets. *)

From S2P Require Import Prelude Monad KmodNet KmodSdio KmodCdev.
#[local] Open Scope Z_scope.

(** The FIFO's log: a transfer that works is in it whole. *)
Class FifoLog {W : Type} `{SdioIo W} (fifo : W -> list (list Z)) : Prop := {
  fifo_quiet :: SdioQuiet fifo;
  fifo_rx p w : fifo (net_rx p w).2 = fifo w;
  fifo_toio b w : (sdio_memcpy_toio b w).1 <= 0 /\
    fifo (sdio_memcpy_toio b w).2 = fifo w ++ (if (sdio_memcpy_toio b w).1 =? 0 then [b] else [])
}.
#[export] Hint Resolve fifo_quiet fifo_rx : sdio_quiet.

Section fifo.
Context {W : Type} `{HH : NetHeaders} `{HS : SdioHeaders} `{HI : SdioIo W} (fifo : W -> list (list Z)) `{HF : !FifoLog fifo}.
Implicit Types t : sdst W.

(** Nothing written, and the device's fixed properties the same. *)
Definition silent t t' : Prop :=
  fifo (Dw t') = fifo (Dw t) /\ sd_blksize (D t') = sd_blksize (D t) /\ sd_rom_mode (D t') = sd_rom_mode (D t).
#[local] Instance silent_pre : PreOrder silent.
Proof. split; [done|]; intros a b c (? & ? & ?) (? & ? & ?); split_and!; congruence. Qed.

Lemma silent_env {A} (m : W -> A * W) : (forall w, fifo (m w).2 = fifo w) -> keeps silent (envD m).
Proof using. intros Hm t; specialize (Hm (Dw t)); unfold envD; by destruct (m (Dw t)). Qed.

Ltac silent_leaf := first [apply silent_env; solve [auto with sdio_quiet] | by intros ?].

Lemma transfer_loop_silent fuel size : forall done data, keeps silent (transfer_loop fuel size done data).
Proof using HF.
  induction fuel as [|fuel IH]; intros done data; cbn [transfer_loop]; keeps_walk ltac:(first [apply IH|silent_leaf]).
Qed.

Lemma check_events_silent : keeps silent artosyn_check_events.
Proof using HF.
  unfold artosyn_check_events, read_mailbox, artosyn_rx_transfer, rx_demux, artosyn_cdev_rx_queue, reg;
    keeps_walk ltac:(first [apply transfer_loop_silent|silent_leaf]).
Qed.

Lemma claim_silent : keeps silent sdio_claim_host.
Proof using HF.
  unfold sdio_claim_host; keeps_walk silent_leaf.
  revert a; induction a as [|n IH]; cbn [artosyn_irqhandler]; keeps_walk ltac:(first [apply IH|apply check_events_silent|silent_leaf]).
Qed.

Lemma poll_and_wait_silent cond : keeps silent (poll_and_wait cond).
Proof using HF.
  unfold poll_and_wait, wait_event, meanwhile; keeps_walk ltac:(first [apply claim_silent|apply check_events_silent|silent_leaf]).
Qed.

(** ** One chunk *)

Hypothesis Hmax : 0 < SDIO_TRANS_MAX_SZIE.

(** What may go to the FIFO in one piece: at most one transfer, and whole blocks
    if it is more than one. *)
Definition fits (blk : Z) (b : list Z) : Prop :=
  0 < zlen b <= SDIO_TRANS_MAX_SZIE /\ (zlen b <= blk \/ (blk | zlen b)).

Lemma chunk_of_bounds blk count room :
  0 < blk -> 0 <= count -> 0 <= room ->
  0 <= chunk_of blk count room <= count /\ chunk_of blk count room <= SDIO_TRANS_MAX_SZIE /\
  (chunk_of blk count room <= blk \/ (blk | chunk_of blk count room)).
Proof using Hmax.
  intros Hb Hc Hr; unfold chunk_of; set (c1 := if room <? count then room else count).
  assert (H1 : 0 <= c1 <= count) by (unfold c1; if_cases; lia).
  set (c2 := if SDIO_TRANS_MAX_SZIE <? c1 then SDIO_TRANS_MAX_SZIE else c1).
  assert (H2 : 0 <= c2 <= c1 /\ c2 <= SDIO_TRANS_MAX_SZIE) by (unfold c2; if_cases; lia).
  pose proof (Z.mod_pos_bound c2 blk Hb); pose proof (Z.mod_le c2 blk ltac:(lia) Hb).
  destruct (Z.ltb_spec blk c2); [|lia]; split; [lia|split; [lia|right]].
  exists (c2 / blk); rewrite (Z.div_mod c2 blk) at 1 by lia; lia.
Qed.

Definition wrote buf t (r : Z) t' : Prop :=
  sd_blksize (D t') = sd_blksize (D t) /\ sd_rom_mode (D t') = sd_rom_mode (D t) /\
  ((0 < r <= zlen buf /\ fifo (Dw t') = fifo (Dw t) ++ [ztake r buf] /\ fits (sd_blksize (D t)) (ztake r buf) /\
      sd_write_offset (D t') = sd_write_valid (D t')) \/
   (r < 0 /\ fifo (Dw t') = fifo (Dw t))).

Lemma wrote_after buf t t1 r t' : silent t t1 -> wrote buf t1 r t' -> wrote buf t r t'.
Proof using. intros (E1 & E2 & E3); unfold wrote; by rewrite E1, E2, E3. Qed.

Lemma write_now buf t :
  0 < sd_blksize (D t) ->
  let count := chunk_of (sd_blksize (D t)) (zlen buf) (u32 (sd_write_valid (D t) - sd_write_offset (D t))) in
  let r := (if count =? 0 then mret (- EAGAIN)
            else
              ret ← envD (sdio_memcpy_toio (ztake count buf));
              when (ret =? 0) (updD (fun s => s <| sd_write_offset := sd_write_valid s |>)) ;;
              mret (if ret =? 0 then count else ret) : M (sdst W) Z) t in
  wrote buf t r.1 r.2.
Proof using HF Hmax.
  intros Hb count; destruct (chunk_of_bounds (sd_blksize (D t)) (zlen buf) (u32 (sd_write_valid (D t) - sd_write_offset (D t))) Hb
    (zlen_nonneg buf) ltac:(apply u32_range)) as (C1 & C2 & C3); fold count in C1, C2, C3; clearbody count.
  destruct (Z.eqb_spec count 0) as [->|Hn]; [split; [done|split; [done|by right]]|].
  cbv zeta; rewrite bind_run; destruct (fifo_toio (ztake count buf) (Dw t)) as [Hle Hf]; unfold envD.
  destruct (sdio_memcpy_toio (ztake count buf) (Dw t)) as [ret w]; cbn [fst snd] in *; rewrite bind_run.
  destruct (Z.eqb_spec ret 0) as [->|Hr].
  - split; [done|split; [done|left]]; cbn [when updD fst snd mret M_ret D Dw]; split; [lia|split; [done|split; [|done]]].
    unfold fits; rewrite zlen_take by lia; split; [lia|done].
  - split; [done|split; [done|right]]; cbn [when mret M_ret fst snd Dw]; rewrite app_nil_r in Hf; split; [lia|done].
Qed.

Lemma write_chunk_spec buf t :
  0 < sd_blksize (D t) -> let r := artosyn_write_chunk buf t in wrote buf t r.1 r.2.
Proof using HF Hmax.
  intros Hb; unfold artosyn_write_chunk; cbv zeta; rewrite bind_run; cbn [getD fst snd id].
  assert (Herr : forall e t1, e < 0 -> silent t t1 -> wrote buf t e t1).
  { intros e t1 He (E1 & E2 & E3); split; [done|split; [done|by right]]. }
  destruct (sd_removed (D t)); [apply Herr; [done|reflexivity]|]; rewrite bind_run; set (m := if sd_rom_mode (D t) then _ else _).
  assert (Hm : silent t (m t).2) by (unfold m; destruct (sd_rom_mode (D t)); [done|apply poll_and_wait_silent]).
  set (t1 := (m t).2) in *; destruct (negb (m t).1); [by apply Herr|]; rewrite bind_run; cbn [getD fst snd id].
  destruct (sd_removed (D t1)); [by apply Herr|]; rewrite bind_run, bind_run; cbn [getD fst snd id].
  pose proof (claim_silent t1) as Hc; set (t2 := (sdio_claim_host t1).2) in *.
  assert (Ht2 : silent t t2) by (by etrans); apply (wrote_after buf t t2); [done|]; apply write_now.
  by destruct Ht2 as (_ & -> & _).
Qed.

(** ** Whole buffers *)

(** C8. [artosyn_write_all] hands the FIFO exactly the buffer, in order, in pieces
    the chip takes; when it fails, a proper beginning of it. *)
Theorem write_all_exact fuel p t :
  0 < sd_blksize (D t) ->
  let r := artosyn_write_all fuel p t in
  exists pieces, fifo (Dw r.2) = fifo (Dw t) ++ pieces /\ Forall (fits (sd_blksize (D t))) pieces /\
    match r.1 with
    | Some e => e <= 0 /\ (if e =? 0 then concat pieces = p else exists rest, rest <> [] /\ p = concat pieces ++ rest)
    | None => exists rest, p = concat pieces ++ rest
    end.
Proof using HF Hmax.
  revert p t; induction fuel as [|fuel IH]; intros p t Hb; cbn [artosyn_write_all].
  - exists []; rewrite app_nil_r; split_and!; [done|constructor|by exists p].
  - destruct (Z.eqb_spec (zlen p) 0) as [Hz|Hz].
    + exists []; rewrite app_nil_r; split_and!; [done|constructor|split; [done|]]; destruct p; [done|rewrite zlen_cons in Hz;
        pose proof (zlen_nonneg p); lia].
    + cbv zeta; rewrite bind_run; pose proof (write_chunk_spec p t Hb) as Hw; destruct (artosyn_write_chunk p t) as [r t1].
      cbn [fst snd] in *; destruct Hw as (Eb & _ & Hw).
      assert (Hb1 : 0 < sd_blksize (D t1)) by (by rewrite Eb); destruct Hw as [(Hr & Hf & Hfit & _)|(Hr & Hf)].
      * rewrite (proj2 (Z.eqb_neq r (- EAGAIN))), (proj2 (Z.ltb_ge r 0)) by (unfold EAGAIN; lia).
        destruct (IH (zdrop r p) t1 Hb1) as (ps & Ef & Hps & Hres); exists (ztake r p :: ps); split_and!.
        -- by rewrite Ef, Hf, <- app_assoc.
        -- constructor; [done|by rewrite <- Eb].
        -- destruct (artosyn_write_all fuel (zdrop r p) t1) as [[e|] t2]; cbn [fst concat] in *; [destruct Hres as [He Hres];
             split; [done|]; destruct (e =? 0)|].
           ++ by rewrite Hres, ztake_drop.
           ++ destruct Hres as (rest & Hn & Hres); exists rest; split; [done|]; by rewrite <- app_assoc, <- Hres, ztake_drop.
           ++ destruct Hres as (rest & Hres); exists rest; by rewrite <- app_assoc, <- Hres, ztake_drop.
      * destruct (Z.eqb_spec r (- EAGAIN)).
        -- destruct (IH p t1 Hb1) as (ps & Ef & Hps & Hres); exists ps; rewrite Ef, Hf; split_and!; [done|by rewrite <- Eb|done].
        -- rewrite (proj2 (Z.ltb_lt r 0)) by done; exists []; cbn [mret M_ret fst snd]; rewrite app_nil_r.
           split; [done|split; [apply Forall_nil_2|split; [lia|]]]; rewrite (proj2 (Z.eqb_neq r 0)) by lia; exists p; split; [|done].
           by intros ->.
Qed.
End fifo.

(** ** The firmware push: what the boot ROM is told to load where *)

(** The vendor's numbers: a header of twelve bytes, less than a block, and
    packets the length field can hold. *)
Class BootSane `{NetHeaders} `{SdioHeaders} : Prop := {
  boot_header : SDIO_BOOT_PKG_HEADER_SIZE = 12;
  boot_block : 12 < SDIO_DEVICE_BLOCK_SIZE;
  boot_oneshot : 12 < SDIO_BOOT_ONESHOT_MAX_SIZE <= 65536;
  boot_max : 0 < SDIO_TRANS_MAX_SZIE
}.

(** ** Packets *)

Definition pkt_len (p : list Z) : Z := le_dec (zslice 2 2 p).
Definition pkt_addr (p : list Z) : Z := le_dec (zslice 4 8 p).
Definition pkt_data (p : list Z) : list Z := zdrop 12 p.

(** The packets load [data] from [addr] on, without a gap. *)
Fixpoint loads (addr : Z) (pkts : list (list Z)) (data : list Z) : Prop :=
  match pkts with
  | [] => data = []
  | p :: pkts =>
      pkt_addr p = addr /\ pkt_len p = zlen (pkt_data p) /\
      exists rest, data = pkt_data p ++ rest /\ loads (u32 (addr + zlen (pkt_data p))) pkts rest
  end.

Section packets.
Context `{HH : NetHeaders} `{HS : SdioHeaders} `{HB : !BootSane}.

Lemma fw_chunk_bounds left :
  0 < left -> 0 < fw_chunk left <= left /\ fw_chunk left < 65536.
Proof using HB.
  intros Hl; unfold fw_chunk; destruct HB as [H1 H2 H3 _]; rewrite H1.
  set (c := Z.min left (SDIO_BOOT_ONESHOT_MAX_SIZE - 12)); assert (0 < c <= left /\ c < 65536) by (unfold c; lia); clearbody c.
  clear H1; revert H2; generalize SDIO_DEVICE_BLOCK_SIZE; intros b H2.
  destruct (Z.ltb_spec b (c + 12)) as [Hb|]; [|cbn [andb]; lia].
  assert (b <= c + 12 - (c + 12) mod b /\ 0 <= (c + 12) mod b).
  { pose proof (Z.mod_pos_bound (c + 12) b); pose proof (Z.div_mod (c + 12) b);
      pose proof (Z.div_le_lower_bound (c + 12) b 1); nia. }
  destruct (negb _); cbn [andb]; lia.
Qed.

Definition fw_packet (chunk addr : Z) (payload : list Z) : list Z := fw_header chunk addr ++ payload.

Lemma fw_packet_parts addr payload :
  0 <= addr < 2 ^ 32 -> zlen payload < 65536 ->
  let p := fw_packet (zlen payload) addr payload in
  zlen p = zlen payload + SDIO_BOOT_PKG_HEADER_SIZE /\ pkt_addr p = addr /\ pkt_len p = zlen payload /\ pkt_data p = payload.
Proof using HB.
  intros Ha Hl p; pose proof (zlen_nonneg payload); destruct HB as [H1 _ _ _].
  assert (Hh : fw_header (zlen payload) addr = [ARTOSDIO_MAGIC_HEADER_1; ARTOSDIO_MAGIC_HEADER_2] ++ le_enc 2 (zlen payload) ++ le_enc 8 addr).
  { unfold fw_header; rewrite H1, u16_id by lia; change (Z.to_nat (12 - 12)) with O; cbn [replicate]; by rewrite app_nil_r. }
  unfold p, fw_packet; rewrite Hh, H1; split; [rewrite !zlen_app, !zlen_le_enc; change (zlen [_; _]) with 2; lia|].
  split; [change (pkt_addr _) with (le_dec (le_enc 8 addr)); apply le_dec_enc; lia|].
  split; [change (pkt_len _) with (le_dec (le_enc 2 (zlen payload))); apply le_dec_enc; lia|done].
Qed.
End packets.

(** ** Sending a part *)

Section boot.
Context {W : Type} `{HH : NetHeaders} `{HS : SdioHeaders} `{HI : SdioIo W} `{HB : !BootSane}.
Context (fifo : W -> list (list Z)) `{HF : !FifoLog fifo}.
Implicit Types t : sdst W.

Lemma do_write_spec buf t : 0 < sd_blksize (D t) -> let r := artosyn_do_write buf t in wrote fifo buf t r.1 r.2.
Proof using HF HB.
  intros Hb; unfold artosyn_do_write; cbv zeta; rewrite bind_run.
  pose proof (silent_env fifo signal_pending (fun w => quiet_signal w) t) as Hs; destruct (envD signal_pending t) as [[] t1]; cbn [fst snd] in *.
  - destruct Hs as (E1 & E2 & E3); split; [done|split; [done|by right]].
  - apply (wrote_after fifo buf t t1 _ _ Hs), (write_chunk_spec fifo boot_max); by destruct Hs as (_ & -> & _).
Qed.

(** [tail]: what a packet that failed left in the FIFO, if anything. *)
Lemma fw_send_loop_spec fuel data addr : forall sent t,
  0 < sd_blksize (D t) -> 0 <= sent <= zlen data -> (Z.to_nat (zlen data - sent) < fuel)%nat ->
  let r := fw_send_loop fuel data addr sent t in
  exists pkts tail, fifo (Dw r.2) = fifo (Dw t) ++ pkts ++ tail /\ sd_blksize (D r.2) = sd_blksize (D t) /\
    ((r.1 = Some 0 /\ tail = [] /\ loads (u32 (addr + sent)) pkts (zdrop sent data)) \/
     (r.1 = Some (- EIO) /\ (length tail <= 1)%nat /\
      exists part rest, zdrop sent data = part ++ rest /\ rest <> [] /\ loads (u32 (addr + sent)) pkts part)).
Proof using HF HB.
  induction fuel as [|fuel IH]; intros sent t Hb Hs Hf; [lia|]; cbn [fw_send_loop]; cbv zeta.
  destruct (Z.ltb_spec sent (zlen data)) as [Hlt|Hge].
  2:{ exists [], []; rewrite !app_nil_r; split; [done|split; [done|left; split; [done|split; [done|]]]]; cbn [loads]; apply zdrop_all; lia. }
  destruct (fw_chunk_bounds (zlen data - sent) ltac:(lia)) as [[Hc1 Hc2] Hc3]; set (chunk := fw_chunk (zlen data - sent)) in *.
  assert (Hzl : zlen (zslice sent chunk data) = chunk) by (unfold zslice; rewrite zlen_take; [done|rewrite zlen_drop; lia]).
  destruct (fw_packet_parts (u32 (addr + sent)) (zslice sent chunk data) (u32_range _) ltac:(lia)) as (P1 & P2 & P3 & P4).
  rewrite Hzl in P1, P2, P3, P4; fold (fw_packet chunk (u32 (addr + sent)) (zslice sent chunk data)).
  set (pkt := fw_packet chunk _ _) in *; rewrite bind_run; pose proof (do_write_spec pkt t Hb) as Hw.
  destruct (artosyn_do_write pkt t) as [r t1]; cbn [fst snd] in *; destruct Hw as (Eb & _ & Hw).
  assert (Hdrop : zdrop sent data = zslice sent chunk data ++ zdrop (sent + chunk) data).
  { rewrite <- zdrop_zdrop by lia; unfold zslice; by rewrite ztake_drop. }
  destruct (Z.eqb_spec r (chunk + SDIO_BOOT_PKG_HEADER_SIZE)) as [Hr|Hr]; cbn [negb].
  - destruct Hw as [(_ & Hf1 & _)|[Hn _]]; [|destruct HB as [Hh _ _ _]; rewrite Hh in *; lia].
    destruct (IH (sent + chunk) t1 ltac:(by rewrite Eb) ltac:(lia) ltac:(lia)) as (pkts & tail & Ef & Eb2 & Hres).
    assert (Ht : ztake r pkt = pkt) by (apply ztake_all; lia); rewrite Ht in Hf1.
    assert (Hu : u32 (u32 (addr + sent) + zlen (pkt_data pkt)) = u32 (addr + (sent + chunk))).
    { rewrite P4, Hzl; unfold u32; rewrite Zplus_mod_idemp_l; f_equal; lia. }
    exists (pkt :: pkts), tail; split; [by rewrite Ef, Hf1, <- !app_assoc|split; [by rewrite Eb2|]].
    destruct Hres as [(E1 & E2 & E3)|(E1 & El & part & rest & E2 & E3 & E4)]; [left|right].
    + split; [done|split; [done|]]; cbn [loads]; rewrite Hu; split; [done|split; [by rewrite P4, Hzl|]].
      exists (zdrop (sent + chunk) data); by rewrite P4.
    + split; [done|split; [done|]]; exists (zslice sent chunk data ++ part), rest; split; [by rewrite Hdrop, E2, app_assoc|split; [done|]].
      cbn [loads]; rewrite Hu; split; [done|split; [by rewrite P4, Hzl|]]; exists part; by rewrite P4.
  - destruct Hw as [(_ & Hf1 & _)|[_ Hf1]]; [exists [], [ztake r pkt]|exists [], []]; cbn [mret M_ret fst snd app];
      (split; [by rewrite ?app_nil_r|split; [done|right; split; [done|split; [cbn; lia|]]]]); exists [], (zdrop sent data); (split; [done|split; [|done]]);
      intros E; apply (f_equal zlen) in E; rewrite zlen_drop in E by lia; change (zlen (@nil Z)) with 0 in E; lia.
Qed.

Definition done_packet : list Z :=
  ztake SDIO_BOOT_PKG_HEADER_SIZE ([ARTOSDIO_MAGIC_HEADER_1; ARTOSDIO_MAGIC_HEADER_2] ++ replicate (Z.to_nat (SDIO_BOOT_PKG_HEADER_SIZE - 2)) 0).

(** An empty part is the packet that ends the download. *)
Definition part_sent (data : list Z) (addr : Z) (pkts : list (list Z)) : Prop :=
  if zlen data =? 0 then pkts = [done_packet] else loads (u32 addr) pkts data.

(** A part whose transfer failed: its beginning without a gap, and at most one
    packet that did not go out whole. *)
Definition part_begun (data : list Z) (addr : Z) (pkts : list (list Z)) : Prop :=
  exists good tail part rest, pkts = good ++ tail /\ (length tail <= 1)%nat /\ data = part ++ rest /\ loads (u32 addr) good part.

Lemma fw_send_chunk_spec data addr t :
  0 < sd_blksize (D t) ->
  let r := artosyn_fw_send_chunk data addr t in
  exists pkts, fifo (Dw r.2) = fifo (Dw t) ++ pkts /\ sd_blksize (D r.2) = sd_blksize (D t) /\
    (r.1 = 0 -> part_sent data addr pkts) /\ (r.1 <> 0 -> part_begun data addr pkts).
Proof using HF HB.
  assert (Hone : forall tail, (length tail <= 1)%nat -> part_begun data addr tail)
    by (intros tail Hl; exists [], tail, [], data; by split_and!).
  intros Hb; unfold artosyn_fw_send_chunk, part_sent; destruct (Z.eqb_spec (zlen data) 0) as [Hz|Hz]; cbv zeta; rewrite bind_run.
  - fold done_packet; pose proof (do_write_spec done_packet t Hb) as Hw; destruct (artosyn_do_write done_packet t) as [r t1].
    cbn [fst snd mret M_ret] in *; destruct Hw as (Eb & _ & Hw).
    assert (Hl : zlen done_packet = SDIO_BOOT_PKG_HEADER_SIZE) by (destruct HB as [Hh _ _ _]; unfold done_packet; by rewrite Hh).
    destruct Hw as [(_ & Hf & _)|[Hn Hf]].
    + exists [ztake r done_packet]; split; [done|split; [done|]]; split; [|intros _; by apply Hone].
      destruct (Z.eqb_spec r SDIO_BOOT_PKG_HEADER_SIZE); [|done]; intros _; by rewrite ztake_all by lia.
    + exists []; rewrite app_nil_r; split; [done|split; [done|]]; split; [|intros _; apply Hone; cbn; lia].
      destruct HB as [Hh _ _ _]; rewrite Hh; by destruct (Z.eqb_spec r 12); [lia|].
  - destruct (silent_env fifo (kalloc SDIO_BOOT_ONESHOT_MAX_SIZE) (fun w => quiet_kalloc _ w) t) as (E1 & E2 & _).
    set (t1 := (envD _ t).2) in *; destruct (negb _); [exists []; rewrite app_nil_r; split; [done|split; [done|split; [done|intros _; apply Hone; cbn; lia]]]|].
    rewrite bind_run; pose proof (zlen_nonneg data).
    destruct (fw_send_loop_spec (S (length data)) data addr 0 t1 ltac:(by rewrite E2) ltac:(lia) ltac:(unfold zlen; lia))
      as (pkts & tail & Ef & Eb & Hres).
    destruct (fw_send_loop _ _ _ _ t1) as [r t2]; cbn [fst snd mret M_ret] in *; exists (pkts ++ tail).
    split; [by rewrite Ef, E1|split; [by rewrite Eb|]]; destruct Hres as [(-> & -> & Hl)|(-> & Hl & part & rest & Ep & _ & Hg)].
    + rewrite zdrop_0, Z.add_0_r in Hl; rewrite app_nil_r; by split.
    + split; [done|intros _]; rewrite zdrop_0, Z.add_0_r in *; by exists pkts, tail, part, rest.
Qed.

(** Where the image has its first part, the signature behind that, and its main
    part. *)
Definition troot_offset (hdr : spl_header) : Z := u32 (ROUNDUP (header_len hdr) SPL_IMAGE_SIZE_ALIGN).
Definition signature_offset (hdr : spl_header) : Z := u32 (troot_offset hdr + ROUNDUP (troot_len hdr) SPL_IMAGE_SIZE_ALIGN).
Definition spl_offset (hdr : spl_header) : Z :=
  if troot_len hdr =? 0 then troot_offset hdr else u32 (signature_offset hdr + ROUNDUP (signature_len hdr) SPL_IMAGE_SIZE_ALIGN).

(** A part that was sent, whole or - which is only printed - not. *)
Definition part_tried (data : list Z) (addr : Z) (pkts : list (list Z)) : Prop := part_sent data addr pkts \/ part_begun data addr pkts.

Definition troot_tried (fw : list Z) (hdr : spl_header) (tp gp : list (list Z)) : Prop :=
  if troot_len hdr =? 0 then tp = [] /\ gp = []
  else part_tried (image_at fw (troot_offset hdr) (troot_len hdr)) (troot_load_addr hdr) tp /\
       part_tried (image_at fw (signature_offset hdr) (signature_len hdr)) (signature_load_addr hdr) gp.

Lemma fw_send_chunk_tried data addr t :
  0 < sd_blksize (D t) ->
  let r := artosyn_fw_send_chunk data addr t in
  exists pkts, fifo (Dw r.2) = fifo (Dw t) ++ pkts /\ sd_blksize (D r.2) = sd_blksize (D t) /\ part_tried data addr pkts.
Proof using HF HB.
  intros Hb r; destruct (fw_send_chunk_spec data addr t Hb) as (pkts & F & B & P1 & P2); fold r in F, B, P1, P2; exists pkts; split_and!; [done..|].
  destruct (decide (r.1 = 0)); [left|right]; auto.
Qed.

Lemma send_troot_spec fw hdr t :
  0 < sd_blksize (D t) ->
  let r := send_troot fw hdr (troot_offset hdr) t in
  exists tp gp, fifo (Dw r.2) = fifo (Dw t) ++ tp ++ gp /\ sd_blksize (D r.2) = sd_blksize (D t) /\ r.1 = spl_offset hdr /\ troot_tried fw hdr tp gp.
Proof using HF HB.
  intros Hb; unfold send_troot, spl_offset, troot_tried; destruct (Z.eqb_spec (troot_len hdr) 0) as [Hz|Hz]; cbv zeta.
  - exists [], []; by rewrite app_nil_r.
  - fold (signature_offset hdr); rewrite bind_run.
    destruct (fw_send_chunk_tried (image_at fw (troot_offset hdr) (troot_len hdr)) (troot_load_addr hdr) t Hb) as (p2 & F2 & B2 & P2).
    set (t2 := (artosyn_fw_send_chunk _ _ t).2) in *; rewrite bind_run.
    destruct (fw_send_chunk_tried (image_at fw (signature_offset hdr) (signature_len hdr)) (signature_load_addr hdr) t2 ltac:(by rewrite B2))
      as (p3 & F3 & B3 & P3); cbn [mret M_ret fst snd].
    exists p2, p3; rewrite F3, F2, <- app_assoc; split_and!; [done|by rewrite B3, B2|done..].
Qed.

Lemma send_cfg_spec hdr cfg t :
  0 < sd_blksize (D t) ->
  let r := send_cfg hdr cfg t in
  exists cp, fifo (Dw r.2) = fifo (Dw t) ++ cp /\ sd_blksize (D r.2) = sd_blksize (D t) /\
    (r.1 = 0 -> match cfg with Some c => part_sent c (signature_load_addr hdr) cp | None => cp = [] end).
Proof using HF HB.
  intros Hb; destruct cfg as [c|]; [|exists []; by rewrite app_nil_r].
  destruct (fw_send_chunk_spec c (signature_load_addr hdr) t Hb) as (cp & F & B & P & _); by exists cp.
Qed.

(** C32. A download that succeeds has told the boot ROM to load the image's
    header, its main part and the configuration, each whole, from where the image
    has it - behind the first part and the signature, each rounded up to the
    alignment - to where the image says, without gaps and in packets whose length
    fields are right, and has ended with the packet that starts the firmware.
    Between header and main part it has sent the first part and the signature if
    the image has them, each whole or, when that failed, which is ignored, a
    beginning of it. *)
Theorem firmware_loaded cfg_name fw cfg t t' :
  0 < sd_blksize (D t) ->
  artosyn_download_firmware true cfg_name (inr fw) cfg t = (0, t') ->
  let hdr := spl_of fw in
  exists hp tp gp sp cp,
    fifo (Dw t') = fifo (Dw t) ++ hp ++ tp ++ gp ++ sp ++ cp ++ [done_packet] /\
    part_sent (image_at fw 0 (header_len hdr)) SPL_HEADER_LOAD_ADDR hp /\
    troot_tried fw hdr tp gp /\
    part_sent (image_at fw (spl_offset hdr) (spl_len hdr)) (spl_load_addr hdr) sp /\
    match cfg with
    | inr c => if cfg_name then part_sent c (signature_load_addr hdr) cp else cp = []
    | inl _ => cp = []
    end.
Proof using HF HB.
  intros Hb E hdr; unfold artosyn_download_firmware in E; cbn [negb] in E; fold hdr in E.
  fold (troot_offset hdr) in E; rewrite bind_run in E.
  destruct (fw_send_chunk_spec (image_at fw 0 (header_len hdr)) SPL_HEADER_LOAD_ADDR t Hb) as (hp & F1 & B1 & P1 & _).
  destruct (artosyn_fw_send_chunk (image_at fw 0 (header_len hdr)) SPL_HEADER_LOAD_ADDR t) as [r1 t1]; cbn [fst snd] in *.
  destruct (Z.eqb_spec r1 0) as [->|Hr1]; cbn [negb] in E; [|by injection E].
  rewrite bind_run in E; destruct (send_troot_spec fw hdr t1 ltac:(by rewrite B1)) as (tp & gp & F2 & B2 & Eo & Hm).
  destruct (send_troot fw hdr (troot_offset hdr) t1) as [off t2]; cbn [fst snd] in *; subst off; rewrite bind_run in E.
  destruct (fw_send_chunk_spec (image_at fw (spl_offset hdr) (spl_len hdr)) (spl_load_addr hdr) t2 ltac:(by rewrite B2, B1)) as (sp & F3 & B3 & P3 & _).
  destruct (artosyn_fw_send_chunk (image_at fw (spl_offset hdr) (spl_len hdr)) (spl_load_addr hdr) t2) as [r3 t3]; cbn [fst snd] in *.
  destruct (Z.eqb_spec r3 0) as [->|Hr3]; cbn [negb] in E; [|by injection E]; rewrite bind_run in E.
  set (c := if cfg_name then _ else _) in E.
  destruct (send_cfg_spec hdr c t3 ltac:(by rewrite B3, B2, B1)) as (cp & F4 & B4 & P4).
  destruct (send_cfg hdr c t3) as [r4 t4]; cbn [fst snd] in *.
  destruct (Z.eqb_spec r4 0) as [->|Hr4]; cbn [negb] in E; [|by injection E].
  destruct (fw_send_chunk_spec [] 0 t4 ltac:(by rewrite B4, B3, B2, B1)) as (dp & F5 & _ & P5 & _); rewrite E in F5, P5; cbn [fst snd] in *.
  exists hp, tp, gp, sp, cp; split; [rewrite F5, F4, F3, F2, F1, <- !app_assoc; by rewrite (P5 eq_refl : dp = [done_packet])|].
  split; [by apply P1|split; [done|split; [by apply P3|]]]; specialize (P4 eq_refl); unfold c in P4; by destruct cfg_name, cfg.
Qed.
End boot.
