(* ===== verification/KmodDemo.v ===== *)
(** A pair of hosts on which the theorems on [kmod/artosyn_net.c] are used, and a
    chip for those on [kmod/artosyn_sdio.c]. *)

From S2P Require Import Prelude Monad KmodNet KmodPath KmodLink KmodQueue KmodSdio KmodCdev KmodBoot.
#[local] Open Scope Z_scope.

(** The FIFO's writes, and what the stack was given. *)
Record wire := mk_wire { w_sent : list (list Z); w_up : list (list Z) }.

Definition demo_headers : NetHeaders := {| ETH_HLEN := 14; SDIO_DEVICE_BLOCK_SIZE := 512 |}.
Definition demo_io : NetIo wire := {|
  KmodNet.artosyn_write_all b w := (0, mk_wire (w_sent w ++ [b]) (w_up w));
  alloc _ w := (true, w);
  netif_rx p w := mk_wire (w_sent w) (w_up w ++ [p]);
  netif_running w := (true, w);
  adev_removed w := (false, w);
  adev_rx_error w := w
|}.
#[local] Existing Instance demo_headers.
#[local] Existing Instance demo_io.

Definition demo_host : netst wire := mk_netst (mk_knet 0 7 0 0 true 0 0 [] false false true [] nc_zero ns_zero) (mk_wire [] []).
Definition demo_pkts : list (list Z) := [replicate 20 1; replicate 600 2; replicate 14 3].
Definition demo_stream : list Z := concat (dgram <$> demo_pkts).

(** The stream in three reads cut inside packets, with a write's reply, padding,
    a frame of another socket and a leftover. *)
Definition demo_transfers : list (list rx_item * list Z) := [
  ([Mine SO_READ 1 0 (ztake 11 demo_stream); Pad; Pad; Mine SO_WRITE 2 SO_STA_PENDING (le_enc 8 27 ++ le_enc 8 0)], [0x55; 1; 2]);
  ([Pad; Theirs 0x04020003 9 0 [1; 2; 3]; Mine SO_READ 3 0 (zslice 11 500 demo_stream)], replicate 30 0x11);
  ([Mine SO_READ 4 0 (zdrop 511 demo_stream)], [])].

#[local] Ltac decided := vm_compute; repeat apply conj; first [reflexivity|discriminate|exact I].
#[local] Ltac each := repeat apply Forall_cons_2; try apply Forall_nil_2.

Lemma demo_transfers_ok : Forall (transfer_ok (N demo_host)) demo_transfers.
Proof.
  unfold demo_transfers; each; refine (conj _ (conj _ (conj _ (conj _ _)))); cbn [fst snd]; try discriminate; try (each; decided); try decided.
  - right; decided.
  - right; decided.
  - left; decided.
Qed.

Lemma demo_pkts_ok : Forall frame_ok demo_pkts.
Proof.
  unfold demo_pkts; each; refine (conj (conj _ _) _); try decided;
    apply list.Forall_forall; intros x [-> _]%elem_of_replicate; decided.
Qed.

Lemma demo_id : id_ok (N demo_host).
Proof. split; decided. Qed.

Lemma packets_cross_witness :
  w_up (Nw (receive (bytes_of (N demo_host) <$> demo_transfers) demo_host).2) = demo_pkts.
Proof.
  assert (E := @packets_cross wire demo_headers demo_io w_sent w_up (fun _ _ => eq_refl) (fun _ => eq_refl) (fun _ _ => eq_refl)
    (fun _ _ => conj eq_refl eq_refl) demo_pkts demo_transfers demo_host demo_host eq_refl eq_refl).
  specialize (E ltac:(decided) eq_refl demo_id eq_refl demo_pkts_ok demo_transfers_ok); cbv zeta in E.
  destruct E as (ws & E & _ & _ & _ & Hr).
  apply Hr; change (w_sent (Nw demo_host) ++ ws) with ws in E; rewrite <- E; vm_compute; reflexivity.
Defined.

(** A transfer of no sense at all. *)
Definition demo_noise : list Z := rpc_frame (so_reqid (N demo_host) SO_READ) 0 0 ([DGRAM_HEAD; 1; 2] ++ replicate 40 DGRAM_HEAD).

Lemma reassembly_bounded_witness : short (kn_rxbuf (N (artosyn_net_rx demo_noise demo_host).2)).
Proof.
  apply (reassembly_bounded demo_noise demo_host).
  - apply (bool_decide_unpack _); vm_compute; exact I.
  - vm_compute; reflexivity.
  - split; [apply Forall_nil_2|vm_compute; reflexivity].
Defined.

Lemma demo_rest t : kn_work (N t) = false -> forall s2, ~ inner (mk_txst t X_out W_out) s2.
Proof. intros Hw s2 Hs; inversion Hs; congruence. Qed.

(** One packet, and the worker's whole run. *)
Lemma queue_drains_witness : exists n s', inner_steps n (mk_txst (artosyn_net_xmit [1; 2; 3] demo_host).2 X_out W_out) s' /\ at_rest s'.
Proof.
  destruct (xmit_steps [1; 2; 3] demo_host W_out eq_refl) as (s1 & s2 & H1 & H2 & H3).
  destruct (work_steps (artosyn_net_xmit [1; 2; 3] demo_host).2 X_out eq_refl) as [n Hn].
  exists n; eexists; split; [exact Hn|].
  apply (queue_drains demo_host (mk_txst (artosyn_net_xmit [1; 2; 3] demo_host).2 X_out W_out) n); [done|done| |exact Hn|].
  - eapply re_inner; [eapply re_inner; [eapply re_packet; [apply re_start|exact H1]|exact H2]|exact H3].
  - by apply demo_rest.
Defined.

(** ** A chip for [kmod/artosyn_sdio.c] *)

(** Transfers waiting in the chip, what was left for the daemon, the FIFO's log,
    and the errors of the next writes. *)
Record chip := mk_chip { ch_rx : list (list Z); ch_given : list (list Z); ch_fifo : list (list Z); ch_err : list Z }.

Definition chip_headers : SdioHeaders := {|
  SDIO_TRANS_MAX_SZIE := 2048; SDIO_MAILBOX_CHANNEL_COUNT := 2; SDIO_BOOT_ONESHOT_MAX_SIZE := 2048; SDIO_BOOT_PKG_HEADER_SIZE := 12;
  ARTOSDIO_MAGIC_HEADER_1 := 0x53; ARTOSDIO_MAGIC_HEADER_2 := 0x44 |}.

(** Transfers of one block; the transmit window is always announced with them. *)
Definition chip_readb (r : Z) (w : chip) : (Z * Z) * chip :=
  if r =? REG_IRQ_STATUS then ((if ch_rx w is [] then 0 else 0x10, 0), w)
  else if r =? REG_MAILBOX_ENABLE then ((Z.lor MB_EVT_RX_READY MB_EVT_TX_READY, 0), w)
  else ((1, 0), w).

Definition chip_io : SdioIo chip := {|
  sdio_readb := chip_readb;
  sdio_writeb _ _ w := (0, w);
  sdio_f0_readb _ w := ((0, 0), w);
  sdio_f0_writeb _ _ w := (0, w);
  sdio_memcpy_toio b w := match ch_err w with
    | [] => (0, mk_chip (ch_rx w) (ch_given w) (ch_fifo w ++ [b]) [])
    | e :: es => (if e =? 0 then 0 else - EIO, mk_chip (ch_rx w) (ch_given w) (ch_fifo w ++ if e =? 0 then [b] else []) es)
    end;
  sdio_memcpy_fromio n w := ((0, hd [] (ch_rx w)), mk_chip (tl (ch_rx w)) (ch_given w) (ch_fifo w) (ch_err w));
  kalloc _ w := (true, w);
  net_rx p w := (Some (ztake 100 p), mk_chip (ch_rx w) (ch_given w ++ [ztake 100 p]) (ch_fifo w) (ch_err w));
  irq_turns w := (2%nat, w);
  unplugged w := (false, w);
  signal_pending w := (false, w)
|}.
#[local] Existing Instance demo_headers.
#[local] Existing Instance chip_headers.
#[local] Existing Instance chip_io.

Lemma chip_quiet {A} (obs : chip -> A) :
  (forall w, obs (mk_chip (tl (ch_rx w)) (ch_given w) (ch_fifo w) (ch_err w)) = obs w) -> SdioQuiet obs.
Proof.
  intros Hrx; split; intros; try done; cbn [sdio_readb chip_io]; unfold chip_readb; [|apply Hrx].
  destruct (r =? REG_IRQ_STATUS); [done|]; by destruct (r =? REG_MAILBOX_ENABLE).
Qed.

#[local] Instance chip_given_log : GivenLog ch_given.
Proof. split; [by apply chip_quiet| |done]; intros b w; cbn [sdio_memcpy_toio chip_io]; by destruct (ch_err w) as [|e es]. Qed.

#[local] Instance chip_fifo_log : FifoLog ch_fifo.
Proof.
  split; [by apply chip_quiet|done|]; intros b w; cbn [sdio_memcpy_toio chip_io]; destruct (ch_err w) as [|e es]; [done|].
  cbn [fst snd ch_fifo]; by destruct (e =? 0).
Qed.

#[local] Instance chip_boot : BootSane.
Proof. split; done. Qed.

Definition demo_dev (net rom : bool) : sdev := mk_sdev false rom 0 0 false 0 0 [0; 0] [false; false] net [] 0 1 0 0 0 0 0 512.
Definition demo_chip : sdst chip := mk_sdst (demo_dev true false) (mk_chip [replicate 512 1; replicate 512 2; replicate 512 3] [] [] []).

Lemma daemon_stream_witness :
  let r := daemon_reads [(70, true); (10, false); (1000, true)] demo_chip in
  exists new kept, ch_given (Dw r.2) = new /\ sublist kept new /\
    u64 (sd_rx_drops (D r.2)) = u64 (Z.of_nat (length new - length kept)) /\ concat kept = r.1 ++ concat (sd_rxq (D r.2)).
Proof.
  apply (daemon_stream ch_given [(70, true); (10, false); (1000, true)] demo_chip).
  repeat apply Forall_cons_2; try apply Forall_nil_2; cbn [fst]; lia.
Defined.

Lemma queue_accounted_witness :
  accounted (mfor run_op [Op_irq; Op_poll; Op_read 30 true; Op_ioctl (READ_MESSAGE [true; true] [0; 0]) true true; Op_release true] demo_chip).2.
Proof.
  apply queue_accounted.
  - intros p w; cbn [net_rx chip_io fst]; unfold zlen, ztake; pose proof (firstn_le_length (Z.to_nat 100) p); lia.
  - repeat apply Forall_cons_2; try apply Forall_nil_2; cbn [op_ok]; try exact I; lia.
  - split; vm_compute; [reflexivity|discriminate].
Defined.

(** Events enough to open the window again and again. *)
Definition busy_chip : sdst chip := mk_sdst (demo_dev true false) (mk_chip (replicate 20 (replicate 512 1)) [] [] []).

Lemma write_all_exact_witness :
  exists pieces, ch_fifo (Dw (artosyn_write_all 9 (replicate 700 7) busy_chip).2) = pieces /\
    Forall (fits 512) pieces /\ concat pieces = replicate 700 7.
Proof.
  destruct (write_all_exact ch_fifo (eq_refl : 0 < @SDIO_TRANS_MAX_SZIE chip_headers) 9 (replicate 700 7) busy_chip ltac:(reflexivity)) as (ps & E1 & E2 & E3).
  exists ps; split; [exact E1|split; [exact E2|]].
  assert (E : (artosyn_write_all 9 (replicate 700 7) busy_chip).1 = Some 0) by (vm_compute; reflexivity).
  rewrite E in E3; exact (proj2 E3).
Defined.

(** An image with a first part and a signature of one block each. *)
Definition demo_image : list Z :=
  le_enc 4 0 ++ le_enc 2 0 ++ le_enc 2 48 ++ replicate 16 0 ++ le_enc 4 0x300000 ++ le_enc 4 600 ++ le_enc 4 0x310000 ++ le_enc 4 20 ++
  le_enc 4 0x320000 ++ le_enc 4 30 ++ replicate 464 0 ++ replicate 512 1 ++ replicate 512 2 ++ replicate 1024 3.
Definition boot_chip (errs : list Z) : sdst chip := mk_sdst (demo_dev false true) (mk_chip [] [] [] errs).

Lemma firmware_loaded_witness :
  let r := artosyn_download_firmware true true (inr demo_image) (inr [1; 2; 3]) (boot_chip []) in
  exists hp tp gp sp cp, ch_fifo (Dw r.2) = hp ++ tp ++ gp ++ sp ++ cp ++ [done_packet] /\
    part_sent (image_at demo_image 0 48) SPL_HEADER_LOAD_ADDR hp /\
    part_sent (image_at demo_image (512 + 512 + 512) 600) 0x300000 sp /\ part_sent [1; 2; 3] 0x320000 cp.
Proof.
  set (r := artosyn_download_firmware true true (inr demo_image) (inr [1; 2; 3]) (boot_chip [])).
  assert (E : r.1 = 0) by (vm_compute; reflexivity).
  destruct (firmware_loaded ch_fifo true demo_image (inr [1; 2; 3]) (boot_chip []) r.2 ltac:(reflexivity)
    (eq_trans (surjective_pairing r) (f_equal (fun x => (x, r.2)) E))) as (hp & tp & gp & sp & cp & E1 & E2 & _ & E4 & E5).
  exists hp, tp, gp, sp, cp; split; [exact E1|split; [exact E2|split; [exact E4|exact E5]]].
Defined.

(** A first part that could not be written: the download goes on, and succeeds. *)
Lemma troot_failure_ignored :
  let r := artosyn_download_firmware true false (inr demo_image) (inl 0) (boot_chip [0; 1]) in
  r.1 = 0 /\ existsb (fun p => pkt_addr p =? 0x310000) (ch_fifo (Dw r.2)) = false.
Proof. by vm_compute. Qed.

(** An empty configuration ends the download twice, an empty signature before the
    main part is sent. *)
Lemma empty_part_ends : forall addr t, ch_err (Dw t) = [] -> sd_removed (D t) = false -> sd_rom_mode (D t) = true -> sd_blksize (D t) = 512 ->
  ch_rx (Dw t) = [] -> ch_fifo (Dw (artosyn_fw_send_chunk [] addr t).2) = ch_fifo (Dw t) ++ [done_packet].
Proof. intros addr [[] []] ? ? ? ? ?; cbn in *; by subst. Qed.
