(* ===== verification/KmodProbe.v ===== *)
(** The kernel driver coming and going: [artosyn_probe] and [artosyn_remove] of
    [kmod/artosyn_sdio.c], [artosyn_net_probe] and [artosyn_net_remove] of
    [kmod/artosyn_net.c].  Everything they take from the kernel is given back
    when the probe fails or the card goes. *)

From S2P Require Import Prelude Monad KmodNet KmodSdio KmodDemo.
#[local] Open Scope Z_scope.

Definition ARTO_ROMCODE_VID : Z := 0x4152.
Definition ARTO_ROMCODE_PID : Z := 0x8030.
Definition ARTO_RTOS_VID : Z := 0x1d6b.
Definition ARTO_RTOS_PID : Z := 0x8030.
Definition ARTO_RTOS_ALT_VID : Z := 0x4152.
Definition ARTO_RTOS_ALT_PID : Z := 0x8031.
Definition REG_INT_ENABLE : Z := 0x14.

(** [artosyn_ids]: the functions the driver is probed for. *)
Definition artosyn_ids : list (Z * Z) :=
  [(ARTO_ROMCODE_VID, ARTO_ROMCODE_PID); (ARTO_RTOS_VID, ARTO_RTOS_PID); (ARTO_RTOS_ALT_VID, ARTO_RTOS_ALT_PID)].

Definition is_rtos_id (vendor device : Z) : bool := negb ((vendor =? ARTO_ROMCODE_VID) && (device =? ARTO_ROMCODE_PID)).

(** What is taken: [struct artosyn_dev], [rx_scratch], the function's driver
    data, the SDIO host, the enabled function, its interrupt, the device file; the
    two firmware files; the net_device, [tx_stage], [rxbuf], the workqueue and the
    registration of the interface. *)
Inductive holding :=
  | H_dev | H_scratch | H_drvdata | H_host | H_func | H_irq | H_misc | H_fw | H_cfg | H_ndev | H_stage | H_rxbuf | H_wq | H_netdev.
#[export] Instance holding_eq_dec : EqDecision holding.
Proof. solve_decision. Defined.

(** [acquire h]: [kzalloc], [sdio_enable_func], [misc_register] and so on of [h],
    0 when it worked; [release h]: [kfree], [sdio_disable_func] and so on.  The
    file of [request_firmware]; whether the interface is up when it is
    unregistered, whether the last reader has left, and a random MAC. *)
Class DriverCore (W : Type) := {
  acquire : holding -> W -> Z * W;
  release : holding -> W -> W;
  firmware_of : holding -> W -> list Z * W;
  iff_up : W -> bool * W;
  readers_left : W -> bool * W;
  eth_hw_addr_random : W -> list Z * W
}.

(** The module's parameters: the files' names given or not, [native_net], those
    of the network device, and [net_mac] as [mac_pton] reads it, with whether it is
    a valid address. *)
Record mod_params := mk_mp { mp_fw_name : bool; mp_cfg_name : bool; mp_native_net : bool; mp_net : net_params; mp_mac : option (list Z * bool) }.

(** One function's device: [struct artosyn_dev] with the world, its network
    device and that one's address, and whether [g_dev] is this device. *)
Record card (W : Type) := mk_card { cd : sdst W; cd_net : option knet; cd_mac : list Z; cd_live : bool }.
Arguments mk_card {W} cd cd_net cd_mac cd_live.
Arguments cd {W} _.
Arguments cd_net {W} _.
Arguments cd_mac {W} _.
Arguments cd_live {W} _.

Section driver.
Context {W : Type} {HN : NetHeaders} {HS : SdioHeaders} {HI : SdioIo W} {HO : NetIo W} {HD : DriverCore W}.

#[local] Abbreviation Mk := (M (card W)).

Definition onD {A} (m : M (sdst W) A) : Mk A := fun c => let '(a, t) := m (cd c) in (a, mk_card t (cd_net c) (cd_mac c) (cd_live c)).
Definition core {A} (m : W -> A * W) : Mk A := onD (envD m).
Definition obtain (h : holding) : Mk Z := core (acquire h).
Definition give (h : holding) : Mk unit := core (fun w => (tt, release h w)).
Definition set_live (live : bool) : Mk unit := fun c => (tt, mk_card (cd c) (cd_net c) (cd_mac c) live).
Definition set_net (net : option knet) : Mk unit := fun c => (tt, mk_card (cd c) net (cd_mac c) (cd_live c)).
Definition set_mac (mac : list Z) : Mk unit := fun c => (tt, mk_card (cd c) (cd_net c) mac (cd_live c)).

(** Claiming the host once the interrupt is ours. *)
Definition claim_host : Mk unit := onD sdio_claim_host ;; _ ← obtain H_host; mret tt.

(** ** The network device *)

Definition artosyn_net_set_mac (p : mod_params) : Mk unit :=
  match mp_mac p with
  | Some (mac, true) => set_mac mac
  | _ => mac ← core eth_hw_addr_random; set_mac mac
  end.

(** [err_free]; the pointers that are not set are [NULL]. *)
Definition net_free (stage rxbuf : bool) : Mk unit := when rxbuf (give H_rxbuf) ;; when stage (give H_stage) ;; give H_ndev.

Definition artosyn_net_probe (p : mod_params) : Mk Z :=
  let pa := mp_net p in
  if (0xff <? net_slot pa) || (0xff <? net_port pa) then mret (- EINVAL)
  else
    ret ← obtain H_ndev;
    if negb (ret =? 0) then mret (- ENOMEM)
    else
      let net := net_probe_state pa in
      stage ← obtain H_stage;
      rxbuf ← obtain H_rxbuf;
      if negb (stage =? 0) || negb (rxbuf =? 0) then net_free (stage =? 0) (rxbuf =? 0) ;; mret (- ENOMEM)
      else
        wq ← obtain H_wq;
        if negb (wq =? 0) then net_free true true ;; mret (- ENOMEM)
        else
          artosyn_net_set_mac p ;;
          ret ← obtain H_netdev;
          if negb (ret =? 0) then give H_wq ;; net_free true true ;; mret ret
          else
            claim_host ;;
            set_net (Some net) ;;
            give H_host ;;
            mret 0.

(** [unregister_netdev] takes the interface down when it is up; behind that the
    queue is empty and the worker has nothing to do. *)
Definition unregister_netdev (net : knet) : Mk unit :=
  up ← core iff_up;
  when up (onD (envD (fun w => let '(_, t) := artosyn_net_stop (mk_netst net w) in (tt, Nw t)))) ;;
  give H_netdev.

Definition artosyn_net_remove : Mk unit := fun c =>
  match cd_net c with
  | None => (tt, c)
  | Some net => (unregister_netdev net ;; claim_host ;; set_net None ;; give H_host ;; give H_wq ;; give H_rxbuf ;; give H_stage ;; give H_ndev) c
  end.

(** ** The SDIO function *)

(** [artosyn_download_firmware] with the files around it. *)
Definition download_firmware (p : mod_params) : Mk Z :=
  if negb (mp_fw_name p) then mret (- EINVAL)
  else
    ret ← obtain H_fw;
    if negb (ret =? 0) then mret ret
    else
      fw ← core (firmware_of H_fw);
      cfg ← (if mp_cfg_name p then obtain H_cfg else mret (-1));
      image ← (if cfg =? 0 then f ← core (firmware_of H_cfg); mret (inr f) else mret (inl cfg));
      ret ← onD (artosyn_download_firmware true (mp_cfg_name p) (inr fw) image);
      when (cfg =? 0) (give H_cfg) ;;
      give H_fw ;;
      mret ret.

(** [kzalloc]ed, on a function of this block size. *)
Definition sdev_zero (blksize : Z) (net_mode : bool) : sdev :=
  mk_sdev false false 0 0 false 0 0 (replicate SDIO_MAILBOX_CHANNEL_COUNT 0) (replicate SDIO_MAILBOX_CHANNEL_COUNT false) net_mode [] 0 0 0 0 0 0 0 blksize.

(** The labels at the end: [err_release_host], [err_disable_func] and
    [err_claim_host_for_cleanup] fall through to the next. *)
Definition err_release_host (scratch : bool) (ret : Z) : Mk Z :=
  give H_host ;; give H_drvdata ;; when scratch (give H_scratch) ;; give H_dev ;; mret ret.
Definition err_disable_func (scratch : bool) (ret : Z) : Mk Z := give H_func ;; err_release_host scratch ret.
Definition err_claim_host_for_cleanup (scratch : bool) (ret : Z) : Mk Z := claim_host ;; give H_irq ;; err_disable_func scratch ret.

(** From [sdio_set_drvdata] on. *)
Definition probe_device (p : mod_params) (rtos scratch : bool) : Mk Z :=
  _ ← obtain H_drvdata;
  _ ← obtain H_host;
  ret ← obtain H_func;
  if negb (ret =? 0) then err_release_host scratch ret
  else
    ret ← obtain H_irq;
    if negb (ret =? 0) then err_disable_func scratch ret
    else
      _ ← core (sdio_writeb 1 REG_INT_ENABLE);
      _ ← core (sdio_writeb 0xf0 REG_MAILBOX_ENABLE);
      give H_host ;;
      ret ← obtain H_misc;
      if negb (ret =? 0) then err_claim_host_for_cleanup scratch ret
      else if rtos then
        set_live true ;;
        (if scratch then _ ← artosyn_net_probe p; mret tt else mret tt) ;;
        mret 0
      else
        onD (updD (fun s => s <| sd_rom_mode := true |>)) ;;
        ret ← download_firmware p;
        onD (updD (fun s => s <| sd_rom_mode := false |>)) ;;
        if negb (ret =? 0) then give H_misc ;; err_claim_host_for_cleanup scratch ret
        else set_live true ;; mret 0.

(** The result, and the device, which is meaningless without one; [rx_scratch]
    says that the device is in [net_mode]. *)
Definition artosyn_probe (p : mod_params) (vendor device blksize : Z) (w : W) : Z * card W :=
  let '(ret, w) := acquire H_dev w in
  let none w := mk_card (mk_sdst (sdev_zero blksize false) w) None [] false in
  if negb (ret =? 0) then (- ENOMEM, none w)
  else
    let rtos := is_rtos_id vendor device in
    let '(scratch, w) := if mp_native_net p && rtos then let '(ret, w) := acquire H_scratch w in (ret =? 0, w) else (false, w) in
    probe_device p rtos scratch (mk_card (mk_sdst (sdev_zero blksize scratch) w) None [] false).

(** The wait for a reader between two sleeps; [false] when the fuel is used up. *)
Fixpoint wait_reading (fuel : nat) : Mk bool :=
  reading ← onD (getD sd_reading);
  if negb reading then mret true
  else
    match fuel with
    | O => mret false
    | S fuel =>
        gone ← core readers_left;
        when gone (onD (updD (fun s => s <| sd_reading := false |>))) ;;
        wait_reading fuel
    end.

(** [None]: still waiting. *)
Definition artosyn_remove (fuel : nat) : Mk (option unit) :=
  artosyn_net_remove ;;
  onD (updD (fun s => s <| sd_removed := true |>)) ;;
  idle ← wait_reading fuel;
  if negb idle then mret None
  else
    give H_misc ;;
    claim_host ;;
    give H_irq ;;
    give H_func ;;
    give H_host ;;
    set_live false ;;
    onD (updD (fun s => s <| sd_rxq := [] |>)) ;;
    scratch ← onD (getD sd_net_mode);
    when scratch (give H_scratch) ;;
    give H_dev ;;
    mret (Some tt).
End driver.

(** ** A kernel that keeps count

    Its calls answer as [num], [bytes] and [flag] say at their number; it knows
    what is taken, the last first, and whether something was taken twice or given
    back without being there. *)

Record kernel := mk_kernel { kl_calls : nat; kl_held : list holding; kl_bad : bool }.

Section kernel.
Context (num : nat -> Z) (bytes : nat -> list Z) (flag left : nat -> bool).

Definition k_tick (w : kernel) : kernel := mk_kernel (S (kl_calls w)) (kl_held w) (kl_bad w).
Definition k_num (w : kernel) : Z * kernel := (num (kl_calls w), k_tick w).
Definition k_flag (w : kernel) : bool * kernel := (flag (kl_calls w), k_tick w).
Definition k_bytes (w : kernel) : list Z * kernel := (bytes (kl_calls w), k_tick w).
Definition k_take (h : holding) (w : kernel) : kernel :=
  mk_kernel (S (kl_calls w)) (h :: kl_held w) (kl_bad w || bool_decide (h ∈ kl_held w)).
Definition k_give (h : holding) (w : kernel) : kernel :=
  mk_kernel (S (kl_calls w)) (List.filter (fun x => negb (bool_decide (x = h))) (kl_held w)) (kl_bad w || negb (bool_decide (h ∈ kl_held w))).

(** Setting a pointer and claiming the host always work. *)
Definition k_sure (h : holding) : bool := match h with H_drvdata | H_host => true | _ => false end.

Definition kernel_core : DriverCore kernel := {|
  acquire h w := if k_sure h || (num (kl_calls w) =? 0) then (0, k_take h w) else (num (kl_calls w), k_tick w);
  release := k_give;
  firmware_of _ := k_bytes;
  iff_up := k_flag;
  readers_left w := (left (kl_calls w), k_tick w);
  eth_hw_addr_random := k_bytes
|}.
Definition kernel_sdio : SdioIo kernel := {|
  sdio_readb _ w := ((num (kl_calls w), num (S (kl_calls w))), k_tick w);
  sdio_writeb _ _ := k_num;
  sdio_f0_readb _ w := ((num (kl_calls w), num (S (kl_calls w))), k_tick w);
  sdio_f0_writeb _ _ := k_num;
  sdio_memcpy_toio _ := k_num;
  sdio_memcpy_fromio _ w := ((num (kl_calls w), bytes (kl_calls w)), k_tick w);
  kalloc _ := k_flag;
  net_rx _ w := (if flag (kl_calls w) then Some (bytes (kl_calls w)) else None, k_tick w);
  irq_turns w := (Z.to_nat (num (kl_calls w)), k_tick w);
  unplugged := k_flag;
  signal_pending := k_flag
|}.
Definition kernel_net : NetIo kernel := {|
  KmodNet.artosyn_write_all _ := k_num;
  alloc _ := k_flag;
  netif_rx _ := k_tick;
  netif_running := k_flag;
  adev_removed := k_flag;
  adev_rx_error := k_tick
|}.
#[local] Existing Instances kernel_core kernel_sdio kernel_net.

(** ** What takes and gives nothing *)

Context {HN : NetHeaders} {HS : SdioHeaders}.

Definition held (t : sdst kernel) : list holding * bool := (kl_held (Dw t), kl_bad (Dw t)).
Definition calm (t t' : sdst kernel) : Prop := held t' = held t /\ sd_net_mode (D t') = sd_net_mode (D t).
#[local] Instance calm_pre : PreOrder calm.
Proof. split; [done|]; intros a b c [E1 E2] [E3 E4]; split; congruence. Qed.

Lemma calm_env {A} (m : kernel -> A * kernel) : (forall w, kl_held (m w).2 = kl_held w /\ kl_bad (m w).2 = kl_bad w) -> keeps calm (envD m).
Proof. intros Hm t; destruct (Hm (Dw t)) as [E1 E2]; unfold envD, calm, held; destruct (m (Dw t)); cbn in *; by rewrite E1, E2. Qed.

Ltac calm_leaf := first [apply calm_env; by intros | by intros ?].

Lemma transfer_loop_calm fuel size : forall done data, keeps calm (transfer_loop fuel size done data).
Proof. induction fuel as [|fuel IH]; intros done data; cbn [transfer_loop]; keeps_walk ltac:(first [apply IH|calm_leaf]). Qed.

Lemma check_events_calm : keeps calm artosyn_check_events.
Proof.
  unfold artosyn_check_events, read_mailbox, artosyn_rx_transfer, rx_demux, artosyn_cdev_rx_queue, reg;
    keeps_walk ltac:(first [apply transfer_loop_calm|calm_leaf]).
Qed.

Lemma claim_calm : keeps calm sdio_claim_host.
Proof.
  unfold sdio_claim_host; keeps_walk calm_leaf.
  revert a; induction a as [|n IH]; cbn [artosyn_irqhandler]; keeps_walk ltac:(first [apply IH|apply check_events_calm|calm_leaf]).
Qed.

Lemma write_calm buf : keeps calm (artosyn_do_write buf).
Proof.
  unfold artosyn_do_write, artosyn_write_chunk, poll_and_wait, wait_event, meanwhile;
    keeps_walk ltac:(first [apply claim_calm|apply check_events_calm|calm_leaf]).
Qed.

Lemma send_chunk_calm data addr : keeps calm (artosyn_fw_send_chunk data addr).
Proof.
  assert (Hloop : forall fuel at_, keeps calm (fw_send_loop fuel data addr at_)).
  { induction fuel as [|fuel IH]; intros at_; cbn [fw_send_loop]; keeps_walk ltac:(first [apply IH|apply write_calm|calm_leaf]). }
  unfold artosyn_fw_send_chunk; keeps_walk ltac:(first [apply Hloop|apply write_calm|calm_leaf]).
Qed.

Lemma firmware_calm a b fw cfg : keeps calm (artosyn_download_firmware a b fw cfg).
Proof. unfold artosyn_download_firmware, send_troot, send_cfg; keeps_walk ltac:(first [apply send_chunk_calm|calm_leaf]). Qed.

Definition calm_net (t t' : netst kernel) : Prop := kl_held (Nw t') = kl_held (Nw t) /\ kl_bad (Nw t') = kl_bad (Nw t).
#[local] Instance calm_net_pre : PreOrder calm_net.
Proof. split; [done|]; intros a b c [E1 E2] [E3 E4]; split; congruence. Qed.

Lemma stop_calm net : keeps calm (envD (fun w => let '(_, t) := artosyn_net_stop (mk_netst net w) in (tt, Nw t))).
Proof.
  assert (Hs : keeps calm_net (artosyn_net_stop (W:=kernel))) by (unfold artosyn_net_stop, net_send_ctl, net_next_msgid; keeps_walk ltac:(by intros ?)).
  apply calm_env; intros w; specialize (Hs (mk_netst net w)); by destruct (artosyn_net_stop _) as [r t].
Qed.

(** ** The steps of a probe *)

(** Taken are exactly [l], nothing has gone wrong, and the device's pointers. *)
Definition holds (l : list holding) (net : option knet) (live mode : bool) (c : card kernel) : Prop :=
  held (cd c) = (l, false) /\ cd_net c = net /\ cd_live c = live /\ sd_net_mode (D (cd c)) = mode.
Definition without (h : holding) (l : list holding) : list holding := List.filter (fun x => negb (bool_decide (x = h))) l.

Section steps.
Context (l : list holding) (net : option knet) (live mode : bool) (c : card kernel).
Hypothesis Hc : holds l net live mode c.

Lemma wp_take h (Q : Z -> card kernel -> Prop) : bool_decide (h ∈ l) = false ->
  (forall c', holds (h :: l) net live mode c' -> Q 0 c') ->
  (k_sure h = false -> forall ret c', ret <> 0 -> holds l net live mode c' -> Q ret c') -> wp (obtain h) Q c.
Proof.
  clear -Hc; intros Hh H1 H2; destruct Hc as (E & En & Ev & Em); unfold wp, obtain, core, onD, envD; injection E as E1 E2; cbn [acquire kernel_core].
  destruct (k_sure h) eqn:Es; cbn [orb]; [|destruct (Z.eqb_spec (num (kl_calls (Dw (cd c)))) 0) as [Ez|Ez]].
  1, 2: apply H1; split_and!; [|done..]; unfold held, k_take; cbn [cd Dw kl_held kl_bad]; by rewrite E1, E2, Hh.
  apply H2; [done..|]; split_and!; [|done..]; unfold held; cbn; by rewrite E1, E2.
Qed.

Lemma wp_give h l' (Q : unit -> card kernel -> Prop) : bool_decide (h ∈ l) = true -> without h l = l' ->
  (forall c', holds l' net live mode c' -> Q tt c') -> wp (give h) Q c.
Proof.
  clear -Hc; intros Hh <- H1; destruct Hc as (E & En & Ev & Em); injection E as E1 E2; apply H1; split_and!; [|done..].
  unfold held; cbn; by rewrite E1, E2, Hh.
Qed.

Lemma wp_on {A} (m : M (sdst kernel) A) (Q : A -> card kernel -> Prop) : keeps calm m ->
  (forall a c', holds l net live mode c' -> Q a c') -> wp (onD m) Q c.
Proof.
  clear -Hc; intros Hm H1; destruct Hc as (E & En & Ev & Em), (Hm (cd c)) as [F1 F2]; unfold wp, onD; destruct (m (cd c)) as [a t]; cbn [fst snd] in *.
  apply H1; split_and!; cbn; [by rewrite F1|done|done|by rewrite F2].
Qed.

Lemma wp_live b (Q : unit -> card kernel -> Prop) : (forall c', holds l net b mode c' -> Q tt c') -> wp (set_live b) Q c.
Proof. clear -Hc; intros H1; destruct Hc as (E & En & Ev & Em); by apply H1. Qed.
Lemma wp_net n (Q : unit -> card kernel -> Prop) : (forall c', holds l n live mode c' -> Q tt c') -> wp (set_net n) Q c.
Proof. clear -Hc; intros H1; destruct Hc as (E & En & Ev & Em); by apply H1. Qed.
Lemma wp_mac mac (Q : unit -> card kernel -> Prop) : (forall c', holds l net live mode c' -> Q tt c') -> wp (set_mac mac) Q c.
Proof. clear -Hc; intros H1; destruct Hc as (E & En & Ev & Em); by apply H1. Qed.
Lemma wp_mode (Q : bool -> card kernel -> Prop) : Q mode c -> wp (onD (getD sd_net_mode)) Q c.
Proof. clear -Hc; intros H1; destruct Hc as (_ & _ & _ & Em); unfold wp; cbn; by rewrite Em; destruct c as [[]]. Qed.
End steps.

Create HintDb calm.
(** One step of a walk, from the state the hypothesis [Hc] is about. *)
Ltac known lem c := lazymatch goal with Hc : holds _ _ _ _ c |- _ => eapply (lem _ _ _ _ _ Hc) end.
Ltac moved c := try clear dependent c; intros ? ?Hc.
Ltac step := lazymatch goal with
  | |- wp (mbind _ _) _ _ => apply wp_bind
  | |- wp (mret _) _ _ => apply wp_ret; cbn [Z.eqb negb orb]
  | |- wp (when true _) _ _ => cbn [when]
  | |- wp (when false _) _ _ => cbn [when]; apply wp_ret
  | |- wp (when ?b _) _ _ => destruct b; cbn [when]
  | |- wp (if ?b then _ else _) _ _ => destruct b
  | |- wp (match ?x with _ => _ end) _ _ => destruct x
  | |- wp (obtain _) _ ?c => known wp_take c; [reflexivity|moved c; cbn [Z.eqb negb orb]|
      let E := fresh in let Hr := fresh in intros E ? ? Hr ?Hc; first [discriminate E|clear E; clear dependent c; rewrite ?(proj2 (Z.eqb_neq _ _) Hr); cbn [negb orb]]]
  | |- wp (give _) _ ?c => known wp_give c; [reflexivity|vm_compute; reflexivity|moved c]
  | |- wp (set_live _) _ ?c => known wp_live c; moved c
  | |- wp (set_net _) _ ?c => known wp_net c; moved c
  | |- wp (set_mac _) _ ?c => known wp_mac c; moved c
  | |- wp (core _) _ ?c => known wp_on c; [by apply calm_env|intros ?; moved c]
  | |- wp (onD (getD sd_net_mode)) _ ?c => known wp_mode c
  | |- wp (onD _) _ ?c => known wp_on c; [solve [auto with calm | by intros ?]|intros ?; moved c]
  end.
#[local] Hint Resolve claim_calm firmware_calm stop_calm : calm.

Definition device_parts (mode : bool) : list holding := [H_misc; H_irq; H_func; H_drvdata] ++ (if mode then [H_scratch] else []) ++ [H_dev].
Definition net_parts : list holding := [H_netdev; H_wq; H_rxbuf; H_stage; H_ndev].
Definition parts (net : option knet) (mode : bool) : list holding := match net with Some _ => net_parts | None => [] end ++ device_parts mode.

Lemma net_probe_holds p c : holds (device_parts true) None true true c ->
  wp (artosyn_net_probe p) (fun _ c' => exists net, holds (parts net true) net true true c') c.
Proof.
  intros Hc; unfold artosyn_net_probe, net_free, claim_host, artosyn_net_set_mac; cbn [device_parts app] in Hc.
  repeat step; first [by exists None | by eexists (Some _)].
Qed.

Lemma download_holds p c l : l = [H_misc; H_irq; H_func; H_drvdata; H_dev] -> holds l None false false c ->
  wp (download_firmware p) (fun _ c' => holds l None false false c') c.
Proof. intros -> Hc; unfold download_firmware; repeat step; done. Qed.

(** Where a probe from [c] ends. *)
Definition probed (ret : Z) (c : card kernel) : Prop :=
  if ret =? 0 then exists net mode, holds (parts net mode) net true mode c else exists mode, holds [] None false mode c.

Lemma probed_fails ret mode c : ret <> 0 -> holds [] None false mode c -> probed ret c.
Proof. intros Hr Hc; unfold probed; rewrite (proj2 (Z.eqb_neq _ _) Hr); by exists mode. Qed.
Lemma probed_works net mode c : holds (parts net mode) net true mode c -> probed 0 c.
Proof. intros Hc; by exists net, mode. Qed.

Lemma probe_device_holds p rtos scratch c : (scratch = true -> rtos = true) -> holds ((if scratch then [H_scratch] else []) ++ [H_dev]) None false scratch c ->
  wp (probe_device p rtos scratch) probed c.
Proof.
  intros Hr Hc; unfold probe_device, err_claim_host_for_cleanup, err_disable_func, err_release_host, claim_host.
  destruct scratch; [rewrite Hr by done|]; cbn [app] in Hc; repeat step; first [by eapply probed_fails | by apply (probed_works None false) | idtac].
  - eapply wp_mono; [by apply (net_probe_holds p)|]; intros ret c2 [net Hn]; apply wp_ret, wp_ret; by eapply probed_works.
  - eapply wp_mono; [by eapply (download_holds p)|]; cbv beta; intros ret c2 Hn; do 2 step; destruct (Z.eqb_spec ret 0) as [->|Hne]; cbn [negb]; repeat step;
      [by apply (probed_works None false)|by eapply probed_fails].
Qed.

(** ** The wait for the reader, and the removal *)

Lemma wait_holds l net live mode fuel : forall c, holds l net live mode c -> wp (wait_reading fuel) (fun _ c' => holds l net live mode c') c.
Proof.
  induction fuel as [|fuel IH]; intros c Hc; cbn [wait_reading]; apply wp_bind; (known wp_on c; [by intros ?|]);
    intros reading c1 Hc1; clear c Hc; destruct reading; cbn [negb]; repeat step; try done; by apply IH.
Qed.

Lemma wait_ends n fuel : (forall k, (n <= k)%nat -> left k = true) -> forall c, (0 < fuel)%nat -> (n < kl_calls (Dw (cd c)) + fuel)%nat ->
  (wait_reading fuel c).1 = true.
Proof.
  intros Hl; induction fuel as [|fuel IH]; intros [[d w] net mac live] Hf Hn; [lia|]; cbn [wait_reading].
  rewrite bind_run; cbn [onD getD fst snd cd D Dw] in *; destruct (sd_reading d); cbn [negb]; [|done].
  rewrite bind_run; cbn [core onD envD readers_left kernel_core fst snd cd D Dw]; rewrite bind_run.
  destruct (left (kl_calls w)) eqn:El; cbn [when].
  - by destruct fuel.
  - assert (~ (n <= kl_calls w)%nat) by (intros Hle; by rewrite Hl in El); apply IH; cbn; lia.
Qed.

(** What is left is the function's driver data, which the driver core clears. *)
Lemma remove_holds fuel net mode c : holds (parts net mode) net true mode c ->
  wp (artosyn_remove fuel) (fun r c' => r = Some tt -> holds [H_drvdata] None false mode c') c.
Proof.
  intros Hc; unfold artosyn_remove, claim_host; apply wp_bind.
  assert (Hnet : wp artosyn_net_remove (fun _ c' => holds (device_parts mode) None true mode c') c).
  { unfold artosyn_net_remove, unregister_netdev, claim_host; unfold wp; pose proof Hc as (_ & -> & _).
    destruct net as [net|]; [|exact Hc]; lazymatch goal with |- context [snd (?m c)] => change (wp m (fun _ c' => holds (device_parts mode) None true mode c') c) end.
    destruct mode; cbn [parts net_parts device_parts app] in *; repeat step; done. }
  eapply wp_mono; [exact Hnet|]; cbv beta; clear c Hc Hnet; intros _ c Hc; do 2 step; apply wp_bind; eapply wp_mono; [by apply wait_holds|]; cbv beta.
  clear; intros idle c Hc; destruct idle; cbn [negb]; [|by apply wp_ret]; destruct mode; cbn [device_parts app] in Hc; repeat step; done.
Qed.

Lemma remove_ends n fuel c : (forall k, (n <= k)%nat -> left k = true) -> (n < fuel)%nat -> (artosyn_remove fuel c).1 = Some tt.
Proof.
  intros Hl Hn; unfold artosyn_remove; rewrite !bind_run; set (c1 := (onD _ _).2).
  pose proof (wait_ends n fuel Hl c1 ltac:(lia) ltac:(lia)) as Hw; destruct (wait_reading fuel c1) as [idle c2]; cbn [fst snd] in *; subst idle.
  cbn [negb]; by rewrite !bind_run.
Qed.

Lemma probe_holds p vendor device blksize w : kl_held w = [] -> kl_bad w = false ->
  let '(ret, c) := artosyn_probe p vendor device blksize w in probed ret c.
Proof.
  intros Hw1 Hw2; unfold artosyn_probe; cbn [acquire kernel_core k_sure orb]; destruct (Z.eqb_spec (num (kl_calls w)) 0) as [E|E]; cbn [negb Z.eqb].
  2: { rewrite (proj2 (Z.eqb_neq _ _) E); cbn [negb]; exists false; split_and!; [|done..]; unfold held; cbn; by rewrite Hw1, Hw2. }
  cbv zeta; set (rtos := is_rtos_id vendor device); set (w1 := k_take H_dev w).
  assert (H1 : kl_held w1 = [H_dev] /\ kl_bad w1 = false) by (unfold w1, k_take; cbn; by rewrite Hw1, Hw2).
  assert (Hdev : forall scratch w2, (scratch = true -> rtos = true) -> kl_held w2 = (if scratch then [H_scratch] else []) ++ [H_dev] -> kl_bad w2 = false ->
    let '(ret, c) := probe_device p rtos scratch (mk_card (mk_sdst (sdev_zero blksize scratch) w2) None [] false) in probed ret c).
  { intros scratch w2 Hs E1 E2; pose proof (probe_device_holds p rtos scratch (mk_card (mk_sdst (sdev_zero blksize scratch) w2) None [] false) Hs) as Hx.
    unfold wp in Hx; destruct (probe_device _ _ _ _) as [ret c]; apply Hx; split_and!; [|done..]; unfold held; cbn; by rewrite E1, E2. }
  destruct H1 as [F1 F2]; clearbody w1; destruct (mp_native_net p && rtos) eqn:Er; [|by apply (Hdev false)].
  apply andb_prop in Er as [_ Er]; destruct (Z.eqb_spec (num (kl_calls w1)) 0); cbn [Z.eqb];
    [apply (Hdev true); [done|unfold k_take; cbn; by rewrite F1|unfold k_take; cbn; by rewrite F1, F2]|].
  rewrite (proj2 (Z.eqb_neq _ _)) by done; by apply (Hdev false).
Qed.

(** Whatever has happened since, the device is as the probe left it. *)
Definition in_use (c c' : card kernel) : Prop :=
  held (cd c') = held (cd c) /\ (is_Some (cd_net c') <-> is_Some (cd_net c)) /\ cd_live c' = true /\ sd_net_mode (D (cd c')) = sd_net_mode (D (cd c)).

(** C31. The driver takes and gives back.  Whatever every call of the kernel and
    of the chip answers, a probe that fails has given back all it took, and one
    that works holds the device, its scratch buffer in [net_mode] and either the
    whole network device or nothing of it, with the host released; when the card
    goes, whatever has happened in between, everything is given back once a reader
    has left, and nothing is ever taken twice or given back twice. *)
Theorem probe_remove_balanced p vendor device blksize w n fuel :
  kl_held w = [] -> kl_bad w = false -> (forall k, (n <= k)%nat -> left k = true) -> (n < fuel)%nat ->
  let '(ret, c) := artosyn_probe p vendor device blksize w in
  held (cd c) = (if ret =? 0 then parts (cd_net c) (sd_net_mode (D (cd c))) else [], false) /\ cd_live c = (ret =? 0) /\
  (ret = 0 -> forall c', in_use c c' -> let '(r, c2) := artosyn_remove fuel c' in
     r = Some tt /\ held (cd c2) = ([H_drvdata], false) /\ cd_live c2 = false).
Proof.
  intros Hw1 Hw2 Hl Hn.
  pose proof (probe_holds p vendor device blksize w Hw1 Hw2) as Hp; destruct (artosyn_probe _ _ _ _ _) as [ret c]; unfold probed in Hp; destruct (Z.eqb_spec ret 0) as [->|Hr].
  - destruct Hp as (net & mode & E1 & E2 & E3 & E4); split_and!; [by rewrite E1, E2, E4|done|]; intros _ c' (F1 & F2 & F3 & F4).
    assert (Hc' : holds (parts (cd_net c') mode) (cd_net c') true mode c').
    { split_and!; [|done|done|congruence]; rewrite F1, E1; f_equal; subst net; destruct (cd_net c'), (cd_net c); try done; destruct F2 as [G1 G2];
        [destruct (G1 ltac:(by eexists)); discriminate|destruct (G2 ltac:(by eexists)); discriminate]. }
    pose proof (remove_holds fuel _ _ _ Hc') as Hx; pose proof (remove_ends n fuel c' Hl Hn) as Hy; unfold wp in Hx; destruct (artosyn_remove fuel c') as [r c2].
    cbn [fst snd] in *; destruct (Hx Hy) as (G1 & G2 & G3 & G4); done.
  - destruct Hp as (mode & E1 & E2 & E3 & E4); split_and!; [by rewrite E1|done|done].
Qed.
End kernel.

(** ** A card that boots, and one whose fifth call fails *)

Definition demo_params : mod_params := mk_mp true false true (mk_np 0 3 60000 40000) None.
Definition new_kernel : kernel := mk_kernel 0 [] false.

#[local] Existing Instances demo_headers chip_headers.

#[local] Abbreviation demo_probe num device :=
  (artosyn_probe (HI := kernel_sdio num (fun _ => []) (fun _ => false)) (HD := kernel_core num (fun _ => []) (fun _ => false) (fun _ => true))
    demo_params 0x4152 device 512 new_kernel).

Lemma probe_remove_balanced_witness :
  let '(ret, c) := demo_probe (fun _ => 0) 0x8031 in
  ret = 0 /\ is_Some (cd_net c) /\
  held (cd (artosyn_remove (HI := kernel_sdio (fun _ => 0) (fun _ => []) (fun _ => false)) (HO := kernel_net (fun _ => 0) (fun _ => false))
    (HD := kernel_core (fun _ => 0) (fun _ => []) (fun _ => false) (fun _ => true)) 1 c).2) = ([H_drvdata], false).
Proof.
  pose proof (probe_remove_balanced (fun _ => 0) (fun _ => []) (fun _ => false) (fun _ => true) demo_params 0x4152 0x8031 512 new_kernel 0 1
    eq_refl eq_refl (fun _ _ => eq_refl) (le_n 1)) as Hp.
  assert (E1 : (demo_probe (fun _ => 0) 0x8031).1 = 0) by (vm_compute; reflexivity).
  assert (E2 : bool_decide (is_Some (cd_net (demo_probe (fun _ => 0) 0x8031).2)) = true) by (vm_compute; reflexivity).
  destruct (demo_probe (fun _ => 0) 0x8031) as [ret c]; cbn [fst snd] in E1, E2; subst ret; destruct Hp as (_ & Hlive & Hrem).
  split; [reflexivity|split; [exact (bool_decide_eq_true_1 _ E2)|]].
  assert (Hc : in_use c c) by (split; [reflexivity|split; [tauto|split; [exact Hlive|reflexivity]]]).
  specialize (Hrem eq_refl c Hc); destruct (artosyn_remove _ c) as [r c2]; exact (proj1 (proj2 Hrem)).
Defined.

Example demo_irq_refused :
  let '(ret, c) := demo_probe (fun k => if (k =? 4)%nat then -16 else 0) 0x8031 in ret = -16 /\ held (cd c) = ([], false).
Proof. vm_compute; split; reflexivity. Qed.
