(* ===== verification/LcText.v ===== *)
(** What [lifecycled] does with text: the decimal conversions of the C library
    it uses, the one-line sidecar files beside its configuration
    ([lifecycled/lifecycle_tuning.c]), and the file operations behind them. *)

From Stdlib Require Import String.
From S2P Require Import Prelude CtrlMsg Monad.
#[local] Open Scope Z_scope.

(** ** [%d], [%s], [strtol] *)

(** The characters of a literal. *)
Definition chars (s : string) : list Z := map (fun c => Z.of_N (Ascii.N_of_ascii c)) (list_ascii_of_string s).

Definition is_digit (c : Z) : bool := (0x30 <=? c) && (c <=? 0x39).

Fixpoint dec_digits (fuel : nat) (z : Z) (acc : list Z) : list Z :=
  match fuel with
  | O => acc
  | S fuel =>
      let acc := 0x30 + z mod 10 :: acc in
      if z / 10 =? 0 then acc else dec_digits fuel (z / 10) acc
  end.

(** [%d]; twenty digits hold any 64-bit value. *)
Definition fmt_dec (z : Z) : list Z := if z <? 0 then 0x2d :: dec_digits 20 (- z) [] else dec_digits 20 z [].

(** The longest run of digits: its value, how many, and the rest. *)
Fixpoint scan_decimals (acc n : Z) (s : list Z) : Z * Z * list Z :=
  match s with
  | c :: s' => if is_digit c then scan_decimals (acc * 10 + (c - 0x30)) (n + 1) s' else (acc, n, s)
  | [] => (acc, n, s)
  end.

Definition LONG_MIN : Z := - 2 ^ 63.
Definition LONG_MAX : Z := 2 ^ 63 - 1.

(** [strtol(s, &end, 10)]: the value and what [end] points at; [None] when
    [end == s].  Out-of-range values saturate. *)
Definition strtol10 (s : list Z) : option (Z * list Z) :=
  let s := skip_spaces s in
  let '(neg, s) := match s with
                   | c :: s' => if c =? 0x2d then (true, s') else if c =? 0x2b then (false, s') else (false, s)
                   | [] => (false, s)
                   end in
  let '(v, n, s) := scan_decimals 0 0 s in
  if n =? 0 then None else Some (Z.max LONG_MIN (Z.min LONG_MAX (if neg then - v else v)), s).

(** One [%d] of [fscanf]. *)
Definition scan_dec (s : list Z) : option (Z * list Z) :=
  '(v, s) ← strtol10 s; Some (s32 v, s).

Fixpoint take_word (n : nat) (s : list Z) : list Z :=
  match n, s with
  | S n, c :: s' => if is_space c || (c =? 0) then [] else c :: take_word n s'
  | _, _ => []
  end.

(** [%15s]: the next word, at most fifteen characters of it. *)
Definition scan_word (s : list Z) : option (list Z) :=
  match take_word 15 (skip_spaces s) with
  | [] => None
  | word => Some word
  end.

(** ** Files *)

(** [fopen(..., "r")] and the contents read; [fopen(..., "w")] with all that
    is written before [fclose]; [rename]; [access(..., F_OK)].  Paths are byte
    strings; [fs_write] and [fs_rename] say whether they succeeded. *)
Class LcFs (W : Type) := {
  fs_read : list Z -> W -> option (list Z);
  fs_write : list Z -> list Z -> W -> bool * W;
  fs_rename : list Z -> list Z -> W -> bool * W;
  fs_unlink : list Z -> W -> W
}.

(** What POSIX says of them, on a disk with room for the data. *)
Class LcFsLaws (W : Type) `{LcFs W} := {
  fs_write_read p c w w' : fs_write p c w = (true, w') -> fs_read p w' = Some c;
  fs_write_other p c w ok w' q : fs_write p c w = (ok, w') -> q <> p -> fs_read q w' = fs_read q w;
  fs_rename_read p q w w' : fs_rename p q w = (true, w') -> fs_read q w' = fs_read p w;
  fs_rename_failed p q w w' r : fs_rename p q w = (false, w') -> fs_read r w' = fs_read r w
}.

(** [lc_sidecar_path]: the directory part of [cfg_path] up to its last slash,
    then [name], cut to [out_sz - 1] characters. *)
Definition slash : Z := 0x2f.
Definition dir_part (cfg_path : list Z) : option (list Z) :=
  if existsb (Z.eqb slash) cfg_path
  then Some (rev ((fix to_slash r := match r with
                                     | c :: r' => if c =? slash then r else to_slash r'
                                     | [] => []
                                     end) (rev cfg_path)))
  else None.

Definition snprintf_cut (sz : Z) (s : list Z) : list Z := ztake (sz - 1) s.

Definition lc_sidecar_path (cfg_path name : list Z) (out_sz : Z) : list Z :=
  match dir_part cfg_path with
  | Some dir =>
      let dirlen := if out_sz <=? zlen dir then out_sz - 1 else zlen dir in
      ztake dirlen cfg_path ++ snprintf_cut (out_sz - dirlen) name
  | None => snprintf_cut out_sz name
  end.

Definition str_tmp : list Z := [0x2e; 0x74; 0x6d; 0x70].

Section sidecar.
Context {W : Type} `{LcFs W}.

(** The tail every [lc_*_save] and [peers_save] shares: the new contents to
    ["<path>.tmp"], then [rename] over [path]. *)
Definition save_via_tmp (path text : list Z) : M W Z :=
  let tmp_path := snprintf_cut 520 (path ++ str_tmp) in
  opened ← fs_write tmp_path text;
  if negb opened then mret (-1)
  else
    renamed ← fs_rename tmp_path path;
    if negb renamed then mret (-1) else mret 0.

Definition sidecar_read (cfg_path name : list Z) (w : W) : option (list Z) := fs_read (lc_sidecar_path cfg_path name 512) w.
Definition sidecar_write (cfg_path name text : list Z) : M W Z := save_via_tmp (lc_sidecar_path cfg_path name 512) text.
End sidecar.

(** ** Lemmas *)

Section decimal.

Definition is_dec (c : Z) : Prop := 0x30 <= c <= 0x39.

Lemma is_dec_digit c : is_dec c -> is_digit c = true.
Proof. unfold is_dec, is_digit; intros; apply andb_true_iff; split; apply Z.leb_le; lia. Qed.

Lemma dec_digits_spec fuel z acc :
  0 <= z < 10 ^ Z.of_nat fuel -> (0 < fuel)%nat ->
  exists ds, dec_digits fuel z acc = ds ++ acc /\ ds <> [] /\ (length ds <= fuel)%nat /\ Forall is_dec ds /\
    forall v n rest, scan_decimals v n (ds ++ rest) = scan_decimals (v * 10 ^ zlen ds + z) (n + zlen ds) rest.
Proof.
  revert z acc; induction fuel as [|fuel IH]; intros z acc Hz Hf; [lia|]; cbn [dec_digits].
  assert (Hm : 0 <= z mod 10 < 10) by (apply Z.mod_pos_bound; lia).
  assert (Hd : is_dec (0x30 + z mod 10)) by (unfold is_dec; lia).
  assert (Hone : forall v n rest, scan_decimals v n ((0x30 + z mod 10) :: rest) = scan_decimals (v * 10 + z mod 10) (n + 1) rest).
  { intros; cbn [scan_decimals]; rewrite is_dec_digit by done; f_equal; lia. }
  destruct (Z.eqb_spec (z / 10) 0) as [E|E].
  - exists [0x30 + z mod 10]; split_and!; [done|done|simpl; lia|by apply Forall_singleton|].
    intros v n rest; cbn [app]; rewrite Hone; change (zlen [_]) with 1; f_equal; dlia.
  - rewrite Nat2Z.inj_succ, Z.pow_succ_r in Hz by lia.
    destruct fuel as [|fuel']; [change (Z.of_nat 0) with 0 in Hz; dlia|].
    destruct (IH (z / 10) (0x30 + z mod 10 :: acc)) as (ds & Hds & Hne & Hl & Hall & Hscan);
      [split; [apply Z.div_pos; lia|apply Z.div_lt_upper_bound; lia]|lia|].
    exists (ds ++ [0x30 + z mod 10]); split_and!.
    + by rewrite Hds, <- app_assoc.
    + by destruct ds.
    + rewrite length_app; simpl; lia.
    + apply Forall_app; split; [done|by apply Forall_singleton].
    + intros v n rest; rewrite <- app_assoc, Hscan; cbn [app]; rewrite Hone, zlen_app, Z.pow_add_r by (auto with cint || lia).
      change (zlen [_]) with 1; change (10 ^ 1) with 10; pose proof (Z.div_mod z 10 ltac:(lia)); by f_equal; lia.
Qed.

Lemma fmt_dec_spec z :
  0 <= z < 2 ^ 63 ->
  fmt_dec z <> [] /\ Forall is_dec (fmt_dec z) /\
  forall rest, scan_decimals 0 0 (fmt_dec z ++ rest) = scan_decimals z (zlen (fmt_dec z)) rest.
Proof.
  intros Hz; unfold fmt_dec; rewrite (proj2 (Z.ltb_ge _ _)) by lia.
  destruct (dec_digits_spec 20 z []) as (ds & -> & Hne & _ & Hd & Hs); [lia|lia|]; rewrite app_nil_r.
  split_and!; [done..|]; intros rest; by rewrite Hs.
Qed.

(** Text behind a number that does not continue it. *)
Definition ends_number (rest : list Z) : Prop :=
  match rest with
  | c :: _ => is_digit c = false
  | [] => True
  end.

Lemma scan_decimals_end v n rest : ends_number rest -> scan_decimals v n rest = (v, n, rest).
Proof. by destruct rest as [|c rest]; cbn; [|intros ->]. Qed.

Lemma strtol10_fmt z rest : 0 <= z < 2 ^ 63 -> ends_number rest -> strtol10 (fmt_dec z ++ rest) = Some (z, rest).
Proof.
  intros Hz Hr; destruct (fmt_dec_spec z Hz) as (Hne & Hd & Hs); unfold strtol10.
  specialize (Hs rest); pose proof (zlen_nonneg (fmt_dec z)).
  assert (Hlen : zlen (fmt_dec z) <> 0) by (intros E; by apply zlen_eq_0 in E).
  destruct (fmt_dec z) as [|c l] eqn:Ef; [done|]; pose proof (Forall_cons_1 _ _ _ Hd) as [Hc _]; unfold is_dec in Hc.
  cbn [app skip_spaces].
  replace (is_space c) with false.
  2: { symmetry; unfold is_space; apply orb_false_iff; split; [apply Z.eqb_neq; lia|].
       apply andb_false_iff; right; apply Z.leb_gt; lia. }
  rewrite (proj2 (Z.eqb_neq c 0x2d)), (proj2 (Z.eqb_neq c 0x2b)) by lia; cbn [app] in Hs.
  rewrite Hs, scan_decimals_end by done; rewrite (proj2 (Z.eqb_neq _ _)) by done.
  unfold LONG_MIN, LONG_MAX; repeat f_equal; lia.
Qed.

Lemma scan_dec_fmt z rest : 0 <= z < 2 ^ 31 -> ends_number rest -> scan_dec (fmt_dec z ++ rest) = Some (z, rest).
Proof. intros; unfold scan_dec; rewrite strtol10_fmt by (done || lia); cbn; by rewrite s32_id by lia. Qed.

Lemma strtol10_space s c : is_space c = true -> strtol10 (c :: s) = strtol10 s.
Proof. intros Hc; unfold strtol10; cbn [skip_spaces]; by rewrite Hc. Qed.

Lemma scan_dec_space s c : is_space c = true -> scan_dec (c :: s) = scan_dec s.
Proof. intros; unfold scan_dec; by rewrite strtol10_space. Qed.

Lemma is_dec_word c : is_dec c -> is_space c || (c =? 0) = false.
Proof.
  unfold is_dec, is_space; intros; rewrite !orb_false_iff, andb_false_iff; split_and!;
    [apply Z.eqb_neq; lia|right; apply Z.leb_gt; lia|apply Z.eqb_neq; lia].
Qed.

(** A word without white space, up to fifteen characters, comes back. *)
Lemma take_word_all n l rest :
  Forall (fun c => is_space c || (c =? 0) = false) l -> (length l <= n)%nat ->
  match rest with c :: _ => is_space c || (c =? 0) = true | [] => True end ->
  take_word n (l ++ rest) = l.
Proof.
  intros Hl; revert n; induction Hl as [|c l Hc Hl IH]; intros n Hn Hr; cbn [app].
  - by destruct n as [|n], rest as [|c rest]; cbn; [| | |rewrite Hr].
  - destruct n as [|n]; [simpl in Hn; lia|]; cbn [take_word]; rewrite Hc, IH; [done|simpl in Hn; lia|done].
Qed.

Lemma scan_word_line l :
  l <> [] -> Forall (fun c => is_space c || (c =? 0) = false) l -> (length l <= 15)%nat -> scan_word (l ++ [10]) = Some l.
Proof.
  intros Hne Hl Hn; unfold scan_word.
  assert (skip_spaces (l ++ [10]) = l ++ [10]) as ->.
  { destruct l as [|c l]; [done|]; pose proof (Forall_cons_1 _ _ _ Hl) as [Hc _]; apply orb_false_iff in Hc as [Hc _].
    cbn; by rewrite Hc. }
  rewrite take_word_all by done; by destruct l.
Qed.

Lemma length_fmt_dec z : 0 <= z < 10 ^ 15 -> (length (fmt_dec z) <= 15)%nat.
Proof.
  intros Hz; unfold fmt_dec; rewrite (proj2 (Z.ltb_ge _ _)) by lia.
  enough (Hl : forall f g z acc, 0 <= z < 10 ^ Z.of_nat f -> (0 < f)%nat ->
                 (length (dec_digits (f + g) z acc) <= f + length acc)%nat).
  { exact (Hl 15%nat 5%nat z [] ltac:(lia) ltac:(lia)). }
  clear; induction f as [|f IH]; intros g z acc Hz Hf; [lia|]; cbn [Nat.add dec_digits].
  destruct (Z.eqb_spec (z / 10) 0) as [E|E]; [simpl; lia|].
  rewrite Nat2Z.inj_succ, Z.pow_succ_r in Hz by lia.
  destruct f as [|f]; [change (Z.of_nat 0) with 0 in Hz; dlia|].
  assert (Hq : 0 <= z / 10 < 10 ^ Z.of_nat (S f)) by (split; [apply Z.div_pos; lia|apply Z.div_lt_upper_bound; lia]).
  specialize (IH g (z / 10) (0x30 + z mod 10 :: acc) Hq ltac:(lia)); cbn [length] in IH; lia.
Qed.
End decimal.

Section sidecar_lemmas.
Context {W : Type} `{LcFs W} `{!LcFsLaws W}.

(** A path the temporary name of which is not cut is another path. *)
Lemma tmp_other path : zlen path <= 511 -> snprintf_cut 520 (path ++ str_tmp) <> path.
Proof.
  intros Hl E; apply (f_equal zlen) in E; unfold snprintf_cut in E.
  rewrite ztake_all in E by (rewrite zlen_app; change (zlen str_tmp) with 4; lia).
  rewrite zlen_app in E; change (zlen str_tmp) with 4 in E; lia.
Qed.

Lemma zlen_sidecar_path cfg name : zlen (lc_sidecar_path cfg name 512) <= 511.
Proof.
  unfold lc_sidecar_path, snprintf_cut.
  assert (Ht : forall n (l : list Z), 0 <= n -> zlen (ztake n l) <= n) by (intros; unfold zlen, ztake; rewrite length_take; lia).
  destruct (dir_part cfg) as [dir|]; [|by apply Ht].
  pose proof (zlen_nonneg dir).
  destruct (512 <=? zlen dir) eqn:E; bool_to_prop; rewrite zlen_app.
  - pose proof (Ht (512 - 1) cfg ltac:(lia)); pose proof (Ht (512 - (512 - 1) - 1) name ltac:(lia)); lia.
  - pose proof (Ht (zlen dir) cfg ltac:(lia)); pose proof (Ht (512 - zlen dir - 1) name ltac:(lia)); lia.
Qed.

Lemma sidecar_written cfg name text w w' :
  sidecar_write cfg name text w = (0, w') -> sidecar_read cfg name w' = Some text.
Proof.
  unfold sidecar_write, save_via_tmp, sidecar_read; cbv [mbind M_bind mret M_ret].
  set (path := lc_sidecar_path cfg name 512).
  destruct (fs_write _ _ w) as [[|] w1] eqn:E1; cbn [negb]; [|congruence].
  destruct (fs_rename _ _ w1) as [[|] w2] eqn:E2; cbn [negb]; [|congruence]; intros [= <-].
  rewrite (fs_rename_read _ _ _ _ E2); by apply (fs_write_read _ _ _ _ E1).
Qed.

(** A save that fails leaves the file as it was. *)
Lemma sidecar_not_written cfg name text w r w' :
  sidecar_write cfg name text w = (r, w') -> r <> 0 -> sidecar_read cfg name w' = sidecar_read cfg name w.
Proof.
  unfold sidecar_write, save_via_tmp, sidecar_read; cbv [mbind M_bind mret M_ret].
  pose proof (zlen_sidecar_path cfg name) as Hl; set (path := lc_sidecar_path cfg name 512) in *.
  pose proof (tmp_other path Hl) as Hne.
  destruct (fs_write _ _ w) as [[|] w1] eqn:E1; cbn [negb].
  - destruct (fs_rename _ _ w1) as [[|] w2] eqn:E2; cbn [negb]; intros [= <- <-] Hr; [done|].
    rewrite (fs_rename_failed _ _ _ _ _ E2); by apply (fs_write_other _ _ _ _ _ _ E1).
  - intros [= <- <-] _; by apply (fs_write_other _ _ _ _ _ _ E1).
Qed.
End sidecar_lemmas.
