(* ===== verification/Strtod.v ===== *)
(** The C library's [strtod]: decimal and hexadecimal numbers, infinities and
    not-a-number, rounded once. *)

From Stdlib Require Import String Floats.SpecFloat.
From S2P Require Import Prelude Double CtrlMsg LcText.
#[local] Open Scope Z_scope.

Definition double_inf (neg : bool) : double := S754_infinity neg.

(** The double nearest to [m * 10^e], [m * 2^e]: one rounding of the exact value. *)
Definition decimal (neg : bool) (m e : Z) : double :=
  match m with
  | Zpos p =>
      if 0 <=? e then binary_normalize 53 1024 ((if neg then -1 else 1) * (m * 10 ^ e)) 0 neg
      else ddiv (S754_finite neg p 0) (S754_finite false (Z.to_pos (10 ^ (- e))) 0)
  | _ => S754_zero neg
  end.
Definition hexadecimal (neg : bool) (m e : Z) : double := binary_normalize 53 1024 (if neg then - m else m) e neg.

(** The optional exponent behind the letter [c]; its digits may be missing, then
    it is no exponent. *)
Definition scan_exponent (c : Z) (s : list Z) : Z * list Z :=
  match s with
  | x :: s' =>
      if (x =? c) || (x =? c - 32) then
        let '(neg, s') := match s' with
                          | y :: s'' => if y =? 0x2d then (true, s'') else if y =? 0x2b then (false, s'') else (false, s')
                          | [] => (false, s')
                          end in
        let '(v, n, s') := scan_decimals 0 0 s' in
        if n =? 0 then (0, s) else (if neg then - v else v, s')
      else (0, s)
  | [] => (0, s)
  end.

(** Digits with at most one point among them: their value without the point, how
    many there are, how many stand behind the point, the rest. *)
Definition scan_mantissa (scan : Z -> Z -> list Z -> Z * Z * list Z) (s : list Z) : Z * Z * Z * list Z :=
  let '(v, n, s) := scan 0 0 s in
  match s with
  | c :: s' => if c =? 0x2e then let '(v, n', s') := scan v n s' in (v, n', n' - n, s') else (v, n, 0, s)
  | [] => (v, n, 0, s)
  end.

Definition lower (c : Z) : Z := if (0x41 <=? c) && (c <=? 0x5a) then c + 32 else c.
Definition starts_word (w s : list Z) : bool := bool_decide (lower <$> ztake (zlen w) s = w).

(** [strtod(s, &end)]: the value and what [end] points at; [None] when
    [end == s].  The form [nan(...)] is read as [nan]. *)
Definition strtod (s : list Z) : option (double * list Z) :=
  let s := skip_spaces s in
  let '(neg, s) := match s with
                   | c :: s' => if c =? 0x2d then (true, s') else if c =? 0x2b then (false, s') else (false, s)
                   | [] => (false, s)
                   end in
  if starts_word (chars "infinity") s then Some (double_inf neg, zdrop 8 s)
  else if starts_word (chars "inf") s then Some (double_inf neg, zdrop 3 s)
  else if starts_word (chars "nan") s then Some (S754_nan, zdrop 3 s)
  else
    let '(hv, hn, hk, hs) := if starts_word (chars "0x") s then scan_mantissa scan_digits (zdrop 2 s) else (0, 0, 0, s) in
    if 0 <? hn then let '(e, hs) := scan_exponent 0x70 hs in Some (hexadecimal neg hv (e - 4 * hk), hs)
    else
      let '(v, n, k, s) := scan_mantissa scan_decimals s in
      if n =? 0 then None else let '(e, s) := scan_exponent 0x65 s in Some (decimal neg v (e - k), s).

Definition strtod_val (s : list Z) : double := match strtod s with Some (v, _) => v | None => dofZ 0 end.
