(* ===== verification/HttpGet.v ===== *)
(** [common/http_get.c]: the HTTP client of the bitrate controller and the
    keyframe filter, a GET whose answer is only asked for its status. *)

From Stdlib Require Import String.
From S2P Require Import Prelude CtrlMsg Monad LcText.
#[local] Open Scope Z_scope.

(** [getaddrinfo] for a stream socket ([None]: it failed), a socket for one of
    the addresses, its two timeouts ([setsockopt] of seconds and microseconds),
    [connect], [write], [read] of at most so many bytes (nothing when it fails,
    times out or the peer has closed), [close]. *)
Class TcpOs (W : Type) := {
  tcp_address : Type;
  tcp_resolve : list Z -> list Z -> W -> option (list tcp_address) * W;
  tcp_socket : tcp_address -> W -> Z * W;
  set_sndtimeo : Z -> Z * Z -> W -> Z * W;
  set_rcvtimeo : Z -> Z * Z -> W -> Z * W;
  tcp_connect : Z -> tcp_address -> W -> Z * W;
  tcp_write : Z -> list Z -> W -> Z * W;
  tcp_read : Z -> Z -> W -> list Z * W;
  tcp_close : Z -> W -> W
}.

Definition http_crlf : list Z := [13; 10].

(** The text of the request, before it is cut to its buffer. *)
Definition get_request (host path : list Z) : list Z :=
  chars "GET " ++ path ++ chars " HTTP/1.0" ++ http_crlf ++ chars "Host: " ++ host ++ http_crlf ++ chars "Connection: close" ++ http_crlf ++ http_crlf.

(** What is made of the answer: the number behind its first space. *)
Definition answer_status (resp : list Z) : Z :=
  let s := c_string resp in
  match index_of 0x20 s with
  | Some sp => match scan_dec (drop (S sp) s) with Some (status, _) => status | None => -1 end
  | None => -1
  end.

Section get.
Context {W : Type} `{TcpOs W}.

Definition set_timeout (fd timeout_ms : Z) : M W Z :=
  let tv := (Z.quot timeout_ms 1000, Z.rem timeout_ms 1000 * 1000) in
  ret ← set_sndtimeo fd tv;
  if ret <? 0 then mret (-1)
  else
    ret ← set_rcvtimeo fd tv;
    mret (if ret <? 0 then -1 else 0).

(** The first of the addresses that lets itself be connected to. *)
Fixpoint connect_any (timeout_ms : Z) (addrs : list tcp_address) : M W (option Z) :=
  match addrs with
  | [] => mret None
  | rp :: addrs =>
      fd ← tcp_socket rp;
      if fd <? 0 then connect_any timeout_ms addrs
      else
        _ ← set_timeout fd timeout_ms;
        ret ← tcp_connect fd rp;
        if ret =? 0 then mret (Some fd) else modify (tcp_close fd) ;; connect_any timeout_ms addrs
  end.

(** Whether the whole request was taken; [n] is enough when it is not shorter
    than the request. *)
Fixpoint send_request (n : nat) (fd : Z) (req : list Z) : M W bool :=
  match n with
  | O => mret true
  | S n =>
      if bool_decide (req = []) then mret true
      else
        sent ← tcp_write fd req;
        if sent <=? 0 then mret false else send_request n fd (zdrop sent req)
  end.

(** The answer up to its first line, or what fits of it. *)
Fixpoint read_status_line (n : nat) (fd : Z) (resp : list Z) : M W (list Z) :=
  match n with
  | O => mret resp
  | S n =>
      if zlen resp + 1 <? 64 then
        piece ← tcp_read fd (64 - 1 - zlen resp);
        if bool_decide (piece = []) then mret resp
        else
          let resp := resp ++ piece in
          if existsb (Z.eqb 10) resp then mret resp else read_status_line n fd resp
      else mret resp
  end.

Definition http_get_status (host : list Z) (port : Z) (path : list Z) (timeout_ms : Z) : M W Z :=
  res ← tcp_resolve host (snprintf_cut 8 (fmt_dec port));
  match res with
  | None | Some [] => mret (-1)
  | Some addrs =>
      fd ← connect_any timeout_ms addrs;
      match fd with
      | None => mret (-1)
      | Some fd =>
          let req := get_request host path in
          if 512 <=? zlen req then modify (tcp_close fd) ;; mret (-1)
          else
            ok ← send_request (S (length req)) fd req;
            if negb ok then modify (tcp_close fd) ;; mret (-1)
            else
              resp ← read_status_line 64 fd [];
              modify (tcp_close fd) ;;
              mret (answer_status resp)
      end
  end.
End get.

(** ** The text of an answer *)

Lemma index_of_app c l k : Forall (fun b => b <> c) l -> index_of c (l ++ c :: k) = Some (length l).
Proof.
  induction 1 as [|b l Hb Hl IH]; cbn [app index_of length]; [by rewrite Z.eqb_refl|]; rewrite (proj2 (Z.eqb_neq _ _)) by done; by rewrite IH.
Qed.

Lemma c_string_app l k : Forall (fun b => b <> 0) l -> c_string (l ++ k) = l ++ c_string k.
Proof. induction 1 as [|b l Hb Hl IH]; [done|]; cbn [app c_string]; rewrite (proj2 (Z.eqb_neq _ _)) by done; by rewrite IH. Qed.

Lemma digits_not c z : 0 <= z < 2 ^ 63 -> ~ is_dec c -> Forall (fun b => b <> c) (fmt_dec z).
Proof.
  intros Hz Hc; destruct (fmt_dec_spec z Hz) as (_ & Hd & _); eapply list.Forall_impl; [exact Hd|]; by intros b Hb ->.
Qed.

(** A beginning of an answer that has its status has it right. *)
Lemma answer_status_found ver code rest : Forall (fun b => b <> 0 /\ b <> 0x20) ver -> 0 <= code < 2 ^ 31 -> ends_number rest ->
  answer_status (ver ++ 0x20 :: fmt_dec code ++ rest) = code.
Proof.
  intros Hv Hc Hr; unfold answer_status; rewrite c_string_app by (eapply list.Forall_impl; [exact Hv|cbn; tauto]); cbn [c_string Z.eqb].
  rewrite c_string_app by (apply digits_not; [lia|unfold is_dec; lia]).
  rewrite index_of_app by (eapply list.Forall_impl; [exact Hv|cbn; tauto]); rewrite drop_app_ge, (ltac:(lia) : (S (length ver) - length ver = 1)%nat) by lia.
  cbn [drop]; rewrite drop_0, scan_dec_fmt; [done|lia|]; destruct rest as [|c rest]; [done|]; cbn in *; destruct (Z.eqb_spec c 0); [done|done].
Qed.

(** ** A network: one server *)

(** What the client has open, what of the answer is still to come, what the
    server got. *)
Record net := mk_net { nt_calls : nat; nt_next : Z; nt_open : list Z; nt_left : list Z; nt_got : list Z }.
#[export] Instance eta_net : Eta net := fun s => mk_net (nt_calls s) (nt_next s) (nt_open s) (nt_left s) (nt_got s).

Section network.
(** The addresses of a host, by number; which calls fail; how much a read or a
    write transfers. *)
Context (addresses : option (list Z)) (fails : nat -> bool) (amount : nat -> Z).

Definition nt_called (w : net) : net := w <| nt_calls := S (nt_calls w) |>.

Definition network : TcpOs net := {|
  tcp_address := Z;
  tcp_resolve := fun _ _ w => (if fails (nt_calls w) then None else addresses, nt_called w);
  tcp_socket := fun _ w => if fails (nt_calls w) then (-1, nt_called w)
                           else (nt_next w, nt_called (w <| nt_next := nt_next w + 1 |> <| nt_open := nt_next w :: nt_open w |>));
  set_sndtimeo := fun _ _ w => (if fails (nt_calls w) then -1 else 0, nt_called w);
  set_rcvtimeo := fun _ _ w => (if fails (nt_calls w) then -1 else 0, nt_called w);
  tcp_connect := fun _ _ w => (if fails (nt_calls w) then -1 else 0, nt_called w);
  tcp_write := fun _ buf w => let n := Z.max 1 (Z.min (zlen buf) (amount (nt_calls w))) in
                              if fails (nt_calls w) then (-1, nt_called w) else (n, nt_called (w <| nt_got := nt_got w ++ ztake n buf |>));
  tcp_read := fun _ cap w => let n := Z.max 1 (Z.min cap (amount (nt_calls w))) in
                             if fails (nt_calls w) then ([], nt_called w)
                             else (ztake n (nt_left w), nt_called (w <| nt_left := zdrop n (nt_left w) |>));
  tcp_close := fun fd w => w <| nt_open := filter (fun x => x <> fd) (nt_open w) |>
|}.
#[local] Existing Instance network.

(** With descriptor [fd] open besides those of [w]. *)
Record holds (fd : Z) (w w' : net) : Prop := {
  hd_open : nt_open w' = fd :: nt_open w; hd_fresh : Forall (fun x => x <> fd) (nt_open w)
}.

Lemma closed fd w w' : holds fd w w' -> nt_open (tcp_close fd w') = nt_open w.
Proof.
  intros [Ho Hf]; cbn; change (filter (fun x => x <> fd) (nt_open w') = nt_open w); rewrite Ho, filter_cons_False by (by intros H).
  clear Ho; induction Hf as [|x l Hx Hf IH]; [done|]; rewrite filter_cons_True by done; by rewrite IH.
Qed.

Definition net_fresh (w : net) : Prop := Forall (fun x => x < nt_next w) (nt_open w) /\ 0 <= nt_next w.

Lemma timeout_quiet fd ms w : nt_open (set_timeout fd ms w).2 = nt_open w /\ nt_next (set_timeout fd ms w).2 = nt_next w /\
  nt_left (set_timeout fd ms w).2 = nt_left w /\ nt_got (set_timeout fd ms w).2 = nt_got w.
Proof. unfold set_timeout; rewrite bind_run; cbn [set_sndtimeo network fst snd]; by destruct (fails _). Qed.

(** Connecting opens one descriptor or none; without failures the first address
    is taken. *)
Lemma connect_opens ms addrs w : net_fresh w ->
  let x := connect_any ms addrs w in
  nt_left x.2 = nt_left w /\ nt_got x.2 = nt_got w /\
  match x.1 with Some fd => holds fd w x.2 | None => nt_open x.2 = nt_open w /\ (addrs <> [] -> exists k, fails k = true) end.
Proof.
  revert w; induction addrs as [|rp addrs IH]; intros w Hw; cbn [connect_any]; [done|]; cbv zeta.
  rewrite bind_run; cbn [tcp_socket network fst snd]; destruct (fails (nt_calls w)) eqn:E; cbn [fst snd].
  { rewrite (proj2 (Z.ltb_lt _ _)) by lia; destruct (IH (nt_called w) Hw) as (H1 & H2 & H3); split_and!; [done..|].
    destruct (connect_any ms addrs (nt_called w)).1; [by destruct H3|]; split; [apply H3|by eexists]. }
  destruct Hw as [Hf Hn]; rewrite (proj2 (Z.ltb_ge _ _)) by done; rewrite bind_run.
  set (w1 := nt_called _); destruct (timeout_quiet (nt_next w) ms w1) as (Q1 & Q2 & Q3 & Q4); destruct (set_timeout _ _ w1) as [r w2]; cbn [fst snd] in *.
  assert (Hh : holds (nt_next w) w (nt_called w2)) by (split; [exact Q1|]; eapply list.Forall_impl; [exact Hf|cbn; lia]).
  rewrite bind_run; cbn [tcp_connect network fst snd]; destruct (fails (nt_calls w2)) eqn:E2; cbn [Z.eqb]; [|split_and!; [exact Q3|exact Q4|exact Hh]].
  rewrite bind_run; cbn [modify fst snd]; set (w3 := tcp_close (nt_next w) (nt_called w2)).
  assert (Ho : nt_open w3 = nt_open w) by (exact (closed _ _ (nt_called w2) Hh)).
  destruct (IH w3) as (H1 & H2 & H3).
  { split; [rewrite Ho; eapply list.Forall_impl; [exact Hf|]; intros x Hx; cbn in Hx; change (x < nt_next w2); rewrite Q2; change (x < nt_next w + 1); lia|].
    change (0 <= nt_next w2); rewrite Q2; change (0 <= nt_next w + 1); lia. }
  change (nt_left w3) with (nt_left w2) in H1; change (nt_got w3) with (nt_got w2) in H2; split_and!; [by rewrite H1, Q3|by rewrite H2, Q4|].
  destruct (connect_any ms addrs w3).1; [destruct H3; split; congruence|]; split; [destruct H3; congruence|by eexists].
Qed.

(** What a transfer leaves alone. *)
Lemma send_transfers n : forall fd req w, (length req < n)%nat ->
  let x := send_request n fd req w in
  nt_open x.2 = nt_open w /\ nt_left x.2 = nt_left w /\ exists sent rest, req = sent ++ rest /\ nt_got x.2 = nt_got w ++ sent /\
    (x.1 = true -> rest = []) /\ (x.1 = false -> exists k, fails k = true).
Proof.
  induction n as [|n IH]; intros fd req w Hn; [lia|]; cbn [send_request]; cbv zeta; case_bool_decide as E.
  { subst req; split_and!; [done..|]; exists [], []; split_and!; [done|by rewrite app_nil_r|done|done]. }
  rewrite bind_run; cbn [tcp_write network fst snd]; destruct (fails (nt_calls w)) eqn:Ef; cbn [fst snd].
  { rewrite (proj2 (Z.leb_le _ _)) by lia; split_and!; [done..|]; exists [], req; split_and!; [done|by rewrite app_nil_r|done|by eexists]. }
  set (m := Z.max 1 _); assert (Hm : 1 <= m <= zlen req) by (assert (zlen req <> 0) by (by intros ?%zlen_eq_0); pose proof (zlen_nonneg req); subst m; lia).
  rewrite (proj2 (Z.leb_gt _ _)) by lia; pose proof (zlen_drop m req ltac:(lia)) as Hd.
  destruct (IH fd (zdrop m req) (nt_called (w <| nt_got := nt_got w ++ ztake m req |>))) as (H1 & H2 & sent & rest & E1 & E2 & H3).
  { unfold zlen in *; lia. }
  split_and!; [done..|]; exists (ztake m req ++ sent), rest; split_and!; [by rewrite <- app_assoc, <- E1, ztake_drop| |apply H3..].
  rewrite E2, app_assoc; reflexivity.
Qed.

(** What is read is a beginning of the answer: all of it, or with a line end in
    it, or sixty-three bytes - unless a read failed. *)
Lemma read_takes n : forall fd resp w, 64 <= zlen resp + Z.of_nat n ->
  let x := read_status_line n fd resp w in
  nt_open x.2 = nt_open w /\ nt_got x.2 = nt_got w /\ exists got rest, nt_left w = got ++ rest /\ x.1 = resp ++ got /\
    (rest = [] \/ 10 ∈ x.1 \/ 63 <= zlen x.1 \/ exists k, fails k = true).
Proof.
  induction n as [|n IH]; intros fd resp w Hn; cbn [read_status_line]; cbv zeta.
  { split_and!; [done..|]; exists [], (nt_left w); split_and!; [done|by rewrite app_nil_r|right; right; left; cbn; lia]. }
  destruct (Z.ltb_spec (zlen resp + 1) 64) as [Hlt|Hge].
  2: { split_and!; [done..|]; exists [], (nt_left w); split_and!; [done|by rewrite app_nil_r|right; right; left; cbn; lia]. }
  rewrite bind_run; cbn [tcp_read network fst snd]; destruct (fails (nt_calls w)) eqn:Ef; cbn [fst snd].
  { rewrite bool_decide_true by done; split_and!; [done..|]; exists [], (nt_left w); split_and!; [done|by rewrite app_nil_r|by right; right; right; eexists]. }
  set (m := Z.max 1 _); case_bool_decide as E.
  { split_and!; [done..|]; exists [], []; split_and!; [|by rewrite app_nil_r|by left].
    destruct (nt_left w) as [|b l]; [done|]; unfold ztake in E; by rewrite (ltac:(lia) : Z.to_nat m = S (Z.to_nat m - 1)) in E. }
  destruct (existsb (Z.eqb 10) (resp ++ ztake m (nt_left w))) eqn:Enl.
  { split_and!; [done..|]; exists (ztake m (nt_left w)), (zdrop m (nt_left w)); split_and!; [by rewrite ztake_drop|done|right; left; cbn].
    apply existsb_exists in Enl as (x & Hx & ->%Z.eqb_eq); by apply list_elem_of_In. }
  destruct (IH fd (resp ++ ztake m (nt_left w)) (nt_called (w <| nt_left := zdrop m (nt_left w) |>))) as (H1 & H2 & got & rest & E1 & E2 & H3).
  { rewrite zlen_app; assert (zlen (ztake m (nt_left w)) <> 0) by (by intros ?%zlen_eq_0); pose proof (zlen_nonneg (ztake m (nt_left w))); lia. }
  split_and!; [done..|]; exists (ztake m (nt_left w) ++ got), rest; split_and!; [|by rewrite E2, <- app_assoc|done].
  change (zdrop m (nt_left w) = got ++ rest) in E1; by rewrite <- app_assoc, <- E1, ztake_drop.
Qed.

Lemma status_read ver code rest got left : ver ++ 0x20 :: fmt_dec code ++ rest = got ++ left ->
  Forall (fun b => b <> 0 /\ b <> 0x20 /\ b <> 10) ver -> ends_number rest -> 0 <= code < 2 ^ 31 -> zlen ver + 1 + zlen (fmt_dec code) <= 63 ->
  left = [] \/ 10 ∈ got \/ 63 <= zlen got -> answer_status got = code.
Proof.
  intros E Hv Hr Hc Hl Hgot; set (p := ver ++ 0x20 :: fmt_dec code).
  assert (Hp : zlen p <= 63) by (unfold p; rewrite zlen_app, zlen_cons; lia).
  assert (Hn : 10 ∉ p).
  { unfold p; intros [H|[H|H]%elem_of_cons]%elem_of_app; [|done|]; [rewrite list.Forall_forall in Hv; by destruct (Hv _ H) as (_ & _ & ?)|].
    pose proof (digits_not 10 code ltac:(lia) ltac:(unfold is_dec; lia)) as Hd; rewrite list.Forall_forall in Hd; by destruct (Hd _ H). }
  assert (Hk : exists k, got = p ++ k /\ rest = k ++ left).
  { rewrite app_comm_cons, app_assoc in E; fold p in E; apply app_eq_inv in E as [(k & E1 & E2)|(k & E1 & E2)]; [|by exists k].
    destruct Hgot as [->|[H|H]].
    - symmetry in E2; apply app_nil in E2 as [-> ->]; exists []; by rewrite E1, !app_nil_r.
    - destruct Hn; rewrite E1; apply elem_of_app; by left.
    - rewrite E1, zlen_app in Hp; assert (k = []) as -> by (apply zlen_eq_0; pose proof (zlen_nonneg k); lia); exists []; rewrite app_nil_r in E1; by rewrite app_nil_r, E1. }
  destruct Hk as (k & -> & ->); unfold p; rewrite <- app_assoc; cbn [app]; apply answer_status_found; [|done|].
  - eapply list.Forall_impl; [exact Hv|cbn; tauto].
  - by destruct k.
Qed.

(** What a request to [w] with result [r] leaves as [w']. *)
Definition answered (req : list Z) (w : net) (r : Z) (w' : net) : Prop :=
  nt_open w' = nt_open w /\
  (exists sent rest, req = sent ++ rest /\ nt_got w' = nt_got w ++ sent /\ (r <> -1 -> rest = [])) /\
  (512 <= zlen req -> r = -1 /\ nt_got w' = nt_got w) /\
  ((forall k, fails k = false) -> (exists a l, addresses = Some (a :: l)) -> zlen req < 512 -> forall ver code rest,
     nt_left w = ver ++ 0x20 :: fmt_dec code ++ rest -> Forall (fun b => b <> 0 /\ b <> 0x20 /\ b <> 10) ver -> ends_number rest ->
     0 <= code < 2 ^ 31 -> zlen ver + 1 + zlen (fmt_dec code) <= 63 -> r = code /\ nt_got w' = nt_got w ++ req).

(** The encoder is asked and its answer understood.  Whatever the network
    does, the client closes every socket it opened, and what it sends is the
    request or, when it reports a failure, a beginning of it; a request too long
    for its buffer is not sent.  When nothing fails, the result is the number
    behind the first space of the answer's first line, in whatever pieces the
    answer comes. *)
Theorem http_get_answers host port path ms w : net_fresh w ->
  let x := http_get_status host port path ms w in answered (get_request host path) w x.1 x.2.
Proof.
  intros Hw; cbv zeta; unfold http_get_status; rewrite bind_run; cbn [tcp_resolve network fst snd].
  set (req := get_request host path); set (w0 := nt_called w).
  assert (Hno : forall w' sent rest, nt_open w' = nt_open w -> req = sent ++ rest -> nt_got w' = nt_got w ++ sent ->
    (512 <= zlen req -> sent = []) -> (zlen req < 512 -> addresses = None \/ addresses = Some [] \/ exists k, fails k = true) -> answered req w (-1) w').
  { intros w' sent rest H1 H2 H3 H4 H5; split_and!; [done|by exists sent, rest| |].
    - intros Hl; split; [done|]; by rewrite H3, (H4 Hl), app_nil_r.
    - intros Hk (a & l & Ha) Hl; destruct (H5 Hl) as [?|[?|[k Hk']]]; [congruence..|]; by rewrite Hk in Hk'. }
  assert (Hno0 : forall w', nt_open w' = nt_open w -> nt_got w' = nt_got w ->
    (zlen req < 512 -> addresses = None \/ addresses = Some [] \/ exists k, fails k = true) -> answered req w (-1) w').
  { intros w' H1 H2 H3; apply (Hno w' [] req); [done|done|by rewrite app_nil_r|done|done]. }
  destruct (fails (nt_calls w)) eqn:Ef; [apply Hno0; [done|done|intros _; right; right; by eexists]|].
  destruct addresses as [[|a l]|] eqn:Ea; [apply Hno0; [done|done|auto]| |apply Hno0; [done|done|auto]].
  rewrite bind_run; destruct (connect_opens ms (a :: l) w0 Hw) as (Cl & Cg & Hc); destruct (connect_any (H := network) ms (a :: l) w0) as [[fd|] w1]; cbn [fst snd] in *.
  2: { destruct Hc as [Ho Hk]; apply Hno0; [done|done|intros _; right; right; by apply Hk]. }
  destruct (Z.leb_spec 512 (zlen req)) as [Hlong|Hshort].
  { rewrite bind_run; cbn [modify fst snd]; apply Hno0; [exact (closed fd w w1 ltac:(by destruct Hc))|exact Cg|lia]. }
  rewrite bind_run; destruct (send_transfers (S (length req)) fd req w1 ltac:(lia)) as (So & Sl & sent & rest & E1 & E2 & St & Sf).
  destruct (send_request _ fd req w1) as [ok w2]; cbn [fst snd] in *.
  assert (Hc2 : holds fd w w2) by (destruct Hc; split; [by rewrite So|done]); destruct ok; cbn [negb].
  2: { rewrite bind_run; cbn [modify fst snd]; apply (Hno _ sent rest); [exact (closed fd w w2 Hc2)|done| |lia|intros _; right; right; by apply Sf].
       change (nt_got w2 = nt_got w ++ sent); by rewrite E2, Cg. }
  rewrite (St eq_refl), app_nil_r in E1; subst sent; clear St Sf.
  rewrite bind_run; destruct (read_takes 64 fd [] w2 ltac:(rewrite zlen_nil; lia)) as (Ro & Rg & got & left & F1 & F2 & Hgot).
  destruct (read_status_line 64 fd [] w2) as [resp w3]; cbn [fst snd app] in *; subst resp; rewrite bind_run; cbn [modify mret M_ret fst snd].
  assert (Hc3 : holds fd w w3) by (destruct Hc2; split; [by rewrite Ro|done]).
  assert (Hg : nt_got (tcp_close fd w3) = nt_got w ++ req) by (change (nt_got w3 = nt_got w ++ req); by rewrite Rg, E2, Cg).
  split_and!; [exact (closed fd w w3 Hc3)|exists req, []; split_and!; [by rewrite app_nil_r|done|done]|lia|].
  intros Hk _ _ ver code rest' El Hv Hr Hcode Hl; split; [|done]; rewrite Sl, Cl in F1; change (nt_left w0) with (nt_left w) in F1; rewrite F1 in El.
  apply (status_read ver code rest' got left); [done..|]; destruct Hgot as [?|[?|[?|[k Hk']]]]; [auto..|by rewrite Hk in Hk'].
Qed.
End network.

(** ** Concrete answers: five bytes at a time *)

Definition demo_net (answer : list Z) : net := mk_net 0 3 [0; 1; 2] answer [].

Lemma demo_net_fresh answer : net_fresh (demo_net answer).
Proof. split; [repeat constructor|]; cbn; lia. Qed.

Lemma http_get_answers_witness :
  (http_get_status (H := network (Some [7]) (fun _ => false) (fun _ => 5)) (chars "127.0.0.1") 80 (chars "/request/idr") 1000
    (demo_net (chars "HTTP/1.0 200 OK" ++ http_crlf ++ http_crlf))).1 = 200.
Proof.
  destruct (http_get_answers (Some [7]) (fun _ => false) (fun _ => 5) (chars "127.0.0.1") 80 (chars "/request/idr") 1000
    (demo_net (chars "HTTP/1.0 200 OK" ++ http_crlf ++ http_crlf)) (demo_net_fresh _)) as (_ & _ & _ & H).
  destruct (H ltac:(done) ltac:(by eexists _, _) ltac:(vm_compute; done) (chars "HTTP/1.0") 200 (chars " OK" ++ http_crlf ++ http_crlf)) as [E _];
    [vm_compute; reflexivity|repeat constructor; done|vm_compute; reflexivity|lia|vm_compute; done|exact E].
Defined.

(** A read that times out in the middle of the number: what is there of it. *)
Example cut_status :
  (http_get_status (H := network (Some [7]) (fun k => (7 <=? k)%nat) (fun k => if (k <? 6)%nat then 200 else 10)) (chars "127.0.0.1") 80 (chars "/request/idr") 1000
    (demo_net (chars "HTTP/1.0 404 Not Found" ++ http_crlf ++ http_crlf))).1 = 4.
Proof. vm_compute; reflexivity. Qed.
