(* ===== verification/LcTuning.v ===== *)
(** [lifecycled/lifecycle_tuning.c]: bandwidth, retransmission window, channel
    and output power -- what values are legal, how each is kept in its sidecar
    file, and the requests that put it on the chip.  The baseband SDK's
    [bb_ioctl] is a parameter. *)

From Stdlib Require Import String.
From S2P Require Import Prelude CtrlMsg ChipAdc Monad LcText.
#[local] Open Scope Z_scope.

(** ** The SDK *)

(** [bb_bandwidth_e], [bb_user_e], [bb_link_state_e], the modes of
    [BB_SET_POWER_AUTO] (mode 3 has no enumerator in the SDK), and the parts of
    [bb_set_remote_t]: their numbers are the SDK's and never matter here. *)
Inductive bb_bandwidth := BB_BW_1_25M | BB_BW_2_5M | BB_BW_5M | BB_BW_10M | BB_BW_20M | BB_BW_40M.
#[export] Instance bb_bandwidth_eq : EqDecision bb_bandwidth. Proof. solve_decision. Defined.
Inductive bb_user := BB_USER_0 | BB_USER_BR_CS.
#[export] Instance bb_user_eq : EqDecision bb_user. Proof. solve_decision. Defined.
Inductive bb_link_state := BB_LINK_STATE_IDLE | BB_LINK_STATE_CONNECT | BB_LINK_STATE_OTHER (raw : Z).
#[export] Instance bb_link_state_eq : EqDecision bb_link_state. Proof. solve_decision. Defined.
Inductive pwr_auto_mode := BB_PWR_AUTO_OFF | BB_PWR_AUTO_ON | BB_PWR_AUTO_DISCONNECT | PWR_AUTO_MODE_3.
Inductive remote_type := BB_REMOTE_TYPE_CHAN_MODE | BB_REMOTE_TYPE_TARGET_CHAN.

(** [bb_retx_cfg_t], the five fields the program knows. *)
Record retx_cfg := mk_retx { rx_win : Z; rx_busy : Z; rx_idle : Z; rx_conti_busy : Z; rx_conti_idle : Z }.

(** The requests that change the chip, with the fields they fill in. *)
Inductive lc_set :=
  | BB_SET_BANDWIDTH (slot : Z) (bandwidth : bb_bandwidth)
  | BB_SET_RETX_EVENT_STATUS (cfg : retx_cfg)
  | BB_SET_FRAME_CHANGE (mode : Z)
  | BB_SET_CHAN_MODE (auto_mode : Z)
  | BB_SET_CHAN_RX (chan_index : Z)
  | BB_SET_REMOTE (slot : Z) (types : list remote_type) (auto_chan target_chan : Z)
  | BB_SET_POWER_AUTO (mode : pwr_auto_mode) (max min : Z)
  | BB_SET_POWER (usr : bb_user) (pwr : Z)
  | BB_SET_CANDIDATES (slot : Z) (macs : list (list Z))
  | BB_SET_AP_MAC (mac : list Z).

(** [bb_get_status_out_t] and [bb_get_chan_info_out_t], as far as they are read;
    [bs_tx_bandwidth] is [None] for a value that is no enumerator. *)
Record bb_status := mk_bb_status {
  bs_links : list bb_link_state; bs_tx_bandwidth : bb_user -> option bb_bandwidth;
  bs_tx_freq_khz : bb_user -> Z; bs_rx_freq_khz : bb_user -> Z
}.
Record bb_chan_info := mk_chan_info { ci_auto_mode : Z; ci_work_chan : Z; ci_chan_num : Z; ci_freq : list Z }.

(** [bb_ioctl] on the open device, per kind of request: the result, what it
    read, the world behind it.  [BB_CONFIG_MAX_CHAN_NUM] and
    [BB_CONFIG_MAX_SLOT_CANDIDATE] are the SDK's sizes of the channel table and
    of a slot's candidate list. *)
Class LcSdk (W : Type) := {
  BB_CONFIG_MAX_CHAN_NUM : Z;
  BB_CONFIG_MAX_CHAN_NUM_ok : 0 < BB_CONFIG_MAX_CHAN_NUM <= 256;
  BB_CONFIG_MAX_SLOT_CANDIDATE : Z;
  BB_CONFIG_MAX_SLOT_CANDIDATE_ok : 0 < BB_CONFIG_MAX_SLOT_CANDIDATE <= 255;
  bb_set : lc_set -> W -> Z * W;
  bb_get_status : Z -> W -> Z * bb_status * W;
  bb_get_chan_info : W -> Z * bb_chan_info * W;
  bb_get_cur_power : bb_user -> W -> Z * Z * W;
  bb_get_distc_result : W -> Z * Z * W;
  bb_daemon_set_dbg_level : list Z -> Z -> W -> W;
  bb_daemon_get_dbg_level : list Z -> W -> Z * W
}.

(** ** Bandwidth *)

(** [BW_MHZ_BY_ENUM] *)
Definition bw_mhz (e : bb_bandwidth) : Z :=
  match e with
  | BB_BW_1_25M => 1 | BB_BW_2_5M => 2 | BB_BW_5M => 5 | BB_BW_10M => 10 | BB_BW_20M => 20 | BB_BW_40M => 40
  end.

Definition all_bandwidths : list bb_bandwidth := [BB_BW_1_25M; BB_BW_2_5M; BB_BW_5M; BB_BW_10M; BB_BW_20M; BB_BW_40M].

(** -1 is [None]. *)
Definition mhz_to_bw_enum (mhz : Z) : option bb_bandwidth := List.find (fun e => bw_mhz e =? mhz) all_bandwidths.

Definition is_some {A} (o : option A) : bool := match o with Some _ => true | None => false end.

Definition lc_tuning_valid_mhz (mhz : Z) : bool := is_some (mhz_to_bw_enum mhz).

Definition LC_CHANNEL_AUTO : Z := -1.
Definition LC_CHANNEL_NONE : Z := -2.
Definition LC_POWER_AUTO : Z := -1.
Definition LC_POWER_NONE : Z := -2.
Definition LC_POWER_ROLE_DEFAULT : Z := -3.

Section files.
Context {W : Type} `{LcFs W}.

Definition lc_tuning_load (cfg_path : list Z) (w : W) : Z :=
  match sidecar_read cfg_path (chars "ar8030.tuning") w with
  | None => -1
  | Some text =>
      match scan_dec text with
      | Some (mhz, _) => if lc_tuning_valid_mhz mhz then mhz else -1
      | None => -1
      end
  end.

Definition lc_tuning_save (cfg_path : list Z) (bandwidth_mhz : Z) : M W Z :=
  if negb (lc_tuning_valid_mhz bandwidth_mhz) then mret (-1)
  else sidecar_write cfg_path (chars "ar8030.tuning") (fmt_dec bandwidth_mhz ++ [10]).

(** ** Retransmission window *)

Definition fits_u8 (z : Z) : bool := (0 <=? z) && (z <=? 255).

Definition lc_retx_valid (win busy idle conti_busy conti_idle : Z) : bool :=
  fits_u8 win && fits_u8 busy && fits_u8 idle && fits_u8 conti_busy && fits_u8 conti_idle.

(** Five [%d]s. *)
Definition scan_retx (text : list Z) : option (Z * Z * Z * Z * Z) :=
  '(win, s) ← scan_dec text; '(busy, s) ← scan_dec s; '(idle, s) ← scan_dec s;
  '(conti_busy, s) ← scan_dec s; '(conti_idle, _) ← scan_dec s;
  Some (win, busy, idle, conti_busy, conti_idle).

Definition lc_retx_load (cfg_path : list Z) (w : W) : option retx_cfg :=
  match sidecar_read cfg_path (chars "ar8030.retx") w with
  | None => None
  | Some text =>
      match scan_retx text with
      | Some (win, busy, idle, conti_busy, conti_idle) =>
          if lc_retx_valid win busy idle conti_busy conti_idle
          then Some (mk_retx (u8 win) (u8 busy) (u8 idle) (u8 conti_busy) (u8 conti_idle)) else None
      | None => None
      end
  end.

Definition fmt_retx (win busy idle conti_busy conti_idle : Z) : list Z :=
  fmt_dec win ++ [32] ++ fmt_dec busy ++ [32] ++ fmt_dec idle ++ [32] ++ fmt_dec conti_busy ++ [32] ++ fmt_dec conti_idle ++ [10].

Definition lc_retx_save (cfg_path : list Z) (win busy idle conti_busy conti_idle : Z) : M W Z :=
  if negb (lc_retx_valid win busy idle conti_busy conti_idle) then mret (-1)
  else sidecar_write cfg_path (chars "ar8030.retx") (fmt_retx win busy idle conti_busy conti_idle).

(** ** Channel *)

(** [None]: the C function's -1. *)
Definition lc_channel_parse `{LcSdk W} (s : list Z) : option Z :=
  if decide (s = []) then None
  else if decide (s = chars "auto") then Some LC_CHANNEL_AUTO
  else if decide (s = chars "none") then Some LC_CHANNEL_NONE
  else
    match strtol10 s with
    | Some (v, []) => if (v <? 0) || (BB_CONFIG_MAX_CHAN_NUM <=? v) then None else Some v
    | _ => None
    end.

Definition lc_channel_load `{LcSdk W} (cfg_path : list Z) (w : W) : option Z :=
  match sidecar_read cfg_path (chars "ar8030.channel") w with
  | None => None
  | Some text =>
      match scan_word text with
      | Some word =>
          match lc_channel_parse word with
          | Some chan => if chan =? LC_CHANNEL_NONE then None else Some chan
          | None => None
          end
      | None => None
      end
  end.

(** The bound both [lc_channel_save] and [lifecycle_request_channel] put on it. *)
Definition channel_in_range `{LcSdk W} (chan : Z) : bool :=
  negb (negb (chan =? LC_CHANNEL_AUTO) && ((chan <? 0) || (BB_CONFIG_MAX_CHAN_NUM <=? chan))).

Definition lc_channel_save `{LcSdk W} (cfg_path : list Z) (chan : Z) : M W Z :=
  if negb (channel_in_range chan) then mret (-1)
  else sidecar_write cfg_path (chars "ar8030.channel")
         (if chan =? LC_CHANNEL_AUTO then chars "auto" ++ [10] else fmt_dec chan ++ [10]).

(** ** Output power *)

(** [AP_POWER_LEVELS], [DEV_POWER_LEVELS]: mW and dBm. *)
Definition AP_POWER_LEVELS : list (Z * Z) := [(400, 26); (200, 22); (100, 19); (25, 13)].
Definition DEV_POWER_LEVELS : list (Z * Z) := [(500, 24); (200, 20); (100, 17); (25, 11)].
Definition DEV_AUTO_DBM : Z := 24.
Definition DEV_AUTO_MIN_DBM : Z := 14.
Definition DEV_AUTO_MAX_DBM : Z := 27.
Definition DEV_AUTO_CAP_MW : Z := 500.
Definition DEV_TARGET_OFFSET_DBM : Z := 3.

Definition power_levels (is_ap : bool) : list (Z * Z) := if is_ap then AP_POWER_LEVELS else DEV_POWER_LEVELS.

Definition power_level_dbm (is_ap : bool) (level : Z) : Z :=
  if level =? LC_POWER_AUTO then (if is_ap then -1 else DEV_AUTO_DBM)
  else match List.find (fun '(mw, _) => mw =? level) (power_levels is_ap) with
       | Some (_, dbm) => dbm
       | None => -1
       end.

Definition lc_power_parse (s : list Z) : option Z :=
  if decide (s = []) then None
  else if decide (s = chars "auto") then Some LC_POWER_AUTO
  else if decide (s = chars "none") then Some LC_POWER_NONE
  else
    match strtol10 s with
    | None => None
    | Some (v, rest) =>
        if negb (bool_decide (rest = []) || bool_decide (rest = chars "mw") || bool_decide (rest = chars "mW")) ||
           (v <=? 0) || (10000 <? v)
        then None else Some v
    end.

Definition power_within (max_mw level : Z) : bool :=
  (max_mw <=? 0) || ((if level =? LC_POWER_AUTO then DEV_AUTO_CAP_MW else level) <=? max_mw).

Definition lc_power_valid (is_ap : bool) (max_mw level : Z) : bool :=
  (0 <=? power_level_dbm is_ap level) && power_within max_mw level.

Definition lc_power_default (is_ap : bool) (max_mw : Z) : Z :=
  let def := if is_ap then 400 else 500 in
  if power_within max_mw def then def
  else match List.find (fun '(mw, _) => power_within max_mw mw) (power_levels is_ap) with
       | Some (mw, _) => mw
       | None => -1
       end.

(** The array body built by [snprintf] calls into [out_sz] bytes: the text so
    far and [len], which counts what would have been written. *)
Definition snprintf_at (out_sz : Z) (st : list Z * Z) (piece : list Z) : list Z * Z :=
  let '(out, len) := st in (out ++ snprintf_cut (out_sz - len) piece, len + zlen piece).

Definition lc_power_levels_json (is_ap : bool) (max_mw out_sz : Z) : list Z :=
  let st := if negb is_ap && power_within max_mw LC_POWER_AUTO
            then snprintf_at out_sz ([], 0) ([0x22] ++ chars "auto" ++ [0x22]) else ([], 0) in
  fst ((fix levels (l : list (Z * Z)) (st : list Z * Z) : list Z * Z :=
          match l with
          | [] => st
          | (mw, _) :: l =>
              if negb (snd st <? out_sz) then st
              else levels l (if power_within max_mw mw
                             then snprintf_at out_sz st ((if snd st =? 0 then [] else chars ",") ++ fmt_dec mw) else st)
          end) (power_levels is_ap) st).

Definition lc_power_load (cfg_path : list Z) (w : W) : option Z :=
  match sidecar_read cfg_path (chars "ar8030.power") w with
  | None => None
  | Some text =>
      match scan_word text with
      | Some word =>
          match lc_power_parse word with
          | Some level => if level =? LC_POWER_NONE then None else Some level
          | None => None
          end
      | None => None
      end
  end.

Definition lc_power_save (cfg_path : list Z) (level : Z) : M W Z :=
  if negb (level =? LC_POWER_AUTO) && (level <=? 0) then mret (-1)
  else sidecar_write cfg_path (chars "ar8030.power")
         (if level =? LC_POWER_AUTO then chars "auto" ++ [10] else fmt_dec level ++ [10]).
End files.

(** ** On the chip *)

(** [DAEMON_LOG_NAMES] *)
Definition DAEMON_LOG_NAMES : list (list Z) := [chars "debug"; chars "info"; chars "warn"; chars "error"].

Definition lc_daemon_log_parse (s : list Z) : Z :=
  if decide (s = chars "keep") then -1
  else match list_find (fun n => s = n) DAEMON_LOG_NAMES with
       | Some (i, _) => Z.of_nat i
       | None => -2
       end.

Section chip.
Context {W : Type} `{LcSdk W}.

Definition lc_tuning_read_current (is_ap : bool) : M W Z :=
  '(ret, out) ← bb_get_status 0xffff;
  if negb (ret =? 0) then mret (-1)
  else match bs_tx_bandwidth out (if is_ap then BB_USER_BR_CS else BB_USER_0) with
       | None => mret (-1)
       | Some bw => mret (bw_mhz bw)
       end.

Definition lc_tuning_apply (slot bandwidth_mhz : Z) : M W Z :=
  match mhz_to_bw_enum bandwidth_mhz with
  | None => mret (-1)
  | Some bw => bb_set (BB_SET_BANDWIDTH (u8 slot) bw)
  end.

Definition lc_tuning_resolve_connected_slot : M W Z :=
  '(ret, out) ← bb_get_status 0xffff;
  if negb (ret =? 0) then mret (-1)
  else match list_find (fun st => st = BB_LINK_STATE_CONNECT) (bs_links out) with
       | Some (s, _) => mret (Z.of_nat s)
       | None => mret (-1)
       end.

Definition lc_retx_apply (win busy idle conti_busy conti_idle : Z) : M W Z :=
  if negb (lc_retx_valid win busy idle conti_busy conti_idle) then mret (-1)
  else bb_set (BB_SET_RETX_EVENT_STATUS (mk_retx (u8 win) (u8 busy) (u8 idle) (u8 conti_busy) (u8 conti_idle))).

Definition lc_frame_change_apply (mode : Z) : M W Z := bb_set (BB_SET_FRAME_CHANGE (if mode =? 0 then 0 else 1)).

Definition lc_daemon_log_apply (level : Z) : M W Z :=
  (fun w => (tt, bb_daemon_set_dbg_level (chars "print_level") level w)) ;;
  now ← bb_daemon_get_dbg_level (chars "print_level");
  mret (if now =? level then 0 else -1).

(** [auto_mode], [work_chan], [chan_num]; [None] for -1. *)
Definition lc_channel_read : M W (option (bool * Z * Z)) :=
  '(ret, out) ← bb_get_chan_info;
  mret (if negb (ret =? 0) then None else Some (negb (ci_auto_mode out =? 0), ci_work_chan out, ci_chan_num out)).

(** [down], [up]: 0 where unreadable. *)
Definition lc_channel_read_link_khz : M W (Z * Z) :=
  '(ret, out) ← bb_get_status 0xffff;
  mret (if negb (ret =? 0) then (0, 0) else (bs_tx_freq_khz out BB_USER_BR_CS, bs_rx_freq_khz out BB_USER_0)).

(** The entries; [None] for -1. *)
Definition lc_channel_read_table (max : Z) : M W (option (list Z)) :=
  '(ret, out) ← bb_get_chan_info;
  if negb (ret =? 0) then mret None
  else
    let n := ci_chan_num out in
    let n := if BB_CONFIG_MAX_CHAN_NUM <? n then BB_CONFIG_MAX_CHAN_NUM else n in
    let n := if max <? n then max else n in
    mret (Some (ztake n (ci_freq out))).

Definition lc_channel_matches (chan : Z) (auto_mode : bool) (work_chan : Z) : bool :=
  if chan =? LC_CHANNEL_AUTO then auto_mode else negb auto_mode && (work_chan =? chan).

Definition lc_channel_apply_mode (chan : Z) : M W Z := bb_set (BB_SET_CHAN_MODE (bool_int (chan =? LC_CHANNEL_AUTO))).

Definition lc_channel_apply_local (chan : Z) : M W Z :=
  ret ← lc_channel_apply_mode chan;
  if negb (ret =? 0) || (chan =? LC_CHANNEL_AUTO) then mret ret else bb_set (BB_SET_CHAN_RX (u8 chan)).

Definition lc_channel_apply_linked (slot chan : Z) : M W Z :=
  ret ← lc_channel_apply_local chan;
  if negb (ret =? 0) then mret ret
  else bb_set (if chan =? LC_CHANNEL_AUTO
               then BB_SET_REMOTE (u8 slot) [BB_REMOTE_TYPE_CHAN_MODE] 1 0
               else BB_SET_REMOTE (u8 slot) [BB_REMOTE_TYPE_CHAN_MODE; BB_REMOTE_TYPE_TARGET_CHAN] 0 (u8 chan)).

Definition power_auto_ioctl (mode : pwr_auto_mode) (max min : Z) : M W Z := bb_set (BB_SET_POWER_AUTO mode (u8 max) (u8 min)).

Definition ap_power_apply_dbm `{ChipIoctl W} (dbm auto3 : Z) (fem_ctrl : bool) : M W Z :=
  ret ← (if fem_ctrl then power_auto_ioctl PWR_AUTO_MODE_3 auto3 auto3 else mret 0);
  ret' ← power_auto_ioctl BB_PWR_AUTO_DISCONNECT dbm dbm;
  r ← bb_set (BB_SET_POWER BB_USER_BR_CS (u8 dbm));
  rf ← (if fem_ctrl then ar8030_set_fem_ctrl (AR8030_FEM_CTRL_MIN_DBM <=? dbm) else mret 0);
  mret (Z.lor (Z.lor ret ret') (Z.lor r rf)).

(** With the SDK's [BB_HAVE_PWR_AUTO_BOUNDS]. *)
Definition lc_power_apply `{ChipIoctl W} (is_ap : bool) (level : Z) (fem_ctrl : bool) : M W Z :=
  let dbm := power_level_dbm is_ap level in
  if dbm <? 0 then mret (-1)
  else if is_ap then ap_power_apply_dbm dbm 1 fem_ctrl
  else
    ret ← (if level =? LC_POWER_AUTO then power_auto_ioctl BB_PWR_AUTO_ON DEV_AUTO_MAX_DBM DEV_AUTO_MIN_DBM
           else power_auto_ioctl BB_PWR_AUTO_OFF (DEV_AUTO_MIN_DBM + 3) DEV_AUTO_MIN_DBM);
    ret' ← power_auto_ioctl BB_PWR_AUTO_DISCONNECT dbm dbm;
    let target := dbm + DEV_TARGET_OFFSET_DBM in
    r ← bb_set (BB_SET_POWER BB_USER_0 (u8 target));
    mret (Z.lor (Z.lor ret ret') r).

Definition lc_power_apply_standby `{ChipIoctl W} (dbm : Z) (fem_ctrl : bool) : M W Z := ap_power_apply_dbm dbm 0 fem_ctrl.

Definition lc_power_read_dbm (is_ap : bool) : M W Z :=
  '(ret, pwr) ← bb_get_cur_power (if is_ap then BB_USER_BR_CS else BB_USER_0);
  mret (if negb (ret =? 0) then -1 else pwr).

Definition lc_distance_read_m : M W Z :=
  '(ret, d) ← bb_get_distc_result;
  mret (if negb (ret =? 0) then -1 else if 0 <=? d then d else -1).
End chip.
