(* ===== verification/LcPair.v ===== *)
(** [lifecycled/lifecycle_pair.c]: the paired peer in the baseband JSON and,
    on the ground, the list of remembered air units ([ar8030.peers]) that is
    handed to the chip as candidates.  cJSON, the SDK and the [ar8030-pair]
    program are parameters. *)

From Stdlib Require Import String.
From S2P Require Import Prelude CtrlMsg Monad LcText LcTuning.
#[local] Open Scope Z_scope.

Definition BB_MAC_LEN : Z := 4.

(** [cJSON_Parse], [cJSON_Print] and the accessors, on an abstract tree; the
    tree is edited in place in C: [cJSON_SetAt j path v] is [j] with [v] under
    the last key of [path], added or replaced ([cJSON_AddItemToObject],
    [cJSON_AddObjectToObject], [cJSON_ReplaceItemInObject] on the object the
    earlier keys lead to). *)
Class CJson := {
  cjson : Type;
  cJSON_Parse : list Z -> option cjson;
  cJSON_Print : cjson -> option (list Z);
  cJSON_GetObjectItem : cjson -> list Z -> option cjson;
  cJSON_valuestring : cjson -> option (list Z);
  cJSON_GetArrayItem0 : cjson -> option cjson;
  cJSON_SetAt : cjson -> list (list Z) -> cjson -> cjson;
  cJSON_CreateObject : cjson;
  cJSON_CreateString : list Z -> cjson;
  cJSON_Array1 : cjson -> cjson
}.

(** A chain of [cJSON_GetObjectItem]s. *)
Fixpoint json_get `{CJson} (j : cjson) (path : list (list Z)) : option cjson :=
  match path with
  | [] => Some j
  | key :: path => j ← cJSON_GetObjectItem j key; json_get j path
  end.

(** ** MAC addresses as text *)

(** [%2x]: white space, then the longest start of a hexadecimal number within
    two characters ([0x] alone is no number). *)
Definition scan_x2 (s : list Z) : option (Z * list Z) :=
  match skip_spaces s with
  | c :: s' =>
      if (c =? 0x2d) || (c =? 0x2b) then
        match s' with
        | d :: s'' => v ← hex_value d; Some (u32 (if c =? 0x2d then - v else v), s'')
        | [] => None
        end
      else
        v ← hex_value c;
        match s' with
        | d :: s'' =>
            if (c =? 0x30) && ((d =? 0x78) || (d =? 0x58)) then None
            else match hex_value d with
                 | Some v' => Some (v * 16 + v', s'')
                 | None => Some (v, s')
                 end
        | [] => Some (v, [])
        end
  | [] => None
  end.

Definition mac_parse (hex : list Z) : option (list Z) :=
  if negb (zlen hex =? 2 * BB_MAC_LEN) then None
  else
    '(b0, s) ← scan_x2 hex; '(b1, s) ← scan_x2 s; '(b2, s) ← scan_x2 s; '(b3, _) ← scan_x2 s;
    Some [u8 b0; u8 b1; u8 b2; u8 b3].

(** [%02x] of a byte. *)
Definition fmt_02x (b : Z) : list Z := [hex_digit (b / 16); hex_digit (b mod 16)].

Definition mac_hex (mac : list Z) : list Z := flat_map fmt_02x mac.

Definition mac_in (mac : list Z) (tab : list (list Z)) : bool := existsb (fun m => bool_decide (m = mac)) tab.

(** ** The remembered air units *)

Definition LC_PEERS_FILE : list Z := chars "ar8030.peers".

(** [fgets(line, 32, f)]: up to 31 characters, ending behind a newline. *)
Fixpoint fgets (n : nat) (s : list Z) : list Z * list Z :=
  match n, s with
  | S n, c :: s' => if c =? 10 then ([c], s') else let '(l, rest) := fgets n s' in (c :: l, rest)
  | _, _ => ([], s)
  end.

(** The line up to the first of ["\r\n \t"] (or its end). *)
Fixpoint cut_line (line : list Z) : list Z :=
  match line with
  | c :: line => if (c =? 13) || (c =? 10) || (c =? 32) || (c =? 9) || (c =? 0) then [] else c :: cut_line line
  | [] => []
  end.

(** The reading loop; every round takes at least one character. *)
Fixpoint peers_lines (fuel : nat) (max : Z) (s : list Z) (out : list (list Z)) : list (list Z) :=
  match fuel, s with
  | S fuel, _ :: _ =>
      if negb (zlen out <? max) then out
      else
        let '(line, s) := fgets 31 s in
        match mac_parse (cut_line line) with
        | Some mac => peers_lines fuel max s (if mac_in mac out then out else out ++ [mac])
        | None => peers_lines fuel max s out
        end
  | _, _ => out
  end.

Section files.
Context {W : Type} `{LcFs W} `{LcSdk W} `{CJson}.

Definition lc_peers_load (cfg_path : list Z) (max : Z) (w : W) : list (list Z) :=
  match sidecar_read cfg_path LC_PEERS_FILE w with
  | None => []
  | Some text => peers_lines (length text) max text []
  end.

Definition peers_text (tab : list (list Z)) : list Z := flat_map (fun mac => mac_hex mac ++ [10]) tab.

Definition peers_save (cfg_path : list Z) (tab : list (list Z)) : M W Z :=
  sidecar_write cfg_path LC_PEERS_FILE (peers_text tab).

(** Reading and parsing the baseband JSON. *)
Definition read_json (cfg_path : list Z) (w : W) : option cjson := buf ← fs_read cfg_path w; cJSON_Parse buf.

Definition basic_path (is_ap : bool) : list (list Z) :=
  [chars "baseband"; chars "basic"; if is_ap then chars "ap" else chars "dev"].

Definition lc_pair_read_ap_mac (cfg_path : list Z) (w : W) : option (list Z) :=
  root ← read_json cfg_path w;
  apmac ← json_get root (basic_path false ++ [chars "ap_mac"]);
  text ← cJSON_valuestring apmac;
  mac_parse text.

(** [ap_mac] first, then the remembered ones, deduplicated. *)
Fixpoint add_known (max : Z) (known out : list (list Z)) : list (list Z) :=
  match known with
  | [] => out
  | m :: known =>
      if negb (zlen out <? max) then out
      else add_known max known (if mac_in m out then out else out ++ [m])
  end.

Definition peers_effective (cfg_path : list Z) (max : Z) (w : W) : list (list Z) :=
  let out := match lc_pair_read_ap_mac cfg_path w with
             | Some ap => if 0 <? max then [ap] else []
             | None => []
             end in
  add_known max (lc_peers_load cfg_path BB_CONFIG_MAX_SLOT_CANDIDATE w) out.

Definition lc_peers_push (cfg_path : list Z) : M W Z :=
  macs ← gets (peers_effective cfg_path BB_CONFIG_MAX_SLOT_CANDIDATE);
  if u8 (zlen macs) =? 0 then mret 0 else bb_set (BB_SET_CANDIDATES 0 macs).

(** The new list on a fresh pair: newest first, the oldest falls off a full one. *)
Definition remember (ap : list Z) (known : list (list Z)) : list (list Z) :=
  let n := if zlen known =? BB_CONFIG_MAX_SLOT_CANDIDATE then zlen known - 1 else zlen known in
  ap :: ztake n known.

Definition lc_peers_note_ap_mac (cfg_path : list Z) : M W Z :=
  ap ← gets (lc_pair_read_ap_mac cfg_path);
  match ap with
  | None => mret (-1)
  | Some ap =>
      known ← gets (lc_peers_load cfg_path BB_CONFIG_MAX_SLOT_CANDIDATE);
      if mac_in ap known then mret 0
      else
        ret ← peers_save cfg_path (remember ap known);
        if negb (ret =? 0) then mret (-1) else lc_peers_push cfg_path
  end.

(** Whether the loop of [lc_peers_forget] drops an entry; [target] is [None]
    for "all". *)
Definition forget_drops (ap target : option (list Z)) (m : list Z) : bool :=
  match target with
  | Some t => bool_decide (m = t)
  | None => negb (bool_decide (ap = Some m))
  end.

Definition lc_peers_forget (cfg_path : list Z) (mac_hex_in : option (list Z)) : M W Z :=
  ap ← gets (lc_pair_read_ap_mac cfg_path);
  let parsed := match mac_hex_in with
                | Some hex => match mac_parse hex with Some t => Some (Some t) | None => None end
                | None => Some None
                end in
  match parsed with
  | None => mret (-1)
  | Some target =>
      if is_some target && bool_decide (ap = target) then mret (-2)
      else
        known ← gets (lc_peers_load cfg_path BB_CONFIG_MAX_SLOT_CANDIDATE);
        let kept := filter (fun m => negb (forget_drops ap target m)) known in
        if zlen kept =? zlen known then mret (if is_some target then -3 else 0)
        else
          ret ← peers_save cfg_path kept;
          mret (if ret =? 0 then zlen known - zlen kept else -4)
  end.

(** ** The paired peer *)

Definition str_paired : list Z := chars ".paired".

Definition lc_pair_has_been_paired (cfg_path : list Z) (w : W) : bool :=
  is_some (fs_read (snprintf_cut 520 (cfg_path ++ str_paired)) w).

(** The text of [lc_pair_apply_known_candidate]'s [mac_hex]. *)
Definition known_mac_hex (root : cjson) (is_ap : bool) : option (list Z) :=
  item ← (if is_ap
          then arr ← json_get root (basic_path true ++ [chars "candidate"; chars "slot"]); cJSON_GetArrayItem0 arr
          else json_get root (basic_path false ++ [chars "ap_mac"]));
  text ← cJSON_valuestring item;
  if decide (text = []) then None else Some text.

(** [sscanf(mac_hex + i * 2, "%2x", &byte)] per byte, 0 where it fails. *)
Definition loose_mac (hex : list Z) : list Z :=
  map (fun i => match scan_x2 (zdrop (i * 2) hex) with Some (v, _) => u8 v | None => 0 end) (seqZ 0 BB_MAC_LEN).

Definition lc_pair_apply_known_candidate (cfg_path : list Z) (is_ap : bool) : M W Z :=
  root ← gets (read_json cfg_path);
  match (root ← root; known_mac_hex root is_ap) with
  | None => mret (-1)
  | Some hex =>
      if zlen hex <? 2 * BB_MAC_LEN then mret (-1)
      else if is_ap then bb_set (BB_SET_CANDIDATES 0 [loose_mac hex])
      else ret ← bb_set (BB_SET_AP_MAC (loose_mac hex)); _ ← lc_peers_push cfg_path; mret ret
  end.

(** The edit [lc_pair_persist] makes to the tree; [None] without the section. *)
Definition persist_edit (root : cjson) (slot : Z) (is_ap : bool) (hex : list Z) : option cjson :=
  _ ← json_get root (basic_path is_ap);
  if is_ap then
    let cand := basic_path true ++ [chars "candidate"] in
    let root := match json_get root cand with Some _ => root | None => cJSON_SetAt root cand cJSON_CreateObject end in
    let key := if is_some (json_get root (cand ++ [chars "slot"])) then chars "slot"
               else snprintf_cut 8 (chars "slot" ++ fmt_dec slot) in
    Some (cJSON_SetAt root (cand ++ [key]) (cJSON_Array1 (cJSON_CreateString hex)))
  else Some (cJSON_SetAt root (basic_path false ++ [chars "ap_mac"]) (cJSON_CreateString hex)).

(** The rename of the new JSON over the old, then the marker file. *)
Definition persist_write (cfg_path hex text : list Z) : M W Z :=
  let tmp_path := snprintf_cut 512 (cfg_path ++ str_tmp) in
  opened ← fs_write tmp_path text;
  if negb opened then mret (-2)
  else
    renamed ← fs_rename tmp_path cfg_path;
    if negb renamed then mret (-1)
    else _ ← fs_write (snprintf_cut 520 (cfg_path ++ str_paired)) (hex ++ [10]); mret 0.

(** The early returns come before the live update of the chip, a failed
    [rename] does not. *)
Definition lc_pair_persist (cfg_path : list Z) (slot : Z) (is_ap : bool) (mac : list Z) : M W Z :=
  root ← gets (read_json cfg_path);
  match (root ← root; root ← persist_edit root slot is_ap (mac_hex mac); cJSON_Print root) with
  | None => mret (-1)
  | Some text =>
      ret ← persist_write cfg_path (mac_hex mac) text;
      if ret =? -2 then mret (-1)
      else
        _ ← bb_set (if is_ap then BB_SET_CANDIDATES (u8 slot) [mac] else BB_SET_AP_MAC mac);
        mret ret
  end.
End files.

(** ** [ar8030-pair]'s report *)

(** A literal of a [scanf] format: a space stands for any white space. *)
Fixpoint scan_literal (fmt s : list Z) : option (list Z) :=
  match fmt with
  | [] => Some s
  | f :: fmt =>
      if is_space f then scan_literal fmt (skip_spaces s)
      else match s with
           | c :: s => if c =? f then scan_literal fmt s else None
           | [] => None
           end
  end.

(** [%8[0-9a-fA-F]] *)
Fixpoint take_hex (n : nat) (s : list Z) : list Z * list Z :=
  match n, s with
  | S n, c :: s' => match hex_value c with
                    | Some _ => let '(h, rest) := take_hex n s' in (c :: h, rest)
                    | None => ([], s)
                    end
  | _, _ => ([], s)
  end.

(** [strstr] *)
Fixpoint strstr (s pat : list Z) : option (list Z) :=
  if has_prefix pat s then Some s
  else match s with
       | _ :: s => strstr s pat
       | [] => None
       end.

Definition str_pair_peer : list Z := chars "pair: peer ".

Definition parse_pair_output (buf : list Z) : option (Z * list Z) :=
  p ← strstr buf str_pair_peer;
  let '(hex, s) := take_hex 8 (zdrop (zlen str_pair_peer) p) in
  if decide (hex = []) then None
  else
    s ← scan_literal (chars " connected on slot ") s;
    '(slot, _) ← scan_dec s;
    if negb (zlen hex =? 8) then None else Some (slot, loose_mac hex).

(** [run_pair_tool] and [lc_hooks_dispatch] start other programs. *)
Class LcPrograms (W : Type) := {
  run_pair_tool : list Z -> W -> Z * list Z * W;
  lc_hooks_dispatch : list Z -> Z -> option (list Z) -> W -> W
}.

Section pair_run.
Context {W : Type} `{LcPrograms W}.

Definition hook (event : string) (slot : Z) (mac : option (list Z)) : M W unit := fun w => (tt, lc_hooks_dispatch (chars event) slot mac w).

(** The result, the slot and the MAC (-1 and zeros where unknown). *)
Definition lc_pair_run (cfg_path : list Z) : M W (Z * Z * list Z) :=
  hook "pairing" (-1) None ;;
  '(rc, out) ← run_pair_tool cfg_path;
  if rc =? 0 then
    match parse_pair_output out with
    | Some (slot, mac) => hook "connected" slot (Some mac) ;; mret (0, slot, mac)
    | None => hook "connected" (-1) None ;; mret (0, -1, [0; 0; 0; 0])
    end
  else hook "idle" (-1) None ;; mret (-1, -1, [0; 0; 0; 0]).
End pair_run.
