(* ===== verification/LcConfig.v ===== *)
(** [lc_config_t] ([lifecycled/lifecycle.h]) and how [lifecycled/main.c]
    builds one from its command line. *)

From Stdlib Require Import String.
From S2P Require Import Prelude CtrlMsg Monad LcText LcTuning.
#[local] Open Scope Z_scope.

Inductive lc_reset_method := LC_RESET_METHOD_NONE | LC_RESET_METHOD_DEVMEM | LC_RESET_METHOD_GPIO_SYSFS.
Inductive lc_role := LC_ROLE_AP | LC_ROLE_DEV.
#[export] Instance lc_role_eq : EqDecision lc_role. Proof. solve_decision. Defined.

Definition LC_MAX_RESET_GPIOS : Z := 8.
Definition LC_OVERHEAT_HYST_C : Z := 10.

(** [lc_config_t]; strings as their characters, [""] as []. *)
Record lc_cfg := mk_lc_cfg {
  rpc_port : Z; role : lc_role; reset_method : lc_reset_method; reset_devmem_addr : Z; reset_gpios : list Z;
  hook_dir : list Z; cfg_path : list Z; default_bandwidth : Z; frame_change : bool; default_channel : Z;
  default_power : Z; max_power : Z; no_lifecycle : bool; bind_gpio : Z; http_bind : list Z; http_port : Z;
  rf_temp_adc : Z; rf_temp_file : list Z; batt_adc : Z; batt_scale : Z; batt_offset_mv : Z; batt_file : list Z;
  rf_path_b_off : bool; link_policy : Z; fem_ctrl : bool; standby_dbm : Z; soc_temp_cmd : list Z; overheat_c : Z;
  overheat_resume_c : Z; daemon_log : Z
}.
#[export] Instance eta_lc_cfg : Eta lc_cfg := fun s =>
  mk_lc_cfg (rpc_port s) (role s) (reset_method s) (reset_devmem_addr s) (reset_gpios s) (hook_dir s) (cfg_path s)
    (default_bandwidth s) (frame_change s) (default_channel s) (default_power s) (max_power s) (no_lifecycle s)
    (bind_gpio s) (http_bind s) (http_port s) (rf_temp_adc s) (rf_temp_file s) (batt_adc s) (batt_scale s)
    (batt_offset_mv s) (batt_file s) (rf_path_b_off s) (link_policy s) (fem_ctrl s) (standby_dbm s) (soc_temp_cmd s)
    (overheat_c s) (overheat_resume_c s) (daemon_log s).

Definition is_ap (cfg : lc_cfg) : bool := bool_decide (role cfg = LC_ROLE_AP).

(** [main]'s initialiser; the port is the SDK's default. *)
Definition lc_cfg_default (BB_PORT_DEFAULT : Z) : lc_cfg :=
  mk_lc_cfg BB_PORT_DEFAULT LC_ROLE_AP LC_RESET_METHOD_NONE 0 [] (chars "/etc/ar8030/hooks.d") [] 20 true 25
    LC_POWER_ROLE_DEFAULT 0 false (-1) (chars "0.0.0.0") 0 (-1) (chars "/tmp/rf_temperature.msg") (-1) 16 1200 []
    false (-1) false (-1) [] (-1) (-1) 1.

(** The options, each with its argument as text; for [--reset-devmem-addr] the
    value [strtoul(optarg, NULL, 0)] gives. *)
Inductive lc_opt :=
  | OPT_PORT (a : list Z) | OPT_ROLE (a : list Z) | OPT_RESET_METHOD (a : list Z) | OPT_RESET_DEVMEM_ADDR (addr : Z)
  | OPT_RESET_GPIO (a : list Z) | OPT_HOOK_DIR (a : list Z) | OPT_CFG_PATH (a : list Z) | OPT_DEFAULT_BANDWIDTH (a : list Z)
  | OPT_DEFAULT_CHANNEL (a : list Z) | OPT_DEFAULT_POWER (a : list Z) | OPT_MAX_POWER (a : list Z) | OPT_BIND_GPIO (a : list Z)
  | OPT_HTTP_PORT (a : list Z) | OPT_HTTP_BIND (a : list Z) | OPT_FRAME_CHANGE (a : list Z) | OPT_RF_TEMP_ADC (a : list Z)
  | OPT_RF_TEMP_FILE (a : list Z) | OPT_LINK_POLICY (a : list Z) | OPT_FEM_CTRL | OPT_BATT_ADC (a : list Z)
  | OPT_BATT_SCALE (a : list Z) | OPT_BATT_OFFSET_MV (a : list Z) | OPT_BATT_FILE (a : list Z) | OPT_RF_PATH_B_OFF
  | OPT_STANDBY_DBM (a : list Z) | OPT_SOC_TEMP_CMD (a : list Z) | OPT_OVERHEAT_C (a : list Z) | OPT_OVERHEAT_RESUME_C (a : list Z)
  | OPT_DAEMON_LOG (a : list Z).

(** [(int)strtol(s, NULL, 10)] (and [atoi]); 0 without digits. *)
Definition int_of (s : list Z) : Z := match strtol10 s with Some (v, _) => s32 v | None => 0 end.

(** [(int)strtoul(s, NULL, 10)]: a minus sign negates modulo 2^64. *)
Definition uint_of (s : list Z) : Z :=
  let s := skip_spaces s in
  let '(neg, s) := match s with
                   | c :: s' => if c =? 0x2d then (true, s') else if c =? 0x2b then (false, s') else (false, s)
                   | [] => (false, s)
                   end in
  let '(v, n, _) := scan_decimals 0 0 s in
  if 2 ^ 64 <=? v then 2 ^ 64 - 1 else u64 (if neg then - v else v).

(** [strtok(buf, ",")] *)
Fixpoint split_commas (s cur : list Z) : list (list Z) :=
  match s with
  | [] => match cur with [] => [] | _ => [rev cur] end
  | c :: s => if c =? 0x2c then match cur with [] => split_commas s [] | _ => rev cur :: split_commas s [] end
              else split_commas s (c :: cur)
  end.

Definition parse_reset_gpio_list (arg : list Z) : list Z :=
  map int_of (ztake LC_MAX_RESET_GPIOS (split_commas (ztake 127 arg) [])).

(** [strtol] over the whole argument. *)
Definition whole_int (s : list Z) : option Z :=
  match strtol10 s with Some (v, []) => Some (s32 v) | _ => None end.

(** An argument that must be a whole number in [lo, hi]. *)
Definition int_in (s : list Z) (lo hi : Z) : option Z :=
  v ← whole_int s; if (v <? lo) || (hi <? v) then None else Some v.

(** [strncpy] / [snprintf] into a 256-byte field. *)
Definition field256 (s : list Z) : list Z := ztake 255 s.

Section options.
Context {W : Type} `{LcSdk W}.

(** One option of the loop; [None]: [main] prints a message and returns 1. *)
Definition apply_opt (cfg : lc_cfg) (o : lc_opt) : option lc_cfg :=
  match o with
  | OPT_PORT a => Some (cfg <| rpc_port := s32 (uint_of a) |>)
  | OPT_ROLE a => Some (cfg <| role := if decide (a = chars "dev") then LC_ROLE_DEV else LC_ROLE_AP |>)
  | OPT_RESET_METHOD a =>
      Some (cfg <| reset_method := if decide (a = chars "devmem") then LC_RESET_METHOD_DEVMEM
                                   else if decide (a = chars "gpio-sysfs") then LC_RESET_METHOD_GPIO_SYSFS
                                   else LC_RESET_METHOD_NONE |>)
  | OPT_RESET_DEVMEM_ADDR addr => Some (cfg <| reset_devmem_addr := addr |>)
  | OPT_RESET_GPIO a => Some (cfg <| reset_gpios := parse_reset_gpio_list a |>)
  | OPT_HOOK_DIR a => Some (cfg <| hook_dir := field256 a |>)
  | OPT_CFG_PATH a => Some (cfg <| cfg_path := field256 a |>)
  | OPT_DEFAULT_BANDWIDTH a => Some (cfg <| default_bandwidth := s32 (uint_of a) |>)
  | OPT_DEFAULT_CHANNEL a => v ← lc_channel_parse a; Some (cfg <| default_channel := v |>)
  | OPT_DEFAULT_POWER a => v ← lc_power_parse a; Some (cfg <| default_power := v |>)
  | OPT_MAX_POWER a =>
      '(v, rest) ← strtol10 a;
      let v := s32 v in
      if negb (bool_decide (rest = []) || bool_decide (rest = chars "mw") || bool_decide (rest = chars "mW")) || (v <=? 0)
      then None else Some (cfg <| max_power := v |>)
  | OPT_BIND_GPIO a => Some (cfg <| bind_gpio := int_of a |>)
  | OPT_HTTP_PORT a => Some (cfg <| http_port := u16 (uint_of a) |>)
  | OPT_HTTP_BIND a => Some (cfg <| http_bind := ztake 63 a |>)
  | OPT_FRAME_CHANGE a => Some (cfg <| frame_change := negb (int_of a =? 0) |>)
  | OPT_RF_TEMP_ADC a => Some (cfg <| rf_temp_adc := int_of a |>)
  | OPT_RF_TEMP_FILE a => Some (cfg <| rf_temp_file := field256 a |>)
  | OPT_LINK_POLICY a =>
      let v := int_of a in if (v <? 0) || (2 <? v) then None else Some (cfg <| link_policy := v |>)
  | OPT_FEM_CTRL => Some (cfg <| fem_ctrl := true |>)
  | OPT_BATT_ADC a => Some (cfg <| batt_adc := int_of a |>)
  | OPT_BATT_SCALE a => Some (cfg <| batt_scale := int_of a |>)
  | OPT_BATT_OFFSET_MV a => Some (cfg <| batt_offset_mv := int_of a |>)
  | OPT_BATT_FILE a => Some (cfg <| batt_file := field256 a |>)
  | OPT_RF_PATH_B_OFF => Some (cfg <| rf_path_b_off := true |>)
  | OPT_STANDBY_DBM a => v ← int_in a 0 30; Some (cfg <| standby_dbm := v |>)
  | OPT_SOC_TEMP_CMD a => Some (cfg <| soc_temp_cmd := field256 a |>)
  | OPT_OVERHEAT_C a => v ← int_in a 50 150; Some (cfg <| overheat_c := v |>)
  | OPT_OVERHEAT_RESUME_C a => v ← int_in a 40 150; Some (cfg <| overheat_resume_c := v |>)
  | OPT_DAEMON_LOG a =>
      let v := lc_daemon_log_parse a in if v =? -2 then None else Some (cfg <| daemon_log := v |>)
  end.

(** The checks behind the option loop. *)
Definition finish_config (cfg : lc_cfg) : option lc_cfg :=
  cfg ← (if 0 <=? overheat_c cfg then
           if overheat_resume_c cfg <? 0 then Some (cfg <| overheat_resume_c := overheat_c cfg - LC_OVERHEAT_HYST_C |>)
           else if overheat_c cfg <=? overheat_resume_c cfg then None else Some cfg
         else Some cfg);
  if (0 <? max_power cfg) && (lc_power_default (is_ap cfg) (max_power cfg) <? 0) then None else Some cfg.

Fixpoint apply_opts (cfg : lc_cfg) (opts : list lc_opt) : option lc_cfg :=
  match opts with
  | [] => Some cfg
  | o :: opts => cfg ← apply_opt cfg o; apply_opts cfg opts
  end.

Definition parse_args (BB_PORT_DEFAULT : Z) (opts : list lc_opt) : option lc_cfg :=
  cfg ← apply_opts (lc_cfg_default BB_PORT_DEFAULT) opts; finish_config cfg.

(** ** What every accepted command line gives *)

Record cfg_bounds (cfg : lc_cfg) : Prop := {
  cb_cap : 0 <= max_power cfg;
  cb_standby : -1 <= standby_dbm cfg <= 30;
  cb_policy : -1 <= link_policy cfg <= 2;
  cb_overheat : overheat_c cfg = -1 \/ 50 <= overheat_c cfg <= 150;
  cb_log : -1 <= daemon_log cfg <= 3;
  cb_channel : LC_CHANNEL_NONE <= default_channel cfg
}.

Record cfg_ok (cfg : lc_cfg) : Prop := {
  co_bounds : cfg_bounds cfg;
  co_level : 0 < max_power cfg -> 0 <= lc_power_default (is_ap cfg) (max_power cfg);
  co_resume : 0 <= overheat_c cfg -> overheat_resume_c cfg < overheat_c cfg
}.

Lemma int_in_range s lo hi v : int_in s lo hi = Some v -> lo <= v <= hi.
Proof.
  unfold int_in; destruct (whole_int s) as [x|]; cbn; [|done].
  destruct ((x <? lo) || (hi <? x)) eqn:E; [done|]; intros [= <-]; bool_to_prop; lia.
Qed.

Lemma daemon_log_parse_range s : lc_daemon_log_parse s <> -2 -> -1 <= lc_daemon_log_parse s <= 3.
Proof.
  unfold lc_daemon_log_parse; destruct (decide (s = chars "keep")); [lia|].
  destruct (list_find _ DAEMON_LOG_NAMES) as [[i nm]|] eqn:E; [|lia].
  apply list_find_Some in E as (Hi & _ & _); apply lookup_lt_Some in Hi; cbn in Hi; lia.
Qed.

Lemma channel_parse_range s v : lc_channel_parse s = Some v -> LC_CHANNEL_NONE <= v.
Proof.
  unfold lc_channel_parse, LC_CHANNEL_NONE, LC_CHANNEL_AUTO; repeat (case_decide; [by first [discriminate|intros [= <-]; lia]|]).
  destruct (strtol10 s) as [[x [|]]|]; try done; destruct ((x <? 0) || _) eqn:E; [done|]; intros [= <-]; bool_to_prop; lia.
Qed.

Lemma apply_opt_bounds cfg o cfg' : cfg_bounds cfg -> apply_opt cfg o = Some cfg' -> cfg_bounds cfg'.
Proof.
  intros []; destruct o; cbn; try (intros [= <-]; by constructor).
  - destruct (lc_channel_parse a) eqn:E; cbn; [|done]; intros [= <-]; constructor; try done; by eapply channel_parse_range.
  - destruct (lc_power_parse a) eqn:E; cbn; [|done]; intros [= <-]; by constructor.
  - destruct (strtol10 a) as [[v rest]|] eqn:E; cbn; [|done].
    destruct (_ || (s32 v <=? 0)) eqn:F; [done|]; intros [= <-]; bool_to_prop; constructor; try done; cbn; lia.
  - destruct ((int_of a <? 0) || (2 <? int_of a)) eqn:F; [done|]; intros [= <-]; bool_to_prop; constructor; try done; cbn; lia.
  - destruct (int_in a 0 30) eqn:E; cbn; [|done]; intros [= <-]; apply int_in_range in E; constructor; try done; cbn; lia.
  - destruct (int_in a 50 150) eqn:E; cbn; [|done]; intros [= <-]; apply int_in_range in E; constructor; try done; cbn; lia.
  - destruct (int_in a 40 150) eqn:E; cbn; [|done]; intros [= <-]; by constructor.
  - destruct (lc_daemon_log_parse a =? -2) eqn:E; [done|]; intros [= <-]; bool_to_prop.
    constructor; try done; cbn; by apply daemon_log_parse_range.
Qed.

Lemma parse_args_ok port opts cfg : parse_args port opts = Some cfg -> cfg_ok cfg.
Proof.
  unfold parse_args; destruct (apply_opts _ opts) as [c|] eqn:E; cbn; [|done].
  assert (Hc : cfg_bounds c).
  { assert (H0 : cfg_bounds (lc_cfg_default port)) by (constructor; cbn; unfold LC_CHANNEL_NONE; lia).
    revert H0 E; generalize (lc_cfg_default port); induction opts as [|o opts IH]; intros c0 H0; cbn; [by intros [= <-]|].
    destruct (apply_opt c0 o) as [c1|] eqn:E; cbn; [|done]; apply IH; by eapply apply_opt_bounds. }
  unfold finish_config; intros Hf.
  assert (Hd : forall c', cfg_bounds c' -> (0 <= overheat_c c' -> overheat_resume_c c' < overheat_c c') ->
                 (if (0 <? max_power c') && (lc_power_default (is_ap c') (max_power c') <? 0) then None else Some c') = Some cfg -> cfg_ok cfg).
  { intros c' Hb Hr; destruct (_ && _) eqn:F; [done|]; intros [= <-]; constructor; [done| |done].
    intros Hm; rewrite (proj2 (Z.ltb_lt _ _) Hm) in F; cbn in F; bool_to_prop; lia. }
  destruct (0 <=? overheat_c c) eqn:Eo; cbn in Hf.
  - destruct (overheat_resume_c c <? 0) eqn:Er; cbn in Hf.
    + apply (Hd (c <| overheat_resume_c := overheat_c c - LC_OVERHEAT_HYST_C |>)); [destruct Hc; by constructor| |exact Hf].
      cbn; unfold LC_OVERHEAT_HYST_C; lia.
    + destruct (overheat_c c <=? overheat_resume_c c) eqn:Es; cbn in Hf; [done|]; bool_to_prop; by apply (Hd c); [|lia|].
  - bool_to_prop; by apply (Hd c); [|lia|].
Qed.
End options.
