(* ===== verification/LcRun.v ===== *)
(** How [lifecycled] starts other programs: [lifecycle_hooks.c]'s hook scripts,
    [run_pair_tool] of [lifecycle_pair.c], [run_linkctl] of [lifecycle_http.c]
    and the temperature command of [lifecycle.c] - fork, exec, a pipe for what
    the program prints, and its exit status. *)

From Stdlib Require Import String.
From stdpp Require Import sorting gmap.
From S2P Require Import Prelude CtrlMsg Monad LcText LcConfig LcPair.
#[local] Open Scope Z_scope.

(** What a child does: these descriptors become the pipe's write end, these
    variables are set, then the program runs - looked up in [PATH] when it is
    given by name - with this argument vector. *)
Record child := mk_child { ch_pipe : list Z; ch_env : list (list Z * list Z); ch_program : list Z; ch_argv : list (list Z) }.

(** [pipe] (read end, write end; [None]: it failed), [fork] with what the child
    does and the pipe it gets, [close], [read] of a pipe (nothing at its end and
    on errors), [select] on it for so many milliseconds, [waitpid] (the status
    variable after it), [kill] with SIGKILL, [signal(SIGCHLD, SIG_IGN)],
    [opendir] (a directory stream and the names [readdir] gives on it, in its
    order), [closedir], and whether [stat] finds a regular file with the owner's
    execute bit. *)
Class ProcOs (W : Type) := {
  pipe : W -> option (Z * Z) * W;
  fork : child -> option (Z * Z) -> W -> Z * W;
  close_fd : Z -> W -> W;
  read_pipe : Z -> Z -> W -> list Z * W;
  select_read : Z -> Z -> W -> bool * W;
  waitpid : Z -> Z -> W -> Z * W;
  kill : Z -> W -> W;
  ignore_sigchld : W -> W;
  opendir : list Z -> W -> option (Z * list (list Z)) * W;
  closedir : Z -> W -> W;
  is_program : list Z -> W -> bool * W
}.

(** The macros on a wait status. *)
Definition WIFEXITED (status : Z) : bool := Z.land status 0x7f =? 0.
Definition WEXITSTATUS (status : Z) : Z := Z.land (Z.shiftr status 8) 0xff.

Definition LC_SOC_TEMP_TIMEOUT_MS : Z := 1000.

Section run.
Context {W : Type} `{ProcOs W}.

(** ** A program and its output *)

(** The read loop: a buffer of [sz], [buf] in it. *)
Fixpoint read_output (n : nat) (fd sz : Z) (buf : list Z) : M W (list Z) :=
  match n with
  | O => mret buf
  | S n =>
      if zlen buf + 1 <? sz then
        piece ← read_pipe fd (sz - 1 - zlen buf);
        if bool_decide (piece = []) then mret buf else read_output n fd sz (buf ++ piece)
      else mret buf
  end.

(** [run_pair_tool] and [run_linkctl], but for the program: the result, and the
    text in the buffer, in which [stale] was. *)
Definition run_captured (c : child) (sz : Z) (stale : list Z) : M W (Z * list Z) :=
  p ← pipe;
  match p with
  | None => mret (-1, stale)
  | Some (rd, wr) =>
      pid ← fork c (Some (rd, wr));
      if pid <? 0 then modify (close_fd rd) ;; modify (close_fd wr) ;; mret (-1, stale)
      else
        modify (close_fd wr) ;;
        buf ← read_output (Z.to_nat sz) rd sz [];
        modify (close_fd rd) ;;
        status ← waitpid pid 0;
        mret (if negb (WIFEXITED status) then -1 else WEXITSTATUS status, c_string buf)
  end.

Definition run_pair_tool (cfg_path : list Z) (stale : list Z) : M W (Z * list Z) :=
  run_captured (mk_child [1; 2] [] (chars "ar8030-pair") [chars "ar8030-pair"; chars "-c"; cfg_path]) 1024 stale.

Definition run_linkctl (argv : list (list Z)) (out_sz : Z) (stale : list Z) : M W (Z * list Z) :=
  run_captured (mk_child [1; 2] [] (chars "ar8030-linkctl") argv) out_sz stale.

(** ** The temperature command *)

(** The read loop with its timeout; whether it timed out. *)
Fixpoint read_within (n : nat) (fd sz : Z) (buf : list Z) : M W (bool * list Z) :=
  match n with
  | O => mret (false, buf)
  | S n =>
      if zlen buf + 1 <? sz then
        ready ← select_read fd LC_SOC_TEMP_TIMEOUT_MS;
        if negb ready then mret (true, buf)
        else
          piece ← read_pipe fd (sz - 1 - zlen buf);
          if bool_decide (piece = []) then mret (false, buf) else read_within n fd sz (buf ++ piece)
      else mret (false, buf)
  end.

Definition soc_temp_run (cmd : list Z) : M W (option (bool * list Z)) :=
  p ← pipe;
  match p with
  | None => mret None
  | Some (rd, wr) =>
      pid ← fork (mk_child [1] [] (chars "/bin/sh") [chars "sh"; chars "-c"; cmd]) (Some (rd, wr));
      if pid <? 0 then modify (close_fd rd) ;; modify (close_fd wr) ;; mret None
      else
        modify (close_fd wr) ;;
        '(timed_out, buf) ← read_within 64 rd 64 [];
        modify (close_fd rd) ;;
        when timed_out (modify (kill pid)) ;;
        mret (Some (timed_out, c_string buf))
  end.

(** ** Hooks *)

Definition lc_hooks_init : M W unit := modify ignore_sigchld.

(** [strcmp(a, b) <= 0] *)
Fixpoint strcmp_le (a b : list Z) : bool :=
  match a, b with
  | [], _ => true
  | _ :: _, [] => false
  | x :: a, y :: b => if x <? y then true else if y <? x then false else strcmp_le a b
  end.
Definition name_le (a b : list Z) : Prop := strcmp_le a b = true.
#[export] Instance name_le_dec : RelDecision name_le := fun a b => bool_eq_dec (strcmp_le a b) true.

Definition format_mac (mac : option (list Z)) (out_sz : Z) : list Z :=
  match mac with
  | None => snprintf_cut out_sz (chars "00:00:00:00")
  | Some mac => snprintf_cut out_sz (fmt_02x (byte_at mac 0) ++ chars ":" ++ fmt_02x (byte_at mac 1) ++ chars ":" ++
                                     fmt_02x (byte_at mac 2) ++ chars ":" ++ fmt_02x (byte_at mac 3))
  end.

(** The names collected off the directory stream, [count] so far. *)
Fixpoint collect_names (count : Z) (ents : list (list Z)) : list (list Z) :=
  match ents with
  | [] => []
  | name :: ents =>
      if 256 <=? count then []
      else if byte_at name 0 =? 0x2e then collect_names count ents
      else name :: collect_names (count + 1) ents
  end.

(** The variables of a hook. *)
Definition hook_env (event : list Z) (r : lc_role) (slot : Z) (peer_mac : option (list Z)) : list (list Z * list Z) :=
  [(chars "AR8030_EVENT", event); (chars "AR8030_ROLE", chars (if bool_decide (r = LC_ROLE_AP) then "ap" else "dev"));
   (chars "AR8030_SLOT", snprintf_cut 16 (fmt_dec slot)); (chars "AR8030_PEER_MAC", format_mac peer_mac 16)].

Definition run_hook (event : list Z) (env : list (list Z * list Z)) (script_path : list Z) : M W unit :=
  ok ← is_program script_path;
  if negb ok then mret tt
  else _ ← fork (mk_child [] env script_path [script_path; event]) None; mret tt.

Definition lc_hooks_dispatch (hook_dir event : list Z) (r : lc_role) (slot : Z) (peer_mac : option (list Z)) : M W unit :=
  let dir_path := snprintf_cut 512 (hook_dir ++ chars "/" ++ event) in
  d ← opendir dir_path;
  match d with
  | None => mret tt
  | Some (d, ents) =>
      let collected := collect_names 0 ents in
      modify (closedir d) ;;
      let names := merge_sort name_le collected in
      mfor (fun name => run_hook event (hook_env event r slot peer_mac) (snprintf_cut 768 (dir_path ++ chars "/" ++ name))) names
  end.
End run.

(** The programs of [LcPair], with the daemon's hooks; [stale] is what stood in
    the buffers on the stack. *)
Definition started_programs {W} `{ProcOs W} (hook_dir : list Z) (r : lc_role) (stale : list Z) : LcPrograms W := {|
  LcPair.run_pair_tool := fun path w => let '((rc, out), w) := run_pair_tool path stale w in (rc, out, w);
  LcPair.lc_hooks_dispatch := fun event slot mac w => (lc_hooks_dispatch hook_dir event r slot mac w).2
|}.

(** ** A process and its children *)

(** Descriptors open, what is left in each pipe, the wait statuses of the
    children not waited for, the children started so far. *)
Record procs := mk_procs {
  pr_calls : nat; pr_ignored : bool; pr_next : Z; pr_fds : list Z; pr_pipes : gmap Z (list Z); pr_kids : gmap Z Z; pr_started : list child
}.
#[export] Instance eta_procs : Eta procs := fun s =>
  mk_procs (pr_calls s) (pr_ignored s) (pr_next s) (pr_fds s) (pr_pipes s) (pr_kids s) (pr_started s).

Section posix.
(** What each program prints and its wait status; how much each read gets; which
    calls fail for want of resources; the directories; which files are programs. *)
Context (programs : child -> list Z * Z) (pieces : nat -> Z) (scarce : nat -> bool).
Context (dirs : list Z -> option (list (list Z))) (executable : list Z -> bool).

Definition called (w : procs) : procs := w <| pr_calls := S (pr_calls w) |>.

(** With SIGCHLD ignored a child leaves no status: [waitpid] waits until it is
    gone and then fails, without touching the status variable. *)
Definition posix : ProcOs procs := {|
  pipe := fun w => if scarce (pr_calls w) then (None, called w)
                   else (Some (pr_next w, pr_next w + 1),
                         called (w <| pr_next := pr_next w + 2 |> <| pr_fds := pr_next w :: pr_next w + 1 :: pr_fds w |>));
  fork := fun c p w => if scarce (pr_calls w) then (-1, called w)
                       else (pr_next w, called (w <| pr_next := pr_next w + 1 |>
                               <| pr_pipes := match p with Some (rd, _) => <[rd := (programs c).1]> (pr_pipes w) | None => pr_pipes w end |>
                               <| pr_kids := <[pr_next w := (programs c).2]> (pr_kids w) |> <| pr_started := pr_started w ++ [c] |>));
  close_fd := fun fd w => w <| pr_fds := filter (fun x => x <> fd) (pr_fds w) |>;
  read_pipe := fun fd cap w => let n := Z.max 1 (Z.min cap (pieces (pr_calls w))) in
                               let l := default [] (pr_pipes w !! fd) in
                               (ztake n l, called (w <| pr_pipes := <[fd := zdrop n l]> (pr_pipes w) |>));
  select_read := fun _ _ w => (negb (scarce (pr_calls w)), called w);
  waitpid := fun pid status w => (if pr_ignored w then status else default status (pr_kids w !! pid), w <| pr_kids := delete pid (pr_kids w) |>);
  kill := fun _ w => w;
  ignore_sigchld := fun w => w <| pr_ignored := true |>;
  opendir := fun path w => match dirs path with
                           | None => (None, w)
                           | Some ents => if scarce (pr_calls w) then (None, called w)
                                          else (Some (pr_next w, ents), called (w <| pr_next := pr_next w + 1 |> <| pr_fds := pr_next w :: pr_fds w |>))
                           end;
  closedir := fun d w => w <| pr_fds := filter (fun x => x <> d) (pr_fds w) |>;
  is_program := fun p w => (executable p, w)
|}.
#[local] Existing Instance posix.

(** No descriptor is given out twice. *)
Definition fds_fresh (w : procs) : Prop := Forall (fun fd => fd < pr_next w) (pr_fds w) /\ 0 <= pr_next w.

(** What reading changes. *)
Record read_only (w w' : procs) : Prop := {
  ro_ignored : pr_ignored w' = pr_ignored w; ro_next : pr_next w' = pr_next w; ro_fds : pr_fds w' = pr_fds w; ro_kids : pr_kids w' = pr_kids w;
  ro_started : pr_started w' = pr_started w
}.

Lemma ztake_nonpos {A} n (l : list A) : n <= 0 -> ztake n l = [].
Proof. intros Hn; unfold ztake; by rewrite (ltac:(lia) : Z.to_nat n = 0%nat). Qed.

(** A beginning, and what is missing of a longer one. *)
Lemma ztake_more {A} m k (l : list A) : 0 <= m <= k -> ztake m l ++ ztake (k - zlen (ztake m l)) (zdrop m l) = ztake k l.
Proof.
  intros Hm; destruct (Z.le_gt_cases (zlen l) m) as [Hl|Hl].
  - rewrite (ztake_all m), (zdrop_all m), (ztake_all k) by lia; unfold ztake; by rewrite take_nil, app_nil_r.
  - rewrite zlen_take by lia; unfold ztake, zdrop; rewrite take_take_drop; f_equal; lia.
Qed.

Lemma read_output_all n : forall fd sz buf w, sz <= zlen buf + 1 + Z.of_nat n ->
  (read_output n fd sz buf w).1 = buf ++ ztake (sz - 1 - zlen buf) (default [] (pr_pipes w !! fd)) /\ read_only w (read_output n fd sz buf w).2.
Proof.
  induction n as [|n IH]; intros fd sz buf w Hn; cbn [read_output].
  { rewrite ztake_nonpos by lia; by rewrite app_nil_r. }
  destruct (Z.ltb_spec (zlen buf + 1) sz) as [Hlt|Hge]; [|rewrite ztake_nonpos by lia; by rewrite app_nil_r].
  rewrite bind_run; cbn [read_pipe posix fst snd]; set (l := default [] (pr_pipes w !! fd)); set (m := Z.max 1 _).
  assert (Hm : 1 <= m <= sz - 1 - zlen buf) by (subst m; lia).
  case_bool_decide as E.
  - assert (El : l = []) by (destruct l as [|x l]; [done|]; unfold ztake in E; by rewrite (ltac:(lia) : Z.to_nat m = S (Z.to_nat m - 1)) in E).
    rewrite El; unfold ztake; rewrite take_nil, app_nil_r; by split.
  - destruct (IH fd sz (buf ++ ztake m l) (called (w <| pr_pipes := <[fd := zdrop m l]> (pr_pipes w) |>))) as [Hb Hw].
    { rewrite zlen_app; assert (1 <= zlen (ztake m l)) by (destruct (ztake m l); [done|rewrite zlen_cons; pose proof (zlen_nonneg l0); lia]); lia. }
    split; [|destruct Hw; by split].
    rewrite Hb; cbn [called pr_pipes set_field]; rewrite lookup_insert_eq; cbn [default]; rewrite <- app_assoc; f_equal.
    rewrite zlen_app, (ltac:(lia) : sz - 1 - (zlen buf + zlen (ztake m l)) = sz - 1 - zlen buf - zlen (ztake m l)).
    apply ztake_more; lia.
Qed.
Definition exit_code (status : Z) : Z := if negb (WIFEXITED status) then -1 else WEXITSTATUS status.

Lemma filter_fresh n l : Forall (fun fd => fd < n) l -> forall m, n <= m -> filter (fun x => x <> m) l = l.
Proof.
  intros Hl m Hm; induction Hl as [|x l Hx Hl IH]; [done|]; rewrite filter_cons_True by lia; by rewrite IH.
Qed.

(** Closing both ends of a new pipe, in any order, leaves what was open. *)
Lemma pipe_closed n l : Forall (fun fd => fd < n) l ->
  filter (fun x => x <> n) (filter (fun x => x <> n + 1) (n :: n + 1 :: l)) = l /\
  filter (fun x => x <> n + 1) (filter (fun x => x <> n) (n :: n + 1 :: l)) = l.
Proof.
  intros Hl; split.
  - rewrite (filter_cons_True _ n), (filter_cons_False _ (n + 1)), (filter_fresh n l Hl (n + 1)), filter_cons_False by lia; apply (filter_fresh n l Hl); lia.
  - rewrite (filter_cons_False _ n), (filter_cons_True _ (n + 1)), (filter_fresh n l Hl n), filter_cons_False by lia; apply (filter_fresh n l Hl); lia.
Qed.

Lemma fresh_later w w' : pr_fds w' = pr_fds w -> pr_next w <= pr_next w' -> fds_fresh w -> fds_fresh w'.
Proof. intros E Hn [Hf H0]; split; [rewrite E; eapply list.Forall_impl; [exact Hf|cbn; lia]|lia]. Qed.

(** A program whose output is taken: the descriptors are as before, and either
    nothing was started, or the output is what fits of what the program printed
    and the result its exit code - 0 if SIGCHLD is ignored. *)
Lemma captured c sz stale w : 0 < sz -> fds_fresh w ->
  let '((rc, out), w') := run_captured c sz stale w in
  fds_fresh w' /\ pr_fds w' = pr_fds w /\ pr_ignored w' = pr_ignored w /\
  (rc = -1 /\ out = stale /\ pr_started w' = pr_started w \/
   rc = (if pr_ignored w then 0 else exit_code (programs c).2) /\ out = c_string (ztake (sz - 1) (programs c).1) /\ pr_started w' = pr_started w ++ [c]).
Proof.
  intros Hsz [Hf Hn]; unfold run_captured; rewrite bind_run; cbn [pipe posix fst snd].
  destruct (pipe_closed (pr_next w) (pr_fds w) Hf) as [Hc1 Hc2].
  destruct (scarce _); [split_and!; [by split|done|done|by left]|]; cbn [fst snd].
  rewrite bind_run; cbn [fork posix fst snd called pr_calls pr_next set_field].
  destruct (scarce _); cbn [fst snd].
  { rewrite (proj2 (Z.ltb_lt _ _)) by lia; rewrite !bind_run; cbn [modify mret M_ret fst snd]; split_and!; [|exact Hc2|reflexivity|by left].
    eapply (fresh_later w); [exact Hc2|cbn; lia|done]. }
  rewrite (proj2 (Z.ltb_ge _ _)) by lia; rewrite bind_run; cbn [modify fst snd].
  match goal with |- context [close_fd ?fd ?w0] => set (w1 := close_fd fd w0) end.
  assert (Hw1 : pr_next w1 = pr_next w + 3 /\ pr_fds w1 = filter (fun x => x <> pr_next w + 1) (pr_next w :: pr_next w + 1 :: pr_fds w) /\
                pr_ignored w1 = pr_ignored w /\ pr_started w1 = pr_started w ++ [c])
    by (split_and!; [change (pr_next w + 2 + 1 = pr_next w + 3); lia|reflexivity..]).
  assert (Hp : pr_pipes w1 !! pr_next w = Some (programs c).1) by exact (lookup_insert_eq _ _ _).
  assert (Hk : pr_kids w1 !! (pr_next w + 2) = Some (programs c).2) by exact (lookup_insert_eq _ _ _).
  clearbody w1; destruct Hw1 as (Hn1 & Hf1 & Hi1 & Hs1); rewrite bind_run.
  destruct (read_output_all (Z.to_nat sz) (pr_next w) sz [] w1) as [Hb [Hi2 Hn2 Hf2 Hk2 Hs2]]; [rewrite zlen_nil; lia|]; rewrite Hp, zlen_nil in Hb; cbn [default app] in Hb; rewrite Z.sub_0_r in Hb.
  destruct (read_output _ _ _ _ w1) as [buf w2]; cbn [fst snd] in *; rewrite !bind_run; cbn [modify mret M_ret fst snd waitpid posix close_fd].
  rewrite Hb; change (pr_kids (w2 <| pr_fds := _ |>)) with (pr_kids w2); change (pr_ignored (w2 <| pr_fds := _ |>)) with (pr_ignored w2).
  rewrite Hk2, Hk, Hi2, Hi1; assert (Hfd : filter (fun x => x <> pr_next w) (pr_fds w2) = pr_fds w) by (by rewrite Hf2, Hf1).
  split_and!; [eapply (fresh_later w); [exact Hfd|change (pr_next w <= pr_next w2); lia|done]|exact Hfd|change (pr_ignored w2 = pr_ignored w); congruence|right].
  split_and!; [by destruct (pr_ignored w)|done|change (pr_started w2 = pr_started w ++ [c]); congruence].
Qed.

(** ** Hooks *)

Definition hook_child (event : list Z) (env : list (list Z * list Z)) (path : list Z) : child := mk_child [] env path [path; event].

(** Whatever else happens, what [l] hooks of [event] leave behind. *)
Definition after_hooks (event : list Z) (w w' : procs) (l : list child) : Prop :=
  fds_fresh w' /\ pr_fds w' = pr_fds w /\ pr_ignored w' = pr_ignored w /\ pr_started w' = pr_started w ++ l /\
  Forall (fun c => ch_pipe c = [] /\ ch_argv c !! 1%nat = Some event) l.

Lemma after_nothing event w : fds_fresh w -> after_hooks event w w [].
Proof. intros H; split_and!; try done; by rewrite app_nil_r. Qed.

Lemma after_more event w1 w2 w3 l1 l2 : after_hooks event w1 w2 l1 -> after_hooks event w2 w3 l2 -> after_hooks event w1 w3 (l1 ++ l2).
Proof.
  intros (_ & H2 & H3 & H4 & H5) (K1 & K2 & K3 & K4 & K5); split_and!; [done|congruence|congruence| |by apply Forall_app].
  by rewrite K4, H4, <- app_assoc.
Qed.

(** Those of [l] for which a process was to be had, the first call being [k]. *)
Fixpoint granted {A} (k : nat) (l : list A) : list A :=
  match l with
  | [] => []
  | x :: l => if scarce k then granted (S k) l else x :: granted (S k) l
  end.

Lemma granted_fmap {A B} (f : A -> B) l : forall k, granted k (f <$> l) = f <$> granted k l.
Proof. induction l as [|x l IH]; intros k; cbn [fmap list_fmap granted]; [done|]; destruct (scarce k); cbn [fmap list_fmap]; by rewrite <- IH. Qed.

Lemma granted_all {A} (l : list A) : (forall k, scarce k = false) -> forall k, granted k l = l.
Proof. intros Hs; induction l as [|x l IH]; intros k; cbn [granted]; [done|]; by rewrite Hs, IH. Qed.

Lemma hook_run event env path w : fds_fresh w -> let w' := (run_hook event env path w).2 in
  let wanted := if executable path then [hook_child event env path] else [] in
  after_hooks event w w' (granted (pr_calls w) wanted) /\ pr_calls w' = (pr_calls w + length wanted)%nat.
Proof.
  intros Hw; unfold run_hook; rewrite bind_run; cbn [is_program posix fst snd].
  destruct (executable path); cbn [negb granted]; [|split; [by apply after_nothing|cbn; lia]].
  rewrite bind_run; cbn [fork posix fst snd]; destruct (scarce (pr_calls w)) eqn:E; cbn [fst snd mret M_ret]; (split; [|cbn; lia]).
  - exact (after_nothing event w Hw).
  - split_and!; [|done..|].
    + apply (fresh_later w); [done|change (pr_next w <= pr_next w + 1); lia|done].
    + by repeat constructor.
Qed.

Lemma hooks_run event env (path : list Z -> list Z) names w : fds_fresh w ->
  after_hooks event w (mfor (fun name => run_hook event env (path name)) names w).2
    ((fun name => hook_child event env (path name)) <$> granted (pr_calls w) (filter (fun name => executable (path name) = true) names)).
Proof.
  revert w; induction names as [|name names IH]; intros w Hw; cbn [mfor]; [by apply after_nothing|].
  rewrite bind_run; destruct (hook_run event env (path name) w Hw) as [Ha Hc]; specialize (IH _ (proj1 Ha)).
  rewrite Hc in IH; rewrite filter_cons; destruct (executable (path name)); case_decide; try done.
  - cbn [length] in IH; rewrite (Nat.add_1_r (pr_calls w)) in IH; cbn [granted fmap list_fmap] in *.
    destruct (scarce (pr_calls w)); [exact (after_more _ _ _ _ [] _ Ha IH)|exact (after_more _ _ _ _ [_] _ Ha IH)].
  - cbn [length] in IH; rewrite Nat.add_0_r in IH; exact (after_more _ _ _ _ [] _ Ha IH).
Qed.

(** A dispatch: the directory stream is closed again, and the programs are
    started for which there are processes. *)
Lemma dispatch_hooks hook_dir event r slot mac w : fds_fresh w ->
  let dir := snprintf_cut 512 (hook_dir ++ chars "/" ++ event) in
  let path := fun name => snprintf_cut 768 (dir ++ chars "/" ++ name) in
  after_hooks event w (lc_hooks_dispatch hook_dir event r slot mac w).2
    match dirs dir with
    | None => []
    | Some ents =>
        let names := filter (fun name => executable (path name) = true) (merge_sort name_le (collect_names 0 ents)) in
        (fun name => hook_child event (hook_env event r slot mac) (path name)) <$> (if scarce (pr_calls w) then [] else granted (S (pr_calls w)) names)
    end.
Proof.
  intros Hw dir path; unfold lc_hooks_dispatch; fold dir; rewrite bind_run; cbn [opendir posix].
  destruct (dirs dir) as [ents|]; [|by apply after_nothing].
  destruct (scarce (pr_calls w)); cbn [fst snd]; [exact (after_nothing event w Hw)|].
  rewrite bind_run; cbn [modify fst snd closedir posix].
  match goal with |- context [mfor _ _ ?w1] => set (w2 := w1) end.
  assert (Hf : pr_fds w2 = pr_fds w).
  { subst w2; change (filter (fun x => x <> pr_next w) (pr_next w :: pr_fds w) = pr_fds w); rewrite filter_cons_False by (intros ?; done); apply (filter_fresh (pr_next w)), Z.le_refl; apply Hw. }
  assert (Hw2 : fds_fresh w2) by (apply (fresh_later w); [done|change (pr_next w <= pr_next w + 1); lia|done]).
  pose proof (hooks_run event (hook_env event r slot mac) path (merge_sort name_le (collect_names 0 ents)) w2 Hw2) as (H1 & H2 & H3 & H4 & H5).
  split_and!; [exact H1|exact (eq_trans H2 Hf)|exact H3|exact H4|exact H5].
Qed.

Lemma dispatch_runs hook_dir event r slot mac w : fds_fresh w -> exists l, after_hooks event w (lc_hooks_dispatch hook_dir event r slot mac w).2 l.
Proof. intros Hw; eexists; by apply dispatch_hooks. Qed.

(** ** What holds of them *)

Lemma strcmp_total a b : name_le a b \/ name_le b a.
Proof.
  unfold name_le; revert b; induction a as [|x a IH]; intros [|y b]; cbn [strcmp_le]; [by left..|by right|].
  destruct (Z.ltb_spec x y), (Z.ltb_spec y x); try lia; auto.
Qed.

Lemma strcmp_trans a b c : name_le a b -> name_le b c -> name_le a c.
Proof.
  unfold name_le; revert b c; induction a as [|x a IH]; intros [|y b] [|z c]; cbn [strcmp_le]; try done.
  destruct (Z.ltb_spec x y), (Z.ltb_spec y x), (Z.ltb_spec y z), (Z.ltb_spec z y), (Z.ltb_spec x z), (Z.ltb_spec z x); try done; try lia; apply IH.
Qed.

#[local] Instance name_le_total : Total name_le.
Proof. exact strcmp_total. Qed.
#[local] Instance name_le_transitive : Transitive name_le.
Proof. exact strcmp_trans. Qed.

Lemma StronglySorted_filter {A} (R : A -> A -> Prop) (P : A -> Prop) `{forall x, Decision (P x)} l : StronglySorted R l -> StronglySorted R (filter P l).
Proof.
  induction 1 as [|x l Hl IH Hx]; [constructor|]; rewrite filter_cons; case_decide; [|done]; constructor; [done|].
  rewrite list.Forall_forall in *; intros y [_ Hy]%list_elem_of_filter; by apply Hx.
Qed.

Lemma collect_names_visible count ents : count <= 256 ->
  collect_names count ents = take (Z.to_nat (256 - count)) (filter (fun name => byte_at name 0 <> 0x2e) ents).
Proof.
  revert count; induction ents as [|name ents IH]; intros count Hc; cbn [collect_names]; [by rewrite filter_nil, take_nil|].
  destruct (Z.leb_spec 256 count); [by rewrite (ltac:(lia) : Z.to_nat (256 - count) = 0%nat)|].
  destruct (Z.eqb_spec (byte_at name 0) 0x2e) as [E|E]; [rewrite filter_cons_False by naive_solver; apply IH; lia|].
  rewrite filter_cons_True, (ltac:(lia) : Z.to_nat (256 - count) = S (Z.to_nat (256 - (count + 1)))) by done; cbn [take]; f_equal; apply IH; lia.
Qed.

Definition hook_path (hook_dir event name : list Z) : list Z := (hook_dir ++ chars "/" ++ event) ++ chars "/" ++ name.

(** C12. Hooks.  When an event is dispatched whose directory can be opened,
    exactly the programs among the first 256 visible names of that directory are
    to be started - each once, in the order of their names, under their full
    paths, with the event as argument and in the environment - and each is, but
    for those for which [fork] fails, which are passed over; when there is no
    such directory nothing is started.  In every case the daemon keeps no
    descriptor: neither the directory's nor any of a hook. *)
Theorem hooks_in_order hook_dir event r slot mac w :
  fds_fresh w -> zlen hook_dir <= 255 -> zlen event <= 255 ->
  let w' := (lc_hooks_dispatch hook_dir event r slot mac w).2 in
  pr_fds w' = pr_fds w /\
  match dirs (hook_dir ++ chars "/" ++ event) with
  | None => pr_started w' = pr_started w
  | Some ents =>
      Forall (fun name => zlen name <= 255) ents ->
      exists names, names ≡ₚ filter (fun name => executable (hook_path hook_dir event name) = true)
                                    (take 256 (filter (fun name => byte_at name 0 <> 0x2e) ents)) /\
        StronglySorted name_le names /\
        let started := if scarce (pr_calls w) then [] else granted (S (pr_calls w)) names in
        pr_started w' = pr_started w ++ ((fun name => hook_child event (hook_env event r slot mac) (hook_path hook_dir event name)) <$> started) /\
        ((forall k, scarce k = false) -> started = names)
  end.
Proof.
  intros Hw Hh He w'; pose proof (dispatch_hooks hook_dir event r slot mac w Hw) as (_ & Hf & _ & Hs & _); fold w' in Hf, Hs; clearbody w'.
  split; [done|]; assert (Hcut : snprintf_cut 512 (hook_dir ++ chars "/" ++ event) = hook_dir ++ chars "/" ++ event).
  { unfold snprintf_cut; apply ztake_all; rewrite !zlen_app; change (zlen (chars "/")) with 1; lia. }
  rewrite Hcut in Hs; destruct (dirs _) as [ents|]; [|by rewrite Hs, app_nil_r].
  intros Hents; set (visible := merge_sort name_le (collect_names 0 ents)) in *.
  assert (Hn : visible ≡ₚ take 256 (filter (fun name => byte_at name 0 <> 0x2e) ents)).
  { unfold visible; rewrite merge_sort_Permutation, collect_names_visible by lia; done. }
  assert (Hp : forall name, name ∈ visible -> snprintf_cut 768 ((hook_dir ++ chars "/" ++ event) ++ chars "/" ++ name) = hook_path hook_dir event name).
  { intros name Hin; unfold snprintf_cut, hook_path; apply ztake_all; rewrite !zlen_app; change (zlen (chars "/")) with 1.
    rewrite Hn in Hin; apply elem_of_take in Hin as (i & Hi & _); apply list_elem_of_lookup_2, list_elem_of_filter in Hi as [_ Hi].
    rewrite list.Forall_forall in Hents; specialize (Hents _ Hi); lia. }
  exists (filter (fun name => executable (hook_path hook_dir event name) = true) visible); split; [by rewrite Hn|].
  split; [apply StronglySorted_filter, StronglySorted_merge_sort; apply _|]; cbv zeta; split.
  - rewrite Hs; f_equal; destruct (scarce (pr_calls w)); [done|]; rewrite <- !granted_fmap; f_equal; clear -Hp.
    induction visible as [|name names IH]; [done|].
    rewrite !filter_cons, Hp by set_solver; case_decide; cbn [fmap list_fmap]; rewrite IH by set_solver; rewrite ?Hp by set_solver; done.
  - intros Hg; by rewrite Hg, granted_all.
Qed.

Definition pair_child (cfg_path : list Z) : child :=
  mk_child [1; 2] [] (chars "ar8030-pair") [chars "ar8030-pair"; chars "-c"; cfg_path].
Definition linkctl_child (argv : list (list Z)) : child := mk_child [1; 2] [] (chars "ar8030-linkctl") argv.

(** A hook is not the pairing tool. *)
Lemma no_pair_child event l path : Forall (fun c => ch_pipe c = [] /\ ch_argv c !! 1%nat = Some event) l -> pair_child path ∈ l -> False.
Proof. rewrite list.Forall_forall; intros H Hin; by destruct (H _ Hin). Qed.

Section daemon.
Context (hook_dir : list Z) (r : lc_role) (stale : list Z).
#[local] Instance daemon_programs : LcPrograms procs := started_programs hook_dir r stale.

Lemma wp_hook event slot mac w (Q : unit -> procs -> Prop) : fds_fresh w ->
  (forall w' l, after_hooks (chars event) w w' l -> Q tt w') -> wp (hook event slot mac) Q w.
Proof. intros Hw HQ; destruct (dispatch_runs hook_dir (chars event) r slot mac w Hw) as (l & Hl); by apply (HQ _ l). Qed.

Lemma wp_tool path w (Q : Z * list Z -> procs -> Prop) : fds_fresh w ->
  (forall rc out w', fds_fresh w' -> pr_fds w' = pr_fds w -> pr_ignored w' = pr_ignored w ->
     (rc = -1 /\ pr_started w' = pr_started w \/
      (pr_ignored w = true -> rc = 0) /\ pr_started w' = pr_started w ++ [pair_child path]) -> Q (rc, out) w') -> wp (LcPair.run_pair_tool path : M procs (Z * list Z)) Q w.
Proof.
  intros Hw HQ; unfold wp; cbn [LcPair.run_pair_tool daemon_programs started_programs]; unfold run_pair_tool.
  pose proof (captured (pair_child path) 1024 stale w ltac:(lia) Hw) as Hc; unfold pair_child in Hc; destruct (run_captured _ _ _ w) as [[rc out] w'].
  destruct Hc as (H1 & H2 & H3 & Hc); cbn [fst snd]; apply HQ; [done..|]; destruct Hc as [(-> & _ & E)|(-> & _ & E)]; [by left|right].
  split; [by intros ->|done].
Qed.

(** A pairing in the daemon, which ignores SIGCHLD: once the tool was started,
    it counts as successful, and no hook of a failure is run. *)
Lemma pairing_unseen path w : fds_fresh w -> pr_ignored w = true ->
  wp (lc_pair_run path) (fun res w' => exists l, pr_started w' = pr_started w ++ l /\ pr_fds w' = pr_fds w /\
    (pair_child path ∈ l -> res.1.1 = 0 /\ Forall (fun c => ch_argv c !! 1%nat <> Some (chars "idle")) l)) w.
Proof.
  intros Hw Hi; unfold lc_pair_run; apply wp_bind, wp_hook; [done|]; intros w1 l1 (F1 & D1 & I1 & S1 & H1).
  apply wp_bind, wp_tool; [done|]; intros rc out w2 F2 D2 I2 Hc.
  assert (Hend : forall event slot mac (res : Z * Z * list Z), (rc = -1 -> event = "idle"%string) -> (rc = 0 -> event = "connected"%string /\ res.1.1 = 0) ->
    wp (hook event slot mac ;; mret res) (fun res w' => exists l, pr_started w' = pr_started w ++ l /\ pr_fds w' = pr_fds w /\
      (pair_child path ∈ l -> res.1.1 = 0 /\ Forall (fun c => ch_argv c !! 1%nat <> Some (chars "idle")) l)) w2).
  { intros event slot mac res He Hr; apply wp_bind, wp_hook; [done|]; intros w3 l3 (F3 & D3 & I3 & S3 & H3); apply wp_ret.
    destruct Hc as [(-> & S2)|(Hrc & S2)].
    - exists (l1 ++ l3); split_and!; [rewrite S3, S2, S1; by rewrite <- app_assoc|congruence|]; intros [Hin|Hin]%elem_of_app; [destruct (no_pair_child _ _ _ H1 Hin)|destruct (no_pair_child _ _ _ H3 Hin)].
    - destruct Hr as [-> Hr]; [by apply Hrc; congruence|]; exists (l1 ++ pair_child path :: l3); split_and!; [rewrite S3, S2, S1; by rewrite <- !app_assoc|congruence|].
      intros _; split; [done|]; apply Forall_app; split; [|constructor; [done|]]; [eapply list.Forall_impl; [exact H1|]; by intros c [_ ->]|].
      eapply list.Forall_impl; [exact H3|]; by intros c [_ ->]. }
  destruct (Z.eqb_spec rc 0) as [->|Hne]; [destruct (parse_pair_output out) as [[slot mac]|]|]; apply Hend; try done; intros ->; done.
Qed.

(** C11. Exit codes are lost.  What a tool prints is taken whole up to the
    buffer's end, however the pipe delivers it, no descriptor is left, and its
    exit code (or -1 after a signal) would be the result - but from its start on
    the daemon ignores SIGCHLD, so that [waitpid] finds no status: every command
    that could be started counts as successful whatever its exit code, and a
    pairing that failed is reported as one that worked, with the hooks for a
    connection and never those for a failure. *)
Theorem exit_codes_lost argv path sz w : 0 < sz -> fds_fresh w ->
  let d := (lc_hooks_init w).2 in
  let printed := c_string (ztake (sz - 1) (programs (linkctl_child argv)).1) in
  (let x := run_linkctl argv sz stale w in
   pr_fds x.2 = pr_fds w /\
   (pr_started x.2 <> pr_started w -> pr_ignored w = false -> x.1 = (exit_code (programs (linkctl_child argv)).2, printed))) /\
  (let x := run_linkctl argv sz stale d in
   pr_fds x.2 = pr_fds w /\ (pr_started x.2 <> pr_started w -> x.1 = (0, printed))) /\
  (let x := lc_pair_run path d in
   exists l, pr_started x.2 = pr_started w ++ l /\ pr_fds x.2 = pr_fds w /\
     (pair_child path ∈ l -> x.1.1.1 = 0 /\ Forall (fun c => ch_argv c !! 1%nat <> Some (chars "idle")) l)).
Proof.
  intros Hsz Hw; cbv zeta; unfold run_linkctl.
  assert (Hd : fds_fresh (lc_hooks_init w).2) by exact Hw.
  pose proof (captured (linkctl_child argv) sz stale w Hsz Hw) as H1; pose proof (captured (linkctl_child argv) sz stale _ Hsz Hd) as H2.
  unfold linkctl_child in *; split; [|split].
  - destruct (run_captured _ _ _ w) as [[rc out] w']; cbn [fst snd]; destruct H1 as (_ & H1 & _ & [(_ & _ & E)|(-> & -> & _)]); (split; [done|]); [done|by intros _ ->].
  - destruct (run_captured _ _ _ (lc_hooks_init w).2) as [[rc out] w']; destruct H2 as (_ & H2 & _ & [(_ & _ & E)|(-> & -> & _)]); (split; [done|]); done.
  - exact (pairing_unseen path _ Hd eq_refl).
Qed.
End daemon.
End posix.

(** ** Concrete runs: every program prints this and exits with 1; a pipe gives
    five bytes at a time; three hooks, one of them no program *)

Definition demo_output : list Z := chars "pair: no answer".
Definition demo_programs (c : child) : list Z * Z := (demo_output, Z.shiftl 1 8).
Definition demo_hooks (d : list Z) : option (list (list Z)) :=
  if bool_decide (d = chars "/etc/hooks/pairing") then Some [chars "20-led"; chars ".."; chars "10-beep"; chars "README"] else None.
Definition demo_executable (p : list Z) : bool := negb (bool_decide (p = chars "/etc/hooks/pairing/README")).
Definition demo_procs : procs := mk_procs 0 false 3 [0; 1; 2] ∅ ∅ [].

#[local] Abbreviation demo_system := (posix demo_programs (fun _ => 5) (fun _ => false) demo_hooks demo_executable).
#[local] Abbreviation demo_daemon := (daemon_programs demo_programs (fun _ => 5) (fun _ => false) demo_hooks demo_executable (chars "/etc/hooks") LC_ROLE_DEV []).

Lemma demo_fresh : fds_fresh demo_procs.
Proof. split; [repeat constructor|]; cbn; lia. Qed.

Lemma hooks_in_order_witness : exists names,
  let w' := (lc_hooks_dispatch (H := demo_system) (chars "/etc/hooks") (chars "pairing") LC_ROLE_DEV (-1) None demo_procs).2 in
  StronglySorted name_le names /\ pr_fds w' = [0; 1; 2] /\
  ch_argv <$> pr_started w' = (fun name => [hook_path (chars "/etc/hooks") (chars "pairing") name; chars "pairing"]) <$> names.
Proof.
  destruct (hooks_in_order demo_programs (fun _ => 5) (fun _ => false) demo_hooks demo_executable (chars "/etc/hooks") (chars "pairing") LC_ROLE_DEV (-1) None
    demo_procs demo_fresh ltac:(vm_compute; done) ltac:(vm_compute; done)) as [Hf Hth].
  change (demo_hooks _) with (Some [chars "20-led"; chars ".."; chars "10-beep"; chars "README"]) in Hth; cbv iota in Hth.
  destruct (Hth ltac:(repeat constructor; vm_compute; done)) as (names & _ & Hs & Hr & Hg).
  exists names; split; [exact Hs|]; split; [exact Hf|]; rewrite (Hg (fun _ => eq_refl)) in Hr; rewrite Hr, fmap_app, <- list_fmap_compose; reflexivity.
Defined.

(** The second hook does not get a process. *)
Example demo_hook_refused :
  ch_program <$> pr_started (lc_hooks_dispatch (H := posix demo_programs (fun _ => 5) (fun k => k =? 2)%nat demo_hooks demo_executable)
    (chars "/etc/hooks") (chars "pairing") LC_ROLE_DEV (-1) None demo_procs).2 = [chars "/etc/hooks/pairing/10-beep"].
Proof. vm_compute; reflexivity. Qed.

Example demo_hooks_run :
  ch_program <$> pr_started (lc_hooks_dispatch (H := demo_system) (chars "/etc/hooks") (chars "pairing") LC_ROLE_DEV (-1) None demo_procs).2 =
    [chars "/etc/hooks/pairing/10-beep"; chars "/etc/hooks/pairing/20-led"].
Proof. vm_compute; reflexivity. Qed.

(** The tool exits with 1 both times. *)
Example demo_exit_codes :
  (run_linkctl (H := demo_system) [chars "ar8030-linkctl"; chars "status"] 4096 [] demo_procs).1 = (1, demo_output) /\
  (run_linkctl (H := demo_system) [chars "ar8030-linkctl"; chars "status"] 4096 [] (lc_hooks_init (H := demo_system) demo_procs).2).1 = (0, demo_output).
Proof. split; vm_compute; reflexivity. Qed.

Lemma exit_codes_lost_witness :
  (lc_pair_run (H := demo_daemon) (chars "cfg.json") (lc_hooks_init (H := demo_system) demo_procs).2).1.1.1 = 0.
Proof.
  destruct (exit_codes_lost demo_programs (fun _ => 5) (fun _ => false) demo_hooks demo_executable (chars "/etc/hooks") LC_ROLE_DEV []
    [chars "ar8030-linkctl"; chars "status"] (chars "cfg.json") 4096 demo_procs ltac:(lia) demo_fresh) as (_ & _ & l & Hl & _ & Hp).
  apply Hp; change (pr_started demo_procs ++ l) with l in Hl; rewrite <- Hl; apply (list_elem_of_lookup_2 _ 2); vm_compute; reflexivity.
Defined.
