(* ===== verification/LcBoard.v ===== *)
(** What [lifecycled] does around the chip: the hardware reset
    ([lifecycle_gpio.c]), the loopback client connection
    ([lifecycle_client.c]) and the bind button ([lifecycle_bind.c]).  sysfs,
    [/dev/mem], the clock and the SDK are parameters. *)

From Stdlib Require Import String.
From S2P Require Import Prelude Monad LcText LcTuning LcConfig LcPair Link.
#[local] Open Scope Z_scope.

(** [lc_gpio_write]'s and [lc_gpio_read]'s files, a mapped register of
    [/dev/mem], the shutdown flag, [usleep] and [CLOCK_MONOTONIC]. *)
Class LcBoardIo (W : Type) := {
  sysfs_write : list Z -> list Z -> W -> W;
  sysfs_read : list Z -> M W (option (list Z));
  devmem_map : M W bool;
  devmem_write : Z -> Z -> W -> W;
  lifecycle_shutdown_requested : M W bool;
  sleep_us : Z -> W -> W;
  monotonic_s : M W Z
}.

Section board.
Context {W : Type} `{LcBoardIo W}.

(** ** Reset *)

Definition io (f : W -> W) : M W unit := fun w => (tt, f w).

Definition gpio_attr (gpio : Z) (attr : string) : list Z := chars "/sys/class/gpio/gpio" ++ fmt_dec gpio ++ chars "/" ++ chars attr.
Definition lc_gpio_write (gpio : Z) (attr value : string) : M W unit := io (sysfs_write (gpio_attr gpio attr) (chars value)).
Definition lc_gpio_export (gpio : Z) : M W unit := io (sysfs_write (chars "/sys/class/gpio/export") (fmt_dec gpio)).

Definition lc_gpio_read (gpio : Z) : M W (option Z) :=
  buf ← sysfs_read (gpio_attr gpio "value");
  mret match buf with
       | None | Some [] => None
       | Some (c :: _) => Some (if c =? 0x31 then 1 else 0)
       end.

Definition lc_gpio_reset_devmem (cfg : lc_cfg) : M W Z :=
  mapped ← devmem_map;
  if negb (mapped : bool) then mret (-1)
  else
    io (devmem_write (reset_devmem_addr cfg) 0x00) ;;
    io (sleep_us 1000000) ;;
    _ ← lifecycle_shutdown_requested;
    io (devmem_write (reset_devmem_addr cfg) 0x08) ;;
    io (sleep_us 1000000) ;;
    mret 0.

Definition gpio_low (gpio : Z) : M W unit :=
  lc_gpio_export gpio ;; lc_gpio_write gpio "direction" "out" ;; lc_gpio_write gpio "value" "0".

Definition lc_gpio_reset_sysfs (cfg : lc_cfg) : M W Z :=
  match reset_gpios cfg with
  | [primary; pair_a; pair_b; last] =>
      mfor gpio_low [primary; pair_a; pair_b; last] ;;
      io (sleep_us 100000) ;;
      _ ← lifecycle_shutdown_requested;
      lc_gpio_write pair_a "value" "1" ;;
      lc_gpio_write pair_b "value" "1" ;;
      io (sleep_us 50000) ;;
      lc_gpio_write primary "value" "1" ;;
      io (sleep_us 50000) ;;
      lc_gpio_write last "value" "1" ;;
      io (sleep_us 280000) ;;
      mfor (fun g => lc_gpio_write g "direction" "in") [pair_b; pair_a; last] ;;
      mret 0
  | _ => mret (-1)
  end.

Definition lifecycle_gpio_reset (cfg : lc_cfg) : M W Z :=
  match reset_method cfg with
  | LC_RESET_METHOD_DEVMEM => lc_gpio_reset_devmem cfg
  | LC_RESET_METHOD_GPIO_SYSFS => lc_gpio_reset_sysfs cfg
  | LC_RESET_METHOD_NONE => mret 0
  end.

(** ** Bind button *)

Definition LC_BIND_POLL_MS : Z := 100.
Definition LC_BIND_DEBOUNCE_MS : Z := 50.
Definition LC_BIND_LOCKOUT_S : Z := 5.
Definition LC_BIND_LONGPRESS_S : Z := 5.

(** 1 idle (also when unreadable), 0 pressed. *)
Definition read_button (gpio : Z) : M W Z :=
  v ← lc_gpio_read gpio; mret (match v with Some v => v | None => 1 end).

Context `{LcPrograms W}.

(** The loop until the release: whether the press was long. *)
Fixpoint hold_loop (fuel : nat) (gpio t0 : Z) (longpress : bool) : M W (option bool) :=
  match fuel with
  | O => mret None
  | S fuel =>
      v ← read_button gpio;
      if negb (v =? 0) then mret (Some longpress)
      else
        stop ← lifecycle_shutdown_requested;
        if (stop : bool) then mret (Some longpress)
        else
          io (sleep_us (LC_BIND_POLL_MS * 1000)) ;;
          now ← monotonic_s;
          if negb longpress && (LC_BIND_LONGPRESS_S <=? now - t0)
          then hook "longpress" (-1) None ;; hold_loop fuel gpio t0 true
          else hold_loop fuel gpio t0 longpress
  end.

(** One round of the thread's loop: [Some false] when it ends; [None] out of
    fuel in [hold_loop]. *)
Definition bind_round (fuel : nat) (cfg : lc_cfg) : M W (option bool) :=
  let gpio := bind_gpio cfg in
  stop ← lifecycle_shutdown_requested;
  if (stop : bool) then mret (Some false)
  else
    io (sleep_us (LC_BIND_POLL_MS * 1000)) ;;
    v ← read_button gpio;
    if negb (v =? 0) then mret (Some true)
    else
      io (sleep_us (LC_BIND_DEBOUNCE_MS * 1000)) ;;
      v ← read_button gpio;
      if negb (v =? 0) then mret (Some true)
      else
        t0 ← monotonic_s;
        held ← hold_loop fuel gpio t0 false;
        match held with
        | None => mret None
        | Some longpress =>
            stop ← lifecycle_shutdown_requested;
            if (stop : bool) then mret (Some false)
            else if (longpress : bool) then io (sleep_us (LC_BIND_LOCKOUT_S * 1000000)) ;; mret (Some true)
            else _ ← lc_pair_run (cfg_path cfg); io (sleep_us (LC_BIND_LOCKOUT_S * 1000000)) ;; mret (Some true)
        end.
End board.

(** ** The client connection *)

Definition LC_CLIENT_CONNECT_RETRIES : nat := 200.
Definition LC_CLIENT_CONNECT_DELAY_START_S : Z := 2.
Definition LC_CLIENT_CONNECT_DELAY_CAP_S : Z := 60.

Definition next_delay (delay_s : Z) : Z :=
  if delay_s <? LC_CLIENT_CONNECT_DELAY_CAP_S
  then if delay_s * 2 <? LC_CLIENT_CONNECT_DELAY_CAP_S then delay_s * 2 else LC_CLIENT_CONNECT_DELAY_CAP_S
  else delay_s.

Section client.
Context {W : Type} `{LinkSdk W} `{LcBoardIo W}.

(** One attempt: the open handle. *)
Definition client_attempt : M W (option (Z * Z)) :=
  '(ret, host) ← bb_host_connect;
  if negb (ret =? 0) then mret None
  else
    match host with
    | None => mret None
    | Some host =>
        devs ← bb_dev_getlist host;
        handle ← (match devs with d :: _ => handle ← bb_dev_open d; io (bb_dev_freelist devs) ;; mret handle | [] => mret None end);
        match handle with
        | Some handle => mret (Some (host, handle))
        | None => io (bb_host_disconnect host) ;; mret None
        end
    end.

Fixpoint connect_attempts (attempts : nat) (delay_s : Z) : M W (option (Z * Z)) :=
  match attempts with
  | O => mret None
  | S attempts =>
      stop ← lifecycle_shutdown_requested;
      if (stop : bool) then mret None
      else
        client ← client_attempt;
        match client with
        | Some client => mret (Some client)
        | None => io (sleep_us (delay_s * 1000000)) ;; connect_attempts attempts (next_delay delay_s)
        end
  end.

Definition lc_client_connect : M W (option (Z * Z)) := connect_attempts LC_CLIENT_CONNECT_RETRIES LC_CLIENT_CONNECT_DELAY_START_S.
End client.

(** The delay never leaves [2, 60] s, and reaches the cap within five misses. *)
Lemma next_delay_bounds d : 2 <= d <= 60 -> d <= next_delay d <= 60.
Proof. unfold next_delay, LC_CLIENT_CONNECT_DELAY_CAP_S; intros; if_cases; lia. Qed.

Lemma next_delay_capped : Nat.iter 5 next_delay LC_CLIENT_CONNECT_DELAY_START_S = LC_CLIENT_CONNECT_DELAY_CAP_S.
Proof. reflexivity. Qed.
