(* ===== verification/Lifecycle.v ===== *)
(** [lifecycled/lifecycle.c], data and operations: the supervisor's context,
    the link state the SDK's reader thread shares with it, the mailboxes the
    HTTP threads leave requests in, and everything one tick does with the chip.
    The tick itself and the state machine are in [LcTick]. *)

From Stdlib Require Import String.
From S2P Require Import Prelude Double CtrlMsg ChipAdc Monad LcText LcTuning LcPair LcConfig LcBoard.
#[local] Open Scope Z_scope.

Inductive lc_state := LC_STATE_INIT | LC_STATE_IDLE | LC_STATE_CONNECTED.
#[export] Instance lc_state_eq : EqDecision lc_state. Proof. solve_decision. Defined.

(** [lc_link_side_t] *)
Record lc_link_side := mk_side {
  ls_snr : Z; ls_ldpc_err : Z; ls_gain_a : Z; ls_gain_b : Z; ls_tx_mcs : Z; ls_tx_chan : Z; ls_tx_power : Z; ls_tx_freq_khz : Z
}.

(** [struct lifecycle_ctx] without [cfg], [client] and the locks; a mailbox is
    an option where C has a flag or -1. *)
Record lc_ctx := mk_ctx {
  state : lc_state; connected_slot : Z; drop_miss_count : Z; frame_change_pending : bool; connect_gen : Z;
  connect_confirm_count : Z; last_bandwidth : Z; idle_hook_fired : bool;
  pending_bandwidth_mhz : Z; pending_retx : option (Z * Z * Z * Z * Z); pending_power : option Z; pending_armed : Z;
  pending_channel : option Z; pending_forget : option (option (list Z));
  distance_m : Z; sock_port_bmp : Z; sock_rx_bytes : list Z; sock_tx_bytes : list Z; quality_valid : bool; signal_level : Z;
  quality_self : lc_link_side; quality_peer : lc_link_side; chan_table_khz : list Z; power : Z; power_dbm : Z;
  armed : Z; standby : bool; soc_temp_last : Z; soc_temp_valid : bool; soc_temp_c10 : Z; overheat : bool;
  channel : Z; chan_auto : Z; work_chan : Z; chan_settled : bool; chan_check_at : Z; chan_pushes_left : Z;
  rf_temp_armed : bool; rf_temp_rearm_wait : Z; rf_temp_valid : bool; rf_temp_c10 : Z; rf_temp_mv : Z;
  batt_armed : bool; batt_rearm_wait : Z; batt_arm_ret : Z; batt_adc_mv : Z
}.
#[export] Instance eta_lc_ctx : Eta lc_ctx := fun s =>
  mk_ctx (state s) (connected_slot s) (drop_miss_count s) (frame_change_pending s) (connect_gen s)
    (connect_confirm_count s) (last_bandwidth s) (idle_hook_fired s) (pending_bandwidth_mhz s) (pending_retx s)
    (pending_power s) (pending_armed s) (pending_channel s) (pending_forget s) (distance_m s) (sock_port_bmp s)
    (sock_rx_bytes s) (sock_tx_bytes s) (quality_valid s) (signal_level s) (quality_self s) (quality_peer s)
    (chan_table_khz s) (power s) (power_dbm s) (armed s) (standby s) (soc_temp_last s) (soc_temp_valid s)
    (soc_temp_c10 s) (overheat s) (channel s) (chan_auto s) (work_chan s) (chan_settled s) (chan_check_at s)
    (chan_pushes_left s) (rf_temp_armed s) (rf_temp_rearm_wait s) (rf_temp_valid s) (rf_temp_c10 s) (rf_temp_mv s)
    (batt_armed s) (batt_rearm_wait s) (batt_arm_ret s) (batt_adc_mv s).

(** The file's globals. *)
Record lc_glob := mk_glob {
  g_link_state : bb_link_state; g_link_state_valid : bool; g_link_connect_gen : Z; g_shutdown_requested : bool;
  g_restart_requested : bool
}.
#[export] Instance eta_lc_glob : Eta lc_glob := fun s =>
  mk_glob (g_link_state s) (g_link_state_valid s) (g_link_connect_gen s) (g_shutdown_requested s) (g_restart_requested s).

Definition glob_init : lc_glob := mk_glob BB_LINK_STATE_IDLE false 0 false false.

(** The locals of the main loop. *)
Record lc_loc := mk_loc {
  lv_now : Z; lv_did_fallback_poll : bool; lv_last_fallback_poll : Z; lv_poll_fails : Z; lv_have_state : bool;
  lv_state : bb_link_state
}.
#[export] Instance eta_lc_loc : Eta lc_loc := fun s =>
  mk_loc (lv_now s) (lv_did_fallback_poll s) (lv_last_fallback_poll s) (lv_poll_fails s) (lv_have_state s) (lv_state s).

Definition loc_init : lc_loc := mk_loc 0 false 0 0 false BB_LINK_STATE_IDLE.

Record lst (W : Type) := mk_lst { L : lc_ctx; G : lc_glob; V : lc_loc; Wd : W }.
Arguments mk_lst {W} L G V Wd.
Arguments L {W} _.
Arguments G {W} _.
Arguments V {W} _.
Arguments Wd {W} _.

(** [time(NULL)], [sleep], the SoC temperature command (whether it timed out,
    and its output; [None]: it was not started), and the two larger status reads
    of the SDK. *)
Class LcEnv (W : Type) := {
  time_now : M W Z;
  sleep_s : Z -> W -> W;
  soc_temp_run : list Z -> M W (option (bool * list Z));
  bb_get_sock_info : Z -> M W (Z * Z * list (Z * Z));
  bb_get_1v1_info : M W (Z * lc_link_side * lc_link_side)
}.

Definition LC_POLL_FALLBACK_S : Z := 5.
Definition LC_SESSION_LOST_POLLS : Z := 3.
Definition LC_SOC_TEMP_POLL_S : Z := 2.
Definition LC_RETX_DEFAULT_WIN : Z := 10.
Definition LC_RETX_DEFAULT_BUSY : Z := 6.
Definition LC_RETX_DEFAULT_IDLE : Z := 4.
Definition LC_RETX_DEFAULT_CONTI_BUSY : Z := 2.
Definition LC_RETX_DEFAULT_CONTI_IDLE : Z := 0.
Definition LC_CONNECT_CONFIRM_TICKS : Z := 3.
Definition LC_DROP_CONFIRM_TICKS : Z := 6.
Definition LC_CHAN_CHECK_DELAY_S : Z := 3.
Definition LC_CHAN_PUSHES : Z := 4.
Definition LC_MAX_CHANNELS : Z := 64.
Definition LC_SOCK_PORTS : nat := 8.
Definition LC_ADC_REARM_TICKS : Z := 30.

Definition side_zero : lc_link_side := mk_side 0 0 0 0 0 0 0 0.

(** ** The link state shared with the event callback *)

Definition lc_set_link_state (st : bb_link_state) (g : lc_glob) : lc_glob :=
  g <| g_link_state := st |> <| g_link_state_valid := true |>.

Definition lc_get_link_state (g : lc_glob) : bool * bb_link_state := (g_link_state_valid g, g_link_state g).

Definition lc_get_connect_gen (g : lc_glob) : Z := g_link_connect_gen g.

Definition lc_on_link_state_event (cur prev : bb_link_state) (g : lc_glob) : lc_glob :=
  let g := if bool_decide (cur = BB_LINK_STATE_CONNECT) && negb (bool_decide (prev = BB_LINK_STATE_CONNECT))
           then g <| g_link_connect_gen := u32 (g_link_connect_gen g + 1) |> else g in
  lc_set_link_state cur g.

Definition lifecycle_request_shutdown (g : lc_glob) : lc_glob := g <| g_shutdown_requested := true |>.
Definition lifecycle_request_restart (g : lc_glob) : lc_glob :=
  g <| g_restart_requested := true |> <| g_shutdown_requested := true |>.

(** ** The mailboxes, and what the HTTP threads put in them *)

Section requests.
Context {W : Type} `{LcFs W} `{LcSdk W} `{CJson} (cfg : lc_cfg).

Definition lifecycle_request_bandwidth (mhz : Z) (x : lc_ctx) : Z * lc_ctx :=
  if negb (lc_tuning_valid_mhz mhz) then (-1, x) else (0, x <| pending_bandwidth_mhz := mhz |>).

Definition lifecycle_request_retx (win busy idle conti_busy conti_idle : Z) (x : lc_ctx) : Z * lc_ctx :=
  if negb (lc_retx_valid win busy idle conti_busy conti_idle) then (-1, x)
  else (0, x <| pending_retx := Some (win, busy, idle, conti_busy, conti_idle) |>).

Definition lifecycle_request_channel (chan : Z) (x : lc_ctx) : Z * lc_ctx :=
  if negb (channel_in_range chan) then (-1, x)
  else if bool_decide (role cfg = LC_ROLE_DEV) && negb (bool_decide (state x = LC_STATE_CONNECTED)) then (-2, x)
  else (0, x <| pending_channel := Some chan |>).

Definition lifecycle_request_power (level : Z) (x : lc_ctx) : Z * lc_ctx :=
  if negb (lc_power_valid (is_ap cfg) (max_power cfg) level) then (-1, x) else (0, x <| pending_power := Some level |>).

Definition lifecycle_request_armed (a : Z) (x : lc_ctx) : Z * lc_ctx :=
  if negb (a =? 0) && negb (a =? 1) then (-1, x) else (0, x <| pending_armed := a |>).

Definition lower_hex (c : Z) : Z := if (0x41 <=? c) && (c <=? 0x46) then c - 0x41 + 0x61 else c.

(** [mac_hex] is [None] for NULL. *)
Definition lifecycle_request_forget_peer (mac_hex : option (list Z)) (w : W) (x : lc_ctx) : Z * lc_ctx :=
  if bool_decide (role cfg <> LC_ROLE_DEV) || bool_decide (cfg_path cfg = []) then (-4, x)
  else
    let refusal :=
      match mac_hex with
      | None => 0
      | Some hex =>
          match mac_parse hex with
          | None => -1
          | Some mac =>
              if bool_decide (lc_pair_read_ap_mac (cfg_path cfg) w = Some mac) then -2
              else if mac_in mac (lc_peers_load (cfg_path cfg) BB_CONFIG_MAX_SLOT_CANDIDATE w) then 0 else -3
          end
      end in
    if negb (refusal =? 0) then (refusal, x)
    else (0, x <| pending_forget := Some (match mac_hex with Some hex => Some (map lower_hex (ztake 8 hex)) | None => None end) |>).
End requests.

(** ** Operations of the lifecycle thread *)

Section operations.
Context {W : Type} `{LcFs W} `{LcSdk W} `{ChipIoctl W} `{CJson} `{LcPrograms W} `{LcEnv W} (cfg : lc_cfg).

Definition getx {A} (f : lc_ctx -> A) : M (lst W) A := fun s => (f (L s), s).
Definition updx (f : lc_ctx -> lc_ctx) : M (lst W) unit := fun s => (tt, mk_lst (f (L s)) (G s) (V s) (Wd s)).
Definition getg {A} (f : lc_glob -> A) : M (lst W) A := fun s => (f (G s), s).
Definition updg (f : lc_glob -> lc_glob) : M (lst W) unit := fun s => (tt, mk_lst (L s) (f (G s)) (V s) (Wd s)).
Definition getv {A} (f : lc_loc -> A) : M (lst W) A := fun s => (f (V s), s).
Definition updv (f : lc_loc -> lc_loc) : M (lst W) unit := fun s => (tt, mk_lst (L s) (G s) (f (V s)) (Wd s)).
(** An operation of the world. *)
Definition sys {A} (m : M W A) : M (lst W) A := lift Wd (fun w s => mk_lst (L s) (G s) (V s) w) m.
Definition sys_ {A} (m : M W A) : M (lst W) unit := _ ← sys m; mret tt.

Definition has_cfg : bool := negb (bool_decide (cfg_path cfg = [])).

(** [lifecycle_init]'s context. *)
Definition init_channel (w : W) : Z :=
  if bool_decide (role cfg <> LC_ROLE_AP) then LC_CHANNEL_NONE
  else match (if has_cfg then lc_channel_load (cfg_path cfg) w else None) with
       | Some chan => chan
       | None => default_channel cfg
       end.

Definition init_power (w : W) : Z :=
  let wanted :=
    match (if has_cfg then lc_power_load (cfg_path cfg) w else None) with
    | Some level => if lc_power_valid (is_ap cfg) (max_power cfg) level then Some level else None
    | None => None
    end in
  let p := match wanted with
           | Some level => level
           | None => if default_power cfg =? LC_POWER_ROLE_DEFAULT then lc_power_default (is_ap cfg) (max_power cfg)
                     else default_power cfg
           end in
  if negb (p =? LC_POWER_NONE) && negb (lc_power_valid (is_ap cfg) (max_power cfg) p)
  then lc_power_default (is_ap cfg) (max_power cfg) else p.

Definition ctx_init (w : W) : lc_ctx :=
  mk_ctx LC_STATE_INIT (-1) 0 false 0 0 (-1) false (-1) None None (-1) None None
    (-1) 0 (replicate LC_SOCK_PORTS 0) (replicate LC_SOCK_PORTS 0) false 0 side_zero side_zero [] (init_power w) (-1)
    1 false 0 false 0 false (init_channel w) (-1) (-1) false 0 0 false 0 false 0 0 false 0 1 0.

(** [None] with [no_lifecycle]; the reset's result is only logged. *)
Definition lifecycle_init `{LcBoardIo W} : M W (option lc_ctx) :=
  if no_lifecycle cfg then mret None
  else
    x ← gets ctx_init;
    _ ← lifecycle_gpio_reset cfg;
    mret (Some x).

Definition lc_poll_link_state : M W (option bb_link_state) :=
  '(ret, out) ← bb_get_status 0;
  mret (if negb (ret =? 0) then None else Some (nth 0 (bs_links out) BB_LINK_STATE_IDLE)).

(** *** Link policy, power, tuning *)

Definition lc_push_mcs_items (t : list mcs_item) : M W unit := mfor (fun e => _ ← ar8030_set_mcs_item e; mret tt) t.

Definition lc_apply_link_policy_ap : M W unit :=
  let strategy := link_policy cfg in
  lc_push_mcs_items ar8030_air_mcs_table ;;
  _ ← ar8030_set_mcs_range 0 (if strategy =? 2 then 1 else 2) 2;
  _ ← ar8030_set_rfo_kikp (strategy =? 2);
  mret tt.

Definition lc_apply_power : M (lst W) unit :=
  x ← getx id;
  if standby x then sys_ (lc_power_apply_standby (standby_dbm cfg) (fem_ctrl cfg))
  else if power x =? LC_POWER_NONE then mret tt
  else sys_ (lc_power_apply (is_ap cfg) (power x) (fem_ctrl cfg)).

Definition lc_poll_power : M (lst W) unit :=
  dbm ← sys (lc_power_read_dbm (is_ap cfg)); updx (fun x => x <| power_dbm := dbm |>).

Definition retx_default : retx_cfg :=
  mk_retx LC_RETX_DEFAULT_WIN LC_RETX_DEFAULT_BUSY LC_RETX_DEFAULT_IDLE LC_RETX_DEFAULT_CONTI_BUSY LC_RETX_DEFAULT_CONTI_IDLE.

Definition lc_apply_link_tuning : M (lst W) unit :=
  loaded ← sys (gets (if has_cfg then lc_retx_load (cfg_path cfg) else fun _ => None));
  let r := match loaded with Some r => r | None => retx_default end in
  sys_ (lc_retx_apply (rx_win r) (rx_busy r) (rx_idle r) (rx_conti_busy r) (rx_conti_idle r)) ;;
  lc_apply_power ;;
  when (is_ap cfg && frame_change cfg)
    (ret ← sys (lc_frame_change_apply 1); updx (fun x => x <| frame_change_pending := negb (ret =? 0) |>)) ;;
  when (negb (is_ap cfg) && ((link_policy cfg =? 1) || (link_policy cfg =? 2)))
    (sys_ (lc_push_mcs_items (ar8030_gnd_mcs_table (link_policy cfg)))).

Definition lc_apply_tuning_on_connect (slot : Z) : M (lst W) unit :=
  loaded ← sys (gets (if has_cfg then lc_tuning_load (cfg_path cfg) else fun _ => -1));
  let bandwidth := if loaded <? 0 then default_bandwidth cfg else loaded in
  when (0 <? bandwidth) (sys_ (lc_tuning_apply slot bandwidth)) ;;
  updx (fun x => x <| last_bandwidth := bandwidth |>) ;;
  lc_apply_link_tuning.

(** *** Draining the mailboxes *)

Definition lc_drain_bandwidth_request : M (lst W) unit :=
  requested_mhz ← getx pending_bandwidth_mhz;
  updx (fun x => x <| pending_bandwidth_mhz := -1 |>) ;;
  when (negb (requested_mhz <=? 0))
    (when has_cfg (sys_ (lc_tuning_save (cfg_path cfg) requested_mhz)) ;;
     x ← getx id;
     when (bool_decide (state x = LC_STATE_CONNECTED))
       (sys_ (lc_tuning_apply (connected_slot x) requested_mhz) ;;
        updx (fun x => x <| last_bandwidth := requested_mhz |>))).

Definition lc_drain_retx_request : M (lst W) unit :=
  req ← getx pending_retx;
  updx (fun x => x <| pending_retx := None |>) ;;
  match req with
  | None => mret tt
  | Some (win, busy, idle, conti_busy, conti_idle) =>
      when has_cfg (sys_ (lc_retx_save (cfg_path cfg) win busy idle conti_busy conti_idle)) ;;
      sys_ (lc_retx_apply win busy idle conti_busy conti_idle)
  end.

Definition lc_set_channel (chan : Z) : M (lst W) unit := updx (fun x => x <| channel := chan |>).

Definition lc_drain_channel_request : M (lst W) unit :=
  req ← getx pending_channel;
  updx (fun x => x <| pending_channel := None |>) ;;
  match req with
  | None => mret tt
  | Some chan =>
      outside ← (if 0 <=? chan
                 then r ← sys lc_channel_read; mret (match r with Some (_, _, chan_num) => chan_num <=? chan | None => false end)
                 else mret false);
      if (outside : bool) then mret tt
      else
        when (is_ap cfg)
          (when has_cfg (sys_ (lc_channel_save (cfg_path cfg) chan)) ;;
           lc_set_channel chan ;;
           updx (fun x => x <| chan_settled := false |>)) ;;
        x ← getx id;
        if bool_decide (state x = LC_STATE_CONNECTED)
        then sys_ (lc_channel_apply_linked (connected_slot x) chan)
        else sys_ (lc_channel_apply_mode chan)
  end.

Definition lc_drain_forget_request : M (lst W) unit :=
  req ← getx pending_forget;
  updx (fun x => x <| pending_forget := None |>) ;;
  match req with
  | None => mret tt
  | Some mac =>
      n ← sys (lc_peers_forget (cfg_path cfg) mac);
      when (0 <? n) (sys_ (lc_peers_push (cfg_path cfg)))
  end.

Definition lc_drain_power_request : M (lst W) unit :=
  req ← getx pending_power;
  updx (fun x => x <| pending_power := None |>) ;;
  match req with
  | None => mret tt
  | Some level =>
      when has_cfg (sys_ (lc_power_save (cfg_path cfg) level)) ;;
      updx (fun x => x <| power := level |>) ;;
      lc_apply_power ;;
      lc_poll_power
  end.

(** *** Channel *)

Definition lc_channel_track : M (lst W) unit :=
  r ← sys lc_channel_read;
  match r with
  | None => mret tt
  | Some (auto_mode, chan, _) =>
      updx (fun x => x <| chan_auto := bool_int auto_mode |> <| work_chan := chan |>) ;;
      x ← getx id;
      if channel x =? LC_CHANNEL_NONE then mret tt
      else if lc_channel_matches (channel x) auto_mode chan then updx (fun x => x <| chan_settled := true |>)
      else if negb (chan_settled x) then mret tt
      else
        let observed := if auto_mode then LC_CHANNEL_AUTO else chan in
        when has_cfg (sys_ (lc_channel_save (cfg_path cfg) observed)) ;;
        lc_set_channel observed
  end.

Definition lc_channel_on_connect : M (lst W) unit :=
  now ← sys time_now;
  updx (fun x => x <| chan_settled := false |> <| chan_pushes_left := LC_CHAN_PUSHES |>
                   <| chan_check_at := now + LC_CHAN_CHECK_DELAY_S |>).

(** The loop of [lc_channel_neighbour] from entry [i], with its [best] and
    [best_d]. *)
Fixpoint neighbour_loop (i : Z) (table : list Z) (chan w best best_d : Z) : Z :=
  match table with
  | [] => best
  | f :: table =>
      if i =? chan then neighbour_loop (i + 1) table chan w best best_d
      else
        let d := if w <? f then u32 (f - w) else u32 (w - f) in
        if (best <? 0) || (d <? best_d) then neighbour_loop (i + 1) table chan w i d
        else neighbour_loop (i + 1) table chan w best best_d
  end.

Definition lc_channel_neighbour (x : lc_ctx) (chan : Z) : Z :=
  neighbour_loop 0 (chan_table_khz x) chan (byte_at (chan_table_khz x) chan) (-1) 0.

(** Where [lc_channel_check_link] sends the link: [None] when it returns
    without a push. *)
Definition check_link_push (x : lc_ctx) (chan_ok : bool) : option Z :=
  if chan_ok then
    let target := lc_channel_neighbour x (channel x) in if target <? 0 then None else Some target
  else Some (channel x).

Definition lc_channel_check_link : M (lst W) unit :=
  updx (fun x => x <| chan_check_at := 0 |>) ;;
  x ← getx id;
  if negb (is_ap cfg) || (channel x =? LC_CHANNEL_NONE) then mret tt
  else
    r ← sys lc_channel_read;
    match r with
    | None => mret tt
    | Some (auto_mode, chan, chan_num) =>
        if (0 <=? channel x) && (0 <? chan_num) && (chan_num <=? channel x) then mret tt
        else
          let chan_ok := lc_channel_matches (channel x) auto_mode chan in
          let in_table := (0 <=? channel x) && (channel x <? zlen (chan_table_khz x)) in
          let want := if in_table then byte_at (chan_table_khz x) (channel x) else 0 in
          '(down, up) ← (if in_table then sys lc_channel_read_link_khz else mret (0, 0));
          let link_ok := (want =? 0) || (((down =? 0) || (down =? want)) && ((up =? 0) || (up =? want))) in
          if chan_ok && link_ok then mret tt
          else if chan_pushes_left x <=? 0 then mret tt
          else
            updx (fun x => x <| chan_pushes_left := chan_pushes_left x - 1 |> <| chan_settled := false |>) ;;
            match check_link_push x chan_ok with
            | None => mret tt
            | Some target =>
                sys_ (lc_channel_apply_linked (connected_slot x) target) ;;
                now ← sys time_now;
                updx (fun x => x <| chan_check_at := now + LC_CHAN_CHECK_DELAY_S |>)
            end
    end.
End operations.

(** ** Running an operation *)

Section running.
Context {W : Type}.
Implicit Types s : lst W.

Lemma bind_getx {A B} (f : lc_ctx -> A) (k : A -> M (lst W) B) s : (getx f ≫= k) s = k (f (L s)) s.
Proof. done. Qed.
Lemma bind_getg {A B} (f : lc_glob -> A) (k : A -> M (lst W) B) s : (getg f ≫= k) s = k (f (G s)) s.
Proof. done. Qed.
Lemma bind_getv {A B} (f : lc_loc -> A) (k : A -> M (lst W) B) s : (getv f ≫= k) s = k (f (V s)) s.
Proof. done. Qed.
Lemma bind_updx {B} f (k : unit -> M (lst W) B) s : (updx f ≫= k) s = k tt (mk_lst (f (L s)) (G s) (V s) (Wd s)).
Proof. done. Qed.
Lemma bind_updg {B} f (k : unit -> M (lst W) B) s : (updg f ≫= k) s = k tt (mk_lst (L s) (f (G s)) (V s) (Wd s)).
Proof. done. Qed.
Lemma bind_updv {B} f (k : unit -> M (lst W) B) s : (updv f ≫= k) s = k tt (mk_lst (L s) (G s) (f (V s)) (Wd s)).
Proof. done. Qed.
Lemma bind_sys {A B} (m : M W A) (k : A -> M (lst W) B) s :
  (sys m ≫= k) s = k (m (Wd s)).1 (mk_lst (L s) (G s) (V s) (m (Wd s)).2).
Proof. rewrite bind_run; unfold sys, lift; by destruct (m (Wd s)). Qed.
Lemma bind_sys_ {A B} (m : M W A) (k : unit -> M (lst W) B) s :
  (sys_ m ≫= k) s = k tt (mk_lst (L s) (G s) (V s) (m (Wd s)).2).
Proof. rewrite bind_run; unfold sys_; rewrite bind_sys; done. Qed.
Lemma bind_mret {A B} (a : A) (k : A -> M (lst W) B) s : (mret a ≫= k) s = k a s.
Proof. done. Qed.
Lemma bind_assoc_run {A B C} (m : M (lst W) A) (f : A -> M (lst W) B) (k : B -> M (lst W) C) s :
  ((m ≫= f) ≫= k) s = (m ≫= (fun a => f a ≫= k)) s.
Proof. rewrite !bind_run; done. Qed.
Lemma sys_run {A} (m : M W A) s : sys m s = ((m (Wd s)).1, mk_lst (L s) (G s) (V s) (m (Wd s)).2).
Proof. unfold sys, lift; by destruct (m (Wd s)). Qed.
Lemma sys__run {A} (m : M W A) s : sys_ m s = (tt, mk_lst (L s) (G s) (V s) (m (Wd s)).2).
Proof. unfold sys_; by rewrite bind_sys. Qed.
End running.

(** One step at a time through a bind. *)
Ltac mrun := repeat first
  [ rewrite bind_getx | rewrite bind_getg | rewrite bind_getv | rewrite bind_updx | rewrite bind_updg | rewrite bind_updv
  | rewrite bind_sys_ | rewrite bind_sys | rewrite bind_mret | rewrite bind_assoc_run ]; cbv beta zeta.
