(* ===== verification/LcTick.v ===== *)
(** [lifecycled/lifecycle.c], the thread: the readings of every tick, the
    low-power mode and the heat pause, the state machine INIT / IDLE /
    CONNECTED, and the main loop as the sequence of its steps, between any two
    of which the event callback and the HTTP threads may act. *)

From Stdlib Require Import String.
From S2P Require Import Prelude Double CtrlMsg ChipAdc Monad LcText Strtod LcTuning LcPair LcConfig LcBoard Lifecycle.
#[local] Open Scope Z_scope.

(** [lc_signal_level] *)
Definition lc_signal_level (video_tx video_rx : lc_link_side) : Z :=
  let mcs := ls_tx_mcs video_tx - 2 in
  if mcs <? 3 then 1 else if mcs <? 5 then 2 else if 1 <? ls_ldpc_err video_rx then 3 else 4.

(** [(int)x]: truncation towards zero. *)
Definition f2int (x : double) : Z := if (x <? dofZ 0)%D then - f2u32 (dneg x) else f2u32 x.

(** [%02d] *)
Definition fmt_02d (z : Z) : list Z := if (0 <=? z) && (z <? 10) then 0x30 :: fmt_dec z else fmt_dec z.

Section tick.
Context {W : Type} `{LcFs W} `{LcSdk W} `{ChipIoctl W} `{CJson} `{LcPrograms W} `{LcEnv W} (cfg : lc_cfg).

(** ** Readings *)

Definition lc_poll_sock_info : M (lst W) unit :=
  x ← getx id;
  '(ret, bmp, info) ← sys (bb_get_sock_info (u8 (if 0 <=? connected_slot x then connected_slot x else 0)));
  let ok := ret =? 0 in
  updx (fun x => x <| sock_port_bmp := if ok then bmp else 0 |>
                   <| sock_rx_bytes := if ok then map fst (take LC_SOCK_PORTS info) else replicate LC_SOCK_PORTS 0 |>
                   <| sock_tx_bytes := if ok then map snd (take LC_SOCK_PORTS info) else replicate LC_SOCK_PORTS 0 |>).

(** With the SDK's [BB_HAVE_1V1_INFO_76]. *)
Definition lc_poll_quality : M (lst W) unit :=
  st ← getx state;
  '(ok, self, peer) ← (if decide (st = LC_STATE_CONNECTED)
                       then '(ret, self, peer) ← sys bb_get_1v1_info;
                            mret (ret =? 0, self, peer)
                       else mret (false, side_zero, side_zero));
  updx (fun x => x <| quality_valid := ok |> <| quality_self := self |> <| quality_peer := peer |>
                   <| signal_level := if (ok : bool) then (if is_ap cfg then lc_signal_level self peer else lc_signal_level peer self)
                                      else 0 |>).

Definition lc_poll_distance : M (lst W) unit :=
  st ← getx state;
  m ← (if decide (st = LC_STATE_CONNECTED) then sys lc_distance_read_m else mret (-1));
  updx (fun x => x <| distance_m := m |>).

(** A one-line file, written through [rename]. *)
Definition write_reading (path text : list Z) : M W unit :=
  let tmp := snprintf_cut 272 (path ++ str_tmp) in
  opened ← fs_write tmp text;
  when opened (_ ← fs_rename tmp path; mret tt).

Definition lc_write_rf_temp_file (c10 : Z) : M W unit :=
  write_reading (rf_temp_file cfg) (fmt_dec (Z.quot (c10 + 5) 10) ++ [10]).

Definition lc_write_batt_file (mv : Z) : M W unit :=
  let cv := Z.quot (mv + 5) 10 in
  write_reading (batt_file cfg) (fmt_dec (Z.quot cv 100) ++ [0x2e] ++ fmt_02d (Z.rem cv 100) ++ [10]).

Definition unlink_file (path : list Z) : M W unit := fun w => (tt, fs_unlink path w).

Definition lc_poll_rf_temp : M (lst W) unit :=
  let ch := rf_temp_adc cfg in
  x ← getx id;
  if ch <? 0 then mret tt
  else if negb (rf_temp_armed x) then
    if 0 <? rf_temp_rearm_wait x then updx (fun x => x <| rf_temp_rearm_wait := rf_temp_rearm_wait x - 1 |>)
    else
      ret ← sys (ar8030_rftemp_arm ch);
      updx (fun x => x <| rf_temp_armed := ret =? 0 |> <| rf_temp_rearm_wait := LC_ADC_REARM_TICKS |>)
  else
    '(ret, mv) ← sys (ar8030_rftemp_read_mv ch);
    if negb (ret =? 0) then updx (fun x => x <| rf_temp_armed := false |>)
    else
      let mv := match mv with Some mv => mv | None => 0 end in
      if mv <=? 0 then mret tt
      else
        let sample := ar8030_rftemp_mv_to_c10 mv in
        if sample =? AR8030_RFTEMP_NONE then
          updx (fun x => x <| rf_temp_valid := false |> <| rf_temp_mv := mv |>) ;;
          when (negb (bool_decide (rf_temp_file cfg = []))) (sys (unlink_file (rf_temp_file cfg)))
        else
          let c10 := if rf_temp_valid x then Z.quot (rf_temp_c10 x * 3 + sample) 4 else sample in
          updx (fun x => x <| rf_temp_c10 := c10 |> <| rf_temp_mv := mv |> <| rf_temp_valid := true |>) ;;
          when (negb (bool_decide (rf_temp_file cfg = []))) (sys (lc_write_rf_temp_file c10)).

Definition lc_poll_batt : M (lst W) unit :=
  let ch := batt_adc cfg in
  x ← getx id;
  if ch <? 0 then mret tt
  else if negb (batt_armed x) then
    if 0 <? batt_rearm_wait x then updx (fun x => x <| batt_rearm_wait := batt_rearm_wait x - 1 |>)
    else
      ret ← sys (ar8030_rftemp_arm ch);
      updx (fun x => x <| batt_arm_ret := ret |> <| batt_armed := ret =? 0 |> <| batt_rearm_wait := LC_ADC_REARM_TICKS |>)
  else
    '(ret, mv) ← sys (ar8030_rftemp_read_mv ch);
    let ok := ret =? 0 in
    let mv := match mv with Some mv => mv | None => 0 end in
    when (negb ok) (updx (fun x => x <| batt_armed := false |>)) ;;
    if negb ok || (mv <=? 0) then
      updx (fun x => x <| batt_adc_mv := 0 |>) ;;
      when (negb (bool_decide (batt_file cfg = []))) (sys (unlink_file (batt_file cfg)))
    else
      let adc := if 0 <? batt_adc_mv x then Z.quot (batt_adc_mv x * 3 + mv) 4 else mv in
      updx (fun x => x <| batt_adc_mv := adc |>) ;;
      when (negb (bool_decide (batt_file cfg = [])))
        (sys (lc_write_batt_file (ar8030_batt_mv adc (batt_scale cfg) (batt_offset_mv cfg)))).

Definition lc_poll_soc_temp : M (lst W) unit :=
  if bool_decide (soc_temp_cmd cfg = []) then mret tt
  else
    now ← sys time_now;
    x ← getx id;
    if now - soc_temp_last x <? LC_SOC_TEMP_POLL_S then mret tt
    else
      updx (fun x => x <| soc_temp_last := now |>) ;;
      r ← sys (soc_temp_run (soc_temp_cmd cfg));
      match r with
      | Some (timed_out, out) =>
          let c := strtod_val out in
          let valid := negb timed_out && bool_decide (is_Some (strtod out)) && (c >? dofZ (-60))%D && (c <? dofZ 200)%D in
          updx (fun x => x <| soc_temp_valid := valid |>
                           <| soc_temp_c10 := if valid then f2int (c * dofZ 10 + (if (c >=? dofZ 0)%D then dlit 1 2 else dneg (dlit 1 2)))%D
                                              else soc_temp_c10 x |>)
      | None => mret tt
      end.

(** ** The heat pause and the low-power mode *)

(** What [lc_overheat_update] makes of [overheat]. *)
Definition overheat_next (x : lc_ctx) : bool :=
  if negb (is_ap cfg) || (overheat_c cfg <? 0) || negb (soc_temp_valid x) then overheat x
  else if negb (overheat x) && (overheat_c cfg * 10 <=? soc_temp_c10 x) then true
  else if overheat x && (soc_temp_c10 x <=? overheat_resume_c cfg * 10) then false
  else overheat x.

Definition lc_overheat_update : M (lst W) unit :=
  x ← getx id;
  let next := overheat_next x in
  when (negb (bool_decide (next = overheat x)))
    (updx (fun x => x <| overheat := next |>) ;;
     sys (hook (if next then "overheat"%string else "resume"%string) (connected_slot x) None)).

(** The low-power mode [lc_standby_update] wants. *)
Definition standby_want (x : lc_ctx) : bool :=
  if negb (armed x =? 0) && negb (overheat x) then false
  else if bool_decide (state x = LC_STATE_CONNECTED) then true
  else standby x.

Definition lc_standby_update : M (lst W) unit :=
  a ← getx pending_armed;
  updx (fun x => x <| pending_armed := -1 |>) ;;
  when (0 <=? a) (updx (fun x => x <| armed := a |>)) ;;
  if negb (is_ap cfg) || (standby_dbm cfg <? 0) then mret tt
  else
    x ← getx id;
    when (negb (bool_decide (standby_want x = standby x)))
      (updx (fun x => x <| standby := standby_want x |>) ;;
       lc_apply_power cfg ;;
       lc_poll_power cfg).

(** ** The state machine *)

(** The fallback poll at the head of the loop. *)
Definition fallback_poll : M (lst W) unit :=
  now ← sys time_now;
  updv (fun v => v <| lv_now := now |> <| lv_did_fallback_poll := false |>) ;;
  v ← getv id;
  when (LC_POLL_FALLBACK_S <=? now - lv_last_fallback_poll v)
    (polled ← sys lc_poll_link_state;
     match polled with
     | Some st => updg (lc_set_link_state st) ;; updv (fun v => v <| lv_poll_fails := 0 |>)
     | None =>
         updv (fun v => v <| lv_poll_fails := lv_poll_fails v + 1 |>) ;;
         when (LC_SESSION_LOST_POLLS <=? lv_poll_fails v + 1) (updg lifecycle_request_restart)
     end ;;
     updv (fun v => v <| lv_last_fallback_poll := now |> <| lv_did_fallback_poll := true |>) ;;
     lc_poll_power cfg).

Definition sample_link_state : M (lst W) unit :=
  '(have, st) ← getg lc_get_link_state;
  updv (fun v => v <| lv_have_state := have |> <| lv_state := st |>).

Definition enter_connected : M (lst W) unit :=
  slot ← sys lc_tuning_resolve_connected_slot;
  let slot := if 0 <=? slot then slot else 0 in
  updx (fun x => x <| connected_slot := slot |> <| state := LC_STATE_CONNECTED |>) ;;
  sys (hook "connected" slot None) ;;
  gen ← getg lc_get_connect_gen;
  updx (fun x => x <| connect_gen := gen |>) ;;
  lc_apply_tuning_on_connect cfg slot ;;
  lc_channel_on_connect ;;
  when (negb (is_ap cfg) && has_cfg cfg) (sys_ (lc_peers_note_ap_mac (cfg_path cfg))).

Definition tick_idle (connect : bool) : M (lst W) unit :=
  if connect then
    updx (fun x => x <| connect_confirm_count := connect_confirm_count x + 1 |>) ;;
    n ← getx connect_confirm_count;
    if n <? LC_CONNECT_CONFIRM_TICKS then mret tt
    else updx (fun x => x <| connect_confirm_count := 0 |>) ;; enter_connected
  else
    updx (fun x => x <| connect_confirm_count := 0 |>) ;;
    fired ← getx idle_hook_fired;
    when (negb fired) (sys (hook "idle" (-1) None) ;; updx (fun x => x <| idle_hook_fired := true |>)).

Definition leave_connected : M (lst W) unit :=
  slot ← getx connected_slot;
  sys (hook "dropped" slot None) ;;
  updx (fun x => x <| state := LC_STATE_IDLE |> <| connected_slot := -1 |> <| last_bandwidth := -1 |>
                   <| chan_auto := -1 |> <| work_chan := -1 |>) ;;
  updx (fun x => x <| drop_miss_count := 0 |>).

(** A relink inside the drop debounce. *)
Definition handle_relink : M (lst W) unit :=
  gen ← getg lc_get_connect_gen;
  x ← getx id;
  when (negb (gen =? connect_gen x))
    (updx (fun x => x <| connect_gen := gen |>) ;;
     lc_apply_link_tuning cfg ;;
     now ← sys time_now;
     updx (fun x => x <| chan_check_at := now + LC_CHAN_CHECK_DELAY_S |>)).

Definition recheck_bandwidth : M (lst W) unit :=
  x ← getx id;
  when (0 <? last_bandwidth x)
    (cur ← sys (lc_tuning_read_current (is_ap cfg));
     when ((0 <? cur) && negb (cur =? last_bandwidth x))
       (sys_ (lc_tuning_apply (connected_slot x) (last_bandwidth x)) ;;
        when (is_ap cfg && frame_change cfg) (updx (fun x => x <| frame_change_pending := true |>)))).

Definition tick_connected (dropped : bool) : M (lst W) unit :=
  if dropped then
    updx (fun x => x <| drop_miss_count := drop_miss_count x + 1 |>) ;;
    n ← getx drop_miss_count;
    if n <? LC_DROP_CONFIRM_TICKS then mret tt else leave_connected
  else
    updx (fun x => x <| drop_miss_count := 0 |>) ;;
    handle_relink ;;
    x ← getx id;
    v ← getv id;
    when (negb (chan_check_at x =? 0) && (chan_check_at x <=? lv_now v)) (lc_channel_check_link cfg) ;;
    when (lv_did_fallback_poll v)
      (recheck_bandwidth ;;
       pending ← getx frame_change_pending;
       when pending (ret ← sys (lc_frame_change_apply 1); updx (fun x => x <| frame_change_pending := negb (ret =? 0) |>)) ;;
       lc_channel_track cfg).

Definition tick_switch : M (lst W) unit :=
  st ← getx state;
  v ← getv id;
  let connect := bool_decide (lv_state v = BB_LINK_STATE_CONNECT) in
  match st with
  | LC_STATE_IDLE => tick_idle (lv_have_state v && connect)
  | LC_STATE_CONNECTED => tick_connected (lv_have_state v && negb connect)
  | LC_STATE_INIT => updx (fun x => x <| state := LC_STATE_IDLE |>)
  end.

(** ** The thread *)

(** From the open client to the main loop. *)
Definition rf_path_b_off_buf : list Z := [0xcb; 0; 0; 0; 0x01; 0x03; 0] ++ replicate 249 0.

Definition thread_start : M (lst W) unit :=
  when (0 <=? daemon_log cfg) (sys_ (lc_daemon_log_apply (daemon_log cfg))) ;;
  when (has_cfg cfg) (sys_ (lc_pair_apply_known_candidate (cfg_path cfg) (is_ap cfg))) ;;
  table ← sys (lc_channel_read_table LC_MAX_CHANNELS);
  match table with
  | Some ((_ :: _) as khz) => updx (fun x => x <| chan_table_khz := khz |>)
  | _ => mret tt
  end ;;
  x ← getx id;
  when (negb (channel x =? LC_CHANNEL_NONE)) (sys_ (lc_channel_apply_mode (channel x))) ;;
  when (rf_path_b_off cfg) (sys_ (bb_ioctl (BB_SET_PRJ_DISPATCH rf_path_b_off_buf))) ;;
  when (is_ap cfg && (0 <=? link_policy cfg)) (sys_ (lc_apply_link_policy_ap cfg)) ;;
  when (negb (power x =? LC_POWER_NONE)) (lc_apply_power cfg) ;;
  updx (fun x => x <| state := LC_STATE_IDLE |>).

(** The body of the main loop, one entry per call: the link state is sampled
    right in front of the switch. *)
Definition tick_steps : list (M (lst W) unit) :=
  [fallback_poll; lc_drain_bandwidth_request cfg; lc_drain_retx_request cfg; lc_drain_channel_request cfg;
   lc_drain_power_request cfg; lc_drain_forget_request cfg; lc_poll_distance; lc_poll_sock_info; lc_poll_quality;
   lc_poll_rf_temp; lc_poll_batt; sample_link_state; tick_switch; lc_poll_soc_temp; lc_overheat_update;
   lc_standby_update; (fun s => (tt, mk_lst (L s) (G s) (V s) (sleep_s 1 (Wd s))))].

Definition run_steps : list (M (lst W) unit) -> M (lst W) unit := mfor id.

Definition lc_tick : M (lst W) unit := run_steps tick_steps.

(** ** The threads together *)

(** What another thread may do between two steps: the event callback, an HTTP
    request, a request to stop. *)
Inductive other_thread (s : lst W) : lst W -> Prop :=
  | ot_event cur prev : other_thread s (mk_lst (L s) (lc_on_link_state_event cur prev (G s)) (V s) (Wd s))
  | ot_bandwidth mhz : other_thread s (mk_lst (lifecycle_request_bandwidth mhz (L s)).2 (G s) (V s) (Wd s))
  | ot_retx a b c d e : other_thread s (mk_lst (lifecycle_request_retx a b c d e (L s)).2 (G s) (V s) (Wd s))
  | ot_channel chan : other_thread s (mk_lst (lifecycle_request_channel cfg chan (L s)).2 (G s) (V s) (Wd s))
  | ot_power level : other_thread s (mk_lst (lifecycle_request_power cfg level (L s)).2 (G s) (V s) (Wd s))
  | ot_armed a : other_thread s (mk_lst (lifecycle_request_armed a (L s)).2 (G s) (V s) (Wd s))
  | ot_forget mac : other_thread s (mk_lst (lifecycle_request_forget_peer cfg mac (Wd s) (L s)).2 (G s) (V s) (Wd s))
  | ot_shutdown : other_thread s (mk_lst (L s) (lifecycle_request_shutdown (G s)) (V s) (Wd s)).

(** What the switch sees of the link: up, down, or nothing reported yet. *)
Inductive sample := Up | Down | Unknown.
#[local] Instance sample_eq : EqDecision sample. Proof. solve_decision. Defined.

Definition sample_of (v : lc_loc) : sample :=
  if negb (lv_have_state v) then Unknown
  else if bool_decide (lv_state v = BB_LINK_STATE_CONNECT) then Up else Down.

(** What the loop has acted on: link samples at the switch, SoC readings at the
    overheat update. *)
Inductive observation := Obs_link (smp : sample) | Obs_heat (c10 : option Z).

Definition switch_pos : nat := 12.
Definition heat_pos : nat := 14.

Definition observed (pc : nat) (s : lst W) : list observation :=
  if decide (pc = switch_pos) then [Obs_link (sample_of (V s))]
  else if decide (pc = heat_pos) then [Obs_heat (if soc_temp_valid (L s) then Some (soc_temp_c10 (L s)) else None)]
  else [].

Definition link_samples : list observation -> list sample := omap (fun o => match o with Obs_link smp => Some smp | _ => None end).
Definition heat_readings : list observation -> list (option Z) := omap (fun o => match o with Obs_heat r => Some r | _ => None end).

(** The position in the loop, the state, and the observations so far. *)
Inductive lc_step : nat * lst W * list observation -> nat * lst W * list observation -> Prop :=
  | step_other pc s s' h : other_thread s s' -> lc_step (pc, s, h) (pc, s', h)
  | step_run pc m s h :
      tick_steps !! pc = Some m -> (pc = O -> g_shutdown_requested (G s) = false) ->
      lc_step (pc, s, h)
              (if decide (S pc = length tick_steps) then O else S pc, (m s).2, h ++ observed pc s).

(** Every state the loop reaches from the end of [thread_start]. *)
Inductive lc_reach (s0 : lst W) : nat -> lst W -> list observation -> Prop :=
  | reach_start : lc_reach s0 0 s0 []
  | reach_step pc s h pc' s' h' : lc_reach s0 pc s h -> lc_step (pc, s, h) (pc', s', h') -> lc_reach s0 pc' s' h'.

(** ** The status *)

Record lc_status := mk_status {
  st_role : lc_role; st_ctx : lc_ctx; st_chan_table_n : Z; st_batt_mv : Z; st_paired : bool
}.

(** [lifecycle_get_status]: the fields it copies are those of the context. *)
Definition lifecycle_get_status (s : lst W) : lc_status :=
  mk_status (role cfg) (L s) (zlen (chan_table_khz (L s)))
    (ar8030_batt_mv (batt_adc_mv (L s)) (batt_scale cfg) (batt_offset_mv cfg))
    (if has_cfg cfg then lc_pair_has_been_paired (cfg_path cfg) (Wd s) else false).
End tick.
