(* ===== verification/LcDebounce.v ===== *)
(** The link state machine of [lifecycled/lifecycle.c] against its intent: the
    daemon takes the link for up exactly when three up samples in a row have
    been seen and no six down samples in a row since. *)

From S2P Require Import Prelude ChipAdc Monad LcText LcTuning LcPair LcConfig LcBoard Lifecycle LcTick.
#[local] Open Scope Z_scope.

(** ** Operations that leave a part of the context alone *)

Section frame.
Context {W : Type} `{LcFs W} `{LcSdk W} `{ChipIoctl W} `{CJson} `{LcPrograms W} `{LcEnv W} (cfg : lc_cfg).
Context {T : Type} (p : lc_ctx -> T).

Definition frame (s t : lst W) : Prop := p (L s) = p (L t).

#[global] Instance frame_preorder : PreOrder frame.
Proof. split; [by intros s|intros s t u; unfold frame; congruence]. Qed.

Lemma frame_sys {A} (m : M W A) : keeps frame (sys m).
Proof. by apply keeps_lift. Qed.
Lemma frame_sys_ {A} (m : M W A) : keeps frame (sys_ m).
Proof. apply (keeps_bind _); [apply frame_sys|intros _ s; done]. Qed.
Lemma frame_getx {A} (f : lc_ctx -> A) : keeps frame (getx f).
Proof. by intros s. Qed.
Lemma frame_getg {A} (f : lc_glob -> A) : keeps frame (getg f).
Proof. by intros s. Qed.
Lemma frame_getv {A} (f : lc_loc -> A) : keeps frame (getv f).
Proof. by intros s. Qed.
Lemma frame_updx f : (forall x, p x = p (f x)) -> keeps frame (updx f).
Proof. intros Hf s; apply Hf. Qed.
Lemma frame_updg f : keeps frame (updg f).
Proof. by intros s. Qed.
Lemma frame_updv f : keeps frame (updv f).
Proof. by intros s. Qed.
End frame.

Create HintDb frame.
#[export] Hint Resolve frame_sys frame_sys_ frame_getx frame_getg frame_getv frame_updg frame_updv : frame.

(** Every update on the way must leave the part alone by computation. *)
Ltac frame_leaf := first
  [ by auto with frame
  | apply frame_updx; intros ?; reflexivity
  | unfold_op ].
Ltac frames := keeps_walk frame_leaf.

(** ** Histories *)

(** Three up samples in a row, and no six down ones in a row since. *)
Definition has_drop (h : list sample) : Prop := exists a b, h = a ++ replicate 6 Down ++ b.
Definition link_up (h : list sample) : Prop := exists h1 h2, h = h1 ++ [Up; Up; Up] ++ h2 /\ ~ has_drop h2.

Section histories.
Implicit Types h k : list sample.

Lemma run_end (x : sample) n : forall c h k, h ++ replicate c x = k ++ replicate n x -> list.last h <> Some x -> (n <= c)%nat.
Proof.
  induction n as [|n IH]; intros c h k E Hl; [lia|]; destruct c as [|c].
  - rewrite app_nil_r, replicate_S_end in E; subst h; by rewrite app_assoc, last_snoc in Hl.
  - rewrite !replicate_S_end, !app_assoc in E; apply app_inj_tail in E as [E _]; specialize (IH c h k E Hl); lia.
Qed.

Lemma run_after (x y : sample) n : x <> y -> forall h k k2, h ++ y :: k2 = k ++ replicate n x -> exists a, k2 = a ++ replicate n x.
Proof.
  intros Hxy; induction n as [|n IH]; intros h k k2 E; [by exists k2; rewrite app_nil_r|].
  rewrite replicate_S_end, app_assoc in E; destruct k2 as [|z k2 _] using rev_ind.
  - apply app_inj_tail in E as [_ E]; done.
  - rewrite app_comm_cons, app_assoc in E; apply app_inj_tail in E as [E ->]; destruct (IH _ _ _ E) as [a ->].
    exists a; by rewrite replicate_S_end, app_assoc.
Qed.

Lemma snoc_split h x a w b : h ++ [x] = a ++ w ++ b -> w <> [] ->
  (b = [] /\ h ++ [x] = a ++ w) \/ (exists b', b = b' ++ [x] /\ h = a ++ w ++ b').
Proof.
  intros E Hw; destruct b as [|z b _] using rev_ind; [left; by rewrite app_nil_r in E|right].
  rewrite !app_assoc in E; apply app_inj_tail in E as [E ->]; exists b; by rewrite E, app_assoc.
Qed.

Lemma has_drop_snoc h x : has_drop (h ++ [x]) -> has_drop h \/ (x = Down /\ exists a, h = a ++ replicate 5 Down).
Proof.
  intros (a & b & E); apply snoc_split in E as [[-> E]|(b' & -> & ->)]; [right| |done]; [|left; by exists a, b'].
  change (replicate 6 Down) with (replicate 5 Down ++ [Down]) in E; rewrite app_assoc in E; apply app_inj_tail in E as [E ->].
  split; [done|by exists a].
Qed.

Lemma has_drop_app h k : has_drop h -> has_drop (h ++ k).
Proof. intros (a & b & ->); exists a, (b ++ k); by rewrite !app_assoc. Qed.

Lemma link_up_back h x : link_up (h ++ [x]) -> link_up h \/ (x = Up /\ exists a, h = a ++ replicate 2 Up).
Proof.
  intros (h1 & h2 & E & Hd); apply snoc_split in E as [[-> E]|(b & -> & ->)]; [right| |done].
  - change [Up; Up; Up] with (replicate 2 Up ++ [Up]) in E; rewrite app_assoc in E; apply app_inj_tail in E as [E ->].
    split; [done|by exists h1].
  - left; exists h1, b; split; [done|]; intros Hb; by apply Hd, has_drop_app.
Qed.

Lemma link_up_keep h x : link_up h -> (x = Down -> ~ exists a, h = a ++ replicate 5 Down) -> link_up (h ++ [x]).
Proof.
  intros (h1 & h2 & -> & Hd) Hx; exists h1, (h2 ++ [x]); split; [by rewrite !app_assoc|].
  intros Hb; apply has_drop_snoc in Hb as [Hb|[-> (a & ->)]]; [done|].
  apply (Hx eq_refl); exists (h1 ++ [Up; Up; Up] ++ a); by rewrite !app_assoc.
Qed.

Lemma link_up_dropped h k : h = k ++ replicate 6 Down -> ~ link_up h.
Proof.
  intros -> (h1 & h2 & E & Hd); apply Hd.
  change (h1 ++ [Up; Up; Up] ++ h2) with (h1 ++ [Up; Up; Up] ++ h2) in E.
  replace (h1 ++ [Up; Up; Up] ++ h2) with ((h1 ++ [Up; Up]) ++ Up :: h2) in E by (by rewrite <- app_assoc).
  symmetry in E; destruct (run_after Down Up 6 ltac:(done) _ _ _ E) as [a ->]; exists a, []; by rewrite app_nil_r.
Qed.

Lemma link_up_run h k : h = k ++ replicate 3 Up -> link_up h.
Proof. intros ->; exists k, []; split; [done|]; intros (a & b & E); by destruct a. Qed.
End histories.

(** ** The counters are the history's runs *)

(** What the switch does to the state and the counters. *)
Definition core (x : lc_ctx) : lc_state * Z * Z := (state x, connect_confirm_count x, drop_miss_count x).

Definition debounce (smp : sample) (c : lc_state * Z * Z) : lc_state * Z * Z :=
  let '(st, up, down) := c in
  match st with
  | LC_STATE_INIT => (LC_STATE_IDLE, up, down)
  | LC_STATE_IDLE =>
      match smp with
      | Up => if up + 1 <? LC_CONNECT_CONFIRM_TICKS then (LC_STATE_IDLE, up + 1, down) else (LC_STATE_CONNECTED, 0, down)
      | _ => (LC_STATE_IDLE, 0, down)
      end
  | LC_STATE_CONNECTED =>
      match smp with
      | Down => if down + 1 <? LC_DROP_CONFIRM_TICKS then (LC_STATE_CONNECTED, up, down + 1) else (LC_STATE_IDLE, up, 0)
      | _ => (LC_STATE_CONNECTED, up, 0)
      end
  end.

(** [n] samples [x] end the history, and no more. *)
Definition run_of (x : sample) (n : Z) (h : list sample) : Prop :=
  0 <= n /\ exists k, h = k ++ replicate (Z.to_nat n) x /\ list.last k <> Some x.

Definition tracks (c : lc_state * Z * Z) (h : list sample) : Prop :=
  let '(st, up, down) := c in
  match st with
  | LC_STATE_INIT => False
  | LC_STATE_IDLE => ~ link_up h /\ run_of Up up h /\ up < 3 /\ down = 0
  | LC_STATE_CONNECTED => link_up h /\ run_of Down down h /\ down < 6 /\ up = 0
  end.

Lemma run_of_other x y h : x <> y -> run_of x 0 (h ++ [y]).
Proof. intros Hxy; split; [lia|]; exists (h ++ [y]); split; [by rewrite app_nil_r|rewrite last_snoc; congruence]. Qed.

Lemma run_of_more x n h : run_of x n h -> run_of x (n + 1) (h ++ [x]).
Proof.
  intros (Hn & k & -> & Hk); split; [lia|]; exists k; split; [|done].
  by rewrite Z2Nat.inj_add, Nat.add_1_r, replicate_S_end, app_assoc by lia.
Qed.

Lemma run_of_bound x n m h : run_of x n h -> (exists a, h = a ++ replicate m x) -> Z.of_nat m <= n.
Proof. intros (Hn & k & -> & Hk) (a & E); pose proof (run_end x m _ _ _ E Hk); lia. Qed.

Lemma run_of_run x n h : run_of x n h -> exists k, h = k ++ replicate (Z.to_nat n) x.
Proof. intros (_ & k & E & _); by exists k. Qed.

Lemma tracks_step c h x : tracks c h -> tracks (debounce x c) (h ++ [x]).
Proof.
  destruct c as [[st up] down]; destruct st; cbn [tracks debounce]; [done| |].
  - intros (Hno & Hr & Hu & ->); unfold LC_CONNECT_CONFIRM_TICKS; destruct x; cbn.
    + destruct (up + 1 <? 3) eqn:E; bool_to_prop; cbn.
      * split_and!; [|by apply run_of_more|lia|done].
        intros [Hc|[_ Ha]]%link_up_back; [done|]; pose proof (run_of_bound _ _ 2 _ Hr Ha); lia.
      * split_and!; [|by apply run_of_other|lia|done].
        destruct (run_of_run _ _ _ (run_of_more _ _ _ Hr)) as [k Hk]; replace (up + 1) with 3 in Hk by lia.
        by apply (link_up_run _ k).
    + split_and!; [|by apply run_of_other|lia|done]; by intros [Hc|[? _]]%link_up_back.
    + split_and!; [|by apply run_of_other|lia|done]; by intros [Hc|[? _]]%link_up_back.
  - intros (Hup & Hr & Hd & ->); unfold LC_DROP_CONFIRM_TICKS; destruct x; cbn.
    + split_and!; [by apply link_up_keep|by apply run_of_other|lia|done].
    + destruct (down + 1 <? 6) eqn:E; bool_to_prop; cbn.
      * split_and!; [|by apply run_of_more|lia|done].
        apply link_up_keep; [done|]; intros _ Ha; pose proof (run_of_bound _ _ 5 _ Hr Ha); lia.
      * split_and!; [|by apply run_of_other|lia|done].
        destruct (run_of_run _ _ _ (run_of_more _ _ _ Hr)) as [k Hk]; replace (down + 1) with 6 in Hk by lia.
        by apply (link_up_dropped _ k).
    + split_and!; [by apply link_up_keep|by apply run_of_other|lia|done].
Qed.

Section debounce.
Context {W : Type} `{LcFs W} `{LcSdk W} `{ChipIoctl W} `{CJson} `{LcPrograms W} `{LcEnv W} (cfg : lc_cfg).
Implicit Types s : lst W.

Lemma frame_last {A B T} (p : lc_ctx -> T) (m : M (lst W) A) (f : A -> M (lst W) B) s :
  (forall a, keeps (frame p) (f a)) -> p (L ((m ≫= f) s).2) = p (L (m s).2).
Proof. intros Hf; rewrite bind_run; symmetry; apply Hf. Qed.

Lemma other_steps_core pc m : tick_steps (W:=W) cfg !! pc = Some m -> pc <> switch_pos -> keeps (frame core) m.
Proof.
  unfold switch_pos; intros Hm Hpc; do 17 (destruct pc as [|pc]; [injection Hm as <-; try done; by frames|]); done.
Qed.

Lemma enter_connected_core s : core (L (enter_connected cfg s).2) = (LC_STATE_CONNECTED, connect_confirm_count (L s), drop_miss_count (L s)).
Proof.
  pose proof (frame_sys core lc_tuning_resolve_connected_slot s) as E; unfold enter_connected; rewrite bind_run.
  destruct (sys lc_tuning_resolve_connected_slot s) as [slot s1]; cbv zeta beta; rewrite frame_last; [|intros; frames].
  injection E as E1 E2 E3; unfold core; cbn; congruence.
Qed.

Lemma tick_switch_core s : core (L (tick_switch cfg s).2) = debounce (sample_of (V s)) (core (L s)).
Proof.
  unfold tick_switch; mrun; unfold sample_of; cbn [id debounce core].
  destruct (state (L s)) eqn:Es; cbn -[tick_idle tick_connected LC_CONNECT_CONFIRM_TICKS LC_DROP_CONFIRM_TICKS Z.ltb].
  - done.
  - unfold tick_idle; destruct (lv_have_state (V s)), (bool_decide _) eqn:Eb; cbn [andb negb].
    1: { mrun; cbn [L]; change (connect_confirm_count (_ <| connect_confirm_count := ?n |>)) with n.
         destruct (connect_confirm_count (L s) + 1 <? LC_CONNECT_CONFIRM_TICKS); [by rewrite <- Es|].
         mrun; by rewrite enter_connected_core. }
    all: rewrite frame_last; [by rewrite <- Es|intros; frames].
  - unfold tick_connected; destruct (lv_have_state (V s)), (bool_decide _) eqn:Eb; cbn [andb negb].
    2: { mrun; cbn [L]; change (drop_miss_count (_ <| drop_miss_count := ?n |>)) with n.
         destruct (drop_miss_count (L s) + 1 <? LC_DROP_CONFIRM_TICKS); [by rewrite <- Es|done]. }
    all: rewrite frame_last; [by rewrite <- Es|intros; frames].
Qed.

Lemma other_thread_core s s' : other_thread cfg s s' -> core (L s) = core (L s').
Proof.
  destruct 1; cbn [L]; try done;
    unfold lifecycle_request_bandwidth, lifecycle_request_retx, lifecycle_request_channel, lifecycle_request_power,
      lifecycle_request_armed, lifecycle_request_forget_peer; by repeat case_match.
Qed.

Lemma thread_start_core s : core (L (thread_start cfg s).2) = (LC_STATE_IDLE, connect_confirm_count (L s), drop_miss_count (L s)).
Proof.
  set (p x := (connect_confirm_count x, drop_miss_count x)).
  assert (Hp : keeps (frame p) (thread_start (W:=W) cfg)) by frames.
  specialize (Hp s); enough (state (L (thread_start cfg s).2) = LC_STATE_IDLE) as E by (injection Hp as -> ->; unfold core; by rewrite E).
  clear p Hp; unfold thread_start; repeat (rewrite bind_run; cbv beta zeta); done.
Qed.

(** The loop's states agree with the history of samples from its start. *)
Lemma reach_tracks w pc s h :
  lc_reach cfg (thread_start cfg (mk_lst (ctx_init cfg w) glob_init loc_init w)).2 pc s h -> tracks (core (L s)) (link_samples h).
Proof.
  induction 1 as [|pc s h pc' s' h' Hr IH Hs].
  - rewrite thread_start_core; cbn; split_and!; [|split; [lia|by exists []]|lia|done]; by intros ([|] & h2 & E & _).
  - inversion Hs as [pc0 s0 s0' h0 Ho E1 E2|pc0 m s0 h0 Hm _ E1 E2]; subst.
    + by rewrite <- (other_thread_core _ _ Ho).
    + unfold link_samples, observed in *; rewrite omap_app; destruct (decide (pc = switch_pos)) as [->|E].
      * injection Hm as <-; rewrite tick_switch_core; by apply tracks_step.
      * replace (omap _ (if decide (pc = heat_pos) then _ else _)) with (@nil sample) by (destruct (decide (pc = heat_pos)); reflexivity).
        by rewrite app_nil_r, <- (other_steps_core _ _ Hm E s).
Qed.

(** C14. The daemon's link state is the debounced history of what the chip
    reported: whatever the event callback and the HTTP threads do in between,
    [LC_STATE_CONNECTED] holds exactly when some three consecutive samples were
    up and no six consecutive ones have been down since. *)
Theorem link_debounced w pc s h :
  lc_reach cfg (thread_start cfg (mk_lst (ctx_init cfg w) glob_init loc_init w)).2 pc s h ->
  (state (L s) = LC_STATE_CONNECTED <-> link_up (link_samples h)) /\ state (L s) <> LC_STATE_INIT.
Proof.
  intros Hr; pose proof (reach_tracks _ _ _ _ Hr) as Ht; unfold core in Ht.
  destruct (state (L s)); [done| |]; destruct Ht as [Ht _]; split; done.
Qed.
End debounce.
