(* ===== verification/LcPower.v ===== *)
(** Output power under [lifecycled]: nothing the daemon ever sends exceeds the
    board's cap, and between two steps of its loop the last power it set is the
    one its state calls for. *)

From S2P Require Import Prelude ChipAdc Monad LcText LcTuning LcPair LcConfig LcBoard Lifecycle LcTick LcDebounce.
#[local] Open Scope Z_scope.

(** ** Levels *)

Section levels.

Lemma find_level (f : Z -> bool) (l : list (Z * Z)) mw dbm :
  List.find (fun '(m, _) => f m) l = Some (mw, dbm) -> (mw, dbm) ∈ l /\ f mw = true.
Proof. intros E; apply List.find_some in E as [Hin Hf]; split; [by apply list_elem_of_In|done]. Qed.

(** The levels have their own dBm values. *)
Lemma level_dbm_of is_ap mw dbm : (mw, dbm) ∈ power_levels is_ap -> power_level_dbm is_ap mw = dbm /\ 0 <= dbm <= 26 /\ 25 <= mw <= 500.
Proof.
  intros Hin; destruct is_ap; cbn in Hin; repeat (apply elem_of_cons in Hin as [[= -> ->]|Hin]; [vm_compute; repeat split; congruence|]);
    by apply not_elem_of_nil in Hin.
Qed.

Lemma power_level_dbm_range is_ap level : -1 <= power_level_dbm is_ap level <= 26.
Proof.
  unfold power_level_dbm, DEV_AUTO_DBM; destruct (level =? LC_POWER_AUTO); [destruct is_ap; lia|].
  destruct (List.find _ _) as [[mw dbm]|] eqn:E; [|lia]; apply (find_level (fun m => m =? level)) in E as [E _].
  apply level_dbm_of in E; lia.
Qed.

(** [lc_power_default] is a legal level, and no legal level is higher. *)
Lemma lc_power_default_valid is_ap max_mw :
  0 <= lc_power_default is_ap max_mw -> lc_power_valid is_ap max_mw (lc_power_default is_ap max_mw) = true.
Proof.
  unfold lc_power_default, lc_power_valid; intros Hd; destruct (power_within max_mw (if is_ap then 400 else 500)) eqn:E.
  - rewrite E; by destruct is_ap.
  - destruct (List.find _ _) as [[mw dbm]|] eqn:F; [|lia]; apply find_level in F as [F Hw]; rewrite Hw, andb_true_r.
    apply level_dbm_of in F; apply Z.leb_le; lia.
Qed.

Lemma lc_power_default_highest is_ap max_mw level :
  lc_power_valid is_ap max_mw level = true -> level <> LC_POWER_AUTO -> level <= lc_power_default is_ap max_mw.
Proof.
  unfold lc_power_valid, power_level_dbm; intros Hv Ha; apply andb_true_iff in Hv as [Hd Hw].
  rewrite (proj2 (Z.eqb_neq _ _) Ha) in Hd.
  destruct (List.find _ _) as [[mw dbm]|] eqn:E; [|done]; apply (find_level (fun m => m =? level)) in E as [Hin E]; bool_to_prop; subst mw.
  assert (Hm : forall a b, power_within max_mw b = true -> a <= b -> a <> LC_POWER_AUTO -> b <> LC_POWER_AUTO -> power_within max_mw a = true).
  { unfold power_within; intros a b Hb Hab Ha' Hb'; rewrite (proj2 (Z.eqb_neq _ _) Ha'); rewrite (proj2 (Z.eqb_neq _ _) Hb') in Hb.
    apply orb_true_iff in Hb as [Hb|Hb]; apply orb_true_iff; [by left|right]; bool_to_prop; apply Z.leb_le; lia. }
  unfold lc_power_default, LC_POWER_AUTO in *; destruct (power_within max_mw (if is_ap then 400 else 500)) eqn:E.
  - apply level_dbm_of in Hin as Hr; destruct is_ap; [|lia]; cbn in Hin.
    repeat (apply elem_of_cons in Hin as [[= -> _]|Hin]; [lia|]); by apply not_elem_of_nil in Hin.
  - destruct is_ap; cbn [power_levels AP_POWER_LEVELS DEV_POWER_LEVELS List.find] in *;
      repeat (apply elem_of_cons in Hin as [[= -> _]|Hin]; [repeat (match goal with |- context [power_within max_mw ?k] =>
        lazymatch k with level => fail | _ => destruct (power_within max_mw k) eqn:? end end; try lia; try congruence)|]);
      by apply not_elem_of_nil in Hin.
Qed.
End levels.

(** ** The requests the chip has been sent *)

(** [lc_sets]: every request that changed it, in order; only [bb_set] adds. *)
Class LcLog (W : Type) `{LcFs W} `{LcSdk W} `{ChipIoctl W} `{LcPrograms W} `{LcEnv W} := {
  lc_sets : W -> list lc_set;
  log_set r w : lc_sets (bb_set r w).2 = lc_sets w ++ [r];
  log_status u w : lc_sets (bb_get_status u w).2 = lc_sets w;
  log_chan_info w : lc_sets (bb_get_chan_info w).2 = lc_sets w;
  log_cur_power u w : lc_sets (bb_get_cur_power u w).2 = lc_sets w;
  log_distc w : lc_sets (bb_get_distc_result w).2 = lc_sets w;
  log_set_dbg n l w : lc_sets (bb_daemon_set_dbg_level n l w) = lc_sets w;
  log_get_dbg n w : lc_sets (bb_daemon_get_dbg_level n w).2 = lc_sets w;
  log_ioctl r w : lc_sets (bb_ioctl r w).2 = lc_sets w;
  log_write p t w : lc_sets (fs_write p t w).2 = lc_sets w;
  log_rename p q w : lc_sets (fs_rename p q w).2 = lc_sets w;
  log_unlink p w : lc_sets (fs_unlink p w) = lc_sets w;
  log_hook e n m w : lc_sets (lc_hooks_dispatch e n m w) = lc_sets w;
  log_time w : lc_sets (time_now w).2 = lc_sets w;
  log_sleep n w : lc_sets (sleep_s n w) = lc_sets w;
  log_soc c w : lc_sets (soc_temp_run c w).2 = lc_sets w;
  log_sock n w : lc_sets (bb_get_sock_info n w).2 = lc_sets w;
  log_1v1 w : lc_sets (bb_get_1v1_info w).2 = lc_sets w
}.
Create Rewrite HintDb lc_log.
#[export] Hint Rewrite @log_set @log_status @log_chan_info @log_cur_power @log_distc @log_set_dbg @log_get_dbg @log_ioctl
  @log_write @log_rename @log_unlink @log_hook @log_time @log_sleep @log_soc @log_sock @log_1v1 using typeclasses eauto : lc_log.

Definition is_power (r : lc_set) : bool :=
  match r with BB_SET_POWER _ _ | BB_SET_POWER_AUTO _ _ _ => true | _ => false end.

Section sent.
Context {W : Type} `{LcLog W}.

(** Only requests other than the power ones were sent. *)
Definition quiet (w w' : W) : Prop := exists rs, lc_sets w' = lc_sets w ++ rs /\ Forall (fun r => is_power r = false) rs.

#[export] Instance quiet_preorder : PreOrder quiet.
Proof.
  split.
  - intros w; exists []; by rewrite app_nil_r.
  - intros w1 w2 w3 (rs & E & Hr) (rs' & E' & Hr'); exists (rs ++ rs'); rewrite E', E, app_assoc; split; [done|by apply Forall_app].
Qed.

Lemma quiet_same w w' : lc_sets w' = lc_sets w -> quiet w w'.
Proof. intros E; exists []; by rewrite E, app_nil_r. Qed.
Lemma quiet_set r : is_power r = false -> keeps quiet (bb_set r).
Proof. intros Hr w; exists [r]; split; [apply log_set|by apply Forall_singleton]. Qed.
End sent.

Ltac quiet_raw :=
  intros ?; apply quiet_same;
  cbv beta delta [hook unlink_file ar8030_rftemp_arm ar8030_rftemp_read_mv ar8030_set_mcs_item ar8030_set_mcs_range
                  ar8030_set_rfo_kikp ar8030_set_fem_ctrl ar8030_prj_set]; cbn [snd];
  try match goal with |- context [bb_ioctl ?r ?w] =>
        let E := fresh in pose proof (log_ioctl r w) as E; destruct (bb_ioctl r w) as [[? ?] ?]; exact E end;
  by autorewrite with lc_log.
Ltac quiet_leaf := first
  [ apply quiet_set; by repeat case_match
  | apply keeps_gets, _
  | quiet_raw
  | unfold_op ].
Ltac quiets := keeps_walk quiet_leaf.

(** ** The invariant *)

(** The dBm target a level means for [BB_SET_POWER], and the user it is for. *)
Definition power_user (cfg : lc_cfg) : bb_user := if is_ap cfg then BB_USER_BR_CS else BB_USER_0.
Definition level_request (cfg : lc_cfg) (level : Z) : Z :=
  power_level_dbm (is_ap cfg) level + (if is_ap cfg then 0 else DEV_TARGET_OFFSET_DBM).

(** A power request the configuration allows: a level within the board's cap,
    or the standby level (air side only). *)
Definition standby_allowed (cfg : lc_cfg) (p : Z) : Prop := is_ap cfg = true /\ 0 <= standby_dbm cfg /\ p = standby_dbm cfg.
Definition level_allowed (cfg : lc_cfg) (f : Z -> Z) (p : Z) : Prop :=
  exists level, lc_power_valid (is_ap cfg) (max_power cfg) level = true /\ p = f level.

Definition power_request_ok (cfg : lc_cfg) (r : lc_set) : Prop :=
  match r with
  | BB_SET_POWER u p => u = power_user cfg /\ (level_allowed cfg (level_request cfg) p \/ standby_allowed cfg p)
  | BB_SET_POWER_AUTO BB_PWR_AUTO_DISCONNECT mx mn =>
      mx = mn /\ (level_allowed cfg (power_level_dbm (is_ap cfg)) mx \/ standby_allowed cfg mx)
  | BB_SET_POWER_AUTO BB_PWR_AUTO_ON mx _ =>
      lc_power_valid (is_ap cfg) (max_power cfg) LC_POWER_AUTO = true /\ mx = DEV_AUTO_MAX_DBM
  | BB_SET_POWER_AUTO BB_PWR_AUTO_OFF mx _ => mx = DEV_AUTO_MIN_DBM + 3
  | _ => True
  end.

(** The target of the last [BB_SET_POWER]. *)
Fixpoint last_power (acc : option Z) (rs : list lc_set) : option Z :=
  match rs with
  | [] => acc
  | BB_SET_POWER _ p :: rs => last_power (Some p) rs
  | _ :: rs => last_power acc rs
  end.

Definition power_target (cfg : lc_cfg) (x : lc_ctx) : Z := if standby x then standby_dbm cfg else level_request cfg (power x).

Definition power_known (cfg : lc_cfg) (level : Z) : Prop :=
  level = LC_POWER_NONE \/ lc_power_valid (is_ap cfg) (max_power cfg) level = true.

(** What of the context the power depends on. *)
Definition power_part (x : lc_ctx) : Z * option Z * bool := (power x, pending_power x, standby x).

Section invariant.
Context {W : Type} `{LcLog W} `{CJson} (cfg : lc_cfg).

Record power_ctx_ok (x : lc_ctx) : Prop := {
  po_power : power_known cfg (power x);
  po_pending level : pending_power x = Some level -> lc_power_valid (is_ap cfg) (max_power cfg) level = true;
  po_standby : standby x = true -> is_ap cfg = true /\ 0 <= standby_dbm cfg <= 30
}.

(** The chip was last told what the state calls for, where the state calls for
    anything. *)
Definition power_current (x : lc_ctx) (w : W) : Prop :=
  standby x = true \/ power x <> LC_POWER_NONE -> last_power None (lc_sets w) = Some (power_target cfg x).

Record power_ok (s : lst W) : Prop := {
  pk_ctx : power_ctx_ok (L s);
  pk_sets : Forall (power_request_ok cfg) (lc_sets (Wd s));
  pk_last : power_current (L s) (Wd s)
}.

(** *** Steps that have nothing to do with power *)

Definition calm (s t : lst W) : Prop := power_part (L s) = power_part (L t) /\ quiet (Wd s) (Wd t).

#[export] Instance calm_preorder : PreOrder calm.
Proof.
  split; [by intros s|]; intros s t u [E1 Q1] [E2 Q2]; split; [congruence|by transitivity (Wd t)].
Qed.

Lemma calm_sys {A} (m : M W A) : keeps quiet m -> keeps calm (sys m).
Proof. intros Hm s; rewrite sys_run; split; [done|apply Hm]. Qed.
Lemma calm_sys_ {A} (m : M W A) : keeps quiet m -> keeps calm (sys_ m).
Proof. intros Hm s; rewrite sys__run; split; [done|apply Hm]. Qed.
Lemma calm_pure {A} (m : M (lst W) A) : (forall s, power_part (L s) = power_part (L (m s).2) /\ Wd (m s).2 = Wd s) -> keeps calm m.
Proof. intros Hm s; destruct (Hm s) as [E Ew]; split; [done|]; by rewrite Ew. Qed.

Lemma last_power_app acc rs rs' : last_power acc (rs ++ rs') = last_power (last_power acc rs) rs'.
Proof. revert acc; induction rs as [|r rs IH]; intros acc; [done|]; destruct r; cbn; apply IH. Qed.

Lemma last_power_quiet rs acc : Forall (fun r => is_power r = false) rs -> last_power acc rs = acc.
Proof. induction 1 as [|r rs Hr _ IH]; [done|]; by destruct r. Qed.

Lemma calm_ok s t : calm s t -> power_ok s -> power_ok t.
Proof.
  intros [E (rs & Er & Hq)] [[Hp Hq' Hs] Hf Hl]; unfold power_part in E; injection E as E1 E2 E3.
  assert (Hr : Forall (power_request_ok cfg) rs) by (eapply list.Forall_impl; [exact Hq|]; by intros []).
  constructor.
  - constructor; [by rewrite <- E1|by rewrite <- E2|by rewrite <- E3].
  - rewrite Er; by apply Forall_app.
  - unfold power_current, power_target in *; rewrite Er, last_power_app, last_power_quiet by done.
    rewrite <- E1, <- E3; exact Hl.
Qed.
End invariant.

Ltac calm_leaf := first
  [ apply calm_sys; by quiets
  | apply calm_sys_; by quiets
  | apply calm_pure; intros ?; split; reflexivity
  | unfold_op ].
Ltac calms := keeps_walk calm_leaf.

Section steps.
Context {W : Type} `{LcLog W} `{CJson} (cfg : lc_cfg).

(** *** Setting the power *)

Definition ap_requests (dbm auto3 : Z) (fem : bool) : list lc_set :=
  (if fem then [BB_SET_POWER_AUTO PWR_AUTO_MODE_3 (u8 auto3) (u8 auto3)] else []) ++
  [BB_SET_POWER_AUTO BB_PWR_AUTO_DISCONNECT (u8 dbm) (u8 dbm); BB_SET_POWER BB_USER_BR_CS (u8 dbm)].

Definition dev_requests (level : Z) : list lc_set :=
  let dbm := power_level_dbm false level in
  [if level =? LC_POWER_AUTO then BB_SET_POWER_AUTO BB_PWR_AUTO_ON DEV_AUTO_MAX_DBM DEV_AUTO_MIN_DBM
   else BB_SET_POWER_AUTO BB_PWR_AUTO_OFF (DEV_AUTO_MIN_DBM + 3) DEV_AUTO_MIN_DBM;
   BB_SET_POWER_AUTO BB_PWR_AUTO_DISCONNECT (u8 dbm) (u8 dbm); BB_SET_POWER BB_USER_0 (u8 (dbm + DEV_TARGET_OFFSET_DBM))].

Lemma ap_power_sets dbm auto3 fem (w : W) : lc_sets (ap_power_apply_dbm dbm auto3 fem w).2 = lc_sets w ++ ap_requests dbm auto3 fem.
Proof.
  unfold ap_power_apply_dbm, power_auto_ioctl, ap_requests, ar8030_set_fem_ctrl, ar8030_prj_set.
  destruct fem; repeat (rewrite bind_run; cbv beta); cbn [fst snd mret M_ret];
    try match goal with |- context [bb_ioctl ?r ?w] => pose proof (log_ioctl r w); destruct (bb_ioctl r w) as [[? ?] ?]; cbn [snd] in * end.
  all: autorewrite with lc_log in *; simplify_eq; try match goal with E : lc_sets _ = _ |- _ => rewrite E end; by rewrite <- ?app_assoc.
Qed.

Lemma lc_power_sets level fem (w : W) :
  lc_power_valid (is_ap cfg) (max_power cfg) level = true ->
  lc_sets (lc_power_apply (is_ap cfg) level fem w).2
    = lc_sets w ++ (if is_ap cfg then ap_requests (power_level_dbm true level) 1 fem else dev_requests level).
Proof.
  unfold lc_power_valid, lc_power_apply; intros Hv; apply andb_true_iff in Hv as [Hd _]; bool_to_prop.
  rewrite (proj2 (Z.ltb_ge _ _)) by lia; destruct (is_ap cfg); [apply ap_power_sets|].
  unfold dev_requests, power_auto_ioctl; destruct (level =? LC_POWER_AUTO); repeat (rewrite bind_run; cbv beta); cbn [fst snd mret M_ret];
    autorewrite with lc_log; by rewrite <- !app_assoc.
Qed.

Lemma apply_power_effect (s : lst W) :
  power_ctx_ok cfg (L s) -> Forall (power_request_ok cfg) (lc_sets (Wd s)) ->
  exists w, lc_apply_power cfg s = (tt, mk_lst (L s) (G s) (V s) w) /\
    Forall (power_request_ok cfg) (lc_sets w) /\ power_current cfg (L s) w.
Proof.
  intros [Hp Hq Hs] Hf; unfold lc_apply_power; rewrite bind_getx; cbn [id].
  assert (Hu : forall d, 0 <= d <= 40 -> u8 d = d) by (intros; apply u8_id; lia).
  destruct (standby (L s)) eqn:Es; [|destruct (power (L s) =? LC_POWER_NONE) eqn:En].
  - destruct (Hs eq_refl) as [Ha Hb]; rewrite sys__run; eexists; split; [done|].
    unfold lc_power_apply_standby, power_current; rewrite ap_power_sets; split.
    + apply Forall_app; split; [done|]; unfold ap_requests; rewrite !(Hu (standby_dbm cfg)) by lia.
      assert (standby_allowed cfg (standby_dbm cfg)) by (split_and!; [done|lia|done]).
      destruct (fem_ctrl cfg); repeat apply Forall_cons_2; try apply Forall_nil_2; cbn; unfold power_user; rewrite ?Ha; auto.
    + intros _; rewrite last_power_app; unfold power_target, ap_requests; rewrite Es, !(Hu (standby_dbm cfg)) by lia.
      destruct (fem_ctrl cfg); reflexivity.
  - bool_to_prop; exists (Wd s); split; [by destruct s|]; split; [done|]; intros [?|?]; congruence.
  - bool_to_prop; destruct Hp as [Hp|Hp]; [done|]; rewrite sys__run; eexists; split; [done|].
    pose proof (power_level_dbm_range (is_ap cfg) (power (L s))) as Hr; pose proof Hp as Hp'.
    unfold lc_power_valid in Hp'; apply andb_true_iff in Hp' as [Hd _]; bool_to_prop.
    unfold power_current, power_target, level_request; rewrite lc_power_sets, Es by done.
    cbn [Wd]; destruct (is_ap cfg) eqn:Ea.
    + split.
      * apply Forall_app; split; [done|]; unfold ap_requests; rewrite !(Hu (power_level_dbm true (power (L s)))) by lia.
        assert (Hl1 : level_allowed cfg (power_level_dbm (is_ap cfg)) (power_level_dbm true (power (L s)))) by (rewrite Ea; exists (power (L s)); by rewrite Ea).
        assert (Hl2 : level_allowed cfg (level_request cfg) (power_level_dbm true (power (L s)))).
        { exists (power (L s)); unfold level_request; rewrite Ea; split; [done|lia]. }
        destruct (fem_ctrl cfg); repeat apply Forall_cons_2; try apply Forall_nil_2; cbn; try done; (split; [unfold power_user; by rewrite ?Ea|auto]).
      * intros _; rewrite last_power_app; unfold ap_requests; rewrite !(Hu (power_level_dbm true (power (L s)))) by lia.
        rewrite Z.add_0_r; destruct (fem_ctrl cfg); reflexivity.
    + unfold dev_requests; set (d := power_level_dbm false (power (L s))) in *.
      unfold DEV_TARGET_OFFSET_DBM in *; rewrite !(Hu d), !(Hu (d + 3)) by lia; split.
      * apply Forall_app; split; [done|].
        assert (Hl1 : level_allowed cfg (power_level_dbm (is_ap cfg)) d) by (rewrite Ea; exists (power (L s)); by rewrite Ea).
        assert (Hl2 : level_allowed cfg (level_request cfg) (d + 3)).
        { exists (power (L s)); unfold level_request; rewrite Ea; done. }
        apply Forall_cons_2.
        -- destruct (power (L s) =? LC_POWER_AUTO) eqn:Eo; [|done]; bool_to_prop; cbn; by rewrite Ea, <- Eo.
        -- repeat apply Forall_cons_2; try apply Forall_nil_2; cbn; (split; [unfold power_user; by rewrite ?Ea|auto]).
      * intros _; rewrite last_power_app; destruct (power (L s) =? LC_POWER_AUTO); reflexivity.
Qed.

Lemma apply_power_ok (s : lst W) : power_ctx_ok cfg (L s) -> Forall (power_request_ok cfg) (lc_sets (Wd s)) -> power_ok cfg (lc_apply_power cfg s).2.
Proof. intros Hc Hf; destruct (apply_power_effect s Hc Hf) as (w & -> & Hf' & Hl); by constructor. Qed.

(** *** Every step *)

(** All but the last clause. *)
Definition power_base (s : lst W) : Prop := power_ctx_ok cfg (L s) /\ Forall (power_request_ok cfg) (lc_sets (Wd s)).

Lemma power_ok_base s : power_ok cfg s -> power_base s.
Proof. by intros [Hc Hf _]. Qed.

Lemma calm_inv {A} (m : M (lst W) A) : keeps calm m -> run_inv (power_ok cfg) m.
Proof. intros Hm s Hs; eapply calm_ok, Hs; apply Hm. Qed.

Lemma calm_base {A} (m : M (lst W) A) : keeps calm m -> leads power_base power_base m.
Proof.
  intros Hm s [[Hp Hq Hs] Hf]; destruct (Hm s) as [E (rs & Er & Hr)]; unfold power_part in E; injection E as E1 E2 E3; split.
  - constructor; [by rewrite <- E1|by rewrite <- E2|by rewrite <- E3].
  - rewrite Er; apply Forall_app; split; [done|]; eapply list.Forall_impl; [exact Hr|]; by intros [].
Qed.

Lemma apply_power_leads : leads power_base (power_ok cfg) (lc_apply_power (W:=W) cfg).
Proof. intros s [Hc Hf]; by apply apply_power_ok. Qed.

Lemma apply_power_inv : run_inv (power_ok cfg) (lc_apply_power (W:=W) cfg).
Proof. intros s Hs; by apply apply_power_leads, power_ok_base. Qed.
End steps.

(** The operations on the way to [lc_apply_power] are opened, the others are
    calm as a whole. *)
Ltac power_leaf := idtac; lazymatch goal with
  | |- run_inv _ (lc_apply_power _) => apply apply_power_inv
  | |- run_inv _ (tick_switch _) => unfold_inv_op
  | |- run_inv _ (tick_idle _ _) => unfold_inv_op
  | |- run_inv _ (tick_connected _ _) => unfold_inv_op
  | |- run_inv _ (enter_connected _) => unfold_inv_op
  | |- run_inv _ (handle_relink _) => unfold_inv_op
  | |- run_inv _ (lc_apply_tuning_on_connect _ _) => unfold_inv_op
  | |- run_inv _ (lc_apply_link_tuning _) => unfold_inv_op
  | |- _ => apply calm_inv; by calms
  end.
Ltac powers := inv_walk power_leaf.

Section all_steps.
Context {W : Type} `{LcLog W} `{CJson} (cfg : lc_cfg).
Implicit Types s : lst W.

(** A change of the power or of the mode, then the power set anew. *)
Lemma change_then_apply f : (forall x, power_ctx_ok cfg x -> power_ctx_ok cfg (f x)) ->
  leads (power_base cfg) (power_ok cfg) (updx (W:=W) f ;; lc_apply_power cfg ;; lc_poll_power cfg).
Proof.
  intros Hf; apply (leads_bind _ (power_base cfg)); [intros s [Hc Hs]; split; [by apply Hf|done]|intros _].
  apply (leads_bind _ (power_ok cfg)); [apply apply_power_leads|intros _]; apply calm_inv; calms.
Qed.

Lemma drain_power_ok : run_inv (power_ok cfg) (lc_drain_power_request (W:=W) cfg).
Proof.
  intros s [[Hp Hq Hs] Hf Hl]; unfold lc_drain_power_request; mrun.
  destruct (pending_power (L s)) as [level|] eqn:Ep; [|constructor; [by constructor|done|exact Hl]].
  set (s1 := mk_lst _ _ _ _); assert (Hb : power_base cfg s1) by (split; [by constructor|done]).
  revert Hb; generalize s1; apply (leads_bind _ (power_base cfg)); [apply calm_base; calms|intros _].
  apply change_then_apply; intros x []; constructor; [|done..]; right; by apply Hq.
Qed.

Context (Hcfg : cfg_ok cfg).

Lemma standby_update_ok : run_inv (power_ok cfg) (lc_standby_update (W:=W) cfg).
Proof.
  unfold lc_standby_update; apply inv_bind; [apply calm_inv; calms|intros a].
  apply inv_bind; [apply calm_inv; calms|intros _]; apply inv_bind; [apply calm_inv; calms|intros _].
  destruct (negb (is_ap cfg) || (standby_dbm cfg <? 0)) eqn:E; [apply inv_ret|]; bool_to_prop.
  intros s Hs; mrun; cbn [id]; unfold when; destruct (negb _); [|done].
  apply change_then_apply; [|by apply power_ok_base]; intros x []; constructor; [done..|].
  intros _; destruct Hcfg as [[? [? ?] ? ? ? ?] _ _]; split; [done|lia].
Qed.

Lemma tick_step_ok pc m : tick_steps (W:=W) cfg !! pc = Some m -> run_inv (power_ok cfg) m.
Proof.
  intros Hm; do 16 (destruct pc as [|pc];
    [injection Hm as <-;
     lazymatch goal with
     | |- run_inv _ (lc_drain_power_request _) => apply drain_power_ok
     | |- run_inv _ (lc_standby_update _) => apply standby_update_ok
     | |- _ => by powers
     end|]).
  destruct pc as [|pc]; [injection Hm as <-|done]; intros s Hs; eapply calm_ok, Hs; split; [done|]; apply quiet_same, log_sleep.
Qed.

Lemma other_thread_ok s s' : other_thread cfg s s' -> power_ok cfg s -> power_ok cfg s'.
Proof.
  intros Ho [[Hp Hq Hs] Hf Hl]; destruct Ho; try by constructor.
  all: unfold lifecycle_request_bandwidth, lifecycle_request_retx, lifecycle_request_channel, lifecycle_request_power,
      lifecycle_request_armed, lifecycle_request_forget_peer; repeat case_match; constructor; try done; constructor; try done.
  cbn; intros l [= <-]; by bool_to_prop.
Qed.

(** *** The start *)

Lemma init_power_known w : power_known cfg (init_power (W:=W) cfg w).
Proof.
  assert (Hd : lc_power_valid (is_ap cfg) (max_power cfg) (lc_power_default (is_ap cfg) (max_power cfg)) = true).
  { apply lc_power_default_valid; destruct Hcfg as [[Hcap _ _ _ _ _] Hl _].
    destruct (Z.lt_ge_cases 0 (max_power cfg)) as [Hm|Hm]; [by apply Hl|].
    unfold lc_power_default, power_within; rewrite (proj2 (Z.leb_le _ _)) by done; cbn; destruct (is_ap cfg); lia. }
  unfold init_power, power_known; match goal with |- context [if negb (?p =? _) && _ then _ else _] => generalize p; intros q end.
  destruct (q =? LC_POWER_NONE) eqn:En, (lc_power_valid (is_ap cfg) (max_power cfg) q) eqn:Ev; cbn; bool_to_prop; auto.
Qed.

Lemma thread_start_ok w :
  lc_sets w = [] -> power_ok cfg (thread_start cfg (mk_lst (ctx_init cfg w) glob_init loc_init w)).2.
Proof.
  intros Hw; set (s := mk_lst _ _ _ w).
  set (q := init_power cfg w); set (P s' := power_base cfg s' /\ power_part (L s') = (q, None, false)).
  assert (HP : forall A (m : M (lst W) A), keeps calm m -> leads P P m).
  { intros A m Hm s1 [Hb1 Hb2]; split; [by apply (calm_base cfg m Hm)|]; destruct (Hm s1) as [<- _]; done. }
  assert (Hs : P s).
  { split; [|done]; split; [|cbn; by rewrite Hw]; constructor; [apply init_power_known|done|done]. }
  revert Hs; generalize s; unfold thread_start.
  do 4 (apply (leads_bind _ P); [apply HP; by calms|intros ?]).
  intros s1 Hs1; rewrite bind_getx; cbn [id].
  assert (power (L s1) = q) as -> by (by destruct Hs1 as [_ [= -> _ _]]); generalize (L s1); intros x; revert s1 Hs1.
  do 3 (apply (leads_bind _ P); [apply HP; by calms|intros ?]).
  apply (leads_bind _ (power_ok cfg)); [|intros _; apply calm_inv; by calms].
  intros s1 [Hb [= E1 E2 E3]]; destruct (q =? LC_POWER_NONE) eqn:Eq; cbn [negb when]; [|by apply apply_power_leads].
  bool_to_prop; destruct Hb as [Hc Hf]; constructor; [done..|]; intros [?|?]; cbn in *; congruence.
Qed.

Lemma reach_power_ok w pc s h :
  lc_sets w = [] -> lc_reach cfg (thread_start cfg (mk_lst (ctx_init cfg w) glob_init loc_init w)).2 pc s h -> power_ok cfg s.
Proof.
  intros Hw; induction 1 as [|pc s h pc' s' h' Hr IH Hs]; [by apply thread_start_ok|].
  inversion Hs as [pc0 s0 s0' h0 Ho E1 E2|pc0 m s0 h0 Hm _ E1 E2]; subst; [by eapply other_thread_ok|by eapply tick_step_ok].
Qed.
End all_steps.

(** Leaving the low-power mode without a wanted level ([--default-power none])
    sends the chip no power at all: it stays at the standby level. *)
Lemma apply_no_level {W : Type} `{LcLog W} cfg (s : lst W) :
  standby (L s) = false -> power (L s) = LC_POWER_NONE ->
  let s' := ((lc_apply_power cfg ;; lc_poll_power cfg) s).2 in standby (L s') = false /\ lc_sets (Wd s') = lc_sets (Wd s).
Proof.
  intros Hs Hp; unfold lc_apply_power, lc_poll_power; rewrite bind_assoc_run, bind_getx; cbn [id]; rewrite Hs, Hp; cbv iota.
  rewrite Z.eqb_refl, bind_mret, bind_sys; split; [done|]; unfold lc_power_read_dbm; cbn [Wd updx snd].
  rewrite bind_run; destruct (bb_get_cur_power _ _) as [[ret pwr] w] eqn:E; cbn.
  pose proof (log_cur_power (if is_ap cfg then BB_USER_BR_CS else BB_USER_0) (Wd s)) as Hl; by rewrite E in Hl.
Qed.

Lemma armed_without_level {W : Type} `{LcLog W} cfg (s : lst W) :
  is_ap cfg = true -> 0 <= standby_dbm cfg -> standby (L s) = true -> overheat (L s) = false -> pending_armed (L s) = 1 ->
  power (L s) = LC_POWER_NONE ->
  standby (L (lc_standby_update cfg s).2) = false /\ lc_sets (Wd (lc_standby_update cfg s).2) = lc_sets (Wd s).
Proof.
  intros Ha Hs Hsb Ho Hp Hn; unfold lc_standby_update; rewrite bind_getx, Hp, bind_updx; cbn [when Z.leb Z.compare]; rewrite bind_updx.
  rewrite Ha, (proj2 (Z.ltb_ge _ _)) by done; cbn [negb orb]; mrun; cbn [id L].
  set (x := _ <| armed := 1 |>); assert (standby_want x = false) as Hw by (unfold standby_want; cbn; by rewrite Ho).
  assert (standby x = true) as -> by done; rewrite Hw, bool_decide_false by done; cbn [negb when]; rewrite bind_updx.
  set (s3 := mk_lst _ _ _ _); apply (apply_no_level cfg s3); [exact Hw|done].
Qed.

(** A power request within the cap, in numbers: the chip's dBm target of the
    role's highest level that the cap allows. *)
Lemma level_allowed_cap cfg p :
  level_allowed cfg (level_request cfg) p -> max_power cfg > 0 -> max_power cfg < 400 ->
  p <= (if is_ap cfg then 22 else 23).
Proof.
  intros (level & Hv & ->) Hpos Hcap; unfold lc_power_valid in Hv; apply andb_true_iff in Hv as [_ Hw].
  unfold level_request, power_level_dbm, power_within, DEV_TARGET_OFFSET_DBM, DEV_AUTO_CAP_MW, LC_POWER_AUTO in *.
  destruct (level =? -1) eqn:Ea; [apply orb_true_iff in Hw as [Hw|Hw]; bool_to_prop; lia|].
  destruct (List.find _ _) as [[mw dbm]|] eqn:E; [|destruct (is_ap cfg); lia].
  apply (find_level (fun m => m =? level)) in E as [Hin E]; apply orb_true_iff in Hw as [Hw|Hw]; bool_to_prop; [lia|].
  destruct (is_ap cfg); cbn in Hin; repeat (apply elem_of_cons in Hin as [[= -> ->]|Hin]; [lia|]); by apply not_elem_of_nil in Hin.
Qed.

(** C13. Output power.  For every configuration [main] accepts, in every state
    the daemon reaches: each power request it has sent so far is a level of
    this role within [--max-power] (or, on the air side, the standby level
    configured), and the last one is what its state calls for -- the standby
    level in the low-power mode, the wanted level otherwise. *)
Theorem power_within_cap {W : Type} `{LcLog W} `{CJson} port opts cfg w pc s h :
  parse_args (W:=W) port opts = Some cfg -> lc_sets w = [] ->
  lc_reach cfg (thread_start cfg (mk_lst (ctx_init cfg w) glob_init loc_init w)).2 pc s h ->
  Forall (power_request_ok cfg) (lc_sets (Wd s)) /\
  (standby (L s) = true \/ power (L s) <> LC_POWER_NONE -> last_power None (lc_sets (Wd s)) = Some (power_target cfg (L s))).
Proof.
  intros Hc Hw Hr; destruct (reach_power_ok cfg (parse_args_ok _ _ _ Hc) w pc s h Hw Hr) as [_ Hf Hl]; by split.
Qed.
