(* ===== verification/LcHeat.v ===== *)
(** The heat pause and the low-power mode of [lifecycled/lifecycle.c]: the
    pause is the hysteresis of the SoC readings between the two thresholds,
    and the low-power mode follows arm state, pause and link. *)

From S2P Require Import Prelude ChipAdc Monad LcText LcTuning LcPair LcConfig LcBoard Lifecycle LcTick LcDebounce.
#[local] Open Scope Z_scope.

(** Some reading reached [hi], and none since was as low as [lo]; ticks
    without a reading count for nothing. *)
Definition hot (hi lo : Z) (rs : list (option Z)) : Prop :=
  exists a c b, rs = a ++ Some c :: b /\ hi <= c /\ Forall (fun r => match r with Some c => lo < c | None => True end) b.

Section hysteresis.
Context (hi lo : Z) (Hlo : lo < hi).

Lemma hot_nil : ~ hot hi lo [].
Proof. by intros ([|] & c & b & E & _). Qed.

Lemma hot_snoc rs r :
  hot hi lo (rs ++ [r]) <->
  match r with
  | Some c => hi <= c \/ (lo < c /\ hot hi lo rs)
  | None => hot hi lo rs
  end.
Proof.
  assert (Hkeep : match r with Some c => lo < c | None => True end -> hot hi lo rs -> hot hi lo (rs ++ [r])).
  { intros Hr (a & c & b & -> & Hc & Hb); exists a, c, (b ++ [r]); split_and!; [by rewrite <- app_assoc|done|].
    apply Forall_app; split; [done|by apply Forall_singleton]. }
  split.
  - intros (a & c & b & E & Hc & Hb); destruct b as [|z b _] using rev_ind.
    + apply app_inj_tail in E as [-> ->]; by left.
    + rewrite app_comm_cons, app_assoc in E; apply app_inj_tail in E as [-> ->]; apply Forall_app in Hb as [Hb Hz].
      apply Forall_cons_1 in Hz as [Hz _]; assert (hot hi lo (a ++ Some c :: b)) by (by exists a, c, b); destruct z; [right; by split|done].
  - destruct r as [c|]; [intros [Hc|[Hc Hh]]|intros Hh]; [|by apply Hkeep..].
    exists rs, c, []; split_and!; [done|done|by apply Forall_nil].
Qed.
End hysteresis.

Section heat.
Context {W : Type} `{LcFs W} `{LcSdk W} `{ChipIoctl W} `{CJson} `{LcPrograms W} `{LcEnv W} (cfg : lc_cfg).
Implicit Types s : lst W.

(** ** The pause *)

Lemma other_steps_overheat pc m : tick_steps (W:=W) cfg !! pc = Some m -> pc <> heat_pos -> keeps (frame overheat) m.
Proof.
  unfold heat_pos; intros Hm Hpc; do 17 (destruct pc as [|pc]; [injection Hm as <-; try done; by frames|]); done.
Qed.

Lemma overheat_update_run s :
  (exists w, (lc_overheat_update cfg s).2 = mk_lst ((L s) <| overheat := overheat_next cfg (L s) |>) (G s) (V s) w).
Proof.
  unfold lc_overheat_update; rewrite bind_getx; cbn [id]; destruct (bool_decide_reflect (overheat_next cfg (L s) = overheat (L s))) as [->|Hn];
    cbn [negb when].
  - exists (Wd s); by destruct s as [[] g v w].
  - rewrite bind_updx, sys_run; by eexists.
Qed.

Lemma thread_start_heat : keeps (frame (fun x => (overheat x, standby x, armed x))) (thread_start (W:=W) cfg).
Proof. frames. Qed.

Lemma other_thread_heat s s' :
  other_thread cfg s s' -> (overheat (L s), standby (L s), armed (L s), state (L s)) = (overheat (L s'), standby (L s'), armed (L s'), state (L s')).
Proof.
  destruct 1; cbn [L]; try done;
    unfold lifecycle_request_bandwidth, lifecycle_request_retx, lifecycle_request_channel, lifecycle_request_power,
      lifecycle_request_armed, lifecycle_request_forget_peer; by repeat case_match.
Qed.

(** ** The low-power mode *)

Definition mode (x : lc_ctx) : Z * bool * bool * lc_state := (armed x, standby x, overheat x, state x).

Lemma quiet_steps_mode pc m :
  tick_steps (W:=W) cfg !! pc = Some m -> pc <> switch_pos -> pc <> heat_pos -> pc <> 15%nat -> keeps (frame mode) m.
Proof.
  unfold switch_pos, heat_pos; intros Hm H12 H14 H15;
    do 17 (destruct pc as [|pc]; [injection Hm as <-; try done; by frames|]); done.
Qed.

Definition standby_enabled : bool := is_ap cfg && (0 <=? standby_dbm cfg).

Lemma standby_want_mode x y : mode x = mode y -> standby_want x = standby_want y.
Proof. unfold mode, standby_want; intros E; by injection E as -> -> -> ->. Qed.

(** The update leaves the mode its own fixed point. *)
Lemma standby_update_fixed s :
  standby_enabled = true -> let x := L (lc_standby_update cfg s).2 in standby x = standby_want x.
Proof.
  unfold standby_enabled, lc_standby_update; intros He; apply andb_true_iff in He as [Ha Hs]; mrun.
  set (s1 := mk_lst _ _ _ _); rewrite Ha, (Z.ltb_antisym), Hs; cbn [negb orb].
  rewrite bind_run; cbv beta; set (s2 := (when _ _ s1).2); mrun; cbn [id].
  destruct (bool_decide_reflect (standby_want (L s2) = standby (L s2))) as [E|E]; cbn [negb when]; [symmetry; exact E|].
  rewrite bind_updx; set (s3 := mk_lst _ _ _ _); cbv zeta.
  assert (Hf : keeps (frame mode) (lc_apply_power (W:=W) cfg ;; lc_poll_power cfg)) by frames; specialize (Hf s3).
  rewrite (standby_want_mode _ (L s3)) by done; injection Hf as _ <- _ _; cbn [L s3].
  unfold standby_want; cbn; by destruct (negb (armed (L s2) =? 0) && negb (overheat (L s2))), (bool_decide (state (L s2) = LC_STATE_CONNECTED)).
Qed.

Lemma standby_update_disabled : standby_enabled = false -> keeps (frame standby) (lc_standby_update (W:=W) cfg).
Proof.
  unfold standby_enabled, lc_standby_update; intros He.
  assert (negb (is_ap cfg) || (standby_dbm cfg <? 0) = true) as ->; [|frames].
  rewrite Z.ltb_antisym; destruct (is_ap cfg), (0 <=? standby_dbm cfg); done.
Qed.

Lemma other_steps_standby pc m : tick_steps (W:=W) cfg !! pc = Some m -> pc <> 15%nat -> keeps (frame standby) m.
Proof. intros Hm H15; do 17 (destruct pc as [|pc]; [injection Hm as <-; try done; by frames|]); done. Qed.

(** Where in the loop the mode is up to date. *)
Definition settled_pos (pc : nat) : Prop := (pc <= switch_pos)%nat \/ pc = 16%nat.

Definition heat_inv (pc : nat) (s : lst W) (h : list observation) : Prop :=
  (is_ap cfg = true -> 0 <= overheat_c cfg ->
     (overheat (L s) = true <-> hot (overheat_c cfg * 10) (overheat_resume_c cfg * 10) (heat_readings h))) /\
  (standby_enabled = true -> settled_pos pc -> standby (L s) = standby_want (L s)) /\
  (standby_enabled = false -> standby (L s) = false).

Lemma heat_step_pause pc m s h :
  overheat_resume_c cfg < overheat_c cfg \/ overheat_c cfg < 0 ->
  tick_steps (W:=W) cfg !! pc = Some m -> is_ap cfg = true -> 0 <= overheat_c cfg ->
  (overheat (L s) = true <-> hot (overheat_c cfg * 10) (overheat_resume_c cfg * 10) (heat_readings h)) ->
  (overheat (L (m s).2) = true <-> hot (overheat_c cfg * 10) (overheat_resume_c cfg * 10) (heat_readings (h ++ observed pc s))).
Proof.
  intros Hr Hm Ha Ho IH; unfold heat_readings in *; rewrite omap_app; unfold observed.
  destruct (decide (pc = heat_pos)) as [->|Hpc].
  - injection Hm as <-; destruct (overheat_update_run s) as [w ->]; cbn [L]; change (overheat (_ <| overheat := ?b |>)) with b.
    rewrite decide_False by done; cbn [omap list_omap app].
    set (rs := omap _ h) in *; destruct (soc_temp_valid (L s)) eqn:Ev; rewrite hot_snoc by lia; unfold overheat_next;
      rewrite Ha, Ev, (proj2 (Z.ltb_ge _ _)) by done; cbn [negb orb]; [|done].
    destruct (overheat (L s)) eqn:Eo; cbn [negb andb].
    + destruct (soc_temp_c10 (L s) <=? overheat_resume_c cfg * 10) eqn:El; bool_to_prop; [|intuition (lia || auto)].
      split; [done|]; intros [|[? _]]; lia.
    + destruct (overheat_c cfg * 10 <=? soc_temp_c10 (L s)) eqn:El; bool_to_prop; [intuition (lia || auto)|].
      split; [done|]; intros [|[_ Hh]]; [lia|]; by apply IH in Hh.
  - rewrite <- (other_steps_overheat _ _ Hm Hpc s), IH; destruct (decide (pc = switch_pos)); cbn [omap list_omap]; by rewrite app_nil_r.
Qed.

Lemma heat_step_standby pc m s :
  tick_steps (W:=W) cfg !! pc = Some m -> standby_enabled = true ->
  (settled_pos pc -> standby (L s) = standby_want (L s)) ->
  settled_pos (if decide (S pc = 17%nat) then O else S pc) -> standby (L (m s).2) = standby_want (L (m s).2).
Proof.
  intros Hm He IH Hpc; destruct (decide (pc = 15%nat)) as [->|H15]; [injection Hm as <-; by apply standby_update_fixed|].
  assert (Hlt : (pc < 17)%nat) by (by apply lookup_lt_Some in Hm).
  assert (Hq : settled_pos pc /\ pc <> switch_pos /\ pc <> heat_pos).
  { unfold settled_pos, switch_pos, heat_pos in *; destruct (decide (S pc = 17%nat)); lia. }
  destruct Hq as (Hq & H12 & H14); specialize (IH Hq).
  pose proof (quiet_steps_mode pc m Hm H12 H14 H15 s) as E; rewrite <- (standby_want_mode _ _ E), <- IH.
  by injection E as _ <- _ _.
Qed.

Lemma heat_inv_step pc s h pc' s' h' :
  overheat_resume_c cfg < overheat_c cfg \/ overheat_c cfg < 0 ->
  lc_step cfg (pc, s, h) (pc', s', h') -> heat_inv pc s h -> heat_inv pc' s' h'.
Proof.
  intros Hc Hs (H1' & H2' & H3'); inversion Hs as [pc0 s0 s0' h0 Ho E1 E2|pc0 m s0 h0 Hm _ E1 E2]; subst.
  - pose proof (other_thread_heat _ _ Ho) as E; unfold heat_inv.
    assert (Hm : mode (L s) = mode (L s')) by (by injection E as Ea Eb Ec Ed; unfold mode; rewrite Ea, Eb, Ec, Ed).
    rewrite <- (standby_want_mode _ _ Hm); by injection E as <- <- _ _.
  - split_and!.
    + intros Ha Ho; by apply (heat_step_pause pc); [..|by apply H1'].
    + intros He; by apply (heat_step_standby pc); [..|apply H2'].
    + intros Hd; destruct (decide (pc = 15%nat)) as [->|H15].
      * injection Hm as <-; rewrite <- (standby_update_disabled Hd s); by apply H3'.
      * rewrite <- (other_steps_standby pc m Hm H15 s); by apply H3'.
Qed.

Lemma heat_inv_start w : heat_inv 0 (thread_start cfg (mk_lst (ctx_init cfg w) glob_init loc_init w)).2 [].
Proof.
  set (s := mk_lst _ _ _ w); pose proof (thread_start_heat s) as [= E1 E2 E3]; unfold heat_inv, standby_want.
  rewrite <- E1, <- E2, <- E3; cbn; split_and!; try done; intros; split; [done|]; by intros ?%hot_nil.
Qed.

(** C15. Heat and low power, for every configuration [main] accepts and every
    state the daemon reaches: the video is paused exactly when the SoC has
    reached [overheat_c] and has not been down to [overheat_resume_c] since;
    and at the head of the loop a unit that is armed and not paused is never in
    the low-power mode, one that is disarmed or paused with its link up always
    is; without [--standby-dbm] it never is. *)
Theorem heat_and_standby port opts w pc s h :
  parse_args (W:=W) port opts = Some cfg ->
  lc_reach cfg (thread_start cfg (mk_lst (ctx_init cfg w) glob_init loc_init w)).2 pc s h ->
  (is_ap cfg = true -> 0 <= overheat_c cfg ->
     (overheat (L s) = true <-> hot (overheat_c cfg * 10) (overheat_resume_c cfg * 10) (heat_readings h))) /\
  (standby_enabled = true -> pc = O ->
     (armed (L s) <> 0 -> overheat (L s) = false -> standby (L s) = false) /\
     (state (L s) = LC_STATE_CONNECTED -> armed (L s) = 0 \/ overheat (L s) = true -> standby (L s) = true)) /\
  (standby_enabled = false -> standby (L s) = false).
Proof.
  intros Hp Hr; pose proof (parse_args_ok _ _ _ Hp) as Hok.
  assert (Hc : overheat_resume_c cfg < overheat_c cfg \/ overheat_c cfg < 0).
  { destruct (Z.lt_ge_cases (overheat_c cfg) 0); [by right|left]; by apply (co_resume cfg Hok). }
  assert (Hi : heat_inv pc s h) by (induction Hr; [apply heat_inv_start|by eapply heat_inv_step]).
  destruct Hi as (Hh & Hs & Hd); split_and!; [done| |done].
  intros He ->; specialize (Hs He ltac:(left; lia)); unfold standby_want in Hs; split.
  - intros Ha Ho; rewrite Ho, (proj2 (Z.eqb_neq _ _) Ha) in Hs; done.
  - intros Hst Hw; assert (negb (armed (L s) =? 0) && negb (overheat (L s)) = false) as E.
    { destruct Hw as [->| ->]; [done|by rewrite andb_false_r]. }
    by rewrite E, Hst in Hs.
Qed.
End heat.
