(* ===== verification/LcSidecars.v ===== *)
(** The sidecar files of [lifecycled/lifecycle_tuning.c]: what is saved is what
    is loaded, and a failed save loses nothing. *)

From Stdlib Require Import String.
From S2P Require Import Prelude CtrlMsg Monad LcText LcTuning.
#[local] Open Scope Z_scope.

Section words.

Lemma fmt_dec_chars z : 0 <= z < 2 ^ 63 -> fmt_dec z <> [] /\ Forall is_dec (fmt_dec z).
Proof. intros Hz; destruct (fmt_dec_spec z Hz) as (Hne & Hd & _); done. Qed.

(** A number is no literal that starts with a letter. *)
Lemma fmt_dec_not z c l : 0 <= z < 2 ^ 63 -> is_digit c = false -> fmt_dec z <> c :: l.
Proof.
  intros Hz Hc E; destruct (fmt_dec_chars z Hz) as [_ Hd]; rewrite E in Hd; apply Forall_cons_1 in Hd as [Hd _].
  by rewrite is_dec_digit in Hc.
Qed.

Lemma scan_word_dec z : 0 <= z < 10 ^ 15 -> scan_word (fmt_dec z ++ [10]) = Some (fmt_dec z).
Proof.
  intros Hz; destruct (fmt_dec_chars z ltac:(lia)) as [Hne Hd]; apply scan_word_line; [done| |by apply length_fmt_dec].
  eapply list.Forall_impl; [exact Hd|apply is_dec_word].
Qed.

Lemma strtol10_whole z : 0 <= z < 2 ^ 63 -> strtol10 (fmt_dec z) = Some (z, []).
Proof. intros Hz; rewrite <- (app_nil_r (fmt_dec z)); by apply strtol10_fmt. Qed.
End words.

Section parse.
Context {W : Type} `{LcSdk W}.

Lemma lc_channel_parse_dec chan : 0 <= chan < BB_CONFIG_MAX_CHAN_NUM -> lc_channel_parse (fmt_dec chan) = Some chan.
Proof.
  intros Hc; pose proof BB_CONFIG_MAX_CHAN_NUM_ok; destruct (fmt_dec_chars chan ltac:(lia)) as [Hne _]; unfold lc_channel_parse.
  rewrite !decide_False by (done || apply fmt_dec_not; (lia || done)); rewrite strtol10_whole by lia.
  by rewrite (proj2 (Z.ltb_ge _ _)), (proj2 (Z.leb_gt _ _)) by lia.
Qed.

Lemma lc_power_parse_dec level : 0 < level <= 10000 -> lc_power_parse (fmt_dec level) = Some level.
Proof.
  intros Hl; destruct (fmt_dec_chars level ltac:(lia)) as [Hne _]; unfold lc_power_parse.
  rewrite !decide_False by (done || apply fmt_dec_not; (lia || done)); rewrite strtol10_whole by lia.
  rewrite bool_decide_true by done; cbn [orb negb]; by rewrite (proj2 (Z.leb_gt _ _)), (proj2 (Z.ltb_ge _ _)) by lia.
Qed.
End parse.

Lemma scan_next z rest : 0 <= z < 2 ^ 31 -> ends_number rest -> scan_dec (32 :: fmt_dec z ++ rest) = Some (z, rest).
Proof. intros; rewrite scan_dec_space by done; by apply scan_dec_fmt. Qed.

Lemma scan_retx_fmt a b c d e :
  lc_retx_valid a b c d e = true -> scan_retx (fmt_retx a b c d e) = Some (a, b, c, d, e).
Proof.
  unfold lc_retx_valid, fits_u8; intros Hv; bool_to_prop; unfold scan_retx, fmt_retx; cbn [app].
  rewrite scan_dec_fmt by (done || lia); cbn; do 4 (rewrite scan_next by (done || lia); cbn); done.
Qed.

Section roundtrips.
Context {W : Type} `{LcSdk W} `{LcFs W} `{!LcFsLaws W}.
Implicit Types w : W.

Lemma tuning_saved cfg mhz w w' : lc_tuning_save cfg mhz w = (0, w') -> lc_tuning_load cfg w' = mhz.
Proof.
  unfold lc_tuning_save, lc_tuning_load; destruct (lc_tuning_valid_mhz mhz) eqn:Hv; cbn [negb]; [|by intros [=]].
  intros E; rewrite (sidecar_written _ _ _ _ _ E).
  assert (0 <= mhz < 64).
  { unfold lc_tuning_valid_mhz, mhz_to_bw_enum in Hv; destruct (List.find _ _) as [bw|] eqn:Eb; [|done].
    apply List.find_some in Eb as [_ Eb]; bool_to_prop; subst mhz; destruct bw; cbn; lia. }
  by rewrite scan_dec_fmt, Hv by (done || lia).
Qed.

Lemma retx_saved cfg a b c d e w w' : lc_retx_save cfg a b c d e w = (0, w') -> lc_retx_load cfg w' = Some (mk_retx a b c d e).
Proof.
  unfold lc_retx_save, lc_retx_load; destruct (lc_retx_valid a b c d e) eqn:Hv; cbn [negb]; [|by intros [=]].
  intros E; rewrite (sidecar_written _ _ _ _ _ E), scan_retx_fmt, Hv by done.
  unfold lc_retx_valid, fits_u8 in Hv; bool_to_prop; by rewrite !u8_id by lia.
Qed.

Lemma channel_saved cfg chan w w' : lc_channel_save cfg chan w = (0, w') -> lc_channel_load cfg w' = Some chan.
Proof.
  unfold lc_channel_save, lc_channel_load, channel_in_range; pose proof BB_CONFIG_MAX_CHAN_NUM_ok.
  destruct (chan =? LC_CHANNEL_AUTO) eqn:Ea; cbn [negb andb].
  - intros E; rewrite (sidecar_written _ _ _ _ _ E); bool_to_prop; by subst chan.
  - destruct ((chan <? 0) || (BB_CONFIG_MAX_CHAN_NUM <=? chan)) eqn:Er; cbn [negb]; [by intros [=]|]; bool_to_prop.
    intros E; rewrite (sidecar_written _ _ _ _ _ E), scan_word_dec, lc_channel_parse_dec by lia.
    unfold LC_CHANNEL_NONE; by rewrite (proj2 (Z.eqb_neq _ _)) by lia.
Qed.

Lemma power_saved cfg level w w' : level <= 10000 -> lc_power_save cfg level w = (0, w') -> lc_power_load cfg w' = Some level.
Proof.
  intros Hm; unfold lc_power_save, lc_power_load; destruct (level =? LC_POWER_AUTO) eqn:Ea; cbn [negb andb].
  - intros E; rewrite (sidecar_written _ _ _ _ _ E); bool_to_prop; by subst level.
  - destruct (level <=? 0) eqn:Er; [by intros [=]|]; bool_to_prop.
    intros E; rewrite (sidecar_written _ _ _ _ _ E), scan_word_dec, lc_power_parse_dec by lia.
    unfold LC_POWER_NONE; by rewrite (proj2 (Z.eqb_neq _ _)) by lia.
Qed.

(** A save that does not return 0 leaves every reading of its file as it was. *)
Lemma save_failed cfg name text c w r w' :
  (if negb c then mret (-1) else sidecar_write cfg name text) w = (r, w') -> r <> 0 ->
  sidecar_read cfg name w' = sidecar_read cfg name w.
Proof. destruct c; cbn [negb]; [apply sidecar_not_written|by intros [= _ <-]]. Qed.

(** The four settings the daemon persists: whatever a save reports written
    is what the next start loads, and after a save that failed -- an illegal
    value, no room for the temporary file, a failed rename -- the next start
    loads what it would have loaded before. *)
Theorem settings_persist cfg :
  (forall mhz w r w', lc_tuning_save cfg mhz w = (r, w') ->
     lc_tuning_load cfg w' = if r =? 0 then mhz else lc_tuning_load cfg w) /\
  (forall a b c d e w r w', lc_retx_save cfg a b c d e w = (r, w') ->
     lc_retx_load cfg w' = if r =? 0 then Some (mk_retx a b c d e) else lc_retx_load cfg w) /\
  (forall chan w r w', lc_channel_save cfg chan w = (r, w') ->
     lc_channel_load cfg w' = if r =? 0 then Some chan else lc_channel_load cfg w) /\
  (forall level w r w', level <= 10000 -> lc_power_save cfg level w = (r, w') ->
     lc_power_load cfg w' = if r =? 0 then Some level else lc_power_load cfg w).
Proof.
  split_and!.
  - intros mhz w r w' E; destruct (Z.eqb_spec r 0) as [->|Hr]; [by eapply tuning_saved|].
    unfold lc_tuning_load; unfold lc_tuning_save in E; by rewrite (save_failed _ _ _ _ _ _ _ E Hr).
  - intros a b c d e w r w' E; destruct (Z.eqb_spec r 0) as [->|Hr]; [by eapply retx_saved|].
    unfold lc_retx_load; unfold lc_retx_save in E; by rewrite (save_failed _ _ _ _ _ _ _ E Hr).
  - intros chan w r w' E; destruct (Z.eqb_spec r 0) as [->|Hr]; [by eapply channel_saved|].
    unfold lc_channel_load; unfold lc_channel_save in E; by rewrite (save_failed _ _ _ _ _ _ _ E Hr).
  - intros level w r w' Hm E; destruct (Z.eqb_spec r 0) as [->|Hr]; [by eapply power_saved|].
    unfold lc_power_load; unfold lc_power_save in E.
    destruct (negb (level =? LC_POWER_AUTO) && (level <=? 0)); [injection E as _ <-; done|].
    by rewrite (sidecar_not_written _ _ _ _ _ _ E Hr).
Qed.
End roundtrips.
