(* ===== verification/LcPeers.v ===== *)
(** The remembered air units of [lifecycled/lifecycle_pair.c]: the list file
    is a faithful store of the list, and what the daemon does with the list --
    remember, forget, hand to the chip -- is what it says. *)

From Stdlib Require Import String.
From S2P Require Import Prelude CtrlMsg Monad LcText LcTuning LcPair.
#[local] Open Scope Z_scope.

Definition mac_ok (m : list Z) : Prop := length m = 4%nat /\ bytes_ok m.

Section macs.

Lemma byte_halves b : byte_ok b -> 0 <= b / 16 < 16 /\ 0 <= b mod 16 < 16.
Proof. unfold byte_ok; intros Hb; split; [split; [apply Z.div_pos; lia|apply Z.div_lt_upper_bound; lia]|apply Z.mod_pos_bound; lia]. Qed.

Lemma scan_x2_byte b rest : byte_ok b -> scan_x2 (fmt_02x b ++ rest) = Some (b, rest).
Proof.
  intros Hb; destruct (byte_halves b Hb) as [Hq Hm].
  destruct (hex_digit_table _ Hq) as (Vq & Hr & _ & Hsp), (hex_digit_table _ Hm) as (Vm & _ & HX & _).
  unfold scan_x2, fmt_02x; cbn [app skip_spaces]; rewrite Hsp, Vq, Vm.
  rewrite (proj2 (Z.eqb_neq _ 0x2d)), (proj2 (Z.eqb_neq _ 0x2b)) by lia; cbn [orb].
  assert (hex_digit (b mod 16) <> 0x78) by (unfold hex_digit; destruct (b mod 16 <? 10) eqn:F; bool_to_prop; lia).
  rewrite (proj2 (Z.eqb_neq _ 0x78)), (proj2 (Z.eqb_neq _ 0x58)) by done; cbn [orb]; rewrite andb_false_r; cbn.
  do 2 f_equal; pose proof (Z.div_mod b 16); lia.
Qed.

Lemma mac_parse_hex m : mac_ok m -> mac_parse (mac_hex m) = Some m.
Proof.
  intros [Hl Hb]; destruct m as [|a [|b [|c [|d [|]]]]]; try done; unfold bytes_ok in Hb; rewrite !list.Forall_cons in Hb.
  destruct Hb as (Ha & Hb & Hc & Hd & _); unfold mac_parse, mac_hex; cbn [flat_map].
  change (negb _) with false; cbv iota; do 4 (rewrite scan_x2_byte by done; cbn -[fmt_02x scan_x2]).
  unfold byte_ok in *; by rewrite !u8_id by lia.
Qed.

Lemma length_mac_hex m : mac_ok m -> length (mac_hex m) = 8%nat.
Proof. intros [Hl _]; by destruct m as [|a [|b [|c [|d [|]]]]]. Qed.

Lemma mac_hex_chars m : mac_ok m -> Forall (fun c => 0x30 <= c <= 0x66) (mac_hex m).
Proof.
  intros [_ Hb]; unfold mac_hex; induction Hb as [|b m Hb _ IH]; [done|]; cbn [flat_map fmt_02x app].
  destruct (byte_halves b Hb) as [Hq Hm]; repeat (apply Forall_cons_2; [by apply hex_digit_table|]); exact IH.
Qed.

Lemma fgets_line n l rest : Forall (fun c => c <> 10) l -> (length l < n)%nat -> fgets n (l ++ 10 :: rest) = (l ++ [10], rest).
Proof.
  intros Hl; revert n; induction Hl as [|c l Hc Hl IH]; intros n Hn; (destruct n as [|n]; [cbn in Hn; lia|]); cbn [app fgets]; [done|].
  rewrite (proj2 (Z.eqb_neq _ _) Hc), IH by (cbn in Hn; lia); done.
Qed.

Lemma cut_line_word l : Forall (fun c => 0x30 <= c <= 0x66) l -> cut_line (l ++ [10]) = l.
Proof.
  induction 1 as [|c l Hc Hl IH]; [done|]; cbn [app cut_line]; rewrite IH.
  by rewrite !(proj2 (Z.eqb_neq c _)) by lia.
Qed.

Lemma mac_in_spec m tab : mac_in m tab = true <-> m ∈ tab.
Proof.
  unfold mac_in; rewrite existsb_exists; split.
  - intros (x & Hx & E); apply bool_decide_eq_true in E; subst x; by apply list_elem_of_In.
  - intros Hm; exists m; split; [by apply list_elem_of_In|by apply bool_decide_eq_true].
Qed.

Lemma mac_parse_ok hex m : mac_parse hex = Some m -> mac_ok m.
Proof.
  unfold mac_parse; destruct (negb _); [done|].
  destruct (scan_x2 hex) as [[b0 s0]|]; cbn; [|done]; destruct (scan_x2 s0) as [[b1 s1]|]; cbn; [|done].
  destruct (scan_x2 s1) as [[b2 s2]|]; cbn; [|done]; destruct (scan_x2 s2) as [[b3 s3]|]; cbn; [|done].
  intros [= <-]; split; [done|]; repeat apply Forall_cons_2; try apply Forall_nil_2; apply u8_range.
Qed.
End macs.

(** ** The list file *)

(** A list of air units as the daemon keeps it. *)
Definition peers_ok (max : Z) (tab : list (list Z)) : Prop := NoDup tab /\ Forall mac_ok tab /\ zlen tab <= max.

Section list_file.

Lemma peers_ok_snoc max tab m : peers_ok max tab -> zlen tab < max -> mac_ok m -> peers_ok max (if mac_in m tab then tab else tab ++ [m]).
Proof.
  intros (Hn & Hf & Hl) Hz Hm; destruct (mac_in m tab) eqn:E; [done|]; split_and!.
  - apply list.NoDup_app; split_and!; [done| |apply NoDup_singleton].
    intros x Hx Hx'; apply list_elem_of_singleton in Hx' as ->; apply mac_in_spec in Hx; congruence.
  - apply Forall_app; split; [done|by apply Forall_singleton].
  - rewrite zlen_app; change (zlen [m]) with 1; lia.
Qed.

Lemma peers_lines_ok fuel : forall max s out, peers_ok max out -> peers_ok max (peers_lines fuel max s out).
Proof.
  induction fuel as [|fuel IH]; intros max s out Ho; [done|]; cbn [peers_lines]; destruct s as [|c s]; [done|].
  destruct (zlen out <? max) eqn:El; cbn [negb]; [|done]; bool_to_prop.
  destruct (fgets 31 (c :: s)) as [line rest]; destruct (mac_parse (cut_line line)) as [m|] eqn:E; [|by apply IH].
  by apply IH, peers_ok_snoc; [..|apply mac_parse_ok in E].
Qed.

Lemma peers_text_cons m tab : peers_text (m :: tab) = mac_hex m ++ 10 :: peers_text tab.
Proof. unfold peers_text; cbn [flat_map]; by rewrite <- app_assoc. Qed.

(** Reading back a list that was written. *)
Lemma peers_lines_text tab : forall fuel max out,
  peers_ok max (out ++ tab) -> (length (peers_text tab) <= fuel)%nat -> peers_lines fuel max (peers_text tab) out = out ++ tab.
Proof.
  induction tab as [|m tab IH]; intros fuel max out (Hn & Hf & Hl) Hfuel; [rewrite app_nil_r; by destruct fuel|].
  apply Forall_app in Hf as [Hf1 Hf2]; pose proof (Forall_cons_1 _ _ _ Hf2) as [Hm Hf3].
  pose proof (mac_hex_chars m Hm) as Hc; pose proof (length_mac_hex m Hm) as Hlen.
  rewrite peers_text_cons in *; rewrite length_app in Hfuel; cbn [length] in Hfuel.
  destruct fuel as [|fuel]; [lia|]; destruct (mac_hex m) as [|c l] eqn:Eh; [done|]; cbn [app peers_lines].
  rewrite zlen_app, zlen_cons in Hl; pose proof (zlen_nonneg tab); rewrite (proj2 (Z.ltb_lt _ _)) by lia; cbn [negb].
  change (c :: l ++ 10 :: peers_text tab) with ((c :: l) ++ 10 :: peers_text tab).
  rewrite fgets_line; [|eapply list.Forall_impl; [exact Hc|cbn; lia]|rewrite Hlen; lia].
  rewrite cut_line_word, <- Eh, mac_parse_hex by done.
  assert (mac_in m out = false) as ->.
  { apply not_true_iff_false; rewrite mac_in_spec; intros Hin; apply list.NoDup_app in Hn as (_ & Hd & _); apply (Hd m Hin); left. }
  rewrite IH; [by rewrite <- app_assoc| |cbn in Hlen; lia].
  rewrite <- app_assoc; cbn [app]; split_and!; [done|by apply Forall_app|]; rewrite zlen_app, zlen_cons; lia.
Qed.
End list_file.

Section peers.
Context {W : Type} `{LcFs W} `{!LcFsLaws W} `{LcSdk W} `{CJson}.
Implicit Types w : W.

Lemma peers_loaded_ok cfg max w : 0 <= max -> peers_ok max (lc_peers_load cfg max w).
Proof.
  intros Hm; unfold lc_peers_load; destruct (sidecar_read _ _ w) as [text|]; [apply peers_lines_ok|];
    (split_and!; [apply NoDup_nil_2|apply Forall_nil_2|exact Hm]).
Qed.

Lemma peers_saved cfg max tab w w' : peers_ok max tab -> peers_save cfg tab w = (0, w') -> lc_peers_load cfg max w' = tab.
Proof.
  intros Ht Hs; unfold lc_peers_load; rewrite (sidecar_written _ _ _ _ _ Hs); by apply (peers_lines_text tab _ max []).
Qed.

Lemma remember_ok ap known :
  mac_ok ap -> mac_in ap known = false -> peers_ok BB_CONFIG_MAX_SLOT_CANDIDATE known ->
  peers_ok BB_CONFIG_MAX_SLOT_CANDIDATE (remember (W:=W) ap known).
Proof.
  intros Ha Hin (Hn & Hf & Hl); unfold remember; pose proof BB_CONFIG_MAX_SLOT_CANDIDATE_ok; pose proof (zlen_nonneg known).
  set (n := if _ =? _ then _ else _); assert (Hz : 0 <= n <= zlen known /\ n < BB_CONFIG_MAX_SLOT_CANDIDATE).
  { unfold n; destruct (zlen known =? BB_CONFIG_MAX_SLOT_CANDIDATE) eqn:E; bool_to_prop; lia. }
  split_and!.
  - pose proof (ztake_drop n known) as E; rewrite <- E in Hn; apply list.NoDup_app in Hn as (Hn & _ & _).
    apply list.NoDup_cons; split; [|exact Hn]; intros Hi; apply not_true_iff_false in Hin; apply Hin, mac_in_spec.
    rewrite <- E; by apply elem_of_app; left.
  - apply Forall_cons_2; [done|]; by apply Forall_take.
  - rewrite zlen_cons, zlen_take; lia.
Qed.

Lemma candidates_room cfg w : peers_ok BB_CONFIG_MAX_SLOT_CANDIDATE (lc_peers_load cfg BB_CONFIG_MAX_SLOT_CANDIDATE w).
Proof. apply peers_loaded_ok; pose proof (BB_CONFIG_MAX_SLOT_CANDIDATE_ok (W:=W)); lia. Qed.

(** *** What the chip is handed *)

Lemma add_known_ok max known : forall out, peers_ok max out -> Forall mac_ok known -> peers_ok max (add_known max known out).
Proof.
  induction known as [|m known IH]; intros out Ho Hk; [done|]; cbn [add_known]; apply Forall_cons_1 in Hk as [Hm Hk].
  destruct (zlen out <? max) eqn:El; cbn [negb]; [|done]; bool_to_prop; apply IH; [by apply peers_ok_snoc|done].
Qed.

Lemma filter_agree {A} (P Q : A -> Prop) `{forall x, Decision (P x)} `{forall x, Decision (Q x)} (l : list A) :
  (forall x, x ∈ l -> P x <-> Q x) -> filter P l = filter Q l.
Proof.
  induction l as [|x l IH]; intros Heq; [done|]; rewrite !filter_cons, IH by (intros; apply Heq; by right).
  specialize (Heq x ltac:(by left)); by do 2 case_decide; try tauto.
Qed.

(** What is added: in order, what is not there yet, as far as there is room. *)
Lemma add_known_eq max known : NoDup known -> forall out, zlen out <= max ->
  add_known max known out = ztake max (out ++ filter (fun m => m ∉ out) known).
Proof.
  induction known as [|m known IH]; intros Hd out Ho; cbn [add_known]; [by rewrite app_nil_r, ztake_all|].
  apply list.NoDup_cons in Hd as [Hm Hd]; destruct (Z.ltb_spec (zlen out) max) as [Hl|Hl]; cbn [negb].
  - destruct (mac_in m out) eqn:E.
    + rewrite IH, filter_cons_False by (done || (intros Hn; by apply Hn, mac_in_spec)); done.
    + assert (Hi : m ∉ out) by (rewrite <- mac_in_spec; by rewrite E).
      rewrite IH by (done || rewrite zlen_app; change (zlen [m]) with 1; lia); rewrite (filter_cons_True _ m), <- app_assoc by done; cbn [app].
      do 3 f_equal; apply filter_agree; intros m' Hm'; rewrite not_elem_of_app, list_elem_of_singleton; split; [tauto|]; intros Ho'; split; congruence.
  - rewrite (ltac:(lia) : max = zlen out); unfold ztake, zlen; by rewrite Nat2Z.id, take_app_length.
Qed.

Lemma read_ap_mac_ok cfg w ap : lc_pair_read_ap_mac cfg w = Some ap -> mac_ok ap.
Proof.
  by intros (root & _ & (j & _ & (t & _ & E)%bind_Some)%bind_Some)%bind_Some; eapply mac_parse_ok.
Qed.

Lemma candidates_eq cfg w ap : lc_pair_read_ap_mac cfg w = Some ap ->
  peers_effective cfg BB_CONFIG_MAX_SLOT_CANDIDATE w =
  ztake BB_CONFIG_MAX_SLOT_CANDIDATE (ap :: filter (fun m => m <> ap) (lc_peers_load cfg BB_CONFIG_MAX_SLOT_CANDIDATE w)).
Proof.
  intros Ha; pose proof BB_CONFIG_MAX_SLOT_CANDIDATE_ok as Hmax; unfold peers_effective; cbv zeta; rewrite Ha, (proj2 (Z.ltb_lt _ _)) by lia.
  destruct (candidates_room cfg w) as (Hn & _ & _); rewrite add_known_eq by (done || change (zlen [ap]) with 1; lia).
  cbn [app]; do 2 f_equal; apply list_filter_iff; intros m; by rewrite list_elem_of_singleton.
Qed.

Lemma candidates_ok cfg w : peers_ok BB_CONFIG_MAX_SLOT_CANDIDATE (peers_effective cfg BB_CONFIG_MAX_SLOT_CANDIDATE w).
Proof.
  pose proof BB_CONFIG_MAX_SLOT_CANDIDATE_ok as Hmax; unfold peers_effective; cbv zeta; rewrite (proj2 (Z.ltb_lt _ _)) by lia.
  destruct (candidates_room cfg w) as (_ & Hf & _); apply add_known_ok; [|done].
  destruct (lc_pair_read_ap_mac cfg w) as [ap|] eqn:E; split_and!; [apply NoDup_singleton|apply Forall_singleton; by eapply read_ap_mac_ok|
    change (zlen [ap]) with 1; lia|apply NoDup_nil_2|apply Forall_nil_2|change (zlen (@nil (list Z))) with 0; lia].
Qed.

(** *** Remembering and forgetting *)

(** The SDK does not write files. *)
Context (Hsdk : forall r (w : W) p, fs_read p (bb_set r w).2 = fs_read p w).

Lemma push_keeps_files cfg w max : lc_peers_load cfg max (lc_peers_push cfg w).2 = lc_peers_load cfg max w.
Proof.
  unfold lc_peers_push; rewrite bind_run; cbn [gets fst snd]; destruct (_ =? 0); [done|].
  unfold lc_peers_load, sidecar_read; by rewrite Hsdk.
Qed.

Lemma note_effect cfg w ap r w' :
  lc_pair_read_ap_mac cfg w = Some ap -> lc_peers_note_ap_mac cfg w = (r, w') ->
  let load := lc_peers_load cfg BB_CONFIG_MAX_SLOT_CANDIDATE in
  (load w' = load w /\ ((r = 0 /\ ap ∈ load w) \/ (r = -1 /\ ~ (ap ∈ load w)))) \/ (~ (ap ∈ load w) /\ load w' = remember (W:=W) ap (load w)).
Proof.
  intros Ha; unfold lc_peers_note_ap_mac; rewrite bind_run; cbn [gets fst snd]; rewrite Ha, bind_run; cbn [gets fst snd]; cbv zeta.
  pose proof BB_CONFIG_MAX_SLOT_CANDIDATE_ok as Hmax.
  set (known := lc_peers_load cfg _ w); pose proof (candidates_room cfg w) as Hk; fold known in Hk.
  destruct (mac_in ap known) eqn:Hin.
  - intros [= <- <-]; left; split; [done|left; split; [done|]]; by apply mac_in_spec.
  - assert (Hni : ap ∉ known) by (rewrite <- mac_in_spec; by rewrite Hin).
    rewrite bind_run; destruct (peers_save cfg (remember ap known) w) as [ret w1] eqn:Es; cbn [fst snd].
    destruct (Z.eqb_spec ret 0) as [->|Hr]; cbn [negb].
    + intros E; right; split; [done|]; replace w' with (lc_peers_push cfg w1).2 by (by rewrite E); rewrite push_keeps_files.
      eapply peers_saved, Es; apply remember_ok; [by eapply read_ap_mac_ok|done|done].
    + intros [= <- <-]; left; split; [|by right]; unfold lc_peers_load.
      by rewrite (sidecar_not_written _ _ _ _ _ _ Es Hr).
Qed.

Lemma forget_effect cfg mac w r w' :
  lc_peers_forget cfg mac w = (r, w') ->
  let load := lc_peers_load cfg BB_CONFIG_MAX_SLOT_CANDIDATE in
  if 0 <? r then
    exists target, load w' = filter (fun m => negb (forget_drops (lc_pair_read_ap_mac cfg w) target m)) (load w) /\
      r = zlen (load w) - zlen (load w') /\ match mac with Some hex => mac_parse hex = target /\ target <> None | None => target = None end /\
      (forall ap, lc_pair_read_ap_mac cfg w = Some ap -> target <> Some ap)
  else load w' = load w.
Proof.
  pose proof BB_CONFIG_MAX_SLOT_CANDIDATE_ok as Hmax; unfold lc_peers_forget; rewrite bind_run; cbn [gets fst snd]; cbv zeta.
  set (ap := lc_pair_read_ap_mac cfg w).
  destruct (match mac with Some hex => match mac_parse hex with Some t => Some (Some t) | None => None end | None => Some None end)
    as [target|] eqn:Et; [|by intros [= <- <-]].
  destruct (is_some target && bool_decide (ap = target)) eqn:Ea; [by intros [= <- <-]|].
  rewrite bind_run; cbn [gets fst snd]; set (known := lc_peers_load cfg _ w); set (kept := filter _ known).
  destruct (Z.eqb_spec (zlen kept) (zlen known)) as [Ez|Ez]; [by intros [= <- <-]; destruct (is_some target)|].
  rewrite bind_run; destruct (peers_save cfg kept w) as [ret w1] eqn:Es; cbn [fst snd mret M_ret].
  pose proof (candidates_room cfg w) as (Hn & Hf & Hl); fold known in Hn, Hf, Hl.
  assert (Hlen : zlen kept <= zlen known) by (unfold zlen, kept; pose proof (list.length_filter (fun m => negb (forget_drops ap target m)) known); lia).
  destruct (Z.eqb_spec ret 0) as [->|Hr]; intros [= <- <-].
  - rewrite (proj2 (Z.ltb_lt _ _)) by lia; exists target.
    assert (Hload : lc_peers_load cfg BB_CONFIG_MAX_SLOT_CANDIDATE w1 = kept).
    { eapply peers_saved, Es; split_and!; [by apply list.NoDup_filter| |lia].
      apply list.Forall_forall; intros m Hm; apply list_elem_of_filter in Hm as [_ Hm]; by apply (proj1 (list.Forall_forall _ _) Hf). }
    rewrite Hload; split_and!; [done|done| |].
    + destruct mac as [hex|]; [destruct (mac_parse hex)|]; by simplify_eq.
    + intros a Ha ->; rewrite Ha, bool_decide_true in Ea; done.
  - cbn; unfold lc_peers_load in *; by rewrite (sidecar_not_written _ _ _ _ _ _ Es Hr).
Qed.

(** A new air unit goes to the head; what the list has beyond its room falls
    off its end. *)
Lemma remember_eq ap known : zlen known <= BB_CONFIG_MAX_SLOT_CANDIDATE ->
  remember (W:=W) ap known = ap :: ztake (BB_CONFIG_MAX_SLOT_CANDIDATE - 1) known.
Proof.
  intros Hl; unfold remember; destruct (Z.eqb_spec (zlen known) BB_CONFIG_MAX_SLOT_CANDIDATE) as [->|Hn]; [done|].
  by rewrite !ztake_all by lia.
Qed.

(** What a forget leaves, in the order it was in. *)
Definition kept_after (mac : option (list Z)) (ap m : list Z) : bool :=
  match mac with Some hex => negb (bool_decide (mac_parse hex = Some m)) | None => bool_decide (m = ap) end.

Lemma forget_refusals cfg hex ap w : lc_pair_read_ap_mac cfg w = Some ap ->
  (mac_parse hex = None -> lc_peers_forget cfg (Some hex) w = (-1, w)) /\ (mac_parse hex = Some ap -> lc_peers_forget cfg (Some hex) w = (-2, w)).
Proof.
  intros Ha; split; intros Hp; unfold lc_peers_forget; rewrite bind_run; cbn [gets fst snd]; rewrite Hp; [done|].
  by rewrite Ha; cbn [is_some]; rewrite bool_decide_true.
Qed.

(** C19. Multi-bind on the ground.  The remembered list is always duplicate-free,
    well-formed and within the chip's candidate table, newest first: a freshly
    paired air unit goes in front of the others, which keep their order, and
    only the oldest entry of a full list makes room (or, when the file cannot be
    written, the list stays as it is).  A forget leaves exactly what was not
    asked for, in its order, reports how many it took, and never takes the
    current unit.  What the chip is handed is the current unit, then the other
    remembered ones in their order, as many as its table holds. *)
Theorem air_units_remembered cfg w ap :
  lc_pair_read_ap_mac cfg w = Some ap ->
  let load := lc_peers_load cfg BB_CONFIG_MAX_SLOT_CANDIDATE in
  peers_ok BB_CONFIG_MAX_SLOT_CANDIDATE (load w) /\
  (forall r w', lc_peers_note_ap_mac cfg w = (r, w') ->
     (load w' = load w /\ (ap ∈ load w \/ r = -1)) \/
     (~ (ap ∈ load w) /\ load w' = ap :: ztake (BB_CONFIG_MAX_SLOT_CANDIDATE - 1) (load w))) /\
  (forall mac r w', lc_peers_forget cfg mac w = (r, w') ->
     (ap ∈ load w -> ap ∈ load w') /\
     (forall hex, mac = Some hex -> (mac_parse hex = None -> r = -1) /\ (mac_parse hex = Some ap -> r = -2)) /\
     if 0 <? r then r = zlen (load w) - zlen (load w') /\ load w' = filter (kept_after mac ap) (load w)
     else load w' = load w) /\
  (let macs := peers_effective cfg BB_CONFIG_MAX_SLOT_CANDIDATE w in
   peers_ok BB_CONFIG_MAX_SLOT_CANDIDATE macs /\
   macs = ztake BB_CONFIG_MAX_SLOT_CANDIDATE (ap :: filter (fun m => m <> ap) (load w))).
Proof.
  intros Ha; cbv zeta; pose proof (candidates_room cfg w) as Hroom; split; [done|]; split; [|split; [|split]].
  - intros r w' E; destruct (note_effect cfg w ap r w' Ha E) as [[El [[_ Hi]|[-> _]]]|[Hi El]]; [left; auto..|right].
    split; [done|]; rewrite El; apply remember_eq, Hroom.
  - intros mac r w' E; pose proof (forget_effect cfg mac w r w' E) as He; cbv zeta in He.
    assert (Hc : forall hex, mac = Some hex -> (mac_parse hex = None -> r = -1) /\ (mac_parse hex = Some ap -> r = -2)).
    { intros hex ->; destruct (forget_refusals cfg hex ap w Ha) as [R1 R2]; split; intros Hp; [rewrite R1 in E by done|rewrite R2 in E by done]; by injection E as <- _. }
    destruct (0 <? r); [|by rewrite He]; destruct He as (target & El & Hr & Hm & Ht).
    assert (Hk : forall m, negb (forget_drops (Some ap) target m) = kept_after mac ap m).
    { intros m; unfold forget_drops, kept_after; destruct mac as [hex|]; [destruct Hm as [-> Hm]|subst target; rewrite negb_involutive].
      - destruct target as [t|]; [|done]; f_equal; apply bool_decide_ext; split; congruence.
      - apply bool_decide_ext; split; congruence. }
    assert (Hf : lc_peers_load cfg BB_CONFIG_MAX_SLOT_CANDIDATE w' = filter (kept_after mac ap) (lc_peers_load cfg BB_CONFIG_MAX_SLOT_CANDIDATE w))
      by (rewrite El, Ha; apply list_filter_iff; intros m; by rewrite Hk).
    split_and!; try done; intros Hi; rewrite Hf; apply list_elem_of_filter; split; [|done].
    unfold kept_after; destruct mac as [hex|]; [destruct Hm as [-> _]; by rewrite bool_decide_false by (by apply Ht)|by rewrite bool_decide_true].
  - apply candidates_ok.
  - by apply candidates_eq.
Qed.
End peers.

(** ** The paired peer *)

(** What the daemon relies on of cJSON: an item set under an object that
    exists is found there, and a printed tree parses back. *)
Class CJsonLaws `{CJson} := {
  json_get_set j path key v : is_some (json_get j path) = true -> json_get (cJSON_SetAt j (path ++ [key]) v) (path ++ [key]) = Some v;
  json_parse_print j text : cJSON_Print j = Some text -> cJSON_Parse text = Some j;
  json_string s : cJSON_valuestring (cJSON_CreateString s) = Some s;
  json_array1 j : cJSON_GetArrayItem0 (cJSON_Array1 j) = Some j
}.

Section pairing.
Context {W : Type} `{LcFs W} `{!LcFsLaws W} `{LcSdk W} `{CJson} `{!CJsonLaws}.
Implicit Types w : W.
Context (Hsdk : forall r (w : W) p, fs_read p (bb_set r w).2 = fs_read p w).

Lemma loose_mac_hex m : mac_ok m -> loose_mac (mac_hex m) = m.
Proof.
  intros [Hl Hb]; destruct m as [|a [|b [|c [|d [|]]]]]; try done; unfold bytes_ok in Hb; rewrite !list.Forall_cons in Hb.
  destruct Hb as (Ha & Hb & Hc & Hd & _); unfold loose_mac, mac_hex; cbn [flat_map].
  change (seqZ 0 BB_MAC_LEN) with [0; 1; 2; 3]; cbn [map]; set (rest := fmt_02x d ++ []).
  change (zdrop (0 * 2) ?l) with l; change (zdrop (1 * 2) (fmt_02x a ++ ?l)) with l.
  change (zdrop (2 * 2) (fmt_02x a ++ fmt_02x b ++ ?l)) with l; change (zdrop (3 * 2) (fmt_02x a ++ fmt_02x b ++ fmt_02x c ++ ?l)) with l.
  unfold rest; rewrite !scan_x2_byte by done; unfold byte_ok in *; by rewrite !u8_id by lia.
Qed.

(** The path under which [lc_pair_persist] leaves the MAC is the one the next
    start reads, when the section has the key ["slot"] (air side). *)
Lemma persist_edit_read root slot is_ap m root' :
  mac_ok m -> persist_edit root slot is_ap (mac_hex m) = Some root' ->
  (is_ap = true -> is_some (json_get root (basic_path true ++ [chars "candidate"; chars "slot"])) = true) ->
  known_mac_hex root' is_ap = Some (mac_hex m).
Proof.
  intros Hm He Hslot; assert (Hne : mac_hex m <> []) by (intros E; apply (f_equal length) in E; by rewrite length_mac_hex in E).
  unfold persist_edit in He; apply bind_Some in He as (sec & Hsec & He); unfold known_mac_hex; destruct is_ap.
  - specialize (Hslot eq_refl).
    assert (Hcand : is_some (json_get root (basic_path true ++ [chars "candidate"])) = true).
    { assert (Hsplit : forall p q j, is_some (json_get j (p ++ q)) = true -> is_some (json_get j p) = true).
      { induction p as [|k p IH]; intros q j; [done|]; cbn [app json_get].
        destruct (cJSON_GetObjectItem j k) as [j'|]; cbn; [apply IH|done]. }
      apply (Hsplit _ [chars "slot"]); by rewrite <- app_assoc. }
    destruct (json_get root (basic_path true ++ [chars "candidate"])) as [cand|] eqn:Ec; [|done].
    assert (Hp : basic_path true ++ [chars "candidate"; chars "slot"] = (basic_path true ++ [chars "candidate"]) ++ [chars "slot"]) by reflexivity.
    cbv beta iota zeta in He; rewrite Hp in *; rewrite Hslot in He; apply (inj Some) in He; rewrite <- He.
    rewrite json_get_set by (by rewrite Ec); cbn; rewrite json_array1; cbn; rewrite json_string; cbn; by rewrite decide_False.
  - cbv beta iota in He; apply (inj Some) in He; rewrite <- He; rewrite json_get_set by (by rewrite Hsec); cbn; rewrite json_string; cbn; by rewrite decide_False.
Qed.

Lemma persist_written cfg hex text w w' :
  zlen cfg <= 255 -> persist_write cfg hex text w = (0, w') -> fs_read cfg w' = Some text.
Proof.
  intros Hz; unfold persist_write; rewrite bind_run; destruct (fs_write _ text w) as [[|] w1] eqn:E1; cbn [fst snd negb]; [|by intros [=]].
  rewrite bind_run; destruct (fs_rename _ cfg w1) as [[|] w2] eqn:E2; cbn [fst snd negb]; [|by intros [=]].
  rewrite bind_run; destruct (fs_write _ (hex ++ [10]) w2) as [ok w3] eqn:E3; cbn; intros [= <-].
  rewrite (fs_write_other _ _ _ _ _ _ E3).
  - rewrite (fs_rename_read _ _ _ _ E2); by apply (fs_write_read _ _ _ _ E1).
  - intros E; apply (f_equal zlen) in E; unfold snprintf_cut in E.
    rewrite ztake_all in E by (rewrite zlen_app; change (zlen str_paired) with 7; lia).
    rewrite zlen_app in E; change (zlen str_paired) with 7 in E; lia.
Qed.

(** A pair survives the restart: when [lc_pair_persist] returns 0, the next
    start hands the chip that very MAC -- on the ground it is also the current
    air unit of the multi-bind list. *)
Theorem pair_survives_restart cfg slot is_ap m w w' root :
  zlen cfg <= 255 -> mac_ok m -> read_json cfg w = Some root ->
  (is_ap = true -> is_some (json_get root (basic_path true ++ [chars "candidate"; chars "slot"])) = true) ->
  lc_pair_persist cfg slot is_ap m w = (0, w') ->
  lc_pair_apply_known_candidate cfg is_ap w'
    = (if is_ap then bb_set (BB_SET_CANDIDATES 0 [m])
       else ret ← bb_set (BB_SET_AP_MAC m); _ ← lc_peers_push cfg; mret ret) w' /\
  (is_ap = false -> lc_pair_read_ap_mac cfg w' = Some m).
Proof.
  intros Hz Hm Hroot Hslot; unfold lc_pair_persist; rewrite bind_run; cbn [gets fst snd]; rewrite Hroot; cbn [mbind option_bind].
  destruct (persist_edit root slot is_ap (mac_hex m)) as [root'|] eqn:Ee; cbn [mbind option_bind]; [|by intros [=]].
  destruct (cJSON_Print root') as [text|] eqn:Et; [|by intros [=]]; rewrite bind_run.
  destruct (persist_write cfg (mac_hex m) text w) as [ret w1] eqn:Ew; cbn [fst snd].
  destruct (ret =? -2) eqn:E2; [by intros [=]|]; rewrite bind_run; cbn; intros [= -> <-].
  pose proof (persist_written _ _ _ _ _ Hz Ew) as Hr; set (w2 := (bb_set _ w1).2).
  assert (Hj : read_json cfg w2 = Some root').
  { unfold read_json, w2; rewrite Hsdk, Hr; cbn; by apply json_parse_print. }
  pose proof (persist_edit_read _ _ _ _ _ Hm Ee Hslot) as Hk; split.
  - unfold lc_pair_apply_known_candidate; rewrite bind_run; cbn [gets fst snd]; rewrite Hj; cbn [mbind option_bind]; rewrite Hk.
    assert (zlen (mac_hex m) = 8) as -> by (unfold zlen; by rewrite length_mac_hex); cbn [Z.ltb Z.compare].
    rewrite loose_mac_hex by done; by destruct is_ap.
  - intros ->; unfold lc_pair_read_ap_mac; rewrite Hj; cbn [mbind option_bind]; unfold known_mac_hex in Hk.
    apply bind_Some in Hk as (item & -> & Hk); cbn [mbind option_bind]; apply bind_Some in Hk as (text' & Hv & Hk).
    rewrite Hv; cbn [mbind option_bind]; destruct (decide (text' = [])); [done|]; injection Hk as ->; by apply mac_parse_hex.
Qed.
End pairing.
