(* ===== verification/LcHttp.v ===== *)
(** The daemon's HTTP server, [lifecycled/lifecycle_http.c]: reading a request,
    the query string, the endpoints over the mailboxes and the status of
    [lifecycle.c], and the replies' JSON text.

    In [js] the backquote stands for the quotation mark. *)

From Stdlib Require Import String.
From S2P Require Import Prelude CtrlMsg Monad Double LcText LcTuning LcPair LcConfig Lifecycle LcTick.
#[local] Open Scope Z_scope.

Definition js (s : string) : list Z := map (fun c => if c =? 0x60 then 0x22 else c) (chars s).

Definition HTTP_MAX_REQ : Z := 4096.
Definition HTTP_MAX_QUERY : Z := 512.
Definition HTTP_MAX_ARGV : Z := 24.

(** The bytes up to the first NUL: what C reads as a string. *)
Fixpoint cstr (s : list Z) : list Z :=
  match s with
  | c :: s => if c =? 0 then [] else c :: cstr s
  | [] => []
  end.

(** [strchr]: what is before the first [c] and what is behind it. *)
Fixpoint cut_at (c : Z) (s : list Z) : option (list Z * list Z) :=
  match s with
  | [] => None
  | b :: s => if b =? c then Some ([], s) else '(x, y) ← cut_at c s; Some (b :: x, y)
  end.

Definition before (c : Z) (s : list Z) : list Z := match cut_at c s with Some (x, _) => x | None => s end.

(** ** The query string *)

Definition hex_nibble (c : Z) : Z :=
  if (0x30 <=? c) && (c <=? 0x39) then c - 0x30
  else if (0x61 <=? c) && (c <=? 0x66) then c - 0x61 + 10
  else if (0x41 <=? c) && (c <=? 0x46) then c - 0x41 + 10
  else -1.

(** The value at [v], decoded, in a buffer with room for [room] characters. *)
Fixpoint decode_value (room : nat) (v : list Z) : list Z :=
  match room, v with
  | S room, c :: v' =>
      if c =? 0x26 then []
      else if c =? 0x2b then 0x20 :: decode_value room v'
      else if c =? 0x25 then
        match v' with
        | h :: l :: v'' =>
            if (0 <=? hex_nibble h) && (0 <=? hex_nibble l) then Z.lor (Z.shiftl (hex_nibble h) 4) (hex_nibble l) :: decode_value room v''
            else c :: decode_value room v'
        | _ => c :: decode_value room v'
        end
      else c :: decode_value room v'
  | _, _ => []
  end.

(** [strncmp(q, key, klen) == 0] and what follows the key. *)
Fixpoint after_key (key q : list Z) : option (list Z) :=
  match key, q with
  | [], _ => Some q
  | k :: key, c :: q => if k =? c then after_key key q else None
  | _, [] => None
  end.

Fixpoint param_loop (fuel : nat) (q key : list Z) (room : nat) : option (list Z) :=
  match fuel, q with
  | S fuel, c :: q' =>
      if c =? 0x26 then param_loop fuel q' key room
      else
        match after_key key q with
        | Some [] => Some []
        | Some (d :: v) =>
            if d =? 0x3d then Some (decode_value room v)
            else if d =? 0x26 then Some (decode_value room (d :: v))
            else match cut_at 0x26 q with Some (_, rest) => param_loop fuel rest key room | None => None end
        | None => match cut_at 0x26 q with Some (_, rest) => param_loop fuel rest key room | None => None end
        end
  | _, _ => None
  end.

(** [None] for -1; the value as the C string the callers read. *)
Definition query_param (query key : list Z) (out_sz : Z) : option (list Z) :=
  cstr <$> param_loop (S (List.length query)) query key (Z.to_nat (out_sz - 1)).

Definition query_param_int (query key : list Z) : option Z :=
  buf ← query_param query key 32;
  '(v, _) ← strtol10 buf;
  Some (s32 v).

(** ** JSON text *)

Fixpoint json_escape_loop (room : Z) (s : list Z) : list Z :=
  match s with
  | [] => []
  | c :: s =>
      if 2 <? room then
        if c =? 0x22 then 0x5c :: 0x22 :: json_escape_loop (room - 2) s
        else if c =? 0x5c then 0x5c :: 0x5c :: json_escape_loop (room - 2) s
        else if c =? 0x0a then 0x5c :: 0x6e :: json_escape_loop (room - 2) s
        else if c =? 0x0d then 0x5c :: 0x72 :: json_escape_loop (room - 2) s
        else if c =? 0x09 then 0x5c :: 0x74 :: json_escape_loop (room - 2) s
        else if 0x20 <=? c then c :: json_escape_loop (room - 1) s
        else json_escape_loop room s
      else []
  end.

(** [i + 2 < out_sz], with [room = out_sz - i]. *)
Definition json_escape (s : list Z) (out_sz : Z) : list Z := json_escape_loop out_sz (cstr s).

(** ** Replies *)

Record reply := mk_reply { r_status : Z; r_text : list Z; r_type : list Z; r_body : list Z }.

Definition send_json (status : Z) (text : string) (json : list Z) : reply := mk_reply status (chars text) (chars "application/json") json.
Definition send_html (html : list Z) : reply := mk_reply 200 (chars "OK") (chars "text/html; charset=utf-8") html.
Definition bad_request (json : string) : reply := send_json 400 "Bad Request" (js json).
Definition ok_json (json : list Z) : reply := send_json 200 "OK" json.
Definition accepted (json : list Z) : reply := send_json 202 "Accepted" json.

Definition crlf : list Z := [13; 10].
Definition response_header (r : reply) : list Z :=
  snprintf_cut 256 (chars "HTTP/1.0 " ++ fmt_dec (r_status r) ++ [0x20] ++ r_text r ++ crlf ++ chars "Content-Type: " ++ r_type r ++ crlf ++
    chars "Content-Length: " ++ fmt_dec (zlen (r_body r)) ++ crlf ++ chars "Connection: close" ++ crlf ++ crlf).

(** The sockets (a call that a signal interrupts is made again there), the link
    control tool with its output in a buffer of the given size, the constant
    page, and [printf]'s "%.1f" of [10 * log10(snr / 36.0)]. *)
Class HttpIo (W : Type) := {
  http_read : Z -> W -> list Z * W;
  http_send : list Z -> W -> Z * W;
  run_linkctl : list (list Z) -> Z -> W -> Z * list Z * W;
  INDEX_HTML : list Z;
  snr_db_text : Z -> list Z
}.

Section replies.
Context {W : Type} `{HttpIo W}.

(** Whether everything was sent; [None]: out of fuel. *)
Fixpoint write_all (fuel : nat) (buf : list Z) : M W (option bool) :=
  match fuel with
  | O => mret None
  | S fuel =>
      if zlen buf =? 0 then mret (Some true)
      else
        n ← http_send buf;
        if n <=? 0 then mret (Some false) else write_all fuel (zdrop n buf)
  end.

Definition send_response (r : reply) : M W unit :=
  let header := response_header r in
  ok ← write_all (S (List.length header)) header;
  if negb (default false ok) then mret tt
  else _ ← write_all (S (List.length (r_body r))) (r_body r); mret tt.

(** ** Requests *)

Fixpoint read_loop (fuel : nat) (buf : list Z) : M W (list Z) :=
  match fuel with
  | O => mret buf
  | S fuel =>
      if zlen buf <? HTTP_MAX_REQ - 1 then
        data ← http_read (HTTP_MAX_REQ - 1 - zlen buf);
        if zlen data =? 0 then mret buf
        else
          let buf := buf ++ data in
          if existsb (Z.eqb 10) buf then mret buf else read_loop fuel buf
      else mret buf
  end.
End replies.

(** Method, path and query of the request line in [buf]. *)
Definition parse_request (buf : list Z) : option (list Z * list Z * list Z) :=
  if zlen buf <=? 0 then None
  else
    let line := before 13 (before 10 (cstr buf)) in
    '(method, uri) ← cut_at 0x20 line;
    let uri := before 0x20 uri in
    let '(path, query) := match cut_at 0x3f uri with Some (p, q) => (p, snprintf_cut HTTP_MAX_QUERY q) | None => (uri, []) end in
    Some (ztake 7 method, snprintf_cut 256 path, query).

(** ** Fields of the replies *)

Definition or_null (c : bool) (text : list Z) : list Z := if c then text else js "null".
Definition json_bool (b : bool) : list Z := if b then js "true" else js "false".
Definition quoted (s : string) : list Z := js "`" ++ chars s ++ js "`".

Section fields.
Context {W : Type} `{HttpIo W} (cfg : lc_cfg).
Implicit Types x : lc_ctx.

Definition format_rf_temp x : list Z :=
  snprintf_cut 48 (or_null (rf_temp_valid x) (fmt_dec (Z.quot (rf_temp_c10 x) 10) ++ chars "." ++ fmt_dec (Z.rem (rf_temp_c10 x) 10))).

Definition format_batt_v (batt_mv : Z) : list Z :=
  let cv := Z.quot (batt_mv + 5) 10 in
  snprintf_cut 24 (or_null (negb (batt_mv <? 0)) (fmt_dec (Z.quot cv 100) ++ chars "." ++ fmt_02d (Z.rem cv 100))).

Definition format_channel (chan : Z) : list Z :=
  snprintf_cut 16 (if chan =? LC_CHANNEL_AUTO then quoted "auto" else or_null (negb (chan =? LC_CHANNEL_NONE)) (fmt_dec chan)).

Definition format_channel_fields x : list Z :=
  snprintf_cut 96 (js "`channel`:" ++ format_channel (channel x) ++ js ",`chan_mode`:" ++
    (if chan_auto x <? 0 then js "null" else if chan_auto x =? 0 then quoted "manual" else quoted "auto") ++
    js ",`work_chan`:" ++ snprintf_cut 16 (or_null (0 <=? work_chan x) (fmt_dec (work_chan x)))).

Definition standby_text x : list Z := if standby_dbm cfg <? 0 then js "null" else json_bool (standby x).

Definition format_power_fields x : list Z :=
  let level := snprintf_cut 16 (if power x =? LC_POWER_AUTO then quoted "auto" else or_null (negb (power x =? LC_POWER_NONE)) (fmt_dec (power x))) in
  let dbm := snprintf_cut 16 (or_null (0 <=? power_dbm x) (fmt_dec (power_dbm x))) in
  snprintf_cut 256 (js "`power`:" ++ level ++ js ",`power_dbm`:" ++ dbm ++ js ",`power_levels`:[" ++
    lc_power_levels_json (is_ap cfg) (max_power cfg) 96 ++ js "],`armed`:" ++ json_bool (negb (armed x =? 0)) ++
    js ",`standby`:" ++ standby_text x).

(** [printf]'s "%.1f" of [c10 / 10.0], which prints the tenths exactly. *)
Definition fmt_tenths (c10 : Z) : list Z :=
  (if c10 <? 0 then [0x2d] else []) ++ fmt_dec (Z.abs c10 / 10) ++ [0x2e] ++ fmt_dec (Z.abs c10 mod 10).

Definition format_heat_fields x : list Z :=
  snprintf_cut 64 (js "`soc_temp_c`:" ++ snprintf_cut 16 (or_null (soc_temp_valid x) (fmt_tenths (soc_temp_c10 x))) ++ js ",`overheat`:" ++
    (if overheat_c cfg <? 0 then js "null" else json_bool (overheat x))).

Definition distance_text x : list Z := snprintf_cut 16 (or_null (0 <=? distance_m x) (fmt_dec (distance_m x))).

Definition role_str : list Z := if is_ap cfg then quoted "ap" else quoted "dev".
Definition state_str x : list Z :=
  match state x with LC_STATE_CONNECTED => quoted "connected" | LC_STATE_IDLE => quoted "idle" | LC_STATE_INIT => quoted "init" end.

Definition format_link_side (q : lc_link_side) : list Z :=
  let snr_db := snprintf_cut 16 (or_null (0 <? ls_snr q) (snr_db_text (ls_snr q))) in
  snprintf_cut 288 (js "{`snr`:" ++ fmt_dec (ls_snr q) ++ js ",`snr_db`:" ++ snr_db ++ js ",`ldpc_err`:" ++ fmt_dec (ls_ldpc_err q) ++
    js ",`gain`:[" ++ fmt_dec (ls_gain_a q) ++ js "," ++ fmt_dec (ls_gain_b q) ++ js "],`tx_mcs`:" ++ fmt_dec (ls_tx_mcs q) ++
    js ",`tx_chan`:" ++ fmt_dec (ls_tx_chan q) ++ js ",`tx_power`:" ++ fmt_dec (ls_tx_power q) ++ js ",`tx_freq_khz`:" ++
    fmt_dec (ls_tx_freq_khz q) ++ js "}").

Definition format_quality x : list Z :=
  snprintf_cut 640 (or_null (quality_valid x)
    (js "{`signal_level`:" ++ fmt_dec (signal_level x) ++ js ",`self`:" ++ format_link_side (quality_self x) ++ js ",`peer`:" ++
     format_link_side (quality_peer x) ++ js "}")).

(** The open ports: the text behind the brace and what [n] has come to. *)
Definition ports_size : Z := Z.of_nat LC_SOCK_PORTS * 80 + 4.
Definition port_step x (st : list Z * Z) (p : nat) : list Z * Z :=
  if Z.testbit (sock_port_bmp x) (Z.of_nat p) then
    snprintf_at ports_size st ((if 1 <? snd st then js "," else []) ++ js "`" ++ fmt_dec (Z.of_nat p) ++ js "`:{`rx_bytes`:" ++
      fmt_dec (nth p (sock_rx_bytes x) 0) ++ js ",`tx_bytes`:" ++ fmt_dec (nth p (sock_tx_bytes x) 0) ++ js "}")
  else st.
Definition format_ports x : list Z :=
  let st := fold_left (port_step x) (seq 0 LC_SOCK_PORTS) (js "{", 1) in
  fst (snprintf_at ports_size st (js "}")).

(** The channel table in MHz. *)
Definition table_size : Z := LC_MAX_CHANNELS * 6 + 1.
Fixpoint table_loop (khz : list Z) (st : list Z * Z) (first : bool) : list Z * Z :=
  match khz with
  | [] => st
  | f :: khz =>
      if snd st <? table_size
      then table_loop khz (snprintf_at table_size st ((if first then [] else js ",") ++ fmt_dec (f / 1000))) false
      else st
  end.
Definition format_table x : list Z := fst (table_loop (chan_table_khz x) ([], 0) true).
End fields.

(** ** Endpoints *)

Definition LINKCTL_COMMANDS : list (list Z) :=
  chars <$> ["status"; "bandwidth"; "channel-mode"; "channel"; "mcs-mode"; "mcs"; "mcs-range"; "mcs-table"; "power-mode"; "power"; "freq";
             "force-close-socket"; "force-close-all"; "rf-temp"; "batt"]%string.
Definition linkctl_command_valid (cmd : list Z) : bool := existsb (fun c => bool_decide (c = cmd)) LINKCTL_COMMANDS.

(** [strtok_r(.., " \t", ..)], all of it. *)
Fixpoint tokens (s cur : list Z) : list (list Z) :=
  let flush := match cur with [] => [] | _ => [rev cur] end in
  match s with
  | [] => flush
  | c :: s => if (c =? 0x20) || (c =? 9) then flush ++ tokens s [] else tokens s (c :: cur)
  end.

Section endpoints.
Context {W : Type} `{LcFs W} `{LcSdk W} `{CJson} `{LcPrograms W} `{HttpIo W} (cfg : lc_cfg).

#[local] Abbreviation Mr := (M (lst W) reply).

(** A mailbox function, under its lock. *)
Definition request (f : lc_ctx -> Z * lc_ctx) : M (lst W) Z :=
  fun s => let '(rc, x) := f (L s) in (rc, mk_lst x (G s) (V s) (Wd s)).

Definition handle_linkctl (query : list Z) : Mr :=
  let cmd := query_param query (chars "cmd") 32 in
  match cmd with
  | Some cmd =>
      if linkctl_command_valid cmd then
        let args := default [] (query_param query (chars "args") HTTP_MAX_QUERY) in
        let argv := chars "ar8030-linkctl" :: cmd :: take (Z.to_nat (HTTP_MAX_ARGV - 3)) (tokens args []) in
        r ← sys (run_linkctl argv 2048);
        let '(rc, out) := r in
        let json := snprintf_cut 4200 (js "{`ok`:" ++ json_bool (rc =? 0) ++ js ",`exit_code`:" ++ fmt_dec rc ++ js ",`output`:`" ++
                                       json_escape out 4096 ++ js "`}") in
        mret (if rc =? 0 then ok_json json else send_json 502 "Bad Gateway" json)
      else mret (bad_request "{`ok`:false,`error`:`missing or unknown 'cmd' -- see the README's HTTP control API section for the full list`}")
  | None => mret (bad_request "{`ok`:false,`error`:`missing or unknown 'cmd' -- see the README's HTTP control API section for the full list`}")
  end.

Definition handle_status : Mr :=
  st ← gets (lifecycle_get_status cfg);
  r ← sys (run_linkctl [chars "ar8030-linkctl"; chars "status"] 4096);
  let '(rc, out) := r in
  let x := st_ctx st in
  mret (ok_json (snprintf_cut 9050
    (js "{`ok`:true,`role`:" ++ role_str cfg ++ js ",`state`:" ++ state_str x ++ js ",`connected_slot`:" ++ fmt_dec (connected_slot x) ++
     js ",`bandwidth_mhz`:" ++ fmt_dec (last_bandwidth x) ++ js "," ++ format_channel_fields x ++ js "," ++ format_power_fields cfg x ++
     js "," ++ format_heat_fields cfg x ++ js ",`distance_m`:" ++ distance_text x ++ js ",`paired`:" ++ json_bool (st_paired st) ++
     js ",`rf_temp_c`:" ++ format_rf_temp x ++ js ",`batt_v`:" ++ format_batt_v (st_batt_mv st) ++ js ",`linkctl_exit_code`:" ++ fmt_dec rc ++
     js ",`linkctl_status`:`" ++ json_escape out 8192 ++ js "`}"))).

Definition handle_link : Mr :=
  x ← gets L;
  mret (ok_json (snprintf_cut (Z.of_nat LC_SOCK_PORTS * 80 + 832)
    (js "{`ok`:true,`role`:" ++ role_str cfg ++ js ",`state`:" ++ state_str x ++ js ",`connected_slot`:" ++ fmt_dec (connected_slot x) ++
     js ",`distance_m`:" ++ distance_text x ++ js ",`ports`:" ++ format_ports x ++ js ",`quality`:" ++ format_quality x ++ js "}"))).

Definition handle_rf_temp : Mr :=
  x ← gets L;
  mret (ok_json (snprintf_cut 160
    (js "{`ok`:true,`enabled`:" ++ json_bool (0 <=? rf_temp_adc cfg) ++ js ",`adc_channel`:" ++ fmt_dec (rf_temp_adc cfg) ++
     js ",`rf_temp_c`:" ++ format_rf_temp x ++ js ",`adc_mv`:" ++ fmt_dec (rf_temp_mv x) ++ js "}"))).

Definition handle_batt : Mr :=
  st ← gets (lifecycle_get_status cfg);
  mret (ok_json (snprintf_cut 224
    (js "{`ok`:true,`enabled`:" ++ json_bool (0 <=? batt_adc cfg) ++ js ",`adc_channel`:" ++ fmt_dec (batt_adc cfg) ++ js ",`scale`:" ++
     fmt_dec (batt_scale cfg) ++ js ",`offset_mv`:" ++ fmt_dec (batt_offset_mv cfg) ++ js ",`batt_v`:" ++ format_batt_v (st_batt_mv st) ++
     js ",`batt_mv`:" ++ fmt_dec (st_batt_mv st) ++ js ",`adc_mv`:" ++ fmt_dec (batt_adc_mv (st_ctx st)) ++ js "}"))).

Definition handle_pair : Mr :=
  r ← sys (lc_pair_run (cfg_path cfg));
  let '(rc, slot, _) := r in
  mret (if rc =? 0 then ok_json (snprintf_cut 128 (js "{`ok`:true,`slot`:" ++ fmt_dec slot ++ js "}"))
        else send_json 502 "Bad Gateway" (js "{`ok`:false,`error`:`pairing failed, see syslog for ar8030-pair's own output`}")).

(** [lc_peers_json] ([lifecycle_pair.c]): the text, and whether it fits. *)
Definition peers_size : Z := 16 + BB_CONFIG_MAX_SLOT_CANDIDATE * 12 + 96.
Fixpoint peers_json_loop (out_sz : Z) (tab : list (list Z)) (first : bool) (st : list Z * Z) : list Z * Z :=
  match tab with
  | [] => st
  | mac :: tab =>
      if snd st <? out_sz
      then peers_json_loop out_sz tab false (snprintf_at out_sz st ((if first then [] else js ",") ++ js "`" ++ mac_hex mac ++ js "`"))
      else st
  end.
Definition lc_peers_json (path : list Z) (out_sz : Z) (w : W) : bool * list Z :=
  let ap := lc_pair_read_ap_mac path w in
  let current := match ap with Some mac => js "`" ++ mac_hex mac ++ js "`" | None => js "null" end in
  let st := snprintf_at out_sz ([], 0) (js "{`ok`:true,`current`:" ++ current ++ js ",`max`:" ++ fmt_dec BB_CONFIG_MAX_SLOT_CANDIDATE ++ js ",`peers`:[") in
  let st := peers_json_loop out_sz (peers_effective path BB_CONFIG_MAX_SLOT_CANDIDATE w) true st in
  let out := if snd st <? out_sz then fst (snprintf_at out_sz st (js "]}")) else fst st in
  (snd st <? out_sz - 2, out).

Definition not_dev : reply := send_json 404 "Not Found" (js "{`ok`:false,`error`:`multi-bind is a ground (dev) feature`}").

Definition handle_peers : Mr :=
  if bool_decide (role cfg <> LC_ROLE_DEV) || bool_decide (cfg_path cfg = []) then mret not_dev
  else
    r ← gets (fun s : lst W => lc_peers_json (cfg_path cfg) peers_size (Wd s));
    let '(fits, json) := r in
    mret (if (fits : bool) then ok_json json
          else send_json 500 "Internal Server Error" (js "{`ok`:false,`error`:`peer list too long`}")).

Definition handle_peers_forget (query : list Z) : Mr :=
  let mac := query_param query (chars "mac") 16 in
  let want_all := match query_param query (chars "all") 4 with Some all => bool_decide (all = chars "1") | None => false end in
  if Bool.eqb (is_some mac) want_all then mret (bad_request "{`ok`:false,`error`:`pass either mac=<8 hex digits> or all=1`}")
  else
    w ← gets Wd;
    rc ← request (lifecycle_request_forget_peer cfg mac w);
    mret (if rc =? 0 then accepted (js "{`ok`:true}")
          else if rc =? -1 then bad_request "{`ok`:false,`error`:`mac must be 8 hex digits`}"
          else if rc =? -2 then send_json 409 "Conflict" (js "{`ok`:false,`error`:`that is the current air unit; bind another to replace it`}")
          else if rc =? -3 then send_json 404 "Not Found" (js "{`ok`:false,`error`:`not a remembered air unit`}")
          else not_dev).

Definition handle_bandwidth (query : list Z) : Mr :=
  match query_param_int query (chars "mhz") with
  | None => mret (bad_request "{`ok`:false,`error`:`missing 'mhz' query parameter`}")
  | Some mhz =>
      rc ← request (lifecycle_request_bandwidth mhz);
      mret (if negb (rc =? 0) then bad_request "{`ok`:false,`error`:`invalid bandwidth, must be one of 1/2/5/10/20/40`}"
            else accepted (snprintf_cut 96 (js "{`ok`:true,`queued_mhz`:" ++ fmt_dec mhz ++ js "}")))
  end.

Definition is_post (method : list Z) : bool := bool_decide (method = chars "POST").

Definition handle_channel (method query : list Z) : Mr :=
  if is_post method then
    let bad := bad_request "{`ok`:false,`error`:`'chan' must be a channel index or 'auto'`}" in
    match (arg ← query_param query (chars "chan") 16; lc_channel_parse arg) with
    | None => mret bad
    | Some chan =>
        if chan =? LC_CHANNEL_NONE then mret bad
        else
          rc ← request (lifecycle_request_channel cfg chan);
          mret (if rc =? -2 then send_json 409 "Conflict" (js "{`ok`:false,`error`:`no link: on the dev side a channel change needs a connected peer to retune with (the ap owns the channel on reconnect)`}")
                else if negb (rc =? 0) then bad_request "{`ok`:false,`error`:`invalid channel`}"
                else accepted (snprintf_cut 64 (js "{`ok`:true,`queued`:" ++ format_channel chan ++ js "}")))
    end
  else
    x ← gets L;
    mret (ok_json (snprintf_cut (96 + table_size + 64)
      (js "{`ok`:true," ++ format_channel_fields x ++ js ",`table_mhz`:[" ++ format_table x ++ js "]}"))).

Definition handle_power (method query : list Z) : Mr :=
  if is_post method then
    let levels := lc_power_levels_json (is_ap cfg) (max_power cfg) 96 in
    let bad := send_json 400 "Bad Request" (snprintf_cut 200 (js "{`ok`:false,`error`:`'level' must be one of`,`power_levels`:[" ++ levels ++ js "]}")) in
    match (arg ← query_param query (chars "level") 16; lc_power_parse arg) with
    | None => mret bad
    | Some level =>
        rc ← request (lifecycle_request_power cfg level);
        mret (if negb (rc =? 0) then bad
              else accepted (snprintf_cut 64 (js "{`ok`:true,`queued`:" ++ (if level =? LC_POWER_AUTO then quoted "auto" else fmt_dec level) ++ js "}")))
    end
  else
    x ← gets L;
    mret (ok_json (snprintf_cut 280 (js "{`ok`:true," ++ format_power_fields cfg x ++ js "}"))).

Definition handle_armed (method query : list Z) : Mr :=
  if is_post method then
    let bad := bad_request "{`ok`:false,`error`:`'state' must be 0 or 1`}" in
    match query_param_int query (chars "state") with
    | None => mret bad
    | Some armed =>
        rc ← request (lifecycle_request_armed armed);
        mret (if negb (rc =? 0) then bad else accepted (snprintf_cut 48 (js "{`ok`:true,`queued`:" ++ fmt_dec armed ++ js "}")))
    end
  else
    x ← gets L;
    let dbm := snprintf_cut 16 (or_null (0 <=? standby_dbm cfg) (fmt_dec (standby_dbm cfg))) in
    let over := snprintf_cut 16 (or_null (0 <=? overheat_c cfg) (fmt_dec (overheat_c cfg))) in
    let resume := snprintf_cut 16 (or_null (0 <=? overheat_c cfg) (fmt_dec (overheat_resume_c cfg))) in
    mret (ok_json (snprintf_cut 256 (js "{`ok`:true,`armed`:" ++ json_bool (negb (armed x =? 0)) ++ js ",`standby`:" ++ standby_text cfg x ++
      js ",`standby_dbm`:" ++ dbm ++ js "," ++ format_heat_fields cfg x ++ js ",`overheat_c`:" ++ over ++ js ",`overheat_resume_c`:" ++ resume ++ js "}"))).

Definition handle_retx_tuning (query : list Z) : Mr :=
  let int (name : string) := query_param_int query (chars name) in
  match int "win"%string, int "busy"%string, int "idle"%string, int "conti_busy"%string, int "conti_idle"%string with
  | Some win, Some busy, Some idle, Some conti_busy, Some conti_idle =>
      rc ← request (lifecycle_request_retx win busy idle conti_busy conti_idle);
      mret (if negb (rc =? 0) then bad_request "{`ok`:false,`error`:`all 5 values must be in range 0-255`}"
            else accepted (snprintf_cut 160 (js "{`ok`:true,`queued`:{`win`:" ++ fmt_dec win ++ js ",`busy`:" ++ fmt_dec busy ++ js ",`idle`:" ++
              fmt_dec idle ++ js ",`conti_busy`:" ++ fmt_dec conti_busy ++ js ",`conti_idle`:" ++ fmt_dec conti_idle ++ js "}}")))
  | _, _, _, _, _ => mret (bad_request "{`ok`:false,`error`:`missing one of win/busy/idle/conti_busy/conti_idle query parameters (all 5 required)`}")
  end.

Definition dispatch (method path query : list Z) : Mr :=
  let at_ (p : string) := bool_decide (path = chars p) in
  let post := is_post method in
  if at_ "/"%string then mret (send_html (@INDEX_HTML W _))
  else if at_ "/api/v1/status"%string then handle_status
  else if at_ "/api/v1/pair"%string && post then handle_pair
  else if at_ "/api/v1/bandwidth"%string && post then handle_bandwidth query
  else if at_ "/api/v1/retx-tuning"%string && post then handle_retx_tuning query
  else if at_ "/api/v1/power"%string then handle_power method query
  else if at_ "/api/v1/armed"%string then handle_armed method query
  else if at_ "/api/v1/channel"%string then handle_channel method query
  else if at_ "/api/v1/link"%string then handle_link
  else if at_ "/api/v1/rf-temp"%string then handle_rf_temp
  else if at_ "/api/v1/batt"%string then handle_batt
  else if at_ "/api/v1/peers"%string then handle_peers
  else if at_ "/api/v1/peers/forget"%string && post then handle_peers_forget query
  else if at_ "/api/v1/linkctl"%string then handle_linkctl query
  else mret (send_json 404 "Not Found" (js "{`ok`:false,`error`:`no such endpoint`}")).

(** One connection of [http_thread_main]. *)
Definition serve : M (lst W) unit :=
  buf ← sys (read_loop (Z.to_nat HTTP_MAX_REQ) []);
  match parse_request buf with
  | None => mret tt
  | Some (method, path, query) =>
      r ← dispatch (cstr method) (cstr path) (cstr query);
      sys (send_response r)
  end.
End endpoints.
