(* ===== verification/LcJson.v ===== *)
(** JSON text for the HTTP server's theorems: a recogniser of RFC 8259's
    grammar over bytes, which reads the text once with the stack of the objects
    and arrays it is in, and the texts of [LcHttp] it accepts as values and as
    the members of an object. *)

From Stdlib Require Import String.
From S2P Require Import Prelude CtrlMsg Monad Double LcText LcTuning LcPair LcConfig LcHttp.
#[local] Open Scope Z_scope.

(** ** The recogniser *)

Inductive jnum := N_minus | N_zero | N_int | N_dot | N_frac | N_e | N_esign | N_exp.

(** What comes next: a value ([J_first]: or the end of an array), a key
    ([J_key_first]: or the end of an object), a colon, what may follow a
    value; or the inside of a string, an escape, a literal, a number. *)
Inductive jmode :=
  | J_value | J_first | J_key | J_key_first | J_colon | J_after
  | J_str (key : bool) | J_esc (key : bool) | J_hex (key : bool) (n : nat)
  | J_lit (rest : list Z) | J_num (n : jnum).

(** The stack: [true] for an object, [false] for an array. *)
Definition jstate : Type := jmode * list bool.

Definition is_ws (c : Z) : bool := (c =? 0x20) || (c =? 9) || (c =? 10) || (c =? 13).

Definition start_value (c : Z) (stk : list bool) : option jstate :=
  if c =? 0x22 then Some (J_str false, stk)
  else if c =? 0x7b then Some (J_key_first, true :: stk)
  else if c =? 0x5b then Some (J_first, false :: stk)
  else if c =? 0x74 then Some (J_lit (chars "rue"), stk)
  else if c =? 0x66 then Some (J_lit (chars "alse"), stk)
  else if c =? 0x6e then Some (J_lit (chars "ull"), stk)
  else if c =? 0x2d then Some (J_num N_minus, stk)
  else if c =? 0x30 then Some (J_num N_zero, stk)
  else if is_digit c then Some (J_num N_int, stk)
  else None.

Definition after_value (c : Z) (stk : list bool) : option jstate :=
  if is_ws c then Some (J_after, stk)
  else
    match stk with
    | true :: outer => if c =? 0x2c then Some (J_key, stk) else if c =? 0x7d then Some (J_after, outer) else None
    | false :: outer => if c =? 0x2c then Some (J_value, stk) else if c =? 0x5d then Some (J_after, outer) else None
    | [] => None
    end.

Definition num_next (n : jnum) (c : Z) : option jnum :=
  let digit n := if is_digit c then Some n else None in
  let frac_exp := if c =? 0x2e then Some N_dot else if (c =? 0x65) || (c =? 0x45) then Some N_e else None in
  match n with
  | N_minus => if c =? 0x30 then Some N_zero else digit N_int
  | N_zero => frac_exp
  | N_int => if is_digit c then Some N_int else frac_exp
  | N_dot => digit N_frac
  | N_frac => if is_digit c then Some N_frac else if (c =? 0x65) || (c =? 0x45) then Some N_e else None
  | N_e => if (c =? 0x2b) || (c =? 0x2d) then Some N_esign else digit N_exp
  | N_esign | N_exp => digit N_exp
  end.

Definition num_final (n : jnum) : bool := match n with N_zero | N_int | N_frac | N_exp => true | _ => false end.

Definition is_escape (c : Z) : bool :=
  existsb (Z.eqb c) [0x22; 0x5c; 0x2f; 0x62; 0x66; 0x6e; 0x72; 0x74].

Definition jstep (st : jstate) (c : Z) : option jstate :=
  let '(mode, stk) := st in
  match mode with
  | J_value => if is_ws c then Some st else start_value c stk
  | J_first => if is_ws c then Some st else if c =? 0x5d then after_value c stk else start_value c stk
  | J_key => if is_ws c then Some st else if c =? 0x22 then Some (J_str true, stk) else None
  | J_key_first => if is_ws c then Some st else if c =? 0x22 then Some (J_str true, stk) else if c =? 0x7d then after_value c stk else None
  | J_colon => if is_ws c then Some st else if c =? 0x3a then Some (J_value, stk) else None
  | J_after => after_value c stk
  | J_str key =>
      if c =? 0x22 then Some (if key then J_colon else J_after, stk)
      else if c =? 0x5c then Some (J_esc key, stk)
      else if 0x20 <=? c then Some st else None
  | J_esc key => if is_escape c then Some (J_str key, stk) else if c =? 0x75 then Some (J_hex key 3, stk) else None
  | J_hex key n =>
      if hex_nibble c <? 0 then None else Some (match n with O => J_str key | S n => J_hex key n end, stk)
  | J_lit rest =>
      match rest with
      | r :: rest => if c =? r then Some (match rest with [] => J_after | _ => J_lit rest end, stk) else None
      | [] => None
      end
  | J_num n =>
      match num_next n c with
      | Some n => Some (J_num n, stk)
      | None => if num_final n then after_value c stk else None
      end
  end.

Fixpoint feed (st : jstate) (s : list Z) : option jstate :=
  match s with
  | [] => Some st
  | c :: s => st ← jstep st c; feed st s
  end.

(** A JSON text. *)
Definition json_text (s : list Z) : bool :=
  match feed (J_value, []) s with
  | Some (J_after, []) => true
  | Some (J_num n, []) => num_final n
  | _ => false
  end.

Example json_text_yes :
  forallb json_text (map js ["{}"; "[]"; "-0.5e+3"; " {`a`:[1,true,{`b`:null}],`\u00e9`:`x\n`} "]%string) = true.
Proof. vm_compute; reflexivity. Qed.
Example json_text_no :
  existsb json_text (map js [""; "01"; "1."; "0.-5"; "[1,]"; "{`a`:1"; "{`a`:}"; "{a:1}"; "`a"; "`\x`"; "true}"; "nul"; "1 2"]%string) = false.
Proof. vm_compute; reflexivity. Qed.

(** ** Values, members and elements *)

Lemma feed_app st a b : feed st (a ++ b) = (st ← feed st a; feed st b).
Proof. revert st; induction a as [|c a IH]; intros st; cbn; [done|]; destruct (jstep st c); cbn; [apply IH|done]. Qed.

Lemma feed_const st a st' b : feed st a = Some st' -> feed st (a ++ b) = feed st' b.
Proof. intros E; by rewrite feed_app, E. Qed.

(** What ends a value inside an object or an array. *)
Definition closes (t : list Z) : bool :=
  match t with c :: _ => (c =? 0x2c) || (c =? 0x7d) || (c =? 0x5d) | [] => false end.
Lemma closes_app a b : closes a = true -> closes (a ++ b) = true.
Proof. by destruct a. Qed.

Definition value (s : list Z) : Prop := forall m stk t, m = J_value \/ m = J_first -> closes t = true -> feed (m, stk) (s ++ t) = feed (J_after, stk) t.

(** One or more members of an object, and the elements of an array. *)
Definition members (s : list Z) : Prop :=
  forall m stk t, m = J_key \/ m = J_key_first -> closes t = true -> feed (m, true :: stk) (s ++ t) = feed (J_after, true :: stk) t.
Definition elements (s : list Z) : Prop := forall stk t, feed (J_first, false :: stk) (s ++ 0x5d :: t) = feed (J_after, stk) t.

(** Text that ends exactly with its value. *)
Lemma value_const s : (forall stk, feed (J_value, stk) s = Some (J_after, stk)) -> (forall stk, feed (J_first, stk) s = Some (J_after, stk)) -> value s.
Proof. intros E1 E2 m stk t [-> | ->] _; by apply feed_const. Qed.

Lemma elements_const s : (forall stk, feed (J_first, false :: stk) (s ++ js "]") = Some (J_after, stk)) -> elements s.
Proof. intros E stk t; specialize (E stk); apply (feed_const _ _ _ t) in E; by rewrite <- app_assoc in E. Qed.

Lemma value_or_null b s : (b = true -> value s) -> value (or_null b s).
Proof. intros Hs; destruct b; [by apply Hs|by apply value_const]. Qed.
Lemma value_bool b : value (json_bool b).
Proof. by destruct b; apply value_const. Qed.

(** *** Numbers *)

Lemma feed_digits n stk ds t :
  Forall is_dec ds -> n = N_int \/ n = N_frac -> feed (J_num n, stk) (ds ++ t) = feed (J_num n, stk) t.
Proof.
  intros Hds Hn; induction Hds as [|d ds Hd _ IH]; cbn [app feed]; [done|].
  assert (is_digit d = true) as Ed by (unfold is_dec, is_digit in *; lia).
  by destruct Hn as [-> | ->]; cbn [jstep num_next]; rewrite Ed; cbn [mbind option_bind].
Qed.

Lemma num_ends n stk t : num_final n = true -> closes t = true -> feed (J_num n, stk) t = feed (J_after, stk) t.
Proof.
  destruct t as [|c t]; [done|]; intros Hn Hc; cbn [feed jstep].
  assert (num_next n c = None) as ->; [|by rewrite Hn].
  cbn in Hc; rewrite !orb_true_iff, !Z.eqb_eq in Hc; destruct n; try done; by destruct Hc as [[-> | ->] | ->].
Qed.

Lemma dec_digits_lead fuel z acc :
  0 < z < 10 ^ Z.of_nat fuel -> exists d ds, dec_digits fuel z acc = d :: ds ++ acc /\ 0x31 <= d <= 0x39 /\ Forall is_dec ds.
Proof.
  revert z acc; induction fuel as [|fuel IH]; intros z acc Hz; [simpl in Hz; lia|]; cbn [dec_digits].
  rewrite Nat2Z.inj_succ, Z.pow_succ_r in Hz by lia; pose proof (Z.div_mod z 10 ltac:(lia)); pose proof (Z.mod_pos_bound z 10 ltac:(lia)).
  destruct (Z.eqb_spec (z / 10) 0) as [E|E].
  - exists (0x30 + z mod 10), []; split_and!; [done|lia|lia|constructor].
  - destruct (IH (z / 10) (0x30 + z mod 10 :: acc)) as (d & ds & -> & Hd & Hds); [lia|].
    exists d, (ds ++ [0x30 + z mod 10]); split_and!; [by rewrite <- app_assoc|lia|lia|].
    apply Forall_app; split; [done|]; apply Forall_singleton; unfold is_dec; lia.
Qed.

(** The modes that may start a number: a value's, or behind the sign. *)
Lemma nat_number m stk z t :
  m = J_value \/ m = J_first \/ m = J_num N_minus -> 0 <= z < 10 ^ 20 ->
  exists n, (n = N_zero \/ n = N_int) /\ feed (m, stk) (dec_digits 20 z [] ++ t) = feed (J_num n, stk) t.
Proof.
  intros Hm Hz; destruct (decide (z = 0)) as [->|Hz0]; [exists N_zero; split; [by left|by destruct Hm as [-> | [-> | ->]]]|].
  destruct (dec_digits_lead 20 z []) as (d & ds & -> & Hd & Hds); [lia|]; exists N_int; split; [by right|].
  rewrite app_nil_r; cbn [app feed]; rewrite <- (feed_digits N_int stk ds t Hds (or_introl eq_refl)).
  assert (E : jstep (m, stk) d = Some (J_num N_int, stk)); [|by rewrite E].
  assert (d = 0x31 \/ d = 0x32 \/ d = 0x33 \/ d = 0x34 \/ d = 0x35 \/ d = 0x36 \/ d = 0x37 \/ d = 0x38 \/ d = 0x39) as Hd' by lia.
  destruct Hm as [-> | [-> | ->]]; by destruct_or! Hd'; subst d.
Qed.

Lemma int_number m stk z t :
  m = J_value \/ m = J_first -> - 10 ^ 20 < z < 10 ^ 20 ->
  exists n, (n = N_zero \/ n = N_int) /\ feed (m, stk) (fmt_dec z ++ t) = feed (J_num n, stk) t.
Proof.
  intros Hm Hz; unfold fmt_dec; destruct (Z.ltb_spec z 0) as [E|E].
  - cbn [app feed]; assert (jstep (m, stk) 0x2d = Some (J_num N_minus, stk)) as -> by (by destruct Hm as [-> | ->]).
    apply nat_number; [tauto|lia].
  - apply nat_number; [tauto|lia].
Qed.

Lemma value_dec z : - 10 ^ 20 < z < 10 ^ 20 -> value (fmt_dec z).
Proof.
  intros Hz m stk t Hm Ht; destruct (int_number m stk z t Hm Hz) as (n & Hn & ->); apply num_ends; [by destruct Hn as [-> | ->]|done].
Qed.

(** A number with decimals, and behind a sign. *)
Lemma number_decimals n stk ds t :
  n = N_zero \/ n = N_int -> Forall is_dec ds -> ds <> [] -> closes t = true -> feed (J_num n, stk) (0x2e :: ds ++ t) = feed (J_after, stk) t.
Proof.
  intros Hn Hds Hne Ht; destruct ds as [|d ds]; [done|]; pose proof (Forall_cons_1 _ _ _ Hds) as [Hd Hds'].
  assert (is_digit d = true) as Ed by (unfold is_dec, is_digit in *; lia).
  cbn [app feed]; assert (jstep (J_num n, stk) 0x2e = Some (J_num N_dot, stk)) as -> by (by destruct Hn as [-> | ->]).
  cbn [mbind option_bind jstep num_next]; rewrite Ed; cbn [mbind option_bind].
  rewrite feed_digits by auto; by apply num_ends.
Qed.

Lemma value_decimals z ds : - 10 ^ 20 < z < 10 ^ 20 -> Forall is_dec ds -> ds <> [] -> value (fmt_dec z ++ 0x2e :: ds).
Proof.
  intros Hz Hds Hne m stk t Hm Ht; rewrite <- app_assoc.
  destruct (int_number m stk z ((0x2e :: ds) ++ t) Hm Hz) as (n & Hn & ->); by apply number_decimals.
Qed.

Lemma signed_decimals z ds stk t :
  0 <= z < 10 ^ 20 -> Forall is_dec ds -> ds <> [] -> closes t = true ->
  feed (J_num N_minus, stk) ((fmt_dec z ++ 0x2e :: ds) ++ t) = feed (J_after, stk) t.
Proof.
  intros Hz Hds Hne Ht; rewrite <- app_assoc; unfold fmt_dec; rewrite (proj2 (Z.ltb_ge _ _)) by lia.
  destruct (nat_number (J_num N_minus) stk z ((0x2e :: ds) ++ t)) as (n & Hn & ->); [tauto|lia|]; by apply number_decimals.
Qed.

(** *** Strings *)

Definition body_char (c : Z) : bool := (0x20 <=? c) && negb (c =? 0x22) && negb (c =? 0x5c).

Lemma feed_body k stk s t : forallb body_char s = true -> feed (J_str k, stk) (s ++ t) = feed (J_str k, stk) t.
Proof.
  induction s as [|c s IH]; [done|]; cbn [forallb app feed jstep]; intros [Hc Hs]%andb_true_iff.
  unfold body_char in Hc; rewrite !andb_true_iff, !negb_true_iff in Hc; destruct Hc as [[-> ->] ->]; by apply IH.
Qed.

(** What [json_escape] writes stays inside its string. *)
Lemma feed_escape k stk room s t : feed (J_str k, stk) (json_escape_loop room s ++ t) = feed (J_str k, stk) t.
Proof.
  revert room; induction s as [|c s IH]; intros room; cbn [json_escape_loop]; [done|]; destruct (2 <? room); [|done].
  destruct (c =? 0x22) eqn:E1; [apply IH|]; destruct (c =? 0x5c) eqn:E2; [apply IH|].
  destruct (c =? 0x0a); [apply IH|]; destruct (c =? 0x0d); [apply IH|]; destruct (c =? 0x09); [apply IH|].
  destruct (0x20 <=? c) eqn:E3; [|apply IH]; cbn [app feed jstep]; rewrite E1, E2, E3; apply IH.
Qed.

Lemma quoted_body s : forallb body_char s = true -> value (js "`" ++ s ++ js "`").
Proof.
  intros Hs m stk t Hm _; rewrite <- !app_assoc, (feed_const _ (js "`") (J_str false, stk)) by (by destruct Hm as [-> | ->]).
  by rewrite feed_body.
Qed.

(** *** Lists with commas *)

Definition csv (l : list (list Z)) : list Z :=
  match l with
  | [] => []
  | s :: l => s ++ flat_map (fun s => js "," ++ s) l
  end.

Lemma csv_snoc l s : csv (l ++ [s]) = csv l ++ (match l with [] => [] | _ => js "," end) ++ s.
Proof. destruct l as [|a l]; cbn [app csv flat_map]; [by rewrite app_nil_r|]; by rewrite flat_map_app, <- app_assoc; cbn; rewrite app_nil_r. Qed.

Lemma elements_csv l : Forall value l -> elements (csv l).
Proof.
  intros Hl stk t; destruct Hl as [|s l Hs Hl]; [done|]; cbn [csv]; rewrite <- app_assoc.
  rewrite Hs; [|by right|by destruct l].
  clear Hs; induction Hl as [|a l Ha Hl IH]; cbn [flat_map app]; [done|].
  rewrite <- !app_assoc, (feed_const _ (js ",") (J_value, false :: stk)) by done.
  rewrite Ha; [exact IH|by left|by destruct l].
Qed.

Lemma object_csv l stk t : Forall members l -> feed (J_key_first, true :: stk) (csv l ++ 0x7d :: t) = feed (J_after, stk) t.
Proof.
  intros Hl; destruct Hl as [|s l Hs Hl]; [done|]; cbn [csv]; rewrite <- app_assoc.
  rewrite Hs; [|by right|by destruct l].
  clear Hs; induction Hl as [|a l Ha Hl IH]; cbn [flat_map app]; [done|].
  rewrite <- !app_assoc, (feed_const _ (js ",") (J_key, true :: stk)) by done.
  rewrite Ha; [exact IH|by left|by destruct l].
Qed.

(** ** Values of a bounded length *)

Definition fits (n : Z) (s : list Z) : Prop := value s /\ zlen s <= n.

Lemma zlen_dec_digits k : forall fuel z acc, 0 <= z < 10 ^ Z.of_nat k -> (0 < k)%nat -> (k <= fuel)%nat -> zlen (dec_digits fuel z acc) <= Z.of_nat k + zlen acc.
Proof.
  induction k as [|k IH]; intros fuel z acc Hz Hk Hf; [lia|]; destruct fuel as [|fuel]; [lia|]; cbn [dec_digits].
  destruct (Z.eqb_spec (z / 10) 0) as [E|E]; [rewrite zlen_cons; lia|].
  rewrite Nat2Z.inj_succ, Z.pow_succ_r in Hz by lia; pose proof (Z.div_mod z 10 ltac:(lia)); pose proof (Z.mod_pos_bound z 10 ltac:(lia)).
  destruct k as [|k]; [change (10 ^ Z.of_nat 0) with 1 in Hz; lia|].
  etrans; [apply IH; lia|rewrite zlen_cons; lia].
Qed.

Lemma fits_nat k z : 0 <= z < 10 ^ k -> 0 < k <= 20 -> fits k (fmt_dec z).
Proof.
  intros Hz Hk; pose proof (Z.pow_le_mono_r 10 k 20 ltac:(lia) ltac:(lia)); split; [apply value_dec; lia|].
  unfold fmt_dec; rewrite (proj2 (Z.ltb_ge _ _)) by lia; rewrite <- (Z2Nat.id k) in Hz |- * by lia.
  pose proof (zlen_dec_digits (Z.to_nat k) 20 z [] Hz ltac:(lia) ltac:(lia)) as Hl; change (zlen []) with 0 in Hl; lia.
Qed.

Definition int32 (z : Z) : Prop := - 2 ^ 31 <= z < 2 ^ 31.

Lemma fits_int z : int32 z -> fits 11 (fmt_dec z).
Proof.
  unfold int32; intros Hz; split; [apply value_dec; lia|]; unfold fmt_dec; destruct (Z.ltb_spec z 0) as [E|E].
  - pose proof (zlen_dec_digits 10 20 (- z) [] ltac:(lia) ltac:(lia) ltac:(lia)) as Hl; change (zlen []) with 0 in Hl; rewrite zlen_cons; lia.
  - pose proof (zlen_dec_digits 10 20 z [] ltac:(lia) ltac:(lia) ltac:(lia)) as Hl; change (zlen []) with 0 in Hl; lia.
Qed.
Lemma fits_u32 z : 0 <= z < 2 ^ 32 -> fits 10 (fmt_dec z).
Proof. intros; apply fits_nat; lia. Qed.
Lemma fits_u64 z : 0 <= z < 2 ^ 64 -> fits 20 (fmt_dec z).
Proof. intros; apply fits_nat; lia. Qed.

Lemma fits_or_null n b s : 4 <= n -> (b = true -> fits n s) -> fits n (or_null b s).
Proof. intros Hn Hs; destruct b; [by apply Hs|split; [by apply value_const|change (zlen _) with 4; lia]]. Qed.
Lemma fits_bool b : fits 5 (json_bool b).
Proof. split; [apply value_bool|by destruct b]. Qed.
Lemma fits_word n s : forallb body_char (chars s) = true -> zlen (chars s) + 2 <= n -> fits n (quoted s).
Proof. intros Hs Hn; split; [by apply quoted_body|]; unfold quoted; rewrite !zlen_app; change (zlen (js "`")) with 1; lia. Qed.
Lemma fits_le n k s : fits n s -> n <= k -> fits k s.
Proof. intros [Hv Hl] Hn; split; [done|lia]. Qed.

Lemma snprintf_fits n s : zlen s < n -> snprintf_cut n s = s.
Proof. intros; unfold snprintf_cut; apply ztake_all; lia. Qed.
Lemma fits_cut n k s : fits k s -> k < n -> fits k (snprintf_cut n s).
Proof. intros [Hv Hl] Hn; rewrite snprintf_fits by lia; by split. Qed.

Lemma fits_value n s : fits n s -> value s.
Proof. by intros [Hv _]. Qed.
Lemma fits_zlen n s : fits n s -> zlen s <= n.
Proof. by intros [_ Hl]. Qed.

(** The length of a text made of constants and of [parts] with known bounds. *)
Ltac const_len := repeat match goal with |- context [zlen (js ?s)] => let n := eval vm_compute in (zlen (js s)) in change (zlen (js s)) with n end.
Ltac part_len := repeat match goal with
  | Hf : fits _ ?s |- _ => lazymatch goal with _ : zlen s <= _ |- _ => fail | _ => pose proof (fits_zlen _ _ Hf) end
  end.
Ltac text_len := part_len; rewrite ?zlen_app; const_len; try lia.

(** Read a document from left to right, a constant or a value at a time. *)
Lemma feed_value n m stk s t : fits n s -> m = J_value \/ m = J_first -> closes t = true -> feed (m, stk) (s ++ t) = feed (J_after, stk) t.
Proof. intros [Hv _]; apply Hv. Qed.

Ltac closing := first [assumption | apply closes_app; vm_compute; reflexivity | vm_compute; reflexivity].
Ltac read_one := match goal with
  | |- feed _ (js _ ++ _) = _ => eapply eq_trans; [apply feed_const; vm_compute; reflexivity|]
  | Hf : fits _ ?s |- feed _ (?u ++ _) = _ => constr_eq s u; rewrite (feed_value _ _ _ _ _ Hf) by first [by left | by right | closing]
  | Hm : members ?s |- feed _ (?u ++ _) = _ => constr_eq s u; rewrite Hm by first [by left | by right | closing]
  | |- feed _ (js _) = _ => vm_compute; reflexivity
  | |- feed _ ?t = feed _ ?u => constr_eq t u; reflexivity
  end.
Ltac read_text := rewrite <- ?app_assoc; repeat read_one.

(** A text that ends exactly with the value it is. *)
Lemma document s : feed (J_value, []) s = Some (J_after, []) -> json_text s = true.
Proof. intros E; unfold json_text; by rewrite E. Qed.

(** *** Texts built by [snprintf] calls, an element behind a comma each *)

Definition built (k : Z) (open : list Z) (items : list (list Z)) (st : list Z * Z) : Prop :=
  st = (open ++ csv items, zlen (open ++ csv items)) /\ Forall (fun s => 0 < zlen s <= k) items.

Lemma csv_len k items : Forall (fun s => 0 < zlen s <= k) items -> zlen (csv items) <= (k + 1) * zlen items /\ (items <> [] -> 0 < zlen (csv items)).
Proof.
  induction items as [|s items IH] using rev_ind; intros Hi; [cbn [csv]; rewrite zlen_nil, (zlen_nil (A:=list Z)); split; [lia|done]|].
  apply Forall_app in Hi as [Hi [Hs _]%Forall_cons_1]; destruct (IH Hi) as [Hl _].
  rewrite csv_snoc, !zlen_app, (zlen_cons s []), zlen_nil; pose proof (zlen_nonneg (csv items)).
  destruct items as [|a items]; [cbn [csv] in *; rewrite (zlen_nil (A:=list Z)) in *; rewrite ?(zlen_nil (A:=Z)) in *|change (zlen (js ",")) with 1]; (split; [lia|intros _; lia]).
Qed.

Lemma built_fits k open items st : built k open items st -> fst st = open ++ csv items /\ snd st = zlen open + zlen (csv items) /\ snd st <= zlen open + (k + 1) * zlen items.
Proof. intros [-> Hi]; destruct (csv_len k items Hi) as [Hl _]; cbn [fst snd]; rewrite zlen_app; split_and!; [done|lia|lia]. Qed.

Lemma built_step k sz open items st s :
  built k open items st -> 0 < zlen s <= k -> zlen open + (k + 1) * (zlen items + 1) < sz ->
  built k open (items ++ [s]) (snprintf_at sz st ((match items with [] => [] | _ => js "," end) ++ s)).
Proof.
  intros [-> Hi] Hs Hsz; destruct (csv_len k items Hi) as [Hl _]; split; [|apply Forall_app; split; [done|by apply Forall_singleton]].
  unfold snprintf_at; rewrite snprintf_fits.
  - rewrite csv_snoc, (app_assoc open), (zlen_app (open ++ csv items)); done.
  - rewrite !zlen_app; destruct items as [|a items]; [change (zlen []) with 0 in *; cbn [csv]; change (zlen []) with 0|change (zlen (js ",")) with 1]; lia.
Qed.
