(* ===== verification/LcReplies.v ===== *)
(** The replies of [LcHttp]: every text the handlers put together is complete
    and well formed, and what a connection is sent is that text behind a header
    with its length. *)

From Stdlib Require Import String.
From S2P Require Import Prelude CtrlMsg ChipAdc Monad Double LcText LcTuning LcPair LcPeers LcConfig Lifecycle LcTick LcHttp LcJson.
#[local] Open Scope Z_scope.

(** The context's C types, the table's frequencies below 100 GHz and the
    temperature's range ([ar8030_rftemp_mv_to_c10] gives no other). *)
Record side_typed (q : lc_link_side) : Prop := {
  snr_typed : 0 <= ls_snr q < 2 ^ 32; ldpc_typed : 0 <= ls_ldpc_err q < 2 ^ 32; gain_a_typed : 0 <= ls_gain_a q < 2 ^ 32;
  gain_b_typed : 0 <= ls_gain_b q < 2 ^ 32; mcs_typed : 0 <= ls_tx_mcs q < 2 ^ 32; side_chan_typed : 0 <= ls_tx_chan q < 2 ^ 32;
  side_power_typed : 0 <= ls_tx_power q < 2 ^ 32; freq_typed : 0 <= ls_tx_freq_khz q < 2 ^ 32
}.

Record ctx_typed (x : lc_ctx) : Prop := {
  slot_typed : int32 (connected_slot x); bandwidth_typed : int32 (last_bandwidth x); channel_typed : int32 (channel x);
  work_chan_typed : int32 (work_chan x); power_typed : int32 (power x); dbm_typed : int32 (power_dbm x);
  distance_typed : int32 (distance_m x); level_typed : int32 (signal_level x);
  rf_temp_typed : 0 <= rf_temp_c10 x < 2 ^ 31; rf_mv_typed : int32 (rf_temp_mv x); batt_typed : int32 (batt_adc_mv x);
  soc_typed : - 10 ^ 12 < soc_temp_c10 x < 10 ^ 12;
  rx_typed : Forall (fun n => 0 <= n < 2 ^ 64) (sock_rx_bytes x); tx_typed : Forall (fun n => 0 <= n < 2 ^ 64) (sock_tx_bytes x);
  self_typed : side_typed (quality_self x); peer_typed : side_typed (quality_peer x);
  table_typed : zlen (chan_table_khz x) <= LC_MAX_CHANNELS /\ Forall (fun khz => 0 <= khz < 10 ^ 8) (chan_table_khz x)
}.

(** What the programs around the server answer: an exit code or -1 and text
    that fits the buffer; a decimal of [%.1f]. *)
Class HttpSane (W : Type) `{HttpIo W} := {
  linkctl_exit : forall argv sz w rc out w', 0 < sz -> run_linkctl argv sz w = (rc, out, w') -> -1 <= rc <= 255 /\ zlen out < sz;
  snr_db_decimal : forall snr, 0 < snr < 2 ^ 32 -> fits 15 (snr_db_text snr)
}.

Section formatters.
Context (cfg : lc_cfg) (x : lc_ctx) (Hx : ctx_typed x).

Lemma fits_rf_temp : fits 12 (format_rf_temp x).
Proof.
  destruct Hx; apply fits_cut; [|lia]; apply fits_or_null; [lia|]; intros _.
  rewrite Z.quot_div_nonneg, Z.rem_mod_nonneg by lia; pose proof (Z.mod_pos_bound (rf_temp_c10 x) 10 ltac:(lia)).
  pose proof (Z.div_mod (rf_temp_c10 x) 10 ltac:(lia)).
  destruct (fits_nat 10 (rf_temp_c10 x / 10)) as [_ Hl]; [lia|lia|].
  destruct (fits_nat 1 (rf_temp_c10 x mod 10)) as [_ Hl']; [lia|lia|].
  destruct (fmt_dec_spec (rf_temp_c10 x mod 10)) as (Hne & Hd & _); [lia|]; split.
  - by apply value_decimals; [lia|..].
  - rewrite !zlen_app; change (zlen (chars ".")) with 1; lia.
Qed.

Lemma fmt_02d_digits z : 0 <= z < 100 -> Forall is_dec (fmt_02d z) /\ fmt_02d z <> [] /\ zlen (fmt_02d z) <= 2.
Proof.
  intros Hz; destruct (fmt_dec_spec z) as (Hne & Hd & _); [lia|]; unfold fmt_02d; destruct (Z.ltb_spec z 10) as [E|E].
  - rewrite (proj2 (Z.leb_le _ _)) by lia; cbn [andb]; destruct (fits_nat 1 z) as [_ Hl]; [lia|lia|].
    split_and!; [apply Forall_cons_2; [unfold is_dec; lia|done]|done|rewrite zlen_cons; lia].
  - rewrite andb_false_r; destruct (fits_nat 2 z) as [_ Hl]; [lia|lia|]; by split_and!.
Qed.

Lemma fits_batt_v mv : int32 mv -> mv <= 2 ^ 30 -> fits 13 (format_batt_v mv).
Proof.
  unfold int32; intros Hm Hm'; apply fits_cut; [|lia]; apply fits_or_null; [lia|]; intros E; apply negb_true_iff, Z.ltb_ge in E.
  rewrite (Z.quot_div_nonneg (mv + 5) 10) by lia; set (cv := (mv + 5) / 10).
  assert (0 <= cv < 2 ^ 30) by (unfold cv; split; [apply Z.div_pos; lia|apply Z.div_lt_upper_bound; lia]).
  rewrite Z.quot_div_nonneg, Z.rem_mod_nonneg by lia; pose proof (Z.mod_pos_bound cv 100 ltac:(lia)); pose proof (Z.div_mod cv 100 ltac:(lia)).
  destruct (fits_nat 10 (cv / 100)) as [_ Hl]; [lia|lia|].
  destruct (fmt_02d_digits (cv mod 100)) as (Hd & Hne & Hl2); [lia|]; split; [by apply value_decimals; [lia|..]|].
  rewrite !zlen_app; change (zlen (chars ".")) with 1; lia.
Qed.

Lemma fits_channel chan : int32 chan -> fits 11 (format_channel chan).
Proof.
  intros Hc; apply fits_cut; [|lia]; destruct (chan =? LC_CHANNEL_AUTO); [by apply fits_word|]; apply fits_or_null; [lia|]; intros _; by apply fits_int.
Qed.

Lemma fits_or_null_int n b z : 16 <= n -> int32 z -> fits 11 (snprintf_cut n (or_null b (fmt_dec z))).
Proof. intros; apply fits_cut; [|lia]; apply fits_or_null; [lia|]; intros _; by apply fits_int. Qed.

Lemma members_channel : members (format_channel_fields x) /\ zlen (format_channel_fields x) <= 66.
Proof.
  destruct Hx as [_ _ Hchan Hwork]; unfold format_channel_fields.
  pose proof (fits_channel _ Hchan) as H1; pose proof (fits_or_null_int 16 (0 <=? work_chan x) _ ltac:(lia) Hwork) as H2.
  set (mode := if chan_auto x <? 0 then _ else _).
  assert (H3 : fits 8 mode).
  { unfold mode; destruct (chan_auto x <? 0); [split; [by apply value_const|done]|]; by destruct (chan_auto x =? 0); apply fits_word. }
  rewrite snprintf_fits by text_len; split; [|text_len]; intros m stk t [-> | ->] Ht; read_text.
Qed.

Lemma elements_power : elements (lc_power_levels_json (is_ap cfg) (max_power cfg) 96) /\ zlen (lc_power_levels_json (is_ap cfg) (max_power cfg) 96) <= 30.
Proof.
  unfold lc_power_levels_json, power_levels, AP_POWER_LEVELS, DEV_POWER_LEVELS; generalize (max_power cfg) as p; intros p.
  destruct (is_ap cfg); cbn [negb andb]; [destruct (power_within p 400)|destruct (power_within p LC_POWER_AUTO), (power_within p 500)];
    destruct (power_within p 200), (power_within p 100), (power_within p 25);
    (split; [apply elements_const; intros stk; vm_compute; reflexivity|vm_compute; discriminate]).
Qed.

Lemma standby_fits : fits 5 (standby_text cfg x).
Proof. unfold standby_text; destruct (standby_dbm cfg <? 0); [split; [by apply value_const|done]|apply fits_bool]. Qed.

Lemma members_power : members (format_power_fields cfg x) /\ zlen (format_power_fields cfg x) <= 140.
Proof.
  destruct Hx as [_ _ _ _ Hp Hd]; unfold format_power_fields; destruct elements_power as [He Hl].
  revert He Hl; generalize (lc_power_levels_json (is_ap cfg) (max_power cfg) 96) as levels; intros levels He Hl.
  assert (H1 : fits 11 (snprintf_cut 16 (if power x =? LC_POWER_AUTO then quoted "auto" else or_null (negb (power x =? LC_POWER_NONE)) (fmt_dec (power x))))).
  { apply fits_cut; [|lia]; destruct (power x =? LC_POWER_AUTO); [by apply fits_word|]; apply fits_or_null; [lia|]; intros _; by apply fits_int. }
  pose proof (fits_or_null_int 16 (0 <=? power_dbm x) _ ltac:(lia) Hd) as H2; pose proof (fits_bool (negb (armed x =? 0))) as H3; pose proof standby_fits as H4.
  cbv zeta.
  rewrite snprintf_fits by text_len; split; [|text_len]; intros m stk t [-> | ->] Ht; read_text;
    cbn [app]; change (js "],`armed`:") with (0x5d :: js ",`armed`:"); cbn [app]; rewrite He; read_text.
Qed.

Lemma fits_tenths c10 : - 10 ^ 12 < c10 < 10 ^ 12 -> fits 14 (fmt_tenths c10).
Proof.
  intros Hc; unfold fmt_tenths; set (q := Z.abs c10 / 10); pose proof (Z.div_mod (Z.abs c10) 10 ltac:(lia)).
  pose proof (Z.mod_pos_bound (Z.abs c10) 10 ltac:(lia)); assert (Hq : 0 <= q < 10 ^ 11) by (unfold q; lia).
  destruct (fits_nat 11 q) as [_ Hl]; [lia|lia|]; destruct (fits_nat 1 (Z.abs c10 mod 10)) as [_ Hl']; [lia|lia|].
  destruct (fmt_dec_spec (Z.abs c10 mod 10)) as (Hne & Hd & _); [lia|]; split.
  - intros m stk t Hm Ht; destruct (Z.ltb_spec c10 0) as [E|E]; [|by apply value_decimals; [lia|..]].
    cbn [app feed]; assert (jstep (m, stk) 0x2d = Some (J_num N_minus, stk)) as -> by (by destruct Hm as [-> | ->]); cbn [mbind option_bind].
    apply (signed_decimals q); [lia|done..].
  - rewrite !zlen_app; change (zlen [0x2e]) with 1; destruct (c10 <? 0); [change (zlen [0x2d]) with 1|change (zlen []) with 0]; lia.
Qed.

Lemma members_heat : members (format_heat_fields cfg x) /\ zlen (format_heat_fields cfg x) <= 50.
Proof.
  unfold format_heat_fields.
  assert (H1 : fits 14 (snprintf_cut 16 (or_null (soc_temp_valid x) (fmt_tenths (soc_temp_c10 x))))).
  { apply fits_cut; [|lia]; apply fits_or_null; [lia|]; intros _; apply fits_tenths, Hx. }
  set (over := if overheat_c cfg <? 0 then _ else _).
  assert (H2 : fits 5 over) by (unfold over; destruct (overheat_c cfg <? 0); [split; [by apply value_const|done]|apply fits_bool]).
  rewrite snprintf_fits by text_len; split; [|text_len]; intros m stk t [-> | ->] Ht; read_text.
Qed.

Lemma fits_distance : fits 11 (distance_text x).
Proof. apply fits_or_null_int; [lia|apply Hx]. Qed.

Lemma object_fits n s : (forall m stk t, m = J_value \/ m = J_first -> closes t = true -> feed (m, stk) (s ++ t) = feed (J_after, stk) t) -> zlen s <= n -> fits n s.
Proof. by split. Qed.

Lemma fits_role : fits 5 (role_str cfg).
Proof. unfold role_str; by destruct (is_ap cfg); apply fits_word. Qed.
Lemma fits_state : fits 11 (state_str x).
Proof. unfold state_str; by destruct (state x); apply fits_word. Qed.

(** *** The open ports and the channel table *)

Definition port_item (p : nat) : list Z :=
  js "`" ++ fmt_dec (Z.of_nat p) ++ js "`:{`rx_bytes`:" ++ fmt_dec (nth p (sock_rx_bytes x) 0) ++ js ",`tx_bytes`:" ++
  fmt_dec (nth p (sock_tx_bytes x) 0) ++ js "}".

Lemma nth_typed l p : Forall (fun n => 0 <= n < 2 ^ 64) l -> 0 <= nth p l 0 < 2 ^ 64.
Proof. intros Hl; revert p; induction Hl as [|n l Hn Hl IH]; intros [|p]; cbn [nth]; try lia; apply IH. Qed.

Lemma digits_body z : 0 <= z < 2 ^ 63 -> forallb body_char (fmt_dec z) = true.
Proof.
  intros Hz; destruct (fmt_dec_spec z Hz) as (_ & Hd & _); apply forallb_forall; intros c Hc.
  apply list.Forall_forall with (x := c) in Hd; [|by apply list_elem_of_In]; unfold is_dec, body_char in *; lia.
Qed.

Lemma port_item_ok p : (p < LC_SOCK_PORTS)%nat -> members (port_item p) /\ 0 < zlen (port_item p) <= 70.
Proof.
  intros Hp; unfold LC_SOCK_PORTS in Hp; destruct Hx; unfold port_item.
  pose proof (fits_u64 _ (nth_typed _ p rx_typed0)) as H1; pose proof (fits_u64 _ (nth_typed _ p tx_typed0)) as H2.
  pose proof (fits_nat 1 (Z.of_nat p) ltac:(lia) ltac:(lia)) as H3; pose proof (zlen_nonneg (fmt_dec (Z.of_nat p))).
  pose proof (zlen_nonneg (fmt_dec (nth p (sock_rx_bytes x) 0))); pose proof (zlen_nonneg (fmt_dec (nth p (sock_tx_bytes x) 0))).
  split; [|text_len]; clear H3; intros m stk t [-> | ->] Ht; read_text; rewrite feed_body by (apply digits_body; lia); read_text.
Qed.

Lemma ports_built n : (n <= LC_SOCK_PORTS)%nat ->
  exists items, built 70 (js "{") items (fold_left (port_step x) (seq 0 n) (js "{", 1)) /\ Forall members items /\ zlen items <= Z.of_nat n.
Proof.
  induction n as [|n IH]; intros Hn; [exists []; by split_and!|].
  destruct (IH ltac:(lia)) as (items & Hb & Hm & Hl); rewrite seq_S, fold_left_app; cbn [fold_left Nat.add].
  unfold port_step at 1; destruct (Z.testbit _ _); [|exists items; split_and!; [done..|lia]].
  destruct (port_item_ok n) as [Hi Hz]; [lia|]; exists (items ++ [port_item n]); unfold LC_SOCK_PORTS in Hn; split_and!.
  - pose proof (built_fits _ _ _ _ Hb) as (_ & Hs & _); destruct Hb as [Hst Hall]; destruct (csv_len _ _ Hall) as [_ Hpos].
    change (zlen (js "{")) with 1 in Hs.
    replace (if 1 <? snd (fold_left _ _ _) then js "," else []) with (match items with [] => [] | _ => js "," end).
    2: { destruct items as [|a items]; [by rewrite Hs|]; rewrite (proj2 (Z.ltb_lt _ _)); [done|]; rewrite Hs; specialize (Hpos ltac:(done)); lia. }
    apply built_step; [by split|done|]; change (zlen (js "{")) with 1; unfold ports_size, LC_SOCK_PORTS; lia.
  - apply Forall_app; split; [done|by apply Forall_singleton].
  - rewrite zlen_app, zlen_cons, zlen_nil; lia.
Qed.

Lemma fits_ports : fits 570 (format_ports x).
Proof.
  destruct (ports_built LC_SOCK_PORTS) as (items & Hb & Hm & Hl); [lia|]; unfold format_ports.
  pose proof (built_fits _ _ _ _ Hb) as (E1 & E2 & E3); unfold LC_SOCK_PORTS in Hl; change (zlen (js "{")) with 1 in E3.
  destruct (fold_left _ _ _) as [text n]; cbn [fst snd] in *; subst text; unfold snprintf_at; cbn [fst].
  rewrite snprintf_fits by (change (zlen (js "}")) with 1; unfold ports_size, LC_SOCK_PORTS; lia).
  apply object_fits; [|rewrite !zlen_app; change (zlen (js "{")) with 1 in *; change (zlen (js "}")) with 1; lia].
  intros m stk t Hm' Ht; rewrite <- !app_assoc, (feed_const _ (js "{") (J_key_first, true :: stk)) by (by destruct Hm' as [-> | ->]).
  by apply object_csv.
Qed.

Lemma table_built khz : forall items st, Forall (fun f => 0 <= f < 10 ^ 8) khz -> Forall value items -> built 5 [] items st ->
  zlen items + zlen khz <= LC_MAX_CHANNELS ->
  exists items', built 5 [] items' (table_loop khz st (match items with [] => true | _ => false end)) /\ Forall value items' /\
    zlen items' = zlen items + zlen khz.
Proof.
  induction khz as [|f khz IH]; intros items st Hf Hv Hb Hn; cbn [table_loop].
  { exists items; split_and!; [done|done|rewrite zlen_nil; lia]. }
  rewrite zlen_cons in *; apply Forall_cons_1 in Hf as [Hf1 Hf]; pose proof (built_fits _ _ _ _ Hb) as (_ & _ & Hs).
  unfold LC_MAX_CHANNELS in *; change (zlen (@nil Z)) with 0 in Hs; pose proof (zlen_nonneg khz); pose proof (zlen_nonneg items).
  rewrite (proj2 (Z.ltb_lt _ _)) by (unfold table_size, LC_MAX_CHANNELS; lia).
  assert (Hd : fits 5 (fmt_dec (f / 1000))).
  { apply fits_nat; [|lia]; split; [apply Z.div_pos; lia|apply Z.div_lt_upper_bound; lia]. }
  destruct (fmt_dec_spec (f / 1000)) as (Hne & _); [split; [apply Z.div_pos; lia|apply Z.div_lt_upper_bound; lia]|].
  pose proof (fits_zlen _ _ Hd); assert (0 < zlen (fmt_dec (f / 1000))) by (destruct (fmt_dec (f / 1000)); [done|rewrite zlen_cons; pose proof (zlen_nonneg l); lia]).
  set (st' := snprintf_at _ _ _); destruct (IH (items ++ [fmt_dec (f / 1000)]) st') as (items' & Hb' & Hv' & Hn').
  - done.
  - apply Forall_app; split; [done|]; by apply Forall_singleton, (fits_value 5).
  - assert (Hstep : zlen (@nil Z) + (5 + 1) * (zlen items + 1) < table_size) by (rewrite zlen_nil; unfold table_size, LC_MAX_CHANNELS; lia).
    apply (built_step 5 table_size [] items st (fmt_dec (f / 1000)) Hb ltac:(lia)) in Hstep; by destruct items.
  - rewrite zlen_app, zlen_cons, zlen_nil; lia.
  - exists items'; rewrite zlen_app, zlen_cons, zlen_nil in Hn'; split_and!; [|done|lia].
    by destruct items.
Qed.

Lemma elements_table : elements (format_table x) /\ zlen (format_table x) <= 384.
Proof.
  destruct Hx as [? ? ? ? ? ? ? ? ? ? ? ? ? ? ? ? [Hn Hf]].
  destruct (table_built (chan_table_khz x) [] ([], 0)) as (items & Hb & Hv & Hl); [done|by apply Forall_nil_2|by split; [|apply Forall_nil_2]|done|].
  unfold format_table; pose proof (built_fits _ _ _ _ Hb) as (E1 & E2 & E3); change (zlen []) with 0 in *; unfold LC_MAX_CHANNELS in *.
  rewrite E1; split; [by apply elements_csv|]; cbn [app]; lia.
Qed.
End formatters.

Section link.
Context {W : Type} `{HttpSane W}.

Lemma fits_side q : side_typed q -> fits 184 (format_link_side q).
Proof.
  intros []; unfold format_link_side; cbv zeta.
  assert (H1 : fits 15 (snprintf_cut 16 (or_null (0 <? ls_snr q) (snr_db_text (ls_snr q))))).
  { apply fits_cut; [|lia]; apply fits_or_null; [lia|]; intros E%Z.ltb_lt; apply snr_db_decimal; lia. }
  pose proof (fits_u32 (ls_snr q) ltac:(done)); pose proof (fits_u32 (ls_ldpc_err q) ltac:(done)); pose proof (fits_u32 (ls_gain_a q) ltac:(done)).
  pose proof (fits_u32 (ls_gain_b q) ltac:(done)); pose proof (fits_u32 (ls_tx_mcs q) ltac:(done)); pose proof (fits_u32 (ls_tx_chan q) ltac:(done)).
  pose proof (fits_u32 (ls_tx_power q) ltac:(done)); pose proof (fits_u32 (ls_tx_freq_khz q) ltac:(done)).
  rewrite snprintf_fits by text_len; apply object_fits; [|text_len]; intros m stk t [-> | ->] Ht; read_text.
Qed.

Lemma fits_quality x : ctx_typed x -> fits 420 (format_quality x).
Proof.
  intros []; unfold format_quality; apply fits_cut; [|lia]; apply fits_or_null; [lia|]; intros _.
  pose proof (fits_int _ level_typed0); pose proof (fits_side _ self_typed0); pose proof (fits_side _ peer_typed0).
  apply object_fits; [|text_len]; intros m stk t [-> | ->] Ht; read_text.
Qed.
End link.

(** The daemon's configuration, with the supply voltage within an [int]. *)
Record http_typed (cfg : lc_cfg) (x : lc_ctx) : Prop := {
  ctx_ok : ctx_typed x;
  rf_adc_typed : int32 (rf_temp_adc cfg); batt_adc_typed : int32 (batt_adc cfg); scale_typed : int32 (batt_scale cfg);
  offset_typed : int32 (batt_offset_mv cfg); standby_typed : int32 (standby_dbm cfg); over_typed : int32 (overheat_c cfg);
  resume_typed : int32 (overheat_resume_c cfg);
  batt_mv_typed : let mv := ar8030_batt_mv (batt_adc_mv x) (batt_scale cfg) (batt_offset_mv cfg) in int32 mv /\ mv <= 2 ^ 30
}.

(** A reply whose body is a whole JSON text, announced as such; the rest
    bounds what goes in the header. *)
Definition json_reply (r : reply) : Prop :=
  r_type r = chars "application/json" /\ json_text (r_body r) = true /\
  zlen (r_body r) < 10 ^ 6 /\ 0 <= r_status r < 1000 /\ zlen (r_text r) <= 21.

Lemma cut_short n s : 0 < n <= 10 ^ 6 -> zlen (snprintf_cut n s) < 10 ^ 6.
Proof. intros Hn; unfold snprintf_cut, ztake, zlen; rewrite length_take; lia. Qed.

Lemma json_sent status text body :
  json_text body = true -> zlen body < 10 ^ 6 -> 0 <= status < 1000 -> zlen (chars text) <= 21 -> json_reply (send_json status text body).
Proof. intros; unfold json_reply; cbn [r_type r_body r_status r_text send_json]; tauto. Qed.

Ltac sent := apply json_sent; [|first [done | apply cut_short; done | vm_compute; reflexivity]|done|done].
Ltac body_done := sent; rewrite ?snprintf_fits by text_len; apply document; read_text.
Ltac const_reply := sent; vm_compute; reflexivity.

Lemma channel_parsed `{LcSdk W} arg chan : lc_channel_parse arg = Some chan -> int32 chan.
Proof.
  unfold lc_channel_parse, LC_CHANNEL_AUTO, LC_CHANNEL_NONE, int32; repeat (destruct (decide _); [by try (intros [= <-]; lia)|]).
  destruct (strtol10 arg) as [[v [|c rest]]|]; [|done..]; pose proof BB_CONFIG_MAX_CHAN_NUM_ok.
  destruct (_ || _) eqn:E; [done|]; intros [= <-]; apply orb_false_iff in E as [E1%Z.ltb_ge E2%Z.leb_gt]; lia.
Qed.

Lemma power_parsed arg level : lc_power_parse arg = Some level -> int32 level.
Proof.
  unfold lc_power_parse, LC_POWER_AUTO, LC_POWER_NONE, int32; repeat (destruct (decide _); [by try (intros [= <-]; lia)|]).
  destruct (strtol10 arg) as [[v rest]|]; [|done]; destruct (_ || _) eqn:E; [done|]; intros [= <-].
  apply orb_false_iff in E as [[_ E1%Z.leb_gt]%orb_false_iff E2%Z.ltb_ge]; lia.
Qed.

Lemma int32_s32 z : int32 (s32 z).
Proof. unfold int32, s32; pose proof (Z.mod_pos_bound (z + 2 ^ 31) (2 ^ 32) ltac:(lia)); lia. Qed.

Lemma pair_slot `{LcPrograms W} path w rc slot mac w' : lc_pair_run path w = ((rc, slot, mac), w') -> int32 slot.
Proof.
  assert (Hno : int32 (-1)) by (unfold int32; lia).
  unfold lc_pair_run; rewrite !bind_run; destruct (run_pair_tool _ _) as [[rc' out] w1]; cbn [fst snd]; destruct (rc' =? 0).
  - destruct (parse_pair_output out) as [[sl m]|] eqn:E; rewrite !bind_run; cbn [mret M_ret fst snd]; intros [= _ <- _ _]; [|done].
    unfold parse_pair_output in E; apply bind_Some in E as (p & _ & E); destruct (take_hex _ _) as [hex t].
    destruct (decide _); [done|]; apply bind_Some in E as (t1 & _ & E); apply bind_Some in E as ([z rest] & Ez & E).
    unfold scan_dec in Ez; apply bind_Some in Ez as ([v r] & _ & [= <- _]); destruct (negb _); [done|]; injection E as <- _; apply int32_s32.
  - rewrite !bind_run; cbn [mret M_ret fst snd]; by intros [= _ <- _ _].
Qed.

Section handlers.
Context {W : Type} `{LcFs W} `{!LcFsLaws W} `{LcSdk W} `{CJson} `{LcPrograms W} `{HttpIo W} `{!HttpSane W} (cfg : lc_cfg).
Context (s : lst W) (Hs : http_typed cfg (L s)).

Lemma int_param q k v : query_param_int q k = Some v -> int32 v.
Proof.
  unfold query_param_int; intros (buf & _ & E)%bind_Some; apply bind_Some in E as ([z rest] & _ & [= <-]); apply int32_s32.
Qed.

Lemma bandwidth_reply q : json_reply (handle_bandwidth q s).1.
Proof.
  unfold handle_bandwidth; destruct (query_param_int _ _) as [mhz|] eqn:E; [|const_reply]; apply int_param, fits_int in E.
  rewrite bind_run; destruct (negb _); [const_reply|]; body_done.
Qed.

Lemma rf_temp_reply : json_reply (handle_rf_temp cfg s).1.
Proof.
  destruct Hs as [Hx]; unfold handle_rf_temp; rewrite bind_run; cbn [gets fst snd].
  pose proof (fits_bool (0 <=? rf_temp_adc cfg)); pose proof (fits_int (rf_temp_adc cfg) ltac:(done)).
  pose proof (fits_rf_temp _ Hx); pose proof (fits_int (rf_temp_mv (L s)) (rf_mv_typed _ Hx)); body_done.
Qed.

Lemma batt_reply : json_reply (handle_batt cfg s).1.
Proof.
  destruct Hs as [Hx]; unfold handle_batt; rewrite bind_run; cbn [gets fst snd lifecycle_get_status st_batt_mv st_ctx]; destruct batt_mv_typed0.
  set (mv := ar8030_batt_mv _ _ _) in *; pose proof (fits_bool (0 <=? batt_adc cfg)); pose proof (fits_int (batt_adc cfg) ltac:(done)).
  pose proof (fits_int (batt_scale cfg) ltac:(done)); pose proof (fits_int (batt_offset_mv cfg) ltac:(done)).
  pose proof (fits_batt_v mv ltac:(done) ltac:(done)); pose proof (fits_int mv ltac:(done)); pose proof (fits_int (batt_adc_mv (L s)) (batt_typed _ Hx)).
  clearbody mv; body_done.
Qed.

Lemma link_reply : json_reply (handle_link cfg s).1.
Proof.
  destruct Hs as [Hx]; unfold handle_link; rewrite bind_run; cbn [gets fst snd].
  pose proof (fits_role cfg); pose proof (fits_state (L s)); pose proof (fits_int (connected_slot (L s)) (slot_typed _ Hx)).
  pose proof (fits_distance _ Hx); pose proof (fits_ports _ Hx); pose proof (fits_quality _ Hx).
  change (Z.of_nat LC_SOCK_PORTS * 80 + 832) with 1472; body_done.
Qed.

Lemma zlen_json_escape room l : zlen (json_escape_loop room l) <= Z.max 0 (room - 1).
Proof.
  revert room; induction l as [|c l IH]; intros room; cbn [json_escape_loop]; [rewrite zlen_nil; lia|].
  destruct (Z.ltb_spec 2 room); [|rewrite zlen_nil; lia]; pose proof (IH (room - 2)); pose proof (IH (room - 1)); pose proof (IH room).
  repeat match goal with |- context [if ?b then _ else _] => destruct b end; rewrite ?zlen_cons; lia.
Qed.

Lemma fits_escape l sz : 2 <= sz -> fits (sz + 1) (js "`" ++ json_escape l sz ++ js "`").
Proof.
  intros Hsz; apply object_fits.
  - intros m stk t [-> | ->] _; rewrite <- !app_assoc;
      (eapply eq_trans; [apply feed_const; vm_compute; reflexivity|]); unfold json_escape; rewrite feed_escape; reflexivity.
  - pose proof (zlen_json_escape sz (cstr l)); unfold json_escape; rewrite !zlen_app; const_len; lia.
Qed.

Lemma status_reply : json_reply (handle_status cfg s).1.
Proof.
  destruct Hs as [Hx]; unfold handle_status; rewrite !bind_run; cbn [gets fst snd]; destruct (sys _ _) as [[rc out] s'] eqn:E.
  assert (Hrc : int32 rc).
  { unfold sys, lift in E; destruct (run_linkctl _ _ _) as [[rc' out'] w'] eqn:El; injection E as -> -> <-; apply linkctl_exit in El; [unfold int32; lia|done]. }
  cbn [lifecycle_get_status st_batt_mv st_ctx st_paired fst snd]; cbv zeta; destruct batt_mv_typed0.
  set (mv := ar8030_batt_mv _ _ _) in *; set (paired := if has_cfg cfg then _ else _).
  pose proof (fits_role cfg); pose proof (fits_state (L s)); pose proof (fits_int (connected_slot (L s)) (slot_typed _ Hx)).
  pose proof (fits_int (last_bandwidth (L s)) (bandwidth_typed _ Hx)); destruct (members_channel _ Hx), (members_power cfg _ Hx), (members_heat cfg _ Hx).
  pose proof (fits_distance _ Hx); pose proof (fits_bool paired); pose proof (fits_rf_temp _ Hx); pose proof (fits_batt_v mv ltac:(done) ltac:(done)).
  pose proof (fits_int rc Hrc); pose proof (fits_escape out 8192 ltac:(lia)) as Hesc; clearbody mv paired.
  pose proof (zlen_json_escape 8192 (cstr out)) as Hz; change (Z.max 0 (8192 - 1)) with 8191 in Hz.
  sent; unfold json_escape in *; rewrite snprintf_fits by text_len; apply document; read_text; rewrite feed_escape; read_text.
Qed.

Lemma linkctl_reply q : json_reply (handle_linkctl q s).1.
Proof.
  unfold handle_linkctl; destruct (query_param q _ 32) as [cmd|]; [|const_reply]; destruct (linkctl_command_valid cmd); [|const_reply].
  rewrite bind_run; destruct (sys _ _) as [[rc out] s'] eqn:E.
  assert (Hrc : int32 rc).
  { unfold sys, lift in E; destruct (run_linkctl _ _ _) as [[rc' out'] w'] eqn:El; injection E as -> -> <-; apply linkctl_exit in El; [unfold int32; lia|done]. }
  cbn [fst snd]; cbv zeta; pose proof (fits_int rc Hrc); pose proof (fits_bool (rc =? 0)).
  pose proof (zlen_json_escape 4096 (cstr out)) as Hz; change (Z.max 0 (4096 - 1)) with 4095 in Hz; unfold json_escape.
  assert (Hj : json_text (snprintf_cut 4200 (js "{`ok`:" ++ json_bool (rc =? 0) ++ js ",`exit_code`:" ++ fmt_dec rc ++ js ",`output`:`" ++
                 json_escape_loop 4096 (cstr out) ++ js "`}")) = true).
  { rewrite snprintf_fits by text_len; apply document; read_text; rewrite feed_escape; read_text. }
  by destruct (rc =? 0); sent.
Qed.

Lemma pair_reply : json_reply (handle_pair cfg s).1.
Proof.
  unfold handle_pair; rewrite bind_run; destruct (sys _ _) as [[[rc slot] mac] s'] eqn:E; cbn [fst snd]; destruct (rc =? 0); [|const_reply].
  assert (Hslot : int32 slot).
  { unfold sys, lift in E; destruct (lc_pair_run _ _) as [[[rc' slot'] mac'] w'] eqn:El; injection E as -> -> -> <-; by eapply pair_slot. }
  apply fits_int in Hslot; body_done.
Qed.

Lemma channel_reply m q : json_reply (handle_channel cfg m q s).1.
Proof.
  unfold handle_channel; destruct (is_post m); cbv zeta.
  - destruct (arg ← _; lc_channel_parse arg) as [chan|] eqn:E; [|const_reply]; destruct (chan =? LC_CHANNEL_NONE); [const_reply|].
    rewrite bind_run; destruct (_ =? -2); [const_reply|]; destruct (negb _); [const_reply|].
    assert (Hc : int32 chan) by (apply bind_Some in E as (arg & _ & E); by apply channel_parsed in E).
    apply fits_channel in Hc; body_done.
  - destruct Hs as [Hx]; rewrite bind_run; cbn [gets fst snd]; destruct (members_channel _ Hx), (elements_table _ Hx) as [He Hl].
    change (96 + table_size + 64) with 545; sent; rewrite snprintf_fits by text_len; apply document; read_text.
    change (js "]}") with (0x5d :: js "}"); rewrite He; read_text.
Qed.

Lemma power_reply m q : json_reply (handle_power cfg m q s).1.
Proof.
  unfold handle_power; destruct (is_post m); cbv zeta.
  - assert (Hbad : json_reply (send_json 400 "Bad Request" (snprintf_cut 200 (js "{`ok`:false,`error`:`'level' must be one of`,`power_levels`:[" ++
                     lc_power_levels_json (is_ap cfg) (max_power cfg) 96 ++ js "]}")))).
    { destruct (elements_power cfg) as [He Hl]; revert He Hl; generalize (lc_power_levels_json (is_ap cfg) (max_power cfg) 96) as levels; intros levels He Hl.
      sent; rewrite snprintf_fits by text_len; apply document; read_text; change (js "]}") with (0x5d :: js "}"); rewrite He; read_text. }
    destruct (arg ← _; lc_power_parse arg) as [level|] eqn:E; [|exact Hbad]; rewrite bind_run; destruct (negb _); [exact Hbad|].
    assert (Hf : fits 11 (if level =? LC_POWER_AUTO then quoted "auto" else fmt_dec level)).
    { apply bind_Some in E as (arg & _ & E); apply power_parsed, fits_int in E; destruct (level =? LC_POWER_AUTO); [by apply fits_word|done]. }
    body_done.
  - destruct Hs as [Hx]; rewrite bind_run; cbn [gets fst snd]; destruct (members_power cfg _ Hx); body_done.
Qed.

Lemma armed_reply m q : json_reply (handle_armed cfg m q s).1.
Proof.
  unfold handle_armed; destruct (is_post m); cbv zeta.
  - destruct (query_param_int _ _) as [a|] eqn:E; [|const_reply]; apply int_param, fits_int in E; rewrite bind_run; destruct (negb _); [const_reply|]; body_done.
  - destruct Hs as [Hx]; rewrite bind_run; cbn [gets fst snd]; destruct (members_heat cfg _ Hx); pose proof (standby_fits cfg (L s)).
    pose proof (fits_bool (negb (armed (L s) =? 0))); pose proof (fits_or_null_int 16 (0 <=? standby_dbm cfg) _ ltac:(lia) standby_typed0).
    pose proof (fits_or_null_int 16 (0 <=? overheat_c cfg) _ ltac:(lia) over_typed0); pose proof (fits_or_null_int 16 (0 <=? overheat_c cfg) _ ltac:(lia) resume_typed0).
    body_done.
Qed.

Lemma retx_reply q : json_reply (handle_retx_tuning q s).1.
Proof.
  unfold handle_retx_tuning; cbv zeta.
  do 5 (match goal with |- context [query_param_int q ?k] => destruct (query_param_int q k) eqn:?; [|const_reply] end).
  repeat match goal with E : query_param_int q _ = Some _ |- _ => apply int_param, fits_int in E end.
  rewrite bind_run; destruct (negb _); [const_reply|]; body_done.
Qed.

Lemma mac_body m : bytes_ok m -> forallb body_char (mac_hex m) = true.
Proof.
  intros Hb; unfold mac_hex; induction Hb as [|b m Hb _ IH]; [done|]; cbn [flat_map fmt_02x app forallb]; rewrite IH, andb_true_r.
  assert (Hd : forall d, 0 <= d < 16 -> body_char (hex_digit d) = true).
  { intros d Hd; unfold hex_digit, body_char; destruct (d <? 10) eqn:E; bool_to_prop; lia. }
  destruct (byte_halves b Hb); by rewrite !Hd.
Qed.

Lemma mac_quoted m : mac_ok m -> fits 10 (js "`" ++ mac_hex m ++ js "`") /\ 0 < zlen (js "`" ++ mac_hex m ++ js "`").
Proof.
  intros Hm; pose proof (length_mac_hex m Hm) as Hl; assert (zlen (mac_hex m) = 8) as El by (unfold zlen; lia).
  assert (zlen (js "`" ++ mac_hex m ++ js "`") = 10) as E by (by rewrite !zlen_app, El).
  rewrite E; split; [split; [by apply quoted_body, mac_body, Hm|lia]|lia].
Qed.

Lemma peers_built out_sz open tab : forall items st, Forall mac_ok tab -> Forall value items -> built 10 open items st ->
  zlen open + 11 * (zlen items + zlen tab) < out_sz ->
  exists items', built 10 open items' (peers_json_loop out_sz tab (match items with [] => true | _ => false end) st) /\ Forall value items' /\
    zlen items' = zlen items + zlen tab.
Proof.
  induction tab as [|m tab IH]; intros items st Hm Hv Hb Hn; cbn [peers_json_loop].
  { exists items; split_and!; [done|done|rewrite zlen_nil; lia]. }
  rewrite zlen_cons in *; apply Forall_cons_1 in Hm as [Hm1 Hm]; pose proof (built_fits _ _ _ _ Hb) as (_ & _ & Hst).
  pose proof (zlen_nonneg tab); destruct (mac_quoted m Hm1) as [Hf Hpos]; pose proof (fits_zlen _ _ Hf).
  rewrite (proj2 (Z.ltb_lt _ _)) by lia; set (q := js "`" ++ mac_hex m ++ js "`") in *.
  assert (Hstep : zlen open + (10 + 1) * (zlen items + 1) < out_sz) by lia.
  apply (built_step 10 out_sz open items st q Hb ltac:(lia)) in Hstep.
  assert (Hv' : Forall value (items ++ [q])) by (apply Forall_app; split; [done|]; by apply Forall_singleton, (fits_value 10)).
  destruct (IH (items ++ [q]) _ Hm Hv' Hstep) as (items' & Hb' & Hv'' & Hn'); [rewrite zlen_app, zlen_cons, zlen_nil; lia|].
  rewrite zlen_app, zlen_cons, zlen_nil in Hn'.
  exists items'; split_and!; [|done|lia]; by destruct items.
Qed.

(** The list always fits its buffer. *)
Lemma peers_json_ok w : let '(fit, text) := lc_peers_json (cfg_path cfg) peers_size w in fit = true /\ json_text text = true /\ zlen text < 10 ^ 6.
Proof.
  pose proof (BB_CONFIG_MAX_SLOT_CANDIDATE_ok (W:=W)) as Hmax; unfold lc_peers_json; cbv zeta.
  destruct (candidates_ok (cfg_path cfg) w) as (_ & Hm & Hn).
  assert (Hcur : fits 10 (match lc_pair_read_ap_mac (cfg_path cfg) w with Some mac => js "`" ++ mac_hex mac ++ js "`" | None => js "null" end)).
  { destruct (lc_pair_read_ap_mac _ w) as [mac|] eqn:E; [apply mac_quoted; by eapply read_ap_mac_ok|split; [by apply value_const|done]]. }
  set (cur := match lc_pair_read_ap_mac _ w with Some _ => _ | None => _ end) in *; clearbody cur.
  assert (Hd : fits 3 (fmt_dec (BB_CONFIG_MAX_SLOT_CANDIDATE (W:=W)))) by (apply fits_nat; lia).
  set (open := js "{`ok`:true,`current`:" ++ cur ++ js ",`max`:" ++ fmt_dec (BB_CONFIG_MAX_SLOT_CANDIDATE (W:=W)) ++ js ",`peers`:[").
  assert (Ho : zlen open <= 51) by (unfold open; text_len); pose proof (zlen_nonneg open).
  assert (Hb : built 10 open [] (snprintf_at peers_size ([], 0) open)).
  { split; [|apply Forall_nil_2]; unfold snprintf_at; rewrite snprintf_fits by (unfold peers_size; lia).
    cbn [csv]; rewrite app_nil_r; f_equal; lia. }
  destruct (peers_built peers_size open (peers_effective (cfg_path cfg) (BB_CONFIG_MAX_SLOT_CANDIDATE (W:=W)) w) [] _ Hm (Forall_nil_2 _) Hb)
    as (items & Hb' & Hv & Hl); [rewrite (zlen_nil (A:=list Z)); unfold peers_size; lia|].
  pose proof (built_fits _ _ _ _ Hb') as (E1 & E2 & E3); rewrite (zlen_nil (A:=list Z)) in Hl; set (st := peers_json_loop _ _ _ _) in *; clearbody st.
  destruct st as [text n]; cbn [fst snd] in *; subst text; unfold peers_size in *.
  rewrite !(proj2 (Z.ltb_lt _ _)) by lia; split; [done|]; unfold snprintf_at; cbn [fst].
  rewrite snprintf_fits by (change (zlen (js "]}")) with 2; lia); split; [|rewrite !zlen_app; change (zlen (js "]}")) with 2; lia]; subst open; apply document; read_text.
  change (js "]}") with (0x5d :: js "}"); rewrite (elements_csv _ Hv); read_text.
Qed.

Lemma peers_reply : json_reply (handle_peers cfg s).1.
Proof.
  unfold handle_peers; destruct (_ || _); [const_reply|]; rewrite bind_run; cbn [gets fst snd].
  pose proof (peers_json_ok (Wd s)) as Hp; destruct (lc_peers_json _ _ _) as [fit text]; destruct Hp as (-> & Hj & Hl); by sent.
Qed.

Lemma forget_reply q : json_reply (handle_peers_forget cfg q s).1.
Proof.
  unfold handle_peers_forget; cbv zeta; destruct (Bool.eqb _ _); [const_reply|]; rewrite !bind_run; cbn [gets fst snd].
  repeat (destruct (_ =? _); [const_reply|]); const_reply.
Qed.

(** Every answer is JSON, except the one page. *)
Lemma dispatch_reply m path q :
  (dispatch cfg m path q s).1 = send_html (@INDEX_HTML W _) /\ path = chars "/" \/ json_reply (dispatch cfg m path q s).1.
Proof.
  unfold dispatch; cbv zeta; destruct (bool_decide (path = chars "/")) eqn:E; [left; by apply bool_decide_eq_true in E|right].
  repeat match goal with |- context [if ?c then _ else _] =>
    destruct c; [auto using status_reply, pair_reply, bandwidth_reply, retx_reply, power_reply, armed_reply, channel_reply, link_reply,
                   rf_temp_reply, batt_reply, peers_reply, forget_reply, linkctl_reply|] end.
  const_reply.
Qed.
End handlers.

(** ** On the socket *)

(** A client that takes what it is sent, as much at a time as it likes. *)
Class HttpWire (W : Type) `{HttpIo W} := {
  wire : W -> list Z;
  send_some : forall buf w, buf <> [] -> let '(n, w') := http_send buf w in 0 < n <= zlen buf /\ wire w' = wire w ++ ztake n buf
}.

Section sending.
Context {W : Type} `{HttpWire W}.

Lemma write_all_sent fuel : forall buf w, (List.length buf < fuel)%nat -> (write_all fuel buf w).1 = Some true /\ wire (write_all fuel buf w).2 = wire w ++ buf.
Proof.
  induction fuel as [|fuel IH]; intros buf w Hf; [lia|]; cbn [write_all]; destruct (Z.eqb_spec (zlen buf) 0) as [E|E].
  { apply zlen_eq_0 in E as ->; by rewrite app_nil_r. }
  rewrite bind_run; pose proof (send_some buf w) as Hs; destruct (http_send buf w) as [n w']; cbn [fst snd].
  destruct Hs as [Hn Hw]; [by intros ->|]; rewrite (proj2 (Z.leb_gt _ _)) by lia; pose proof (zlen_drop n buf ltac:(lia)) as Hd.
  destruct (IH (zdrop n buf) w') as [-> ->]; [unfold zlen in *; lia|]; by rewrite Hw, <- app_assoc, ztake_drop.
Qed.

Lemma response_sent r w : wire (send_response r w).2 = wire w ++ response_header r ++ r_body r.
Proof.
  unfold send_response; cbv zeta; rewrite bind_run; destruct (write_all_sent (S (List.length (response_header r))) (response_header r) w) as [-> Hw]; [lia|].
  cbn [default id negb]; rewrite bind_run; destruct (write_all_sent (S (List.length (r_body r))) (r_body r) (write_all (S (List.length (response_header r))) (response_header r) w).2) as [_ Hw']; [lia|].
  cbn [mret M_ret snd]; by rewrite Hw', Hw, app_assoc.
Qed.
End sending.

(** The answer as HTTP has it. *)
Definition http_message (r : reply) : list Z :=
  chars "HTTP/1.0 " ++ fmt_dec (r_status r) ++ [0x20] ++ r_text r ++ crlf ++ chars "Content-Type: " ++ r_type r ++ crlf ++
  chars "Content-Length: " ++ fmt_dec (zlen (r_body r)) ++ crlf ++ chars "Connection: close" ++ crlf ++ crlf ++ r_body r.

Lemma header_whole r :
  0 <= r_status r < 1000 -> zlen (r_text r) <= 21 -> zlen (r_type r) <= 24 -> zlen (r_body r) < 10 ^ 6 ->
  response_header r ++ r_body r = http_message r.
Proof.
  intros Hs Ht Hy Hb; unfold response_header; pose proof (fits_nat 3 (r_status r) ltac:(lia) ltac:(lia)) as [_ Hl].
  pose proof (zlen_nonneg (r_body r)); pose proof (fits_nat 6 (zlen (r_body r)) ltac:(lia) ltac:(lia)) as [_ Hl'].
  rewrite snprintf_fits; [unfold http_message; by rewrite <- ?app_assoc|]; rewrite !zlen_app.
  repeat match goal with |- context [zlen (chars ?s)] => let n := eval vm_compute in (zlen (chars s)) in change (zlen (chars s)) with n end.
  change (zlen crlf) with 2; change (zlen [0x20]) with 1; lia.
Qed.

Section claims.
Context {W : Type} `{LcFs W} `{!LcFsLaws W} `{LcSdk W} `{CJson} `{LcPrograms W} `{HttpIo W} `{!HttpSane W} `{!HttpWire W} (cfg : lc_cfg).

(** C17. Whatever a client asks for and whatever state the daemon is in, the
    answer is the page or a JSON text that the grammar accepts whole: nothing
    the handlers put together is cut by its buffer, ends too early, or lets
    text from outside break out of its string.  And what the client receives is
    exactly that body behind a status line and headers whose Content-Length is
    its length, however the socket takes it. *)
Theorem replies_well_formed (s : lst W) method path query :
  http_typed cfg (L s) -> zlen (@INDEX_HTML W _) < 10 ^ 6 ->
  let r := (dispatch cfg method path query s).1 in
  (path = chars "/" /\ r_body r = @INDEX_HTML W _ \/ r_type r = chars "application/json" /\ json_text (r_body r) = true) /\
  forall w, wire (send_response r w).2 = wire w ++ http_message r.
Proof.
  intros Hs Hi; cbv zeta; destruct (dispatch_reply cfg s Hs method path query) as [[-> ->] | (Ht & Hj & Hl & Hst & Hx)].
  - split; [by left|]; intros w; rewrite response_sent, header_whole; [done|done..].
  - split; [by right|]; intros w; rewrite response_sent, header_whole; [done|done|done| |done]; by rewrite Ht.
Qed.
End claims.
