(* ===== verification/LcRequests.v ===== *)
(** What [LcHttp] makes of a request: a client's encoded parameters arrive as
    they were, and the lifecycle thread sees exactly the requests that its
    mailboxes accept. *)

From Stdlib Require Import String.
From S2P Require Import Prelude CtrlMsg Monad Double LcText LcTuning LcPair LcConfig Lifecycle LcTick LcHttp.
#[local] Open Scope Z_scope.

(** ** The encoding of a form *)

Definition unreserved (c : Z) : bool :=
  is_digit c || ((0x41 <=? c) && (c <=? 0x5a)) || ((0x61 <=? c) && (c <=? 0x7a)) || existsb (Z.eqb c) [0x2d; 0x2e; 0x5f; 0x7e].

Definition encode_char (c : Z) : list Z :=
  if unreserved c then [c] else if c =? 0x20 then [0x2b] else [0x25; hex_digit (c / 16); hex_digit (c mod 16)].
Definition encode (s : list Z) : list Z := flat_map encode_char s.

Fixpoint form (params : list (list Z * list Z)) : list Z :=
  match params with
  | [] => []
  | [(k, v)] => k ++ 0x3d :: encode v
  | (k, v) :: params => k ++ 0x3d :: encode v ++ 0x26 :: form params
  end.

Definition text_ok (s : list Z) : Prop := Forall (fun c => 0 < c < 256) s.
Definition key_ok (k : list Z) : Prop := k <> [] /\ forallb unreserved k = true.

Lemma hex_nibble_digit d : 0 <= d < 16 -> hex_nibble (hex_digit d) = d.
Proof.
  intros Hd; unfold hex_digit, hex_nibble; destruct (Z.ltb_spec d 10).
  - by rewrite !(proj2 (Z.leb_le _ _)), Z.add_simpl_l by lia.
  - rewrite (proj2 (Z.leb_gt (0x61 + (d - 10)) 0x39)), andb_false_r, !(proj2 (Z.leb_le _ _)) by lia; cbn [andb]; lia.
Qed.

Lemma nibbles c : 0 <= c < 256 -> 0 <= c / 16 < 16 /\ 0 <= c mod 16 < 16 /\ Z.lor (Z.shiftl (c / 16) 4) (c mod 16) = c.
Proof.
  intros Hc; pose proof (Z.mod_pos_bound c 16 ltac:(lia)); pose proof (Z.div_mod c 16 ltac:(lia)); split_and!; try lia.
  rewrite Z.shiftl_mul_pow2, lor_low by lia; lia.
Qed.

Lemma unreserved_range c : unreserved c = true -> 0x2d <= c /\ c <> 0x3d /\ c <> 0x3f.
Proof.
  unfold unreserved, is_digit; rewrite !orb_true_iff, !andb_true_iff, existsb_exists, !Z.leb_le.
  intros [[[?|?]|?]|(d & Hd & E)]; [lia..|]; apply Z.eqb_eq in E as ->; cbn [In] in Hd; lia.
Qed.

(** What ends a value in the query. *)
Definition ends_value (t : list Z) : Prop := match t with [] => True | c :: _ => c = 0x26 end.

Lemma decode_char room c t :
  0 < c < 256 -> decode_value (S room) (encode_char c ++ t) = c :: decode_value room t.
Proof.
  intros Hc; unfold encode_char; destruct (unreserved c) eqn:E; [|destruct (Z.eqb_spec c 0x20) as [->|E2]; [done|]].
  - apply unreserved_range in E; cbn [app decode_value]; by rewrite !(proj2 (Z.eqb_neq c _)) by lia.
  - destruct (nibbles c) as (Hh & Hl & Ec); [lia|]; cbn [app decode_value Z.eqb Pos.eqb].
    rewrite !hex_nibble_digit, !(proj2 (Z.leb_le 0 _)) by lia; cbn [andb]; by rewrite Ec.
Qed.

Lemma decode_encoded s t room : text_ok s -> ends_value t -> decode_value room (encode s ++ t) = take room s.
Proof.
  intros Hs Ht; revert room; induction Hs as [|c s Hc Hs IH]; intros room.
  - cbn [encode flat_map app]; destruct room as [|room]; [by destruct t|]; destruct t as [|d t]; [done|]; cbn in Ht; by subst d.
  - destruct room as [|room]; [cbn; by destruct (encode_char c ++ encode s)|].
    unfold encode in *; cbn [flat_map]; rewrite <- app_assoc, decode_char, IH by done; done.
Qed.

Lemma after_key_same key r : after_key key (key ++ r) = Some r.
Proof. induction key as [|c key IH]; cbn; [done|]; by rewrite Z.eqb_refl. Qed.

(** Another key is not taken for it, not even one that starts with it. *)
Lemma after_key_other key k r : forallb unreserved key = true -> forallb unreserved k = true -> k <> key ->
  after_key key (k ++ 0x3d :: r) = None \/ exists d r', after_key key (k ++ 0x3d :: r) = Some (d :: r') /\ d <> 0x3d /\ d <> 0x26.
Proof.
  revert k; induction key as [|c key IH]; intros k Hkey Hk Hne; cbn [after_key forallb] in *.
  - right; destruct k as [|d k]; [done|]; cbn [app forallb] in *; apply andb_true_iff in Hk as [Hd _]; apply unreserved_range in Hd.
    exists d, (k ++ 0x3d :: r); split_and!; [done|lia|lia].
  - apply andb_true_iff in Hkey as [Hc Hkey]; destruct k as [|d k]; cbn [app forallb] in *.
    + left; apply unreserved_range in Hc; by rewrite (proj2 (Z.eqb_neq _ _)) by lia.
    + apply andb_true_iff in Hk as [Hd Hk]; destruct (Z.eqb_spec c d) as [->|]; [|by left]; apply IH; [done..|congruence].
Qed.

Lemma cut_at_app c s t : Forall (fun d => d <> c) s -> cut_at c (s ++ c :: t) = Some (s, t).
Proof.
  induction 1 as [|d s Hd _ IH]; cbn [app cut_at]; [by rewrite Z.eqb_refl|]; rewrite (proj2 (Z.eqb_neq _ _)) by done; by rewrite IH.
Qed.
Lemma cut_at_none c s : Forall (fun d => d <> c) s -> cut_at c s = None.
Proof. induction 1 as [|d s Hd _ IH]; cbn [cut_at]; [done|]; rewrite (proj2 (Z.eqb_neq _ _)) by done; by rewrite IH. Qed.

(** The characters of an encoded query. *)
Lemma encode_chars s : text_ok s -> Forall (fun d => unreserved d = true \/ d = 0x2b \/ d = 0x25) (encode s).
Proof.
  intros Hs; unfold encode; induction Hs as [|c s Hc _ IH]; [by apply Forall_nil_2|]; cbn [flat_map]; apply Forall_app; split; [|done].
  unfold encode_char; destruct (unreserved c) eqn:E; [by apply Forall_singleton; left|].
  destruct (c =? 0x20); [apply Forall_singleton; tauto|]; destruct (nibbles c ltac:(lia)) as (Hh & Hl & _).
  assert (Hd : forall d, 0 <= d < 16 -> unreserved (hex_digit d) = true).
  { intros d Hd; unfold hex_digit, unreserved, is_digit; destruct (d <? 10) eqn:F; bool_to_prop; rewrite !orb_true_iff, !andb_true_iff, !Z.leb_le; lia. }
  repeat apply Forall_cons_2; [tauto|left; by apply Hd..|by apply Forall_nil_2].
Qed.

Lemma key_chars k : key_ok k -> Forall (fun d => unreserved d = true \/ d = 0x2b \/ d = 0x25) k.
Proof.
  intros [_ Hk]; apply list.Forall_forall; intros d Hd; left; rewrite forallb_forall in Hk; apply Hk; by apply list_elem_of_In.
Qed.

Definition param_ok (p : list Z * list Z) : Prop := key_ok p.1 /\ text_ok p.2.

(** The value of the first parameter of that name. *)
Fixpoint first_value (key : list Z) (params : list (list Z * list Z)) : option (list Z) :=
  match params with
  | [] => None
  | (k, v) :: params => if bool_decide (k = key) then Some v else first_value key params
  end.

Lemma plain_not d c : unreserved d = true \/ d = 0x2b \/ d = 0x25 -> c = 0x26 \/ c = 0x20 \/ c = 0x3f \/ c = 13 \/ c = 10 \/ c = 0 -> d <> c.
Proof. intros [Hd%unreserved_range|Hd] Hc; lia. Qed.

Lemma param_plain k v : param_ok (k, v) -> forall c, c = 0x26 \/ c = 0x20 \/ c = 0x3f \/ c = 13 \/ c = 10 \/ c = 0 ->
  Forall (fun d => d <> c) (k ++ 0x3d :: encode v).
Proof.
  intros [Hk Hv] c Hc; apply Forall_app; split; [|apply Forall_cons_2; [lia|]].
  - eapply list.Forall_impl; [by apply key_chars|]; cbn; intros d Hd; by eapply plain_not.
  - eapply list.Forall_impl; [by apply encode_chars|]; cbn; intros d Hd; by eapply plain_not.
Qed.

(** Reading a query back gives the value that was put in, as much of it as the
    buffer holds. *)
Lemma form_read params : forall fuel key room, Forall param_ok params -> forallb unreserved key = true ->
  (List.length (form params) < fuel)%nat -> param_loop fuel (form params) key room = take room <$> first_value key params.
Proof.
  induction params as [|[k v] params IH]; intros fuel key room Hp Hkey Hf; [by destruct fuel|]; apply Forall_cons_1 in Hp as [Hp1 Hp].
  set (t := match params with [] => [] | _ => 0x26 :: form params end); assert (Ht : ends_value t) by (unfold t; by destruct params).
  assert (Eq : form ((k, v) :: params) = k ++ 0x3d :: encode v ++ t) by (unfold t; destruct params; cbn [form]; by rewrite ?app_nil_r).
  rewrite Eq in *; destruct fuel as [|fuel]; [lia|]; destruct Hp1 as [[Hne Hk] Hv] eqn:Ep; clear Ep.
  destruct k as [|c k]; [done|]; cbn [app param_loop]; change (c :: k ++ 0x3d :: encode v ++ t) with ((c :: k) ++ 0x3d :: encode v ++ t).
  assert (Hc : c <> 0x26) by (cbn [forallb] in Hk; apply andb_true_iff in Hk as [Hc%unreserved_range _]; lia).
  rewrite (proj2 (Z.eqb_neq _ _)) by done; cbn [first_value]; destruct (bool_decide_reflect (c :: k = key)) as [<-|Hother].
  { rewrite after_key_same; cbn [fmap option_fmap option_map]; by rewrite (decode_encoded v t room). }
  assert (Hskip : match cut_at 0x26 ((c :: k) ++ 0x3d :: encode v ++ t) with Some (_, rest) => param_loop fuel rest key room | None => None end =
                  take room <$> first_value key params).
  { unfold t; destruct params as [|p params].
    - rewrite app_nil_r, cut_at_none; [done|]; apply param_plain; [done|tauto].
    - change ((c :: k) ++ 0x3d :: encode v ++ 0x26 :: form (p :: params)) with (((c :: k) ++ (0x3d :: encode v ++ 0x26 :: form (p :: params)))).
      replace ((c :: k) ++ 0x3d :: encode v ++ 0x26 :: form (p :: params)) with (((c :: k) ++ 0x3d :: encode v) ++ 0x26 :: form (p :: params))
        by (by rewrite <- app_assoc).
      rewrite cut_at_app by (apply param_plain; [done|tauto]); apply IH; [done..|].
      unfold t in Hf; rewrite !length_app in Hf; cbn [List.length] in Hf; rewrite length_app in Hf; cbn [List.length] in Hf; lia. }
  destruct (after_key_other key (c :: k) (encode v ++ t) Hkey Hk Hother) as [-> | (d & r' & -> & H1 & H2)]; [exact Hskip|].
  rewrite !(proj2 (Z.eqb_neq _ _)) by done; exact Hskip.
Qed.

(** [strtol]'s [long] is cut to an [int]: a value out of range can come back
    within it. *)
Example int_wraps :
  query_param_int (chars "state=4294967297") (chars "state") = Some 1 /\ query_param_int (chars "win=4294967306") (chars "win") = Some 10.
Proof. split; vm_compute; reflexivity. Qed.

(** ** Reading the request line *)

(** A client: what it still has to send, which arrives in pieces. *)
Class HttpClient (W : Type) `{HttpIo W} := {
  to_send : W -> list Z;
  read_some : forall n w, 0 < n -> let '(d, w') := http_read n w in
    zlen d <= n /\ to_send w = d ++ to_send w' /\ (d = [] -> to_send w = [])
}.

Section reading.
Context {W : Type} `{HttpClient W}.

Lemma has_newline buf : existsb (Z.eqb 10) buf = false <-> Forall (fun d => d <> 10) buf.
Proof.
  induction buf as [|c buf IH]; cbn [existsb]; [by split|]; rewrite orb_false_iff, IH, list.Forall_cons, Z.eqb_neq; intuition congruence.
Qed.

Lemma line_prefix buf t line rest : buf ++ t = line ++ 10 :: rest -> Forall (fun d => d <> 10) line ->
  (Forall (fun d => d <> 10) buf /\ zlen buf <= zlen line) \/ exists tail, buf = line ++ 10 :: tail.
Proof.
  revert line; induction buf as [|c buf IH]; intros line E Hl.
  { left; split; [by apply Forall_nil_2|rewrite zlen_nil; apply zlen_nonneg]. }
  destruct line as [|d line]; cbn [app] in E; injection E as -> E; [right; by exists buf|].
  apply Forall_cons_1 in Hl as [Hd Hl]; rewrite !zlen_cons; destruct (IH line E Hl) as [[Hb Hz] | (tail & ->)]; [left|right; by exists tail].
  split; [by apply Forall_cons_2|lia].
Qed.

Lemma read_loop_line fuel : forall buf w line rest,
  buf ++ to_send w = line ++ 10 :: rest -> Forall (fun d => d <> 10) line -> Forall (fun d => d <> 10) buf ->
  zlen line < HTTP_MAX_REQ - 1 -> HTTP_MAX_REQ - zlen buf <= Z.of_nat fuel ->
  exists tail, (read_loop fuel buf w).1 = line ++ 10 :: tail.
Proof.
  unfold HTTP_MAX_REQ; induction fuel as [|fuel IH]; intros buf w line rest E Hl Hb Hn Hf;
    (destruct (line_prefix _ _ _ _ E Hl) as [[_ Hz] | (tail & ->)]; [|apply Forall_app in Hb as [_ [Hb _]%Forall_cons_1]; done]).
  { lia. }
  cbn [read_loop]; unfold HTTP_MAX_REQ; rewrite (proj2 (Z.ltb_lt _ _)), bind_run by lia.
  pose proof (read_some (4096 - 1 - zlen buf) w ltac:(lia)) as Hr; destruct (http_read _ w) as [d w']; destruct Hr as (Hd & Ew & He); cbn [fst snd].
  destruct (Z.eqb_spec (zlen d) 0) as [Ed|Ed].
  { apply zlen_eq_0 in Ed; rewrite (He Ed), app_nil_r in E; subst buf; by apply Forall_app in Hb as [_ [Hb _]%Forall_cons_1]. }
  rewrite Ew, app_assoc in E; destruct (existsb (Z.eqb 10) (buf ++ d)) eqn:En.
  - destruct (line_prefix _ _ _ _ E Hl) as [[Hnl _] | Hd']; [|exact Hd']; by rewrite <- has_newline, En in Hnl.
  - apply (IH (buf ++ d) w' line rest E Hl); [by apply has_newline|lia|]; rewrite zlen_app; pose proof (zlen_nonneg d); lia.
Qed.
End reading.

Definition word_ok (s : list Z) : Prop := Forall (fun c => c <> 0x20 /\ c <> 0x3f /\ c <> 13 /\ c <> 10 /\ c <> 0) s.

(** A request line without its end. *)
Definition request_line (method path : list Z) (params : list (list Z * list Z)) : list Z :=
  method ++ 0x20 :: path ++ 0x3f :: form params ++ 0x20 :: chars "HTTP/1.1" ++ [13].

Lemma form_cons k v p params : form ((k, v) :: p :: params) = (k ++ 0x3d :: encode v) ++ 0x26 :: form (p :: params).
Proof. by rewrite <- app_assoc. Qed.

Lemma form_plain params c : Forall param_ok params -> c = 0x20 \/ c = 0x3f \/ c = 13 \/ c = 10 \/ c = 0 -> Forall (fun d => d <> c) (form params).
Proof.
  intros Hp Hc; induction Hp as [|[k v] params Hkv Hp IH]; [by apply Forall_nil_2|]; pose proof (param_plain k v Hkv c ltac:(tauto)) as Hx.
  destruct params as [|p params]; [done|]; rewrite form_cons; apply Forall_app; split; [done|apply Forall_cons_2; [lia|exact IH]].
Qed.

Lemma before_app c s t : Forall (fun d => d <> c) s -> before c (s ++ c :: t) = s.
Proof. intros Hs; unfold before; by rewrite cut_at_app. Qed.
Lemma before_none c s : Forall (fun d => d <> c) s -> before c s = s.
Proof. intros Hs; unfold before; by rewrite cut_at_none. Qed.
Lemma cstr_app s t : Forall (fun d => d <> 0) s -> cstr (s ++ t) = s ++ cstr t.
Proof. induction 1 as [|d s Hd _ IH]; cbn [app cstr]; [done|]; by rewrite (proj2 (Z.eqb_neq _ _)), IH. Qed.
Lemma cstr_all s : Forall (fun d => d <> 0) s -> cstr s = s.
Proof. intros Hs; pose proof (cstr_app s [] Hs) as E; by rewrite !app_nil_r in E. Qed.
Lemma cut_fits n s : zlen s < n -> snprintf_cut n s = s.
Proof. intros; unfold snprintf_cut; apply ztake_all; lia. Qed.

Ltac words := repeat first [apply Forall_app; split | apply Forall_cons_2; [lia|] | apply Forall_nil_2];
  try (eapply list.Forall_impl; [eassumption|cbn; intros; tauto]); try (apply form_plain; [done|tauto]).

Lemma parse_line method path params tail :
  word_ok method -> word_ok path -> Forall param_ok params -> zlen method < 8 -> zlen path < 256 -> zlen (form params) < HTTP_MAX_QUERY ->
  parse_request (request_line method path params ++ 10 :: tail) = Some (method, path, form params).
Proof.
  intros Hm Hp Hq Lm Lp Lq; unfold parse_request.
  set (rest := path ++ 0x3f :: form params ++ 0x20 :: chars "HTTP/1.1").
  assert (El : request_line method path params = (method ++ 0x20 :: rest) ++ [13]).
  { unfold request_line, rest; rewrite <- !app_assoc; cbn [app]; rewrite <- !app_assoc; cbn [app]; by rewrite <- ?app_assoc. }
  assert (H13 : forall c, c = 13 \/ c = 10 \/ c = 0 -> Forall (fun d => d <> c) (method ++ 0x20 :: rest)).
  { intros c Hc; unfold rest; words; [by eapply list.Forall_impl; [exact Hm|]; cbn; intros; intuition lia| by eapply list.Forall_impl; [exact Hp|]; cbn; intros; intuition lia|].
    cbn; repeat apply Forall_cons_2; try apply Forall_nil_2; lia. }
  rewrite El, (proj2 (Z.leb_gt _ _)) by (rewrite zlen_app, zlen_cons; pose proof (zlen_nonneg tail); pose proof (zlen_nonneg ((method ++ 0x20 :: rest) ++ [13])); lia).
  rewrite cstr_app by (apply Forall_app; split; [apply H13; lia|by apply Forall_singleton]); cbn [cstr Z.eqb].
  rewrite before_app by (apply Forall_app; split; [apply H13; lia|by apply Forall_singleton]).
  rewrite before_app by (apply H13; lia); rewrite cut_at_app by words; cbn [mbind option_bind]; unfold rest.
  change (path ++ 0x3f :: form params ++ 0x20 :: chars "HTTP/1.1") with (path ++ (0x3f :: form params) ++ 0x20 :: chars "HTTP/1.1").
  rewrite app_assoc, before_app by words; rewrite cut_at_app by words.
  rewrite !cut_fits by done; by rewrite ztake_all by lia.
Qed.

Lemma query_read params key sz : Forall param_ok params -> forallb unreserved key = true ->
  query_param (form params) key sz = ztake (sz - 1) <$> first_value key params.
Proof.
  intros Hp Hk; unfold query_param; rewrite form_read by (done || lia); unfold ztake.
  assert (Hv : forall v, first_value key params = Some v -> text_ok v).
  { induction Hp as [|[k v] params [_ Hv] _ IH]; [done|]; cbn [first_value]; intros v' E; case_bool_decide; [by injection E as <-|by apply IH]. }
  destruct (first_value key params) as [v|]; [|done]; cbn [fmap option_fmap option_map]; f_equal; apply cstr_all, Forall_take.
  eapply list.Forall_impl; [by apply Hv|]; cbn; lia.
Qed.

(** ** What the lifecycle thread sees *)

Section posting.
Context {W : Type} `{LcFs W} `{LcSdk W} `{CJson} `{LcPrograms W} `{HttpIo W} (cfg : lc_cfg).

(** The request a POST stands for. *)
Definition posted (path query : list Z) (w : W) : option (lc_ctx -> Z * lc_ctx) :=
  let at_ (p : string) := bool_decide (path = chars p) in
  let int (name : string) := query_param_int query (chars name) in
  if at_ "/api/v1/bandwidth"%string then lifecycle_request_bandwidth <$> int "mhz"%string
  else if at_ "/api/v1/retx-tuning"%string then
    win ← int "win"%string; busy ← int "busy"%string; idle ← int "idle"%string;
    conti_busy ← int "conti_busy"%string; conti_idle ← int "conti_idle"%string;
    Some (lifecycle_request_retx win busy idle conti_busy conti_idle)
  else if at_ "/api/v1/power"%string then lifecycle_request_power cfg <$> (query_param query (chars "level") 16 ≫= lc_power_parse)
  else if at_ "/api/v1/armed"%string then lifecycle_request_armed <$> int "state"%string
  else if at_ "/api/v1/channel"%string then
    chan ← query_param query (chars "chan") 16 ≫= lc_channel_parse;
    if chan =? LC_CHANNEL_NONE then None else Some (lifecycle_request_channel cfg chan)
  else if at_ "/api/v1/peers/forget"%string then
    let mac := query_param query (chars "mac") 16 in
    let all := bool_decide (query_param query (chars "all") 4 = Some (chars "1")) in
    if Bool.eqb (is_some mac) all then None else Some (lifecycle_request_forget_peer cfg mac w)
  else None.

Definition follows (m : M (lst W) reply) (req : option (lc_ctx -> Z * lc_ctx)) (s : lst W) : Prop :=
  let '(r, s') := m s in
  match req with
  | Some f =>
      if (f (L s)).1 =? 0 then r_status r = 202 /\ s' = mk_lst (f (L s)).2 (G s) (V s) (Wd s)
      else 400 <= r_status r < 500 /\ s' = s
  | None => r_status r <> 202 /\ L s' = L s /\ G s' = G s /\ V s' = V s
  end.

Definition refuses (f : lc_ctx -> Z * lc_ctx) : Prop := forall x, (f x).1 <> 0 -> (f x).2 = x.

Lemma follows_request f (answer : Z -> reply) s :
  refuses f -> r_status (answer 0) = 202 -> (forall rc, rc <> 0 -> 400 <= r_status (answer rc) < 500) ->
  follows (rc ← request f; mret (answer rc)) (Some f) s.
Proof.
  intros Hf Hz Hrc; unfold follows; rewrite bind_run; unfold request; specialize (Hf (L s)); destruct (f (L s)) as [rc x].
  cbn [fst snd mret M_ret] in *; destruct (Z.eqb_spec rc 0) as [->|E]; [done|]; split; [by apply Hrc|]; rewrite Hf by done; by destruct s.
Qed.

Lemma refuses_bandwidth mhz : refuses (lifecycle_request_bandwidth mhz).
Proof. intros x; unfold lifecycle_request_bandwidth; by destruct (negb _). Qed.
Lemma refuses_retx a b c d e : refuses (lifecycle_request_retx a b c d e).
Proof. intros x; unfold lifecycle_request_retx; by destruct (negb _). Qed.
Lemma refuses_channel chan : refuses (lifecycle_request_channel cfg chan).
Proof. intros x; unfold lifecycle_request_channel; destruct (negb _); [done|]; by destruct (_ && _). Qed.
Lemma refuses_power level : refuses (lifecycle_request_power cfg level).
Proof. intros x; unfold lifecycle_request_power; by destruct (negb _). Qed.
Lemma refuses_armed a : refuses (lifecycle_request_armed a).
Proof. intros x; unfold lifecycle_request_armed; by destruct (_ && _). Qed.
Lemma refuses_forget mac w : refuses (lifecycle_request_forget_peer cfg mac w).
Proof. intros x; unfold lifecycle_request_forget_peer; destruct (_ || _); [done|]; cbv zeta; by destruct (negb _). Qed.

Lemma follows_none (r : reply) s : r_status r <> 202 -> follows (mret r) None s.
Proof. by intros Hr. Qed.
Lemma follows_get (f : lst W -> reply) s : r_status (f s) <> 202 -> follows (x ← gets id; mret (f x)) None s.
Proof. by intros Hr. Qed.

Ltac refused := intros rc Hrc; cbv beta; repeat match goal with |- context [negb (?a =? ?b)] => destruct (a =? b) eqn:?; bool_to_prop; cbn [negb] end; try lia; try done.

Lemma bandwidth_follows q s : follows (handle_bandwidth q) (lifecycle_request_bandwidth <$> query_param_int q (chars "mhz")) s.
Proof.
  unfold handle_bandwidth; destruct (query_param_int _ _) as [mhz|]; [|by apply follows_none].
  apply (follows_request _ (fun rc => if negb (rc =? 0) then _ else _)); [apply refuses_bandwidth|done|].
  intros rc Hrc; by rewrite (proj2 (Z.eqb_neq _ _)).
Qed.

Lemma retx_follows q s :
  let int (name : string) := query_param_int q (chars name) in
  follows (handle_retx_tuning q)
    (win ← int "win"%string; busy ← int "busy"%string; idle ← int "idle"%string;
     conti_busy ← int "conti_busy"%string; conti_idle ← int "conti_idle"%string;
     Some (lifecycle_request_retx win busy idle conti_busy conti_idle)) s.
Proof.
  unfold handle_retx_tuning; cbv zeta.
  do 5 (match goal with |- context [query_param_int q ?k] => destruct (query_param_int q k) eqn:?; [|by apply follows_none] end).
  apply (follows_request _ (fun rc => if negb (rc =? 0) then _ else _)); [apply refuses_retx|done|].
  intros rc Hrc; by rewrite (proj2 (Z.eqb_neq _ _)).
Qed.

Lemma power_follows q m s :
  follows (handle_power cfg m q)
    (if is_post m then lifecycle_request_power cfg <$> (query_param q (chars "level") 16 ≫= lc_power_parse) else None) s.
Proof.
  unfold handle_power; destruct (is_post m); [cbv zeta|done]; change (arg ← query_param q (chars "level") 16; lc_power_parse arg) with (query_param q (chars "level") 16 ≫= lc_power_parse).
  destruct (_ ≫= _) as [level|]; [|by apply follows_none].
  apply (follows_request _ (fun rc => if negb (rc =? 0) then _ else _)); [apply refuses_power|done|].
  intros rc Hrc; by rewrite (proj2 (Z.eqb_neq _ _)).
Qed.

Lemma armed_follows q m s :
  follows (handle_armed cfg m q) (if is_post m then lifecycle_request_armed <$> query_param_int q (chars "state") else None) s.
Proof.
  unfold handle_armed; destruct (is_post m); [cbv zeta|done]; destruct (query_param_int _ _) as [a|]; [|by apply follows_none].
  apply (follows_request _ (fun rc => if negb (rc =? 0) then _ else _)); [apply refuses_armed|done|].
  intros rc Hrc; by rewrite (proj2 (Z.eqb_neq _ _)).
Qed.

Lemma channel_follows q m s :
  follows (handle_channel cfg m q)
    (if is_post m then
       chan ← query_param q (chars "chan") 16 ≫= lc_channel_parse;
       if chan =? LC_CHANNEL_NONE then None else Some (lifecycle_request_channel cfg chan)
     else None) s.
Proof.
  unfold handle_channel; destruct (is_post m); [cbv zeta|done]; change (arg ← query_param q (chars "chan") 16; lc_channel_parse arg) with (query_param q (chars "chan") 16 ≫= lc_channel_parse).
  destruct (query_param q _ 16 ≫= _) as [chan|]; [cbn [mbind option_bind]|by apply follows_none]; destruct (chan =? LC_CHANNEL_NONE); [by apply follows_none|].
  apply (follows_request _ (fun rc => if rc =? -2 then _ else if negb (rc =? 0) then _ else _)); [apply refuses_channel|done|].
  intros rc Hrc; destruct (rc =? -2); [done|]; by rewrite (proj2 (Z.eqb_neq _ _)).
Qed.

Lemma forget_follows q s :
  follows (handle_peers_forget cfg q)
    (let mac := query_param q (chars "mac") 16 in
     let all := bool_decide (query_param q (chars "all") 4 = Some (chars "1")) in
     if Bool.eqb (is_some mac) all then None else Some (lifecycle_request_forget_peer cfg mac (Wd s))) s.
Proof.
  unfold handle_peers_forget; cbv zeta.
  replace (match query_param q (chars "all") 4 with Some all => bool_decide (all = chars "1") | None => false end)
    with (bool_decide (query_param q (chars "all") 4 = Some (chars "1"))).
  2: { destruct (query_param q (chars "all") 4) as [all|]; [|done]; apply bool_decide_ext; split; congruence. }
  destruct (Bool.eqb _ _); [by apply follows_none|].
  pose proof (follows_request (lifecycle_request_forget_peer cfg (query_param q (chars "mac") 16) (Wd s))
    (fun rc => if rc =? 0 then accepted (js "{`ok`:true}")
          else if rc =? -1 then bad_request "{`ok`:false,`error`:`mac must be 8 hex digits`}"
          else if rc =? -2 then send_json 409 "Conflict" (js "{`ok`:false,`error`:`that is the current air unit; bind another to replace it`}")
          else if rc =? -3 then send_json 404 "Not Found" (js "{`ok`:false,`error`:`not a remembered air unit`}")
          else not_dev) s (refuses_forget _ _) eq_refl) as Hf.
  apply Hf; intros rc Hrc; rewrite (proj2 (Z.eqb_neq _ _)) by done; by repeat destruct (_ =? _).
Qed.

Lemma sys_answer {A} (m : M W A) (f : A -> reply) s : (forall a, r_status (f a) <> 202) -> follows (a ← sys m; mret (f a)) None s.
Proof. intros Hf; unfold follows; rewrite bind_run; unfold sys, lift; destruct (m (Wd s)) as [a w]; by split. Qed.

Lemma status_follows s : follows (handle_status cfg) None s.
Proof. unfold handle_status, follows; rewrite !bind_run; unfold sys, lift, gets; cbn [fst snd]; by destruct (run_linkctl _ _ _) as [[rc out] w]. Qed.

Lemma pair_follows s : follows (handle_pair cfg) None s.
Proof.
  unfold handle_pair, follows; rewrite bind_run; unfold sys, lift; destruct (lc_pair_run _ _) as [[[rc slot] mac] w]; cbn [fst snd]; by destruct (rc =? 0).
Qed.

Lemma linkctl_follows q s : follows (handle_linkctl q) None s.
Proof.
  unfold handle_linkctl; destruct (query_param q _ 32) as [cmd|]; [|by apply follows_none]; destruct (linkctl_command_valid cmd); [|by apply follows_none].
  unfold follows; cbv zeta; rewrite bind_run; unfold sys, lift; destruct (run_linkctl _ _ _) as [[rc out] w]; cbn [fst snd]; by destruct (rc =? 0).
Qed.

Lemma peers_follows s : follows (handle_peers cfg) None s.
Proof.
  unfold handle_peers; destruct (_ || _); [by apply follows_none|]; unfold follows; rewrite bind_run; cbn [gets fst snd].
  destruct (lc_peers_json _ _ _) as [fit text]; by destruct fit.
Qed.

Ltac closed_paths := repeat match goal with |- context [bool_decide (chars ?a = chars ?b)] =>
  let v := eval vm_compute in (bool_decide (chars a = chars b)) in change (bool_decide (chars a = chars b)) with v end; cbv iota; cbn [andb].

(** C16. A POST is exactly one request to the lifecycle thread: the mailbox the
    path names, with the arguments of the query.  It answers 202 when the
    mailbox took the request, and then nothing else of the daemon's state has
    changed; a refusal is a 4xx and changes nothing at all.  Every other
    request -- another method, another path, an argument that does not parse --
    is never answered with 202 and leaves the lifecycle thread's state alone. *)
Theorem posts_are_requests method path query s :
  follows (dispatch cfg method path query) (if is_post method then posted path query (Wd s) else None) s.
Proof.
  unfold dispatch, posted; cbv zeta.
  destruct (decide (path = chars "/api/v1/bandwidth")) as [->|]; [closed_paths; destruct (is_post method); [apply bandwidth_follows|by apply follows_none]|].
  destruct (decide (path = chars "/api/v1/retx-tuning")) as [->|]; [closed_paths; destruct (is_post method); [apply retx_follows|by apply follows_none]|].
  destruct (decide (path = chars "/api/v1/power")) as [->|]; [closed_paths; apply power_follows|].
  destruct (decide (path = chars "/api/v1/armed")) as [->|]; [closed_paths; apply armed_follows|].
  destruct (decide (path = chars "/api/v1/channel")) as [->|]; [closed_paths; apply channel_follows|].
  destruct (decide (path = chars "/api/v1/peers/forget")) as [->|]; [closed_paths; destruct (is_post method); [apply forget_follows|by apply follows_none]|].
  rewrite (bool_decide_eq_false_2 (path = chars "/api/v1/bandwidth")), (bool_decide_eq_false_2 (path = chars "/api/v1/retx-tuning")),
    (bool_decide_eq_false_2 (path = chars "/api/v1/power")), (bool_decide_eq_false_2 (path = chars "/api/v1/armed")),
    (bool_decide_eq_false_2 (path = chars "/api/v1/channel")), (bool_decide_eq_false_2 (path = chars "/api/v1/peers/forget")) by done.
  cbv iota; cbn [andb]; replace (if is_post method then None else None) with (@None (lc_ctx -> Z * lc_ctx)) by (by destruct (is_post method)).
  repeat match goal with |- follows (if ?c then _ else _) None s => destruct c;
    [first [apply status_follows | apply pair_follows | apply linkctl_follows | apply peers_follows | by apply follows_none | done]|] end.
  by apply follows_none.
Qed.

(** C18. A client's request arrives as it was made: whatever pieces the socket
    hands over, the handlers run with the method, the path and the query of the
    request line, and each parameter they look up has the value that the client
    encoded -- any bytes but NUL, cut to the handler's buffer -- even next to
    parameters whose names start alike. *)
Theorem request_arrives `{!HttpClient W} method path params body s :
  to_send (Wd s) = request_line method path params ++ 10 :: body ->
  word_ok method -> word_ok path -> Forall param_ok params -> zlen method < 8 -> zlen path < 256 -> zlen (form params) < HTTP_MAX_QUERY ->
  (exists w, serve cfg s = (r ← dispatch cfg method path (form params); sys (send_response r)) (mk_lst (L s) (G s) (V s) w)) /\
  (forall key sz, forallb unreserved key = true -> query_param (form params) key sz = ztake (sz - 1) <$> first_value key params).
Proof.
  intros Hs Hm Hp Hq Lm Lp Lq; split; [|intros; by apply query_read].
  assert (Hline : forall c, c = 10 \/ c = 0 -> Forall (fun d => d <> c) (request_line method path params)).
  { intros c Hc; unfold request_line; words; try (eapply list.Forall_impl; [eassumption|cbn; intros; intuition lia]).
    cbn; repeat apply Forall_cons_2; try apply Forall_nil_2; lia. }
  destruct (read_loop_line (Z.to_nat HTTP_MAX_REQ) [] (Wd s) (request_line method path params) body) as [tail Ht]; [done|apply Hline; lia|apply Forall_nil_2| |rewrite zlen_nil; unfold HTTP_MAX_REQ; lia|].
  { unfold request_line, HTTP_MAX_REQ, HTTP_MAX_QUERY in *; rewrite zlen_app, zlen_cons, zlen_app, zlen_cons, zlen_app, zlen_cons, zlen_app.
    change (zlen (chars "HTTP/1.1")) with 8; change (zlen [13]) with 1; lia. }
  exists (read_loop (Z.to_nat HTTP_MAX_REQ) [] (Wd s)).2; unfold serve; rewrite bind_run.
  assert (E : sys (read_loop (Z.to_nat HTTP_MAX_REQ) []) s =
              (request_line method path params ++ 10 :: tail, mk_lst (L s) (G s) (V s) (read_loop (Z.to_nat HTTP_MAX_REQ) [] (Wd s)).2)).
  { rewrite <- Ht; unfold sys, lift; by destruct (read_loop _ _ _). }
  rewrite E; cbn [fst snd]; rewrite parse_line by done.
  rewrite !cstr_all; [done|..]; first [apply form_plain; [done|tauto] | eapply list.Forall_impl; [eassumption|cbn; intros; intuition lia]].
Qed.
End posting.
