(* ===== verification/LcDemo.v ===== *)
(** A concrete world for [lifecycled]: a file system in memory, a chip that
    accepts every request and reports its link up, a tree for the JSON, a client
    of the HTTP server -- the parameters of the Lc* files instantiated, and their
    theorems applied there. *)

From Stdlib Require Import String.
From stdpp Require Import countable.
From S2P Require Import Prelude Double CtrlMsg ChipAdc Monad LcText LcTuning LcPair LcConfig LcBoard Lifecycle LcTick LcDebounce LcPower LcHeat LcSidecars LcPeers.
#[local] Open Scope Z_scope.

(** Files, requests sent, the clock, SoC degrees, chip dBm. *)
Record demo_lc := mk_demo_lc { dl_files : list (list Z * list Z); dl_sets : list lc_set; dl_time : Z; dl_soc : Z; dl_up : bool }.

Fixpoint dl_find (p : list Z) (l : list (list Z * list Z)) : option (list Z) :=
  match l with
  | [] => None
  | (q, c) :: l => if decide (q = p) then Some c else dl_find p l
  end.

#[export] Instance demo_fs : LcFs demo_lc := {
  fs_read p w := dl_find p (dl_files w);
  fs_write p c w := (true, mk_demo_lc ((p, c) :: dl_files w) (dl_sets w) (dl_time w) (dl_soc w) (dl_up w));
  fs_rename p q w := match dl_find p (dl_files w) with
                     | Some c => (true, mk_demo_lc ((q, c) :: dl_files w) (dl_sets w) (dl_time w) (dl_soc w) (dl_up w))
                     | None => (false, w)
                     end;
  fs_unlink p w := mk_demo_lc (List.filter (fun '(q, _) => negb (bool_decide (q = p))) (dl_files w)) (dl_sets w) (dl_time w) (dl_soc w) (dl_up w)
}.

#[export] Instance demo_fs_laws : LcFsLaws demo_lc.
Proof.
  split.
  - intros p c w w' [= <-]; cbn; by rewrite decide_True.
  - intros p c w ok w' q [= <- <-] Hq; cbn; by rewrite decide_False.
  - intros p q w w'; cbn; destruct (dl_find p (dl_files w)) eqn:E; intros [= <-]; cbn; by rewrite decide_True.
  - intros p q w w' r; cbn; by destruct (dl_find p (dl_files w)); intros [= <-].
Defined.

Definition demo_status (up : bool) : bb_status :=
  mk_bb_status [if up then BB_LINK_STATE_CONNECT else BB_LINK_STATE_IDLE] (fun _ => Some BB_BW_20M) (fun _ => 5805000) (fun _ => 5805000).

Lemma demo_max_chan : 0 < 60 <= 256.
Proof. lia. Qed.
Lemma demo_max_candidates : 0 < 5 <= 255.
Proof. lia. Qed.

#[export] Instance demo_lc_sdk : LcSdk demo_lc := {
  BB_CONFIG_MAX_CHAN_NUM := 60;
  BB_CONFIG_MAX_CHAN_NUM_ok := demo_max_chan;
  BB_CONFIG_MAX_SLOT_CANDIDATE := 5;
  BB_CONFIG_MAX_SLOT_CANDIDATE_ok := demo_max_candidates;
  bb_set r w := (0, mk_demo_lc (dl_files w) (dl_sets w ++ [r]) (dl_time w) (dl_soc w) (dl_up w));
  bb_get_status _ w := (0, demo_status (dl_up w), w);
  bb_get_chan_info w := (0, mk_chan_info 0 25 2 [5745000; 5805000], w);
  bb_get_cur_power _ w := (0, 22, w);
  bb_get_distc_result w := (0, 12, w);
  bb_daemon_set_dbg_level _ _ w := w;
  bb_daemon_get_dbg_level _ w := (1, w)
}.

#[export] Instance demo_chip_ioctl : ChipIoctl demo_lc := { bb_ioctl r w := (0, [], w) }.
#[export] Instance demo_programs : LcPrograms demo_lc := {
  run_pair_tool _ w := (1, [], w);
  lc_hooks_dispatch _ _ _ w := w
}.
#[export] Instance demo_lc_env : LcEnv demo_lc := {
  time_now w := (dl_time w, w);
  sleep_s n w := mk_demo_lc (dl_files w) (dl_sets w) (dl_time w + n) (dl_soc w) (dl_up w);
  soc_temp_run _ w := (Some (false, fmt_dec (dl_soc w)), w);
  bb_get_sock_info _ w := ((0, 0, []), w);
  bb_get_1v1_info w := ((0, side_zero, side_zero), w)
}.

#[export] Instance demo_log : LcLog demo_lc.
Proof.
  refine {| lc_sets := dl_sets |}; try done.
  intros p q w; cbn; by destruct (dl_find p (dl_files w)).
Defined.

(** ** JSON trees: a leaf is a string, node 0 an array of one, node 1 an object
    with its keys and values in turn. *)

Definition tree : Type := gen_tree (list Z).

Fixpoint pairs_get (l : list tree) (k : list Z) : option tree :=
  match l with
  | GenLeaf k' :: v :: l => if decide (k' = k) then Some v else pairs_get l k
  | _ => None
  end.
Definition tree_pairs (j : tree) : list tree := match j with GenNode 1 l => l | _ => [] end.
Definition tree_get (j : tree) (k : list Z) : option tree := pairs_get (tree_pairs j) k.
Definition tree_put (j : tree) (k : list Z) (v : tree) : tree := GenNode 1 (GenLeaf k :: v :: tree_pairs j).
Fixpoint tree_set (j : tree) (path : list (list Z)) (v : tree) : tree :=
  match path with
  | [] => v
  | k :: path => tree_put j k (tree_set (match tree_get j k with Some j => j | None => GenNode 1 [] end) path v)
  end.

#[export] Instance demo_json : CJson := {
  cjson := tree;
  cJSON_Parse text := match text with [Zpos p] => decode p | _ => None end;
  cJSON_Print j := Some [Zpos (encode j)];
  cJSON_GetObjectItem := tree_get;
  cJSON_valuestring j := match j with GenLeaf s => Some s | _ => None end;
  cJSON_GetArrayItem0 j := match j with GenNode 0 (j :: _) => Some j | _ => None end;
  cJSON_SetAt := tree_set;
  cJSON_CreateObject := GenNode 1 [];
  cJSON_CreateString := GenLeaf;
  cJSON_Array1 j := GenNode 0 [j]
}.

#[export] Instance demo_json_laws : CJsonLaws.
Proof.
  split.
  - intros j path key v _; revert j; induction path as [|k path IH]; intros j; cbn -[decide]; rewrite decide_True by done; [done|apply IH].
  - intros j text [= <-]; cbn; by rewrite decode_encode.
  - done.
  - done.
Defined.

(** ** The daemon on an air unit with a 200 mW cap, low power at 10 dBm, video
    paused from 90 degrees *)

Definition demo_opts : list lc_opt :=
  [OPT_CFG_PATH (chars "/etc/a"); OPT_MAX_POWER (chars "200mw"); OPT_STANDBY_DBM (chars "10"); OPT_OVERHEAT_C (chars "90");
   OPT_SOC_TEMP_CMD (chars "t"); OPT_FEM_CTRL].

Definition demo_cfg : lc_cfg := match parse_args (W:=demo_lc) 50000 demo_opts with Some cfg => cfg | None => lc_cfg_default 0 end.
Definition demo_w0 : demo_lc := mk_demo_lc [] [] 1000 60 true.
Definition demo_start : lst demo_lc := (thread_start demo_cfg (mk_lst (ctx_init demo_cfg demo_w0) glob_init loc_init demo_w0)).2.

Section ticks.
Context {W : Type} `{LcFs W} `{LcSdk W} `{ChipIoctl W} `{CJson} `{LcPrograms W} `{LcEnv W} (cfg : lc_cfg).

(** Undisturbed, a tick takes the loop round once. *)
Fixpoint obs_from (pc : nat) (ms : list (M (lst W) unit)) (s : lst W) : list observation :=
  match ms with
  | [] => []
  | m :: ms => observed pc s ++ obs_from (S pc) ms (m s).2
  end.

Lemma reach_steps s0 ms : forall pc s h,
  lc_reach cfg s0 pc s h -> (pc = O -> g_shutdown_requested (G s) = false) ->
  drop pc (tick_steps cfg) = ms -> ms <> [] ->
  lc_reach cfg s0 0 (run_steps ms s).2 (h ++ obs_from pc ms s).
Proof.
  induction ms as [|m ms IH]; intros pc s h Hr Hg Hd Hne; [done|].
  assert (Hm : tick_steps cfg !! pc = Some m).
  { rewrite <- (take_drop pc (tick_steps cfg)), Hd; assert (length (take pc (tick_steps cfg)) = pc) as Hl.
    { rewrite length_take; apply (f_equal length) in Hd; rewrite length_drop in Hd; cbn in Hd |- *; lia. }
    by rewrite lookup_app_r, Hl, Nat.sub_diag by (rewrite Hl; lia). }
  pose proof (reach_step cfg s0 pc s h _ _ _ Hr (step_run cfg pc m s h Hm Hg)) as Hr'.
  cbn [obs_from]; unfold run_steps; cbn [mfor]; rewrite bind_run; cbv beta; rewrite app_assoc.
  assert (Hd' : drop (S pc) (tick_steps cfg) = ms) by (by rewrite <- Nat.add_1_r, <- drop_drop, Hd).
  assert (Hlen : (length ms = length (tick_steps cfg) - S pc)%nat) by (by rewrite <- Hd', length_drop).
  destruct ms as [|m' ms].
  - rewrite decide_True in Hr' by (apply lookup_lt_Some in Hm; cbn [length] in Hlen; lia); by rewrite app_nil_r.
  - rewrite decide_False in Hr' by (cbn [length] in Hlen; lia); by apply IH.
Qed.

Lemma reach_tick s0 s h :
  lc_reach cfg s0 0 s h -> g_shutdown_requested (G s) = false -> lc_reach cfg s0 0 (lc_tick cfg s).2 (h ++ obs_from 0 (tick_steps cfg) s).
Proof. intros Hr Hg; by apply reach_steps. Qed.
End ticks.

Definition demo_tick (s : lst demo_lc) : lst demo_lc := (lc_tick demo_cfg s).2.
Definition demo_run (n : nat) : lst demo_lc := Nat.iter n demo_tick demo_start.
Fixpoint demo_obs (n : nat) : list observation :=
  match n with
  | O => []
  | S n => demo_obs n ++ obs_from 0 (tick_steps demo_cfg) (demo_run n)
  end.

Lemma demo_reach n : (forall k, (k < n)%nat -> g_shutdown_requested (G (demo_run k)) = false) -> lc_reach demo_cfg demo_start 0 (demo_run n) (demo_obs n).
Proof. induction n as [|n IH]; intros Hk; [constructor|]; apply reach_tick; [apply IH; intros; apply Hk; lia|apply Hk; lia]. Qed.

Lemma demo_parsed : parse_args (W:=demo_lc) 50000 demo_opts = Some demo_cfg.
Proof. vm_compute; reflexivity. Qed.

Lemma demo_no_sets : lc_sets demo_w0 = [].
Proof. by vm_compute. Qed.

Lemma demo_running : lc_reach demo_cfg demo_start 0 (demo_run 3) (demo_obs 3).
Proof. apply demo_reach; intros k Hk; do 3 (destruct k as [|k]; [vm_compute; reflexivity|]); lia. Qed.

(** Three up samples after the start, the daemon is connected. *)
Lemma link_debounced_witness :
  state (L (demo_run 3)) = LC_STATE_CONNECTED /\ link_up (link_samples (demo_obs 3)).
Proof.
  assert (Hs : state (L (demo_run 3)) = LC_STATE_CONNECTED) by (vm_compute; reflexivity).
  split; [exact Hs|]; destruct (link_debounced demo_cfg demo_w0 0 _ _ demo_running) as [[Hu _] _]; exact (Hu Hs).
Defined.

(** Connected and armed at 200 mW: the chip was last told 22 dBm. *)
Lemma power_within_cap_witness :
  last_power None (lc_sets (Wd (demo_run 3))) = Some 22.
Proof.
  destruct (power_within_cap 50000 demo_opts demo_cfg demo_w0 0 _ _ demo_parsed demo_no_sets demo_running) as [_ Hl].
  apply Hl; right; vm_compute; discriminate.
Defined.

(** A SoC at 60 degrees pauses nothing. *)
Lemma heat_and_standby_witness :
  overheat (L (demo_run 3)) = false /\ standby (L (demo_run 3)) = false.
Proof.
  destruct (heat_and_standby demo_cfg 50000 demo_opts demo_w0 0 _ _ demo_parsed demo_running) as (_ & Hs & _).
  destruct (Hs ltac:(vm_compute; reflexivity) eq_refl) as [Hs1 _]; split; [vm_compute; reflexivity|]; apply Hs1; vm_compute; [discriminate|reflexivity].
Defined.

(** ** The files *)

Lemma settings_persist_witness :
  let w := (lc_power_save (chars "/etc/a") 200 demo_w0).2 in lc_power_load (chars "/etc/a") w = Some 200.
Proof.
  destruct (settings_persist (W:=demo_lc) (chars "/etc/a")) as (_ & _ & _ & Hp).
  exact (Hp 200 demo_w0 0 _ ltac:(lia) eq_refl).
Defined.

Definition demo_tree : tree := tree_set (tree_set (GenNode 1 []) (basic_path false ++ [chars "ap_mac"]) (GenLeaf (chars "0a0b0c0d")))
                                  (basic_path true ++ [chars "candidate"; chars "slot"]) (GenNode 0 []).
Definition demo_w1 : demo_lc := mk_demo_lc [(chars "/etc/a", [Zpos (encode demo_tree)])] [] 0 0 true.

Lemma demo_w1_json : read_json (chars "/etc/a") demo_w1 = Some demo_tree.
Proof. vm_compute; reflexivity. Qed.
Lemma demo_w1_ap : lc_pair_read_ap_mac (chars "/etc/a") demo_w1 = Some [10; 11; 12; 13].
Proof. vm_compute; reflexivity. Qed.
Lemma demo_sets_keep_files : forall r (w : demo_lc) p, fs_read p (bb_set r w).2 = fs_read p w.
Proof. done. Qed.

Lemma air_units_remembered_witness :
  lc_peers_load (chars "/etc/a") 5 (lc_peers_note_ap_mac (chars "/etc/a") demo_w1).2 = [[10; 11; 12; 13]].
Proof.
  destruct (air_units_remembered demo_sets_keep_files (chars "/etc/a") demo_w1 _ demo_w1_ap) as (_ & Hn & _).
  destruct (Hn _ _ (surjective_pairing _)) as [[_ [Hi|Hi]]|[_ E]]; [exfalso|exfalso|].
  - assert (E : lc_peers_load (chars "/etc/a") BB_CONFIG_MAX_SLOT_CANDIDATE demo_w1 = []) by (vm_compute; reflexivity).
    rewrite E in Hi; by apply not_elem_of_nil in Hi.
  - vm_compute in Hi; discriminate.
  - etransitivity; [exact E|vm_compute; reflexivity].
Defined.

Lemma pair_survives_restart_witness :
  let w := (lc_pair_persist (chars "/etc/a") 0 false [1; 2; 3; 4] demo_w1).2 in
  lc_pair_read_ap_mac (chars "/etc/a") w = Some [1; 2; 3; 4].
Proof.
  assert (Hm : mac_ok [1; 2; 3; 4]) by (split; [done|]; repeat apply Forall_cons_2; try apply Forall_nil_2; unfold byte_ok; lia).
  assert (Hp : lc_pair_persist (chars "/etc/a") 0 false [1; 2; 3; 4] demo_w1 = (0, (lc_pair_persist (chars "/etc/a") 0 false [1; 2; 3; 4] demo_w1).2))
    by (vm_compute; reflexivity).
  destruct (pair_survives_restart demo_sets_keep_files (chars "/etc/a") 0 false [1; 2; 3; 4] demo_w1 _ _ ltac:(vm_compute; discriminate) Hm demo_w1_json
    ltac:(discriminate) Hp) as [_ Hr].
  exact (Hr eq_refl).
Defined.

(** ** A connection to the HTTP server: its two directions are files, the client sends and takes a few bytes at a time *)

From S2P Require Import LcHttp LcJson LcReplies LcRequests.

Definition to_server : list Z := chars "in".
Definition to_client : list Z := chars "out".

Definition dl_stream (name : list Z) (w : demo_lc) : list Z := default [] (dl_find name (dl_files w)).
Definition set_stream (name text : list Z) (w : demo_lc) : demo_lc :=
  mk_demo_lc ((name, text) :: dl_files w) (dl_sets w) (dl_time w) (dl_soc w) (dl_up w).

#[export] Instance demo_http : HttpIo demo_lc := {
  http_read n w := let d := ztake (Z.min n 5) (dl_stream to_server w) in (d, set_stream to_server (zdrop (zlen d) (dl_stream to_server w)) w);
  http_send buf w := let n := Z.min 7 (zlen buf) in (n, set_stream to_client (dl_stream to_client w ++ ztake n buf) w);
  run_linkctl argv sz w := (0, ztake (sz - 1) (js "peer `0a0b0c0d`" ++ [10; 9; 92]), w);
  INDEX_HTML := js "<html></html>";
  snr_db_text _ := chars "12.5"
}.

Lemma stream_set name text w : dl_stream name (set_stream name text w) = text.
Proof. unfold dl_stream, set_stream; cbn -[decide]; by rewrite decide_True. Qed.

#[export] Instance demo_http_sane : HttpSane demo_lc.
Proof.
  split.
  - intros argv sz w rc out w' Hsz [= <- <- <-]; split; [lia|]; unfold ztake, zlen; rewrite length_take; lia.
  - intros snr _; split; [apply (value_decimals 12 [0x35]); [lia| |done]; apply Forall_singleton; unfold is_dec; lia|done].
Defined.

#[export] Instance demo_wire : HttpWire demo_lc.
Proof.
  refine {| wire := dl_stream to_client |}; intros buf w Hb; cbn [http_send demo_http]; rewrite stream_set.
  assert (0 < zlen buf) by (destruct buf as [|b buf]; [done|rewrite zlen_cons; pose proof (zlen_nonneg buf); lia]); split; [lia|done].
Defined.

#[export] Instance demo_client : HttpClient demo_lc.
Proof.
  refine {| to_send := dl_stream to_server |}; intros n w Hn; cbn [http_read demo_http]; rewrite stream_set.
  set (s := dl_stream to_server w); assert (Hl : zlen (ztake (Z.min n 5) s) = Z.min (Z.min n 5) (zlen s)) by (unfold ztake, zlen; rewrite length_take; lia).
  split_and!; [lia| |].
  - rewrite Hl, <- (ztake_drop (Z.min n 5) s) at 1; f_equal.
    destruct (Z.le_ge_cases (Z.min n 5) (zlen s)) as [E|E]; [by rewrite (Z.min_l (Z.min n 5) (zlen s))|]; rewrite (Z.min_r (Z.min n 5) (zlen s)), !zdrop_all by lia; done.
  - intros E; rewrite E, zlen_nil in Hl; pose proof (zlen_nonneg s); apply zlen_eq_0; lia.
Defined.

Ltac in_range := lazymatch goal with
  | |- Forall _ ?l => let v := eval vm_compute in l in change l with v; repeat apply Forall_cons_2; try apply Forall_nil_2; done
  | |- _ /\ Forall _ _ => split; [vm_compute; discriminate|in_range]
  | |- _ => unfold int32; vm_compute; repeat split; discriminate
  end.

Lemma demo_typed : http_typed demo_cfg (L demo_start).
Proof. split; [split| | | | | | | |]; in_range. Qed.

Lemma replies_well_formed_witness :
  let r := (dispatch demo_cfg (chars "GET") (chars "/api/v1/status") [] demo_start).1 in
  json_text (r_body r) = true /\ wire (send_response r demo_w0).2 = http_message r.
Proof.
  assert (Hi : zlen (@INDEX_HTML demo_lc _) < 10 ^ 6) by (vm_compute; reflexivity).
  destruct (replies_well_formed demo_cfg demo_start (chars "GET") (chars "/api/v1/status") [] demo_typed Hi) as [Hr Hw].
  split; [by destruct Hr as [[E _]|[_ Hj]]|rewrite Hw; reflexivity].
Defined.

Definition demo_params : list (list Z * list Z) := [(chars "states", chars "1"); (chars "state", chars " 0"); (chars "note", chars "a=b&c")].
Definition demo_request : lst demo_lc :=
  mk_lst (L demo_start) (G demo_start) (V demo_start)
    (set_stream to_server (request_line (chars "POST") (chars "/api/v1/armed") demo_params ++ 10 :: chars "Host: x") demo_w0).

Lemma request_arrives_witness :
  query_param (form demo_params) (chars "state") 32 = Some (chars " 0") /\
  pending_armed (L demo_start) = -1 /\ pending_armed (L (serve demo_cfg demo_request).2) = 0.
Proof.
  assert (Hp : Forall param_ok demo_params).
  { repeat apply Forall_cons_2; try apply Forall_nil_2; (split; [by split|]); cbn; repeat apply Forall_cons_2; try apply Forall_nil_2; done. }
  destruct (request_arrives demo_cfg (chars "POST") (chars "/api/v1/armed") demo_params (chars "Host: x") demo_request) as [[w Hs] Hq].
  - unfold demo_request; cbn [Wd]; apply stream_set.
  - cbn; repeat apply Forall_cons_2; try apply Forall_nil_2; repeat split; discriminate.
  - cbn; repeat apply Forall_cons_2; try apply Forall_nil_2; repeat split; discriminate.
  - exact Hp.
  - reflexivity.
  - reflexivity.
  - vm_compute; reflexivity.
  - split; [rewrite Hq by reflexivity; vm_compute; reflexivity|]; split; [vm_compute; reflexivity|].
    rewrite Hs; vm_compute; reflexivity.
Defined.
