(* ===== verification/CtlArgs.v ===== *)
(** How [linkctl/main.c] reads its arguments: [permute_argv] in front of a
    [getopt] that stops at the first operand (POSIX, musl), and why that finds
    the options wherever they stand; the C library's number readers. *)

From Stdlib Require Import String.
From S2P Require Import Prelude CtrlMsg Monad LcText LcTuning LcHttp.
#[local] Open Scope Z_scope.

(** ** Numbers *)

(** [atoi]; out of an [int]'s range C leaves it undefined. *)
Definition atoi (s : list Z) : Z := match strtol10 s with Some (v, _) => s32 v | None => 0 end.

Definition ULONG_MAX : Z := 2 ^ 64 - 1.

Fixpoint scan_base (base acc : Z) (s : list Z) : Z :=
  match s with
  | c :: s => match hex_value c with
              | Some d => if d <? base then scan_base base (acc * base + d) s else acc
              | None => acc
              end
  | [] => acc
  end.

(** [strtoul(s, NULL, base)], for base 10 and 0. *)
Definition strtoul (base : Z) (s : list Z) : Z :=
  let s := skip_spaces s in
  let '(neg, s) := match s with
                   | c :: s' => if c =? 0x2d then (true, s') else if c =? 0x2b then (false, s') else (false, s)
                   | [] => (false, s)
                   end in
  let '(base, s) := if base =? 0 then
                      match s with
                      | c :: s' =>
                          if c =? 0x30 then
                            match s' with
                            | x :: s'' => if (x =? 0x78) || (x =? 0x58) then (16, s'') else (8, s)
                            | [] => (8, s)
                            end
                          else (10, s)
                      | [] => (10, s)
                      end
                    else (base, s) in
  let v := scan_base base 0 s in
  if ULONG_MAX <? v then ULONG_MAX else if neg then u64 (- v) else v.

(** ** The option string *)

(** Whether [c] is in it, and whether a colon follows there. *)
Definition opt_known (optstring : list Z) (c : Z) : bool := existsb (Z.eqb c) optstring.
Definition opt_takes (optstring : list Z) (c : Z) : bool :=
  match cut_at c optstring with
  | Some (_, p1 :: _) => p1 =? 0x3a
  | _ => false
  end.

(** ** [permute_argv] *)

(** [out] and [rest], behind [argv[0]]. *)
Fixpoint permute_loop (optstring : list Z) (args : list (list Z)) : list (list Z) * list (list Z) :=
  match args with
  | [] => ([], [])
  | a :: args' =>
      match a with
      | c0 :: c1 :: _ =>
          if c0 =? 0x2d then
            match args' with
            | v :: args'' =>
                if opt_takes optstring c1
                then let '(out, rest) := permute_loop optstring args'' in (a :: v :: out, rest)
                else let '(out, rest) := permute_loop optstring args' in (a :: out, rest)
            | [] => ([a], [])
            end
          else let '(out, rest) := permute_loop optstring args' in (out, a :: rest)
      | _ => let '(out, rest) := permute_loop optstring args' in (out, a :: rest)
      end
  end.

Definition permute_argv (args : list (list Z)) (optstring : list Z) : list (list Z) :=
  let '(out, rest) := permute_loop optstring args in out ++ rest.

(** ** [getopt] *)

(** The letters of one argument: the options it holds, and the last one when
    its value is the next argument.  [None] where [getopt] returns '?'. *)
Fixpoint getopt_word (optstring : list Z) (cs : list Z) : option (list (Z * list Z) * option Z) :=
  match cs with
  | [] => Some ([], None)
  | c :: cs =>
      if negb (opt_known optstring c) || (c =? 0x3a) then None
      else if opt_takes optstring c then
        match cs with
        | [] => Some ([], Some c)
        | _ => Some ([(c, cs)], None)
        end
      else '(l, next) ← getopt_word optstring cs; Some ((c, []) :: l, next)
  end.

(** All the calls of a [while ((opt = getopt(..)) != -1)] loop: the options with
    their [optarg], and the arguments from [optind] on. *)
Fixpoint getopt_all (optstring : list Z) (args : list (list Z)) : option (list (Z * list Z) * list (list Z)) :=
  match args with
  | [] => Some ([], [])
  | a :: args' =>
      match a with
      | c0 :: c1 :: cs =>
          if negb (c0 =? 0x2d) then Some ([], args)
          else if (c1 =? 0x2d) && bool_decide (cs = []) then Some ([], args')
          else
            match getopt_word optstring (c1 :: cs) with
            | None => None
            | Some (l, None) => '(opts, rest) ← getopt_all optstring args'; Some (l ++ opts, rest)
            | Some (l, Some c) =>
                match args' with
                | [] => None
                | v :: args'' => '(opts, rest) ← getopt_all optstring args''; Some (l ++ (c, v) :: opts, rest)
                end
            end
      | _ => Some ([], args)
      end
  end.

(** [permute_argv(argc, argv, optstring)] and the loop behind it. *)
Definition parse_opts (optstring : list Z) (args : list (list Z)) : option (list (Z * list Z) * list (list Z)) :=
  getopt_all optstring (permute_argv args optstring).

(** What the option loop leaves in a local: the last [-c] decides. *)
Definition last_opt {A} (c : Z) (f : list Z -> A) (init : A) (opts : list (Z * list Z)) : A :=
  fold_left (fun x '(k, v) => if k =? c then f v else x) opts init.
Definition has_opt (c : Z) (opts : list (Z * list Z)) : bool := existsb (fun '(k, _) => k =? c) opts.

(** ** The options, wherever they stand *)

(** What a command line is made of. *)
Inductive arg :=
  | Opt (c : Z) (v : list Z)
  | Flag (c : Z)
  | Word (w : list Z).

Definition spell (a : arg) : list (list Z) :=
  match a with
  | Opt c v => [[0x2d; c]; v]
  | Flag c => [[0x2d; c]]
  | Word w => [w]
  end.

Definition operand (w : list Z) : bool := match w with c :: _ :: _ => negb (c =? 0x2d) | _ => true end.

Definition arg_ok (optstring : list Z) (a : arg) : bool :=
  match a with
  | Opt c _ => opt_known optstring c && opt_takes optstring c && negb (c =? 0x3a) && negb (c =? 0x2d)
  | Flag c => opt_known optstring c && negb (opt_takes optstring c) && negb (c =? 0x3a) && negb (c =? 0x2d)
  | Word w => operand w
  end.

Definition options (l : list arg) : list (Z * list Z) :=
  flat_map (fun a => match a with Opt c v => [(c, v)] | Flag c => [(c, [])] | Word _ => [] end) l.
Definition operands (l : list arg) : list (list Z) := flat_map (fun a => match a with Word w => [w] | _ => [] end) l.

Lemma operands_stop optstring l : forallb operand l = true -> getopt_all optstring l = Some ([], l).
Proof.
  destruct l as [|w l]; [done|]; cbn [forallb]; intros [Hw _]%andb_true_iff; destruct w as [|c [|d w]]; [done..|]; cbn in *; by rewrite Hw.
Qed.

Definition is_word (a : arg) : bool := match a with Word _ => true | _ => false end.
Definition flags_of (l : list arg) : list arg := List.filter (fun a => negb (is_word a)) l.

Lemma permuted optstring l : forallb (arg_ok optstring) l = true ->
  permute_loop optstring (flat_map spell l) = (flat_map spell (flags_of l), operands l).
Proof.
  induction l as [|a l IH]; [done|]; cbn [forallb flat_map]; intros [Ha Hl]%andb_true_iff; specialize (IH Hl).
  destruct a as [c v|c|w]; cbn [spell app arg_ok flags_of List.filter is_word negb operands flat_map] in *; fold (flags_of l) in *; fold (operands l) in *.
  - rewrite !andb_true_iff in Ha; destruct Ha as [[[_ Ht] _] _]; cbn [permute_loop Z.eqb Pos.eqb]; by rewrite Ht, IH.
  - rewrite !andb_true_iff in Ha; destruct Ha as [[[_ Ht%negb_true_iff] _] _]; cbn [permute_loop Z.eqb Pos.eqb]; rewrite Ht, IH.
    destruct (flat_map spell l) eqn:E; [|done]; destruct l as [|a l]; [done|]; by destruct a.
  - cbn [permute_loop]; rewrite IH; destruct w as [|c0 [|c1 w]]; [done..|]; cbn [operand] in Ha; apply negb_true_iff in Ha; by rewrite Ha.
Qed.

Lemma getopt_flags optstring l rest : forallb (arg_ok optstring) l = true -> forallb (fun a => negb (is_word a)) l = true -> forallb operand rest = true ->
  getopt_all optstring (flat_map spell l ++ rest) = Some (options l, rest).
Proof.
  intros Hl Hw Hr; induction l as [|a l IH]; [by apply operands_stop|]; cbn [forallb flat_map] in *.
  apply andb_true_iff in Hl as [Ha Hl], Hw as [Hwa Hw]; specialize (IH Hl Hw).
  destruct a as [c v|c|w]; cbn [spell app arg_ok options flat_map] in *; fold (options l) in *; [| |done].
  - rewrite !andb_true_iff in Ha; destruct Ha as [[[Hk Ht] Hc%negb_true_iff] Hd%negb_true_iff].
    cbn [getopt_all Z.eqb Pos.eqb negb]; rewrite Hd; cbn [andb getopt_word]; by rewrite Hk, Hc, Ht, IH.
  - rewrite !andb_true_iff in Ha; destruct Ha as [[[Hk Ht%negb_true_iff] Hc%negb_true_iff] Hd%negb_true_iff].
    cbn [getopt_all Z.eqb Pos.eqb negb]; rewrite Hd; cbn [andb getopt_word]; rewrite Hk, Hc, Ht; cbn [negb orb mbind option_bind]; by rewrite IH.
Qed.

Lemma flags_ok optstring l : forallb (arg_ok optstring) l = true ->
  forallb (arg_ok optstring) (flags_of l) = true /\ forallb (fun a => negb (is_word a)) (flags_of l) = true /\
  forallb operand (operands l) = true /\ options (flags_of l) = options l.
Proof.
  induction l as [|a l IH]; [done|]; cbn [forallb]; intros [Ha Hl]%andb_true_iff; destruct (IH Hl) as (H1 & H2 & H3 & H4).
  destruct a as [c v|c|w]; cbn [flags_of List.filter is_word negb operands flat_map options app forallb arg_ok] in *;
    fold (flags_of l) in *; fold (operands l) in *; fold (options l) in *; rewrite ?H1, ?H2, ?H3, ?Ha; split_and!; try done.
  all: cbn [options flat_map app]; fold (options (flags_of l)); by rewrite ?H4.
Qed.

Lemma parse_spelled optstring l :
  forallb (arg_ok optstring) l = true -> parse_opts optstring (flat_map spell l) = Some (options l, operands l).
Proof.
  intros Hl; unfold parse_opts, permute_argv; rewrite permuted by done.
  destruct (flags_ok optstring l Hl) as (H1 & H2 & H3 & <-); by apply getopt_flags.
Qed.

(** The reference: [getopt] as glibc has it, which passes over operands and
    keeps them for the end. *)
Fixpoint gnu_getopt (optstring : list Z) (args : list (list Z)) : option (list (Z * list Z) * list (list Z)) :=
  match args with
  | [] => Some ([], [])
  | a :: args' =>
      match a with
      | c0 :: c1 :: cs =>
          if negb (c0 =? 0x2d) then '(opts, rest) ← gnu_getopt optstring args'; Some (opts, a :: rest)
          else if (c1 =? 0x2d) && bool_decide (cs = []) then Some ([], args')
          else
            match getopt_word optstring (c1 :: cs) with
            | None => None
            | Some (l, None) => '(opts, rest) ← gnu_getopt optstring args'; Some (l ++ opts, rest)
            | Some (l, Some c) =>
                match args' with
                | [] => None
                | v :: args'' => '(opts, rest) ← gnu_getopt optstring args''; Some (l ++ (c, v) :: opts, rest)
                end
            end
      | _ => '(opts, rest) ← gnu_getopt optstring args'; Some (opts, a :: rest)
      end
  end.

Lemma gnu_spelled optstring l :
  forallb (arg_ok optstring) l = true -> gnu_getopt optstring (flat_map spell l) = Some (options l, operands l).
Proof.
  induction l as [|a l IH]; [done|]; cbn [forallb flat_map]; intros [Ha Hl]%andb_true_iff; specialize (IH Hl).
  destruct a as [c v|c|w]; cbn [spell app arg_ok options operands flat_map] in *; fold (options l) in *; fold (operands l) in *.
  - rewrite !andb_true_iff in Ha; destruct Ha as [[[Hk Ht] Hc%negb_true_iff] Hd%negb_true_iff].
    cbn [gnu_getopt Z.eqb Pos.eqb negb]; rewrite Hd; cbn [andb getopt_word]; by rewrite Hk, Hc, Ht, IH.
  - rewrite !andb_true_iff in Ha; destruct Ha as [[[Hk Ht%negb_true_iff] Hc%negb_true_iff] Hd%negb_true_iff].
    cbn [gnu_getopt Z.eqb Pos.eqb negb]; rewrite Hd; cbn [andb getopt_word]; rewrite Hk, Hc, Ht; cbn [negb orb mbind option_bind]; by rewrite IH.
  - cbn [gnu_getopt]; rewrite IH; destruct w as [|c0 [|c1 w]]; [done..|]; cbn [operand] in Ha; by rewrite Ha.
Qed.

(** With its value attached, [-c] takes the next argument along, here [-d], whose
    value is then the first operand. *)
Lemma attached_moves optstring c v d w x :
  forallb (arg_ok optstring) [Opt c v; Opt d x; Word w; Word x] = true -> v <> [] ->
  parse_opts optstring [w; 0x2d :: c :: v; [0x2d; d]; x] = Some ([(c, v); (d, w)], [x]) /\
  gnu_getopt optstring [w; 0x2d :: c :: v; [0x2d; d]; x] = Some ([(c, v); (d, x)], [w]).
Proof.
  cbn [forallb arg_ok]; rewrite !andb_true_iff.
  intros ((((Kc & Tc) & Cc%negb_true_iff) & Dc%negb_true_iff) & (((Kd & Td) & Cd%negb_true_iff) & Dd%negb_true_iff) & Hw & Hx & _) Hv.
  destruct v as [|v0 v]; [done|].
  assert (Hword : forall y args, operand y = true ->
    permute_loop optstring (y :: args) = let '(out, rest) := permute_loop optstring args in (out, y :: rest)).
  { intros [|y0 [|y1 y]] args Hy; [done..|]; cbn [permute_loop operand] in *; apply negb_true_iff in Hy; by rewrite Hy. }
  assert (Hc : getopt_word optstring (c :: v0 :: v) = Some ([(c, v0 :: v)], None)) by (cbn [getopt_word]; by rewrite Kc, Cc, Tc).
  assert (Hd : getopt_word optstring [d] = Some ([], Some d)) by (cbn [getopt_word]; by rewrite Kd, Cd, Td).
  assert (Hgnu : forall y args, operand y = true -> gnu_getopt optstring (y :: args) = '(opts, rest) ← gnu_getopt optstring args; Some (opts, y :: rest)).
  { intros [|y0 [|y1 y]] args Hy; [done..|]; cbn [gnu_getopt operand] in *; by rewrite Hy. }
  assert (Hp : permute_loop optstring [x] = ([], [x])) by (by rewrite Hword).
  assert (Hg : getopt_all optstring [x] = Some ([], [x])) by (apply operands_stop; cbn [forallb]; by rewrite Hx).
  split.
  - unfold parse_opts, permute_argv; rewrite Hword by done; cbn [permute_loop Z.eqb Pos.eqb] in *; rewrite Tc, Hp; cbn [app].
    cbn [getopt_all Z.eqb Pos.eqb negb] in *; rewrite Dc, Hc; cbn [andb]; by rewrite Dd, Hd, Hg.
  - rewrite Hgnu by done; cbn [gnu_getopt Z.eqb Pos.eqb negb]; rewrite Dc, Hc; cbn [andb]; by rewrite Dd, Hd.
Qed.

(** C22. Options are found wherever they stand: on every command line made of
    the command's flags, of flags with their value as the next argument
    (whatever that value looks like), and of operands, in any order, the
    reordering in front of a [getopt] that stops at the first operand gives
    what glibc's [getopt] gives -- exactly those options in their order and
    exactly those operands in theirs.  Values attached to their flag are not
    covered, and cannot be: behind an operand [w], an option with its value
    attached and a second option [-d x] end as [-d w] with the operand [x]. *)
Theorem options_anywhere optstring l :
  forallb (arg_ok optstring) l = true ->
  (parse_opts optstring (flat_map spell l) = gnu_getopt optstring (flat_map spell l) /\
   parse_opts optstring (flat_map spell l) = Some (options l, operands l)) /\
  (forall c v d w x, l = [Opt c v; Opt d x; Word w; Word x] -> v <> [] ->
     parse_opts optstring [w; 0x2d :: c :: v; [0x2d; d]; x] = Some ([(c, v); (d, w)], [x]) /\
     gnu_getopt optstring [w; 0x2d :: c :: v; [0x2d; d]; x] = Some ([(c, v); (d, x)], [w])).
Proof.
  intros Hl; split; [by rewrite gnu_spelled, parse_spelled|]; intros c v d w x ->; by apply attached_moves.
Qed.

Lemma options_anywhere_witness :
  parse_opts (chars "u:w:") [chars "20"; chars "-w"; chars "-5"; chars "-u"; chars "1"; chars "x"] =
  Some ([(0x77, chars "-5"); (0x75, chars "1")], [chars "20"; chars "x"]).
Proof.
  exact (proj2 (proj1 (options_anywhere (chars "u:w:") [Word (chars "20"); Opt 0x77 (chars "-5"); Opt 0x75 (chars "1"); Word (chars "x")] eq_refl))).
Defined.

(** A value attached to its flag makes [permute_argv] take the next argument
    along: here the [-w] behind [-s0] takes the channel, and [3] is the operand. *)
Example attached_value :
  parse_opts (chars "w:s:") [chars "5"; chars "-s0"; chars "-w"; chars "3"] = Some ([(0x73, chars "0"); (0x77, chars "5")], [chars "3"]) /\
  gnu_getopt (chars "w:s:") [chars "5"; chars "-s0"; chars "-w"; chars "3"] = Some ([(0x73, chars "0"); (0x77, chars "3")], [chars "5"]).
Proof. split; vm_compute; reflexivity. Qed.
