(* ===== verification/CtlCmds.v ===== *)
(** [ar8030-linkctl], [linkctl/main.c]: the commands that change the link or
    read its sensors, from their arguments to the requests they make and the
    exit code.  What they print is left out. *)

From Stdlib Require Import String.
From S2P Require Import Prelude CtrlMsg ChipAdc Monad LcText LcTuning LcHttp CtlArgs.
#[local] Open Scope Z_scope.

(** ** The SDK *)

Inductive ctl_dir := BB_DIR_TX | BB_DIR_RX | BB_DIR_BOTH.

(** The requests, with the fields they fill in ([bb_rf_path_e]: whether it is
    path B; the modes of [BB_SET_POWER_MODE]: whether the loop is closed). *)
Module Req.
Inductive ctl_request :=
  | BB_SET_BANDWIDTH (slot : Z) (dir : ctl_dir) (bandwidth : bb_bandwidth)
  | BB_SET_CHAN_MODE (auto_mode : Z)
  | BB_SET_CHAN_RX (chan_index : Z)
  | BB_SET_REMOTE (slot : Z) (types : list remote_type) (auto_chan target_chan : Z)
  | BB_SET_MCS_MODE (slot auto_mode : Z)
  | BB_SET_MCS (slot mcs : Z)
  | BB_SET_MCS_RANGE (slot mcs_min mcs_max : Z)
  | BB_SET_FRAME_CHANGE (mode : Z)
  | BB_SET_TX_PATH (path_bmp : Z)
  | BB_GET_RF
  | BB_SET_RF (path_b : bool) (dir : ctl_dir) (state : Z)
  | BB_GET_POWER_MODE
  | BB_SET_POWER_MODE (closed_loop : bool)
  | BB_SET_POWER (usr pwr : Z)
  | BB_FORCE_CLS_SOCKET (slot port : Z)
  | BB_FORCE_CLS_SOCKET_ALL
  | BB_SET_FREQ (user : Z) (dir_bmp : ctl_dir) (freq_khz : Z)
  | BB_GET_RETX_EVENT_STATUS
  | BB_SET_RETX_EVENT_STATUS (cfg : retx_cfg).
End Req.

(** [bb_ioctl] on the open device for these, [BB_GET_STATUS] with its slots'
    link states, the daemon's log level, the session, and [usleep]. *)
Class CtlSdk (W : Type) := {
  BB_SLOT_MAX : nat;
  BB_PHY_MCS_MAX : Z;
  ctl_ioctl : Req.ctl_request -> W -> Z * W;
  ctl_status : W -> Z * list bb_link_state * W;
  ctl_set_dbg_level : list Z -> Z -> W -> W;
  ctl_get_dbg_level : list Z -> W -> Z * W;
  bb_host_connect : W -> Z * W;
  bb_dev_getlist : W -> Z * W;
  bb_dev_open : W -> bool * W;
  bb_dev_close : W -> W;
  bb_dev_freelist : W -> W;
  bb_host_disconnect : W -> W;
  usleep : Z -> W -> W
}.

(** ** Values *)

Definition parse_bandwidth (s : list Z) : option bb_bandwidth :=
  if bool_decide (s = chars "1.25") then Some BB_BW_1_25M
  else if bool_decide (s = chars "2.5") then Some BB_BW_2_5M
  else if bool_decide (s = chars "5") then Some BB_BW_5M
  else if bool_decide (s = chars "10") then Some BB_BW_10M
  else if bool_decide (s = chars "20") then Some BB_BW_20M
  else if bool_decide (s = chars "40") then Some BB_BW_40M
  else
    let '(v, rest) := match strtol10 s with Some r => r | None => (0, s) end in
    if bool_decide (rest = []) && (0 <=? v) then nth_error all_bandwidths (Z.to_nat v) else None.

Definition parse_dir (s : list Z) (allow_both : bool) : option ctl_dir :=
  if bool_decide (s = chars "tx") then Some BB_DIR_TX
  else if bool_decide (s = chars "rx") then Some BB_DIR_RX
  else if allow_both && bool_decide (s = chars "both") then Some BB_DIR_BOTH
  else None.

(** [-s slot|auto]: [slot], which [auto] leaves alone, and [slot_auto]. *)
Definition opt_slot (opts : list (Z * list Z)) : Z :=
  fold_left (fun x '(k, v) => if (k =? 0x73) && negb (bool_decide (v = chars "auto")) then atoi v else x) opts 0.
Definition opt_slot_auto (opts : list (Z * list Z)) : bool :=
  existsb (fun '(k, v) => (k =? 0x73) && bool_decide (v = chars "auto")) opts.

Section commands.
Context {W : Type} `{CtlSdk W} `{ChipIoctl W}.

(** ** Waiting for the link *)

Definition is_connect (st : bb_link_state) : bool := bool_decide (st = BB_LINK_STATE_CONNECT).
Definition sleep_us (us : Z) : M W unit := fun w => (tt, usleep us w).

(** The loop runs for [timeout_s * 1000 / 500] rounds. *)
Fixpoint wait_loop (slot : Z) (rounds : nat) : M W Z :=
  match rounds with
  | O => mret (-1)
  | S rounds =>
      '(ret, links) ← ctl_status;
      if (ret =? 0) && (slot <? Z.of_nat BB_SLOT_MAX) && is_connect (nth (Z.to_nat slot) links BB_LINK_STATE_IDLE) then mret 0
      else sleep_us (500 * 1000) ;; wait_loop slot rounds
  end.
Definition wait_for_connect (slot timeout_s : Z) : M W Z := wait_loop slot (Z.to_nat (timeout_s * 2)).

Fixpoint first_connected (s : Z) (links : list bb_link_state) : option Z :=
  match links with
  | [] => None
  | st :: links => if is_connect st then Some s else first_connected (s + 1) links
  end.

(** At least one round; -1 is [None]. *)
Fixpoint resolve_loop (rounds : nat) : M W (option Z) :=
  '(ret, links) ← ctl_status;
  match (if ret =? 0 then first_connected 0 (take BB_SLOT_MAX links) else None) with
  | Some s => mret (Some s)
  | None =>
      match rounds with
      | O => mret None
      | S rounds => sleep_us (500 * 1000) ;; resolve_loop rounds
      end
  end.
Definition resolve_connected_slot (timeout_s : Z) : M W (option Z) := resolve_loop (Z.to_nat (timeout_s * 2) - 1).

(** [ret ? 1 : 0] *)
Definition exit_code (ret : Z) : Z := if ret =? 0 then 0 else 1.
Definition one_request (r : Req.ctl_request) : M W Z := ret ← ctl_ioctl r; mret (exit_code ret).

(** [-s] and [-w] before a request; [None] where [-s auto] finds nobody. *)
Definition target_slot (opts : list (Z * list Z)) (wait_s : Z) : M W (option Z) :=
  if opt_slot_auto opts then resolve_connected_slot wait_s
  else
    let slot := opt_slot opts in
    (if 0 <? wait_s then _ ← wait_for_connect (u8 slot) wait_s; mret tt else mret tt) ;; mret (Some slot).

Definition wait_first (slot wait_s : Z) : M W unit := if 0 <? wait_s then _ ← wait_for_connect slot wait_s; mret tt else mret tt.

Definition opt_wait (opts : list (Z * list Z)) : Z := last_opt 0x77 atoi 0 opts.

(** ** Bandwidth, channel, MCS *)

Definition cmd_bandwidth (args : list (list Z)) : M W Z :=
  match parse_opts (chars "d:s:w:") args with
  | None => mret 1
  | Some (opts, rest) =>
      match last_opt 0x64 (fun v => parse_dir v false) (Some BB_DIR_TX) opts, rest with
      | None, _ | _, [] => mret 1
      | Some dir, value :: _ =>
          match parse_bandwidth value with
          | None => mret 1
          | Some bw =>
              slot ← target_slot opts (opt_wait opts);
              match slot with
              | None => mret 1
              | Some slot => one_request (Req.BB_SET_BANDWIDTH (u8 slot) dir bw)
              end
          end
      end
  end.

Definition auto_or_manual (v : list Z) : bool := bool_decide (v = chars "auto") || bool_decide (v = chars "manual").
Definition is_auto (v : list Z) : Z := bool_int (bool_decide (v = chars "auto")).

Definition cmd_channel_mode (args : list (list Z)) : M W Z :=
  match args with
  | [] => mret 1
  | v :: _ => if auto_or_manual v then one_request (Req.BB_SET_CHAN_MODE (is_auto v)) else mret 1
  end.

Definition cmd_channel (args : list (list Z)) : M W Z :=
  match parse_opts (chars "w:s:") args with
  | None => mret 1
  | Some (opts, rest) =>
      match rest with
      | [] => mret 1
      | value :: _ =>
          let index := atoi value in
          slot ← target_slot opts (opt_wait opts);
          match slot with
          | None => mret 1
          | Some slot =>
              ret ← ctl_ioctl (Req.BB_SET_CHAN_MODE 0);
              if negb (ret =? 0) then mret 1
              else
                ret ← ctl_ioctl (Req.BB_SET_CHAN_RX (u8 index));
                if negb (ret =? 0) then mret 1
                else one_request (Req.BB_SET_REMOTE (u8 slot) [BB_REMOTE_TYPE_CHAN_MODE; BB_REMOTE_TYPE_TARGET_CHAN] 0 (u8 index))
          end
      end
  end.

Definition cmd_mcs_mode (args : list (list Z)) : M W Z :=
  match parse_opts (chars "s:") args with
  | Some (opts, v :: _) => if auto_or_manual v then one_request (Req.BB_SET_MCS_MODE (u8 (last_opt 0x73 atoi 0 opts)) (is_auto v)) else mret 1
  | _ => mret 1
  end.

Definition cmd_mcs (args : list (list Z)) : M W Z :=
  match parse_opts (chars "s:w:") args with
  | Some (opts, v :: _) =>
      let slot := last_opt 0x73 atoi 0 opts in
      wait_first (u8 slot) (opt_wait opts) ;; one_request (Req.BB_SET_MCS (u8 slot) (u8 (atoi v)))
  | _ => mret 1
  end.

Definition parse_mcs_or_max (s : list Z) : Z := if bool_decide (s = chars "max") then BB_PHY_MCS_MAX else atoi s.

Definition cmd_mcs_range (args : list (list Z)) : M W Z :=
  match parse_opts (chars "s:") args with
  | Some (opts, a :: b :: _) =>
      one_request (Req.BB_SET_MCS_RANGE (u8 (last_opt 0x73 atoi 0 opts)) (u8 (parse_mcs_or_max a)) (u8 (parse_mcs_or_max b)))
  | _ => mret 1
  end.

(** Every entry is pushed, whatever becomes of the others. *)
Fixpoint push_mcs_items (t : list mcs_item) (only_mcs fail : Z) : M W Z :=
  match t with
  | [] => mret fail
  | e :: t =>
      if (0 <=? only_mcs) && negb (mi_mcs e =? only_mcs) then push_mcs_items t only_mcs fail
      else
        ret ← ar8030_set_mcs_item e;
        push_mcs_items t only_mcs (if ret =? 0 then fail else 1)
  end.

Definition cmd_mcs_table (args : list (list Z)) : M W Z :=
  match args with
  | [] => mret 1
  | v :: more =>
      let variant := atoi v in
      if (variant <? 0) || (2 <? variant) then mret 1
      else push_mcs_items (ar8030_gnd_mcs_table variant) (match more with m :: _ => atoi m | [] => -1 end) 0
  end.

Definition cmd_mcs_table_air : M W Z := push_mcs_items ar8030_air_mcs_table (-1) 0.

(** ** Other requests *)

Definition cmd_frame_change (args : list (list Z)) : M W Z :=
  match args with
  | [] => mret 1
  | v :: _ => one_request (Req.BB_SET_FRAME_CHANGE (if atoi v =? 0 then 0 else 1))
  end.

(** The command, three zero bytes, the payload, zeros up to 256 bytes. *)
Definition cmd_prj_cmd (args : list (list Z)) : M W Z :=
  match args with
  | [] => mret 1
  | cmd :: bytes =>
      if 252 <? zlen bytes then mret 1
      else
        let data := map (fun v => u8 (strtoul 0 v)) bytes in
        '(ret, _) ← bb_ioctl (BB_SET_PRJ_DISPATCH ([u8 (strtoul 0 cmd); 0; 0; 0] ++ data ++ replicate (Z.to_nat (252 - zlen data)) 0));
        mret (exit_code ret)
  end.

Definition cmd_tx_path (args : list (list Z)) : M W Z :=
  match args with
  | [v] => one_request (Req.BB_SET_TX_PATH (u8 (strtoul 0 v)))
  | _ => mret 1
  end.

Definition cmd_rf (args : list (list Z)) : M W Z :=
  match args with
  | [] => one_request Req.BB_GET_RF
  | [path; dir; state] =>
      if (bool_decide (path = chars "a") || bool_decide (path = chars "b")) &&
         (bool_decide (dir = chars "tx") || bool_decide (dir = chars "rx")) &&
         (bool_decide (state = chars "0") || bool_decide (state = chars "1"))
      then one_request (Req.BB_SET_RF (negb (bool_decide (path = chars "a")))
                          (if bool_decide (dir = chars "tx") then BB_DIR_TX else BB_DIR_RX) (u8 (atoi state)))
      else mret 1
  | _ => mret 1
  end.

Definition cmd_power_mode (args : list (list Z)) : M W Z :=
  match args with
  | [] => one_request Req.BB_GET_POWER_MODE
  | v :: _ => if auto_or_manual v then one_request (Req.BB_SET_POWER_MODE (bool_decide (v = chars "auto"))) else mret 1
  end.

Definition cmd_power (args : list (list Z)) : M W Z :=
  match parse_opts (chars "u:w:") args with
  | Some (opts, v :: _) =>
      let dbm := atoi v in
      if (dbm <? 0) || (31 <? dbm) then mret 1
      else wait_first 0 (opt_wait opts) ;; one_request (Req.BB_SET_POWER (u8 (last_opt 0x75 atoi 0 opts)) (u8 dbm))
  | _ => mret 1
  end.

Definition cmd_force_close_socket (args : list (list Z)) : M W Z :=
  match args with
  | slot :: port :: _ => one_request (Req.BB_FORCE_CLS_SOCKET (u8 (atoi slot)) (u8 (atoi port)))
  | _ => mret 1
  end.

Definition cmd_force_close_all : M W Z := one_request Req.BB_FORCE_CLS_SOCKET_ALL.

Definition cmd_freq (args : list (list Z)) : M W Z :=
  match parse_opts (chars "u:d:w:s:") args with
  | None => mret 1
  | Some (opts, rest) =>
      match parse_dir (last_opt 0x64 id (chars "tx") opts) true, rest with
      | None, _ | _, [] => mret 1
      | Some dir, v :: _ =>
          wait_first (u8 (last_opt 0x73 atoi 0 opts)) (opt_wait opts) ;;
          one_request (Req.BB_SET_FREQ (u8 (last_opt 0x75 atoi 0 opts)) dir (u32 (strtoul 10 v)))
      end
  end.

(** The values are read back and printed; that read's failure is ignored. *)
Definition cmd_retx (args : list (list Z)) : M W Z :=
  ret ← ctl_ioctl Req.BB_GET_RETX_EVENT_STATUS;
  if negb (ret =? 0) then mret 1
  else
    match args with
    | set :: values =>
        if negb (bool_decide (set = chars "--set")) then mret 0
        else
          match map (fun v => u8 (strtoul 10 v)) values with
          | [win; busy; idle; conti_busy; conti_idle] =>
              ret ← ctl_ioctl (Req.BB_SET_RETX_EVENT_STATUS (mk_retx win busy idle conti_busy conti_idle));
              if negb (ret =? 0) then mret 1
              else _ ← ctl_ioctl Req.BB_GET_RETX_EVENT_STATUS; mret 0
          | _ => mret 1
          end
    | [] => mret 0
    end.

(** [-1] for no such name; the loop takes the last one that matches. *)
Definition level_of (v : list Z) : Z :=
  fold_left (fun lv '(i, name) => if bool_decide (v = name) then i else lv)
    [(0, chars "debug"); (1, chars "info"); (2, chars "warn"); (3, chars "error")] (-1).

Definition cmd_daemon_log (args : list (list Z)) : M W Z :=
  match args with
  | v :: _ =>
      let lv := level_of v in
      if lv <? 0 then mret 1
      else
        (fun w => (tt, ctl_set_dbg_level (chars "print_level") lv w)) ;;
        _ ← ctl_get_dbg_level (chars "print_level"); mret 0
  | [] => _ ← ctl_get_dbg_level (chars "print_level"); mret 0
  end.

(** ** The sensors *)

Definition AR8030_RFTEMP_DEFAULT_ADC : Z := 4.
Definition AR8030_BATT_DEFAULT_ADC : Z := 0.
Definition AR8030_BATT_DEFAULT_SCALE : Z := 16.
Definition AR8030_BATT_DEFAULT_OFFSET_MV : Z := 1200.

Definition read_mv (channel : Z) : M W (Z * option Z) := fun w => let '(ret, mv, w) := ar8030_rftemp_read_mv channel w in ((ret, mv), w).

(** The first reading, unless [-a], and whether the channel is (re)armed and
    waited for; [None] when arming fails. *)
Definition read_or_arm (channel : Z) (force_arm : bool) : M W (option (bool * Z * Z)) :=
  '(ret, mv) ← (if force_arm then mret (-1, None) else read_mv channel);
  let mv := match mv with Some mv => mv | None => 0 end in
  if negb (ret =? 0) || (mv <=? 0) then
    ret ← ar8030_rftemp_arm channel;
    if negb (ret =? 0) then mret None
    else sleep_us ((AR8030_RFTEMP_ARM_PERIOD + 200) * 1000) ;; mret (Some (true, ret, mv))
  else mret (Some (false, ret, mv)).

Definition read_again (armed : bool) (channel ret mv : Z) : M W (Z * Z) :=
  if armed then '(ret, again) ← read_mv channel; mret (ret, match again with Some mv => mv | None => mv end) else mret (ret, mv).

(** The exit code and, with 0, the millivolts and the tenths of a degree printed. *)
Definition cmd_rf_temp (args : list (list Z)) : M W (Z * option (Z * Z)) :=
  match parse_opts (chars "c:a") args with
  | None => mret (1, None)
  | Some (opts, _) =>
      let channel := last_opt 0x63 atoi AR8030_RFTEMP_DEFAULT_ADC opts in
      first ← read_or_arm channel (has_opt 0x61 opts);
      match first with
      | None => mret (1, None)
      | Some (armed, ret, mv) =>
          '(ret, mv) ← read_again armed channel ret mv;
          if negb (ret =? 0) then mret (1, None)
          else
            let c10 := ar8030_rftemp_mv_to_c10 mv in
            if c10 =? AR8030_RFTEMP_NONE then mret (1, None) else mret (0, Some (mv, c10))
      end
  end.

(** [count] reads, 250 ms apart: sum, lowest and highest; [None] when one fails. *)
Fixpoint batt_loop (channel : Z) (i : Z) (count : nat) (sum lo hi : Z) : M W (option (Z * Z * Z)) :=
  match count with
  | O => mret (Some (sum, lo, hi))
  | S count =>
      (if negb (i =? 0) then sleep_us (250 * 1000) else mret tt) ;;
      '(ret, mv) ← read_mv channel;
      match ret, mv with
      | 0, Some mv =>
          batt_loop channel (i + 1) count (sum + mv) (if (i =? 0) || (mv <? lo) then mv else lo) (if (i =? 0) || (hi <? mv) then mv else hi)
      | _, _ => mret None
      end
  end.

(** The exit code and, with 0, average, lowest and highest reading and supply. *)
Definition cmd_batt (args : list (list Z)) : M W (Z * option (Z * Z * Z * Z)) :=
  match parse_opts (chars "c:k:o:n:a") args with
  | None => mret (1, None)
  | Some (opts, _) =>
      let channel := last_opt 0x63 atoi AR8030_BATT_DEFAULT_ADC opts in
      let scale := last_opt 0x6b atoi AR8030_BATT_DEFAULT_SCALE opts in
      let offset := last_opt 0x6f atoi AR8030_BATT_DEFAULT_OFFSET_MV opts in
      let count := Z.max 1 (last_opt 0x6e atoi 10 opts) in
      first ← read_or_arm channel (has_opt 0x61 opts);
      match first with
      | None => mret (1, None)
      | Some _ =>
          r ← batt_loop channel 0 (Z.to_nat count) 0 0 0;
          match r with
          | None => mret (1, None)
          | Some (sum, lo, hi) =>
              let avg := Z.quot sum count in
              let batt := ar8030_batt_mv avg scale offset in
              if batt <? 0 then mret (1, None) else mret (0, Some (avg, lo, hi, batt))
          end
      end
  end.

End commands.
