(* ===== verification/CtlMeter.v ===== *)
(** [ar8030-linkctl], [linkctl/main.c]: the commands that measure or watch the
    link or read the chip out - [status], [rtt], [blast], [rate], [chip-cli],
    [cfg-dump], [distance], [retx-watch].  What they print is their result,
    as values; the text around it is left out. *)

From Stdlib Require Import String.
From stdpp Require Import sorting.
From S2P Require Import Prelude Double CtrlMsg RetxEvent ChipAdc Monad LcText LcTuning LcHttp CtlArgs CtlCmds.
#[local] Open Scope Z_scope.

(** ** What the chip answers *)

(** [bb_link_status_t], [bb_phy_status_t], [bb_get_status_out_t]. *)
Record link_status := mk_link { ln_state : Z; ln_peer_mac : list Z; ln_rx_mcs : Z }.
Record phy_status := mk_phy { ph_mcs : Z; ph_bandwidth : Z; ph_freq_khz : Z }.
Record status_out := mk_status_out {
  so_role : Z; so_mode : Z; so_cfg_sbmp : Z; so_rt_sbmp : Z; so_link_status : list link_status; so_user_status : list (phy_status * phy_status)
}.
(** [bb_get_chan_info_out_t], one side of [bb_get_1v1_info_out_t], [bb_quality_t]. *)
Record chan_out := mk_chan_out { co_chan_num : Z; co_auto_mode : Z; co_work_chan : Z; co_acs_chan : Z; co_freq : list Z }.
Record info_side := mk_info { in_snr : Z; in_gain_a : Z; in_gain_b : Z; in_tx_mcs : Z; in_tx_chan : Z; in_tx_power : Z; in_rf_1tx : Z }.
Record quality := mk_quality { q_snr : Z; q_ldpc_err : Z; q_ldpc_num : Z; q_gain_a : Z; q_gain_b : Z }.
(** One direction of a port, [bb_get_sock_info_out_t]: the open ports and, for
    each, TX and RX. *)
Record sock_uni := mk_uni { su_total_size : Z; su_overflow_cnt : Z; su_data_size : Z; su_buf_size : Z; su_available : Z }.
Record sock_out := mk_sock_out { sk_port_bmp : Z; sk_info : list (sock_uni * sock_uni) }.
(** [bb_get_cfg_out_t]: the length is the chip's own. *)
Record cfg_page := mk_page { pg_total_length : Z; pg_total_crc16 : Z; pg_length : Z; pg_data : list Z }.

(** [struct timespec] *)
Definition timespec : Type := Z * Z.

(** The requests of these commands; the debug channel; a data socket; the event
    subscription, and the events that have come since it was last asked; memory;
    an output file; the clocks ([CLOCK_MONOTONIC], [CLOCK_REALTIME]); the flag
    of Ctrl-C. *)
Class CtlMeter (W : Type) := {
  BB_DATA_USER_MAX : nat;
  BB_SOCK_INFO_NUM : nat;
  BB_CONFIG_MAX_CHAN_NUM : Z;
  BB_LINK_STATE_MAX : Z;
  BB_ROLE_AP : Z;
  BB_USER_BR_CS : Z;
  BB_USER_0 : Z;
  BB_CFG_PAGE_SIZE : Z;
  BB_CFG_DATA_SIZE : Z;
  get_status : W -> Z * status_out * W;
  get_chan_info : W -> Z * chan_out * W;
  get_mcs : Z -> W -> Z * (Z * Z) * W;
  get_1v1_info : W -> Z * (info_side * info_side) * W;
  get_user_quality : W -> Z * quality * W;
  get_peer_quality : Z -> W -> Z * quality * W;
  get_distance : Z -> W -> Z * list Z * W;
  get_power_mode : W -> Z * Z * W;
  get_cur_power : Z -> W -> Z * Z * W;
  get_sock_info : Z -> W -> Z * sock_out * W;
  get_cfg : Z -> Z -> Z -> Z -> W -> Z * cfg_page * W;
  dbg_setup : Z -> W -> bool * W;
  dbg_write : list Z -> W -> W;
  bb_socket_open : Z -> Z -> Z -> W -> Z * W;
  bb_socket_write : Z -> list Z -> Z -> W -> Z * W;
  bb_socket_close : Z -> W -> W;
  subscribe_retx : W -> Z * W;
  unsubscribe_retx : W -> W;
  retx_events : W -> list (option (list Z)) * W;
  alloc : Z -> W -> option Z * W;
  release : option Z -> W -> W;
  fopen_write : list Z -> W -> bool * W;
  fwrite : list Z -> W -> W;
  fclose : W -> W;
  clock_monotonic : W -> timespec * W;
  clock_realtime : W -> timespec * W;
  sleep : Z -> W -> W;
  stop_watch : W -> bool * W
}.

Section meter.
Context {W : Type} `{CtlSdk W} `{CtlMeter W}.

(** The numbers of the bits set: [print_bit_list]. *)
Definition bit_list (bmp : Z) (count : nat) : list Z := List.filter (Z.testbit bmp) (seqZ 0 (Z.of_nat count)).

(** ** rtt *)

Definition us_between (a b : timespec) : Z := Z.quot ((b.1 - a.1) * 1000000000 + (b.2 - a.2)) 1000.

(** [None] when a request fails. *)
Fixpoint rtt_loop (n : nat) (us : list Z) : M W (option (list Z)) :=
  match n with
  | O => mret (Some us)
  | S n =>
      a ← clock_monotonic;
      '(ret, _) ← get_status;
      if negb (ret =? 0) then mret None
      else b ← clock_monotonic; rtt_loop n (us ++ [u64 (us_between a b)])
  end.

(** Smallest, median, 90th and 99th percentile, largest, of the sorted times; the
    products stay in an [int] up to twenty million of them. *)
Definition percentiles (us : list Z) : Z * Z * Z * Z * Z :=
  let n := zlen us in
  let s := merge_sort Z.le us in
  (byte_at s 0, byte_at s (Z.quot n 2), byte_at s (Z.quot (n * 9) 10), byte_at s (Z.quot (n * 99) 100), byte_at s (n - 1)).

Definition cmd_rtt (args : list (list Z)) : M W (Z * option (Z * Z * Z * Z * Z)) :=
  match getopt_all (chars "n:") args with
  | None => mret (1, None)
  | Some (opts, _) =>
      let n := Z.max 1 (last_opt 0x6e atoi 200 opts) in
      us ← alloc (n * 8);
      match us with
      | None => mret (1, None)
      | Some _ =>
          r ← rtt_loop (Z.to_nat n) [];
          modify (release us) ;;
          match r with
          | None => mret (1, None)
          | Some times => mret (0, Some (percentiles times))
          end
      end
  end.

(** ** blast *)

Definition MAX_CALLS : Z := 200000.

Record blast := mk_blast {
  bl_bytes : Z; bl_calls : Z; bl_partial : Z; bl_fails : Z; bl_call_us : list Z; bl_times : list (Z * Z); bl_elapsed : double
}.
#[export] Instance eta_blast : Eta blast := fun b =>
  mk_blast (bl_bytes b) (bl_calls b) (bl_partial b) (bl_fails b) (bl_call_us b) (bl_times b) (bl_elapsed b).
Definition blast_init : blast := mk_blast 0 0 0 0 [] [] (dofZ 0).

Definition realtime_us : M W Z := ts ← clock_realtime; mret (u64 (ts.1 * 1000000 + Z.quot ts.2 1000)).

(** [-i]: wait until the next write is due. *)
Definition pace (interval_us : Z) (t0 : timespec) (calls : Z) : M W unit :=
  if interval_us =? 0 then mret tt
  else
    t1 ← clock_monotonic;
    let due := calls * interval_us in
    let now := (t1.1 - t0.1) * 1000000 + Z.quot (t1.2 - t0.2) 1000 in
    when (now <? due) (fun w => (tt, usleep (due - now) w)).

(** One write of [chunk] bytes and its bookkeeping. *)
Definition blast_write (fd chunk : Z) (want_times : bool) (t0 : timespec) (b : blast) : M W blast :=
  rt0 ← (if want_times then realtime_us else mret 0);
  before ← clock_monotonic;
  wr ← bb_socket_write fd (replicate (Z.to_nat chunk) 0x55) 2500;
  after ← clock_monotonic;
  times ← (if want_times && (bl_calls b <? MAX_CALLS) then rt1 ← realtime_us; mret (bl_times b ++ [(rt0, rt1)]) else mret (bl_times b));
  let b := b <| bl_times := times |>
             <| bl_call_us := if bl_calls b <? MAX_CALLS then bl_call_us b ++ [u32 (us_between before after)] else bl_call_us b |>
             <| bl_calls := u64 (bl_calls b + 1) |> in
  let b := if wr <=? 0 then b <| bl_fails := u64 (bl_fails b + 1) |>
           else b <| bl_bytes := u64 (bl_bytes b + wr) |>
                  <| bl_partial := if u32 wr <? chunk then u64 (bl_partial b + 1) else bl_partial b |> in
  t1 ← clock_monotonic;
  mret (b <| bl_elapsed := (dofZ (t1.1 - t0.1) + dofZ (t1.2 - t0.2) / dofZ 1000000000)%D |>).

(** [None]: the fuel is used up. *)
Fixpoint blast_loop (fuel : nat) (fd chunk interval_us secs : Z) (want_times : bool) (t0 : timespec) (b : blast) : M W (option blast) :=
  if (bl_elapsed b <? dofZ secs)%D then
    match fuel with
    | O => mret None
    | S fuel =>
        pace interval_us t0 (bl_calls b) ;;
        b ← blast_write fd chunk want_times t0 b;
        blast_loop fuel fd chunk interval_us secs want_times t0 b
    end
  else mret (Some b).

(** What is printed of the call times: [None] without a call, when the code reads
    in front of its array. *)
Definition call_times (us : list Z) : option (Z * Z * Z * Z) :=
  if bool_decide (us = []) then None
  else
    let n := zlen us in
    let s := merge_sort Z.le us in
    Some (byte_at s 0, byte_at s (Z.quot n 2), byte_at s (Z.quot (n * 9) 10), byte_at s (n - 1)).

(** The lines of the file of [-T]. *)
Definition seconds_text (us : Z) : list Z :=
  let frac := fmt_dec (us mod 1000000) in
  fmt_dec (us / 1000000) ++ chars "." ++ replicate (6 - length frac) 0x30 ++ frac.
Definition times_text (times : list (Z * Z)) : list Z :=
  concat ((fun t => seconds_text t.1 ++ chars " " ++ seconds_text t.2 ++ [10]) <$> times).

Definition write_times (path : list Z) (times : list (Z * Z)) : M W unit :=
  ok ← fopen_write path;
  when ok (modify (fwrite (times_text times)) ;; modify fclose).

(** The exit code ([None]: the fuel is used up) and the counts. *)
Definition cmd_blast (fuel : nat) (args : list (list Z)) : M W (option (Z * option (blast * option (Z * Z * Z * Z)))) :=
  match getopt_all (chars "o:t:c:B:i:T:") args with
  | None => mret (Some (1, None))
  | Some (opts, _) =>
      let port := last_opt 0x6f atoi 2 opts in
      let secs := last_opt 0x74 atoi 5 opts in
      let chunk := last_opt 0x63 (fun v => u32 (strtoul 0 v)) 65535 opts in
      let tx_buf := last_opt 0x42 (fun v => u32 (strtoul 0 v)) (64 * 1024) opts in
      let interval_us := last_opt 0x69 (fun v => u32 (strtoul 0 v)) 0 opts in
      let times_path := last_opt 0x54 Some None opts in
      slot ← resolve_connected_slot 2;
      match slot with
      | None => mret (Some (1, None))
      | Some slot =>
          _ ← ctl_ioctl (Req.BB_FORCE_CLS_SOCKET (u8 slot) (u8 port));
          fd ← bb_socket_open slot (u32 port) tx_buf;
          if fd <? 0 then mret (Some (1, None))
          else
            buf ← alloc chunk;
            call_us ← alloc (MAX_CALLS * 4);
            times ← (if bool_decide (times_path = None) then mret None else alloc (MAX_CALLS * 2 * 8));
            if bool_decide (buf = None) || bool_decide (call_us = None) || (negb (bool_decide (times_path = None)) && bool_decide (times = None)) then
              modify (bb_socket_close fd) ;; modify (release buf) ;; modify (release call_us) ;; modify (release times) ;; mret (Some (1, None))
            else
              t0 ← clock_monotonic;
              r ← blast_loop fuel fd chunk interval_us secs (negb (bool_decide (times = None))) t0 blast_init;
              match r with
              | None => mret None
              | Some b =>
                  modify (bb_socket_close fd) ;;
                  match times_path with
                  | Some path => write_times path (bl_times b) ;; modify (release times)
                  | None => mret tt
                  end ;;
                  modify (release buf) ;; modify (release call_us) ;;
                  mret (Some (0, Some (b, call_times (bl_call_us b))))
              end
      end
  end.

(** ** status *)

(** The lines, in order. *)
Inductive status_line :=
  | L_role (role mode : Z)
  | L_channel (chan_num auto_mode work_chan acs_chan freq_khz : Z)
  | L_configured (slots : list Z)
  | L_active (slots : list Z)
  | L_slot (s state : Z) (peer_mac : list Z) (rx_mcs : Z)
  | L_user (u : Z) (tx rx : phy_status)
  | L_mcs (mcs throughput : Z)
  | L_1v1 (self peer : info_side)
  | L_user_quality (q : quality) (ldpc_ratio : double)
  | L_peer_quality (q : quality) (ldpc_ratio : double)
  | L_no_distance (s : Z)
  | L_distance (s distance : Z)
  | L_power_mode (mode : Z)
  | L_cur_power (usr pwr : Z)
  | L_open_ports (ports : list Z)
  | L_port (p tx_bytes tx_overflow rx_bytes rx_overflow : Z).

(** A request that is skipped when it fails. *)
Definition on_success {A} (m : W -> Z * A * W) (f : A -> list status_line) : M W (list status_line) :=
  '(ret, out) ← (m : M W (Z * A)); mret (if (ret : Z) =? 0 then f out else []).

Definition channel_line (out : chan_out) : list status_line :=
  let cur_freq := if (co_work_chan out <? co_chan_num out) && (co_work_chan out <? BB_CONFIG_MAX_CHAN_NUM)
                  then byte_at (co_freq out) (co_work_chan out) else 0 in
  [L_channel (co_chan_num out) (co_auto_mode out) (co_work_chan out) (co_acs_chan out) cur_freq].

Definition slot_lines (st : status_out) : list status_line :=
  omap (fun s =>
      match nth_error (so_link_status st) (Z.to_nat s) with
      | Some ls =>
          if negb (Z.testbit (so_cfg_sbmp st) s) then None
          else if BB_LINK_STATE_MAX <=? ln_state ls then None
          else Some (L_slot s (ln_state ls) (ln_peer_mac ls) (ln_rx_mcs ls))
      | None => None
      end) (seqZ 0 (Z.of_nat BB_SLOT_MAX)).

Definition user_lines (st : status_out) : list status_line :=
  omap (fun u =>
      match nth_error (so_user_status st) (Z.to_nat u) with
      | Some (tx, rx) => if (ph_freq_khz tx =? 0) && (ph_freq_khz rx =? 0) then None else Some (L_user u tx rx)
      | None => None
      end) (seqZ 0 (Z.of_nat BB_DATA_USER_MAX)).

Definition heard (q : quality) : bool := negb (q_snr q =? 0) || negb (q_ldpc_num q =? 0) || negb (q_gain_a q =? 0) || negb (q_gain_b q =? 0).
Definition ldpc_ratio (q : quality) : double := if q_ldpc_num q =? 0 then dofZ 0 else ddiv (dofZ (q_ldpc_err q)) (dofZ (q_ldpc_num q)).

Definition distance_lines (cfg_sbmp : Z) (distance : list Z) : list status_line :=
  (fun s => let d := byte_at distance s in if d <? 0 then L_no_distance s else L_distance s d) <$> bit_list cfg_sbmp BB_SLOT_MAX.

Definition port_lines (out : sock_out) : list status_line :=
  L_open_ports (bit_list (sk_port_bmp out) BB_SOCK_INFO_NUM) ::
  omap (fun p => '(tx, rx) ← nth_error (sk_info out) (Z.to_nat p);
                 Some (L_port p (su_total_size tx) (su_overflow_cnt tx) (su_total_size rx) (su_overflow_cnt rx)))
       (bit_list (sk_port_bmp out) BB_SOCK_INFO_NUM).

Definition cmd_status (args : list (list Z)) : M W (Z * list status_line) :=
  match getopt_all (chars "s:") args with
  | None => mret (1, [])
  | Some (opts, _) =>
      let slot := last_opt 0x73 atoi 0 opts in
      '(ret, st) ← get_status;
      if negb (ret =? 0) then mret (1, [])
      else
        chan ← on_success get_chan_info channel_line;
        mcs ← on_success (get_mcs (u8 slot)) (fun '(mcs, throughput) => [L_mcs mcs throughput]);
        info ← on_success get_1v1_info (fun '(self, peer) => [L_1v1 self peer]);
        uq ← on_success get_user_quality (fun q => if heard q then [L_user_quality q (ldpc_ratio q)] else []);
        pq ← on_success (get_peer_quality (so_cfg_sbmp st))
               (fun q => if Z.testbit (so_cfg_sbmp st) 0 && heard q then [L_peer_quality q (ldpc_ratio q)] else []);
        dist ← on_success (get_distance (so_cfg_sbmp st)) (distance_lines (so_cfg_sbmp st));
        mode ← on_success get_power_mode (fun m => [L_power_mode m]);
        let usr := if so_role st =? BB_ROLE_AP then BB_USER_BR_CS else BB_USER_0 in
        pwr ← on_success (get_cur_power usr) (fun p => [L_cur_power usr p]);
        ports ← on_success (get_sock_info (u8 slot)) port_lines;
        mret (0, [L_role (so_role st) (so_mode st)] ++ chan ++
                 [L_configured (bit_list (so_cfg_sbmp st) BB_SLOT_MAX); L_active (bit_list (so_rt_sbmp st) BB_SLOT_MAX)] ++
                 slot_lines st ++ user_lines st ++ mcs ++ info ++ uq ++ pq ++ dist ++ mode ++ pwr ++ ports)
  end.

(** ** rate *)

Definition mono_ms : M W Z := ts ← clock_monotonic; mret (u64 (u64 (ts.1 * 1000) + Z.quot ts.2 1000000)).

(** Mbit/s of one direction between two samples. *)
Definition mbit (u0 u1 : sock_uni) (dt : double) : double :=
  (dofZ (u64 (su_total_size u1 - su_total_size u0)) * dofZ 8 / dt / dofZ 1000000)%D.

(** The ports open at the second sample: TX and RX. *)
Definition rates (a b : sock_out) (dt : double) : list (Z * double * double) :=
  omap (fun p => '(tx0, rx0) ← nth_error (sk_info a) (Z.to_nat p);
                 '(tx1, rx1) ← nth_error (sk_info b) (Z.to_nat p);
                 Some (p, mbit tx0 tx1 dt, mbit rx0 rx1 dt))
       (bit_list (sk_port_bmp b) BB_SOCK_INFO_NUM).

Definition any_counted (b : sock_out) : bool :=
  existsb (fun p => match nth_error (sk_info b) (Z.to_nat p) with
                    | Some (tx, rx) => negb (su_total_size tx =? 0) || negb (su_total_size rx =? 0)
                    | None => false
                    end) (bit_list (sk_port_bmp b) BB_SOCK_INFO_NUM).

(** The exit code; the theoretical throughput in kbit/s, if there is one, the
    measured rates, and whether any counter is not zero. *)
Definition cmd_rate (args : list (list Z)) : M W (Z * option (option (Z * Z) * list (Z * double * double) * bool)) :=
  match parse_opts (chars "s:") args with
  | None => mret (1, None)
  | Some (opts, rest) =>
      let slot := last_opt 0x73 atoi 0 opts in
      let seconds := Z.max 1 (match rest with v :: _ => atoi v | [] => 5 end) in
      '(ret, a) ← get_sock_info (u8 slot);
      if negb (ret =? 0) then mret (1, None)
      else
        t0 ← mono_ms;
        modify (sleep seconds) ;;
        '(ret, b) ← get_sock_info (u8 slot);
        if negb (ret =? 0) then mret (1, None)
        else
          t1 ← mono_ms;
          let dt := (dofZ (u64 (t1 - t0)) / dofZ 1000)%D in
          '(ret, mcs) ← get_mcs (u8 slot);
          mret (0, Some (if ret =? 0 then Some mcs else None, rates a b dt, any_counted b))
  end.

(** ** chip-cli *)

(** [None]: the options or the command are refused. *)
Definition cmd_chip_cli (args : list (list Z)) : M W Z :=
  match getopt_all (chars "w:") args with
  | None => mret 1
  | Some (opts, rest) =>
      match rest with
      | [] => mret 1
      | cmd :: _ =>
          ok ← dbg_setup 2000;
          if negb ok then mret 1
          else
            let n := zlen cmd + 1 in
            if (n <=? 1) || (256 <=? n) then mret 1
            else
              modify (dbg_write (cmd ++ [13])) ;;
              modify (usleep (u32 (u32 (last_opt 0x77 atoi 1500 opts) * 1000))) ;;
              mret 0
      end
  end.

(** ** cfg-dump *)

(** One round per page: the exit code, the bytes, and the offset reached; [None]
    when the fuel is used up.  The bytes go to the file, if there is one. *)
Fixpoint cfg_loop (fuel : nat) (mode seq offset total : Z) (to_file : bool) (got : list Z) : M W (option (Z * list Z)) :=
  match fuel with
  | O => mret None
  | S fuel =>
      '(ret, out) ← get_cfg seq (u8 mode) (u16 offset) (u16 (BB_CFG_PAGE_SIZE - 12));
      if negb (ret =? 0) then mret (Some (1, got))
      else
        let total := if offset =? 0 then pg_total_length out else total in
        if (pg_length out =? 0) || (BB_CFG_DATA_SIZE <? pg_length out) then mret (Some (0, got))
        else
          let page := ztake (pg_length out) (pg_data out) in
          when to_file (modify (fwrite page)) ;;
          let offset := u32 (offset + pg_length out) in
          if offset <? total then cfg_loop fuel mode (u16 (seq + 1)) offset total to_file (got ++ page)
          else mret (Some (0, got ++ page))
  end.

Definition cmd_cfg_dump (fuel : nat) (args : list (list Z)) : M W (option (Z * list Z)) :=
  match parse_opts (chars "m:") args with
  | None => mret (Some (1, []))
  | Some (opts, rest) =>
      ok ← (match rest with path :: _ => fopen_write path | [] => mret true end);
      if negb ok then mret (Some (1, []))
      else
        let to_file := match rest with [] => false | _ => true end in
        r ← cfg_loop fuel (last_opt 0x6d atoi 0 opts) 1 0 0 to_file [];
        when to_file (modify fclose) ;;
        mret r
  end.

(** ** distance *)

(** The distances of every read, with its result. *)
Fixpoint distance_loop (n : nat) (interval_ms : Z) (got : list (Z * list Z)) : M W (list (Z * list Z)) :=
  match n with
  | O => mret got
  | S n =>
      '(ret, distance) ← get_distance 0xff;
      when (negb (n =? 0)%nat) (modify (usleep (u32 (u32 interval_ms * 1000)))) ;;
      distance_loop n interval_ms (got ++ [(ret, distance)])
  end.

Definition cmd_distance (args : list (list Z)) : M W (Z * list (Z * list Z)) :=
  match getopt_all (chars "n:i:") args with
  | None => mret (1, [])
  | Some (opts, _) =>
      got ← distance_loop (Z.to_nat (last_opt 0x6e atoi 10 opts)) (last_opt 0x69 atoi 500 opts) [];
      mret (0, got)
  end.

(** ** retx-watch *)

(** The callback's state: firings, rising edges, the last record. *)
Record watch := mk_watch { wt_firings : Z; wt_rising : Z; wt_prev : RetxEvent.retx_state }.

Definition on_retx_too_many_event (arg : option (list Z)) (x : watch) : watch :=
  match ar8030_retx_event_decode arg with
  | Some st => mk_watch (wt_firings x + 1) (if ar8030_retx_event_rising (wt_prev x) st then wt_rising x + 1 else wt_rising x) st
  | None => mk_watch (wt_firings x + 1) (wt_rising x) (wt_prev x)
  end.

(** The loop, with what the callback got before each look at the flag; the
    heartbeat only prints.  [None]: the fuel is used up. *)
Fixpoint watch_loop (fuel : nat) (x : watch) : M W (option watch) :=
  evs ← retx_events;
  let x := fold_left (fun x arg => on_retx_too_many_event arg x) evs x in
  stop ← stop_watch;
  if (stop : bool) then mret (Some x)
  else
    match fuel with
    | O => mret None
    | S fuel => modify (usleep (100 * 1000)) ;; watch_loop fuel x
    end.

Definition watch_init : watch := mk_watch 0 0 (RetxEvent.mk_retx 0 0 0 0 0 0 0 0 0).

Definition cmd_retx_watch (fuel : nat) : M W (option (Z * option watch)) :=
  ret ← subscribe_retx;
  if negb (ret =? 0) then mret (Some (1, None))
  else
    r ← watch_loop fuel watch_init;
    match r with
    | None => mret None
    | Some x => modify unsubscribe_retx ;; mret (Some (0, Some x))
    end.

(** ** The configuration is read whole *)

Section config.
(** A chip with this configuration, that answers every request with some more of
    it and accepts every page; [file] is what was written. *)
Context (config : list Z) (file : W -> list Z).
Hypothesis pages : forall seq mode offset length w, 0 <= offset < zlen config ->
  let '(ret, out, w') := get_cfg seq mode offset length w in
  ret = 0 /\ pg_total_length out = zlen config /\ 0 < pg_length out <= BB_CFG_DATA_SIZE (W:=W) /\ pg_length out <= zlen config - offset /\
  ztake (pg_length out) (pg_data out) = zslice offset (pg_length out) config /\ file w' = file w.
Hypothesis writes : forall page w, file (fwrite page w) = file w ++ page.

Lemma cfg_loop_whole fuel : forall mode seq offset total to_file got w,
  0 <= offset < zlen config -> zlen config < 2 ^ 16 -> zlen config - offset <= Z.of_nat fuel -> got = ztake offset config -> (offset <> 0 -> total = zlen config) ->
  let x := cfg_loop fuel mode seq offset total to_file got w in
  x.1 = Some (0, config) /\ (to_file = true -> file w = got -> file x.2 = config).
Proof.
  induction fuel as [|fuel IH]; intros mode seq offset total to_file got w Ho Hc Hf -> Ht; [lia|]; cbn [cfg_loop]; cbv zeta.
  rewrite bind_run, (u16_id offset) by lia; pose proof (pages seq (u8 mode) offset (u16 (BB_CFG_PAGE_SIZE - 12)) w Ho) as Hp.
  destruct (get_cfg _ _ _ _ w) as [[ret out] w1]; cbn [fst snd]; destruct Hp as (-> & Hl & Hn & Hr & Hd & Hw1); cbn [Z.eqb negb].
  rewrite (proj2 (Z.eqb_neq _ _)), (proj2 (Z.ltb_ge _ _)) by lia; cbn [orb]; rewrite bind_run, Hd.
  assert (Etot : (if offset =? 0 then pg_total_length out else total) = zlen config) by (destruct (Z.eqb_spec offset 0); [done|by apply Ht]).
  rewrite Etot, (u32_id (offset + pg_length out)) by lia.
  assert (Hgot : ztake offset config ++ zslice offset (pg_length out) config = ztake (offset + pg_length out) config).
  { unfold zslice, ztake, zdrop; rewrite take_take_drop; f_equal; lia. }
  rewrite Hgot; set (w2 := (when to_file _ w1).2).
  assert (Hw2 : to_file = true -> file w = ztake offset config -> file w2 = ztake (offset + pg_length out) config).
  { intros -> Hw; unfold w2; cbn [when modify snd]; by rewrite writes, Hw1, Hw, Hgot. }
  destruct (Z.ltb_spec (offset + pg_length out) (zlen config)).
  - destruct (IH mode (u16 (seq + 1)) (offset + pg_length out) (zlen config) to_file (ztake (offset + pg_length out) config) w2) as [K1 K2]; [lia..|done|done|].
    split; [exact K1|]; intros E1 E2; apply K2; [done|by apply Hw2].
  - cbn [mret M_ret fst snd]; rewrite ztake_all by lia; split; [done|]; intros E1 E2; rewrite (Hw2 E1 E2); by apply ztake_all; lia.
Qed.
End config.
End meter.

(** ** The session with the daemon and [main]; the fuel is for the commands that run for a time or until Ctrl-C *)

Section program.
Context {W : Type} `{CtlSdk W} `{ChipIoctl W} `{CtlMeter W}.

(** [connect_daemon]: its result, and what [disconnect_daemon] finds open: the
    connection, the device list (none without a device), the device. *)
Definition connect_daemon : M W (Z * (bool * bool * bool)) :=
  ret ← bb_host_connect;
  if negb (ret =? 0) then mret (-1, (false, false, false))
  else
    cnt ← bb_dev_getlist;
    if cnt <=? 0 then mret (-1, (true, false, false))
    else
      ok ← bb_dev_open;
      mret (if (ok : bool) then (0, (true, true, true)) else (-1, (true, true, false))).

Definition disconnect_daemon (open : bool * bool * bool) : M W unit :=
  let '(host, devs, dev) := open in
  when dev (fun w => (tt, bb_dev_close w)) ;; when devs (fun w => (tt, bb_dev_freelist w)) ;; when host (fun w => (tt, bb_host_disconnect w)).

(** The exit code of a command, without what it prints. *)
Definition code {A} (m : M W (Z * A)) : M W (option Z) := '(rc, _) ← m; mret (Some rc).
Definition code_of {A} (m : M W (option (Z * A))) : M W (option Z) := r ← m; mret (fst <$> r).

(** The command [main] runs; [None] when the fuel is used up. *)
Definition run_command (fuel : nat) (cmd : list Z) (args : list (list Z)) : M W (option Z) :=
  let named (name : string) := bool_decide (cmd = chars name) in
  if named "status"%string then code (cmd_status args)
  else if named "rtt"%string then code (cmd_rtt args)
  else if named "blast"%string then code_of (cmd_blast fuel args)
  else if named "rate"%string then code (cmd_rate args)
  else if named "cfg-dump"%string then code_of (cmd_cfg_dump fuel args)
  else if named "distance"%string then code (cmd_distance args)
  else if named "retx-watch"%string then code_of (cmd_retx_watch fuel)
  else if named "rf-temp"%string then code (cmd_rf_temp args)
  else if named "batt"%string then code (cmd_batt args)
  else
    rc ← (if named "bandwidth"%string then cmd_bandwidth args
          else if named "channel-mode"%string then cmd_channel_mode args
          else if named "channel"%string then cmd_channel args
          else if named "mcs-mode"%string then cmd_mcs_mode args
          else if named "mcs"%string then cmd_mcs args
          else if named "mcs-range"%string then cmd_mcs_range args
          else if named "mcs-table"%string then cmd_mcs_table args
          else if named "mcs-table-air"%string then cmd_mcs_table_air
          else if named "chip-cli"%string then cmd_chip_cli args
          else if named "daemon-log"%string then cmd_daemon_log args
          else if named "frame-change"%string then cmd_frame_change args
          else if named "prj-cmd"%string then cmd_prj_cmd args
          else if named "rf"%string then cmd_rf args
          else if named "tx-path"%string then cmd_tx_path args
          else if named "retx"%string then cmd_retx args
          else if named "power-mode"%string then cmd_power_mode args
          else if named "power"%string then cmd_power args
          else if named "freq"%string then cmd_freq args
          else if named "force-close-socket"%string then cmd_force_close_socket args
          else if named "force-close-all"%string then cmd_force_close_all
          else mret 1);
    mret (Some rc).

(** [main], of the arguments behind [argv[0]]. *)
Definition ctl_main (fuel : nat) (argv : list (list Z)) : M W (option Z) :=
  match argv with
  | [] => mret (Some 1)
  | cmd :: args =>
      if bool_decide (cmd = chars "-h") || bool_decide (cmd = chars "--help") then mret (Some 0)
      else
        '(ret, open) ← connect_daemon;
        if negb (ret =? 0) then disconnect_daemon open ;; mret (Some 1)
        else
          r ← run_command fuel cmd args;
          match r with
          | None => mret None
          | Some rc => disconnect_daemon open ;; mret (Some rc)
          end
  end.
End program.
