(* ===== verification/CtlProofs.v ===== *)
(** What a run of [ar8030-linkctl] does: whatever the daemon and the chip
    answer, the exit code says whether everything it set was accepted, the
    session is closed again, and a channel change is made whole, in order, and
    only with a peer. *)

From Stdlib Require Import String.
From S2P Require Import Prelude CtrlMsg ChipAdc Monad LcText LcTuning LcHttp CtlArgs CtlCmds CtlMeter.
#[local] Open Scope Z_scope.

(** ** What is seen of a run *)

Inductive ctl_event :=
  | Ev_ctl (r : Req.ctl_request) (ret : Z)
  | Ev_chip (r : bb_request) (ret : Z)
  | Ev_status (ret : Z) (links : list bb_link_state).

Create HintDb quiet_run.

(** The requests in order with their results, and how many connections, lists
    and devices are open. *)
Class CtlTrace (W : Type) `{CtlSdk W} `{ChipIoctl W} := {
  trace : W -> list ctl_event;
  session : W -> Z * Z * Z;
  tr_ioctl : forall r w, trace (ctl_ioctl r w).2 = trace w ++ [Ev_ctl r (ctl_ioctl r w).1] /\ session (ctl_ioctl r w).2 = session w;
  tr_chip : forall r w, trace (bb_ioctl r w).2 = trace w ++ [Ev_chip r (bb_ioctl r w).1.1] /\ session (bb_ioctl r w).2 = session w;
  tr_status : forall w, trace (ctl_status w).2 = trace w ++ [Ev_status (ctl_status w).1.1 (ctl_status w).1.2] /\ session (ctl_status w).2 = session w;
  tr_usleep : forall us w, trace (usleep us w) = trace w /\ session (usleep us w) = session w;
  tr_set_dbg : forall n lv w, trace (ctl_set_dbg_level n lv w) = trace w /\ session (ctl_set_dbg_level n lv w) = session w;
  tr_get_dbg : forall n w, trace (ctl_get_dbg_level n w).2 = trace w /\ session (ctl_get_dbg_level n w).2 = session w;
  tr_connect : forall w, trace (bb_host_connect w).2 = trace w /\
    session (bb_host_connect w).2 = let '(h, l, d) := session w in (if (bb_host_connect w).1 =? 0 then h + 1 else h, l, d);
  tr_getlist : forall w, trace (bb_dev_getlist w).2 = trace w /\
    session (bb_dev_getlist w).2 = let '(h, l, d) := session w in (h, if 0 <? (bb_dev_getlist w).1 then l + 1 else l, d);
  tr_open : forall w, trace (bb_dev_open w).2 = trace w /\
    session (bb_dev_open w).2 = let '(h, l, d) := session w in (h, l, if (bb_dev_open w).1 then d + 1 else d);
  tr_close : forall w, trace (bb_dev_close w) = trace w /\ session (bb_dev_close w) = let '(h, l, d) := session w in (h, l, d - 1);
  tr_freelist : forall w, trace (bb_dev_freelist w) = trace w /\ session (bb_dev_freelist w) = let '(h, l, d) := session w in (h, l - 1, d);
  tr_disconnect : forall w, trace (bb_host_disconnect w) = trace w /\ session (bb_host_disconnect w) = let '(h, l, d) := session w in (h - 1, l, d)
}.

(** What measuring leaves alone: the session, and the record of requests, in
    which its own reads are not. *)
Definition same_run {W} `{CtlTrace W} (w w' : W) : Prop := trace w' = trace w /\ session w' = session w.
#[export] Instance same_run_preorder {W} `{CtlTrace W} : PreOrder (same_run (W:=W)).
Proof. split; [done|]; intros a b c [Ta Sa] [Tb Sb]; split; congruence. Qed.

Class CtlMeterTrace (W : Type) `{CtlTrace W} `{CtlMeter W} := {
  qt_status : keeps same_run (get_status : M W _);
  qt_chan : keeps same_run (get_chan_info : M W _);
  qt_mcs : forall slot, keeps same_run (get_mcs slot : M W _);
  qt_1v1 : keeps same_run (get_1v1_info : M W _);
  qt_user : keeps same_run (get_user_quality : M W _);
  qt_peer : forall bmp, keeps same_run (get_peer_quality bmp : M W _);
  qt_distance : forall bmp, keeps same_run (get_distance bmp : M W _);
  qt_mode : keeps same_run (get_power_mode : M W _);
  qt_power : forall usr, keeps same_run (get_cur_power usr : M W _);
  qt_sock : forall slot, keeps same_run (get_sock_info slot : M W _);
  qt_cfg : forall a b c d, keeps same_run (get_cfg a b c d : M W _);
  qt_dbg_setup : forall ms, keeps same_run (dbg_setup ms : M W _);
  qt_dbg_write : forall l w, same_run w (dbg_write l w);
  qt_open : forall a b c, keeps same_run (bb_socket_open a b c : M W _);
  qt_write : forall fd l ms, keeps same_run (bb_socket_write fd l ms : M W _);
  qt_close : forall fd w, same_run w (bb_socket_close fd w);
  qt_subscribe : keeps same_run (subscribe_retx : M W _);
  qt_unsubscribe : forall w, same_run w (unsubscribe_retx w);
  qt_events : keeps same_run (retx_events : M W _);
  qt_alloc : forall n, keeps same_run (alloc n : M W _);
  qt_release : forall p w, same_run w (release p w);
  qt_fopen : forall p, keeps same_run (fopen_write p : M W _);
  qt_fwrite : forall l w, same_run w (fwrite l w);
  qt_fclose : forall w, same_run w (fclose w);
  qt_mono : keeps same_run (clock_monotonic : M W _);
  qt_real : keeps same_run (clock_realtime : M W _);
  qt_sleep : forall s w, same_run w (sleep s w);
  qt_stop : keeps same_run (stop_watch : M W _)
}.
#[export] Hint Resolve qt_status qt_chan qt_mcs qt_1v1 qt_user qt_peer qt_distance qt_mode qt_power qt_sock qt_cfg qt_dbg_setup qt_dbg_write qt_open qt_write
  qt_close qt_subscribe qt_unsubscribe qt_events qt_alloc qt_release qt_fopen qt_fwrite qt_fclose qt_mono qt_real qt_sleep qt_stop : quiet_run.

(** The requests that set something. *)
Definition sets (r : Req.ctl_request) : bool :=
  match r with Req.BB_GET_RF | Req.BB_GET_POWER_MODE | Req.BB_GET_RETX_EVENT_STATUS => false | _ => true end.
Definition chip_sets (r : bb_request) : bool := match r with BB_GET_PRJ_DISPATCH _ => false | _ => true end.

Definition taken (e : ctl_event) : Prop :=
  match e with
  | Ev_ctl r ret => sets r = true -> ret = 0
  | Ev_chip r ret => chip_sets r = true -> ret = 0
  | Ev_status _ _ => True
  end.

Section honest.
Context {W : Type} {HS : CtlSdk W} {HC : ChipIoctl W} {HT : CtlTrace W} {HM : CtlMeter W} {HQ : CtlMeterTrace W}.

(** A part of a run that leaves the session alone, and whose result is [ok]
    only when all it set was taken. *)
Definition honest {A} (ok : A -> Prop) (m : M W A) : Prop :=
  forall w, session (m w).2 = session w /\ exists evs, trace (m w).2 = trace w ++ evs /\ (ok (m w).1 -> Forall taken evs).

Lemma honest_ret {A} (ok : A -> Prop) a : honest ok (mret a).
Proof. intros w; split; [done|]; exists []; split; [by rewrite app_nil_r|intros _; apply Forall_nil_2]. Qed.

Lemma honest_bind {A B} (ok1 : A -> Prop) (ok : B -> Prop) (m : M W A) f :
  honest ok1 m -> (forall a, honest ok (f a)) -> (forall a w, ok (f a w).1 -> ok1 a) -> honest ok (m ≫= f).
Proof.
  intros Hm Hf Hok w; rewrite bind_run; destruct (Hm w) as (Hs1 & e1 & Ht1 & Ho1), (Hf (m w).1 (m w).2) as (Hs2 & e2 & Ht2 & Ho2).
  split; [by rewrite Hs2|]; exists (e1 ++ e2); split; [by rewrite Ht2, Ht1, app_assoc|].
  intros Hr; apply Forall_app; split; [by eapply Ho1, Hok|by apply Ho2].
Qed.

Lemma honest_any {A} (m : M W A) (ok : A -> Prop) : honest (fun _ => True) m -> honest ok m.
Proof. intros Hm w; destruct (Hm w) as (Hs & e & Ht & Ho); split; [done|]; exists e; split; [done|by intros _; apply Ho]. Qed.

Lemma honest_ioctl r : honest (fun ret => sets r = true -> ret = 0) (ctl_ioctl r).
Proof. intros w; destruct (tr_ioctl r w) as [Ht Hs]; split; [done|]; eexists; split; [exact Ht|]; intros Hr; by apply Forall_singleton. Qed.

Lemma honest_chip r : honest (fun x => chip_sets r = true -> x.1 = 0) (bb_ioctl r).
Proof. intros w; destruct (tr_chip r w) as [Ht Hs]; split; [done|]; eexists; split; [exact Ht|]; intros Hr; by apply Forall_singleton. Qed.

Lemma honest_status : honest (fun _ => True) ctl_status.
Proof. intros w; destruct (tr_status w) as [Ht Hs]; split; [done|]; eexists; split; [exact Ht|]; intros _; by apply Forall_singleton. Qed.

Lemma honest_quiet {A} (m : M W A) : (forall w, trace (m w).2 = trace w /\ session (m w).2 = session w) -> honest (fun _ => True) m.
Proof. intros Hq w; destruct (Hq w) as [Ht Hs]; split; [done|]; exists []; by rewrite app_nil_r. Qed.

Lemma honest_sleep us : honest (fun _ => True) (sleep_us us).
Proof. apply honest_quiet; intros w; apply tr_usleep. Qed.

(** The walk through a part that sets nothing. *)
Lemma honest_then {A B} (m : M W A) (f : A -> M W B) ok : honest (fun _ => True) m -> (forall a, honest ok (f a)) -> honest ok (m ≫= f).
Proof. intros Hm Hf; by eapply honest_bind. Qed.

Lemma honest_wait slot rounds : honest (fun _ => True) (wait_loop slot rounds).
Proof.
  induction rounds as [|rounds IH]; cbn [wait_loop]; [apply honest_ret|]; apply honest_then; [apply honest_status|]; intros [ret links].
  destruct (_ && _); [apply honest_ret|]; apply honest_then; [apply honest_sleep|done].
Qed.
Lemma honest_resolve rounds : honest (fun _ => True) (resolve_loop rounds).
Proof.
  induction rounds as [|rounds IH]; cbn [resolve_loop]; (apply honest_then; [apply honest_status|]; intros [ret links]);
    (destruct (if ret =? 0 then _ else _); [apply honest_ret|]); [apply honest_ret|]; apply honest_then; [apply honest_sleep|done].
Qed.
Lemma honest_wait_first slot wait_s : honest (fun _ => True) (wait_first slot wait_s).
Proof. unfold wait_first; destruct (0 <? wait_s); [|apply honest_ret]; apply honest_then; [apply honest_wait|intros; apply honest_ret]. Qed.
Lemma honest_target opts wait_s : honest (fun _ => True) (target_slot opts wait_s).
Proof.
  unfold target_slot; destruct (opt_slot_auto opts); [apply honest_resolve|]; cbv zeta; apply honest_then; [|intros; apply honest_ret].
  destruct (0 <? wait_s); [|apply honest_ret]; apply honest_then; [apply honest_wait|intros; apply honest_ret].
Qed.

Definition zero (rc : Z) : Prop := rc = 0.
Definition succeeded (r : option Z) : Prop := r = Some 0.

Lemma honest_one r : honest zero (one_request r).
Proof.
  eapply honest_bind; [apply honest_ioctl|intros; apply honest_ret|]; intros ret w; cbn [mret M_ret fst]; unfold zero, exit_code.
  by destruct (Z.eqb_spec ret 0).
Qed.

(** Refused at the first step, or on to the next. *)
Lemma honest_step r (m : M W Z) : honest zero m -> honest zero (ret ← ctl_ioctl r; if negb (ret =? 0) then mret 1 else m).
Proof.
  intros Hm; eapply honest_bind; [apply honest_ioctl| |]; intros ret; [destruct (ret =? 0); [done|apply honest_ret]|].
  intros w; destruct (Z.eqb_spec ret 0); [done|]; by cbn.
Qed.

(** *** The MCS tables *)

Lemma honest_mcs_item e : honest zero (ar8030_set_mcs_item e).
Proof.
  intros w; destruct (honest_chip (BB_SET_MCS_ITEM e) w) as (Hs & evs & Ht & Ho); unfold ar8030_set_mcs_item.
  destruct (bb_ioctl _ w) as [[ret out] w']; cbn [fst snd] in *; split; [done|]; exists evs; split; [done|]; intros Hz; apply Ho; by intros _.
Qed.

Lemma push_zero t only : forall fail w, (push_mcs_items t only fail w).1 = 0 -> fail = 0.
Proof.
  induction t as [|e t IH]; intros fail w; cbn [push_mcs_items]; [done|]; destruct (_ && _); [apply IH|].
  rewrite bind_run; intros Hr%IH; by destruct (_ =? 0).
Qed.

Lemma honest_push t only fail : honest zero (push_mcs_items t only fail).
Proof.
  revert fail; induction t as [|e t IH]; intros fail; cbn [push_mcs_items]; [apply honest_ret|]; destruct (_ && _); [apply IH|].
  eapply honest_bind; [apply honest_mcs_item|intros; apply IH|]; intros ret w Hr%push_zero; unfold zero; by destruct (Z.eqb_spec ret 0).
Qed.

(** *** The sensors *)

Lemma honest_arm channel : honest zero (ar8030_rftemp_arm channel).
Proof.
  intros w; destruct (honest_chip (BB_SET_PRJ_DISPATCH (rftemp_arm_buf channel)) w) as (Hs & evs & Ht & Ho); unfold ar8030_rftemp_arm.
  destruct (bb_ioctl _ w) as [[ret out] w']; cbn [fst snd] in *; split; [done|]; exists evs; split; [done|]; intros Hz; apply Ho; by intros _.
Qed.

Lemma honest_read channel : honest (fun _ => True) (read_mv channel).
Proof.
  intros w; unfold read_mv, ar8030_rftemp_read_mv; set (r := BB_GET_PRJ_DISPATCH _); destruct (honest_chip r w) as (Hs & evs & Ht & Ho).
  destruct (bb_ioctl r w) as [[ret out] w']; cbn [fst snd] in *; split; [done|]; exists evs; split; [done|]; intros _; by apply Ho.
Qed.

Lemma honest_read_or_arm channel force : honest is_Some (read_or_arm channel force).
Proof.
  unfold read_or_arm; apply honest_then; [destruct force; [apply honest_ret|apply honest_read]|]; intros [ret mv]; cbv zeta.
  destruct (_ || _); [|apply honest_any, honest_ret]; eapply honest_bind; [apply honest_arm| |].
  - intros ret'; destruct (negb _); [apply honest_any, honest_ret|]; apply honest_then; [apply honest_sleep|intros; apply honest_any, honest_ret].
  - intros ret' w Hr; unfold zero; destruct (Z.eqb_spec ret' 0); [done|]; by destruct Hr.
Qed.

Lemma honest_rf_temp args : honest (fun r => r.1 = 0) (cmd_rf_temp args).
Proof.
  unfold cmd_rf_temp; destruct (parse_opts _ args) as [[opts rest]|]; [cbv zeta|apply honest_ret].
  eapply honest_bind; [apply honest_read_or_arm| |].
  - intros [[[armed ret] mv]|]; [|apply honest_ret]; apply honest_then.
    { unfold read_again; destruct armed; [|apply honest_ret]; apply honest_then; [apply honest_read|intros [r again]; apply honest_ret]. }
    intros [ret' mv']; destruct (negb _); [apply honest_ret|]; by destruct (_ =? AR8030_RFTEMP_NONE); apply honest_ret.
  - intros [first|] w Hr; [by eexists|done].
Qed.

Lemma honest_batt_loop channel : forall count i sum lo hi, honest (fun _ => True) (batt_loop channel i count sum lo hi).
Proof.
  induction count as [|count IH]; intros i sum lo hi; cbn [batt_loop]; [apply honest_ret|]; apply honest_then.
  { destruct (negb _); [apply honest_sleep|apply honest_ret]. }
  intros _; apply honest_then; [apply honest_read|]; intros [ret [mv|]]; destruct ret; first [apply IH | apply honest_ret].
Qed.

Lemma honest_batt args : honest (fun r => r.1 = 0) (cmd_batt args).
Proof.
  unfold cmd_batt; destruct (parse_opts _ args) as [[opts rest]|]; [cbv zeta|apply honest_ret].
  eapply honest_bind; [apply honest_read_or_arm| |].
  - intros [first|]; [|apply honest_ret]; apply honest_then; [apply honest_batt_loop|]; intros [[[sum lo] hi]|]; [|apply honest_ret].
    by destruct (_ <? 0); apply honest_ret.
  - intros [first|] w Hr; [by eexists|done].
Qed.

Lemma honest_code {A} (m : M W (Z * A)) : honest (fun r => r.1 = 0) m -> honest succeeded (code m).
Proof.
  intros Hm; unfold code; eapply honest_bind; [exact Hm|intros [rc a]; apply honest_ret|]; intros [rc a] w; cbn [mret M_ret fst]; by intros [= ->].
Qed.

(** *** The other commands *)

Lemma honest_prj args : honest zero (cmd_prj_cmd args).
Proof.
  unfold cmd_prj_cmd; destruct args as [|cmd bytes]; [apply honest_ret|]; destruct (252 <? _); [apply honest_ret|]; cbv zeta.
  eapply honest_bind; [apply honest_chip|intros [ret out]; apply honest_ret|]; intros [ret out] w; cbn [mret M_ret fst chip_sets]; unfold exit_code.
  by destruct (Z.eqb_spec ret 0).
Qed.

Lemma honest_retx args : honest zero (cmd_retx args).
Proof.
  unfold cmd_retx; apply honest_step; destruct args as [|set values]; [apply honest_ret|]; destruct (negb _); [apply honest_ret|].
  destruct (map _ values) as [|win [|busy [|idle [|cb [|ci [|]]]]]]; try apply honest_ret; apply honest_step.
  eapply honest_bind; [apply honest_ioctl|intros; apply honest_ret|done].
Qed.

Lemma honest_daemon_log args : honest zero (cmd_daemon_log args).
Proof.
  assert (Hget : honest zero (_ ← ctl_get_dbg_level (chars "print_level"); mret 0)).
  { apply honest_then; [apply honest_quiet; intros w; apply tr_get_dbg|intros; apply honest_ret]. }
  unfold cmd_daemon_log; destruct args as [|v args]; [exact Hget|]; cbv zeta; destruct (_ <? 0); [apply honest_ret|].
  apply honest_then; [apply honest_quiet; intros w; apply tr_set_dbg|by intros _].
Qed.

Lemma honest_channel args : honest zero (cmd_channel args).
Proof.
  unfold cmd_channel; destruct (parse_opts _ args) as [[opts [|value rest]]|]; [apply honest_ret| |apply honest_ret]; cbv zeta.
  apply honest_then; [apply honest_target|]; intros [slot|]; [|apply honest_ret]; do 2 apply honest_step; apply honest_one.
Qed.

Lemma honest_bandwidth args : honest zero (cmd_bandwidth args).
Proof.
  unfold cmd_bandwidth; destruct (parse_opts _ args) as [[opts rest]|]; [|apply honest_ret]; destruct (last_opt _ _ _ opts) as [dir|]; [|apply honest_ret].
  destruct rest as [|value rest]; [apply honest_ret|]; destruct (parse_bandwidth value) as [bw|]; [|apply honest_ret].
  apply honest_then; [apply honest_target|]; intros [slot|]; [apply honest_one|apply honest_ret].
Qed.

Lemma honest_freq args : honest zero (cmd_freq args).
Proof.
  unfold cmd_freq; destruct (parse_opts _ args) as [[opts rest]|]; [|apply honest_ret]; destruct (parse_dir _ _) as [dir|]; [|apply honest_ret].
  destruct rest as [|value rest]; [apply honest_ret|]; apply honest_then; [apply honest_wait_first|intros _; apply honest_one].
Qed.

Ltac honest_walk := repeat match goal with
  | |- honest _ (mret _) => apply honest_ret
  | |- honest _ (one_request _) => apply honest_one
  | |- honest _ (mbind _ (wait_first _ _)) => apply honest_then; [apply honest_wait_first|intros _]
  | |- honest _ (if ?b then _ else _) => destruct b
  | |- honest _ (match ?x with _ => _ end) => destruct x
  | |- honest _ (let _ := _ in _) => cbv zeta
  end.

(** *** The commands that measure *)

(** What measures sets nothing. *)
Lemma honest_measures {A} (m : M W A) (ok : A -> Prop) : keeps same_run m -> honest ok m.
Proof. intros Hm; apply honest_any, honest_quiet, Hm. Qed.

Ltac quiet_walk := repeat match goal with
  | |- keeps _ (mret _) => apply keeps_ret; apply _
  | |- keeps _ (mbind _ _) => apply keeps_bind; [apply _| |intros ?]
  | |- keeps _ (when _ _) => apply keeps_when; [apply _|]
  | |- keeps _ (modify _) => apply keeps_modify; intros ?; first [by eauto with quiet_run | apply tr_usleep]
  | |- keeps _ (fun w => (tt, usleep _ w)) => intros ?; apply tr_usleep
  | |- keeps _ (if ?b then _ else _) => destruct b
  | |- keeps _ (match ?x with _ => _ end) => destruct x
  | |- keeps _ (let _ := _ in _) => cbv zeta
  | |- keeps _ _ => solve [eauto with quiet_run]
  end.

Lemma quiet_status args : keeps same_run (cmd_status (W:=W) args).
Proof. unfold cmd_status, on_success; quiet_walk. Qed.

Lemma quiet_rtt args : keeps same_run (cmd_rtt (W:=W) args).
Proof.
  assert (Hloop : forall n us, keeps same_run (rtt_loop (W:=W) n us)) by (induction n; intros us; cbn [rtt_loop]; quiet_walk; eauto).
  unfold cmd_rtt; quiet_walk; apply Hloop.
Qed.

Lemma quiet_rate args : keeps same_run (cmd_rate (W:=W) args).
Proof. unfold cmd_rate, mono_ms; quiet_walk. Qed.

Lemma quiet_chip_cli args : keeps same_run (cmd_chip_cli (W:=W) args).
Proof. unfold cmd_chip_cli; quiet_walk. Qed.

Lemma quiet_cfg_dump fuel args : keeps same_run (cmd_cfg_dump (W:=W) fuel args).
Proof.
  assert (Hloop : forall n mode seq offset total to_file got, keeps same_run (cfg_loop (W:=W) n mode seq offset total to_file got))
    by (induction n; intros; cbn [cfg_loop]; quiet_walk; eauto).
  unfold cmd_cfg_dump; quiet_walk; apply Hloop.
Qed.

Lemma quiet_distance args : keeps same_run (cmd_distance (W:=W) args).
Proof.
  assert (Hloop : forall n ms got, keeps same_run (distance_loop (W:=W) n ms got)) by (induction n; intros; cbn [distance_loop]; quiet_walk; eauto).
  unfold cmd_distance; quiet_walk; apply Hloop.
Qed.

Lemma quiet_retx_watch fuel : keeps same_run (cmd_retx_watch (W:=W) fuel).
Proof.
  assert (Hloop : forall n x, keeps same_run (watch_loop (W:=W) n x)) by (induction n; intros; cbn [watch_loop]; quiet_walk; eauto).
  unfold cmd_retx_watch; quiet_walk; apply Hloop.
Qed.

Lemma quiet_blast_loop fd chunk interval secs want t0 : forall fuel b, keeps same_run (blast_loop (W:=W) fuel fd chunk interval secs want t0 b).
Proof. induction fuel; intros b; cbn [blast_loop]; unfold pace, blast_write, realtime_us; quiet_walk; eauto. Qed.
#[local] Hint Resolve quiet_blast_loop : quiet_run.

Lemma quiet_write_times path times : keeps same_run (write_times (W:=W) path times).
Proof. unfold write_times; quiet_walk. Qed.
#[local] Hint Resolve quiet_write_times : quiet_run.

(** What an exit code of 0 stands for: every request was taken - but [blast]
    frees its port first, and goes on whatever the chip says to that. *)
Definition freed_port (e : ctl_event) : Prop := match e with Ev_ctl (Req.BB_FORCE_CLS_SOCKET _ _) _ => True | _ => False end.
Definition taken_by (cmd : list Z) (e : ctl_event) : Prop := taken e \/ cmd = chars "blast" /\ freed_port e.

Lemma kept_blast fuel args w : session (cmd_blast fuel args w).2 = session w /\
  exists evs, trace (cmd_blast fuel args w).2 = trace w ++ evs /\ Forall (taken_by (chars "blast")) evs.
Proof.
  assert (Hweak : forall evs, Forall taken evs -> Forall (taken_by (chars "blast")) evs) by (intros evs H; eapply list.Forall_impl; [exact H|by left]).
  assert (Hnone : forall w', session w' = session w -> trace w' = trace w -> session w' = session w /\
    exists evs, trace w' = trace w ++ evs /\ Forall (taken_by (chars "blast")) evs) by (intros w' -> ->; split; [done|]; exists []; by rewrite app_nil_r).
  unfold cmd_blast; destruct (getopt_all _ args) as [[opts rest]|]; [cbv zeta|by apply Hnone]; clear Hnone.
  unfold resolve_connected_slot; set (rounds := (Z.to_nat (2 * 2) - 1)%nat); clearbody rounds.
  rewrite bind_run; destruct (honest_resolve rounds w) as (Hs1 & e1 & Ht1 & Ho1); specialize (Hweak e1 (Ho1 I)).
  destruct (resolve_loop rounds w) as [[slot|] w1]; cbn [fst snd] in *; [|by split; [|exists e1]].
  match goal with |- context [mbind ?k (ctl_ioctl ?r)] => set (rest_of := k); set (req := r) end.
  assert (Hq : keeps same_run (rest_of 0)) by (subst rest_of; cbv beta; quiet_walk).
  rewrite bind_run; destruct (tr_ioctl req w1) as [Ht2 Hs2]; destruct (ctl_ioctl req w1) as [ret w2]; cbn [fst snd] in *.
  change (rest_of ret) with (rest_of 0); destruct (Hq w2) as [Ht3 Hs3]; rewrite Hs3, Hs2, Hs1, Ht3, Ht2, Ht1; split; [done|].
  exists (e1 ++ [Ev_ctl req ret]); split; [by rewrite app_assoc|]; apply Forall_app; split; [done|]; apply Forall_singleton; by right.
Qed.

Lemma honest_code_of {A} (m : M W (option (Z * A))) : honest (fun r => fst <$> r = Some 0) m -> honest succeeded (code_of m).
Proof. intros Hm; unfold code_of; eapply honest_bind; [exact Hm|intros r; apply honest_ret|done]. Qed.
Lemma honest_some (m : M W Z) : honest zero m -> honest succeeded (rc ← m; mret (Some rc)).
Proof. intros Hm; eapply honest_bind; [exact Hm|intros; apply honest_ret|]; intros rc w; cbn [mret M_ret fst]; by intros [= ->]. Qed.

Lemma honest_run fuel cmd args : cmd <> chars "blast" -> honest succeeded (run_command fuel cmd args).
Proof.
  intros Hb; unfold run_command; cbv zeta; rewrite (bool_decide_eq_false_2 _ Hb).
  do 8 (match goal with |- honest _ (if ?b then _ else _) => destruct b;
    [first [apply honest_code, honest_rf_temp | apply honest_code, honest_batt
           | first [apply honest_code | apply honest_code_of | idtac]; apply honest_measures;
             first [apply quiet_status | apply quiet_rtt | apply quiet_rate | apply quiet_cfg_dump | apply quiet_distance | apply quiet_retx_watch]]|] end).
  apply honest_some.
  repeat match goal with |- honest _ (if ?b then _ else _) => destruct b;
    [first [apply honest_bandwidth | apply honest_channel | apply honest_push | apply honest_daemon_log
           | apply honest_prj | apply honest_retx | apply honest_freq | apply honest_measures, quiet_chip_cli
           | match goal with |- honest _ ?m => let h := term_head m in unfold h end; by honest_walk
           | unfold cmd_mcs_table; destruct args as [|v more]; [apply honest_ret|]; cbv zeta; destruct (_ || _); [apply honest_ret|apply honest_push]]|] end.
  apply honest_ret.
Qed.

(** Also [blast] leaves the session alone. *)
Lemma kept_run fuel cmd args w : session (run_command fuel cmd args w).2 = session w /\
  exists evs, trace (run_command fuel cmd args w).2 = trace w ++ evs /\ (succeeded (run_command fuel cmd args w).1 -> Forall (taken_by cmd) evs).
Proof.
  destruct (decide (cmd = chars "blast")) as [->|Hb].
  - destruct (kept_blast fuel args w) as (Hs & evs & Ht & Ho).
    change (run_command fuel (chars "blast") args) with (code_of (cmd_blast fuel args)).
    unfold code_of; rewrite !bind_run; cbn [mret M_ret fst snd]; split; [done|]; by exists evs.
  - destruct (honest_run fuel cmd args Hb w) as (Hs & evs & Ht & Ho); split; [done|]; exists evs; split; [done|]; intros Hr.
    eapply list.Forall_impl; [by apply Ho|by left].
Qed.

(** The commands that go on for a time, or as long as there are pages. *)
Definition goes_on (cmd : list Z) : bool := bool_decide (cmd = chars "blast") || bool_decide (cmd = chars "cfg-dump") || bool_decide (cmd = chars "retx-watch").

Lemma code_ends {A} (m : M W (Z * A)) w : (code m w).1 <> None.
Proof. unfold code; rewrite bind_run; by destruct (m w).1. Qed.
Lemma run_ends fuel cmd args w : goes_on cmd = false -> (run_command fuel cmd args w).1 <> None.
Proof.
  unfold goes_on; rewrite !orb_false_iff; intros [[Hb Hc] Hr]; unfold run_command; cbv zeta; rewrite Hb, Hc, Hr.
  repeat match goal with |- (fst ((if ?b then code _ else _) w)) <> None => destruct b; [apply code_ends|] end.
  by rewrite bind_run.
Qed.

Lemma disconnected h l d w :
  trace (disconnect_daemon (h, l, d) w).2 = trace w /\
  session (disconnect_daemon (h, l, d) w).2 = let '(a, b, c) := session w in (if h then a - 1 else a, if l then b - 1 else b, if d then c - 1 else c).
Proof.
  unfold disconnect_daemon; rewrite !bind_run; pose proof (tr_close w) as [T1 S1].
  set (w1 := (when d _ w).2); assert (H1 : trace w1 = trace w /\ session w1 = let '(a, b, c) := session w in (a, b, if d then c - 1 else c)).
  { unfold w1, when; destruct d; cbn; [done|split; [done|by destruct (session w) as [[a b] c]]]. }
  pose proof (tr_freelist w1) as [T2 S2]; set (w2 := (when l _ w1).2).
  assert (H2 : trace w2 = trace w1 /\ session w2 = let '(a, b, c) := session w1 in (a, if l then b - 1 else b, c)).
  { unfold w2, when; destruct l; cbn; [done|split; [done|by destruct (session w1) as [[a b] c]]]. }
  pose proof (tr_disconnect w2) as [T3 S3].
  destruct H1 as [E1 F1], H2 as [E2 F2]; unfold when; destruct h; cbn [snd fst mret M_ret]; rewrite ?T3, ?S3, E2, F2, E1, F1; by destruct (session w) as [[a b] c].
Qed.

Lemma connected w :
  let '(ret, (h, l, d)) := (connect_daemon w).1 in
  trace (connect_daemon w).2 = trace w /\
  session (connect_daemon w).2 = let '(a, b, c) := session w in (if (h : bool) then a + 1 else a, if (l : bool) then b + 1 else b, if (d : bool) then c + 1 else c).
Proof.
  unfold connect_daemon; rewrite bind_run; destruct (tr_connect w) as [T1 S1]; destruct (bb_host_connect w) as [ret w1]; cbn [fst snd] in *.
  destruct (ret =? 0); cbn [negb]; [|cbn [mret M_ret fst snd]; by rewrite T1, S1].
  rewrite bind_run; destruct (tr_getlist w1) as [T2 S2]; destruct (bb_dev_getlist w1) as [cnt w2]; cbn [fst snd] in *.
  destruct (Z.leb_spec cnt 0) as [E|E]; cbn [mret M_ret fst snd].
  { rewrite T2, T1, S2, S1, (proj2 (Z.ltb_ge _ _)) by lia; by destruct (session w) as [[a b] c]. }
  rewrite bind_run; destruct (tr_open w2) as [T3 S3]; destruct (bb_dev_open w2) as [ok w3]; cbn [fst snd] in *.
  rewrite (proj2 (Z.ltb_lt _ _)) in S2 by lia; destruct ok; cbn [mret M_ret fst snd]; rewrite T3, T2, T1, S3, S2, S1; by destruct (session w) as [[a b] c].
Qed.

(** C21. Whatever the daemon and the chip answer, a run of the tool that ends
    has left the session as it found it -- every connection, list and device it
    opened is closed, also when opening the next one failed -- and it exits with
    0 only if the chip has taken every single request that sets something, the
    one exception being the request by which [blast] frees its port.  (The level
    of the daemon's log is not a request to the chip; setting it has no result.)
    Every command but [blast], [cfg-dump] and [retx-watch] does end. *)
Theorem exit_code_honest fuel argv w :
  let '(r, w') := ctl_main fuel argv w in
  (r = None -> exists cmd, head argv = Some cmd /\ goes_on cmd = true) /\
  forall rc, r = Some rc ->
    session w' = session w /\
    exists evs, trace w' = trace w ++ evs /\ (rc = 0 -> Forall (taken_by (default [] (head argv))) evs).
Proof.
  unfold ctl_main; destruct argv as [|cmd args]; [split; [done|]; intros rc [= <-]; split; [done|]; exists []; by rewrite app_nil_r|].
  destruct (_ || _); [split; [done|]; intros rc [= <-]; split; [done|]; exists []; rewrite app_nil_r; split; [done|intros _; apply Forall_nil_2]|].
  rewrite bind_run; pose proof (connected w) as Hc; destruct (connect_daemon w) as [[ret [[h l] d]] w1]; cbn [fst snd] in *; destruct Hc as [Ht Hs].
  destruct (Z.eqb_spec ret 0) as [->|Hr]; cbn [negb].
  - rewrite bind_run; destruct (kept_run fuel cmd args w1) as (Hs1 & evs & Ht1 & Ho); pose proof (run_ends fuel cmd args w1) as Hend.
    destruct (run_command fuel cmd args w1) as [[rc|] w2]; cbn [fst snd] in *.
    2: { split; [|done]; intros _; exists cmd; split; [done|]; destruct (goes_on cmd); [done|by destruct Hend]. }
    rewrite bind_run; destruct (disconnected h l d w2) as [Ht2 Hs2]; cbn [mret M_ret fst snd]; split; [done|]; intros rc' [= <-].
    rewrite Hs2, Hs1, Hs, Ht2, Ht1, Ht; split; [|exists evs; split; [done|]; intros ->; by apply Ho].
    destruct (session w) as [[a b] c]; destruct h, l, d; f_equal; try f_equal; lia.
  - rewrite bind_run; destruct (disconnected h l d w1) as [Ht2 Hs2]; cbn [mret M_ret fst snd]; split; [done|]; intros rc [= <-].
    rewrite Hs2, Hs, Ht2, Ht; split; [destruct (session w) as [[a b] c]; destruct h, l, d; f_equal; try f_equal; lia|]; exists []; by rewrite app_nil_r.
Qed.
End honest.

(** ** A channel change *)

(** Requests made one after the other until one is refused. *)
Inductive obeyed : list Req.ctl_request -> list ctl_event -> Z -> Prop :=
  | obeyed_done : obeyed [] [] 0
  | obeyed_refused r reqs ret : ret <> 0 -> obeyed (r :: reqs) [Ev_ctl r ret] 1
  | obeyed_taken r reqs evs rc : obeyed reqs evs rc -> obeyed (r :: reqs) (Ev_ctl r 0 :: evs) rc.

Section channel.
Context {W : Type} {HS : CtlSdk W} {HC : ChipIoctl W} {HT : CtlTrace W}.

(** A look at the link, without and with a peer. *)
Definition looks (e : ctl_event) : Prop := match e with Ev_status _ _ => True | _ => False end.
Definition nobody (e : ctl_event) : Prop :=
  match e with
  | Ev_status ret links => ret = 0 -> forall s, nth_error (take (BB_SLOT_MAX (W:=W)) links) s <> Some BB_LINK_STATE_CONNECT
  | _ => False
  end.
Definition peer_at (slot : Z) (e : ctl_event) : Prop :=
  match e with
  | Ev_status ret links => ret = 0 /\ 0 <= slot /\ nth_error (take (BB_SLOT_MAX (W:=W)) links) (Z.to_nat slot) = Some BB_LINK_STATE_CONNECT
  | _ => False
  end.

Lemma first_connected_spec links : forall from, 0 <= from ->
  match first_connected from links with
  | Some s => from <= s /\ nth_error links (Z.to_nat (s - from)) = Some BB_LINK_STATE_CONNECT
  | None => forall s, nth_error links s <> Some BB_LINK_STATE_CONNECT
  end.
Proof.
  induction links as [|st links IH]; intros from Hf; cbn [first_connected]; [by intros [|s]|]; unfold is_connect.
  destruct (bool_decide_reflect (st = BB_LINK_STATE_CONNECT)) as [->|Hne]; [by rewrite Z.sub_diag|].
  specialize (IH (from + 1) ltac:(lia)); destruct (first_connected (from + 1) links) as [s|].
  - destruct IH as [Hs E]; split; [lia|]; by replace (Z.to_nat (s - from)) with (S (Z.to_nat (s - (from + 1)))) by lia.
  - intros [|s]; cbn; [congruence|apply IH].
Qed.

(** Looking for the peer: nobody all the time, or nobody until there is one. *)
Lemma resolve_trace rounds : forall w, exists reads, trace (resolve_loop rounds w).2 = trace w ++ reads /\
  match (resolve_loop rounds w).1 with
  | None => Forall nobody reads
  | Some slot => exists before last, reads = before ++ [last] /\ Forall nobody before /\ peer_at slot last
  end.
Proof.
  induction rounds as [|rounds IH]; intros w; cbn [resolve_loop]; rewrite bind_run; destruct (tr_status w) as [Ht _];
    destruct (ctl_status w) as [[ret links] w1]; cbn [fst snd] in *; pose proof (first_connected_spec (take BB_SLOT_MAX links) 0 ltac:(lia)) as Hf;
    set (ev := Ev_status ret links) in *;
    assert (Hev : match (if ret =? 0 then first_connected 0 (take BB_SLOT_MAX links) else None) with Some s => peer_at s ev | None => nobody ev end).
  1, 3: destruct (Z.eqb_spec ret 0) as [Er|Er]; [destruct (first_connected 0 _) as [s|]; cbn; [rewrite Z.sub_0_r in Hf; tauto|by intros _]|by cbn].
  all: destruct (if ret =? 0 then _ else _) as [s|]; [exists [ev]; split; [done|]; cbn [mret M_ret fst]; by exists [], ev|].
  - exists [ev]; split; [done|]; by apply Forall_singleton.
  - rewrite bind_run; destruct (IH (sleep_us (500 * 1000) w1).2) as (reads & Hr & Hm); exists (ev :: reads); split.
    { rewrite Hr; cbn [sleep_us snd]; destruct (tr_usleep (500 * 1000) w1) as [-> _]; by rewrite Ht, <- app_assoc. }
    destruct (resolve_loop rounds _).1 as [slot|]; [|by apply Forall_cons_2].
    destruct Hm as (b & last & -> & Hb & Hl); exists (ev :: b), last; split_and!; [done|by apply Forall_cons_2|done].
Qed.

Lemma wait_trace slot rounds : forall w, exists reads, trace (wait_loop slot rounds w).2 = trace w ++ reads /\ Forall looks reads.
Proof.
  induction rounds as [|rounds IH]; intros w; cbn [wait_loop]; [exists []; by rewrite app_nil_r|].
  rewrite bind_run; destruct (tr_status w) as [Ht _]; destruct (ctl_status w) as [[ret links] w1]; cbn [fst snd] in *.
  destruct (_ && _); [eexists; split; [exact Ht|by apply Forall_singleton]|]; rewrite bind_run.
  destruct (IH (sleep_us (500 * 1000) w1).2) as (reads & Hr & Hl); exists (Ev_status ret links :: reads); split; [|by apply Forall_cons_2].
  rewrite Hr; cbn [sleep_us snd]; destruct (tr_usleep (500 * 1000) w1) as [-> _]; by rewrite Ht, <- app_assoc.
Qed.

(** The slot a command aims at. *)
Definition aimed (opts : list (Z * list Z)) (slot : option Z) (reads : list ctl_event) : Prop :=
  if opt_slot_auto opts then
    match slot with
    | None => Forall nobody reads
    | Some slot => exists before last, reads = before ++ [last] /\ Forall nobody before /\ peer_at slot last
    end
  else slot = Some (opt_slot opts) /\ Forall looks reads.

Lemma target_trace opts wait_s w : exists reads, trace (target_slot opts wait_s w).2 = trace w ++ reads /\ aimed opts (target_slot opts wait_s w).1 reads.
Proof.
  unfold target_slot, aimed; destruct (opt_slot_auto opts); [apply resolve_trace|]; cbv zeta; rewrite bind_run; cbn [mret M_ret fst snd].
  destruct (0 <? wait_s); [|exists []; rewrite app_nil_r; cbn; split; [done|split; [done|apply Forall_nil_2]]].
  rewrite bind_run; destruct (wait_trace (u8 (opt_slot opts)) (Z.to_nat (wait_s * 2)) w) as (reads & Hr & Hl); by exists reads.
Qed.

Lemma step_obeyed r reqs (m : M W Z) w :
  (forall w, exists evs, trace (m w).2 = trace w ++ evs /\ obeyed reqs evs (m w).1) ->
  exists evs, trace ((ret ← ctl_ioctl r; if negb (ret =? 0) then mret 1 else m) w).2 = trace w ++ evs /\
    obeyed (r :: reqs) evs ((ret ← ctl_ioctl r; if negb (ret =? 0) then mret 1 else m) w).1.
Proof.
  intros Hm; rewrite bind_run; destruct (tr_ioctl r w) as [Ht _]; destruct (ctl_ioctl r w) as [ret w1]; cbn [fst snd] in *.
  destruct (Z.eqb_spec ret 0) as [->|Hr]; cbn [negb].
  - destruct (Hm w1) as (evs & He & Ho); exists (Ev_ctl r 0 :: evs); split; [by rewrite He, Ht, <- app_assoc|by apply obeyed_taken].
  - exists [Ev_ctl r ret]; split; [done|by apply obeyed_refused].
Qed.

Lemma one_obeyed r w : exists evs, trace (one_request r w).2 = trace w ++ evs /\ obeyed [r] evs (one_request r w).1.
Proof.
  unfold one_request; rewrite bind_run; destruct (tr_ioctl r w) as [Ht _]; destruct (ctl_ioctl r w) as [ret w1]; cbn [mret M_ret fst snd] in *.
  exists [Ev_ctl r ret]; split; [done|]; unfold exit_code; destruct (Z.eqb_spec ret 0) as [->|Hr]; [apply obeyed_taken, obeyed_done|by apply obeyed_refused].
Qed.

(** C20. [channel <index>] with its flags anywhere on the line: it asks for
    manual mode, then for its own receive channel, then for the same channel at
    the peer's slot, each only when the one before was taken, and exits with 0
    exactly when all three were.  Before that it only looks at the link; with
    [-s auto] the slot is one on which a peer was just seen connected, and
    without such a peer nothing at all is asked for. *)
Theorem channel_change l value rest w :
  forallb (arg_ok (chars "w:s:")) l = true -> operands l = value :: rest ->
  let '(rc, w') := cmd_channel (flat_map spell l) w in
  let index := u8 (atoi value) in
  exists slot reads evs, trace w' = trace w ++ reads ++ evs /\ aimed (options l) slot reads /\
    match slot with
    | None => evs = [] /\ rc = 1
    | Some slot =>
        obeyed [Req.BB_SET_CHAN_MODE 0; Req.BB_SET_CHAN_RX index;
                Req.BB_SET_REMOTE (u8 slot) [BB_REMOTE_TYPE_CHAN_MODE; BB_REMOTE_TYPE_TARGET_CHAN] 0 index] evs rc
    end.
Proof.
  intros Hl Hop; unfold cmd_channel; rewrite parse_spelled, Hop by done; cbv zeta; rewrite bind_run.
  destruct (target_trace (options l) (opt_wait (options l)) w) as (reads & Hr & Ha).
  destruct (target_slot _ _ w) as [[slot|] w1]; cbn [fst snd] in *; [|exists None, reads, []; by rewrite app_nil_r].
  destruct (step_obeyed (Req.BB_SET_CHAN_MODE 0) _ _ w1 (fun w => step_obeyed (Req.BB_SET_CHAN_RX (u8 (atoi value))) _ _ w
    (one_obeyed (Req.BB_SET_REMOTE (u8 slot) [BB_REMOTE_TYPE_CHAN_MODE; BB_REMOTE_TYPE_TARGET_CHAN] 0 (u8 (atoi value)))))) as (evs & He & Ho).
  lazymatch type of He with trace (snd ?X) = _ => rewrite (surjective_pairing X) end; exists (Some slot), reads, evs; split_and!; [by rewrite He, Hr, <- app_assoc|done|exact Ho].
Qed.
End channel.

(** ** A chip with a peer on slot 2 that refuses one kind of request *)

(** What happened, and how many connections, lists and devices are open. *)
Record demo_ctl := mk_demo_ctl { dc_trace : list ctl_event; dc_open : Z * Z * Z }.
Definition dc_note (e : ctl_event) (w : demo_ctl) : demo_ctl := mk_demo_ctl (dc_trace w ++ [e]) (dc_open w).
Definition dc_add (h l d : Z) (w : demo_ctl) : demo_ctl := mk_demo_ctl (dc_trace w) (let '(a, b, c) := dc_open w in (a + h, b + l, c + d)).

Definition dc_links : list bb_link_state := [BB_LINK_STATE_IDLE; BB_LINK_STATE_IDLE; BB_LINK_STATE_CONNECT].
Definition dc_refuses (r : Req.ctl_request) : Z := match r with Req.BB_SET_REMOTE _ _ _ _ => -3 | _ => 0 end.

#[export] Instance demo_ctl_sdk : CtlSdk demo_ctl := {
  BB_SLOT_MAX := 8%nat;
  BB_PHY_MCS_MAX := 31;
  ctl_ioctl r w := (dc_refuses r, dc_note (Ev_ctl r (dc_refuses r)) w);
  ctl_status w := ((0, dc_links), dc_note (Ev_status 0 dc_links) w);
  ctl_set_dbg_level _ _ w := w;
  ctl_get_dbg_level _ w := (1, w);
  bb_host_connect w := (0, dc_add 1 0 0 w);
  bb_dev_getlist w := (1, dc_add 0 1 0 w);
  bb_dev_open w := (true, dc_add 0 0 1 w);
  bb_dev_close := dc_add 0 0 (-1);
  bb_dev_freelist := dc_add 0 (-1) 0;
  bb_host_disconnect := dc_add (-1) 0 0;
  usleep _ w := w
}.
#[export] Instance demo_ctl_chip : ChipIoctl demo_ctl := { bb_ioctl r w := ((0, []), dc_note (Ev_chip r 0) w) }.

#[export] Instance demo_ctl_trace : CtlTrace demo_ctl.
Proof.
  refine {| trace := dc_trace; session := dc_open |}; try done; intros w; cbn; destruct (dc_open w) as [[a b] c]; cbn; (split; [done|]);
    repeat f_equal; lia.
Defined.

(** Its measurements are all refused, and its clocks stand still. *)
#[export] Instance demo_ctl_meter : CtlMeter demo_ctl := {
  BB_DATA_USER_MAX := 10%nat;
  BB_SOCK_INFO_NUM := 8%nat;
  BB_CONFIG_MAX_CHAN_NUM := 60;
  BB_LINK_STATE_MAX := 4;
  BB_ROLE_AP := 0;
  BB_USER_BR_CS := 8;
  BB_USER_0 := 0;
  BB_CFG_PAGE_SIZE := 1024;
  BB_CFG_DATA_SIZE := 1012;
  get_status w := (-1, mk_status_out 0 0 0 0 [] [], w);
  get_chan_info w := (-1, mk_chan_out 0 0 0 0 [], w);
  get_mcs _ w := (-1, (0, 0), w);
  get_1v1_info w := (-1, (mk_info 0 0 0 0 0 0 0, mk_info 0 0 0 0 0 0 0), w);
  get_user_quality w := (-1, mk_quality 0 0 0 0 0, w);
  get_peer_quality _ w := (-1, mk_quality 0 0 0 0 0, w);
  get_distance _ w := (-1, [], w);
  get_power_mode w := (-1, 0, w);
  get_cur_power _ w := (-1, 0, w);
  get_sock_info _ w := (-1, mk_sock_out 0 [], w);
  get_cfg _ _ _ _ w := (-1, mk_page 0 0 0 [], w);
  dbg_setup _ w := (false, w);
  dbg_write _ w := w;
  bb_socket_open _ _ _ w := (-1, w);
  bb_socket_write _ _ _ w := (-1, w);
  bb_socket_close _ w := w;
  subscribe_retx w := (-1, w);
  unsubscribe_retx w := w;
  retx_events w := ([], w);
  alloc _ w := (None, w);
  release _ w := w;
  fopen_write _ w := (false, w);
  fwrite _ w := w;
  fclose w := w;
  clock_monotonic w := ((0, 0), w);
  clock_realtime w := ((0, 0), w);
  sleep _ w := w;
  stop_watch w := (true, w)
}.
#[export] Instance demo_ctl_meter_trace : CtlMeterTrace demo_ctl.
Proof. split; by intros. Defined.

Definition demo_ctl_w : demo_ctl := mk_demo_ctl [] (0, 0, 0).

Lemma exit_code_honest_witness :
  (ctl_main 0 [chars "mcs"; chars "-s"; chars "2"; chars "5"] demo_ctl_w).1 = Some 0 /\
  exists evs, dc_trace (ctl_main 0 [chars "mcs"; chars "-s"; chars "2"; chars "5"] demo_ctl_w).2 = evs /\ Forall (taken_by (chars "mcs")) evs.
Proof.
  pose proof (exit_code_honest 0 [chars "mcs"; chars "-s"; chars "2"; chars "5"] demo_ctl_w) as Hx.
  destruct (ctl_main _ _ demo_ctl_w) as [r w'] eqn:E; assert (Er : r = Some 0) by (apply (f_equal fst) in E; cbn [fst] in E; rewrite <- E; vm_compute; reflexivity).
  destruct (proj2 Hx 0 Er) as (_ & evs & Ht & Ho); split; [exact Er|]; exists evs; split; [exact Ht|apply Ho; reflexivity].
Defined.

Lemma channel_change_witness :
  let run := cmd_channel [chars "20"; chars "-s"; chars "1"] demo_ctl_w in
  run.1 = 1 /\ exists reads evs, dc_trace run.2 = reads ++ evs /\
    obeyed [Req.BB_SET_CHAN_MODE 0; Req.BB_SET_CHAN_RX 20; Req.BB_SET_REMOTE 1 [BB_REMOTE_TYPE_CHAN_MODE; BB_REMOTE_TYPE_TARGET_CHAN] 0 20] evs 1.
Proof.
  pose proof (channel_change [Word (chars "20"); Opt 0x73 (chars "1")] (chars "20") [] demo_ctl_w eq_refl eq_refl) as Hc.
  change (flat_map spell _) with [chars "20"; chars "-s"; chars "1"] in Hc.
  assert (Er : (cmd_channel [chars "20"; chars "-s"; chars "1"] demo_ctl_w).1 = 1) by (vm_compute; reflexivity).
  destruct (cmd_channel _ demo_ctl_w) as [rc w']; cbn [fst snd] in *; subst rc; split; [reflexivity|].
  destruct Hc as (slot & reads & evs & Ht & Ha & Ho); destruct Ha as [-> _]; exists reads, evs; split; [exact Ht|exact Ho].
Defined.
