(* ===== verification/Os.v ===== *)
(** What the programs with a main loop ask of the operating system, as classes:
    clock, memory, threads, and the network calls both ground programs make. *)

From S2P Require Import Prelude Double Link Monad LcText.
#[local] Open Scope Z_scope.

(** A clock, memory (blocks are numbers, a null pointer is [None]) and the
    descriptor of a UDP socket. *)
Class ProgramOs (W : Type) := {
  now_monotonic_s : W -> double * W;
  malloc : Z -> W -> option Z * W;
  free : option Z -> W -> W;
  close_udp : Z -> W -> W
}.

(** The threads of both video programs. *)
Inductive thread := Bitrate_thread | Idr_thread | Sidecar_thread.

(** A thread is a number; [None]: it could not be started. *)
Class Threads (W : Type) := {
  pthread_create : thread -> W -> option Z * W;
  pthread_join : Z -> W -> W
}.

(** [getaddrinfo] with the text of the port, giving the addresses to try in
    turn ([None]: it failed); a socket for one of them, [connect], [send]; and
    [bb_socket_read] on a descriptor: up to so many bytes within a timeout, none
    when it fails. *)
Class GroundOs (W : Type) := {
  sock_address : Type;
  getaddrinfo : list Z -> list Z -> W -> option (list sock_address) * W;
  address_socket : sock_address -> W -> Z * W;
  connect : Z -> sock_address -> W -> Z * W;
  send : Z -> list Z -> W -> Z * W;
  bb_socket_read : Z -> Z -> Z -> W -> list Z * W
}.

(** ** The UDP socket of both ground programs, the same function in both *)

Section udp.
Context {W : Type} {HO : ProgramOs W} {HR : GroundOs W}.

Fixpoint connect_first (addrs : list sock_address) : M W Z :=
  match addrs with
  | [] => mret (-1)
  | rp :: addrs =>
      fd ← address_socket rp;
      if fd <? 0 then connect_first addrs
      else
        ret ← connect fd rp;
        if ret =? 0 then mret fd else modify (close_udp fd) ;; connect_first addrs
  end.

Definition open_udp_target (host : list Z) (port : Z) : M W Z :=
  res ← getaddrinfo host (ztake 7 (fmt_dec port));
  match res with
  | None | Some [] => mret (-1)
  | Some addrs => connect_first addrs
  end.
End udp.
