(* ===== verification/AirMain.v ===== *)
(** [tx/main.c]: the command line, with the tunables that [-p key=value] sets in
    the bitrate controller's configuration, and [main] around the send loop
    ([TxMain]): waiting for the encoder's ring and the daemon, the data socket,
    the controller's configuration, the threads, the buffers, and everything's
    end.  Printing aside, every statement of [main] is here.  What the other
    threads do to the loop is in [TxEnv] and [TxRing]. *)

From Stdlib Require Import String Floats.SpecFloat.
From S2P Require Import Prelude Double ChunkHdr Chunker Outq FrameRing CtrlMsg Link TxSend Monad TxMain BitrateCtl LcText Strtod LcHttp CtlArgs Os.
#[local] Open Scope Z_scope.

(** [(int)x]: truncation; what does not fit is undefined in C and saturates on
    the targets. *)
Definition f2s32 (x : double) : Z :=
  match x with
  | S754_finite neg m e => let t := Z.min (dtrunc m e) (2 ^ 31) in if neg then - t else Z.min t (2 ^ 31 - 1)
  | S754_infinity neg => if neg then - 2 ^ 31 else 2 ^ 31 - 1
  | _ => 0
  end.

(** ** The options *)

Definition DEFAULT_RING_NAME : list Z := chars "venc_frames".
Definition DEFAULT_WAYBEAM_HOST : list Z := chars "127.0.0.1".
Definition DEFAULT_WAYBEAM_PORT : Z := 80.
Definition DEFAULT_IDR_COALESCE_MS : Z := 250.
Definition DEFAULT_VIDEO_PORT : Z := 2.
Definition DEFAULT_SLOT : Z := -1.
Definition DEFAULT_WRITE_TIMEOUT_MS : Z := 2500.
Definition MAX_PI_PARAMS : Z := 16.

(** [struct tx_args], less the daemon's address, which the SDK class stands for,
    and [verbose], which only prints. *)
Record tx_args := mk_tx_args {
  ta_ring_name : list Z; ta_slot : Z; ta_port : Z; ta_chunk_payload : Z; ta_write_timeout_ms : Z; ta_waybeam_host : list Z;
  ta_waybeam_port : Z; ta_margin : double; ta_min_kbps : Z; ta_max_kbps : Z; ta_focus_kbps : Z; ta_fps_div_max : Z;
  ta_sock_tx_buf : Z; ta_sock_rx_buf : Z; ta_sock_bidir : bool; ta_idr_coalesce_ms : Z; ta_bc_mode : bc_mode;
  ta_ring_backlog_slots : Z; ta_ring_backoff : double; ta_sidecar_port : Z; ta_pi_params : list (list Z)
}.
#[export] Instance eta_tx_args : Eta tx_args := fun a =>
  mk_tx_args (ta_ring_name a) (ta_slot a) (ta_port a) (ta_chunk_payload a) (ta_write_timeout_ms a) (ta_waybeam_host a)
    (ta_waybeam_port a) (ta_margin a) (ta_min_kbps a) (ta_max_kbps a) (ta_focus_kbps a) (ta_fps_div_max a)
    (ta_sock_tx_buf a) (ta_sock_rx_buf a) (ta_sock_bidir a) (ta_idr_coalesce_ms a) (ta_bc_mode a)
    (ta_ring_backlog_slots a) (ta_ring_backoff a) (ta_sidecar_port a) (ta_pi_params a).

Definition default_tx_args : tx_args :=
  mk_tx_args DEFAULT_RING_NAME DEFAULT_SLOT DEFAULT_VIDEO_PORT AR8030_CHUNK_DEFAULT_PAYLOAD DEFAULT_WRITE_TIMEOUT_MS
    DEFAULT_WAYBEAM_HOST DEFAULT_WAYBEAM_PORT (dlit 545 1000) 512 35000 0 1 (64 * 1024) 1024 true DEFAULT_IDR_COALESCE_MS
    BITRATE_CTL_MODE_RULES 6 (dlit 92 100) 0 [].

(** The [switch] on one option; [None] for [-h] and for the values [-D] and [-C]
    refuse. *)
Definition tx_take_option (o : Z * list Z) (a : tx_args) : option tx_args :=
  let '(opt, optarg) := o in
  if opt =? 0x53 then Some (a <| ta_sidecar_port := atoi optarg |>)
  else if opt =? 0x69 then Some (a <| ta_idr_coalesce_ms := atoi optarg |>)
  else if opt =? 0x72 then Some (a <| ta_ring_name := optarg |>)
  else if opt =? 0x64 then Some a
  else if opt =? 0x73 then Some (a <| ta_slot := atoi optarg |>)
  else if opt =? 0x6f then Some (a <| ta_port := atoi optarg |>)
  else if opt =? 0x63 then Some (a <| ta_chunk_payload := u32 (strtoul 10 optarg) |>)
  else if opt =? 0x74 then Some (a <| ta_write_timeout_ms := atoi optarg |>)
  else if opt =? 0x77 then Some (a <| ta_waybeam_host := optarg |>)
  else if opt =? 0x50 then Some (a <| ta_waybeam_port := atoi optarg |>)
  else if opt =? 0x6d then Some (a <| ta_margin := strtod_val optarg |>)
  else if opt =? 0x6e then Some (a <| ta_min_kbps := u32 (strtoul 10 optarg) |>)
  else if opt =? 0x78 then Some (a <| ta_max_kbps := u32 (strtoul 10 optarg) |>)
  else if opt =? 0x46 then Some (a <| ta_focus_kbps := u32 (strtoul 10 optarg) |>)
  else if opt =? 0x44 then
    let v := atoi optarg in
    if negb (v =? 1) && negb (v =? 2) && negb (v =? 4) then None else Some (a <| ta_fps_div_max := v |>)
  else if opt =? 0x42 then Some (a <| ta_sock_tx_buf := u32 (strtoul 0 optarg) |>)
  else if opt =? 0x52 then Some (a <| ta_sock_rx_buf := u32 (strtoul 0 optarg) |>)
  else if opt =? 0x58 then Some (a <| ta_sock_bidir := true |>)
  else if opt =? 0x43 then
    if bool_decide (optarg = chars "pi") then Some (a <| ta_bc_mode := BITRATE_CTL_MODE_PI |>)
    else if bool_decide (optarg = chars "rules") then Some (a <| ta_bc_mode := BITRATE_CTL_MODE_RULES |>)
    else None
  else if opt =? 0x4e then Some (a <| ta_sock_bidir := false |>)
  else if opt =? 0x51 then Some (a <| ta_ring_backlog_slots := u32 (strtoul 10 optarg) |>)
  else if opt =? 0x4b then Some (a <| ta_ring_backoff := strtod_val optarg |>)
  else if opt =? 0x70 then
    Some (if zlen (ta_pi_params a) <? MAX_PI_PARAMS then a <| ta_pi_params := ta_pi_params a ++ [optarg] |> else a)
  else if opt =? 0x76 then Some a
  else None.

(** The arguments behind [argv[0]]. *)
Definition tx_parse_args (argv : list (list Z)) : option tx_args :=
  '(opts, _) ← getopt_all (chars "r:d:s:o:c:t:w:P:m:n:x:F:D:B:R:Q:K:i:S:C:p:XNvh") argv;
  fold_left (fun a o => a ← a; tx_take_option o a) opts (Some default_tx_args).

(** ** [-p] *)

#[export] Instance eta_bc_cfg : Eta bc_cfg := fun c =>
  mk_cfg (margin c) (min_kbps c) (max_kbps c) (hysteresis c) (min_interval_ms c) (poll_interval_ms c) (ring_backlog_high_slots c)
    (ring_backoff c) (roi_max_kbps c) (roi_recovery_ms c) (fps_div_max c) (fps_recovery_ms c) (ramp_step c) (ramp_settle_ms c)
    (unstable_window_ms c) (unstable_ramp_step c) (probe_ceiling_frac c) (probe_hold_ms c) (ldpc_ratio_high c) (ldpc_backoff c)
    (retx_event_backoff c) (ldpc_severe_ratio c) (retx_severe_events c) (severe_backoff c) (pi_delay_set_ms c)
    (pi_write_cost_ms c) (pi_kp_up c) (pi_kp_down c) (pi_ki_up c) (pi_ki_down c) (pi_k_min c) (pi_k_max c) (pi_slew_up c)
    (pi_severe_k c) (pi_retx_severe_events c) (pi_mild_trim c) (pi_recover_per_s c).

(** What a tunable's name stands for. *)
Definition pi_param (key : list Z) (v : double) (c : bc_cfg) : option bc_cfg :=
  if bool_decide (key = chars "pi_recover_per_s") then Some (c <| pi_recover_per_s := v |>)
  else if bool_decide (key = chars "pi_severe_k") then Some (c <| pi_severe_k := v |>)
  else if bool_decide (key = chars "pi_retx_severe_events") then Some (c <| pi_retx_severe_events := f2s32 v |>)
  else if bool_decide (key = chars "pi_mild_trim") then Some (c <| pi_mild_trim := v |>)
  else if bool_decide (key = chars "pi_k_max") then Some (c <| pi_k_max := v |>)
  else if bool_decide (key = chars "pi_delay_set_ms") then Some (c <| pi_delay_set_ms := v |>)
  else if bool_decide (key = chars "pi_write_cost_ms") then Some (c <| pi_write_cost_ms := v |>)
  else None.

(** [None] is the result -1. *)
Definition apply_pi_param (c : bc_cfg) (kv : list Z) : option bc_cfg :=
  '(key, num) ← cut_at 0x3d kv;
  '(v, rest) ← strtod num;
  if negb (bool_decide (rest = [])) then None else pi_param key v c.

Fixpoint apply_pi_params (c : bc_cfg) (kvs : list (list Z)) : option bc_cfg :=
  match kvs with
  | [] => Some c
  | kv :: kvs => c ← apply_pi_param c kv; apply_pi_params c kvs
  end.

(** [bc_cfg] as [main] fills it in, less what the threads share. *)
Definition tx_args_cfg (a : tx_args) : bc_cfg :=
  tx_bc_cfg (ta_margin a) (ta_min_kbps a) (ta_max_kbps a) (ta_focus_kbps a) (ta_fps_div_max a) (ta_ring_backlog_slots a)
    (ta_ring_backoff a).

(** ** From start to end *)

Section air.
Context {W : Type} {HE : TxEnv W} {HL : LinkSdk W} {HR : TxRing W} {HO : ProgramOs W} {HT : Threads W}.

(** What of the command line and of [bc_cfg] the loop uses. *)
Definition loop_cfg (args : tx_args) (slot_was_auto : bool) (c : bc_cfg) : tx_cfg :=
  mk_tx_cfg (ta_ring_name args) (ta_chunk_payload args) slot_was_auto (ta_port args) (BitrateCtl.pi_write_cost_ms c).

(** [malloc], and the stop flag when there is no memory. *)
Definition malloc_or_stop (size : Z) : M W (option Z) :=
  p ← malloc size;
  when (bool_decide (p = None)) (modify set_g_stop) ;;
  mret p.

Definition join (t : option Z) : M W unit := match t with Some t => modify (pthread_join t) | None => mret tt end.

(** The threads; those that run. *)
Definition air_threads (args : tx_args) : M W (option Z * option Z * option Z) :=
  idr ← (if ta_sock_bidir args then pthread_create Idr_thread else mret None);
  sc ← (if 0 <? ta_sidecar_port args then pthread_create Sidecar_thread else mret None);
  bc ← pthread_create Bitrate_thread;
  mret (idr, sc, bc).

(** With an open data socket: [size] is the ring's slot size, [ident] the device
    and inode behind its name. *)
Definition air_run (fuel : nat) (args : tx_args) (slot_was_auto : bool) (slot size : Z) (ident : Z * Z) (l : link) (c : bc_cfg) : M W (option Z) :=
  flushed_ms ← ring_flush;
  '(idr, sc, bc) ← air_threads args;
  ring_buf ← malloc_or_stop size;
  chunk_scratch ← malloc_or_stop (u32 (AR8030_CHUNK_HDR_SIZE + ta_chunk_payload args));
  combo ← malloc_or_stop (combo_cap (ta_chunk_payload args));
  now ← TxMain.now_monotonic_s;
  '(t, x) ← (fun w => let '(t, s) := tx_turns (loop_cfg args slot_was_auto c) fuel fuel
                                       (mk_txst (tx_loop_init l slot size ident now flushed_ms) w) in
                      ((t, T s), Tw s));
  match t with
  | Leave =>
      modify set_g_stop ;;
      join bc ;; join idr ;; join sc ;;
      modify (free combo) ;; modify (free chunk_scratch) ;; modify (free ring_buf) ;;
      _ ← ar8030_link_close (tx_link x);
      when (bs_ring (tx_bc x)) (modify ring_destroy) ;;
      mret (Some 0)
  | _ => mret None
  end.

(** The ring is attached. *)
Definition air_start (fuel : nat) (args : tx_args) (size : Z) : M W (option Z) :=
  let slot_was_auto := ta_slot args <? 0 in
  ident ← stat_named_shm (loop_cfg args slot_was_auto (tx_args_cfg args));
  r ← (fun w => match ar8030_link_connect_retry fuel RETRY_MS w with
                | Some (ret, l, w) => (Some (ret, l), w)
                | None => (None, w)
                end);
  match r with
  | None => mret None
  | Some (ret, l) =>
      if negb (ret =? 0) then modify ring_destroy ;; mret (Some 0)
      else
        o ← (fun w => match tx_open_link fuel l (ta_slot args) slot_was_auto (ta_port args) w with
                      | Some (o, w) => (Some o, w)
                      | None => (None, w)
                      end);
        match o with
        | None => mret None
        | Some (Stopped l) => _ ← ar8030_link_close l; modify ring_destroy ;; mret (Some 0)
        | Some (Reopen_failed l) => _ ← ar8030_link_close l; modify ring_destroy ;; mret (Some 1)
        | Some (Reopened l slot) =>
            match apply_pi_params (tx_args_cfg args) (ta_pi_params args) with
            | None => mret (Some 1)
            | Some c => air_run fuel args slot_was_auto slot size (ring_baseline ident) l c
            end
        end
  end.

(** The exit code; [None] when the fuel of a wait or of the loop is used up. *)
Definition air_main (fuel : nat) (argv : list (list Z)) : M W (option Z) :=
  match tx_parse_args argv with
  | None => mret (Some 1)
  | Some args =>
      if (ta_chunk_payload args =? 0) || (AR8030_CHUNK_MAX_PAYLOAD <? ta_chunk_payload args) then mret (Some 1)
      else
        size ← attach_loop (loop_cfg args false (tx_args_cfg args)) fuel;
        match size with
        | None => mret None
        | Some None => mret (Some 0)
        | Some (Some size) => air_start fuel args size
        end
  end.
End air.
