(* ===== verification/RxLog.v ===== *)
(** [rx/rx_log.c]: the ground program's log file and the older ones behind it,
    [path.1], [path.2]: a rotation makes each the next older one and starts a
    new log, so that they are always the last logs, newest first. *)

From stdpp Require Import gmap.
From Stdlib Require Import String.
From S2P Require Import Prelude CtrlMsg Monad LcText.
#[local] Open Scope Z_scope.

Definition RX_LOG_MAX_BYTES : Z := 1024 * 1024.
Definition RX_LOG_KEEP : Z := 2.
Definition PATH_MAX : Z := 4096.

(** [stat] of a path (its size), [rename], [open] for appending with [dup2] onto
    both descriptors, [fstat] and [ftruncate] of standard error, and the start of
    the rotation thread. *)
Class LogOs (W : Type) := {
  path_size : list Z -> W -> option Z * W;
  rename : list Z -> list Z -> W -> W;
  open_log : list Z -> W -> bool * W;
  stderr_size : W -> option Z * W;
  stderr_cut : W -> W;
  start_rotation : W -> W
}.

(** ["%s.%d"] in a buffer of [PATH_MAX]. *)
Definition old_log (path : list Z) (i : Z) : list Z := snprintf_cut PATH_MAX (path ++ chars "." ++ fmt_dec i).

Section log.
Context {W : Type} `{LogOs W} (path : list Z).

(** [for (i = RX_LOG_KEEP; i > 1; i--)], [n] turns of it left. *)
Fixpoint shift_loop (n : nat) (i : Z) : M W unit :=
  match n with
  | O => mret tt
  | S n => modify (rename (old_log path (i - 1)) (old_log path i)) ;; shift_loop n (i - 1)
  end.

Definition shift_old_logs : M W unit :=
  shift_loop (Z.to_nat (RX_LOG_KEEP - 1)) RX_LOG_KEEP ;;
  modify (rename path (old_log path 1)).

Definition reopen_log : M W Z := ok ← open_log path; mret (if (ok : bool) then 0 else -1).

(** One turn of the rotation thread, after its second of sleep. *)
Definition rotate_turn : M W unit :=
  size ← stderr_size;
  match size with
  | None => mret tt
  | Some size =>
      if size <? RX_LOG_MAX_BYTES then mret tt
      else
        shift_old_logs ;;
        ret ← reopen_log;
        if ret =? 0 then mret tt else modify stderr_cut
  end.

Definition rx_log_open : M W Z :=
  size ← path_size path;
  when (match size with Some size => 0 <? size | None => false end) shift_old_logs ;;
  ret ← reopen_log;
  if negb (ret =? 0) then mret (-1)
  else modify start_rotation ;; mret 0.
End log.

(** ** Directories with files that are told apart *)

(** Names and the files behind them (numbers), the file standard error goes to,
    sizes, the next new file. *)
Record log_fs := mk_log_fs { names : gmap (list Z) Z; err : Z; size_of : Z -> Z; fresh : Z }.

(** [writable]: whether a new file can be made. *)
Definition posix_log (writable : bool) : LogOs log_fs := {|
  path_size := fun p w => (size_of w <$> names w !! p, w);
  rename := fun p q w => match names w !! p with
                         | Some f => mk_log_fs (<[q := f]> (delete p (names w))) (err w) (size_of w) (fresh w)
                         | None => w
                         end;
  open_log := fun p w => match names w !! p with
                         | Some f => (true, mk_log_fs (names w) f (size_of w) (fresh w))
                         | None =>
                             if writable
                             then (true, mk_log_fs (<[p := fresh w]> (names w)) (fresh w)
                                           (fun f => if f =? fresh w then 0 else size_of w f) (fresh w + 1))
                             else (false, w)
                         end;
  stderr_size := fun w => (Some (size_of w (err w)), w);
  stderr_cut := fun w => mk_log_fs (names w) (err w) (fun f => if f =? err w then 0 else size_of w f) (fresh w);
  start_rotation := fun w => w
|}.

(** The logs of [path], newest first. *)
Definition logs (path : list Z) (w : log_fs) : list Z := omap (fun p => names w !! p) [path; old_log path 1; old_log path 2].

Lemma log_names_differ path : zlen path < PATH_MAX - 3 -> path <> old_log path 1 /\ path <> old_log path 2 /\ old_log path 1 <> old_log path 2.
Proof.
  unfold PATH_MAX, old_log, snprintf_cut; intros Hl; rewrite !ztake_all by (rewrite zlen_app; vm_compute (zlen (_ ++ fmt_dec _)); unfold PATH_MAX; lia).
  split_and!; intros E; apply (f_equal (drop (length path))) in E; rewrite ?drop_all, ?drop_app_length in E; by vm_compute in E.
Qed.

(** A rotation: the log becomes the newest old one, the old ones move on and the
    oldest is dropped; the new log is a new, empty file.  When no new file can
    be made the log is cut instead, and goes on as the newest old one. *)
Lemma rotation_shifts writable path w : zlen path < PATH_MAX - 3 -> names w !! path = Some (err w) -> RX_LOG_MAX_BYTES <= size_of w (err w) ->
  let w' := (rotate_turn (H := posix_log writable) path w).2 in
  size_of w' (err w') = 0 /\
  if writable then err w' = fresh w /\ logs path w' = take 3 (fresh w :: logs path w)
  else err w' = err w /\ names w' !! path = None /\ names w' !! old_log path 1 = Some (err w).
Proof.
  intros Hl Hp Hs; destruct (log_names_differ path Hl) as (H1 & H2 & H3); unfold rotate_turn, shift_old_logs.
  rewrite !bind_run; cbn [stderr_size posix_log fst snd]; rewrite (proj2 (Z.ltb_ge _ _)) by done.
  change (Z.to_nat (RX_LOG_KEEP - 1)) with 1%nat; cbn [shift_loop]; rewrite !bind_run; cbn [modify rename posix_log fst snd].
  change (RX_LOG_KEEP - 1) with 1; change RX_LOG_KEEP with 2.
  set (w1 := match names w !! old_log path 1 with Some _ => _ | None => _ end).
  assert (Hp1 : names w1 !! path = Some (err w)).
  { subst w1; destruct (names w !! old_log path 1); [|done]; cbn [names]; by simplify_map_eq. }
  assert (He : err w1 = err w /\ fresh w1 = fresh w /\ size_of w1 = size_of w) by (subst w1; by destruct (names w !! old_log path 1)).
  destruct He as (He & Hf & Hsz); cbn [mret M_ret fst snd]; rewrite Hp1; unfold reopen_log; rewrite !bind_run; cbn [open_log posix_log names].
  rewrite lookup_insert_ne, lookup_delete_eq by done; destruct writable; cbn [fst snd mret M_ret Z.eqb err size_of names fresh].
  - rewrite Hf, Z.eqb_refl; split; [done|]; split; [done|]; unfold logs; cbn [omap list_omap names].
    rewrite lookup_insert_eq, lookup_insert_ne, lookup_insert_eq by done; rewrite Hp; cbn [take]; f_equal; f_equal.
    rewrite !lookup_insert_ne, lookup_delete_ne by done; subst w1; destruct (names w !! old_log path 1) as [f|] eqn:E1; cbn [names].
    + rewrite lookup_insert_eq; by destruct (names w !! old_log path 2).
    + by destruct (names w !! old_log path 2).
  - cbn [modify stderr_cut posix_log err size_of names fst snd]; rewrite He, Z.eqb_refl; split_and!; [done|done| |].
    + by rewrite lookup_insert_ne, lookup_delete_eq.
    + by rewrite lookup_insert_eq.
Qed.
