(* ===== verification/GroundMain.v ===== *)
(** [rx/main.c] from start to end around the handling of one chunk ([RxMain]):
    options, sockets, buffers, the main loop with its health check, and the two
    other threads - the keyframe relay of [rx/idr_relay.c] ([IdrRelay]) and the
    sidecar server of [rx/sidecar_srv.c] ([SidecarSrv]) - which share the clock
    estimate, the subscribers and the link with it.  Their turns fall between
    the turns of the main loop, in any number and order; a relay's write in the
    middle of a reconnect is not modelled.  Printing aside, every statement of
    [main] and of both thread functions is here. *)

From Stdlib Require Import String.
From S2P Require Import Prelude Double CtrlMsg ChunkHdr Chunker Reassembly ChunkStream ClockSync SidecarSrv RtpH265.
From S2P Require Import Packetizer RxMain Link TxSend IdrRelay Os Monad LcText CtlArgs RxLog.
#[local] Open Scope Z_scope.

(** ** Arguments *)

Definition DEFAULT_TARGET_HOST : list Z := chars "127.0.0.1".
Definition DEFAULT_TARGET_PORT : Z := 5600.
Definition DEFAULT_VIDEO_PORT : Z := 2.
Definition DEFAULT_MAX_RTP_PAYLOAD : Z := 1400.
Definition DEFAULT_REASSEMBLY_MAX : Z := 512 * 1024.
Definition STREAM_READ_TIMEOUT_MS : Z := 200.
Definition STREAM_BUF_CHUNKS : Z := 4.
Definition DEFAULT_IDR_PORT : Z := 11223.
Definition DEFAULT_SIDECAR_PORT : Z := 5602.
Definition DAEMON_HEALTH_CHECK_INTERVAL_S : double := dofZ 3.

(** [struct rx_args], less the daemon's address and [verbose]. *)
Record rx_args := mk_rx_args {
  ga_port : Z; ga_target_host : list Z; ga_target_port : Z; ga_rtp_max_payload : Z; ga_reassembly_max : Z; ga_idr_port : Z;
  ga_sidecar_port : Z; ga_timing_sei : bool; ga_log_path : option (list Z)
}.
#[export] Instance eta_rx_args : Eta rx_args := fun a =>
  mk_rx_args (ga_port a) (ga_target_host a) (ga_target_port a) (ga_rtp_max_payload a) (ga_reassembly_max a) (ga_idr_port a)
    (ga_sidecar_port a) (ga_timing_sei a) (ga_log_path a).

Definition default_rx_args : rx_args :=
  mk_rx_args DEFAULT_VIDEO_PORT DEFAULT_TARGET_HOST DEFAULT_TARGET_PORT DEFAULT_MAX_RTP_PAYLOAD DEFAULT_REASSEMBLY_MAX DEFAULT_IDR_PORT
    DEFAULT_SIDECAR_PORT true None.

Definition ground_take_option (o : Z * list Z) (a : rx_args) : option rx_args :=
  let '(opt, optarg) := o in
  if opt =? 0x4c then Some (a <| ga_log_path := Some optarg |>)
  else if opt =? 0x43 then Some (a <| ga_sidecar_port := atoi optarg |>)
  else if opt =? 0x54 then Some (a <| ga_timing_sei := false |>)
  else if opt =? 0x49 then Some (a <| ga_idr_port := atoi optarg |>)
  else if opt =? 0x64 then Some a
  else if opt =? 0x6f then Some (a <| ga_port := atoi optarg |>)
  else if opt =? 0x48 then Some (a <| ga_target_host := optarg |>)
  else if opt =? 0x70 then Some (a <| ga_target_port := atoi optarg |>)
  else if opt =? 0x4d then Some (a <| ga_rtp_max_payload := u16 (strtoul 10 optarg) |>)
  else if opt =? 0x62 then Some (a <| ga_reassembly_max := u32 (strtoul 10 optarg) |>)
  else if opt =? 0x76 then Some a
  else None.

Definition ground_parse_args (argv : list (list Z)) : option rx_args :=
  '(opts, _) ← getopt_all (chars "d:o:H:p:M:b:I:C:TvL:h") argv;
  fold_left (fun a o => a ← a; ground_take_option o a) opts (Some default_rx_args).

(** ** The system *)

(** A UDP socket and [bind] of a port to any address or to the loopback one; a
    [poll] with its timeout and the [recvfrom] behind it, at most [cap] bytes
    ([None]: nothing came); [sendto], also to the sender of the last datagram;
    [bb_socket_write] with its timeout; the clock; [g_stop = 1]; and which of the
    other threads had their turns since the last call. *)
Class RxOs (W : Type) := {
  inet_socket : W -> Z * W;
  bind_any : Z -> Z -> W -> Z * W;
  bind_loopback : Z -> Z -> W -> Z * W;
  poll_recv : Z -> Z -> Z -> W -> option (list Z * sock_addr) * W;
  sendto : Z -> list Z -> sock_addr -> W -> W;
  answer_sender : Z -> list Z -> W -> W;
  bb_socket_write_within : Z -> list Z -> Z -> W -> Z * W;
  clock_sync_now_us : W -> Z * W;
  set_stop : W -> W;
  scheduled : W -> list thread * W
}.

Definition IDR_RELAY_WRITE_TIMEOUT_MS : Z := 100.
Definition SIDECAR_SRV_POLL_MS : Z := 200.

(** ** The state all threads share *)

(** The relay: not run yet, with its socket and number, or over. *)
Inductive relay_thread := Relay_new | Relay_running (fd seq : Z) | Relay_done.

(** The locals of [main] the loop carries, and the threads: [g_sidecar_fd] is
    [sidecar.fd], [g_sidecar_runs] whether the server's thread still does. *)
Record ground (P : Type) := mk_ground {
  g_rx : rx_state P; g_stream : stream; g_link : link; g_last_health_s : double; g_relay : relay_thread; g_sidecar_fd : Z; g_sidecar_runs : bool
}.
Arguments mk_ground {P}.
Arguments g_rx {P}.
Arguments g_stream {P}.
Arguments g_link {P}.
Arguments g_last_health_s {P}.
Arguments g_relay {P}.
Arguments g_sidecar_fd {P}.
Arguments g_sidecar_runs {P}.
#[export] Instance eta_ground {P} : Eta (ground P) := fun s =>
  mk_ground (g_rx s) (g_stream s) (g_link s) (g_last_health_s s) (g_relay s) (g_sidecar_fd s) (g_sidecar_runs s).
#[export] Instance eta_rx_state {P} : Eta (rx_state P) := fun s =>
  mk_rx (rx_sync s) (rx_sidecar s) (rx_reasm s) (rx_rtp s) (rx_fwd_off s) (rx_fwd_vcl s) (rx_frames_lost s) (rx_last_frame_seq s)
    (rx_have_last_frame_seq s) (rx_rtp_packets_sent s) (rx_rtp_bytes_sent s).

Section ground.
Context {W P : Type} {HP : Packetizer P} {HO : ProgramOs W} {HL : LinkSdk W} {HG : GroundOs W} {HX : RxOs W} {HT : Threads W} {HF : LogOs W}.
(** [rtp_h265_init] on the open socket, and [BB_SLOT_AP] of the SDK. *)
Context (rtp_open : Z -> Z -> M W P) (BB_SLOT_AP : Z) (args : rx_args).

#[local] Abbreviation Gr := (M (ground P * W)).
Definition genv {A} (m : M W A) : Gr A := lift snd (fun w s => (s.1, w)) m.
Definition gget {A} (f : ground P -> A) : Gr A := gets (fun s => f s.1).
Definition gupd (f : ground P -> ground P) : Gr unit := modify (fun s => (f s.1, s.2)).

(** ** The relay's thread *)

(** What [IdrRelay] asks for, with the thread's socket and the shared link. *)
#[local] Instance relay_env : RelayEnv ((Z * link) * W) := {
  relay_sockfd := fun e => (lk_sockfd e.1.2, e);
  relay_write := fun fd b e => let '(wr, w) := bb_socket_write_within fd b IDR_RELAY_WRITE_TIMEOUT_MS e.2 in (wr, (e.1, w));
  relay_now_us := fun e => let '(now, w) := clock_sync_now_us e.2 in (now, (e.1, w));
  relay_recv := fun on e => let '(r, w) := poll_recv (if on then e.1.1 else -1) 63 20 e.2 in (fst <$> r, (e.1, w));
  relay_ack := fun b e => (e.1, answer_sender e.1.1 b e.2);
  relay_stop := fun e => let '(stop, w) := stop_flag e.2 in (stop, (e.1, w))
}.

Definition open_idr_socket (port : Z) : M W Z :=
  fd ← inet_socket;
  if fd <? 0 then mret (-1)
  else
    ret ← bind_any fd (u16 port);
    if negb (ret =? 0) then modify (close_udp fd) ;; mret (-1) else mret fd.

(** One step of [idr_relay_thread_main]; [main] always gives it the estimate, so
    that it never leaves at once. *)
Definition relay_step : Gr unit :=
  r ← gget g_relay;
  match r with
  | Relay_new =>
      fd ← (if 0 <? ga_idr_port args then genv (open_idr_socket (ga_idr_port args)) else mret (-1));
      gupd (fun g => g <| g_relay := Relay_running fd 0 |>)
  | Relay_running fd seq =>
      stop ← genv stop_flag;
      if (stop : bool) then
        when (0 <=? fd) (genv (modify (close_udp fd))) ;;
        gupd (fun g => g <| g_relay := Relay_done |>)
      else fun s =>
        let '(g, w) := s in
        let '(ry, (_, w)) := relay_turn (mk_relay_cfg (0 <=? fd) true) (mk_relay seq (rx_sync (g_rx g))) ((fd, g_link g), w) in
        (tt, (g <| g_relay := Relay_running fd (ry_seq ry) |> <| g_rx := (g_rx g) <| rx_sync := ry_sync ry |> |>, w))
  | Relay_done => mret tt
  end.

(** ** The sidecar server's thread *)

(** One turn of [sidecar_srv_thread_main]'s loop.  [t3] is read whether or not
    the datagram is answered. *)
Definition sidecar_step : Gr unit :=
  runs ← gget g_sidecar_runs;
  if negb runs then mret tt
  else
    stop ← genv stop_flag;
    if (stop : bool) then gupd (fun g => g <| g_sidecar_runs := false |>)
    else
      fd ← gget g_sidecar_fd;
      r ← genv (poll_recv fd 64 SIDECAR_SRV_POLL_MS);
      match r with
      | None => mret tt
      | Some (buf, from) =>
          t2 ← genv clock_sync_now_us;
          t3 ← genv clock_sync_now_us;
          rx ← gget g_rx;
          let '(ans, sc) := sidecar_srv_datagram (rx_sidecar rx) (rx_sync rx) buf from t2 t3 in
          gupd (fun g => g <| g_rx := (g_rx g) <| rx_sidecar := sc |> |>) ;;
          match ans with
          | Some resp => genv (modify (sendto fd resp from))
          | None => mret tt
          end
      end.

Definition thread_step (t : thread) : Gr unit :=
  match t with Idr_thread => relay_step | Sidecar_thread => sidecar_step | Bitrate_thread => mret tt end.

Definition other_threads : Gr unit := ts ← genv scheduled; mfor thread_step ts.

(** ** The loop *)

Definition ground_health (fuel : nat) : Gr turn :=
  now ← genv now_monotonic_s;
  last ← gget g_last_health_s;
  if (now - last >=? DAEMON_HEALTH_CHECK_INTERVAL_S)%D then
    gupd (fun g => g <| g_last_health_s := now |>) ;;
    l ← gget g_link;
    alive ← genv (ar8030_link_is_alive l);
    if (alive : bool) then mret Go_on
    else
      r ← genv (fun w => match rx_reconnect BB_SLOT_AP fuel l (ga_port args) w with
                         | Some (o, w) => (Some o, w)
                         | None => (None, w)
                         end);
      match r with
      | None => mret Fuel_out
      | Some (Stopped l) => gupd (fun g => g <| g_link := l |>) ;; mret Leave
      | Some (Reopen_failed l) => gupd (fun g => g <| g_link := l |>) ;; genv (modify set_stop) ;; mret Leave
      | Some (Reopened l _) => gupd (fun g => g <| g_link := l |>) ;; mret Go_on
      end
  else mret Go_on.

(** [ar8030_chunk_stream_read] on the link's socket, whichever it is now. *)
Definition ground_stream_read (fuel : nat) : Gr (option read_result) := fun s =>
  let '(g, w) := s in
  match stream_read_loop (fun w cap => bb_socket_read (lk_sockfd (g_link g)) cap STREAM_READ_TIMEOUT_MS w) (fun w => (stop_flag w).1)
          fuel (g_stream g) w AR8030_CHUNK_MAX_PAYLOAD with
  | Some (res, st, w) => (Some res, (g <| g_stream := st |>, w))
  | None => (None, s)
  end.

(** A chunk, handled with the time it came; a sidecar datagram goes to its
    subscribers. *)
Definition ground_chunk (h : chunk_hdr) (payload : list Z) : Gr unit :=
  now_us ← genv clock_sync_now_us;
  fd ← gget g_sidecar_fd;
  rx ← gget g_rx;
  let '(dests, rx) := rx_chunk (ga_timing_sei args) now_us (h, payload) rx in
  gupd (fun g => g <| g_rx := rx |>) ;;
  mfor (fun to => genv (modify (sendto fd payload to))) dests.

Definition ground_turn (fuel : nat) : Gr turn :=
  other_threads ;;
  stop ← genv stop_flag;
  if (stop : bool) then mret Leave
  else
    t ← ground_health fuel;
    match t with
    | Go_on =>
        r ← ground_stream_read fuel;
        match r with
        | None => mret Fuel_out
        | Some (Read_chunk h payload) => ground_chunk h payload ;; mret Go_on
        | Some _ => mret Go_on
        end
    | t => mret t
    end.

Fixpoint ground_turns (fuel n : nat) : Gr turn :=
  match n with
  | O => mret Go_on
  | S n =>
      t ← ground_turn fuel;
      match t with
      | Go_on => ground_turns fuel n
      | t => mret t
      end
  end.

(** ** Start and end *)

(** The socket, or -1. *)
Definition open_sidecar_socket (port : Z) : M W Z :=
  if port <=? 0 then mret (-1)
  else
    fd ← inet_socket;
    if fd <? 0 then mret (-1)
    else
      ret ← bind_loopback fd (u16 port);
      if negb (ret =? 0) then modify (close_udp fd) ;; mret (-1) else mret fd.

(** [pthread_join]: the thread goes on until it is over. *)
Fixpoint run_out (step : Gr unit) (over : ground P -> bool) (fuel : nat) : Gr bool :=
  g ← gget id;
  if over g then mret true
  else
    match fuel with
    | O => mret false
    | S fuel => step ;; run_out step over fuel
    end.

Definition relay_over (g : ground P) : bool := match g_relay g with Relay_done => true | _ => false end.
Definition sidecar_over (g : ground P) : bool := negb (g_sidecar_runs g).

Definition join_thread (step : Gr unit) (over : ground P -> bool) (fuel : nat) (t : option Z) : Gr bool :=
  match t with
  | Some t => ok ← run_out step over fuel; genv (modify (pthread_join t)) ;; mret ok
  | None => mret true
  end.

Definition ground_stream_cap : Z := u32 (STREAM_BUF_CHUNKS * (AR8030_CHUNK_HDR_SIZE + AR8030_CHUNK_MAX_PAYLOAD)).

(** Behind the loop: [bufs] in the order they are freed. *)
Definition ground_end (fuel : nat) (udp_fd : Z) (bufs : list (option Z)) (idr sc : option Z) : Gr (option Z) :=
  mfor (fun p => genv (modify (free p))) bufs ;;
  genv (modify (close_udp udp_fd)) ;;
  genv (modify set_stop) ;;
  ok1 ← join_thread relay_step relay_over fuel idr;
  ok2 ← join_thread sidecar_step sidecar_over fuel sc;
  fd ← gget g_sidecar_fd;
  when (0 <=? fd) (genv (modify (close_udp fd))) ;;
  l ← gget g_link;
  _ ← genv (ar8030_link_close l);
  mret (if ok1 && ok2 then Some 0 else None).

Definition ground_loop (fuel : nat) (udp_fd : Z) (bufs : list (option Z)) (idr sc : option Z) : Gr (option Z) :=
  t ← ground_turns fuel fuel;
  match t with
  | Leave => ground_end fuel udp_fd bufs idr sc
  | _ => mret None
  end.

(** The locals of [main] in front of the loop; a thread that could not be
    started is over. *)
Definition ground_init (rtp : P) (l : link) (now : double) (idr sc : option Z) (sc_fd : Z) : ground P :=
  mk_ground (rx_init (sidecar_srv_open (ga_sidecar_port args) (0 <=? sc_fd)) (ga_reassembly_max args) rtp)
    (ar8030_chunk_stream_init ground_stream_cap) l now (match idr with Some _ => Relay_new | None => Relay_done end) sc_fd
    (match sc with Some _ => true | None => false end).

(** With both sockets open, the buffers there: the threads, the loop and the end. *)
Definition ground_threads (fuel : nat) (udp_fd : Z) (rtp : P) (bufs : list (option Z)) (l : link) : M W (option Z) :=
  idr ← pthread_create Idr_thread;
  sc_fd ← open_sidecar_socket (ga_sidecar_port args);
  sc ← (if 0 <=? sc_fd then pthread_create Sidecar_thread else mret None);
  now ← now_monotonic_s;
  let loop : M W (option Z) := fun w =>
    let '(r, (_, w)) := ground_loop fuel udp_fd bufs idr sc (ground_init rtp l now idr sc sc_fd, w) in (r, w) in
  loop.

Definition ground_run (fuel : nat) (udp_fd : Z) (l : link) : M W (option Z) :=
  rtp ← rtp_open udp_fd (ga_rtp_max_payload args);
  reasm_buf ← malloc (ga_reassembly_max args);
  match reasm_buf with
  | None => modify (close_udp udp_fd) ;; _ ← ar8030_link_close l; mret (Some 1)
  | Some _ =>
      stream_buf ← malloc ground_stream_cap;
      payload_buf ← malloc AR8030_CHUNK_MAX_PAYLOAD;
      match stream_buf, payload_buf with
      | Some _, Some _ => ground_threads fuel udp_fd rtp [stream_buf; payload_buf; reasm_buf] l
      | _, _ =>
          modify (free stream_buf) ;; modify (free payload_buf) ;; modify (free reasm_buf) ;;
          modify (close_udp udp_fd) ;; _ ← ar8030_link_close l; mret (Some 1)
      end
  end.

Definition ground_start (fuel : nat) : M W (option Z) :=
  _ ← (match ga_log_path args with Some path => rx_log_open path | None => mret 0 end);
  r ← (fun w => match ar8030_link_connect_retry fuel RETRY_MS w with
                | Some (ret, l, w) => (Some (ret, l), w)
                | None => (None, w)
                end);
  match r with
  | None => mret None
  | Some (ret, l) =>
      if negb (ret =? 0) then mret (Some 0)
      else
        '(ret, l) ← (fun w => let '(ret, _, l, w) := rx_open_socket BB_SLOT_AP l (ga_port args) w in ((ret, l), w));
        if negb (ret =? 0) then _ ← ar8030_link_close l; mret (Some 1)
        else
          udp_fd ← open_udp_target (ga_target_host args) (ga_target_port args);
          if udp_fd <? 0 then _ ← ar8030_link_close l; mret (Some 1)
          else ground_run fuel udp_fd l
  end.
End ground.

(** The whole program. *)
Definition ground_main {W P} `{Packetizer P, ProgramOs W, LinkSdk W, GroundOs W, RxOs W, Threads W, LogOs W}
    (rtp_open : Z -> Z -> M W P) (BB_SLOT_AP : Z) (fuel : nat) (argv : list (list Z)) : M W (option Z) :=
  match ground_parse_args argv with
  | None => mret (Some 1)
  | Some args => ground_start rtp_open BB_SLOT_AP args fuel
  end.
