(* ===== verification/AudioTx.v ===== *)
(** [audio_tx/main.c]: the air side of the audio path, the whole program -
    datagrams from the local UDP port go out one frame each on a data socket
    of their own.  Printing aside, every statement is here. *)

From Stdlib Require Import String.
From S2P Require Import Prelude Double CtrlMsg ChunkHdr Chunker Link Os Monad LcText CtlArgs.
#[local] Open Scope Z_scope.

(** ** Arguments *)

Definition DEFAULT_BIND_HOST : list Z := chars "127.0.0.1".
Definition DEFAULT_AUDIO_UDP_PORT : Z := 5601.
Definition DEFAULT_BB_PORT : Z := 3.
Definition DEFAULT_SLOT : Z := -1.
Definition DEFAULT_WRITE_TIMEOUT_MS : Z := 500.
Definition MAX_UDP_PACKET : Z := 4096.
Definition DAEMON_HEALTH_CHECK_INTERVAL_S : double := dofZ 3.

(** [struct audio_tx_args]; the address of the daemon, which the SDK class
    stands for, and [verbose], which only prints, are left out. *)
Record audio_tx_args := mk_args {
  a_slot : Z; a_bb_port : Z; a_bind_host : list Z; a_udp_port : Z; a_chunk_payload : Z; a_write_timeout_ms : Z
}.
#[export] Instance eta_audio_tx_args : Eta audio_tx_args := fun a =>
  mk_args (a_slot a) (a_bb_port a) (a_bind_host a) (a_udp_port a) (a_chunk_payload a) (a_write_timeout_ms a).

Definition default_args : audio_tx_args :=
  mk_args DEFAULT_SLOT DEFAULT_BB_PORT DEFAULT_BIND_HOST DEFAULT_AUDIO_UDP_PORT AR8030_CHUNK_DEFAULT_PAYLOAD DEFAULT_WRITE_TIMEOUT_MS.

(** The [switch] on one option; [None] for [-h]. *)
Definition take_option (o : Z * list Z) (a : audio_tx_args) : option audio_tx_args :=
  let '(opt, optarg) := o in
  if opt =? 0x64 then Some a
  else if opt =? 0x73 then Some (a <| a_slot := atoi optarg |>)
  else if opt =? 0x6f then Some (a <| a_bb_port := atoi optarg |>)
  else if opt =? 0x55 then Some (a <| a_bind_host := optarg |>)
  else if opt =? 0x75 then Some (a <| a_udp_port := atoi optarg |>)
  else if opt =? 0x63 then Some (a <| a_chunk_payload := u32 (strtoul 10 optarg) |>)
  else if opt =? 0x74 then Some (a <| a_write_timeout_ms := atoi optarg |>)
  else if opt =? 0x76 then Some a
  else None.

(** The arguments behind [argv[0]]. *)
Definition parse_args (argv : list (list Z)) : option audio_tx_args :=
  '(opts, _) ← getopt_all (chars "d:s:o:U:u:c:t:vh") argv;
  fold_left (fun a o => a ← a; take_option o a) opts (Some default_args).

(** ** The system *)

(** A [recvfrom]: a datagram (its first [cap] bytes), or an error. *)
Inductive received := Recv (data : list Z) | Recv_error.

(** [udp_socket] with its receive timeout, [inet_pton], [bind], [recvfrom], and
    [bb_socket_write] on a descriptor with a timeout. *)
Class AudioTxOs (W : Type) := {
  udp_socket : W -> Z * W;
  inet_pton : list Z -> option (list Z);
  bind : Z -> list Z -> Z -> W -> Z * W;
  recvfrom : Z -> Z -> W -> received * W;
  bb_socket_write : Z -> list Z -> Z -> W -> Z * W
}.

(** ** Sending *)

(** [struct audio_tx_stats] *)
Record audio_tx_stats := mk_astats {
  packets_in : Z; frames_complete : Z; frames_incomplete : Z; chunks_sent : Z; chunks_failed : Z; bytes_sent : Z
}.
#[export] Instance eta_audio_tx_stats : Eta audio_tx_stats := fun s =>
  mk_astats (packets_in s) (frames_complete s) (frames_incomplete s) (chunks_sent s) (chunks_failed s) (bytes_sent s).
Definition audio_stats_zero : audio_tx_stats := mk_astats 0 0 0 0 0 0.

Section audio_tx.
Context {W : Type} {HO : ProgramOs W} {HL : LinkSdk W} {HT : AudioTxOs W}.

(** The [while (sent < len)]. *)
Fixpoint audio_write_loop (fd timeout_ms : Z) (fuel : nat) (buf : list Z) (sent : Z) (s : audio_tx_stats * W) : Z * (audio_tx_stats * W) :=
  match fuel with
  | O => (-1, s)
  | S fuel =>
      let '(st, w) := s in
      if sent <? zlen buf then
        let '(stop, w) := stop_flag w in
        if stop then (-1, (st, w))
        else
          let '(wr, w) := bb_socket_write fd (zdrop sent buf) timeout_ms w in
          if wr <=? 0 then (-1, (st <| chunks_failed := u64 (chunks_failed st + 1) |>, w))
          else audio_write_loop fd timeout_ms fuel buf (u32 (sent + wr)) (st, w)
      else (0, (st <| chunks_sent := u64 (chunks_sent st + 1) |> <| bytes_sent := u64 (bytes_sent st + zlen buf) |>, w))
  end.

(** The chunker's send callback. *)
Definition chunk_send_to_socket (fd timeout_ms : Z) (s : audio_tx_stats * W) (buf : list Z) : Z * (audio_tx_stats * W) :=
  audio_write_loop fd timeout_ms (S (length buf)) buf 0 s.

(** ** The sockets *)

(** [-1], or the bound socket. *)
Definition open_udp_source (host : list Z) (port : Z) : M W Z :=
  fd ← udp_socket;
  if fd <? 0 then mret (-1)
  else
    match inet_pton host with
    | None => modify (close_udp fd) ;; mret (-1)
    | Some addr =>
        ret ← bind fd addr (u16 port);
        if negb (ret =? 0) then modify (close_udp fd) ;; mret (-1) else mret fd
    end.

(** The scoped force-close and the tries at the data socket, the same at
    startup and after a reconnect; the result of the last try, and the link. *)
Definition audio_open_socket (slot port : Z) (l : link) (w : W) : (Z * link) * W :=
  let '(_, w) := ar8030_link_force_close_socket l slot port w in
  let '(ret, _, l, w) := open_tries (Z.to_nat SOCKET_REOPEN_MAX_ATTEMPTS) slot port l (-1) 0 w in
  ((ret, l), w).

(** ** The loop *)

(** The locals of [main] the loop carries; [at_sockfd] is [send_ctx.sockfd]. *)
Record audio_tx := mk_at {
  at_link : link; at_slot : Z; at_sockfd : Z; at_stats : audio_tx_stats; at_frame_seq : Z; at_last_health_s : double
}.
#[export] Instance eta_audio_tx : Eta audio_tx := fun s =>
  mk_at (at_link s) (at_slot s) (at_sockfd s) (at_stats s) (at_frame_seq s) (at_last_health_s s).

#[local] Abbreviation At := (M (audio_tx * W)).
Definition atenv {A} (m : M W A) : At A := lift snd (fun w s => (s.1, w)) m.
Definition atget {A} (f : audio_tx -> A) : At A := gets (fun s => f s.1).
Definition atupd (f : audio_tx -> audio_tx) : At unit := modify (fun s => (f s.1, s.2)).

(** The link is gone: a new one, the slot looked up again when it was not
    given, and the data socket. *)
Definition audio_tx_reconnect (fuel : nat) (args : audio_tx_args) (slot_was_auto : bool) : At turn :=
  l ← atget at_link;
  r ← atenv (fun w => match ar8030_link_reconnect_retry fuel l RETRY_MS w with
                      | Some (ret, l, w) => (Some (ret, l), w)
                      | None => (None, w)
                      end);
  match r with
  | None => mret Fuel_out
  | Some (ret, l) =>
      atupd (fun x => x <| at_link := l |>) ;;
      if negb (ret =? 0) then mret Leave
      else
        slot0 ← atget at_slot;
        slot ← (if slot_was_auto
                then atenv (fun w => match (d ← lk_dev l; resolve_connected_slot fuel d w) with
                                     | Some (s, w) => (Some s, w)
                                     | None => (None, w)
                                     end)
                else mret (Some slot0));
        match slot with
        | None => mret Fuel_out
        | Some slot =>
            if slot_was_auto && (slot <? 0) then mret Leave
            else
              atupd (fun x => x <| at_slot := slot |>) ;;
              '(ret, l) ← atenv (audio_open_socket slot (a_bb_port args) l);
              atupd (fun x => x <| at_link := l |>) ;;
              if negb (ret =? 0) then mret Leave
              else atupd (fun x => x <| at_sockfd := lk_sockfd l |>) ;; mret Go_on
        end
  end.

Definition audio_tx_health (fuel : nat) (args : audio_tx_args) (slot_was_auto : bool) : At turn :=
  now ← atenv now_monotonic_s;
  last ← atget at_last_health_s;
  if (now - last >=? DAEMON_HEALTH_CHECK_INTERVAL_S)%D then
    atupd (fun x => x <| at_last_health_s := now |>) ;;
    l ← atget at_link;
    alive ← atenv (ar8030_link_is_alive l);
    if (alive : bool) then mret Go_on else audio_tx_reconnect fuel args slot_was_auto
  else mret Go_on.

(** A datagram becomes one frame. *)
Definition audio_tx_packet (args : audio_tx_args) (data : list Z) : At unit :=
  atupd (fun x => x <| at_stats := (at_stats x) <| packets_in := u64 (packets_in (at_stats x) + 1) |> |>) ;;
  x ← atget id;
  let '(seq, fd) := (at_frame_seq x, at_sockfd x) in
  '(sent, expected) ← (fun s : audio_tx * W =>
    let '(r, (st, w)) := ar8030_chunk_frame (chunk_send_to_socket fd (a_write_timeout_ms args)) seq 0 AR8030_CHUNK_CODEC_OPUS 0 data
                           (a_chunk_payload args) (AR8030_CHUNK_HDR_SIZE + a_chunk_payload args) (at_stats s.1, s.2) in
    (r, (s.1 <| at_stats := st |>, w)));
  atupd (fun x => x <| at_stats :=
    if (0 <=? sent) && (u32 sent =? default 0 expected)
    then (at_stats x) <| frames_complete := u64 (frames_complete (at_stats x) + 1) |>
    else (at_stats x) <| frames_incomplete := u64 (frames_incomplete (at_stats x) + 1) |> |>) ;;
  atupd (fun x => x <| at_frame_seq := u16 (at_frame_seq x + 1) |>).

Definition audio_tx_turn (fuel : nat) (args : audio_tx_args) (slot_was_auto : bool) (udp_fd : Z) : At turn :=
  stop ← atenv stop_flag;
  if (stop : bool) then mret Leave
  else
    t ← audio_tx_health fuel args slot_was_auto;
    match t with
    | Go_on =>
        r ← atenv (recvfrom udp_fd MAX_UDP_PACKET);
        match r with
        | Recv_error | Recv [] => mret Go_on
        | Recv data => audio_tx_packet args data ;; mret Go_on
        end
    | t => mret t
    end.

(** [n] turns, or fewer if one leaves the loop. *)
Fixpoint audio_tx_turns (fuel n : nat) (args : audio_tx_args) (slot_was_auto : bool) (udp_fd : Z) : At turn :=
  match n with
  | O => mret Go_on
  | S n =>
      t ← audio_tx_turn fuel args slot_was_auto udp_fd;
      match t with
      | Go_on => audio_tx_turns fuel n args slot_was_auto udp_fd
      | t => mret t
      end
  end.

(** ** [main] *)

(** With an open data socket: the buffers, the loop and the end.  The exit
    code; [None] when the turns or a wait's fuel were used up. *)
Definition audio_tx_run (fuel : nat) (args : audio_tx_args) (slot_was_auto : bool) (udp_fd : Z) (l : link) : M W (option Z) :=
  scratch ← malloc (u32 (AR8030_CHUNK_HDR_SIZE + a_chunk_payload args));
  udp_buf ← malloc MAX_UDP_PACKET;
  match scratch, udp_buf with
  | Some _, Some _ =>
      now ← now_monotonic_s;
      '(t, l) ← (fun w => let '(t, (x, w)) := audio_tx_turns fuel fuel args slot_was_auto udp_fd
                                               (mk_at l (a_slot args) (lk_sockfd l) audio_stats_zero 0 now, w) in
                          ((t, at_link x), w));
      match t with
      | Leave =>
          modify (free scratch) ;; modify (free udp_buf) ;;
          _ ← ar8030_link_close l; modify (close_udp udp_fd) ;; mret (Some 0)
      | _ => mret None
      end
  | _, _ =>
      modify (free scratch) ;; modify (free udp_buf) ;;
      _ ← ar8030_link_close l; modify (close_udp udp_fd) ;; mret (Some 1)
  end.

Definition audio_tx_main (fuel : nat) (argv : list (list Z)) : M W (option Z) :=
  match parse_args argv with
  | None => mret (Some 1)
  | Some args =>
      if (a_chunk_payload args =? 0) || (AR8030_CHUNK_MAX_PAYLOAD <? a_chunk_payload args) then mret (Some 1)
      else
        udp_fd ← open_udp_source (a_bind_host args) (a_udp_port args);
        if udp_fd <? 0 then mret (Some 1)
        else
          r ← (fun w => match ar8030_link_connect_retry fuel RETRY_MS w with
                        | Some (ret, l, w) => (Some (ret, l), w)
                        | None => (None, w)
                        end);
          match r with
          | None => mret None
          | Some (ret, l) =>
              if negb (ret =? 0) then modify (close_udp udp_fd) ;; mret (Some 0)
              else
                let slot_was_auto := a_slot args <? 0 in
                slot ← (if slot_was_auto
                        then (fun w => match (d ← lk_dev l; resolve_connected_slot fuel d w) with
                                       | Some (s, w) => (Some s, w)
                                       | None => (None, w)
                                       end)
                        else mret (Some (a_slot args)));
                match slot with
                | None => mret None
                | Some slot =>
                    if slot_was_auto && (slot <? 0) then _ ← ar8030_link_close l; modify (close_udp udp_fd) ;; mret (Some 0)
                    else
                      '(ret, l) ← audio_open_socket slot (a_bb_port args) l;
                      if negb (ret =? 0) then _ ← ar8030_link_close l; modify (close_udp udp_fd) ;; mret (Some 1)
                      else audio_tx_run fuel (args <| a_slot := slot |>) slot_was_auto udp_fd l
                end
          end
  end.
End audio_tx.
