(* ===== verification/AudioRx.v ===== *)
(** [audio_rx/main.c]: the ground side of the audio path, the whole program -
    chunks off the data socket are put together again and every frame leaves
    as one UDP datagram.  Printing aside, every statement is here. *)

From Stdlib Require Import String.
From S2P Require Import Prelude Double CtrlMsg ChunkHdr Chunker Reassembly ChunkStream Link Os Monad LcText CtlArgs AudioTx.
#[local] Open Scope Z_scope.

(** ** Arguments *)

Definition DEFAULT_TARGET_HOST : list Z := chars "127.0.0.1".
Definition DEFAULT_TARGET_PORT : Z := 5600.
Definition DEFAULT_REASSEMBLY_MAX : Z := 16 * 1024.
Definition STREAM_READ_TIMEOUT_MS : Z := 200.
Definition STREAM_BUF_CHUNKS : Z := 4.

(** [struct audio_rx_args], less the daemon's address and [verbose]. *)
Record audio_rx_args := mk_rxargs { ra_bb_port : Z; ra_target_host : list Z; ra_target_port : Z; ra_reassembly_max : Z }.
#[export] Instance eta_audio_rx_args : Eta audio_rx_args := fun a =>
  mk_rxargs (ra_bb_port a) (ra_target_host a) (ra_target_port a) (ra_reassembly_max a).

Definition rx_default_args : audio_rx_args := mk_rxargs DEFAULT_BB_PORT DEFAULT_TARGET_HOST DEFAULT_TARGET_PORT DEFAULT_REASSEMBLY_MAX.

Definition rx_take_option (o : Z * list Z) (a : audio_rx_args) : option audio_rx_args :=
  let '(opt, optarg) := o in
  if opt =? 0x64 then Some a
  else if opt =? 0x6f then Some (a <| ra_bb_port := atoi optarg |>)
  else if opt =? 0x48 then Some (a <| ra_target_host := optarg |>)
  else if opt =? 0x70 then Some (a <| ra_target_port := atoi optarg |>)
  else if opt =? 0x62 then Some (a <| ra_reassembly_max := u32 (strtoul 10 optarg) |>)
  else if opt =? 0x76 then Some a
  else None.

Definition rx_parse_args (argv : list (list Z)) : option audio_rx_args :=
  '(opts, _) ← getopt_all (chars "d:o:H:p:b:vh") argv;
  fold_left (fun a o => a ← a; rx_take_option o a) opts (Some rx_default_args).

Section audio_rx.
Context {W : Type} {HO : ProgramOs W} {HL : LinkSdk W} {HR : GroundOs W}.

(** ** The loop *)

(** What [main] carries through it; [BB_SLOT_AP] is a number of the SDK's. *)
Record audio_rx := mk_ar {
  ar_link : link; ar_stream : stream; ar_reasm : reasm; ar_udp_packets_sent : Z; ar_udp_bytes_sent : Z; ar_last_health_s : double
}.
#[export] Instance eta_audio_rx : Eta audio_rx := fun s =>
  mk_ar (ar_link s) (ar_stream s) (ar_reasm s) (ar_udp_packets_sent s) (ar_udp_bytes_sent s) (ar_last_health_s s).

Context (BB_SLOT_AP : Z).
#[local] Abbreviation Ar := (M (audio_rx * W)).
Definition arenv {A} (m : M W A) : Ar A := lift snd (fun w s => (s.1, w)) m.
Definition arget {A} (f : audio_rx -> A) : Ar A := gets (fun s => f s.1).
Definition arupd (f : audio_rx -> audio_rx) : Ar unit := modify (fun s => (f s.1, s.2)).

Definition audio_rx_reconnect (fuel : nat) (args : audio_rx_args) : Ar turn :=
  l ← arget ar_link;
  r ← arenv (fun w => match ar8030_link_reconnect_retry fuel l RETRY_MS w with
                      | Some (ret, l, w) => (Some (ret, l), w)
                      | None => (None, w)
                      end);
  match r with
  | None => mret Fuel_out
  | Some (ret, l) =>
      arupd (fun x => x <| ar_link := l |>) ;;
      if negb (ret =? 0) then mret Leave
      else
        '(ret, l) ← arenv (audio_open_socket BB_SLOT_AP (ra_bb_port args) l);
        arupd (fun x => x <| ar_link := l |>) ;;
        mret (if negb (ret =? 0) then Leave else Go_on)
  end.

Definition audio_rx_health (fuel : nat) (args : audio_rx_args) : Ar turn :=
  now ← arenv now_monotonic_s;
  last ← arget ar_last_health_s;
  if (now - last >=? DAEMON_HEALTH_CHECK_INTERVAL_S)%D then
    arupd (fun x => x <| ar_last_health_s := now |>) ;;
    l ← arget ar_link;
    alive ← arenv (ar8030_link_is_alive l);
    if (alive : bool) then mret Go_on else audio_rx_reconnect fuel args
  else mret Go_on.

(** [ar8030_chunk_stream_read] on the link's socket, whichever it is now. *)
Definition audio_stream_read (fuel : nat) : Ar (option read_result) := fun s =>
  let '(x, w) := s in
  match stream_read_loop (fun w cap => bb_socket_read (lk_sockfd (ar_link x)) cap STREAM_READ_TIMEOUT_MS w) (fun w => (stop_flag w).1)
          fuel (ar_stream x) w AR8030_CHUNK_MAX_PAYLOAD with
  | Some (res, st, w) => (Some res, (x <| ar_stream := st |>, w))
  | None => (None, s)
  end.

(** A chunk; a complete frame is a datagram. *)
Definition audio_rx_chunk (udp_fd : Z) (h : chunk_hdr) (payload : list Z) : Ar unit :=
  r ← arget ar_reasm;
  let '(complete, r) := ar8030_reassembly_feed r h payload in
  arupd (fun x => x <| ar_reasm := r |>) ;;
  when (negb (complete =? 0))
    (sent ← arenv (send udp_fd (r_buf r));
     when (0 <? sent)
       (arupd (fun x => x <| ar_udp_packets_sent := u64 (ar_udp_packets_sent x + 1) |>
                          <| ar_udp_bytes_sent := u64 (ar_udp_bytes_sent x + sent) |>)) ;;
     arupd (fun x => x <| ar_reasm := ar8030_reassembly_reset r |>)).

Definition audio_rx_turn (fuel : nat) (args : audio_rx_args) (udp_fd : Z) : Ar turn :=
  stop ← arenv stop_flag;
  if (stop : bool) then mret Leave
  else
    t ← audio_rx_health fuel args;
    match t with
    | Go_on =>
        r ← audio_stream_read fuel;
        match r with
        | None => mret Fuel_out
        | Some (Read_chunk h payload) => audio_rx_chunk udp_fd h payload ;; mret Go_on
        | Some _ => mret Go_on
        end
    | t => mret t
    end.

Fixpoint audio_rx_turns (fuel n : nat) (args : audio_rx_args) (udp_fd : Z) : Ar turn :=
  match n with
  | O => mret Go_on
  | S n =>
      t ← audio_rx_turn fuel args udp_fd;
      match t with
      | Go_on => audio_rx_turns fuel n args udp_fd
      | t => mret t
      end
  end.

(** ** [main] *)

Definition stream_buf_cap : Z := u32 (STREAM_BUF_CHUNKS * (AR8030_CHUNK_HDR_SIZE + AR8030_CHUNK_MAX_PAYLOAD)).

(** With both sockets open: the buffers, the loop and the end. *)
Definition audio_rx_run (fuel : nat) (args : audio_rx_args) (udp_fd : Z) (l : link) : M W (option Z) :=
  reasm_buf ← malloc (ra_reassembly_max args);
  match reasm_buf with
  | None => modify (close_udp udp_fd) ;; _ ← ar8030_link_close l; mret (Some 1)
  | Some _ =>
      stream_buf ← malloc stream_buf_cap;
      payload_buf ← malloc AR8030_CHUNK_MAX_PAYLOAD;
      match stream_buf, payload_buf with
      | Some _, Some _ =>
          now ← now_monotonic_s;
          '(t, l) ← (fun w => let '(t, (x, w)) := audio_rx_turns fuel fuel args udp_fd
                                                   (mk_ar l (ar8030_chunk_stream_init stream_buf_cap)
                                                      (ar8030_reassembly_init (ra_reassembly_max args)) 0 0 now, w) in
                              ((t, ar_link x), w));
          match t with
          | Leave =>
              modify (free stream_buf) ;; modify (free payload_buf) ;; modify (free reasm_buf) ;;
              modify (close_udp udp_fd) ;; _ ← ar8030_link_close l; mret (Some 0)
          | _ => mret None
          end
      | _, _ =>
          modify (free stream_buf) ;; modify (free payload_buf) ;; modify (free reasm_buf) ;;
          modify (close_udp udp_fd) ;; _ ← ar8030_link_close l; mret (Some 1)
      end
  end.

Definition audio_rx_main (fuel : nat) (argv : list (list Z)) : M W (option Z) :=
  match rx_parse_args argv with
  | None => mret (Some 1)
  | Some args =>
      r ← (fun w => match ar8030_link_connect_retry fuel RETRY_MS w with
                    | Some (ret, l, w) => (Some (ret, l), w)
                    | None => (None, w)
                    end);
      match r with
      | None => mret None
      | Some (ret, l) =>
          if negb (ret =? 0) then mret (Some 0)
          else
            '(ret, l) ← audio_open_socket BB_SLOT_AP (ra_bb_port args) l;
            if negb (ret =? 0) then _ ← ar8030_link_close l; mret (Some 1)
            else
              udp_fd ← open_udp_target (ra_target_host args) (ra_target_port args);
              if udp_fd <? 0 then _ ← ar8030_link_close l; mret (Some 1)
              else audio_rx_run fuel args udp_fd l
      end
  end.
End audio_rx.
