(* ===== verification/AudioPath.v ===== *)
(** The audio path from the encoder's UDP port to the player's: the loops of
    [audio_tx/main.c] and [audio_rx/main.c] with the chunker, the stream reader
    and the reassembly between them. *)

From S2P Require Import Prelude Double Crc16 ChunkHdr Chunker Reassembly ChunkStream TxSend EndToEnd Link Os Monad AudioTx AudioRx.
#[local] Open Scope Z_scope.

(** ** The air side *)

(** What the operations of the air loop do to the outside: [at_wire] is what
    the data socket has taken, [at_heard] the datagrams received that hold
    anything. *)
Class AudioTxWire (W : Type) {HO : ProgramOs W} {HL : LinkSdk W} {HT : AudioTxOs W} := {
  at_wire : W -> list Z;
  at_heard : W -> list (list Z);
  at_write : forall fd b t w, let '(wr, w') := bb_socket_write fd b t w in
    wr <= zlen b /\ at_wire w' = at_wire w ++ ztake wr b /\ at_heard w' = at_heard w;
  at_recv : forall fd cap w, 0 < cap -> let '(r, w') := recvfrom fd cap w in
    at_wire w' = at_wire w /\
    match r with
    | Recv [] | Recv_error => at_heard w' = at_heard w
    | Recv d => at_heard w' = at_heard w ++ [d] /\ zlen d <= cap /\ bytes_ok d
    end;
  at_stop : forall w, let '(_, w') := stop_flag w in at_wire w' = at_wire w /\ at_heard w' = at_heard w;
  at_clock : forall w, let '(_, w') := now_monotonic_s w in at_wire w' = at_wire w /\ at_heard w' = at_heard w;
  at_status : forall dev w, let '(_, _, w') := bb_get_status dev w in at_wire w' = at_wire w /\ at_heard w' = at_heard w
}.

(** The chunks of one datagram. *)
Definition audio_count (payload : Z) (d : list Z) : Z := chunk_count_for (zlen d) payload.
Definition audio_params (payload sq : Z) (d : list Z) : chunk_params :=
  mk_cp sq 0 AR8030_CHUNK_CODEC_OPUS 0 d payload 0 (audio_count payload d) false false.
Definition audio_frame (payload sq : Z) (d : list Z) : list chunk := chunks_of (audio_params payload sq d) (audio_count payload d).

(** Those of datagrams in a row, the first numbered [sq]. *)
Fixpoint audio_frames (payload sq : Z) (ds : list (list Z)) : list chunk :=
  match ds with
  | [] => []
  | d :: ds => audio_frame payload sq d ++ audio_frames payload (u16 (sq + 1)) ds
  end.

(** What a datagram off [recvfrom] is. *)
Definition packet_ok (d : list Z) : Prop := d <> [] /\ zlen d <= MAX_UDP_PACKET /\ bytes_ok d.

Section frames.
Context (payload : Z).
Hypothesis Hpay : 0 < payload <= AR8030_CHUNK_MAX_PAYLOAD.

Lemma audio_count_bounds d : packet_ok d -> zlen d + payload - 1 < 2 ^ 32 /\ 1 <= audio_count payload d <= 4097.
Proof using Hpay.
  intros (_ & Hl & _); pose proof (zlen_nonneg d); unfold MAX_UDP_PACKET, AR8030_CHUNK_MAX_PAYLOAD in *.
  assert (Hb : zlen d + payload - 1 < 2 ^ 32) by lia; split; [exact Hb|].
  pose proof (chunk_count_bounds (audio_params payload 0 d) (audio_count payload d)) as Hc.
  unfold AR8030_CHUNK_MAX_PAYLOAD in Hc; cbn [audio_params cp_payload cp_data] in Hc; destruct Hc as (? & _ & _ & ?); (done || lia).
Qed.

Lemma audio_params_ok sq d : packet_ok d -> 0 <= sq < 65536 -> params_ok (audio_params payload sq d).
Proof using Hpay. intros Hd Hs; destruct (audio_count_bounds d Hd); constructor; cbn; try done; try lia; apply Hd. Qed.

Lemma audio_frame_ok sq d : packet_ok d -> 0 <= sq < 65536 -> Forall chunk_ok (audio_frame payload sq d).
Proof using Hpay. intros; apply chunks_of_ok; [by apply audio_params_ok|done]. Qed.

Lemma audio_frames_ok ds : forall sq, Forall packet_ok ds -> 0 <= sq < 65536 -> Forall chunk_ok (audio_frames payload sq ds).
Proof using Hpay.
  induction ds as [|d ds IH]; intros sq Hds Hs; [constructor|]; apply Forall_cons_1 in Hds as [Hd Hds].
  apply Forall_app; split; [by apply audio_frame_ok|]; apply IH; [done|apply u16_range].
Qed.
End frames.

Section air.
Context {W : Type} {HO : ProgramOs W} {HL : LinkSdk W} {HT : AudioTxOs W} {HW : AudioTxWire W}.
(** The link takes something of every write, the daemon answers and nobody
    stops the program. *)
Hypothesis Htakes : forall fd b t w, b <> [] -> 0 < (bb_socket_write fd b t w).1.
Hypothesis Hgoes : forall w, (stop_flag w).1 = false.
Hypothesis Halive : forall dev w, (bb_get_status dev w).1.1 = 0.

Definition same_outside (w w' : W) : Prop := at_wire w' = at_wire w /\ at_heard w' = at_heard w.

Lemma stop_goes w : exists w', stop_flag w = (false, w') /\ same_outside w w'.
Proof using Hgoes HW.
  pose proof (at_stop w) as Hs; pose proof (Hgoes w) as Hg; destruct (stop_flag w) as [b w']; cbn in Hg; subst b; by exists w'.
Qed.

(** A buffer goes out whole, however the socket cuts it. *)
Lemma write_loop_whole fd t fuel buf : forall sent st w,
  0 <= sent <= zlen buf -> zlen buf < 2 ^ 31 -> (Z.to_nat (zlen buf - sent) < fuel)%nat ->
  exists w', audio_write_loop fd t fuel buf sent (st, w) =
    (0, (st <| chunks_sent := u64 (chunks_sent st + 1) |> <| bytes_sent := u64 (bytes_sent st + zlen buf) |>, w')) /\
    at_wire w' = at_wire w ++ zdrop sent buf /\ at_heard w' = at_heard w.
Proof using Htakes Hgoes HW.
  induction fuel as [|fuel IH]; intros sent st w Hs Hl Hf; [lia|]; cbn [audio_write_loop].
  destruct (Z.ltb_spec sent (zlen buf)) as [Hlt|].
  2: { exists w; split_and!; try done; assert (E : zdrop sent buf = []); [|by rewrite E, app_nil_r].
       apply zlen_eq_0; rewrite zlen_drop; lia. }
  destruct (stop_goes w) as (w1 & -> & Hw1 & Hh1); assert (Hz : zlen (zdrop sent buf) = zlen buf - sent) by (by apply zlen_drop).
  assert (Hne : zdrop sent buf <> []) by (intros E; rewrite E, (zlen_nil (A := Z)) in Hz; lia).
  pose proof (Htakes fd (zdrop sent buf) t w1 Hne) as Hpos; pose proof (at_write fd (zdrop sent buf) t w1) as Hwr.
  destruct (bb_socket_write fd _ t w1) as [wr w2]; cbn [fst] in Hpos; destruct Hwr as (Hwr & Hw2 & Hh2).
  rewrite (proj2 (Z.leb_gt _ _)), u32_id by lia.
  destruct (IH (sent + wr) st w2) as (w' & E & Hw' & Hh'); [lia|lia|lia|]; exists w'; split_and!; [done| |congruence].
  rewrite Hw', Hw2, Hw1, <- app_assoc, <- (zdrop_zdrop wr sent) by lia; unfold ztake, zdrop at 2; by rewrite take_drop.
Qed.

(** The counters of frames. *)
Definition frame_counts (st : audio_tx_stats) : Z * Z * Z := (packets_in st, frames_complete st, frames_incomplete st).

Lemma send_all_whole fd t cs : forall st w,
  Forall (fun c : chunk => zlen (chunk_bytes c) < 2 ^ 31) cs ->
  exists st' w', send_all (chunk_send_to_socket fd t) (chunk_bytes <$> cs) (st, w) = (zlen cs, (st', w')) /\
    frame_counts st' = frame_counts st /\ at_wire w' = at_wire w ++ wire_bytes cs /\ at_heard w' = at_heard w.
Proof using Htakes Hgoes HW.
  induction cs as [|c cs IH]; intros st w Hcs.
  { exists st, w; split_and!; try done; by rewrite app_nil_r. }
  apply Forall_cons_1 in Hcs as [Hc Hcs]; cbn [fmap list_fmap send_all]; unfold chunk_send_to_socket at 1.
  pose proof (zlen_nonneg (chunk_bytes c)).
  destruct (write_loop_whole fd t (S (length (chunk_bytes c))) (chunk_bytes c) 0 st w) as (w1 & -> & Hw1 & Hh1); [lia|lia|unfold zlen; lia|].
  cbn [negb Z.eqb]; match goal with |- context [send_all _ _ (?s, w1)] => destruct (IH s w1 Hcs) as (st' & w' & -> & Hst & Hw & Hh) end.
  exists st', w'; rewrite zlen_cons; split_and!; [done|by rewrite Hst| |congruence].
  by rewrite Hw, Hw1, zdrop_0, wire_bytes_cons, <- app_assoc.
Qed.

(** The loop's variables are in range, and there is a link. *)
Record audio_tx_ready (x : audio_tx) : Prop := {
  ad_dev : is_Some (lk_dev (at_link x));
  ad_seq : 0 <= at_frame_seq x < 65536
}.

Context (args : audio_tx_args).
Hypothesis Hpay : 0 < a_chunk_payload args <= AR8030_CHUNK_MAX_PAYLOAD.

Lemma packet_sent x w d : audio_tx_ready x -> packet_ok d ->
  exists x' w', audio_tx_packet args d (x, w) = (tt, (x', w')) /\
    audio_tx_ready x' /\ at_frame_seq x' = u16 (at_frame_seq x + 1) /\
    frame_counts (at_stats x') = (u64 (packets_in (at_stats x) + 1), u64 (frames_complete (at_stats x) + 1), frames_incomplete (at_stats x)) /\
    at_wire w' = at_wire w ++ wire_bytes (audio_frame (a_chunk_payload args) (at_frame_seq x) d) /\ at_heard w' = at_heard w.
Proof using Htakes Hgoes HW Hpay.
  intros [Hdev Hseq] Hd; destruct (audio_count_bounds _ Hpay d Hd) as [Hl Hc].
  pose proof (audio_frame_ok _ Hpay (at_frame_seq x) d Hd Hseq) as Hok; unfold audio_tx_packet, atupd, atget.
  rewrite bind_run; cbn [modify fst snd].
  set (x1 := x <| at_stats := (at_stats x) <| packets_in := u64 (packets_in (at_stats x) + 1) |> |>).
  assert (Hx : at_link x1 = at_link x /\ at_frame_seq x1 = at_frame_seq x /\
    frame_counts (at_stats x1) = (u64 (packets_in (at_stats x) + 1), frames_complete (at_stats x), frames_incomplete (at_stats x))) by done.
  clearbody x1; destruct Hx as (Hx1 & Hx2 & Hx3); rewrite bind_run; cbn [gets fst snd id]; rewrite Hx2.
  destruct (send_all_whole (at_sockfd x1) (a_write_timeout_ms args) (audio_frame (a_chunk_payload args) (at_frame_seq x) d)
    (at_stats x1) w) as (st & w' & E & Hst & Hw & Hh).
  { eapply list.Forall_impl; [exact Hok|]; intros c Hck; rewrite chunk_bytes_len, <- (chunk_ok_len _ Hck).
    pose proof (ok_payload_len _ (chunk_ok_hdr _ Hck)); change AR8030_CHUNK_HDR_SIZE with 22; lia. }
  assert (Hn : zlen (audio_frame (a_chunk_payload args) (at_frame_seq x) d) = audio_count (a_chunk_payload args) d) by
    (apply (zlen_chunks_of (audio_params (a_chunk_payload args) (at_frame_seq x) d)); done).
  erewrite bind_eq.
  2: { rewrite (chunk_frame_spec _ _ _ _ _ _ _ _ _ (audio_count (a_chunk_payload args) d)) by (done || lia).
       fold (audio_params (a_chunk_payload args) (at_frame_seq x) d) (audio_frame (a_chunk_payload args) (at_frame_seq x) d).
       cbn [fst snd]; rewrite E; reflexivity. }
  rewrite Hn; cbn [fst snd default]; rewrite bind_run; cbn [modify fst snd]; rewrite u32_id by lia.
  rewrite (proj2 (Z.leb_le _ _)), Z.eqb_refl by lia; cbn [andb].
  eexists _, w'; split; [reflexivity|]; rewrite Hx3 in Hst; injection Hst as E1 E2 E3.
  split_and!; [|exact (f_equal (fun q => u16 (q + 1)) Hx2)| |done|done].
  - constructor; [by rewrite <- Hx1 in Hdev|apply u16_range].
  - trans (packets_in st, u64 (frames_complete st + 1), frames_incomplete st); [reflexivity|by rewrite E1, E2, E3].
Qed.

(** One turn: whatever was received, the same frame counts and the chunks on
    the wire. *)
Lemma turn_sends fuel auto fd x w : audio_tx_ready x ->
  exists x' w' ds, audio_tx_turn fuel args auto fd (x, w) = (Go_on, (x', w')) /\ audio_tx_ready x' /\
    at_heard w' = at_heard w ++ ds /\ Forall packet_ok ds /\
    at_wire w' = at_wire w ++ wire_bytes (audio_frames (a_chunk_payload args) (at_frame_seq x) ds) /\
    match ds with
    | [] => at_frame_seq x' = at_frame_seq x /\ at_stats x' = at_stats x
    | d :: ds => ds = [] /\ at_frame_seq x' = u16 (at_frame_seq x + 1) /\ frame_counts (at_stats x') =
        (u64 (packets_in (at_stats x) + 1), u64 (frames_complete (at_stats x) + 1), frames_incomplete (at_stats x))
    end.
Proof using Htakes Hgoes Halive HW Hpay.
  intros Hx; unfold audio_tx_turn; destruct (stop_goes w) as (w1 & E1 & Hw1).
  erewrite bind_eq by (unfold atenv, lift; cbn [snd fst]; rewrite E1; reflexivity); cbn [fst].
  assert (Hh : exists x2 w2, audio_tx_health fuel args auto (x, w1) = (Go_on, (x2, w2)) /\ same_outside w1 w2 /\
    at_link x2 = at_link x /\ at_frame_seq x2 = at_frame_seq x /\ at_stats x2 = at_stats x).
  { unfold audio_tx_health; pose proof (at_clock w1) as Hcl; destruct (now_monotonic_s w1) as [now w2] eqn:E2.
    erewrite bind_eq by (unfold atenv, lift; cbn [snd fst]; rewrite E2; reflexivity); cbn [fst].
    rewrite bind_run; cbn [atget gets fst snd]; destruct (_ >=? _)%D; [|by exists x, w2].
    rewrite bind_run; cbn [atupd modify fst snd]; rewrite bind_run; cbn [atget gets fst snd].
    destruct (ad_dev x Hx) as [dev Hdev]; pose proof (at_status dev w2) as Hs; pose proof (Halive dev w2) as Ha.
    destruct (bb_get_status dev w2) as [[ret sts] w3] eqn:E3; cbn [fst] in Ha; subst ret.
    erewrite bind_eq by (unfold atenv, lift; cbn [snd fst]; unfold ar8030_link_is_alive;
      change (at_link (x <| at_last_health_s := now |>)) with (at_link x); rewrite Hdev, E3; reflexivity).
    eexists _, w3; split; [reflexivity|]; split; [|done]; destruct Hcl, Hs; split; congruence. }
  destruct Hh as (x2 & w2 & E2 & Hw2 & Hx2 & Hs2 & Hst2); rewrite (bind_eq _ _ _ _ _ E2).
  pose proof (at_recv fd MAX_UDP_PACKET w2 ltac:(done)) as Hr; destruct (recvfrom fd MAX_UDP_PACKET w2) as [r w3] eqn:E3.
  erewrite bind_eq by (unfold atenv, lift; cbn [snd fst]; rewrite E3; reflexivity); cbn [fst].
  destruct Hr as [Hwr Hr]; destruct Hw1 as [Hw1 Hh1], Hw2 as [Hw2 Hh2].
  assert (Hx2' : audio_tx_ready x2) by (destruct Hx; constructor; congruence).
  assert (Hnone : at_heard w3 = at_heard w2 -> exists x' w' ds, (mret Go_on : M (audio_tx * W) turn) (x2, w3) = (Go_on, (x', w')) /\ audio_tx_ready x' /\
    at_heard w' = at_heard w ++ ds /\ Forall packet_ok ds /\
    at_wire w' = at_wire w ++ wire_bytes (audio_frames (a_chunk_payload args) (at_frame_seq x) ds) /\
    match ds with
    | [] => at_frame_seq x' = at_frame_seq x /\ at_stats x' = at_stats x
    | d :: ds => ds = [] /\ at_frame_seq x' = u16 (at_frame_seq x + 1) /\ frame_counts (at_stats x') =
        (u64 (packets_in (at_stats x) + 1), u64 (frames_complete (at_stats x) + 1), frames_incomplete (at_stats x))
    end).
  { intros Hno; exists x2, w3, []; rewrite !app_nil_r; split_and!; try done; congruence. }
  destruct r as [[|b d]|]; [by apply Hnone| |by apply Hnone]; clear Hnone; destruct Hr as (Hhd & Hld & Hbd).
  destruct (packet_sent x2 w3 (b :: d) Hx2') as (x' & w' & E4 & Hx' & Hq & Hc & Hw & Hh); [by split_and!|].
  rewrite (bind_eq _ _ _ _ _ E4); exists x', w', [b :: d]; split_and!; [done|done|congruence|constructor; [by split_and!|constructor]| |done|congruence|congruence].
  cbn [audio_frames]; rewrite app_nil_r, Hw, Hs2; congruence.
Qed.

(** Any number of turns. *)
Lemma turns_send fuel auto fd n : forall x w, audio_tx_ready x ->
  0 <= packets_in (at_stats x) < 2 ^ 64 -> 0 <= frames_complete (at_stats x) < 2 ^ 64 ->
  exists x' w' ds, audio_tx_turns fuel n args auto fd (x, w) = (Go_on, (x', w')) /\ audio_tx_ready x' /\
    at_heard w' = at_heard w ++ ds /\ Forall packet_ok ds /\
    at_wire w' = at_wire w ++ wire_bytes (audio_frames (a_chunk_payload args) (at_frame_seq x) ds) /\
    frame_counts (at_stats x') =
      (u64 (packets_in (at_stats x) + zlen ds), u64 (frames_complete (at_stats x) + zlen ds), frames_incomplete (at_stats x)).
Proof using Htakes Hgoes Halive HW Hpay.
  induction n as [|n IH]; intros x w Hx Hp Hc; cbn [audio_tx_turns].
  { exists x, w, []; rewrite !app_nil_r, !(zlen_nil (A := list Z)), !Z.add_0_r, !u64_id by done; by split_and!. }
  destruct (turn_sends fuel auto fd x w Hx) as (x1 & w1 & ds1 & E1 & Hx1 & Hh1 & Hd1 & Hw1 & Hs1); rewrite (bind_eq _ _ _ _ _ E1).
  assert (Hr : 0 <= packets_in (at_stats x1) < 2 ^ 64 /\ 0 <= frames_complete (at_stats x1) < 2 ^ 64).
  { destruct ds1; [by destruct Hs1 as [_ ->]|]; destruct Hs1 as (_ & _ & [= -> -> _]); split; apply u64_range. }
  destruct (IH x1 w1 Hx1) as (x' & w' & ds & E & Hx' & Hh & Hd & Hw & Hs); [apply Hr|apply Hr|].
  exists x', w', (ds1 ++ ds); split_and!; [done|done|by rewrite Hh, Hh1, app_assoc|by apply Forall_app| |].
  - rewrite Hw, Hw1, <- app_assoc; f_equal; destruct ds1 as [|d ds1]; [by destruct Hs1 as [-> _]|].
    destruct Hs1 as (-> & -> & _); cbn [audio_frames app]; by rewrite app_nil_r, wire_bytes_app.
  - rewrite Hs, zlen_app; destruct ds1 as [|d ds1]; [destruct Hs1 as [_ ->]; by rewrite (zlen_nil (A := list Z)), Z.add_0_l|].
    destruct Hs1 as (-> & _ & [= -> -> ->]); change (zlen [d]) with 1; by rewrite !u64_add_acc.
Qed.
End air.

(** ** The ground side *)

(** What the operations of the ground loop do to the outside: [ar_pending] is
    what the data socket has yet to deliver, [ar_sent] what was given to
    [send], call by call. *)
Class AudioRxWire (W : Type) {HO : ProgramOs W} {HL : LinkSdk W} {HR : GroundOs W} := {
  ar_pending : W -> list Z;
  ar_sent : W -> list (list Z);
  ar_read : forall fd cap t w, let '(d, w') := bb_socket_read fd cap t w in
    ar_pending w = d ++ ar_pending w' /\ (0 < cap -> zlen d <= cap) /\ ar_sent w' = ar_sent w;
  ar_send : forall fd d w, let '(_, w') := send fd d w in ar_pending w' = ar_pending w /\ ar_sent w' = ar_sent w ++ [d];
  ar_stop : forall w, let '(_, w') := stop_flag w in ar_pending w' = ar_pending w /\ ar_sent w' = ar_sent w;
  ar_clock : forall w, let '(_, w') := now_monotonic_s w in ar_pending w' = ar_pending w /\ ar_sent w' = ar_sent w;
  ar_status : forall dev w, let '(_, _, w') := bb_get_status dev w in ar_pending w' = ar_pending w /\ ar_sent w' = ar_sent w
}.

(** The datagrams a run of chunks makes, and what is left of it. *)
Fixpoint audio_out (r : reasm) (cs : list chunk) : list (list Z) * reasm :=
  match cs with
  | [] => ([], r)
  | c :: cs =>
      let '(complete, r) := ar8030_reassembly_feed r c.1 c.2 in
      let '(ds, r') := audio_out (if complete =? 0 then r else ar8030_reassembly_reset r) cs in
      ((if complete =? 0 then [] else [r_buf r]) ++ ds, r')
  end.

Lemma audio_out_app r cs cs' :
  audio_out r (cs ++ cs') = let '(a, r1) := audio_out r cs in let '(b, r2) := audio_out r1 cs' in (a ++ b, r2).
Proof.
  revert r; induction cs as [|c cs IH]; intros r; cbn [app audio_out]; [by destruct (audio_out r cs')|].
  destruct (ar8030_reassembly_feed r c.1 c.2) as [n r1]; rewrite IH; destruct (audio_out _ cs) as [a r2].
  destruct (audio_out r2 cs') as [b r3]; by rewrite app_assoc.
Qed.

(** Chunks that complete a frame with their last one. *)
Lemma audio_out_one cs : forall r r', cs <> [] -> feed_all r cs = (replicate (length cs - 1) 0 ++ [1], r') ->
  audio_out r cs = ([r_buf r'], ar8030_reassembly_reset r').
Proof.
  induction cs as [|c cs IH]; intros r r' Hne; [done|]; cbn [feed_all audio_out length]; rewrite Nat.sub_succ, Nat.sub_0_r.
  destruct (ar8030_reassembly_feed r c.1 c.2) as [n r1]; destruct (feed_all r1 cs) as [ns r2] eqn:E; destruct cs as [|c2 cs].
  - cbn [feed_all] in E; injection E as <- <-; intros [= -> <-]; done.
  - cbn [length replicate app]; intros [= -> Hns <-]; change (0 =? 0) with true; cbv iota; rewrite (IH r1 r2); [done|done|].
    rewrite E, Hns; cbn [length]; by rewrite Nat.sub_succ, Nat.sub_0_r.
Qed.

(** Ready for the next frame. *)
Definition idle (cap : Z) (r : reasm) : Prop := r_active r = false /\ r_cap r = cap.

Lemma feed_chunk_cap r h p : r_cap (feed_chunk r h p).2 = r_cap r.
Proof. unfold feed_chunk; destruct (negb _ || negb _); [|destruct (r_cap r <? _); [|done]]; cbn; apply note_dropped_cap. Qed.

Lemma feed_cap r h p : r_cap (ar8030_reassembly_feed r h p).2 = r_cap r.
Proof.
  unfold ar8030_reassembly_feed; destruct (negb (r_active r) || _); [|apply feed_chunk_cap].
  destruct (negb (chunk_idx h =? 0)); [cbn [snd r_cap ar8030_reassembly_reset]|rewrite feed_chunk_cap; cbn [r_cap start_frame]];
    rewrite ?note_dropped_cap; destruct (_ && _); rewrite ?note_dropped_cap; done.
Qed.

Lemma feed_all_cap cs : forall r, r_cap (feed_all r cs).2 = r_cap r.
Proof.
  induction cs as [|c cs IH]; intros r; [done|]; cbn [feed_all]; pose proof (feed_cap r c.1 c.2) as Hc.
  destruct (ar8030_reassembly_feed r c.1 c.2) as [n r1]; specialize (IH r1); destruct (feed_all r1 cs); cbn in *; congruence.
Qed.

(** The chunks of datagrams in a row make these datagrams. *)
Lemma audio_frames_out payload cap ds : 0 < payload <= AR8030_CHUNK_MAX_PAYLOAD -> MAX_UDP_PACKET <= cap < 2 ^ 32 ->
  Forall packet_ok ds -> forall sq r, 0 <= sq < 65536 -> idle cap r ->
  exists r', audio_out r (audio_frames payload sq ds) = (ds, r') /\ idle cap r'.
Proof.
  intros Hpay Hcap Hds; induction Hds as [|d ds Hd _ IH]; intros sq r Hs [Hi Hc]; [by exists r|]; cbn [audio_frames].
  destruct (audio_count_bounds payload Hpay d Hd) as [_ Hn].
  destruct (whole_frame_roundtrip (audio_params payload sq d) (audio_count payload d) r) as (r1 & Hf & Hb & _ & _ & _);
    try done; [by apply audio_params_ok|lia|by left|rewrite Hc; destruct Hd as (_ & Hl & _); cbn; lia|].
  fold (audio_frame payload sq d) in Hf.
  assert (Hl : length (audio_frame payload sq d) = Z.to_nat (audio_count payload d)).
  { unfold audio_frame, chunks_of; by rewrite length_fmap, length_seq. }
  pose proof (feed_all_cap (audio_frame payload sq d) r) as Hcap1; rewrite Hf in Hcap1; cbn [snd] in Hcap1.
  destruct (IH (u16 (sq + 1)) (ar8030_reassembly_reset r1)) as (r2 & Ho & Hi2); [apply u16_range|split; [done|by cbn; congruence]|].
  exists r2; rewrite audio_out_app, (audio_out_one _ r r1), Ho, Hb; [done| |by rewrite Hl].
  intros E; rewrite E in Hl; cbn in Hl; lia.
Qed.

Section ground.
Context {W : Type} {HO : ProgramOs W} {HL : LinkSdk W} {HR : GroundOs W} {HW : AudioRxWire W} (BB_SLOT_AP : Z).
(** Bytes that are there are read, the daemon answers and nobody stops the
    program. *)
Hypothesis Heager : forall fd cap t w, 0 < cap -> ar_pending w <> [] -> (bb_socket_read fd cap t w).1 <> [].
Hypothesis Hgoes : forall w, (stop_flag w).1 = false.
Hypothesis Halive : forall dev w, (bb_get_status dev w).1.1 = 0.

#[local] Abbreviation reader fd := (fun w cap => bb_socket_read fd cap STREAM_READ_TIMEOUT_MS w).

Lemma reader_wire fd : wire_reader (reader fd) ar_pending.
Proof using HW.
  constructor; intros w cap; pose proof (ar_read fd cap STREAM_READ_TIMEOUT_MS w) as H;
    destruct (bb_socket_read fd cap STREAM_READ_TIMEOUT_MS w); cbn; by destruct H as (? & ? & ?).
Qed.

Lemma reader_eager fd : wire_eager (reader fd) ar_pending.
Proof using Heager. intros w cap Hc Hp; by apply Heager. Qed.

Lemma fill_sent fd s w : ar_sent (fill (reader fd) s w).2 = ar_sent w.
Proof using HW.
  unfold fill; destruct (_ <=? _); [done|]; pose proof (ar_read fd (u32 (s_cap s - zlen (s_buf s))) STREAM_READ_TIMEOUT_MS w) as H.
  destruct (bb_socket_read fd _ STREAM_READ_TIMEOUT_MS w) as [[|b d] w']; by destruct H as (_ & _ & ?).
Qed.

Lemma stream_read_sent fd fuel : forall s w res s' w',
  stream_read_loop (reader fd) (fun w => (stop_flag w).1) fuel s w AR8030_CHUNK_MAX_PAYLOAD = Some (res, s', w') -> ar_sent w' = ar_sent w.
Proof using HW.
  induction fuel as [|fuel IH]; intros s w res s' w'; [done|]; cbn [stream_read_loop].
  destruct (stop_flag w).1; [by intros [= _ _ <-]|]; destruct (parse_front (resync s) _) as [r1 s1|s1|].
  - by intros [= _ _ <-].
  - apply IH.
  - pose proof (fill_sent fd (resync s) w) as Hf; destruct (fill _ (resync s) w) as [[[] s1] w1]; cbn [snd] in Hf.
    + intros E; rewrite <- Hf; by eapply IH.
    + intros [= _ _ <-]; done.
Qed.

(** The loop's state: a link, a sound stream buffer with room for a chunk,
    bytes in the socket. *)
Record audio_rx_ready (x : audio_rx) (w : W) : Prop := {
  ag_dev : is_Some (lk_dev (ar_link x));
  ag_stream : stream_ok (ar_stream x);
  ag_room : 22 + 65535 <= s_cap (ar_stream x);
  ag_bytes : bytes_ok (ar_pending w)
}.

Definition unread (x : audio_rx) (w : W) : list Z := view ar_pending (ar_stream x) w.

(** What a turn leaves alone in front of the read. *)
Lemma turn_front fuel args x w : audio_rx_ready x w ->
  exists w1, stop_flag w = (false, w1) /\ exists x1 w2, audio_rx_health BB_SLOT_AP fuel args (x, w1) = (Go_on, (x1, w2)) /\
    ar_pending w2 = ar_pending w /\ ar_sent w2 = ar_sent w /\
    ar_link x1 = ar_link x /\ ar_stream x1 = ar_stream x /\ ar_reasm x1 = ar_reasm x.
Proof using Hgoes Halive HW.
  intros Hx; pose proof (ar_stop w) as Hs; pose proof (Hgoes w) as Hg; destruct (stop_flag w) as [b w1]; cbn [fst] in Hg; subst b.
  exists w1; split; [done|]; unfold audio_rx_health; pose proof (ar_clock w1) as Hcl; destruct (now_monotonic_s w1) as [now w2] eqn:E2.
  assert (Hk : ar_pending w2 = ar_pending w /\ ar_sent w2 = ar_sent w) by (destruct Hs, Hcl; split; congruence).
  erewrite bind_eq by (unfold arenv, lift; cbn [snd fst]; rewrite E2; reflexivity); cbn [fst].
  rewrite bind_run; cbn [arget gets fst snd]; destruct (_ >=? _)%D; [|destruct Hk; exists x, w2; by split_and!].
  rewrite bind_run; cbn [arupd modify fst snd]; rewrite bind_run; cbn [arget gets fst snd].
  destruct (ag_dev x w Hx) as [dev Hdev]; pose proof (ar_status dev w2) as Hst; pose proof (Halive dev w2) as Ha.
  destruct (bb_get_status dev w2) as [[ret sts] w3] eqn:E3; cbn [fst] in Ha; subst ret.
  erewrite bind_eq by (unfold arenv, lift; cbn [snd fst]; unfold ar8030_link_is_alive;
    change (ar_link (x <| ar_last_health_s := now |>)) with (ar_link x); rewrite Hdev, E3; reflexivity).
  eexists _, w3; split; [reflexivity|]; destruct Hk, Hst; split_and!; (congruence || done).
Qed.

Lemma chunk_out ufd h p x w :
  exists x' w', audio_rx_chunk ufd h p (x, w) = (tt, (x', w')) /\ ar_pending w' = ar_pending w /\
    ar_link x' = ar_link x /\ ar_stream x' = ar_stream x /\
    ar_reasm x' = (audio_out (ar_reasm x) [(h, p)]).2 /\
    ar_sent w' = ar_sent w ++ (audio_out (ar_reasm x) [(h, p)]).1.
Proof using HW.
  unfold audio_rx_chunk; rewrite bind_run; cbn [arget gets fst snd audio_out].
  destruct (ar8030_reassembly_feed (ar_reasm x) h p) as [n r]; rewrite bind_run; cbn [arupd modify fst snd].
  destruct (n =? 0); cbn [negb when app fst snd].
  - eexists _, w; split; [reflexivity|]; rewrite app_nil_r; by split_and!.
  - pose proof (ar_send ufd (r_buf r) w) as Hs; destruct (send ufd (r_buf r) w) as [sent w'] eqn:E; destruct Hs as [Hp Hs].
    erewrite bind_eq by (unfold arenv, lift; cbn [snd fst]; rewrite E; reflexivity); cbn [fst].
    unfold when; destruct (0 <? sent); rewrite bind_run; cbn [modify arupd fst snd mret M_ret];
      (eexists _, w'; split; [reflexivity|]; by split_and!).
Qed.

Lemma turn_reads fuel args ufd c rest x w :
  audio_rx_ready x w -> chunk_ok c -> unread x w = chunk_bytes c ++ rest -> (2 * length (unread x w) < fuel)%nat ->
  exists x' w', audio_rx_turn BB_SLOT_AP fuel args ufd (x, w) = (Go_on, (x', w')) /\ audio_rx_ready x' w' /\ unread x' w' = rest /\
    ar_reasm x' = (audio_out (ar_reasm x) [c]).2 /\ ar_sent w' = ar_sent w ++ (audio_out (ar_reasm x) [c]).1.
Proof using Heager Hgoes Halive HW.
  intros Hx Hc Hv Hf; destruct (turn_front fuel args x w Hx) as (w1 & E1 & x1 & w2 & E2 & Hp & Hs & Hl1 & Hst1 & Hr1).
  unfold audio_rx_turn; erewrite bind_eq by (unfold arenv, lift; cbn [snd fst]; rewrite E1; reflexivity); cbn [fst].
  rewrite (bind_eq _ _ _ _ _ E2); destruct Hx as [Hdev Hso Hroom Hb]; set (fd := lk_sockfd (ar_link x1)).
  assert (Hv2 : view ar_pending (ar_stream x1) w2 = [] ++ chunk_bytes c ++ rest).
  { rewrite Hst1; unfold view; rewrite Hp; exact Hv. }
  destruct (read_next_chunk (reader fd) (fun w => (stop_flag w).1) ar_pending (reader_wire fd) (reader_eager fd) Hgoes fuel
    (ar_stream x1) w2 AR8030_CHUNK_MAX_PAYLOAD [] c rest) as (s3 & w3 & E3 & Hv3 & Hc3); try done; try (rewrite ?Hst1, ?Hp; done).
  { rewrite Hv2; cbn [app]; apply (first_magic_app _ _ 0), first_magic_chunk, Hc. }
  { rewrite Hst1, Hp; unfold unread, view in Hf; rewrite length_app in Hf; lia. }
  assert (Hso1 : stream_ok (ar_stream x1)) by (by rewrite Hst1). assert (Hb2 : bytes_ok (ar_pending w2)) by (by rewrite Hp).
  assert (H0 : 0 <= AR8030_CHUNK_MAX_PAYLOAD) by done.
  destruct (stream_read_loop_sound (reader fd) (fun w => (stop_flag w).1) ar_pending (reader_wire fd) _ _ _ _ _ _ _ Hso1 Hb2
    H0 E3) as (_ & _ & _ & _ & Hs3 & Hb3).
  erewrite bind_eq by (unfold audio_stream_read; fold fd; rewrite E3; reflexivity); cbv iota beta.
  destruct (chunk_out ufd c.1 c.2 (x1 <| ar_stream := s3 |>) w3) as (x4 & w4 & E4 & Hp4 & Hl4 & Hst4 & Ho4 & Hs4); rewrite (bind_eq _ _ _ _ _ E4).
  change (ar_reasm (x1 <| ar_stream := s3 |>)) with (ar_reasm x1) in *; rewrite Hr1 in *; replace (c.1, c.2) with c in * by (by destruct c).
  change (ar_stream (x1 <| ar_stream := s3 |>)) with s3 in Hst4; change (ar_link (x1 <| ar_stream := s3 |>)) with (ar_link x1) in Hl4.
  eexists x4, w4; split; [reflexivity|]; split; [constructor; rewrite ?Hl4, ?Hl1, ?Hst4, ?Hp4; try done; rewrite Hc3, Hst1; done|].
  unfold unread, view; rewrite Hst4, Hp4; split; [done|]; split; [exact Ho4|].
  rewrite Hs4, (stream_read_sent _ _ _ _ _ _ _ E3); by rewrite Hs.
Qed.

(** Chunk after chunk. *)
Lemma turns_read fuel args ufd cs : forall x w rest,
  audio_rx_ready x w -> Forall chunk_ok cs -> unread x w = wire_bytes cs ++ rest -> (2 * length (unread x w) < fuel)%nat ->
  exists x' w', audio_rx_turns BB_SLOT_AP fuel (length cs) args ufd (x, w) = (Go_on, (x', w')) /\ audio_rx_ready x' w' /\
    unread x' w' = rest /\ ar_reasm x' = (audio_out (ar_reasm x) cs).2 /\ ar_sent w' = ar_sent w ++ (audio_out (ar_reasm x) cs).1.
Proof using Heager Hgoes Halive HW.
  induction cs as [|c cs IH]; intros x w rest Hx Hcs Hv Hf.
  { exists x, w; cbn [audio_out fst snd]; rewrite app_nil_r; by split_and!. }
  apply Forall_cons_1 in Hcs as [Hc Hcs]; rewrite wire_bytes_cons, <- app_assoc in Hv; cbn [length audio_rx_turns].
  destruct (turn_reads fuel args ufd c _ x w Hx Hc Hv Hf) as (x1 & w1 & E1 & Hx1 & Hv1 & Hr1 & Hs1); rewrite (bind_eq _ _ _ _ _ E1).
  destruct (IH x1 w1 rest Hx1 Hcs Hv1) as (x2 & w2 & E2 & Hx2 & Hv2 & Hr2 & Hs2).
  { rewrite Hv1; rewrite Hv, length_app in Hf; lia. }
  exists x2, w2; change (c :: cs) with ([c] ++ cs); rewrite audio_out_app, Hr1 in *; rewrite Hs1 in Hs2.
  destruct (audio_out (ar_reasm x) [c]) as [a r1]; cbn [fst snd] in *; destruct (audio_out r1 cs) as [b r2]; cbn [fst snd] in *.
  split_and!; try done; by rewrite Hs2, app_assoc.
Qed.
End ground.

(** ** From end to end *)

Section path.
Context {W : Type} {HO : ProgramOs W} {HL : LinkSdk W} {HT : AudioTxOs W} {HW : AudioTxWire W}.
Context {R : Type} {GO : ProgramOs R} {GL : LinkSdk R} {GR : GroundOs R} {GW : AudioRxWire R} (BB_SLOT_AP : Z).
(** On both sides the daemon answers and nobody stops the program. *)
Hypothesis Htakes : forall fd b t (w : W), b <> [] -> 0 < (bb_socket_write fd b t w).1.
Hypothesis Hgoes : forall w : W, (stop_flag w).1 = false.
Hypothesis Halive : forall dev (w : W), (bb_get_status dev w).1.1 = 0.
Hypothesis Heager : forall fd cap t (r : R), 0 < cap -> ar_pending r <> [] -> (bb_socket_read fd cap t r).1 <> [].
Hypothesis Ggoes : forall r : R, (stop_flag r).1 = false.
Hypothesis Galive : forall dev (r : R), (bb_get_status dev r).1.1 = 0.

(** C4. Audio crosses the link: in any number of turns of the air loop - data,
    empty datagrams, timeouts and errors off the UDP socket, whatever the chunk
    size and however the data socket cuts the writes, frame numbers wrapping -
    every datagram heard is counted in and complete, and the ground loop, however
    its reads are cut, sends on exactly these datagrams, unchanged, once and in
    order, leaves no byte unread and is ready for the next. *)
Theorem audio_reaches_the_player args fuel n auto fd x w :
  0 < a_chunk_payload args <= AR8030_CHUNK_MAX_PAYLOAD -> audio_tx_ready x ->
  0 <= packets_in (at_stats x) < 2 ^ 64 -> 0 <= frames_complete (at_stats x) < 2 ^ 64 ->
  let '(t, (x', w')) := audio_tx_turns fuel n args auto fd (x, w) in
  t = Go_on /\ audio_tx_ready x' /\
  exists ds sent k, at_heard w' = at_heard w ++ ds /\ at_wire w' = at_wire w ++ sent /\
    frame_counts (at_stats x') =
      (u64 (packets_in (at_stats x) + zlen ds), u64 (frames_complete (at_stats x) + zlen ds), frames_incomplete (at_stats x)) /\
    forall rargs ufd gfuel cap y r,
      MAX_UDP_PACKET <= cap < 2 ^ 32 -> idle cap (ar_reasm y) -> audio_rx_ready y r -> unread y r = sent ->
      (2 * length sent < gfuel)%nat ->
      let '(t, (y', r')) := audio_rx_turns BB_SLOT_AP gfuel k rargs ufd (y, r) in
      t = Go_on /\ audio_rx_ready y' r' /\ idle cap (ar_reasm y') /\ unread y' r' = [] /\ ar_sent r' = ar_sent r ++ ds.
Proof using All.
  intros Hpay Hx Hp Hc.
  destruct (turns_send Htakes Hgoes Halive args Hpay fuel auto fd n x w Hx Hp Hc) as (x' & w' & ds & -> & Hx' & Hh & Hd & Hw & Hs).
  split; [done|split; [done|]]; set (cs := audio_frames (a_chunk_payload args) (at_frame_seq x) ds) in *.
  exists ds, (wire_bytes cs), (length cs); split_and!; [done..|]; intros rargs ufd gfuel cap y r Hcap Hidle Hy Hun Hf.
  pose proof (audio_frames_ok _ Hpay ds (at_frame_seq x) Hd (ad_seq _ Hx)) as Hcs.
  destruct (turns_read BB_SLOT_AP Heager Ggoes Galive gfuel rargs ufd cs y r [] Hy Hcs) as (y' & r' & -> & Hy' & Hun' & Hr' & Hs');
    [by rewrite app_nil_r|by rewrite Hun|].
  destruct (audio_frames_out _ cap ds Hpay Hcap Hd (at_frame_seq x) (ar_reasm y) (ad_seq _ Hx) Hidle) as (r1 & Ho & Hi).
  fold cs in Ho; rewrite Ho in *; by rewrite Hr'.
Qed.
End path.

(** ** A concrete link *)

Definition demo_os {W} : ProgramOs W := {|
  now_monotonic_s := fun w => (dofZ 0, w);
  malloc := fun _ w => (Some 1, w);
  free := fun _ w => w;
  close_udp := fun _ w => w
|}.
Definition demo_sdk {W} : LinkSdk W := {|
  bb_host_connect := fun w => (0, Some 1, w);
  bb_host_disconnect := fun _ w => w;
  bb_dev_getlist := fun _ w => ([1], w);
  bb_dev_open := fun _ w => (Some 1, w);
  bb_dev_freelist := fun _ w => w;
  bb_dev_close := fun _ w => w;
  bb_socket_open := fun _ _ _ w => (3, w);
  bb_socket_close := fun _ w => w;
  bb_get_status := fun _ w => (0, [true], w);
  bb_force_cls_socket := fun _ _ _ w => (0, w);
  bb_force_cls_socket_all := fun _ w => (0, w);
  stop_flag := fun w => (false, w);
  usleep_ms := fun _ w => w
|}.

(** Seven bytes a write at most; [None] in the inbox is a timeout. *)
Record demo_air := mk_air { da_wire : list Z; da_inbox : list (option (list Z)); da_heard : list (list Z) }.
Definition demo_tx_os : AudioTxOs demo_air := {|
  udp_socket := fun w => (4, w);
  inet_pton := fun _ => Some [127; 0; 0; 1];
  bind := fun _ _ _ w => (0, w);
  recvfrom := fun _ cap w =>
    match da_inbox w with
    | Some d :: inbox =>
        let d := u8 <$> ztake cap d in
        (Recv d, mk_air (da_wire w) inbox (da_heard w ++ match d with [] => [] | _ => [d] end))
    | None :: inbox => (Recv_error, mk_air (da_wire w) inbox (da_heard w))
    | [] => (Recv_error, w)
    end;
  bb_socket_write := fun _ b _ w =>
    (Z.min 7 (zlen b), mk_air (da_wire w ++ ztake (Z.min 7 (zlen b)) b) (da_inbox w) (da_heard w))
|}.

Program Definition demo_tx_wire : @AudioTxWire demo_air demo_os demo_sdk demo_tx_os := {| at_wire := da_wire; at_heard := da_heard |}.
Next Obligation. intros; cbn; split_and!; [lia|done..]. Qed.
Next Obligation.
  intros fd cap w Hcap; cbn; destruct (da_inbox w) as [|[d|] inbox]; [by split|split; [done|]|by split].
  assert (Hb : bytes_ok (u8 <$> ztake cap d)) by (apply Forall_fmap, list.Forall_true; intros z; apply u8_range).
  assert (Hl : zlen (u8 <$> ztake cap d) <= cap).
  { unfold zlen, ztake; rewrite length_fmap, length_take; lia. }
  destruct (u8 <$> ztake cap d); [by rewrite app_nil_r|by split_and!].
Qed.
Next Obligation. done. Qed.
Next Obligation. done. Qed.
Next Obligation. done. Qed.

(** Five bytes a read at most. *)
Definition demo_gnd : Type := list Z * list (list Z).
Definition demo_rx_os : GroundOs demo_gnd := {|
  sock_address := unit;
  getaddrinfo := fun _ _ w => (Some [tt], w);
  address_socket := fun _ w => (5, w);
  connect := fun _ _ w => (0, w);
  send := fun _ d w => (zlen d, (w.1, w.2 ++ [d]));
  bb_socket_read := fun _ cap _ w => (ztake (Z.min 5 cap) w.1, (zdrop (Z.min 5 cap) w.1, w.2))
|}.

Program Definition demo_rx_wire : @AudioRxWire demo_gnd demo_os demo_sdk demo_rx_os := {| ar_pending := fst; ar_sent := snd |}.
Next Obligation.
  intros fd cap t w; cbn; unfold ztake, zdrop; rewrite take_drop; split_and!; [done| |done].
  intros; unfold zlen; rewrite length_take; lia.
Qed.
Next Obligation. done. Qed.
Next Obligation. done. Qed.
Next Obligation. done. Qed.
Next Obligation. done. Qed.

Definition demo_args : audio_tx_args := default_args <| a_chunk_payload := 4 |>.
Definition demo_link : link := mk_link (Some 1) (Some 1) 3.
Definition demo_tx : audio_tx := mk_at demo_link 0 3 audio_stats_zero 65535 (dofZ 0).
Definition demo_rx : audio_rx :=
  mk_ar demo_link (ar8030_chunk_stream_init stream_buf_cap) (ar8030_reassembly_init DEFAULT_REASSEMBLY_MAX) 0 0 (dofZ 0).

(** A packet of one chunk, a timeout, an empty datagram, a packet of two. *)
Definition demo_inbox : list (option (list Z)) := [Some [1; 2; 3]; None; Some []; Some [4; 5; 6; 7; 8]].

#[local] Abbreviation demo_air_run :=
  (audio_tx_turns (HO := demo_os) (HL := demo_sdk) (HT := demo_tx_os) 9 4 demo_args false 4 (demo_tx, mk_air [] demo_inbox [])).

Lemma demo_air_heard : da_heard demo_air_run.2.2 = [[1; 2; 3]; [4; 5; 6; 7; 8]].
Proof. vm_compute; reflexivity. Qed.


Lemma demo_takes fd b t (w : demo_air) : b <> [] -> 0 < (@bb_socket_write _ demo_tx_os fd b t w).1.
Proof. destruct b as [|z b]; [done|]; intros _; cbn; rewrite zlen_cons; pose proof (zlen_nonneg b); lia. Qed.

Lemma demo_eager fd cap t (w : demo_gnd) : 0 < cap -> w.1 <> [] -> (@bb_socket_read _ demo_rx_os fd cap t w).1 <> [].
Proof.
  destruct w as [[|z b] ds]; [done|]; intros Hc _; cbn; unfold ztake; by destruct (Z.to_nat (Z.min 5 cap)) eqn:E; [lia|].
Qed.

Lemma demo_rx_ready bytes : bytes_ok bytes -> @audio_rx_ready _ _ _ _ demo_rx_wire demo_rx (bytes, []).
Proof. intros Hb; constructor; [by eexists| |done|exact Hb]; constructor; cbn; try done; constructor. Qed.

Lemma demo_air_bytes : bytes_ok (da_wire demo_air_run.2.2).
Proof. unfold bytes_ok, byte_ok; apply (bool_decide_unpack _); vm_compute; done. Qed.

Lemma audio_reaches_the_player_witness :
  da_heard demo_air_run.2.2 = [[1; 2; 3]; [4; 5; 6; 7; 8]] /\
  exists k, (audio_rx_turns (HO := demo_os) (HL := demo_sdk) (HR := demo_rx_os) 0 (S (2 * length (da_wire demo_air_run.2.2))) k rx_default_args 5
               (demo_rx, (da_wire demo_air_run.2.2, []))).2.2 = ([], [[1; 2; 3]; [4; 5; 6; 7; 8]]).
Proof.
  split; [exact demo_air_heard|].
  pose proof (audio_reaches_the_player (HW := demo_tx_wire) (GW := demo_rx_wire) 0 demo_takes ltac:(done) ltac:(done) demo_eager
    ltac:(done) ltac:(done) demo_args 9 4 false 4 demo_tx (mk_air [] demo_inbox []) ltac:(done)
    ltac:(constructor; [by eexists|done]) ltac:(done) ltac:(done)) as Hth.
  pose proof demo_air_heard as Hheard; pose proof demo_air_bytes as Hbytes.
  destruct (audio_tx_turns _ _ _ _ _ _) as [t [x' w']]; cbn [fst snd] in *; destruct Hth as (_ & _ & ds & sent & k & Hh & Hw & _ & Hth); exists k.
  cbn [at_heard at_wire demo_tx_wire da_heard da_wire app] in Hh, Hw; rewrite Hheard in Hh; subst ds sent.
  specialize (Hth rx_default_args 5 _ DEFAULT_REASSEMBLY_MAX demo_rx (da_wire w', []) ltac:(done) ltac:(done)
    (demo_rx_ready _ Hbytes) ltac:(done) ltac:(apply Nat.lt_succ_diag_r)).
  destruct (audio_rx_turns _ _ _ _ _ _) as [t2 [y' [p s]]]; destruct Hth as (_ & _ & _ & Hun & Hs).
  unfold unread, view in Hun; apply app_eq_nil in Hun as [_ Hp]; cbn in Hp, Hs; cbn [snd]; by subst p s.
Defined.
