(* ===== verification/Ledger.v ===== *)
(** How the programs that run a main loop are shown to end and to clean up: the
    rest of the system as a ledger of what is open ([Link.ledger]) that answers
    each call as a script says, calls that only take time, the operations that
    wait until the stop flag is raised, and what is held from one step of a
    program to the next. *)

From S2P Require Import Prelude Double ChunkHdr Chunker Reassembly ChunkStream Link Monad Os.
#[local] Open Scope Z_scope.

(** ** The rest of the system, as [Link.ledger_sdk] is the SDK

    Each call answers as [script] says at its number; [data] is what is read or
    received there. *)

Section systems.
Context (script : answers) (data : nat -> list Z).

Definition ledger_os : ProgramOs ledger := {|
  now_monotonic_s := fun w => (dofZ (script (lg_step w)), lg_tick w);
  malloc := fun _ w =>
    if script (lg_step w) =? 0 then (Some (lg_next w), lg_opened (HMem (lg_next w)) w) else (None, lg_tick w);
  free := fun p w => match p with Some n => lg_closed (HMem n) w | None => lg_tick w end;
  close_udp := fun fd w => lg_closed (HUdp fd) w
|}.

Definition ledger_socket (w : ledger) : Z * ledger :=
  let a := script (lg_step w) in if a <? 0 then (a, lg_tick w) else (lg_next w, lg_opened (HUdp (lg_next w)) w).

Definition ledger_ground_os : GroundOs ledger := {|
  sock_address := Z;
  getaddrinfo := fun _ _ w => (if script (lg_step w) <? 0 then None else Some (data (lg_step w)), lg_tick w);
  address_socket := fun _ w => ledger_socket w;
  connect := fun _ _ w => (script (lg_step w), lg_tick w);
  send := fun _ _ w => (script (lg_step w), lg_tick w);
  bb_socket_read := fun _ cap _ w => (ztake cap (data (lg_step w)), lg_tick w)
|}.
Definition ledger_threads : Threads ledger := {|
  pthread_create := fun _ w =>
    if script (lg_step w) =? 0 then (Some (lg_next w), lg_opened (HThread (lg_next w)) w) else (None, lg_tick w);
  pthread_join := fun t w => lg_closed (HThread t) w
|}.
End systems.

(** ** Calls that open and close nothing *)

Record ticked (w w' : ledger) : Prop := {
  tk_step : (lg_step w <= lg_step w')%nat;
  tk_next : lg_next w' = lg_next w;
  tk_open : lg_open w' = lg_open w;
  tk_bad : lg_bad w' = lg_bad w
}.

#[export] Instance ticked_preorder : PreOrder ticked.
Proof. split; [by intros w; constructor|]; intros w1 w2 w3 [] []; constructor; (lia || congruence). Qed.

Lemma ticked_tick w : ticked w (lg_tick w).
Proof. constructor; cbn; (done || lia). Qed.

Lemma ticked_holding held w w' : ticked w w' -> holding held w -> holding held w'.
Proof. intros [_ Hn Ho Hb] [H1 H2 H3 H4]; constructor; by rewrite ?Hn, ?Ho, ?Hb. Qed.

Section ledger.
Context (script : answers) (data : nat -> list Z).
#[local] Abbreviation SDK := (ledger_sdk script).
#[local] Abbreviation OS := (ledger_os script).
#[local] Abbreviation GOS := (ledger_ground_os script data).
#[local] Hint Extern 0 (LinkSdk ledger) => exact SDK : typeclass_instances.
#[local] Hint Extern 0 (ProgramOs ledger) => exact OS : typeclass_instances.
#[local] Hint Extern 0 (GroundOs ledger) => exact GOS : typeclass_instances.
#[local] Abbreviation THREADS := (ledger_threads script).
#[local] Hint Extern 0 (Threads ledger) => exact THREADS : typeclass_instances.

(** ** The link's functions take steps *)

Lemma close_step l w : (lg_step w <= lg_step (ar8030_link_close (H := SDK) l w).2)%nat.
Proof. unfold ar8030_link_close; destruct (0 <=? lk_sockfd l), (lk_dev l), (lk_host l); cbn; lia. Qed.

Lemma connect_retry_step fuel ms : forall w r l w',
  ar8030_link_connect_retry (H := SDK) fuel ms w = Some (r, l, w') -> (lg_step w <= lg_step w')%nat.
Proof.
  induction fuel as [|fuel IH]; intros w r l w'; [done|]; cbn [ar8030_link_connect_retry].
  pose proof (connect_step script w) as Hs; destruct (ar8030_link_connect w) as [[r1 l1] w1]; cbn [snd] in Hs.
  destruct (r1 =? 0); [intros [= _ _ <-]; lia|]; cbn [stop_flag usleep_ms ledger_sdk].
  destruct (an_stop script _); [intros [= _ _ <-]; cbn; lia|]; destruct (an_stop script _); [intros [= _ _ <-]; cbn; lia|].
  intros E; apply IH in E; cbn in E; lia.
Qed.

Lemma reconnect_step fuel l w r l' w' :
  ar8030_link_reconnect_retry (H := SDK) fuel l RETRY_MS w = Some (r, l', w') -> (lg_step w <= lg_step w')%nat.
Proof.
  unfold ar8030_link_reconnect_retry; pose proof (close_step l w) as Hc; destruct (ar8030_link_close l w) as [l1 w1]; cbn in Hc.
  intros E; apply connect_retry_step in E; lia.
Qed.

Lemma resolve_step fuel dev : forall w s w', resolve_connected_slot (H := SDK) fuel dev w = Some (s, w') -> (lg_step w <= lg_step w')%nat.
Proof.
  induction fuel as [|fuel IH]; intros w s w'; [done|]; cbn [resolve_connected_slot stop_flag bb_get_status usleep_ms ledger_sdk].
  destruct (an_stop script _); [intros [= _ <-]; cbn; lia|]; destruct (if _ =? 0 then _ else None); [intros [= _ <-]; cbn; lia|].
  intros E; apply IH in E; cbn in E; lia.
Qed.

Lemma open_tries_step n slot port : forall l ret tries w, (lg_step w <= lg_step (open_tries (H := SDK) n slot port l ret tries w).2)%nat.
Proof.
  induction n as [|n IH]; intros l ret tries w; cbn [open_tries]; [done|]; cbn [stop_flag ledger_sdk].
  destruct (an_stop script _); [cbn; lia|]; assert (Ho : (lg_step w <= lg_step (ar8030_link_open_socket (H := SDK) l slot port (lg_tick w)).2)%nat).
  { unfold ar8030_link_open_socket; destruct (lk_dev l); [|cbn; lia]; cbn [bb_socket_open ledger_sdk].
    destruct (script _ <? 0) eqn:E; cbv beta iota zeta; [rewrite E; cbn; lia|]; destruct (lg_next _ <? 0); cbn; lia. }
  destruct (ar8030_link_open_socket l slot port (lg_tick w)) as [[r l1] w1]; cbn [snd] in Ho; destruct (r =? 0); [done|].
  specialize (IH l1 r (tries + 1) (usleep_ms SOCKET_REOPEN_RETRY_MS w1)); cbn [usleep_ms ledger_sdk lg_tick lg_step] in *; lia.
Qed.

(** ** The operations that wait *)

Section stopped.
Context (N : nat).
(** The stop flag is up for good from call [N] on. *)
Hypothesis Hstop : forall k, (N <= k)%nat -> an_stop script k = true.

(** What the waiting operations give, in the form the programs use. *)
Section operations.
Context (base : list handle).
Hypothesis Hbase : Forall not_of_link base.

Lemma wp_connect fuel w (Q : option (Z * link) -> ledger -> Prop) : holding base w -> (N < fuel)%nat ->
  (forall r l w', owns base l w' -> lk_sockfd l < 0 -> (r = 0 -> exists d, lk_dev l = Some d) -> (r <> 0 -> link_closed l) ->
     (lg_step w <= lg_step w')%nat -> Q (Some (r, l)) w') ->
  wp (fun w => match ar8030_link_connect_retry fuel RETRY_MS w with
               | Some (ret, l, w) => (Some (ret, l), w)
               | None => (None, w)
               end) Q w.
Proof using Hbase Hstop.
  intros Ho Hf HQ; unfold wp; destruct (connect_retry_ends script N Hstop fuel RETRY_MS w) as [[[r l] w'] E]; [lia|lia|].
  rewrite E; cbn [fst snd]; destruct (connect_retry_owns script base Hbase _ _ _ _ _ _ Ho E) as (G1 & G2 & G3 & G4).
  apply HQ; try done; by eapply connect_retry_step.
Qed.

Lemma wp_reconnect fuel l w (Q : option (Z * link) -> ledger -> Prop) : owns base l w -> (N < fuel)%nat ->
  (forall r l w', owns base l w' -> lk_sockfd l < 0 -> (r = 0 -> exists d, lk_dev l = Some d) -> (r <> 0 -> link_closed l) ->
     (lg_step w <= lg_step w')%nat -> Q (Some (r, l)) w') ->
  wp (fun w => match ar8030_link_reconnect_retry fuel l RETRY_MS w with
               | Some (ret, l, w) => (Some (ret, l), w)
               | None => (None, w)
               end) Q w.
Proof using Hbase Hstop.
  intros Ho Hf HQ; unfold wp, ar8030_link_reconnect_retry; pose proof (close_owns script base Hbase l w Ho) as Hc.
  pose proof (close_step l w) as Hs; destruct (ar8030_link_close l w) as [l1 w1]; cbn [snd] in Hs; destruct Hc as [Hc _].
  destruct (connect_retry_ends script N Hstop fuel RETRY_MS w1) as [[[r l2] w'] E]; [lia|lia|].
  rewrite E; cbn [fst snd]; destruct (connect_retry_owns script base Hbase _ _ _ _ _ _ Hc E) as (G1 & G2 & G3 & G4).
  apply HQ; try done; apply connect_retry_step in E; lia.
Qed.

Lemma wp_resolve fuel l w (Q : option Z -> ledger -> Prop) : owns base l w -> (N < fuel)%nat -> (exists d, lk_dev l = Some d) ->
  (forall slot w', owns base l w' -> (lg_step w <= lg_step w')%nat -> Q (Some slot) w') ->
  wp (fun w => match (d ← lk_dev l; resolve_connected_slot fuel d w) with
               | Some (s, w) => (Some s, w)
               | None => (None, w)
               end) Q w.
Proof using Hstop.
  intros Ho Hf [d Hd] HQ; unfold wp; rewrite Hd; cbn [mbind option_bind].
  destruct (resolve_ends script N Hstop fuel d w) as [[slot w'] E]; [lia|lia|]; rewrite E; cbn [fst snd].
  apply HQ; [by eapply resolve_owns|by eapply resolve_step].
Qed.

End operations.

(** Turns of the stream reader that are enough: a fill takes a call, a bad
    chunk's front four bytes off the buffer. *)
Definition read_fuel (cap : Z) : nat := (S N * S (Z.to_nat cap))%nat.

Lemma resync_no_longer s : zlen (s_buf (resync s)) <= zlen (s_buf s) /\ s_cap (resync s) = s_cap s.
Proof using Type.
  unfold resync; destruct (4 <=? zlen (s_buf s)); [|done]; destruct (_ =? 0); [done|]; cbn [s_buf s_cap]; split; [|done].
  unfold zlen, zdrop; rewrite length_drop; lia.
Qed.

Lemma stream_read_ends fd ms fuel : forall st w, zlen (s_buf st) <= s_cap st < 2 ^ 32 ->
  (Z.to_nat (zlen (s_buf st)) + (N - lg_step w) * S (Z.to_nat (s_cap st)) < fuel)%nat ->
  exists res st' w', stream_read_loop (fun w cap => bb_socket_read fd cap ms w) (fun w => (stop_flag w).1) fuel st w
      AR8030_CHUNK_MAX_PAYLOAD = Some (res, st', w') /\ ticked w w' /\ zlen (s_buf st') <= s_cap st' /\ s_cap st' = s_cap st.
Proof using Hstop.
  induction fuel as [|fuel IH]; intros st w Hst Hf; [by apply Nat.nlt_0_r in Hf|]; cbn [stream_read_loop stop_flag ledger_sdk fst].
  destruct (an_stop script (lg_step w)) eqn:Es; [exists Read_none, st, w; split_and!; (done || lia)|].
  assert (Hn : (lg_step w < N)%nat) by (apply not_le; intros Hle; specialize (Hstop _ Hle); congruence).
  destruct (resync_no_longer st) as [Hr1 Hr2]; set (s1 := resync st) in *; clearbody s1; pose proof (zlen_nonneg (s_buf s1)) as H0.
  assert (Hp : match parse_front s1 AR8030_CHUNK_MAX_PAYLOAD with
    | Parse_return _ s2 => zlen (s_buf s2) <= zlen (s_buf s1) /\ s_cap s2 = s_cap s1
    | Parse_retry s2 => zlen (s_buf s2) < zlen (s_buf s1) /\ s_cap s2 = s_cap s1
    | Parse_more => True
    end).
  { unfold parse_front, AR8030_CHUNK_HDR_SIZE; destruct (Z.leb_spec 22 (zlen (s_buf s1))) as [Hl|]; [|done].
    destruct (_ <=? _); [|done]; destruct (_ <? _); [done|]; destruct (negb _); cbn [s_buf s_cap]; split; try done.
    - rewrite zlen_drop; lia.
    - unfold zlen, zdrop; rewrite length_drop; lia. }
  destruct (parse_front s1 _) as [res s2|s2|].
  - destruct Hp; exists res, s2, w; split_and!; (done || lia || congruence).
  - destruct Hp as [Hp1 Hp2]; pose proof (zlen_nonneg (s_buf s2)); destruct (IH s2 w) as (res & st' & w' & E & Hw & Hb & Hc); [lia|rewrite Hp2, Hr2; lia|].
    exists res, st', w'; split_and!; (done || congruence).
  - unfold fill; destruct (Z.leb_spec (s_cap s1) (zlen (s_buf s1))) as [|Hroom].
    { exists Read_none, s1, w; split_and!; (done || lia || congruence). }
    cbn [bb_socket_read ledger_ground_os]; rewrite u32_id by lia.
    set (d := ztake (s_cap s1 - zlen (s_buf s1)) (data (lg_step w))).
    assert (Hd : zlen d <= s_cap s1 - zlen (s_buf s1)) by (unfold d, zlen, ztake in *; rewrite length_take; lia).
    clearbody d; destruct d as [|b d]; [exists Read_none, s1, (lg_tick w); split_and!; try apply ticked_tick; (lia || congruence)|].
    set (s2 := mk_stream (s_buf s1 ++ b :: d) (s_cap s1) (s_chunks_read s1) (s_bytes_consumed s1) (s_resync_dropped_bytes s1) (s_checksum_fails s1)).
    assert (Hz : zlen (s_buf s2) <= s_cap s1) by (subst s2; cbn [s_buf]; rewrite zlen_app; lia).
    destruct (IH s2 (lg_tick w)) as (res & st' & w' & E & Hw & Hb & Hc); [subst s2; cbn [s_cap] in *; lia| |].
    { change (s_cap s2) with (s_cap s1); cbn [lg_tick lg_step]; rewrite Hr2 in *.
      replace (N - lg_step w)%nat with (S (N - S (lg_step w))) in Hf by lia; rewrite Nat.mul_succ_l in Hf; lia. }
    exists res, st', w'; split_and!; [done|etrans; [apply ticked_tick|done]|done|by rewrite Hc].
Qed.

End stopped.

(** ** What is held *)

Definition mem (p : option Z) : list handle := match p with Some a => [HMem a] | None => [] end.

Lemma mem_base p base : Forall not_of_link base -> Forall not_of_link (mem p ++ base).
Proof using Type. intros Hb; destruct p; [by constructor|done]. Qed.

Lemma owns_perm base base' l w : base ≡ₚ base' -> owns base l w -> owns base' l w.
Proof using Type. intros Hp; unfold owns; by rewrite Hp. Qed.

Lemma mem_swap p q base : mem q ++ mem p ++ base ≡ₚ mem p ++ mem q ++ base.
Proof using Type. by rewrite !app_assoc, (Permutation_app_comm (mem q)). Qed.

Lemma mem_fresh a p base : (forall b, p = Some b -> a <> b) -> HMem a ∉ base -> HMem a ∉ mem p ++ base.
Proof using Type.
  intros Hp Hb; rewrite elem_of_app; intros [Hin|Hin]; [|done]; destruct p as [b|]; [|by apply elem_of_nil in Hin].
  apply list_elem_of_singleton in Hin as [= ->]; by apply (Hp b).
Qed.

Lemma udp_not_mem a fd : HMem a ∉ [HUdp fd].
Proof using Type. by rewrite list_elem_of_singleton. Qed.

Lemma owns_cons h base l w : owns (h :: base) l w <-> holding (h :: link_handles l ++ base) w.
Proof using Type. unfold owns; by rewrite Permutation_middle. Qed.

Lemma not_of_the_link h l : not_of_link h -> h ∉ link_handles l.
Proof using Type.
  intros Hh Hin; unfold link_handles in Hin; rewrite !elem_of_app in Hin.
  destruct Hin as [Hin|[Hin|Hin]]; [destruct (lk_host l)|destruct (lk_dev l)|destruct (0 <=? lk_sockfd l)];
    try (by apply elem_of_nil in Hin); apply list_elem_of_singleton in Hin; by subst h.
Qed.

Lemma owns_closed_one h base l w : not_of_link h -> h ∉ base -> owns (h :: base) l w -> owns base l (lg_closed h w).
Proof using Type.
  intros Hh Hb Ho; apply owns_cons in Ho; apply holding_closed; [|done]; rewrite elem_of_app; intros [Hin|Hin]; [|done].
  by apply (not_of_the_link h l Hh).
Qed.

Lemma wp_malloc n base l w (Q : option Z -> ledger -> Prop) : owns base l w ->
  (forall p w', owns (mem p ++ base) l w' -> (lg_next w <= lg_next w') -> (forall a, p = Some a -> lg_next w <= a < lg_next w') -> Q p w') ->
  wp (malloc n) Q w.
Proof using Type.
  intros Ho HQ; unfold wp; cbn [malloc ledger_os]; destruct (script (lg_step w) =? 0); cbn [fst snd]; apply HQ; try done.
  - by apply owns_cons, holding_opened.
  - cbn; lia.
  - intros a [= <-]; cbn; lia.
  - by apply owns_tick.
Qed.

Lemma wp_free p base l w (Q : unit -> ledger -> Prop) : owns (mem p ++ base) l w -> (forall a, p = Some a -> HMem a ∉ base) ->
  (forall w', owns base l w' -> Q tt w') -> wp (modify (free p)) Q w.
Proof using Type.
  intros Ho Hp HQ; unfold wp; cbn [modify free ledger_os fst snd]; apply HQ; destruct p as [a|]; [|by apply owns_tick].
  apply owns_closed_one; [done|by apply Hp|exact Ho].
Qed.

Lemma wp_link_close base l w (Q : link -> ledger -> Prop) : Forall not_of_link base -> owns base l w ->
  (forall l' w', holding base w' -> Q l' w') -> wp (ar8030_link_close l) Q w.
Proof using Type.
  intros Hb Ho HQ; unfold wp; pose proof (close_owns script base Hb l w Ho) as Hc; destruct (ar8030_link_close l w) as [l' w'].
  apply HQ, Hc.
Qed.

(** *** Memory and threads, whatever the order they are given back in *)

Definition thr (t : option Z) : list handle := match t with Some a => [HThread a] | None => [] end.

Lemma thr_base t : Forall not_of_link (thr t).
Proof using Type. by destruct t; repeat constructor. Qed.
Lemma mem_alone p : Forall not_of_link (mem p).
Proof using Type. by destruct p; repeat constructor. Qed.

Lemma fresh_nodup h base l w : handle_no h = lg_next w -> owns base l w -> NoDup base -> NoDup (h :: base).
Proof using Type.
  intros Hh Ho Hd; constructor; [|done]; intros Hin; apply (holding_fresh h _ w Hh Ho), elem_of_app; by right.
Qed.

Lemma wp_alloc n base l w (Q : option Z -> ledger -> Prop) : owns base l w -> NoDup base ->
  (forall p w', owns (mem p ++ base) l w' -> NoDup (mem p ++ base) -> (lg_step w <= lg_step w')%nat -> Q p w') -> wp (malloc n) Q w.
Proof using Type.
  intros Ho Hd HQ; unfold wp; cbn [malloc ledger_os]; destruct (script (lg_step w) =? 0); cbn [fst snd]; apply HQ; try (cbn; lia).
  - by apply owns_cons, holding_opened.
  - by apply (fresh_nodup _ base l w).
  - by apply owns_tick.
  - done.
Qed.

Lemma wp_dealloc p base l w (Q : unit -> ledger -> Prop) : owns (mem p ++ base) l w -> NoDup (mem p ++ base) ->
  (forall w', owns base l w' -> Q tt w') -> wp (modify (free p)) Q w.
Proof using Type.
  intros Ho Hd HQ; apply (wp_free p base l w Q Ho); [|done]; intros a ->; by apply list.NoDup_cons in Hd as [? _].
Qed.

Lemma wp_create_if (c : bool) k base l w (Q : option Z -> ledger -> Prop) : owns base l w -> NoDup base ->
  (forall t w', owns (thr t ++ base) l w' -> NoDup (thr t ++ base) -> (lg_step w <= lg_step w')%nat -> Q t w') ->
  wp (if c then pthread_create k else mret None) Q w.
Proof using Type.
  intros Ho Hd HQ; destruct c; [|by apply wp_ret, HQ]; unfold wp; cbn [pthread_create ledger_threads].
  destruct (script (lg_step w) =? 0); cbn [fst snd]; apply HQ; try (cbn; lia).
  - by apply owns_cons, holding_opened.
  - by apply (fresh_nodup _ base l w).
  - by apply owns_tick.
  - done.
Qed.

Lemma thread_joined a base l w : owns (HThread a :: base) l w -> NoDup (HThread a :: base) -> owns base l (lg_closed (HThread a) w).
Proof using Type. intros Ho Hd; apply owns_closed_one; [done|by apply list.NoDup_cons in Hd as [? _]|done]. Qed.

(** The exit code is 0 or 1 and nothing is held. *)
Definition ended (r : option Z) (w : ledger) : Prop := (r = Some 0 \/ r = Some 1) /\ holding [] w.

Lemma ended_ret c w : c = 0 \/ c = 1 -> holding [] w -> wp (mret (Some c)) ended w.
Proof using Type. intros [-> | ->] Hw; apply wp_ret; (split; [|done]); auto. Qed.

Lemma socket_opened held w (Q : Z -> ledger -> Prop) : holding held w ->
  (forall a w', a < 0 -> holding held w' -> Q a w') -> (forall fd w', 0 <= fd -> holding (HUdp fd :: held) w' -> Q fd w') ->
  wp (ledger_socket script) Q w.
Proof using Type.
  intros Hw H1 H2; unfold wp, ledger_socket; destruct (Z.ltb_spec (script (lg_step w)) 0); cbn [fst snd].
  - by apply H1, holding_tick.
  - apply H2; [apply Hw|by apply holding_opened].
Qed.

Lemma ground_socket host port l w (Q : Z -> ledger -> Prop) : owns [] l w ->
  (forall fd w', fd < 0 -> owns [] l w' -> Q fd w') -> (forall fd w', 0 <= fd -> owns [HUdp fd] l w' -> Q fd w') ->
  wp (open_udp_target host port) Q w.
Proof using Type.
  intros Ho H1 H2; unfold open_udp_target; apply wp_bind; unfold wp at 1; cbn [getaddrinfo ledger_ground_os fst snd].
  apply (owns_tick []) in Ho; destruct (_ <? 0); [apply wp_ret, H1; (done || lia)|].
  assert (Hfirst : forall addrs w, owns [] l w -> wp (connect_first addrs) Q w).
  { clear Ho w; induction addrs as [|rp addrs IH]; intros w Ho; cbn [connect_first]; [apply wp_ret, H1; (done || lia)|].
    apply wp_bind; change (address_socket rp) with (ledger_socket script); apply (socket_opened (link_handles l ++ [])); [exact Ho| |].
    - intros a w' Ha Hw'; rewrite (proj2 (Z.ltb_lt _ _)) by done; by apply IH.
    - intros fd w' Hfd Hw'; rewrite (proj2 (Z.ltb_ge _ _)) by done; apply owns_cons in Hw'.
      apply wp_bind; unfold wp at 1; cbn [connect ledger_ground_os fst snd]; apply (owns_tick [HUdp fd]) in Hw'; destruct (_ =? 0); [by apply wp_ret, H2|].
      apply wp_bind; unfold wp at 1; cbn [modify close_udp ledger_os fst snd]; apply IH, owns_closed_one; [done|apply not_elem_of_nil|done]. }
  destruct (data _) as [|a addrs]; [apply wp_ret, H1; (done || lia)|by apply Hfirst].
Qed.

Lemma link_only_close l c w : c = 0 \/ c = 1 -> owns [] l w -> wp (_ ← ar8030_link_close l; mret (Some c)) ended w.
Proof using Type. intros Hc Ho; apply wp_bind, (wp_link_close []); [done..|]; intros l' w' Hw; by apply ended_ret. Qed.

Definition lg_start : ledger := mk_ledger 0 0 [] false.

End ledger.
