(* ===== verification/AudioMain.v ===== *)
(** Both audio programs from start to end: whatever the daemon, the radio, the
    sockets, the allocator and the clock answer, once they are asked to stop
    they end, with a defined exit code and everything they had opened or
    allocated given back exactly once. *)

From S2P Require Import Prelude Double ChunkHdr Chunker Reassembly ChunkStream Link Os Monad AudioTx AudioRx Ledger.
#[local] Open Scope Z_scope.

(** ** The air program's system, as [Ledger] has the rest *)

Section systems.
Context (script : answers) (data : nat -> list Z) (addr : list Z -> option (list Z)).

Definition ledger_tx_os : AudioTxOs ledger := {|
  udp_socket := ledger_socket script;
  inet_pton := addr;
  bind := fun _ _ _ w => (script (lg_step w), lg_tick w);
  recvfrom := fun _ cap w =>
    (if script (lg_step w) <? 0 then Recv_error else Recv (ztake cap (data (lg_step w))), lg_tick w);
  bb_socket_write := fun _ b _ w => (Z.min (script (lg_step w)) (zlen b), lg_tick w)
|}.
End systems.

Section ledger.
Context (script : answers) (data : nat -> list Z) (addr : list Z -> option (list Z)).
#[local] Abbreviation SDK := (ledger_sdk script).
#[local] Abbreviation OS := (ledger_os script).
#[local] Abbreviation TXOS := (ledger_tx_os script data addr).
#[local] Abbreviation RXOS := (ledger_ground_os script data).
#[local] Hint Extern 0 (LinkSdk ledger) => exact SDK : typeclass_instances.
#[local] Hint Extern 0 (ProgramOs ledger) => exact OS : typeclass_instances.
#[local] Hint Extern 0 (AudioTxOs ledger) => exact TXOS : typeclass_instances.
#[local] Hint Extern 0 (GroundOs ledger) => exact RXOS : typeclass_instances.

Lemma audio_open_ok base slot port l w : Forall not_of_link base ->
  owns base l w -> lk_sockfd l < 0 -> (exists d, lk_dev l = Some d) ->
  let '((ret, l'), w') := audio_open_socket (HL := SDK) slot port l w in
  owns base l' w' /\ (ret = 0 <-> 0 <= lk_sockfd l') /\ (lg_step w <= lg_step w')%nat.
Proof.
  intros Hbase Ho Hfd Hdev; unfold audio_open_socket, ar8030_link_force_close_socket; destruct Hdev as [d Hd]; rewrite Hd.
  cbn [bb_force_cls_socket ledger_sdk].
  pose proof (open_tries_owns script base (Z.to_nat SOCKET_REOPEN_MAX_ATTEMPTS) slot port l (-1) 0 (lg_tick w)
    ltac:(by apply owns_tick) Hfd ltac:(by eexists) ltac:(lia)) as H1.
  pose proof (open_tries_step script (Z.to_nat SOCKET_REOPEN_MAX_ATTEMPTS) slot port l (-1) 0 (lg_tick w)) as H2.
  destruct (open_tries _ _ _ _ _ _ _) as [[[r t] l'] w']; cbn in H2; destruct H1 as (G1 & G2 & _); split_and!; try done; lia.
Qed.

(** ** Turns of the air loop *)

Section stopped.
Context (N : nat).
(** The stop flag is up for good from call [N] on. *)
Hypothesis Hstop : forall k, (N <= k)%nat -> an_stop script k = true.

Section operations.
Context (base : list handle).
Hypothesis Hbase : Forall not_of_link base.

Lemma wp_open slot port l w (Q : Z * link -> ledger -> Prop) :
  owns base l w -> lk_sockfd l < 0 -> (exists d, lk_dev l = Some d) ->
  (forall r l' w', owns base l' w' -> (lg_step w <= lg_step w')%nat -> Q (r, l') w') ->
  wp (audio_open_socket slot port l) Q w.
Proof using Hbase.
  intros Ho Hfd Hd HQ; unfold wp; pose proof (audio_open_ok base slot port l w Hbase Ho Hfd Hd) as Hop.
  destruct (audio_open_socket slot port l w) as [[r l'] w']; destruct Hop as (K1 & _ & K3); by apply HQ.
Qed.
End operations.

Section air.
Context (base : list handle).
Hypothesis Hbase : Forall not_of_link base.

(** The state of the loop with the link it holds. *)
Definition air_ok (s : audio_tx * ledger) : Prop := owns base (at_link s.1) s.2.
Definition air_steps (s s' : audio_tx * ledger) : Prop := ticked s.2 s'.2 /\ at_link s'.1 = at_link s.1.

#[local] Instance air_steps_preorder : PreOrder air_steps.
Proof. split; [by intros s; split|]; intros s1 s2 s3 [H1 H2] [H3 H4]; split; [by etrans|congruence]. Qed.

Lemma air_steps_ok s s' : air_steps s s' -> air_ok s -> air_ok s' /\ (lg_step s.2 <= lg_step s'.2)%nat.
Proof. intros [H1 H2] H3; split; [|apply H1]; unfold air_ok, owns in *; rewrite H2; by eapply ticked_holding. Qed.

Lemma write_ticked fd t fuel buf : forall sent st w, ticked w (audio_write_loop fd t fuel buf sent (st, w)).2.2.
Proof using Type.
  induction fuel as [|fuel IH]; intros sent st w; cbn [audio_write_loop]; [done|]; destruct (sent <? zlen buf); [|done].
  cbn [stop_flag ledger_sdk bb_socket_write ledger_tx_os]; destruct (an_stop script _); [apply ticked_tick|].
  destruct (Z.min _ _ <=? 0); [|etrans; [|apply IH]]; cbn [fst snd]; (etrans; apply ticked_tick).
Qed.

Lemma packet_steps args d s : air_steps s (audio_tx_packet args d s).2.
Proof using Type.
  assert (Hu : forall f : audio_tx -> audio_tx, (forall x, at_link (f x) = at_link x) -> keeps air_steps (atupd f))
    by (intros f Hf s1; split; [reflexivity|apply Hf]).
  revert s; change (keeps air_steps (audio_tx_packet args d)); unfold audio_tx_packet.
  apply keeps_bind; [apply _|by apply Hu|intros _]; apply keeps_bind; [apply _|apply keeps_gets, _|intros x].
  apply keeps_bind; [apply _| |intros [sent expected]; apply keeps_bind; [apply _|by apply Hu|intros _; by apply Hu]].
  intros s; match goal with |- context [ar8030_chunk_frame ?cb ?a ?b ?c ?e ?f ?g ?h ?st] =>
    assert (Hk : ticked st.2 (ar8030_chunk_frame cb a b c e f g h st).2.2) end.
  { apply (chunk_frame_keeps _ (fun s2 : audio_tx_stats * ledger => ticked s.2 s2.2)); [|done]; intros [st w] b Hw; etrans; [exact Hw|apply write_ticked]. }
  destruct (ar8030_chunk_frame _ _ _ _ _ _ _ _ _) as [r [st w]]; by split.
Qed.

Lemma wp_atenv {A} (m : M ledger A) (Q : A -> audio_tx * ledger -> Prop) x w : wp m (fun a w' => Q a (x, w')) w -> wp (atenv m) Q (x, w).
Proof. unfold wp, atenv, lift; cbn [fst snd]; by destruct (m w). Qed.
Lemma wp_atget {A} (f : audio_tx -> A) (Q : A -> audio_tx * ledger -> Prop) s : Q (f s.1) s -> wp (atget f) Q s.
Proof. done. Qed.
Lemma wp_atupd f (Q : unit -> audio_tx * ledger -> Prop) x w : Q tt (f x, w) -> wp (atupd f) Q (x, w).
Proof. done. Qed.

(** A reconnect ends, and the link is what is held then. *)
Lemma air_reconnect fuel args auto s : air_ok s -> (N < fuel)%nat ->
  wp (audio_tx_reconnect fuel args auto) (fun t s' => t <> Fuel_out /\ air_ok s' /\ (lg_step s.2 <= lg_step s'.2)%nat) s.
Proof using Hbase Hstop.
  destruct s as [x w]; intros Ho Hf; unfold air_ok in *; cbn [fst snd] in *; unfold audio_tx_reconnect.
  apply wp_bind, wp_atget; cbn [fst]; apply wp_bind, wp_atenv; apply (wp_reconnect script N Hstop base Hbase); [done|done|].
  intros r l w1 Ho1 Hfd Hd _ Hw1; apply wp_bind, wp_atupd; destruct (Z.eqb_spec r 0) as [->|Hr]; cbn [negb].
  2: { apply wp_ret; split_and!; [done|exact Ho1|done]. }
  specialize (Hd eq_refl); apply wp_bind, wp_atget; cbn [fst]; set (x1 := x <| at_link := l |>).
  assert (Hx1 : at_link x1 = l) by done; clearbody x1; apply wp_bind.
  assert (Hgo : forall slot w2, owns base l w2 -> (lg_step w <= lg_step w2)%nat ->
    wp (if auto && (slot <? 0) then mret Leave
        else
          atupd (fun x => x <| at_slot := slot |>) ;;
          '(ret, l) ← atenv (audio_open_socket slot (a_bb_port args) l);
          atupd (fun x => x <| at_link := l |>) ;;
          if negb (ret =? 0) then mret Leave
          else atupd (fun x => x <| at_sockfd := lk_sockfd l |>) ;; mret Go_on)
      (fun t s' => t <> Fuel_out /\ owns base (at_link s'.1) s'.2 /\ (lg_step w <= lg_step s'.2)%nat) (x1, w2)).
  { intros slot w2 Ho2 Hw2; destruct (auto && (slot <? 0)); [apply wp_ret; cbn [fst snd]; by rewrite Hx1|].
    apply wp_bind, wp_atupd, wp_bind, wp_atenv; apply (wp_open base Hbase); try done; intros r l2 w3 Ho3 Hw3.
    apply wp_bind, wp_atupd; destruct (negb (r =? 0)); [|apply wp_bind, wp_atupd]; apply wp_ret; split_and!; try done; cbn; lia. }
  destruct auto; [apply wp_atenv, (wp_resolve script N Hstop base); try done|apply wp_ret]; intros; apply Hgo; (done || lia).
Qed.

Lemma air_turn fuel args auto fd s : air_ok s -> (N < fuel)%nat ->
  wp (audio_tx_turn fuel args auto fd)
    (fun t s' => t <> Fuel_out /\ air_ok s' /\ (lg_step s.2 < lg_step s'.2)%nat /\ ((N <= lg_step s.2)%nat -> t = Leave)) s.
Proof using Hbase Hstop.
  destruct s as [x w]; intros Ho Hf; unfold audio_tx_turn; apply wp_bind, wp_atenv; unfold wp at 1; cbn [stop_flag ledger_sdk fst snd].
  assert (Ho1 : air_ok (x, lg_tick w)) by (by apply owns_tick).
  destruct (an_stop script (lg_step w)) eqn:Es.
  { apply wp_ret; split_and!; [done|done|cbn; lia|done]. }
  assert (Hn : (lg_step w < N)%nat) by (apply not_le; intros Hle; specialize (Hstop _ Hle); congruence).
  apply wp_bind; assert (Hh : wp (audio_tx_health fuel args auto)
    (fun t s' => t <> Fuel_out /\ air_ok s' /\ (lg_step w < lg_step s'.2)%nat) (x, lg_tick w)).
  { unfold audio_tx_health; apply wp_bind, wp_atenv; unfold wp at 1; cbn [now_monotonic_s ledger_os fst snd]; apply wp_bind, wp_atget; cbn [fst].
    assert (Ho2 : owns base (at_link x) (lg_tick (lg_tick w))) by (by apply owns_tick).
    destruct (_ >=? _)%D; [|apply wp_ret; split_and!; [done|exact Ho2|cbn; lia]].
    apply wp_bind, wp_atupd, wp_bind, wp_atget, wp_bind, wp_atenv; cbn [fst].
    match goal with |- wp _ _ ?w0 => assert (Hal : ticked w0 (ar8030_link_is_alive (at_link x) w0).2) end.
    { unfold ar8030_link_is_alive; destruct (lk_dev _); [apply ticked_tick|done]. }
    unfold wp at 1; change (at_link (x <| at_last_health_s := _ |>)) with (at_link x).
    destruct (ar8030_link_is_alive (at_link x) (lg_tick (lg_tick w))) as [alive w3]; cbn [fst snd] in *.
    pose proof (tk_step _ _ Hal) as Hs3; cbn in Hs3; apply (ticked_holding _ _ _ Hal) in Ho2.
    destruct alive; [apply wp_ret; split_and!; [done|exact Ho2|cbn; lia]|].
    eapply wp_mono; [apply air_reconnect; [exact Ho2|done]|]; cbn [snd]; intros t s' (H1 & H2 & H3); split_and!; (done || lia). }
  unfold wp in Hh; unfold wp at 1; destruct (audio_tx_health fuel args auto (x, lg_tick w)) as [t [x2 w2]]; cbn [fst snd] in *.
  destruct Hh as (Ht & Ho2 & Hs2); destruct t; [|apply wp_ret; split_and!; (done || lia)|done].
  apply wp_bind, wp_atenv; unfold wp at 1; cbn [recvfrom ledger_tx_os fst snd].
  assert (Ho3 : air_ok (x2, lg_tick w2)) by (by apply owns_tick).
  assert (Hnone : wp (mret Go_on) (fun t s' => t <> Fuel_out /\ air_ok s' /\ (lg_step w < lg_step s'.2)%nat /\
    ((N <= lg_step w)%nat -> t = Leave)) (x2, lg_tick w2)) by (apply wp_ret; split_and!; (done || cbn; lia)).
  destruct (_ <? 0); [exact Hnone|]; destruct (ztake _ _) as [|b d]; [exact Hnone|].
  apply wp_bind; unfold wp at 1; pose proof (packet_steps args (b :: d) (x2, lg_tick w2)) as Hp.
  destruct (air_steps_ok _ _ Hp Ho3) as [Ho4 Hs4]; destruct (audio_tx_packet _ _ _) as [[] s4]; cbn [fst snd] in *.
  apply wp_ret; cbn in Hs4; split_and!; (done || lia).
Qed.

Lemma air_turns fuel args auto fd n : forall s, air_ok s -> (N < fuel)%nat -> (N - lg_step s.2 < n)%nat ->
  wp (audio_tx_turns fuel n args auto fd) (fun t s' => t = Leave /\ air_ok s') s.
Proof using Hbase Hstop.
  induction n as [|n IH]; intros s Ho Hf Hn; [lia|]; cbn [audio_tx_turns]; apply wp_bind.
  eapply wp_mono; [by apply air_turn|]; intros t s' (Ht & Ho' & Hs & Hl); destruct t; [|by apply wp_ret|done].
  assert (lg_step s.2 < N)%nat by (apply not_le; intros Hle; by specialize (Hl Hle)); apply IH; (done || lia).
Qed.
End air.

(** ** Turns of the ground loop *)

Section ground.
Context (base : list handle) (ap : Z).
Hypothesis Hbase : Forall not_of_link base.

Record ground_ok (s : audio_rx * ledger) : Prop := {
  go_owns : owns base (ar_link s.1) s.2;
  go_buf : zlen (s_buf (ar_stream s.1)) <= s_cap (ar_stream s.1);
  go_cap : s_cap (ar_stream s.1) = stream_buf_cap
}.

Lemma wp_arenv {A} (m : M ledger A) (Q : A -> audio_rx * ledger -> Prop) x w : wp m (fun a w' => Q a (x, w')) w -> wp (arenv m) Q (x, w).
Proof. unfold wp, arenv, lift; cbn [fst snd]; by destruct (m w). Qed.
Lemma wp_arget {A} (f : audio_rx -> A) (Q : A -> audio_rx * ledger -> Prop) s : Q (f s.1) s -> wp (arget f) Q s.
Proof. done. Qed.
Lemma wp_arupd f (Q : unit -> audio_rx * ledger -> Prop) x w : Q tt (f x, w) -> wp (arupd f) Q (x, w).
Proof. done. Qed.

Lemma ground_reconnect fuel args s : ground_ok s -> (N < fuel)%nat ->
  wp (audio_rx_reconnect ap fuel args) (fun t s' => t <> Fuel_out /\ ground_ok s' /\ (lg_step s.2 <= lg_step s'.2)%nat) s.
Proof using Hbase Hstop.
  destruct s as [x w]; intros [Ho Hb Hc] Hf; cbn [fst snd] in *; unfold audio_rx_reconnect.
  apply wp_bind, wp_arget; cbn [fst]; apply wp_bind, wp_arenv; apply (wp_reconnect script N Hstop base Hbase); [done|done|].
  intros r l w1 Ho1 Hfd Hd _ Hw1; apply wp_bind, wp_arupd; destruct (Z.eqb_spec r 0) as [->|Hr]; cbn [negb].
  2: { apply wp_ret; split_and!; [done|by constructor|done]. }
  apply wp_bind, wp_arenv; apply (wp_open base Hbase); [done|done|by apply Hd|]; intros r l2 w2 Ho2 Hw2.
  apply wp_bind, wp_arupd, wp_ret; split_and!; [by destruct (negb _)|by constructor|cbn; lia].
Qed.

Lemma chunk_ground ufd h p s : ground_ok s ->
  wp (audio_rx_chunk ufd h p) (fun _ s' => ground_ok s' /\ (lg_step s.2 <= lg_step s'.2)%nat) s.
Proof using Type.
  destruct s as [x w]; intros [Ho Hb Hc]; cbn [fst snd] in *; unfold audio_rx_chunk; apply wp_bind, wp_arget; cbn [fst].
  destruct (ar8030_reassembly_feed (ar_reasm x) h p) as [n r]; apply wp_bind, wp_arupd; unfold when; destruct (negb (n =? 0)).
  2: { apply wp_ret; split; [by constructor|done]. }
  apply wp_bind, wp_arenv; unfold wp at 1; cbn [send ledger_ground_os fst snd]; apply wp_bind.
  assert (Ho' : owns base (ar_link x) (lg_tick w)) by (by apply owns_tick).
  destruct (0 <? _); [apply wp_arupd|apply wp_ret]; apply wp_arupd; (split; [by constructor|cbn; lia]).
Qed.

Lemma ground_turn fuel args ufd s : ground_ok s -> (read_fuel N stream_buf_cap <= fuel)%nat ->
  wp (audio_rx_turn ap fuel args ufd)
    (fun t s' => t <> Fuel_out /\ ground_ok s' /\ (lg_step s.2 < lg_step s'.2)%nat /\ ((N <= lg_step s.2)%nat -> t = Leave)) s.
Proof using Hbase Hstop.
  destruct s as [x w]; intros [Ho Hb Hc] Hf; cbn [fst snd] in *; unfold read_fuel in Hf; rewrite Nat.mul_succ_l in Hf.
  assert (Hfn : (N < fuel)%nat) by nia.
  unfold audio_rx_turn; apply wp_bind, wp_arenv; unfold wp at 1; cbn [stop_flag ledger_sdk fst snd].
  assert (Ho1 : owns base (ar_link x) (lg_tick w)) by (by apply owns_tick).
  destruct (an_stop script (lg_step w)) eqn:Es.
  { apply wp_ret; split_and!; [done|by constructor|cbn; lia|done]. }
  assert (Hn : (lg_step w < N)%nat) by (apply not_le; intros Hle; specialize (Hstop _ Hle); congruence).
  apply wp_bind; assert (Hh : wp (audio_rx_health ap fuel args)
    (fun t s' => t <> Fuel_out /\ ground_ok s' /\ (lg_step w < lg_step s'.2)%nat) (x, lg_tick w)).
  { unfold audio_rx_health; apply wp_bind, wp_arenv; unfold wp at 1; cbn [now_monotonic_s ledger_os fst snd]; apply wp_bind, wp_arget; cbn [fst].
    assert (Ho2 : owns base (ar_link x) (lg_tick (lg_tick w))) by (by apply owns_tick).
    destruct (_ >=? _)%D; [|apply wp_ret; split_and!; [done|by constructor|cbn; lia]].
    apply wp_bind, wp_arupd, wp_bind, wp_arget, wp_bind, wp_arenv; cbn [fst].
    match goal with |- wp _ _ ?w0 => assert (Hal : ticked w0 (ar8030_link_is_alive (ar_link x) w0).2) end.
    { unfold ar8030_link_is_alive; destruct (lk_dev _); [apply ticked_tick|done]. }
    unfold wp at 1; change (ar_link (x <| ar_last_health_s := _ |>)) with (ar_link x).
    destruct (ar8030_link_is_alive (ar_link x) (lg_tick (lg_tick w))) as [alive w3]; cbn [fst snd] in *.
    pose proof (tk_step _ _ Hal) as Hs3; cbn in Hs3; apply (ticked_holding _ _ _ Hal) in Ho2.
    destruct alive; [apply wp_ret; split_and!; [done|by constructor|cbn; lia]|].
    eapply wp_mono; [apply ground_reconnect; [by constructor|done]|]; cbn [snd]; intros t s' (H1 & H2 & H3); split_and!; (done || lia). }
  unfold wp in Hh; unfold wp at 1; destruct (audio_rx_health ap fuel args (x, lg_tick w)) as [t [x2 w2]]; cbn [fst snd] in *.
  destruct Hh as (Ht & [Ho2 Hb2 Hc2] & Hs2); cbn [fst snd] in *; destruct t; [|apply wp_ret; split_and!; (done || by constructor || lia)|done].
  apply wp_bind; unfold wp at 1, audio_stream_read.
  destruct (stream_read_ends script data N Hstop (lk_sockfd (ar_link x2)) STREAM_READ_TIMEOUT_MS fuel (ar_stream x2) w2) as (res & st' & w3 & E & Hw3 & Hb3 & Hc3).
  { split; [done|]; by rewrite Hc2. }
  { rewrite Hc2 in *; assert (Z.to_nat (zlen (s_buf (ar_stream x2))) <= Z.to_nat stream_buf_cap)%nat by lia.
    assert ((N - lg_step w2) * S (Z.to_nat stream_buf_cap) <= N * S (Z.to_nat stream_buf_cap))%nat by (apply Nat.mul_le_mono_r; lia); lia. }
  rewrite E; cbn [fst snd]; pose proof (tk_step _ _ Hw3).
  assert (Hok : ground_ok (x2 <| ar_stream := st' |>, w3)).
  { constructor; [exact (ticked_holding _ _ _ Hw3 Ho2)|exact Hb3|exact (eq_trans Hc3 Hc2)]. }
  destruct res as [h p| |]; [|apply wp_ret; split_and!; (done || cbn; lia)..].
  apply wp_bind; eapply wp_mono; [by apply chunk_ground|]; cbn [snd]; intros _ s' [H1 H2]; apply wp_ret; split_and!; (done || lia).
Qed.

Lemma ground_turns fuel args ufd n : forall s, ground_ok s -> (read_fuel N stream_buf_cap <= fuel)%nat -> (N - lg_step s.2 < n)%nat ->
  wp (audio_rx_turns ap fuel n args ufd) (fun t s' => t = Leave /\ ground_ok s') s.
Proof using Hbase Hstop.
  induction n as [|n IH]; intros s Ho Hf Hn; [lia|]; cbn [audio_rx_turns]; apply wp_bind.
  eapply wp_mono; [by apply ground_turn|]; intros t s' (Ht & Ho' & Hs & Hl); destruct t; [|by apply wp_ret|done].
  assert (lg_step s.2 < N)%nat by (apply not_le; intros Hle; by specialize (Hl Hle)); apply IH; (done || lia).
Qed.
End ground.

(** ** Start and end *)

(** ** The air program *)

Lemma air_socket host port w (Q : Z -> ledger -> Prop) : holding [] w ->
  (forall fd w', fd < 0 -> holding [] w' -> Q fd w') -> (forall fd w', 0 <= fd -> holding [HUdp fd] w' -> Q fd w') ->
  wp (open_udp_source host port) Q w.
Proof using Type.
  intros Hw H1 H2; unfold open_udp_source; apply wp_bind; change udp_socket with (ledger_socket script).
  apply (socket_opened script [] w); [done|intros a w1 Ha Hw1|intros fd w1 Hfd Hw1].
  - rewrite (proj2 (Z.ltb_lt _ _)) by done; apply wp_ret, H1; (done || lia).
  - rewrite (proj2 (Z.ltb_ge _ _)) by done.
    assert (Hcl : forall w2, holding [HUdp fd] w2 -> wp (modify (close_udp fd) ;; mret (-1)) Q w2).
    { intros w2 Hw2; apply wp_bind; unfold wp at 1; cbn [modify close_udp ledger_os fst snd]; apply wp_ret, H1; [lia|].
      by apply holding_closed; [apply not_elem_of_nil|]. }
    cbn [inet_pton ledger_tx_os]; destruct (addr host) as [a|]; [|by apply Hcl].
    apply wp_bind; unfold wp at 1; cbn [bind ledger_tx_os fst snd]; apply holding_tick in Hw1.
    destruct (negb _); [by apply Hcl|by apply wp_ret, H2].
Qed.

Lemma air_close l fd c w : c = 0 \/ c = 1 -> owns [HUdp fd] l w ->
  wp (_ ← ar8030_link_close l; modify (close_udp fd) ;; mret (Some c)) ended w.
Proof using Type.
  intros Hc Ho; apply wp_bind, (wp_link_close script [HUdp fd]); [by repeat constructor|done|]; intros l' w' Hw.
  apply wp_bind; unfold wp at 1; cbn [modify close_udp ledger_os fst snd]; apply ended_ret; [done|].
  by apply holding_closed; [apply not_elem_of_nil|].
Qed.

Lemma air_run fuel args auto fd l w : (N < fuel)%nat -> owns [HUdp fd] l w -> wp (audio_tx_run fuel args auto fd l) ended w.
Proof using Hstop.
  intros Hf Ho; unfold audio_tx_run; apply wp_bind, (wp_malloc script _ [HUdp fd] l); [done|]; intros p1 w1 Ho1 Hn1 Hp1.
  apply wp_bind, (wp_malloc script _ (mem p1 ++ [HUdp fd]) l); [done|]; intros p2 w2 Ho2 Hn2 Hp2.
  assert (Hend : forall c l w, c = 0 \/ c = 1 -> owns (mem p2 ++ mem p1 ++ [HUdp fd]) l w ->
    wp (modify (free p1) ;; modify (free p2) ;; _ ← ar8030_link_close l; modify (close_udp fd) ;; mret (Some c)) ended w).
  { intros c l' w' Hc Ho'; apply wp_bind, (wp_free script p1 (mem p2 ++ [HUdp fd]) l').
    - eapply owns_perm; [|exact Ho']; apply mem_swap.
    - intros a Ha; apply mem_fresh; [|by apply udp_not_mem]; intros b Hb; apply Hp1 in Ha; apply Hp2 in Hb; lia.
    - intros w3 Ho3; apply wp_bind, (wp_free script p2 [HUdp fd] l'); [done|intros; apply udp_not_mem|]; intros w4 Ho4; by apply air_close. }
  destruct p1 as [a1|]; [destruct p2 as [a2|]|]; [|apply Hend; auto..].
  apply wp_bind; unfold wp at 1; cbn [now_monotonic_s ledger_os fst snd]; apply wp_bind; unfold wp at 1.
  set (x := mk_at _ _ _ _ _ _); set (base := mem (Some a2) ++ mem (Some a1) ++ [HUdp fd]) in *.
  pose proof (air_turns base ltac:(by repeat constructor) fuel args auto fd fuel (x, lg_tick w2) ltac:(by apply owns_tick) Hf
    ltac:(cbn; lia)) as Hturns; unfold wp in Hturns.
  destruct (audio_tx_turns fuel fuel args auto fd (x, lg_tick w2)) as [t [x' w']]; cbn [fst snd] in *; destruct Hturns as [-> Ho'].
  apply Hend; [by left|exact Ho'].
Qed.

Lemma audio_air_program fuel argv w : (N < fuel)%nat -> holding [] w -> wp (audio_tx_main fuel argv) ended w.
Proof using Hstop.
  intros Hf Hw; unfold audio_tx_main; destruct (AudioTx.parse_args argv) as [args|]; [|apply ended_ret; auto].
  destruct (_ || _); [apply ended_ret; auto|]; apply wp_bind, air_socket; [done|intros fd w1 Hfd Hw1|intros fd w1 Hfd Hw1].
  { rewrite (proj2 (Z.ltb_lt _ _)) by done; apply ended_ret; auto. }
  rewrite (proj2 (Z.ltb_ge _ _)) by done; assert (Hb : Forall not_of_link [HUdp fd]) by (by repeat constructor).
  apply wp_bind, (wp_connect script N Hstop [HUdp fd] Hb); [done|done|]; intros r l w2 Ho2 Hfd2 Hd Hcl _; destruct (Z.eqb_spec r 0) as [->|Hr]; cbn [negb].
  2: { apply wp_bind; unfold wp at 1; cbn [modify close_udp ledger_os fst snd]; apply ended_ret; [by left|].
       apply holding_closed; [apply not_elem_of_nil|]; apply (owns_closed _ l); [by apply Hcl|done]. }
  specialize (Hd eq_refl); apply wp_bind.
  assert (Hgo : forall slot w3, owns [HUdp fd] l w3 ->
    wp (if (a_slot args <? 0) && (slot <? 0) then _ ← ar8030_link_close l; modify (close_udp fd) ;; mret (Some 0)
        else
          '(ret, l) ← audio_open_socket slot (a_bb_port args) l;
          if negb (ret =? 0) then _ ← ar8030_link_close l; modify (close_udp fd) ;; mret (Some 1)
          else audio_tx_run fuel (args <| a_slot := slot |>) (a_slot args <? 0) fd l) ended w3).
  { intros slot w3 Ho3; destruct (_ && _); [apply air_close; auto|]; apply wp_bind, (wp_open [HUdp fd] Hb); [done..|].
    intros r l' w4 Ho4 _; destruct (negb _); [apply air_close; auto|by apply air_run]. }
  destruct (a_slot args <? 0); [apply (wp_resolve script N Hstop [HUdp fd]); try done; intros slot w3 Ho3 _|apply wp_ret]; by apply Hgo.
Qed.

(** ** The ground program *)

Lemma ground_close l fd c w : c = 0 \/ c = 1 -> owns [HUdp fd] l w ->
  wp (modify (close_udp fd) ;; _ ← ar8030_link_close l; mret (Some c)) ended w.
Proof using Type.
  intros Hc Ho; apply wp_bind; unfold wp at 1; cbn [modify close_udp ledger_os fst snd].
  apply wp_bind, (wp_link_close script []); [done|apply owns_closed_one; [done|apply not_elem_of_nil|done]|]; intros l' w' Hw.
  by apply ended_ret.
Qed.

Lemma ground_run ap fuel args fd l w : (read_fuel N stream_buf_cap <= fuel)%nat -> owns [HUdp fd] l w ->
  wp (audio_rx_run ap fuel args fd l) ended w.
Proof using Hstop.
  intros Hf Ho; unfold audio_rx_run; apply wp_bind, (wp_malloc script _ [HUdp fd] l); [done|]; intros p0 w0 Ho0 Hn0 Hp0.
  destruct p0 as [a0|]; [|by apply ground_close; auto].
  apply wp_bind, (wp_malloc script _ (mem (Some a0) ++ [HUdp fd]) l); [done|]; intros p1 w1 Ho1 Hn1 Hp1.
  apply wp_bind, (wp_malloc script _ (mem p1 ++ mem (Some a0) ++ [HUdp fd]) l); [done|]; intros p2 w2 Ho2 Hn2 Hp2.
  specialize (Hp0 a0 eq_refl); assert (Hend : forall c l w, c = 0 \/ c = 1 -> owns (mem p2 ++ mem p1 ++ mem (Some a0) ++ [HUdp fd]) l w ->
    wp (modify (free p1) ;; modify (free p2) ;; modify (free (Some a0)) ;;
        modify (close_udp fd) ;; _ ← ar8030_link_close l; mret (Some c)) ended w).
  { intros c l' w' Hc Ho'; apply wp_bind, (wp_free script p1 (mem p2 ++ mem (Some a0) ++ [HUdp fd]) l').
    - eapply owns_perm; [|exact Ho']; apply mem_swap.
    - intros a Ha; apply mem_fresh; [intros b Hb; apply Hp1 in Ha; apply Hp2 in Hb; lia|].
      apply mem_fresh; [intros b [= <-]; apply Hp1 in Ha; lia|apply udp_not_mem].
    - intros w3 Ho3; apply wp_bind, (wp_free script p2 (mem (Some a0) ++ [HUdp fd]) l'); [done| |].
      + intros a Ha; apply mem_fresh; [intros b [= <-]; apply Hp2 in Ha; lia|apply udp_not_mem].
      + intros w4 Ho4; apply wp_bind, (wp_free script (Some a0) [HUdp fd] l'); [done|intros; apply udp_not_mem|].
        intros w5 Ho5; by apply ground_close. }
  destruct p1 as [a1|]; [destruct p2 as [a2|]|]; [|apply Hend; auto..].
  apply wp_bind; unfold wp at 1; cbn [now_monotonic_s ledger_os fst snd]; apply wp_bind; unfold wp at 1.
  set (x := mk_ar _ _ _ _ _ _); set (base := mem (Some a2) ++ mem (Some a1) ++ mem (Some a0) ++ [HUdp fd]) in *.
  assert (Hok : ground_ok base (x, lg_tick w2)) by (by constructor; [apply owns_tick| |]).
  assert (Hn : (N - lg_step (lg_tick w2) < fuel)%nat).
  { cbn; unfold read_fuel in Hf; rewrite Nat.mul_succ_l in Hf; nia. }
  pose proof (ground_turns base ap ltac:(by repeat constructor) fuel args fd fuel (x, lg_tick w2) Hok Hf Hn) as Hturns; unfold wp in Hturns.
  destruct (audio_rx_turns ap fuel fuel args fd (x, lg_tick w2)) as [t [x' w']]; cbn [fst snd] in *; destruct Hturns as [-> [Ho' _ _]].
  apply Hend; [by left|exact Ho'].
Qed.

Lemma audio_ground_program ap fuel argv w : (read_fuel N stream_buf_cap <= fuel)%nat -> holding [] w -> wp (audio_rx_main ap fuel argv) ended w.
Proof using Hstop.
  intros Hf Hw; assert (Hfn : (N < fuel)%nat) by (unfold read_fuel in Hf; rewrite Nat.mul_succ_l in Hf; nia).
  unfold audio_rx_main; destruct (rx_parse_args argv) as [args|]; [|apply ended_ret; auto].
  assert (Hb : Forall not_of_link []) by done; apply wp_bind, (wp_connect script N Hstop [] Hb); [done|done|]; intros r l w1 Ho1 Hfd Hd Hcl _.
  destruct (Z.eqb_spec r 0) as [->|Hr]; cbn [negb]; [|apply ended_ret; [by left|]; apply (owns_closed [] l); [by apply Hcl|done]].
  apply wp_bind, (wp_open [] Hb); [done|done|by apply Hd|]; intros r l2 w2 Ho2 _; destruct (negb _); [apply (link_only_close script); auto|].
  apply wp_bind, (ground_socket script data _ _ l2); [done|intros fd w3 Hfd3 Ho3|intros fd w3 Hfd3 Ho3].
  - rewrite (proj2 (Z.ltb_lt _ _)) by done; apply (link_only_close script); auto.
  - rewrite (proj2 (Z.ltb_ge _ _)) by done; by apply ground_run.
Qed.

(** ** Both of them *)

(** C37. Both audio programs end, and clean up behind them: whatever command
    line they get and whatever the daemon, the radio, the sockets, the
    allocator and the clock answer at each call, before the stop and after it,
    once the stop flag is raised
    they return, with exit code 0 or 1, after closing and freeing exactly once
    every session, device, data socket, UDP socket and block of memory they
    had obtained - on every error path, and across any number of reconnects. *)
Theorem audio_programs_end ap fuel argv : (read_fuel N stream_buf_cap <= fuel)%nat ->
  (exists code w, audio_tx_main fuel argv lg_start = (Some code, w) /\ 0 <= code <= 1 /\ lg_open w = [] /\ lg_bad w = false) /\
  (exists code w, audio_rx_main ap fuel argv lg_start = (Some code, w) /\ 0 <= code <= 1 /\ lg_open w = [] /\ lg_bad w = false).
Proof using Hstop.
  intros Hf; assert (Hfn : (N < fuel)%nat) by (unfold read_fuel in Hf; rewrite Nat.mul_succ_l in Hf; nia).
  assert (Hw : holding [] lg_start) by (by constructor).
  assert (Hrun : forall m : M ledger (option Z), wp m ended lg_start ->
    exists code w, m lg_start = (Some code, w) /\ 0 <= code <= 1 /\ lg_open w = [] /\ lg_bad w = false).
  { intros m; unfold wp; destruct (m lg_start) as [r w]; cbn [fst snd]; intros [Hr Hh]; apply holding_none in Hh as [H1 H2].
    destruct Hr as [-> | ->]; eexists _, w; split_and!; (done || lia). }
  split; apply Hrun; [by apply audio_air_program|by apply audio_ground_program].
Qed.
End stopped.
End ledger.

(** ** A concrete run: the daemon has a device, all else is well for forty calls;
    then the stop, and from there on every call fails *)

Definition demo_answers : answers := mk_answers (fun k => if (k =? 1)%nat then 1 else if (k <? 40)%nat then 0 else -1)
  (fun _ => 0) (fun _ => [true]) (fun k => 40 <=? k)%nat.

Lemma demo_stops k : (40 <= k)%nat -> an_stop demo_answers k = true.
Proof. apply Nat.leb_le. Qed.

Lemma audio_programs_end_witness :
  exists fuel code w, audio_rx_main (HO := ledger_os demo_answers) (HL := ledger_sdk demo_answers)
    (HR := ledger_ground_os demo_answers (fun _ => [1; 2; 3])) 0 fuel [] lg_start = (Some code, w) /\ lg_open w = [].
Proof.
  exists (read_fuel 40 stream_buf_cap).
  pose proof (audio_programs_end demo_answers (fun _ => [1; 2; 3]) (fun _ => None) 40) as Hth.
  destruct (Hth demo_stops 0 (read_fuel 40 stream_buf_cap) [] ltac:(apply le_n))
    as [_ (code & w & E & _ & H & _)]; exists code, w; exact (conj E H).
Defined.
