(* ===== verification/AirEnds.v ===== *)
(** The air video program ends and cleans up ([VideoMain] states it): its system
    as a ledger, the send path as calls that only take time, and what is held
    from one turn of the send loop to the next. *)

From S2P Require Import Prelude Double ChunkHdr Chunker FrameRing Link Outq TxSend Os Monad BitrateCtl AirMain TxMain Ledger.
#[local] Open Scope Z_scope.

(** ** The system *)

Section systems.
Context (script : answers) (data : nat -> list Z) (items : nat -> list outq_item) (mapped : nat -> ring_mem).

Definition ledger_tx_env : TxEnv ledger := {|
  TxSend.bb_socket_write := fun b w => (Z.min (script (lg_step w)) (zlen b), lg_tick w);
  now_monotonic_us := fun w => (script (lg_step w), lg_tick w);
  g_stop := fun w => (an_stop script (lg_step w), lg_tick w);
  pushed := fun w => (items (lg_step w), lg_tick w)
|}.

Definition ledger_tx_ring : TxRing ledger := {|
  open_shm := fun _ w =>
    (if script (lg_step w) <? 0 then None else Some (script (lg_step w), an_more script (lg_step w)), lg_tick w);
  ring_mapped := fun w => (mapped (lg_step w), lg_tick w);
  ring_store_read_idx := fun _ w => lg_tick w;
  ring_read_wait := fun _ _ w => (if script (lg_step w) <? 0 then None else Some (data (lg_step w)), lg_tick w);
  ring_attach := fun _ w =>
    if script (lg_step w) <? 0 then (None, lg_tick w) else (Some (script (lg_step w)), lg_opened HRing w);
  ring_destroy := fun w => lg_closed HRing w;
  grow_buf := fun _ w => (script (lg_step w) =? 0, lg_tick w);
  TxMain.now_monotonic_s := fun w => (dofZ (script (lg_step w)), lg_tick w);
  set_g_stop := lg_tick
|}.
End systems.

Section ledger.
Context (script : answers) (data : nat -> list Z) (items : nat -> list outq_item) (mapped : nat -> ring_mem).
#[local] Abbreviation SDK := (ledger_sdk script).
#[local] Abbreviation OS := (ledger_os script).
#[local] Abbreviation ENV := (ledger_tx_env script items).
#[local] Abbreviation RING := (ledger_tx_ring script data mapped).
#[local] Abbreviation THREADS := (ledger_threads script).
#[local] Hint Extern 0 (LinkSdk ledger) => exact SDK : typeclass_instances.
#[local] Hint Extern 0 (ProgramOs ledger) => exact OS : typeclass_instances.
#[local] Hint Extern 0 (TxEnv ledger) => exact ENV : typeclass_instances.
#[local] Hint Extern 0 (TxRing ledger) => exact RING : typeclass_instances.
#[local] Hint Extern 0 (Threads ledger) => exact THREADS : typeclass_instances.

(** ** The send path only takes time *)

Lemma write_loop_ticked fuel buf : forall sent sc w, ticked w (write_loop fuel buf sent sc w).2.
Proof using Type.
  induction fuel as [|fuel IH]; intros sent sc w; cbn [write_loop]; [done|]; destruct (sent <? zlen buf); [|done].
  cbn [g_stop ledger_tx_env TxSend.bb_socket_write]; destruct (an_stop script _); [apply ticked_tick|].
  destruct (Z.min _ _ <=? 0); [|etrans; [|apply IH]]; cbn [fst snd]; (etrans; apply ticked_tick).
Qed.

Lemma stage_loop_ticked cp fuel : forall sc w, ticked w (stage_loop cp fuel sc w).2.
Proof using Type.
  induction fuel as [|fuel IH]; intros sc w; cbn [stage_loop]; [done|]; destruct (tx_outq_pop _) as [[item|] q]; [|done].
  assert (Hn : ticked w (if oi_is_syncr item then now_monotonic_us w else (0, w)).2) by (destruct (oi_is_syncr item); [apply ticked_tick|done]).
  destruct (if oi_is_syncr item then _ else _) as [now w1]; cbn [snd] in Hn; etrans; [exact Hn|].
  destruct (item_payload cp item now); [destruct (ar8030_chunk_frame _ _ _ _ _ _ _ _ _) as [[? ?] ?]|]; apply IH.
Qed.

Lemma stage_outq_ticked cp sc w : ticked w (stage_outq cp sc w).2.
Proof using Type. unfold stage_outq; cbn [pushed ledger_tx_env]; etrans; [apply ticked_tick|apply stage_loop_ticked]. Qed.

Lemma flush_outq_ticked cp sc w : ticked w (flush_outq cp sc w).2.
Proof using Type.
  unfold flush_outq; pose proof (stage_outq_ticked cp (set_combo [] sc) w) as Hs; destruct (stage_outq _ _ _) as [sc1 w1].
  destruct (sx_combo sc1) as [|b c]; [done|]; unfold write_all.
  pose proof (write_loop_ticked (S (length (b :: c))) (b :: c) 0 sc1 w1) as Hw; destruct (write_loop _ _ _ _ _) as [[? sc2] w2].
  by etrans.
Qed.

Lemma socket_cb_ticked cp s b : ticked s.2 (socket_cb cp s b).2.2.
Proof using Type.
  unfold socket_cb, chunk_send_to_socket; destruct s as [sc w]; cbn [fst snd].
  pose proof (stage_outq_ticked cp (set_combo [] sc) w) as Hs; destruct (stage_outq _ _ _) as [sc1 w1]; cbn [snd] in Hs.
  match goal with |- context [if ?c && ?d then ?x else ?y] => set (wr := if c && d then x else y) end.
  assert (Hw : ticked w wr.2).
  { subst wr; etrans; [exact Hs|]; unfold write_all; destruct (_ && _); [apply write_loop_ticked|]; destruct (negb _).
    - pose proof (write_loop_ticked (S (length (sx_combo sc1))) (sx_combo sc1) 0 sc1 w1) as H1.
      destruct (write_loop _ (sx_combo sc1) 0 sc1 w1) as [[r sc2] w2]; cbn [snd] in H1.
      destruct (r =? 0); [etrans; [exact H1|apply write_loop_ticked]|exact H1].
    - change (0 =? 0) with true; cbv iota; apply write_loop_ticked. }
  destruct wr as [[ret sc2] w2]; by destruct (negb (ret =? 0)).
Qed.

(** ** What of the loop leaves link and ring alone *)

Record quiet (s s' : txst ledger) : Prop := {
  qu_world : ticked (Tw s) (Tw s');
  qu_link : tx_link (T s') = tx_link (T s);
  qu_ring : bs_ring (tx_bc (T s')) = bs_ring (tx_bc (T s))
}.

#[local] Instance quiet_preorder : PreOrder quiet.
Proof. split; [by intros s; constructor|]; intros s1 s2 s3 [] []; constructor; (by etrans) || congruence. Qed.

Lemma quiet_getT {A} (f : tx_loop -> A) : keeps quiet (getT f).
Proof using Type. by intros s. Qed.
Lemma quiet_updT f : (forall x, tx_link (f x) = tx_link x /\ bs_ring (tx_bc (f x)) = bs_ring (tx_bc x)) -> keeps quiet (updT f).
Proof using Type. intros Hf s; constructor; [done|apply Hf..]. Qed.
Lemma quiet_env {A} (m : M ledger A) : (forall w, ticked w (m w).2) -> keeps quiet (env m).
Proof using Type. intros Hm s; specialize (Hm (Tw s)); unfold env, lift; destruct (m (Tw s)) as [a w]; by constructor. Qed.
Lemma quiet_sending {A} (f : send_ctx * ledger -> A * (send_ctx * ledger)) : (forall s, ticked s.2 (f s).2.2) -> keeps quiet (sending f).
Proof using Type.
  intros Hf s; specialize (Hf (tx_send (T s), Tw s)); unfold sending; destruct (f _) as [a [sc w]]; by constructor.
Qed.

Ltac quiet_leaf := first
  [ apply quiet_getT
  | apply quiet_updT; intros ?; repeat case_match; by split
  | apply quiet_env; intros ?; apply ticked_tick
  | apply quiet_sending; intros ?; match goal with s : _ * _ |- _ =>
      (apply (chunk_frame_keeps _ (fun t : send_ctx * ledger => ticked s.2 t.2)) || apply (chunk_part_keeps _ (fun t : send_ctx * ledger => ticked s.2 t.2)));
      [intros ? ? ?; etrans; [eassumption|apply socket_cb_ticked]|done] end
  | unfold_op ].

Lemma entry_quiet cfg entry : keeps quiet (tx_entry cfg entry).
Proof using Type. unfold tx_entry; keeps_walk quiet_leaf. Qed.

Lemma flush_ring_quiet : keeps quiet flush_ring.
Proof using Type.
  unfold flush_ring; keeps_walk ltac:(idtac); [|by apply quiet_updT].
  apply quiet_env; intros w; unfold ring_flush; rewrite !bind_run; cbn [ring_mapped ledger_tx_ring fst snd].
  unfold when; destruct (_ <? _); constructor; cbn; (done || lia).
Qed.

(** ** Connecting and attaching end *)

Lemma open_data_socket_step l slot port w : (lg_step w <= lg_step (open_data_socket (H := SDK) l slot port w).2)%nat.
Proof using Type.
  unfold open_data_socket.
  assert (Hf : (lg_step w <= lg_step (ar8030_link_force_close_socket (H := SDK) l slot port w).2)%nat)
    by (unfold ar8030_link_force_close_socket; destruct (lk_dev l); cbn; lia).
  destruct (ar8030_link_force_close_socket l slot port w) as [r0 w0]; cbn [snd] in Hf.
  pose proof (open_tries_step script (Z.to_nat SOCKET_REOPEN_MAX_ATTEMPTS) slot port l (-1) 0 w0) as H1.
  destruct (open_tries _ _ _ _ _ _ _) as [[[r t] l1] w1]; cbn [snd] in H1; destruct (r =? 0); [cbn; lia|].
  assert (Hg : (lg_step w1 <= lg_step (ar8030_link_force_close_all_sockets (H := SDK) l1 w1).2)%nat)
    by (unfold ar8030_link_force_close_all_sockets; destruct (lk_dev l1); cbn; lia).
  destruct (ar8030_link_force_close_all_sockets l1 w1) as [r2 w2]; cbn [snd] in Hg.
  pose proof (open_tries_step script (Z.to_nat SOCKET_REOPEN_MAX_ATTEMPTS) slot port l1 r t w2) as H2.
  destruct (open_tries _ _ _ _ _ _ w2) as [[[r3 t3] l3] w3]; cbn [snd] in *; lia.
Qed.

Section stopped.
Context (N : nat).
(** The stop flag is up for good from call [N] on. *)
Hypothesis Hstop : forall k, (N <= k)%nat -> an_stop script k = true.
Lemma before_stop k : an_stop script k = false -> (k < N)%nat.
Proof using Hstop. intros Hk; apply not_le; intros Hle; specialize (Hstop _ Hle); congruence. Qed.

Context (cfg : tx_cfg) (fuel : nat).
Hypothesis Hfuel : (N < fuel)%nat.

Section base.
Context (base : list handle).
Hypothesis Hbase : Forall not_of_link base.

Lemma open_link_ends l slot auto port w : owns base l w -> lk_sockfd l < 0 -> (exists d, lk_dev l = Some d) ->
  exists o w', tx_open_link fuel l slot auto port w = Some (o, w') /\ reopened_ok base o w' /\ (lg_step w <= lg_step w')%nat.
Proof using Hstop Hfuel.
  intros Ho Hfd [d Hd].
  assert (He : exists o w', tx_open_link fuel l slot auto port w = Some (o, w') /\ (lg_step w <= lg_step w')%nat).
  { unfold tx_open_link; rewrite Hd.
    assert (Hs : exists s1 w1, (if auto then resolve_connected_slot fuel d w else Some (slot, w)) = Some (s1, w1) /\ (lg_step w <= lg_step w1)%nat).
    { destruct auto; [|by exists slot, w]; destruct (resolve_ends script N Hstop fuel d w) as [[s1 w1] E]; [lia|lia|].
      exists s1, w1; split; [done|by eapply resolve_step]. }
    destruct Hs as (s1 & w1 & -> & Hw1); destruct (auto && _); [by eexists _, _|].
    pose proof (open_data_socket_step l s1 port w1) as H2; destruct (open_data_socket l s1 port w1) as [[[r n] l2] w2]; cbn [snd] in H2.
    destruct (negb _); eexists _, _; (split; [done|lia]). }
  destruct He as (o & w' & E & Hs); exists o, w'; split_and!; try done.
  by apply (tx_open_link_ok script base fuel l slot auto port w o w' Ho Hfd (ex_intro _ d Hd)).
Qed.

Lemma wp_open_link l slot auto port w (Q : option reopened -> ledger -> Prop) :
  owns base l w -> lk_sockfd l < 0 -> (exists d, lk_dev l = Some d) ->
  (forall o w', reopened_ok base o w' -> (lg_step w <= lg_step w')%nat -> Q (Some o) w') ->
  wp (fun w => match tx_open_link fuel l slot auto port w with Some (o, w) => (Some o, w) | None => (None, w) end) Q w.
Proof using Hstop Hfuel.
  intros Ho Hfd Hd HQ; unfold wp; destruct (open_link_ends l slot auto port w Ho Hfd Hd) as (o & w' & -> & H1 & H2); by apply HQ.
Qed.

Lemma wp_tx_reconnect l slot auto port w (Q : option reopened -> ledger -> Prop) : owns base l w ->
  (forall o w', reopened_ok base o w' -> (lg_step w <= lg_step w')%nat -> Q (Some o) w') ->
  wp (fun w => match tx_reconnect fuel l slot auto port w with Some (o, w) => (Some o, w) | None => (None, w) end) Q w.
Proof using Hbase Hstop Hfuel.
  intros Ho HQ; pose proof (wp_reconnect script N Hstop base Hbase fuel l w
    (fun r w1 => exists ret l1, r = Some (ret, l1) /\ owns base l1 w1 /\ lk_sockfd l1 < 0 /\ (ret = 0 -> exists d, lk_dev l1 = Some d) /\
       (lg_step w <= lg_step w1)%nat) Ho Hfuel) as Hr.
  unfold wp in Hr; specialize (Hr ltac:(intros; eexists _, _; by split_and!)).
  unfold wp, tx_reconnect; destruct (ar8030_link_reconnect_retry fuel l RETRY_MS w) as [[[ret l1] w1]|]; cbn [fst snd] in Hr;
    destruct Hr as (ret' & l1' & [= <- <-] & Ho1 & Hfd & Hd & Hs).
  destruct (Z.eqb_spec ret 0) as [->|Hne]; cbn [negb]; [|by apply HQ; [split|]].
  destruct (open_link_ends l1 slot auto port w1 Ho1 Hfd (Hd eq_refl)) as (o & w2 & -> & H1 & H2); apply (HQ o w2); (done || lia).
Qed.

Lemma wp_attach held w (Q : option (option Z) -> ledger -> Prop) : holding held w ->
  (forall w', holding held w' -> (lg_step w <= lg_step w')%nat -> Q (Some None) w') ->
  (forall size w', holding (HRing :: held) w' -> (lg_step w <= lg_step w')%nat -> Q (Some (Some size)) w') ->
  wp (attach_loop cfg fuel) Q w.
Proof using Hstop Hfuel.
  intros Hh H0 H1; assert (Hf : (N < lg_step w + fuel)%nat) by lia; assert (Hp : (0 < fuel)%nat) by lia.
  revert w Hh H0 H1 Hf Hp; clear Hfuel; induction fuel as [|n IH]; intros w Hh H0 H1 Hf Hp; [lia|]; cbn [attach_loop].
  apply wp_bind; unfold wp at 1; cbn [g_stop ledger_tx_env fst snd]; apply holding_tick in Hh.
  destruct (an_stop script (lg_step w)) eqn:Es; [apply wp_ret, H0; (done || cbn; lia)|].
  assert (Hn : (lg_step w < N)%nat) by (by apply before_stop).
  apply wp_bind; unfold wp at 1; cbn [ring_attach ledger_tx_ring]; destruct (_ <? 0); cbn [fst snd].
  - apply wp_bind; unfold wp at 1; cbn [modify usleep_ms ledger_sdk fst snd]; apply IH; [by do 2 apply holding_tick| | |cbn; lia|cbn in *; lia].
    + intros w' Hh' Hs; apply H0; cbn in *; (done || lia).
    + intros size w' Hh' Hs; apply H1; cbn in *; (done || lia).
  - apply wp_ret, H1; [apply holding_opened; [|done]; pose proof (ho_next _ _ Hh); cbn in *; lia|cbn; lia].
Qed.
End base.

(** ** A turn of the loop *)

Section turns.
Context (base : list handle).
Hypothesis Hbase : Forall not_of_link base.
Hypothesis Hring : HRing ∉ base.

Lemma wp_txenv {A} (m : M ledger A) (Q : A -> txst ledger -> Prop) x w : wp m (fun a w' => Q a (mk_txst x w')) w -> wp (env m) Q (mk_txst x w).
Proof using Type. unfold wp, env, lift; cbn [Tw]; by destruct (m w). Qed.
Lemma wp_txget {A} (f : tx_loop -> A) (Q : A -> txst ledger -> Prop) x w : Q (f x) (mk_txst x w) -> wp (getT f) Q (mk_txst x w).
Proof using Type. done. Qed.
Lemma wp_txupd f (Q : unit -> txst ledger -> Prop) x w : Q tt (mk_txst (f x) w) -> wp (updT f) Q (mk_txst x w).
Proof using Type. done. Qed.

Definition ring_held (x : tx_loop) : list handle := if bs_ring (tx_bc x) then [HRing] else [].
Definition air_inv (s : txst ledger) : Prop := owns (ring_held (T s) ++ base) (tx_link (T s)) (Tw s).

Lemma quiet_inv s s' : quiet s s' -> air_inv s -> air_inv s' /\ (lg_step (Tw s) <= lg_step (Tw s'))%nat.
Proof using Type.
  intros [Hw Hl Hr] Hi; split; [|apply Hw]; unfold air_inv, ring_held, owns in *; rewrite Hl, Hr; by eapply ticked_holding.
Qed.

(** How an operation of the loop ends. *)
Definition goes (s : txst ledger) (t : turn) (s' : txst ledger) : Prop :=
  t <> Fuel_out /\ air_inv s' /\ (t = Go_on -> bs_ring (tx_bc (T s')) = true) /\ (lg_step (Tw s) <= lg_step (Tw s'))%nat.

Lemma reattach_goes s : air_inv s -> bs_ring (tx_bc (T s)) = true -> wp (reattach cfg fuel) (goes s) s.
Proof using Hbase Hstop Hfuel Hring.
  destruct s as [x w]; unfold air_inv, ring_held; cbn [T Tw]; intros Ho Hr; rewrite Hr in Ho; unfold reattach.
  apply wp_bind, wp_txupd, wp_bind; unfold env_; apply wp_txenv; unfold wp at 1; cbn [ring_destroy ledger_tx_ring fst snd].
  set (x1 := upd_bc _ x); assert (Hx1 : tx_link x1 = tx_link x /\ bs_ring (tx_bc x1) = false) by done; clearbody x1; destruct Hx1 as [Hl1 Hr1].
  apply (owns_closed_one HRing base _ _ I Hring) in Ho; rewrite <- Hl1 in Ho.
  apply wp_bind, wp_txenv, (wp_attach (link_handles (tx_link x1) ++ base)); [exact Ho| |].
  { intros w1 Ho1 Hs1; cbn in Hs1; apply wp_ret; unfold goes, air_inv, ring_held; cbn [T Tw]; rewrite Hr1; split_and!; try done; cbn; lia. }
  intros size w1 Ho1 Hs1; cbn in Hs1; apply owns_cons in Ho1.
  apply wp_bind, wp_txenv; unfold wp at 1; cbn [stat_named_shm open_shm ledger_tx_ring fst snd]; apply (owns_tick (HRing :: base)) in Ho1.
  apply wp_bind, wp_txupd; apply wp_bind, wp_txget; apply wp_bind.
  set (x2 := x1 <| tx_ring_id := _ |>); assert (Hx2 : tx_link x2 = tx_link x1) by done; clearbody x2; rewrite <- Hx2 in Ho1.
  set (w2 := lg_tick w1) in *; assert (Hs2 : (lg_step w1 <= lg_step w2)%nat) by (cbn; lia); clearbody w2.
  assert (Hend : forall x3 w3, tx_link x3 = tx_link x2 -> (lg_step w2 <= lg_step w3)%nat -> owns (HRing :: base) (tx_link x2) w3 ->
    wp (updT (upd_bc (fun b => b <| bs_ring := true |> <| bs_ring_generation := u32 (bs_ring_generation b + 1) |>)) ;; mret Go_on)
      (goes (mk_txst x w)) (mk_txst x3 w3)).
  { intros x3 w3 Hx3 Hs3 Ho3; apply wp_bind, wp_txupd, wp_ret; unfold goes, air_inv, ring_held; cbn [T Tw]; split_and!; [done| |done|lia].
    cbn [upd_bc tx_bc bs_ring tx_link app]; rewrite <- Hx3 in Ho3; exact Ho3. }
  destruct (size =? _); [apply wp_ret; by apply Hend|].
  apply wp_bind, wp_txenv; unfold wp at 1; cbn [grow_buf ledger_tx_ring fst snd]; apply (owns_tick (HRing :: base)) in Ho1.
  destruct (script _ =? 0); [apply wp_txupd; apply Hend; (done || cbn; lia)|].
  apply wp_txenv; unfold wp at 1; cbn [set_g_stop ledger_tx_ring fst snd]; apply Hend; [done|cbn; lia|by apply owns_tick].
Qed.

Lemma no_entry_goes s : air_inv s -> bs_ring (tx_bc (T s)) = true -> wp (no_entry cfg fuel) (goes s) s.
Proof using Hbase Hstop Hfuel Hring.
  intros Hi Hr; unfold no_entry; apply wp_bind; unfold wp at 1.
  assert (Hq : keeps quiet (sending (fun s : send_ctx * ledger => (tt, flush_outq (tc_chunk_payload cfg) s.1 s.2))))
    by (apply quiet_sending; intros [sc w]; apply flush_outq_ticked).
  specialize (Hq s); destruct (sending _ s) as [[] [x w]]; cbn [fst snd] in *; destruct (quiet_inv _ _ Hq Hi) as [Hi1 Hs1].
  rewrite <- (qu_ring _ _ Hq) in Hr; cbn [T Tw] in *; apply wp_bind, wp_txenv; unfold wp at 1; cbn [stat_named_shm open_shm ledger_tx_ring fst snd].
  assert (Hi2 : air_inv (mk_txst x (lg_tick w))) by (by apply owns_tick).
  apply wp_bind, wp_txget; destruct (ring_unchanged _ _); [apply wp_ret; unfold goes; split_and!; (done || cbn; lia)|].
  eapply wp_mono; [by apply reattach_goes|]; intros t s' (G1 & G2 & G3 & G4); unfold goes; cbn in *; split_and!; (done || lia).
Qed.

Lemma reconnect_goes s : air_inv s -> bs_ring (tx_bc (T s)) = true -> wp (reconnect cfg fuel) (goes s) s.
Proof using Hbase Hstop Hfuel Hring.
  destruct s as [x w]; intros Hi Hr; cbn [T] in Hr; unfold air_inv, ring_held in Hi; cbn [T Tw] in Hi; rewrite Hr in Hi.
  unfold reconnect; apply wp_bind, wp_txupd, wp_bind, wp_txget; set (x1 := x <| tx_dead := 0 |>); cbv beta delta [id].
  assert (Hx1 : tx_link x1 = tx_link x /\ bs_ring (tx_bc x1) = true) by done; clearbody x1; destruct Hx1 as [Hl1 Hr1]; rewrite <- Hl1 in Hi.
  assert (Hb : Forall not_of_link ([HRing] ++ base)) by (by constructor).
  apply wp_bind, wp_txenv, (wp_tx_reconnect _ Hb); [exact Hi|]; intros o w1 Ho1 Hs1.
  assert (Hl : forall x2 l, tx_link x2 = l -> bs_ring (tx_bc x2) = true -> owns ([HRing] ++ base) l w1 -> air_inv (mk_txst x2 w1))
    by (intros x2 l Hx Hb2 Ho; unfold air_inv, ring_held; cbn [T Tw]; by rewrite Hb2, Hx).
  destruct o as [l slot|l|l]; cbn [reopened_ok] in Ho1; destruct Ho1 as [Ho1 _]; apply wp_bind, wp_txupd.
  - set (x2 := upd_bc _ _); assert (Hi2 : air_inv (mk_txst x2 w1)) by (by apply (Hl x2 l)); assert (Hr2 : bs_ring (tx_bc x2) = true) by done.
    clearbody x2; apply wp_bind; unfold wp at 1; pose proof (flush_ring_quiet (mk_txst x2 w1)) as Hq.
    destruct (quiet_inv _ _ Hq Hi2) as [Hi3 Hs3]; pose proof (qu_ring _ _ Hq) as Hr3; destruct (flush_ring (mk_txst x2 w1)) as [[] s3].
    cbn [snd T Tw] in *; apply wp_ret; unfold goes; cbn [Tw]; split_and!; [done|done|by rewrite Hr3|lia].
  - apply wp_ret; unfold goes; cbn [Tw]; split_and!; [done|by apply (Hl _ l)|done|done].
  - apply wp_bind; unfold env_; apply wp_txenv; unfold wp at 1; cbn [set_g_stop ledger_tx_ring fst snd].
    apply wp_ret; unfold goes; cbn [Tw]; split_and!; [done| |done|cbn; lia]; apply owns_tick; by apply (Hl _ l).
Qed.

Lemma health_goes s : air_inv s -> bs_ring (tx_bc (T s)) = true -> wp (health_check cfg fuel) (goes s) s.
Proof using Hbase Hstop Hfuel Hring.
  destruct s as [x w]; intros Hi Hr; cbn [T] in Hr; unfold health_check.
  apply wp_bind, wp_txenv; unfold wp at 1; cbn [TxMain.now_monotonic_s ledger_tx_ring fst snd]; apply wp_bind, wp_txget.
  assert (Hi1 : air_inv (mk_txst x (lg_tick w))) by (by apply owns_tick).
  destruct (_ >=? _)%D; [|apply wp_ret; unfold goes; cbn [Tw]; split_and!; (done || cbn; lia)].
  apply wp_bind, wp_txupd, wp_bind, wp_txget, wp_bind, wp_txget; set (x1 := x <| tx_last_health_s := _ |>).
  assert (Hx1 : tx_link x1 = tx_link x /\ bs_ring (tx_bc x1) = bs_ring (tx_bc x) /\ tx_dead x1 = tx_dead x) by done; clearbody x1.
  destruct Hx1 as (Hl1 & Hr1 & _); apply wp_bind.
  assert (Hback : forall w2 (alive : bool), ticked (lg_tick w) w2 ->
    wp (if alive then mret Go_on else reconnect cfg fuel) (goes (mk_txst x w)) (mk_txst x1 w2)).
  { intros w2 alive Hw2; assert (Hi2 : air_inv (mk_txst x1 w2)).
    { unfold air_inv, ring_held, owns in *; cbn [T Tw] in *; rewrite Hl1, Hr1; by eapply ticked_holding. }
    pose proof (tk_step _ _ Hw2); cbn in *; destruct alive; [apply wp_ret; unfold goes; cbn [T Tw]; rewrite Hr1; split_and!; (done || cbn; lia)|].
    eapply wp_mono; [by apply reconnect_goes; [|cbn; rewrite Hr1]|]; intros t s' (G1 & G2 & G3 & G4); unfold goes; cbn in *; split_and!; (done || lia). }
  destruct (_ <=? _); [by apply wp_ret, (Hback _ false)|]; apply wp_txenv.
  assert (Hal : ticked (lg_tick w) (ar8030_link_is_alive (H := SDK) (tx_link x1) (lg_tick w)).2)
    by (unfold ar8030_link_is_alive; destruct (lk_dev _); [apply ticked_tick|done]).
  unfold wp at 1; destruct (ar8030_link_is_alive (tx_link x1) (lg_tick w)) as [alive w3]; by apply Hback.
Qed.

Lemma turn_goes s : air_inv s -> bs_ring (tx_bc (T s)) = true ->
  wp (tx_turn cfg fuel) (fun t s' => goes s t s' /\ (lg_step (Tw s) < lg_step (Tw s'))%nat /\ ((N <= lg_step (Tw s))%nat -> t = Leave)) s.
Proof using Hbase Hstop Hfuel Hring.
  destruct s as [x w]; intros Hi Hr; cbn [T] in Hr; unfold tx_turn.
  apply wp_bind, wp_txenv; unfold wp at 1; cbn [g_stop ledger_tx_env fst snd].
  assert (Hi1 : air_inv (mk_txst x (lg_tick w))) by (by apply owns_tick).
  destruct (an_stop script (lg_step w)) eqn:Es.
  { apply wp_ret; unfold goes; cbn [Tw]; split_and!; (done || cbn; lia). }
  assert (Hn : (lg_step w < N)%nat) by (by apply before_stop).
  apply wp_bind; eapply wp_mono; [by apply health_goes|]; intros t [x1 w1] (Ht & Hi2 & Hr2 & Hs2); cbn [Tw T lg_tick lg_step] in *.
  assert (Hdone : forall t2 s2, goes (mk_txst x1 w1) t2 s2 ->
    goes (mk_txst x w) t2 s2 /\ (lg_step w < lg_step (Tw s2))%nat /\ ((N <= lg_step w)%nat -> t2 = Leave)).
  { intros t2 s2 (G1 & G2 & G3 & G4); unfold goes; cbn [Tw] in *; split_and!; (done || lia). }
  destruct t; [|apply wp_ret, Hdone; by split_and!|done].
  specialize (Hr2 eq_refl); apply wp_bind, wp_txget, wp_bind, wp_txenv; unfold wp at 1; cbn [ring_read_wait ledger_tx_ring fst snd].
  assert (Hi3 : air_inv (mk_txst x1 (lg_tick w1))) by (by apply owns_tick).
  assert (Hdone2 : forall t2 s2, goes (mk_txst x1 (lg_tick w1)) t2 s2 -> goes (mk_txst x1 w1) t2 s2).
  { intros t2 s2 (G1 & G2 & G3 & G4); unfold goes; cbn [Tw lg_tick lg_step] in *; split_and!; (done || lia). }
  destruct (_ <? 0).
  - eapply wp_mono; [by apply no_entry_goes|]; intros t2 s2 G; by apply Hdone, Hdone2.
  - apply wp_bind; unfold wp at 1; pose proof (entry_quiet cfg (data (lg_step w1)) (mk_txst x1 (lg_tick w1))) as Hq.
    destruct (quiet_inv _ _ Hq Hi3) as [Hi4 Hs4]; pose proof (qu_ring _ _ Hq) as Hr4.
    destruct (tx_entry _ _ _) as [[] s4]; cbn [snd T Tw] in *; apply wp_ret, Hdone, Hdone2; unfold goes; cbn [Tw]; split_and!; (done || by rewrite Hr4).
Qed.

Lemma turns_go n : forall s, air_inv s -> bs_ring (tx_bc (T s)) = true -> (N - lg_step (Tw s) < n)%nat ->
  wp (tx_turns cfg fuel n) (fun t s' => t = Leave /\ air_inv s') s.
Proof using Hbase Hstop Hfuel Hring.
  induction n as [|n IH]; intros s Hi Hr Hn; [lia|]; cbn [tx_turns]; apply wp_bind.
  eapply wp_mono; [by apply turn_goes|]; intros t s' ((Ht & Hi' & Hr' & _) & Hs & Hl); destruct t; [|by apply wp_ret|done].
  assert (lg_step (Tw s) < N)%nat by (apply not_le; intros Hle; by specialize (Hl Hle)); apply IH; (by auto) || lia.
Qed.
End turns.
End stopped.

(** ** Start and end *)

Section program.
Context (N : nat).
(** The stop flag is up for good from call [N] on. *)
Hypothesis Hstop : forall k, (N <= k)%nat -> an_stop script k = true.
Context (fuel : nat).
Hypothesis Hfuel : (N < fuel)%nat.

(** What an exit leaves: nothing - or, after a [-p] that is refused, the ring
    and the link with its socket. *)
Definition air_left (refused : Prop) (r : option Z) (w : ledger) : Prop :=
  (r = Some 0 \/ r = Some 1) /\
  (holding [] w \/ (refused /\ r = Some 1 /\ exists l, 0 <= lk_sockfd l /\ holding (HRing :: link_handles l) w)).

Lemma air_left_ret refused c w : c = 0 \/ c = 1 -> holding [] w -> wp (mret (Some c)) (air_left refused) w.
Proof using Type. intros [-> | ->] Hw; apply wp_ret; (split; [|by left]); auto. Qed.

Lemma wp_malloc_or_stop size base l w (Q : option Z -> ledger -> Prop) : owns base l w -> NoDup base ->
  (forall p w', owns (mem p ++ base) l w' -> NoDup (mem p ++ base) -> (lg_step w <= lg_step w')%nat -> Q p w') ->
  wp (malloc_or_stop size) Q w.
Proof using Hfuel.
  intros Ho Hd HQ; unfold malloc_or_stop; apply wp_bind, (wp_alloc script size base l); [done..|]; intros p w1 Ho1 Hd1 Hs1.
  apply wp_bind; unfold when; destruct (bool_decide (p = None)); [unfold wp at 1; cbn [modify set_g_stop ledger_tx_ring fst snd]|apply wp_ret];
    apply wp_ret, HQ; (done || (by apply owns_tick) || (cbn; lia)).
Qed.

Lemma ring_close l c w refused : c = 0 \/ c = 1 -> owns [HRing] l w ->
  wp (_ ← ar8030_link_close l; modify ring_destroy ;; mret (Some c)) (air_left refused) w.
Proof using Type.
  intros Hc Ho; apply wp_bind, (wp_link_close script [HRing]); [by repeat constructor|done|]; intros l' w' Hw.
  apply wp_bind; unfold wp at 1; cbn [modify ring_destroy ledger_tx_ring fst snd]; apply air_left_ret; [done|].
  by apply holding_closed; [apply not_elem_of_nil|].
Qed.

Lemma wp_join t rest l w (Q : unit -> ledger -> Prop) : owns (thr t ++ rest) l w -> NoDup (thr t ++ rest) ->
  (forall w', owns rest l w' -> NoDup rest -> Q tt w') -> wp (join t) Q w.
Proof using Type.
  intros Ho Hd HQ; destruct t as [a|]; [|by apply wp_ret, HQ]; unfold wp; cbn [join modify pthread_join ledger_threads fst snd].
  apply HQ; [by apply thread_joined|by apply list.NoDup_cons in Hd as [_ ?]].
Qed.

Lemma wp_give_mem p rest l w (Q : unit -> ledger -> Prop) : owns (mem p ++ rest) l w -> NoDup (mem p ++ rest) ->
  (forall w', owns rest l w' -> NoDup rest -> Q tt w') -> wp (modify (free p)) Q w.
Proof using Type.
  intros Ho Hd HQ; apply (wp_dealloc script p rest l w Q Ho Hd); intros w' Ho'; apply HQ; [done|by apply list.NoDup_app in Hd as (_ & _ & ?)].
Qed.

Lemma air_give_back bc idr sc co cs rb (b : bool) l w refused : let held := if b then [HRing] else [] in
  owns (held ++ thr bc ++ thr idr ++ thr sc ++ mem co ++ mem cs ++ mem rb) l w ->
  NoDup (held ++ thr bc ++ thr idr ++ thr sc ++ mem co ++ mem cs ++ mem rb) ->
  wp (join bc ;; join idr ;; join sc ;; modify (free co) ;; modify (free cs) ;; modify (free rb) ;;
      _ ← ar8030_link_close l; when b (modify ring_destroy) ;; mret (Some 0)) (air_left refused) w.
Proof using Type.
  intros held Ho Hd.
  assert (Hp : held ++ thr bc ++ thr idr ++ thr sc ++ mem co ++ mem cs ++ mem rb ≡ₚ thr bc ++ thr idr ++ thr sc ++ mem co ++ mem cs ++ mem rb ++ held)
    by (generalize held (mem co) (mem cs) (mem rb) (thr bc) (thr sc) (thr idr); intros; solve_Permutation).
  rewrite Hp in Hd; apply (owns_perm _ _ _ _ Hp) in Ho; clear Hp.
  apply wp_bind, (wp_join bc _ l w _ Ho Hd); clear Ho Hd w; intros w Ho Hd.
  apply wp_bind, (wp_join idr _ l w _ Ho Hd); clear Ho Hd w; intros w Ho Hd.
  apply wp_bind, (wp_join sc _ l w _ Ho Hd); clear Ho Hd w; intros w Ho Hd.
  apply wp_bind, (wp_give_mem co _ l w _ Ho Hd); clear Ho Hd w; intros w Ho Hd.
  apply wp_bind, (wp_give_mem cs _ l w _ Ho Hd); clear Ho Hd w; intros w Ho Hd.
  apply wp_bind, (wp_give_mem rb _ l w _ Ho Hd); clear Ho Hd w; intros w Ho Hd.
  assert (Hb : Forall not_of_link held) by (by subst held; destruct b; repeat constructor).
  apply wp_bind, (wp_link_close script held l w _ Hb Ho); clear Ho Hd w; intros _ w Hw; apply wp_bind; subst held; unfold when; destruct b.
  - unfold wp at 1; cbn [modify ring_destroy ledger_tx_ring fst snd]; apply air_left_ret; [by left|].
    by apply holding_closed; [apply not_elem_of_nil|].
  - apply wp_ret, air_left_ret; auto.
Qed.

Lemma air_run_ends args auto slot size ident l c w refused : owns [HRing] l w ->
  wp (air_run fuel args auto slot size ident l c) (air_left refused) w.
Proof using Hstop Hfuel.
  intros Ho; unfold air_run; apply wp_bind; unfold wp at 1.
  assert (Hf : ticked w (ring_flush w).2).
  { unfold ring_flush; rewrite !bind_run; cbn [ring_mapped ledger_tx_ring fst snd]; unfold when; destruct (_ <? _); constructor; cbn; (done || lia). }
  destruct (ring_flush w) as [flushed w1]; cbn [fst snd] in *; apply (ticked_holding _ _ _ Hf) in Ho; clear Hf w.
  assert (Hd : NoDup [HRing]) by (apply NoDup_singleton); change (owns [HRing] l w1) in Ho.
  apply wp_bind; unfold air_threads; apply wp_bind, (wp_create_if script (ta_sock_bidir args) Idr_thread [HRing] l); [done..|]; intros idr w2 Ho2 Hd2 _.
  apply wp_bind, (wp_create_if script (0 <? ta_sidecar_port args) Sidecar_thread (thr idr ++ [HRing]) l); [done..|]; intros sc w3 Ho3 Hd3 _.
  apply wp_bind, (wp_create_if script true Bitrate_thread (thr sc ++ thr idr ++ [HRing]) l); [done..|]; intros bc w4 Ho4 Hd4 _.
  apply wp_ret, wp_bind, (wp_malloc_or_stop _ (thr bc ++ thr sc ++ thr idr ++ [HRing]) l); [done..|]; intros rb w5 Ho5 Hd5 _.
  apply wp_bind, (wp_malloc_or_stop _ (mem rb ++ thr bc ++ thr sc ++ thr idr ++ [HRing]) l); [done..|]; intros cs w6 Ho6 Hd6 _.
  apply wp_bind, (wp_malloc_or_stop _ (mem cs ++ mem rb ++ thr bc ++ thr sc ++ thr idr ++ [HRing]) l); [done..|]; intros co w7 Ho7 Hd7 _.
  apply wp_bind; unfold wp at 1; cbn [TxMain.now_monotonic_s ledger_tx_ring fst snd]; apply wp_bind; unfold wp at 1.
  set (base := thr bc ++ thr idr ++ thr sc ++ mem co ++ mem cs ++ mem rb).
  assert (Hp : mem co ++ mem cs ++ mem rb ++ thr bc ++ thr sc ++ thr idr ++ [HRing] ≡ₚ [HRing] ++ base).
  { subst base; generalize (mem co) (mem cs) (mem rb) (thr bc) (thr sc) (thr idr); intros a b c1 d e f; solve_Permutation. }
  rewrite Hp in Hd7; apply (owns_perm _ _ _ _ Hp) in Ho7; apply owns_tick in Ho7; set (w8 := lg_tick w7) in *; clearbody w8.
  assert (Hb : Forall not_of_link base).
  { subst base; repeat apply Forall_app_2; first [apply thr_base|apply mem_alone]. }
  assert (Hr : HRing ∉ base) by (by apply list.NoDup_cons in Hd7 as [? _]).
  set (x := tx_loop_init _ _ _ _ _ _); pose proof (turns_go N Hstop (loop_cfg args auto c) fuel Hfuel base Hb Hr fuel (mk_txst x w8)
    Ho7 eq_refl ltac:(clear -Hfuel; lia)) as Hturns; unfold wp in Hturns.
  destruct (tx_turns _ fuel fuel _) as [t s']; cbn [fst snd] in *; destruct Hturns as [-> Hi]; unfold air_inv, ring_held in Hi.
  set (l' := tx_link (T s')) in *; clearbody l'; set (held := if bs_ring (tx_bc (T s')) then [HRing] else []) in Hi.
  assert (Hdh : NoDup (held ++ base)) by (subst held; destruct (bs_ring _); [done|by apply list.NoDup_cons in Hd7 as [_ ?]]).
  apply wp_bind; unfold wp at 1; cbn [modify set_g_stop ledger_tx_ring fst snd]; by apply air_give_back; [apply owns_tick|].
Qed.

Lemma air_start_ends args size w : holding [HRing] w ->
  wp (air_start fuel args size) (air_left (apply_pi_params (tx_args_cfg args) (ta_pi_params args) = None)) w.
Proof using Hstop Hfuel.
  intros Hw; unfold air_start; apply wp_bind; unfold wp at 1; cbn [stat_named_shm open_shm ledger_tx_ring fst snd]; apply holding_tick in Hw.
  assert (Hb : Forall not_of_link [HRing]) by (by repeat constructor).
  apply wp_bind, (wp_connect script N Hstop [HRing] Hb); [done|done|]; intros r l w1 Ho1 Hfd Hd Hcl _; destruct (Z.eqb_spec r 0) as [->|Hr]; cbn [negb].
  2: { apply wp_bind; unfold wp at 1; cbn [modify ring_destroy ledger_tx_ring fst snd]; apply air_left_ret; [by left|].
       apply holding_closed; [apply not_elem_of_nil|]; apply (owns_closed _ l); [by apply Hcl|done]. }
  apply wp_bind, (wp_open_link N Hstop fuel Hfuel [HRing]); [done|done|by apply Hd|]; intros o w2 Ho2 _.
  destruct o as [l2 slot|l2|l2]; cbn [reopened_ok] in Ho2; [|destruct Ho2; apply ring_close; auto..].
  destruct Ho2 as (Ho2 & _ & Hfd2); destruct (apply_pi_params _ _) as [c|]; [by apply air_run_ends|].
  apply wp_ret; split; [by right|right]; split_and!; [done|done|exists l2; split; [done|by apply owns_cons in Ho2; rewrite app_nil_r in Ho2]].
Qed.

Lemma air_program argv w : holding [] w ->
  wp (air_main fuel argv) (air_left (exists args, tx_parse_args argv = Some args /\ apply_pi_params (tx_args_cfg args) (ta_pi_params args) = None)) w.
Proof using Hstop Hfuel.
  intros Hw; unfold air_main; destruct (tx_parse_args argv) as [args|]; [|apply air_left_ret; auto].
  destruct (_ || _); [apply air_left_ret; auto|].
  apply wp_bind, (wp_attach N Hstop _ fuel Hfuel []); [done|intros w1 Hw1 _; apply air_left_ret; auto|intros size w1 Hw1 _].
  eapply wp_mono; [by apply air_start_ends|]; intros r t [G1 [G2|(G2 & G3)]]; (split; [done|]); [by left|right; split; [by exists args|done]].
Qed.
End program.
End ledger.
