(* ===== verification/GroundEnds.v ===== *)
(** The ground video program ends and cleans up ([VideoMain] states it): its
    system as a ledger, the turns of the other threads, what is held from one
    turn of the main loop to the next, and that both threads come to their end. *)

From S2P Require Import Prelude Double ChunkHdr Chunker Reassembly ChunkStream ClockSync SidecarSrv Packetizer.
From S2P Require Import RxMain Link TxSend IdrRelay Os Monad RxLog GroundMain Ledger.
#[local] Open Scope Z_scope.

(** ** The system *)

Section systems.
Context (script : answers) (data : nat -> list Z) (sched : nat -> list thread).

Definition ledger_rx_os : RxOs ledger := {|
  inet_socket := ledger_socket script;
  bind_any := fun _ _ w => (script (lg_step w), lg_tick w);
  bind_loopback := fun _ _ w => (script (lg_step w), lg_tick w);
  poll_recv := fun _ cap _ w =>
    (if script (lg_step w) <? 0 then None else Some (ztake cap (data (lg_step w)), (script (lg_step w), an_more script (lg_step w))), lg_tick w);
  sendto := fun _ _ _ w => lg_tick w;
  answer_sender := fun _ _ w => lg_tick w;
  bb_socket_write_within := fun _ b _ w => (Z.min (script (lg_step w)) (zlen b), lg_tick w);
  clock_sync_now_us := fun w => (script (lg_step w), lg_tick w);
  set_stop := lg_tick;
  scheduled := fun w => (sched (lg_step w), lg_tick w)
|}.

Definition ledger_log : LogOs ledger := {|
  path_size := fun _ w => (if script (lg_step w) <? 0 then None else Some (script (lg_step w)), lg_tick w);
  rename := fun _ _ w => lg_tick w;
  open_log := fun _ w => (0 <? script (lg_step w), lg_tick w);
  stderr_size := fun w => (if script (lg_step w) <? 0 then None else Some (script (lg_step w)), lg_tick w);
  stderr_cut := lg_tick;
  start_rotation := lg_tick
|}.
End systems.

Section ledger.
Context (script : answers) (data : nat -> list Z) (sched : nat -> list thread).
#[local] Abbreviation SDK := (ledger_sdk script).
#[local] Abbreviation OS := (ledger_os script).
#[local] Abbreviation GOS := (ledger_ground_os script data).
#[local] Abbreviation THREADS := (ledger_threads script).
#[local] Abbreviation RXOS := (ledger_rx_os script data sched).
#[local] Abbreviation LOG := (ledger_log script).
#[local] Hint Extern 0 (LinkSdk ledger) => exact SDK : typeclass_instances.
#[local] Hint Extern 0 (ProgramOs ledger) => exact OS : typeclass_instances.
#[local] Hint Extern 0 (GroundOs ledger) => exact GOS : typeclass_instances.
#[local] Hint Extern 0 (Threads ledger) => exact THREADS : typeclass_instances.
#[local] Hint Extern 0 (RxOs ledger) => exact RXOS : typeclass_instances.
#[local] Hint Extern 0 (LogOs ledger) => exact LOG : typeclass_instances.
Context {P : Type} {HP : Packetizer P} (args : rx_args).

(** ** A turn of the relay only takes time *)

#[local] Abbreviation ENV := (relay_env (W := ledger)).
#[local] Hint Extern 0 (RelayEnv ((Z * link) * ledger)) => exact ENV : typeclass_instances.
Implicit Types e : (Z * link) * ledger.

Lemma ctrl_loop_ticked fuel fd buf : forall sent e, ticked e.2 (ctrl_loop fuel fd buf sent e).2.2.
Proof using Type.
  induction fuel as [|fuel IH]; intros sent e; cbn [ctrl_loop]; [done|]; destruct (sent <? zlen buf); [|done].
  cbn [relay_write relay_env bb_socket_write_within ledger_rx_os]; destruct (Z.min _ _ <=? 0); [apply ticked_tick|].
  etrans; [apply ticked_tick|exact (IH _ (e.1, lg_tick e.2))].
Qed.

Lemma relay_send_ticked payload s e : ticked e.2 (relay_send payload s e).2.2.
Proof using Type.
  unfold relay_send; match goal with |- context [ar8030_chunk_frame ?cb ?a ?b ?c ?d ?f ?g ?h e] =>
    assert (Hk : ticked e.2 (ar8030_chunk_frame cb a b c d f g h e).2.2) end.
  { apply (chunk_frame_keeps _ (fun e2 : (Z * link) * ledger => ticked e.2 e2.2)); [|done]; intros e2 b He; etrans; [exact He|].
    unfold ctrl_send; cbn [relay_sockfd relay_env]; destruct (_ <? 0); [done|exact (ctrl_loop_ticked _ _ _ _ e2)]. }
  by destruct (ar8030_chunk_frame _ _ _ _ _ _ _ _ e) as [[? ?] ?].
Qed.

Lemma relay_turn_ticked cfg s e : ticked e.2 (relay_turn cfg s e).2.2.
Proof using Type.
  unfold relay_turn; assert (Hp : ticked e.2 (relay_probe cfg s e).2.2).
  { unfold relay_probe; destruct (rc_sync cfg); [|done]; cbn [relay_now_us relay_env clock_sync_now_us ledger_rx_os].
    destruct (clock_sync_due _ _) as [[[seq t1]|] cs]; [|apply ticked_tick].
    etrans; [apply ticked_tick|exact (relay_send_ticked _ _ (e.1, lg_tick e.2))]. }
  destruct (relay_probe cfg s e) as [s1 e1]; cbn [snd] in Hp; etrans; [exact Hp|].
  unfold relay_request; cbn [relay_recv relay_env poll_recv ledger_rx_os]; destruct (_ <? 0); cbn [fmap option_fmap option_map]; [apply ticked_tick|].
  destruct (relay_token _); [|apply ticked_tick]; etrans; [apply ticked_tick|]; cbn [fst]; etrans; [apply ticked_tick|].
  match goal with |- ticked ?w (relay_send ?p ?s ?e).2.2 => exact (relay_send_ticked p s e) end.
Qed.

(** ** What is held *)

#[local] Abbreviation G := (ground P * ledger)%type.
Implicit Types s : G.

Lemma wp_genv {A} (m : M ledger A) (Q : A -> G -> Prop) g w : wp m (fun a w' => Q a (g, w')) w -> wp (genv m) Q (g, w).
Proof using Type. unfold wp, genv, lift; cbn [fst snd]; by destruct (m w). Qed.
Lemma wp_gget {A} (f : ground P -> A) (Q : A -> G -> Prop) g w : Q (f g) (g, w) -> wp (gget f) Q (g, w).
Proof using Type. done. Qed.
Lemma wp_gupd f (Q : unit -> G -> Prop) g w : Q tt (f g, w) -> wp (gupd f) Q (g, w).
Proof using Type. done. Qed.

Definition udp (fd : Z) : list handle := if 0 <=? fd then [HUdp fd] else [].
Definition relay_held (g : ground P) : list handle := match g_relay g with Relay_running fd _ => udp fd | _ => [] end.

Lemma udp_alone fd : Forall not_of_link (udp fd).
Proof using Type. unfold udp; destruct (0 <=? fd); by repeat constructor. Qed.

(** The tries at the data socket. *)
Lemma rx_open_ok ap base l port w : owns base l w -> lk_sockfd l < 0 -> (exists d, lk_dev l = Some d) ->
  exists r n l' w', rx_open_socket (H := SDK) ap l port w = (r, n, l', w') /\ owns base l' w' /\ (lg_step w <= lg_step w')%nat.
Proof using Type.
  intros Ho Hfd [d Hd]; unfold rx_open_socket, ar8030_link_force_close_socket; rewrite Hd; cbn [bb_force_cls_socket ledger_sdk].
  pose proof (open_tries_owns script base (Z.to_nat SOCKET_REOPEN_MAX_ATTEMPTS) ap port l (-1) 0 (lg_tick w)
    ltac:(by apply owns_tick) Hfd ltac:(by eexists) ltac:(done)) as H1.
  pose proof (open_tries_step script (Z.to_nat SOCKET_REOPEN_MAX_ATTEMPTS) ap port l (-1) 0 (lg_tick w)) as H2.
  destruct (open_tries _ _ _ _ _ _ _) as [[[r t] l'] w']; cbn in H2; destruct H1 as (G1 & _).
  exists r, t, l', w'; split_and!; [done|done|clear -H2; lia].
Qed.

(** A socket that is bound, or closed again. *)
Lemma bound_socket (b : Z -> ledger -> Z * ledger) base l w (Q : Z -> ledger -> Prop) :
  (forall fd w, ticked w (b fd w).2) -> owns base l w -> NoDup base ->
  (forall fd w', owns (udp fd ++ base) l w' -> NoDup (udp fd ++ base) -> (lg_step w <= lg_step w')%nat -> Q fd w') ->
  wp (fd ← inet_socket;
      if fd <? 0 then mret (-1)
      else
        ret ← b fd;
        if negb (ret =? 0) then modify (close_udp fd) ;; mret (-1) else mret fd) Q w.
Proof using Type.
  intros Hb Ho Hd HQ; apply wp_bind; unfold wp at 1; cbn [inet_socket ledger_rx_os]; unfold ledger_socket.
  destruct (Z.ltb_spec (script (lg_step w)) 0) as [Hs|Hs]; cbn [fst snd].
  { rewrite (proj2 (Z.ltb_lt _ _)) by done; apply wp_ret, HQ; [by apply (owns_tick base)|done|cbn; clear; lia]. }
  pose proof (ho_next _ _ Ho) as Hn; rewrite (proj2 (Z.ltb_ge _ _)) by done; set (fd := lg_next w) in *.
  assert (Hd1 : NoDup (HUdp fd :: base)) by (by apply (fresh_nodup _ base l w)).
  assert (Ho1 : owns (HUdp fd :: base) l (lg_opened (HUdp fd) w)) by (by apply owns_cons, holding_opened).
  set (w1 := lg_opened (HUdp fd) w) in *; assert (Hs1 : (lg_step w <= lg_step w1)%nat) by (cbn; clear; lia); clearbody w1.
  apply wp_bind; unfold wp at 1; pose proof (Hb fd w1) as Ht; destruct (b fd w1) as [ret w2]; cbn [fst snd] in *.
  pose proof (tk_step _ _ Ht) as Hs2; pose proof (ticked_holding _ _ _ Ht Ho1) as Ho2; destruct (negb (ret =? 0)).
  - apply wp_bind; unfold wp at 1; cbn [modify close_udp ledger_os fst snd]; apply wp_ret, HQ; [|done|cbn; clear -Hs1 Hs2; lia].
    apply owns_closed_one; [done|by apply list.NoDup_cons in Hd1 as [? _]|exact Ho2].
  - apply wp_ret, HQ; unfold udp; rewrite ?(proj2 (Z.leb_le 0 fd)) by done; [done|done|clear -Hs1 Hs2; lia].
Qed.

Section base.
Context (base : list handle) (sfd : Z) (relay_runs : bool).

(** What every step of the loop and of the threads keeps. *)
Record gr_inv (s : G) : Prop := {
  gi_owns : owns (relay_held s.1 ++ base) (g_link s.1) s.2;
  gi_nodup : NoDup (relay_held s.1 ++ base);
  gi_buf : zlen (s_buf (g_stream s.1)) <= s_cap (g_stream s.1);
  gi_cap : s_cap (g_stream s.1) = ground_stream_cap;
  gi_sfd : g_sidecar_fd s.1 = sfd;
  gi_relay : relay_runs = false -> g_relay s.1 = Relay_done
}.

(** A step that keeps it, and takes time or none. *)
Definition keeps_inv {A} (m : M G A) : Prop := forall s, gr_inv s -> gr_inv (m s).2 /\ (lg_step s.2 <= lg_step (m s).2.2)%nat.

(** What only takes time and leaves what is held where it is. *)
Record idle (s s' : G) : Prop := {
  id_world : ticked s.2 s'.2;
  id_link : g_link s'.1 = g_link s.1;
  id_relay : relay_held s'.1 = relay_held s.1;
  id_done : g_relay s.1 = Relay_done -> g_relay s'.1 = Relay_done;
  id_stream : g_stream s'.1 = g_stream s.1;
  id_sfd : g_sidecar_fd s'.1 = g_sidecar_fd s.1
}.

#[local] Instance idle_preorder : PreOrder idle.
Proof. split; [by intros s; constructor|]; intros s1 s2 s3 [] []; constructor; try congruence; [by etrans|auto]. Qed.

Lemma idle_inv s s' : idle s s' -> gr_inv s -> gr_inv s' /\ (lg_step s.2 <= lg_step s'.2)%nat.
Proof using Type.
  intros [Hw Hl Hr Hd Hst Hf] [H1 H2 H3 H4 H5 H6]; split; [|apply Hw]; constructor; rewrite ?Hl, ?Hr, ?Hst, ?Hf; auto.
  unfold owns in *; by eapply ticked_holding.
Qed.

Lemma idle_keeps {A} (m : M G A) : keeps idle m -> keeps_inv m.
Proof using Type. intros Hm s Hs; exact (idle_inv _ _ (Hm s) Hs). Qed.

Lemma idle_genv {A} (m : M ledger A) : (forall w, ticked w (m w).2) -> keeps idle (genv (P := P) m).
Proof using Type. intros Hm [g w]; specialize (Hm w); unfold genv, lift; cbn [fst snd]; destruct (m w); by constructor. Qed.
Lemma idle_gget {A} (f : ground P -> A) : keeps idle (gget (W := ledger) f).
Proof using Type. by intros s. Qed.
Lemma idle_gupd f : (forall g, g_link (f g) = g_link g /\ g_relay (f g) = g_relay g /\ g_stream (f g) = g_stream g /\ g_sidecar_fd (f g) = g_sidecar_fd g) ->
  keeps idle (gupd (W := ledger) f).
Proof using Type. intros Hf [g w]; destruct (Hf g) as (H1 & H2 & H3 & H4); unfold relay_held; constructor; cbn; unfold relay_held; rewrite ?H2; done. Qed.

Ltac idle_leaf := first
  [ apply idle_gget
  | apply idle_gupd; intros ?; by split_and!
  | apply idle_genv; intros ?; apply ticked_tick
  | unfold_op ].

Lemma sidecar_idle : keeps idle sidecar_step.
Proof using Type. unfold sidecar_step; keeps_walk idle_leaf. Qed.

Lemma chunk_idle h p : keeps idle (ground_chunk args h p).
Proof using Type. unfold ground_chunk; keeps_walk idle_leaf. Qed.

Lemma keeps_inv_bind {A B} (m : M G A) (f : A -> M G B) : keeps_inv m -> (forall a, keeps_inv (f a)) -> keeps_inv (m ≫= f).
Proof using Type.
  intros Hm Hf s Hs; specialize (Hm s Hs); rewrite bind_run; destruct (m s) as [a s1]; cbn [fst snd] in *; destruct Hm as [H1 H2].
  destruct (Hf a s1 H1); split; [done|by etrans].
Qed.

Lemma relay_keeps : keeps_inv (relay_step args).
Proof using Type.
  intros [g w] Hs; change (wp (relay_step args) (fun _ s' => gr_inv s' /\ (lg_step w <= lg_step s'.2)%nat) (g, w)).
  unfold relay_step; apply wp_bind, wp_gget; pose proof Hs as [Ho Hd Hb Hc Hf Hr]; cbn [fst snd] in *; unfold relay_held in Ho, Hd.
  destruct (g_relay g) as [|fd seq|] eqn:Eg; cbn [app] in *.
  - assert (Hopen : forall fd w1, owns (udp fd ++ base) (g_link g) w1 -> NoDup (udp fd ++ base) -> (lg_step w <= lg_step w1)%nat ->
      wp (gupd (fun g => g <| g_relay := Relay_running fd 0 |>)) (fun _ s' => gr_inv s' /\ (lg_step w <= lg_step s'.2)%nat) (g, w1)).
    { intros fd w1 Ho1 Hd1 Hs1; apply wp_gupd; split; [|done]; constructor; try done; intros Hf1; by specialize (Hr Hf1). }
    apply wp_bind; destruct (0 <? _); [apply wp_genv, (bound_socket (fun fd => bind_any fd _) base (g_link g)); try done; intros; apply ticked_tick|].
    by apply wp_ret, Hopen.
  - apply wp_bind, wp_genv; unfold wp at 1; cbn [stop_flag ledger_sdk fst snd]; assert (Ho1 : owns (udp fd ++ base) (g_link g) (lg_tick w)) by (by apply owns_tick).
    set (w1 := lg_tick w) in *; assert (Hs1 : (lg_step w <= lg_step w1)%nat) by (cbn; clear; lia); clearbody w1.
    destruct (an_stop script _).
    + apply wp_bind; assert (Hend : forall w2, owns base (g_link g) w2 -> (lg_step w <= lg_step w2)%nat ->
        wp (gupd (fun g => g <| g_relay := Relay_done |>)) (fun _ s' => gr_inv s' /\ (lg_step w <= lg_step s'.2)%nat) (g, w2)).
      { intros w2 Ho2 Hs2; apply wp_gupd; split; [|done]; constructor; try done; cbn; by apply list.NoDup_app in Hd as (_ & _ & ?). }
      unfold udp, when in *; destruct (0 <=? fd); [|by apply wp_ret, Hend].
      apply wp_genv; unfold wp at 1; cbn [modify close_udp ledger_os fst snd]; apply Hend; [|cbn; clear -Hs1; lia].
      apply owns_closed_one; [done|by apply list.NoDup_cons in Hd as [? _]|exact Ho1].
    + unfold wp; match goal with |- context [relay_turn ?c ?r ?e] => pose proof (relay_turn_ticked c r e) as Ht; destruct (relay_turn c r e) as [ry [x w2]] end.
      cbn [snd] in Ht; pose proof (tk_step _ _ Ht); cbn [fst snd] in *; split; [|by etrans].
      constructor; try done; [exact (ticked_holding _ _ _ Ht Ho1)|]; intros Hf1; by specialize (Hr Hf1).
  - by apply wp_ret.
Qed.

Lemma thread_keeps t : keeps_inv (thread_step args t).
Proof using Type. destruct t; [by intros s|apply relay_keeps|apply idle_keeps, sidecar_idle]. Qed.

Lemma others_keep : keeps_inv (other_threads args).
Proof using Type.
  apply keeps_inv_bind; [apply idle_keeps, idle_genv; intros; apply ticked_tick|]; intros ts; induction ts as [|t ts IH]; [by intros s|].
  apply keeps_inv_bind; [apply thread_keeps|done].
Qed.

(** ** A turn of the main loop *)

Section stopped.
Context (N : nat).
(** The stop flag is up for good from call [N] on. *)
Hypothesis Hstop : forall k, (N <= k)%nat -> an_stop script k = true.
Context (ap : Z) (fuel : nat).
Hypothesis Hfuel : (N < fuel)%nat.
Hypothesis Hbase : Forall not_of_link base.

Definition going (s : G) (t : turn) (s' : G) : Prop := t <> Fuel_out /\ gr_inv s' /\ (lg_step s.2 <= lg_step s'.2)%nat.

Lemma relay_held_base g : Forall not_of_link (relay_held g ++ base).
Proof using Hbase. apply Forall_app_2; [|done]; unfold relay_held; destruct (g_relay g); [constructor|apply udp_alone|constructor]. Qed.

Lemma wp_rx_reconnect held l port w (Q : option reopened -> ledger -> Prop) : Forall not_of_link held -> owns held l w ->
  (forall o w', match o with Reopened l _ | Stopped l | Reopen_failed l => owns held l w' end -> (lg_step w <= lg_step w')%nat -> Q (Some o) w') ->
  wp (fun w => match rx_reconnect ap fuel l port w with Some (o, w) => (Some o, w) | None => (None, w) end) Q w.
Proof using Hstop Hfuel.
  intros Hb Ho HQ; pose proof (wp_reconnect script N Hstop held Hb fuel l w
    (fun r w1 => exists ret l1, r = Some (ret, l1) /\ owns held l1 w1 /\ lk_sockfd l1 < 0 /\ (ret = 0 -> exists d, lk_dev l1 = Some d) /\
       (lg_step w <= lg_step w1)%nat) Ho Hfuel) as Hr.
  unfold wp in Hr; specialize (Hr ltac:(intros; eexists _, _; by split_and!)).
  unfold wp, rx_reconnect; destruct (ar8030_link_reconnect_retry fuel l RETRY_MS w) as [[[ret l1] w1]|]; cbn [fst snd] in Hr;
    destruct Hr as (ret' & l1' & [= <- <-] & Ho1 & Hfd & Hd & Hs).
  destruct (Z.eqb_spec ret 0) as [->|Hne]; cbn [negb]; [|by apply (HQ (Stopped l1) w1)].
  destruct (rx_open_ok ap held l1 port w1 Ho1 Hfd (Hd eq_refl)) as (r2 & n2 & l2 & w2 & E & Ho2 & Hs2); rewrite E.
  destruct (negb (r2 =? 0)); [apply (HQ (Reopen_failed l2) w2)|apply (HQ (Reopened l2 ap) w2)]; (done || clear -Hs Hs2; lia).
Qed.

Lemma health_going s : gr_inv s -> wp (ground_health ap args fuel) (going s) s.
Proof using Hstop Hfuel Hbase.
  destruct s as [g w]; intros Hi; unfold ground_health; apply wp_bind, wp_genv; unfold wp at 1; cbn [now_monotonic_s ledger_os fst snd].
  apply wp_bind, wp_gget; assert (Hi1 : forall g1 w1, ticked w w1 -> g_link g1 = g_link g -> g_relay g1 = g_relay g -> g_stream g1 = g_stream g ->
    g_sidecar_fd g1 = g_sidecar_fd g -> gr_inv (g1, w1) /\ (lg_step w <= lg_step w1)%nat).
  { intros g1 w1 Hw1 H1 H2 H3 H4; apply (idle_inv (g, w) (g1, w1)); [|done]; constructor; cbn; unfold relay_held; rewrite ?H2; done. }
  destruct (_ >=? _)%D.
  2: { apply wp_ret; destruct (Hi1 g (lg_tick w) (ticked_tick w)) as [H1 H2]; try done; by split_and!. }
  apply wp_bind, wp_gupd, wp_bind, wp_gget; set (g1 := g <| g_last_health_s := _ |>).
  assert (Hg1 : g_link g1 = g_link g /\ g_relay g1 = g_relay g /\ g_stream g1 = g_stream g /\ g_sidecar_fd g1 = g_sidecar_fd g) by done.
  clearbody g1; destruct Hg1 as (E1 & E2 & E3 & E4); apply wp_bind, wp_genv.
  assert (Hal : ticked w (ar8030_link_is_alive (H := SDK) (g_link g1) (lg_tick w)).2)
    by (etrans; [apply ticked_tick|]; unfold ar8030_link_is_alive; destruct (lk_dev _); [apply ticked_tick|done]).
  unfold wp at 1; destruct (ar8030_link_is_alive (g_link g1) (lg_tick w)) as [alive w1]; cbn [fst snd] in *.
  destruct (Hi1 g1 w1 Hal E1 E2 E3 E4) as [Hi2 Hs1]; destruct alive; [apply wp_ret; by split_and!|].
  apply wp_bind, wp_genv, (wp_rx_reconnect (relay_held g1 ++ base)); [apply relay_held_base|exact (gi_owns _ Hi2)|]; intros o w2 Ho2 Hs2.
  assert (Hset : forall l w3, owns (relay_held g1 ++ base) l w3 -> gr_inv (g1 <| g_link := l |>, w3)).
  { intros l w3 Ho3; destruct Hi2 as [_ K2 K3 K4 K5 K6]; by constructor. }
  destruct o as [l ?|l|l]; apply wp_bind, wp_gupd.
  - apply wp_ret; split_and!; [done|by apply Hset|cbn in *; clear -Hs1 Hs2; lia].
  - apply wp_ret; split_and!; [done|by apply Hset|cbn in *; clear -Hs1 Hs2; lia].
  - apply wp_bind, wp_genv; unfold wp at 1; cbn [modify set_stop ledger_rx_os fst snd]; apply wp_ret; split_and!; [done| |cbn in *; clear -Hs1 Hs2; lia].
    by apply Hset, (owns_tick (relay_held g1 ++ base)).
Qed.

Lemma ground_turn_going s : gr_inv s -> (read_fuel N ground_stream_cap <= fuel)%nat ->
  wp (ground_turn ap args fuel) (fun t s' => going s t s' /\ (lg_step s.2 < lg_step s'.2)%nat /\ ((N <= lg_step s.2)%nat -> t = Leave)) s.
Proof using Hstop Hfuel Hbase.
  intros Hi0 Hf; unfold read_fuel in Hf; rewrite Nat.mul_succ_l in Hf; unfold ground_turn; apply wp_bind; unfold wp at 1.
  destruct (others_keep s Hi0) as [Hi Hs0]; destruct (other_threads args s) as [[] [g w]]; cbn [fst snd] in *.
  apply wp_bind, wp_genv; unfold wp at 1; cbn [stop_flag ledger_sdk fst snd].
  destruct (idle_inv (g, w) (g, lg_tick w)) as [Hi1 _]; [constructor; try done; apply ticked_tick|done|].
  destruct (an_stop script (lg_step w)) eqn:Es.
  { apply wp_ret; split_and!; [split_and!; [done|done|cbn; clear -Hs0; lia]|cbn; clear -Hs0; lia|done]. }
  assert (Hn : (lg_step w < N)%nat) by (apply not_le; intros Hle; specialize (Hstop _ Hle); congruence).
  apply wp_bind; eapply wp_mono; [by apply health_going|]; intros t [g1 w1] (Ht & Hi2 & Hs1); cbn [fst snd lg_tick lg_step] in *.
  assert (Hdone : forall t s2, t <> Fuel_out -> gr_inv s2 -> (lg_step w1 <= lg_step s2.2)%nat ->
    going s t s2 /\ (lg_step s.2 < lg_step s2.2)%nat /\ ((N <= lg_step s.2)%nat -> t = Leave)).
  { intros t2 s2 G1 G2 G3; split_and!; [split_and!; [done|done|clear -Hs0 Hs1 G3; lia]|clear -Hs0 Hs1 G3; lia|clear -Hn Hs0; lia]. }
  destruct t; [|by apply wp_ret, Hdone|done].
  apply wp_bind; unfold wp at 1, ground_stream_read; pose proof Hi2 as [Ho2 Hd2 Hb2 Hc2 Hf2 Hr2]; cbn [fst snd] in *.
  destruct (stream_read_ends script data N Hstop (lk_sockfd (g_link g1)) STREAM_READ_TIMEOUT_MS fuel (g_stream g1) w1) as (res & st' & w3 & E & Hw3 & Hb3 & Hc3).
  { split; [done|]; by rewrite Hc2. }
  { rewrite Hc2 in *; assert (Z.to_nat (zlen (s_buf (g_stream g1))) <= Z.to_nat ground_stream_cap)%nat by (clear -Hb2; lia).
    assert ((N - lg_step w1) * S (Z.to_nat ground_stream_cap) <= N * S (Z.to_nat ground_stream_cap))%nat by (apply Nat.mul_le_mono_r; clear; lia).
    clear -H H0 Hf; lia. }
  rewrite E; cbn [fst snd]; pose proof (tk_step _ _ Hw3) as Hs3.
  assert (Hok : gr_inv (g1 <| g_stream := st' |>, w3)).
  { constructor; [exact (ticked_holding _ _ _ Hw3 Ho2)|exact Hd2|exact Hb3|exact (eq_trans Hc3 Hc2)|exact Hf2|exact Hr2]. }
  destruct res as [h p| |]; [|by apply wp_ret, Hdone..].
  apply wp_bind; unfold wp at 1; destruct (idle_inv _ _ (chunk_idle h p (g1 <| g_stream := st' |>, w3)) Hok) as [Hi4 Hs4].
  destruct (ground_chunk args h p _) as [[] s4]; cbn [fst snd] in *; apply wp_ret, Hdone; [done|done|clear -Hs3 Hs4; lia].
Qed.

Lemma ground_turns_going n : forall s, gr_inv s -> (read_fuel N ground_stream_cap <= fuel)%nat -> (N - lg_step s.2 < n)%nat ->
  wp (ground_turns ap args fuel n) (fun t s' => t = Leave /\ gr_inv s') s.
Proof using Hstop Hfuel Hbase.
  induction n as [|n IH]; intros s Hi Hf Hn; [lia|]; cbn [ground_turns]; apply wp_bind.
  eapply wp_mono; [by apply ground_turn_going|]; intros t s' ((Ht & Hi' & _) & Hs & Hl); destruct t; [|by apply wp_ret|done].
  assert (lg_step s.2 < N)%nat by (apply not_le; intros Hle; by specialize (Hl Hle)); apply IH; (done || lia).
Qed.

(** ** The threads come to their end *)

Lemma relay_running_step fd seq s : gr_inv s -> g_relay s.1 = Relay_running fd seq ->
  let s' := (relay_step args s).2 in
  relay_over s'.1 = true \/ (exists seq', g_relay s'.1 = Relay_running fd seq') /\ (lg_step s.2 < N)%nat /\ (lg_step s.2 < lg_step s'.2)%nat.
Proof using Hstop.
  destruct s as [g w]; intros Hi Hr; cbn [fst snd] in *; unfold relay_step; rewrite !bind_run; cbn [gget gets fst snd]; rewrite Hr.
  rewrite !bind_run; cbn [genv lift stop_flag ledger_sdk fst snd]; destruct (an_stop script (lg_step w)) eqn:Es.
  - left; rewrite bind_run; by destruct (when _ _ _) as [[] [g2 w2]].
  - right; match goal with |- context [relay_turn ?c ?r ?e] => pose proof (relay_turn_ticked c r e) as Ht; destruct (relay_turn c r e) as [ry [x w2]] end.
    cbn [fst snd] in *; pose proof (tk_step _ _ Ht) as Hs; cbn in Hs; split; [by eexists|]; split; [|clear -Hs; lia].
    apply not_le; intros Hle; specialize (Hstop _ Hle); congruence.
Qed.

Lemma relay_joins n : forall s, gr_inv s -> (N - lg_step s.2 + 2 < n)%nat ->
  wp (run_out (relay_step args) relay_over n) (fun ok s' => ok = true /\ gr_inv s' /\ relay_over s'.1 = true /\ (lg_step s.2 <= lg_step s'.2)%nat) s.
Proof using Hstop.
  assert (Hrun : forall n s fd seq, gr_inv s -> g_relay s.1 = Relay_running fd seq -> (N - lg_step s.2 + 1 < n)%nat ->
    wp (run_out (relay_step args) relay_over n) (fun ok s' => ok = true /\ gr_inv s' /\ relay_over s'.1 = true /\ (lg_step s.2 <= lg_step s'.2)%nat) s).
  { clear n; induction n as [|n IH]; intros [g w] fd seq Hi Hr Hn; [clear -Hn; lia|]; cbn [run_out]; apply wp_bind, wp_gget; cbn [id fst snd] in *.
    unfold relay_over at 1; rewrite Hr; apply wp_bind; unfold wp at 1; destruct (relay_keeps (g, w) Hi) as [Hi1 Hs1].
    destruct (relay_running_step fd seq (g, w) Hi Hr) as [Hov|((seq' & Hr1) & Hlt & Hs2)]; destruct (relay_step args (g, w)) as [[] [g1 w1]]; cbn [fst snd] in *.
    - destruct n; cbn [run_out]; apply wp_bind, wp_gget; cbn [id]; rewrite Hov; by apply wp_ret.
    - eapply wp_mono; [apply (IH (g1, w1) fd seq' Hi1 Hr1); cbn; clear -Hn Hlt Hs2; lia|]; cbn; intros ok s' (K1 & K2 & K3 & K4); split_and!; try done.
      clear -Hs1 K4; lia. }
  intros [g w] Hi Hn; destruct (g_relay g) as [|fd seq|] eqn:Er.
  - destruct n as [|n]; [clear -Hn; lia|]; cbn [run_out]; apply wp_bind, wp_gget; cbn [id fst snd] in *; unfold relay_over at 1; rewrite Er.
    apply wp_bind; unfold wp at 1; destruct (relay_keeps (g, w) Hi) as [Hi1 Hs1].
    assert (Hr1 : exists fd, g_relay (relay_step args (g, w)).2.1 = Relay_running fd 0).
    { unfold relay_step; rewrite !bind_run; cbn [gget gets fst snd]; rewrite Er, bind_run; eexists; reflexivity. }
    destruct Hr1 as [fd Hr1]; destruct (relay_step args (g, w)) as [[] [g1 w1]]; cbn [fst snd] in *.
    eapply wp_mono; [apply (Hrun n (g1, w1) fd 0 Hi1 Hr1); cbn; clear -Hn Hs1; lia|]; cbn; intros ok s' (K1 & K2 & K3 & K4); split_and!; try done.
    clear -Hs1 K4; lia.
  - apply (Hrun n (g, w) fd seq Hi Er); cbn in *; clear -Hn; lia.
  - assert (Ho : relay_over g = true) by (unfold relay_over; by rewrite Er).
    destruct n; cbn [run_out]; apply wp_bind, wp_gget; cbn [id]; rewrite Ho; by apply wp_ret.
Qed.

(** A turn of the sidecar server either ends it or takes time before the stop. *)
Lemma sidecar_running_step s : g_sidecar_runs s.1 = true ->
  let s' := (sidecar_step s).2 in sidecar_over s'.1 = true \/ (lg_step s.2 < N)%nat /\ (lg_step s.2 < lg_step s'.2)%nat.
Proof using Hstop.
  destruct s as [g w]; cbn [fst snd]; intros Hr; unfold sidecar_step; rewrite !bind_run; cbn [gget gets fst snd]; rewrite Hr; cbn [negb].
  rewrite !bind_run; cbn [genv lift stop_flag ledger_sdk fst snd]; destruct (an_stop script (lg_step w)) eqn:Es; [by left|right].
  split; [apply not_le; intros Hle; specialize (Hstop _ Hle); congruence|].
  match goal with |- (_ < lg_step (?m ?s0).2.2)%nat => assert (Hk : keeps idle m) by (keeps_walk idle_leaf); destruct (Hk s0) as [Ht _ _ _ _ _] end.
  pose proof (tk_step _ _ Ht) as Hs; cbn in Hs |- *; clear -Hs; lia.
Qed.

Lemma sidecar_joins n : forall s, gr_inv s -> (N - lg_step s.2 + 1 < n)%nat ->
  wp (run_out sidecar_step sidecar_over n)
    (fun ok s' => ok = true /\ gr_inv s' /\ (g_relay s.1 = Relay_done -> g_relay s'.1 = Relay_done)) s.
Proof using Hstop.
  induction n as [|n IH]; intros [g w] Hi Hn; [clear -Hn; lia|]; cbn [run_out]; apply wp_bind, wp_gget; cbn [id fst snd] in *.
  unfold sidecar_over at 1; destruct (g_sidecar_runs g) eqn:Er; cbn [negb]; [|by apply wp_ret].
  apply wp_bind; unfold wp at 1; pose proof (sidecar_idle (g, w)) as Hq; destruct (idle_inv _ _ Hq Hi) as [Hi1 Hs1].
  pose proof (id_done _ _ Hq) as Hd; destruct (sidecar_running_step (g, w) Er) as [Hov|[Hlt Hs2]];
    destruct (sidecar_step (g, w)) as [[] [g1 w1]]; cbn [fst snd] in *.
  - destruct n; cbn [run_out]; apply wp_bind, wp_gget; cbn [id]; rewrite Hov; by apply wp_ret.
  - eapply wp_mono; [apply (IH (g1, w1) Hi1); cbn; clear -Hn Hlt Hs2; lia|]; cbn; intros ok s' (K1 & K2 & K3); split_and!; auto.
Qed.
End stopped.
End base.

(** ** Start and end *)

Section program.
Context (N : nat).
(** The stop flag is up for good from call [N] on. *)
Hypothesis Hstop : forall k, (N <= k)%nat -> an_stop script k = true.
Context (ap : Z) (fuel : nat).
Hypothesis Hfuel : (read_fuel N ground_stream_cap <= fuel)%nat.
Context (rtp_open : Z -> Z -> M ledger P).
Hypothesis Hrtp : forall fd m w, ticked w (rtp_open fd m w).2.

Lemma inv_perm base base' sfd ri s : base ≡ₚ base' -> gr_inv base sfd ri s -> gr_inv base' sfd ri s.
Proof using Type. intros Hp [H1 H2 H3 H4 H5 H6]; constructor; try done; [unfold owns in *; by rewrite <- Hp|by rewrite <- Hp]. Qed.

Lemma inv_drop h base sfd ri g w : not_of_link h -> gr_inv (h :: base) sfd ri (g, w) -> gr_inv base sfd ri (g, lg_closed h w).
Proof using Type.
  intros Hh [H1 H2 H3 H4 H5 H6]; cbn [fst snd] in *; assert (Hp : relay_held g ++ h :: base ≡ₚ h :: relay_held g ++ base) by (symmetry; apply Permutation_middle).
  rewrite Hp in H2; apply (owns_perm _ _ _ _ Hp) in H1; apply list.NoDup_cons in H2 as [Hn Hd]; constructor; try done; by apply owns_closed_one.
Qed.

Lemma inv_tick base sfd ri g w : gr_inv base sfd ri (g, w) -> gr_inv base sfd ri (g, lg_tick w).
Proof using Type. intros Hi; apply (idle_inv base sfd ri (g, w)); [constructor; try done; apply ticked_tick|done]. Qed.

Definition bufs_held (bufs : list (option Z)) : list handle := concat (mem <$> bufs).

Lemma free_bufs base sfd ri (Q : unit -> G -> Prop) g bufs : forall w, gr_inv (bufs_held bufs ++ base) sfd ri (g, w) ->
  (forall w', gr_inv base sfd ri (g, w') -> Q tt (g, w')) -> wp (mfor (fun p => genv (modify (free p))) bufs) Q (g, w).
Proof using Type.
  induction bufs as [|p bufs IH]; intros w Hi HQ; [by apply HQ|]; cbn [mfor]; apply wp_bind, wp_genv; unfold wp at 1.
  cbn [modify free ledger_os fst snd]; apply IH; [|done]; unfold bufs_held in Hi; cbn [fmap list_fmap concat] in Hi; destruct p as [a|]; [|by apply inv_tick].
  by apply inv_drop in Hi.
Qed.

Lemma ground_end_ends udp_fd bufs idr sc sfd g w :
  gr_inv (bufs_held bufs ++ HUdp udp_fd :: thr idr ++ thr sc ++ udp sfd) sfd (bool_decide (idr <> None)) (g, w) ->
  wp (ground_end args fuel udp_fd bufs idr sc) (fun r s' => ended r s'.2) (g, w).
Proof using Hstop Hfuel.
  intros Hi; unfold read_fuel in Hfuel; rewrite Nat.mul_succ_l in Hfuel; assert (Hf : (N + 3 <= fuel)%nat).
  { assert (H3 : (3 <= Z.to_nat ground_stream_cap)%nat) by (change 3%nat with (Z.to_nat 3); apply Z2Nat.inj_le; done).
    clear -Hfuel H3; nia. }
  unfold ground_end; apply wp_bind, (free_bufs _ sfd _ _ g bufs w Hi); clear Hi w; intros w Hi.
  apply wp_bind, wp_genv; unfold wp at 1; cbn [modify close_udp ledger_os fst snd]; apply inv_drop in Hi; [|done]; set (w1 := lg_closed _ w) in *; clearbody w1.
  apply wp_bind, wp_genv; unfold wp at 1; cbn [modify set_stop ledger_rx_os fst snd]; apply inv_tick in Hi; set (w2 := lg_tick w1) in *; clearbody w2.
  assert (Hrelay : wp (join_thread (relay_step args) relay_over fuel idr)
    (fun ok s' => ok = true /\ gr_inv (thr sc ++ udp sfd) sfd (bool_decide (idr <> None)) s' /\ g_relay s'.1 = Relay_done) (g, w2)).
  { destruct idr as [a|]; unfold join_thread; [|apply wp_ret; split_and!; [done|done|by apply (gi_relay _ _ _ _ Hi)]].
    apply wp_bind; eapply wp_mono; [apply (relay_joins _ _ _ N Hstop fuel (g, w2) Hi); cbn; clear -Hf; lia|]; cbn; intros ok [g3 w3] (-> & Hi3 & Hov & _).
    apply wp_bind, wp_genv; unfold wp at 1; cbn [modify pthread_join ledger_threads fst snd]; apply wp_ret; split_and!; [done|by apply inv_drop in Hi3|].
    cbn [fst] in *; unfold relay_over in Hov; by destruct (g_relay g3). }
  apply wp_bind; eapply wp_mono; [exact Hrelay|]; clear Hi Hrelay; intros ok1 [g3 w3] (-> & Hi & Hdone); cbn [fst] in Hdone.
  assert (Hsc : wp (join_thread sidecar_step sidecar_over fuel sc)
    (fun ok s' => ok = true /\ gr_inv (udp sfd) sfd (bool_decide (idr <> None)) s' /\ g_relay s'.1 = Relay_done) (g3, w3)).
  { destruct sc as [a|]; unfold join_thread; [|by apply wp_ret].
    apply wp_bind; eapply wp_mono; [apply (sidecar_joins _ _ _ N Hstop fuel (g3, w3) Hi); cbn; clear -Hf; lia|]; cbn; intros ok [g4 w4] (-> & Hi4 & Hd4).
    apply wp_bind, wp_genv; unfold wp at 1; cbn [modify pthread_join ledger_threads fst snd]; apply wp_ret; split_and!; [done|by apply inv_drop in Hi4|auto]. }
  apply wp_bind; eapply wp_mono; [exact Hsc|]; clear Hi Hsc Hdone; intros ok2 [g4 w4] (-> & Hi & Hdone); cbn [fst] in Hdone.
  apply wp_bind, wp_gget; rewrite (gi_sfd _ _ _ _ Hi : g_sidecar_fd g4 = sfd); apply wp_bind.
  assert (Hclose : forall w5, gr_inv [] sfd (bool_decide (idr <> None)) (g4, w5) ->
    wp (l ← gget g_link; _ ← genv (ar8030_link_close l); mret (if true && true then Some 0 else None)) (fun r s' => ended r s'.2) (g4, w5)).
  { intros w5 Hi5; apply wp_bind, wp_gget, wp_bind, wp_genv; pose proof (gi_owns _ _ _ _ Hi5) as Ho; cbn [fst snd] in Ho; unfold relay_held in Ho; rewrite Hdone in Ho.
    apply (wp_link_close script [] _ _ _ ltac:(done) Ho); intros l' w6 Hw; apply wp_ret; cbn [andb snd]; split; [by left|done]. }
  unfold when, udp in *; destruct (0 <=? sfd); [|by apply wp_ret, Hclose].
  apply wp_genv; unfold wp at 1; cbn [modify close_udp ledger_os fst snd]; by apply Hclose, inv_drop.
Qed.

Lemma fuel_enough : (N < fuel)%nat.
Proof using Hfuel. unfold read_fuel in Hfuel; rewrite Nat.mul_succ_l in Hfuel; clear -Hfuel; nia. Qed.

Lemma ground_threads_end udp_fd rtp bufs l w : owns (bufs_held bufs ++ [HUdp udp_fd]) l w -> NoDup (bufs_held bufs ++ [HUdp udp_fd]) ->
  Forall not_of_link (bufs_held bufs) -> wp (ground_threads ap args fuel udp_fd rtp bufs l) ended w.
Proof using Hstop Hfuel.
  intros Ho Hd Hm; unfold ground_threads; set (b0 := bufs_held bufs ++ [HUdp udp_fd]) in *.
  apply wp_bind, (wp_create_if script true Idr_thread b0 l); [done..|]; intros idr w1 Ho1 Hd1 _.
  apply wp_bind; assert (Hsock : forall (Q : Z -> ledger -> Prop), (forall sfd w2, owns (udp sfd ++ thr idr ++ b0) l w2 -> NoDup (udp sfd ++ thr idr ++ b0) -> Q sfd w2) ->
    wp (open_sidecar_socket (ga_sidecar_port args)) Q w1).
  { intros Q HQ; unfold open_sidecar_socket; destruct (_ <=? 0); [by apply wp_ret, HQ|].
    apply (bound_socket (fun fd => bind_loopback fd _) (thr idr ++ b0) l); try done; [intros; apply ticked_tick|]; intros; by apply HQ. }
  apply Hsock; clear Hsock Ho1 Hd1 w1; intros sfd w2 Ho2 Hd2.
  apply wp_bind, (wp_create_if script (0 <=? sfd) Sidecar_thread (udp sfd ++ thr idr ++ b0) l); [done..|]; intros sc w3 Ho3 Hd3 _.
  apply wp_bind; unfold wp at 1; cbn [now_monotonic_s ledger_os fst snd]; apply (owns_tick (thr sc ++ udp sfd ++ thr idr ++ b0)) in Ho3.
  set (w4 := lg_tick w3) in *; clearbody w4; set (g := ground_init _ _ _ _ _ _ _).
  assert (Hp : thr sc ++ udp sfd ++ thr idr ++ b0 ≡ₚ bufs_held bufs ++ HUdp udp_fd :: thr idr ++ thr sc ++ udp sfd).
  { subst b0; change (HUdp udp_fd :: thr idr ++ thr sc ++ udp sfd) with ([HUdp udp_fd] ++ thr idr ++ thr sc ++ udp sfd).
    generalize [HUdp udp_fd] (bufs_held bufs) (thr idr) (thr sc) (udp sfd); intros; solve_Permutation. }
  assert (Hi : gr_inv (bufs_held bufs ++ HUdp udp_fd :: thr idr ++ thr sc ++ udp sfd) sfd (bool_decide (idr <> None)) (g, w4)).
  { subst g; apply (inv_perm (thr sc ++ udp sfd ++ thr idr ++ b0)); [done|]; destruct idr as [a|]; (constructor; [exact Ho3|exact Hd3|done|done|done|done]). }
  clearbody g; assert (Hb : Forall not_of_link (bufs_held bufs ++ HUdp udp_fd :: thr idr ++ thr sc ++ udp sfd)).
  { apply Forall_app_2; [done|]; constructor; [done|]; repeat apply Forall_app_2; [apply thr_base|apply thr_base|apply udp_alone]. }
  assert (Hloop : wp (ground_loop ap args fuel udp_fd bufs idr sc) (fun r s' => ended r s'.2) (g, w4)).
  { unfold ground_loop; apply wp_bind; pose proof fuel_enough as Hfn.
    eapply wp_mono; [apply (ground_turns_going _ _ _ N Hstop ap fuel Hfn Hb fuel (g, w4) Hi Hfuel); cbn; clear -Hfn; lia|].
    intros t [g5 w5] [-> Hi5]; by apply (ground_end_ends udp_fd bufs idr sc sfd). }
  unfold wp in *; destruct (ground_loop ap args fuel udp_fd bufs idr sc (g, w4)) as [r [g5 w5]]; exact Hloop.
Qed.

Lemma close_both fd l c w : c = 0 \/ c = 1 -> owns [HUdp fd] l w -> wp (modify (close_udp fd) ;; _ ← ar8030_link_close l; mret (Some c)) ended w.
Proof using Type.
  intros Hc Ho; apply wp_bind; unfold wp at 1; cbn [modify close_udp ledger_os fst snd].
  apply (link_only_close script); [done|]; apply owns_closed_one; [done|apply not_elem_of_nil|done].
Qed.

Lemma give_mem p base l w (Q : unit -> ledger -> Prop) : owns (mem p ++ base) l w -> NoDup (mem p ++ base) ->
  (forall w', owns base l w' -> NoDup base -> Q tt w') -> wp (modify (free p)) Q w.
Proof using Type.
  intros Ho Hd HQ; apply (wp_dealloc script p base l w Q Ho Hd); intros w' Ho'; apply HQ; [done|by apply list.NoDup_app in Hd as (_ & _ & ?)].
Qed.

Lemma ground_run_ends udp_fd l w : owns [HUdp udp_fd] l w -> wp (ground_run rtp_open ap args fuel udp_fd l) ended w.
Proof using Hstop Hfuel Hrtp.
  intros Ho; unfold ground_run; apply wp_bind; unfold wp at 1; pose proof (Hrtp udp_fd (ga_rtp_max_payload args) w) as Ht.
  destruct (rtp_open udp_fd _ w) as [rtp w1]; cbn [fst snd] in *; apply (ticked_holding _ _ _ Ht) in Ho; clear Ht w.
  change (owns [HUdp udp_fd] l w1) in Ho; assert (Hd : NoDup [HUdp udp_fd]) by (apply NoDup_singleton).
  apply wp_bind, (wp_alloc script _ [HUdp udp_fd] l); [done..|]; intros rb w2 Ho2 Hd2 _; destruct rb as [rb|]; [|by apply close_both; auto].
  apply wp_bind, (wp_alloc script _ (mem (Some rb) ++ [HUdp udp_fd]) l); [done..|]; intros sb w3 Ho3 Hd3 _.
  apply wp_bind, (wp_alloc script _ (mem sb ++ mem (Some rb) ++ [HUdp udp_fd]) l); [done..|]; intros pb w4 Ho4 Hd4 _.
  assert (Hp : mem pb ++ mem sb ++ mem (Some rb) ++ [HUdp udp_fd] ≡ₚ mem sb ++ mem pb ++ mem (Some rb) ++ [HUdp udp_fd])
    by (generalize (mem pb) (mem sb); intros; solve_Permutation).
  rewrite Hp in Hd4; apply (owns_perm _ _ _ _ Hp) in Ho4; clear Hp.
  assert (Hend : wp (modify (free sb) ;; modify (free pb) ;; modify (free (Some rb)) ;;
      modify (close_udp udp_fd) ;; _ ← ar8030_link_close l; mret (Some 1)) ended w4).
  { apply wp_bind, (give_mem sb _ l w4 _ Ho4 Hd4); clear Ho4 Hd4; intros w5 Ho5 Hd5.
    apply wp_bind, (give_mem pb _ l w5 _ Ho5 Hd5); clear Ho5 Hd5; intros w6 Ho6 Hd6.
    apply wp_bind, (give_mem (Some rb) _ l w6 _ Ho6 Hd6); intros w7 Ho7 _; by apply close_both; auto. }
  destruct sb as [sb|]; [|exact Hend]; destruct pb as [pb|]; [|exact Hend].
  apply ground_threads_end; [exact Ho4|exact Hd4|by repeat constructor].
Qed.

Lemma log_ticked path : keeps ticked (rx_log_open (W := ledger) path).
Proof using Type.
  unfold rx_log_open, reopen_log, shift_old_logs; change (Z.to_nat (RX_LOG_KEEP - 1)) with 1%nat; cbn [shift_loop].
  keeps_walk ltac:(intros ?; apply ticked_tick).
Qed.

Lemma ground_start_ends w : holding [] w -> wp (ground_start rtp_open ap args fuel) ended w.
Proof using Hstop Hfuel Hrtp.
  intros Hw; unfold ground_start; apply wp_bind.
  assert (Hlog : wp (match ga_log_path args with Some path => rx_log_open path | None => mret 0 end) (fun _ w' => holding [] w') w).
  { destruct (ga_log_path args) as [path|]; [|by apply wp_ret]; exact (ticked_holding _ _ _ (log_ticked path w) Hw). }
  eapply wp_mono; [exact Hlog|]; clear Hlog Hw; intros ? w0 Hw; assert (Hb : Forall not_of_link []) by done.
  apply wp_bind, (wp_connect script N Hstop [] Hb); [done|apply fuel_enough|]; intros r l w1 Ho1 Hfd Hd Hcl _.
  destruct (Z.eqb_spec r 0) as [->|Hr]; cbn [negb]; [|apply ended_ret; [by left|]; apply (owns_closed [] l); [by apply Hcl|done]].
  apply wp_bind; unfold wp at 1; destruct (rx_open_ok ap [] l (ga_port args) w1 Ho1 Hfd (Hd eq_refl)) as (r2 & n2 & l2 & w2 & E & Ho2 & _); rewrite E; cbn [fst snd].
  destruct (negb (r2 =? 0)); [apply link_only_close; auto|].
  apply wp_bind, (ground_socket script data _ _ l2); [done|intros fd w3 Hfd3 Ho3|intros fd w3 Hfd3 Ho3].
  - rewrite (proj2 (Z.ltb_lt _ _)) by done; apply link_only_close; auto.
  - rewrite (proj2 (Z.ltb_ge _ _)) by done; by apply ground_run_ends.
Qed.
End program.
End ledger.
