(* ===== verification/VideoMain.v ===== *)
(** Both video programs from start to end, threads included: whatever the
    daemon, the radio, the encoder, the sockets, the allocator, the scheduler
    and the clock answer, once they are asked to stop they end, with a defined
    exit code, and give back what they had - all but an air unit that refuses
    one of its [-p] options. *)

From Stdlib Require Import String.
From S2P Require Import Prelude ChunkHdr FrameRing Link Outq Packetizer RtpH265 Os Monad LcText AirMain GroundMain Ledger AirEnds GroundEnds.
#[local] Open Scope Z_scope.

Section ledger.
Context (script : answers) (data : nat -> list Z) (items : nat -> list outq_item) (mapped : nat -> ring_mem) (sched : nat -> list thread).
Context {P : Type} {HP : Packetizer P} (rtp_open : Z -> Z -> M ledger P).

Definition run_air (fuel : nat) (argv : list (list Z)) : option Z * ledger :=
  air_main (HE := ledger_tx_env script items) (HL := ledger_sdk script) (HR := ledger_tx_ring script data mapped) (HO := ledger_os script)
    (HT := ledger_threads script) fuel argv lg_start.

Definition run_ground (slot_ap : Z) (fuel : nat) (argv : list (list Z)) : option Z * ledger :=
  ground_main (H0 := ledger_os script) (H1 := ledger_sdk script) (H2 := ledger_ground_os script data) (H3 := ledger_rx_os script data sched)
    (H4 := ledger_threads script) (H5 := ledger_log script) rtp_open slot_ap fuel argv lg_start.

(** A [-p] of the command line that the controller does not know. *)
Definition refused_param (argv : list (list Z)) : Prop :=
  exists args, tx_parse_args argv = Some args /\ apply_pi_params (tx_args_cfg args) (ta_pi_params args) = None.

Context (N : nat).
(** The stop flag is up for good from call [N] on. *)
Hypothesis Hstop : forall k, (N <= k)%nat -> an_stop script k = true.
(** Setting up the packetizer opens nothing. *)
Hypothesis Hrtp : forall fd m w, ticked w (rtp_open fd m w).2.

(** C5. Both video programs end, and clean up behind them: whatever command
    line they get, whatever the daemon, the radio, the encoder's ring, the
    sockets, the allocator and the clock answer at each call, before the stop and
    after it, and whichever threads run between the calls, once the stop flag is raised they return with
    exit code 0 or 1, having joined every thread they started and closed or freed
    exactly once every session, device, socket, ring and block of memory they
    had obtained - on every error path, across any number of reconnects and of
    restarts of the encoder.  The one exception is the air unit's: a [-p] it
    refuses, after start-up got so far, leaves the ring attached and the link
    with its data socket open. *)
Theorem video_programs_end slot_ap fuel argv : (read_fuel N ground_stream_cap <= fuel)%nat ->
  (exists code w, run_air fuel argv = (Some code, w) /\ 0 <= code <= 1 /\ lg_bad w = false /\
     (lg_open w = [] \/
      refused_param argv /\ code = 1 /\ exists l, 0 <= lk_sockfd l /\ lg_open w ≡ₚ HRing :: link_handles l)) /\
  (exists code w, run_ground slot_ap fuel argv = (Some code, w) /\ 0 <= code <= 1 /\ lg_bad w = false /\ lg_open w = []).
Proof using Hstop Hrtp.
  intros Hf; assert (Hfn : (N < fuel)%nat) by (unfold read_fuel in Hf; rewrite Nat.mul_succ_l in Hf; clear -Hf; nia).
  assert (Hw : holding [] lg_start) by (by constructor); split.
  - pose proof (air_program script data items mapped N Hstop fuel Hfn argv lg_start Hw) as Ha; unfold wp in Ha; unfold run_air.
    destruct (air_main fuel argv lg_start) as [r w]; cbn [fst snd] in Ha; destruct Ha as [Hr Hl].
    assert (Hc : exists code, r = Some code /\ 0 <= code <= 1) by (destruct Hr as [-> | ->]; eexists; (split; [done|lia])).
    destruct Hc as (code & -> & Hc); exists code, w; destruct Hl as [Hl|(Hp & [= ->] & l & Hfd & Hl)].
    + apply holding_none in Hl as [H1 H2]; split_and!; (done || lia || by left).
    + destruct Hl as [Hl Hbad _ _]; split_and!; [done|done|done|done|right]; split_and!; [done|done|by exists l].
  - unfold run_ground, ground_main; destruct (ground_parse_args argv) as [args|]; [|exists 1, lg_start; split_and!; (done || lia)].
    pose proof (ground_start_ends script data sched args N Hstop slot_ap fuel Hf rtp_open Hrtp lg_start Hw) as Hg; unfold wp in Hg.
    destruct (ground_start rtp_open slot_ap args fuel lg_start) as [r w]; cbn [fst snd] in Hg; destruct Hg as [Hr Hl]; apply holding_none in Hl as [H1 H2].
    destruct Hr as [-> | ->]; eexists _, w; split_and!; (done || lia).
Qed.
End ledger.

(** ** Concrete runs: the daemon has a device when it is asked at call [devices],
    and all else is well for sixty calls; then the stop, and from there on
    every call fails *)

Definition well_answers (devices : nat) : answers :=
  mk_answers (fun k => if (k =? devices)%nat then 1 else if (k <? 60)%nat then 0 else -1) (fun _ => 0) (fun _ => [true]) (fun k => 60 <=? k)%nat.
Lemma well_stops devices k : (60 <= k)%nat -> an_stop (well_answers devices) k = true.
Proof. apply Nat.leb_le. Qed.

#[local] Abbreviation demo_rtp := (fun (_ m : Z) (w : ledger) => ((rtp_h265_init 1 2 3 m, @nil (list Z)), lg_tick w)).

Lemma video_programs_end_witness :
  exists fuel code w, run_ground (well_answers 1) (fun _ => [1; 2; 3]) (fun _ => [Idr_thread; Sidecar_thread]) demo_rtp 0 fuel [] = (Some code, w)
    /\ lg_open w = [].
Proof.
  exists (read_fuel 60 ground_stream_cap).
  pose proof (video_programs_end (well_answers 1) (fun _ => [1; 2; 3]) (fun _ => []) (fun _ => demo_mem) (fun _ => [Idr_thread; Sidecar_thread]) demo_rtp 60) as Hth.
  destruct (Hth (well_stops 1) ltac:(intros; apply ticked_tick) 0
    (read_fuel 60 ground_stream_cap) [] ltac:(apply le_n)) as [_ (code & w & E & _ & _ & H)]; exists code, w; exact (conj E H).
Defined.

Example refused_param_leaves_open :
  let '(code, w) := run_air (well_answers 4) (fun _ => []) (fun _ => []) (fun _ => demo_mem) 70 [chars "-s"; chars "0"; chars "-p"; chars "pi_kp_up=1"] in
  code = Some 1 /\ lg_open w = [HRing; HHost 1; HDev 3; HSock 4].
Proof. vm_compute; by split. Qed.
