(* ===== verification/Still.v ===== *)
(** [still/main.c]: one stored picture, published over and over on the frame
    ring in the encoder's place. *)

From stdpp Require Import relations gmap.
From S2P Require Import Prelude Monad LcTuning LcHttp CtlArgs FrameRing TxMain ShmRing.
#[local] Open Scope Z_scope.

Definition MAX_FRAME_BYTES : Z := 256 * 1024.
Definition RING_SLOTS : Z := 4.
Definition DEFAULT_FPS : Z := 5.
(** [DEFAULT_RING_NAME], ["venc_frames"] *)
Definition STILL_RING_NAME : list Z := [118; 101; 110; 99; 95; 102; 114; 97; 109; 101; 115].
Definition VENC_FRAME_CODEC_H265 : Z := 0x01.

(** ** Pure parts *)

(** The option loop on what [getopt] returns, with [optarg]: the exit code of
    [-h] and of anything unknown, or the three locals. *)
Fixpoint still_options (opts : list (Z * list Z)) (file : option (list Z)) (ring_name : list Z) (fps : Z)
    : Z + option (list Z) * list Z * Z :=
  match opts with
  | [] => inr (file, ring_name, fps)
  | (opt, optarg) :: opts =>
      if opt =? 0x66 then still_options opts (Some optarg) ring_name fps
      else if opt =? 0x72 then still_options opts file optarg fps
      else if opt =? 0x46 then still_options opts file ring_name (atoi optarg)
      else inl (if opt =? 0x68 then 0 else 1)
  end.

(** A start code of three or four bytes. *)
Definition is_annexb (buf : list Z) : bool :=
  (4 <? zlen buf) && (byte_at buf 0 =? 0) && (byte_at buf 1 =? 0) &&
  ((byte_at buf 2 =? 1) || ((byte_at buf 2 =? 0) && (byte_at buf 3 =? 1))).

Definition slot_size_for (frame_len : Z) : Z :=
  Z.land (u32 (VENC_FRAME_META_SIZE + frame_len + 4095)) (u32 (Z.lnot 4095)).

(** [VencFrameMeta] with these [pts]. *)
Definition still_meta (pts : Z) : list Z := le_enc 4 pts ++ [VENC_FRAME_CODEC_H265; VENC_FRAME_FLAG_IDR; 0; 0].

(** ** The program

    [fopen_rb]: the file's bytes, as [fread] finds them; [malloc_works]; the
    answers to the ring's creation; the clock's microseconds; and what the other
    processes do to the shared memory during [usleep]. *)
Class StillOs (W : Type) := {
  fopen_rb : list Z -> W -> option (list Z) * W;
  malloc_works : Z -> W -> bool * W;
  ring_answers : W -> create_answers * W;
  monotonic_us : W -> Z * W;
  usleep_us : Z -> W -> (shm_world -> shm_world) * W
}.

(** With the open files and allocated blocks counted. *)
Record still_st (W : Type) := mk_still { ss_shm : shm_world; ss_files : Z; ss_blocks : Z; ss_w : W }.
Arguments mk_still {W} ss_shm ss_files ss_blocks ss_w.
Arguments ss_shm {W} _.
Arguments ss_files {W} _.
Arguments ss_blocks {W} _.
Arguments ss_w {W} _.

Section program.
Context {W : Type} {HS : StillOs W}.

#[local] Abbreviation Ms := (M (still_st W)).

Definition os {A} (m : W -> A * W) : Ms A := fun s =>
  let '(a, w) := m (ss_w s) in (a, mk_still (ss_shm s) (ss_files s) (ss_blocks s) w).
Definition on_shm {A} (m : M shm_world A) : Ms A := fun s =>
  let '(a, sh) := m (ss_shm s) in (a, mk_still sh (ss_files s) (ss_blocks s) (ss_w s)).
Definition count_files (d : Z) : Ms unit := fun s => (tt, mk_still (ss_shm s) (ss_files s + d) (ss_blocks s) (ss_w s)).
Definition count_blocks (d : Z) : Ms unit := fun s => (tt, mk_still (ss_shm s) (ss_files s) (ss_blocks s + d) (ss_w s)).

Definition load_frame (path : list Z) : Ms (option (list Z)) :=
  f ← os (fopen_rb path);
  match f with
  | None => mret None
  | Some contents =>
      count_files 1 ;;
      ok ← os (malloc_works (MAX_FRAME_BYTES + 1));
      when ok (count_blocks 1) ;;
      let buf : list Z := if (ok : bool) then ztake (MAX_FRAME_BYTES + 1) contents else [] in
      count_files (-1) ;;
      if negb ok || (zlen buf =? 0) || (MAX_FRAME_BYTES <? zlen buf) then when ok (count_blocks (-1)) ;; mret None
      else if negb (is_annexb buf) then count_blocks (-1) ;; mret None
      else mret (Some buf)
  end.

(** One write into the mapped object. *)
Definition write_copy (h : handle) (pts : Z) (frame : list Z) : M shm_world handle :=
  o ← object_at (hd_ino h);
  let '(_, m, r) := venc_frame_ring_write (ob_mem o) (hd_ring h) (still_meta pts) frame in
  store (hd_ino h) (fun _ => m) ;;
  mret (mk_handle r (hd_ino h) (hd_name h)).

(** The loop, [turns] times until [g_stop] is seen. *)
Fixpoint still_loop (turns : nat) (fps : Z) (frame : list Z) (h : handle) : Ms handle :=
  match turns with
  | O => mret h
  | S turns =>
      us ← os monotonic_us;
      h ← on_shm (write_copy h (u32 us) frame);
      others ← os (usleep_us (1000000 / fps));
      on_shm (modify others) ;;
      still_loop turns fps frame h
  end.

Definition still_main (opts : list (Z * list Z)) (turns : nat) : Ms Z :=
  match still_options opts None STILL_RING_NAME DEFAULT_FPS with
  | inl code => mret code
  | inr (None, _, _) => mret 1
  | inr (Some file, ring_name, fps) =>
      if (fps <? 1) || (30 <? fps) then mret 1
      else
        frame ← load_frame file;
        match frame with
        | None => mret 1
        | Some frame =>
            a ← os ring_answers;
            ring ← on_shm (shm_ring_create ring_name RING_SLOTS (slot_size_for (zlen frame)) a);
            match ring with
            | None => count_blocks (-1) ;; mret 1
            | Some h =>
                h ← still_loop turns fps frame h;
                on_shm (shm_ring_destroy h) ;;
                count_blocks (-1) ;;
                mret 0
            end
        end
  end.
End program.

(** ** The slot *)

Lemma slot_size_spec len : 0 <= len <= MAX_FRAME_BYTES ->
  VENC_FRAME_META_SIZE + len <= slot_size_for len <= VENC_FRAME_META_SIZE + len + 4095.
Proof.
  unfold MAX_FRAME_BYTES, VENC_FRAME_META_SIZE, slot_size_for; intros Hl; rewrite u32_id by (eval_pow; unfold VENC_FRAME_META_SIZE; lia).
  change (u32 (Z.lnot 4095)) with (Z.ldiff (Z.ones 32) (Z.ones 12)); unfold VENC_FRAME_META_SIZE.
  rewrite Z.ldiff_land, Z.land_assoc, <- Z.ldiff_land, (Z.land_ones (8 + len + 4095)), Z.mod_small by (eval_pow; lia).
  rewrite Z.ldiff_ones_r, Z.shiftl_mul_pow2, Z.shiftr_div_pow2 by lia; change (2 ^ 12) with 4096; dlia.
Qed.

(** A ring for any picture that was accepted. *)
Lemma ring_for_picture len epoch : 0 <= len <= MAX_FRAME_BYTES ->
  exists m p, venc_frame_ring_create RING_SLOTS (slot_size_for len) epoch = Some (m, p).
Proof.
  intros Hl; pose proof (slot_size_spec len Hl) as Hs; unfold MAX_FRAME_BYTES in Hl; unfold venc_frame_ring_create.
  change (is_power_of_2 RING_SLOTS) with true; unfold VENC_FRAME_META_SIZE in *.
  rewrite (proj2 (Z.ltb_ge _ 8)), (proj2 (Z.ltb_ge (2 ^ 32 - 1 - 8) _)) by (eval_pow; lia); cbn [negb orb].
  unfold calc_total_size, RING_SLOTS, VENC_FRAME_RING_HDR_SIZE; rewrite calc_slot_stride_spec by (eval_pow; lia).
  rewrite (u64_id (4 * _)) by dlia; rewrite u64_id by dlia; rewrite (proj2 (Z.ltb_ge _ _)) by (eval_pow; dlia); eauto.
Qed.

(** ** What it leaves behind *)

Lemma others_mine w w' : rtc other_act w w' -> sw_mine w' = sw_mine w /\ sw_fds w' = sw_fds w.
Proof. induction 1 as [w|w w1 w2 Hact _ [IH1 IH2]]; [done|]; rewrite IH1, IH2; by destruct Hact. Qed.

Section ends.
Context {W : Type} {HS : StillOs W}.
Hypothesis Hnap : forall us (w : W) sh, rtc other_act sh ((usleep_us us w).1 sh).

(** Nothing taken or given back. *)
Definition even (s s' : still_st W) : Prop :=
  ss_files s' = ss_files s /\ ss_blocks s' = ss_blocks s /\
  sw_mine (ss_shm s') = sw_mine (ss_shm s) /\ sw_fds (ss_shm s') = sw_fds (ss_shm s).

Definition same_handle (h h' : handle) : Prop :=
  hd_ino h' = hd_ino h /\ hd_name h' = hd_name h /\ rg_is_owner (hd_ring h') = rg_is_owner (hd_ring h).

Lemma write_keeps_owner m p meta data : rg_is_owner (venc_frame_ring_write m p meta data).2 = rg_is_owner p.
Proof.
  unfold venc_frame_ring_write, venc_frame_ring_begin_write, begin_check, venc_frame_ring_append, append_check,
    venc_frame_ring_note_other_drop, venc_frame_ring_commit_write; repeat (case_match; simplify_eq/=; try done).
Qed.

Lemma wp_os {A} (m : W -> A * W) Q s :
  (forall a w, m (ss_w s) = (a, w) -> Q a (mk_still (ss_shm s) (ss_files s) (ss_blocks s) w)) -> wp (os m) Q s.
Proof. unfold wp, os; destruct (m (ss_w s)) as [a w] eqn:E; intros H; by apply H. Qed.
Lemma wp_shm {A} (m : M shm_world A) Q (s : still_st W) :
  (forall a sh, m (ss_shm s) = (a, sh) -> Q a (mk_still sh (ss_files s) (ss_blocks s) (ss_w s))) -> wp (on_shm m) Q s.
Proof. unfold wp, on_shm; destruct (m (ss_shm s)) as [a sh] eqn:E; intros H; by apply H. Qed.
Lemma wp_files d Q (s : still_st W) : Q tt (mk_still (ss_shm s) (ss_files s + d) (ss_blocks s) (ss_w s)) -> wp (count_files d) Q s.
Proof. done. Qed.
Lemma wp_blocks d Q (s : still_st W) : Q tt (mk_still (ss_shm s) (ss_files s) (ss_blocks s + d) (ss_w s)) -> wp (count_blocks d) Q s.
Proof. done. Qed.

Lemma write_copy_run h pts frame w h' w' :
  write_copy h pts frame w = (h', w') -> same_handle h h' /\ sw_mine w' = sw_mine w /\ sw_fds w' = sw_fds w.
Proof.
  unfold write_copy; rewrite (bind_eq (object_at _) _ w _ _ eq_refl).
  destruct (venc_frame_ring_write _ _ _ _) as [[ret m] r] eqn:E; rewrite bind_run; intros [= <- <-].
  pose proof (write_keeps_owner (ob_mem (default (mk_obj 0 0 zero_mem) (sw_objs w !! hd_ino h))) (hd_ring h) (still_meta pts) frame) as Ho.
  by rewrite E in Ho.
Qed.

Lemma still_loop_run turns fps frame : forall h s, wp (still_loop turns fps frame h) (fun h' s' => same_handle h h' /\ even s s') s.
Proof using Hnap.
  induction turns as [|turns IH]; intros h s; cbn [still_loop]; [done|].
  apply wp_bind, wp_os; intros us w1 _; apply wp_bind, wp_shm; intros h1 sh1 (Hh & Hm & Hf)%write_copy_run.
  apply wp_bind, wp_os; intros others w2 Eo; apply wp_bind, wp_shm; intros [] sh2 [= <-]; cbn [ss_shm ss_files ss_blocks ss_w] in *.
  pose proof (Hnap (1000000 / fps) w1 sh1) as Ho; rewrite Eo in Ho; apply others_mine in Ho as [Hm2 Hf2]; cbn [fst] in *.
  eapply wp_mono; [apply IH|]; cbn; intros h' s' [(H1 & H2 & H3) (E1 & E2 & E3 & E4)]; destruct Hh as (G1 & G2 & G3).
  split; [split_and!; congruence|]; split_and!; cbn in *; congruence.
Qed.

Lemma load_frame_run path s :
  wp (load_frame path) (fun r s' => ss_files s' = ss_files s /\ ss_shm s' = ss_shm s /\
    match r with
    | None => ss_blocks s' = ss_blocks s
    | Some frame => ss_blocks s' = ss_blocks s + 1 /\ 4 < zlen frame <= MAX_FRAME_BYTES /\ is_annexb frame = true
    end) s.
Proof.
  unfold load_frame; apply wp_bind, wp_os; intros [contents|] w1 _; [|done].
  apply wp_bind, wp_files, wp_bind, wp_os; intros ok w2 _; cbv zeta; cbn [ss_files ss_blocks ss_shm ss_w].
  apply wp_bind, wp_when; intros ->; [apply wp_blocks|]; apply wp_bind, wp_files; cbn [negb orb ss_files ss_blocks ss_shm ss_w]; cycle 1.
  { apply wp_bind, wp_when; [done|]; intros _; apply wp_ret; cbn; split_and!; done || lia. }
  destruct (_ || _) eqn:E1.
  { apply wp_bind, wp_blocks, wp_ret; cbn; split_and!; done || lia. }
  destruct (is_annexb _) eqn:E2; cbn [negb]; cycle 1.
  { apply wp_bind, wp_blocks, wp_ret; cbn; split_and!; done || lia. }
  apply wp_ret; cbn [ss_files ss_blocks ss_shm]; bool_to_prop; split_and!; try done; try lia.
  unfold is_annexb in E2; bool_to_prop; lia.
Qed.

(** Whatever the system answers and the other processes do, the program ends
    with 0 or 1 once it is asked to stop, and has given back the file, the picture,
    the mapping and the descriptor. *)
Theorem still_ends opts turns s :
  let '(code, s') := still_main opts turns s in (code = 0 \/ code = 1) /\ even s s'.
Proof using Hnap.
  enough (H : wp (still_main opts turns) (fun code s' => (code = 0 \/ code = 1) /\ even s s') s)
    by (unfold wp in H; by destruct (still_main opts turns s)).
  unfold still_main; destruct (still_options _ _ _ _) as [code|[[[file|] name] fps]] eqn:Eo; [|destruct (_ || _)|].
  - apply wp_ret; split; [|done]; clear -Eo; revert Eo; generalize (@None (list Z)), STILL_RING_NAME, DEFAULT_FPS.
    induction opts as [|[opt arg] opts IH]; intros f n d; cbn [still_options]; [done|].
    repeat (destruct (opt =? _); [apply IH || (intros [= <-]; by left)|]); intros [= <-]; by right.
  - apply wp_ret; split; [by right|done].
  - apply wp_bind; eapply wp_mono; [apply load_frame_run|]; intros [frame|] s1 (Hf1 & Hs1 & Hb1); [|apply wp_ret; split; [by right|]];
      [|unfold even; by rewrite Hs1]; destruct Hb1 as (Hb1 & _).
    apply wp_bind, wp_os; intros a w1 _; apply wp_bind, wp_shm; intros [h|] sh Ec; cbn [ss_shm ss_files ss_blocks ss_w] in *.
    + pose proof (create_run _ _ _ _ _ _ _ Ec) as ((m & _ & _ & _ & ->) & Hfd & _).
      apply wp_bind; eapply wp_mono; [apply still_loop_run|]; intros h' s2 [(Hi & Hnm & _) (E1 & E2 & E3 & E4)]; cbn in *.
      apply wp_bind, wp_shm; intros [] sh2 Ed; apply (f_equal snd) in Ed; rewrite destroy_run in Ed; cbn in Ed.
      apply wp_bind, wp_blocks, wp_ret; split; [by left|]; unfold even; cbn; rewrite <- Ed; clear Ed.
      destruct (rg_is_owner _); cbn; rewrite ?Hi, ?E3, ?E4; cbn; rewrite ?Z.eqb_refl, ?Hs1 in *; [destruct (negb _)|];
        cbn; rewrite ?E3, ?E4; cbn; rewrite ?Z.eqb_refl; split_and!; try done; lia.
    + pose proof (create_run _ _ _ _ _ _ _ Ec) as ([_ Hm] & Hfd & _); apply wp_bind, wp_blocks, wp_ret; split; [by right|].
      unfold even; cbn; rewrite Hs1 in *; split_and!; done || lia.
  - apply wp_ret; split; [by right|done].
Qed.
End ends.

(** ** What a reader gets *)

(** One write by a producer between calls, wherever the reader is: the
    frame is published, or the ring is full. *)
Lemma write_outcome n sz buf_size m p c cpc sent got meta data ret m' p' :
  is_power_of_2 n = true -> n < 2 ^ 32 -> VENC_FRAME_META_SIZE <= sz < 2 ^ 32 ->
  ring_inv n sz buf_size (mk_sys m p P_idle c cpc [] sent got) -> rg_write_active p = false ->
  zlen meta = VENC_FRAME_META_SIZE -> zlen (meta ++ data) <= sz -> zlen sent + 1 < 2 ^ 64 ->
  venc_frame_ring_write m p meta data = (ret, m', p') ->
  rg_write_active p' = false /\
  (ret = 0 /\ ring_inv n sz buf_size (mk_sys m' p' P_idle c cpc [] (sent ++ [meta ++ data]) got) \/
   ret = -1 /\ zlen sent = zlen got + n /\ ring_inv n sz buf_size (mk_sys m' p' P_idle c cpc [] sent got)).
Proof.
  intros Hn Hn32 Hsz Hi Ha Hmeta Hfit Hlt Hw; pose proof Hi as [Hm Hp Hc Hwi Hrd Hro _ _ _ _]; unfold y_w, y_rd in *; cbn [y_mem y_p y_sent y_got] in *.
  pose proof (zlen_nonneg got); pose proof (zlen_nonneg data); rewrite zlen_app in Hfit.
  pose proof (begin_check_spec n sz Hsz m p (rl_read_idx (rm_cons m)) Hm Hp ltac:(lia) ltac:(lia)) as Hbc.
  destruct (begin_check m p _) as [[m1 p1]|] eqn:Eb.
  - destruct Hbc as (Hm1 & Hp1 & Ha1 & Er & Ew & Hsl).
    assert (E : (ret, m', p') = (-1, m1, p1)).
    { rewrite <- Hw; unfold venc_frame_ring_write, venc_frame_ring_begin_write; by rewrite Ha, Eb. }
    injection E as -> -> ->; split; [congruence|]; right; split_and!; [done| |].
    + unfold begin_check in Eb; rewrite (mo_count _ _ _ Hm), u64_id, Hp, (proj2 (Z.ltb_ge sz _)) in Eb by lia.
      destruct (n <=? _) eqn:E; [|done]; bool_to_prop; lia.
    + apply (inv_prod n sz buf_size m m1 p P_idle p1 P_idle c cpc [] []); try done.
      unfold prod_ok; cbn [y_ppc y_p]; congruence.
  - assert (E : ret = 0 /\ rg_write_active p' = false).
    { revert Hw; unfold venc_frame_ring_write, venc_frame_ring_begin_write; rewrite Ha, Eb; cbn [Z.eqb negb].
      destruct (0 <? zlen data) eqn:E; bool_to_prop; cycle 1.
      { unfold venc_frame_ring_commit_write; cbn; by intros [= <- _ <-]. }
      unfold venc_frame_ring_append; cbn [rg_write_active with_writing negb orb].
      rewrite (proj2 (Z.eqb_neq _ _)) by lia; unfold append_check.
      cbn [rg_slot_data_size rg_write_offset with_writing]; rewrite Hp, (proj2 (Z.ltb_ge _ _)) by lia.
      unfold venc_frame_ring_commit_write; cbn; by intros [= <- _ <-]. }
    destruct E as [-> Ha']; split; [done|]; left; split; [done|].
    apply (ring_inv_reachable n sz buf_size Hn Hn32 Hsz _ _ (write_steps buf_size m p c cpc [] sent got meta data m' p' Hmeta Hw) Hi).
    cbn [y_sent]; rewrite zlen_app; exact Hlt.
Qed.

Section pictures.
Context (frame : list Z) (buf_size : Z).

(** The program's writes, between the reader's accesses. *)
Inductive still_step : sys -> sys -> Prop :=
  | t_write pts m p c cpc sent got ret m' p' :
      venc_frame_ring_write m p (still_meta pts) frame = (ret, m', p') ->
      still_step (mk_sys m p P_idle c cpc [] sent got)
        (mk_sys m' p' P_idle c cpc [] (if ret =? 0 then sent ++ [still_meta pts ++ frame] else sent) got)
  | t_read y y' : ring_step buf_size y y' ->
      y_p y' = y_p y -> y_ppc y' = y_ppc y -> y_open y' = y_open y -> y_sent y' = y_sent y -> still_step y y'.

Definition copy_of_picture (f : list Z) : Prop := exists pts, f = still_meta pts ++ frame.

Lemma still_step_sent y y' : still_step y y' -> zlen (y_sent y) <= zlen (y_sent y').
Proof.
  destruct 1 as [pts m p c cpc sent got ret m' p' H|y y' Hs _ _ _ E]; [|rewrite E; lia].
  cbn [y_sent]; destruct (ret =? 0); [|lia]; rewrite zlen_app; pose proof (zlen_nonneg [still_meta pts ++ frame]); lia.
Qed.

Record still_inv (sz : Z) (y : sys) : Prop := {
  sti_ring : ring_inv RING_SLOTS sz buf_size y;
  sti_idle : y_ppc y = P_idle /\ rg_write_active (y_p y) = false /\ y_open y = [];
  sti_sent : Forall copy_of_picture (y_sent y)
}.

Lemma zlen_still_meta pts : zlen (still_meta pts) = VENC_FRAME_META_SIZE.
Proof. unfold still_meta; by rewrite zlen_app. Qed.

Lemma still_step_inv sz y y' :
  VENC_FRAME_META_SIZE <= sz < 2 ^ 32 -> VENC_FRAME_META_SIZE + zlen frame <= sz ->
  still_step y y' -> still_inv sz y -> zlen (y_sent y') < 2 ^ 64 - 1 -> still_inv sz y'.
Proof.
  intros Hsz Hfit Hs [Hi (Hidle & Ha & Ho) Hall] Hlt; pose proof (still_step_sent y y' Hs) as Hmono.
  destruct Hs as [pts m p c cpc sent got ret m' p' Hw|y y' Hs Ep Epc Eo Es]; cycle 1.
  { constructor; [|by rewrite Ep, Epc, Eo|by rewrite Es].
    apply (ring_inv_reachable RING_SLOTS sz buf_size eq_refl ltac:(done) Hsz y y' (rtc_once _ _ Hs) Hi); lia. }
  cbn [y_p y_sent y_open] in *.
  destruct (write_outcome RING_SLOTS sz buf_size m p c cpc sent got (still_meta pts) frame ret m' p' eq_refl ltac:(done) Hsz Hi Ha
    (zlen_still_meta pts) ltac:(rewrite zlen_app, zlen_still_meta; lia) ltac:(lia) Hw) as [Ha' [[-> Hi']|(-> & _ & Hi')]]; cbn [Z.eqb].
  - constructor; [done..|]; apply Forall_app; split; [done|]; apply Forall_singleton; by exists pts.
  - by constructor.
Qed.

Lemma still_inv_reachable sz y y' :
  VENC_FRAME_META_SIZE <= sz < 2 ^ 32 -> VENC_FRAME_META_SIZE + zlen frame <= sz ->
  rtc still_step y y' -> still_inv sz y -> zlen (y_sent y') < 2 ^ 64 - 1 -> still_inv sz y'.
Proof.
  intros Hsz Hfit; induction 1 as [y|y y1 y2 Hs Hr IH]; intros Hi Hlt; [done|]; apply IH; [|done].
  apply (still_step_inv sz y); try done; enough (zlen (y_sent y1) <= zlen (y_sent y2)) by lia; clear -Hr.
  induction Hr as [|a b d Hs' _ IH']; [lia|]; apply still_step_sent in Hs'; lia.
Qed.
End pictures.

(** C30. The stored picture is all a reader ever sees, and it sees it
    whole: for any picture the program accepts there is a ring, a copy is only
    ever dropped because all four slots are waiting, and every entry a reader
    takes, at whatever moment and however its accesses fall between the writes,
    is a keyframe's metadata with the file's bytes behind it. *)
Theorem still_pictures frame epoch buf_size c :
  4 < zlen frame <= MAX_FRAME_BYTES -> rg_slot_data_size c = slot_size_for (zlen frame) -> slot_size_for (zlen frame) <= buf_size ->
  exists m p, venc_frame_ring_create RING_SLOTS (slot_size_for (zlen frame)) epoch = Some (m, p) /\
  forall y, rtc (still_step frame buf_size) (ring_start m p c) y -> zlen (y_sent y) < 2 ^ 64 - 1 ->
    Forall (fun out => exists pts, out = Some (still_meta pts ++ frame)) (y_got y) /\
    forall pts, (venc_frame_ring_write (y_mem y) (y_p y) (still_meta pts) frame).1.1 <> 0 -> zlen (y_sent y) = zlen (y_got y) + RING_SLOTS.
Proof.
  intros Hl Hc Hbuf; destruct (ring_for_picture (zlen frame) epoch ltac:(lia)) as (m & p & Hcr); exists m, p; split; [done|].
  pose proof (slot_size_spec (zlen frame) ltac:(lia)) as Hslot; intros y Hr Hlt; unfold MAX_FRAME_BYTES in Hl.
  assert (Hsz : VENC_FRAME_META_SIZE <= slot_size_for (zlen frame) < 2 ^ 32) by (unfold VENC_FRAME_META_SIZE in *; eval_pow; lia).
  destruct (create_geometry _ _ _ _ _ Hcr) as (_ & _ & _ & _ & Ha & _).
  assert (Hi : still_inv frame buf_size (slot_size_for (zlen frame)) (ring_start m p c)).
  { constructor; [by apply (ring_inv_start _ _ epoch)|done|apply Forall_nil_2]. }
  apply (still_inv_reachable frame buf_size _ _ _ Hsz ltac:(lia) Hr) in Hi; [|done].
  destruct Hi as [Hi (Hidle & Hact & Ho) Hall]; destruct y as [m1 p1 ppc c1 cpc op sent got]; cbn [y_ppc y_p y_open y_sent y_mem y_got] in *; subst ppc op.
  split.
  - apply list.Forall_forall; intros out Hout; apply list_elem_of_lookup in Hout as [i Hout].
    destruct (ri_got _ _ _ _ Hi i out Hout) as (f & Hf & Hor); cbn [y_sent] in Hf.
    apply (Forall_lookup_1 _ _ _ _ Hall) in Hf as [pts ->]; exists pts; destruct Hor as [|[_ Hbig]]; [done|exfalso].
    rewrite zlen_app, zlen_still_meta in Hbig; lia.
  - intros pts Hne; destruct (venc_frame_ring_write m1 p1 (still_meta pts) frame) as [[ret m2] p2] eqn:Ew.
    destruct (write_outcome RING_SLOTS (slot_size_for (zlen frame)) buf_size m1 p1 c1 cpc sent got (still_meta pts) frame ret m2 p2 eq_refl ltac:(done) Hsz Hi Hact
      (zlen_still_meta pts) ltac:(rewrite zlen_app, zlen_still_meta; lia) ltac:(lia) Ew) as [_ [[-> _]|(_ & H & _)]]; [done|exact H].
Qed.

Lemma still_pictures_witness :
  exists m p, venc_frame_ring_create RING_SLOTS 4096 77 = Some (m, p) /\
  forall y, rtc (still_step [0; 0; 1; 38; 1] 4096) (ring_start m p (mk_ring 4104 4096 16608 false stats_zero 0 false)) y ->
    zlen (y_sent y) < 2 ^ 64 - 1 ->
    Forall (fun out => exists pts, out = Some (still_meta pts ++ [0; 0; 1; 38; 1])) (y_got y) /\
    forall pts, (venc_frame_ring_write (y_mem y) (y_p y) (still_meta pts) [0; 0; 1; 38; 1]).1.1 <> 0 ->
      zlen (y_sent y) = zlen (y_got y) + RING_SLOTS.
Proof.
  exact (still_pictures [0; 0; 1; 38; 1] 77 4096 (mk_ring 4104 4096 16608 false stats_zero 0 false)
           ltac:(vm_compute; done) ltac:(reflexivity) ltac:(vm_compute; done)).
Defined.
